(* ===== verification/_CoqProject ===== *)
-Q . S2P
Prelude.v
CBits.v
Heap.v
Hash.v
HashMap.v
CString.v
Printf.v
Tty.v
Ata.v
Lock.v
PhysMem.v
Paging.v
Cow.v
AddrSpace.v
Fork.v
Sched.v
Ext2Layout.v
Ext2Bitmap.v
Ext2Fs.v
Ext2Alloc.v
Ext2Choose.v
Ext2Inode.v
Ext2Iter.v
Ext2Dir.v
Pid.v
Cred.v
FdTable.v
Mman.v
Vfs.v
Devfs.v
Namei.v
FsCalls.v
Signal.v
Wait.v
ProcCtl.v
Pipe.v
Sha256.v
