(* ===== verification/Prelude.v ===== *)
(** * PML kernel verification library

    PML is a monolithic x86-64 kernel in C. Its parts, and how they meet:
    the heap (kernel/heap.c) hands memory to everything else; util/ has the hash
    functions, maps, strings, locks and formatted output that the other parts
    use; arch/x86_64 owns page frames, page tables, page faults and threads;
    kernel/ has processes, signals, waiting, descriptors and mappings;
    drivers/fs is the layer of virtual files with paths, permissions, pipes and
    the file system calls, and below it are the ext2 driver (drivers/fs/ext2) and
    the device files (drivers/fs/devfs.c), behind which are the terminals and the
    disks.

    ** How code is represented

    A C integer of w bits is a [Z] and every operation that can leave the range
    is written with its wrap-around ([u32], [s32], ...). A function is a Rocq
    function with the same control flow: pure code directly, code on a state in
    the monad [M S A := S -> option (A * S)], where [None] is undefined behaviour
    (a wild access, a lock taken twice) or an exhausted bound of a loop, and code
    that sets [errno] with results of type [res]. Theorems establish [Some]: they
    show that the code returns and does not run into undefined behaviour, for
    every bound from the given one on. Memory is as abstract as the code allows:
    bytes in [CString] and [Ext2Layout], 16-byte cells in [Heap], words of
    physical memory in [PhysMem], objects by their addresses in [Namei]. What is
    not in the repository's C files (drivers called through operation vectors,
    the outcome of an allocation, the block device) is an argument: a record of
    functions, a list of outcomes, or a class whose laws are stated where it is
    declared ([driver_ok], [KernelMap], [MapKey], [BlockDevice]). The vector of
    functions of a terminal's output has a class too ([OutputModel]), which the
    text screen implements. The ATA controller is reached through port functions
    on any hardware state; what the ATA standard promises of it is the class
    [Controller]. What byte ranges need of a drive are the classes [Disk] and
    [WritableDisk]: drives in programmed mode are proved to be instances, of the
    second one only under the assumption [Prompt], because the driver sends a
    command while the drive may be busy. [Emulator] is a controller with disks.

    ** Files

    - [Prelude]: integers, arrays with bounds ([l.[i]]), the monad and its laws,
      error numbers, bit-level lemmas and tactics shared by all files.
    - [CBits]: the inline functions of include/stdlib.h.
    - [Heap]: kernel/heap.c, [kh_init], [kh_alloc_aligned], [kh_realloc], [kh_free].
    - [Hash], [HashMap], [Sha256], [CString], [Lock]: util/siphash.c, crc16.c,
      crc32.c, map.c, sha256.c, the memory and string functions, lock.c.
    - [Printf]: util/printf.c, [vsnprintf] and the functions built on it.
    - [Tty]: drivers/tty.c, ttydev.c, ioctl.c, vgatext.c and ps2kbd.c.
    - [Ata]: drivers/ata.c, sectors and byte ranges of disks.
    - [PhysMem], [Paging], [AddrSpace]: arch/x86_64/mm.c, the page frames, the
      page tables, and the loops over whole address spaces with the break.
    - [Cow]: arch/x86_64/page-fault.c. [Fork], [Sched]: arch/x86_64/thread.c.
    - [Ext2Layout], [Ext2Bitmap], [Ext2Fs], [Ext2Alloc], [Ext2Choose]: the
      structures of include/pml/ext2fs.h, bitarray.c and bitmap.c, and the parts
      of util.c, checksum.c and super.c that allocate blocks and inodes.
    - [Ext2Inode]: the inodes of util.c with their cache and checksums, and bmap.c.
    - [Ext2Iter]: the walk of util.c over the blocks of a file, on [Ext2Inode].
    - [Ext2Dir]: the directories of util.c, link.c and checksum.c: walking over the
      entries, looking up, adding and expanding, on [Ext2Iter].
    - [Pid], [Cred]: kernel/pid.c, identifiers and groups, credentials.
    - [FdTable]: kernel/fd.c. [Mman]: kernel/mman.c. [Vfs]: drivers/fs/perm.c and
      vnops.c.
    - [Devfs]: kernel/device.c and drivers/fs/devfs.c, on [HashMap], [Tty], [Ata].
    - [Namei]: drivers/fs/vtree.c, vnode.c and the mount points of mount.c.
    - [FsCalls]: drivers/fs/syscall.c, on top of the three before.
    - [Signal], [Wait], [ProcCtl]: kernel/signal.c, wait.c, process.c and
      arch/x86_64/exit.c. [Pipe]: drivers/fs/pipe.c.

    ** What the theorems show

    - Memory: the heap implements a set of disjoint blocks with their contents
      through every sequence of calls with alignments up to 16, and freeing merges
      a block with its free neighbours; page frames are never handed out twice;
      mapping and unmapping change one translation; a write fault never changes
      what another address space sees, and a fork leaves both sides isolated;
      growing the break maps exactly the new range; mapped regions stay apart and
      translate to new frames, and unmapping leaves what is left of each region.
    - Scheduling: every running thread has its turn within a bounded number of
      switches; a spinlock excludes all others in every interleaving.
    - Processes: identifiers are unique, the process table is a map, no sequence
      of calls gains a user ID, signals reach only permitted processes and are
      delivered in the order of their queues, the status of a child reaches its
      parent, sessions stay consistent.
    - Files: a path means the same file whatever is cached; open, access and
      chdir act on that file, keep the descriptor tables consistent and give
      back what they took; directories change only with permission; permissions
      follow the mode; descriptors never dangle; a pipe is a queue.
    - Terminals: what is typed at the console reaches its readers as the edited
      line; what is written appears on the screen as a terminal given as a
      function shows it, and no store leaves the buffers or the screen.
    - Disks and device files: registers name the sector that is meant; reading
      sectors, or any bytes of a disk or partition, from a drive in programmed mode
      gives what the drive holds and changes nothing; registered devices are found
      by name and by number, and reading their files reaches the disk or the typed
      line.
    - ext2: bitmaps are sets, the allocator keeps bitmap, group and total counts
      in step and its checksums valid, searches end, fields of the on-disk
      structures do not overlap; an inode that is written is read back and no
      byte outside its slot in the table changes, the map of blocks follows the
      tree of indirect blocks on the device, and a name is looked up as the first
      entry of the directory that has it.
    - Library: hash maps are finite maps through every growth; crc32, crc16,
      siphash and SHA-256 compute their definitions; string functions that work
      on words do what those on bytes do; number conversion is a round trip, and
      formatted output stays within its buffer.

    Lemmas named for a defect (at the end of most files) show inputs on which the
    code does not do what its comments say. Where a theorem leaves such inputs out,
    its comment says so and names the lemma.

    ** Bounds

    Loops take a bound as a natural number, and each theorem names one that is
    enough: the length of the data for string functions, the size of a table for
    searches, the number of frames for the frame allocator, 34 for nested links
    (SYMLOOP_MAX and two), (processes + 1) times the threads of a process for the
    scheduler; a status register is polled as often as the laws of the controller
    let it read busy. Reference counts of 32 bits are assumed not to be exhausted where
    a theorem says so.

    ** Not modelled

    The detection of drives and the other register-level drivers (PCI, ACPI,
    timers, serial lines), boot code, interrupt tables and all assembly: their
    behaviour is that of hardware which the repository does not describe.
    Removing directory entries, extents, opening and file contents of ext2 and
    ELF loading are not modelled; the functions on extents are arguments of the
    block map and of the walk over blocks. The endless waits of [sys_pause] and [sys_sigsuspend] have no result to state. *)

From Stdlib Require Export ZArith Lia.
From stdpp Require Export base list gmap numbers option tactics relations.

Open Scope Z_scope.

(** ** Machine integers

    A w-bit unsigned integer is a [Z] in the range from 0 to 2^w - 1; every C
    operation that can leave the range is written with its wrap-around. *)

Definition wrap (w x : Z) : Z := x mod 2 ^ w.
Abbreviation u8 := (wrap 8).
Abbreviation u16 := (wrap 16).
Abbreviation u32 := (wrap 32).
Abbreviation u64 := (wrap 64).

(** The value of a conversion to a signed w-bit type (two's complement). *)
Definition swrap (w x : Z) : Z :=
  let y := x mod 2 ^ w in if y <? 2 ^ (w - 1) then y else y - 2 ^ w.
Abbreviation s32 := (swrap 32).
Abbreviation s64 := (swrap 64).

Abbreviation ULONG_MAX := 18446744073709551615.

(** [if (x)] on an integer. *)
Definition truthy (x : Z) : bool := negb (x =? 0).

(** ** Error numbers (include/pml/errno.h)

    The functions of the kernel report an error by setting [errno] and
    returning a sentinel (-1, NULL, MAP_FAILED); the model returns [Err e]. *)

Inductive errno :=
| EPERM | ENOENT | ESRCH | EINTR | EIO | EBADF | ECHILD | EAGAIN | ENOMEM
| EACCES | EFAULT | EBUSY | EEXIST | EXDEV | ENOTDIR | EISDIR | EINVAL
| ENFILE | EMFILE | ENOTTY | EFBIG | ENOSPC | ESPIPE | EROFS | EPIPE | ENOSYS | ELOOP
| EUCLEAN | ENOTSUP | EOVERFLOW.

#[export] Instance errno_eq_dec : EqDecision errno.
Proof. solve_decision. Defined.

Inductive res (A : Type) := Ok (a : A) | Err (e : errno).
Arguments Ok {A} a.
Arguments Err {A} e.

(** ** Arrays indexed by machine integers

    An access outside the bounds of the array is undefined behaviour: the
    model returns [None]. *)

Definition zlen {A} (l : list A) : Z := Z.of_nat (length l).

Definition zlookup {A} (l : list A) (i : Z) : option A :=
  if i <? 0 then None else l !! Z.to_nat i.

Definition zstore {A} (l : list A) (i : Z) (x : A) : option (list A) :=
  match zlookup l i with
  | Some _ => Some (<[Z.to_nat i := x]> l)
  | None => None
  end.

Declare Scope carray_scope.
Delimit Scope carray_scope with carray.
Notation "l .[ i ]" := (zlookup l i)
  (at level 1, i at level 200, left associativity, format "l .[ i ]") : carray_scope.
Notation "l .[ i <- x ]" := (zstore l i x)
  (at level 1, i at level 200, x at level 200, left associativity,
   format "l .[ i  <-  x ]") : carray_scope.
Open Scope carray_scope.

Create HintDb carray.
Create Rewrite HintDb carray.

Section arrays.
Context {A : Type}.
Implicit Types (l : list A) (i j : Z) (x : A).

Lemma zlen_nonneg l : 0 <= zlen l.
Proof. unfold zlen. lia. Qed.

Lemma zlookup_is_Some l i : is_Some (l.[i]) <-> 0 <= i < zlen l.
Proof.
  unfold zlookup, zlen. destruct (Z.ltb_spec i 0).
  - split; [intros [? [=]] | lia].
  - rewrite lookup_lt_is_Some. lia.
Qed.

Lemma zlookup_Some_lt l i x : l.[i] = Some x -> 0 <= i < zlen l.
Proof. intros H. apply zlookup_is_Some. eauto. Qed.

Lemma zlookup_lt_Some l i : 0 <= i < zlen l -> exists x, l.[i] = Some x.
Proof. intros H. apply zlookup_is_Some in H. destruct H; eauto. Qed.

Lemma zlookup_None l i : ~ (0 <= i < zlen l) -> l.[i] = None.
Proof.
  intros H. destruct (l.[i]) eqn:E; [|done].
  apply zlookup_Some_lt in E. lia.
Qed.

Lemma zlookup_nat l (n : nat) : l.[Z.of_nat n] = l !! n.
Proof.
  unfold zlookup. destruct (Z.ltb_spec (Z.of_nat n) 0); [lia|].
  by rewrite Nat2Z.id.
Qed.

Lemma zstore_lt l i x : 0 <= i < zlen l -> l.[i <- x] = Some (<[Z.to_nat i := x]> l).
Proof. intros H. destruct (zlookup_lt_Some l i H) as [y Hy]. unfold zstore. by rewrite Hy. Qed.

Lemma zstore_Some l i x l' :
  l.[i <- x] = Some l' -> 0 <= i < zlen l /\ l' = <[Z.to_nat i := x]> l.
Proof.
  unfold zstore. destruct (l.[i]) eqn:E; intros [= <-].
  apply zlookup_Some_lt in E. auto.
Qed.

Lemma zstore_len l i x l' : l.[i <- x] = Some l' -> zlen l' = zlen l.
Proof. intros [_ ->]%zstore_Some. unfold zlen. by rewrite length_insert. Qed.

Lemma zlookup_zstore l i x l' j :
  l.[i <- x] = Some l' -> l'.[j] = if j =? i then Some x else l.[j].
Proof.
  intros [Hi ->]%zstore_Some. unfold zlookup, zlen in *.
  destruct (Z.ltb_spec j 0), (Z.eqb_spec j i); try lia; try done.
  - subst. rewrite list_lookup_insert_eq; [done | lia].
  - rewrite list_lookup_insert_ne; [done | lia].
Qed.

Lemma zlookup_insert_same l i x : 0 <= i < zlen l -> (<[Z.to_nat i := x]> l).[i] = Some x.
Proof.
  intros Hi. unfold zlookup, zlen in *. destruct (Z.ltb_spec i 0); [lia|].
  apply list_lookup_insert_eq. lia.
Qed.
End arrays.

#[export] Hint Resolve zlen_nonneg : carray.

Lemma zlen_app {A} (l1 l2 : list A) : zlen (l1 ++ l2) = zlen l1 + zlen l2.
Proof. unfold zlen. rewrite length_app. lia. Qed.

Lemma zlen_cons {A} (x : A) l : zlen (x :: l) = 1 + zlen l.
Proof. unfold zlen. simpl. lia. Qed.

Lemma zlookup_app_old {A} (l l' : list A) i x : l.[i] = Some x -> (l ++ l').[i] = Some x.
Proof. unfold zlookup. destruct (i <? 0); [done|]. apply lookup_app_l_Some. Qed.

Lemma zlookup_snoc {A} (l : list A) x : (l ++ [x]).[zlen l] = Some x.
Proof. unfold zlookup, zlen. destruct (Z.ltb_spec (Z.of_nat (length l)) 0); [lia|]. rewrite Nat2Z.id. by apply list_lookup_middle. Qed.

Lemma zlen_nil {A} : zlen (@nil A) = 0.
Proof. done. Qed.

Lemma zlen_replicate {A} (n : nat) (x : A) : zlen (replicate n x) = Z.of_nat n.
Proof. unfold zlen. by rewrite length_replicate. Qed.

(** [memcpy] of [data] to offset [off] of a block. *)
Definition blit {A} (b : list A) (off : Z) (data : list A) : option (list A) :=
  if (0 <=? off) && (off + zlen data <=? zlen b)
  then Some (take (Z.to_nat off) b ++ data ++ drop (Z.to_nat (off + zlen data)) b) else None.

Lemma blit_spec {A} (b : list A) off data :
  0 <= off -> off + zlen data <= zlen b ->
  exists b', blit b off data = Some b' /\ zlen b' = zlen b /\
    take (Z.to_nat (off + zlen data)) b' = take (Z.to_nat off) b ++ data.
Proof.
  intros Ho Hl. unfold blit. destruct (Z.leb_spec 0 off), (Z.leb_spec (off + zlen data) (zlen b)); try lia.
  eexists. split; [done|]. unfold zlen in *. split.
  - rewrite !length_app, length_take, length_drop. lia.
  - rewrite app_assoc, take_app_length'; [done|]. rewrite length_app, length_take. lia.
Qed.

Lemma blit_lookup {A} (b : list A) off d b' i : blit b off d = Some b' ->
  b' !! i = if decide (off <= Z.of_nat i < off + zlen d) then d !! (i - Z.to_nat off)%nat else b !! i.
Proof.
  unfold blit. destruct (Z.leb_spec 0 off), (Z.leb_spec (off + zlen d) (zlen b)); try done. cbn [andb].
  intros [= <-]. unfold zlen in *. case_decide.
  - rewrite lookup_app_r, length_take by (rewrite length_take; lia).
    rewrite lookup_app_l by lia. f_equal. lia.
  - destruct (decide (i < Z.to_nat off)%nat).
    + rewrite lookup_app_l by (rewrite length_take; lia). by rewrite lookup_take_lt.
    + rewrite lookup_app_r, length_take by (rewrite length_take; lia).
      rewrite lookup_app_r, lookup_drop by lia. f_equal. lia.
Qed.

Lemma blit_len {A} (b : list A) off d b' : blit b off d = Some b' -> zlen b' = zlen b.
Proof.
  unfold blit. destruct (Z.leb_spec 0 off), (Z.leb_spec (off + zlen d) (zlen b)); try done. cbn [andb].
  intros [= <-]. unfold zlen in *. rewrite !length_app, length_take, length_drop. lia.
Qed.

Lemma blit_some {A} (b : list A) off d : 0 <= off -> off + zlen d <= zlen b -> is_Some (blit b off d).
Proof. intros H1 H2. unfold blit. destruct (Z.leb_spec 0 off), (Z.leb_spec (off + zlen d) (zlen b)); try lia. by eexists. Qed.

(** The [n] bytes at an offset of a buffer. *)
Definition slice {A} (buf : list A) (off n : Z) : option (list A) :=
  if (0 <=? off) && (0 <=? n) && (off + n <=? zlen buf)
  then Some (take (Z.to_nat n) (drop (Z.to_nat off) buf)) else None.

Lemma slice_len {A} (buf : list A) off n l : slice buf off n = Some l -> zlen l = n.
Proof.
  unfold slice. destruct (Z.leb_spec 0 off), (Z.leb_spec 0 n), (Z.leb_spec (off + n) (zlen buf)); try done.
  cbn [andb]. intros [= <-]. unfold zlen in *. rewrite length_take, length_drop. lia.
Qed.

Lemma slice_blit {A} (b : list A) off d b' : blit b off d = Some b' -> slice b' off (zlen d) = Some d.
Proof.
  unfold blit, slice. destruct (Z.leb_spec 0 off), (Z.leb_spec (off + zlen d) (zlen b)); try done. cbn [andb].
  intros [= <-]. pose proof (zlen_nonneg d). destruct (Z.leb_spec 0 (zlen d)); [|lia].
  unfold zlen in *. rewrite !length_app, length_take, length_drop.
  destruct (Z.leb_spec (off + Z.of_nat (length d)) (Z.of_nat (Nat.min (Z.to_nat off) (length b) +
    (length d + (length b - Z.to_nat (off + Z.of_nat (length d))))))); [|lia]. cbn [andb]. f_equal.
  rewrite drop_app_length' by (rewrite length_take; lia). by rewrite Nat2Z.id, take_app_length.
Qed.

#[export] Hint Rewrite @zlen_app @zlen_cons @zlen_nil @zlen_replicate : carray.

(** ** Bit-level reasoning *)

Lemma wrap_range w x : 0 <= w -> 0 <= wrap w x < 2 ^ w.
Proof. intros Hw. apply Z.mod_pos_bound. apply Z.pow_pos_nonneg; lia. Qed.

Lemma wrap_small w x : 0 <= x < 2 ^ w -> wrap w x = x.
Proof. apply Z.mod_small. Qed.

Lemma wrap_wrap w x : 0 <= w -> wrap w (wrap w x) = wrap w x.
Proof. intros. apply wrap_small, wrap_range; lia. Qed.

Lemma testbit_wrap w x i : 0 <= w -> Z.testbit (wrap w x) i = (i <? w) && Z.testbit x i.
Proof.
  intros Hw. unfold wrap. destruct (Z.ltb_spec i w).
  - destruct (Z.ltb_spec i 0); [by rewrite !Z.testbit_neg_r by lia|].
    by rewrite Z.mod_pow2_bits_low by lia.
  - by rewrite Z.mod_pow2_bits_high by lia.
Qed.

Lemma testbit_high w x i : 0 <= x < 2 ^ w -> w <= i -> Z.testbit x i = false.
Proof.
  intros Hx Hi. destruct (Z.ltb_spec w 0); [rewrite Z.pow_neg_r in Hx by lia; lia|].
  rewrite <- (wrap_small w x Hx), testbit_wrap by lia.
  destruct (Z.ltb_spec i w); [lia | done].
Qed.

(** A number whose bits above [w] are clear is below [2 ^ w]. *)
Lemma bits_bound w x :
  0 <= w -> 0 <= x -> (forall i, w <= i -> Z.testbit x i = false) -> x < 2 ^ w.
Proof.
  intros Hw Hx H. rewrite <- (Z.mod_small x (2 ^ Z.max w (Z.log2 x + 1))).
  2: { split; [done|]. apply Z.lt_le_trans with (2 ^ (Z.log2 x + 1)).
       - destruct (Z.eq_dec x 0) as [->|]; [done|]. apply Z.log2_spec; lia.
       - apply Z.pow_le_mono_r; lia. }
  replace (x mod 2 ^ Z.max w (Z.log2 x + 1)) with (wrap w x); [apply wrap_range; lia|].
  apply Z.bits_inj'. intros i Hi.
  change (x mod 2 ^ Z.max w (Z.log2 x + 1)) with (wrap (Z.max w (Z.log2 x + 1)) x).
  rewrite !testbit_wrap by lia.
  destruct (Z.ltb_spec i w), (Z.ltb_spec i (Z.max w (Z.log2 x + 1))); try lia; simpl; auto.
  rewrite H by lia. done.
Qed.

Lemma lor_bound w x y : 0 <= w -> 0 <= x < 2 ^ w -> 0 <= y < 2 ^ w -> 0 <= Z.lor x y < 2 ^ w.
Proof.
  intros Hw Hx Hy. assert (0 <= Z.lor x y) by (apply Z.lor_nonneg; lia).
  split; [done|]. apply bits_bound; auto. intros i Hi.
  rewrite Z.lor_spec, !(testbit_high w) by lia. done.
Qed.

Lemma lxor_bound w x y : 0 <= w -> 0 <= x < 2 ^ w -> 0 <= y < 2 ^ w -> 0 <= Z.lxor x y < 2 ^ w.
Proof.
  intros Hw Hx Hy. assert (0 <= Z.lxor x y) by (apply Z.lxor_nonneg; lia).
  split; [done|]. apply bits_bound; auto. intros i Hi.
  rewrite Z.lxor_spec, !(testbit_high w) by lia. done.
Qed.

Lemma land_bound_l w x y : 0 <= w -> 0 <= x < 2 ^ w -> 0 <= Z.land x y < 2 ^ w.
Proof.
  intros Hw Hx. assert (0 <= Z.land x y) by (apply Z.land_nonneg; lia).
  split; [done|]. apply bits_bound; auto. intros i Hi.
  rewrite Z.land_spec, (testbit_high w x) by lia. done.
Qed.

Lemma testbit_1 i : Z.testbit 1 i = (i =? 0).
Proof.
  destruct (Z.eqb_spec i 0) as [->|]; [done|].
  destruct (Z.ltb_spec i 0); [by apply Z.testbit_neg_r|].
  apply (testbit_high 1); [done|lia].
Qed.

Lemma testbit_shl1 k i : 0 <= k -> Z.testbit (Z.shiftl 1 k) i = (i =? k).
Proof.
  intros Hk. destruct (Z.ltb_spec i 0).
  - rewrite Z.testbit_neg_r by lia. destruct (Z.eqb_spec i k); [lia | done].
  - rewrite Z.shiftl_spec, testbit_1 by lia.
    destruct (Z.eqb_spec (i - k) 0), (Z.eqb_spec i k); lia.
Qed.

(** [x & (1 << k)] is non-zero exactly when bit [k] of [x] is set. *)
Lemma land_shl1 x k : 0 <= k -> truthy (Z.land x (Z.shiftl 1 k)) = Z.testbit x k.
Proof.
  intros Hk. unfold truthy. destruct (Z.testbit x k) eqn:E.
  - destruct (Z.eqb_spec (Z.land x (Z.shiftl 1 k)) 0) as [H|]; [|done].
    apply (f_equal (fun z => Z.testbit z k)) in H.
    rewrite Z.land_spec, testbit_shl1, E, Z.eqb_refl, Z.testbit_0_l in H by lia. done.
  - replace (Z.land x (Z.shiftl 1 k)) with 0; [done|].
    apply Z.bits_inj'. intros i Hi. rewrite Z.land_spec, testbit_shl1, Z.testbit_0_l by lia.
    destruct (Z.eqb_spec i k) as [->|]; [by rewrite E | by rewrite andb_false_r].
Qed.

Create Rewrite HintDb cbits.
#[export] Hint Rewrite Z.land_spec Z.lor_spec Z.lxor_spec : cbits.
#[export] Hint Rewrite Z.shiftl_spec Z.shiftr_spec Z.lnot_spec testbit_wrap using lia : cbits.

(** Reduces an equality of integers to the equality of each bit. *)
Ltac bitwise i Hi := apply Z.bits_inj'; intros i Hi; autorewrite with cbits.

(** Splits on every comparison of the goal. *)
Ltac zcases :=
  repeat match goal with
  | |- context [?a <? ?b] => destruct (Z.ltb_spec a b)
  | |- context [?a <=? ?b] => destruct (Z.leb_spec a b)
  | |- context [?a =? ?b] => destruct (Z.eqb_spec a b)
  end.

(** ** State-passing code

    [M S A] is code that runs on a state [S] and returns an [A]; [None] is
    undefined behaviour (a wild access, a dead lock) or an exhausted bound of a
    loop. Theorems about such code always establish [Some]. *)

Definition M (S A : Type) : Type := S -> option (A * S).

#[export] Instance M_ret {S} : MRet (M S) := fun A a s => Some (a, s).
#[export] Instance M_bind {S} : MBind (M S) := fun A B f m s =>
  match m s with Some (a, s') => f a s' | None => None end.

Definition fault {S A} : M S A := fun _ => None.
Definition gets {S A} (f : S -> A) : M S A := fun s => Some (f s, s).
Definition modify {S} (f : S -> S) : M S unit := fun s => Some (tt, f s).
Definition lift {S A} (o : option A) : M S A := fun s =>
  match o with Some a => Some (a, s) | None => None end.

(** A function that returns zero, or sets [errno] and returns -1, when the
    caller returns the error. *)
Definition andthen {S A B} (m : M S (res A)) (k : A -> M S (res B)) : M S (res B) :=
  r ← m; match r with Ok a => k a | Err e => mret (Err e) end.
Notation "x ←? m ; k" := (andthen m (fun x => k))
  (at level 20, m at level 100, k at level 200, right associativity).
Notation "m ;? k" := (andthen m (fun _ => k)) (at level 100, k at level 200, right associativity).

Section monad.
Context {S A B : Type}.

Lemma bind_run (m : M S A) (f : A -> M S B) s a s' :
  m s = Some (a, s') -> (x ← m; f x) s = f a s'.
Proof. intros H. unfold mbind, M_bind. by rewrite H. Qed.

Lemma bind_assoc {C} (m : M S A) (f : A -> M S B) (g : B -> M S C) s :
  (y ← (x ← m; f x); g y) s = (x ← m; y ← f x; g y) s.
Proof. unfold mbind, M_bind. by destruct (m s) as [[a s']|]. Qed.

Lemma andthen_ok (m : M S (res A)) (k : A -> M S (res B)) s a s' :
  m s = Some (Ok a, s') -> andthen m k s = k a s'.
Proof. intros Hm. unfold andthen, mbind, M_bind. by rewrite Hm. Qed.

Lemma andthen_err (m : M S (res A)) (k : A -> M S (res B)) s e s' :
  m s = Some (Err e, s') -> andthen m k s = Some (Err e, s').
Proof. intros Hm. unfold andthen, mbind, M_bind. by rewrite Hm. Qed.

Lemma ret_run (a : A) (f : A -> M S B) s : (x ← mret a; f x) s = f a s.
Proof. done. Qed.

Lemma gets_run (g : S -> A) (f : A -> M S B) s : (x ← gets g; f x) s = f (g s) s.
Proof. done. Qed.

Lemma modify_run (g : S -> S) (f : unit -> M S B) s : (x ← modify g; f x) s = f tt (g s).
Proof. done. Qed.
End monad.

(** Runs a bind of [option] whose first part is known. *)
Ltac orun := cbn [mbind option_bind mret option_ret].
Ltac orunin H := cbn [mbind option_bind mret option_ret] in H.

(** Removes wrap-arounds that the context shows not to happen. *)
Ltac nowrap := repeat match goal with
  | |- context [wrap ?w ?x] => rewrite (wrap_small w x) by lia
  end.

(** Linear arithmetic with division and modulo by constants. *)
Ltac divlia := Z.to_euclidean_division_equations; lia.

(** Invariants of step relations hold along every sequence of steps. *)
Lemma rtc_invariant {A} (R : relation A) (P : A -> Prop) :
  (forall x y, R x y -> P x -> P y) -> forall x y, rtc R x y -> P x -> P y.
Proof. intros Hstep x y. induction 1; eauto. Qed.
