(* ===== verification/CBits.v ===== *)
(** * Inline helpers of include/stdlib.h

    Alignment and power-of-two macros, the bitmap accessors [set_bit],
    [clear_bit] and [test_bit], rotations, rounded division and
    [next32_p2]/[next64_p2], at the widths the C code uses. *)

From S2P Require Import Prelude.

Module CBits.

(** ** Definitions *)

(** [ALIGNED (x, s)] with an integer alignment [s]. *)
Definition ALIGNED (x s : Z) : bool := Z.land (u64 x) (u64 (s - 1)) =? 0.

(** [ALIGNED (x, long)]: the macro argument is a type name, so [(s) - 1] is the
    cast [(long) -1], all ones, and the test is that the address is zero. *)
Definition ALIGNED_long (x : Z) : bool := Z.land (u64 x) (u64 (-1)) =? 0.

Definition ALIGN_DOWN (x a : Z) : Z := Z.land (u64 x) (u64 (Z.lnot (a - 1))).

Definition ALIGN_UP (x a : Z) : Z := u64 (Z.lor (u64 (x - 1)) (u64 (a - 1)) + 1).

Definition IS_P2 (x : Z) : bool := truthy x && (Z.land x (u64 (x - 1)) =? 0).

(** [LONG_NULL (x)] on an unsigned long. *)
Definition LONG_NULL (x : Z) : Z :=
  Z.land (Z.land (u64 (x - 0x0101010101010101)) (u64 (Z.lnot x))) 0x8080808080808080.

Definition LONG_CHAR (x c : Z) : Z := LONG_NULL (Z.lxor x c).

(** A bitmap is an array of bytes; [None] is an access outside of it. *)
Definition set_bit (bitmap : list Z) (index : Z) : option (list Z) :=
  b ← bitmap.[Z.shiftr index 3];
  bitmap.[Z.shiftr index 3 <- u8 (Z.lor b (Z.shiftl 1 (Z.land index 7)))].

Definition clear_bit (bitmap : list Z) (index : Z) : option (list Z) :=
  b ← bitmap.[Z.shiftr index 3];
  bitmap.[Z.shiftr index 3 <- u8 (Z.land b (Z.lnot (Z.shiftl 1 (Z.land index 7))))].

Definition test_bit (bitmap : list Z) (index : Z) : option Z :=
  b ← bitmap.[Z.shiftr index 3];
  Some (Z.land b (Z.shiftl 1 (Z.land index 7))).

Definition roll (x n : Z) : Z := Z.lor (u32 (Z.shiftl x n)) (Z.shiftr x (32 - n)).
Definition rorl (x n : Z) : Z := Z.lor (Z.shiftr x n) (u32 (Z.shiftl x (32 - n))).
Definition rolq (x n : Z) : Z := Z.lor (u64 (Z.shiftl x n)) (Z.shiftr x (64 - n)).
Definition rorq (x n : Z) : Z := Z.lor (Z.shiftr x n) (u64 (Z.shiftl x (64 - n))).

Definition div32_ceil (a b : Z) : Z := if a =? 0 then 0 else u32 ((a - 1) / b + 1).
Definition div64_ceil (a b : Z) : Z := if a =? 0 then 0 else u64 ((a - 1) / b + 1).

Definition next32_p2 (x : Z) : Z :=
  let x := u32 (x - 1) in
  let x := Z.lor x (Z.shiftr x 1) in
  let x := Z.lor x (Z.shiftr x 2) in
  let x := Z.lor x (Z.shiftr x 4) in
  let x := Z.lor x (Z.shiftr x 8) in
  let x := Z.lor x (Z.shiftr x 16) in
  u32 (x + 1).

Definition next64_p2 (x : Z) : Z :=
  let x := u64 (x - 1) in
  let x := Z.lor x (Z.shiftr x 1) in
  let x := Z.lor x (Z.shiftr x 2) in
  let x := Z.lor x (Z.shiftr x 4) in
  let x := Z.lor x (Z.shiftr x 8) in
  let x := Z.lor x (Z.shiftr x 16) in
  let x := Z.lor x (Z.shiftr x 32) in
  u64 (x + 1).

(** ** Bitmaps as sets of bits *)

Implicit Types bm : list Z.

Definition bytes_ok (l : list Z) : Prop := Forall (fun b => 0 <= b < 256) l.

(** Bit [i] of a bitmap; bits outside of it read as clear. *)
Definition bit_at (bitmap : list Z) (i : Z) : bool :=
  match bitmap.[Z.shiftr i 3] with
  | Some b => Z.testbit b (Z.land i 7)
  | None => false
  end.

Lemma land7 i : Z.land i 7 = i mod 8.
Proof. apply (Z.land_ones i 3). lia. Qed.

Lemma shr3 i : Z.shiftr i 3 = i / 8.
Proof. by apply Z.shiftr_div_pow2. Qed.

Lemma bit_index_inj i j : Z.shiftr i 3 = Z.shiftr j 3 -> Z.land i 7 = Z.land j 7 -> i = j.
Proof. rewrite !land7, !shr3. intros. pose proof (Z.div_mod i 8). pose proof (Z.div_mod j 8). lia. Qed.

Lemma bit_index_bound bm i : 0 <= i < 8 * zlen bm -> 0 <= Z.shiftr i 3 < zlen bm.
Proof. rewrite shr3. intros. split; [apply Z.div_pos; lia | apply Z.div_lt_upper_bound; lia]. Qed.

Lemma bytes_ok_lookup bm i b : bytes_ok bm -> bm.[i] = Some b -> 0 <= b < 256.
Proof.
  unfold bytes_ok, zlookup. rewrite Forall_lookup. destruct (i <? 0); [done|]. eauto.
Qed.

Lemma bytes_ok_store bm i b bm' :
  bytes_ok bm -> bm.[i <- u8 b] = Some bm' -> bytes_ok bm'.
Proof.
  intros Hok [_ ->]%zstore_Some. apply Forall_insert; [done|]. apply (wrap_range 8); lia.
Qed.

(** [test_bit] is non-zero exactly for the set bits. *)
Lemma test_bit_spec bm i :
  0 <= i < 8 * zlen bm -> exists r, test_bit bm i = Some r /\ truthy r = bit_at bm i.
Proof.
  intros Hi. destruct (zlookup_lt_Some bm (Z.shiftr i 3)) as [b Hb];
    [by apply bit_index_bound|].
  unfold test_bit, bit_at. rewrite Hb. simpl. eexists; split; [done|].
  apply land_shl1. rewrite land7. apply Z.mod_pos_bound. lia.
Qed.

(** One byte of the bitmap is rewritten by an update of one bit. *)
Lemma bit_update bm i b bm' (f : Z) (v : bool) :
  bm.[Z.shiftr i 3] = Some b ->
  bm.[Z.shiftr i 3 <- u8 f] = Some bm' ->
  (forall k, 0 <= k < 8 ->
     Z.testbit f k = if k =? Z.land i 7 then v else Z.testbit b k) ->
  forall j, bit_at bm' j = if j =? i then v else bit_at bm j.
Proof.
  intros Hb Hst Hf j. unfold bit_at. rewrite (zlookup_zstore _ _ _ _ _ Hst).
  assert (0 <= Z.land j 7 < 8) as Hj by (rewrite land7; apply Z.mod_pos_bound; lia).
  destruct (Z.eqb_spec (Z.shiftr j 3) (Z.shiftr i 3)) as [E|E].
  - rewrite testbit_wrap, Hf by lia. destruct (Z.ltb_spec (Z.land j 7) 8); [|lia].
    rewrite E, Hb. simpl. destruct (Z.eqb_spec (Z.land j 7) (Z.land i 7)) as [E'|E'].
    + rewrite (bit_index_inj j i E E'), Z.eqb_refl. done.
    + destruct (Z.eqb_spec j i); [congruence | done].
  - destruct (Z.eqb_spec j i); [congruence | done].
Qed.

Lemma set_bit_spec bm i :
  0 <= i < 8 * zlen bm -> bytes_ok bm ->
  exists bm', set_bit bm i = Some bm' /\ zlen bm' = zlen bm /\ bytes_ok bm' /\
    forall j, bit_at bm' j = (j =? i) || bit_at bm j.
Proof.
  intros Hi Hok. pose proof (bit_index_bound bm i Hi) as Hs.
  destruct (zlookup_lt_Some bm _ Hs) as [b Hb].
  unfold set_bit. rewrite Hb. simpl.
  rewrite zstore_lt by done. eexists; split; [done|].
  assert (Hst := zstore_lt bm (Z.shiftr i 3)
    (u8 (Z.lor b (Z.shiftl 1 (Z.land i 7)))) Hs).
  split; [by apply zstore_len in Hst|]. split; [by eapply bytes_ok_store|].
  intros j. rewrite (bit_update bm i b _ _ true Hb Hst); [by destruct (j =? i)|].
  intros k Hk. rewrite Z.lor_spec, testbit_shl1 by (rewrite land7; apply Z.mod_pos_bound; lia).
  destruct (k =? _); [by rewrite orb_true_r | by rewrite orb_false_r].
Qed.

Lemma clear_bit_spec bm i :
  0 <= i < 8 * zlen bm -> bytes_ok bm ->
  exists bm', clear_bit bm i = Some bm' /\ zlen bm' = zlen bm /\ bytes_ok bm' /\
    forall j, bit_at bm' j = negb (j =? i) && bit_at bm j.
Proof.
  intros Hi Hok. pose proof (bit_index_bound bm i Hi) as Hs.
  destruct (zlookup_lt_Some bm _ Hs) as [b Hb].
  unfold clear_bit. rewrite Hb. simpl.
  rewrite zstore_lt by done. eexists; split; [done|].
  assert (Hst := zstore_lt bm (Z.shiftr i 3)
    (u8 (Z.land b (Z.lnot (Z.shiftl 1 (Z.land i 7))))) Hs).
  split; [by apply zstore_len in Hst|]. split; [by eapply bytes_ok_store|].
  intros j. rewrite (bit_update bm i b _ _ false Hb Hst); [by destruct (j =? i)|].
  intros k Hk.
  rewrite Z.land_spec, Z.lnot_spec, testbit_shl1 by (rewrite ?land7; try apply Z.mod_pos_bound; lia).
  destruct (k =? _); [by rewrite andb_false_r | by rewrite andb_true_r].
Qed.

(** A fresh bitmap of zero bytes has no bit set. *)
Lemma bit_at_zeros n i : bit_at (replicate n 0) i = false.
Proof.
  unfold bit_at, zlookup. destruct (_ <? 0); [done|].
  destruct (replicate n 0 !! _) eqn:E; [|done].
  apply lookup_replicate in E as [-> _]. apply Z.testbit_0_l.
Qed.

Lemma bytes_ok_zeros n : bytes_ok (replicate n 0).
Proof. apply Forall_replicate. lia. Qed.

Lemma bit_at_app_l bm bm' i : i < 8 * zlen bm -> bit_at (bm ++ bm') i = bit_at bm i.
Proof.
  intros Hi. unfold bit_at, zlookup. destruct (Z.ltb_spec (Z.shiftr i 3) 0); [done|].
  rewrite lookup_app_l; [done|]. rewrite shr3 in *.
  assert (i / 8 < zlen bm) by (apply Z.div_lt_upper_bound; lia). unfold zlen in *. lia.
Qed.

Lemma bit_at_range bm i : bit_at bm i = true -> 0 <= i < 8 * zlen bm.
Proof.
  unfold bit_at. destruct (bm.[Z.shiftr i 3]) eqn:E; [|done]. intros _.
  apply zlookup_Some_lt in E. rewrite shr3 in E.
  pose proof (Z.div_mod i 8). pose proof (Z.mod_pos_bound i 8). lia.
Qed.

(** ** Alignment *)

Lemma lnot_ones_mod x k : 0 <= k -> Z.land x (Z.ones k) = x mod 2 ^ k.
Proof. apply Z.land_ones. Qed.

(** [x | (2^k - 1)] fills the low [k] bits. *)
Lemma lor_ones_div x k : 0 <= k -> Z.lor x (Z.ones k) = x / 2 ^ k * 2 ^ k + (2 ^ k - 1).
Proof.
  intros Hk. pose proof (Z.ones_equiv k) as Ho.
  rewrite <- Z.shiftr_div_pow2, <- Z.shiftl_mul_pow2 by lia.
  replace (2 ^ k - 1) with (Z.ones k) by lia.
  assert (Hd : Z.land (Z.shiftl (Z.shiftr x k) k) (Z.ones k) = 0).
  { bitwise i Hi. rewrite Z.testbit_0_l. destruct (Z.ltb_spec i k).
    - rewrite (Z.testbit_neg_r _ (i - k)) by lia. done.
    - rewrite Z.ones_spec_high by lia. by rewrite andb_false_r. }
  rewrite (Z.add_nocarry_lxor _ _ Hd), Z.lxor_lor by done.
  bitwise i Hi. destruct (Z.ltb_spec i k).
  - rewrite Z.ones_spec_low by lia. by rewrite !orb_true_r.
  - rewrite Z.ones_spec_high, Z.shiftr_spec by lia.
    replace (i - k + k) with i by lia. done.
Qed.

Lemma lor_high x y n : 0 <= n -> 0 <= x < 2 ^ n -> Z.lor x (Z.shiftl y n) = x + y * 2 ^ n.
Proof.
  intros Hn Hx. rewrite <- Z.shiftl_mul_pow2 by lia.
  assert (Z.land x (Z.shiftl y n) = 0) as Hd.
  { bitwise i Hi. rewrite Z.testbit_0_l. destruct (Z.lt_ge_cases i n).
    - rewrite (Z.testbit_neg_r _ (i - n)) by lia. by rewrite andb_false_r.
    - by rewrite (testbit_high n x) by lia. }
  rewrite (Z.add_nocarry_lxor _ _ Hd). symmetry. by apply Z.lxor_lor.
Qed.

(** [ALIGN_DOWN] rounds down to a multiple of the alignment. *)
Lemma ALIGN_DOWN_spec x k : 0 <= k < 64 -> 0 <= x < 2 ^ 64 -> ALIGN_DOWN x (2 ^ k) = x / 2 ^ k * 2 ^ k.
Proof.
  intros Hk Hx. unfold ALIGN_DOWN. rewrite (wrap_small 64 x) by done.
  rewrite <- Z.shiftr_div_pow2, <- Z.shiftl_mul_pow2 by lia. bitwise i Hi.
  destruct (Z.ltb_spec i 64); cbn [andb].
  - replace (2 ^ k - 1) with (Z.ones k) by (rewrite Z.ones_equiv; lia).
    destruct (Z.lt_ge_cases i k).
    + rewrite Z.ones_spec_low, (Z.testbit_neg_r _ (i - k)) by lia. cbn [negb]. by rewrite andb_false_r.
    + rewrite Z.ones_spec_high, Z.shiftr_spec by lia. cbn [negb]. rewrite andb_true_r. f_equal. lia.
  - rewrite andb_false_r. destruct (Z.lt_ge_cases i k); [by rewrite Z.testbit_neg_r by lia|].
    rewrite Z.shiftr_spec by lia. symmetry. apply (testbit_high 64); [done|lia].
Qed.

(** [ALIGN_UP] rounds up to a multiple of the alignment, when the result does
    not leave the address space. *)
Lemma ALIGN_UP_spec x k :
  0 <= k < 64 -> 0 <= x <= 2 ^ 64 - 2 ^ k ->
  ALIGN_UP x (2 ^ k) = (x + 2 ^ k - 1) / 2 ^ k * 2 ^ k.
Proof.
  intros Hk Hx. unfold ALIGN_UP.
  assert (1 <= 2 ^ k) by (apply (Z.pow_le_mono_r 2 0 k); lia).
  assert (2 ^ k < 2 ^ 64) by (apply Z.pow_lt_mono_r; lia).
  rewrite (wrap_small 64 (2 ^ k - 1)) by lia.
  replace (2 ^ k - 1) with (Z.ones k) at 1 by (rewrite Z.ones_equiv; lia).
  rewrite lor_ones_div by lia.
  destruct (Z.eq_dec x 0) as [->|].
  - rewrite (Z.div_small (0 + 2 ^ k - 1)) by lia.
    change (u64 (0 - 1)) with (2 ^ 64 - 1).
    replace (2 ^ 64 - 1) with ((2 ^ (64 - k) - 1) * 2 ^ k + (2 ^ k - 1))
      by (rewrite Z.mul_sub_distr_r, <- Z.pow_add_r by lia; replace (64 - k + k) with 64 by lia; lia).
    rewrite Z.div_add_l, (Z.div_small (2 ^ k - 1)) by lia.
    replace ((2 ^ (64 - k) - 1 + 0) * 2 ^ k + (2 ^ k - 1) + 1) with (2 ^ 64)
      by (rewrite Z.add_0_r, Z.mul_sub_distr_r, <- Z.pow_add_r by lia;
          replace (64 - k + k) with 64 by lia; lia).
    done.
  - rewrite (wrap_small 64 (x - 1)) by lia.
    replace (x + 2 ^ k - 1) with (x - 1 + 1 * 2 ^ k) by lia.
    rewrite Z.div_add by lia. rewrite wrap_small; [lia|].
    pose proof (Z.div_mod (x - 1) (2 ^ k)). pose proof (Z.mod_pos_bound (x - 1) (2 ^ k)).
    split; [nia|].
    (* (x-1)/2^k*2^k + 2^k <= 2^64 - 2^k, as both are multiples of 2^k *)
    assert ((x - 1) / 2 ^ k < 2 ^ (64 - k) - 1).
    { apply Z.div_lt_upper_bound; [lia|].
      rewrite Z.mul_sub_distr_l, <- Z.pow_add_r by lia. replace (k + (64 - k)) with 64 by lia. lia. }
    assert (2 ^ (64 - k) * 2 ^ k = 2 ^ 64)
      by (rewrite <- Z.pow_add_r by lia; f_equal; lia). nia.
Qed.

(** A value already aligned is left alone. *)
Lemma ALIGN_UP_aligned x k :
  0 <= k < 64 -> 0 <= x <= 2 ^ 64 - 2 ^ k -> x mod 2 ^ k = 0 -> ALIGN_UP x (2 ^ k) = x.
Proof.
  intros Hk Hx Hm. rewrite ALIGN_UP_spec by done.
  assert (1 <= 2 ^ k) by (apply (Z.pow_le_mono_r 2 0 k); lia).
  apply Z.mod_divide in Hm as [q ->]; [|lia].
  replace (q * 2 ^ k + 2 ^ k - 1) with (q * 2 ^ k + (2 ^ k - 1)) by lia.
  rewrite Z.div_add_l, (Z.div_small (2 ^ k - 1)) by lia. lia.
Qed.

Lemma ALIGN_UP_bounds x k :
  0 <= k < 64 -> 0 <= x <= 2 ^ 64 - 2 ^ k ->
  x <= ALIGN_UP x (2 ^ k) < x + 2 ^ k /\ ALIGN_UP x (2 ^ k) mod 2 ^ k = 0.
Proof.
  intros Hk Hx. rewrite ALIGN_UP_spec by done.
  assert (1 <= 2 ^ k) by (apply (Z.pow_le_mono_r 2 0 k); lia).
  split; [|apply Z_mod_mult].
  pose proof (Z.div_mod (x + 2 ^ k - 1) (2 ^ k)).
  pose proof (Z.mod_pos_bound (x + 2 ^ k - 1) (2 ^ k)). lia.
Qed.

(** ** Powers of two *)

Lemma testbit_log2 x : 0 < x -> Z.testbit x (Z.log2 x) = true.
Proof. apply Z.bit_log2. Qed.

(** [IS_P2] recognises exactly the powers of two. *)
Lemma IS_P2_spec x : 0 <= x < 2 ^ 64 -> IS_P2 x = true <-> exists k, 0 <= k < 64 /\ x = 2 ^ k.
Proof.
  intros Hx. unfold IS_P2, truthy. split.
  - destruct (Z.eqb_spec x 0); [done|]. simpl. rewrite wrap_small by lia. intros H%Z.eqb_eq.
    exists (Z.log2 x). pose proof (Z.log2_spec x ltac:(lia)) as [Hl Hu].
    split; [split; [apply Z.log2_nonneg | apply Z.log2_lt_pow2; lia]|].
    destruct (Z.eq_dec x (2 ^ Z.log2 x)) as [|Hne]; [done|exfalso].
    assert (x <> 1) by (intros ->; done).
    assert (Z.log2 (x - 1) = Z.log2 x) as E
      by (apply Z.log2_unique; [apply Z.log2_nonneg | lia]).
    apply (f_equal (fun z => Z.testbit z (Z.log2 x))) in H.
    rewrite Z.land_spec, Z.testbit_0_l, testbit_log2, <- E, testbit_log2 in H by lia. done.
  - intros (k & Hk & ->). assert (0 < 2 ^ k) by (apply Z.pow_pos_nonneg; lia).
    destruct (Z.eqb_spec (2 ^ k) 0); [lia|]. simpl. apply Z.eqb_eq.
    rewrite wrap_small by lia.
    replace (2 ^ k - 1) with (Z.ones k) by (rewrite Z.ones_equiv; lia).
    rewrite Z.land_ones by lia. apply Z_mod_same_full.
Qed.

(** [smeared n x y]: bit [i] of [y] is set when one of the bits [i .. i+n-1] of
    [x] is. *)
Definition smeared (n x y : Z) : Prop :=
  forall i, 0 <= i ->
    (Z.testbit y i = true <-> exists j, i <= j < i + n /\ Z.testbit x j = true).

Lemma smeared_step n m x y :
  0 <= m <= n -> smeared n x y -> smeared (n + m) x (Z.lor y (Z.shiftr y m)).
Proof.
  intros Hm H i Hi. rewrite Z.lor_spec, Z.shiftr_spec, orb_true_iff by lia.
  rewrite (H i), (H (i + m)) by lia. split.
  - intros [(j & ? & ?)|(j & ? & ?)]; exists j; split; auto; lia.
  - intros (j & ? & ?). destruct (Z.ltb_spec j (i + n)); [left | right]; exists j; split; auto; lia.
Qed.

Lemma smeared_init x : smeared 1 x x.
Proof.
  intros i Hi. split.
  - intros Hb. exists i. split; [lia|done].
  - intros [j [Hj Hb]]. by replace i with j by lia.
Qed.

(** Smearing over the whole width fills everything below the top bit. *)
Lemma smeared_full w x y :
  0 <= x < 2 ^ w -> 0 <= w -> 0 <= y -> smeared w x y ->
  y + 1 = if x =? 0 then 1 else 2 ^ (Z.log2 x + 1).
Proof.
  intros Hx Hw Hy H. pose proof (Z.log2_nonneg x).
  assert (y = Z.ones (if x =? 0 then 0 else Z.log2 x + 1)) as ->.
  { apply Z.bits_inj'. intros i Hi. destruct (Z.eqb_spec x 0) as [->|].
    - rewrite Z.ones_spec_high by lia. apply not_true_iff_false.
      intros (j & _ & Hj)%H; [|lia]. by rewrite Z.testbit_0_l in Hj.
    - destruct (Z.ltb_spec i (Z.log2 x + 1)).
      + rewrite Z.ones_spec_low by lia. apply H; [lia|]. exists (Z.log2 x).
        assert (Z.log2 x < w) by (apply Z.log2_lt_pow2; lia).
        rewrite testbit_log2 by lia. split; [lia|done].
      + rewrite Z.ones_spec_high by lia. apply not_true_iff_false.
        intros (j & Hj & Hb)%H; [|lia]. rewrite Z.bits_above_log2 in Hb by lia. done. }
  rewrite Z.ones_equiv. destruct (x =? 0); simpl; lia.
Qed.

Lemma lor_shiftr_nonneg x n : 0 <= x -> 0 <= Z.lor x (Z.shiftr x n).
Proof. intros. apply Z.lor_nonneg. split; [done|]. by apply Z.shiftr_nonneg. Qed.

(** [next64_p2] returns the least power of two that is not below its
    argument, for every argument from 1 to 2^63. *)
Theorem next64_p2_least x :
  1 <= x <= 2 ^ 63 ->
  exists k, 0 <= k <= 63 /\ next64_p2 x = 2 ^ k /\ x <= 2 ^ k /\
    forall j, 0 <= j -> x <= 2 ^ j -> 2 ^ k <= 2 ^ j.
Proof.
  intros Hx. unfold next64_p2. rewrite (wrap_small 64 (x - 1)) by lia.
  set (y1 := Z.lor (x - 1) _). set (y2 := Z.lor y1 _). set (y3 := Z.lor y2 _).
  set (y4 := Z.lor y3 _). set (y5 := Z.lor y4 _). set (y6 := Z.lor y5 _). cbv zeta.
  assert (smeared 64 (x - 1) y6) as Hs.
  { apply (smeared_step 32 32), (smeared_step 16 16), (smeared_step 8 8), (smeared_step 4 4),
      (smeared_step 2 2), (smeared_step 1 1), smeared_init; lia. }
  assert (0 <= y6)
    by (unfold y6, y5, y4, y3, y2, y1; do 6 apply lor_shiftr_nonneg; lia).
  apply smeared_full in Hs; [|lia..]. rewrite Hs. clear Hs.
  destruct (Z.eqb_spec (x - 1) 0).
  - exists 0. split; [lia|]. split; [done|]. split; [lia|].
    intros j Hj _. apply (Z.pow_le_mono_r 2 0 j); lia.
  - pose proof (Z.log2_spec (x - 1) ltac:(lia)) as [Hl Hu].
    pose proof (Z.log2_nonneg (x - 1)).
    assert (Z.log2 (x - 1) < 63) by (apply Z.log2_lt_pow2; lia).
    exists (Z.log2 (x - 1) + 1). split; [lia|]. split.
    { apply wrap_small. split; [lia|]. apply Z.pow_lt_mono_r; lia. }
    rewrite <- Z.add_1_r in Hu. split; [lia|]. intros j Hj Hle. apply Z.pow_le_mono_r; [lia|].
    destruct (Z.leb_spec (Z.log2 (x - 1) + 1) j); [done|exfalso].
    assert (2 ^ j <= 2 ^ Z.log2 (x - 1)) by (apply Z.pow_le_mono_r; lia). lia.
Qed.

Lemma next64_p2_least_witness : exists k, next64_p2 1000 = 2 ^ k /\ 1000 <= 2 ^ k.
Proof.
  destruct (next64_p2_least 1000) as (k & _ & H1 & H2 & _); [split; vm_compute; discriminate|].
  exists k. split; assumption.
Defined.

End CBits.
