(* ===== verification/Heap.v ===== *)
(** * The kernel heap (kernel/heap.c)

    The heap is a sequence of blocks, each framed by a [struct kh_header] and a
    [struct kh_tail]; both structures are 16 bytes with the same layout (a
    32-bit magic number, a 32-bit word, a 64-bit word), and with the 16-byte
    default alignment every block boundary is a multiple of 16. The memory of
    the heap is therefore modelled as a map from addresses to 16-byte cells;
    user data lives in the same cells. An access to an address with no cell is
    undefined behaviour ([None]). *)

From S2P Require Import Prelude CBits.

Module Heap.
Import CBits.

(** ** Data *)

Abbreviation KH_HEADER_MAGIC := 0x07242005.
Abbreviation KH_TAIL_MAGIC := 0xdeadc0de.
Abbreviation KH_DEFAULT_ALIGN := 16.
Abbreviation KH_MIN_BLOCK_SPLIT_SIZE := 32.
Abbreviation KH_FLAG_ALLOC := 1.
Abbreviation sizeof_header := 16.
Abbreviation sizeof_tail := 16.

(** A [struct kh_header] (magic, flags, size) or a [struct kh_tail] (magic,
    reserved, header). *)
Record cell := Cell { magic : Z; flags : Z; word : Z }.

Record heap := Heap {
  kh_mem : gmap Z cell;
  kh_base_addr : Z;
  kh_end_addr : Z;
  kh_lock : bool
}.

Definition load (a : Z) : M heap cell := fun s =>
  match kh_mem s !! a with Some c => Some (c, s) | None => None end.

Definition set_mem (m : gmap Z cell) (s : heap) : heap :=
  Heap m (kh_base_addr s) (kh_end_addr s) (kh_lock s).
Definition set_lock (b : bool) (s : heap) : heap :=
  Heap (kh_mem s) (kh_base_addr s) (kh_end_addr s) b.

Definition store (a : Z) (c : cell) : M heap unit := fun s =>
  match kh_mem s !! a with
  | Some _ => Some (tt, set_mem (<[a := c]> (kh_mem s)) s)
  | None => None
  end.

Definition store_size (a v : Z) : M heap unit :=
  c ← load a; store a (Cell (magic c) (flags c) v).
Definition store_flags (a v : Z) : M heap unit :=
  c ← load a; store a (Cell (magic c) v (word c)).
Abbreviation store_tail_header := store_size.

(** A spinlock that is taken by the only thread never becomes free. *)
Definition spinlock_acquire : M heap unit := fun s =>
  if kh_lock s then None else Some (tt, set_lock true s).
Definition spinlock_release : M heap unit := modify (set_lock false).

(** ** Operations *)

(** [kh_init] writes the header and the tail of one free block over the whole
    region; [mem] is the memory of the region before. *)
Definition kh_init (mem : gmap Z cell) (base size : Z) : heap :=
  let m := <[base := Cell KH_HEADER_MAGIC 0
                       (u64 (size - sizeof_header - sizeof_tail))]> mem in
  let kh_end := u64 (base + size) in
  Heap (<[u64 (kh_end - sizeof_tail) := Cell KH_TAIL_MAGIC 0 base]> m) base kh_end false.

(** The part of [kh_alloc_aligned] that places the aligned header inside the
    free block at [header]; returns the header of the allocation. *)
Definition kh_place (header tail block align : Z) : M heap Z :=
  base ← gets kh_base_addr;
  let aligned_header := u64 (block - sizeof_header) in
  let diff := u64 (aligned_header - header) in
  let bump := (0 <? diff) && (diff <? sizeof_header + sizeof_tail) && (header =? base) in
  let aligned_header := if bump then u64 (aligned_header + align) else aligned_header in
  let diff := if bump then u64 (diff + align) else diff in
  h ← load header;
  store aligned_header h;;
  ah ← load aligned_header;
  store_size aligned_header (u64 (word ah - diff));;
  (if KH_MIN_BLOCK_SPLIT_SIZE + sizeof_header + sizeof_tail <? diff then
     store_size header (u64 (diff - sizeof_header - sizeof_tail));;
     store (u64 (aligned_header - sizeof_tail)) (Cell KH_TAIL_MAGIC 0 header)
   else if 0 <? diff then
     let prev_tail := u64 (header - sizeof_tail) in
     (if prev_tail <? base then
        let first_size := u64 (diff - sizeof_header - sizeof_tail) in
        store base (Cell KH_HEADER_MAGIC 0 first_size);;
        store (u64 (base + sizeof_header + first_size)) (Cell KH_TAIL_MAGIC 0 base)
      else
        pt ← load prev_tail;
        ph ← load (word pt);
        store_size (word pt) (u64 (word ph + diff));;
        pt' ← load prev_tail;
        store (u64 (aligned_header - sizeof_tail)) pt');;
     store_tail_header tail aligned_header
   else mret tt);;
  mret aligned_header.

(** The search loop: the block, its header and its tail, with the lock still
    held, or an error with the lock released. *)
Fixpoint kh_search (fuel : nat) (size align header : Z) : M heap (res (Z * Z * Z)) :=
  match fuel with
  | O => fault
  | S fuel =>
    kh_end ← gets kh_end_addr;
    if kh_end <=? header then spinlock_release;; mret (Err ENOMEM)
    else
      h ← load header;
      if negb (magic h =? KH_HEADER_MAGIC) then spinlock_release;; mret (Err EUCLEAN)
      else
        let tail := u64 (header + word h + sizeof_header) in
        t ← load tail;
        if negb (magic t =? KH_TAIL_MAGIC) || negb (word t =? header) then
          spinlock_release;; mret (Err EUCLEAN)
        else
          let block := u64 (header + sizeof_header) in
          let next := u64 (tail + sizeof_tail) in
          if truthy (Z.land (flags h) KH_FLAG_ALLOC) then kh_search fuel size align next
          else
            let block := ALIGN_UP block align in
            if (block <? tail) && (size <=? u64 (tail - block)) then
              header ← kh_place header tail block align;
              mret (Ok (block, header, tail))
            else kh_search fuel size align next
  end.

(** Every block takes at least 32 bytes, which bounds the search. *)
Definition search_fuel (s : heap) : nat :=
  S (S (Z.to_nat ((kh_end_addr s - kh_base_addr s) / 32))).

(** The end of [kh_alloc_aligned]: splits the block that was found, marks it as
    allocated and releases the lock. *)
Definition kh_commit (size block header tail : Z) : M heap (res Z) :=
  h ← load header;
  (if u64 (size + sizeof_header + sizeof_tail + KH_MIN_BLOCK_SPLIT_SIZE) <=? word h then
     let new_tail := u64 (header + sizeof_header + size) in
     store new_tail (Cell KH_TAIL_MAGIC 0 header);;
     let new_header := u64 (new_tail + sizeof_tail) in
     store new_header (Cell KH_HEADER_MAGIC (flags h)
       (u64 (word h - size - sizeof_header - sizeof_tail)));;
     store_tail_header tail new_header;;
     store_size header size
   else mret tt);;
  h ← load header;
  store_flags header (Z.lor (flags h) KH_FLAG_ALLOC);;
  spinlock_release;;
  mret (Ok block).

Definition kh_alloc_aligned (size align : Z) : M heap (res Z) :=
  if negb (IS_P2 align) then mret (Err EINVAL)
  else
    let size := ALIGN_UP size KH_DEFAULT_ALIGN in
    spinlock_acquire;;
    base ← gets kh_base_addr;
    fuel ← gets search_fuel;
    r ← kh_search fuel size align base;
    match r with
    | Err e => mret (Err e)
    | Ok (block, header, tail) => kh_commit size block header tail
    end.

(** [kh_free]: unify the block at [header] with a preceding free block; returns
    the header of the resulting block. *)
Definition kh_merge_prev (header : Z) : M heap Z :=
  base ← gets kh_base_addr;
  h ← load header;
  let tail := u64 (header - sizeof_tail) in
  if base <=? tail then
    t ← load tail;
    ph ← load (word t);
    if flags h =? flags ph then
      store_size (word t) (u64 (word ph + (word h + sizeof_header + sizeof_tail)));;
      let next_tail := u64 (header + sizeof_header + word h) in
      store_tail_header next_tail (word t);;
      mret (word t)
    else mret header
  else mret header.

(** [kh_free]: unify the block at [header] with a following free block. *)
Definition kh_merge_next (header : Z) : M heap unit :=
  kh_end ← gets kh_end_addr;
  h ← load header;
  let next_header := u64 (header + sizeof_header + sizeof_tail + word h) in
  if next_header <? kh_end then
    nh ← load next_header;
    if flags h =? flags nh then
      store_size header (u64 (word h + (sizeof_header + sizeof_tail + word nh)));;
      let next_tail := u64 (next_header + sizeof_header + word nh) in
      store_tail_header next_tail header
    else mret tt
  else mret tt.

Definition kh_free (ptr : Z) : M heap (res unit) :=
  if ptr =? 0 then mret (Ok tt)
  else
    spinlock_acquire;;
    let header := u64 (ptr - sizeof_header) in
    h ← load header;
    if negb (magic h =? KH_HEADER_MAGIC) then spinlock_release;; mret (Err EFAULT)
    else
      store_flags header (Z.land (flags h) (u32 (Z.lnot KH_FLAG_ALLOC)));;
      header ← kh_merge_prev header;
      kh_merge_next header;;
      spinlock_release;;
      mret (Ok tt).

(** [memcpy] of [n] cells between disjoint regions. *)
Fixpoint memcpy_cells (n : nat) (dest src : Z) : M heap unit :=
  match n with
  | O => mret tt
  | S n => c ← load src; store dest c;; memcpy_cells n (dest + 16) (src + 16)
  end.

(** The branch of [kh_realloc] that merges the following free block. *)
Definition kh_realloc_extend (header size next_header : Z) : M heap unit :=
  h ← load header;
  nh ← load next_header;
  let next_tail := u64 (next_header + sizeof_header + word nh) in
  let extra := u64 (sizeof_header + sizeof_tail + word nh) in
  let needed := u64 (size - word h) in
  if sizeof_header + sizeof_tail + KH_MIN_BLOCK_SPLIT_SIZE <=? u64 (extra - needed) then
    let new_tail := u64 (header + sizeof_header + size) in
    store new_tail (Cell KH_TAIL_MAGIC 0 header);;
    let new_header := u64 (new_tail + sizeof_tail) in
    store new_header (Cell KH_HEADER_MAGIC
      (Z.land (flags h) (u32 (Z.lnot KH_FLAG_ALLOC)))
      (u64 (word h + word nh - size)));;
    store_size header size;;
    store_tail_header next_tail new_header
  else
    store_tail_header next_tail header;;
    store_size header (u64 (word h + extra)).

(** The branch of [kh_realloc] that splits off the end of the block. *)
Definition kh_realloc_shrink (header size : Z) : M heap unit :=
  h ← load header;
  let tail := u64 (header + sizeof_header + size) in
  store tail (Cell KH_TAIL_MAGIC 0 header);;
  let next_header := u64 (tail + sizeof_tail) in
  store next_header (Cell KH_HEADER_MAGIC
    (Z.land (flags h) (u32 (Z.lnot KH_FLAG_ALLOC)))
    (u64 (word h - size - sizeof_header - sizeof_tail)));;
  let next_tail := u64 (header + sizeof_header + word h) in
  store_tail_header next_tail next_header;;
  store_size header size.

Definition kh_realloc (ptr size : Z) : M heap (res Z) :=
  let header := u64 (ptr - sizeof_header) in
  if ptr =? 0 then kh_alloc_aligned size KH_DEFAULT_ALIGN
  else
    let size := ALIGN_UP size KH_DEFAULT_ALIGN in
    spinlock_acquire;;
    h ← load header;
    if negb (magic h =? KH_HEADER_MAGIC) then spinlock_release;; mret (Err EFAULT)
    else if negb (truthy (Z.land (flags h) KH_FLAG_ALLOC)) then
      spinlock_release;; kh_alloc_aligned size KH_DEFAULT_ALIGN
    else if word h <? size then
      kh_end ← gets kh_end_addr;
      let next_header := u64 (header + sizeof_header + sizeof_tail + word h) in
      extend ←
        (if next_header <? kh_end then
           nh ← load next_header;
           mret (negb (truthy (Z.land (flags nh) KH_FLAG_ALLOC))
                 && (size <=? u64 (word h + sizeof_header + sizeof_tail + word nh)))
         else mret false);
      if (extend : bool) then
        kh_realloc_extend header size next_header;;
        spinlock_release;;
        mret (Ok ptr)
      else
        spinlock_release;;
        new_ptr ← kh_alloc_aligned size KH_DEFAULT_ALIGN;
        match new_ptr with
        | Err e => mret (Err e)
        | Ok new_ptr =>
          h ← load header;
          memcpy_cells (Z.to_nat (word h / 16)) new_ptr ptr;;
          kh_free ptr;;
          mret (Ok new_ptr)
        end
    else
      (if sizeof_header + sizeof_tail + KH_MIN_BLOCK_SPLIT_SIZE <=? u64 (word h - size)
       then kh_realloc_shrink header size else mret tt);;
      spinlock_release;;
      mret (Ok ptr).

(** ** Representation: the heap as a list of blocks *)

Record block := Block { b_size : Z; b_alloc : bool }.

Definition flag_of (b : block) : Z := if b_alloc b then 1 else 0.
Definition span (b : block) : Z := 32 + b_size b.
Definition spans (bs : list block) : Z := foldr (fun b n => span b + n) 0 bs.

(** Blocks [bs] are laid out in memory [m] from address [a] to address [e]. *)
Fixpoint laid (m : gmap Z cell) (a : Z) (bs : list block) (e : Z) : Prop :=
  match bs with
  | [] => a = e
  | b :: bs =>
    0 <= b_size b /\ b_size b mod 16 = 0 /\
    m !! a = Some (Cell KH_HEADER_MAGIC (flag_of b) (b_size b)) /\
    (exists r, m !! (a + 16 + b_size b) = Some (Cell KH_TAIL_MAGIC r a)) /\
    laid m (a + span b) bs e
  end.

(** Every 16-byte cell of the region is mapped. *)
Definition mapped (m : gmap Z cell) (a e : Z) : Prop :=
  forall x, a <= x < e -> x mod 16 = 0 -> is_Some (m !! x).

(** The invariant of the heap: the region is 16-byte aligned, stays clear of the
    top of the address space and is tiled by the blocks; the lock is free. *)
Record heap_ok (s : heap) (bs : list block) : Prop := {
  ok_base : 0 < kh_base_addr s /\ kh_base_addr s mod 16 = 0;
  ok_top : kh_end_addr s <= 2 ^ 64 - 4096;
  ok_lock : kh_lock s = false;
  ok_mapped : mapped (kh_mem s) (kh_base_addr s) (kh_end_addr s);
  ok_laid : laid (kh_mem s) (kh_base_addr s) bs (kh_end_addr s)
}.

Lemma spans_app bs1 bs2 : spans (bs1 ++ bs2) = spans bs1 + spans bs2.
Proof. induction bs1 as [|b bs1 IH]; simpl; lia. Qed.

Lemma laid_spans m a bs e : laid m a bs e -> e = a + spans bs.
Proof.
  revert a. induction bs as [|b bs IH]; simpl; intros a; [lia|].
  intros (_ & _ & _ & _ & H). apply IH in H. unfold span in *. lia.
Qed.

Lemma laid_nonneg m a bs e : laid m a bs e -> 0 <= spans bs.
Proof.
  revert a. induction bs as [|b bs IH]; simpl; intros a; [lia|].
  intros (? & _ & _ & _ & H). apply IH in H. unfold span. lia.
Qed.

Lemma laid_app m a bs1 bs2 e :
  laid m a (bs1 ++ bs2) e <-> laid m a bs1 (a + spans bs1) /\ laid m (a + spans bs1) bs2 e.
Proof.
  revert a. induction bs1 as [|b bs1 IH]; intros a; simpl.
  - rewrite Z.add_0_r. split; [done|]. by intros [_ ?].
  - rewrite IH. replace (a + span b + spans bs1) with (a + (span b + spans bs1)) by lia. tauto.
Qed.

(** The layout only depends on the cells of its region. *)
Lemma laid_frame m m' a bs e :
  laid m a bs e -> (forall x, a <= x < e -> m' !! x = m !! x) -> laid m' a bs e.
Proof.
  revert a. induction bs as [|b bs IH]; simpl; [done|].
  intros a (Hs & Hm & Hh & (r & Ht) & Hl) Hf. pose proof (laid_spans _ _ _ _ Hl).
  pose proof (laid_nonneg _ _ _ _ Hl). unfold span in *.
  split; [done|]. split; [done|]. split; [rewrite Hf; [done|lia]|].
  split; [exists r; rewrite Hf; [done|lia]|]. apply IH; [done|]. intros x Hx. apply Hf. lia.
Qed.

Lemma laid_aligned m a bs e : a mod 16 = 0 -> laid m a bs e -> e mod 16 = 0.
Proof.
  revert a. induction bs as [|b bs IH]; simpl; intros a Ha; [by intros <-|].
  intros (_ & Hm & _ & _ & H). apply IH in H; [done|]. unfold span.
  rewrite Z.add_mod, (Z.add_mod 32), Ha, Hm by lia. done.
Qed.

Lemma mapped_insert m a e x c : mapped m a e -> mapped (<[x := c]> m) a e.
Proof.
  intros H y Hy Hm. destruct (decide (x = y)) as [->|].
  - rewrite lookup_insert_eq. eauto.
  - rewrite lookup_insert_ne by done. auto.
Qed.

(** ** Running the code on a laid-out heap *)

Ltac heval := unfold set_mem, set_lock;
  cbn [magic flags word kh_mem kh_base_addr kh_end_addr kh_lock negb orb andb].

Ltac heval_all := unfold set_mem, set_lock in *;
  cbn [magic flags word kh_mem kh_base_addr kh_end_addr kh_lock negb orb andb] in *.

Lemma load_run {B} a c (k : cell -> M heap B) s :
  kh_mem s !! a = Some c -> (x ← load a; k x) s = k c s.
Proof. intros H. apply bind_run. unfold load. by rewrite H. Qed.

Lemma store_run {B} a c (k : unit -> M heap B) s :
  is_Some (kh_mem s !! a) ->
  (x ← store a c; k x) s = k tt (set_mem (<[a := c]> (kh_mem s)) s).
Proof. intros [c' H]. apply bind_run. unfold store. by rewrite H. Qed.

Lemma store_size_run {B} a c v (k : unit -> M heap B) s :
  kh_mem s !! a = Some c ->
  (x ← store_size a v; k x) s
  = k tt (set_mem (<[a := Cell (magic c) (flags c) v]> (kh_mem s)) s).
Proof.
  intros H. apply bind_run. unfold store_size. erewrite load_run by done.
  unfold store. by rewrite H.
Qed.

Lemma store_flags_run {B} a c v (k : unit -> M heap B) s :
  kh_mem s !! a = Some c ->
  (x ← store_flags a v; k x) s
  = k tt (set_mem (<[a := Cell (magic c) v (word c)]> (kh_mem s)) s).
Proof.
  intros H. apply bind_run. unfold store_flags. erewrite load_run by done.
  unfold store. by rewrite H.
Qed.
Lemma set_lock_id s b : kh_lock s = b -> set_lock b s = s.
Proof. intros <-. by destruct s. Qed.

Lemma set_mem_id s : set_mem (kh_mem s) s = s.
Proof. by destruct s. Qed.

(** Replacing the blocks of a sub-region by others of the same total size. *)
Lemma laid_replace m m' base pre mid mid' post e :
  laid m base (pre ++ mid ++ post) e ->
  spans mid' = spans mid ->
  (forall x, base + spans pre <= x < base + spans pre + spans mid \/ m' !! x = m !! x) ->
  laid m' (base + spans pre) mid' (base + spans pre + spans mid) ->
  laid m' base (pre ++ mid' ++ post) e.
Proof.
  intros Hl Hs Hf Hm. apply laid_app in Hl as [Hpre Hl]. apply laid_app in Hl as [Hmid Hpost].
  pose proof (laid_nonneg _ _ _ _ Hmid) as H1. pose proof (laid_nonneg _ _ _ _ Hpost).
  pose proof (laid_spans _ _ _ _ Hpost).
  apply laid_app. split.
  { eapply laid_frame; [done|]. intros x Hx. destruct (Hf x); [lia|done]. }
  apply laid_app. rewrite Hs. split; [done|].
  eapply laid_frame; [done|]. intros x Hx. destruct (Hf x); [lia|done].
Qed.

(** ** Allocation refines first fit *)

(** The first free block of positive size with room for [sz] bytes. *)
Fixpoint first_fit (sz : Z) (bs : list block) : option (list block * block * list block) :=
  match bs with
  | [] => None
  | b :: bs =>
    if negb (b_alloc b) && (0 <? b_size b) && (sz <=? b_size b) then Some ([], b, bs)
    else '(pre, c, post) ← first_fit sz bs; Some (b :: pre, c, post)
  end.

(** The blocks that replace the chosen one. *)
Definition split_block (sz : Z) (b : block) : list block :=
  if sz + 64 <=? b_size b then [Block sz true; Block (b_size b - sz - 32) false]
  else [Block (b_size b) true].

Lemma first_fit_Some sz bs pre b post :
  first_fit sz bs = Some (pre, b, post) ->
  bs = pre ++ b :: post /\ b_alloc b = false /\ 0 < b_size b /\ sz <= b_size b.
Proof.
  revert pre. induction bs as [|c bs IH]; simpl; intros pre; [done|].
  destruct (negb (b_alloc c) && (0 <? b_size c) && (sz <=? b_size c)) eqn:E.
  - intros [= <- <- <-]. apply andb_prop in E as [[E1 E2]%andb_prop E3].
    apply negb_true_iff in E1. repeat split; auto; lia.
  - destruct (first_fit sz bs) as [[[pre' b'] post']|]; [|done].
    intros [= <- -> ->]. destruct (IH pre') as (-> & ?); done.
Qed.

Lemma first_fit_None sz bs :
  first_fit sz bs = None ->
  forall b, b ∈ bs -> b_alloc b = false -> 0 < b_size b -> b_size b < sz.
Proof.
  induction bs as [|c bs IH]; simpl; intros H b; [by intros ?%elem_of_nil|].
  destruct (negb (b_alloc c) && (0 <? b_size c) && (sz <=? b_size c)) eqn:E; [done|].
  destruct (first_fit sz bs) as [[[? ?] ?]|]; [done|].
  intros [->|Hin]%elem_of_cons Ha Hpos; [|by apply IH].
  rewrite Ha in E. simpl in E. destruct (Z.ltb_spec 0 (b_size c)); [|lia].
  simpl in E. lia.
Qed.

Lemma length_spans m a bs e : laid m a bs e -> 32 * Z.of_nat (length bs) <= spans bs.
Proof.
  revert a. induction bs as [|b bs IH]; intros a; [simpl; lia|].
  intros (? & _ & _ & _ & H). apply IH in H. simpl length. simpl spans. unfold span. lia.
Qed.

Lemma flag_of_alloc b : truthy (Z.land (flag_of b) 1) = b_alloc b.
Proof. unfold flag_of. by destruct (b_alloc b). Qed.

(** With an alignment of at most 16 the header stays where it is. *)
Lemma kh_place_default s a c (k : Z) (align : Z) :
  0 < a < 2 ^ 64 - 4096 -> kh_mem s !! a = Some c -> 0 <= word c < 2 ^ 64 ->
  kh_place a k (a + 16) align s = Some (a, s).
Proof.
  intros Ha Hc Hw. unfold kh_place. rewrite gets_run. cbv zeta.
  replace (u64 (a + 16 - 16)) with a by (nowrap; lia).
  replace (u64 (a - a)) with 0 by (nowrap; lia). simpl.
  erewrite load_run by done. erewrite store_run by eauto.
  rewrite (insert_id _ _ _ Hc), set_mem_id. erewrite load_run by done.
  erewrite store_size_run by done. rewrite Z.sub_0_r, (wrap_small 64 (word c)) by done.
  destruct c as [mg fl w]. simpl in *. rewrite (insert_id _ _ _ Hc), set_mem_id. done.
Qed.

Section search.
Context (s : heap) (sz align k : Z).
Context (Hbase : 0 < kh_base_addr s) (Htop : kh_end_addr s <= 2 ^ 64 - 4096).
Context (Hk : 0 <= k <= 4) (Halign : align = 2 ^ k) (Hsz : 0 <= sz).

Lemma align_mod_16 a : a mod 16 = 0 -> (a + 16) mod 2 ^ k = 0.
Proof.
  intros Ha. apply Z.mod_divide in Ha as [q ->]; [|lia].
  apply Z.mod_divide; [apply Z.pow_nonzero; lia|].
  exists ((q + 1) * 2 ^ (4 - k)).
  rewrite <- Z.mul_assoc, <- Z.pow_add_r by lia. replace (4 - k + k) with 4 by lia. lia.
Qed.

Lemma kh_search_spec bs : forall a fuel,
  kh_base_addr s <= a -> a mod 16 = 0 ->
  laid (kh_mem s) a bs (kh_end_addr s) -> (length bs < fuel)%nat ->
  kh_search fuel sz align a s =
  match first_fit sz bs with
  | None => Some (Err ENOMEM, set_lock false s)
  | Some (pre, b, _) =>
    Some (Ok (a + spans pre + 16, a + spans pre, a + spans pre + 16 + b_size b), s)
  end.
Proof using Hbase Htop Hk Halign Hsz.
  induction bs as [|b bs IH]; intros a fuel Ha Hmod Hl Hfuel; destruct fuel as [|fuel];
    try (simpl in Hfuel; lia).
  - simpl in Hl. simpl kh_search. rewrite gets_run. rewrite Hl, Z.leb_refl. done.
  - pose proof (laid_spans _ _ _ _ Hl) as He. pose proof (laid_nonneg _ _ _ _ Hl) as Hn.
    destruct Hl as (Hb & Hb16 & Hh & (r & Ht) & Hl). simpl in He, Hn.
    pose proof (laid_nonneg _ _ _ _ Hl) as Hn'. unfold span in *.
    simpl kh_search. rewrite gets_run.
    destruct (Z.leb_spec (kh_end_addr s) a); [lia|]. cbv iota.
    erewrite load_run by done. heval. rewrite Z.eqb_refl. heval.
    replace (u64 (a + b_size b + 16)) with (a + 16 + b_size b) by (nowrap; lia).
    erewrite load_run by done. heval. rewrite !Z.eqb_refl. heval. rewrite flag_of_alloc.
    replace (u64 (a + 16)) with (a + 16) by (nowrap; lia).
    replace (u64 (a + 16 + b_size b + 16)) with (a + (32 + b_size b)) by (nowrap; lia).
    assert (Hrec : kh_search fuel sz align (a + (32 + b_size b)) s =
      match first_fit sz bs with
      | None => Some (Err ENOMEM, set_lock false s)
      | Some (pre, c, _) =>
        Some (Ok (a + (32 + b_size b + spans pre) + 16, a + (32 + b_size b + spans pre),
                  a + (32 + b_size b + spans pre) + 16 + b_size c), s)
      end).
    { rewrite IH; [|lia| |done|simpl in Hfuel; lia].
      - destruct (first_fit sz bs) as [[[pre c] post]|]; [|done]. by rewrite !Z.add_assoc.
      - rewrite Z.add_mod, (Z.add_mod 32), Hmod, Hb16 by lia. done. }
    simpl first_fit. destruct (b_alloc b) eqn:Eb; heval.
    { rewrite Hrec. by destruct (first_fit sz bs) as [[[pre c] post]|]. }
    rewrite Halign, ALIGN_UP_aligned; [|lia|pose proof (Z.pow_le_mono_r 2 k 4 ltac:(lia) ltac:(lia)); lia|by apply align_mod_16].
    replace (u64 (a + 16 + b_size b - (a + 16))) with (b_size b) by (nowrap; lia).
    replace (a + 16 <? a + 16 + b_size b) with (0 <? b_size b)
      by (destruct (Z.ltb_spec 0 (b_size b)), (Z.ltb_spec (a + 16) (a + 16 + b_size b)); lia).
    destruct ((0 <? b_size b) && (sz <=? b_size b)) eqn:E.
    + erewrite (bind_run (kh_place _ _ _ _)); [|eapply kh_place_default; [lia|done|simpl; lia]].
      simpl. by rewrite !Z.add_0_r.
    + rewrite <- Halign, Hrec. by destruct (first_fit sz bs) as [[[pre c] post]|].
Qed.
End search.

(** Looks up a chain of insertions at arithmetically distinct addresses. *)
Ltac hlook := repeat first
  [ rewrite lookup_insert_eq | rewrite lookup_insert_ne by (unfold span in *; lia) ].

(** An address is outside a region or its cell is unchanged. *)
Ltac hframe := let x := fresh "x" in
  intros x;
  match goal with |- ?lo <= x < ?hi \/ _ =>
    destruct (decide (lo <= x < hi)); [by left | right; hlook; done] end.

(** A cell at an aligned address of the heap is mapped. *)
Ltac hmapped := heval; match goal with H : mapped _ _ _ |- _ => apply H; [lia | divlia] end.

Lemma heap_ok_laid s bs m' bs' l :
  heap_ok s bs -> l = false ->
  mapped m' (kh_base_addr s) (kh_end_addr s) ->
  laid m' (kh_base_addr s) bs' (kh_end_addr s) ->
  heap_ok (Heap m' (kh_base_addr s) (kh_end_addr s) l) bs'.
Proof. intros [] -> ??. by constructor. Qed.

(** The facts about a block inside a heap that the proofs below use. *)
Lemma heap_ok_block s pre b post :
  heap_ok s (pre ++ b :: post) ->
  let A := kh_base_addr s + spans pre in
  0 < kh_base_addr s <= A /\ A mod 16 = 0 /\ 0 <= b_size b /\ b_size b mod 16 = 0 /\
  A + span b + spans post = kh_end_addr s /\ 0 <= spans post /\
  kh_mem s !! A = Some (Cell KH_HEADER_MAGIC (flag_of b) (b_size b)) /\
  exists r, kh_mem s !! (A + 16 + b_size b) = Some (Cell KH_TAIL_MAGIC r A).
Proof.
  intros [[Hb Hm] _ _ _ Hl] A. apply laid_app in Hl as [Hp Hl].
  pose proof (laid_nonneg _ _ _ _ Hp). pose proof (laid_aligned _ _ _ _ Hm Hp).
  pose proof (laid_spans _ _ _ _ Hl) as He. destruct Hl as (? & ? & ? & ? & Hl).
  pose proof (laid_nonneg _ _ _ _ Hl). simpl in He. unfold A. repeat split; auto; lia.
Qed.

Lemma heap_ok_fuel s bs : heap_ok s bs -> (length bs < search_fuel s)%nat.
Proof.
  intros [_ _ _ _ Hl]. pose proof (laid_spans _ _ _ _ Hl). pose proof (length_spans _ _ _ _ Hl).
  unfold search_fuel. assert (Z.of_nat (length bs) <= (kh_end_addr s - kh_base_addr s) / 32)
    by (apply Z.div_le_lower_bound; lia). lia.
Qed.

Lemma aligned_size size :
  0 <= size <= 2 ^ 64 - 16 ->
  size <= ALIGN_UP size 16 < size + 16 /\ ALIGN_UP size 16 mod 16 = 0.
Proof. intros H. apply (ALIGN_UP_bounds size 4); lia. Qed.

(** [kh_commit] on a free block with room for [sz] bytes. *)
Lemma kh_commit_spec s pre b post sz :
  heap_ok s (pre ++ b :: post) -> b_alloc b = false -> 0 <= sz <= b_size b -> sz mod 16 = 0 ->
  let A := kh_base_addr s + spans pre in
  exists s',
    kh_commit sz (A + 16) A (A + 16 + b_size b) (set_lock true s) = Some (Ok (A + 16), s') /\
    heap_ok s' (pre ++ split_block sz b ++ post) /\
    kh_base_addr s' = kh_base_addr s /\ kh_end_addr s' = kh_end_addr s /\
    (forall x, A <= x < A + span b \/ kh_mem s' !! x = kh_mem s !! x).
Proof.
  intros Hok Ha Hsz H16 A.
  destruct (heap_ok_block _ _ _ _ Hok) as (HA & HAm & Hb & Hb16 & He & Hpost & Hh & r & Ht).
  fold A in HA, HAm, He, Hh, Ht. pose proof (ok_top _ _ Hok) as Htop.
  pose proof (ok_laid _ _ Hok) as Hl. pose proof (ok_mapped _ _ Hok) as Hmap.
  unfold flag_of in Hh. rewrite Ha in Hh. unfold span in He. unfold kh_commit, split_block.
  erewrite load_run by done. heval. rewrite (wrap_small 64 (sz + 16 + 16 + 32)) by lia.
  replace (sz + 16 + 16 + 32) with (sz + 64) by lia.
  destruct (Z.leb_spec (sz + 64) (b_size b)).
  - replace (u64 (u64 (A + 16 + sz) + 16)) with (A + 32 + sz) by (nowrap; lia).
    replace (u64 (A + 16 + sz)) with (A + 16 + sz) by (nowrap; lia).
    replace (u64 (b_size b - sz - 16 - 16)) with (b_size b - sz - 32) by (nowrap; lia).
    eexists. split.
    { rewrite bind_assoc. erewrite store_run by hmapped. heval.
      rewrite bind_assoc. erewrite store_run by (heval; hlook; hmapped). heval.
      rewrite bind_assoc. erewrite store_size_run by (heval; hlook; done). heval.
      erewrite store_size_run by (heval; hlook; done). heval.
      erewrite load_run by (heval; hlook; done). heval.
      erewrite store_flags_run by (heval; hlook; done). heval. reflexivity. }
    heval. split; [|split; [done|split; [done|hframe]]].
    apply (heap_ok_laid _ _ _ _ _ Hok); [done|by repeat apply mapped_insert|].
    eapply (laid_replace _ _ _ pre [b] [_; _] post); [done|simpl; unfold span; simpl; lia| |].
    + fold A. simpl. hframe.
    + fold A. simpl. unfold span. simpl.
        replace (A + (32 + sz)) with (A + 32 + sz) by lia.
        replace (A + 32 + sz + 16 + (b_size b - sz - 32)) with (A + 16 + b_size b) by lia.
        hlook. repeat split; eauto; try lia. divlia.
  - eexists. split.
    { rewrite ret_run. erewrite load_run by (heval; hlook; done). heval.
      erewrite store_flags_run by (heval; hlook; done). heval. reflexivity. }
    heval. split; [|split; [done|split; [done|hframe]]].
    apply (heap_ok_laid _ _ _ _ _ Hok); [done|by repeat apply mapped_insert|].
    eapply (laid_replace _ _ _ pre [b] [_] post); [done|simpl; unfold span; simpl; lia| |].
    + fold A. simpl. hframe.
    + fold A. simpl. unfold span. simpl. hlook. repeat split; eauto; lia.
Qed.

(** What [kh_alloc_aligned] does for an alignment of at most 16 bytes. *)
Definition alloc_result (s : heap) (bs : list block) (sz : Z) (o : option (res Z * heap)) : Prop :=
  match first_fit sz bs with
  | None => o = Some (Err ENOMEM, s)
  | Some (pre, b, post) =>
    exists s', o = Some (Ok (kh_base_addr s + spans pre + 16), s') /\
      heap_ok s' (pre ++ split_block sz b ++ post) /\
      kh_base_addr s' = kh_base_addr s /\ kh_end_addr s' = kh_end_addr s /\
      let A := kh_base_addr s + spans pre in
      forall x, A <= x < A + span b \/ kh_mem s' !! x = kh_mem s !! x
  end.

Lemma kh_alloc_run s bs size k :
  heap_ok s bs -> 0 <= k <= 4 -> 0 <= size <= 2 ^ 64 - 16 ->
  alloc_result s bs (ALIGN_UP size 16) (kh_alloc_aligned size (2 ^ k) s).
Proof.
  intros Hok Hk Hsize. unfold alloc_result, kh_alloc_aligned.
  replace (IS_P2 (2 ^ k)) with true; [|symmetry; apply IS_P2_spec; [|exists k; lia]].
  2: { split; [lia|]. apply Z.pow_lt_mono_r; lia. }
  heval. set (sz := ALIGN_UP size 16).
  assert (Hsz := aligned_size size Hsize). fold sz in Hsz.
  erewrite (bind_run spinlock_acquire); [|unfold spinlock_acquire; by rewrite (ok_lock _ _ Hok)].
  rewrite !gets_run.
  pose proof (ok_base _ _ Hok) as [Hb0 Hb16].
  assert (Hs := kh_search_spec (set_lock true s) sz (2 ^ k) k Hb0 (ok_top _ _ Hok) Hk eq_refl
    ltac:(lia) bs (kh_base_addr s) (search_fuel s) (Z.le_refl _) Hb16 (ok_laid _ _ Hok)
    (heap_ok_fuel s bs Hok)).
  destruct (first_fit sz bs) as [[[pre b] post]|] eqn:Ef; rewrite (bind_run _ _ _ _ _ Hs); heval.
  - apply first_fit_Some in Ef as (-> & Ha & Hpos & Hfit).
    destruct (kh_commit_spec s pre b post sz Hok Ha ltac:(lia) ltac:(lia)) as (s' & Hrun & ?).
    exists s'. split; [exact Hrun|done].
  - rewrite <- (ok_lock _ _ Hok). by destruct s.
Qed.

(** ** Live blocks *)

(** Address and size of the data of every allocated block. *)
Fixpoint live (base : Z) (bs : list block) : list (Z * Z) :=
  match bs with
  | [] => []
  | b :: bs =>
    (if b_alloc b then [(base + 16, b_size b)] else []) ++ live (base + span b) bs
  end.

Lemma live_app base bs1 bs2 : live base (bs1 ++ bs2) = live base bs1 ++ live (base + spans bs1) bs2.
Proof.
  revert base. induction bs1 as [|b bs1 IH]; intros base; simpl.
  - by rewrite Z.add_0_r.
  - by rewrite IH, <- app_assoc, Z.add_assoc.
Qed.

Lemma live_bounds m base bs e p n :
  laid m base bs e -> (p, n) ∈ live base bs -> base + 16 <= p /\ 0 <= n /\ p + n + 16 <= e.
Proof.
  revert base. induction bs as [|b bs IH]; intros base Hl; [by intros ?%elem_of_nil|].
  pose proof (laid_spans _ _ _ _ Hl) as He. destruct Hl as (Hb & _ & _ & _ & Hl). simpl in *.
  pose proof (laid_nonneg _ _ _ _ Hl). unfold span in *.
  intros [Hin|Hin]%elem_of_app; [|apply IH in Hin; [lia|done]].
  destruct (b_alloc b); [|by apply elem_of_nil in Hin].
  apply list_elem_of_singleton in Hin as [= -> ->]. lia.
Qed.

(** A live block is outside a region of blocks that holds no live block. *)
Lemma live_outside m base pre mid post e p n :
  laid m base (pre ++ mid ++ post) e -> live (base + spans pre) mid = [] ->
  (p, n) ∈ live base (pre ++ mid ++ post) ->
  p + n <= base + spans pre \/ base + spans pre + spans mid <= p.
Proof.
  intros Hl Hmid. rewrite !live_app, Hmid. simpl.
  apply laid_app in Hl as [Hp Hl]. apply laid_app in Hl as [_ Hq].
  intros [Hin|Hin]%elem_of_app.
  - apply (live_bounds _ _ _ _ _ _ Hp) in Hin. lia.
  - apply (live_bounds _ _ _ _ _ _ Hq) in Hin. lia.
Qed.

(** The data of the live blocks [l] is the same in both memories. *)
Definition same_data (m m' : gmap Z cell) (l : list (Z * Z)) : Prop :=
  forall p n x, (p, n) ∈ l -> p <= x < p + n -> m' !! x = m !! x.

Lemma live_elem base bs p n :
  (p, n) ∈ live base bs ->
  exists pre post, bs = pre ++ Block n true :: post /\ p = base + spans pre + 16.
Proof.
  revert base. induction bs as [|b bs IH]; intros base; [by intros ?%elem_of_nil|].
  simpl. intros [Hin|Hin]%elem_of_app.
  - destruct b as [n' []]; [|by apply elem_of_nil in Hin].
    apply list_elem_of_singleton in Hin as [= -> ->]. exists [], bs. split; [done|]. simpl. lia.
  - apply IH in Hin as (pre & post & -> & ->). exists (b :: pre), post. split; [done|]. simpl. lia.
Qed.

(** An allocation either fails with ENOMEM, when no free block can hold the
    request, and changes nothing, or returns a block of [n] bytes that is new. *)
Definition alloc_spec (s : heap) (bs : list block) (size : Z) (o : option (res Z * heap)) : Prop :=
  (o = Some (Err ENOMEM, s) /\
   forall b, b ∈ bs -> b_alloc b = false -> 0 < b_size b -> b_size b < size) \/
  exists p n s' bs',
    o = Some (Ok p, s') /\ heap_ok s' bs' /\
    kh_base_addr s' = kh_base_addr s /\ kh_end_addr s' = kh_end_addr s /\
    p mod 16 = 0 /\ size <= n /\ kh_base_addr s < p /\ p + n <= kh_end_addr s /\
    live (kh_base_addr s) bs' ≡ₚ (p, n) :: live (kh_base_addr s) bs /\
    (forall q l, (q, l) ∈ live (kh_base_addr s) bs -> q + l <= p \/ p + n <= q) /\
    same_data (kh_mem s) (kh_mem s') (live (kh_base_addr s) bs).

Lemma kh_alloc_live s bs size k :
  heap_ok s bs -> 0 <= k <= 4 -> 0 <= size <= 2 ^ 64 - 16 ->
  alloc_spec s bs size (kh_alloc_aligned size (2 ^ k) s).
Proof.
  intros Hok Hk Hsize. pose proof (kh_alloc_run s bs size k Hok Hk Hsize) as Hrun.
  destruct (aligned_size size Hsize) as [Hsz Hsz16]. set (sz := ALIGN_UP size 16) in *.
  unfold alloc_result in Hrun. destruct (first_fit sz bs) as [[[pre b] post]|] eqn:Ef.
  - right. apply first_fit_Some in Ef as (-> & Ha & Hpos & Hfit).
    destruct Hrun as (s' & Hrun & Hok' & Hb' & He' & Hframe).
    destruct (heap_ok_block _ _ _ _ Hok) as (HA & HAm & Hb & Hb16 & He & Hpost & _).
    assert (Hlive := fun q l => live_outside _ _ pre [b] post _ q l (ok_laid _ _ Hok)
      ltac:(simpl; by rewrite Ha)).
    set (A := kh_base_addr s + spans pre) in *. simpl app in Hlive. unfold span in *.
    exists (A + 16), (if sz + 64 <=? b_size b then sz else b_size b), s',
      (pre ++ split_block sz b ++ post).
    split; [done|]. split; [done|]. split; [done|]. split; [done|]. split; [divlia|].
    split; [destruct (_ <=? _); lia|]. split; [lia|].
    split; [destruct (Z.leb_spec (sz + 64) (b_size b)); lia|]. split.
    { rewrite !live_app. fold A. simpl. rewrite Ha. simpl. unfold split_block.
      replace (span b) with (spans (split_block sz b))
        by (unfold split_block, span; destruct (_ <=? _); simpl; unfold span; simpl; lia).
      unfold split_block. destruct (sz + 64 <=? b_size b); simpl; symmetry; apply Permutation_middle. }
    split.
    + intros q l Hin. apply Hlive in Hin. simpl in Hin. unfold span in Hin.
      destruct (Z.leb_spec (sz + 64) (b_size b)); lia.
    + intros q l x Hin Hx. apply Hlive in Hin. simpl in Hin. unfold span in Hin.
      destruct (Hframe x) as [?|?]; [lia|done].
  - left. split; [done|]. intros b Hin Ha Hpos.
    pose proof (first_fit_None _ _ Ef b Hin Ha Hpos).
    apply list_elem_of_split in Hin as (pre & post & ->).
    destruct (heap_ok_block _ _ _ _ Hok) as (_ & _ & _ & Hb16 & _). divlia.
Qed.


(** ** Freeing *)

Definition coalesce_left (pre : list block) (n : Z) : list block * block :=
  match list.last pre with
  | Some p =>
    if b_alloc p then (pre, Block n false)
    else (removelast pre, Block (b_size p + (n + 32)) false)
  | None => (pre, Block n false)
  end.

Definition coalesce_right (b : block) (post : list block) : list block :=
  match post with
  | q :: post' =>
    if b_alloc q then b :: post else Block (b_size b + (32 + b_size q)) false :: post'
  | [] => [b]
  end.

(** The blocks after the block of size [n] between [pre] and [post] is freed. *)
Definition free_blocks (pre : list block) (n : Z) (post : list block) : list block :=
  let '(pre', b) := coalesce_left pre n in pre' ++ coalesce_right b post.

(** Code that runs under the lock and only touches the free region from [lo] to
    [hi]. *)
Definition under_lock (s s' : heap) (bs' : list block) (lo hi : Z) : Prop :=
  heap_ok (set_lock false s') bs' /\ kh_base_addr s' = kh_base_addr s /\
  kh_end_addr s' = kh_end_addr s /\ kh_lock s' = kh_lock s /\
  forall x, lo <= x < hi \/ kh_mem s' !! x = kh_mem s !! x.

Lemma under_lock_refl s bs lo hi : heap_ok (set_lock false s) bs -> under_lock s s bs lo hi.
Proof. intros H. unfold under_lock. auto 10. Qed.

Lemma kh_merge_prev_spec s pre n post :
  heap_ok (set_lock false s) (pre ++ Block n false :: post) ->
  let '(pre', b) := coalesce_left pre n in
  let A := kh_base_addr s + spans pre' in
  exists s', kh_merge_prev (kh_base_addr s + spans pre) s = Some (A, s') /\
    under_lock s s' (pre' ++ b :: post) A (A + span b).
Proof.
  intros Hok. destruct (heap_ok_block _ _ _ _ Hok) as (HA & HAm & Hn & Hn16 & He & Hpost & Hh & r & Ht).
  pose proof (ok_top _ _ Hok) as Htop. heval. cbn [b_size flag_of b_alloc] in *. unfold span in *.
  cbn [b_size] in *. pose proof (ok_base _ _ Hok) as [Hb0 Hb16]. heval.
  unfold coalesce_left, kh_merge_prev. rewrite gets_run. erewrite load_run by done. cbv zeta. heval.
  destruct pre as [|p pre _] using rev_ind.
  { simpl in *. rewrite Z.add_0_r in *.
    replace (u64 (kh_base_addr s - 16)) with (kh_base_addr s - 16) by (rewrite wrap_small; divlia).
    destruct (Z.leb_spec (kh_base_addr s) (kh_base_addr s - 16)); [lia|].
    exists s. split; [done|]. by apply under_lock_refl. }
  rewrite last_snoc. rewrite <- app_assoc in Hok. simpl in Hok.
  destruct (heap_ok_block _ _ _ _ Hok) as (HP & HPm & Hp & Hp16 & HeP & HpostP & HhP & rP & HtP).
  heval. rewrite spans_app in *. simpl in *. rewrite Z.add_0_r in *.
  set (P := kh_base_addr s + spans pre) in *. unfold span in *.
  replace (kh_base_addr s + (spans pre + (32 + b_size p))) with (P + (32 + b_size p)) in *
    by (unfold P; lia).
  set (A := P + (32 + b_size p)) in *.
  replace (u64 (A - 16)) with (P + 16 + b_size p) by (rewrite wrap_small; unfold A; lia).
  destruct (Z.leb_spec (kh_base_addr s) (P + 16 + b_size p)); [|lia].
  erewrite load_run by done. heval. erewrite load_run by done. heval. unfold flag_of.
  destruct (b_alloc p) eqn:Ea; heval.
  - replace (kh_base_addr s + spans (pre ++ [p])) with A
      by (rewrite spans_app; simpl; unfold A, span, P; lia).
    exists s. split; [done|].
    apply under_lock_refl. by rewrite <- app_assoc.
  - unfold flag_of in HhP. rewrite Ea in HhP. rewrite removelast_app by done. simpl removelast. rewrite app_nil_r.
    replace (u64 (b_size p + (n + 16 + 16))) with (b_size p + (n + 32)) by (rewrite wrap_small; unfold A in *; lia).
    replace (u64 (A + 16 + n)) with (A + 16 + n) by (rewrite wrap_small; lia).
    erewrite store_size_run by (heval; done). heval.
    erewrite store_size_run by (heval; rewrite lookup_insert_ne by (unfold A; lia); done). heval.
    eexists. split; [reflexivity|]. unfold under_lock. heval. cbn [b_size].
    split; [|repeat split; auto; fold P; intros x;
      destruct (decide (P <= x < P + (32 + (b_size p + (n + 32))))); [by left|right; rewrite !lookup_insert_ne by (unfold A; lia); done]].
    apply (heap_ok_laid _ _ _ _ _ Hok); [done|by repeat apply mapped_insert; apply (ok_mapped _ _ Hok)|].
    heval. eapply (laid_replace _ _ _ pre [p; Block n false] [_] post);
      [exact (ok_laid _ _ Hok)|simpl; unfold span; simpl; lia| |]; fold P; simpl; unfold span; cbn [b_size].
    + intros x; destruct (decide (P <= x < P + (32 + b_size p + (32 + n + 0)))); [by left|right].
      rewrite !lookup_insert_ne by (unfold A; lia). done.
    + replace (P + 16 + (b_size p + (n + 32))) with (A + 16 + n) by (unfold A; lia).
      rewrite lookup_insert_ne, lookup_insert_eq by (unfold A; lia).
      rewrite lookup_insert_eq. cbn [flag_of b_alloc]. repeat split; eauto; try lia. divlia.
Qed.

Lemma kh_merge_next_spec s pre b post :
  heap_ok (set_lock false s) (pre ++ b :: post) -> b_alloc b = false ->
  let A := kh_base_addr s + spans pre in
  exists s', kh_merge_next A s = Some (tt, s') /\
    under_lock s s' (pre ++ coalesce_right b post) A
      (A + spans (take 1 (coalesce_right b post))).
Proof.
  intros Hok Hb0 A.
  destruct (heap_ok_block _ _ _ _ Hok) as (HA & HAm & Hn & Hn16 & He & Hpost & Hh & r & Ht).
  pose proof (ok_top _ _ Hok) as Htop. heval_all. fold A in HA, HAm, He, Hh, Ht.
  unfold flag_of in Hh. rewrite Hb0 in Hh.
  unfold kh_merge_next, coalesce_right. rewrite gets_run. erewrite load_run by done. cbv zeta. heval.
  unfold span in *. rewrite (wrap_small 64 (A + 16 + 16 + b_size b)) by lia.
  replace (A + 16 + 16 + b_size b) with (A + (32 + b_size b)) by lia.
  destruct post as [|q post].
  { simpl in He. destruct (Z.ltb_spec (A + (32 + b_size b)) (kh_end_addr s)); [lia|].
    exists s. split; [done|]. by apply under_lock_refl. }
  assert (Hok' := Hok). replace (pre ++ b :: q :: post) with ((pre ++ [b]) ++ q :: post) in Hok'
    by (by rewrite <- app_assoc).
  destruct (heap_ok_block _ _ _ _ Hok') as (_ & HQm & Hq & Hq16 & HeQ & HpostQ & HhQ & rQ & HtQ).
  heval_all. rewrite spans_app in *. simpl in *. rewrite Z.add_0_r in *. unfold span in *.
  replace (kh_base_addr s + (spans pre + (32 + b_size b))) with (A + (32 + b_size b)) in *
    by (unfold A; lia).
  set (Q := A + (32 + b_size b)) in *.
  destruct (Z.ltb_spec Q (kh_end_addr s)); [|lia].
  erewrite load_run by done. heval. unfold flag_of in *.
  destruct (b_alloc q) eqn:Ea; heval.
  { exists s. split; [done|]. by apply under_lock_refl. }
  replace (u64 (b_size b + (16 + 16 + b_size q))) with (b_size b + (32 + b_size q))
    by (rewrite wrap_small; unfold Q in *; lia).
  replace (u64 (Q + 16 + b_size q)) with (Q + 16 + b_size q) by (rewrite wrap_small; lia).
  erewrite store_size_run by (heval; done). heval.
  unfold store_size. erewrite load_run by (heval; rewrite lookup_insert_ne by (unfold Q; lia); done).
  heval. unfold store. heval. rewrite lookup_insert_ne, HtQ by (unfold Q; lia).
  eexists. split; [reflexivity|]. unfold under_lock. heval.
  split; [|repeat split; auto; intros x;
    destruct (decide (A <= x < A + (32 + (b_size b + (32 + b_size q)) + 0))); [by left|right; rewrite !lookup_insert_ne by (unfold Q; lia); done]].
  apply (heap_ok_laid _ _ _ _ _ Hok); [done|by repeat apply mapped_insert; apply (ok_mapped _ _ Hok)|].
  heval. eapply (laid_replace _ _ _ pre [b; q] [_] post);
    [exact (ok_laid _ _ Hok)|simpl; unfold span; simpl; lia| |]; fold A; simpl; unfold span; cbn [b_size]; fold A.
  - intros x; destruct (decide (A <= x < A + (32 + b_size b + (32 + b_size q + 0)))); [by left|right].
    rewrite !lookup_insert_ne by (unfold Q; lia). done.
  - replace (A + 16 + (b_size b + (32 + b_size q))) with (Q + 16 + b_size q) by (unfold Q; lia).
    rewrite lookup_insert_ne, !lookup_insert_eq by (unfold Q; lia).
    cbn [flag_of b_alloc]. repeat split; eauto; try lia. divlia.
Qed.

Lemma coalesce_left_free pre n :
  b_alloc (coalesce_left pre n).2 = false.
Proof. unfold coalesce_left. destruct (list.last pre) as [p|]; [destruct (b_alloc p)|]; done. Qed.

Lemma coalesce_left_cases pre n :
  coalesce_left pre n = (pre, Block n false) \/
  exists pre' p, pre = pre' ++ [p] /\ b_alloc p = false /\
    coalesce_left pre n = (pre', Block (b_size p + (n + 32)) false).
Proof.
  unfold coalesce_left. destruct pre as [|p pre _] using rev_ind; [by left|].
  rewrite last_snoc. destruct (b_alloc p) eqn:E; [by left|right].
  rewrite removelast_app by done. simpl. rewrite app_nil_r. eauto.
Qed.

Lemma laid_sizes m a bs e : laid m a bs e -> Forall (fun b => 0 <= b_size b) bs.
Proof. revert a. induction bs as [|b bs IH]; intros a; [done|]. intros (? & _ & _ & _ & ?). eauto. Qed.

Lemma coalesce_right_cases b post :
  b_alloc b = false -> Forall (fun b => 0 <= b_size b) post ->
  exists c rest, coalesce_right b post = c :: rest /\ b_alloc c = false /\ b_size b <= b_size c.
Proof.
  intros Hb Hp. unfold coalesce_right. destruct post as [|q post].
  { exists b, []. split; [done|]. split; [done|lia]. }
  destruct (b_alloc q) eqn:E.
  - exists b, (q :: post). split; [done|]. split; [done|lia].
  - eexists _, _. split; [done|]. split; [done|]. simpl. inversion Hp; subst. lia.
Qed.

(** The live blocks of [free_blocks] are those of both sides. *)
Lemma live_coalesce_right base b post :
  b_alloc b = false -> live base (coalesce_right b post) = live (base + span b) post.
Proof.
  intros Hb. unfold coalesce_right. destruct post as [|q post]; simpl; [by rewrite Hb|].
  destruct (b_alloc q) eqn:E; simpl; rewrite ?Hb, ?E; simpl; [done|].
  f_equal. unfold span. simpl. lia.
Qed.

Lemma live_free_blocks base pre n post :
  live base (free_blocks pre n post) = live base pre ++ live (base + spans pre + (32 + n)) post.
Proof.
  unfold free_blocks. destruct (coalesce_left_cases pre n) as [->|(pre' & p & -> & Hp & ->)];
    rewrite live_app, live_coalesce_right by done; unfold span; simpl; [done|].
  rewrite live_app, spans_app. simpl. rewrite Hp. simpl. rewrite app_nil_r.
  f_equal. f_equal. unfold span. lia.
Qed.

Lemma kh_free_run s pre n post :
  heap_ok s (pre ++ Block n true :: post) ->
  exists s', kh_free (kh_base_addr s + spans pre + 16) s = Some (Ok tt, s') /\
    heap_ok s' (free_blocks pre n post) /\
    kh_base_addr s' = kh_base_addr s /\ kh_end_addr s' = kh_end_addr s /\
    same_data (kh_mem s) (kh_mem s') (live (kh_base_addr s) (free_blocks pre n post)).
Proof.
  intros Hok. destruct (heap_ok_block _ _ _ _ Hok) as (HA & HAm & Hn & Hn16 & He & Hpost & Hh & r & Ht).
  pose proof (ok_top _ _ Hok) as Htop. cbn [b_size flag_of b_alloc] in *.
  set (A := kh_base_addr s + spans pre) in *. unfold kh_free, span in *. cbn [b_size] in *.
  destruct (Z.eqb_spec (A + 16) 0); [lia|].
  erewrite (bind_run spinlock_acquire); [|unfold spinlock_acquire; by rewrite (ok_lock _ _ Hok)].
  cbv zeta. replace (u64 (A + 16 - 16)) with A by (nowrap; lia).
  erewrite load_run by (heval; done). heval. rewrite Z.eqb_refl. heval.
  erewrite store_flags_run by (heval; done). heval.
  set (s1 := Heap _ _ _ true).
  assert (Hok1 : heap_ok (set_lock false s1) (pre ++ Block n false :: post)).
  { apply (heap_ok_laid _ _ _ _ _ Hok); [done|by apply mapped_insert, (ok_mapped _ _ Hok)|].
    heval. eapply (laid_replace _ _ _ pre [_] [_] post); [exact (ok_laid _ _ Hok)|done| |];
      fold A; simpl; unfold span; simpl; [hframe|]. hlook. repeat split; eauto; lia. }
  pose proof (kh_merge_prev_spec s1 pre n post Hok1) as Hprev.
  pose proof (coalesce_left_free pre n) as Hfree.
  unfold free_blocks. assert (Hcases := coalesce_left_cases pre n).
  destruct (coalesce_left pre n) as [pre' b] eqn:Ecl. simpl in Hfree.
  destruct Hprev as (s2 & Hrun & Hok2 & Hb2 & He2 & Hl2 & Hf2).
  change (kh_base_addr s1) with (kh_base_addr s) in *. fold A in Hrun.
  rewrite (bind_run _ _ _ _ _ Hrun).
  destruct (kh_merge_next_spec s2 pre' b post Hok2 Hfree) as (s3 & Hrun3 & Hok3 & Hb3 & He3 & Hl3 & Hf3).
  rewrite Hb2 in Hrun3, Hf3. rewrite (bind_run _ _ _ _ _ Hrun3).
  exists (set_lock false s3). split; [done|]. split; [done|].
  split; [heval; congruence|]. split; [heval; rewrite He3, He2; done|].
  intros q l x Hin Hx. heval.
  assert (Hpos := laid_sizes _ _ _ _ (ok_laid _ _ Hok2)).
  apply Forall_app in Hpos as [_ Hpos]. inversion Hpos as [|? ? _ Hpos']; subst.
  destruct (coalesce_right_cases b post Hfree Hpos') as (c & rest & Hc & Hcf & Hcs).
  rewrite Hc in *. pose proof (ok_laid _ _ Hok3) as Hl. heval_all. rewrite Hb3, Hb2 in Hl.
  apply (live_outside _ _ pre' [c] rest _ _ _ Hl) in Hin; [|simpl; by rewrite Hcf].
  simpl in Hin, Hf3. unfold span in *.
  destruct (Hf3 x) as [?|E3]; [lia|]. destruct (Hf2 x) as [?|E2]; [lia|].
  rewrite E3, E2. simpl.
  apply lookup_insert_ne.
  destruct Hcases as [[= H1 H2]|(pre0 & p & H0 & _ & [= H1 H2])]; subst; unfold A;
    [simpl in *; lia|]. rewrite spans_app in *. simpl in *. unfold span in *.
  assert (0 <= b_size p) by (pose proof (laid_sizes _ _ _ _ (ok_laid _ _ Hok)) as Hs;
    rewrite <- app_assoc in Hs; apply Forall_app in Hs as [_ Hs]; by inversion Hs). lia.
Qed.

(** No two free blocks are next to each other. *)
Fixpoint coalesced (bs : list block) : Prop :=
  match bs with
  | b :: (c :: _) as bs' => b_alloc b = true \/ b_alloc c = true
  | _ => True
  end /\ match bs with [] => True | _ :: bs' => coalesced bs' end.

Lemma coalesced_tail b bs : coalesced (b :: bs) -> coalesced bs.
Proof. by intros [_ H]. Qed.

Lemma coalesced_head b c bs : coalesced (b :: c :: bs) -> b_alloc b = true \/ b_alloc c = true.
Proof. by intros [H _]. Qed.

Lemma coalesced_right b post : b_alloc b = false -> coalesced post -> coalesced (coalesce_right b post).
Proof.
  intros Hb Hc. destruct post as [|q post]; [done|]. unfold coalesce_right. destruct (b_alloc q) eqn:Eq; [by split; [right|] |].
  split; [|by apply coalesced_tail in Hc]. destruct post as [|r post]; [done|].
  apply coalesced_head in Hc as [Hc|Hc]; [congruence|by right].
Qed.

Lemma coalesced_app pre bs : coalesced pre -> coalesced bs ->
  (forall p b, list.last pre = Some p -> head bs = Some b -> b_alloc p = true \/ b_alloc b = true) -> coalesced (pre ++ bs).
Proof.
  induction pre as [|p pre IH]; intros Hp Hb Hj; [done|]. cbn [app]. split.
  - destruct pre as [|q pre]; [destruct bs as [|b bs]; [done|by apply (Hj p b)] | by apply coalesced_head in Hp].
  - apply IH; [by apply coalesced_tail in Hp|done|]. intros q b Hq Hb'. apply (Hj q b); [|done]. by destruct pre.
Qed.

Lemma coalesced_prefix pre bs : coalesced (pre ++ bs) -> coalesced pre.
Proof.
  induction pre as [|p pre IH]; [done|]. intros Hc. split; [|by apply IH, (coalesced_tail p)].
  destruct pre as [|q pre]; [done|]. by apply coalesced_head in Hc.
Qed.

Lemma coalesced_suffix pre bs : coalesced (pre ++ bs) -> coalesced bs.
Proof. induction pre as [|p pre IH]; [done|]. intros Hc. by apply IH, (coalesced_tail p). Qed.

(** Freeing leaves no free blocks next to each other. *)
Lemma coalesced_free pre n post : coalesced (pre ++ Block n true :: post) -> coalesced (free_blocks pre n post).
Proof.
  intros Hc. pose proof (coalesced_prefix _ _ Hc) as Hpre. pose proof (coalesced_tail _ _ (coalesced_suffix _ _ Hc)) as Hpost.
  unfold free_blocks, coalesce_left. destruct pre as [|p pre _] using rev_ind; [by apply coalesced_right|].
  rewrite last_snoc. destruct (b_alloc p) eqn:Ep.
  - apply coalesced_app; [done|by apply coalesced_right|]. intros q b. rewrite last_snoc. intros [= <-] _. by left.
  - rewrite removelast_last. apply coalesced_app; [by apply (coalesced_prefix pre [p])|by apply coalesced_right|].
    intros q b Hq _. left. rewrite <- app_assoc in Hc. apply last_Some in Hq as [pre' ->]. rewrite <- app_assoc in Hc.
    apply coalesced_suffix, coalesced_head in Hc as [Hc|Hc]; [done|congruence].
Qed.

(** Where the freed block was between [pre] and [post], one free block stands for
    it and for its free neighbours. *)
Definition free_spec (s : heap) (bs : list block) (p n : Z) (o : option (res unit * heap)) : Prop :=
  exists s' pre post bs',
    o = Some (Ok tt, s') /\ heap_ok s' bs' /\
    bs = pre ++ Block n true :: post /\ p = kh_base_addr s + spans pre + 16 /\
    bs' = free_blocks pre n post /\ (coalesced bs -> coalesced bs') /\
    kh_base_addr s' = kh_base_addr s /\ kh_end_addr s' = kh_end_addr s /\
    live (kh_base_addr s) bs ≡ₚ (p, n) :: live (kh_base_addr s) bs' /\
    same_data (kh_mem s) (kh_mem s') (live (kh_base_addr s) bs').

Lemma kh_free_live s bs p n :
  heap_ok s bs -> (p, n) ∈ live (kh_base_addr s) bs -> free_spec s bs p n (kh_free p s).
Proof.
  intros Hok Hin. apply live_elem in Hin as (pre & post & -> & ->).
  destruct (kh_free_run s pre n post Hok) as (s' & Hrun & Hok' & Hb & He & Hsame).
  exists s', pre, post, (free_blocks pre n post). split_and!; try done; [apply coalesced_free|].
  rewrite live_free_blocks, live_app. simpl. symmetry. apply Permutation_middle.
Qed.

(** C2: freeing a live block succeeds, keeps the heap well formed and removes
    exactly this block from the live blocks. In its place stands one free block that
    also covers the free block in front of it and the one behind it, if there are
    such, so that a heap without adjacent free blocks has none afterwards either. The
    data of all other live blocks is untouched and the lock is released. *)
Theorem kh_free_correct s bs p n :
  heap_ok s bs -> (p, n) ∈ live (kh_base_addr s) bs -> free_spec s bs p n (kh_free p s).
Proof. apply kh_free_live. Qed.

(** ** Initialisation *)

(** [kh_init] lays out one free block over the whole region. *)
Lemma kh_init_ok mem base size :
  0 < base -> base mod 16 = 0 -> size mod 16 = 0 -> 32 <= size -> base + size <= 2 ^ 64 - 4096 ->
  mapped mem base (base + size) ->
  heap_ok (kh_init mem base size) [Block (size - 32) false].
Proof.
  intros Hb Hb16 Hs16 Hs He Hm. unfold kh_init.
  replace (u64 (u64 (base + size) - 16)) with (base + size - 16) by (nowrap; lia).
  replace (u64 (size - 16 - 16)) with (size - 32) by (nowrap; lia).
  rewrite (wrap_small 64 (base + size)) by lia.
  constructor; heval; auto.
  - by repeat apply mapped_insert.
  - simpl. unfold span. simpl. replace (base + 16 + (size - 32)) with (base + size - 16) by lia.
    hlook. repeat split; eauto; try lia. divlia.
Qed.

(** ** Reallocation *)

(** Writes to the data of a live block keep the heap well formed. *)
Lemma heap_ok_data s pre b post m' :
  heap_ok s (pre ++ b :: post) ->
  let A := kh_base_addr s + spans pre in
  mapped m' (kh_base_addr s) (kh_end_addr s) ->
  (forall x, A + 16 <= x < A + 16 + b_size b \/ m' !! x = kh_mem s !! x) ->
  heap_ok (set_mem m' s) (pre ++ b :: post).
Proof.
  intros Hok A Hm Hf. destruct (heap_ok_block _ _ _ _ Hok) as (HA & HAm & Hb & Hb16 & He & Hpost & Hh & r & Ht).
  fold A in HA, HAm, He, Hh, Ht.
  apply (heap_ok_laid _ _ _ _ _ Hok); [apply (ok_lock _ _ Hok)|done|].
  eapply (laid_replace _ _ _ pre [b] [b] post); [exact (ok_laid _ _ Hok)|done| |]; fold A; simpl;
    unfold span.
  - intros x. destruct (Hf x); [left; lia|by right].
  - destruct (Hf A) as [?| ->]; [lia|]. destruct (Hf (A + 16 + b_size b)) as [?| ->]; [lia|].
    repeat split; eauto. lia.
Qed.

Lemma memcpy_cells_spec k : forall dest src s,
  (dest + 16 * Z.of_nat k <= src \/ src + 16 * Z.of_nat k <= dest) ->
  (forall i, 0 <= i < Z.of_nat k -> is_Some (kh_mem s !! (dest + 16 * i)) /\ is_Some (kh_mem s !! (src + 16 * i))) ->
  exists m', memcpy_cells k dest src s = Some (tt, set_mem m' s) /\
    (forall x, dest <= x < dest + 16 * Z.of_nat k \/ m' !! x = kh_mem s !! x) /\
    (forall x, is_Some (kh_mem s !! x) -> is_Some (m' !! x)) /\
    forall i, 0 <= i < Z.of_nat k -> m' !! (dest + 16 * i) = kh_mem s !! (src + 16 * i).
Proof.
  induction k as [|k IH]; intros dest src s Hd Hm.
  - exists (kh_mem s). rewrite set_mem_id. repeat split; auto; lia.
  - simpl memcpy_cells. destruct (Hm 0 ltac:(lia)) as [Hd0 [c Hc]].
    rewrite Z.mul_0_r, Z.add_0_r in Hd0, Hc.
    erewrite load_run by done. erewrite store_run by done.
    set (s1 := set_mem _ s).
    destruct (IH (dest + 16) (src + 16) s1) as (m' & Hrun & Hf & Hs & Hc'); [lia| |].
    { intros i Hi. destruct (Hm (i + 1) ltac:(lia)) as [H1 H2]. simpl.
      rewrite !lookup_insert_ne by lia.
      replace (dest + 16 + 16 * i) with (dest + 16 * (i + 1)) by lia.
      replace (src + 16 + 16 * i) with (src + 16 * (i + 1)) by lia. done. }
    exists m'. split; [done|]. simpl in *. split; [|split].
    + intros x. destruct (Hf x) as [?| ->]; [left; lia|].
      destruct (decide (x = dest)) as [->|]; [left; lia|right]. by rewrite lookup_insert_ne by done.
    + intros x Hx. apply Hs. destruct (decide (x = dest)) as [->|];
        [rewrite lookup_insert_eq; eauto | by rewrite lookup_insert_ne by done].
    + intros i Hi. destruct (decide (i = 0)) as [->|].
      * rewrite Z.mul_0_r, !Z.add_0_r. destruct (Hf dest) as [?| ->]; [lia|]. by rewrite lookup_insert_eq.
      * specialize (Hc' (i - 1) ltac:(lia)).
        replace (dest + 16 + 16 * (i - 1)) with (dest + 16 * i) in Hc' by lia.
        replace (src + 16 + 16 * (i - 1)) with (src + 16 * i) in Hc' by lia.
        rewrite Hc'. by rewrite lookup_insert_ne by lia.
Qed.

Definition extend_blocks (n sz : Z) (q : block) : list block :=
  if 64 <=? 32 + b_size q - (sz - n) then [Block sz true; Block (n + b_size q - sz) false]
  else [Block (n + (32 + b_size q)) true].

Lemma kh_realloc_extend_spec s pre n q post sz :
  heap_ok (set_lock false s) (pre ++ Block n true :: q :: post) -> b_alloc q = false ->
  n < sz <= n + 32 + b_size q -> sz mod 16 = 0 ->
  let A := kh_base_addr s + spans pre in
  exists s', kh_realloc_extend A sz (A + (32 + n)) s = Some (tt, s') /\
    under_lock s s' (pre ++ extend_blocks n sz q ++ post) A (A + 64 + n + b_size q) /\
    forall x, A + 16 <= x < A + 16 + n -> kh_mem s' !! x = kh_mem s !! x.
Proof.
  intros Hok Hq Hsz Hsz16 A. pose proof (ok_top _ _ Hok) as Htop.
  pose proof (ok_laid _ _ Hok) as Hl. pose proof (ok_mapped _ _ Hok) as Hmap.
  destruct (heap_ok_block _ _ _ _ Hok) as (HA & HAm & Hn & Hn16 & He & Hpost & Hh & r & Ht).
  assert (Hok' := Hok). replace (pre ++ Block n true :: q :: post)
    with ((pre ++ [Block n true]) ++ q :: post) in Hok' by (by rewrite <- app_assoc).
  destruct (heap_ok_block _ _ _ _ Hok') as (_ & HQm & Hqs & Hq16 & HeQ & HpostQ & HhQ & rQ & HtQ).
  heval_all. rewrite spans_app in *. cbn [spans foldr b_size flag_of b_alloc] in *. unfold span in *.
  cbn [b_size] in *. rewrite Z.add_0_r in *. fold A in HA, HAm, Hh, Ht, He.
  replace (kh_base_addr s + (spans pre + (32 + n))) with (A + (32 + n)) in * by (unfold A; lia).
  unfold flag_of in HhQ. rewrite Hq in HhQ. fold (spans post) in *.
  unfold kh_realloc_extend, extend_blocks.
  erewrite load_run by done. erewrite load_run by done. heval. cbv zeta.
  replace (u64 (u64 (16 + 16 + b_size q) - u64 (sz - n))) with (32 + b_size q - (sz - n))
    by (nowrap; lia).
  replace (u64 (A + (32 + n) + 16 + b_size q)) with (A + (32 + n) + 16 + b_size q) by (nowrap; lia).
  replace (u64 (n + u64 (16 + 16 + b_size q))) with (n + (32 + b_size q)) by (nowrap; lia).
  replace (u64 (u64 (A + 16 + sz) + 16)) with (A + 32 + sz) by (nowrap; lia).
  change (16 + 16 + 32) with 64. change (Z.land 1 (u32 (Z.lnot 1))) with 0.
  destruct (Z.leb_spec 64 (32 + b_size q - (sz - n))).
  - replace (u64 (A + 16 + sz)) with (A + 16 + sz) by (nowrap; lia).
    replace (u64 (n + b_size q - sz)) with (n + b_size q - sz) by (nowrap; lia).
    erewrite store_run by hmapped. heval.
    erewrite store_run by (heval; hlook; hmapped). heval.
    erewrite store_size_run by (heval; hlook; done). heval.
    unfold store_size. erewrite load_run by (heval; hlook; done). heval. unfold store. heval. hlook.
    rewrite HtQ. eexists. split; [reflexivity|]. unfold under_lock. heval.
    split; [|intros x Hx; hlook; done].
    split; [|split; [done|split; [done|split; [done|hframe]]]].
    apply (heap_ok_laid _ _ _ _ _ Hok); [done|by repeat apply mapped_insert|].
    eapply (laid_replace _ _ _ pre [_; q] [_; _] post);
      [exact Hl|simpl; unfold span; simpl; lia| |]; fold A; simpl; unfold span; cbn [b_size]; fold A.
    + hframe.
    + replace (A + (32 + sz)) with (A + 32 + sz) by lia.
      replace (A + 32 + sz + 16 + (n + b_size q - sz)) with (A + (32 + n) + 16 + b_size q) by lia.
      hlook. cbn [flag_of b_alloc]. repeat split; eauto; try lia. divlia.
  - erewrite store_size_run by (heval; hlook; done). heval.
    unfold store_size. erewrite load_run by (heval; hlook; done). heval. unfold store. heval. hlook.
    rewrite Hh. eexists. split; [reflexivity|]. unfold under_lock. heval.
    split; [|intros x Hx; hlook; done].
    split; [|split; [done|split; [done|split; [done|hframe]]]].
    apply (heap_ok_laid _ _ _ _ _ Hok); [done|by repeat apply mapped_insert|].
    eapply (laid_replace _ _ _ pre [_; q] [_] post);
      [exact Hl|simpl; unfold span; simpl; lia| |]; fold A; simpl; unfold span; cbn [b_size]; fold A.
    + hframe.
    + replace (A + 16 + (n + (32 + b_size q))) with (A + (32 + n) + 16 + b_size q) by lia.
      hlook. cbn [flag_of b_alloc]. repeat split; eauto; try lia. divlia.
Qed.

Lemma kh_realloc_shrink_spec s pre n post sz :
  heap_ok (set_lock false s) (pre ++ Block n true :: post) ->
  0 <= sz -> sz + 64 <= n -> sz mod 16 = 0 ->
  let A := kh_base_addr s + spans pre in
  exists s', kh_realloc_shrink A sz s = Some (tt, s') /\
    under_lock s s' (pre ++ [Block sz true; Block (n - sz - 32) false] ++ post) A (A + 32 + n) /\
    forall x, A + 16 <= x < A + 16 + sz -> kh_mem s' !! x = kh_mem s !! x.
Proof.
  intros Hok Hs0 Hsz Hsz16 A. pose proof (ok_top _ _ Hok) as Htop.
  pose proof (ok_laid _ _ Hok) as Hl. pose proof (ok_mapped _ _ Hok) as Hmap.
  destruct (heap_ok_block _ _ _ _ Hok) as (HA & HAm & Hn & Hn16 & He & Hpost & Hh & r & Ht).
  heval_all. cbn [b_size flag_of b_alloc] in *. unfold span in *.
  cbn [b_size] in *. fold A in HA, HAm, Hh, Ht, He.
  unfold kh_realloc_shrink. erewrite load_run by done. heval. cbv zeta.
  replace (u64 (u64 (A + 16 + sz) + 16)) with (A + 32 + sz) by (nowrap; lia).
  replace (u64 (A + 16 + sz)) with (A + 16 + sz) by (nowrap; lia).
  replace (u64 (A + 16 + n)) with (A + 16 + n) by (nowrap; lia).
  replace (u64 (n - sz - 16 - 16)) with (n - sz - 32) by (nowrap; lia).
  change (Z.land 1 (u32 (Z.lnot 1))) with 0.
  erewrite store_run by hmapped. heval.
  erewrite store_run by (heval; hlook; hmapped). heval.
  erewrite store_size_run by (heval; hlook; done). heval.
  unfold store_size. erewrite load_run by (heval; hlook; done). heval. unfold store. heval. hlook.
  rewrite Hh. eexists. split; [reflexivity|]. unfold under_lock. heval.
  split; [|intros x Hx; hlook; done].
  split; [|split; [done|split; [done|split; [done|hframe]]]].
  apply (heap_ok_laid _ _ _ _ _ Hok); [done|by repeat apply mapped_insert|].
  eapply (laid_replace _ _ _ pre [_] [_; _] post);
    [exact Hl|simpl; unfold span; simpl; lia| |]; fold A; simpl; unfold span; cbn [b_size]; fold A.
  - hframe.
  - replace (A + (32 + sz)) with (A + 32 + sz) by lia.
    replace (A + 32 + sz + 16 + (n - sz - 32)) with (A + 16 + n) by lia.
    hlook. cbn [flag_of b_alloc]. repeat split; eauto; try lia. divlia.
Qed.

(** What reallocating the live block [(p, n)] to [size] bytes guarantees. *)
Definition realloc_result (s : heap) (bs : list block) (p n size : Z)
    (o : option (res Z * heap)) : Prop :=
  o = Some (Err ENOMEM, s) \/
  exists q l s' bs' rest,
    o = Some (Ok q, s') /\ heap_ok s' bs' /\ size <= l /\
    live (kh_base_addr s) bs ≡ₚ (p, n) :: rest /\
    live (kh_base_addr s) bs' ≡ₚ (q, l) :: rest /\
    same_data (kh_mem s) (kh_mem s') rest /\
    forall i, 0 <= i < Z.min n l -> i mod 16 = 0 ->
      kh_mem s' !! (q + i) = kh_mem s !! (p + i).

Lemma realloc_result_mono s bs p n size size' o :
  size <= size' -> realloc_result s bs p n size' o -> realloc_result s bs p n size o.
Proof.
  intros Hle [?|(q & l & s' & bs' & rest & ? & ? & ? & ?)]; [by left|right].
  exists q, l, s', bs', rest. split; [done|]. split; [done|]. split; [lia|done].
Qed.

(** Reallocation in place: the block [n] and the free blocks behind it are
    replaced by a block of [l] bytes and free blocks. *)
Lemma realloc_in_place s s' pre n mid post l mid' size o :
  heap_ok s (pre ++ (Block n true :: mid) ++ post) ->
  live (kh_base_addr s + spans pre + (32 + n)) mid = [] ->
  heap_ok s' (pre ++ (Block l true :: mid') ++ post) ->
  live (kh_base_addr s + spans pre + (32 + l)) mid' = [] ->
  spans (Block l true :: mid') = spans (Block n true :: mid) ->
  (let A := kh_base_addr s + spans pre in
   forall x, A <= x < A + spans (Block n true :: mid) \/ kh_mem s' !! x = kh_mem s !! x) ->
  (let p := kh_base_addr s + spans pre + 16 in
   forall x, p <= x < p + Z.min n l -> kh_mem s' !! x = kh_mem s !! x) ->
  size <= l -> o = Some (Ok (kh_base_addr s + spans pre + 16), s') ->
  realloc_result s (pre ++ (Block n true :: mid) ++ post) (kh_base_addr s + spans pre + 16) n size o.
Proof.
  intros Hok Hmid Hok' Hmid' Hsp Hf Hd Hl ->. right.
  set (A := kh_base_addr s + spans pre) in *.
  pose proof (laid_sizes _ _ _ _ (ok_laid _ _ Hok)) as Hpos.
  exists (A + 16), l, s', (pre ++ (Block l true :: mid') ++ post),
    (live (kh_base_addr s) pre ++ live (A + spans (Block n true :: mid)) post).
  split; [done|]. split; [done|]. split; [done|].
  assert (Hperm : forall k m, live (A + (32 + k)) m = [] ->
    spans (Block k true :: m) = spans (Block n true :: mid) ->
    live (kh_base_addr s) (pre ++ (Block k true :: m) ++ post) ≡ₚ
    (A + 16, k) :: live (kh_base_addr s) pre ++ live (A + spans (Block n true :: mid)) post).
  { intros k m Hm Hs. rewrite !live_app. fold A. rewrite Hs. simpl. unfold span at 1. simpl.
    rewrite Hm. simpl. symmetry. apply Permutation_middle. }
  split; [by apply Hperm|]. split; [by apply Hperm|]. split.
  - intros q k x Hin Hx. pose proof (ok_laid _ _ Hok) as Hl'.
    apply laid_app in Hl' as [Hl1 Hl2]. apply laid_app in Hl2 as [_ Hl3]. fold A in Hl1, Hl3.
    destruct (Hf x) as [Hx'|?]; [|done].
    apply elem_of_app in Hin as [Hin|Hin]; eapply live_bounds in Hin; try done; lia.
  - intros i Hi _. apply Hd. lia.
Qed.

Ltac in_list := rewrite ?elem_of_cons; tauto.

(** Reallocation by copying: the block is allocated anew, copied and freed. *)
Lemma realloc_by_copy s pre n post sz :
  heap_ok s (pre ++ Block n true :: post) -> n < sz -> sz mod 16 = 0 -> sz <= 2 ^ 64 - 16 ->
  let p := kh_base_addr s + spans pre + 16 in
  realloc_result s (pre ++ Block n true :: post) p n sz
    ((new_ptr ← kh_alloc_aligned sz KH_DEFAULT_ALIGN;
      match new_ptr with
      | Err e => mret (Err e)
      | Ok new_ptr =>
        h ← load (kh_base_addr s + spans pre);
        memcpy_cells (Z.to_nat (word h / 16)) new_ptr p;;
        kh_free p;;
        mret (Ok new_ptr)
      end) s).
Proof.
  intros Hok Hlt Hsz16 Hsz p.
  destruct (heap_ok_block _ _ _ _ Hok) as (HA & HAm & Hn & Hn16 & _). cbn [b_size] in Hn, Hn16.
  assert (Hin : (p, n) ∈ live (kh_base_addr s) (pre ++ Block n true :: post)).
  { rewrite live_app. apply elem_of_app. right. simpl. by left. }
  destruct (kh_alloc_live s _ sz 4 Hok ltac:(lia) ltac:(lia))
    as [[Hrun _]|(q & l & s1 & bs1 & Hrun & Hok1 & Hb1 & He1 & Hq16 & Hl & Hqb & Hqe & Hlive & Hdis & Hdata)];
    change (2 ^ 4) with 16 in Hrun; rewrite (bind_run _ _ _ _ _ Hrun); [by left|right].
  set (bs := pre ++ Block n true :: post) in *.
  apply elem_of_Permutation in Hin as [rest Hrest].
  assert (Hp1 : (p, n) ∈ live (kh_base_addr s1) bs1) by (rewrite Hb1, Hlive, Hrest; in_list).
  assert (Hq1 : (q, l) ∈ live (kh_base_addr s1) bs1) by (rewrite Hb1, Hlive; in_list).
  assert (Hpn : p + n + 16 <= kh_end_addr s /\ kh_base_addr s + 16 <= p).
  { assert (Hin : (p, n) ∈ live (kh_base_addr s) bs) by (rewrite Hrest; in_list).
    pose proof (live_bounds _ _ _ _ _ _ (ok_laid _ _ Hok) Hin). lia. }
  pose proof (Hdis p n ltac:(rewrite Hrest; in_list)) as Hpq.
  (* the header of the old block is intact *)
  assert (Hh : exists f, kh_mem s1 !! (p - 16) = Some (Cell KH_HEADER_MAGIC f n)).
  { apply live_elem in Hp1 as (pre1 & post1 & -> & Ep).
    destruct (heap_ok_block _ _ _ _ Hok1) as (_ & _ & _ & _ & _ & _ & Hh & _).
    replace (p - 16) with (kh_base_addr s1 + spans pre1) by lia. eauto. }
  replace (p - 16) with (kh_base_addr s + spans pre) in Hh by (unfold p; lia).
  destruct Hh as [f Hh]. erewrite load_run by done. cbn [word].
  assert (Hdiv : 16 * (n / 16) = n) by divlia.
  assert (Hp16 : p mod 16 = 0) by (unfold p; divlia).
  pose proof (ok_mapped _ _ Hok1) as Hmap.
  destruct (memcpy_cells_spec (Z.to_nat (n / 16)) q p s1) as (m' & Hcopy & Hf & Hm' & Hc).
  { rewrite Z2Nat.id by (apply Z.div_pos; lia). lia. }
  { rewrite Z2Nat.id by (apply Z.div_pos; lia). intros i Hi.
    split; apply Hmap; rewrite ?Hb1, ?He1; try lia; divlia. }
  rewrite Z2Nat.id in Hf, Hc by (apply Z.div_pos; lia). rewrite Hdiv in Hf.
  rewrite (bind_run _ _ _ _ _ Hcopy).
  assert (Hok2 : heap_ok (set_mem m' s1) bs1).
  { apply live_elem in Hq1 as (pre1 & post1 & -> & Eq). apply heap_ok_data; [done| |].
    - intros x Hx Hx16. apply Hm', Hmap; done.
    - cbn [b_size]. intros x. destruct (Hf x); [left; lia|by right]. }
  destruct (kh_free_live (set_mem m' s1) bs1 p n Hok2 Hp1)
    as (s3 & pre3 & post3 & bs3 & Hfree & Hok3 & _ & _ & _ & _ & Hb3 & He3 & Hlive3 & Hdata3).
  rewrite (bind_run _ _ _ _ _ Hfree). cbn [kh_base_addr set_mem] in *. rewrite Hb1 in *.
  assert (Hl3 : live (kh_base_addr s) bs3 ≡ₚ (q, l) :: rest).
  { apply (Permutation_cons_inv (a := (p, n))). rewrite <- Hlive3, Hlive, Hrest. constructor. }
  exists q, l, s3, bs3, rest. split; [done|]. split; [done|]. split; [done|]. split; [done|].
  split; [done|]. split.
  - intros r k x Hin Hx. rewrite (Hdata3 r k x) by (rewrite ?Hl3; in_list). heval.
    assert (Hin' : (r, k) ∈ live (kh_base_addr s) bs) by (rewrite Hrest; in_list).
    destruct (Hf x) as [?| ->]; [pose proof (Hdis r k Hin'); lia|].
    apply (Hdata r k x); done.
  - intros i Hi Hi16. rewrite (Hdata3 q l (q + i)) by (rewrite ?Hl3; in_list || lia). heval.
    specialize (Hc (i / 16)). replace (16 * (i / 16)) with i in Hc by divlia. rewrite Hc by divlia.
    apply (Hdata p n); [rewrite Hrest; in_list|lia].
Qed.

Lemma kh_realloc_live s bs p n size :
  heap_ok s bs -> (p, n) ∈ live (kh_base_addr s) bs -> 0 <= size <= 2 ^ 64 - 16 ->
  realloc_result s bs p n size (kh_realloc p size s).
Proof.
  intros Hok Hin Hsize. apply live_elem in Hin as (pre & post & -> & ->).
  destruct (aligned_size size Hsize) as [Hsz Hsz16].
  destruct (heap_ok_block _ _ _ _ Hok) as (HA & HAm & Hn & Hn16 & He & Hpost & Hh & r & Ht).
  pose proof (ok_top _ _ Hok) as Htop. cbn [b_size flag_of b_alloc] in *. unfold span in *.
  cbn [b_size] in *. unfold kh_realloc. cbv zeta.
  set (A := kh_base_addr s + spans pre) in *. set (sz := ALIGN_UP size 16) in *.
  destruct (Z.eqb_spec (A + 16) 0); [lia|].
  replace (u64 (A + 16 - 16)) with A by (nowrap; lia).
  erewrite (bind_run spinlock_acquire); [|unfold spinlock_acquire; by rewrite (ok_lock _ _ Hok)].
  set (s1 := set_lock true s).
  assert (Hs1 : set_lock false s1 = s) by (unfold s1; rewrite <- (ok_lock _ _ Hok); by destruct s).
  assert (Hok1 : heap_ok (set_lock false s1) (pre ++ Block n true :: post)) by (by rewrite Hs1).
  erewrite load_run by (heval; done). heval. rewrite Z.eqb_refl. heval.
  change (truthy (Z.land 1 1)) with true. heval.
  destruct (Z.ltb_spec n sz).
  - rewrite gets_run. change (kh_end_addr s1) with (kh_end_addr s).
    rewrite (wrap_small 64 (A + 16 + 16 + n)) by lia.
    replace (A + 16 + 16 + n) with (A + (32 + n)) by lia.
    assert (Hcopy : realloc_result s (pre ++ Block n true :: post) (A + 16) n size
      ((spinlock_release;; new_ptr ← kh_alloc_aligned sz KH_DEFAULT_ALIGN;
        match new_ptr with
        | Err e => mret (Err e)
        | Ok new_ptr => h ← load A; memcpy_cells (Z.to_nat (word h / 16)) new_ptr (A + 16);;
                        kh_free (A + 16);; mret (Ok new_ptr)
        end) s1)).
    { erewrite (bind_run spinlock_release); [|reflexivity]. rewrite Hs1.
      eapply realloc_result_mono; [|apply (realloc_by_copy s pre n post sz Hok)]; [|lia|done|divlia].
      lia. }
    destruct post as [|q post].
    { simpl in He. destruct (Z.ltb_spec (A + (32 + n)) (kh_end_addr s)); [lia|].
      rewrite ret_run. exact Hcopy. }
    assert (Hok' := Hok). replace (pre ++ Block n true :: q :: post)
      with ((pre ++ [Block n true]) ++ q :: post) in Hok' by (by rewrite <- app_assoc).
    destruct (heap_ok_block _ _ _ _ Hok') as (_ & _ & Hqs & Hq16 & HeQ & HpostQ & HhQ & _).
    rewrite spans_app in HeQ, HhQ. simpl in HeQ, HhQ. unfold span in HeQ, HhQ. simpl in HeQ, HhQ.
    replace (kh_base_addr s + (spans pre + (32 + n + 0))) with (A + (32 + n)) in * by (unfold A; lia).
    destruct (Z.ltb_spec (A + (32 + n)) (kh_end_addr s)); [|lia].
    rewrite bind_assoc. erewrite load_run by (heval; done). heval. rewrite ret_run, flag_of_alloc.
    rewrite (wrap_small 64 (n + 16 + 16 + b_size q)) by lia.
    destruct (negb (b_alloc q) && (sz <=? n + 16 + 16 + b_size q)) eqn:E; [|exact Hcopy].
    apply andb_prop in E as [Eq%negb_true_iff E]. clear Hcopy.
    destruct (kh_realloc_extend_spec s1 pre n q post sz Hok1 Eq ltac:(lia) Hsz16)
      as (s2 & Hrun & (Hok2 & Hb2 & He2 & Hl2 & Hf2) & Hd2).
    change (kh_base_addr s1) with (kh_base_addr s) in *. fold A in Hrun, Hf2, Hd2. rewrite (bind_run _ _ _ _ _ Hrun). unfold extend_blocks in Hok2.
    destruct (64 <=? 32 + b_size q - (sz - n)) eqn:E64.
    + eapply (realloc_in_place s (set_lock false s2) pre n [q] post sz [_]);
        [done|simpl; by rewrite Eq|exact Hok2|done|simpl; unfold span; simpl; lia| |
         |lia|reflexivity]; fold A; cbv zeta; simpl; unfold span; simpl.
      * intros x. destruct (Hf2 x); [left; lia|by right].
      * intros x Hx. apply Hd2. lia.
    + eapply (realloc_in_place s (set_lock false s2) pre n [q] post (n + (32 + b_size q)) []);
        [done|simpl; by rewrite Eq|exact Hok2|done|simpl; unfold span; simpl; lia| |
         |lia|reflexivity]; fold A; cbv zeta; simpl; unfold span; simpl.
      * intros x. destruct (Hf2 x); [left; lia|by right].
      * intros x Hx. apply Hd2. lia.
  - rewrite (wrap_small 64 (n - sz)) by lia. change (16 + 16 + 32) with 64.
    destruct (Z.leb_spec 64 (n - sz)).
    + destruct (kh_realloc_shrink_spec s1 pre n post sz Hok1 ltac:(lia) ltac:(lia) Hsz16)
        as (s2 & Hrun & (Hok2 & Hb2 & He2 & Hl2 & Hf2) & Hd2).
      change (kh_base_addr s1) with (kh_base_addr s) in *. fold A in Hrun, Hf2, Hd2. rewrite (bind_run _ _ _ _ _ Hrun).
      eapply (realloc_in_place s (set_lock false s2) pre n [] post sz [_]);
        [done|done|exact Hok2|done|simpl; unfold span; simpl; lia| |
         |lia|reflexivity]; fold A; cbv zeta; simpl; unfold span; simpl.
      * intros x. destruct (Hf2 x); [left; lia|by right].
      * intros x Hx. apply Hd2. lia.
    + rewrite ret_run. erewrite (bind_run spinlock_release); [|reflexivity]. rewrite Hs1.
      eapply (realloc_in_place s s pre n [] post n []); try done; [by right|lia].
Qed.

(** [kh_realloc] of a live block either fails with ENOMEM and changes
    nothing, or returns a block of at least the requested size in place of the
    old one: the heap stays well formed, all other live blocks keep their place
    and their data, and the new block starts with the data of the old one, up to
    the smaller of both sizes. *)
Theorem kh_realloc_correct s bs p n size :
  heap_ok s bs -> (p, n) ∈ live (kh_base_addr s) bs -> 0 <= size <= 2 ^ 64 - 16 ->
  realloc_result s bs p n size (kh_realloc p size s).
Proof. apply kh_realloc_live. Qed.

(** ** All histories of the heap *)

(** A client allocates with the default alignment, frees and reallocates the
    blocks it owns and writes to their data. *)
Inductive heap_step : heap -> heap -> Prop :=
| step_alloc s s' size k r :
    0 <= k <= 4 -> 0 <= size <= 2 ^ 64 - 16 ->
    kh_alloc_aligned size (2 ^ k) s = Some (r, s') -> heap_step s s'
| step_free s s' bs p n r :
    heap_ok s bs -> (p, n) ∈ live (kh_base_addr s) bs ->
    kh_free p s = Some (r, s') -> heap_step s s'
| step_realloc s s' bs p n size r :
    heap_ok s bs -> (p, n) ∈ live (kh_base_addr s) bs -> 0 <= size <= 2 ^ 64 - 16 ->
    kh_realloc p size s = Some (r, s') -> heap_step s s'
| step_write s bs p n x c :
    heap_ok s bs -> (p, n) ∈ live (kh_base_addr s) bs -> p <= x < p + n ->
    heap_step s (set_mem (<[x := c]> (kh_mem s)) s).

Definition heap_wf (s : heap) : Prop := exists bs, heap_ok s bs.

Lemma heap_step_wf s s' : heap_step s s' -> heap_wf s -> heap_wf s'.
Proof.
  intros [s0 s0' size k r Hk Hsize Hrun|s0 s0' bs0 p n r Hok0 Hin Hrun
         |s0 s0' bs0 p n size r Hok0 Hin Hsize Hrun|s0 bs0 p n x c Hok0 Hin Hx] [bs Hok].
  - destruct (kh_alloc_live s0 bs size k Hok Hk Hsize)
      as [[E _]|(q & l & s1 & bs1 & E & Hok1 & _)]; rewrite E in Hrun; injection Hrun as <- <-;
      eexists; eassumption.
  - destruct (kh_free_live s0 bs0 p n Hok0 Hin) as (s1 & pre1 & post1 & bs1 & E & Hok1 & _).
    rewrite E in Hrun; injection Hrun as <- <-. by exists bs1.
  - destruct (kh_realloc_live s0 bs0 p n size Hok0 Hin Hsize)
      as [E|(q & l & s1 & bs1 & rest & E & Hok1 & _)]; rewrite E in Hrun; injection Hrun as <- <-;
      eexists; eassumption.
  - exists bs0. apply live_elem in Hin as (pre & post & -> & ->).
    apply heap_ok_data; [done|by apply mapped_insert, (ok_mapped _ _ Hok0)|].
    cbn [b_size]. intros y. destruct (decide (x = y)) as [->|]; [left; lia|right].
    by apply lookup_insert_ne.
Qed.

(** Two distinct live blocks never overlap. *)
Lemma live_disjoint s bs i j p n q l :
  heap_ok s bs -> live (kh_base_addr s) bs !! i = Some (p, n) ->
  live (kh_base_addr s) bs !! j = Some (q, l) -> (i < j)%nat -> p + n + 32 <= q.
Proof.
  intros Hok. generalize (kh_base_addr s), (ok_laid _ _ Hok). clear Hok.
  revert i j. induction bs as [|b bs IH]; intros i j base Hl Hi Hj Hij; [done|].
  pose proof (laid_spans _ _ _ _ Hl) as He. destruct Hl as (Hb & _ & _ & _ & Hl). simpl in Hi, Hj.
  unfold span in *. destruct (b_alloc b); simpl in Hi, Hj; [|by eapply (IH i j)].
  destruct j as [|j]; [lia|]. destruct i as [|i]; simpl in Hi, Hj.
  - injection Hi as <- <-. apply list_elem_of_lookup_2, (live_bounds _ _ _ _ _ _ Hl) in Hj. lia.
  - eapply (IH i j); eauto. lia.
Qed.

(** C3: starting from [kh_init], after any sequence of allocations with an alignment
    of at most 16 bytes, frees and reallocations of live blocks and writes to owned
    data the heap is well formed: blocks tile the region, the lock is free and no two
    live blocks overlap. Larger alignments are excluded, as they corrupt the heap (see
    the end of this file), and so are sizes of the last 15 bytes of the address space,
    which wrap when they are rounded up. *)
Theorem heap_history_safe mem base size s :
  0 < base -> base mod 16 = 0 -> size mod 16 = 0 -> 32 <= size -> base + size <= 2 ^ 64 - 4096 ->
  mapped mem base (base + size) ->
  rtc heap_step (kh_init mem base size) s ->
  exists bs, heap_ok s bs /\
    forall i j p n q l,
      live (kh_base_addr s) bs !! i = Some (p, n) -> live (kh_base_addr s) bs !! j = Some (q, l) ->
      (i < j)%nat -> p + n <= q.
Proof.
  intros Hb Hb16 Hs16 Hs He Hm Hsteps.
  assert (Hwf : heap_wf s).
  { apply (rtc_invariant _ _ heap_step_wf _ _ Hsteps). eexists. by apply kh_init_ok. }
  destruct Hwf as [bs Hok]. exists bs. split; [done|]. intros i j p n q l Hi Hj Hij.
  pose proof (live_disjoint s bs i j p n q l Hok Hi Hj Hij). lia.
Qed.

(** ** Concrete heaps *)

Definition example_mem : gmap Z cell :=
  list_to_map ((fun i => (4096 + 16 * Z.of_nat i, Cell 0 0 0)) <$> seq 0 64).

(** A heap of 1 KiB at address 4096. *)
Definition example_heap : heap := kh_init example_mem 4096 1024.

(** Decides that every cell of a region of [n] cells is mapped. *)
Definition mapped_b (m : gmap Z cell) (a : Z) (n : nat) : bool :=
  forallb (fun i => bool_decide (is_Some (m !! (a + 16 * Z.of_nat i)))) (seq 0 n).

Lemma mapped_b_spec m a n :
  a mod 16 = 0 -> mapped_b m a n = true -> mapped m a (a + 16 * Z.of_nat n).
Proof.
  intros Ha H x Hx Hx16. unfold mapped_b in H. rewrite forallb_forall in H.
  specialize (H (Z.to_nat ((x - a) / 16))). rewrite in_seq in H.
  replace (a + 16 * Z.of_nat (Z.to_nat ((x - a) / 16))) with x in H by divlia.
  eapply bool_decide_eq_true_1, H. divlia.
Qed.

Lemma example_heap_ok : heap_ok example_heap [Block 992 false].
Proof. apply kh_init_ok; try done. by apply (mapped_b_spec _ _ 64). Qed.

(** The heap after [malloc (100)]. *)
Definition example_heap1 : heap :=
  match kh_alloc_aligned 100 16 example_heap with Some (_, s) => s | None => example_heap end.

Lemma example_heap1_ok : heap_ok example_heap1 [Block 112 true; Block 848 false].
Proof.
  constructor; [done|by vm_compute|done|by apply (mapped_b_spec _ 4096 64)|].
  vm_compute. split; [discriminate|]. split; [done|]. split; [done|]. split; [eauto|].
  split; [discriminate|]. eauto.
Qed.


Lemma kh_free_correct_witness :
  free_spec example_heap1 [Block 112 true; Block 848 false] 4112 112 (kh_free 4112 example_heap1).
Proof.
  apply kh_free_correct; [apply example_heap1_ok | vm_compute; by left].
Defined.

Lemma kh_realloc_correct_witness :
  realloc_result example_heap1 [Block 112 true; Block 848 false] 4112 112 300
    (kh_realloc 4112 300 example_heap1).
Proof.
  apply kh_realloc_correct; [apply example_heap1_ok | vm_compute; by left | lia].
Defined.

Lemma heap_history_safe_witness : exists bs, heap_ok example_heap1 bs.
Proof.
  destruct (heap_history_safe example_mem 4096 1024 example_heap1) as (bs & Hok & _);
    [lia | done | done | lia | lia | by apply (mapped_b_spec _ _ 64) | | exists bs; exact Hok].
  apply rtc_once. apply (step_alloc _ _ 100 4 (Ok 4112)); [lia | lia | vm_compute; reflexivity].
Defined.

(** ** Alignments above 16 bytes

    On the first block of the heap the returned pointer is not the one whose
    header was written: with 32-byte alignment it is the address of the tail of
    the block in front, and it cannot be freed. *)
Theorem kh_alloc_aligned_32_broken :
  exists s, kh_alloc_aligned 100 32 example_heap = Some (Ok 4128, s) /\
    kh_mem s !! 4128 = Some (Cell KH_TAIL_MAGIC 0 4096) /\
    exists s', kh_free 4128 s = Some (Err EFAULT, s').
Proof. eexists. split; [vm_compute; reflexivity|]. split; [done|]. eexists. vm_compute. reflexivity. Qed.

(** With 256-byte alignment and a request that uses up the block, the tail keeps
    pointing to the old header, and the next search reports corruption. *)
Theorem kh_alloc_aligned_256_corrupts :
  exists s, kh_alloc_aligned 700 256 example_heap = Some (Ok 4352, s) /\
    exists s', kh_alloc_aligned 300 16 s = Some (Err EUCLEAN, s').
Proof. eexists. split; [vm_compute; reflexivity|]. eexists. vm_compute. reflexivity. Qed.

(** A request within 15 bytes of the top of the address space wraps to zero and
    succeeds with an empty block. *)
Theorem kh_alloc_aligned_huge_succeeds :
  exists s, kh_alloc_aligned (2 ^ 64 - 5) 16 example_heap = Some (Ok 4112, s) /\
    kh_mem s !! 4096 = Some (Cell KH_HEADER_MAGIC 1 0).
Proof. eexists. split; [vm_compute; reflexivity|]. done. Qed.

End Heap.
