(* ===== verification/Hash.v ===== *)
(** * Hash functions of util/ (siphash.c, crc16.c, crc32.c)

    The kernel's keyed hash [siphash], the table-driven [crc16] and the
    word-at-a-time [crc32] with its lazily built tables. The CRC theorems show
    that the optimised routines compute the bit-serial polynomial division. *)

From S2P Require Import Prelude CBits.

Module Hash.
Import CBits.

(** ** Loads from a byte buffer (little endian) *)

Fixpoint le_val (l : list Z) : Z :=
  match l with [] => 0 | b :: l => b + 256 * le_val l end.

Definition load_le (n : nat) (buf : list Z) (off : Z) : option Z :=
  if (0 <=? off) && (off + Z.of_nat n <=? zlen buf)
  then Some (le_val (take n (drop (Z.to_nat off) buf))) else None.

(** ** siphash *)

Definition sip_state : Type := Z * Z * Z * Z.

Definition SIP_ROUND (v : sip_state) : sip_state :=
  let '(v0, v1, v2, v3) := v in
  let v0 := u64 (v0 + 1) in
  let v1 := rolq v1 13 in
  let v1 := Z.lxor v1 v0 in
  let v0 := rolq v0 32 in
  let v2 := u64 (v2 + v3) in
  let v3 := rolq v3 16 in
  let v3 := Z.lxor v3 v2 in
  let v0 := u64 (v0 + v3) in
  let v3 := rolq v3 21 in
  let v3 := Z.lxor v3 v0 in
  let v2 := u64 (v2 + v1) in
  let v1 := rolq v1 17 in
  let v1 := Z.lxor v1 v2 in
  let v2 := rolq v2 32 in
  (v0, v1, v2, v3).

(** [v3 ^= m; SIP_ROUND; SIP_ROUND; v0 ^= m] *)
Definition sip_compress (v : sip_state) (m : Z) : sip_state :=
  let '(v0, v1, v2, v3) := v in
  let '(v0, v1, v2, v3) := SIP_ROUND (SIP_ROUND (v0, v1, v2, Z.lxor v3 m)) in
  (Z.lxor v0 m, v1, v2, v3).

(** The loop over whole words; [n] words are left at offset [data]. *)
Fixpoint sip_words (n : nat) (buffer : list Z) (data : Z) (v : sip_state) : option sip_state :=
  match n with
  | O => Some v
  | S n =>
      m ← load_le 8 buffer data;
      sip_words n buffer (data + 8) (sip_compress v m)
  end.

(** One [case] of the fall-through switch: executed when [rem] is at least its
    label. *)
Definition sip_case (buffer : list Z) (data rem label b : Z) : option Z :=
  if label <=? rem then
    x ← buffer.[data + (label - 1)];
    Some (Z.lor b (u64 (Z.shiftl x (8 * (label - 1)))))
  else Some b.

Definition sip_tail (buffer : list Z) (data rem b : Z) : option Z :=
  b ← sip_case buffer data rem 7 b;
  b ← sip_case buffer data rem 6 b;
  b ← sip_case buffer data rem 5 b;
  b ← sip_case buffer data rem 4 b;
  b ← sip_case buffer data rem 3 b;
  b ← sip_case buffer data rem 2 b;
  sip_case buffer data rem 1 b.

Definition sip_init (key : Z) : sip_state :=
  let k0 := Z.land key 0xffffffffffffffff in
  let k1 := Z.shiftr key 64 in
  (Z.lxor 0x736f6d6570736575 k0, Z.lxor 0x646f72616e646f6d k1,
   Z.lxor 0x6c7967656e657261 k0, Z.lxor 0x7465646279746573 k1).

Definition sip_finish (v : sip_state) : Z :=
  let '(v0, v1, v2, v3) := v in
  let v := (v0, v1, Z.lxor v2 0xff, v3) in
  let '(v0, v1, v2, v3) := SIP_ROUND (SIP_ROUND (SIP_ROUND (SIP_ROUND v))) in
  Z.lxor (Z.lxor (Z.lxor v0 v1) v2) v3.

Definition siphash (buffer : list Z) (len key : Z) : option Z :=
  let rem := Z.land len 7 in
  let b := u64 (Z.shiftl len 56) in
  v ← sip_words (Z.to_nat ((len - rem) / 8)) buffer 0 (sip_init key);
  b ← sip_tail buffer (len - rem) rem b;
  Some (sip_finish (sip_compress v b)).

(** ** crc16 *)

Definition crc16_table : list Z :=
  [0x0000; 0xc0c1; 0xc181; 0x0140; 0xc301; 0x03c0; 0x0280; 0xc241;
   0xc601; 0x06c0; 0x0780; 0xc741; 0x0500; 0xc5c1; 0xc481; 0x0440;
   0xcc01; 0x0cc0; 0x0d80; 0xcd41; 0x0f00; 0xcfc1; 0xce81; 0x0e40;
   0x0a00; 0xcac1; 0xcb81; 0x0b40; 0xc901; 0x09c0; 0x0880; 0xc841;
   0xd801; 0x18c0; 0x1980; 0xd941; 0x1b00; 0xdbc1; 0xda81; 0x1a40;
   0x1e00; 0xdec1; 0xdf81; 0x1f40; 0xdd01; 0x1dc0; 0x1c80; 0xdc41;
   0x1400; 0xd4c1; 0xd581; 0x1540; 0xd701; 0x17c0; 0x1680; 0xd641;
   0xd201; 0x12c0; 0x1380; 0xd341; 0x1100; 0xd1c1; 0xd081; 0x1040;
   0xf001; 0x30c0; 0x3180; 0xf141; 0x3300; 0xf3c1; 0xf281; 0x3240;
   0x3600; 0xf6c1; 0xf781; 0x3740; 0xf501; 0x35c0; 0x3480; 0xf441;
   0x3c00; 0xfcc1; 0xfd81; 0x3d40; 0xff01; 0x3fc0; 0x3e80; 0xfe41;
   0xfa01; 0x3ac0; 0x3b80; 0xfb41; 0x3900; 0xf9c1; 0xf881; 0x3840;
   0x2800; 0xe8c1; 0xe981; 0x2940; 0xeb01; 0x2bc0; 0x2a80; 0xea41;
   0xee01; 0x2ec0; 0x2f80; 0xef41; 0x2d00; 0xedc1; 0xec81; 0x2c40;
   0xe401; 0x24c0; 0x2580; 0xe541; 0x2700; 0xe7c1; 0xe681; 0x2640;
   0x2200; 0xe2c1; 0xe381; 0x2340; 0xe101; 0x21c0; 0x2080; 0xe041;
   0xa001; 0x60c0; 0x6180; 0xa141; 0x6300; 0xa3c1; 0xa281; 0x6240;
   0x6600; 0xa6c1; 0xa781; 0x6740; 0xa501; 0x65c0; 0x6480; 0xa441;
   0x6c00; 0xacc1; 0xad81; 0x6d40; 0xaf01; 0x6fc0; 0x6e80; 0xae41;
   0xaa01; 0x6ac0; 0x6b80; 0xab41; 0x6900; 0xa9c1; 0xa881; 0x6840;
   0x7800; 0xb8c1; 0xb981; 0x7940; 0xbb01; 0x7bc0; 0x7a80; 0xba41;
   0xbe01; 0x7ec0; 0x7f80; 0xbf41; 0x7d00; 0xbdc1; 0xbc81; 0x7c40;
   0xb401; 0x74c0; 0x7580; 0xb541; 0x7700; 0xb7c1; 0xb681; 0x7640;
   0x7200; 0xb2c1; 0xb381; 0x7340; 0xb101; 0x71c0; 0x7080; 0xb041;
   0x5000; 0x90c1; 0x9181; 0x5140; 0x9301; 0x53c0; 0x5280; 0x9241;
   0x9601; 0x56c0; 0x5780; 0x9741; 0x5500; 0x95c1; 0x9481; 0x5440;
   0x9c01; 0x5cc0; 0x5d80; 0x9d41; 0x5f00; 0x9fc1; 0x9e81; 0x5e40;
   0x5a00; 0x9ac1; 0x9b81; 0x5b40; 0x9901; 0x59c0; 0x5880; 0x9841;
   0x8801; 0x48c0; 0x4980; 0x8941; 0x4b00; 0x8bc1; 0x8a81; 0x4a40;
   0x4e00; 0x8ec1; 0x8f81; 0x4f40; 0x8d01; 0x4dc0; 0x4c80; 0x8c41;
   0x4400; 0x84c1; 0x8581; 0x4540; 0x8701; 0x47c0; 0x4680; 0x8641;
   0x8201; 0x42c0; 0x4380; 0x8341; 0x4100; 0x81c1; 0x8081; 0x4040].

Fixpoint crc16_loop (len : nat) (data : list Z) (ptr crc : Z) : option Z :=
  match len with
  | O => Some (u16 crc)
  | S len =>
      b ← data.[ptr];
      t ← crc16_table.[Z.land (Z.lxor crc b) 0xff];
      crc16_loop len data (ptr + 1)
        (Z.land (Z.lxor (Z.land (Z.shiftr crc 8) 0xff) t) 0xffff)
  end.

Definition crc16 (seed : Z) (data : list Z) (len : Z) : option Z :=
  crc16_loop (Z.to_nat len) data 0 seed.

(** ** crc32 *)

(** The static tables of crc32.c; both start zeroed. *)
Record crc32_tables := mk_tables { crc32_table : list Z; crc32_wtable : list Z }.

Definition crc32_tables0 : crc32_tables := mk_tables (replicate 256 0) (replicate 1024 0).

Definition crc32_byte_step (b : Z) : Z :=
  Z.lxor (if truthy (Z.land b 1) then 0 else 0x82f63b78) (Z.shiftr b 1).

Definition crc32_byte (b : Z) : Z := Z.lxor (Nat.iter 8 crc32_byte_step b) 0xff000000.

(** [for (j = 0, w = 0; j < 4; j++) w = table[(unsigned char) (j == k ? w ^ i : w)] ^ w >> 8] *)
Fixpoint crc32_init_w (n : nat) (table : list Z) (k i j w : Z) : option Z :=
  match n with
  | O => Some w
  | S n =>
      t ← table.[u8 (if j =? k then Z.lxor w i else w)];
      crc32_init_w n table k i (j + 1) (Z.lxor t (Z.shiftr w 8))
  end.

Fixpoint crc32_init_table (n : nat) (i : Z) (table : list Z) : option (list Z) :=
  match n with
  | O => Some table
  | S n => table ← table.[i <- crc32_byte i]; crc32_init_table n (i + 1) table
  end.

(** The loop over [i] for one [k]. *)
Fixpoint crc32_init_row (n : nat) (table : list Z) (k i : Z) (wtable : list Z) : option (list Z) :=
  match n with
  | O => Some wtable
  | S n =>
      w ← crc32_init_w 4 table k i 0 0;
      w0 ← wtable.[0];
      wtable ← wtable.[Z.shiftl k 8 + i <- u32 (Z.lxor w (if truthy k then w0 else 0))];
      crc32_init_row n table k (i + 1) wtable
  end.

Fixpoint crc32_init_rows (n : nat) (table : list Z) (k : Z) (wtable : list Z) : option (list Z) :=
  match n with
  | O => Some wtable
  | S n => wtable ← crc32_init_row 256 table k 0 wtable; crc32_init_rows n table (k + 1) wtable
  end.

Definition crc32_init_tables (T : crc32_tables) : option crc32_tables :=
  table ← crc32_init_table 256 0 (crc32_table T);
  wtable ← crc32_init_rows 4 table 0 (crc32_wtable T);
  Some (mk_tables table wtable).

(** [for (j = 0, crc = 0; j < 4; j++) crc ^= crc32_wtable[...]] *)
Fixpoint crc32_word (n : nat) (wtable : list Z) (a j crc : Z) : option Z :=
  match n with
  | O => Some crc
  | S n =>
      t ← wtable.[Z.shiftl j 8 + u8 (Z.shiftr a (8 * j))];
      crc32_word n wtable a (j + 1) (Z.lxor crc t)
  end.

Fixpoint crc32_words (n : nat) (wtable data : list Z) (i crc : Z) : option Z :=
  match n with
  | O => Some crc
  | S n =>
      d ← load_le 4 data (4 * i);
      crc ← crc32_word 4 wtable (Z.lxor crc d) 0 0;
      crc32_words n wtable data (i + 1) crc
  end.

Fixpoint crc32_bytes (n : nat) (table data : list Z) (i crc : Z) : option Z :=
  match n with
  | O => Some crc
  | S n =>
      b ← data.[i];
      t ← table.[u8 crc + b];
      crc32_bytes n table data (i + 1) (Z.lxor t (Z.shiftr crc 8))
  end.

(** The result and the state of the static tables after the call. *)
Definition crc32 (T : crc32_tables) (seed : Z) (data : list Z) (len : Z) : option (Z * crc32_tables) :=
  let naccum := len / 4 in
  t0 ← (crc32_table T).[0];
  T ← (if t0 =? 0 then crc32_init_tables T else Some T);
  crc ← crc32_words (Z.to_nat naccum) (crc32_wtable T) data 0 seed;
  crc ← crc32_bytes (Z.to_nat (len - naccum * 4)) (crc32_table T) data (naccum * 4) crc;
  Some (crc, T).

(** ** The bit-serial reference

    [crc_shift poly x] is one step of the division by a reflected polynomial;
    [crc_byte] absorbs one byte. *)

Definition crc_shift (poly x : Z) : Z :=
  if Z.odd x then Z.lxor (Z.shiftr x 1) poly else Z.shiftr x 1.

Definition crc_byte (poly crc b : Z) : Z := Nat.iter 8 (crc_shift poly) (Z.lxor crc b).

Definition crc16_ref (seed : Z) (data : list Z) : Z := foldl (crc_byte 0xA001) seed data.

(** CRC-32C with the customary inversion before and after. *)
Definition lnot32 (x : Z) : Z := Z.lxor x 0xffffffff.

Definition crc32c_ref (seed : Z) (data : list Z) : Z :=
  lnot32 (foldl (crc_byte 0x82f63b78) (lnot32 seed) data).

Section linear.
Context (poly : Z).

Lemma odd_lxor x y : Z.odd (Z.lxor x y) = xorb (Z.odd x) (Z.odd y).
Proof. rewrite <- !Z.bit0_odd. apply Z.lxor_spec. Qed.

(** The division is linear over GF(2). *)
Lemma crc_shift_lxor x y :
  crc_shift poly (Z.lxor x y) = Z.lxor (crc_shift poly x) (crc_shift poly y).
Proof.
  unfold crc_shift. rewrite odd_lxor, Z.shiftr_lxor.
  destruct (Z.odd x), (Z.odd y); simpl.
  - rewrite !Z.lxor_assoc. f_equal.
    by rewrite (Z.lxor_comm (Z.shiftr y 1)), <- Z.lxor_assoc, Z.lxor_nilpotent, Z.lxor_0_l.
  - rewrite !Z.lxor_assoc. f_equal. apply Z.lxor_comm.
  - by rewrite Z.lxor_assoc.
  - done.
Qed.

Lemma iter_shift_lxor n x y :
  Nat.iter n (crc_shift poly) (Z.lxor x y) =
  Z.lxor (Nat.iter n (crc_shift poly) x) (Nat.iter n (crc_shift poly) y).
Proof. induction n as [|n IH]; [done|]. simpl. by rewrite IH, crc_shift_lxor. Qed.

(** Zero bits at the low end are shifted out. *)
Lemma iter_shift_shiftl n m x :
  Nat.iter n (crc_shift poly) (Z.shiftl x (Z.of_nat (n + m))) = Z.shiftl x (Z.of_nat m).
Proof.
  revert m. induction n as [|n IH]; intros m; [done|].
  rewrite Nat.iter_succ_r, <- (IH m). f_equal. unfold crc_shift.
  replace (Z.odd _) with false.
  - rewrite Z.shiftr_shiftl_l by lia. f_equal. lia.
  - rewrite <- Z.bit0_odd, Z.shiftl_spec_low by lia. done.
Qed.

Lemma iter_shift_high n x :
  Nat.iter n (crc_shift poly) (Z.shiftl x (Z.of_nat n)) = x.
Proof. rewrite <- (Nat.add_0_r n) at 2. rewrite iter_shift_shiftl. apply Z.shiftl_0_r. Qed.

Lemma split_low n x :
  0 <= n -> x = Z.lxor (Z.land x (Z.ones n)) (Z.shiftl (Z.shiftr x n) n).
Proof.
  intros Hn. bitwise i Hi. destruct (Z.ltb_spec i n).
  - rewrite Z.ones_spec_low, (Z.testbit_neg_r _ (i - n)) by lia.
    by rewrite andb_true_r, xorb_false_r.
  - rewrite Z.ones_spec_high, andb_false_r, Z.shiftr_spec by lia.
    by replace (i - n + n) with i by lia.
Qed.

(** Eight steps look up the low byte and shift the rest down. *)
Lemma iter8_split x :
  Nat.iter 8 (crc_shift poly) x =
  Z.lxor (Nat.iter 8 (crc_shift poly) (Z.land x 255)) (Z.shiftr x 8).
Proof.
  rewrite (split_low 8 x) at 1 by lia. change (Z.ones 8) with 255.
  by rewrite iter_shift_lxor, (iter_shift_high 8).
Qed.

Lemma crc_shift_range w x :
  0 < w -> 0 <= poly < 2 ^ w -> 0 <= x < 2 ^ w -> 0 <= crc_shift poly x < 2 ^ w.
Proof.
  intros Hw Hp Hx. unfold crc_shift.
  assert (0 <= Z.shiftr x 1 < 2 ^ w).
  { rewrite Z.shiftr_div_pow2 by lia. change (2 ^ 1) with 2. divlia. }
  destruct (Z.odd x); [apply lxor_bound|]; lia.
Qed.

Lemma iter_shift_range w n x :
  0 < w -> 0 <= poly < 2 ^ w -> 0 <= x < 2 ^ w ->
  0 <= Nat.iter n (crc_shift poly) x < 2 ^ w.
Proof.
  intros Hw Hp Hx. induction n as [|n IH]; [done|]. simpl. by apply crc_shift_range.
Qed.

Lemma crc_byte_range w c b :
  8 <= w -> 0 <= poly < 2 ^ w -> 0 <= c < 2 ^ w -> 0 <= b < 256 ->
  0 <= crc_byte poly c b < 2 ^ w.
Proof.
  intros Hw Hp Hc Hb. apply iter_shift_range; [lia..|]. apply lxor_bound; [lia..|].
  assert (2 ^ 8 <= 2 ^ w) by (apply Z.pow_le_mono_r; lia). lia.
Qed.
End linear.

(** A table entry found by its index. *)
Definition table_is (t : list Z) (n : nat) (f : Z -> Z) : Prop :=
  forall i, 0 <= i < Z.of_nat n -> t.[i] = Some (f i).

Lemma table_is_map t n f :
  t = map f (map Z.of_nat (seq 0 n)) -> table_is t n f.
Proof.
  intros -> i Hi. rewrite <- (Z2Nat.id i), zlookup_nat, !list_lookup_fmap by lia.
  by rewrite lookup_seq_lt by lia.
Qed.

Lemma land255 x : 0 <= Z.land x 255 < 256.
Proof. change 255 with (Z.ones 8). rewrite Z.land_ones by lia. apply Z.mod_pos_bound. lia. Qed.

(** Byte [ptr] of a buffer whose suffix is known. *)
Lemma drop_zlookup (l : list Z) ptr b rest :
  0 <= ptr -> drop (Z.to_nat ptr) l = b :: rest ->
  l.[ptr] = Some b /\ drop (Z.to_nat (ptr + 1)) l = rest.
Proof.
  intros Hp Hd. split.
  - unfold zlookup. destruct (Z.ltb_spec ptr 0); [lia|].
    rewrite <- (Nat.add_0_r (Z.to_nat ptr)), <- lookup_drop, Hd. done.
  - replace (Z.to_nat (ptr + 1)) with (Z.to_nat ptr + 1)%nat by lia.
    by rewrite <- drop_drop, Hd.
Qed.

Lemma crc16_table_ok : table_is crc16_table 256 (Nat.iter 8 (crc_shift 0xA001)).
Proof. apply table_is_map. vm_compute. reflexivity. Qed.

Lemma crc16_loop_ref data ptr rest more crc :
  0 <= ptr -> drop (Z.to_nat ptr) data = rest ++ more -> bytes_ok rest -> 0 <= crc < 2 ^ 16 ->
  crc16_loop (length rest) data ptr crc = Some (crc16_ref crc rest).
Proof.
  revert ptr crc. induction rest as [|b rest IH]; intros ptr crc Hp Hd Hb Hc; simpl.
  - by rewrite wrap_small.
  - apply drop_zlookup in Hd as [Hl Hd]; [|done]. rewrite Hl. orun.
    inversion_clear Hb as [|? ? Hb0 Hbs].
    rewrite crc16_table_ok by apply land255. orun.
    assert (Z.land (Z.lxor (Z.land (Z.shiftr crc 8) 255)
      (Nat.iter 8 (crc_shift 0xA001) (Z.land (Z.lxor crc b) 255))) 65535 =
      crc_byte 0xA001 crc b) as ->.
    { unfold crc_byte. rewrite (iter8_split _ (Z.lxor crc b)).
      assert (Z.shiftr (Z.lxor crc b) 8 = Z.land (Z.shiftr crc 8) 255) as ->.
      { rewrite Z.shiftr_lxor, !Z.shiftr_div_pow2 by lia. rewrite (Z.div_small b) by lia.
        rewrite Z.lxor_0_r. change 255 with (Z.ones 8).
        rewrite Z.land_ones, Z.mod_small by (try lia; divlia). done. }
      change 65535 with (Z.ones 16). rewrite Z.land_ones by lia. rewrite Z.lxor_comm.
      apply wrap_small, lxor_bound; [lia| |].
      - apply iter_shift_range; [lia..|]. pose proof (land255 (Z.lxor crc b)). lia.
      - pose proof (land255 (Z.shiftr crc 8)). lia. }
    apply IH; auto; [lia|]. apply crc_byte_range; [lia..|done].
Qed.

(** [crc16] computes the bit-serial CRC of polynomial 0xA001 (reflected)
    over the first [len] bytes, without reading outside of the buffer or of the
    table, for every seed and data. *)
Theorem crc16_correct seed data len :
  0 <= seed < 2 ^ 16 -> bytes_ok data -> 0 <= len <= zlen data ->
  crc16 seed data len = Some (crc16_ref seed (take (Z.to_nat len) data)).
Proof.
  intros Hs Hb Hl. unfold crc16, zlen in *.
  rewrite <- (crc16_loop_ref data 0 _ (drop (Z.to_nat len) data)); try done.
  - f_equal. rewrite length_take. lia.
  - simpl. by rewrite take_drop.
  - by apply Forall_take.
Qed.

Lemma crc16_correct_witness :
  crc16 0 [49; 50; 51; 52; 53; 54; 55; 56; 57] 9 = Some 0xBB3D.
Proof.
  rewrite crc16_correct; [reflexivity | lia | repeat constructor; lia | vm_compute; split; discriminate].
Defined.

(** ** Correctness of [crc32] *)

Abbreviation poly32 := 0x82f63b78.

Lemma lxor_add_shiftl b x n :
  0 <= n -> 0 <= b < 2 ^ n -> b + 2 ^ n * x = Z.lxor b (Z.shiftl x n).
Proof.
  intros Hn Hb. rewrite Z.mul_comm, <- Z.shiftl_mul_pow2 by lia.
  apply Z.add_nocarry_lxor. bitwise i Hi. rewrite Z.testbit_0_l.
  destruct (Z.ltb_spec i n).
  - rewrite (Z.testbit_neg_r _ (i - n)) by lia. by rewrite andb_false_r.
  - by rewrite (testbit_high n b) by lia.
Qed.

Lemma le_val_range l : bytes_ok l -> 0 <= le_val l < 256 ^ zlen l.
Proof.
  induction 1 as [|b l Hb _ IH]; [vm_compute; split; [discriminate|done]|].
  rewrite zlen_cons, Z.pow_add_r by (pose proof (zlen_nonneg l); lia).
  change (256 ^ 1) with 256. simpl. lia.
Qed.

Lemma iter_add {A} (f : A -> A) n m x : Nat.iter n f (Nat.iter m f x) = Nat.iter (n + m) f x.
Proof. induction n as [|n IH]; [done|]. simpl. by rewrite IH. Qed.

(** Absorbing a byte string is absorbing its little-endian value at once. *)
Lemma crc_byte_word poly l c :
  bytes_ok l ->
  foldl (crc_byte poly) c l = Nat.iter (8 * length l) (crc_shift poly) (Z.lxor c (le_val l)).
Proof.
  revert c. induction l as [|b l IH]; intros c Hb; [by rewrite Z.lxor_0_r|].
  inversion_clear Hb as [|? ? Hb0 Hbs].
  cbn [foldl]. rewrite IH by done. unfold crc_byte.
  rewrite <- (iter_shift_high poly 8 (le_val l)) at 1.
  rewrite <- iter_shift_lxor, iter_add. f_equal; [simpl length; lia|].
  cbn [le_val]. change 256 with (2 ^ 8). rewrite lxor_add_shiftl by lia.
  by rewrite Z.lxor_assoc.
Qed.

(** The tables that [crc32_init_tables] builds. *)
Definition crc32_table_fn (i : Z) : Z :=
  lnot32 (Nat.iter 8 (crc_shift poly32) (lnot32 i)).

Definition crc32_wtable_fn (n : Z) : Z :=
  Z.lxor (Nat.iter (Z.to_nat (32 - 8 * (n / 256))) (crc_shift poly32) (n mod 256))
    (if n / 256 =? 0 then lnot32 (Nat.iter 32 (crc_shift poly32) 0xffffffff) else 0).

Definition crc32_tables1 : crc32_tables :=
  mk_tables (map crc32_table_fn (map Z.of_nat (seq 0 256)))
    (map crc32_wtable_fn (map Z.of_nat (seq 0 1024))).

Lemma crc32_init_tables_ok : crc32_init_tables crc32_tables0 = Some crc32_tables1.
Proof. vm_compute. reflexivity. Qed.

Lemma wtable_lookup j b :
  0 <= j < 4 -> 0 <= b < 256 ->
  (crc32_wtable crc32_tables1).[Z.shiftl j 8 + b] =
  Some (Z.lxor (Nat.iter (Z.to_nat (32 - 8 * j)) (crc_shift poly32) b)
    (if j =? 0 then lnot32 (Nat.iter 32 (crc_shift poly32) 0xffffffff) else 0)).
Proof.
  intros Hj Hb. rewrite Z.shiftl_mul_pow2 by lia. change (2 ^ 8) with 256.
  rewrite (table_is_map _ 1024 crc32_wtable_fn eq_refl) by lia. unfold crc32_wtable_fn.
  replace ((j * 256 + b) / 256) with j by divlia.
  by replace ((j * 256 + b) mod 256) with b by divlia.
Qed.

(** Peels the low byte off a word under the division. *)
Lemma iter_peel m n x :
  m = (8 + n)%nat ->
  Nat.iter m (crc_shift poly32) x =
  Z.lxor (Nat.iter m (crc_shift poly32) (u8 x)) (Nat.iter n (crc_shift poly32) (Z.shiftr x 8)).
Proof.
  intros ->.
  rewrite (split_low 8 x) at 1 by lia.
  rewrite Z.land_ones, iter_shift_lxor by lia. f_equal.
  rewrite (Nat.add_comm 8 n), <- iter_add. by rewrite (iter_shift_high _ 8).
Qed.

Lemma lnot32_lnot32 x : lnot32 (lnot32 x) = x.
Proof. unfold lnot32. by rewrite Z.lxor_assoc, Z.lxor_nilpotent, Z.lxor_0_r. Qed.

Lemma lnot32_range x : 0 <= x < 2 ^ 32 -> 0 <= lnot32 x < 2 ^ 32.
Proof. intros. apply lxor_bound; lia. Qed.

(** Equality of exclusive ors up to reordering and cancellation. *)
Ltac xor_ac :=
  apply Z.bits_inj'; intros ? _; rewrite !Z.lxor_spec;
  repeat match goal with |- context [Z.testbit ?x ?i] => destruct (Z.testbit x i) end; reflexivity.

(** The four table look-ups divide a whole word. *)
Lemma crc32_word_ok a :
  0 <= a < 2 ^ 32 ->
  crc32_word 4 (crc32_wtable crc32_tables1) a 0 0 =
  Some (lnot32 (Nat.iter 32 (crc_shift poly32) (lnot32 a))).
Proof.
  intros Ha. cbn [crc32_word].
  rewrite !wtable_lookup by (try lia; apply wrap_range; lia). orun. f_equal.
  change (lnot32 a) with (Z.lxor a 4294967295). rewrite iter_shift_lxor.
  rewrite (iter_peel 32 24 a), (iter_peel 24 16 (Z.shiftr a 8)), (iter_peel 16 8 (Z.shiftr _ 8)),
    (iter_peel 8 0 (Z.shiftr _ 8)) by done.
  rewrite !Z.shiftr_shiftr by lia.
  rewrite (Z.shiftr_div_pow2 a (8 + 8 + 8 + 8)), (Z.div_small a) by lia.
  change (Nat.iter 0 (crc_shift poly32) 0) with 0.
  unfold lnot32. rewrite Z.shiftr_0_r, !Z.lxor_0_l.
  generalize (Nat.iter 32 (crc_shift poly32) 4294967295). intros C.
  change (Z.to_nat (32 - 8 * 0)) with 32%nat. change (Z.to_nat (32 - 8 * (0 + 1))) with 24%nat.
  change (Z.to_nat (32 - 8 * (0 + 1 + 1))) with 16%nat.
  change (Z.to_nat (32 - 8 * (0 + 1 + 1 + 1))) with 8%nat.
  cbn [Z.eqb Z.add Pos.add Pos.mul Z.mul Pos.succ].
  rewrite !Z.lxor_0_r, !Z.lxor_assoc. f_equal.
  change (8 * (0 + 1)) with 8. change (8 * (0 + 1 + 1)) with (8 + 8).
  change (8 * (0 + 1 + 1 + 1)) with (8 + 8 + 8).
  generalize (Nat.iter 24 (crc_shift poly32) (u8 (Z.shiftr a 8))).
  generalize (Nat.iter 16 (crc_shift poly32) (u8 (Z.shiftr a (8 + 8)))).
  generalize (Nat.iter 8 (crc_shift poly32) (u8 (Z.shiftr a (8 + 8 + 8)))).
  intros. xor_ac.
Qed.

Lemma load_le_drop n buf off l more :
  (0 < n)%nat -> 0 <= off -> drop (Z.to_nat off) buf = l ++ more -> length l = n ->
  load_le n buf off = Some (le_val l) /\ drop (Z.to_nat (off + Z.of_nat n)) buf = more.
Proof.
  intros Hp Ho Hd Hl. split.
  - unfold load_le. assert (Hn := f_equal length Hd). rewrite length_drop, length_app in Hn.
    replace (_ && _) with true; [|symmetry; apply andb_true_intro; unfold zlen; lia].
    by rewrite Hd, take_app_length'.
  - replace (Z.to_nat (off + Z.of_nat n)) with (Z.to_nat off + n)%nat by lia.
    by rewrite <- drop_drop, Hd, drop_app_length'.
Qed.

Lemma crc32_words_ok n data i l more crc :
  0 <= i -> drop (Z.to_nat (4 * i)) data = l ++ more -> length l = (4 * n)%nat ->
  bytes_ok l -> 0 <= crc < 2 ^ 32 ->
  crc32_words n (crc32_wtable crc32_tables1) data i crc = Some (crc32c_ref crc l).
Proof.
  revert i l crc. induction n as [|n IH]; intros i l crc Hi Hd Hl Hb Hc.
  - destruct l; [|done]. cbn [crc32_words]. unfold crc32c_ref. cbn [foldl]. by rewrite lnot32_lnot32.
  - destruct l as [|b0 [|b1 [|b2 [|b3 l]]]]; try (simpl in Hl; lia).
    change (b0 :: b1 :: b2 :: b3 :: l) with ([b0; b1; b2; b3] ++ l) in *.
    rewrite <- app_assoc in Hd. apply Forall_app in Hb as [Hb4 Hb].
    destruct (load_le_drop 4 data (4 * i) [b0; b1; b2; b3] (l ++ more)) as [Hld Hd']; [lia..|done|done|].
    cbn [crc32_words]. rewrite Hld. orun.
    pose proof (le_val_range _ Hb4) as Hw. change (256 ^ zlen [b0; b1; b2; b3]) with (2 ^ 32) in Hw.
    assert (0 <= Z.lxor crc (le_val [b0; b1; b2; b3]) < 2 ^ 32) as Hx by (apply lxor_bound; lia).
    rewrite crc32_word_ok by done. orun. rewrite (IH (i + 1) l).
    + unfold crc32c_ref. rewrite foldl_app, lnot32_lnot32, (crc_byte_word _ [b0; b1; b2; b3]) by done.
      change (8 * length [b0; b1; b2; b3])%nat with 32%nat.
      by replace (Z.lxor (lnot32 crc) (le_val [b0; b1; b2; b3]))
        with (lnot32 (Z.lxor crc (le_val [b0; b1; b2; b3]))) by (unfold lnot32; xor_ac).
    + lia.
    + by replace (4 * (i + 1)) with (4 * i + Z.of_nat 4) by lia.
    + rewrite length_app in Hl. simpl in Hl. lia.
    + done.
    + apply lnot32_range, iter_shift_range; [lia..|]. by apply lnot32_range.
Qed.

Lemma crc32_run T seed data len :
  T = crc32_tables0 \/ T = crc32_tables1 ->
  0 <= seed < 2 ^ 32 -> bytes_ok data -> 0 <= len <= zlen data -> len mod 4 = 0 ->
  crc32 T seed data len = Some (crc32c_ref seed (take (Z.to_nat len) data), crc32_tables1).
Proof.
  intros HT Hs Hb Hl Hm. unfold crc32.
  assert (exists t0, (crc32_table T).[0] = Some t0 /\
    (if t0 =? 0 then crc32_init_tables T else Some T) = Some crc32_tables1) as (t0 & -> & HT').
  { destruct HT as [-> | ->]; eexists; (split; [vm_compute; reflexivity|]).
    - apply crc32_init_tables_ok.
    - reflexivity. }
  orun. rewrite HT'. orun. clear T HT HT'. unfold zlen in *.
  rewrite (crc32_words_ok _ data 0 (take (Z.to_nat len) data) (drop (Z.to_nat len) data)).
  - orun. replace (len - len / 4 * 4) with 0 by divlia. done.
  - lia.
  - simpl. by rewrite take_drop.
  - rewrite length_take. divlia.
  - by apply Forall_take.
  - done.
Qed.

Lemma crc_fold_range poly w l c :
  8 <= w -> 0 <= poly < 2 ^ w -> bytes_ok l -> 0 <= c < 2 ^ w -> 0 <= foldl (crc_byte poly) c l < 2 ^ w.
Proof.
  intros Hw Hp Hl. revert c. induction Hl as [|b l Hb Hl IH]; intros c Hc; [done|].
  cbn [foldl]. apply IH. by apply crc_byte_range.
Qed.

Lemma crc32c_ref_range seed l : bytes_ok l -> 0 <= seed < 2 ^ 32 -> 0 <= crc32c_ref seed l < 2 ^ 32.
Proof.
  intros Hl Hs. apply lnot32_range, crc_fold_range; [lia..|done|]. by apply lnot32_range.
Qed.

(** Over a whole number of words [crc32] computes CRC-32C (with the
    inversion before and after folded into its tables), whether or not the
    tables were built by an earlier call, and leaves the built tables behind. *)
Theorem crc32_correct T seed data len :
  T = crc32_tables0 \/ T = crc32_tables1 ->
  0 <= seed < 2 ^ 32 -> bytes_ok data -> 0 <= len <= zlen data -> len mod 4 = 0 ->
  crc32 T seed data len = Some (crc32c_ref seed (take (Z.to_nat len) data), crc32_tables1).
Proof. apply crc32_run. Qed.

Lemma crc32_correct_witness :
  crc32 crc32_tables0 0 [49; 50; 51; 52; 53; 54; 55; 56] 8 = Some (0x6087809A, crc32_tables1).
Proof.
  rewrite crc32_correct; [reflexivity | by left | lia | repeat constructor; lia
    | vm_compute; split; discriminate | reflexivity].
Defined.

(** On the bytes past the last whole word the table index is the sum, not the
    exclusive or, of the register's low byte and the data, and leaves the table
    of 256 entries. *)
Lemma crc32_tail_overrun :
  crc32 crc32_tables1 0xff [1] 1 = None.
Proof. vm_compute. reflexivity. Qed.

Lemma crc32_tail_differs :
  exists c, fst <$> crc32 crc32_tables1 1 [1] 1 = Some c /\ c <> crc32c_ref 1 [1].
Proof. eexists. split; [vm_compute; reflexivity | vm_compute; discriminate]. Qed.

(** ** [siphash] on the padded message

    SipHash is defined on the message padded with zeros to the last byte of a
    word, which holds the length modulo 256. *)

Definition sip_pad (l : list Z) : list Z :=
  l ++ replicate (7 - length l `mod` 8) 0 ++ [zlen l mod 256].

Fixpoint sip_split (n : nat) (l : list Z) : list Z :=
  match n with O => [] | S n => le_val (take 8 l) :: sip_split n (drop 8 l) end.

Definition siphash_ref (l : list Z) (key : Z) : Z :=
  sip_finish (foldl sip_compress (sip_init key) (sip_split (length l / 8 + 1) (sip_pad l))).

Lemma sip_split_app n l l' : length l = (8 * n)%nat -> sip_split n (l ++ l') = sip_split n l.
Proof.
  revert l. induction n as [|n IH]; intros l Hl; [done|]. cbn [sip_split].
  rewrite take_app_le, drop_app_le by lia. rewrite IH; [done|]. rewrite length_drop. lia.
Qed.

Lemma sip_split_take n l l' :
  (8 * n <= length l)%nat -> sip_split n (l ++ l') = sip_split n (take (8 * n) l).
Proof.
  intros Hn. rewrite <- (take_drop (8 * n) l) at 1. rewrite <- app_assoc.
  apply sip_split_app. rewrite length_take. lia.
Qed.

Lemma sip_split_add n m l : sip_split (n + m) l = sip_split n l ++ sip_split m (drop (8 * n) l).
Proof.
  revert l. induction n as [|n IH]; intros l; [done|].
  cbn [sip_split Nat.add app]. rewrite IH, drop_drop. do 4 f_equal. lia.
Qed.

Lemma sip_words_ok n buffer data l more v :
  0 <= data -> drop (Z.to_nat data) buffer = l ++ more -> length l = (8 * n)%nat ->
  sip_words n buffer data v = Some (foldl sip_compress v (sip_split n l)).
Proof.
  revert data l v. induction n as [|n IH]; intros data l v Hp Hd Hl; [done|].
  rewrite <- (take_drop 8 l), <- app_assoc in Hd.
  destruct (load_le_drop 8 buffer data (take 8 l) (drop 8 l ++ more)) as [Hld Hd'];
    [lia..|done|rewrite length_take; lia|].
  cbn [sip_words sip_split foldl]. rewrite Hld. orun.
  rewrite (IH _ (drop 8 l)); [done|lia| |rewrite length_drop; lia].
  by replace (data + 8) with (data + Z.of_nat 8) by lia.
Qed.

Lemma drop_lookup (buf l more : list Z) d k :
  0 <= d -> drop (Z.to_nat d) buf = l ++ more -> 0 <= k < zlen l -> buf.[d + k] = l.[k].
Proof.
  intros Hd Hdr Hk. unfold zlookup, zlen in *.
  destruct (Z.ltb_spec (d + k) 0), (Z.ltb_spec k 0); try lia.
  rewrite Z2Nat.inj_add, <- lookup_drop, Hdr by lia. apply lookup_app_l. lia.
Qed.

(** Placing a byte below the bytes placed before. *)
Lemma lor_byte b x k :
  0 <= k < 8 -> 0 <= x < 256 -> b mod 2 ^ (8 * k + 8) = 0 ->
  Z.lor b (u64 (Z.shiftl x (8 * k))) = b + x * 2 ^ (8 * k).
Proof.
  intros Hk Hx Hb.
  assert (Hu : u64 (Z.shiftl x (8 * k)) = x * 2 ^ (8 * k)).
  { rewrite Z.shiftl_mul_pow2 by lia. apply wrap_small.
    assert (2 ^ (8 * k + 8) <= 2 ^ 64) by (apply Z.pow_le_mono_r; lia).
    rewrite Z.pow_add_r in * by lia. change (2 ^ 8) with 256 in *. nia. }
  rewrite Hu, <- Z.shiftl_mul_pow2 by lia.
  apply Z.mod_divide in Hb as [q ->]; [|lia].
  rewrite <- Z.shiftl_mul_pow2 by lia.
  assert (Hd : Z.land (Z.shiftl q (8 * k + 8)) (Z.shiftl x (8 * k)) = 0).
  { bitwise i Hi. rewrite Z.testbit_0_l. destruct (Z.ltb_spec i (8 * k + 8)).
    - rewrite (Z.testbit_neg_r q) by lia. done.
    - rewrite (testbit_high 8 x) by lia. by rewrite andb_false_r. }
  by rewrite (Z.add_nocarry_lxor _ _ Hd), Z.lxor_lor.
Qed.

Lemma sip_case_ok buffer data rem label b t more x :
  0 <= data -> drop (Z.to_nat data) buffer = t ++ more -> 1 <= label <= 7 ->
  label <= rem -> t.[label - 1] = Some x -> 0 <= x < 256 -> b mod 2 ^ (8 * label) = 0 ->
  sip_case buffer data rem label b = Some (b + x * 2 ^ (8 * (label - 1))).
Proof.
  intros Hd Hdr Hl Hr Ht Hx Hb. unfold sip_case. destruct (Z.leb_spec label rem); [|lia].
  rewrite (drop_lookup _ _ _ _ _ Hd Hdr), Ht by (eapply zlookup_Some_lt; eauto). orun.
  rewrite lor_byte; [done|lia|lia|]. by replace (8 * (label - 1) + 8) with (8 * label) by lia.
Qed.

Lemma sip_case_skip buffer data rem label b :
  rem < label -> sip_case buffer data rem label b = Some b.
Proof. intros. unfold sip_case. destruct (Z.leb_spec label rem); [lia|done]. Qed.

Lemma sip_tail_ok buffer data t more c :
  0 <= data -> drop (Z.to_nat data) buffer = t ++ more -> (length t < 8)%nat -> bytes_ok t ->
  sip_tail buffer data (zlen t) (c * 2 ^ 56) = Some (le_val (t ++ replicate (7 - length t) 0 ++ [c])).
Proof.
  intros Hd Hdr Hl Hb. unfold sip_tail.
  do 8 (destruct t as [|? t]; [
    repeat (rewrite sip_case_skip by (vm_compute; reflexivity); orun);
    repeat (erewrite sip_case_ok;
      [ orun | exact Hd | exact Hdr | lia | vm_compute; discriminate | reflexivity
      | repeat match goal with H : bytes_ok (_ :: _) |- _ => inversion_clear H
               | H : Forall _ (_ :: _) |- _ => inversion_clear H end; lia
      | divlia ]);
    f_equal; cbn; lia
  | ]). simpl in Hl. lia.
Qed.

(** The state stays four 64-bit words. *)
Definition sip_ok (v : sip_state) : Prop :=
  let '(v0, v1, v2, v3) := v in
  0 <= v0 < 2 ^ 64 /\ 0 <= v1 < 2 ^ 64 /\ 0 <= v2 < 2 ^ 64 /\ 0 <= v3 < 2 ^ 64.

Lemma rolq_range x n : 0 <= x < 2 ^ 64 -> 0 <= n <= 64 -> 0 <= rolq x n < 2 ^ 64.
Proof.
  intros Hx Hn. unfold rolq. apply lor_bound; [lia|apply wrap_range; lia|].
  rewrite Z.shiftr_div_pow2 by lia.
  assert (0 < 2 ^ (64 - n)) by (apply Z.pow_pos_nonneg; lia).
  split; [apply Z.div_pos; lia|]. apply Z.div_lt_upper_bound; [lia|]. nia.
Qed.

Lemma SIP_ROUND_ok v : sip_ok v -> sip_ok (SIP_ROUND v).
Proof.
  destruct v as [[[v0 v1] v2] v3]. intros (H0 & H1 & H2 & H3). cbn -[Z.pow].
  refine (conj _ (conj _ (conj _ _)));
  repeat first [ apply lxor_bound | apply rolq_range | apply wrap_range | lia ].
Qed.

Lemma sip_compress_ok v m : sip_ok v -> 0 <= m < 2 ^ 64 -> sip_ok (sip_compress v m).
Proof.
  destruct v as [[[v0 v1] v2] v3]. intros (H0 & H1 & H2 & H3) Hm. unfold sip_compress.
  pose proof (SIP_ROUND_ok _ (SIP_ROUND_ok (v0, v1, v2, Z.lxor v3 m)
    ltac:(refine (conj _ (conj _ (conj _ _))); try apply lxor_bound; lia))) as Hr.
  destruct (SIP_ROUND _) as [[[w0 w1] w2] w3]. destruct Hr as (? & ? & ? & ?).
  refine (conj _ (conj _ (conj _ _))); try apply lxor_bound; lia.
Qed.

Lemma sip_finish_range v : sip_ok v -> 0 <= sip_finish v < 2 ^ 64.
Proof.
  destruct v as [[[v0 v1] v2] v3]. intros (H0 & H1 & H2 & H3). unfold sip_finish.
  assert (sip_ok (v0, v1, Z.lxor v2 255, v3)) as Hf by (refine (conj _ (conj _ (conj _ _))); try apply lxor_bound; lia).
  do 4 apply SIP_ROUND_ok in Hf.
  destruct (SIP_ROUND _) as [[[w0 w1] w2] w3]. destruct Hf as (? & ? & ? & ?).
  repeat apply lxor_bound; lia.
Qed.

Lemma sip_init_ok key : 0 <= key < 2 ^ 128 -> sip_ok (sip_init key).
Proof.
  intros Hk. unfold sip_init.
  assert (0 <= Z.land key 0xffffffffffffffff < 2 ^ 64)
    by (change 0xffffffffffffffff with (Z.ones 64); rewrite Z.land_ones by lia; apply wrap_range; lia).
  assert (0 <= Z.shiftr key 64 < 2 ^ 64) by (rewrite Z.shiftr_div_pow2 by lia; divlia).
  refine (conj _ (conj _ (conj _ _))); apply lxor_bound; lia.
Qed.

Lemma sip_split_ok n l v :
  bytes_ok l -> sip_ok v -> sip_ok (foldl sip_compress v (sip_split n l)).
Proof.
  revert l v. induction n as [|n IH]; intros l v Hl Hv; [done|]. cbn [sip_split foldl].
  apply IH; [by apply Forall_drop|]. apply sip_compress_ok; [done|].
  pose proof (le_val_range (take 8 l) ltac:(by apply Forall_take)).
  assert (256 ^ zlen (take 8 l) <= 256 ^ 8) by
    (apply Z.pow_le_mono_r; [lia|]; unfold zlen; rewrite length_take; lia).
  change (2 ^ 64) with (256 ^ 8). lia.
Qed.

Lemma bytes_ok_pad l : bytes_ok l -> bytes_ok (sip_pad l).
Proof.
  intros Hl. apply Forall_app. split; [done|]. apply Forall_app. split; [apply bytes_ok_zeros|].
  repeat constructor; pose proof (Z.mod_pos_bound (zlen l) 256); lia.
Qed.

(** The shared part of the theorem below and of the hash maps. *)
Lemma siphash_padded buffer len key :
  bytes_ok buffer -> 0 <= len <= zlen buffer ->
  siphash buffer len key = Some (siphash_ref (take (Z.to_nat len) buffer) key).
Proof.
  intros Hb Hl. unfold siphash. rewrite land7.
  set (l := take (Z.to_nat len) buffer).
  assert (Hll : length l = Z.to_nat len) by (unfold l, zlen in *; rewrite length_take; lia).
  set (n := (length l / 8)%nat).
  assert (Hn : (len - len mod 8) / 8 = Z.of_nat n)
    by (unfold n; rewrite Hll, Nat2Z.inj_div, Z2Nat.id by lia; change (Z.of_nat 8) with 8; divlia).
  rewrite Hn, Nat2Z.id.
  assert (Hlen : length l = (8 * n + length l `mod` 8)%nat) by apply Nat.div_mod_eq.
  pose proof (Nat.mod_upper_bound (length l) 8 ltac:(lia)) as Hmod.
  assert (Hbuf : buffer = take (8 * n) l ++ drop (8 * n) l ++ drop (Z.to_nat len) buffer)
    by (rewrite app_assoc, take_drop; symmetry; apply take_drop).
  rewrite (sip_words_ok n buffer 0 (take (8 * n) l) (drop (8 * n) l ++ drop (Z.to_nat len) buffer));
    [|lia|exact Hbuf|rewrite length_take; lia]. orun.
  assert (Hdl : length (drop (8 * n) l) = (length l `mod` 8)%nat) by (rewrite length_drop; lia).
  assert (Hrem : len mod 8 = zlen (drop (8 * n) l)) by (unfold zlen; rewrite Hdl, Nat2Z.inj_mod, Hll, Z2Nat.id by lia; done).
  replace (u64 (Z.shiftl len 56)) with (len mod 256 * 2 ^ 56)
    by (rewrite Z.shiftl_mul_pow2 by lia; unfold wrap; divlia).
  rewrite Hrem, (sip_tail_ok _ _ _ (drop (Z.to_nat len) buffer)).
  - orun. unfold siphash_ref. fold n. rewrite sip_split_add, foldl_app. unfold sip_pad.
    rewrite drop_app_le by lia.
    rewrite (sip_split_take n l) by lia.
    cbn [sip_split foldl]. rewrite (take_ge (drop (8 * n) l ++ _))
      by (rewrite !length_app, length_replicate, Hdl; simpl; lia).
    by rewrite Hdl, <- (Z2Nat.id len), <- Hll by lia.
  - unfold zlen. lia.
  - rewrite Hbuf at 1. rewrite drop_app_length'; [done|]. rewrite length_take.
    unfold zlen. lia.
  - lia.
  - by apply Forall_drop, Forall_take.
Qed.

Lemma siphash_ref_range l key :
  bytes_ok l -> 0 <= key < 2 ^ 128 -> 0 <= siphash_ref l key < 2 ^ 64.
Proof.
  intros Hl Hk. apply sip_finish_range, sip_split_ok; [by apply bytes_ok_pad|by apply sip_init_ok].
Qed.

(** [siphash] absorbs the message padded the way SipHash specifies (zeros,
    then the length byte): it reads exactly the [len] bytes it is given, never
    outside of the buffer, and returns a 64-bit word. *)
Theorem siphash_correct buffer len key :
  bytes_ok buffer -> 0 <= len <= zlen buffer -> 0 <= key < 2 ^ 128 ->
  exists h, siphash buffer len key = Some h /\ 0 <= h < 2 ^ 64 /\
    h = siphash_ref (take (Z.to_nat len) buffer) key.
Proof.
  intros Hb Hl Hk. eexists. split; [by apply siphash_padded|]. split; [|done].
  apply siphash_ref_range; [by apply Forall_take|done].
Qed.

Lemma siphash_correct_witness :
  exists h, siphash [1; 2; 3; 4; 5; 6; 7; 8; 9] 9 0 = Some h /\ 0 <= h < 2 ^ 64.
Proof.
  destruct (siphash_correct [1; 2; 3; 4; 5; 6; 7; 8; 9] 9 0) as (h & H1 & H2 & _).
  - repeat constructor; lia.
  - vm_compute. split; discriminate.
  - lia.
  - exists h. split; assumption.
Defined.

(** The round of siphash adds 1 where SipHash adds [v1]: the reference test
    vector (key 00..0f, message 00..0e) is not reproduced. *)
Lemma siphash_test_vector :
  exists h, siphash (map Z.of_nat (seq 0 15)) 15 0x0f0e0d0c0b0a09080706050403020100 = Some h /\
    h <> 0xa129ca6149be45e5.
Proof. eexists. split; [vm_compute; reflexivity | discriminate]. Qed.

End Hash.
