(* ===== verification/HashMap.v ===== *)
(** * Hash maps (util/map.c)

    [struct hashmap] (integer keys) and [struct strmap] (string keys) have the
    same code up to the key type, so the operations are written once over a
    class of keys and instantiated twice. A bucket is the chain of its entries;
    an entry that was freed but is still linked is marked, and touching it is
    undefined behaviour. Allocations take their outcomes from an oracle. *)

From S2P Require Import Prelude CBits Hash.

Module HashMap.
Import CBits.

(** ** Allocation outcomes

    The answers of the next allocations; past the end of the list they
    succeed. *)
Definition mem : Type := list bool.

Definition malloc : M mem bool := fun o =>
  match o with [] => Some (true, []) | b :: o => Some (b, o) end.

(** ** Keys

    How a key is hashed, and whether the map stores its own copy of it
    ([strdup]). *)
Class MapKey (K : Type) := {
  key_hash : K -> option Z;
  key_dup : bool
}.

Section ops.
Context {K : Type} `{EqDecision K} `{MapKey K}.

(** [e_key = None] is a NULL key pointer. *)
Record entry := mk_entry { e_key : option K; e_value : Z; e_freed : bool }.

Record hmap := mk_hmap {
  buckets : list (list entry);
  bucket_count : Z;
  object_count : Z
}.

Abbreviation HASHMAP_INIT_BUCKETS := 16.

(** Reading the key of an entry. *)
Definition entry_key (e : entry) : option K := if e_freed e then None else e_key e.

Definition free_entry (e : entry) : entry := mk_entry (e_key e) (e_value e) true.

(** [siphash (key) % count] *)
Definition bucket_index (key : K) (count : Z) : option Z :=
  h ← key_hash key;
  if count =? 0 then None else Some (h mod count).

(** The length of an array of pointers from [calloc (count, sizeof (void * ))]. *)
Definition calloc_ptrs (count : Z) : list (list entry) :=
  replicate (Z.to_nat (u64 (count * 8) / 8)) [].

Definition create : M mem (option hmap) :=
  ok ← malloc;
  if negb ok then mret None else
  ok ← malloc;
  if negb ok then mret None else
  mret (Some (mk_hmap (calloc_ptrs HASHMAP_INIT_BUCKETS) HASHMAP_INIT_BUCKETS 0)).

(** The search loop: the position of the entry with the key in a chain. *)
Fixpoint find_key (key : K) (chain : list entry) : option (option nat) :=
  match chain with
  | [] => Some None
  | e :: chain =>
      k ← entry_key e;
      if decide (k = key) then Some (Some O) else
      r ← find_key key chain;
      Some (option_map S r)
  end.

(** Copies the entries of one old bucket to the new buckets; [None] reports a
    failed allocation. *)
Fixpoint rehash_chain (chain : list entry) (count : Z) (new : list (list entry)) :
    M mem (option (list (list entry))) :=
  match chain with
  | [] => mret (Some new)
  | e :: chain =>
      k ← lift (entry_key e);
      index ← lift (bucket_index k count);
      ok ← malloc;
      if negb ok then mret None else
      dst ← lift (new.[index]);
      new ← lift (new.[index <- dst ++ [mk_entry (Some k) (e_value e) false]]);
      rehash_chain chain count new
  end.

(** The loop over the old buckets. Each bucket is freed after its entries are
    copied; a failure leaves the map with the freed buckets still linked. *)
Fixpoint rehash_loop (todo freed : list (list entry)) (count : Z) (new : list (list entry)) :
    M mem (list (list entry) + list (list entry)) :=
  match todo with
  | [] => mret (inl new)
  | chain :: todo =>
      r ← rehash_chain chain count new;
      match r with
      | None => mret (inr (freed ++ chain :: todo))
      | Some new => rehash_loop todo (freed ++ [free_entry <$> chain]) count new
      end
  end.

(** The doubling of the bucket array; the flag is false when it failed. *)
Definition grow (m : hmap) : M mem (bool * hmap) :=
  if u64 (bucket_count m * 3) / 4 <=? object_count m then
    let count := u64 (bucket_count m * 2) in
    ok ← malloc;
    if negb ok then mret (false, m) else
    r ← rehash_loop (buckets m) [] count (calloc_ptrs count);
    match r with
    | inl new => mret (true, mk_hmap new count (object_count m))
    | inr old => mret (false, mk_hmap old (bucket_count m) (object_count m))
    end
  else mret (true, m).

Definition set_value (chain : list entry) (i : nat) (value : Z) : list entry :=
  alter (fun e => mk_entry (e_key e) value (e_freed e)) i chain.

Definition insert (m : hmap) (key : K) (value : Z) : M mem (Z * hmap) :=
  '(ok, m) ← grow m;
  if negb (ok : bool) then mret (-1, m) else
  index ← lift (bucket_index key (bucket_count m));
  chain ← lift ((buckets m).[index]);
  pos ← lift (find_key key chain);
  match pos with
  | Some i =>
      bs ← lift ((buckets m).[index <- set_value chain i value]);
      mret (0, mk_hmap bs (bucket_count m) (object_count m))
  | None =>
      ok ← malloc;
      if negb ok then mret (-1, m) else
      copied ← (if key_dup then malloc else mret true);
      bs ← lift ((buckets m).[index <-
        chain ++ [mk_entry (if copied : bool then Some key else None) value false]]);
      mret (0, mk_hmap bs (bucket_count m) (u64 (object_count m + 1)))
  end.

(** The value, or NULL. *)
Definition lookup (m : hmap) (key : K) : option Z :=
  index ← bucket_index key (bucket_count m);
  chain ← (buckets m).[index];
  pos ← find_key key chain;
  match pos with
  | Some i => e ← chain !! i; Some (e_value e)
  | None => Some 0
  end.

(** The pairs the callback is called with, in order. *)
Definition iterate (m : hmap) : option (list (option K * Z)) :=
  mapM (fun e => if e_freed e then None else Some (e_key e, e_value e))
    (concat (take (Z.to_nat (bucket_count m)) (buckets m))).

(** The values given to [free_func], in order; the map is gone. *)
Definition free_map (free_func : bool) (m : hmap) : option (list Z) :=
  vs ← mapM (fun e => if e_freed e then None else Some (e_value e))
    (concat (take (Z.to_nat (bucket_count m)) (buckets m)));
  Some (if free_func then vs else []).

(** [hashmap_remove]: the first matching entry over all buckets is unlinked and
    freed. *)
Fixpoint remove_loop (key : K) (todo : list (list entry)) : option (option (list (list entry))) :=
  match todo with
  | [] => Some None
  | chain :: todo =>
      pos ← find_key key chain;
      match pos with
      | Some i => Some (Some (base.delete i chain :: todo))
      | None => r ← remove_loop key todo; Some (option_map (cons chain) r)
      end
  end.

Definition remove (m : hmap) (key : K) : option (Z * hmap) :=
  r ← remove_loop key (buckets m);
  match r with
  | Some bs => Some (0, mk_hmap bs (bucket_count m) (object_count m))
  | None => Some (-1, m)
  end.

(** [strmap_remove]: an entry that does not match is freed, and the loop then
    reads its [next] field. *)
Fixpoint strmap_remove_loop (key : K) (todo : list (list entry)) :
    option (option (list (list entry))) :=
  match todo with
  | [] => Some None
  | [] :: todo => r ← strmap_remove_loop key todo; Some (option_map (cons []) r)
  | (e :: chain) :: todo =>
      k ← entry_key e;
      if decide (k = key) then Some (Some (chain :: todo)) else None
  end.

Definition remove_str (m : hmap) (key : K) : option (Z * hmap) :=
  r ← strmap_remove_loop key (buckets m);
  match r with
  | Some bs => Some (0, mk_hmap bs (bucket_count m) (object_count m))
  | None => Some (-1, m)
  end.
End ops.
Arguments entry K : clear implicits.
Arguments hmap K : clear implicits.

(** ** The two maps *)

(** The bytes of an [unsigned long] in memory. *)
Fixpoint le_bytes (n : nat) (x : Z) : list Z :=
  match n with O => [] | S n => u8 x :: le_bytes n (Z.shiftr x 8) end.

#[export] Instance ulong_key : MapKey Z := {
  key_hash k := Hash.siphash (le_bytes 8 k) 8 0;
  key_dup := false
}.

(** A string is its bytes without the terminator. *)
#[export] Instance string_key : MapKey (list Z) := {
  key_hash k := Hash.siphash (k ++ [0]) (zlen k) 0;
  key_dup := true
}.

Definition hashmap : Type := hmap Z.
Definition hashmap_create : M mem (option hashmap) := create.
Definition hashmap_free : bool -> hashmap -> option (list Z) := free_map.
Definition hashmap_insert : hashmap -> Z -> Z -> M mem (Z * hashmap) := insert.
Definition hashmap_lookup : hashmap -> Z -> option Z := lookup.
Definition hashmap_iterate : hashmap -> option (list (option Z * Z)) := iterate.
Definition hashmap_remove : hashmap -> Z -> option (Z * hashmap) := remove.

Definition strmap : Type := hmap (list Z).
Definition strmap_create : M mem (option strmap) := create.
Definition strmap_free : bool -> strmap -> option (list Z) := free_map.
Definition strmap_insert : strmap -> list Z -> Z -> M mem (Z * strmap) := insert.
Definition strmap_lookup : strmap -> list Z -> option Z := lookup.
Definition strmap_iterate : strmap -> option (list (option (list Z) * Z)) := iterate.
Definition strmap_remove : strmap -> list Z -> option (Z * strmap) := remove_str.

Abbreviation all_succeed := (Forall (fun b : bool => b = true)).

(** ** The abstract map

    The keys a map can be used with, and the promise of the hash. *)
Class MapKeyOk (K : Type) `{MapKey K} := {
  key_ok : K -> Prop;
  key_hash_ok k : key_ok k -> exists h, key_hash k = Some h /\ 0 <= h
}.

Section proofs.
Context {K : Type} `{Countable K} `{!MapKey K} `{!MapKeyOk K}.
Implicit Types (k : K) (v : Z) (e : entry K) (chain : list (entry K)) (bs : list (list (entry K))).

Definition pair_of (e : entry K) : option (K * Z) := k ← e_key e; Some (k, e_value e).
Definition chain_pairs (chain : list (entry K)) : list (K * Z) := omap pair_of chain.
Definition pairs (bs : list (list (entry K))) : list (K * Z) := chain_pairs (concat bs).

(** An entry in bucket [i] of [count]. *)
Definition entry_ok (count i : Z) (e : entry K) : Prop :=
  e_freed e = false /\
  exists k, e_key e = Some k /\ key_ok k /\ bucket_index k count = Some i.

Definition buckets_ok (count : Z) (bs : list (list (entry K))) : Prop :=
  0 < count /\ zlen bs = count /\
  (forall i chain, bs !! i = Some chain -> Forall (entry_ok count (Z.of_nat i)) chain) /\
  NoDup (pairs bs).*1.

(** [object_count] bounds the number of entries from above: removal does not
    decrease it. *)
Definition map_ok (m : hmap K) : Prop :=
  buckets_ok (bucket_count m) (buckets m) /\
  zlen (pairs (buckets m)) <= object_count m /\
  bucket_count m mod 4 = 0 /\
  (bucket_count m = 16 \/ 3 * bucket_count m <= 8 * object_count m).

Definition to_map (m : hmap K) : gmap K Z := list_to_map (pairs (buckets m)).

(** *** Chains and buckets *)

Lemma entry_ok_key count i e k :
  entry_ok count i e -> entry_key e = Some k <-> e_key e = Some k.
Proof. intros [Hf _]. unfold entry_key. by rewrite Hf. Qed.

Lemma chain_pairs_app c1 c2 : chain_pairs (c1 ++ c2) = chain_pairs c1 ++ chain_pairs c2.
Proof. apply omap_app. Qed.

Lemma pairs_insert bs i chain :
  bs !! i = Some chain ->
  exists rest, forall chain', pairs (<[i := chain']> bs) ≡ₚ chain_pairs chain' ++ rest.
Proof.
  intros Hi. exists (pairs (take i bs) ++ pairs (drop (S i) bs)). intros chain'.
  rewrite insert_take_drop by (eapply lookup_lt_Some; eauto).
  unfold pairs. rewrite concat_app, chain_pairs_app. cbn [concat]. rewrite chain_pairs_app.
  by rewrite Permutation_app_swap_app.
Qed.

Lemma elem_of_chain_pairs chain k v :
  (k, v) ∈ chain_pairs chain <-> exists e, e ∈ chain /\ e_key e = Some k /\ e_value e = v.
Proof.
  unfold chain_pairs. rewrite list_elem_of_omap. split.
  - intros (e & He & Hp). unfold pair_of in Hp. destruct (e_key e) eqn:E; simplify_option_eq. eauto.
  - intros (e & He & Hk & Hv). exists e. split; [done|]. unfold pair_of. rewrite Hk. by subst.
Qed.

Lemma elem_of_chain_keys chain k :
  k ∈ (chain_pairs chain).*1 <-> exists e, e ∈ chain /\ e_key e = Some k.
Proof.
  rewrite list_elem_of_fmap. split.
  - intros ([k' v] & -> & (e & ? & ? & ?)%elem_of_chain_pairs). eauto.
  - intros (e & He & Hk). exists (k, e_value e). split; [done|].
    apply elem_of_chain_pairs. eauto.
Qed.

Lemma find_key_spec count i key chain :
  Forall (entry_ok count i) chain ->
  (exists pos e, find_key key chain = Some (Some pos) /\ chain !! pos = Some e /\ e_key e = Some key)
  \/ (find_key key chain = Some None /\ key ∉ (chain_pairs chain).*1).
Proof.
  induction 1 as [|e chain He _ IH]; [right; split; [done|apply not_elem_of_nil]|].
  pose proof He as (Hf & k & Hk & _). cbn [find_key].
  rewrite (proj2 (entry_ok_key _ _ _ k He) Hk). orun.
  destruct (decide (k = key)) as [->|Hne].
  - left. by exists O, e.
  - destruct IH as [(pos & e' & -> & Hp & Hk')|[-> Hn]]; orun.
    + left. exists (S pos), e'. done.
    + right. split; [done|]. unfold chain_pairs. cbn [omap list_omap]. unfold pair_of.
      rewrite Hk. simpl. rewrite not_elem_of_cons. auto.
Qed.

Lemma bucket_index_ok key count :
  key_ok key -> 0 < count -> exists i, bucket_index key count = Some i /\ 0 <= i < count.
Proof.
  intros Hk Hc. destruct (key_hash_ok key Hk) as (h & Hh & Hp).
  exists (h mod count). unfold bucket_index. rewrite Hh. orun.
  destruct (Z.eqb_spec count 0); [lia|]. split; [done|]. by apply Z.mod_pos_bound.
Qed.

(** The bucket of a key, as the operations reach it. *)
Lemma bucket_of_key count bs key :
  buckets_ok count bs -> key_ok key ->
  exists i chain, bucket_index key count = Some i /\ 0 <= i < count /\
    bs.[i] = Some chain /\ bs !! Z.to_nat i = Some chain /\ Forall (entry_ok count i) chain.
Proof.
  intros (Hc & Hl & Hb & _) Hk.
  destruct (bucket_index_ok key count Hk Hc) as (i & Hi & Hr).
  destruct (zlookup_lt_Some bs i) as [chain Hch]; [lia|].
  exists i, chain. pose proof Hch as Hch'. unfold zlookup in Hch'.
  destruct (Z.ltb_spec i 0); [lia|].
  split_and!; auto; [lia..|]. specialize (Hb _ _ Hch'). by rewrite Z2Nat.id in Hb by lia.
Qed.

(** A key that is not in its bucket is in no bucket. *)
Lemma not_in_bucket count bs key i chain :
  buckets_ok count bs -> bucket_index key count = Some i -> bs !! Z.to_nat i = Some chain ->
  0 <= i -> key ∉ (chain_pairs chain).*1 -> key ∉ (pairs bs).*1.
Proof.
  intros (_ & _ & Hb & _) Hi Hch Hp Hn Hin. apply Hn.
  unfold pairs in Hin. apply elem_of_chain_keys in Hin as (e & He & Hk).
  apply list_elem_of_In, in_concat in He as (c & Hc & He).
  apply list_elem_of_In in Hc, He. apply list_elem_of_lookup in Hc as [j Hj].
  pose proof (Hb _ _ Hj) as Hf. rewrite Forall_forall in Hf.
  destruct (Hf e He) as (_ & k' & Hk' & _ & Hi').
  assert (k' = key) as -> by congruence. assert (i = Z.of_nat j) as -> by congruence.
  rewrite Nat2Z.id in Hch. assert (c = chain) as -> by congruence.
  apply elem_of_chain_keys. eauto.
Qed.

Lemma entry_ok_insert count bs (i : nat) chain' :
  (forall j c, bs !! j = Some c -> Forall (entry_ok count (Z.of_nat j)) c) ->
  Forall (entry_ok count (Z.of_nat i)) chain' ->
  forall j c, <[i := chain']> bs !! j = Some c -> Forall (entry_ok count (Z.of_nat j)) c.
Proof. intros Hb Hc j c [(-> & <- & _)|[_ Hj]]%list_lookup_insert_Some; eauto. Qed.

(** A bucket is replaced: the entries of the map change by those of the bucket. *)
Lemma buckets_ok_update count bs (i : nat) chain chain' :
  buckets_ok count bs -> bs !! i = Some chain ->
  Forall (entry_ok count (Z.of_nat i)) chain' ->
  (forall rest, pairs bs ≡ₚ chain_pairs chain ++ rest -> NoDup (chain_pairs chain' ++ rest).*1) ->
  buckets_ok count (<[i := chain']> bs) /\
  exists rest, pairs bs ≡ₚ chain_pairs chain ++ rest /\
    pairs (<[i := chain']> bs) ≡ₚ chain_pairs chain' ++ rest.
Proof.
  intros (Hc & Hl & Hb & Hnd) Hi Hf Hr.
  destruct (pairs_insert bs i chain Hi) as [rest Hrest].
  assert (pairs bs ≡ₚ chain_pairs chain ++ rest) as Hold
    by (rewrite <- (list_insert_id bs i chain Hi) at 1; apply Hrest).
  split.
  - split_and!; [done| |by apply entry_ok_insert|].
    + unfold zlen. by rewrite length_insert.
    + rewrite (Hrest chain'). by apply Hr.
  - exists rest. auto.
Qed.

Lemma chain_pairs_snoc chain k v b :
  chain_pairs (chain ++ [mk_entry (Some k) v b]) = chain_pairs chain ++ [(k, v)].
Proof. apply chain_pairs_app. Qed.

(** A new key is appended to its bucket. *)
Lemma add_entry count bs key i chain v :
  buckets_ok count bs -> key_ok key -> bucket_index key count = Some i -> 0 <= i ->
  bs !! Z.to_nat i = Some chain -> key ∉ (pairs bs).*1 ->
  let bs' := <[Z.to_nat i := chain ++ [mk_entry (Some key) v false]]> bs in
  buckets_ok count bs' /\ pairs bs' ≡ₚ (key, v) :: pairs bs.
Proof.
  intros Hok Hk Hi Hp Hch Hn bs'. pose proof Hok as (_ & _ & Hb & Hnd).
  destruct (buckets_ok_update count bs (Z.to_nat i) chain
    (chain ++ [mk_entry (Some key) v false])) as (Hok' & rest & Hr1 & Hr2); auto.
  - apply Forall_app. split; [by apply Hb|]. repeat constructor. exists key.
    rewrite Z2Nat.id by lia. auto.
  - intros rest Hrest. rewrite chain_pairs_snoc, <- app_assoc. simpl.
    rewrite <- Permutation_middle, <- Hrest. simpl. by constructor.
  - split; [done|]. unfold bs'. rewrite Hr2, chain_pairs_snoc, <- app_assoc. simpl.
    by rewrite <- Permutation_middle, <- Hr1.
Qed.

(** The chain around an entry with a known key. *)
Lemma chain_split chain (pos : nat) e k :
  chain !! pos = Some e -> e_key e = Some k ->
  chain_pairs chain = chain_pairs (take pos chain) ++ (k, e_value e) :: chain_pairs (drop (S pos) chain).
Proof.
  intros Hp Hk. rewrite <- (take_drop_middle chain pos e Hp) at 1.
  rewrite chain_pairs_app. f_equal. unfold chain_pairs. cbn [omap list_omap].
  unfold pair_of at 1. by rewrite Hk.
Qed.

(** The value of a present key is replaced. *)
Lemma replace_entry count bs i chain pos e key v :
  buckets_ok count bs -> bs !! i = Some chain -> chain !! pos = Some e -> e_key e = Some key ->
  let bs' := <[i := set_value chain pos v]> bs in
  buckets_ok count bs' /\
  exists rest, pairs bs ≡ₚ (key, e_value e) :: rest /\ pairs bs' ≡ₚ (key, v) :: rest.
Proof.
  intros Hok Hch Hpos Hk bs'. pose proof Hok as (_ & _ & Hb & Hnd).
  assert (Hnew : chain_pairs (set_value chain pos v) =
    chain_pairs (take pos chain) ++ (key, v) :: chain_pairs (drop (S pos) chain)).
  { pose proof (lookup_lt_Some _ _ _ Hpos).
    rewrite (chain_split _ pos (mk_entry (e_key e) v (e_freed e)) key); [| |done].
    - unfold set_value. by rewrite take_alter_ge, drop_alter_lt by lia.
    - unfold set_value. by rewrite list_lookup_alter_eq, Hpos. }
  pose proof (chain_split _ _ _ _ Hpos Hk) as Hold.
  destruct (buckets_ok_update count bs i chain (set_value chain pos v))
    as (Hok' & rest & Hr1 & Hr2); auto.
  - specialize (Hb _ _ Hch). unfold set_value. rewrite Forall_lookup in *.
    intros j e' Hj. rewrite list_lookup_alter in Hj. case_decide; [|eauto].
    subst j. rewrite Hpos in Hj. injection Hj as <-. apply (Hb pos e Hpos).
  - intros rest Hrest. rewrite Hrest, Hold in Hnd. rewrite Hnew.
    by rewrite !fmap_app, !fmap_cons in *.
  - split; [done|].
    exists (chain_pairs (take pos chain) ++ chain_pairs (drop (S pos) chain) ++ rest).
    unfold bs'. rewrite Hr1, Hr2, Hnew, Hold, <- !app_assoc. simpl.
    by rewrite !Permutation_middle.
Qed.

(** A present key is unlinked. *)
Lemma delete_entry count bs i chain pos e key :
  buckets_ok count bs -> bs !! i = Some chain -> chain !! pos = Some e -> e_key e = Some key ->
  let bs' := <[i := base.delete pos chain]> bs in
  buckets_ok count bs' /\ pairs bs ≡ₚ (key, e_value e) :: pairs bs'.
Proof.
  intros Hok Hch Hpos Hk bs'. pose proof Hok as (_ & _ & Hb & Hnd).
  pose proof (chain_split _ _ _ _ Hpos Hk) as Hold.
  assert (Hnew : chain_pairs (base.delete pos chain) =
    chain_pairs (take pos chain) ++ chain_pairs (drop (S pos) chain))
    by (by rewrite delete_take_drop, chain_pairs_app).
  destruct (buckets_ok_update count bs i chain (base.delete pos chain))
    as (Hok' & rest & Hr1 & Hr2); auto.
  - specialize (Hb _ _ Hch). rewrite delete_take_drop. apply Forall_app.
    split; [by apply Forall_take|by apply Forall_drop].
  - intros rest Hrest. rewrite Hrest, Hold in Hnd. rewrite Hnew.
    rewrite !fmap_app, fmap_cons, <- app_assoc in *. simpl in Hnd.
    rewrite <- Permutation_middle in Hnd. by inversion_clear Hnd.
  - split; [done|]. unfold bs'. rewrite Hr1, Hr2, Hnew, Hold, <- !app_assoc. simpl.
    by rewrite <- Permutation_middle.
Qed.

(** *** The operations *)

Lemma to_map_perm m1 m2 :
  NoDup (pairs (buckets m1)).*1 -> pairs (buckets m1) ≡ₚ pairs (buckets m2) -> to_map m1 = to_map m2.
Proof. intros. by apply list_to_map_proper. Qed.

Lemma to_map_cons (bs : list (list (entry K))) l :
  NoDup (pairs bs).*1 -> pairs bs ≡ₚ l -> list_to_map (M := gmap K Z) (pairs bs) = list_to_map l.
Proof. intros. by apply list_to_map_proper. Qed.

Lemma lookup_spec m key :
  buckets_ok (bucket_count m) (buckets m) -> key_ok key ->
  lookup m key = Some (default 0 (to_map m !! key)).
Proof.
  intros Hok Hk. destruct (bucket_of_key _ _ _ Hok Hk) as (i & chain & Hi & Hr & Hz & Hch & Hf).
  unfold lookup. rewrite Hi. orun. rewrite Hz. orun.
  destruct (find_key_spec _ _ key _ Hf) as [(pos & e & -> & Hp & He)|[-> Hn]]; orun.
  - rewrite Hp. orun. f_equal.
    destruct (delete_entry _ _ _ _ _ _ _ Hok Hch Hp He) as [_ Hperm].
    pose proof Hok as (_ & _ & _ & Hnd).
    unfold to_map. rewrite (to_map_cons _ _ Hnd Hperm). simpl. by rewrite lookup_insert_eq.
  - pose proof (not_in_bucket _ _ _ _ _ Hok Hi Hch ltac:(lia) Hn) as Hnin.
    unfold to_map. by rewrite not_elem_of_list_to_map_1.
Qed.

Lemma malloc_succeeds n (o : mem) :
  all_succeed (take (S n) o) ->
  exists o', malloc o = Some (true, o') /\ all_succeed (take n o') /\ (all_succeed o -> all_succeed o').
Proof.
  destruct o as [|b o]; intros Ho; [by exists []; rewrite take_nil|].
  inversion_clear Ho; subst. exists o. split_and!; auto. by intros [? ?]%Forall_cons.
Qed.

Lemma rehash_chain_spec count old i chain new o :
  buckets_ok count new -> Forall (entry_ok old i) chain ->
  NoDup ((pairs new).*1 ++ (chain_pairs chain).*1) ->
  forall n, all_succeed (take (length chain + n) o) ->
  exists new' o', rehash_chain chain count new o = Some (Some new', o') /\
    buckets_ok count new' /\ pairs new' ≡ₚ pairs new ++ chain_pairs chain /\
    all_succeed (take n o') /\ (all_succeed o -> all_succeed o').
Proof.
  intros Hok Hf. revert new o Hok.
  induction Hf as [|e chain He _ IH]; intros new o Hok Hnd n Ho.
  - exists new, o. rewrite app_nil_r. auto.
  - pose proof He as (Hfr & k & Hk & Hkok & _).
    assert (Hcp : chain_pairs (e :: chain) = (k, e_value e) :: chain_pairs chain)
      by (unfold chain_pairs; cbn [omap list_omap]; unfold pair_of at 1; by rewrite Hk).
    rewrite Hcp in *. cbn [fmap list_fmap] in Hnd.
    destruct (bucket_of_key _ _ _ Hok Hkok) as (j & dst & Hj & Hr & Hz & Hdst & _).
    destruct (malloc_succeeds (length chain + n) o Ho) as (o1 & Hm & Ho1 & Hmono).
    cbn [rehash_chain]. unfold mbind, M_bind, lift.
    rewrite (proj2 (entry_ok_key _ _ _ k He) Hk), Hj, Hm. cbn [negb]. rewrite Hz.
    pose proof Hok as (_ & Hlen & _). rewrite zstore_lt by lia.
    destruct (add_entry count new k j dst (e_value e)) as [Hok' Hp']; auto; [lia|..].
    { intros Hin. apply NoDup_app in Hnd as (_ & Hd & _). apply (Hd k Hin). left. }
    edestruct (IH (<[Z.to_nat j := dst ++ [mk_entry (Some k) (e_value e) false]]> new) o1 Hok')
      as (new' & o' & Hrun & Hok'' & Hp'' & Ho' & Hmono').
    + rewrite Hp'. cbn [fmap list_fmap fst]. by rewrite <- Permutation_middle in Hnd.
    + exact Ho1.
    + exists new', o'. split; [exact Hrun|]. split_and!; auto.
      rewrite Hp'', Hp'. simpl. by rewrite Permutation_middle.
Qed.

Lemma pairs_cons chain bs : pairs (chain :: bs) = chain_pairs chain ++ pairs bs.
Proof. unfold pairs. simpl. apply chain_pairs_app. Qed.

Definition chains_ok (old : Z) (bs : list (list (entry K))) : Prop :=
  Forall (fun chain => exists i, Forall (entry_ok old i) chain) bs.

Lemma rehash_loop_spec count old todo freed new o :
  buckets_ok count new -> chains_ok old todo ->
  NoDup ((pairs new).*1 ++ (pairs todo).*1) ->
  all_succeed (take (length (concat todo)) o) ->
  exists new' o', rehash_loop todo freed count new o = Some (inl new', o') /\
    buckets_ok count new' /\ pairs new' ≡ₚ pairs new ++ pairs todo /\
    (all_succeed o -> all_succeed o').
Proof.
  intros Hok Hf. revert freed new o Hok.
  induction Hf as [|chain todo [i Hch] _ IH]; intros freed new o Hok Hnd Ho.
  - exists new, o. unfold pairs at 3. rewrite app_nil_r. auto.
  - cbn [rehash_loop concat] in *. rewrite pairs_cons, fmap_app, app_assoc in Hnd.
    pose proof Hnd as (Hnd1 & _)%NoDup_app. rewrite length_app in Ho.
    destruct (rehash_chain_spec count old i chain new o Hok Hch Hnd1 _ Ho)
      as (new1 & o1 & Hrun & Hok1 & Hp1 & Ho1 & Hmono).
    unfold mbind, M_bind. rewrite Hrun.
    edestruct (IH (freed ++ [free_entry <$> chain]) new1 o1 Hok1) as (new' & o' & Hrun' & Hok' & Hp' & Hmono').
    + by rewrite Hp1, fmap_app.
    + done.
    + exists new', o'. split_and!; auto. rewrite Hp', Hp1, pairs_cons. by rewrite app_assoc.
Qed.

Lemma pairs_empty n : pairs (replicate n []) = [].
Proof. induction n; [done|]. by rewrite replicate_S, pairs_cons. Qed.

Lemma buckets_ok_empty count : 0 < count < 2 ^ 61 -> buckets_ok count (calloc_ptrs count).
Proof.
  intros Hc. unfold calloc_ptrs. rewrite wrap_small, Z.div_mul by lia. split_and!.
  - lia.
  - rewrite zlen_replicate. lia.
  - intros i chain [-> _]%lookup_replicate. constructor.
  - rewrite pairs_empty. constructor.
Qed.

(** Whether the next insertion doubles the bucket array, and the allocations
    it can survive: the array itself may fail, the copies of the entries may
    not. *)
Definition needs_grow (m : hmap K) : bool := u64 (bucket_count m * 3) / 4 <=? object_count m.

Definition alloc_safe (m : hmap K) (o : mem) : Prop :=
  needs_grow m = true -> head o <> Some false ->
  all_succeed (take (S (length (concat (buckets m)))) o).

Lemma alloc_safe_all m o : all_succeed o -> alloc_safe m o.
Proof. intros Ho _ _. by apply Forall_take. Qed.

Lemma map_ok_bound m : map_ok m -> object_count m < 2 ^ 58 -> 0 < bucket_count m < 2 ^ 60.
Proof. intros ((Hc & _) & _ & _ & Hg) Ho. lia. Qed.

Lemma grow_spec m o :
  map_ok m -> object_count m < 2 ^ 58 -> alloc_safe m o ->
  exists ok m' o', grow m o = Some ((ok, m'), o') /\ map_ok m' /\ to_map m' = to_map m /\
    object_count m' = object_count m /\
    (all_succeed o -> ok = true /\ all_succeed o').
Proof.
  intros Hok Hob Hsafe. pose proof (map_ok_bound m Hok Hob) as Hbc.
  pose proof Hok as (Hbok & Hcnt & Hmod & Hgrow).
  unfold grow. unfold alloc_safe, needs_grow in Hsafe.
  rewrite (wrap_small 64 (bucket_count m * 3)) in * by lia.
  destruct (Z.leb_spec (bucket_count m * 3 / 4) (object_count m)) as [Hge|_];
    [|exists true, m, o; auto 6].
  destruct (decide (head o = Some false)) as [Hh|Hh].
  { destruct o as [|[] o]; try done. exists false, m, o. split_and!; auto.
    by intros [? _]%Forall_cons. }
  destruct (malloc_succeeds _ _ (Hsafe eq_refl Hh)) as (o1 & Hm & Ho1 & Hmono).
  unfold mbind, M_bind. rewrite Hm. cbn [negb].
  rewrite (wrap_small 64 (bucket_count m * 2)) by lia.
  assert (buckets_ok (bucket_count m * 2) (calloc_ptrs (bucket_count m * 2))) as Hempty
    by (apply buckets_ok_empty; lia).
  assert (Hpe : pairs (@calloc_ptrs K (bucket_count m * 2)) = []) by apply pairs_empty.
  pose proof Hbok as (_ & _ & Hb & Hnd).
  destruct (rehash_loop_spec (bucket_count m * 2) (bucket_count m) (buckets m) [] _ o1 Hempty)
    as (new & o' & -> & Hok' & Hp' & Hmono').
  - apply Forall_lookup. intros i chain Hi. eauto.
  - by rewrite Hpe.
  - done.
  - rewrite Hpe in Hp'. simpl in Hp'.
    exists true, (mk_hmap new (bucket_count m * 2) (object_count m)), o'.
    split; [done|]. split; [|split_and!; auto].
    + split_and!; simpl; [done| | |right; divlia].
      * unfold zlen in *. by rewrite Hp'.
      * divlia.
    + apply to_map_perm; [|done]. simpl. by destruct Hok' as (_ & _ & _ & ?).
Qed.

Lemma insert_new_ok m key i chain v :
  map_ok m -> key_ok key -> 0 <= object_count m < 2 ^ 58 ->
  bucket_index key (bucket_count m) = Some i -> 0 <= i -> buckets m !! Z.to_nat i = Some chain ->
  key ∉ (pairs (buckets m)).*1 ->
  let m' := mk_hmap (<[Z.to_nat i := chain ++ [mk_entry (Some key) v false]]> (buckets m))
    (bucket_count m) (u64 (object_count m + 1)) in
  map_ok m' /\ to_map m' = <[key := v]> (to_map m) /\ object_count m' = object_count m + 1.
Proof.
  intros (Hbok & Hlen & Hmod & Hgr) Hk Hob Hi Hp Hch Hnin m'.
  destruct (add_entry _ _ key i chain v Hbok Hk Hi Hp Hch Hnin) as [Hok' Hp'].
  unfold m'. rewrite wrap_small by lia. split_and!; simpl; [split_and!; simpl; auto|..]; try lia.
  - unfold zlen in *. rewrite Hp'. simpl. lia.
  - unfold to_map. simpl. by rewrite (to_map_cons _ _ (proj2 (proj2 (proj2 Hok'))) Hp').
Qed.

(** What an insertion does under any allocation outcomes it can survive. *)
Lemma insert_spec m key v o :
  map_ok m -> key_ok key -> object_count m < 2 ^ 58 -> alloc_safe m o ->
  (key_dup = true -> all_succeed o) ->
  exists r m' o', insert m key v o = Some ((r, m'), o') /\ map_ok m' /\
    object_count m <= object_count m' <= object_count m + 1 /\
    ((r = 0 /\ to_map m' = <[key := v]> (to_map m)) \/ (r = -1 /\ to_map m' = to_map m)) /\
    (all_succeed o -> r = 0 /\ all_succeed o').
Proof.
  intros Hok Hk Hob Hsafe Hdup.
  destruct (grow_spec m o Hok Hob Hsafe) as (ok & m1 & o1 & Hg & Hok1 & Hmap & Hcnt & Hall).
  unfold insert, mbind, M_bind. rewrite Hg. destruct ok; cbn [negb].
  2: { exists (-1), m1, o1. split_and!; auto; [lia..|]. intros Ho. by destruct (Hall Ho). }
  pose proof Hok1 as (Hbok & Hlen & Hmod & Hgr). pose proof (zlen_nonneg (pairs (buckets m1))).
  destruct (bucket_of_key _ _ key Hbok Hk) as (i & chain & Hi & Hr & Hz & Hch & Hf).
  pose proof Hbok as (Hcpos & Hblen & _ & Hnd).
  unfold lift. rewrite Hi, Hz.
  destruct (find_key_spec _ _ key _ Hf) as [(pos & e & -> & Hp & He)|[-> Hn]].
  - rewrite zstore_lt by lia.
    destruct (replace_entry _ _ _ _ _ _ _ v Hbok Hch Hp He) as (Hok' & rest & Hr1 & Hr2).
    eexists 0, _, o1. split; [reflexivity|]. split_and!; simpl; try lia.
    + split_and!; simpl; auto. unfold zlen in *. rewrite Hr2. rewrite Hr1 in Hlen. exact Hlen.
    + left. split; [done|]. rewrite <- Hmap. unfold to_map.
      rewrite (to_map_cons _ _ Hnd Hr1). simpl.
      rewrite (to_map_cons _ _ (proj2 (proj2 (proj2 Hok'))) Hr2). simpl. by rewrite insert_insert_eq.
    + intros Ho. by destruct (Hall Ho).
  - pose proof (not_in_bucket _ _ _ _ _ Hbok Hi Hch ltac:(lia) Hn) as Hnin.
    destruct (insert_new_ok m1 key i chain v) as (Hok' & Hmap' & Hcnt'); auto; [lia..|].
    destruct o1 as [|[] o1]; cbn [malloc negb].
    + (* the list of outcomes is exhausted *)
      assert ((if key_dup then malloc else mret true) [] = Some (true, [])) as ->
        by (by destruct key_dup).
      rewrite zstore_lt by lia. eexists 0, _, []. split; [reflexivity|].
      split_and!; [done|lia..| |auto]. left. by rewrite <- Hmap.
    + assert (exists o2, (if key_dup then malloc else mret true) o1 = Some (true, o2) /\
        (all_succeed o -> all_succeed o2)) as (o2 & -> & Ho2).
      { destruct key_dup eqn:Ed.
        - destruct (Hall (Hdup eq_refl)) as [_ [_ Ho1]%Forall_cons].
          destruct (malloc_succeeds 0 o1) as (o2 & -> & _ & Hm2); [by apply Forall_take|]. eauto.
        - exists o1. split; [done|]. intros Ho. by destruct (Hall Ho) as [_ [_ ?]%Forall_cons]. }
      rewrite zstore_lt by lia. eexists 0, _, o2. split; [reflexivity|].
      split_and!; [done|lia..| |auto]. left. by rewrite <- Hmap.
    + exists (-1), m1, o1. split_and!; auto; [lia..|]. intros Ho. by destruct (Hall Ho) as [_ [? _]%Forall_cons].
Qed.

Lemma remove_loop_spec old todo key :
  chains_ok old todo ->
  (exists i chain pos e, remove_loop key todo = Some (Some (<[i := base.delete pos chain]> todo)) /\
     todo !! i = Some chain /\ chain !! pos = Some e /\ e_key e = Some key) \/
  (remove_loop key todo = Some None /\ key ∉ (pairs todo).*1).
Proof.
  induction 1 as [|chain todo [i Hch] _ IH]; [right; split; [done|apply not_elem_of_nil]|].
  cbn [remove_loop].
  destruct (find_key_spec _ _ key _ Hch) as [(pos & e & -> & Hp & He)|[-> Hn]]; orun.
  - left. exists O, chain, pos, e. done.
  - destruct IH as [(j & c & pos & e & -> & Hj & Hp & He)|[-> Hn']]; orun.
    + left. exists (S j), c, pos, e. done.
    + right. split; [done|]. rewrite pairs_cons, fmap_app. rewrite not_elem_of_app. auto.
Qed.

Lemma remove_spec m key :
  map_ok m ->
  exists r m', remove m key = Some (r, m') /\ map_ok m' /\
    to_map m' = base.delete key (to_map m) /\ object_count m' = object_count m /\
    r = (if to_map m !! key is Some _ then 0 else -1).
Proof.
  intros (Hbok & Hlen & Hmod & Hgr). pose proof Hbok as (_ & _ & Hb & Hnd).
  assert (chains_ok (bucket_count m) (buckets m)) as Hc
    by (apply Forall_lookup; intros ? ? ?; eauto).
  unfold remove.
  destruct (remove_loop_spec _ _ key Hc) as [(i & chain & pos & e & -> & Hi & Hp & He)|[-> Hn]]; orun.
  - destruct (delete_entry _ _ _ _ _ _ _ Hbok Hi Hp He) as [Hok' Hperm].
    eexists 0, _. split; [reflexivity|].
    pose proof Hnd as Hnd'. rewrite Hperm in Hnd'. cbn [fmap list_fmap fst] in Hnd'.
    inversion_clear Hnd' as [|? ? Hnin _].
    unfold to_map. rewrite (to_map_cons _ _ Hnd Hperm). split_and!; simpl; auto.
    + split_and!; simpl; auto. unfold zlen in *. rewrite Hperm in Hlen. simpl in Hlen. lia.
    + rewrite delete_insert_eq. symmetry. apply delete_id. by apply not_elem_of_list_to_map_1.
    + by rewrite lookup_insert_eq.
  - exists (-1), m. assert (to_map m !! key = None) as Hnone by (by apply not_elem_of_list_to_map_1).
    rewrite Hnone, delete_id by done. split_and!; auto. by split_and!.
Qed.

Lemma create_spec (o : mem) :
  exists r o', create o = Some (r, o') /\
    (forall m : hmap K, r = Some m -> map_ok m /\ to_map m = ∅ /\ object_count m = 0) /\
    (all_succeed o -> exists m : hmap K, r = Some m /\ all_succeed o').
Proof.
  assert (map_ok (mk_hmap (@calloc_ptrs K 16) 16 0)) as Hok.
  { split_and!; simpl; auto; [apply buckets_ok_empty; lia|]. by vm_compute. }
  unfold create, mbind, M_bind.
  destruct o as [|[] [|[] o]]; cbn [malloc negb]; eexists _, _; (split; [reflexivity|]);
    (split; [by intros m [= <-]|]); intros Ho; rewrite ?Forall_cons in Ho; naive_solver.
Qed.

(** Iteration visits every pair of the map once. *)
Lemma iterate_spec m :
  map_ok m ->
  exists l, iterate m = Some l /\
    exists ps, l = (fun p => (Some p.1, p.2)) <$> ps /\ NoDup ps.*1 /\ list_to_map ps = to_map m.
Proof.
  intros (Hbok & _). pose proof Hbok as (Hc & Hl & Hb & Hnd). unfold iterate.
  rewrite take_ge by (unfold zlen in Hl; lia).
  assert (forall chain, Forall (fun e => exists i, entry_ok (bucket_count m) i e) chain ->
    mapM (fun e => if e_freed e then None else Some (e_key e, e_value e)) chain =
    Some ((fun p => (Some p.1, p.2)) <$> chain_pairs chain)) as Hmap.
  { induction 1 as [|e chain (i & Hf & k & Hk & _) _ IH]; [done|].
    cbn [mapM]. rewrite Hf, Hk. orun. rewrite IH. orun. unfold chain_pairs. cbn [omap list_omap].
    unfold pair_of at 2. by rewrite Hk. }
  eexists. split; [apply Hmap|].
  - apply Forall_concat, Forall_lookup. intros i chain Hi.
    eapply Forall_impl; [apply (Hb _ _ Hi)|]. eauto.
  - exists (pairs (buckets m)). auto.
Qed.

(** *** Histories *)

Inductive op := OInsert (k : K) (v : Z) | OLookup (k : K) | ORemove (k : K).

Definition op_key (p : op) : K := match p with OInsert k _ | OLookup k | ORemove k => k end.
Definition is_remove (p : op) : bool := match p with ORemove _ => true | _ => false end.

(** Runs a list of calls and collects what they return. *)
Fixpoint run (rm : hmap K -> K -> option (Z * hmap K)) (m : hmap K) (ops : list op) :
    M mem (list Z * hmap K) :=
  match ops with
  | [] => mret ([], m)
  | p :: ops =>
      '(r, m) ← match p with
                | OInsert k v => insert m k v
                | OLookup k => r ← lift (lookup m k); mret (r, m)
                | ORemove k => lift (rm m k)
                end;
      '(rs, m) ← run rm m ops;
      mret (r :: rs, m)
  end.

(** The same calls on a finite map. *)
Fixpoint run_spec (g : gmap K Z) (ops : list op) : list Z * gmap K Z :=
  match ops with
  | [] => ([], g)
  | p :: ops =>
      let '(r, g') := match p with
        | OInsert k v => (0, <[k := v]> g)
        | OLookup k => (default 0 (g !! k), g)
        | ORemove k => (if g !! k is Some _ then 0 else -1, base.delete k g)
        end in
      let '(rs, g'') := run_spec g' ops in (r :: rs, g'')
  end.

Lemma run_refines rm ops m o :
  map_ok m -> all_succeed o -> 0 <= object_count m -> object_count m + zlen ops < 2 ^ 58 ->
  Forall (fun p => key_ok (op_key p)) ops ->
  (rm = remove \/ Forall (fun p => is_remove p = false) ops) ->
  exists m' o', run rm m ops o = Some (((run_spec (to_map m) ops).1, m'), o') /\
    map_ok m' /\ to_map m' = (run_spec (to_map m) ops).2.
Proof.
  revert m o. induction ops as [|p ops IH]; intros m o Hok Ho Hc Hb Hk Hrm.
  - by exists m, o.
  - rewrite zlen_cons in Hb. pose proof (zlen_nonneg ops).
    inversion_clear Hk as [|? ? Hk0 Hks]. cbn [run run_spec].
    assert (rm = remove \/ Forall (fun p => is_remove p = false) ops) as Hrm'
      by (destruct Hrm as [?|[? ?]%Forall_cons]; auto).
    assert (exists r m1 o1,
      match p with
      | OInsert k v => insert m k v
      | OLookup k => r ← lift (lookup m k); mret (r, m)
      | ORemove k => lift (rm m k)
      end o = Some ((r, m1), o1) /\ map_ok m1 /\ all_succeed o1 /\
      object_count m <= object_count m1 <= object_count m + 1 /\
      match p with
      | OInsert k v => (0, <[k := v]> (to_map m))
      | OLookup k => (default 0 (to_map m !! k), to_map m)
      | ORemove k => (if to_map m !! k is Some _ then 0 else -1, base.delete k (to_map m))
      end = (r, to_map m1)) as (r & m1 & o1 & Hrun & Hok1 & Ho1 & Hc1 & Hsp).
    { destruct p as [k v|k|k]; simpl in Hk0.
      - destruct (insert_spec m k v o) as (r & m1 & o1 & Hi & Hok1 & Hc1 & Hr & Hall); auto;
          [lia|by apply alloc_safe_all|]. destruct (Hall Ho) as [-> Ho1].
        exists 0, m1, o1. split_and!; auto; [lia..|]. destruct Hr as [[_ ->]|[? _]]; [done|lia].
      - pose proof (lookup_spec m k (proj1 Hok) Hk0) as Hl.
        eexists _, m, o. unfold mbind, M_bind, lift. rewrite Hl. split_and!; try done; lia.
      - destruct Hrm as [->|[? _]%Forall_cons]; [|done].
        destruct (remove_spec m k Hok) as (r & m1 & Hr & Hok1 & Hmap & Hc1 & ->).
        eexists _, m1, o. unfold lift. rewrite Hr, Hmap. split_and!; try done; lia. }
    unfold mbind, M_bind. unfold mbind, M_bind in Hrun. rewrite Hrun, Hsp.
    destruct (IH m1 o1) as (m' & o' & Hrun' & Hok' & Hmap'); auto; [lia..|].
    destruct (run_spec (to_map m1) ops) as [rs g''] eqn:E. rewrite Hrun'. by exists m', o'.
Qed.

End proofs.

(** ** The promises of the two key types *)

Lemma le_bytes_ok n x : bytes_ok (le_bytes n x).
Proof. revert x. induction n as [|n IH]; intros x; constructor; [apply (wrap_range 8); lia | apply IH]. Qed.

Lemma le_bytes_len n x : zlen (le_bytes n x) = Z.of_nat n.
Proof. unfold zlen. f_equal. revert x. induction n; intros x; simpl; auto. Qed.

#[export] Program Instance ulong_key_ok : MapKeyOk Z := {
  key_ok k := 0 <= k < 2 ^ 64
}.
Next Obligation.
  intros k Hk. cbn [key_hash ulong_key]. rewrite Hash.siphash_padded.
  - eexists. split; [done|]. apply Hash.siphash_ref_range; [|lia].
    apply Forall_take, le_bytes_ok.
  - apply le_bytes_ok.
  - rewrite le_bytes_len. lia.
Qed.

#[export] Program Instance string_key_ok : MapKeyOk (list Z) := {
  key_ok k := Forall (fun b => 0 < b < 256) k
}.
Next Obligation.
  intros k Hk. cbn [key_hash string_key].
  assert (bytes_ok (k ++ [0])) as Hb.
  { apply Forall_app. split; [|repeat constructor; lia].
    eapply Forall_impl; [exact Hk|]. simpl. lia. }
  rewrite Hash.siphash_padded; [|done|rewrite zlen_app; pose proof (zlen_nonneg k); change (zlen [0]) with 1; lia].
  eexists. split; [done|]. apply Hash.siphash_ref_range; [by apply Forall_take|lia].
Qed.

(** ** The interface of integer maps

    What the process table needs of a map: the operations, the finite map a
    representation stands for, and the laws. *)
Class KernelMap (T : Type) := {
  km_insert : T -> Z -> Z -> M mem (Z * T);
  km_lookup : T -> Z -> option Z;
  km_remove : T -> Z -> option (Z * T);
  km_rep : T -> gmap Z Z -> Prop;
  km_safe : T -> mem -> Prop;
  km_lookup_law t g k :
    km_rep t g -> 0 <= k < 2 ^ 64 -> km_lookup t k = Some (default 0 (g !! k));
  km_remove_law t g k :
    km_rep t g ->
    exists t', km_remove t k = Some (if g !! k is Some _ then 0 else -1, t') /\
      km_rep t' (base.delete k g);
  km_insert_law t g k v o :
    km_rep t g -> 0 <= k < 2 ^ 64 -> km_safe t o ->
    exists r t' o', km_insert t k v o = Some ((r, t'), o') /\
      ((r = 0 /\ km_rep t' (<[k := v]> g)) \/ (r = -1 /\ km_rep t' g)) /\
      (all_succeed o -> r = 0)
}.

#[export] Program Instance hashmap_KernelMap : KernelMap hashmap := {
  km_insert := hashmap_insert;
  km_lookup := hashmap_lookup;
  km_remove := hashmap_remove;
  km_rep t g := map_ok t /\ to_map t = g;
  km_safe t o := object_count t < 2 ^ 58 /\ alloc_safe t o
}.
Next Obligation. intros t g k [Hok <-] Hk. apply lookup_spec; [by destruct Hok|done]. Qed.
Next Obligation.
  intros t g k [Hok <-]. destruct (remove_spec t k Hok) as (r & t' & Hr & Hok' & Hmap & _ & ->).
  exists t'. auto.
Qed.
Next Obligation.
  intros t g k v o [Hok <-] Hk [Hb Hs].
  destruct (insert_spec t k v o Hok Hk Hb Hs) as (r & t' & o' & Hi & Hok' & _ & Hr & Ha); [done|].
  exists r, t', o'. split; [done|]. split; [|intros Ho; by destruct (Ha Ho)].
  destruct Hr as [[-> Hm]|[-> Hm]]; auto.
Qed.

(** ** Theorems *)

(** C40: a hash map behaves as a finite map: any sequence of insertions, look-ups
    and removals on a new map returns exactly what the same sequence returns on
    a finite map, through every doubling of the bucket array, and ends with the
    same contents. *)
Theorem hashmap_refines_map (ops : list op) (m : hashmap) (o o' : mem) :
  hashmap_create o = Some (Some m, o') -> all_succeed o ->
  Forall (fun p => 0 <= op_key p < 2 ^ 64) ops -> zlen ops < 2 ^ 58 ->
  exists m' o'', run hashmap_remove m ops o' = Some (((run_spec ∅ ops).1, m'), o'') /\
    to_map m' = (run_spec ∅ ops).2.
Proof.
  intros Hc Ho Hk Hl. destruct (create_spec (K := Z) o) as (r & o1 & Hc' & Hsp & Hall).
  destruct (Hall Ho) as (m0 & -> & Ho1). unfold hashmap_create in Hc. rewrite Hc' in Hc.
  injection Hc as -> ->. destruct (Hsp m eq_refl) as (Hok & He & Hz).
  destruct (run_refines remove ops m o') as (m' & o'' & Hr & _ & Hm); auto; [lia..|].
  rewrite He in *. eauto.
Qed.

Lemma hashmap_refines_map_witness :
  exists m m' o'', hashmap_create [] = Some (Some m, []) /\
    run hashmap_remove m [OInsert 7 70; OInsert 8 80; OLookup 7; ORemove 7; OLookup 7] [] =
      Some (([0; 0; 70; 0; 0], m'), o'').
Proof.
  exists (mk_hmap (calloc_ptrs 16) 16 0).
  edestruct (hashmap_refines_map [OInsert 7 70; OInsert 8 80; OLookup 7; ORemove 7; OLookup 7]
      (mk_hmap (calloc_ptrs 16) 16 0) [] [])
    as (m' & o'' & H & _).
  - reflexivity.
  - constructor.
  - repeat constructor; simpl; lia.
  - vm_compute. reflexivity.
  - exists m', o''. split; [reflexivity | exact H].
Defined.

(** An insertion into a hash map either succeeds and adds exactly the
    binding, or reports -1 and leaves the contents as they were, under every
    outcome of its allocations except a failure while the entries are copied to
    a larger array. *)
Theorem hashmap_insert_correct (m : hashmap) key v o :
  map_ok m -> 0 <= key < 2 ^ 64 -> object_count m < 2 ^ 58 -> alloc_safe m o ->
  exists r m' o', hashmap_insert m key v o = Some ((r, m'), o') /\ map_ok m' /\
    ((r = 0 /\ to_map m' = <[key := v]> (to_map m)) \/ (r = -1 /\ to_map m' = to_map m)) /\
    (all_succeed o -> r = 0).
Proof.
  intros Hok Hk Hb Hs.
  destruct (insert_spec m key v o Hok Hk Hb Hs) as (r & m' & o' & Hi & Hok' & _ & Hr & Ha); [done|].
  exists r, m', o'. split_and!; auto. intros Ho. by destruct (Ha Ho).
Qed.

Lemma empty_hashmap_ok : map_ok (mk_hmap (@calloc_ptrs Z 16) 16 0).
Proof. split_and!; simpl; auto; [apply buckets_ok_empty; lia|]. by vm_compute. Qed.

Lemma hashmap_insert_correct_witness :
  exists r m' o', hashmap_insert (mk_hmap (calloc_ptrs 16) 16 0) 5 50 [false] = Some ((r, m'), o') /\
    ((r = 0 /\ to_map m' = <[5 := 50]> (to_map (mk_hmap (calloc_ptrs 16) 16 0))) \/
     (r = -1 /\ to_map m' = to_map (mk_hmap (calloc_ptrs 16) 16 0))).
Proof.
  destruct (hashmap_insert_correct (mk_hmap (calloc_ptrs 16) 16 0) 5 50 [false])
    as (r & m' & o' & H1 & _ & H2 & _).
  - exact empty_hashmap_ok.
  - lia.
  - vm_compute. reflexivity.
  - intros H. vm_compute in H. discriminate.
  - exists r, m', o'. split; [exact H1 | exact H2].
Defined.

(** String maps behave as finite maps under insertion and look-up, keys
    being compared by content, when the allocations succeed. *)
Theorem strmap_refines_map (ops : list op) (m : strmap) (o o' : mem) :
  strmap_create o = Some (Some m, o') -> all_succeed o ->
  Forall (fun p => Forall (fun b => 0 < b < 256) (op_key p)) ops ->
  Forall (fun p => is_remove p = false) ops -> zlen ops < 2 ^ 58 ->
  exists m' o'', run strmap_remove m ops o' = Some (((run_spec ∅ ops).1, m'), o'') /\
    to_map m' = (run_spec ∅ ops).2.
Proof.
  intros Hc Ho Hk Hr Hl. destruct (create_spec (K := list Z) o) as (r & o1 & Hc' & Hsp & Hall).
  destruct (Hall Ho) as (m0 & -> & Ho1). unfold strmap_create in Hc. rewrite Hc' in Hc.
  injection Hc as -> ->. destruct (Hsp m eq_refl) as (Hok & He & Hz).
  destruct (run_refines strmap_remove ops m o') as (m' & o'' & Hrun & _ & Hm); auto; [lia..|].
  rewrite He in *. eauto.
Qed.

Lemma strmap_refines_map_witness :
  exists m m' o'', strmap_create [] = Some (Some m, []) /\
    run strmap_remove m [OInsert [97; 98] 1; OInsert [99] 2; OLookup [97; 98]] [] =
      Some (([0; 0; 1], m'), o'').
Proof.
  exists (mk_hmap (calloc_ptrs 16) 16 0).
  edestruct (strmap_refines_map [OInsert [97; 98] 1; OInsert [99] 2; OLookup [97; 98]]
      (mk_hmap (calloc_ptrs 16) 16 0) [] [])
    as (m' & o'' & H & _).
  - reflexivity.
  - constructor.
  - repeat constructor; simpl; lia.
  - repeat constructor.
  - vm_compute. reflexivity.
  - exists m', o''. split; [reflexivity | exact H].
Defined.

(** Iterating over a hash map visits every binding exactly once. *)
Theorem hashmap_iterate_complete (m : hashmap) :
  map_ok m ->
  exists l ps, hashmap_iterate m = Some l /\ l = (fun p => (Some p.1, p.2)) <$> ps /\
    NoDup ps.*1 /\ list_to_map ps = to_map m.
Proof.
  intros Hok. destruct (iterate_spec m Hok) as (l & Hl & ps & Hps). exists l, ps. auto.
Qed.

Lemma hashmap_iterate_complete_witness :
  exists l ps, hashmap_iterate (mk_hmap (calloc_ptrs 16) 16 0) = Some l /\
    l = (fun p => (Some p.1, p.2)) <$> ps /\ list_to_map ps = to_map (mk_hmap (@calloc_ptrs Z 16) 16 0).
Proof.
  destruct (hashmap_iterate_complete (mk_hmap (calloc_ptrs 16) 16 0) empty_hashmap_ok)
    as (l & ps & H1 & H2 & _ & H3).
  exists l, ps. split; [exact H1 | split; [exact H2 | exact H3]].
Defined.

(** *** Defects the model exhibits *)

(** Twelve keys, then the growing insertion of a thirteenth whose last copy
    fails: the map keeps pointers to freed entries and the next look-up of a
    key that was present reads one. *)
Lemma rehash_failure_leaves_freed_entries :
  (x ← run hashmap_remove (mk_hmap (calloc_ptrs 16) 16 0)
         (map (fun k => OInsert k 1) [1; 2; 3; 4; 5; 6; 7; 8; 9; 10; 11; 12]) [];
   y ← hashmap_insert x.1.2 13 1 (replicate 12 true ++ [false]);
   Some (x.1.1, y.1.1, hashmap_lookup x.1.2 1, hashmap_lookup y.1.2 1)) =
  Some (repeat 0 12, -1, Some 1, None).
Proof. vm_compute. reflexivity. Qed.

(** [strmap_remove] reads an entry it just freed unless the key is in the very
    first entry it visits. *)
Lemma strmap_remove_use_after_free (m : strmap) key n e chain todo k :
  buckets m = replicate n [] ++ (e :: chain) :: todo ->
  entry_key e = Some k -> k <> key -> strmap_remove m key = None.
Proof.
  intros Hb He Hne. unfold strmap_remove, remove_str. rewrite Hb. clear Hb.
  assert (strmap_remove_loop key (replicate n [] ++ (e :: chain) :: todo) = None) as ->; [|done].
  induction n as [|n IH]; simpl.
  - rewrite He. simpl. by destruct (decide (k = key)).
  - by rewrite IH.
Qed.

(** Removal never lowers [object_count]: a map that holds at most one binding at
    a time still doubles its bucket array. *)
Lemma churn_grows :
  (x ← run hashmap_remove (mk_hmap (calloc_ptrs 16) 16 0)
         (concat (repeat [OInsert 1 1; ORemove 1] 13)) [];
   Some (x.1.1, bucket_count x.1.2, hashmap_iterate x.1.2)) = Some (repeat 0 26, 32, Some []).
Proof. vm_compute. reflexivity. Qed.

End HashMap.
