(* ===== verification/CString.v ===== *)
(** * Memory and string functions (util/mem*.c, util/str*.c, include/ctype.h)

    Module [CString]: the byte and string functions of the kernel library over
    a memory of bytes, with the loops that look at eight bytes at a time. A
    load or store outside of the mapped addresses is undefined. Every loop
    takes a bound on its iterations; the theorems hold for every bound from the
    length of the data on. *)

From S2P Require Import Prelude CBits Hash HashMap.

Module CString.
Import CBits Hash HashMap.

(** ** Memory *)

Abbreviation memory := (gmap Z Z).

Definition load8 (m : memory) (a : Z) : option Z := m !! a.

Definition store8 (m : memory) (a b : Z) : option memory :=
  match m !! a with Some _ => Some (<[a := u8 b]> m) | None => None end.

(** [n] bytes from an address. *)
Fixpoint load_bytes (m : memory) (a : Z) (n : nat) : option (list Z) :=
  match n with
  | O => Some []
  | S n => b ← load8 m a; l ← load_bytes m (a + 1) n; Some (b :: l)
  end.

Fixpoint store_bytes (m : memory) (a : Z) (l : list Z) : option memory :=
  match l with
  | [] => Some m
  | b :: l => m ← store8 m a b; store_bytes m (a + 1) l
  end.

(** A [long], little endian. *)
Definition load64 (m : memory) (a : Z) : option Z := le_val <$> load_bytes m a 8.
Definition store64 (m : memory) (a x : Z) : option memory := store_bytes m a (le_bytes 8 x).

(** ** Loops

    One round of a loop goes on, leaves the loop, or returns from the
    function. *)
Inductive ctl (S R : Type) := Cont (s : S) | Break (s : S) | Ret (r : R).
Arguments Cont {S R} s.
Arguments Break {S R} s.
Arguments Ret {S R} r.

Fixpoint loop {S R} (fuel : nat) (body : S -> option (ctl S R)) (s : S) : option (S + R) :=
  match fuel with
  | O => None
  | Datatypes.S fuel =>
      c ← body s;
      match c with
      | Cont s => loop fuel body s
      | Break s => Some (inl s)
      | Ret r => Some (inr r)
      end
  end.

(** The value of a loop that cannot return. *)
Definition fell {S} (r : S + Empty_set) : S := match r with inl s => s | inr e => match e with end end.

(** A loop with an invariant and a measure ends. *)
Lemma loop_inv {S R} (body : S -> option (ctl S R)) (I : S -> Prop) (measure : S -> nat) (Q : S + R -> Prop) :
  (forall s, I s -> exists c, body s = Some c /\
     match c with
     | Cont s' => I s' /\ (measure s' < measure s)%nat
     | Break s' => Q (inl s')
     | Ret r => Q (inr r)
     end) ->
  forall fuel s, I s -> (measure s < fuel)%nat -> exists x, loop fuel body s = Some x /\ Q x.
Proof.
  intros Hstep. induction fuel as [|fuel IH]; intros s HI Hm; [lia|]. cbn [loop].
  destruct (Hstep s HI) as (c & -> & Hc). orun. destruct c as [s'|s'|r]; eauto.
  destruct Hc as [HI' Hlt]. apply IH; [done|lia].
Qed.

(** The same in code on a state. *)
Fixpoint mloop {T A R} (fuel : nat) (body : A -> M T (ctl A R)) (a : A) : M T (A + R) :=
  match fuel with
  | O => fault
  | S fuel =>
      c ← body a;
      match c with
      | Cont a => mloop fuel body a
      | Break a => mret (inl a)
      | Ret r => mret (inr r)
      end
  end.

Lemma mloop_inv {T A R} (body : A -> M T (ctl A R)) (I : A -> T -> Prop) (measure : A -> nat)
    (Q : A + R -> T -> Prop) :
  (forall a t, I a t -> exists c t', body a t = Some (c, t') /\
     match c with
     | Cont a' => I a' t' /\ (measure a' < measure a)%nat
     | Break a' => Q (inl a') t'
     | Ret r => Q (inr r) t'
     end) ->
  forall fuel a t, I a t -> (measure a < fuel)%nat -> exists x t', mloop fuel body a t = Some (x, t') /\ Q x t'.
Proof.
  intros Hstep. induction fuel as [|fuel IH]; intros a t HI Hm; [lia|]. cbn [mloop].
  destruct (Hstep a t HI) as (c & t' & Hb & Hc). rewrite (bind_run _ _ _ _ _ Hb).
  destruct c as [a'|a'|r]; [|by do 2 eexists..]. destruct Hc as [HI' Hlt]. apply IH; [done|lia].
Qed.

Section funs.
Context (fuel : nat) (m : memory).

(** [while (!LONG_NULL ( *p)) p++] on words, then [while ( *p) p++] on bytes. *)
Definition skip_words (p : Z) : option Z :=
  fell <$> loop fuel (fun p => w ← load64 m p;
    Some (if truthy (LONG_NULL w) then Break p else Cont (p + 8))) p.
Definition skip_bytes (p : Z) : option Z :=
  fell <$> loop fuel (fun p => c ← load8 m p;
    Some (if truthy c then Cont (p + 1) else Break p)) p.

(** ** strlen.c *)

Definition strlen (str : Z) : option Z :=
  r ← loop fuel (fun p =>
        if ALIGNED_long p then Some (Break p) else
        c ← load8 m p;
        Some (if truthy c then Cont (p + 1) else Ret (p - str))) str;
  match r with
  | inr n => Some n
  | inl p => p ← skip_words p; p ← skip_bytes p; Some (p - str)
  end.

(** [len-- > 0] tests before it decrements. *)
Definition strnlen (str len : Z) : option Z :=
  r ← loop fuel (fun '(p, len) =>
        if negb (0 <? len) then Some (Break (p, u64 (len - 1))) else
        c ← load8 m p;
        Some (if truthy c then Cont (p + 1, len - 1) else Break (p, len - 1))) (str, len);
  Some ((fell r).1 - str).

(** ** strchr.c: NULL is 0 *)

(** [mask = ch; for (i = 8; i < 64; i <<= 1) mask = (mask << i) | mask] *)
Definition char_mask (ch : Z) : Z :=
  let mask := Z.lor (u64 (Z.shiftl ch 8)) ch in
  let mask := Z.lor (u64 (Z.shiftl mask 16)) mask in
  Z.lor (u64 (Z.shiftl mask 32)) mask.

Definition strchr (str c : Z) : option Z :=
  let ch := u8 c in
  if ch =? 0 then
    r ← loop fuel (fun p =>
          if ALIGNED p 8 then Some (Break p) else
          b ← load8 m p;
          Some (if truthy b then Cont (p + 1) else Ret p)) str;
    match r with
    | inr p => Some p
    | inl p => p ← skip_words p; skip_bytes p
    end
  else
    r ← loop fuel (fun p =>
          if ALIGNED p 8 then Some (Break p) else
          b ← load8 m p;
          Some (if negb (truthy b) then Ret 0 else if b =? ch then Ret p else Cont (p + 1))) str;
    match r with
    | inr p => Some p
    | inl p =>
        let mask := char_mask ch in
        p ← fell <$> loop fuel (fun p => w ← load64 m p;
          Some (if negb (truthy (LONG_NULL w)) && negb (truthy (LONG_CHAR w mask))
                then Cont (p + 8) else Break p)) p;
        p ← fell <$> loop fuel (fun p => b ← load8 m p;
          Some (if truthy b && negb (b =? ch) then Cont (p + 1) else Break p)) p;
        b ← load8 m p;
        Some (if b =? ch then p else 0)
    end.

Definition strrchr (str c : Z) : option Z :=
  if truthy c then
    r ← fell <$> loop fuel (fun '(str, last) =>
          p ← strchr str c;
          Some (if truthy p then Cont (p + 1, p) else Break (p, last))) (str, 0);
    Some r.2
  else strchr str c.

(** ** memchr.c *)

Definition memchr (ptr c len : Z) : option Z :=
  let ch := u8 c in
  r ← loop fuel (fun '(s, len) =>
        if ALIGNED s 8 then Some (Break (s, len)) else
        if len =? 0 then Some (Ret 0) else
        b ← load8 m s;
        Some (if b =? ch then Ret s else Cont (s + 1, len - 1))) (ptr, len);
  match r with
  | inr p => Some p
  | inl (s, len) =>
      '(s, len) ← (if 8 <=? len then
          fell <$> loop fuel (fun '(s, len) =>
            if len <? 8 then Some (Break (s, len)) else
            w ← load64 m s;
            Some (if truthy (LONG_CHAR w (char_mask ch)) then Break (s, len) else Cont (s + 8, len - 8))) (s, len)
        else Some (s, len));
      r ← loop fuel (fun '(s, len) =>
            if len =? 0 then Some (Ret 0) else
            b ← load8 m s;
            Some (if b =? ch then Ret s else Cont (s + 1, len - 1))) (s, len);
      Some (match r with inl _ => 0 | inr p => p end)
  end.

Definition memrchr (ptr c len : Z) : option Z :=
  let ch := u8 c in
  r ← loop fuel (fun '(s, len) =>
        if ALIGNED s 8 then Some (Break (s, len)) else
        if len =? 0 then Some (Ret 0) else
        b ← load8 m s;
        Some (if b =? ch then Ret s else Cont (s - 1, len - 1))) (ptr + len - 1, len);
  match r with
  | inr p => Some p
  | inl (s, len) =>
      '(s, len) ← (if 8 <=? len then
          '(a, len) ← fell <$> loop fuel (fun '(a, len) =>
            if len <? 8 then Some (Break (a, len)) else
            w ← load64 m a;
            Some (if truthy (LONG_CHAR w (char_mask ch)) then Break (a, len) else Cont (a - 8, len - 8)))
            (s - 8 + 1, len);
          Some (a + 8 - 1, len)
        else Some (s, len));
      r ← loop fuel (fun '(s, len) =>
            if len =? 0 then Some (Ret 0) else
            b ← load8 m s;
            Some (if b =? ch then Ret s else Cont (s - 1, len - 1))) (s, len);
      Some (match r with inl _ => 0 | inr p => p end)
  end.

(** ** memcmp.c, strcmp.c *)

Definition memcmp (a b len : Z) : option Z :=
  '(a, b, len) ← (if (8 <=? len) && ALIGNED_long a && ALIGNED_long b then
      fell <$> loop fuel (fun '(a, b, len) =>
        if len <? 8 then Some (Break (a, b, len)) else
        x ← load64 m a; y ← load64 m b;
        Some (if x =? y then Cont (a + 8, b + 8, len - 8) else Break (a, b, len))) (a, b, len)
    else Some (a, b, len));
  r ← loop fuel (fun '(a, b, len) =>
        if negb (0 <? len) then Some (Ret 0) else
        x ← load8 m a; y ← load8 m b;
        Some (if x <? y then Ret (-1) else if y <? x then Ret 1 else Cont (a + 1, b + 1, len - 1))) (a, b, len);
  Some (match r with inl _ => 0 | inr x => x end).

(** The comparison at the end of [strcmp] and [strncmp]. *)
Definition compare_at (a b : Z) : option Z :=
  x ← load8 m a; y ← load8 m b;
  Some (if y <? x then 1 else if x <? y then -1 else 0).

Definition strcmp (a b : Z) : option Z :=
  r ← (if ALIGNED_long a && ALIGNED_long b then
      loop fuel (fun '(a, b) =>
        x ← load64 m a; y ← load64 m b;
        Some (if negb (x =? y) then Break (a, b)
              else if truthy (LONG_NULL x) then Ret 0 else Cont (a + 8, b + 8))) (a, b)
    else Some (inl (a, b)));
  match r with
  | inr v => Some v
  | inl (a, b) =>
      r ← loop fuel (fun '(a, b) =>
            x ← load8 m a;
            if negb (truthy x) then Some (Break (a, b)) else
            y ← load8 m b;
            Some (if x =? y then Cont (a + 1, b + 1) else Break (a, b))) (a, b);
      compare_at (fell r).1 (fell r).2
  end.

Definition strncmp (a b len : Z) : option Z :=
  if len =? 0 then Some 0 else
  r ← (if ALIGNED_long a && ALIGNED_long b then
      loop fuel (fun '(a, b, len) =>
        if len <? 8 then Some (Break (a, b, len)) else
        x ← load64 m a; y ← load64 m b;
        if negb (x =? y) then Some (Break (a, b, len)) else
        let len := len - 8 in
        Some (if (len =? 0) || truthy (LONG_NULL x) then Ret 0 else Cont (a + 8, b + 8, len))) (a, b, len)
    else Some (inl (a, b, len)));
  match r with
  | inr v => Some v
  | inl (a, b, len) =>
      r ← loop fuel (fun '(a, b, len) =>
            if negb (0 <? len) then Some (Break (a, b, len)) else
            x ← load8 m a; y ← load8 m b;
            if negb (x =? y) then Some (Break (a, b, len - 1)) else
            let len := len - 1 in
            Some (if (len =? 0) || (x =? 0) then Ret 0 else Cont (a + 1, b + 1, len))) (a, b, len);
      match r with
      | inr v => Some v
      | inl (a, b, _) => compare_at a b
      end
  end.

(** ** strstr.c *)

Definition strstr (haystack needle : Z) : option Z :=
  len ← strlen needle;
  r ← loop fuel (fun h =>
        c ← load8 m h;
        if negb (truthy c) then Some (Ret 0) else
        d ← memcmp h needle len;
        Some (if d =? 0 then Ret h else Cont (h + 1))) haystack;
  Some (match r with inl _ => 0 | inr p => p end).
End funs.

(** ** ctype.h and strtoul.c

    A [char] is signed. *)
Definition isblank (c : Z) : bool := (c =? 32) || (c =? 9).
Definition isspace (c : Z) : bool :=
  isblank c || (c =? 10) || (c =? 11) || (c =? 12) || (c =? 13).
Definition islower (c : Z) : bool := (97 <=? c) && (c <=? 122).
Definition isupper (c : Z) : bool := (65 <=? c) && (c <=? 90).
Definition isdigit (c : Z) : bool := (48 <=? c) && (c <=? 57).
Definition tolower (c : Z) : Z := if isupper c then c + 32 else c.
Definition toupper (c : Z) : Z := if islower c then c - 32 else c.

Section strtoul.
Context (fuel : nat) (m : memory).

Definition char_at (p : Z) : option Z := swrap 8 <$> load8 m p.

(** The value of a digit, [None] when the conversion stops. *)
Definition digit_index (c base : Z) : option Z :=
  if isdigit c then (if c - 48 <? base then Some (c - 48) else None)
  else
    let i := u64 (toupper c) in
    if isupper i then (if i - 65 + 10 <? base then Some (i - 65 + 10) else None) else None.

(** The state is the position, the value, and whether a digit was converted
    and whether the value overflowed. *)
Definition strtoul_step (base : Z) (st : Z * Z * bool * bool) :
    option (ctl (Z * Z * bool * bool) Empty_set) :=
  let '(p, ret, converted, err) := st in
  c ← char_at p;
  if negb (truthy c) then Some (Break (p, ret, converted, err)) else
  match digit_index c base with
  | None => Some (Break (p, ret, converted, err))
  | Some i =>
      Some (if (ULONG_MAX - i) / base <? ret then Cont (p + 1, 0, converted, true)
            else Cont (p + 1, u64 (u64 (ret * base) + i), true, err))
  end.

Definition strtoul_digits (base p : Z) : option (Z * Z * bool * bool) :=
  fell <$> loop fuel (strtoul_step base) (p, 0, false, false).

(** The base and where the digits start; [None] inside is an invalid base. *)
Definition strtoul_base (base p : Z) : option (option (Z * Z)) :=
  r ← (if base =? 0 then
      c ← char_at p;
      if c =? 48 then
        c ← char_at (p + 1);
        Some (Some (if tolower c =? 120 then (16, p + 2) else (8, p + 1)))
      else Some (Some (10, p))
    else Some (if (base <? 2) || (36 <? base) then None else Some (base, p)));
  match r with
  | None => Some None
  | Some (base, p) =>
      p ← (if base =? 8 then c ← char_at p; Some (if c =? 48 then p + 1 else p) else Some p);
      p ← (if base =? 16 then
             c ← char_at p;
             if c =? 48 then
               c ← char_at (p + 1); Some (if tolower c =? 120 then p + 2 else p + 1)
             else Some p
           else Some p);
      Some (Some (base, p))
  end.

(** The value and what [end] receives. *)
Definition strtoul (str base : Z) : option (Z * Z) :=
  p ← fell <$> loop fuel (fun p => c ← char_at p;
        Some (if isspace c || (c =? 9) then Cont (p + 1) else Break p)) str;
  c ← char_at p;
  let negative := c =? 45 in
  let p := if (c =? 45) || (c =? 43) then p + 1 else p in
  b ← strtoul_base base p;
  '(p, ret, converted, err) ← (match b with
    | Some (base, p) => strtoul_digits base p
    | None => Some (p, 0, false, false)
    end);
  let stop := if negb converted && (ret =? 0) && truthy p then str else p in
  let ret := if err : bool then ULONG_MAX else ret in
  Some (if negative then u64 (ULONG_MAX - ret + 1) else ret, stop).
End strtoul.

(** ** Functions that store

    The result is the memory; the returned pointer is [dest]. *)
Section stores.
Context (fuel : nat).

(** [*d = *s] *)
Definition copy8 (m : memory) (d s : Z) : option memory := b ← load8 m s; store8 m d b.
Definition copy64 (m : memory) (d s : Z) : option memory := w ← load64 m s; store64 m d w.

(** [while (len-- > 0) *--d = *--s] *)
Definition copy_down (m : memory) (d s len : Z) : option memory :=
  (fun r => (fell r).1.1.1) <$> loop fuel (fun '(m, d, s, len) =>
    if negb (0 <? len) then Some (Break (m, d, s, len)) else
    m ← copy8 m (d - 1) (s - 1);
    Some (Cont (m, d - 1, s - 1, len - 1))) (m, d, s, len).

(** [while (len-- > 0) *d++ = *s++] *)
Definition copy_up (m : memory) (d s len : Z) : option memory :=
  (fun r => (fell r).1.1.1) <$> loop fuel (fun '(m, d, s, len) =>
    if negb (0 <? len) then Some (Break (m, d, s, len)) else
    m ← copy8 m d s;
    Some (Cont (m, d + 1, s + 1, len - 1))) (m, d, s, len).

Definition memmove (m : memory) (dest src len : Z) : option memory :=
  if (src <? dest) && (dest <? src + len) then copy_down m (dest + len) (src + len) len
  else
    '(m, d, s, len) ← (if (32 <=? len) && ALIGNED_long src && ALIGNED_long dest then
        '(m, d, s, len) ← fell <$> loop fuel (fun '(m, d, s, len) =>
          if len <? 32 then Some (Break (m, d, s, len)) else
          m ← copy64 m d s; m ← copy64 m (d + 8) (s + 8);
          m ← copy64 m (d + 16) (s + 16); m ← copy64 m (d + 24) (s + 24);
          Some (Cont (m, d + 32, s + 32, len - 32))) (m, dest, src, len);
        fell <$> loop fuel (fun '(m, d, s, len) =>
          if negb (8 <? len) then Some (Break (m, d, s, len)) else
          m ← copy64 m d s;
          Some (Cont (m, d + 8, s + 8, len - 8))) (m, d, s, len)
      else Some (m, dest, src, len));
    copy_up m d s len.

(** [while (( *dest++ = *src++));] *)
Definition copy_string (m : memory) (d s : Z) : option memory :=
  (fun r => (fell r).1.1) <$> loop fuel (fun '(m, d, s) =>
    b ← load8 m s;
    m ← store8 m d b;
    Some (if truthy b then Cont (m, d + 1, s + 1) else Break (m, d + 1, s + 1))) (m, d, s).

Definition strcpy (m : memory) (dest src : Z) : option memory :=
  '(m, d, s) ← (if ALIGNED src 8 && ALIGNED dest 8 then
      fell <$> loop fuel (fun '(m, d, s) =>
        w ← load64 m s;
        if truthy (LONG_NULL w) then Some (Break (m, d, s)) else
        m ← store64 m d w;
        Some (Cont (m, d + 8, s + 8))) (m, dest, src)
    else Some (m, dest, src));
  copy_string m d s.

Definition strncpy (m : memory) (dest src len : Z) : option memory :=
  '(m, d, s, len) ← (if ALIGNED src 8 && ALIGNED dest 8 then
      fell <$> loop fuel (fun '(m, d, s, len) =>
        if len <? 8 then Some (Break (m, d, s, len)) else
        w ← load64 m s;
        if truthy (LONG_NULL w) then Some (Break (m, d, s, len)) else
        m ← store64 m d w;
        Some (Cont (m, d + 8, s + 8, len - 8))) (m, dest, src, len)
    else Some (m, dest, src, len));
  '(m, d, _, len) ← fell <$> loop fuel (fun '(m, d, s, len) =>
      if negb (0 <? len) then Some (Break (m, d, s, len)) else
      b ← load8 m s;
      m ← store8 m d b;
      Some (if truthy b then Cont (m, d + 1, s + 1, len - 1) else Break (m, d + 1, s + 1, len - 1)))
      (m, d, s, len);
  (fun r => (fell r).1.1) <$> loop fuel (fun '(m, d, len) =>
      if negb (0 <? len) then Some (Break (m, d, len)) else
      m ← store8 m d 0;
      Some (Cont (m, d + 1, len - 1))) (m, d, len).

(** The end of the string at [dest]. *)
Definition string_end (m : memory) (dest : Z) : option Z :=
  d ← (if ALIGNED dest 8 then skip_words fuel m dest else Some dest);
  skip_bytes fuel m d.

Definition strcat (m : memory) (dest src : Z) : option memory :=
  d ← string_end m dest;
  strcpy m d src.

Definition strncat (m : memory) (dest src len : Z) : option memory :=
  d ← string_end m dest;
  (fun r => (fell r).1.1.1) <$> loop fuel (fun '(m, d, s, len) =>
    if negb (0 <? len) then Some (Break (m, d, s, len)) else
    b ← load8 m s;
    m ← store8 m d b;
    if negb (truthy b) then Some (Break (m, d + 1, s + 1, len - 1)) else
    m ← (if len - 1 =? 0 then store8 m (d + 1) 0 else Some m);
    Some (Cont (m, d + 1, s + 1, len - 1))) (m, d, src, len).

(** [ptr] is the address of the new block, 0 when the allocation failed. *)
Definition memcpy (m : memory) (dest src len : Z) : option memory :=
  l ← load_bytes m src (Z.to_nat len); store_bytes m dest l.

Definition strdup (m : memory) (str ptr : Z) : option (Z * memory) :=
  n ← strlen fuel m str;
  if ptr =? 0 then Some (0, m) else
  m ← memcpy m ptr str (n + 1);
  Some (ptr, m).

Definition strndup (m : memory) (str len ptr : Z) : option (Z * memory) :=
  n ← strlen fuel m str;
  let len := if n <? len then n else len in
  if ptr =? 0 then Some (0, m) else
  m ← memcpy m ptr str len;
  m ← store8 m (ptr + len) 0;
  Some (ptr, m).
End stores.

(** ** Eight bytes at a time *)

Lemma testbit_byte b y i :
  0 <= b < 256 -> Z.testbit (b + 256 * y) i = if i <? 8 then Z.testbit b i else Z.testbit y (i - 8).
Proof.
  intros Hb. destruct (Z.ltb_spec i 0) as [Hi|Hi].
  { rewrite !Z.testbit_neg_r by lia. by destruct (i <? 8). }
  destruct (Z.ltb_spec i 8).
  - rewrite <- (Z.mod_pow2_bits_low (b + 256 * y) 8) by lia. f_equal. change (2 ^ 8) with 256. divlia.
  - replace i with (i - 8 + 8) at 1 by lia. rewrite <- Z.div_pow2_bits by lia. f_equal.
    change (2 ^ 8) with 256. divlia.
Qed.

(** The word less one in every byte. *)
Definition ones (n : nat) : Z := le_val (replicate n 1).

Lemma ones_S n : ones (S n) = 1 + 256 * ones n.
Proof. done. Qed.

Lemma borrow_step b X O n :
  0 <= b < 256 ->
  (b + 256 * X - (1 + 256 * O)) mod 256 ^ Z.of_nat (S n) =
  if b =? 0 then 255 + 256 * ((X - O - 1) mod 256 ^ Z.of_nat n)
  else b - 1 + 256 * ((X - O) mod 256 ^ Z.of_nat n).
Proof.
  intros Hb. rewrite Nat2Z.inj_succ, Z.pow_succ_r by lia.
  set (B := 256 ^ Z.of_nat n). assert (0 < B) by (apply Z.pow_pos_nonneg; lia).
  destruct (Z.eqb_spec b 0) as [->|].
  - symmetry. apply (Z.mod_unique_pos _ _ ((X - O - 1) / B)).
    + pose proof (Z.mod_pos_bound (X - O - 1) B). lia.
    + pose proof (Z.div_mod (X - O - 1) B). lia.
  - symmetry. apply (Z.mod_unique_pos _ _ ((X - O) / B)).
    + pose proof (Z.mod_pos_bound (X - O) B). lia.
    + pose proof (Z.div_mod (X - O) B). lia.
Qed.

(** The top bit of byte [k]. *)
Abbreviation top k := (8 * Z.of_nat k + 7).

Lemma top_succ k : top (S k) - 8 = top k.
Proof. lia. Qed.

Lemma null_byte_found l :
  bytes_ok l -> 0 ∈ l ->
  exists k, (k < length l)%nat /\
    Z.testbit ((le_val l - ones (length l)) mod 256 ^ zlen l) (top k) = true /\
    Z.testbit (le_val l) (top k) = false.
Proof.
  induction 1 as [|b l Hb Hl IH]; intros Hin; [by apply elem_of_nil in Hin|].
  unfold zlen in *. cbn [length le_val]. rewrite ones_S, borrow_step by done.
  destruct (Z.eqb_spec b 0) as [->|Hb0].
  - exists 0%nat. split; [lia|]. rewrite !testbit_byte by lia. done.
  - apply elem_of_cons in Hin as [?|Hin]; [lia|]. destruct (IH Hin) as (k & Hk & H1 & H2).
    exists (S k). split; [lia|]. rewrite !testbit_byte by lia.
    destruct (Z.ltb_spec (top (S k)) 8); [lia|]. by rewrite top_succ.
Qed.

Lemma no_null_byte l k :
  bytes_ok l -> 0 ∉ l -> (k < length l)%nat ->
  Z.testbit ((le_val l - ones (length l)) mod 256 ^ zlen l) (top k) = true ->
  Z.testbit (le_val l) (top k) = true.
Proof.
  intros Hl. revert k. induction Hl as [|b l Hb Hl IH]; intros k Hin Hk; [simpl in Hk; lia|].
  apply not_elem_of_cons in Hin as [Hb0 Hin].
  unfold zlen in *. cbn [length le_val]. rewrite ones_S, borrow_step by done.
  destruct (Z.eqb_spec b 0) as [->|_]; [done|]. rewrite !testbit_byte by lia.
  destruct k as [|k].
  - change (top 0) with 7. cbn [Z.ltb Z.compare]. change (7 <? 8) with true. cbv iota. intros Ht.
    destruct (Z.ltb_spec b 128).
    + rewrite (testbit_high 7 (b - 1)) in Ht by (simpl; lia). done.
    + assert (Z.testbit b 7 = Z.testbit (b / 2 ^ 7) 0) as -> by (rewrite Z.div_pow2_bits by lia; done).
      replace (b / 2 ^ 7) with 1 by (simpl; divlia). done.
  - destruct (Z.ltb_spec (top (S k)) 8); [lia|]. rewrite top_succ. apply IH; [done|simpl in Hk; lia].
Qed.

Lemma top_mask i :
  Z.testbit 0x8080808080808080 i = true <-> exists k, (k < 8)%nat /\ i = top k.
Proof.
  split.
  - intros Ht. assert (0 <= i < 64) as Hi.
    { destruct (Z.ltb_spec i 0); [by rewrite Z.testbit_neg_r in Ht|].
      destruct (Z.ltb_spec i 64); [lia|]. by rewrite (testbit_high 64) in Ht. }
    assert (Hc : forallb (fun j => implb (Z.testbit 0x8080808080808080 j) (j mod 8 =? 7)) (seqZ 0 64) = true)
      by (vm_compute; reflexivity).
    rewrite forallb_forall in Hc. specialize (Hc i). rewrite Ht in Hc. cbn [implb] in Hc.
    exists (Z.to_nat (i / 8)). assert (i mod 8 = 7); [|divlia].
    apply Z.eqb_eq, Hc, list_elem_of_In, elem_of_seqZ. lia.
  - intros (k & Hk & ->).
    do 8 (destruct k as [|k]; [vm_compute; reflexivity|]). lia.
Qed.

Lemma nonzero_testbit x : 0 <= x -> x <> 0 -> exists i, 0 <= i /\ Z.testbit x i = true.
Proof.
  intros H0 Hx. exists (Z.log2 x). split; [apply Z.log2_nonneg|]. apply Z.bit_log2. lia.
Qed.

(** [LONG_NULL] is non-zero exactly on the words with a zero byte. *)
Lemma LONG_NULL_spec l :
  bytes_ok l -> length l = 8%nat -> truthy (LONG_NULL (le_val l)) = bool_decide (0 ∈ l).
Proof.
  intros Hl Hlen. pose proof (le_val_range l Hl) as Hr. unfold zlen in Hr. rewrite Hlen in Hr.
  change (256 ^ Z.of_nat 8) with (2 ^ 64) in Hr.
  assert (Hdiff : u64 (le_val l - 0x0101010101010101) = (le_val l - ones (length l)) mod 256 ^ zlen l).
  { unfold zlen. by rewrite Hlen. }
  assert (Hbit : forall k, (k < 8)%nat -> Z.testbit (LONG_NULL (le_val l)) (top k) =
    Z.testbit ((le_val l - ones (length l)) mod 256 ^ zlen l) (top k) && negb (Z.testbit (le_val l) (top k))).
  { intros k Hk. unfold LONG_NULL. rewrite Hdiff. autorewrite with cbits.
    rewrite (proj2 (top_mask (top k))) by eauto. destruct (Z.ltb_spec (top k) 64); [|lia].
    by rewrite andb_true_r. }
  destruct (bool_decide_reflect (0 ∈ l)) as [Hin|Hin].
  - destruct (null_byte_found l Hl Hin) as (k & Hk & H1 & H2). unfold truthy.
    destruct (Z.eqb_spec (LONG_NULL (le_val l)) 0) as [E|]; [|done].
    specialize (Hbit k ltac:(lia)). rewrite E, H1, H2, Z.testbit_0_l in Hbit. done.
  - unfold truthy. destruct (Z.eqb_spec (LONG_NULL (le_val l)) 0) as [|E]; [done|]. exfalso.
    destruct (nonzero_testbit (LONG_NULL (le_val l))) as (i & Hi & Ht); [|done|].
    { unfold LONG_NULL. apply Z.land_nonneg. left. apply Z.land_nonneg. left. apply (wrap_range 64). lia. }
    pose proof Ht as Ht'. unfold LONG_NULL in Ht'. rewrite Z.land_spec in Ht'.
    apply andb_true_iff in Ht' as [_ Hm]. apply top_mask in Hm as (k & Hk & ->).
    rewrite Hbit in Ht by done. apply andb_true_iff in Ht as [H1 H2]. apply negb_true_iff in H2.
    rewrite (no_null_byte l k Hl Hin) in H2; [done|lia|done].
Qed.

(** [LONG_CHAR] with the broadcast byte. *)
Lemma char_mask_val ch : 0 <= ch < 256 -> char_mask ch = le_val (replicate 8 ch).
Proof.
  intros Hc. assert (Hall : forallb (fun c => char_mask c =? le_val (replicate 8 c)) (seqZ 0 256) = true)
    by (vm_compute; reflexivity).
  rewrite forallb_forall in Hall. apply Z.eqb_eq, Hall, list_elem_of_In, elem_of_seqZ. lia.
Qed.

Lemma lxor_byte b c x y :
  0 <= b < 256 -> 0 <= c < 256 -> Z.lxor (b + 256 * x) (c + 256 * y) = Z.lxor b c + 256 * Z.lxor x y.
Proof.
  intros Hb Hc. apply Z.bits_inj'. intros i Hi.
  pose proof (lxor_bound 8 b c ltac:(lia) Hb Hc). rewrite Z.lxor_spec, !testbit_byte by done.
  destruct (i <? 8); by rewrite Z.lxor_spec.
Qed.

Lemma lxor_bytes l c :
  bytes_ok l -> 0 <= c < 256 ->
  Z.lxor (le_val l) (le_val (replicate (length l) c)) = le_val ((fun b => Z.lxor b c) <$> l).
Proof.
  intros Hl Hc. induction Hl as [|b l Hb Hl IH]; [done|].
  cbn [length replicate le_val fmap list_fmap]. by rewrite lxor_byte, IH.
Qed.

Lemma LONG_CHAR_spec l ch :
  bytes_ok l -> length l = 8%nat -> 0 <= ch < 256 ->
  truthy (LONG_CHAR (le_val l) (char_mask ch)) = bool_decide (ch ∈ l).
Proof.
  intros Hl Hlen Hc. unfold LONG_CHAR. rewrite char_mask_val, <- Hlen, lxor_bytes by done.
  rewrite LONG_NULL_spec by (rewrite ?length_fmap; auto;
    apply Forall_fmap, (Forall_impl _ _ _ Hl); intros b Hb; by apply (lxor_bound 8); [lia|..]).
  apply bool_decide_ext. rewrite list_elem_of_fmap. split.
  - intros (b & Hb & Hin). symmetry in Hb. apply Z.lxor_eq in Hb. by subst.
  - intros Hin. exists ch. by rewrite Z.lxor_nilpotent.
Qed.

(** ** Scanning for a byte *)

Section scan.
Context (m : memory).

(** Memory holds bytes, and is mapped or not by whole aligned words, as it is
    by pages. *)
Definition mem_ok : Prop :=
  (forall a b, m !! a = Some b -> 0 <= b < 256) /\
  (forall a a', is_Some (m !! a) -> a / 8 = a' / 8 -> is_Some (m !! a')).

Lemma load_bytes_spec n a :
  (forall j, a <= j < a + Z.of_nat n -> is_Some (m !! j)) ->
  exists l, load_bytes m a n = Some l /\ length l = n /\
    forall j, (j < n)%nat -> m !! (a + Z.of_nat j) = l !! j.
Proof.
  revert a. induction n as [|n IH]; intros a Ha; [exists []; split_and!; auto; lia|].
  destruct (Ha a) as [b Hb]; [lia|]. destruct (IH (a + 1)) as (l & Hl & Hlen & Hj).
  { intros j Hj. apply Ha. lia. }
  exists (b :: l). cbn [load_bytes]. unfold load8. rewrite Hb. orun. rewrite Hl. orun.
  split; [done|]. split; [simpl; lia|]. intros [|j] Hjn.
  - by rewrite Z.add_0_r.
  - simpl. rewrite <- Hj by lia. f_equal. lia.
Qed.

Lemma ALIGNED_8 p : ALIGNED p 8 = (p mod 8 =? 0).
Proof.
  unfold ALIGNED. change (u64 (8 - 1)) with (Z.ones 3). rewrite Z.land_ones by lia. unfold wrap.
  change (2 ^ 3) with 8. f_equal. change (2 ^ 64) with (2 ^ 61 * 8). 
  rewrite Z.rem_mul_r by lia. divlia.
Qed.

Lemma load64_aligned p :
  mem_ok -> is_Some (m !! p) -> p mod 8 = 0 ->
  exists l, load64 m p = Some (le_val l) /\ length l = 8%nat /\ bytes_ok l /\
    forall j, 0 <= j < 8 -> m !! (p + j) = l !! Z.to_nat j.
Proof.
  intros [Hbytes Hwords] Hp Hal. destruct (load_bytes_spec 8 p) as (l & Hl & Hlen & Hj).
  { intros j Hj. apply (Hwords p); [done|]. divlia. }
  exists l. unfold load64. rewrite Hl. split_and!; auto.
  - apply Forall_lookup_2. intros i b Hb. apply (Hbytes (p + Z.of_nat i)).
    rewrite Hj; [done|]. apply lookup_lt_Some in Hb. lia.
  - intros j Hj8. rewrite <- Hj by lia. f_equal. lia.
Qed.

Context (stop : Z -> bool) (s N : Z).

(** The first byte that stops is at offset [N]. *)
Definition scan_ok : Prop :=
  0 <= N /\ forall k, 0 <= k <= N -> exists b, m !! (s + k) = Some b /\ stop b = (k =? N).

Definition at_stop {R} (o : Z -> Z -> Z + R) (r : option (Z + R)) : Prop :=
  exists b, m !! (s + N) = Some b /\ stop b = true /\ r = Some (o (s + N) b).

Definition leave {R} (o : Z + R) : ctl Z R := match o with inl x => Break x | inr r => Ret r end.

Lemma byte_loop {R} (body : Z -> option (ctl Z R)) (o : Z -> Z -> Z + R) k fuel :
  scan_ok -> 0 <= k <= N -> N - k < Z.of_nat fuel ->
  (forall j b, k <= j <= N -> m !! (s + j) = Some b ->
     body (s + j) = Some (if stop b then leave (o (s + j) b) else Cont (s + j + 1))) ->
  at_stop o (loop fuel body (s + k)).
Proof.
  intros [HN Hscan] Hk Hf Hbody.
  destruct (loop_inv body (fun p => exists j, k <= j <= N /\ p = s + j) (fun p => Z.to_nat (s + N - p))
    (fun x => at_stop o (Some x))) with (fuel := fuel) (s := s + k) as (x & -> & Hx); [|exists k; split_and!; auto; lia|lia|done].
  intros p (j & Hj & ->). destruct (Hscan j) as (b & Hb & Hs); [lia|]. rewrite (Hbody j b) by done.
  eexists. split; [done|]. rewrite Hs. destruct (Z.eqb_spec j N) as [->|].
  - assert (at_stop o (Some (o (s + N) b))) by (exists b; auto). unfold leave. destruct (o (s + N) b); done.
  - split; [exists (j + 1); lia|lia].
Qed.

(** The loop up to the first aligned address. *)
Lemma align_loop {R} (body : Z -> option (ctl Z R)) (o : Z -> Z -> Z + R) k fuel :
  scan_ok -> 0 <= k <= N -> N - k < Z.of_nat fuel ->
  (forall j b, k <= j <= N -> m !! (s + j) = Some b ->
     body (s + j) = Some (if ALIGNED (s + j) 8 then Break (s + j)
       else if stop b then leave (o (s + j) b) else Cont (s + j + 1))) ->
  at_stop o (loop fuel body (s + k)) \/
  exists j, k <= j <= N /\ (s + j) mod 8 = 0 /\ loop fuel body (s + k) = Some (inl (s + j)).
Proof.
  intros [HN Hscan] Hk Hf Hbody.
  destruct (loop_inv body (fun p => exists j, k <= j <= N /\ p = s + j) (fun p => Z.to_nat (s + N - p))
    (fun x => at_stop o (Some x) \/ exists j, k <= j <= N /\ (s + j) mod 8 = 0 /\ x = inl (s + j)))
    with (fuel := fuel) (s := s + k) as (x & -> & Hx); [|exists k; split_and!; auto; lia|lia|].
  2: { destruct Hx as [?|(j & ? & ? & ->)]; [by left|right; eauto]. }
  intros p (j & Hj & ->). destruct (Hscan j) as (b & Hb & Hs); [lia|]. rewrite (Hbody j b) by done.
  eexists. split; [done|]. rewrite ALIGNED_8. destruct (Z.eqb_spec ((s + j) mod 8) 0); [right; eauto|].
  rewrite Hs. destruct (Z.eqb_spec j N) as [->|].
  - assert (at_stop o (Some (o (s + N) b))) by (exists b; auto). unfold leave. destruct (o (s + N) b); by left.
  - split; [exists (j + 1); lia|lia].
Qed.

(** The loop over words stays in front of the byte that stops. *)
Lemma word_loop {R} (body : Z -> option (ctl Z R)) (test : Z -> bool) k fuel :
  mem_ok -> scan_ok -> 0 <= k <= N -> (s + k) mod 8 = 0 -> N - k < Z.of_nat fuel ->
  (forall l, bytes_ok l -> length l = 8%nat -> test (le_val l) = true -> Forall (fun b => stop b = false) l) ->
  (forall p w, load64 m p = Some w -> body p = Some (if test w then Cont (p + 8) else Break p)) ->
  exists j, k <= j <= N /\ (s + j) mod 8 = 0 /\ loop fuel body (s + k) = Some (inl (s + j)).
Proof.
  intros Hm [HN Hscan] Hk Hal Hf Htest Hbody.
  destruct (loop_inv body (fun p => exists j, k <= j <= N /\ (s + j) mod 8 = 0 /\ p = s + j)
    (fun p => Z.to_nat (s + N - p)) (fun x => exists j, k <= j <= N /\ (s + j) mod 8 = 0 /\ x = inl (s + j)))
    with (fuel := fuel) (s := s + k) as (x & -> & j & Hj & Hja & ->); [|exists k; split_and!; auto; lia|lia|by exists j].
  intros p (j & Hj & Hja & ->). destruct (Hscan j) as (b & Hb & Hs); [lia|].
  destruct (load64_aligned (s + j) Hm) as (l & Hl & Hlen & Hbytes & Hat); [by exists b|done|].
  rewrite (Hbody _ _ Hl). eexists. split; [done|].
  destruct (test (le_val l)) eqn:Et; [|by exists j].
  assert (j + 8 <= N) as Hle.
  { destruct (Z.ltb_spec N (j + 8)); [|lia]. destruct (Hscan N) as (c & Hc & Hcs); [lia|].
    rewrite Z.eqb_refl in Hcs. replace (s + N) with (s + j + (N - j)) in Hc by lia.
    rewrite Hat in Hc by lia. specialize (Htest l Hbytes Hlen Et). rewrite Forall_lookup in Htest.
    rewrite (Htest _ _ Hc) in Hcs. done. }
  split; [|lia]. exists (j + 8). split; [lia|]. split; [|lia].
  replace (s + (j + 8)) with (s + j + 1 * 8) by lia. by rewrite Z_mod_plus_full.
Qed.
End scan.

(** ** Strings *)

(** The bytes [str], none of them zero, and a terminator are stored at [s]. *)
Definition cstr (m : memory) (s : Z) (str : list Z) : Prop :=
  Forall (fun b => 0 < b < 256) str /\
  forall k, 0 <= k <= zlen str -> m !! (s + k) = (str ++ [0]) !! Z.to_nat k.

(** The offset of the first [ch], or of the terminator. *)
Definition find_offset (ch : Z) (str : list Z) : Z :=
  match list_find (fun b => b = ch) str with Some (i, _) => Z.of_nat i | None => zlen str end.

Lemma cstr_byte m s str k :
  cstr m s str -> 0 <= k < zlen str -> exists b, m !! (s + k) = Some b /\ str !! Z.to_nat k = Some b /\ 0 < b < 256.
Proof.
  intros [Hb Hat] Hk. unfold zlen in *. destruct (lookup_lt_is_Some_2 str (Z.to_nat k)) as [b E]; [lia|].
  exists b. rewrite Hat, lookup_app_l by lia. rewrite Forall_lookup in Hb. eauto.
Qed.

Lemma cstr_end m s str : cstr m s str -> m !! (s + zlen str) = Some 0.
Proof.
  intros [_ Hat]. pose proof (zlen_nonneg str). rewrite Hat by lia. unfold zlen. rewrite Nat2Z.id.
  by apply list_lookup_middle.
Qed.

Lemma find_offset_range ch str : 0 <= find_offset ch str <= zlen str.
Proof.
  unfold find_offset. pose proof (zlen_nonneg str). destruct (list_find _ str) as [[i b]|] eqn:E; [|lia].
  apply list_find_Some in E as (Hi & _). apply lookup_lt_Some in Hi. unfold zlen. lia.
Qed.

Lemma scan_string m s str ch :
  cstr m s str -> scan_ok m (fun b => (b =? 0) || (b =? ch)) s (find_offset ch str).
Proof.
  intros Hs. split; [apply find_offset_range|]. intros k Hk. pose proof (find_offset_range ch str) as Hr.
  unfold find_offset in *. destruct (list_find _ str) as [[i b]|] eqn:E.
  - apply list_find_Some in E as (Hi & -> & Hmin). pose proof (lookup_lt_Some _ _ _ Hi).
    destruct (cstr_byte m s str k Hs) as (c & Hc & Hk' & Hpos); [unfold zlen in *; lia|].
    exists c. split; [done|]. destruct (Z.eqb_spec c 0); [lia|]. simpl.
    destruct (Z.eqb_spec c ch) as [->|Hne], (Z.eqb_spec k (Z.of_nat i)) as [->|]; auto.
    + exfalso. apply (Hmin (Z.to_nat k) ch Hk'); [lia|done].
    + rewrite Nat2Z.id in Hk'. congruence.
  - apply list_find_None in E. destruct (Z.eqb_spec k (zlen str)) as [->|].
    + exists 0. split; [by apply cstr_end|done].
    + destruct (cstr_byte m s str k Hs) as (c & Hc & Hk' & Hpos); [lia|]. exists c. split; [done|].
      destruct (Z.eqb_spec c 0); [lia|]. simpl. apply Z.eqb_neq. rewrite Forall_lookup in E. by eapply E.
Qed.

Lemma find_offset_0 str : Forall (fun b => 0 < b < 256) str -> find_offset 0 str = zlen str.
Proof.
  intros Hb. unfold find_offset. destruct (list_find _ str) as [[i b]|] eqn:E; [|done].
  apply list_find_Some in E as (Hi & -> & _). rewrite Forall_lookup in Hb. specialize (Hb _ _ Hi). lia.
Qed.

Lemma scan_end m s str : cstr m s str -> scan_ok m (fun b => b =? 0) s (zlen str).
Proof.
  intros Hs. pose proof (scan_string m s str 0 Hs) as [H1 H2]. rewrite find_offset_0 in * by apply Hs.
  split; [done|]. intros k Hk. destruct (H2 k Hk) as (b & Hb & E). exists b. split; [done|].
  rewrite <- E. by destruct (b =? 0).
Qed.

Lemma skip_words_spec fuel m s str k :
  mem_ok m -> cstr m s str -> 0 <= k <= zlen str -> (s + k) mod 8 = 0 -> zlen str - k < Z.of_nat fuel ->
  exists j, k <= j <= zlen str /\ skip_words fuel m (s + k) = Some (s + j).
Proof.
  intros Hm Hs Hk Hal Hf. unfold skip_words. pose proof (scan_end m s str Hs) as Hscan.
  destruct (word_loop (R := Empty_set) m (fun b => b =? 0) s (zlen str)
    (fun p => w ← load64 m p; Some (if truthy (LONG_NULL w) then Break p else Cont (p + 8)))
    (fun w => negb (truthy (LONG_NULL w))) k fuel) as (j & Hj & _ & ->); auto.
  - intros l Hl Hlen Ht. rewrite LONG_NULL_spec in Ht by done. apply negb_true_iff, bool_decide_eq_false in Ht.
    apply Forall_forall. intros b Hb. apply Z.eqb_neq. by intros ->.
  - intros p w ->. orun. by destruct (truthy (LONG_NULL w)).
  - by exists j.
Qed.

Lemma skip_bytes_spec fuel m s str k :
  cstr m s str -> 0 <= k <= zlen str -> zlen str - k < Z.of_nat fuel ->
  skip_bytes fuel m (s + k) = Some (s + zlen str).
Proof.
  intros Hs Hk Hf. unfold skip_bytes. pose proof (scan_end m s str Hs) as Hscan.
  destruct (byte_loop m (fun b => b =? 0) s (zlen str)
    (fun p => c ← load8 m p; Some (if truthy c then Cont (p + 1) else Break p))
    (fun p _ => inl p : Z + Empty_set) k fuel) as (b & _ & _ & ->); auto.
  intros j b _ Hb. unfold load8. rewrite Hb. orun. unfold truthy. by destruct (b =? 0).
Qed.

(** [strlen] is the length. *)
Lemma strlen_spec fuel m s str :
  cstr m s str -> 0 < s -> s + zlen str < 2 ^ 64 -> zlen str < Z.of_nat fuel ->
  strlen fuel m s = Some (zlen str).
Proof.
  intros Hs Hpos Htop Hf. unfold strlen. pose proof (scan_end m s str Hs) as Hscan. pose proof (zlen_nonneg str).
  destruct (byte_loop m (fun b => b =? 0) s (zlen str)
    (fun p => if ALIGNED_long p then Some (Break p) else
        c ← load8 m p; Some (if truthy c then Cont (p + 1) else Ret (p - s)))
    (fun p _ => inr (p - s) : Z + Z) 0 fuel) as (b & _ & _ & E); auto; [lia|lia| |].
  - intros j b Hj Hb. unfold ALIGNED_long. rewrite (wrap_small 64 (s + j)) by lia.
    change (u64 (-1)) with (Z.ones 64). rewrite Z.land_ones, Z.mod_small by lia.
    destruct (Z.eqb_spec (s + j) 0); [lia|]. unfold load8. rewrite Hb. orun. unfold truthy. by destruct (b =? 0).
  - rewrite Z.add_0_r in E. rewrite E. orun. f_equal. lia.
Qed.

Lemma found_at_stop m s str ch b :
  cstr m s str -> ch <> 0 -> m !! (s + find_offset ch str) = Some b -> (b =? 0) || (b =? ch) = true ->
  (if b =? 0 then 0 else s + find_offset ch str) =
  (if bool_decide (ch ∈ str) then s + find_offset ch str else 0).
Proof.
  intros Hs Hne Hb Hst. case_bool_decide as Hin.
  - destruct (Z.eqb_spec b 0) as [->|]; [|done]. exfalso. unfold find_offset in Hb.
    destruct (list_find _ str) as [[i x]|] eqn:E.
    + apply list_find_Some in E as (Hi & -> & _). pose proof (lookup_lt_Some _ _ _ Hi).
      destruct (cstr_byte m s str (Z.of_nat i) Hs) as (y & Hy & _ & Hpos); [unfold zlen; lia|].
      rewrite Hb in Hy. injection Hy as <-. lia.
    + apply list_find_None in E. rewrite Forall_forall in E. by apply (E ch).
  - unfold find_offset in *. destruct (list_find _ str) as [[i x]|] eqn:E.
    + apply list_find_Some in E as (Hi & -> & _). destruct Hin. by apply list_elem_of_lookup_2 with i.
    + rewrite (cstr_end m s str Hs) in Hb. injection Hb as <-. done.
Qed.

(** [strchr], which skips aligned words that hold neither the character nor
    the terminator, returns the first occurrence of the character in the
    string, the terminator when that is asked for, and NULL when there is none;
    it ends after at most as many rounds as the string has bytes. *)
Theorem strchr_correct fuel m s str c :
  mem_ok m -> cstr m s str -> zlen str < Z.of_nat fuel ->
  strchr fuel m s c = Some
    (if u8 c =? 0 then s + zlen str
     else if bool_decide (u8 c ∈ str) then s + find_offset (u8 c) str else 0).
Proof.
  intros Hm Hs Hf. pose proof (zlen_nonneg str). pose proof (wrap_range 8 c ltac:(lia)) as Hc.
  unfold strchr. set (ch := u8 c) in *. destruct (Z.eqb_spec ch 0) as [E0|Hne].
  - destruct (align_loop m (fun b => b =? 0) s (zlen str)
      (fun p => if ALIGNED p 8 then Some (Break p) else
        b ← load8 m p; Some (if truthy b then Cont (p + 1) else Ret p))
      (fun p _ => inr p : Z + Z) 0 fuel (scan_end m s str Hs)) as [(b & _ & _ & E)|(j & Hj & Ha & E)]; [lia|lia| | |].
    + intros j b Hj Hb. unfold load8. rewrite Hb. orun. unfold truthy. by destruct (ALIGNED _ _), (b =? 0).
    + rewrite Z.add_0_r in E. rewrite E. done.
    + rewrite Z.add_0_r in E. rewrite E. orun.
      destruct (skip_words_spec fuel m s str j) as (j' & Hj' & ->); auto; [lia|]. orun.
      rewrite (skip_bytes_spec fuel m s str j'); auto; lia.
  - pose proof (scan_string m s str ch Hs) as Hscan. pose proof (find_offset_range ch str) as Hr.
    destruct (align_loop m (fun b => (b =? 0) || (b =? ch)) s (find_offset ch str)
      (fun p => if ALIGNED p 8 then Some (Break p) else
        b ← load8 m p;
        Some (if negb (truthy b) then Ret 0 else if b =? ch then Ret p else Cont (p + 1)))
      (fun p b => inr (if b =? 0 then 0 else p) : Z + Z) 0 fuel Hscan) as [(b & Hb & Hst & E)|(j & Hj & Ha & E)]; [lia|lia| | |];
      try rewrite Z.add_0_r in E.
    + intros j b Hj Hb. unfold load8. rewrite Hb. orun. unfold truthy.
      destruct (ALIGNED _ _), (Z.eqb_spec b 0); simpl; [done..|]. by destruct (b =? ch).
    + rewrite E. orun. f_equal. by apply (found_at_stop m s str ch b).
    + rewrite E. orun.
      destruct (word_loop (R := Empty_set) m (fun b => (b =? 0) || (b =? ch)) s (find_offset ch str)
        (fun p => w ← load64 m p;
          Some (if negb (truthy (LONG_NULL w)) && negb (truthy (LONG_CHAR w (char_mask ch)))
                then Cont (p + 8) else Break p))
        (fun w => negb (truthy (LONG_NULL w)) && negb (truthy (LONG_CHAR w (char_mask ch)))) j fuel)
        as (j' & Hj' & _ & ->); [done|done|lia|done|lia| | |].
      { intros l Hl Hlen Ht. rewrite LONG_NULL_spec, LONG_CHAR_spec in Ht by done.
        apply andb_true_iff in Ht as [H1 H2]. apply negb_true_iff, bool_decide_eq_false in H1, H2.
        apply Forall_forall. intros b Hb. apply orb_false_iff. rewrite !Z.eqb_neq. split; by intros ->. }
      { intros p w ->. done. }
      cbn [fmap option_fmap option_map fell]. orun.
      destruct (byte_loop m (fun b => (b =? 0) || (b =? ch)) s (find_offset ch str)
        (fun p => b ← load8 m p; Some (if truthy b && negb (b =? ch) then Cont (p + 1) else Break p))
        (fun p _ => inl p : Z + Empty_set) j' fuel) as (b & Hb & Hst & ->); [done|lia|lia| |].
      { intros i b Hi Hb. unfold load8. rewrite Hb. orun. unfold truthy. by destruct (b =? 0), (b =? ch). }
      cbn [fmap option_fmap option_map fell]. orun. unfold load8. rewrite Hb. orun. f_equal.
      rewrite <- (found_at_stop m s str ch b) by done.
      destruct (Z.eqb_spec b ch), (Z.eqb_spec b 0); simpl in Hst; congruence.
Qed.

(** ** Copying *)

Definition bytes_in (m : memory) : Prop := forall a b, m !! a = Some b -> 0 <= b < 256.

Definition mapped (m : memory) (a len : Z) : Prop := forall j, a <= j < a + len -> is_Some (m !! j).

(** [m'] is [m] with the bytes of [m] at [src] copied to the [n] addresses from
    [dest + k] on. *)
Definition copied (m : memory) (dest src k n : Z) (m' : memory) : Prop :=
  forall a, m' !! a = if (dest + k <=? a) && (a <? dest + k + n) then m !! (src + (a - dest)) else m !! a.

Lemma copy8_spec m0 dest src k n m i :
  bytes_in m0 -> copied m0 dest src k n m -> is_Some (m0 !! (src + i)) -> is_Some (m0 !! (dest + i)) ->
  (src + i < dest + k \/ dest + k + n <= src + i) -> 0 <= n -> (i = k - 1 \/ i = k + n) ->
  exists m', copy8 m (dest + i) (src + i) = Some m' /\ copied m0 dest src (Z.min k i) (n + 1) m'.
Proof.
  intros Hb Hm [b Hs] [d Hd] Hout Hn Hi. unfold copy8, load8, store8.
  assert (m !! (src + i) = Some b) as ->.
  { rewrite Hm. rewrite (proj2 (andb_false_iff _ _)); [done|]. rewrite Z.leb_gt, Z.ltb_ge. lia. }
  orun. assert (m !! (dest + i) = Some d) as ->.
  { rewrite Hm. rewrite (proj2 (andb_false_iff _ _)); [done|]. rewrite Z.leb_gt, Z.ltb_ge. lia. }
  eexists. split; [done|]. intros a. rewrite (wrap_small 8 b) by (by apply (Hb _ _ Hs)).
  destruct (decide (dest + i = a)) as [<-|Hne].
  - rewrite lookup_insert_eq. rewrite (proj2 (andb_true_iff _ _)) by (rewrite Z.leb_le, Z.ltb_lt; lia).
    rewrite <- Hs. f_equal. lia.
  - rewrite lookup_insert_ne, Hm by done.
    destruct (Z.leb_spec (dest + k) a), (Z.ltb_spec a (dest + k + n)),
      (Z.leb_spec (dest + Z.min k i) a), (Z.ltb_spec a (dest + Z.min k i + (n + 1))); simpl; try done; lia.
Qed.

Lemma copied_none m dest src k : copied m dest src k 0 m.
Proof. intros a. by destruct (Z.leb_spec (dest + k) a), (Z.ltb_spec a (dest + k + 0)); try lia. Qed.

Lemma copy_up_spec fuel m dest src len :
  bytes_in m -> mapped m src len -> mapped m dest len -> 0 <= len < Z.of_nat fuel ->
  (dest <= src \/ src + len <= dest) ->
  exists m', copy_up fuel m dest src len = Some m' /\ copied m dest src 0 len m'.
Proof.
  intros Hb Hs Hd Hf Hdir. unfold copy_up.
  destruct (loop_inv (R := Empty_set) (fun '(m, d, s, len) =>
      if negb (0 <? len) then Some (Break (m, d, s, len)) else
      m ← copy8 m d s; Some (Cont (m, d + 1, s + 1, len - 1)))
    (fun '(m1, d, s, l) => exists n, 0 <= n <= len /\ l = len - n /\ d = dest + n /\ s = src + n /\ copied m dest src 0 n m1)
    (fun '(_, _, _, l) => Z.to_nat l)
    (fun x => copied m dest src 0 len (fell x).1.1.1)) with (fuel := fuel) (s := (m, dest, src, len))
    as (x & -> & Hx); [| |lia|by eexists].
  - intros [[[m1 d] s] l] (n & Hn & -> & -> & -> & Hc). destruct (Z.ltb_spec 0 (len - n)) as [Hl|Hl]; cbn [negb].
    + destruct (copy8_spec m dest src 0 n m1 n) as (m2 & -> & Hc2); auto;
        [apply Hs; lia|apply Hd; lia|lia|lia|]. orun.
      eexists. split; [done|]. split; [|lia]. exists (n + 1).
      replace (Z.min 0 n) with 0 in Hc2 by lia. split_and!; try lia; done.
    + eexists. split; [done|]. replace n with len in Hc by lia. done.
  - exists 0. split_and!; try lia. apply copied_none.
Qed.

Lemma copy_down_spec fuel m dest src len :
  bytes_in m -> mapped m src len -> mapped m dest len -> 0 <= len < Z.of_nat fuel -> src < dest ->
  exists m', copy_down fuel m (dest + len) (src + len) len = Some m' /\ copied m dest src 0 len m'.
Proof.
  intros Hb Hs Hd Hf Hdir. unfold copy_down.
  destruct (loop_inv (R := Empty_set) (fun '(m, d, s, len) =>
      if negb (0 <? len) then Some (Break (m, d, s, len)) else
      m ← copy8 m (d - 1) (s - 1); Some (Cont (m, d - 1, s - 1, len - 1)))
    (fun '(m1, d, s, l) => 0 <= l <= len /\ d = dest + l /\ s = src + l /\ copied m dest src l (len - l) m1)
    (fun '(_, _, _, l) => Z.to_nat l)
    (fun x => copied m dest src 0 len (fell x).1.1.1)) with (fuel := fuel) (s := (m, dest + len, src + len, len))
    as (x & -> & Hx); [| |lia|by eexists].
  - intros [[[m1 d] s] l] (Hl & -> & -> & Hc). destruct (Z.ltb_spec 0 l) as [Hl0|Hl0]; cbn [negb].
    + replace (dest + l - 1) with (dest + (l - 1)) by lia. replace (src + l - 1) with (src + (l - 1)) by lia.
      destruct (copy8_spec m dest src l (len - l) m1 (l - 1)) as (m2 & -> & Hc2); auto;
        [apply Hs; lia|apply Hd; lia|lia|lia|]. orun.
      eexists. split; [done|]. split; [|lia]. replace (Z.min l (l - 1)) with (l - 1) in Hc2 by lia.
      replace (len - (l - 1)) with (len - l + 1) by lia. split_and!; try lia; done.
    + eexists. split; [done|]. replace l with 0 in Hc by lia. by rewrite Z.sub_0_r in Hc.
  - rewrite Z.sub_diag. split_and!; try lia. apply copied_none.
Qed.

Lemma not_aligned_long a : 0 < a < 2 ^ 64 -> ALIGNED_long a = false.
Proof.
  intros Ha. unfold ALIGNED_long. rewrite (wrap_small 64 a) by lia. change (u64 (-1)) with (Z.ones 64).
  rewrite Z.land_ones, Z.mod_small by lia. apply Z.eqb_neq. lia.
Qed.

(** [memmove] copies the source as it was before the call, however the two
    regions overlap, touches nothing else, and returns. *)
Theorem memmove_correct fuel m dest src len :
  bytes_in m -> mapped m src len -> mapped m dest len -> 0 <= len < Z.of_nat fuel ->
  0 < src < 2 ^ 64 -> 0 < dest < 2 ^ 64 ->
  exists m', memmove fuel m dest src len = Some m' /\
    forall a, m' !! a = if (dest <=? a) && (a <? dest + len) then m !! (src + (a - dest)) else m !! a.
Proof.
  intros Hb Hs Hd Hf Hsrc Hdest.
  assert (Hfin : (exists m', memmove fuel m dest src len = Some m' /\ copied m dest src 0 len m') ->
    exists m', memmove fuel m dest src len = Some m' /\
    forall a, m' !! a = if (dest <=? a) && (a <? dest + len) then m !! (src + (a - dest)) else m !! a).
  { intros (m' & E & Hc). exists m'. split; [done|]. intros a. rewrite Hc. by rewrite !Z.add_0_r. }
  apply Hfin. unfold memmove.
  destruct (Z.ltb_spec src dest), (Z.ltb_spec dest (src + len)); cbn [andb];
    rewrite ?(not_aligned_long src Hsrc), ?andb_false_r; cbn [andb]; orun.
  - by apply copy_down_spec.
  - apply copy_up_spec; auto; lia.
  - apply copy_up_spec; auto; lia.
  - apply copy_up_spec; auto; lia.
Qed.

Lemma le_bytes_le_val l : bytes_ok l -> le_bytes (length l) (le_val l) = l.
Proof.
  induction 1 as [|b l Hb Hl IH]; [done|]. cbn [length le_val le_bytes]. f_equal.
  - unfold wrap. change (2 ^ 8) with 256. divlia.
  - rewrite Z.shiftr_div_pow2 by lia. replace ((b + 256 * le_val l) / 2 ^ 8) with (le_val l); [done|].
    change (2 ^ 8) with 256. divlia.
Qed.

Lemma store_bytes_spec l : forall m a,
  bytes_ok l -> mapped m a (zlen l) ->
  exists m', store_bytes m a l = Some m' /\
    forall x, m' !! x = if (a <=? x) && (x <? a + zlen l) then l !! Z.to_nat (x - a) else m !! x.
Proof.
  induction l as [|b l IH]; intros m a Hl Hm.
  { exists m. split; [done|]. intros x. unfold zlen. simpl. zcases; simpl; try done; lia. }
  apply Forall_cons in Hl as [Hb Hl]. unfold zlen in *. cbn [length] in *. cbn [store_bytes]. unfold store8.
  destruct (Hm a) as [c Hc]; [lia|]. rewrite Hc. orun. rewrite (wrap_small 8 b) by done.
  destruct (IH (<[a := b]> m) (a + 1)) as (m' & -> & Hx); auto.
  { intros j Hj. rewrite lookup_insert_is_Some'. right. apply Hm. lia. }
  exists m'. split; [done|]. intros x. rewrite Hx. destruct (decide (a = x)) as [<-|].
  - rewrite lookup_insert_eq, Z.sub_diag. zcases; simpl; try done; lia.
  - rewrite lookup_insert_ne by done. zcases; simpl; try done; try lia.
    replace (Z.to_nat (x - a)) with (S (Z.to_nat (x - (a + 1)))) by lia. done.
Qed.

Section strcpy.
Context (m : memory) (dest src : Z) (str : list Z).
Context (Hm : mem_ok m) (Hs : cstr m src str) (Hd : mapped m dest (zlen str + 1)).
Context (Hdis : dest + zlen str < src \/ src + zlen str < dest).

(** [n] bytes are copied. *)
Definition so_far (n : Z) (m1 : memory) : Prop := 0 <= n <= zlen str /\ copied m dest src 0 n m1.

Lemma so_far_src n m1 k : so_far n m1 -> 0 <= k <= zlen str -> m1 !! (src + k) = m !! (src + k).
Proof.
  intros [Hn Hc] Hk. rewrite Hc. rewrite (proj2 (andb_false_iff _ _)); [done|]. rewrite Z.leb_gt, Z.ltb_ge. lia.
Qed.

Lemma src_byte k : 0 <= k <= zlen str -> exists b, m !! (src + k) = Some b /\ 0 <= b < 256.
Proof.
  intros Hk. destruct (Z.eq_dec k (zlen str)) as [->|].
  - exists 0. split; [by apply cstr_end|lia].
  - destruct (cstr_byte m src str k Hs) as (b & ? & _ & ?); [lia|]. exists b. split; [done|lia].
Qed.

Lemma so_far_mem n m1 : so_far n m1 -> mem_ok m1 /\ forall a, is_Some (m1 !! a) <-> is_Some (m !! a).
Proof.
  intros [Hn Hc].
  assert (Hdom : forall a, is_Some (m1 !! a) <-> is_Some (m !! a)).
  { intros a. rewrite Hc. destruct (Z.leb_spec (dest + 0) a), (Z.ltb_spec a (dest + 0 + n)); simpl; try done.
    destruct (src_byte (a - dest)) as (b & -> & _); [lia|].
    split; [intros _; apply Hd; lia|by eexists]. }
  destruct Hm as [Hb Hw]. split; [|done]. split.
  - intros a b Ha. rewrite Hc in Ha. destruct (_ && _); by eapply Hb.
  - intros a a' Ha E. apply Hdom, (Hw a); [|done]. by apply Hdom.
Qed.

(** Storing the bytes [l] of the source behind what is copied. *)
Lemma so_far_store n m1 l m2 :
  so_far n m1 -> n + zlen l <= zlen str -> (forall j, 0 <= j < zlen l -> l !! Z.to_nat j = m !! (src + n + j)) ->
  (forall x, m2 !! x = if (dest + n <=? x) && (x <? dest + n + zlen l) then l !! Z.to_nat (x - (dest + n)) else m1 !! x) ->
  so_far (n + zlen l) m2.
Proof.
  intros [Hn Hc] Hl Hj Hx. pose proof (zlen_nonneg l). split; [lia|]. intros a. rewrite Hx, Hc.
  destruct (Z.leb_spec (dest + n) a), (Z.ltb_spec a (dest + n + zlen l)), (Z.leb_spec (dest + 0) a),
    (Z.ltb_spec a (dest + 0 + n)), (Z.ltb_spec a (dest + 0 + (n + zlen l))); simpl; try done; try lia.
  rewrite Hj by lia. f_equal. lia.
Qed.

Lemma strcpy_words fuel :
  (src mod 8 = 0) -> zlen str < Z.of_nat fuel ->
  exists n m1, so_far n m1 /\
    loop (R := Empty_set) fuel (fun '(m, d, s) =>
        w ← load64 m s;
        if truthy (LONG_NULL w) then Some (Break (m, d, s)) else
        m ← store64 m d w;
        Some (Cont (m, d + 8, s + 8))) (m, dest, src) = Some (inl (m1, dest + n, src + n)).
Proof.
  intros Hal Hf.
  match goal with |- exists n m1, _ /\ loop fuel ?body _ = _ =>
    destruct (loop_inv body
      (fun '(m1, d, s) => exists n, so_far n m1 /\ n mod 8 = 0 /\ d = dest + n /\ s = src + n)
      (fun '(_, _, s) => Z.to_nat (src + zlen str - s))
      (fun x => exists n m1, so_far n m1 /\ x = inl (m1, dest + n, src + n)))
      with (fuel := fuel) (s := (m, dest, src)) as (x & -> & n & m1 & Hso & ->) end; [| | |by exists n, m1].
  - intros [[m1 d] s] (n & Hso & Hmod & -> & ->). pose proof Hso as [Hn Hc].
    destruct (so_far_mem n m1 Hso) as [Hm1 Hdom].
    destruct (load64_aligned m1 (src + n) Hm1) as (l & -> & Hlen & Hbytes & Hat).
    { rewrite (so_far_src n) by (done || lia). destruct (src_byte n) as (b & -> & _); [lia|by eexists]. }
    { rewrite Z.add_mod, Hal, Hmod by lia. done. }
    orun. rewrite LONG_NULL_spec by done. case_bool_decide as Hz; [eexists; split; [done|]; by exists n, m1|].
    assert (n + 8 <= zlen str) as Hle.
    { destruct (Z.ltb_spec (zlen str) (n + 8)); [|lia]. destruct Hz.
      apply list_elem_of_lookup_2 with (Z.to_nat (zlen str - n)). rewrite <- Hat by lia.
      replace (src + n + (zlen str - n)) with (src + zlen str) by lia.
      rewrite (so_far_src n) by (done || lia). by apply cstr_end. }
    unfold store64. replace 8%nat with (length l). rewrite le_bytes_le_val by done.
    assert (zlen l = 8) as Hzl by (unfold zlen; lia).
    destruct (store_bytes_spec l m1 (dest + n)) as (m2 & -> & Hx); [done| |].
    { intros j Hj. apply Hdom, Hd. lia. }
    orun. eexists. split; [done|]. split; [|lia]. exists (n + 8). rewrite <- Hzl at 1. split; [|split_and!; try lia].
    + apply (so_far_store n m1 l); auto; [lia|]. intros j Hj. rewrite <- Hat by lia.
      replace (src + n + j) with (src + (n + j)) by lia. apply (so_far_src n); [done|lia].
    + rewrite Z.add_mod, Hmod by lia. done.
  - exists 0. pose proof (zlen_nonneg str). split; [split; [lia|apply copied_none]|]. split_and!; try lia. done.
  - pose proof (zlen_nonneg str). lia.
Qed.

Lemma copy_string_spec fuel n m1 :
  so_far n m1 -> zlen str < Z.of_nat fuel ->
  exists m', copy_string fuel m1 (dest + n) (src + n) = Some m' /\ copied m dest src 0 (zlen str + 1) m'.
Proof.
  intros Hso0 Hf. unfold copy_string.
  match goal with |- exists m', _ <$> loop fuel ?body _ = _ /\ _ =>
    destruct (loop_inv body
      (fun '(m1, d, s) => exists n, so_far n m1 /\ d = dest + n /\ s = src + n)
      (fun '(_, _, s) => Z.to_nat (src + zlen str - s))
      (fun x => copied m dest src 0 (zlen str + 1) (fell x).1.1))
      with (fuel := fuel) (s := (m1, dest + n, src + n)) as (x & -> & Hx) end; [|by exists n| |by eexists].
  - clear dependent m1 n. intros [[m1 d] s] (n & Hso & -> & ->). pose proof Hso as [Hn Hc].
    destruct (src_byte n) as (b & Hb & Hr); [lia|]. unfold load8. rewrite (so_far_src n), Hb by (done || lia). orun.
    destruct (so_far_mem n m1 Hso) as [_ Hdom]. unfold store8. rewrite (wrap_small 8 b) by done.
    destruct (proj2 (Hdom (dest + n))) as [c ->]; [apply Hd; lia|]. orun. eexists. split; [done|].
    unfold truthy. destruct (Z.eqb_spec b 0) as [->|Hb0]; cbn [negb].
    + assert (n = zlen str) as ->.
      { destruct (Z.eq_dec n (zlen str)); [done|].
        destruct (cstr_byte m src str n Hs) as (y & Hy & _ & Hpos); [lia|]. rewrite Hb in Hy. injection Hy as <-. lia. }
      simpl. intros a. destruct (decide (dest + zlen str = a)) as [<-|].
      * rewrite lookup_insert_eq. zcases; simpl; try lia. rewrite <- Hb. f_equal. lia.
      * rewrite lookup_insert_ne, Hc by done. zcases; simpl; try done; lia.
    + assert (n <> zlen str) by (intros ->; rewrite (cstr_end m src str Hs) in Hb; congruence).
      split; [|lia]. exists (n + 1). split_and!; try lia.
      apply (so_far_store n m1 [b]); auto; [change (zlen [b]) with 1; lia|..]; change (zlen [b]) with 1.
      * intros j Hj. replace j with 0 by lia. rewrite Z.add_0_r. by rewrite Hb.
      * intros x. destruct (decide (dest + n = x)) as [<-|].
        -- rewrite lookup_insert_eq, Z.sub_diag. zcases; simpl; try done; lia.
        -- rewrite lookup_insert_ne by done. zcases; simpl; try done; lia.
  - destruct Hso0. lia.
Qed.
End strcpy.

(** [strcpy], by words when both addresses are aligned and by bytes
    otherwise, stores the string and its terminator at the destination and
    changes nothing else. *)
Theorem strcpy_correct fuel m dest src str :
  mem_ok m -> cstr m src str -> mapped m dest (zlen str + 1) ->
  (dest + zlen str < src \/ src + zlen str < dest) -> zlen str < Z.of_nat fuel ->
  exists m', strcpy fuel m dest src = Some m' /\ cstr m' dest str /\
    forall a, ~ (dest <= a <= dest + zlen str) -> m' !! a = m !! a.
Proof.
  intros Hm Hs Hd Hdis Hf.
  assert (exists m', strcpy fuel m dest src = Some m' /\ copied m dest src 0 (zlen str + 1) m') as (m' & E & Hc).
  { assert (Hbytes : exists m', copy_string fuel m dest src = Some m' /\ copied m dest src 0 (zlen str + 1) m').
    { destruct (copy_string_spec m dest src str Hm Hs Hd Hdis fuel 0 m) as (m' & E & Hc); [|done|].
      - pose proof (zlen_nonneg str). split; [lia|apply copied_none].
      - rewrite !Z.add_0_r in E. eauto. }
    unfold strcpy. rewrite !ALIGNED_8. destruct (Z.eqb_spec (src mod 8) 0), (dest mod 8 =? 0); cbn [andb]; orun.
    1: { destruct (strcpy_words m dest src str Hm Hs Hd Hdis fuel) as (n & m1 & Hso & ->); [done|done|].
         cbn [fmap option_fmap option_map fell]. orun. by apply copy_string_spec. }
    all: exact Hbytes. }
  exists m'. split; [done|]. split.
  - split; [apply Hs|]. intros k Hk. rewrite <- (proj2 Hs k Hk), Hc. zcases; simpl; try lia. f_equal. lia.
  - intros a Ha. rewrite Hc. zcases; simpl; try done; lia.
Qed.

(** ** Comparing *)

(** The order of strings by their bytes. *)
Fixpoint lex (a b : list Z) : Z :=
  match a, b with
  | [], [] => 0
  | [], _ => -1
  | _, [] => 1
  | x :: a, y :: b => if x =? y then lex a b else if y <? x then 1 else -1
  end.

Lemma cstr_tail m p x str : cstr m p (x :: str) -> m !! p = Some x /\ 0 < x < 256 /\ cstr m (p + 1) str.
Proof.
  intros [Hb Hat]. apply Forall_cons in Hb as [Hx Hb]. rewrite zlen_cons in Hat. pose proof (zlen_nonneg str).
  split; [|split; [done|split; [done|]]].
  - specialize (Hat 0). rewrite Z.add_0_r in Hat. apply Hat. lia.
  - intros k Hk. replace (p + 1 + k) with (p + (k + 1)) by lia. rewrite Hat by lia.
    replace (Z.to_nat (k + 1)) with (S (Z.to_nat k)) by lia. done.
Qed.

Lemma cstr_nil m p : cstr m p [] -> m !! p = Some 0.
Proof. intros H. apply cstr_end in H. by rewrite Z.add_0_r in H. Qed.

(** [strcmp] returns the sign of the comparison of the two strings by
    unsigned bytes. *)
Theorem strcmp_correct fuel m p q a b :
  cstr m p a -> cstr m q b -> 0 < p < 2 ^ 64 -> zlen a < Z.of_nat fuel ->
  strcmp fuel m p q = Some (lex a b).
Proof.
  intros Ha Hb Hp Hf. unfold strcmp. rewrite (not_aligned_long p Hp). cbn [andb]. orun. clear Hp.
  match goal with |- context [loop fuel ?f _] => set (body := f) end.
  assert (Hbody : forall p q, body (p, q) =
    (x ← load8 m p;
     if negb (truthy x) then Some (Break (p, q)) else
     y ← load8 m q;
     Some (if x =? y then Cont (p + 1, q + 1) else Break (p, q)))) by done.
  clearbody body.
  enough (exists p' q', loop fuel body (p, q) = Some (inl (p', q')) /\ compare_at m p' q' = Some (lex a b))
    as (p' & q' & -> & Hcmp) by exact Hcmp.
  revert fuel p q b Ha Hb Hf. induction a as [|x a IH]; intros [|fuel] p q b Ha Hb Hf;
    try (unfold zlen in Hf; simpl in Hf; lia); cbn [loop]; rewrite Hbody; unfold load8.
  - rewrite (cstr_nil m p Ha). orun. exists p, q. split; [done|]. unfold compare_at, load8.
    rewrite (cstr_nil m p Ha). orun. destruct b as [|y b].
    + by rewrite (cstr_nil m q Hb).
    + destruct (cstr_tail m q y b Hb) as (-> & Hy & _). orun. simpl. destruct (Z.ltb_spec y 0), (Z.ltb_spec 0 y); try lia. done.
  - destruct (cstr_tail m p x a Ha) as (Hx & Hxr & Ha'). rewrite Hx. orun. unfold truthy.
    destruct (Z.eqb_spec x 0); [lia|]. cbn [negb]. destruct b as [|y b].
    + rewrite (cstr_nil m q Hb). orun. destruct (Z.eqb_spec x 0); [lia|]. exists p, q. split; [done|].
      unfold compare_at, load8. rewrite Hx, (cstr_nil m q Hb). orun. simpl.
      destruct (Z.ltb_spec 0 x); [done|lia].
    + destruct (cstr_tail m q y b Hb) as (Hy & Hyr & Hb'). rewrite Hy. orun. cbn [lex].
      destruct (Z.eqb_spec x y) as [->|Hne].
      * rewrite zlen_cons in Hf. apply IH; auto. lia.
      * exists p, q. split; [done|]. unfold compare_at, load8. rewrite Hx, Hy. orun.
        destruct (Z.ltb_spec y x), (Z.ltb_spec x y); try lia; done.
Qed.

(** ** Numbers *)

(** The number a list of decimal digits stands for. *)
Definition decimal (l : list Z) : Z := foldl (fun v d => v * 10 + d) 0 l.
Definition digit_chars (l : list Z) : list Z := (fun d => d + 48) <$> l.

Lemma decimal_from v l : 0 <= v -> Forall (fun d => 0 <= d < 10) l -> v <= foldl (fun v d => v * 10 + d) v l.
Proof.
  intros Hv Hl. revert v Hv. induction Hl as [|d l Hd Hl IH]; intros v Hv; simpl; [lia|].
  transitivity (v * 10 + d); [lia|]. apply IH. lia.
Qed.

Lemma char_at_digit m p d : 0 <= d < 10 -> m !! p = Some (d + 48) -> char_at m p = Some (d + 48).
Proof.
  intros Hd Hp. unfold char_at, load8. rewrite Hp. simpl. f_equal. unfold swrap.
  rewrite Z.mod_small by lia. destruct (Z.ltb_spec (d + 48) (2 ^ (8 - 1))); lia.
Qed.

Lemma digit_index_10 d : 0 <= d < 10 -> digit_index (d + 48) 10 = Some d.
Proof.
  intros Hd. unfold digit_index, isdigit. rewrite (proj2 (Z.leb_le _ _)), (proj2 (Z.leb_le _ _)) by lia. simpl.
  destruct (Z.ltb_spec (d + 48 - 48) 10); [|lia]. f_equal. lia.
Qed.

(** The digits, from a value that is below the limit or after an overflow. *)
Lemma strtoul_digits_spec m l : forall fuel p v conv err,
  Forall (fun d => 0 <= d < 10) l -> cstr m p (digit_chars l) -> zlen l < Z.of_nat fuel -> 0 <= v <= ULONG_MAX ->
  exists r, loop fuel (strtoul_step m 10) (p, v, conv, err) = Some (inl (p + zlen l, r.1.1, r.1.2, r.2)) /\
    (r.1.2 = conv || negb (bool_decide (l = [])) \/ r.2 = true) /\
    (err = true -> r.2 = true) /\
    (err = false ->
      (foldl (fun v d => v * 10 + d) v l <= ULONG_MAX -> r.1.1 = foldl (fun v d => v * 10 + d) v l /\ r.2 = false) /\
      (ULONG_MAX < foldl (fun v d => v * 10 + d) v l -> r.2 = true)) /\
    (conv = true -> r.1.2 = true).
Proof.
  induction l as [|d l IH]; intros [|fuel] p v conv err Hl Hs Hf Hv; try (unfold zlen in Hf; simpl in Hf; lia); cbn [loop].
  - unfold strtoul_step. assert (char_at m p = Some 0) as -> by (unfold char_at, load8; by rewrite (cstr_nil m p Hs)). orun.
    exists (v, conv, err). change (zlen []) with 0. rewrite Z.add_0_r. cbn [fst snd foldl].
    rewrite bool_decide_eq_true_2, orb_false_r by done. split_and!; auto. intros ->. split; [auto|lia].
  - apply Forall_cons in Hl as [Hd Hl]. destruct (cstr_tail m p (d + 48) (digit_chars l) Hs) as (Hp & _ & Hs').
    assert (Hstep : strtoul_step m 10 (p, v, conv, err) =
      Some (if (ULONG_MAX - d) / 10 <? v then Cont (p + 1, 0, conv, true)
            else Cont (p + 1, u64 (u64 (v * 10) + d), true, err))).
    { unfold strtoul_step. rewrite (char_at_digit m p d Hd Hp). orun. unfold truthy at 1.
      destruct (Z.eqb_spec (d + 48) 0); [lia|]. cbn [negb]. by rewrite digit_index_10. }
    rewrite Hstep. rewrite zlen_cons in *. cbn [foldl].
    destruct (Z.ltb_spec ((ULONG_MAX - d) / 10) v) as [Hov|Hfit].
    + assert (ULONG_MAX < v * 10 + d) by divlia. orun.
      destruct (IH fuel (p + 1) 0 conv true Hl Hs') as (r & -> & _ & He & _ & Hcv); [lia|lia|].
      exists r. specialize (He eq_refl). split; [do 5 f_equal; lia|]. split; [by right|]. split; [done|]. split; [|done].
      intros _. pose proof (decimal_from (v * 10 + d) l ltac:(lia) Hl). split; [lia|done].
    + assert (v * 10 + d <= ULONG_MAX) by divlia. orun.
      rewrite (wrap_small 64 (v * 10)), (wrap_small 64 (v * 10 + d)) by lia.
      destruct (IH fuel (p + 1) (v * 10 + d) true err Hl Hs') as (r & -> & _ & He & Hn & Hcv); [lia|lia|].
      exists r. split; [do 5 f_equal; lia|]. rewrite (Hcv eq_refl). split_and!; auto.
      left. rewrite bool_decide_eq_false_2 by done. by rewrite orb_true_r.
Qed.

(** A first digit is converted. *)
Lemma strtoul_converted m fuel p d l :
  0 <= d < 10 -> Forall (fun d => 0 <= d < 10) l -> cstr m p (digit_chars (d :: l)) -> zlen (d :: l) < Z.of_nat fuel ->
  forall v conv err, loop fuel (strtoul_step m 10) (p, 0, false, false) = Some (inl (p + zlen (d :: l), v, conv, err)) ->
  conv = true.
Proof.
  intros Hd Hl Hs Hf v conv err Hloop. destruct fuel as [|fuel]; [done|]. cbn [loop] in Hloop.
  destruct (cstr_tail m p (d + 48) (digit_chars l) Hs) as (Hp & _ & Hs').
  assert (strtoul_step m 10 (p, 0, false, false) = Some (Cont (p + 1, d, true, false))) as E.
  { unfold strtoul_step. rewrite (char_at_digit m p d Hd Hp). orun. unfold truthy.
    destruct (Z.eqb_spec (d + 48) 0); [lia|]. cbn [negb]. rewrite digit_index_10 by done.
    destruct (Z.ltb_spec ((ULONG_MAX - d) / 10) 0); [divlia|]. by rewrite !wrap_small by (rewrite ?wrap_small; lia). }
  rewrite E in Hloop. orunin Hloop. rewrite zlen_cons in Hf.
  destruct (strtoul_digits_spec m l fuel (p + 1) d true false Hl Hs') as (r & Hr & _ & _ & _ & Hc); [lia|lia|].
  rewrite Hr in Hloop. injection Hloop as _ _ <- _. auto.
Qed.

(** Converting the decimal digits of a number gives the number, or the
    largest [unsigned long] when it is too large, and the end of the digits. *)
Lemma strtoul_decimal fuel m p l :
  Forall (fun d => 0 <= d < 10) l -> l <> [] -> cstr m p (digit_chars l) -> 0 < p ->
  zlen l < Z.of_nat fuel ->
  strtoul fuel m p 10 = Some (Z.min (decimal l) ULONG_MAX, p + zlen l).
Proof.
  intros Hl Hne Hs Hp Hf.
  destruct (strtoul_digits_spec m l fuel p 0 false false Hl Hs Hf) as (r & Hloop & Hconv & _ & Hval & _); [lia|].
  destruct Hval as [Hfit Hover]; [done|]. fold (decimal l) in Hfit, Hover.
  destruct l as [|d l]; [done|]. destruct fuel as [|fuel]; [unfold zlen in Hf; simpl in Hf; lia|].
  destruct (cstr_tail m p (d + 48) (digit_chars l) Hs) as (Hd & _ & _). inversion_clear Hl as [|? ? Hdr Hl'].
  assert (Hc : char_at m p = Some (d + 48)) by (by apply char_at_digit).
  unfold strtoul. cbn [loop]. rewrite Hc. orun. unfold isspace, isblank.
  assert (forall k, k < 48 \/ 57 < k -> (d + 48 =? k) = false) as Hk by (intros k ?; apply Z.eqb_neq; lia).
  rewrite !Hk by lia. cbn [orb fmap option_fmap option_map fell]. orun. rewrite Hc. orun. rewrite !Hk by lia.
  cbn [orb]. change (strtoul_base m 10 p) with (Some (Some (10, p))). orun.
  unfold strtoul_digits. rewrite Hloop. cbn [fmap option_fmap option_map fell]. orun.
  destruct r as [[v conv] err]. cbn [fst snd] in *. pose proof (zlen_nonneg (d :: l)).
  destruct (Z.leb_spec (decimal (d :: l)) ULONG_MAX) as [Hle|Hgt].
  - destruct (Hfit Hle) as [-> ->]. destruct Hconv as [->|?]; [|done].
    rewrite bool_decide_eq_false_2 by done. cbn [orb negb andb]. do 2 f_equal. lia.
  - rewrite (Hover Hgt) in *. rewrite Z.min_r by lia. f_equal. f_equal.
    destruct (negb conv && (v =? 0) && truthy (p + zlen (d :: l))) eqn:E; [|done].
    exfalso. apply andb_true_iff in E as [E _]. apply andb_true_iff in E as [E _]. apply negb_true_iff in E.
    pose proof (strtoul_converted m (S fuel) p d l Hdr Hl' Hs Hf _ _ _ Hloop). congruence.
Qed.

(** ** Concrete memories *)

Fixpoint mem_of (a : Z) (l : list Z) : memory :=
  match l with [] => ∅ | b :: l => <[a := b]> (mem_of (a + 1) l) end.

Lemma mem_of_lookup l : forall a x,
  mem_of a l !! x = if (a <=? x) && (x <? a + zlen l) then l !! Z.to_nat (x - a) else None.
Proof.
  induction l as [|b l IH]; intros a x; cbn [mem_of].
  - rewrite lookup_empty. change (zlen []) with 0. zcases; simpl; try done; lia.
  - rewrite zlen_cons. pose proof (zlen_nonneg l). destruct (decide (a = x)) as [<-|].
    + rewrite lookup_insert_eq, Z.sub_diag. zcases; simpl; try done; lia.
    + rewrite lookup_insert_ne, IH by done. zcases; simpl; try done; try lia.
      replace (Z.to_nat (x - a)) with (S (Z.to_nat (x - (a + 1)))) by lia. done.
Qed.

Lemma mem_of_cstr a str rest :
  Forall (fun b => 0 < b < 256) str -> cstr (mem_of a (str ++ 0 :: rest)) a str.
Proof.
  intros Hs. split; [done|]. intros k Hk. rewrite mem_of_lookup, zlen_app, zlen_cons.
  pose proof (zlen_nonneg rest). zcases; simpl; try lia. replace (a + k - a) with k by lia.
  unfold zlen in Hk. destruct (decide (Z.to_nat k < length str)%nat).
  - by rewrite !lookup_app_l by done.
  - replace (Z.to_nat k) with (length str) by lia. by rewrite !list_lookup_middle.
Qed.

Lemma mem_of_ok a l : bytes_ok l -> a mod 8 = 0 -> zlen l mod 8 = 0 -> mem_ok (mem_of a l).
Proof.
  intros Hl Ha Hz. split.
  - intros x b. rewrite mem_of_lookup. destruct (_ && _); [|done]. intros Hb.
    exact (Forall_lookup_1 _ _ _ _ Hl Hb).
  - intros x y [b Hb] E. rewrite mem_of_lookup in *.
    destruct (Z.leb_spec a x), (Z.ltb_spec x (a + zlen l)); simpl in Hb; try done.
    assert (a <= y < a + zlen l) as Hy by divlia.
    zcases; simpl; try lia. apply lookup_lt_is_Some. unfold zlen in Hy. lia.
Qed.

(** The string "hello, world" at an unaligned address. *)
Definition hello : list Z := [104; 101; 108; 108; 111; 44; 32; 119; 111; 114; 108; 100].
Definition demo_mem : memory := mem_of 64 ([1; 2; 3] ++ hello ++ [0] ++ replicate 16 7).

Lemma demo_mem_ok : mem_ok demo_mem.
Proof. apply mem_of_ok; [|done..]. unfold bytes_ok, hello. simpl. repeat constructor; done. Qed.

Lemma demo_cstr : cstr demo_mem 67 hello.
Proof.
  split; [unfold hello; repeat constructor; done|]. intros k Hk. unfold demo_mem. rewrite mem_of_lookup.
  change (zlen hello) with 12 in Hk. change (zlen ([1; 2; 3] ++ hello ++ [0] ++ replicate 16 7)) with 32.
  zcases; simpl andb; cbv iota; try lia. replace (Z.to_nat (67 + k - 64)) with (3 + Z.to_nat k)%nat by lia.
  assert (Z.to_nat k < 13)%nat as Hk' by lia. revert Hk'. generalize (Z.to_nat k) as j. intros j Hj.
  do 13 (destruct j as [|j]; [reflexivity|]). lia.
Qed.

Lemma strchr_correct_witness :
  strchr 20 demo_mem 67 119 = Some (67 + find_offset 119 hello) /\ find_offset 119 hello = 7.
Proof.
  split; [|reflexivity]. rewrite (strchr_correct 20 demo_mem 67 hello 119); [reflexivity|..].
  - exact demo_mem_ok.
  - exact demo_cstr.
  - reflexivity.
Defined.

Lemma strcpy_correct_witness :
  exists m', strcpy 20 demo_mem 80 67 = Some m' /\ cstr m' 80 hello /\
    forall a, ~ (80 <= a <= 92) -> m' !! a = demo_mem !! a.
Proof.
  apply (strcpy_correct 20 demo_mem 80 67 hello).
  - exact demo_mem_ok.
  - exact demo_cstr.
  - intros j Hj. change (zlen hello) with 12 in Hj. unfold demo_mem. rewrite mem_of_lookup.
    change (zlen ([1; 2; 3] ++ hello ++ [0] ++ replicate 16 7)) with 32.
    destruct (Z.leb_spec 64 j), (Z.ltb_spec j (64 + 32)); try lia. cbn [andb].
    apply lookup_lt_is_Some. change (length _) with 32%nat. lia.
  - right. reflexivity.
  - reflexivity.
Defined.

Lemma memmove_correct_witness :
  exists m', memmove 20 demo_mem 66 64 12 = Some m' /\
    forall a, m' !! a = if (66 <=? a) && (a <? 66 + 12) then demo_mem !! (64 + (a - 66)) else demo_mem !! a.
Proof.
  assert (Hmap : forall a n, 64 <= a -> a + n <= 96 -> mapped demo_mem a n).
  { intros a n Ha Hn j Hj. unfold demo_mem. rewrite mem_of_lookup.
    change (zlen ([1; 2; 3] ++ hello ++ [0] ++ replicate 16 7)) with 32.
    destruct (Z.leb_spec 64 j), (Z.ltb_spec j (64 + 32)); try lia. cbn [andb].
    apply lookup_lt_is_Some. change (length _) with 32%nat. lia. }
  apply (memmove_correct 20 demo_mem 66 64 12).
  - exact (proj1 demo_mem_ok).
  - apply Hmap; lia.
  - apply Hmap; lia.
  - lia.
  - lia.
  - lia.
Defined.

Lemma strcmp_correct_witness : strcmp 20 demo_mem 67 67 = Some (lex hello hello).
Proof.
  apply (strcmp_correct 20 demo_mem 67 67 hello hello); [exact demo_cstr|exact demo_cstr|lia|reflexivity].
Defined.

Definition demo_digits : list Z := [4; 0; 9; 6].

Lemma strtoul_decimal_witness :
  strtoul 20 (mem_of 64 (digit_chars demo_digits ++ [0])) 64 10 = Some (4096, 68).
Proof.
  apply (strtoul_decimal 20 (mem_of 64 (digit_chars demo_digits ++ [0])) 64 demo_digits).
  - repeat constructor; lia.
  - discriminate.
  - apply mem_of_cstr. repeat constructor; lia.
  - lia.
  - reflexivity.
Defined.

(** ** Defects *)

(** With base 0 the number "0" counts as no number: the end is the start. *)
Lemma strtoul_zero_unconverted : strtoul 20 (mem_of 64 [48; 0]) 64 0 = Some (0, 64).
Proof. vm_compute. reflexivity. Qed.

(** [ALIGNED] with a type name as its size is never true, so [strlen] looks at
    every byte: words are never used. *)
Lemma strlen_never_by_words : Forall (fun a => ALIGNED_long a = false) (seqZ 1 4096).
Proof. apply Forall_forall. intros a Ha. apply elem_of_seqZ in Ha. apply not_aligned_long. lia. Qed.

(** The empty string is not found in the empty string. *)
Lemma strstr_empty : strstr 20 (mem_of 64 [0]) 64 64 = Some 0.
Proof. vm_compute. reflexivity. Qed.
End CString.
