(* ===== verification/Printf.v ===== *)
(** * Formatted output (util/printf.c)

    Module [Printf]: the conversion of numbers and strings, the interpretation
    of format strings and the functions built on them. Characters go through an
    output function, which writes to a buffer with a limit or to a terminal; the
    model has it as an argument with its own state. The theorems compare the
    code with a formatter that returns the text as a list, and that formatter
    with the conversions of the C standard. *)

From Stdlib Require Ascii String.
From S2P Require Import Prelude CBits Hash HashMap CString.
Import String.StringSyntax.
Delimit Scope string_scope with string.

Module Printf.
Import CString.

Definition INTEGER_BUFFER_SIZE : Z := 32.

Definition PRINTF_FLAG_PAD_ZERO : Z := Z.shiftl 1 0.
Definition PRINTF_FLAG_LEFT : Z := Z.shiftl 1 1.
Definition PRINTF_FLAG_PLUS : Z := Z.shiftl 1 2.
Definition PRINTF_FLAG_SPACE : Z := Z.shiftl 1 3.
Definition PRINTF_FLAG_SPECIAL : Z := Z.shiftl 1 4.
Definition PRINTF_FLAG_UPCASE : Z := Z.shiftl 1 5.
Definition PRINTF_FLAG_CHAR : Z := Z.shiftl 1 6.
Definition PRINTF_FLAG_SHORT : Z := Z.shiftl 1 7.
Definition PRINTF_FLAG_LONG : Z := Z.shiftl 1 8.
Definition PRINTF_FLAG_PREC : Z := Z.shiftl 1 9.

(** [flags & f] as a condition. *)
Definition has (flags f : Z) : bool := truthy (Z.land flags f).

(** ** Integer buffers: the array and the number of characters in it *)

Abbreviation numbuf := (list Z * Z)%type.

(** [input[len++] = c] *)
Definition put (b : numbuf) (c : Z) : option numbuf :=
  input ← (b.1).[b.2 <- c]; Some (input, b.2 + 1).

(** [while (len < bound && len < INTEGER_BUFFER_SIZE) input[len++] = '0'] *)
Fixpoint put_zeros (fuel : nat) (b : numbuf) (bound : Z) : option numbuf :=
  if (b.2 <? bound) && (b.2 <? INTEGER_BUFFER_SIZE) then
    match fuel with
    | O => None
    | S fuel => b ← put b 48; put_zeros fuel b bound
    end
  else Some b.

(** The digits of [print_long], from the lowest on. *)
Definition digit_char (digit flags : Z) : Z :=
  if digit <? 10 then digit + 48 else (if has flags PRINTF_FLAG_UPCASE then 65 else 97) + digit - 10.

Fixpoint put_digits (fuel : nat) (flags base value : Z) (b : numbuf) : option numbuf :=
  match fuel with
  | O => None
  | S fuel =>
      b ← put b (digit_char (value mod base) flags);
      let value := value / base in
      if truthy value && (b.2 <? INTEGER_BUFFER_SIZE) then put_digits fuel flags base value b else Some b
  end.

Definition empty_numbuf : numbuf := (replicate 32 0, 0).

(** Leading zeros for the precision and the width, and the width that is left. *)
Definition fill_digits (b : numbuf) (negative : bool) (prec width flags : Z) : option (numbuf * Z) :=
  if negb (has flags PRINTF_FLAG_LEFT) then
    let width := if truthy width && has flags PRINTF_FLAG_PAD_ZERO
        && (negative || has flags (Z.lor PRINTF_FLAG_PLUS PRINTF_FLAG_SPACE)) then width - 1 else width in
    b ← put_zeros 32 b prec;
    b ← (if has flags PRINTF_FLAG_PAD_ZERO then put_zeros 32 b width else Some b);
    Some (b, width)
  else Some (b, width).

(** The prefix for [#]. *)
Definition put_special (b : numbuf) (base prec width flags : Z) : option numbuf :=
  if has flags PRINTF_FLAG_SPECIAL then
    let b := if negb (has flags PRINTF_FLAG_PREC) && truthy b.2 && ((b.2 =? prec) || (b.2 =? width)) then
        let len := b.2 - 1 in
        (b.1, if truthy len && (base =? 16) then len - 1 else len)
      else b in
    if b.2 <? INTEGER_BUFFER_SIZE then
      b ← (if base =? 16 then put b (if has flags PRINTF_FLAG_UPCASE then 88 else 120)
           else if base =? 2 then put b 98 else Some b);
      put b 48
    else Some b
  else Some b.

Definition put_sign (b : numbuf) (negative : bool) (flags : Z) : option numbuf :=
  if b.2 <? INTEGER_BUFFER_SIZE then
    if negative then put b 45
    else if has flags PRINTF_FLAG_PLUS then put b 43
    else if has flags PRINTF_FLAG_SPACE then put b 32
    else Some b
  else Some b.

(** ** Directives *)

(** The next character of a format; the end of the list is the terminator. *)
Definition peek (fmt : list Z) : Z := default 0 (head fmt).

Fixpoint parse_fmt_number (n : Z) (fmt : list Z) : Z * list Z :=
  match fmt with
  | c :: rest => if isdigit c then parse_fmt_number (u32 (n * 10 + c - 48)) rest else (n, fmt)
  | [] => (n, fmt)
  end.

(** The variable arguments: [va_arg] with a type of another size is undefined. *)
Inductive arg := AInt (v : Z) | ALong (v : Z) | APtr (p : Z).

Definition va_int (args : list arg) : option (Z * list arg) :=
  match args with AInt v :: args => Some (v, args) | _ => None end.
Definition va_long (args : list arg) : option (Z * list arg) :=
  match args with ALong v :: args => Some (v, args) | _ => None end.
Definition va_ptr (args : list arg) : option (Z * list arg) :=
  match args with APtr p :: args => Some (p, args) | _ => None end.

Fixpoint parse_flags (flags : Z) (fmt : list Z) : Z * list Z :=
  match fmt with
  | c :: rest =>
      if c =? 48 then parse_flags (Z.lor flags PRINTF_FLAG_PAD_ZERO) rest
      else if c =? 45 then parse_flags (Z.lor flags PRINTF_FLAG_LEFT) rest
      else if c =? 43 then parse_flags (Z.lor flags PRINTF_FLAG_PLUS) rest
      else if c =? 32 then parse_flags (Z.lor flags PRINTF_FLAG_SPACE) rest
      else if c =? 35 then parse_flags (Z.lor flags PRINTF_FLAG_SPECIAL) rest
      else (flags, fmt)
  | [] => (flags, fmt)
  end.

(** [-w] of the least integer is undefined. *)
Definition parse_width (flags : Z) (fmt : list Z) (args : list arg) : option (Z * Z * list Z * list arg) :=
  if isdigit (peek fmt) then
    let '(width, fmt) := parse_fmt_number 0 fmt in Some (width, flags, fmt, args)
  else if peek fmt =? 42 then
    '(w, args) ← va_int args;
    if w <? 0 then
      if w =? - 2 ^ 31 then None
      else Some (- w, Z.lor flags PRINTF_FLAG_LEFT, drop 1 fmt, args)
    else Some (w, flags, drop 1 fmt, args)
  else Some (0, flags, fmt, args).

Definition parse_prec (flags : Z) (fmt : list Z) (args : list arg) : option (Z * Z * list Z * list arg) :=
  if peek fmt =? 46 then
    let flags := Z.lor flags PRINTF_FLAG_PREC in
    let fmt := drop 1 fmt in
    if isdigit (peek fmt) then
      let '(prec, fmt) := parse_fmt_number 0 fmt in Some (prec, flags, fmt, args)
    else if peek fmt =? 42 then
      '(p, args) ← va_int args;
      Some (if 0 <? p then p else 0, flags, drop 1 fmt, args)
    else Some (0, flags, fmt, args)
  else Some (0, flags, fmt, args).

Definition parse_length (flags : Z) (fmt : list Z) : Z * list Z :=
  if peek fmt =? 108 then
    let fmt := drop 1 fmt in
    (Z.lor flags PRINTF_FLAG_LONG, if peek fmt =? 108 then drop 1 fmt else fmt)
  else if peek fmt =? 104 then
    let flags := Z.lor flags PRINTF_FLAG_SHORT in
    let fmt := drop 1 fmt in
    if peek fmt =? 104 then (Z.lor flags PRINTF_FLAG_CHAR, drop 1 fmt) else (flags, fmt)
  else if (peek fmt =? 116) || (peek fmt =? 106) || (peek fmt =? 122) then
    (Z.lor flags PRINTF_FLAG_LONG, drop 1 fmt)
  else (flags, fmt).

Record directive := mk_directive { d_flags : Z; d_width : Z; d_prec : Z; d_fmt : list Z; d_args : list arg }.

(** Everything between the percent sign and the conversion. *)
Definition parse_directive (fmt : list Z) (args : list arg) : option directive :=
  let '(flags, fmt) := parse_flags 0 fmt in
  '(width, flags, fmt, args) ← parse_width flags fmt args;
  '(prec, flags, fmt, args) ← parse_prec flags fmt args;
  let '(flags, fmt) := parse_length flags fmt in
  Some (mk_directive flags width prec fmt args).

(** The base and the flags of an integer conversion. *)
Definition integer_base (c : Z) : Z :=
  if (c =? 120) || (c =? 88) then 16 else if c =? 111 then 8 else if c =? 98 then 2 else 10.

Definition is_signed (c : Z) : bool := (c =? 105) || (c =? 100).

Definition integer_flags (c flags : Z) : Z :=
  let flags :=
    if (c =? 120) || (c =? 111) || (c =? 98) then flags
    else if c =? 88 then Z.lor flags PRINTF_FLAG_UPCASE
    else Z.land flags (Z.lnot PRINTF_FLAG_SPECIAL) in
  let flags := if is_signed c then flags
    else Z.land flags (Z.lnot (Z.lor PRINTF_FLAG_PLUS PRINTF_FLAG_SPACE)) in
  if has flags PRINTF_FLAG_PREC then Z.land flags (Z.lnot PRINTF_FLAG_PAD_ZERO) else flags.

Definition narrow (flags value : Z) : Z :=
  if has flags PRINTF_FLAG_CHAR then swrap 8 value
  else if has flags PRINTF_FLAG_SHORT then swrap 16 value else value.

(** The value as an [unsigned long] and the sign of an integer conversion;
    negating the least value of the type is undefined. *)
Definition integer_arg (c flags : Z) (args : list arg) : option (Z * bool * list arg) :=
  if is_signed c then
    if has flags PRINTF_FLAG_LONG then
      '(v, args) ← va_long args;
      let v := s64 v in
      if v =? - 2 ^ 63 then None else Some (if 0 <? v then v else - v, v <? 0, args)
    else
      '(v, args) ← va_int args;
      let v := narrow flags v in
      if v =? - 2 ^ 31 then None else Some (if 0 <? v then v else - v, v <? 0, args)
  else if has flags PRINTF_FLAG_LONG then
    '(v, args) ← va_long args; Some (u64 v, false, args)
  else
    '(v, args) ← va_int args; Some (u64 (narrow flags v), false, args).

Definition is_integer (c : Z) : bool :=
  (c =? 100) || (c =? 105) || (c =? 117) || (c =? 120) || (c =? 88) || (c =? 111) || (c =? 98).

(** The unit of [%H]: the power of 1024, as the loop counts it. *)
Fixpoint size_unit (fuel : nat) (temp i : Z) : option Z :=
  if 0 <? temp / 1024 then
    match fuel with O => None | S fuel => size_unit fuel (temp / 1024) (i + 1) end
  else Some i.

Definition size_units : list Z := [66; 75; 77; 71; 84; 80].

(** ** Output *)

Section print.
Context {S : Type} (func : Z -> Z -> M S unit).

(** [for (i = len; i < width; i++) func (' ', buffer, index++, maxlen)]; also
    [while (base++ < width) ...], as [base] is not used any more. *)
Fixpoint print_spaces (fuel : nat) (i width index : Z) : M S Z :=
  if i <? width then
    match fuel with
    | O => fault
    | Datatypes.S fuel => func 32 index;; print_spaces fuel (i + 1) width (u64 (index + 1))
    end
  else mret index.

(** [while (len > 0) func (input[--len], buffer, index++, maxlen)] *)
Fixpoint print_reversed (input : list Z) (len : nat) (index : Z) : M S Z :=
  match len with
  | O => mret index
  | Datatypes.S len =>
      c ← lift (input.[Z.of_nat len]);
      func c index;; print_reversed input len (u64 (index + 1))
  end.

(** [while (index - start < width) func (' ', buffer, index++, maxlen)] *)
Fixpoint print_until (fuel : nat) (start width index : Z) : M S Z :=
  if u64 (index - start) <? width then
    match fuel with
    | O => fault
    | Datatypes.S fuel => func 32 index;; print_until fuel start width (u64 (index + 1))
    end
  else mret index.

Definition print_pad_string (index : Z) (input : list Z) (len width flags : Z) : M S Z :=
  let start := index in
  index ← (if negb (has flags PRINTF_FLAG_LEFT) && negb (has flags PRINTF_FLAG_PAD_ZERO)
           then print_spaces (Z.to_nat width) len width index else mret index);
  index ← print_reversed input (Z.to_nat len) index;
  if has flags PRINTF_FLAG_LEFT then print_until (Z.to_nat width) start width index else mret index.

Definition print_integer (index : Z) (b : numbuf) (negative : bool) (base prec width flags : Z) : M S Z :=
  '(b, width) ← lift (fill_digits b negative prec width flags);
  b ← lift (put_special b base prec width flags);
  b ← lift (put_sign b negative flags);
  print_pad_string index b.1 b.2 width flags.

Definition print_long (index value : Z) (negative : bool) (base prec width flags : Z) : M S Z :=
  b ← lift (if negb (has flags PRINTF_FLAG_PREC) || truthy value
            then put_digits 32 flags base value empty_numbuf else Some empty_numbuf);
  print_integer index b negative base prec width flags.

Definition print_human_size (index value width flags : Z) : M S Z :=
  i ← lift (size_unit 6 value 0);
  let i := if truthy i && (Z.shiftr value (10 * i) <? 16) then i - 1 else i in
  let value := Z.shiftr value (10 * i) in
  unit ← lift (size_units.[i]);
  b ← lift (put empty_numbuf unit);
  b ← lift (put_digits 31 0 10 value b);
  print_pad_string index b.1 b.2 width (Z.land flags PRINTF_FLAG_LEFT).

Definition print_char (index c width flags : Z) : M S Z :=
  index ← (if negb (has flags PRINTF_FLAG_LEFT) then print_spaces (Z.to_nat width) 1 width index else mret index);
  func (u8 c) index;;
  let index := u64 (index + 1) in
  if has flags PRINTF_FLAG_LEFT then print_spaces (Z.to_nat width) 1 width index else mret index.

Context (fuel : nat) (m : memory).

(** [while ( *str && (!(flags & PRINTF_FLAG_PREC) || prec--)) func ( *str++, ...)] *)
Fixpoint print_chars (fuel : nat) (str prec flags index : Z) : M S Z :=
  match fuel with
  | O => fault
  | Datatypes.S fuel =>
      c ← lift (load8 m str);
      if negb (truthy c) then mret index
      else if negb (has flags PRINTF_FLAG_PREC) then
        func c index;; print_chars fuel (str + 1) prec flags (u64 (index + 1))
      else if truthy prec then
        func c index;; print_chars fuel (str + 1) (prec - 1) flags (u64 (index + 1))
      else mret index
  end.

Definition print_string (index str prec width flags : Z) : M S Z :=
  len ← lift (strnlen fuel m str (if truthy prec then prec else ULONG_MAX));
  let base := u32 len in
  let base := if has flags PRINTF_FLAG_PREC && (prec <? base) then prec else base in
  index ← (if negb (has flags PRINTF_FLAG_LEFT) then print_spaces (Z.to_nat width) base width index else mret index);
  index ← print_chars fuel str prec flags index;
  if has flags PRINTF_FLAG_LEFT then print_spaces (Z.to_nat width) base width index else mret index.

(** The conversion of a directive: the new index and the rest of the arguments.
    At the end of the format the code steps over the terminator. *)
Definition print_directive (index : Z) (d : directive) : M S (Z * list Z * list arg) :=
  let flags := d_flags d in
  match d_fmt d with
  | [] => fault
  | c :: fmt =>
      if is_integer c then
        let flags := integer_flags c flags in
        '(value, negative, args) ← lift (integer_arg c flags (d_args d));
        index ← print_long index value negative (integer_base c) (d_prec d) (d_width d) flags;
        mret (index, fmt, args)
      else if c =? 99 then
        '(v, args) ← lift (va_int (d_args d));
        index ← print_char index v (d_width d) flags;
        mret (index, fmt, args)
      else if c =? 115 then
        '(str, args) ← lift (va_ptr (d_args d));
        index ← print_string index str (d_prec d) (d_width d) flags;
        mret (index, fmt, args)
      else if c =? 112 then
        '(p, args) ← lift (va_ptr (d_args d));
        index ← print_long index p false 16 16 0
          (Z.lor flags (Z.lor (Z.lor PRINTF_FLAG_PAD_ZERO PRINTF_FLAG_SPECIAL) PRINTF_FLAG_PREC));
        mret (index, fmt, args)
      else if c =? 72 then
        '(v, args) ← lift (va_long (d_args d));
        index ← print_human_size index v (d_width d) flags;
        mret (index, fmt, args)
      else func c index;; mret (u64 (index + 1), fmt, d_args d)
  end.

(** The loop of [print_internal] over the format. *)
Fixpoint print_loop (n : nat) (index : Z) (fmt : list Z) (args : list arg) : M S Z :=
  match n with
  | O => fault
  | Datatypes.S n =>
      match fmt with
      | [] => mret index
      | c :: rest =>
          if negb (c =? 37) then func c index;; print_loop n (u64 (index + 1)) rest args
          else
            d ← lift (parse_directive rest args);
            '(index, fmt, args) ← print_directive index d;
            print_loop n index fmt args
      end
  end.

Definition print_internal (maxlen : Z) (fmt : list Z) (args : list arg) : M S Z :=
  index ← print_loop fuel 0 fmt args;
  func 0 (if index <? maxlen then index else u64 (maxlen - 1));;
  mret (s32 index).
End print.

(** ** The two output functions *)

(** The buffer is an array: a store outside of it is undefined. *)
Definition write_buffer (maxlen c index : Z) : M (list Z) unit := fun buffer =>
  if index <? maxlen then buffer ← buffer.[index <- c]; Some (tt, buffer) else Some (tt, buffer).

(** [tty_putchar] belongs to the terminal. *)
Definition write_tty {T} (tty_putchar : Z -> M T unit) (c index : Z) : M T unit :=
  if truthy c then tty_putchar c else mret tt.

Section calls.
Context (fuel : nat) (m : memory).

Definition vsnprintf (len : Z) (fmt : list Z) (args : list arg) : M (list Z) Z :=
  print_internal (write_buffer len) fuel m len fmt args.
Definition vsprintf (fmt : list Z) (args : list arg) : M (list Z) Z :=
  print_internal (write_buffer ULONG_MAX) fuel m ULONG_MAX fmt args.
Definition snprintf := vsnprintf.
Definition sprintf := vsprintf.
Definition vtprintf {T} (tty_putchar : Z -> M T unit) (fmt : list Z) (args : list arg) : M T Z :=
  print_internal (write_tty tty_putchar) fuel m ULONG_MAX fmt args.
Definition tprintf {T} := @vtprintf T.
End calls.

(** ** Reference: the text of a directive as a list *)

Definition spaces (n : Z) : list Z := replicate (Z.to_nat n) 32.

(** Characters are collected from the last to the first, at most 32. *)
Definition zero_fill (l : list Z) (n : Z) : list Z := l ++ replicate (Z.to_nat (Z.min n 32 - zlen l)) 48.

Fixpoint digits_low (n : nat) (base value : Z) : list Z :=
  match n with
  | O => []
  | S n => value mod base :: if value / base =? 0 then [] else digits_low n base (value / base)
  end.

(** The width that is left for digits. *)
Definition digit_width (negative : bool) (width flags : Z) : Z :=
  if negb (has flags PRINTF_FLAG_LEFT) && truthy width && has flags PRINTF_FLAG_PAD_ZERO
     && (negative || has flags (Z.lor PRINTF_FLAG_PLUS PRINTF_FLAG_SPACE)) then width - 1 else width.

Definition fill_text (l : list Z) (prec width flags : Z) : list Z :=
  if has flags PRINTF_FLAG_LEFT then l
  else let l := zero_fill l prec in if has flags PRINTF_FLAG_PAD_ZERO then zero_fill l width else l.

(** The prefix replaces zeros that fill the width; with 31 characters it does
    not fit. *)
Definition special_text (l : list Z) (base prec width flags : Z) : option (list Z) :=
  if has flags PRINTF_FLAG_SPECIAL then
    let l := if negb (has flags PRINTF_FLAG_PREC) && truthy (zlen l) && ((zlen l =? prec) || (zlen l =? width))
      then take (length l - (if (1 <? zlen l) && (base =? 16) then 2 else 1)) l else l in
    let prefix := (if base =? 16 then [if has flags PRINTF_FLAG_UPCASE then 88 else 120]
                   else if base =? 2 then [98] else []) ++ [48] in
    if 32 <=? zlen l then Some l
    else if 32 <? zlen l + zlen prefix then None else Some (l ++ prefix)
  else Some l.

Definition sign_chars (negative : bool) (flags : Z) : list Z :=
  if negative then [45] else if has flags PRINTF_FLAG_PLUS then [43]
  else if has flags PRINTF_FLAG_SPACE then [32] else [].

Definition sign_text (l : list Z) (negative : bool) (flags : Z) : list Z :=
  if zlen l <? 32 then l ++ sign_chars negative flags else l.

Definition pad_text (l : list Z) (width flags : Z) : list Z :=
  let pad := spaces (width - zlen l) in
  if has flags PRINTF_FLAG_LEFT then reverse l ++ pad
  else if has flags PRINTF_FLAG_PAD_ZERO then reverse l else pad ++ reverse l.

Definition integer_text (value : Z) (negative : bool) (base prec width flags : Z) : option (list Z) :=
  let l := if negb (has flags PRINTF_FLAG_PREC) || truthy value
    then (fun d => digit_char d flags) <$> digits_low 32 base value else [] in
  let width := digit_width negative width flags in
  l ← special_text (fill_text l prec width flags) base prec width flags;
  Some (pad_text (sign_text l negative flags) width flags).

(** [%H]: the largest unit in which the value has at least two digits. *)
Definition human_unit (value : Z) : Z :=
  let i := Z.log2 value / 10 in if truthy i && (Z.shiftr value (10 * i) <? 16) then i - 1 else i.

Definition human_text (value width flags : Z) : list Z :=
  let i := human_unit value in
  pad_text (default 0 (size_units.[i]) :: ((fun d => digit_char d 0) <$> digits_low 31 10 (Z.shiftr value (10 * i)))) width
    (Z.land flags PRINTF_FLAG_LEFT).

(** [%c] and [%s] *)
Definition adjust (t : list Z) (width flags : Z) : list Z :=
  let pad := spaces (width - zlen t) in if has flags PRINTF_FLAG_LEFT then t ++ pad else pad ++ t.

Definition string_text (str : list Z) (prec width flags : Z) : list Z :=
  adjust (if has flags PRINTF_FLAG_PREC then take (Z.to_nat prec) str else str) width flags.

(** The text of a directive, with the strings at the pointers that are printed
    by [%s], and the rest of the format and of the arguments. *)
Section render.
Context (strings : Z -> option (list Z)).

Definition directive_text (d : directive) : option (list Z * list Z * list arg) :=
  match d_fmt d with
  | [] => None
  | c :: fmt =>
      let flags := d_flags d in
      if is_integer c then
        let flags := integer_flags c flags in
        '(value, negative, args) ← integer_arg c flags (d_args d);
        out ← integer_text value negative (integer_base c) (d_prec d) (d_width d) flags;
        Some (out, fmt, args)
      else if c =? 99 then
        '(v, args) ← va_int (d_args d);
        Some (adjust [u8 v] (d_width d) flags, fmt, args)
      else if c =? 115 then
        '(p, args) ← va_ptr (d_args d);
        str ← strings p;
        Some (string_text str (d_prec d) (d_width d) flags, fmt, args)
      else if c =? 112 then
        '(p, args) ← va_ptr (d_args d);
        out ← integer_text p false 16 16 0
          (Z.lor flags (Z.lor (Z.lor PRINTF_FLAG_PAD_ZERO PRINTF_FLAG_SPECIAL) PRINTF_FLAG_PREC));
        Some (out, fmt, args)
      else if c =? 72 then
        '(v, args) ← va_long (d_args d);
        Some (human_text v (d_width d) flags, fmt, args)
      else Some ([c], fmt, d_args d)
  end.

Fixpoint render (n : nat) (fmt : list Z) (args : list arg) : option (list Z) :=
  match n with
  | O => None
  | S n =>
      match fmt with
      | [] => Some []
      | c :: rest =>
          if negb (c =? 37) then cons c <$> render n rest args
          else
            d ← parse_directive rest args;
            '(out, fmt, args) ← directive_text d;
            app out <$> render n fmt args
      end
  end.
End render.

(** ** Writing a list *)

Fixpoint write_all {S} (func : Z -> Z -> M S unit) (index : Z) (out : list Z) : M S Z :=
  match out with
  | [] => mret index
  | c :: out => func c index;; write_all func (u64 (index + 1)) out
  end.

(** The outcome of [p] from an index is to write [out] there, whatever is done
    with the characters. *)
Definition says {S} (func : Z -> Z -> M S unit) (p : M S Z) (index : Z) (out : list Z) : Prop :=
  forall s, p s = write_all func index out s.

Definition advance (index : Z) (out : list Z) : Z := foldl (fun i _ => u64 (i + 1)) index out.

Section says.
Context {S : Type} (func : Z -> Z -> M S unit).

Lemma write_all_app out1 : forall index out2 s,
  write_all func index (out1 ++ out2) s = (i ← write_all func index out1; write_all func i out2) s.
Proof.
  induction out1 as [|c out1 IH]; intros index out2 s; [done|]. simpl. rewrite bind_assoc.
  unfold mbind, M_bind. destruct (func c index s) as [[[] s']|]; [|done]. apply IH.
Qed.

(** Writing returns the index after the text. *)
Lemma write_all_index out : forall index s i s', write_all func index out s = Some (i, s') -> i = advance index out.
Proof.
  induction out as [|c out IH]; intros index s i s'; simpl; [by intros [= <- _]|].
  unfold mbind, M_bind. destruct (func c index s) as [[[] s1]|]; [|done]. apply IH.
Qed.

Lemma says_ret index : says func (mret index) index [].
Proof. done. Qed.

Lemma says_cons p index c out :
  says func p (u64 (index + 1)) out -> says func (func c index;; p) index (c :: out).
Proof.
  intros Hp s. simpl. unfold mbind, M_bind. destruct (func c index s) as [[[] s']|]; [|done]. apply Hp.
Qed.

Lemma says_bind p (k : Z -> M S Z) index out1 out2 :
  says func p index out1 -> says func (k (advance index out1)) (advance index out1) out2 ->
  says func (i ← p; k i) index (out1 ++ out2).
Proof.
  intros Hp Hk s. rewrite write_all_app. unfold mbind, M_bind. rewrite Hp.
  destruct (write_all func index out1 s) as [[i s']|] eqn:E; [|done].
  apply write_all_index in E as ->. apply Hk.
Qed.

Lemma says_skip p (k : Z -> M S Z) index out :
  says func p index [] -> says func (k index) index out -> says func (i ← p; k i) index out.
Proof. intros Hp Hk. apply (says_bind p k index [] out); done. Qed.

Lemma says_lift {A} (o : option A) (k : A -> M S Z) a index out :
  o = Some a -> says func (k a) index out -> says func (x ← lift o; k x) index out.
Proof. intros -> Hk s. apply Hk. Qed.

Lemma says_spaces fuel : forall i width index,
  width - i <= Z.of_nat fuel -> says func (print_spaces func fuel i width index) index (spaces (width - i)).
Proof.
  induction fuel as [|fuel IH]; intros i width index Hf; cbn [print_spaces]; destruct (Z.ltb_spec i width).
  - lia.
  - unfold spaces. replace (Z.to_nat (width - i)) with O by lia. apply says_ret.
  - unfold spaces. replace (Z.to_nat (width - i)) with (Datatypes.S (Z.to_nat (width - (i + 1)))) by lia.
    apply says_cons, IH. lia.
  - unfold spaces. replace (Z.to_nat (width - i)) with O by lia. apply says_ret.
Qed.

Lemma says_reversed input l : forall index,
  take (length l) input = l -> says func (print_reversed func input (length l) index) index (reverse l).
Proof.
  induction l as [|c l IH] using rev_ind; intros index Hl; [apply says_ret|].
  rewrite length_app in *. simpl in *. replace (length l + 1)%nat with (Datatypes.S (length l)) in * by lia.
  cbn [print_reversed]. rewrite reverse_snoc. apply says_lift with c.
  - rewrite zlookup_nat, <- (lookup_take_lt _ (Datatypes.S (length l))), Hl by lia. by apply list_lookup_middle.
  - apply says_cons, IH. apply (f_equal (take (length l))) in Hl.
    by rewrite take_take, Nat.min_l, take_app_length in Hl by lia.
Qed.

Lemma says_until fuel : forall start width index n,
  index = u64 (start + n) -> 0 <= n -> 0 <= width < 2 ^ 32 -> width - n <= Z.of_nat fuel ->
  n <= 2 ^ 32 ->
  says func (print_until func fuel start width index) index (spaces (width - n)).
Proof.
  induction fuel as [|fuel IH]; intros start width index n -> Hn Hw Hf Hn2; cbn [print_until].
  all: assert (u64 (u64 (start + n) - start) = n) as ->
    by (unfold wrap; rewrite Zminus_mod_idemp_l; replace (start + n - start) with n by lia; apply Z.mod_small; lia).
  all: destruct (Z.ltb_spec n width); try lia.
  1,3: unfold spaces; replace (Z.to_nat (width - n)) with O by lia; apply says_ret.
  unfold spaces. replace (Z.to_nat (width - n)) with (Datatypes.S (Z.to_nat (width - (n + 1)))) by lia.
  apply says_cons, IH; try lia. unfold wrap. rewrite Zplus_mod_idemp_l. f_equal. lia.
Qed.
End says.

Lemma advance_len out : forall index, 0 <= index < 2 ^ 64 -> advance index out = u64 (index + zlen out).
Proof.
  induction out as [|c out IH]; intros index Hi; cbn [advance foldl].
  - rewrite zlen_nil, Z.add_0_r. by rewrite wrap_small.
  - fold (advance (u64 (index + 1)) out). rewrite IH by (apply wrap_range; lia).
    rewrite zlen_cons. unfold wrap. rewrite Zplus_mod_idemp_l. f_equal. lia.
Qed.

(** ** Integer buffers hold lists *)

Definition numbuf_is (b : numbuf) (l : list Z) : Prop :=
  length b.1 = 32%nat /\ b.2 = zlen l /\ (length l <= 32)%nat /\ take (length l) b.1 = l.

Lemma empty_numbuf_is : numbuf_is empty_numbuf [].
Proof. by repeat split; simpl; lia. Qed.

Lemma put_is b l c : numbuf_is b l -> zlen l < 32 -> exists b', put b c = Some b' /\ numbuf_is b' (l ++ [c]).
Proof.
  intros (Hlen & Hn & Hle & Ht) Hl. unfold put, zlen in *. rewrite Hn.
  rewrite zstore_lt by (unfold zlen; lia). orun. eexists. split; [done|].
  unfold numbuf_is. cbn [fst snd]. rewrite length_insert, length_app, Nat2Z.id. unfold zlen. rewrite length_app.
  simpl. repeat split; [done|lia|lia|].
  replace (length l + 1)%nat with (S (length l)) by lia.
  rewrite (take_S_r _ _ c) by (apply list_lookup_insert_eq; lia).
  by rewrite take_insert_ge, Ht by lia.
Qed.

Lemma put_zeros_is fuel : forall b l bound,
  numbuf_is b l -> 32 - zlen l <= Z.of_nat fuel ->
  exists b', put_zeros fuel b bound = Some b' /\ numbuf_is b' (zero_fill l bound).
Proof.
  induction fuel as [|fuel IH]; intros b l bound Hb Hf; cbn [put_zeros].
  all: pose proof Hb as (_ & Hn & Hle & _); rewrite Hn; unfold INTEGER_BUFFER_SIZE, zero_fill.
  all: destruct (Z.ltb_spec (zlen l) bound), (Z.ltb_spec (zlen l) 32); try lia; cbn [andb].
  all: try by (exists b; split; [done|]; replace (Z.to_nat _) with O by lia; rewrite app_nil_r).
  destruct (put_is b l 48 Hb ltac:(lia)) as (b1 & -> & Hb1). orun.
  destruct (IH b1 (l ++ [48]) bound Hb1) as (b2 & -> & Hb2); [autorewrite with carray; lia|].
  exists b2. split; [done|]. unfold zero_fill in Hb2. autorewrite with carray in Hb2.
  replace (Z.to_nat (Z.min bound 32 - zlen l)) with (S (Z.to_nat (Z.min bound 32 - (zlen l + (1 + 0))))) by lia.
  simpl. by rewrite <- app_assoc in Hb2.
Qed.

Lemma zlen_zero_fill l n : zlen l <= 32 -> zlen (zero_fill l n) <= 32 /\ zlen l <= zlen (zero_fill l n).
Proof. intros Hl. unfold zero_fill. autorewrite with carray. pose proof (zlen_nonneg l). lia. Qed.

Lemma digits_low_len n : forall base value, zlen (digits_low n base value) <= Z.of_nat n.
Proof.
  induction n as [|n IH]; intros base value; cbn [digits_low]; [done|]. rewrite zlen_cons.
  destruct (value / base =? 0); [rewrite zlen_nil|pose proof (IH base (value / base))]; lia.
Qed.

Lemma put_digits_is fuel : forall b l flags base value,
  numbuf_is b l -> zlen l + Z.of_nat fuel = 32 -> (0 < fuel)%nat ->
  exists b', put_digits fuel flags base value b = Some b' /\
    numbuf_is b' (l ++ ((fun d => digit_char d flags) <$> digits_low fuel base value)).
Proof.
  induction fuel as [|fuel IH]; intros b l flags base value Hb Hf Hpos; [lia|]. cbn [put_digits digits_low].
  destruct (put_is b l (digit_char (value mod base) flags) Hb ltac:(lia)) as (b1 & -> & Hb1). orun.
  pose proof Hb1 as (_ & Hn & _). rewrite Hn. autorewrite with carray. unfold INTEGER_BUFFER_SIZE, truthy.
  rewrite fmap_cons. destruct (Z.eqb_spec (value / base) 0); cbn [negb andb]; [by exists b1|].
  destruct fuel as [|fuel].
  - destruct (Z.ltb_spec (zlen l + (1 + 0)) 32); [lia|]. exists b1. done.
  - destruct (Z.ltb_spec (zlen l + (1 + 0)) 32); [|lia].
    destruct (IH b1 _ flags base (value / base) Hb1) as (b2 & -> & Hb2); [autorewrite with carray; lia|lia|].
    exists b2. split; [done|]. by rewrite <- app_assoc in Hb2.
Qed.

Lemma numbuf_take b l n : numbuf_is b l -> (n <= length l)%nat -> numbuf_is (b.1, Z.of_nat n) (take n l).
Proof.
  intros (Hlen & Hn & Hle & Ht) Hl. unfold numbuf_is, zlen. cbn [fst snd]. rewrite length_take, Nat.min_l by lia.
  repeat split; [done|lia|]. rewrite <- Ht, take_take. f_equal. lia.
Qed.

Lemma put_sign_is b l negative flags :
  numbuf_is b l -> exists b', put_sign b negative flags = Some b' /\ numbuf_is b' (sign_text l negative flags).
Proof.
  intros Hb. pose proof Hb as (_ & Hn & _). unfold put_sign, sign_text, sign_chars, INTEGER_BUFFER_SIZE. rewrite Hn.
  destruct (Z.ltb_spec (zlen l) 32); [|by exists b].
  destruct negative; [by apply put_is|]. destruct (has flags PRINTF_FLAG_PLUS); [by apply put_is|].
  destruct (has flags PRINTF_FLAG_SPACE); [by apply put_is|]. rewrite app_nil_r. by exists b.
Qed.

(** Taking back the zeros that the prefix replaces. *)
Definition cut_special (b : numbuf) (base prec width flags : Z) : numbuf :=
  if negb (has flags PRINTF_FLAG_PREC) && truthy b.2 && ((b.2 =? prec) || (b.2 =? width)) then
    let len := b.2 - 1 in (b.1, if truthy len && (base =? 16) then len - 1 else len)
  else b.

Definition cut_text (l : list Z) (base prec width flags : Z) : list Z :=
  if negb (has flags PRINTF_FLAG_PREC) && truthy (zlen l) && ((zlen l =? prec) || (zlen l =? width))
  then take (length l - (if (1 <? zlen l) && (base =? 16) then 2 else 1)) l else l.

Lemma cut_special_is b l base prec width flags :
  numbuf_is b l -> numbuf_is (cut_special b base prec width flags) (cut_text l base prec width flags).
Proof.
  intros Hb. pose proof Hb as (_ & Hn & _). unfold cut_special, cut_text. rewrite Hn.
  destruct (_ && _) eqn:E; [|done]. apply andb_prop in E as [[_ E]%andb_prop _].
  unfold truthy in *. destruct (Z.eqb_spec (zlen l) 0); [done|]. unfold zlen in *. simpl.
  replace (if negb (Z.of_nat (length l) - 1 =? 0) && (base =? 16) then Z.of_nat (length l) - 1 - 1 else Z.of_nat (length l) - 1)
    with (Z.of_nat (length l - (if (1 <? Z.of_nat (length l)) && (base =? 16) then 2 else 1))).
  - by apply numbuf_take; [|lia].
  - destruct (Z.eqb_spec (Z.of_nat (length l) - 1) 0), (Z.ltb_spec 1 (Z.of_nat (length l))), (base =? 16); simpl; lia.
Qed.

Lemma put_special_is b l base prec width flags l' :
  numbuf_is b l -> special_text l base prec width flags = Some l' ->
  exists b', put_special b base prec width flags = Some b' /\ numbuf_is b' l'.
Proof.
  intros Hb. unfold put_special, special_text. destruct (has flags PRINTF_FLAG_SPECIAL); [|by intros [= <-]; exists b].
  pose proof (cut_special_is b l base prec width flags Hb) as Hc. cbv zeta.
  fold (cut_special b base prec width flags) (cut_text l base prec width flags).
  revert Hc. generalize (cut_special b base prec width flags) (cut_text l base prec width flags). intros c t Hc.
  pose proof Hc as (_ & Hn & _). rewrite Hn. unfold INTEGER_BUFFER_SIZE.
  destruct (Z.leb_spec 32 (zlen t)), (Z.ltb_spec (zlen t) 32); try lia; [by intros [= <-]; exists c|].
  destruct (base =? 16); [|destruct (base =? 2)]; simpl; autorewrite with carray.
  1,2: destruct (Z.ltb_spec 32 (zlen t + (1 + (1 + 0)))); [done|]; intros [= <-];
    edestruct (put_is c t) as (c1 & -> & Hc1); [done..|]; orun;
    edestruct (put_is c1) as (c2 & -> & Hc2); [done|autorewrite with carray; lia|];
    exists c2; split; [done|]; by rewrite <- app_assoc in Hc2.
  destruct (Z.ltb_spec 32 (zlen t + (1 + 0))); [done|]. intros [= <-]. orun. by apply put_is.
Qed.

Lemma fill_digits_is b l negative prec width flags :
  numbuf_is b l -> let width' := digit_width negative width flags in
  exists b', fill_digits b negative prec width flags = Some (b', width') /\
    numbuf_is b' (fill_text l prec width' flags).
Proof.
  intros Hb width'. pose proof Hb as (_ & _ & Hle & _). unfold fill_digits.
  unfold width', digit_width, fill_text. destruct (has flags PRINTF_FLAG_LEFT); cbn [negb andb]; [by exists b|]. cbv zeta.
  destruct (put_zeros_is 32 b l prec Hb) as (b2 & -> & Hb2); [pose proof (zlen_nonneg l); lia|]. orun.
  destruct (has flags PRINTF_FLAG_PAD_ZERO); [|rewrite andb_false_r; by exists b2].
  rewrite andb_true_r. edestruct (put_zeros_is 32 b2) as (b3 & -> & Hb3); [done| |by exists b3].
  destruct (zlen_zero_fill l prec); [unfold zlen; lia|]. pose proof (zlen_nonneg l). lia.
Qed.

Section texts.
Context {T : Type} (func : Z -> Z -> M T unit).

Lemma says_pad_string index b l width flags :
  numbuf_is b l -> 0 <= index < 2 ^ 64 -> 0 <= width < 2 ^ 32 ->
  says func (print_pad_string func index b.1 b.2 width flags) index (pad_text l width flags).
Proof.
  intros (Hlen & Hn & Hle & Ht) Hi Hw. unfold print_pad_string, pad_text. rewrite Hn. unfold zlen. rewrite Nat2Z.id.
  destruct (has flags PRINTF_FLAG_LEFT); cbn [negb andb].
  - apply says_skip; [apply says_ret|]. apply says_bind; [by apply says_reversed|].
    apply says_until; try lia. rewrite advance_len by done. unfold zlen. by rewrite length_reverse.
  - destruct (has flags PRINTF_FLAG_PAD_ZERO); cbn [negb].
    + apply says_skip; [apply says_ret|]. rewrite <- (app_nil_r (reverse l)).
      apply says_bind; [by apply says_reversed|apply says_ret].
    + apply says_bind; [apply says_spaces; lia|]. rewrite <- (app_nil_r (reverse l)).
      apply says_bind; [by apply says_reversed|apply says_ret].
Qed.

Lemma digit_width_range negative width flags : 0 <= width < 2 ^ 32 -> 0 <= digit_width negative width flags < 2 ^ 32.
Proof.
  intros Hw. unfold digit_width, truthy. destruct (Z.eqb_spec width 0); [rewrite andb_false_r; simpl; lia|].
  destruct (_ && _); lia.
Qed.

Lemma says_integer index b l negative base prec width flags l' :
  numbuf_is b l -> 0 <= index < 2 ^ 64 -> 0 <= width < 2 ^ 32 ->
  let width' := digit_width negative width flags in
  special_text (fill_text l prec width' flags) base prec width' flags = Some l' ->
  says func (print_integer func index b negative base prec width flags) index
    (pad_text (sign_text l' negative flags) width' flags).
Proof.
  intros Hb Hi Hw width' Hl'. unfold print_integer.
  destruct (fill_digits_is b l negative prec width flags Hb) as (b1 & E1 & Hb1).
  apply says_lift with (b1, width'); [exact E1|].
  destruct (put_special_is b1 _ base prec width' flags l' Hb1 Hl') as (b2 & E2 & Hb2).
  apply says_lift with b2; [done|]. destruct (put_sign_is b2 l' negative flags Hb2) as (b3 & E3 & Hb3).
  apply says_lift with b3; [done|]. apply says_pad_string; [done..|]. by apply digit_width_range.
Qed.

Lemma says_long index value negative base prec width flags out :
  0 <= index < 2 ^ 64 -> 0 <= width < 2 ^ 32 ->
  integer_text value negative base prec width flags = Some out ->
  says func (print_long func index value negative base prec width flags) index out.
Proof.
  intros Hi Hw. unfold integer_text, print_long. cbv zeta.
  destruct (special_text _ _ _ _ _) as [l'|] eqn:E; orun; [|done]. intros [= <-].
  destruct (negb (has flags PRINTF_FLAG_PREC) || truthy value).
  - destruct (put_digits_is 32 empty_numbuf [] flags base value empty_numbuf_is) as (b & Eb & Hb); [done|lia|].
    apply says_lift with b; [done|]. by eapply says_integer; [exact Hb|..].
  - apply says_lift with empty_numbuf; [done|]. by eapply says_integer; [apply empty_numbuf_is|..].
Qed.

Lemma div1024_log2 value : 1024 <= value -> Z.log2 (value / 1024) = Z.log2 value - 10.
Proof.
  intros Hv. change 1024 with (2 ^ 10). rewrite <- Z.shiftr_div_pow2 by lia.
  rewrite Z.log2_shiftr by lia. assert (10 <= Z.log2 value) by (apply Z.log2_le_pow2; lia). lia.
Qed.

Lemma size_unit_log2 fuel : forall value i,
  0 <= value -> Z.log2 value / 10 <= Z.of_nat fuel -> size_unit fuel value i = Some (i + Z.log2 value / 10).
Proof.
  induction fuel as [|fuel IH]; intros value i Hv Hf; cbn [size_unit].
  all: destruct (Z.ltb_spec 0 (value / 1024)) as [Hlt|Hge].
  - assert (1024 <= value) as Hbig by divlia. apply Z.log2_le_mono in Hbig. change (Z.log2 1024) with 10 in Hbig. divlia.
  - assert (value < 1024) as Hsmall by divlia. assert (Z.log2 value < 10) by (destruct (Z.eq_dec value 0); [subst; simpl; lia|]; apply Z.log2_lt_pow2; lia).
    rewrite Z.div_small; [f_equal; lia|]. pose proof (Z.log2_nonneg value). lia.
  - assert (1024 <= value) as Hbig by divlia. rewrite IH; rewrite ?div1024_log2 by done; [f_equal; divlia|divlia|divlia].
  - assert (value < 1024) as Hsmall by divlia. assert (Z.log2 value < 10) by (destruct (Z.eq_dec value 0); [subst; simpl; lia|]; apply Z.log2_lt_pow2; lia).
    rewrite Z.div_small; [f_equal; lia|]. pose proof (Z.log2_nonneg value). lia.
Qed.

Lemma human_unit_ok value : 0 <= value < 2 ^ 64 -> is_Some (size_units.[human_unit value]).
Proof.
  intros Hv. apply zlookup_is_Some. change (zlen size_units) with 6. unfold human_unit, truthy. cbv zeta.
  pose proof (Z.log2_nonneg value). assert (Z.log2 value <= 63) as Hlog.
  { destruct (Z.eq_dec value 0) as [->|]; [done|]. apply Zlt_succ_le, Z.log2_lt_pow2; lia. }
  destruct (Z.eqb_spec (Z.log2 value / 10) 0) as [->|]; [simpl; lia|]. cbn [negb andb].
  destruct (Z.ltb_spec (Z.shiftr value (10 * (Z.log2 value / 10))) 16) as [|Hge]; [divlia|].
  split; [divlia|]. destruct (Z.eq_dec (Z.log2 value / 10) 6) as [E|]; [|divlia].
  rewrite E, Z.shiftr_div_pow2 in Hge by lia. simpl in Hge. divlia.
Qed.

Lemma says_human index value width flags :
  0 <= index < 2 ^ 64 -> 0 <= width < 2 ^ 32 -> 0 <= value < 2 ^ 64 ->
  says func (print_human_size func index value width flags) index (human_text value width flags).
Proof.
  intros Hi Hw Hv. unfold print_human_size, human_text. apply says_lift with (Z.log2 value / 10).
  { rewrite size_unit_log2; [done|lia|]. assert (Z.log2 value < 64); [|divlia].
    destruct (Z.eq_dec value 0) as [->|]; [done|]. apply Z.log2_lt_pow2; lia. }
  cbv zeta. fold (human_unit value). destruct (human_unit_ok value Hv) as [unit Hunit].
  apply says_lift with unit; [done|]. rewrite Hunit. change (default 0 (Some unit)) with unit.
  destruct (put_is empty_numbuf [] unit empty_numbuf_is ltac:(done)) as (b1 & E1 & Hb1).
  apply says_lift with b1; [done|].
  destruct (put_digits_is 31 b1 _ 0 10 (Z.shiftr value (10 * human_unit value)) Hb1) as (b2 & E2 & Hb2); [done|lia|].
  apply says_lift with b2; [done|]. by apply says_pad_string.
Qed.

Lemma says_one c index : says func (func c index;; mret (u64 (index + 1))) index [c].
Proof. apply says_cons, says_ret. Qed.

Lemma says_char index c width flags :
  0 <= width < 2 ^ 32 -> says func (print_char func index c width flags) index (adjust [u8 c] width flags).
Proof.
  intros Hw. unfold print_char, adjust. change (zlen [u8 c]) with 1. destruct (has flags PRINTF_FLAG_LEFT); cbn [negb].
  - apply says_skip; [apply says_ret|]. apply says_cons, says_spaces. lia.
  - apply says_bind; [apply says_spaces; lia|]. apply says_one.
Qed.
End texts.

Section strings.
Context (m : memory).

Lemma strnlen_spec s : forall fuel p n start,
  cstr m p s -> 0 <= n <= ULONG_MAX -> zlen s < Z.of_nat fuel ->
  exists n', loop fuel (fun '(p, len) =>
        if negb (0 <? len) then Some (Break (p, u64 (len - 1))) else
        c ← load8 m p;
        Some (if truthy c then Cont (p + 1, len - 1) else Break (p, len - 1))) (p, n) =
    Some (inl (start + (p - start + Z.min n (zlen s)), n') : Z * Z + Empty_set).
Proof.
  induction s as [|c s IH]; intros fuel p n start Hs Hn Hf; (destruct fuel as [|fuel]; [unfold zlen in Hf; lia|]);
    cbn [loop].
  - pose proof (@zlen_nil Z). destruct (Z.ltb_spec 0 n); cbn [negb].
    + rewrite (cstr_nil m p Hs : load8 m p = Some 0). orun. eexists. do 3 f_equal. lia.
    + orun. eexists. do 3 f_equal. lia.
  - rewrite zlen_cons in *. pose proof (zlen_nonneg s). destruct (cstr_tail m p c s Hs) as (Hp & Hc & Hs').
    destruct (Z.ltb_spec 0 n); cbn [negb]; [|orun; eexists; do 3 f_equal; lia].
    rewrite (Hp : load8 m p = Some c). orun. destruct (truthy c) eqn:Ec; [|unfold truthy in Ec; destruct (Z.eqb_spec c 0); [lia|done]].
    destruct (IH fuel (p + 1) (n - 1) start Hs' ltac:(lia) ltac:(lia)) as (n' & ->).
    eexists. do 3 f_equal. lia.
Qed.

Lemma strnlen_len fuel p s n :
  cstr m p s -> 0 <= n <= ULONG_MAX -> zlen s < Z.of_nat fuel -> strnlen fuel m p n = Some (Z.min n (zlen s)).
Proof.
  intros Hs Hn Hf. unfold strnlen. destruct (strnlen_spec s fuel p n p Hs Hn Hf) as (n' & ->). orun. cbn [fell fst].
  f_equal. lia.
Qed.

Context {T : Type} (func : Z -> Z -> M T unit).

Lemma says_chars s : forall fuel p prec flags index,
  cstr m p s -> 0 <= prec -> zlen s < Z.of_nat fuel ->
  says func (print_chars func m fuel p prec flags index) index
    (if has flags PRINTF_FLAG_PREC then take (Z.to_nat prec) s else s).
Proof.
  induction s as [|c s IH]; intros fuel p prec flags index Hs Hprec Hf;
    (destruct fuel as [|fuel]; [unfold zlen in Hf; lia|]); cbn [print_chars].
  - apply says_lift with 0; [by apply cstr_nil|]. rewrite take_nil. simpl.
    destruct (has flags PRINTF_FLAG_PREC); apply says_ret.
  - rewrite zlen_cons in Hf. destruct (cstr_tail m p c s Hs) as (Hp & Hc & Hs').
    apply says_lift with c; [done|]. unfold truthy. destruct (Z.eqb_spec c 0); [lia|]. cbn [negb].
    destruct (has flags PRINTF_FLAG_PREC) eqn:E; cbn [negb].
    + destruct (Z.eqb_spec prec 0) as [->|Hp0]; cbn [negb]; [apply says_ret|].
      replace (Z.to_nat prec) with (S (Z.to_nat (prec - 1))) by lia. cbn [firstn]. apply says_cons.
      pose proof (IH fuel (p + 1) (prec - 1) flags (u64 (index + 1)) Hs' ltac:(lia) ltac:(lia)) as H1.
      by rewrite E in H1.
    + apply says_cons. pose proof (IH fuel (p + 1) prec flags (u64 (index + 1)) Hs' ltac:(lia) ltac:(lia)) as H1.
      by rewrite E in H1.
Qed.

Lemma says_string fuel index p s prec width flags :
  cstr m p s -> zlen s < 2 ^ 32 -> zlen s < Z.of_nat fuel -> 0 <= prec < 2 ^ 32 -> 0 <= width < 2 ^ 32 ->
  (has flags PRINTF_FLAG_PREC = false -> prec = 0) ->
  says func (print_string func fuel m index p prec width flags) index (string_text s prec width flags).
Proof.
  intros Hs Hlen Hf Hprec Hw Hflag. unfold print_string, string_text, adjust.
  set (t := if has flags PRINTF_FLAG_PREC then take (Z.to_nat prec) s else s).
  pose proof (zlen_nonneg s).
  eapply says_lift; [apply (strnlen_len _ _ s); [done| |done]; unfold truthy; destruct (prec =? 0); cbn [negb]; lia|].
  cbv zeta.
  assert ((if has flags PRINTF_FLAG_PREC && (prec <? u32 (Z.min (if truthy prec then prec else ULONG_MAX) (zlen s)))
    then prec else u32 (Z.min (if truthy prec then prec else ULONG_MAX) (zlen s))) = zlen t) as ->.
  { unfold truthy. rewrite wrap_small by (destruct (prec =? 0); simpl; lia). subst t.
    destruct (has flags PRINTF_FLAG_PREC); cbn [andb].
    - unfold zlen in *. rewrite length_take. destruct (Z.eqb_spec prec 0); cbn [negb]; zcases; lia.
    - rewrite Hflag by done. simpl. lia. }
  pose proof (zlen_nonneg t). destruct (has flags PRINTF_FLAG_LEFT); cbn [negb].
  - apply says_skip; [apply says_ret|]. apply says_bind; [by apply says_chars; [|lia|]|].
    apply says_spaces. lia.
  - apply says_bind; [apply says_spaces; lia|]. rewrite <- (app_nil_r t).
    apply says_bind; [by apply says_chars; [|lia|]|apply says_ret].
Qed.
End strings.

(** ** Directives are within their bounds *)

(** Arguments are values of their types. *)
Definition arg_ok (a : arg) : Prop :=
  match a with AInt v => - 2 ^ 31 <= v < 2 ^ 31 | ALong v => 0 <= v < 2 ^ 64 | APtr p => 0 <= p < 2 ^ 64 end.

Lemma has_lor flags f k : 0 <= k -> has (Z.lor flags f) (Z.shiftl 1 k) = has flags (Z.shiftl 1 k) || Z.testbit f k.
Proof. intros Hk. unfold has. by rewrite !land_shl1, Z.lor_spec by done. Qed.

Lemma has_land flags f k : 0 <= k -> has (Z.land flags f) (Z.shiftl 1 k) = has flags (Z.shiftl 1 k) && Z.testbit f k.
Proof. intros Hk. unfold has. by rewrite !land_shl1, Z.land_spec by done. Qed.

Lemma parse_fmt_number_ok fmt : forall n,
  0 <= n < 2 ^ 32 -> 0 <= (parse_fmt_number n fmt).1 < 2 ^ 32 /\ (length (parse_fmt_number n fmt).2 <= length fmt)%nat.
Proof.
  induction fmt as [|c fmt IH]; intros n Hn; cbn [parse_fmt_number]; [done|].
  destruct (isdigit c); [|done]. destruct (IH (u32 (n * 10 + c - 48))) as [H1 H2]; [by apply wrap_range|].
  split; [done|]. simpl. lia.
Qed.

Lemma parse_flags_ok fmt : forall flags,
  has (parse_flags flags fmt).1 PRINTF_FLAG_PREC = has flags PRINTF_FLAG_PREC /\
  (length (parse_flags flags fmt).2 <= length fmt)%nat.
Proof.
  induction fmt as [|c fmt IH]; intros flags; cbn [parse_flags]; [done|].
  repeat (destruct (_ =? _); [edestruct IH as [H1 H2]; split; [rewrite H1; unfold PRINTF_FLAG_PREC;
    rewrite has_lor by done; apply orb_false_r|simpl; lia]|]). done.
Qed.

Lemma drop1_le {A} (l : list A) : (length (drop 1 l) <= length l)%nat.
Proof. rewrite length_drop. lia. Qed.

Lemma va_int_ok args v args' :
  Forall arg_ok args -> va_int args = Some (v, args') -> - 2 ^ 31 <= v < 2 ^ 31 /\ Forall arg_ok args'.
Proof. destruct args as [|[]]; simpl; try done. intros [Hv Ha]%Forall_cons [= -> ->]. done. Qed.

Lemma va_long_ok args v args' :
  Forall arg_ok args -> va_long args = Some (v, args') -> 0 <= v < 2 ^ 64 /\ Forall arg_ok args'.
Proof. destruct args as [|[]]; simpl; try done. intros [Hv Ha]%Forall_cons [= -> ->]. done. Qed.

Lemma va_ptr_ok args v args' :
  Forall arg_ok args -> va_ptr args = Some (v, args') -> 0 <= v < 2 ^ 64 /\ Forall arg_ok args'.
Proof. destruct args as [|[]]; simpl; try done. intros [Hv Ha]%Forall_cons [= -> ->]. done. Qed.

Lemma parse_width_ok flags fmt args width flags' fmt' args' :
  Forall arg_ok args -> parse_width flags fmt args = Some (width, flags', fmt', args') ->
  0 <= width < 2 ^ 32 /\ has flags' PRINTF_FLAG_PREC = has flags PRINTF_FLAG_PREC /\
  (length fmt' <= length fmt)%nat /\ Forall arg_ok args'.
Proof.
  intros Ha. unfold parse_width. destruct (isdigit (peek fmt)).
  - pose proof (parse_fmt_number_ok fmt 0 ltac:(done)) as [H1 H2].
    destruct (parse_fmt_number 0 fmt) as [w f]. by intros [= <- <- <- <-].
  - destruct (peek fmt =? 42); [|by intros [= <- <- <- <-]].
    destruct (va_int args) as [[w args1]|] eqn:E; orun; [|done].
    destruct (va_int_ok _ _ _ Ha E) as [Hw Ha1]. pose proof (drop1_le fmt).
    destruct (Z.ltb_spec w 0); [|by intros [= <- <- <- <-]; repeat split; try lia].
    destruct (w =? - 2 ^ 31); [done|]. intros [= <- <- <- <-]. repeat split; [lia|lia| |done..].
    unfold PRINTF_FLAG_PREC. rewrite has_lor by done. apply orb_false_r.
Qed.

Lemma parse_prec_ok flags fmt args prec flags' fmt' args' :
  Forall arg_ok args -> has flags PRINTF_FLAG_PREC = false ->
  parse_prec flags fmt args = Some (prec, flags', fmt', args') ->
  0 <= prec < 2 ^ 32 /\ (has flags' PRINTF_FLAG_PREC = false -> prec = 0) /\
  (length fmt' <= length fmt)%nat /\ Forall arg_ok args'.
Proof.
  intros Ha Hflag. unfold parse_prec. destruct (peek fmt =? 46); [|by intros [= <- <- <- <-]].
  cbv zeta. pose proof (drop1_le fmt) as Hd.
  assert (has (Z.lor flags PRINTF_FLAG_PREC) PRINTF_FLAG_PREC = true) as Hset
    by (unfold PRINTF_FLAG_PREC; rewrite has_lor by done; apply orb_true_r).
  destruct (isdigit (peek (drop 1 fmt))).
  - pose proof (parse_fmt_number_ok (drop 1 fmt) 0 ltac:(done)) as [H1 H2].
    destruct (parse_fmt_number 0 (drop 1 fmt)) as [w f]. intros [= <- <- <- <-]. rewrite Hset. repeat split; try done; simpl in *; lia.
  - pose proof (drop1_le (drop 1 fmt)). destruct (peek (drop 1 fmt) =? 42); [|by intros [= <- <- <- <-]].
    destruct (va_int args) as [[p args1]|] eqn:E; orun; [|done].
    destruct (va_int_ok _ _ _ Ha E) as [Hp Ha1]. intros [= <- <- <- <-]. rewrite Hset.
    repeat split; try done; try lia; destruct (0 <? p) eqn:?; lia.
Qed.

Lemma parse_length_ok flags fmt :
  has (parse_length flags fmt).1 PRINTF_FLAG_PREC = has flags PRINTF_FLAG_PREC /\
  (length (parse_length flags fmt).2 <= length fmt)%nat.
Proof.
  unfold parse_length, PRINTF_FLAG_PREC. pose proof (drop1_le fmt). pose proof (drop1_le (drop 1 fmt)).
  repeat match goal with |- context [if ?b then _ else _] => destruct b end; cbv zeta; cbn [fst snd];
    rewrite ?has_lor by done; rewrite ?orb_false_r; split; try done; lia.
Qed.

Lemma parse_directive_ok fmt args d :
  Forall arg_ok args -> parse_directive fmt args = Some d ->
  0 <= d_width d < 2 ^ 32 /\ 0 <= d_prec d < 2 ^ 32 /\ (has (d_flags d) PRINTF_FLAG_PREC = false -> d_prec d = 0) /\
  (length (d_fmt d) <= length fmt)%nat /\ Forall arg_ok (d_args d).
Proof.
  intros Ha. unfold parse_directive. pose proof (parse_flags_ok fmt 0) as [Hf1 Hl1].
  destruct (parse_flags 0 fmt) as [flags1 fmt1]. cbn [fst snd] in *.
  destruct (parse_width flags1 fmt1 args) as [[[[width flags2] fmt2] args2]|] eqn:Ew; orun; [|done].
  destruct (parse_width_ok _ _ _ _ _ _ _ Ha Ew) as (Hw & Hf2 & Hl2 & Ha2).
  destruct (parse_prec flags2 fmt2 args2) as [[[[prec flags3] fmt3] args3]|] eqn:Ep; orun; [|done].
  destruct (parse_prec_ok _ _ _ _ _ _ _ Ha2 ltac:(by rewrite Hf2, Hf1) Ep) as (Hp & Hf3 & Hl3 & Ha3).
  pose proof (parse_length_ok flags3 fmt3) as [Hf4 Hl4]. destruct (parse_length flags3 fmt3) as [flags4 fmt4].
  intros [= <-]. cbn [d_width d_prec d_flags d_fmt d_args fst snd] in *. rewrite Hf4. repeat split; try done; lia.
Qed.

(** ** Whole formats *)

Lemma integer_arg_ok c flags args value negative args' :
  Forall arg_ok args -> integer_arg c flags args = Some (value, negative, args') -> Forall arg_ok args'.
Proof.
  intros Ha. unfold integer_arg. destruct (is_signed c); destruct (has flags PRINTF_FLAG_LONG).
  1,3: destruct (va_long args) as [[v args1]|] eqn:E; orun; [|done]; apply va_long_ok in E as [_ Ha1]; [|done].
  3,4: destruct (va_int args) as [[v args1]|] eqn:E; orun; [|done]; apply va_int_ok in E as [_ Ha1]; [|done].
  all: cbv zeta; try (destruct (_ =? _); [done|]); by intros [= <- <- <-].
Qed.

Section formats.
Context {T : Type} (func : Z -> Z -> M T unit) (fuel : nat) (m : memory) (strings : Z -> option (list Z)).
(** The pointers that are printed by [%s] lead to strings. *)
Context (Hstrings : forall p s, strings p = Some s -> cstr m p s /\ zlen s < 2 ^ 32 /\ zlen s < Z.of_nat fuel).

Lemma says_rest {A B} (p : M T Z) index out (fmt : A) (args : B) s :
  says func p index out ->
  (i ← p; mret (i, fmt, args)) s = (i ← write_all func index out; mret (i, fmt, args)) s.
Proof. intros Hp. unfold mbind, M_bind. by rewrite Hp. Qed.

Lemma says_directive index d out fmt args s :
  0 <= index < 2 ^ 64 -> 0 <= d_width d < 2 ^ 32 -> 0 <= d_prec d < 2 ^ 32 ->
  (has (d_flags d) PRINTF_FLAG_PREC = false -> d_prec d = 0) -> Forall arg_ok (d_args d) ->
  directive_text strings d = Some (out, fmt, args) ->
  print_directive func fuel m index d s = (i ← write_all func index out; mret (i, fmt, args)) s /\
  (length fmt < length (d_fmt d))%nat /\ Forall arg_ok args.
Proof.
  intros Hi Hw Hprec Hflag Ha. unfold directive_text, print_directive.
  destruct (d_fmt d) as [|c rest]; [done|]. cbv zeta. destruct (is_integer c).
  { destruct (integer_arg _ _ _) as [[[v neg] args1]|] eqn:E; orun; [|done]. apply integer_arg_ok in E; [|done].
    destruct (integer_text _ _ _ _ _ _) as [out1|] eqn:E1; orun; [|done]. intros [= <- <- <-].
    split; [|split; [simpl; lia|done]]. cbn [lift]. by apply (says_rest (print_long _ _ _ _ _ _ _ _)), says_long. }
  destruct (c =? 99).
  { destruct (va_int _) as [[v args1]|] eqn:E; orun; [|done]. apply va_int_ok in E as [_ E]; [|done]. intros [= <- <- <-].
    split; [|split; [simpl; lia|done]]. by apply (says_rest (print_char _ _ _ _ _)), says_char. }
  destruct (c =? 115).
  { destruct (va_ptr _) as [[p args1]|] eqn:E; orun; [|done]. apply va_ptr_ok in E as [_ E]; [|done].
    destruct (strings p) as [str|] eqn:Es; orun; [|done]. intros [= <- <- <-].
    split; [|split; [simpl; lia|done]]. destruct (Hstrings p str Es) as (Hs & Hl & Hf).
    by apply (says_rest (print_string _ _ _ _ _ _ _ _)), says_string. }
  destruct (c =? 112).
  { destruct (va_ptr _) as [[p args1]|] eqn:E; orun; [|done]. apply va_ptr_ok in E as [_ E]; [|done].
    destruct (integer_text _ _ _ _ _ _) as [out1|] eqn:E1; orun; [|done]. intros [= <- <- <-].
    split; [|split; [simpl; lia|done]]. by apply (says_rest (print_long _ _ _ _ _ _ _ _)), says_long. }
  destruct (c =? 72).
  { destruct (va_long _) as [[v args1]|] eqn:E; orun; [|done]. apply va_long_ok in E as [Hv E]; [|done]. intros [= <- <- <-].
    split; [|split; [simpl; lia|done]]. by apply (says_rest (print_human_size _ _ _ _ _)), says_human. }
  intros [= <- <- <-]. split; [|split; [simpl; lia|done]]. simpl. by rewrite bind_assoc.
Qed.

Lemma advance_range index out : 0 <= index < 2 ^ 64 -> 0 <= advance index out < 2 ^ 64.
Proof. intros Hi. rewrite advance_len by done. by apply wrap_range. Qed.

Lemma says_loop n : forall n' index fmt args out,
  0 <= index < 2 ^ 64 -> Forall arg_ok args -> (n <= n')%nat -> render strings n fmt args = Some out ->
  says func (print_loop func fuel m n' index fmt args) index out.
Proof.
  induction n as [|n IH]; intros n' index fmt args out Hi Ha Hn; [done|]. destruct n' as [|n']; [lia|].
  cbn [render print_loop]. destruct fmt as [|c rest]; [intros [= <-]; apply says_ret|].
  destruct (negb (c =? 37)).
  { destruct (render strings n rest args) as [out1|] eqn:E; simpl; [|done]. intros [= <-].
    apply says_cons, IH; [by apply wrap_range|done|lia|done]. }
  destruct (parse_directive rest args) as [d|] eqn:Ed; orun; [|done].
  destruct (parse_directive_ok _ _ _ Ha Ed) as (Hw & Hp & Hf & Hl & Hda).
  destruct (directive_text strings d) as [[[out1 fmt1] args1]|] eqn:Et; orun; [|done].
  destruct (render strings n fmt1 args1) as [out2|] eqn:E; simpl; [|done]. intros [= <-]. intros s.
  destruct (says_directive index d out1 fmt1 args1 s Hi Hw Hp Hf Hda Et) as (Hsays & _ & Ha1).
  rewrite write_all_app. unfold mbind, M_bind, lift in *. rewrite Hsays.
  destruct (write_all func index out1 s) as [[i s']|] eqn:Ew; [|done]. apply write_all_index in Ew as ->. cbn.
  apply IH; [by apply advance_range|done|lia|done].
Qed.
End formats.

(** ** Buffers *)

Lemma write_buffer_all maxlen out : forall index buf,
  0 <= index -> index + zlen out < 2 ^ 64 -> Z.min maxlen (index + zlen out) <= zlen buf ->
  exists buf', write_all (write_buffer maxlen) index out buf = Some (index + zlen out, buf') /\
    buf' = take (Z.to_nat index) buf ++ take (Z.to_nat (maxlen - index)) out
             ++ drop (Z.to_nat (Z.max index (Z.min maxlen (index + zlen out)))) buf.
Proof.
  induction out as [|c out IH]; intros index buf Hi Ho Hb; cbn [write_all].
  - rewrite zlen_nil in *. exists buf. rewrite Z.add_0_r, take_nil. split; [done|].
    replace (Z.max index (Z.min maxlen index)) with index by lia. simpl. by rewrite take_drop.
  - rewrite zlen_cons in *. pose proof (zlen_nonneg out). rewrite wrap_small by lia.
    unfold mbind, M_bind, write_buffer at 1. destruct (Z.ltb_spec index maxlen).
    + rewrite zstore_lt by lia. orun.
      destruct (IH (index + 1) (<[Z.to_nat index:=c]> buf)) as (buf' & E & Hbuf'); [lia|lia|unfold zlen in *; rewrite length_insert; lia|].
      exists buf'. split; [rewrite E; do 2 f_equal; lia|]. rewrite Hbuf'.
      replace (Z.to_nat (index + 1)) with (S (Z.to_nat index)) by lia.
      rewrite (take_S_r _ _ c) by (apply list_lookup_insert_eq; unfold zlen in *; lia).
      rewrite take_insert_ge by lia. rewrite drop_insert_lt by lia.
      replace (Z.to_nat (maxlen - index)) with (S (Z.to_nat (maxlen - (index + 1)))) by lia.
      simpl. rewrite <- app_assoc. simpl.
      by replace (Z.max (index + 1) (Z.min maxlen (index + 1 + zlen out)))
        with (Z.max index (Z.min maxlen (index + (1 + zlen out)))) by lia.
    + destruct (IH (index + 1) buf) as (buf' & E & Hbuf'); [lia..|].
      exists buf'. split; [rewrite E; do 2 f_equal; lia|]. rewrite Hbuf'.
      replace (Z.to_nat (maxlen - (index + 1))) with O by lia. replace (Z.to_nat (maxlen - index)) with O by lia. simpl.
      replace (Z.max (index + 1) _) with (index + 1) by lia. replace (Z.max index _) with index by lia.
      by rewrite !take_drop.
Qed.

(** What [vsnprintf] leaves in a buffer of which [len] characters may be used. *)
Definition filled (len : Z) (out buf : list Z) : list Z :=
  if len =? 0 then buf
  else let n := Z.to_nat (Z.min (zlen out) (len - 1)) in take n out ++ 0 :: drop (S n) buf.

Lemma write_internal {T} (func : Z -> Z -> M T unit) fuel m strings maxlen fmt args out s i s' :
  (forall p str, strings p = Some str -> cstr m p str /\ zlen str < 2 ^ 32 /\ zlen str < Z.of_nat fuel) ->
  Forall arg_ok args -> render strings fuel fmt args = Some out -> zlen out < 2 ^ 31 ->
  write_all func 0 out s = Some (i, s') ->
  print_internal func fuel m maxlen fmt args s =
    (func 0 (if zlen out <? maxlen then zlen out else u64 (maxlen - 1));; mret (zlen out)) s'.
Proof.
  intros Hs Ha Hr Ho Hw. unfold print_internal. unfold mbind at 1, M_bind at 1.
  rewrite (says_loop func fuel m strings Hs fuel fuel 0 fmt args out) by done. rewrite Hw.
  apply write_all_index in Hw as ->. rewrite advance_len by lia. pose proof (zlen_nonneg out). rewrite wrap_small by lia.
  rewrite Z.add_0_l. replace (s32 (zlen out)) with (zlen out); [done|].
  unfold swrap. rewrite Z.mod_small by lia. zcases; lia.
Qed.

(** The outcome of formatting into a buffer. *)
Lemma vsnprintf_text fuel m strings len fmt args out buf :
  (forall p str, strings p = Some str -> cstr m p str /\ zlen str < 2 ^ 32 /\ zlen str < Z.of_nat fuel) ->
  Forall arg_ok args -> render strings fuel fmt args = Some out -> zlen out < 2 ^ 31 ->
  0 <= len <= zlen buf -> len < 2 ^ 64 ->
  vsnprintf fuel m len fmt args buf = Some (zlen out, filled len out buf).
Proof.
  intros Hs Ha Hr Ho Hlen Hmax. pose proof (zlen_nonneg out). unfold vsnprintf.
  destruct (write_buffer_all len out 0 buf) as (buf' & E & Hbuf'); [lia..|].
  rewrite (write_internal _ _ _ strings _ _ _ out _ _ _ Hs Ha Hr Ho E). clear E. simpl in Hbuf'.
  rewrite Z.sub_0_r in Hbuf'. unfold mbind, M_bind, write_buffer, filled. destruct (Z.eqb_spec len 0) as [->|Hl0].
  { rewrite Hbuf'. destruct (Z.ltb_spec (zlen out) 0); [lia|]. change (u64 (0 - 1)) with ULONG_MAX. simpl.
    by replace (Z.to_nat (Z.max 0 (Z.min 0 (0 + zlen out)))) with O by lia. }
  assert ((if zlen out <? len then zlen out else u64 (len - 1)) = Z.min (zlen out) (len - 1)) as ->
    by (destruct (Z.ltb_spec (zlen out) len); [|rewrite wrap_small by lia]; lia).
  assert (length buf' = length buf) as Hlen'.
  { rewrite Hbuf', length_app, length_take, length_drop. unfold zlen in *. lia. }
  destruct (Z.ltb_spec (Z.min (zlen out) (len - 1)) len); [|lia].
  rewrite zstore_lt by (unfold zlen in *; lia). orun. unfold mret, M_ret. do 2 f_equal.
  rewrite insert_take_drop by (unfold zlen in *; lia). rewrite Hbuf'. unfold zlen in *. f_equal.
  - rewrite take_app_le by (rewrite length_take; lia). rewrite take_take. f_equal. lia.
  - f_equal. destruct (Z.ltb_spec (Z.of_nat (length out)) len).
    + rewrite drop_app_ge by (rewrite length_take; lia). rewrite drop_drop, length_take. f_equal. lia.
    + rewrite drop_app_ge by (rewrite length_take; lia). rewrite drop_drop, length_take. f_equal. lia.
Qed.

(** ** The integer conversions of the C standard *)

Definition digits_of (base value : Z) : list Z := reverse (digits_low 64 base value).

(** At least [prec] digits; the value zero has no digits of its own when a
    precision is given. *)
Definition standard_digits (value base flags prec : Z) : list Z :=
  let ds := if has flags PRINTF_FLAG_PREC && (value =? 0) then []
            else (fun d => digit_char d flags) <$> digits_of base value in
  replicate (Z.to_nat (prec - zlen ds)) 48 ++ ds.

Definition standard_integer (value : Z) (negative : bool) (base prec width flags : Z) : list Z :=
  let ds := standard_digits value base flags prec in
  let sign := sign_chars negative flags in
  let pad := Z.to_nat (width - zlen sign - zlen ds) in
  if has flags PRINTF_FLAG_LEFT then sign ++ ds ++ replicate pad 32
  else if has flags PRINTF_FLAG_PAD_ZERO then sign ++ replicate pad 48 ++ ds
  else replicate pad 32 ++ sign ++ ds.

(** Digits are those of the value, from some number of steps on. *)
Lemma digits_low_stable base value : 2 <= base -> forall n n',
  0 <= value < base ^ Z.of_nat n -> (0 < n <= n')%nat ->
  digits_low n' base value = digits_low n base value.
Proof.
  intros Hb. induction n as [|n IH] in value |- *; intros n' Hv Hn; [lia|]. destruct n' as [|n']; [lia|].
  cbn [digits_low]. destruct (Z.eqb_spec (value / base) 0) as [|Hne]; [done|]. f_equal.
  rewrite Nat2Z.inj_succ, Z.pow_succ_r in Hv by lia.
  assert (0 <= value / base < base ^ Z.of_nat n) by (split; [apply Z.div_pos; lia|apply Z.div_lt_upper_bound; lia]).
  destruct n as [|n]; [simpl in *; lia|]. apply IH; [done|lia].
Qed.

Lemma digits_low_len_le n : forall base value n', 2 <= base ->
  0 <= value < base ^ Z.of_nat n -> (0 < n <= n')%nat -> zlen (digits_low n' base value) <= Z.of_nat n.
Proof. intros base value n' Hb Hv Hn. rewrite (digits_low_stable base value Hb n n') by lia. apply digits_low_len. Qed.

Lemma pow_base base n : 8 <= base -> 8 ^ Z.of_nat n <= base ^ Z.of_nat n.
Proof. intros Hb. apply Z.pow_le_mono_l. lia. Qed.

Lemma reverse_replicate {A} (x : A) n : reverse (replicate n x) = replicate n x.
Proof. induction n as [|n IH]; [done|]. simpl. rewrite reverse_cons, IH, <- replicate_S_end. done. Qed.

Lemma reverse_zero_fill l n : reverse (zero_fill l n) = replicate (Z.to_nat (Z.min n 32 - zlen l)) 48 ++ reverse l.
Proof. unfold zero_fill. by rewrite reverse_app, reverse_replicate. Qed.

Lemma zlen_reverse {A} (l : list A) : zlen (reverse l) = zlen l.
Proof. unfold zlen. by rewrite length_reverse. Qed.

Lemma sign_chars_len negative flags :
  zlen (sign_chars negative flags) =
  if negative || has flags (Z.lor PRINTF_FLAG_PLUS PRINTF_FLAG_SPACE) then 1 else 0.
Proof.
  unfold sign_chars. assert (has flags (Z.lor PRINTF_FLAG_PLUS PRINTF_FLAG_SPACE) =
    has flags PRINTF_FLAG_PLUS || has flags PRINTF_FLAG_SPACE) as ->.
  { unfold has. rewrite Z.land_lor_distr_r. unfold truthy.
    destruct (Z.eqb_spec (Z.land flags PRINTF_FLAG_PLUS) 0) as [->|H1]; [done|].
    destruct (Z.eqb_spec (Z.lor (Z.land flags PRINTF_FLAG_PLUS) (Z.land flags PRINTF_FLAG_SPACE)) 0) as [H2|]; [|done].
    apply Z.lor_eq_0_iff in H2 as [H2 _]. done. }
  destruct negative, (has flags PRINTF_FLAG_PLUS), (has flags PRINTF_FLAG_SPACE); done.
Qed.

Lemma reverse_sign negative flags : reverse (sign_chars negative flags) = sign_chars negative flags.
Proof. unfold sign_chars. by destruct negative, (has flags PRINTF_FLAG_PLUS), (has flags PRINTF_FLAG_SPACE). Qed.

Lemma sign_text_fits l negative flags :
  zlen l + zlen (sign_chars negative flags) <= 32 ->
  sign_text l negative flags = l ++ sign_chars negative flags.
Proof.
  intros Hl. unfold sign_text. destruct (Z.ltb_spec (zlen l) 32) as [|Hge]; [done|].
  destruct (sign_chars negative flags); [by rewrite app_nil_r|].
  rewrite zlen_cons in Hl. unfold zlen in *. lia.
Qed.

Lemma fill_nothing l : zero_fill l 0 = l.
Proof.
  unfold zero_fill. pose proof (zlen_nonneg l). replace (Z.to_nat _) with O by lia. apply app_nil_r.
Qed.

(** The digits that [print_long] collects are those of the standard. *)
Definition long_digits (value base flags : Z) : list Z :=
  if negb (has flags PRINTF_FLAG_PREC) || truthy value
  then (fun d => digit_char d flags) <$> digits_low 32 base value else [].

Lemma long_digits_standard value base flags prec :
  0 <= value < 2 ^ 64 -> 8 <= base -> 
  zlen (long_digits value base flags) <= 22 /\
  standard_digits value base flags prec =
    replicate (Z.to_nat (prec - zlen (long_digits value base flags))) 48 ++ reverse (long_digits value base flags).
Proof.
  intros Hv Hb. unfold long_digits, standard_digits, truthy.
  pose proof (pow_base base 22 Hb) as Hpow. change (8 ^ Z.of_nat 22) with 73786976294838206464 in Hpow.
  rewrite <- negb_andb. destruct (has flags PRINTF_FLAG_PREC && (value =? 0)); cbn [negb]; [done|]. split.
  - unfold zlen. rewrite length_fmap. apply (digits_low_len_le 22); lia.
  - assert (digits_of base value = reverse (digits_low 32 base value)) as ->.
    { unfold digits_of. by rewrite (digits_low_stable base value ltac:(lia) 22 64), (digits_low_stable base value ltac:(lia) 22 32) by lia. }
    by rewrite fmap_reverse, zlen_reverse.
Qed.

Lemma integer_text_standard value negative base prec width flags :
  0 <= value < 2 ^ 64 -> 8 <= base -> 0 <= prec <= 31 -> 0 <= width ->
  has flags PRINTF_FLAG_SPECIAL = false -> (has flags PRINTF_FLAG_PAD_ZERO = true -> prec = 0 /\ width <= 32) ->
  (has flags PRINTF_FLAG_LEFT = true -> prec = 0) ->
  integer_text value negative base prec width flags = Some (standard_integer value negative base prec width flags).
Proof.
  intros Hv Hb Hp Hw Hsp Hzero Hleft. unfold integer_text, standard_integer. cbv zeta.
  fold (long_digits value base flags). destruct (long_digits_standard value base flags prec Hv Hb) as [Hl ->].
  generalize dependent (long_digits value base flags). intros l Hl. pose proof (zlen_nonneg l).
  unfold special_text. rewrite Hsp. orun. f_equal. unfold fill_text, digit_width, pad_text. pose proof (sign_chars_len negative flags) as Hs.
  destruct (has flags PRINTF_FLAG_LEFT); cbn [negb andb].
  - rewrite Hleft by done. replace (Z.to_nat (0 - zlen l)) with O by lia. simpl.
    rewrite sign_text_fits by (destruct (_ || _); lia). rewrite reverse_app, reverse_sign, <- app_assoc. unfold spaces.
    do 3 f_equal. rewrite zlen_app, zlen_reverse. lia.
  - destruct (has flags PRINTF_FLAG_PAD_ZERO); cbn [negb andb].
    + destruct (Hzero eq_refl) as [-> Hw']. rewrite fill_nothing, andb_true_r. unfold truthy.
      replace (Z.to_nat (0 - zlen l)) with O by lia. simpl. rewrite zlen_reverse.
      set (w := if negb (width =? 0) && _ then width - 1 else width).
      assert (zlen (zero_fill l w) + zlen (sign_chars negative flags) <= 32).
      { unfold zero_fill. autorewrite with carray. rewrite Hs. subst w.
        destruct (_ || _); rewrite ?andb_true_r, ?andb_false_r; destruct (Z.eqb_spec width 0); simpl; lia. }
      rewrite sign_text_fits by done. rewrite reverse_app, reverse_sign, reverse_zero_fill.
      do 3 f_equal. rewrite Hs. subst w.
      destruct (_ || _); rewrite ?andb_true_r, ?andb_false_r; destruct (Z.eqb_spec width 0); simpl; lia.
    + rewrite andb_false_r. cbn [andb].
      assert (zlen (zero_fill l prec) + zlen (sign_chars negative flags) <= 32).
      { unfold zero_fill. autorewrite with carray. rewrite Hs. destruct (_ || _); lia. }
      rewrite sign_text_fits, reverse_app, reverse_sign, reverse_zero_fill by done. unfold spaces.
      replace (Z.min prec 32) with prec by lia. f_equal. f_equal. autorewrite with carray. rewrite zlen_reverse.
      unfold zero_fill. autorewrite with carray. lia.
Qed.

(** C34: an integer conversion in a base from 8 on prints what the C standard says -
    sign, zeros up to the precision, the digits of the value, and padding on the
    side and with the character that the flags ask for - under these restrictions:
    no [#] flag, a precision of at most 31 (none with the left flag), and zero
    padding only without a precision and to a width of at most 32. Outside of them
    the code departs from the standard, [left_ignores_precision],
    [zero_padding_stops] and [special_overruns] below. *)
Theorem print_long_standard {T} (func : Z -> Z -> M T unit) index value negative base prec width flags s :
  0 <= index < 2 ^ 64 -> 0 <= value < 2 ^ 64 -> 8 <= base -> 0 <= prec <= 31 -> 0 <= width < 2 ^ 32 ->
  has flags PRINTF_FLAG_SPECIAL = false -> (has flags PRINTF_FLAG_PAD_ZERO = true -> prec = 0 /\ width <= 32) ->
  (has flags PRINTF_FLAG_LEFT = true -> prec = 0) ->
  print_long func index value negative base prec width flags s =
  write_all func index (standard_integer value negative base prec width flags) s.
Proof.
  intros Hi Hv Hb Hp Hw Hsp Hzero Hleft. apply says_long; [done..|]. by apply integer_text_standard; [..|lia|done|done|done].
Qed.
(** C33: formatted output to a buffer returns the length of the whole text and
    never touches the buffer beyond the given length: it leaves there the text,
    cut to leave room for a terminator, the terminator, and the rest unchanged.
    This is for the formats that have a text in the reference [render]: each
    directive is complete and has an argument of its type, [%s] the address of a
    string, [%d] not the most negative value, and the digits of a conversion with
    [#] fit the 32 characters of the buffer for digits together with their prefix
    (as they do not for [%#.31x], or [%#b] of a large number, [special_overruns]
    below). *)
Theorem vsnprintf_correct fuel m strings len fmt args out buf :
  (forall p str, strings p = Some str -> cstr m p str /\ zlen str < 2 ^ 32 /\ zlen str < Z.of_nat fuel) ->
  Forall arg_ok args -> render strings fuel fmt args = Some out -> zlen out < 2 ^ 31 ->
  0 <= len <= zlen buf -> len < 2 ^ 64 ->
  vsnprintf fuel m len fmt args buf = Some (zlen out, filled len out buf).
Proof. apply vsnprintf_text. Qed.

(** ** Printing and reading a number *)

Definition fmt_lu : list Z := [37; 108; 117].

Lemma digits_low_ok n : forall value, 0 <= value < 10 ^ Z.of_nat n ->
  Forall (fun d => 0 <= d < 10) (digits_low n 10 value) /\
  decimal (reverse (digits_low n 10 value)) = value.
Proof.
  induction n as [|n IH]; intros value Hv; [simpl in Hv; split; [done|]; change (0 = value); lia|]. cbn [digits_low].
  rewrite reverse_cons. unfold decimal. rewrite foldl_app. simpl.
  rewrite Nat2Z.inj_succ, Z.pow_succ_r in Hv by lia.
  destruct (Z.eqb_spec (value / 10) 0) as [H0|_].
  - split; [apply Forall_cons; split; [divlia|done]|]. simpl. divlia.
  - destruct (IH (value / 10)) as [H1 H2]; [divlia|].
    split; [apply Forall_cons; split; [divlia|done]|]. fold (decimal (reverse (digits_low n 10 (value / 10)))).
    rewrite H2. divlia.
Qed.

Lemma digits_of_ok value :
  0 <= value < 2 ^ 64 -> Forall (fun d => 0 <= d < 10) (digits_of 10 value) /\
    decimal (digits_of 10 value) = value /\ digits_of 10 value <> [] /\ zlen (digits_of 10 value) <= 22.
Proof.
  intros Hv. assert (2 ^ 64 <= 10 ^ Z.of_nat 64 /\ 2 ^ 64 <= 10 ^ Z.of_nat 22) as [? ?] by (by vm_compute).
  unfold digits_of. destruct (digits_low_ok 64 value) as [H1 H2]; [lia|]. split; [by apply Forall_reverse|].
  split; [done|]. rewrite zlen_reverse. split; [|apply (digits_low_len_le 22); lia].
  intros E. apply (f_equal length) in E. by rewrite length_reverse in E.
Qed.

Lemma lu_text strings n v :
  0 <= v < 2 ^ 64 -> render strings (4 + n) fmt_lu [ALong v] = Some (digit_chars (digits_of 10 v)).
Proof.
  intros Hv. cbn [Nat.add render fmt_lu]. change (negb (37 =? 37)) with false. cbv iota.
  change (parse_directive [108; 117] [ALong v]) with (Some (mk_directive 256 0 0 [117] [ALong v])). orun.
  unfold directive_text. cbn [d_fmt d_flags d_args d_prec d_width].
  change (is_integer 117) with true. change (integer_flags 117 256) with 256. cbv iota zeta.
  change (integer_arg 117 256 [ALong v]) with (Some (u64 v, false, @nil arg)). orun. rewrite wrap_small by done.
  change (integer_base 117) with 10.
  rewrite integer_text_standard by (done || lia). orun. unfold fmap, option_fmap, option_map. f_equal.
  unfold standard_integer, standard_digits. change (has 256 PRINTF_FLAG_PREC) with false.
  change (has 256 PRINTF_FLAG_LEFT) with false. change (has 256 PRINTF_FLAG_PAD_ZERO) with false.
  change (sign_chars false 256) with (@nil Z). cbn [andb app]. set (ds := _ <$> digits_of 10 v).
  pose proof (zlen_nonneg ds). replace (Z.to_nat (0 - zlen ds)) with O by lia. simpl.
  replace (Z.to_nat (0 - zlen [] - zlen ds)) with O by (change (zlen (@nil Z)) with 0; lia). simpl. rewrite app_nil_r.
  subst ds. apply list_fmap_ext. intros i d Hd. destruct (digits_of_ok v Hv) as [Hall _].
  pose proof (Forall_lookup_1 _ _ _ _ Hall Hd) as Hr. simpl in Hr. unfold digit_char. destruct (Z.ltb_spec d 10); lia.
Qed.

(** A number printed with [%lu] into a buffer of 32 characters is read back
    by [strtoul], which stops at the end of the text. *)
Theorem print_parse_roundtrip fuel m v buf :
  0 <= v < 2 ^ 64 -> (24 <= fuel)%nat -> zlen buf = 32 ->
  exists n buf', vsnprintf fuel m 32 fmt_lu [ALong v] buf = Some (n, buf') /\
    forall m' p, 0 < p -> (forall k, 0 <= k < 32 -> m' !! (p + k) = buf' !! Z.to_nat k) ->
      strtoul fuel m' p 10 = Some (v, p + n).
Proof.
  intros Hv Hf Hb. destruct (digits_of_ok v Hv) as (Hd & Hval & Hne & Hlen).
  set (ds := digits_of 10 v) in *. assert (zlen (digit_chars ds) = zlen ds) as Hcs by (unfold zlen, digit_chars; by rewrite length_fmap).
  exists (zlen ds), (filled 32 (digit_chars ds) buf). split.
  - rewrite <- Hcs. apply (vsnprintf_text fuel m (fun _ => None)); [done|by apply Forall_singleton| |lia..].
    replace fuel with (4 + (fuel - 4))%nat by lia. by apply lu_text.
  - intros m' p Hp Hm. pose proof (zlen_nonneg ds).
    replace v with (Z.min (decimal ds) ULONG_MAX) by lia. apply strtoul_decimal; try done; [|lia]. split.
    + apply Forall_fmap. apply (Forall_impl _ _ _ Hd). simpl. lia.
    + intros k Hk. rewrite Hcs in Hk. rewrite Hm by lia. unfold filled. simpl.
      rewrite Hcs, Z.min_l by lia. rewrite take_ge by (unfold zlen in *; lia).
      destruct (Z.eq_dec k (zlen ds)) as [->|].
      * rewrite !lookup_app_r by (unfold zlen in *; lia). unfold zlen in *.
        by replace (Z.to_nat (Z.of_nat (length ds)) - length (digit_chars ds))%nat with O by lia.
      * by rewrite !lookup_app_l by (unfold zlen in *; lia).
Qed.

(** ** Concrete formats *)

Definition chars (s : String.string) : list Z := (fun a => Z.of_N (Ascii.N_of_ascii a)) <$> String.list_ascii_of_string s.

Definition demo_strings (p : Z) : option (list Z) := if p =? 67 then Some hello else None.

Lemma demo_strings_ok p str : demo_strings p = Some str -> cstr demo_mem p str /\ zlen str < 2 ^ 32 /\ zlen str < Z.of_nat 50.
Proof. unfold demo_strings. destruct (Z.eqb_spec p 67) as [->|]; [|done]. intros [= <-]. by split; [apply demo_cstr|]. Qed.

Definition demo_fmt : list Z := chars "%5d|%-8.5s|%#x|%H"%string.
Definition demo_args : list arg := [AInt (-42); APtr 67; AInt 48879; ALong 20480].

Lemma vsnprintf_correct_witness :
  vsnprintf 50 demo_mem 16 demo_fmt demo_args (replicate 20 7) =
  Some (25, filled 16 (chars "  -42|hello   |0xbeef|20K"%string) (replicate 20 7)).
Proof.
  apply (vsnprintf_correct 50 demo_mem demo_strings 16 demo_fmt demo_args (chars "  -42|hello   |0xbeef|20K"%string) (replicate 20 7)).
  - exact demo_strings_ok.
  - repeat constructor; vm_compute; done.
  - vm_compute. reflexivity.
  - done.
  - done.
  - done.
Defined.

Lemma print_long_standard_witness :
  print_long (write_buffer 8) 0 42 true 10 0 6 PRINTF_FLAG_PAD_ZERO (replicate 8 7) =
  write_all (write_buffer 8) 0 (chars "-00042"%string) (replicate 8 7).
Proof.
  apply (print_long_standard (write_buffer 8) 0 42 true 10 0 6 PRINTF_FLAG_PAD_ZERO (replicate 8 7)); done.
Defined.

Lemma print_parse_roundtrip_witness :
  exists n buf', vsnprintf 24 ∅ 32 fmt_lu [ALong ULONG_MAX] (replicate 32 0) = Some (n, buf') /\
    forall m' p, 0 < p -> (forall k, 0 <= k < 32 -> m' !! (p + k) = buf' !! Z.to_nat k) ->
      strtoul 24 m' p 10 = Some (ULONG_MAX, p + n).
Proof. apply (print_parse_roundtrip 24 ∅ ULONG_MAX (replicate 32 0)); [done|lia|done]. Defined.

(** ** Defects *)

(** The text of a format that fits into 64 characters. *)
Definition text64 (fmt : String.string) (args : list arg) : option (Z * list Z) :=
  '(n, buf) ← vsnprintf 200 demo_mem 64 (chars fmt) args (replicate 64 0); Some (n, take (Z.to_nat n) buf).

(** [%#b] of a value with 31 binary digits stores past the end of the buffer
    for digits. *)
Lemma special_overruns : text64 "%#b"%string [AInt 2147483647] = None.
Proof. by vm_compute. Qed.

(** [%x] and [%u] of a negative [int], which is also how an [unsigned int] with
    the top bit set arrives, print a 64-bit value. *)
Lemma unsigned_sign_extends :
  text64 "%x"%string [AInt (-1)] = Some (16, chars "ffffffffffffffff"%string) /\
  text64 "%u"%string [AInt (-1)] = Some (20, chars "18446744073709551615"%string).
Proof. by vm_compute. Qed.

(** A precision is ignored together with the left flag. *)
Lemma left_ignores_precision : text64 "%-.3d"%string [AInt 7] = Some (1, chars "7"%string).
Proof. by vm_compute. Qed.

(** Zeros fill at most 32 characters of the width. *)
Lemma zero_padding_stops : text64 "%040d"%string [AInt 7] = Some (32, replicate 31 48 ++ [55]).
Proof. by vm_compute. Qed.

(** [%lb] drops all but the low 32 digits. *)
Lemma binary_truncated : text64 "%lb"%string [ALong (2 ^ 32)] = Some (32, replicate 32 48).
Proof. by vm_compute. Qed.

(** A format that ends after a percent sign is read past its terminator. *)
Lemma percent_at_end : text64 "100%"%string [] = None.
Proof. by vm_compute. Qed.

(** [%.3s] reads a fourth character, here beyond the object. *)
Lemma precision_reads_one_more :
  (r ← vsnprintf 20 (mem_of 64 [97; 98; 99]) 8 (chars "%.3s"%string) [APtr 64]; mret r) (replicate 8 0) = None.
Proof. by vm_compute. Qed.
End Printf.
