(* ===== verification/Tty.v ===== *)
(** * Terminals (drivers/tty.c, ttydev.c, ioctl.c, vgatext.c, ps2kbd.c)

    Module [Tty]: the line discipline of a terminal with its input buffer, the
    cursor and the output of characters, the text screen that shows them, the
    keyboard that feeds them, and reading, writing and controlling the terminal
    as a device. The functions of the output backend are an interface that the
    text screen implements. *)

From S2P Require Import Prelude CBits Hash HashMap CString.

Module Tty.
Import CBits CString.

Abbreviation TTY_INPUT_BUFFER_SIZE := 1024.
Abbreviation TTY_FLAG_LITERAL_INPUT := 1.
Abbreviation TTY_FLAG_FLUSH := 2.
Abbreviation TTY_FLAG_EXCL := 4.
Abbreviation EOF := (-1).

(** Indices of [c_cc] and bits of the flags (include/pml/termios.h). *)
Abbreviation VINTR := 0.
Abbreviation VQUIT := 1.
Abbreviation VERASE := 2.
Abbreviation VKILL := 3.
Abbreviation VEOF := 4.
Abbreviation VTIME := 5.
Abbreviation VMIN := 6.
Abbreviation VSUSP := 9.
Abbreviation VEOL := 10.
Abbreviation VREPRINT := 11.
Abbreviation VWERASE := 13.
Abbreviation VLNEXT := 14.
Abbreviation VEOL2 := 15.
Abbreviation IMAXBEL := 0x2000.
Abbreviation ISIG := 1.
Abbreviation ICANON := 2.
Abbreviation ECHO := 8.
Abbreviation ECHOE := 16.
Abbreviation ECHOK := 32.
Abbreviation ECHONL := 64.
Abbreviation ECHOCTL := 128.
Abbreviation ECHOKE := 512.
Abbreviation TOSTOP := 0x2000.
Abbreviation IEXTEN := 0x8000.
Abbreviation SIGINT := 2.
Abbreviation SIGQUIT := 3.
Abbreviation SIGTSTP := 20.
Abbreviation SIGTTOU := 22.
Abbreviation SIGWINCH := 28.

(** [struct termios]: [c_cc] is an array of NCCS bytes, used at constant
    indices. *)
Record termios := mk_termios { c_iflag : Z; c_oflag : Z; c_cflag : Z; c_lflag : Z; c_cc : Z -> Z }.

(** [struct tty], with the input buffer in place. *)
Record tty := mk_tty {
  color : Z; width : Z; height : Z; x : Z; y : Z; screen : list Z;
  flags : Z; pgid : Z; sid : Z;
  buffer : list Z; start : Z; endp : Z;
  tios : termios
}.

Definition set_xy (t : tty) (a b : Z) : tty :=
  mk_tty (color t) (width t) (height t) a b (screen t) (flags t) (pgid t) (sid t) (buffer t) (start t) (endp t) (tios t).
Definition set_screen (t : tty) (l : list Z) : tty :=
  mk_tty (color t) (width t) (height t) (x t) (y t) l (flags t) (pgid t) (sid t) (buffer t) (start t) (endp t) (tios t).
Definition set_flags (t : tty) (f : Z) : tty :=
  mk_tty (color t) (width t) (height t) (x t) (y t) (screen t) f (pgid t) (sid t) (buffer t) (start t) (endp t) (tios t).
Definition set_input (t : tty) (b : list Z) (s e : Z) : tty :=
  mk_tty (color t) (width t) (height t) (x t) (y t) (screen t) (flags t) (pgid t) (sid t) b s e (tios t).
Definition set_termios (t : tty) (tp : termios) : tty :=
  mk_tty (color t) (width t) (height t) (x t) (y t) (screen t) (flags t) (pgid t) (sid t) (buffer t) (start t) (endp t) tp.
Definition set_size (t : tty) (w h : Z) : tty :=
  mk_tty (color t) w h (x t) (y t) (screen t) (flags t) (pgid t) (sid t) (buffer t) (start t) (endp t) (tios t).
Definition set_pgid (t : tty) (g : Z) : tty :=
  mk_tty (color t) (width t) (height t) (x t) (y t) (screen t) (flags t) g (sid t) (buffer t) (start t) (endp t) (tios t).

(** Signals sent: [sys_kill (pid, sig)], [sys_killpg (pgrp, sig)], and a signal to
    the calling process. *)
Inductive sent := SysKill (pid sig : Z) | SysKillpg (pgrp sig : Z) | SendSelf (sig : Z).

(** The terminals by address, [current_tty], the text memory of the display, the
    bytes sent to its ports, the keys that are held, and the calls made to the
    bell and to send signals. *)
Record world := mk_world {
  ttys : gmap Z tty; current_tty : Z; vga_text_buffer : list Z; ports : list (Z * Z);
  kbd_pressed : list Z; key_extended : bool; beeps : nat; kills : list sent
}.

Definition set_ttys (w : world) (m : gmap Z tty) : world :=
  mk_world m (current_tty w) (vga_text_buffer w) (ports w) (kbd_pressed w) (key_extended w) (beeps w) (kills w).
Definition set_vga (w : world) (l : list Z) : world :=
  mk_world (ttys w) (current_tty w) l (ports w) (kbd_pressed w) (key_extended w) (beeps w) (kills w).
Definition add_ports (w : world) (l : list (Z * Z)) : world :=
  mk_world (ttys w) (current_tty w) (vga_text_buffer w) (ports w ++ l) (kbd_pressed w) (key_extended w) (beeps w) (kills w).
Definition set_keys (w : world) (l : list Z) : world :=
  mk_world (ttys w) (current_tty w) (vga_text_buffer w) (ports w) l (key_extended w) (beeps w) (kills w).
Definition set_extended (w : world) (b : bool) : world :=
  mk_world (ttys w) (current_tty w) (vga_text_buffer w) (ports w) (kbd_pressed w) b (beeps w) (kills w).
Definition pcspk_beep (w : world) : world :=
  mk_world (ttys w) (current_tty w) (vga_text_buffer w) (ports w) (kbd_pressed w) (key_extended w) (S (beeps w)) (kills w).
Definition add_kill (w : world) (k : sent) : world :=
  mk_world (ttys w) (current_tty w) (vga_text_buffer w) (ports w) (kbd_pressed w) (key_extended w) (beeps w) (kills w ++ [k]).

Definition get (a : Z) : M world tty := w ← gets (fun w => w); lift (ttys w !! a).
Definition put (a : Z) (t : tty) : M world unit := modify (fun w => set_ttys w (<[a := t]> (ttys w))).
Definition upd (a : Z) (f : tty -> tty) : M world unit := t ← get a; put a (f t).
Definition outb (v port : Z) : M world unit := modify (fun w => add_ports w [(v, port)]).
Definition send (k : sent) : M world unit := modify (fun w => add_kill w k).

(** [CHAR_MATCH (c, tp, x)] and [tp->c_lflag & f] *)
Definition char_match (c : Z) (tp : termios) (i : Z) : bool := (c =? c_cc tp i) && negb (c_cc tp i =? 0xff).
Definition lflag (tp : termios) (f : Z) : bool := truthy (Z.land (c_lflag tp) f).

(** [iscntrl] of include/ctype.h. *)
Definition iscntrl (c : Z) : bool := (u8 c <? 32) || (c =? 127).

(** [struct tty_output] *)
Record tty_output := mk_output {
  write_char : Z -> Z -> Z -> Z -> M world Z;
  clear : Z -> M world Z;
  update_cursor : Z -> M world Z;
  scroll_down : Z -> M world Z;
  erase_char : Z -> M world Z;
  erase_line : Z -> Z -> M world Z
}.

Section tty.
Context (out : tty_output).

(** ** Output *)

(** What a character does before the cursor moves: whether the line ends, or
    [None] when it cannot be written. *)
Definition place_char (a c : Z) : M world (option bool) :=
  t ← get a;
  if c =? 10 then put a (set_xy t 0 (y t));; mret (Some true)
  else if (c =? 11) || (c =? 12) then mret (Some true)
  else if c =? 9 then put a (set_xy t (Z.lor (x t) 7) (y t));; mret (Some false)
  else r ← write_char out a (x t) (y t) (u8 c); mret (if truthy r then None else Some false).

(** [if (!wrap && ++tty->x == tty->width)] *)
Definition next_column (a : Z) (wrap : bool) : M world bool :=
  if wrap then mret true else
  t ← get a;
  let nx := u64 (x t + 1) in
  if nx =? width t then put a (set_xy t 0 (y t));; mret true
  else put a (set_xy t nx (y t));; mret false.

(** [if (wrap && ++tty->y == tty->height)]; whether scrolling worked. *)
Definition next_row (a : Z) (wrap : bool) : M world bool :=
  if negb wrap then mret true else
  t ← get a;
  let ny := u64 (y t + 1) in
  put a (set_xy t (x t) ny);;
  if ny =? height t then
    r ← scroll_down out a;
    if truthy r then mret false else upd a (fun t => set_xy t (x t) (u64 (y t - 1)));; mret true
  else mret true.

Definition tty_putchar (a c : Z) : M world Z :=
  if c =? 0 then mret c else
  if c =? 13 then upd a (fun t => set_xy t 0 (y t));; update_cursor out a;; mret c else
  r ← place_char a c;
  match r with
  | None => mret EOF
  | Some wrap =>
      wrap ← next_column a wrap;
      ok ← next_row a wrap;
      if negb ok then mret EOF else update_cursor out a;; mret c
  end.

Definition tty_output_byte (a c len : Z) : M world unit :=
  t ← get a;
  let tp := tios t in
  if lflag tp ICANON && char_match c tp VERASE && lflag tp ECHOE then
    (if truthy len then erase_char out a;; mret tt else mret tt)
  else if lflag tp ICANON && char_match c tp VWERASE && (lflag tp ECHOE || lflag tp (Z.lor ECHOK ECHOKE)) then
    erase_line out a len;; mret tt
  else if (c =? 10) || (c =? 9) then tty_putchar a c;; mret tt
  else if iscntrl c && lflag tp ECHOCTL then
    if negb (char_match c tp VEOF) || truthy (x t) then
      tty_putchar a 94;; tty_putchar a (c + 0x40);; mret tt
    else mret tt
  else tty_putchar a c;; mret tt.

(** ** Input *)

(** [tty_recv]: room is made when the buffer is full and partly read. *)
Definition tty_recv (a c : Z) : M world unit :=
  t ← get a;
  t ← lift (
    if (TTY_INPUT_BUFFER_SIZE - 1 <=? endp t) && truthy (start t) then
      let n := u64 (endp t - start t) in
      b ← (if start t + n <=? zlen (buffer t)
           then blit (buffer t) 0 (take (Z.to_nat n) (drop (Z.to_nat (start t)) (buffer t))) else None);
      Some (set_input t b 0 n)
    else Some t);
  put a t;;
  if (TTY_INPUT_BUFFER_SIZE - 1 <=? endp t) && (negb (lflag (tios t) ICANON) || negb (c =? 10)) then
    if truthy (Z.land (c_iflag (tios t)) IMAXBEL) then modify pcspk_beep else mret tt
  else
    b ← lift ((buffer t).[endp t <- c]);
    put a (set_input t b (start t) (u64 (endp t + 1))).

Definition tty_flush_input_line (a delim : Z) : M world unit :=
  (if truthy delim then tty_recv a delim else mret tt);;
  upd a (fun t => set_flags t (Z.lor (flags t) TTY_FLAG_FLUSH)).

Definition tty_erase_input (a : Z) : M world Z :=
  t ← get a;
  if truthy (endp t) then
    b ← lift ((buffer t).[endp t - 1]);
    if negb (char_match b (tios t) VEOF)
    then put a (set_input t (buffer t) (start t) (endp t - 1));; mret 1 else mret 0
  else mret 0.

(** One of the two loops of [tty_erase_input_word]: [i] is signed, the test
    against the start is not. *)
Fixpoint skip_back (fuel : nat) (t : tty) (space : bool) (i : Z) : option Z :=
  if start t <=? u64 i then
    b ← (buffer t).[i];
    if Bool.eqb (isspace b) space && negb (char_match b (tios t) VEOF) then
      match fuel with O => None | S fuel => skip_back fuel t space (i - 1) end
    else Some i
  else Some i.

Definition tty_erase_input_word (a : Z) : M world Z :=
  t ← get a;
  i ← lift (skip_back 1024 t true (s32 (endp t - 1)));
  i ← lift (skip_back 1024 t false i);
  let i := if i <? 0 then 0 else i + 1 in
  put a (set_input t (buffer t) (start t) i);;
  mret (u64 (endp t - i)).

(** [memrchr (input->buffer, c, n)]: the index of the last [c]. *)
Fixpoint last_index (l : list Z) (c : Z) (n : nat) : option Z :=
  match n with
  | O => None
  | S n => match l !! n with
           | Some b => if b =? c then Some (Z.of_nat n) else last_index l c n
           | None => last_index l c n
           end
  end.

Definition tty_kill_input (a : Z) : M world Z :=
  t ← get a;
  let ptr := if c_cc (tios t) VEOF =? 0xff then None
             else last_index (buffer t) (c_cc (tios t) VEOF) (Z.to_nat (endp t)) in
  match ptr with
  | Some i =>
      if i <? start t then put a (set_input t (buffer t) 0 0);; mret (u64 (endp t - start t))
      else put a (set_input t (buffer t) (start t) i);; mret (endp t - i)
  | None => put a (set_input t (buffer t) 0 0);; mret (u64 (endp t - start t))
  end.

(** [for (i = input->start; input->end; i++)]: the condition does not change. *)
Fixpoint reprint_loop (fuel : nat) (a i : Z) : M world unit :=
  t ← get a;
  if negb (truthy (endp t)) then mret tt else
  match fuel with
  | O => fault
  | S fuel => b ← lift ((buffer t).[i]); tty_output_byte a b 0;; reprint_loop fuel a (i + 1)
  end.
Definition tty_reprint_input (a : Z) : M world unit :=
  t ← get a; reprint_loop 1025 a (start t).

(** The control sequences of canonical mode: the number of characters erased, or
    [None] when the character is not one of them. *)
Definition control_input (a c : Z) : M world (option Z) :=
  t ← get a;
  let tp := tios t in
  if (c =? 10) || char_match c tp VEOL || char_match c tp VEOL2 then tty_flush_input_line a c;; mret (Some 0)
  else if char_match c tp VEOF && negb (truthy (endp t)) then tty_flush_input_line a 0;; mret (Some 0)
  else if char_match c tp VERASE then len ← tty_erase_input a; mret (Some len)
  else if char_match c tp VKILL then len ← tty_kill_input a; mret (Some len)
  else if lflag tp IEXTEN then
    if char_match c tp VWERASE then len ← tty_erase_input_word a; mret (Some len)
    else if char_match c tp VREPRINT then tty_reprint_input a;; mret (Some 0)
    else if char_match c tp VLNEXT then
      upd a (fun t => set_flags t (Z.lor (flags t) TTY_FLAG_LITERAL_INPUT));; mret (Some 0)
    else mret None
  else mret None.

Definition signal_of (tp : termios) (c : Z) : Z :=
  if negb (lflag tp ISIG) then 0
  else if char_match c tp VINTR then SIGINT
  else if char_match c tp VSUSP then SIGTSTP
  else if char_match c tp VQUIT then SIGQUIT
  else 0.

(** The echo after the label [end]. *)
Definition echo_input (a c len : Z) : M world unit :=
  t ← get a;
  if lflag (tios t) ECHO then tty_output_byte a c len
  else if (c =? 10) && lflag (tios t) ECHONL then tty_output_byte a 10 len
  else mret tt.

Definition tty_input_byte (a c : Z) : M world unit :=
  t ← get a;
  if truthy (Z.land (flags t) TTY_FLAG_LITERAL_INPUT) then
    put a (set_flags t (Z.land (flags t) (Z.lnot TTY_FLAG_LITERAL_INPUT)));;
    tty_recv a c;; echo_input a c 0
  else
    done ← (if lflag (tios t) ICANON then control_input a c else mret None);
    match done with
    | Some len => echo_input a c len
    | None =>
        let sig := signal_of (tios t) c in
        if truthy sig then send (SysKill (- pgid t) sig)
        else tty_recv a c;; echo_input a c 0
    end.

(** ** The terminal as a device *)

(** A read waits, or returns a status and perhaps a character. *)
Inductive read_result := Waits | Returns (status : Z) (c : option Z).

(** From the label [ready] on. *)
Definition tty_read_ready (a : Z) : M world read_result :=
  t ← get a;
  if start t =? endp t then
    put a (set_flags t (Z.land (flags t) (Z.lnot TTY_FLAG_FLUSH)));; mret (Returns 0 None)
  else
    c ← lift ((buffer t).[start t]);
    let s := u64 (start t + 1) in
    if s =? endp t then
      put a (set_flags (set_input t (buffer t) 0 0) (Z.land (flags t) (Z.lnot TTY_FLAG_FLUSH)));;
      mret (Returns 2 (Some c))
    else put a (set_input t (buffer t) s (endp t));; mret (Returns 1 (Some c)).

(** [while (!(tty->flags & TTY_FLAG_FLUSH))]: whether the wait is over. *)
Definition tty_wait_input_ready (t : tty) : bool := truthy (Z.land (flags t) TTY_FLAG_FLUSH).

(** The loops with a time limit test [tick + time * 100 < pit_ticks] just after
    [tick = pit_ticks] and do not wait. *)
Definition tty_device_read (a : Z) : M world read_result :=
  t ← get a;
  if lflag (tios t) ICANON then
    if tty_wait_input_ready t then tty_read_ready a else mret Waits
  else
    let min := c_cc (tios t) VMIN in
    let time := c_cc (tios t) VTIME in
    if negb (truthy min) && negb (truthy time) then
      if start t <? endp t then tty_read_ready a else mret (Returns 0 None)
    else if truthy min && negb (truthy time) then
      if u64 (endp t - start t) <? min then mret Waits else tty_read_ready a
    else if negb (truthy min) && truthy time then
      if start t =? endp t then mret (Returns 0 None) else tty_read_ready a
    else tty_read_ready a.

(** [group] is the process group of the caller. *)
Definition tty_device_write (group a c : Z) : M world (res Z) :=
  t ← get a;
  if lflag (tios t) TOSTOP && negb (group =? pgid t) then send (SendSelf SIGTTOU);; mret (Err EINTR)
  else tty_output_byte a c 0;; mret (Ok 1).

(** Requests of [sys_ioctl] with their arguments. *)
Inductive ioctl_req :=
| TCGETS | TCSETSF (tp : termios) | TCSETS (tp : termios) | TCSETSW (tp : termios)
| TIOCGWINSZ | TIOCSWINSZ (col row : Z) | TIOCINQ | TIOCOUTQ | TCFLSH (input : bool) | TIOCSTI (c : Z)
| TIOCGPGRP | TIOCSPGRP (g : Z) | TIOCGSID | TIOCEXCL | TIOCGEXCL | TIOCNXCL
| REQ_NOSYS | REQ_OTHER.

Inductive ioctl_ans := AnsDone | AnsTermios (tp : termios) | AnsSize (col row : Z) | AnsInt (n : Z).

(** [dev] is what [tty_from_fd] returns for the descriptor. *)
Definition sys_ioctl (dev : option Z) (req : ioctl_req) : M world (res ioctl_ans) :=
  match dev with None => mret (Err ENOTTY) | Some a =>
  t ← get a;
  match req with
  | TCGETS => mret (Ok (AnsTermios (tios t)))
  | TCSETSF tp => put a (set_termios (set_input t (buffer t) 0 0) tp);; mret (Ok AnsDone)
  | TCSETS tp | TCSETSW tp => put a (set_termios t tp);; mret (Ok AnsDone)
  | TIOCGWINSZ => mret (Ok (AnsSize (u16 (width t)) (u16 (height t))))
  | TIOCSWINSZ col row =>
      put a (set_size t col row);;
      (if negb (width t =? col) || negb (height t =? row) then send (SysKillpg (pgid t) SIGWINCH) else mret tt);;
      mret (Ok AnsDone)
  | TIOCINQ => mret (Ok (AnsInt (s32 (endp t - start t))))
  | TIOCOUTQ => mret (Ok (AnsInt 0))
  | TCFLSH true => put a (set_input t (buffer t) 0 0);; mret (Ok AnsDone)
  | TCFLSH false => mret (Err ENOSYS)
  | TIOCSTI c => tty_recv a (u8 c);; mret (Ok AnsDone)
  | TIOCGPGRP => mret (Ok (AnsInt (pgid t)))
  | TIOCSPGRP g => put a (set_pgid t g);; mret (Ok AnsDone)
  | TIOCGSID => mret (Ok (AnsInt (sid t)))
  | TIOCEXCL => put a (set_flags t (Z.lor (flags t) TTY_FLAG_EXCL));; mret (Ok AnsDone)
  | TIOCGEXCL => mret (Ok (AnsInt (if truthy (Z.land (flags t) TTY_FLAG_EXCL) then 1 else 0)))
  | TIOCNXCL => put a (set_flags t (Z.land (flags t) (Z.lnot TTY_FLAG_EXCL)));; mret (Ok AnsDone)
  | REQ_NOSYS => mret (Err ENOSYS)
  | REQ_OTHER => mret (Err EINVAL)
  end end.
End tty.

(** ** The text screen *)

Abbreviation VGA_PORT_INDEX := 0x3d4.
Abbreviation VGA_PORT_DATA := 0x3d5.
Abbreviation VGA_TEXT_SCREEN_WIDTH := 80.
Abbreviation VGA_TEXT_SCREEN_HEIGHT := 25.
Abbreviation VGA_TEXT_SCREEN_SIZE := 2000.

Definition vga_text_color (fg bg : Z) : Z := u8 (Z.lor fg (Z.shiftl bg 4)).
Definition vga_color_set_fg (c fg : Z) : Z := u8 (Z.lor (Z.land c 0xf0) fg).
Definition vga_color_set_bg (c bg : Z) : Z := u8 (Z.lor (Z.land c 0x0f) (Z.shiftl bg 4)).
Definition vga_text_entry (c clr : Z) : Z := u16 (Z.lor c (Z.shiftl clr 8)).
Definition vga_text_index (px py : Z) : Z := u32 (u32 py * VGA_TEXT_SCREEN_WIDTH + u32 px).

(** [memcpy (vga_text_buffer, tty->screen, VGA_TEXT_SCREEN_SIZE * 2)] when the
    terminal is the current one. *)
Definition show_screen (a : Z) : M world unit :=
  w ← gets (fun w => w);
  if a =? current_tty w then
    t ← get a;
    v ← lift (if VGA_TEXT_SCREEN_SIZE <=? zlen (screen t)
              then blit (vga_text_buffer w) 0 (take 2000 (screen t)) else None);
    modify (fun w => set_vga w v)
  else mret tt.

Definition vga_text_write_char (a px py c : Z) : M world Z :=
  t ← get a;
  let index := vga_text_index px py in
  let entry := vga_text_entry c (color t) in
  s ← lift ((screen t).[index <- entry]);
  put a (set_screen t s);;
  w ← gets (fun w => w);
  (if a =? current_tty w then
     v ← lift ((vga_text_buffer w).[index <- entry]); modify (fun w => set_vga w v)
   else mret tt);;
  mret 0.

Definition vga_text_clear (a : Z) : M world Z :=
  t ← get a;
  s ← lift (blit (screen t) 0 (replicate 2000 (vga_text_entry 32 (color t))));
  put a (set_screen t s);;
  show_screen a;;
  mret 0.

Definition vga_text_update_cursor (a : Z) : M world Z :=
  t ← get a;
  let pos := u16 (vga_text_index (u32 (x t)) (u32 (y t))) in
  outb 0x0f VGA_PORT_INDEX;;
  outb (Z.land pos 0xff) VGA_PORT_DATA;;
  outb 0x0e VGA_PORT_INDEX;;
  outb (Z.shiftr pos 8) VGA_PORT_DATA;;
  mret 0.

(** Blanks the columns from [i] of the last row. *)
Fixpoint blank_row (n : nat) (a i : Z) : M world unit :=
  match n with
  | O => mret tt
  | S n => vga_text_write_char a i (VGA_TEXT_SCREEN_HEIGHT - 1) 32;; blank_row n a (i + 1)
  end.

Definition vga_text_scroll_down (a : Z) : M world Z :=
  w ← gets (fun w => w);
  t ← get (current_tty w);
  s ← lift (if VGA_TEXT_SCREEN_SIZE <=? zlen (screen t)
            then blit (screen t) 0 (take 1920 (drop 80 (screen t))) else None);
  put (current_tty w) (set_screen t s);;
  blank_row 80 a 0;;
  show_screen a;;
  mret 0.

Definition vga_text_erase_char (a : Z) : M world Z :=
  t ← get a;
  if truthy (x t) then
    put a (set_xy t (x t - 1) (y t));;
    vga_text_write_char a (x t - 1) (y t) 32;;
    vga_text_update_cursor a;;
    mret 0
  else mret 0.

Fixpoint erase_back (n : nat) (a : Z) : M world unit :=
  match n with
  | O => mret tt
  | S n =>
      t ← get a;
      put a (set_xy t (u64 (x t - 1)) (y t));;
      vga_text_write_char a (u64 (x t - 1)) (y t) 32;;
      erase_back n a
  end.

Definition vga_text_erase_line (a len : Z) : M world Z :=
  t ← get a;
  let len := if x t <? len then x t else len in
  erase_back (Z.to_nat len) a;;
  vga_text_update_cursor a;;
  mret 0.

Definition vga_text_output : tty_output :=
  mk_output vga_text_write_char vga_text_clear vga_text_update_cursor
    vga_text_scroll_down vga_text_erase_char vga_text_erase_line.

(** The settings of [vga_text_init]; the entries of [c_cc] it leaves are zero. *)
Definition default_cc (i : Z) : Z :=
  match list_find (fun p => fst p = i)
    [(VINTR, 3); (VQUIT, 28); (VERASE, 31); (VKILL, 21); (VEOF, 4); (VTIME, 0); (VMIN, 1); (7, 17); (8, 19);
     (VSUSP, 26); (VEOL, 0xff); (VREPRINT, 18); (12, 15); (VWERASE, 23); (VLNEXT, 22); (VEOL2, 0xff)] with
  | Some (_, (_, c)) => c
  | None => 0
  end.
Definition default_termios : termios :=
  mk_termios 0x2d22 0x1805 0x5af
    (Z.lor ECHO (Z.lor ICANON (Z.lor ISIG (Z.lor IEXTEN (Z.lor ECHOE (Z.lor ECHOKE ECHOCTL)))))) default_cc.

(** The terminal keeps the rest of its fields; [kernel_tty_screen] is its screen. *)
Definition vga_text_init (kernel_tty_screen : list Z) : M world unit :=
  w ← gets (fun w => w);
  upd (current_tty w) (fun t =>
    mk_tty (vga_text_color 7 0) VGA_TEXT_SCREEN_WIDTH VGA_TEXT_SCREEN_HEIGHT (x t) (y t) kernel_tty_screen
      (flags t) (pgid t) (sid t) (buffer t) (start t) (endp t) (tios t));;
  vga_text_clear (current_tty w);;
  upd (current_tty w) (fun t => set_termios t default_termios).

(** ** The keyboard *)

Abbreviation PS2_KSC_LCTRL := 0x1d.
Abbreviation PS2_KSC_LSHIFT := 0x2a.
Abbreviation PS2_KSC_RSHIFT := 0x36.
Abbreviation PS2_KSC_EXTENDED := 0xe0.

(** [n] consecutive entries from [k] on, as designated initialisers lay them out. *)
Definition designated (l : list (Z * list Z)) : list Z :=
  fold_left (fun m kl => default m (blit m (fst kl) (snd kl))) l (replicate 128 0).

Definition kbd_layout : list Z := designated [(0,
  [0; 27; 49; 50; 51; 52; 53; 54; 55; 56; 57; 48; 45; 61;
   31; 9; 113; 119; 101; 114; 116; 121; 117; 105; 111; 112; 91; 93;
   10; 0; 97; 115; 100; 102; 103; 104; 106; 107; 108; 59; 39; 96;
   0; 92; 122; 120; 99; 118; 98; 110; 109; 44; 46; 47; 0; 42; 0; 32;
   0; 0; 0; 0; 0; 0; 0; 0; 0; 0; 0; 0; 0;
   55; 56; 57; 45; 52; 53; 54; 43; 49; 50; 51; 48; 46])].

Definition kbd_shiftmap : list Z := designated
  [(45, [95]); (61, [43]); (44, [60]); (46, [62]); (47, [63]); (59, [58]); (39, [34]); (91, [123]);
   (93, [125]); (92, [124]); (96, [126]); (48, [41; 33; 64; 35; 36; 37; 94; 38; 42; 40]);
   (97, (fun i => 65 + Z.of_nat i) <$> seq 0 26)].

Definition kbd_ctrl_kmap : list Z := designated
  [(32, [0]); (97, (fun i => 1 + Z.of_nat i) <$> seq 0 26); (91, [27; 28; 29]); (126, [30]); (63, [31])].

Definition held (keys : list Z) (k : Z) : option bool := v ← keys.[k]; Some (truthy v).

(** The character of a key, with shift and control applied. *)
Definition translate (keys : list Z) (c : Z) : option Z :=
  ls ← held keys PS2_KSC_LSHIFT;
  rs ← held keys PS2_KSC_RSHIFT;
  s ← kbd_shiftmap.[c];
  let c := if (ls || rs) && truthy s then s else c in
  ctrl ← held keys PS2_KSC_LCTRL;
  k ← kbd_ctrl_kmap.[c];
  Some (if ctrl && truthy k then k else c).

(** [kernel_tty] is the address of the console. *)
Definition kbd_recv_key (kernel_tty scancode : Z) : M world unit :=
  w ← gets (fun w => w);
  if key_extended w then modify (fun w => set_extended w false)
  else if scancode =? PS2_KSC_EXTENDED then modify (fun w => set_extended w true)
  else if 0x80 <? scancode then
    l ← lift ((kbd_pressed w).[scancode - 0x80 <- 0]); modify (fun w => set_keys w l)
  else
    l ← lift ((kbd_pressed w).[scancode <- 1]);
    modify (fun w => set_keys w l);;
    k ← lift (kbd_layout.[scancode]);
    if truthy k then
      c ← lift (translate l k);
      tty_input_byte vga_text_output kernel_tty c
    else mret tt.


(** ** What an output backend promises *)

Lemma lor_7 n : Z.lor n 7 = n / 8 * 8 + 7.
Proof. exact (lor_ones_div n 3 ltac:(lia)). Qed.

Definition on_screen (t : tty) : Prop := 0 <= x t < width t /\ 0 <= y t < height t.

(** The fields the display depends on are the same. *)
Definition same_display (t t' : tty) : Prop :=
  color t' = color t /\ width t' = width t /\ height t' = height t /\ screen t' = screen t.

(** [n] characters before the cursor are blanked, as far as the line goes. *)
Fixpoint erased (draw : Z -> list Z -> Z -> Z -> Z -> list Z) (n : nat) (t : tty) : tty :=
  match n with
  | O => t
  | S n =>
      if x t =? 0 then t
      else erased draw n (set_screen (set_xy t (x t - 1) (y t)) (draw (color t) (screen t) (x t - 1) (y t) 32))
  end.

(** [w'] is [w] with the current terminal [t'], other contents of the display
    memory, more bytes sent to the ports and perhaps the bell rung. *)
Definition shows (w : world) (t' : tty) (w' : world) : Prop :=
  exists v p n, w' = mk_world (<[current_tty w := t']> (ttys w)) (current_tty w) v (ports w ++ p)
    (kbd_pressed w) (key_extended w) n (kills w).

Section triples.
Context (shown : tty -> list Z -> Prop).

(** The current terminal is [t], at [a], and the display shows it. *)
Definition displaying (a : Z) (t : tty) (w : world) : Prop :=
  current_tty w = a /\ ttys w !! a = Some t /\ shown t (vga_text_buffer w).

(** From a world that displays [t] the code returns [r] and leaves one that
    displays [t']. *)
Definition paints {A} (a : Z) (t : tty) (m : M world A) (r : A) (t' : tty) : Prop :=
  forall w, displaying a t w -> exists w', m w = Some (r, w') /\ shows w t' w' /\ displaying a t' w'.

Lemma shows_trans w t1 w1 t2 w2 : shows w t1 w1 -> shows w1 t2 w2 -> shows w t2 w2.
Proof.
  intros (v1 & p1 & n1 & ->) (v2 & p2 & n2 & ->). cbn.
  exists v2, (p1 ++ p2), n2. by rewrite insert_insert_eq, app_assoc.
Qed.

Lemma shows_refl a t w : displaying a t w -> shows w t w.
Proof.
  intros (Ha & Ht & _). exists (vga_text_buffer w), [], (beeps w).
  rewrite app_nil_r, insert_id by by rewrite Ha. by destruct w.
Qed.

Lemma paints_ret {A} a t (r : A) : paints a t (mret r) r t.
Proof. intros w Hw. exists w. split; [done|]. split; [by eapply shows_refl | done]. Qed.

Lemma paints_bind {A B} a t (m : M world A) (k : A -> M world B) r t1 r' t2 :
  paints a t m r t1 -> paints a t1 (k r) r' t2 -> paints a t (z ← m; k z) r' t2.
Proof.
  intros Hm Hk w Hw. destruct (Hm w Hw) as (w1 & E1 & S1 & D1).
  destruct (Hk w1 D1) as (w2 & E2 & S2 & D2).
  exists w2. split; [unfold mbind, M_bind; by rewrite E1|]. split; [by eapply shows_trans | done].
Qed.

Lemma paints_get {B} a t (k : tty -> M world B) r t' :
  paints a t (k t) r t' -> paints a t (z ← get a; k z) r t'.
Proof.
  intros Hk w Hw. destruct (Hk w Hw) as (w' & E & R). exists w'. split; [|done].
  destruct Hw as (_ & Ht & _). rewrite <- E. unfold get, mbind, M_bind, gets, lift. by rewrite Ht.
Qed.

Lemma paints_lift {A B} a t (o : option A) (k : A -> M world B) z r t' :
  o = Some z -> paints a t (k z) r t' -> paints a t (z ← lift o; k z) r t'.
Proof. intros -> Hk w Hw. exact (Hk w Hw). Qed.

(** The display depends on no other field. *)
Context (shown_keeps : forall t t' v, shown t v -> same_display t t' -> shown t' v).

Lemma paints_put a t t' : same_display t t' -> paints a t (put a t') tt t'.
Proof.
  intros Hs w (Ha & Ht & Hv). eexists. split; [done|]. subst a. cbn. split.
  - exists (vga_text_buffer w), [], (beeps w). by rewrite app_nil_r.
  - split; [done|]. cbn. split; [by rewrite lookup_insert_eq | by eapply shown_keeps].
Qed.

Lemma paints_upd a t f : same_display t (f t) -> paints a t (upd a f) tt (f t).
Proof. intros Hs. unfold upd. by apply paints_get, paints_put. Qed.

Lemma paints_beep a t : paints a t (modify pcspk_beep) tt t.
Proof.
  intros w (Ha & Ht & Hv). eexists. split; [done|]. split; [|done].
  exists (vga_text_buffer w), [], (S (beeps w)).
  by rewrite app_nil_r, insert_id by by rewrite Ha.
Qed.
End triples.

(** The promises of [struct tty_output]: what each function does to the terminal
    when it is the current one, in terms of drawing a character and scrolling. *)
Class OutputModel (out : tty_output) := {
  shown : tty -> list Z -> Prop;
  draw : Z -> list Z -> Z -> Z -> Z -> list Z;
  scrolled : Z -> list Z -> list Z;
  shown_keeps : forall t t' v, shown t v -> same_display t t' -> shown t' v;
  shown_size : forall t v, shown t v ->
    0 < width t < 2 ^ 32 /\ width t mod 8 = 0 /\ 0 < height t < 2 ^ 32;
  write_law : forall a t px py c, 0 <= px < width t -> 0 <= py < height t -> 0 <= c < 256 ->
    paints shown a t (write_char out a px py c) 0 (set_screen t (draw (color t) (screen t) px py c));
  cursor_law : forall a t, paints shown a t (update_cursor out a) 0 t;
  scroll_law : forall a t,
    paints shown a t (scroll_down out a) 0 (set_screen t (scrolled (color t) (screen t)));
  erase_char_law : forall a t, on_screen t -> paints shown a t (erase_char out a) 0 (erased draw 1 t);
  erase_line_law : forall a t len, on_screen t -> 0 <= len < 2 ^ 64 ->
    paints shown a t (erase_line out a len) 0 (erased draw (Z.to_nat len) t)
}.


Section output.
Context {out : tty_output} {O : OutputModel out}.

(** *** The terminal as a function *)

Definition linefeed (t : tty) : tty :=
  if y t + 1 =? height t then set_screen t (scrolled (color t) (screen t)) else set_xy t (x t) (y t + 1).

Definition advance (t : tty) : tty :=
  if x t + 1 =? width t then linefeed (set_xy t 0 (y t)) else set_xy t (x t + 1) (y t).

Definition put_spec (t : tty) (c : Z) : tty :=
  if c =? 0 then t
  else if c =? 13 then set_xy t 0 (y t)
  else if c =? 10 then linefeed (set_xy t 0 (y t))
  else if (c =? 11) || (c =? 12) then linefeed t
  else if c =? 9 then advance (set_xy t (x t / 8 * 8 + 7) (y t))
  else advance (set_screen t (draw (color t) (screen t) (x t) (y t) c)).

(** What echoing or writing the byte [c] shows; [len] characters were erased. *)
Definition output_spec (t : tty) (c len : Z) : tty :=
  let tp := tios t in
  if lflag tp ICANON && char_match c tp VERASE && lflag tp ECHOE then
    erased draw (if truthy len then 1 else 0) t
  else if lflag tp ICANON && char_match c tp VWERASE && (lflag tp ECHOE || lflag tp (Z.lor ECHOK ECHOKE)) then
    erased draw (Z.to_nat len) t
  else if negb ((c =? 10) || (c =? 9)) && iscntrl c && lflag tp ECHOCTL then
    if negb (char_match c tp VEOF) || truthy (x t) then put_spec (put_spec t 94) (c + 0x40) else t
  else put_spec t c.

Definition output_all (t : tty) (cs : list Z) : tty := fold_left (fun t c => output_spec t c 0) cs t.

(** *** The code computes it *)

(** Everything but the cursor and the contents of the screen. *)
Definition same_settings (t t' : tty) : Prop :=
  exists a b s, t' = set_screen (set_xy t a b) s.

Lemma same_settings_refl t : same_settings t t.
Proof. exists (x t), (y t), (screen t). by destruct t. Qed.

Lemma same_settings_trans t1 t2 t3 : same_settings t1 t2 -> same_settings t2 t3 -> same_settings t1 t3.
Proof. intros (a & b & s & ->) (a' & b' & s' & ->). by exists a', b', s'. Qed.

Lemma same_settings_screen t s : same_settings t (set_screen t s).
Proof. exists (x t), (y t), s. by destruct t. Qed.

Lemma same_settings_xy t a b : same_settings t (set_xy t a b).
Proof. exists a, b, (screen t). by destruct t. Qed.

#[local] Hint Resolve same_settings_refl same_settings_screen same_settings_xy : tty.

Lemma linefeed_settings t : same_settings t (linefeed t).
Proof. unfold linefeed. destruct (_ =? _); auto with tty. Qed.

Lemma advance_settings t : same_settings t (advance t).
Proof.
  unfold advance. destruct (_ =? _); [|auto with tty].
  eapply same_settings_trans; [|apply linefeed_settings]. auto with tty.
Qed.

Lemma put_spec_settings t c : same_settings t (put_spec t c).
Proof.
  unfold put_spec. repeat (destruct (_ =? _) || destruct (_ || _)); auto with tty;
    (eapply same_settings_trans; [|apply advance_settings || apply linefeed_settings]); auto with tty.
Qed.

Lemma erased_settings n : forall t, same_settings t (erased draw n t).
Proof.
  induction n as [|n IH]; intros t; cbn; [auto with tty|].
  destruct (_ =? _); [auto with tty|]. eapply same_settings_trans; [|apply IH].
  by eexists _, _, _.
Qed.

Lemma output_spec_settings t c len : same_settings t (output_spec t c len).
Proof.
  unfold output_spec. destruct (_ && _ && _); [apply erased_settings|].
  destruct (_ && _ && _); [apply erased_settings|].
  destruct (_ && _ && _); [|apply put_spec_settings].
  destruct (_ || _); [|auto with tty]. eapply same_settings_trans; apply put_spec_settings.
Qed.

(** The sizes a backend gives, and a cursor on the screen. *)
Definition placed (t : tty) : Prop :=
  on_screen t /\ width t < 2 ^ 32 /\ width t mod 8 = 0 /\ height t < 2 ^ 32.

Lemma linefeed_placed t : placed t -> placed (linefeed t).
Proof.
  intros ((Hx & Hy) & H). unfold linefeed. destruct (Z.eqb_spec (y t + 1) (height t)).
  - done.
  - split; [|done]. unfold on_screen; cbn. lia.
Qed.

Lemma advance_placed t : placed t -> placed (advance t).
Proof.
  intros ((Hx & Hy) & H). unfold advance. destruct (Z.eqb_spec (x t + 1) (width t)).
  - apply linefeed_placed. split; [|done]. unfold on_screen; cbn. lia.
  - split; [|done]. unfold on_screen; cbn. lia.
Qed.

Lemma put_spec_placed t c : placed t -> placed (put_spec t c).
Proof.
  intros Hp. pose proof Hp as ((Hx & Hy) & Hw & Hm & Hh).
  assert (placed (set_xy t 0 (y t))) by (split; [unfold on_screen; cbn; lia | done]).
  unfold put_spec. repeat (destruct (_ =? _) || destruct (_ || _)); try done; try by apply linefeed_placed.
  all: apply advance_placed; split; [|done]; unfold on_screen; cbn; divlia.
Qed.

Lemma erased_placed n : forall t, placed t -> placed (erased draw n t).
Proof.
  induction n as [|n IH]; intros t Hp; cbn; [done|].
  destruct (Z.eqb_spec (x t) 0); [done|]. apply IH.
  destruct Hp as ((Hx & Hy) & H). split; [|done]. unfold on_screen; cbn. lia.
Qed.

Lemma output_spec_placed t c len : placed t -> placed (output_spec t c len).
Proof.
  intros Hp. unfold output_spec. destruct (_ && _ && _); [by apply erased_placed|].
  destruct (_ && _ && _); [by apply erased_placed|].
  destruct (_ && _ && _); [|by apply put_spec_placed].
  destruct (_ || _); [|done]. by do 2 apply put_spec_placed.
Qed.

Lemma next_column_paints a t wrap :
  placed t ->
  paints shown a t (next_column a wrap) (wrap || (x t + 1 =? width t))
    (if wrap then t else if x t + 1 =? width t then set_xy t 0 (y t) else set_xy t (x t + 1) (y t)).
Proof.
  intros ((Hx & Hy) & Hw & _). unfold next_column. destruct wrap; [apply paints_ret|].
  apply paints_get. rewrite (wrap_small 64) by lia.
  destruct (_ =? _); (eapply paints_bind; [apply paints_put; [apply shown_keeps | done] | apply paints_ret]).
Qed.

Lemma next_row_paints a t wrap :
  placed t ->
  paints shown a t (next_row out a wrap) true (if wrap then linefeed t else t).
Proof.
  intros ((Hx & Hy) & Hw & _ & Hh). unfold next_row. destruct wrap; cbn [negb]; [|apply paints_ret].
  apply paints_get. rewrite (wrap_small 64) by lia.
  eapply paints_bind; [apply paints_put; [apply shown_keeps | done]|].
  unfold linefeed. destruct (_ =? _); [|apply paints_ret].
  eapply paints_bind; [apply scroll_law|]. cbn [truthy negb Z.eqb].
  eapply paints_bind; [apply paints_upd; [apply shown_keeps | done]|].
  cbn. rewrite (wrap_small 64) by lia. replace (y t + 1 - 1) with (y t) by lia.
  destruct t. apply paints_ret.
Qed.

(** Once the character is placed, the cursor advances and the screen scrolls. *)
Lemma putchar_moves a t c wrap t1 :
  paints shown a t (place_char out a c) (Some wrap) t1 -> placed t1 ->
  paints shown a t (r ← place_char out a c;
    match r with
    | None => mret EOF
    | Some wrap => wrap ← next_column a wrap; ok ← next_row out a wrap;
                   if negb ok then mret EOF else update_cursor out a;; mret c
    end) c (if wrap then linefeed t1 else advance t1).
Proof.
  intros H1 Hp1. eapply paints_bind; [exact H1|]. cbn beta iota.
  eapply paints_bind; [by apply next_column_paints|].
  eapply paints_bind; [apply next_row_paints|].
  - destruct wrap; [done|]. destruct (Z.eqb_spec (x t1 + 1) (width t1)).
    all: destruct Hp1 as ((? & ?) & ? & ? & ?); split; [unfold on_screen; cbn; lia | done].
  - cbn [negb]. eapply paints_bind; [apply cursor_law|].
    unfold advance. destruct wrap; cbn [orb]; [apply paints_ret|]. destruct (_ =? _); apply paints_ret.
Qed.

Lemma tty_putchar_paints a t c :
  placed t -> 0 <= c < 256 -> paints shown a t (tty_putchar out a c) c (put_spec t c).
Proof.
  intros Hp Hc. pose proof Hp as ((Hx & Hy) & Hw & Hm & Hh). unfold tty_putchar, put_spec.
  destruct (c =? 0) eqn:E0; [apply paints_ret|].
  destruct (c =? 13) eqn:E13.
  { eapply paints_bind; [apply paints_upd; [apply shown_keeps | done]|].
    eapply paints_bind; [apply cursor_law | apply paints_ret]. }
  assert (Hset : forall t' (b : bool), same_display t t' -> paints shown a t (put a t';; mret (Some b)) (Some b) t').
  { intros t' b Hs. eapply paints_bind; [apply paints_put; [apply shown_keeps | done] | apply paints_ret]. }
  destruct (c =? 10) eqn:E10.
  { apply (putchar_moves a t c true); [|split; [unfold on_screen; cbn; lia | done]].
    unfold place_char. apply paints_get. rewrite E10. by apply Hset. }
  destruct ((c =? 11) || (c =? 12)) eqn:E11.
  { apply (putchar_moves a t c true); [|done]. unfold place_char. apply paints_get. rewrite E10, E11. apply paints_ret. }
  destruct (c =? 9) eqn:E9.
  - apply (putchar_moves a t c false); [|split; [unfold on_screen; cbn; divlia | done]].
    unfold place_char. apply paints_get. rewrite E10, E11, E9, lor_7. by apply Hset.
  - apply (putchar_moves a t c false); [|done].
    unfold place_char. apply paints_get. rewrite E10, E11, E9, (wrap_small 8) by lia.
    eapply paints_bind; [by apply write_law | apply paints_ret].
Qed.

Lemma paints_unit {A} a t (m : M world A) r t' : paints shown a t m r t' -> paints shown a t (m;; mret tt) tt t'.
Proof. intros Hm. eapply paints_bind; [exact Hm | apply paints_ret]. Qed.

Lemma tty_output_byte_paints a t c len :
  placed t -> 0 <= c < 256 -> 0 <= len < 2 ^ 64 ->
  paints shown a t (tty_output_byte out a c len) tt (output_spec t c len).
Proof.
  intros Hp Hc Hl. unfold tty_output_byte, output_spec. apply paints_get.
  destruct (_ && _ && _).
  { destruct (truthy len); [|apply paints_ret]. eapply paints_unit, erase_char_law, Hp. }
  destruct (_ && _ && _); [eapply paints_unit, erase_line_law; [apply Hp | done]|].
  destruct ((c =? 10) || (c =? 9)); cbn [negb andb]; [by eapply paints_unit, tty_putchar_paints|].
  destruct (iscntrl c && _) eqn:Ec; [|by eapply paints_unit, tty_putchar_paints].
  apply andb_true_iff in Ec as [Ec _]. destruct (_ || _); [|apply paints_ret].
  eapply paints_bind; [by apply tty_putchar_paints|].
  eapply paints_unit, tty_putchar_paints; [by apply put_spec_placed|].
  revert Ec. unfold iscntrl. rewrite (wrap_small 8) by lia. intros Ec. 
  destruct (Z.ltb_spec c 32), (Z.eqb_spec c 127); cbn in Ec; lia || done.
Qed.

(** Bytes written one after the other. *)
Fixpoint output_bytes (a : Z) (cs : list Z) : M world unit :=
  match cs with [] => mret tt | c :: cs => tty_output_byte out a c 0;; output_bytes a cs end.

Lemma output_bytes_paints a cs : forall t,
  placed t -> Forall (fun c => 0 <= c < 256) cs ->
  paints shown a t (output_bytes a cs) tt (output_all t cs) /\ placed (output_all t cs).
Proof.
  induction cs as [|c cs IH]; intros t Hp Hb; cbn [output_bytes].
  { split; [apply paints_ret | done]. }
  apply Forall_cons in Hb as [Hc Hb].
  destruct (IH (output_spec t c 0)) as [Hs Hq]; [by apply output_spec_placed | done|].
  split; [|done]. eapply paints_bind; [by apply tty_output_byte_paints | exact Hs].
Qed.
End output.

(** ** The text screen keeps the promises *)

Definition vga_draw (clr : Z) (s : list Z) (px py c : Z) : list Z :=
  <[Z.to_nat (py * 80 + px) := c + 256 * clr]> s.
Definition vga_scrolled (clr : Z) (s : list Z) : list Z := drop 80 s ++ replicate 80 (32 + 256 * clr).

(** The display memory holds the screen of the terminal. *)
Definition vga_shown (t : tty) (v : list Z) : Prop :=
  width t = 80 /\ height t = 25 /\ 0 <= color t < 256 /\ zlen (screen t) = 2000 /\ v = screen t.

Lemma vga_text_entry_sum c clr : 0 <= c < 256 -> 0 <= clr < 256 -> vga_text_entry c clr = c + 256 * clr.
Proof.
  intros Hc Hl. unfold vga_text_entry. rewrite (lor_high c clr 8) by lia.
  rewrite (wrap_small 16) by lia. lia.
Qed.

Lemma zlen_vga_draw clr s px py c : zlen (vga_draw clr s px py c) = zlen s.
Proof. unfold zlen, vga_draw. by rewrite length_insert. Qed.

(** What the screen of a terminal and the display memory have in any case. *)
Definition vga_sized (t : tty) (v : list Z) : Prop :=
  width t = 80 /\ height t = 25 /\ 0 <= color t < 256 /\ zlen (screen t) = 2000 /\ zlen v = 2000.

Lemma get_tty_run {B} a t w (k : tty -> M world B) : ttys w !! a = Some t -> (z ← get a; k z) w = k t w.
Proof. intros Ht. unfold get, mbind, M_bind, gets, lift. by rewrite Ht. Qed.

Lemma write_char_run a t w px py c :
  displaying vga_sized a t w -> 0 <= px < 80 -> 0 <= py < 25 -> 0 <= c < 256 ->
  vga_text_write_char a px py c w =
    Some (0, set_vga (set_ttys w (<[a := set_screen t (vga_draw (color t) (screen t) px py c)]> (ttys w)))
               (vga_draw (color t) (vga_text_buffer w) px py c)).
Proof.
  intros (Ha & Ht & Hw & Hh & Hl & Hs & Hv) Hx Hy Hc.
  assert (Hi : vga_text_index px py = py * 80 + px) by (unfold vga_text_index; by nowrap).
  unfold vga_text_write_char. rewrite (get_tty_run a t) by done. cbn zeta.
  rewrite Hi, vga_text_entry_sum by lia.
  unfold mbind, M_bind, lift. rewrite zstore_lt by (rewrite ?Hs; lia).
  unfold put, modify, gets. cbn. rewrite Ha, Z.eqb_refl, zstore_lt by (rewrite ?Hv; lia). done.
Qed.

(** Drawing keeps both predicates of the display. *)
Lemma write_char_paints (P : tty -> list Z -> Prop) a t px py c :
  (forall v, P t v -> vga_sized t v) ->
  (forall v, P t v -> P (set_screen t (vga_draw (color t) (screen t) px py c)) (vga_draw (color t) v px py c)) ->
  0 <= px < width t -> 0 <= py < height t -> 0 <= c < 256 ->
  paints P a t (vga_text_write_char a px py c) 0 (set_screen t (vga_draw (color t) (screen t) px py c)).
Proof.
  intros Hsz Hp Hx Hy Hc w (Ha & Ht & Hv). destruct (Hsz _ Hv) as (Hw & Hh & Hr).
  eexists. split.
  { apply write_char_run; [|lia..]. by repeat split; try apply Hr. }
  split.
  - eexists _, [], _. unfold set_vga, set_ttys; cbn. by rewrite app_nil_r, Ha.
  - split; [done|]. cbn. split; [by rewrite lookup_insert_eq | by apply Hp].
Qed.

Lemma vga_shown_sized t v : vga_shown t v -> vga_sized t v.
Proof. intros (? & ? & ? & ? & ->). by repeat split; try lia. Qed.

Lemma vga_write_law a t px py c :
  0 <= px < width t -> 0 <= py < height t -> 0 <= c < 256 ->
  paints vga_shown a t (vga_text_write_char a px py c) 0 (set_screen t (vga_draw (color t) (screen t) px py c)).
Proof.
  apply write_char_paints; intros v; [apply vga_shown_sized|].
  intros (? & ? & ? & ? & ->). repeat split; cbn; rewrite ?zlen_vga_draw; lia || done.
Qed.

Lemma sized_write_law a t px py c :
  0 <= px < width t -> 0 <= py < height t -> 0 <= c < 256 ->
  paints vga_sized a t (vga_text_write_char a px py c) 0 (set_screen t (vga_draw (color t) (screen t) px py c)).
Proof.
  apply write_char_paints; intros v; [done|].
  intros (? & ? & ? & ? & ?). repeat split; cbn; rewrite ?zlen_vga_draw; lia || done.
Qed.

Lemma vga_cursor_law a t : paints vga_shown a t (vga_text_update_cursor a) 0 t.
Proof.
  intros w Hw. pose proof Hw as (Ha & Ht & Hv). unfold vga_text_update_cursor.
  rewrite (get_tty_run a t) by done.
  eexists. split; [done|]. split; [|done].
  eexists _, _, _. unfold outb, modify, add_ports; cbn. rewrite insert_id by by rewrite Ha.
  rewrite <- !app_assoc. done.
Qed.

Lemma show_screen_law a t w :
  current_tty w = a -> ttys w !! a = Some t -> zlen (screen t) = 2000 -> zlen (vga_text_buffer w) = 2000 ->
  show_screen a w = Some (tt, set_vga w (screen t)).
Proof.
  intros Ha Ht Hs Hv. unfold show_screen, mbind at 1, M_bind at 1, gets. rewrite Ha, Z.eqb_refl.
  rewrite (get_tty_run a t) by done.
  rewrite Hs, Z.leb_refl. unfold zlen in Hs, Hv. rewrite take_ge by lia.
  unfold blit. replace (0 + zlen (screen t)) with 2000 by (unfold zlen; lia). unfold zlen. rewrite Hv. cbn [andb Z.leb].
  rewrite drop_ge by lia. cbn. by rewrite app_nil_r.
Qed.

(** The last row with its first [n] columns blanked. *)
Lemma blank_row_paints a n : forall t i,
  width t = 80 -> height t = 25 -> 0 <= i -> i + Z.of_nat n <= 80 ->
  paints vga_sized a t (blank_row n a i) tt
    (set_screen t (fold_left (fun s j => vga_draw (color t) s j 24 32) (seqZ i (Z.of_nat n)) (screen t))).
Proof.
  induction n as [|n IH]; intros t i Hw Hh Hi Hn; cbn [blank_row].
  { destruct t. apply paints_ret. }
  eapply paints_bind; [apply sized_write_law; lia|]. rewrite seqZ_cons by lia.
  replace (Z.pred (Z.of_nat (S n))) with (Z.of_nat n) by lia. replace (Z.succ i) with (i + 1) by lia.
  exact (IH (set_screen t _) (i + 1) Hw Hh ltac:(lia) ltac:(lia)).
Qed.

Lemma blanked clr (n : nat) : forall s i, 0 <= i -> i + Z.of_nat n <= 80 -> zlen s = 2000 ->
  fold_left (fun s j => vga_draw clr s j 24 32) (seqZ i (Z.of_nat n)) s =
  take (Z.to_nat (1920 + i)) s ++ replicate n (32 + 256 * clr) ++ drop (Z.to_nat (1920 + i) + n) s.
Proof.
  induction n as [|n IH]; intros s i Hi Hn Hs; [cbn; by rewrite Nat.add_0_r, take_drop|].
  rewrite seqZ_cons by lia. cbn [fold_left].
  replace (Z.pred (Z.of_nat (S n))) with (Z.of_nat n) by lia. replace (Z.succ i) with (i + 1) by lia.
  rewrite IH by (rewrite ?zlen_vga_draw; lia). unfold vga_draw, zlen in *.
  replace (24 * 80 + i) with (1920 + i) by lia.
  replace (Z.to_nat (1920 + (i + 1))) with (S (Z.to_nat (1920 + i))) by lia.
  rewrite drop_insert_lt by lia.
  rewrite (take_S_r _ _ (32 + 256 * clr)) by (apply list_lookup_insert_eq; lia).
  rewrite take_insert_ge by lia. rewrite <- app_assoc. cbn [app replicate].
  by rewrite Nat.add_succ_r.
Qed.

Lemma vga_scroll_law a t :
  paints vga_shown a t (vga_text_scroll_down a) 0 (set_screen t (vga_scrolled (color t) (screen t))).
Proof.
  intros w (Ha & Ht & Hv). pose proof Hv as (Hw & Hh & Hl & Hs & Hv').
  unfold vga_text_scroll_down, mbind at 1, M_bind at 1, gets. rewrite Ha.
  rewrite (get_tty_run a t) by done.
  rewrite Hs, Z.leb_refl.
  set (moved := take 1920 (drop 80 (screen t)) ++ drop 1920 (screen t)).
  assert (Hb : blit (screen t) 0 (take 1920 (drop 80 (screen t))) = Some moved).
  { unfold blit, zlen in *. rewrite length_take, length_drop.
    replace (Nat.min 1920 (length (screen t) - 80)) with 1920%nat by lia.
    rewrite Hs. done. }
  rewrite Hb. unfold lift, mbind at 1, M_bind at 1.
  unfold put, modify, mbind at 1, M_bind at 1.
  set (t1 := set_screen t moved).
  assert (Hm : zlen moved = 2000) by (unfold zlen in *; unfold moved; rewrite length_app, length_take, !length_drop; lia).
  destruct (blank_row_paints a 80 t1 0 Hw Hh ltac:(lia) ltac:(lia) (set_ttys w (<[a := t1]> (ttys w))))
    as (w2 & E2 & (v & p & n & S2) & Ha2 & Ht2 & Hsz).
  { split; [done|]. cbn. split; [by rewrite lookup_insert_eq|].
    split; [exact Hw|]. split; [exact Hh|]. split; [exact Hl|]. split; [exact Hm | by rewrite Hv']. }
  rewrite blanked in Ht2, Hsz, S2 by done.
  rewrite (bind_run _ _ _ _ _ E2).
  destruct Hsz as (_ & _ & _ & Hs2 & Hv2).
  rewrite (bind_run _ _ _ _ _ (show_screen_law a _ w2 Ha2 Ht2 Hs2 Hv2)).
  replace (take (Z.to_nat (1920 + 0)) (screen t1) ++ replicate 80 (32 + 256 * color t1)
    ++ drop (Z.to_nat (1920 + 0) + 80) (screen t1)) with (vga_scrolled (color t) (screen t)) in *.
  2: { unfold vga_scrolled, t1, moved, zlen in *; cbn [screen set_screen color] in *.
       change (Z.to_nat (1920 + 0)) with 1920%nat.
       rewrite (drop_ge (_ ++ _)), app_nil_r by (rewrite length_app, length_take, !length_drop; lia).
       f_equal. rewrite take_app_length' by (rewrite length_take, length_drop; lia).
       rewrite take_ge; [done|]. rewrite length_drop. lia. }
  eexists. split; [done|]. split.
  - subst w2. eexists _, _, _. cbn in *. by rewrite Ha, insert_insert_eq.
  - split; [done|]. split; [exact Ht2|]. split; [exact Hw|]. split; [exact Hh|]. split; [exact Hl|].
    split; [exact Hs2 | done].
Qed.

Lemma vga_keeps t t' v : vga_shown t v -> same_display t t' -> vga_shown t' v.
Proof. intros (Hw & Hh & Hl & Hs & Hv) (Ec & Ew & Eh & Es). unfold vga_shown. by rewrite Ec, Ew, Eh, Es. Qed.

(** One step of erasing: the cursor moves back and a blank is drawn. *)
Lemma erase_step_paints a t b :
  on_screen t -> x t <> 0 -> b = x t - 1 ->
  paints vga_shown a t (put a (set_xy t b (y t));; vga_text_write_char a b (y t) 32) 0
    (set_screen (set_xy t (x t - 1) (y t)) (vga_draw (color t) (screen t) (x t - 1) (y t) 32)).
Proof.
  intros (Hx & Hy) H0 ->. eapply paints_bind; [apply paints_put; [apply vga_keeps | done]|].
  exact (vga_write_law a (set_xy t (x t - 1) (y t)) (x t - 1) (y t) 32 ltac:(cbn; lia) Hy ltac:(lia)).
Qed.

Lemma paints_assoc {A B C} P a t (m : M world A) (k : M world B) (l : M world C) r t' :
  paints P a t ((m;; k);; l) r t' -> paints P a t (m;; k;; l) r t'.
Proof. intros H w Hw. destruct (H w Hw) as (w' & E & R). exists w'. split; [|done]. by rewrite <- bind_assoc. Qed.

Lemma vga_erase_char_law a t : on_screen t -> paints vga_shown a t (vga_text_erase_char a) 0 (erased vga_draw 1 t).
Proof.
  intros Hp. unfold vga_text_erase_char. apply paints_get. unfold truthy. cbn [erased].
  destruct (Z.eqb_spec (x t) 0); cbn [negb]; [apply paints_ret|].
  apply paints_assoc. eapply paints_bind; [by apply erase_step_paints|].
  eapply paints_bind; [apply vga_cursor_law | apply paints_ret].
Qed.

Lemma erase_back_paints a n : forall t, on_screen t -> width t < 2 ^ 32 -> Z.of_nat n <= x t ->
  paints vga_shown a t (erase_back n a) tt (erased vga_draw n t).
Proof.
  induction n as [|n IH]; intros t Hp Hw Hn; cbn [erase_back erased]; [apply paints_ret|].
  destruct (Z.eqb_spec (x t) 0); [lia|]. apply paints_get.
  destruct Hp as (Hx & Hy). apply paints_assoc.
  eapply paints_bind; [apply erase_step_paints; [done | done | apply (wrap_small 64); lia]|].
  apply IH; [split; cbn; lia | done | cbn; lia].
Qed.

Lemma erased_all n t m : 0 <= x t <= Z.of_nat n -> (n <= m)%nat -> erased vga_draw m t = erased vga_draw n t.
Proof.
  revert t m. induction n as [|n IH]; intros t m Hn Hm.
  - destruct m; cbn; [done|]. by replace (x t =? 0) with true by lia.
  - destruct m; [lia|]. cbn. destruct (Z.eqb_spec (x t) 0); [done|]. apply IH; cbn; lia.
Qed.

Lemma vga_erase_line_law a t len : on_screen t -> 0 <= len < 2 ^ 64 ->
  paints vga_shown a t (vga_text_erase_line a len) 0 (erased vga_draw (Z.to_nat len) t).
Proof.
  intros Hp Hl w Hw. revert w Hw. unfold vga_text_erase_line.
  assert (Hrun : width t = 80 ->
    paints vga_shown a t (t ← get a; erase_back (Z.to_nat (if x t <? len then x t else len)) a;;
      vga_text_update_cursor a;; mret 0) 0 (erased vga_draw (Z.to_nat len) t)).
  { intros Hw. apply paints_get. destruct Hp as (Hx & Hy).
    replace (erased vga_draw (Z.to_nat len) t) with (erased vga_draw (Z.to_nat (if x t <? len then x t else len)) t).
    - eapply paints_bind; [apply erase_back_paints; [done | lia | destruct (Z.ltb_spec (x t) len); lia]|].
      eapply paints_bind; [apply vga_cursor_law | apply paints_ret].
    - destruct (Z.ltb_spec (x t) len); [|done]. symmetry. apply erased_all; lia. }
  intros w Hw. apply Hrun; [|done]. by destruct Hw as (_ & _ & Hw & _).
Qed.

#[export] Program Instance vga_text_model : OutputModel vga_text_output := {
  shown := vga_shown; draw := vga_draw; scrolled := vga_scrolled;
  shown_keeps := vga_keeps; write_law := vga_write_law; cursor_law := vga_cursor_law;
  scroll_law := vga_scroll_law; erase_char_law := vga_erase_char_law; erase_line_law := vga_erase_line_law
}.
Next Obligation. intros t v (-> & -> & _). by split_and!. Qed.

(** ** A line typed at the terminal *)

(** What is typed: a character that means itself, a quoted character (after
    VLNEXT), and the characters that erase one character or the line. *)
Inductive keystroke := Plain (c : Z) | Quote (c : Z) | Erase | Kill.

Definition key_bytes (k : keystroke) : list Z :=
  match k with Plain c => [c] | Quote c => [22; c] | Erase => [31] | Kill => [21] end.

Definition key_ok (k : keystroke) : Prop :=
  match k with
  | Plain c => 0 <= c < 256 /\ c ∉ [3; 4; 10; 18; 21; 22; 23; 26; 28; 31]
  | Quote c => 0 <= c < 256 /\ c <> 10 /\ c <> 4
  | _ => True
  end.

(** The line that results; characters that do not fit are dropped. *)
Definition edit (l : list Z) (k : keystroke) : list Z :=
  match k with
  | Plain c | Quote c => if zlen l <? 1023 then l ++ [c] else l
  | Erase => removelast l
  | Kill => []
  end.
Definition edited (ks : list keystroke) : list Z := fold_left edit ks [].

Fixpoint input_bytes (out : tty_output) (a : Z) (cs : list Z) : M world unit :=
  match cs with [] => mret tt | c :: cs => tty_input_byte out a c;; input_bytes out a cs end.

Fixpoint reads (n : nat) (a : Z) : M world (list read_result) :=
  match n with
  | O => mret []
  | S n => r ← tty_device_read a; rs ← reads n a; mret (r :: rs)
  end.

(** The reads that deliver a line: 1 for a character, 2 for the last one. *)
Fixpoint line_reads (l : list Z) : list read_result :=
  match l with
  | [] => []
  | [c] => [Returns 2 (Some c)]
  | c :: l => Returns 1 (Some c) :: line_reads l
  end.

(** The next character is not taken literally and no line is ready. *)
Definition idle (f : Z) : Prop := Z.land f (Z.lor TTY_FLAG_LITERAL_INPUT TTY_FLAG_FLUSH) = 0.

(** [l] is in the buffer, from its start; [f] are the flags. *)
Record typing (f : Z) (l : list Z) (t : tty) : Prop := {
  typing_tios : tios t = default_termios;
  typing_flags : flags t = f;
  typing_start : start t = 0;
  typing_end : endp t = zlen l;
  typing_max : zlen l <= 1023;
  typing_room : zlen (buffer t) = 1024;
  typing_text : take (length l) (buffer t) = l;
  typing_plain : 4 ∉ l;
  typing_bytes : Forall (fun c => 0 <= c < 256) l;
  typing_placed : placed t
}.

Section typing.
Context {out : tty_output} {O : OutputModel out}.

Lemma echo_paints a t c len :
  placed t -> tios t = default_termios -> 0 <= c < 256 -> 0 <= len < 2 ^ 64 ->
  paints shown a t (echo_input out a c len) tt (output_spec t c len).
Proof.
  intros Hp Ht Hc Hl. unfold echo_input. apply paints_get. rewrite Ht.
  change (lflag default_termios ECHO) with true. by apply tty_output_byte_paints.
Qed.

Lemma typing_settings f l t t' : same_settings t t' -> placed t' -> typing f l t -> typing f l t'.
Proof. intros (p & q & s & ->) Hp []. by constructor. Qed.

Lemma typing_output f l t c len : typing f l t -> typing f l (output_spec t c len).
Proof.
  intros Ht. eapply typing_settings; [apply output_spec_settings | | done].
  apply output_spec_placed, Ht.
Qed.

(** Appending a character to the input. *)
Lemma tty_recv_paints a f l t c :
  typing f l t -> 0 <= c < 256 -> c <> 10 -> c <> 4 ->
  exists t', paints shown a t (tty_recv a c) tt t' /\ typing f (if zlen l <? 1023 then l ++ [c] else l) t'.
Proof.
  intros Ht Hc Hn H4. pose proof Ht as [Hti Hf Hst He Hmx Hrm Htx Hpl Hby Hpc].
  unfold tty_recv. destruct (Z.ltb_spec (zlen l) 1023) as [Hl|Hl]; eexists; split.
  - apply paints_get. rewrite Hst. cbn [truthy Z.eqb negb]. rewrite andb_false_r.
    eapply paints_lift; [done|]. eapply paints_bind; [apply paints_put; [apply shown_keeps | done]|].
    rewrite He. replace (1024 - 1 <=? zlen l) with false by lia. cbn [andb].
    eapply paints_lift; [apply zstore_lt; rewrite Hrm; pose proof (zlen_nonneg l); lia|].
    apply paints_put; [apply shown_keeps | done].
  - constructor; cbn; unfold zlen in *; try done.
    + rewrite (wrap_small 64) by lia. rewrite length_app. cbn. lia.
    + rewrite length_app. cbn. lia.
    + by rewrite length_insert.
    + rewrite length_app, Nat2Z.id, Nat.add_1_r.
      rewrite (take_S_r _ _ c) by (apply list_lookup_insert_eq; lia).
      rewrite take_insert_ge by lia. by rewrite Htx.
    + rewrite elem_of_app, list_elem_of_singleton. naive_solver.
    + apply Forall_app_2; [done | by apply Forall_singleton].
  - apply paints_get. rewrite Hst. cbn [truthy Z.eqb negb]. rewrite andb_false_r.
    eapply paints_lift; [done|]. eapply paints_bind; [apply paints_put; [apply shown_keeps | done]|].
    rewrite He, Hti. replace (1024 - 1 <=? zlen l) with true by lia. replace (c =? 10) with false by lia.
    rewrite orb_true_r. apply paints_beep.
  - done.
Qed.

(** A byte that is not a control character is appended and echoed. *)
Lemma raw_paints a f l t c :
  typing f l t -> 0 <= c < 256 -> c <> 10 -> c <> 4 ->
  exists t', paints shown a t (tty_recv a c;; echo_input out a c 0) tt t' /\ typing f (edit l (Plain c)) t'.
Proof.
  intros Ht Hc Hn H4. destruct (tty_recv_paints a f l t c Ht Hc Hn H4) as (t1 & H1 & Ht1).
  eexists. split; [|by apply typing_output]. eapply paints_bind; [exact H1|].
  apply echo_paints; [apply Ht1 | apply Ht1 | done | lia].
Qed.

(** The control characters of the console. *)
Lemma default_matches c :
  (char_match c default_termios VEOL = false /\ char_match c default_termios VEOL2 = false) /\
  (char_match c default_termios VEOF = (c =? 4) /\ char_match c default_termios VERASE = (c =? 31) /\
   char_match c default_termios VKILL = (c =? 21) /\ char_match c default_termios VWERASE = (c =? 23) /\
   char_match c default_termios VREPRINT = (c =? 18) /\ char_match c default_termios VLNEXT = (c =? 22)) /\
  char_match c default_termios VINTR = (c =? 3) /\ char_match c default_termios VSUSP = (c =? 26) /\
  char_match c default_termios VQUIT = (c =? 28).
Proof. unfold char_match. cbn. by rewrite !andb_false_r, !andb_true_r. Qed.

Ltac match_default c :=
  let E := fresh in pose proof (default_matches c) as E;
  destruct E as ((?M1 & ?M2) & (?M3 & ?M4 & ?M5 & ?M6 & ?M7 & ?M8) & ?M9 & ?M10 & ?M11);
  rewrite ?M1, ?M2, ?M3, ?M4, ?M5, ?M6, ?M7, ?M8, ?M9, ?M10, ?M11; clear M1 M2 M3 M4 M5 M6 M7 M8 M9 M10 M11.

Lemma idle_bits f : idle f -> Z.testbit f 0 = false /\ Z.testbit f 1 = false.
Proof.
  intros H. split.
  - apply (f_equal (fun z => Z.testbit z 0)) in H. rewrite Z.land_spec, andb_true_r in H. exact H.
  - apply (f_equal (fun z => Z.testbit z 1)) in H. rewrite Z.land_spec, andb_true_r in H. exact H.
Qed.

(** Testing and clearing a flag. *)
Lemma flag_set f k : 0 <= k -> truthy (Z.land f (2 ^ k)) = Z.testbit f k.
Proof.
  intros Hk. unfold truthy. destruct (Z.testbit f k) eqn:E.
  - apply negb_true_iff, Z.eqb_neq. intros H. apply (f_equal (fun z => Z.testbit z k)) in H.
    by rewrite Z.land_spec, Z.pow2_bits_true, E, Z.bits_0 in H.
  - apply negb_false_iff, Z.eqb_eq, Z.bits_inj'. intros i Hi.
    rewrite Z.land_spec, Z.pow2_bits_eqb, Z.bits_0 by lia.
    destruct (Z.eqb_spec k i); [by subst; rewrite E | apply andb_false_r].
Qed.

Lemma flag_cleared f k : 0 <= k -> Z.testbit f k = false -> Z.land (Z.lor f (2 ^ k)) (Z.lnot (2 ^ k)) = f.
Proof.
  intros Hk Hf. apply Z.bits_inj'. intros i Hi.
  rewrite Z.land_spec, Z.lor_spec, Z.lnot_spec, Z.pow2_bits_eqb by lia.
  destruct (Z.eqb_spec k i); [subst; by rewrite Hf|]. by rewrite orb_false_r, andb_true_r.
Qed.

Lemma control_plain_paints a t c :
  tios t = default_termios -> key_ok (Plain c) -> paints shown a t (control_input out a c) None t.
Proof.
  intros Ht (Hc & Hn). unfold control_input. apply paints_get. cbn zeta. rewrite Ht. match_default c.
  change (lflag default_termios IEXTEN) with true.
  repeat (rewrite not_elem_of_cons in Hn; destruct Hn as [? Hn]).
  repeat match goal with H : c <> ?k |- _ => rewrite (proj2 (Z.eqb_neq c k) H) end. apply paints_ret.
Qed.

Lemma signal_plain c : key_ok (Plain c) -> signal_of default_termios c = 0.
Proof.
  intros (Hc & Hn). unfold signal_of. match_default c.
  repeat (rewrite not_elem_of_cons in Hn; destruct Hn as [? Hn]).
  repeat match goal with H : c <> ?k |- _ => rewrite (proj2 (Z.eqb_neq c k) H) end. done.
Qed.

Lemma not_literal f l t : typing f l t -> idle f -> truthy (Z.land (flags t) TTY_FLAG_LITERAL_INPUT) = false.
Proof. intros [] H. subst f. rewrite (flag_set _ 0) by lia. by apply idle_bits. Qed.

Lemma plain_paints a f l t c :
  typing f l t -> idle f -> key_ok (Plain c) ->
  exists t', paints shown a t (tty_input_byte out a c) tt t' /\ typing f (edit l (Plain c)) t'.
Proof.
  intros Ht Hf Hk. destruct (raw_paints a f l t c Ht) as (t' & Hp & Ht').
  { apply Hk. } { destruct Hk as (_ & Hk). intros ->. apply Hk. repeat constructor. }
  { destruct Hk as (_ & Hk). intros ->. apply Hk. repeat constructor. }
  exists t'. split; [|done]. unfold tty_input_byte. apply paints_get. rewrite (not_literal f l) by done.
  rewrite (typing_tios _ _ _ Ht). change (lflag default_termios ICANON) with true.
  eapply paints_bind; [apply control_plain_paints; [apply Ht | done]|]. cbn beta iota zeta.
  by rewrite signal_plain.
Qed.

(** A control character acts on the input and is echoed. *)
Lemma control_paints a f l t c len f1 l1 t1 :
  typing f l t -> idle f -> 0 <= c < 256 -> 0 <= len < 2 ^ 64 ->
  paints shown a t (control_input out a c) (Some len) t1 -> typing f1 l1 t1 ->
  exists t', paints shown a t (tty_input_byte out a c) tt t' /\ typing f1 l1 t'.
Proof.
  intros Ht Hf Hc Hl Hp Ht1. eexists. split; [|by apply typing_output].
  unfold tty_input_byte. apply paints_get. rewrite (not_literal f l) by done.
  rewrite (typing_tios _ _ _ Ht). change (lflag default_termios ICANON) with true.
  eapply paints_bind; [exact Hp|]. cbn beta iota.
  apply echo_paints; [apply Ht1 | apply Ht1 | done | done].
Qed.

(** [control_input] at a character of the console's settings. *)
Ltac control_at Ht := unfold control_input; apply paints_get; rewrite (typing_tios _ _ _ Ht); cbn -[paints tty_erase_input tty_kill_input tty_flush_input_line lflag shown];
  try change (lflag default_termios IEXTEN) with true; cbn iota.

Lemma typing_last f l c t : typing f (l ++ [c]) t -> (buffer t).[zlen l] = Some c.
Proof.
  intros []. unfold zlen. rewrite zlookup_nat.
  rewrite <- (lookup_take_lt _ (length (l ++ [c]))) by (rewrite length_app; cbn; lia).
  rewrite typing_text0. by apply list_lookup_middle.
Qed.

(** A shorter prefix of the line is what remains when its end moves back. *)
Lemma typing_prefix f l k t : typing f (l ++ k) t -> typing f l (set_input t (buffer t) 0 (zlen l)).
Proof.
  intros [Hti Hfl Hst He Hmx Hrm Htx Hpl Hby Hpc]. rewrite length_app, zlen_app in *.
  pose proof (zlen_nonneg k). constructor; cbn; try done; [lia | | |].
  - apply (f_equal (take (length l))) in Htx. rewrite take_take, take_app_length in Htx.
    by rewrite Nat.min_l in Htx by lia.
  - intros H4. apply Hpl. rewrite elem_of_app. by left.
  - by apply Forall_app in Hby as [? _].
Qed.

Lemma erase_paints a f l t :
  typing f l t -> idle f -> exists t', paints shown a t (tty_input_byte out a 31) tt t' /\ typing f (removelast l) t'.
Proof.
  intros Ht Hf. pose proof Ht as [Hti Hfl Hst He Hmx Hrm Htx Hpl Hby Hpc].
  destruct l as [|c l0 _] using rev_ind.
  - eapply (control_paints a f [] t 31 0); [done | done | lia | lia | | exact Ht].
    control_at Ht. unfold tty_erase_input. eapply paints_bind; [|apply paints_ret].
    apply paints_get. rewrite He. apply paints_ret.
  - rewrite removelast_last. rewrite zlen_app, zlen_cons, zlen_nil in *. pose proof (zlen_nonneg l0) as H0.
    eapply (control_paints a f (l0 ++ [c]) t 31 1 f l0 (set_input t (buffer t) 0 (zlen l0))); [done | done | lia | lia | |].
    + control_at Ht. unfold tty_erase_input. eapply paints_bind; [|apply paints_ret].
      apply paints_get. rewrite He. unfold truthy. rewrite (proj2 (Z.eqb_neq _ 0)) by lia. cbn [negb].
      replace (zlen l0 + (1 + 0) - 1) with (zlen l0) by lia.
      eapply (paints_lift _ _ _ _ _ c); [by eapply typing_last|].
      rewrite Hti. match_default c. rewrite (proj2 (Z.eqb_neq c 4)) by (intros ->; apply Hpl; rewrite elem_of_app; right; constructor).
      cbn [negb]. rewrite Hst. eapply paints_bind; [apply paints_put; [apply shown_keeps | done] | apply paints_ret].
    + by eapply typing_prefix.
Qed.

Lemma last_index_absent l c n : c ∉ take n l -> last_index l c n = None.
Proof.
  induction n as [|n IH]; intros Hn; [done|]. cbn. destruct (l !! n) as [b|] eqn:E.
  - rewrite (take_S_r _ _ b), not_elem_of_app, list_elem_of_singleton in Hn by done.
    destruct Hn as [Hn Hb]. rewrite (proj2 (Z.eqb_neq b c)) by congruence. by apply IH.
  - apply lookup_ge_None in E. apply IH. rewrite take_ge in Hn by lia. by rewrite take_ge by lia.
Qed.

Lemma kill_paints a f l t :
  typing f l t -> idle f -> exists t', paints shown a t (tty_input_byte out a 21) tt t' /\ typing f [] t'.
Proof.
  intros Ht Hf. pose proof Ht as [Hti Hfl Hst He Hmx Hrm Htx Hpl Hby Hpc]. pose proof (zlen_nonneg l).
  eapply (control_paints a f l t 21 (zlen l) f [] (set_input t (buffer t) 0 0)); [done | done | lia | lia | |].
  - control_at Ht. unfold tty_kill_input. eapply paints_bind; [|apply paints_ret]. apply paints_get.
    rewrite Hti. change (c_cc default_termios VEOF) with 4. cbn [Z.eqb].
    rewrite last_index_absent, He, Hst.
    + eapply paints_bind; [apply paints_put; [apply shown_keeps | done]|].
      rewrite Z.sub_0_r, (wrap_small 64) by lia. apply paints_ret.
    + rewrite He. unfold zlen. by rewrite Nat2Z.id, Htx.
  - exact (typing_prefix f [] l t Ht).
Qed.

Lemma quote_paints a f l t c :
  typing f l t -> idle f -> key_ok (Quote c) ->
  exists t', paints shown a t (input_bytes out a [22; c]) tt t' /\ typing f (edit l (Quote c)) t'.
Proof.
  intros Ht Hf (Hc & Hn & H4). pose proof (idle_bits f Hf) as [Hf0 _].
  destruct (control_paints a f l t 22 0 (Z.lor f TTY_FLAG_LITERAL_INPUT) l
    (set_flags t (Z.lor (flags t) TTY_FLAG_LITERAL_INPUT))) as (t1 & H1 & Ht1); [done | done | lia | lia | | |].
  - control_at Ht. eapply paints_bind; [|apply paints_ret]. apply (paints_upd shown shown_keeps a t
      (fun t => set_flags t (Z.lor (flags t) TTY_FLAG_LITERAL_INPUT))). done.
  - destruct Ht. constructor; cbn; by rewrite ?typing_flags0.
  - destruct (raw_paints a f l (set_flags t1 f) c) as (t2 & H2 & Ht2); [|done..|].
    { destruct Ht1. by constructor. }
    exists t2. split; [|done]. cbn [input_bytes]. eapply paints_bind; [exact H1|].
    eapply paints_unit. unfold tty_input_byte. apply paints_get.
    rewrite (typing_flags _ _ _ Ht1).
    rewrite (flag_set _ 0), Z.lor_spec, orb_true_r by lia.
    change TTY_FLAG_LITERAL_INPUT with (2 ^ 0). rewrite flag_cleared by done.
    eapply paints_bind; [apply paints_put; [apply shown_keeps | done] | exact H2].
Qed.

Lemma key_paints a f l t k :
  typing f l t -> idle f -> key_ok k ->
  exists t', paints shown a t (input_bytes out a (key_bytes k)) tt t' /\ typing f (edit l k) t'.
Proof.
  intros Ht Hf Hk. destruct k as [c|c| |]; cbn [key_bytes].
  - destruct (plain_paints a f l t c Ht Hf Hk) as (t' & H & ?). exists t'. split; [by eapply paints_unit | done].
  - by apply quote_paints.
  - destruct (erase_paints a f l t Ht Hf) as (t' & H & ?). exists t'. split; [by eapply paints_unit | done].
  - destruct (kill_paints a f l t Ht Hf) as (t' & H & ?). exists t'. split; [by eapply paints_unit | done].
Qed.

Lemma input_app_paints a cs cs' : forall t r t1 t2,
  paints shown a t (input_bytes out a cs) r t1 -> paints shown a t1 (input_bytes out a cs') tt t2 ->
  paints shown a t (input_bytes out a (cs ++ cs')) tt t2.
Proof.
  intros t r t1 t2 H1 H2 w Hw. destruct (H1 w Hw) as (w1 & E1 & S1 & D1).
  destruct (H2 w1 D1) as (w2 & E2 & S2 & D2). exists w2.
  split; [|split; [by eapply shows_trans | done]].
  clear -E1 E2. revert w E1. induction cs as [|c cs IH]; intros w; cbn [input_bytes app].
  - by intros [= <- <-].
  - unfold mbind, M_bind. destruct (tty_input_byte out a c w) as [[u w']|]; [apply IH | done].
Qed.

Lemma keys_paints a f ks : forall l t, typing f l t -> idle f -> Forall key_ok ks ->
  exists t', paints shown a t (input_bytes out a (concat (key_bytes <$> ks))) tt t' /\ typing f (fold_left edit ks l) t'.
Proof.
  induction ks as [|k ks IH]; intros l t Ht Hf Hk.
  { exists t. split; [apply paints_ret | done]. }
  apply Forall_cons in Hk as [Hk Hks]. destruct (key_paints a f l t k Ht Hf Hk) as (t1 & H1 & Ht1).
  destruct (IH _ t1 Ht1 Hf Hks) as (t2 & H2 & Ht2). exists t2. split; [|done].
  cbn. by eapply input_app_paints.
Qed.

(** A line is complete and [rest] of it is unread. *)
Record delivering (f : Z) (rest : list Z) (t : tty) : Prop := {
  delivering_tios : tios t = default_termios;
  delivering_flags : flags t = Z.lor f TTY_FLAG_FLUSH;
  delivering_start : 0 <= start t;
  delivering_end : endp t = start t + zlen rest;
  delivering_max : endp t <= 1024;
  delivering_room : zlen (buffer t) = 1024;
  delivering_text : take (length rest) (drop (Z.to_nat (start t)) (buffer t)) = rest;
  delivering_placed : placed t
}.

Lemma enter_paints a f l t :
  typing f l t -> idle f -> exists t', paints shown a t (input_bytes out a [10]) tt t' /\ delivering f (l ++ [10]) t'.
Proof.
  intros Ht Hf. pose proof Ht as [Hti Hfl Hst He Hmx Hrm Htx Hpl Hby Hpc]. pose proof (zlen_nonneg l) as Hl0.
  set (t1 := set_flags (set_input t (<[Z.to_nat (zlen l) := 10]> (buffer t)) 0 (zlen l + 1)) (Z.lor f TTY_FLAG_FLUSH)).
  assert (Hp1 : placed t1) by exact Hpc.
  exists (output_spec t1 10 0). split.
  - eapply paints_unit. unfold tty_input_byte. apply paints_get. rewrite (not_literal f l) by done.
    rewrite Hti. change (lflag default_termios ICANON) with true.
    apply (paints_bind _ _ _ _ _ (Some 0) t1); [|apply echo_paints; [exact Hp1 | done | lia | lia]].
    control_at Ht. eapply paints_bind; [|apply paints_ret].
    unfold tty_flush_input_line. cbn [truthy Z.eqb negb]. eapply paints_bind.
    + unfold tty_recv. apply paints_get. rewrite Hst. cbn [truthy Z.eqb negb]. rewrite andb_false_r.
      eapply paints_lift; [done|]. eapply paints_bind; [apply paints_put; [apply shown_keeps | done]|].
      rewrite Hti, He. change (lflag default_termios ICANON) with true. cbn [negb orb Z.eqb Pos.eqb]. rewrite andb_false_r.
      eapply paints_lift; [apply zstore_lt; lia|]. apply paints_put; [apply shown_keeps | done].
    + rewrite (wrap_small 64), Hst by lia. unfold t1. rewrite <- Hfl.
      apply (paints_upd shown shown_keeps a (set_input t (<[Z.to_nat (zlen l) := 10]> (buffer t)) 0 (zlen l + 1))
        (fun t => set_flags t (Z.lor (flags t) TTY_FLAG_FLUSH))). done.
  - assert (Hd : delivering f (l ++ [10]) t1).
    { unfold zlen in *. constructor; cbn; unfold zlen; rewrite ?length_insert, ?length_app; cbn; try done; try lia.
      rewrite Nat2Z.id, Nat.add_1_r, (take_S_r _ _ 10) by (apply list_lookup_insert_eq; lia).
      change (Z.to_nat 0) with 0%nat. by rewrite drop_0, take_insert_ge, Htx by lia. }
    destruct (output_spec_settings t1 10 0) as (p & q & s & E). pose proof (output_spec_placed t1 10 0 Hp1) as Hpo.
    rewrite E in *. destruct Hd. by constructor.
Qed.

Lemma read_paints a f c rest t :
  delivering f (c :: rest) t -> idle f ->
  exists t', paints shown a t (tty_device_read a) (Returns (if decide (rest = []) then 2 else 1) (Some c)) t' /\
    if decide (rest = []) then typing f [] t' else delivering f rest t'.
Proof.
  intros [Hti Hfl Hst He Hmx Hrm Htx Hpc] Hf. rewrite zlen_cons in He. pose proof (zlen_nonneg rest) as H0.
  pose proof (idle_bits f Hf) as [_ Hf1]. 
  assert (Hc : (buffer t).[start t] = Some c).
  { unfold zlookup. destruct (Z.ltb_spec (start t) 0); [lia|].
    rewrite <- (Nat.add_0_r (Z.to_nat (start t))), <- lookup_drop.
    rewrite <- (lookup_take_lt _ (length (c :: rest))) by (cbn; lia). by rewrite Htx. }
  assert (Hready : forall r t', paints shown a t (tty_read_ready a) r t' -> paints shown a t (tty_device_read a) r t').
  { intros r t' Hr. unfold tty_device_read. apply paints_get. rewrite Hti.
    change (lflag default_termios ICANON) with true. unfold tty_wait_input_ready. rewrite Hfl.
    rewrite (flag_set _ 1), Z.lor_spec, orb_true_r by lia. exact Hr. }
  destruct (decide (rest = [])) as [->|Hne]; eexists; (split; [apply Hready; unfold tty_read_ready; apply paints_get|]).
  - rewrite (proj2 (Z.eqb_neq _ _)) by lia. eapply paints_lift; [exact Hc|].
    rewrite (wrap_small 64), He by lia. cbn [zlen length Z.of_nat]. rewrite Z.add_0_r, Z.eqb_refl, Hfl.
    change TTY_FLAG_FLUSH with (2 ^ 1). rewrite flag_cleared by done.
    eapply paints_bind; [apply paints_put; [apply shown_keeps | done] | apply paints_ret].
  - by constructor; try done; apply not_elem_of_nil.
  - rewrite (proj2 (Z.eqb_neq _ _)) by lia. eapply paints_lift; [exact Hc|].
    rewrite (wrap_small 64), He by lia.
    assert (zlen rest <> 0) by (destruct rest; [done | rewrite zlen_cons; pose proof (zlen_nonneg rest); lia]).
    rewrite (proj2 (Z.eqb_neq _ _)) by lia.
    eapply paints_bind; [apply paints_put; [apply shown_keeps | done] | apply paints_ret].
  - constructor; cbn; try done; try lia.
    replace (Z.to_nat (start t + 1)) with (Z.to_nat (start t) + 1)%nat by lia. rewrite <- drop_drop.
    destruct (drop _ _) as [|c' d]; [done|]. cbn in Htx |- *. rewrite drop_0. congruence.
Qed.

Lemma reads_paints a f rest : forall t, delivering f rest t -> idle f -> rest <> [] ->
  exists t', paints shown a t (reads (length rest) a) (line_reads rest) t' /\ typing f [] t'.
Proof.
  induction rest as [|c rest IH]; intros t Ht Hf Hne; [done|].
  destruct (read_paints a f c rest t Ht Hf) as (t1 & H1 & Ht1). destruct (decide (rest = [])) as [->|Hr].
  - exists t1. split; [|done]. cbn. eapply paints_bind; [exact H1|].
    eapply paints_bind; apply paints_ret.
  - destruct (IH t1 Ht1 Hf Hr) as (t2 & H2 & Ht2). exists t2. split; [|done].
    cbn [length reads]. eapply paints_bind; [exact H1|]. eapply paints_bind; [exact H2|].
    destruct rest; [done|]. apply paints_ret.
Qed.

Lemma line_paints a f ks t :
  typing f [] t -> idle f -> Forall key_ok ks ->
  exists t', paints shown a t (input_bytes out a (concat (key_bytes <$> ks) ++ [10]);;
                               reads (S (length (edited ks))) a) (line_reads (edited ks ++ [10])) t' /\
    typing f [] t'.
Proof.
  intros Ht Hf Hk. destruct (keys_paints a f ks [] t Ht Hf Hk) as (t1 & H1 & Ht1). fold (edited ks) in Ht1.
  destruct (enter_paints a f _ t1 Ht1 Hf) as (t2 & H2 & Ht2).
  destruct (reads_paints a f _ t2 Ht2 Hf) as (t3 & H3 & Ht3); [by destruct (edited ks)|].
  exists t3. split; [|done]. rewrite length_app, Nat.add_1_r in H3.
  eapply paints_bind; [by eapply input_app_paints | exact H3].
Qed.
End typing.

(** ** The console *)

(** The terminal after [vga_text_init]. *)
Definition initialised (t : tty) : tty :=
  mk_tty 7 80 25 (x t) (y t) (replicate 2000 (32 + 256 * 7)) (flags t) (pgid t) (sid t)
    (buffer t) (start t) (endp t) default_termios.

Lemma clear_run a t w : displaying vga_sized a t w ->
  vga_text_clear a w =
    Some (0, set_vga (set_ttys w (<[a := set_screen t (replicate 2000 (32 + 256 * color t))]> (ttys w)))
               (replicate 2000 (32 + 256 * color t))).
Proof.
  intros (Ha & Ht & Hw & Hh & Hl & Hs & Hv). unfold vga_text_clear. rewrite (get_tty_run a t) by done.
  rewrite vga_text_entry_sum by lia. set (blank := replicate 2000 (32 + 256 * color t)).
  assert (Hb : zlen blank = 2000) by apply zlen_replicate.
  replace (blit (screen t) 0 blank) with (Some blank).
  2: { unfold blit. rewrite Hb, Hs. cbn [andb Z.leb]. rewrite drop_ge, app_nil_r by (unfold zlen in Hs; lia). done. }
  unfold lift, mbind at 1, M_bind at 1. unfold put, modify, mbind at 1, M_bind at 1.
  erewrite bind_run; [done|]. rewrite (show_screen_law a (set_screen t blank)); [done | done | | done | done].
  cbn. by rewrite lookup_insert_eq.
Qed.

Lemma vga_text_init_shows scr t w :
  ttys w !! current_tty w = Some t -> zlen scr = 2000 -> zlen (vga_text_buffer w) = 2000 ->
  exists w', vga_text_init scr w = Some (tt, w') /\ displaying vga_shown (current_tty w) (initialised t) w'.
Proof.
  intros Ht Hs Hv. unfold vga_text_init, mbind at 1, M_bind at 1, gets. set (a := current_tty w).
  set (t1 := mk_tty (vga_text_color 7 0) 80 25 (x t) (y t) scr (flags t) (pgid t) (sid t)
    (buffer t) (start t) (endp t) (tios t)).
  set (w1 := set_ttys w (<[a := t1]> (ttys w))).
  assert (D1 : displaying vga_sized a t1 w1).
  { split; [done|]. split; [cbn; by rewrite lookup_insert_eq|]. by repeat split. }
  erewrite (bind_run _ _ w tt w1) by (unfold upd; rewrite (get_tty_run a t) by done; done).
  rewrite (bind_run _ _ _ _ _ (clear_run a t1 w1 D1)).
  unfold upd. erewrite get_tty_run by (cbn; by rewrite lookup_insert_eq).
  eexists. split; [done|]. split; [done|]. cbn. split; [by rewrite lookup_insert_eq|].
  by repeat split.
Qed.

(** Bytes written to the device one after the other. *)
Fixpoint device_writes (group a : Z) (cs : list Z) : M world (list (res Z)) :=
  match cs with
  | [] => mret []
  | c :: cs => r ← tty_device_write vga_text_output group a c; rs ← device_writes group a cs; mret (r :: rs)
  end.

(** The process may write: it is in the foreground, or the terminal does not mind. *)
Definition may_write (group : Z) (t : tty) : bool := negb (lflag (tios t) TOSTOP) || (group =? pgid t).

Lemma device_writes_paint group a cs : forall t,
  placed t -> may_write group t = true -> Forall (fun c => 0 <= c < 256) cs ->
  paints shown a t (device_writes group a cs) (replicate (length cs) (Ok 1)) (output_all t cs) /\
  placed (output_all t cs).
Proof.
  induction cs as [|c cs IH]; intros t Hp Hm Hb; cbn [device_writes].
  { split; [apply paints_ret | done]. }
  apply Forall_cons in Hb as [Hc Hb].
  destruct (IH (output_spec t c 0)) as [Hs Hq]; [by apply output_spec_placed | | done|].
  { destruct (output_spec_settings t c 0) as (p & q & s & ->). done. }
  split; [|done]. apply (paints_bind _ _ _ _ _ (Ok 1) (output_spec t c 0)).
  - unfold tty_device_write. apply paints_get. unfold may_write in Hm.
    replace (lflag (tios t) TOSTOP && negb (group =? pgid t)) with false
      by (destruct (lflag _ _), (_ =? _); done).
    eapply paints_bind; [by apply tty_output_byte_paints | apply paints_ret].
  - eapply paints_bind; [exact Hs | apply paints_ret].
Qed.

(** C35: Whatever bytes are written to the console, every write succeeds, no store leaves the
    screen or the display memory, and the result is what the terminal as a function gives:
    characters drawn at the cursor, tabs, line ends, wrapping, scrolling by a row, control
    characters as [^X]; the cursor stays on the screen, the display memory holds the screen
    of the terminal, and nothing else of the state changes. *)
Theorem console_output a group t w cs :
  displaying vga_shown a t w -> on_screen t -> may_write group t = true ->
  Forall (fun c => 0 <= c < 256) cs ->
  exists w', device_writes group a cs w = Some (replicate (length cs) (Ok 1), w') /\
    displaying vga_shown a (output_all t cs) w' /\ on_screen (output_all t cs) /\
    shows w (output_all t cs) w'.
Proof.
  intros Hw Hp Hm Hb. destruct (device_writes_paint group a cs t) as [H Hq]; [|done|done|].
  { split; [done|]. destruct Hw as (_ & _ & -> & -> & _). done. }
  destruct (H w Hw) as (w' & E & Hs & D). exists w'. by destruct Hq.
Qed.

(** The console line discipline is a line editor: with the settings of [vga_text_init],
    characters, quoted characters, erasures and kills typed at an idle terminal and then
    Enter leave a line that successive reads deliver exactly, one character each and the
    last with status 2, what did not fit in the buffer apart; no access leaves the buffers
    or the screen, and the terminal is idle again. *)
Theorem typed_line_read a f ks t w :
  displaying vga_shown a t w -> typing f [] t -> idle f -> Forall key_ok ks ->
  exists t' w',
    (input_bytes vga_text_output a (concat (key_bytes <$> ks) ++ [10]);;
     reads (S (length (edited ks))) a) w = Some (line_reads (edited ks ++ [10]), w') /\
    displaying vga_shown a t' w' /\ typing f [] t'.
Proof.
  intros Hw Ht Hf Hk. destruct (line_paints (out := vga_text_output) a f ks t Ht Hf Hk) as (t' & H & Ht').
  destruct (H w Hw) as (w' & E & _ & D). eauto.
Qed.

(** The console at boot, and after [vga_text_init]. *)
Definition boot_tty : tty :=
  mk_tty 0 0 0 0 0 [] 0 0 (-1) (replicate 1024 0) 0 0 (mk_termios 0 0 0 0 (fun _ => 0)).
Definition boot_world : world :=
  mk_world {[ 4096 := boot_tty ]} 4096 (replicate 2000 0) [] (replicate 128 0) false 0 [].

Lemma boot_console : exists w, vga_text_init (replicate 2000 0) boot_world = Some (tt, w) /\
  displaying vga_shown 4096 (initialised boot_tty) w.
Proof. apply (vga_text_init_shows (replicate 2000 0) boot_tty boot_world); [|apply zlen_replicate..]. apply lookup_insert_eq. Qed.

Lemma boot_placed : placed (initialised boot_tty).
Proof. unfold placed, on_screen. cbn [x y width height initialised boot_tty]. split_and!; lia || reflexivity. Qed.

Lemma boot_typing : typing 0 [] (initialised boot_tty).
Proof.
  constructor; [reflexivity.. | | apply zlen_replicate | reflexivity | | | apply boot_placed].
  - rewrite zlen_nil. lia.
  - apply not_elem_of_nil.
  - constructor.
Qed.

Lemma console_output_witness : exists w w',
  vga_text_init (replicate 2000 0) boot_world = Some (tt, w) /\
  device_writes 0 4096 [72; 105; 9; 3; 10] w = Some (replicate 5 (Ok 1), w').
Proof.
  destruct boot_console as (w & E & D). exists w.
  destruct (console_output 4096 0 (initialised boot_tty) w [72; 105; 9; 3; 10] D) as (w' & H & _).
  - apply boot_placed.
  - reflexivity.
  - by repeat constructor.
  - exists w'. by split.
Defined.

Lemma typed_line_read_witness : exists w w',
  vga_text_init (replicate 2000 0) boot_world = Some (tt, w) /\
  (input_bytes vga_text_output 4096 [97; 98; 31; 22; 3; 10];; reads 3 4096) w =
    Some ([Returns 1 (Some 97); Returns 1 (Some 3); Returns 2 (Some 10)], w').
Proof.
  destruct boot_console as (w & E & D). exists w.
  destruct (typed_line_read 4096 0 [Plain 97; Plain 98; Erase; Quote 3] (initialised boot_tty) w D) as (t' & w' & H & _).
  - apply boot_typing.
  - reflexivity.
  - repeat constructor; try lia; rewrite !not_elem_of_cons; (split_and!; [lia.. | apply not_elem_of_nil]).
  - exists w'. by split.
Defined.


(** ** The keyboard *)

(** The tables stay within seven bits. *)
Lemma tables_bound l i c : l = kbd_layout \/ l = kbd_shiftmap \/ l = kbd_ctrl_kmap -> l.[i] = Some c -> 0 <= c < 128.
Proof.
  intros Hl Hi. assert (Hf : forallb (fun c => (0 <=? c) && (c <? 128)) l = true)
    by (destruct Hl as [-> | [-> | ->] ]; vm_compute; reflexivity).
  rewrite forallb_forall in Hf. unfold zlookup in Hi. destruct (i <? 0); [done|].
  apply list_elem_of_lookup_2, list_elem_of_In, Hf in Hi. lia.
Qed.

Lemma translate_total keys c : zlen keys = 128 -> 0 <= c < 128 -> exists k, translate keys c = Some k /\ 0 <= k < 128.
Proof.
  intros Hk Hc. unfold translate, held.
  destruct (zlookup_lt_Some keys PS2_KSC_LSHIFT) as [ls ->]; [lia|].
  destruct (zlookup_lt_Some keys PS2_KSC_RSHIFT) as [rs ->]; [lia|].
  destruct (zlookup_lt_Some keys PS2_KSC_LCTRL) as [lc ->]; [lia|]. orun.
  destruct (zlookup_lt_Some kbd_shiftmap c) as [s Hs]; [exact Hc|]. rewrite Hs. orun.
  assert (H1 : 0 <= (if (truthy ls || truthy rs) && truthy s then s else c) < 128).
  { destruct (_ && _); [|done]. refine (tables_bound kbd_shiftmap _ _ _ Hs). by right; left. }
  destruct (zlookup_lt_Some kbd_ctrl_kmap _ H1) as [k Hc1]. rewrite Hc1. orun.
  eexists. split; [done|]. destruct (truthy lc && truthy k); [|done].
  refine (tables_bound kbd_ctrl_kmap _ _ _ Hc1). by right; right.
Qed.

(** A key pressed that has a character sends it, with shift and control applied, to the
    console; one without a character is only remembered as held. *)
Lemma kbd_press kt sc w :
  key_extended w = false -> 0 <= sc < 128 -> zlen (kbd_pressed w) = 128 ->
  let w' := set_keys w (<[Z.to_nat sc := 1]> (kbd_pressed w)) in
  exists k, kbd_layout.[sc] = Some k /\
    if k =? 0 then kbd_recv_key kt sc w = Some (tt, w')
    else exists c, translate (kbd_pressed w') k = Some c /\ 0 <= c < 128 /\
      kbd_recv_key kt sc w = tty_input_byte vga_text_output kt c w'.
Proof.
  intros He Hs Hk w'. destruct (zlookup_lt_Some kbd_layout sc) as [k Hl]; [exact Hs|].
  exists k. split; [done|]. unfold kbd_recv_key, mbind, M_bind, gets. rewrite He.
  rewrite (proj2 (Z.eqb_neq sc _)) by lia. replace (0x80 <? sc) with false by lia.
  rewrite zstore_lt by lia. unfold lift, modify. rewrite Hl. fold w'. unfold truthy.
  destruct (k =? 0); cbn [negb]; [done|].
  assert (Hk' : zlen (kbd_pressed w') = 128) by (unfold zlen in *; cbn; by rewrite length_insert).
  destruct (translate_total (kbd_pressed w') k Hk') as (c & Hc & Hb).
  { refine (tables_bound kbd_layout _ _ _ Hl). by left. }
  exists c. split; [done|]. split; [done|]. change (kbd_pressed w') with (<[Z.to_nat sc := 1]> (kbd_pressed w)) in Hc.
  rewrite Hc. reflexivity.
Qed.

(** Pressing shift and a letter, and control and a letter. *)
Example shift_a : translate (<[42%nat := 1]> (replicate 128 0)) 97 = Some 65.
Proof. reflexivity. Qed.
Example ctrl_c : translate (<[29%nat := 1]> (replicate 128 0)) 99 = Some 3.
Proof. reflexivity. Qed.

(** ** Behaviours the code does not mean *)

(** The console after [vga_text_init]. *)
Definition console : world :=
  match vga_text_init (replicate 2000 0) boot_world with Some (_, w) => w | None => boot_world end.

(** A second line end on a full buffer is stored after the buffer. *)
Lemma full_line_overruns a t w :
  ttys w !! a = Some t -> start t = 0 -> endp t = 1024 -> zlen (buffer t) = 1024 ->
  lflag (tios t) ICANON = true -> tty_recv a 10 w = None.
Proof.
  intros Ht Hs He Hb Hc. unfold tty_recv. rewrite (get_tty_run a t) by done. rewrite Hs, andb_false_r.
  unfold lift, mbind, M_bind, put, modify. rewrite He, Hc. cbn [negb orb Z.eqb Pos.eqb]. rewrite andb_false_r.
  unfold zstore. by rewrite zlookup_None by lia.
Qed.

(** Erasing the first word of a line reads before the buffer. *)
Lemma erase_first_word_underruns :
  input_bytes vga_text_output 4096 [97; 98; 23] console = None.
Proof. vm_compute. reflexivity. Qed.

(** Reprinting a line that is not empty does not stop before the end of the buffer. *)
Lemma reprint_overruns : input_bytes vga_text_output 4096 [97; 18] console = None.
Proof. vm_compute. reflexivity. Qed.

(** Erasures typed while a line is being read remove its line end, and move the end of the
    input before its start. *)
Lemma erase_before_start :
  match (input_bytes vga_text_output 4096 [97; 98; 10];; tty_device_read 4096;; tty_device_read 4096;;
         input_bytes vga_text_output 4096 [31; 31]) console with
  | Some (_, w) => option_map (fun t => (start t, endp t)) (ttys w !! 4096)
  | None => None
  end = Some (2, 1).
Proof. vm_compute. reflexivity. Qed.

(** Scrolling a terminal that is not the current one moves the screen of the current one. *)
Lemma scroll_moves_current :
  let t := set_screen (initialised boot_tty) (replicate 2000 65) in
  match vga_text_scroll_down 8192 (set_ttys console (<[8192 := t]> (<[4096 := set_screen t (seqZ 0 2000)]> (ttys console)))) with
  | Some (_, w) =>
      (option_map (fun t => (screen t).[0]) (ttys w !! 4096), option_map (fun t => (screen t).[0]) (ttys w !! 8192))
  | None => (None, None)
  end = (Some (Some 80), Some (Some 65)).
Proof. vm_compute. reflexivity. Qed.

(** A window size larger than the screen makes output leave the screen. *)
Lemma wide_window_overruns :
  (sys_ioctl (Some 4096) (TIOCSWINSZ 132 43);; output_bytes (out := vga_text_output) 4096 (replicate 26 10 ++ [65])) console = None.
Proof. vm_compute. reflexivity. Qed.

(** The scan code 0x80 is stored after the array of keys. *)
Lemma scancode_80_overruns kt w : key_extended w = false -> zlen (kbd_pressed w) = 128 -> kbd_recv_key kt 0x80 w = None.
Proof.
  intros He Hk. unfold kbd_recv_key, mbind, M_bind, gets. rewrite He. cbn [Z.eqb Pos.eqb Z.ltb Z.compare Pos.compare Pos.compare_cont].
  unfold zstore. by rewrite zlookup_None by lia.
Qed.
End Tty.
