(* ===== verification/Ata.v ===== *)
(** * ATA disks (drivers/ata.c)

    Module [Ata]: the registers of the two channels, one command to a drive by
    programmed or bus-master transfers, the addressing of sectors, and reading
    and writing byte ranges of a disk or a partition. The controller is an
    interface: the driver runs against any port functions, and the promises of a
    drive are laws of a class. *)

From S2P Require Import Prelude CBits Hash HashMap CString.

Module Ata.
Import CBits HashMap CString.

Abbreviation ATA_SR_ERR := 1.
Abbreviation ATA_SR_DRQ := 8.
Abbreviation ATA_SR_DF := 32.
Abbreviation ATA_SR_BSY := 128.
Abbreviation ATA_CTL_NIEN := 2.
Abbreviation ATA_BM_SR_ERR := 2.
Abbreviation ATA_BM_SR_INT := 4.
Abbreviation ATA_CMD_READ_PIO := 0x20.
Abbreviation ATA_CMD_READ_PIO_EXT := 0x24.
Abbreviation ATA_CMD_READ_DMA := 0xc8.
Abbreviation ATA_CMD_READ_DMA_EXT := 0x25.
Abbreviation ATA_CMD_WRITE_PIO := 0x30.
Abbreviation ATA_CMD_WRITE_PIO_EXT := 0x34.
Abbreviation ATA_CMD_WRITE_DMA := 0xca.
Abbreviation ATA_CMD_WRITE_DMA_EXT := 0x35.
Abbreviation ATA_CMD_CACHE_FLUSH := 0xe7.
Abbreviation ATA_CMD_CACHE_FLUSH_EXT := 0xea.
Abbreviation ATA_BM_CMD_START := 1.
Abbreviation ATA_BM_CMD_READ := 8.
Abbreviation ATA_REG_DATA := 0x00.
Abbreviation ATA_REG_SECTOR_COUNT0 := 0x02.
Abbreviation ATA_REG_LBA0 := 0x03.
Abbreviation ATA_REG_LBA1 := 0x04.
Abbreviation ATA_REG_LBA2 := 0x05.
Abbreviation ATA_REG_DEVICE_SELECT := 0x06.
Abbreviation ATA_REG_COMMAND := 0x07.
Abbreviation ATA_REG_STATUS := 0x07.
Abbreviation ATA_REG_SECTOR_COUNT1 := 0x08.
Abbreviation ATA_REG_LBA3 := 0x09.
Abbreviation ATA_REG_LBA4 := 0x0a.
Abbreviation ATA_REG_LBA5 := 0x0b.
Abbreviation ATA_REG_CONTROL := 0x0c.
Abbreviation ATA_REG_ALT_STATUS := 0x0c.
Abbreviation ATA_REG_BM_COMMAND := 0x0e.
Abbreviation ATA_REG_BM_STATUS := 0x10.
Abbreviation ATA_REG_BM_PRDT0 := 0x12.
Abbreviation ATA_REG_BM_PRDT1 := 0x13.
Abbreviation ATA_REG_BM_PRDT2 := 0x14.
Abbreviation ATA_REG_BM_PRDT3 := 0x15.
Abbreviation ATA_SECTOR_SIZE := 512.
Abbreviation ATA_CHANNEL_PRIMARY := 0.
Abbreviation ATA_CHANNEL_SECONDARY := 1.
Abbreviation UCHAR_MAX := 255.

Inductive ata_op := ATA_OP_READ | ATA_OP_WRITE.
Inductive ata_addr_mode := ATA_ADDR_CHS | ATA_ADDR_LBA28 | ATA_ADDR_LBA48.

#[export] Instance ata_op_eq_dec : EqDecision ata_op.
Proof. solve_decision. Defined.
#[export] Instance ata_addr_mode_eq_dec : EqDecision ata_addr_mode.
Proof. solve_decision. Defined.

Record ata_registers := mk_registers { base : Z; control : Z; bus_master_ide : Z; nien : Z }.

(** [struct ata_device]; the model string and the fields of the PRDT that are set
    once are left out. [dev_buffer] is the buffer of the drive. *)
Record ata_device := mk_device {
  exists_ : Z; channel : Z; drive : Z; capabilities : Z; size : Z;
  prdt_len : Z; dev_buffer : list Z
}.

Definition set_prdt_len (d : ata_device) (n : Z) : ata_device :=
  mk_device (exists_ d) (channel d) (drive d) (capabilities d) (size d) n (dev_buffer d).
Definition set_dev_buffer (d : ata_device) (b : list Z) : ata_device :=
  mk_device (exists_ d) (channel d) (drive d) (capabilities d) (size d) (prdt_len d) b.

(** The instructions that reach the controller, on a state of the hardware [H],
    and what a bus-master transfer does to the memory its descriptor names before
    the interrupt is raised. Bytes of a block transfer come in memory order. *)
Record port_io (H : Type) := mk_io {
  inb : Z -> M H Z;
  outb : Z -> Z -> M H unit;
  insw : Z -> nat -> M H (list Z);
  outsw : Z -> list Z -> M H unit;
  bus_master : Z -> list Z -> M H (list Z)
}.
Arguments mk_io {H}.
Arguments inb {H} _ _.
Arguments outb {H} _ _ _.
Arguments insw {H} _ _ _.
Arguments outsw {H} _ _ _.
Arguments bus_master {H} _ _ _.

(** The variables of the driver, with the hardware. *)
Record state (H : Type) := mk_state {
  ata_channels : list ata_registers; ata_devices : list ata_device;
  ata_irq_recv : bool; ata_dma_support : bool; ata_buffer : list Z; hw : H
}.
Arguments mk_state {H}.
Arguments ata_channels {H} _.
Arguments ata_devices {H} _.
Arguments ata_irq_recv {H} _.
Arguments ata_dma_support {H} _.
Arguments ata_buffer {H} _.
Arguments hw {H} _.

Section driver.
Context {H : Type} (io : port_io H).
(** The address of [ata_devices[i].prdt] less [KERNEL_VMA], and the number of
    times a register is polled before the model gives up. *)
Context (prdt_phys : Z -> Z) (patience : nat).
Implicit Types s : state H.

Definition set_channels s l := mk_state l (ata_devices s) (ata_irq_recv s) (ata_dma_support s) (ata_buffer s) (hw s).
Definition set_devices s l := mk_state (ata_channels s) l (ata_irq_recv s) (ata_dma_support s) (ata_buffer s) (hw s).
Definition set_irq s b := mk_state (ata_channels s) (ata_devices s) b (ata_dma_support s) (ata_buffer s) (hw s).
Definition set_buffer s b := mk_state (ata_channels s) (ata_devices s) (ata_irq_recv s) (ata_dma_support s) b (hw s).
Definition set_hw s (h : H) : state H := mk_state (ata_channels s) (ata_devices s) (ata_irq_recv s) (ata_dma_support s) (ata_buffer s) h.

(** An instruction of the machine. *)
Definition on_hw {A} (m : M H A) : M (state H) A := fun s =>
  match m (hw s) with Some (a, h) => Some (a, set_hw s h) | None => None end.

Definition regs (ch : Z) : M (state H) ata_registers := fun s => lift ((ata_channels s).[ch]) s.
Definition device (i : Z) : M (state H) ata_device := fun s => lift ((ata_devices s).[i]) s.
Definition store_device (i : Z) (d : ata_device) : M (state H) unit :=
  s ← gets (fun s => s); l ← lift ((ata_devices s).[i <- d]); modify (fun s => set_devices s l).
Definition set_nien (ch v : Z) : M (state H) unit :=
  s ← gets (fun s => s); r ← regs ch;
  l ← lift ((ata_channels s).[ch <- mk_registers (base r) (control r) (bus_master_ide r) v]);
  modify (fun s => set_channels s l).

(** ** Registers *)

(** The port of a register number. *)
Definition port_of (r : ata_registers) (reg : Z) : option Z :=
  if reg <? 0x08 then Some (u16 (base r + reg))
  else if reg <? 0x0c then Some (u16 (base r + reg - 0x06))
  else if reg <? 0x0e then Some (u16 (control r + reg - 0x0a))
  else if reg <? 0x16 then Some (u16 (bus_master_ide r + reg - 0x0e))
  else None.

(** [reg > 0x07 && reg < 0x0c] *)
Definition high_order (reg : Z) : bool := (0x07 <? reg) && (reg <? 0x0c).

Definition out_reg (ch reg value : Z) : M (state H) unit :=
  r ← regs ch;
  match port_of r reg with Some p => on_hw (outb io (u8 value) p) | None => mret tt end.

(** The write of the control register inside [ata_write] is not one of the high
    order registers, so it does not call itself again. *)
Definition ata_write (ch reg value : Z) : M (state H) unit :=
  r ← regs ch;
  (if high_order reg then out_reg ch ATA_REG_CONTROL (Z.lor 0x80 (nien r)) else mret tt);;
  out_reg ch reg value;;
  (if high_order reg then out_reg ch ATA_REG_CONTROL (nien r) else mret tt).

Definition ata_read (ch reg : Z) : M (state H) Z :=
  r ← regs ch;
  (if high_order reg then ata_write ch ATA_REG_CONTROL (Z.lor 0x80 (nien r)) else mret tt);;
  b ← match port_of r reg with Some p => on_hw (inb io p) | None => mret 0 end;
  (if high_order reg then ata_write ch ATA_REG_CONTROL (nien r) else mret tt);;
  mret b.

(** [while (ata_read (channel, reg) & mask)], and with the test negated. *)
Fixpoint wait_while (fuel : nat) (ch reg mask : Z) (set : bool) : M (state H) unit :=
  b ← ata_read ch reg;
  if Bool.eqb (truthy (Z.land b mask)) set then
    match fuel with O => fault | S fuel => wait_while fuel ch reg mask set end
  else mret tt.

(** The reads whose values are not used. *)
Fixpoint read_times (n : nat) (ch reg : Z) : M (state H) unit :=
  match n with O => mret tt | S n => ata_read ch reg;; read_times n ch reg end.

Definition ata_poll (ch : Z) (check_err : bool) : M (state H) Z :=
  read_times 4 ch ATA_REG_ALT_STATUS;;
  wait_while patience ch ATA_REG_STATUS ATA_SR_BSY true;;
  if check_err then
    status ← ata_read ch ATA_REG_STATUS;
    mret (if truthy (Z.land status ATA_SR_ERR) then 1
          else if truthy (Z.land status ATA_SR_DF) then 2
          else if negb (truthy (Z.land status ATA_SR_DRQ)) then 3 else 0)
  else mret 0.

(** ** Addresses of sectors *)

(** The addressing mode, the bytes [lba_io] and the head. *)
Record address := mk_address { lba_mode : ata_addr_mode; lba_io : list Z; head : Z }.

Definition sector_address (capabilities lba : Z) : address :=
  if 0x10000000 <=? lba then
    mk_address ATA_ADDR_LBA48
      [Z.land lba 0xff; Z.land (Z.shiftr lba 8) 0xff; Z.land (Z.shiftr lba 16) 0xff;
       Z.land (Z.shiftr lba 24) 0xff; 0; 0] 0
  else if truthy (Z.land capabilities (Z.shiftl 1 9)) then
    mk_address ATA_ADDR_LBA28
      [Z.land lba 0xff; Z.land (Z.shiftr lba 8) 0xff; Z.land (Z.shiftr lba 16) 0xff; 0; 0; 0]
      (Z.land (Z.shiftr lba 24) 0xf)
  else
    let sector := u8 (lba mod 63 + 1) in
    let cylinder := u16 (u32 (lba - sector + 1) / 1008) in
    mk_address ATA_ADDR_CHS
      [sector; Z.land cylinder 0xff; Z.land (Z.shiftr cylinder 8) 0xff; 0; 0; 0]
      (u8 (u32 (lba - sector + 1) mod 1008 / 63)).

(** The command of an operation. *)
Definition command (mode : ata_addr_mode) (dma : bool) (op : ata_op) : Z :=
  let write := bool_decide (op = ATA_OP_WRITE) in
  match mode with
  | ATA_ADDR_LBA48 =>
      if dma then if write then ATA_CMD_WRITE_DMA_EXT else ATA_CMD_READ_DMA_EXT
      else if write then ATA_CMD_WRITE_PIO_EXT else ATA_CMD_READ_PIO_EXT
  | _ =>
      if dma then if write then ATA_CMD_WRITE_DMA else ATA_CMD_READ_DMA
      else if write then ATA_CMD_WRITE_PIO else ATA_CMD_READ_PIO
  end.

(** ** One command *)

(** The interrupt of a channel: [inb (ATA_REG_BM_STATUS)] reads the port of that
    number, and [EOI] is left out. *)
Definition int_ata (ch : Z) : M (state H) unit :=
  b ← ata_read ch ATA_REG_BM_STATUS;
  if truthy (Z.land b ATA_BM_SR_INT) then
    modify (fun s => set_irq s true);; on_hw (inb io ATA_REG_BM_STATUS);; mret tt
  else mret tt.

(** [while (!ata_irq_recv)]: while the processor waits, the controller completes
    the transfer to or from the buffer of the drive and interrupts. *)
Fixpoint ata_await (fuel : nat) (ch dev : Z) : M (state H) unit :=
  s ← gets (fun s => s);
  if ata_irq_recv s then modify (fun s => set_irq s false) else
  match fuel with
  | O => fault
  | S fuel =>
      d ← device dev;
      let n := Z.to_nat (if prdt_len d =? 0 then 0x10000 else prdt_len d) in
      region ← on_hw (bus_master io ch (take n (dev_buffer d)));
      store_device dev (set_dev_buffer d (region ++ drop n (dev_buffer d)));;
      int_ata ch;;
      ata_await fuel ch dev
  end.

(** Before the address: the descriptor of a bus-master transfer, or interrupts off. *)
Definition prepare (dma : bool) (ch dev sectors : Z) : M (state H) unit :=
  if dma then
    d ← device dev;
    store_device dev (set_prdt_len d (u16 (sectors * ATA_SECTOR_SIZE)));;
    let phys_addr := prdt_phys dev in
    ata_write ch ATA_REG_BM_PRDT0 (Z.land phys_addr 0xff);;
    ata_write ch ATA_REG_BM_PRDT1 (Z.land (Z.shiftr phys_addr 8) 0xff);;
    ata_write ch ATA_REG_BM_PRDT2 (Z.land (Z.shiftr phys_addr 16) 0xff);;
    ata_write ch ATA_REG_BM_PRDT3 (Z.land (Z.shiftr phys_addr 24) 0xff)
  else
    modify (fun s => set_irq s false);;
    set_nien ch ATA_CTL_NIEN;;
    ata_write ch ATA_REG_CONTROL ATA_CTL_NIEN.

(** Selects the drive and writes the sector count and the address. *)
Definition send_address (ch drv sectors : Z) (a : address) : M (state H) unit :=
  (match lba_mode a with
   | ATA_ADDR_CHS => ata_write ch ATA_REG_DEVICE_SELECT (Z.lor (Z.lor 0xa0 (Z.shiftl drv 4)) (head a))
   | _ => ata_write ch ATA_REG_DEVICE_SELECT (Z.lor (Z.lor 0xe0 (Z.shiftl drv 4)) (head a))
   end);;
  (match lba_mode a with
   | ATA_ADDR_LBA48 =>
       ata_write ch ATA_REG_SECTOR_COUNT1 0;;
       l3 ← lift ((lba_io a).[3]); ata_write ch ATA_REG_LBA3 l3;;
       l4 ← lift ((lba_io a).[4]); ata_write ch ATA_REG_LBA4 l4;;
       l5 ← lift ((lba_io a).[5]); ata_write ch ATA_REG_LBA5 l5
   | _ => mret tt
   end);;
  ata_write ch ATA_REG_SECTOR_COUNT0 sectors;;
  l0 ← lift ((lba_io a).[0]); ata_write ch ATA_REG_LBA0 l0;;
  l1 ← lift ((lba_io a).[1]); ata_write ch ATA_REG_LBA1 l1;;
  l2 ← lift ((lba_io a).[2]); ata_write ch ATA_REG_LBA2 l2.

(** The loops over the sectors of a programmed transfer. Reading returns the error
    and the bytes that have reached the buffer. *)
Fixpoint pio_write (n : nat) (ch bus : Z) (buffer : list Z) : M (state H) unit :=
  match n with
  | O => mret tt
  | S n =>
      ata_poll ch false;;
      data ← lift (slice buffer 0 ATA_SECTOR_SIZE);
      on_hw (outsw io bus data);;
      pio_write n ch bus (drop 512 buffer)
  end.

Fixpoint pio_read (n : nat) (ch bus : Z) (got : list Z) : M (state H) (Z * list Z) :=
  match n with
  | O => mret (0, got)
  | S n =>
      err ← ata_poll ch true;
      if truthy err then mret (err, got) else
      data ← on_hw (insw io bus 256);
      pio_read n ch bus (got ++ data)
  end.

(** The transfer after the command. *)
Definition run_dma (op : ata_op) (ch dev sectors : Z) : M (state H) (Z * list Z) :=
  let flags := match op with ATA_OP_READ => Z.lor ATA_BM_CMD_START ATA_BM_CMD_READ | ATA_OP_WRITE => ATA_BM_CMD_START end in
  set_nien ch 0;;
  ata_write ch ATA_REG_CONTROL 0;;
  wait_while patience ch ATA_REG_STATUS ATA_SR_DRQ false;;
  ata_write ch ATA_REG_BM_COMMAND flags;;
  ata_await patience ch dev;;
  ata_write ch ATA_REG_BM_COMMAND 0;;
  status ← ata_read ch ATA_REG_STATUS;
  if truthy (Z.land status ATA_SR_ERR) || truthy (Z.land status ATA_SR_DF) then mret (-1, []) else
  match op with
  | ATA_OP_READ => d ← device dev; data ← lift (slice (dev_buffer d) 0 (sectors * ATA_SECTOR_SIZE)); mret (0, data)
  | ATA_OP_WRITE => mret (0, [])
  end.

Definition run_pio (op : ata_op) (mode : ata_addr_mode) (ch bus sectors : Z) (buffer : list Z) : M (state H) (Z * list Z) :=
  match op with
  | ATA_OP_WRITE =>
      pio_write (Z.to_nat sectors) ch bus buffer;;
      ata_write ch ATA_REG_COMMAND
        (match mode with ATA_ADDR_LBA48 => ATA_CMD_CACHE_FLUSH_EXT | _ => ATA_CMD_CACHE_FLUSH end);;
      ata_poll ch false;;
      mret (0, [])
  | ATA_OP_READ => pio_read (Z.to_nat sectors) ch bus []
  end.

(** [buffer] holds the bytes to write; the result has the status and the bytes read. *)
Definition ata_access (op : ata_op) (ch drv lba sectors : Z) (buffer : list Z) : M (state H) (Z * list Z) :=
  let dev := ch * 2 + drv in
  r ← regs ch;
  dma ← gets (ata_dma_support (H := H));
  (match op with
   | ATA_OP_WRITE =>
       d ← device dev;
       data ← lift (slice buffer 0 (sectors * ATA_SECTOR_SIZE));
       b ← lift (blit (dev_buffer d) 0 data);
       store_device dev (set_dev_buffer d b)
   | ATA_OP_READ => mret tt
   end);;
  prepare dma ch dev sectors;;
  d ← device dev;
  let a := sector_address (capabilities d) lba in
  wait_while patience ch ATA_REG_STATUS ATA_SR_BSY true;;
  (if dma : bool then
     b ← ata_read ch ATA_REG_BM_STATUS;
     ata_write ch ATA_REG_BM_STATUS (Z.land b (Z.lnot (Z.lor ATA_BM_SR_ERR ATA_BM_SR_INT)))
   else mret tt);;
  send_address ch (drive d) sectors a;;
  ata_write ch ATA_REG_COMMAND (command (lba_mode a) dma op);;
  if dma : bool then run_dma op ch dev sectors else run_pio op (lba_mode a) ch (base r) sectors buffer.

(** The test of [ata_read_sectors] and [ata_write_sectors]. *)
Definition in_drive (d : ata_device) (lba sectors : Z) : bool :=
  truthy (exists_ d) && (u32 (lba + sectors) <=? size d).

Definition ata_read_sectors (ch drv sectors lba : Z) : M (state H) (Z * list Z) :=
  let sectors := u8 sectors in let lba := u32 lba in
  d ← device (ch * 2 + drv);
  if negb (in_drive d lba sectors) then mret (-1, []) else
  ata_access ATA_OP_READ ch drv lba sectors [].

Definition ata_write_sectors (ch drv sectors lba : Z) (buffer : list Z) : M (state H) Z :=
  let sectors := u8 sectors in let lba := u32 lba in
  d ← device (ch * 2 + drv);
  if negb (in_drive d lba sectors) then mret (-1 : Z) else
  r ← ata_access ATA_OP_WRITE ch drv lba sectors buffer; mret r.1.

(** ** Byte ranges of a disk or partition *)

(** [struct disk_device_data] *)
Record disk_device_data := mk_data { dd_channel : Z; dd_drive : Z; dd_lba : Z; dd_len : Z }.

(** The variables computed at the head of [ata_device_read] and
    [ata_device_write]. *)
Record extent := mk_extent { start_lba : Z; mid_lba : Z; end_lba : Z; sectors : Z; start_diff : Z; end_diff : Z }.

Definition extent_of (len offset : Z) : extent :=
  let start_lba := Z.quot offset ATA_SECTOR_SIZE in
  let mid_lba := start_lba + (if Z.rem offset ATA_SECTOR_SIZE =? 0 then 0 else 1) in
  let end_lba := u64 (offset + len) / ATA_SECTOR_SIZE in
  mk_extent start_lba mid_lba end_lba (u64 (end_lba - mid_lba))
    (u64 (mid_lba * ATA_SECTOR_SIZE - offset)) (u64 (offset + len - end_lba * ATA_SECTOR_SIZE)).

(** The length after it is cut off at the end of the device. *)
Definition cut_len (data : disk_device_data) (len offset : Z) : Z :=
  if dd_len data <? u64 (offset + len) then u64 (dd_len data - offset) else len.

(** [ata_read_sectors (..., buffer + off)]: the buffer with the bytes read. *)
Definition read_to (data : disk_device_data) (sectors lba : Z) (buffer : list Z) (off : Z) :
    M (state H) (bool * list Z) :=
  r ← ata_read_sectors (dd_channel data) (dd_drive data) sectors lba;
  buffer ← lift (blit buffer off r.2);
  mret (truthy r.1, buffer).

(** One sector read to [ata_buffer]. *)
Definition read_bounce (data : disk_device_data) (lba : Z) : M (state H) bool :=
  b ← gets ata_buffer;
  r ← read_to data 1 lba b 0;
  modify (fun s => set_buffer s r.2);;
  mret r.1.

(** The chunks of 255 sectors and the rest. *)
Fixpoint read_chunks (fuel : nat) (data : disk_device_data) (e : extent) (i : Z) (buffer : list Z) :
    M (state H) (bool * list Z) :=
  let lba := mid_lba e + dd_lba data + i in
  let off := start_diff e + i * ATA_SECTOR_SIZE in
  if i + UCHAR_MAX <? sectors e then
    match fuel with
    | O => fault
    | S fuel =>
        '(failed, buffer) ← read_to data UCHAR_MAX lba buffer off;
        if failed : bool then mret (true, buffer) else read_chunks fuel data e (i + UCHAR_MAX) buffer
    end
  else read_to data (sectors e - i) lba buffer off.

(** [n] bytes at [from] of one sector, copied to [buffer + off]. *)
Definition read_part (data : disk_device_data) (lba from n : Z) (buffer : list Z) (off : Z) :
    M (state H) (bool * list Z) :=
  failed ← read_bounce data lba;
  if failed : bool then mret (true, buffer) else
  b ← gets ata_buffer;
  d ← lift (slice b from n);
  buffer ← lift (blit buffer off d);
  mret (false, buffer).

(** The result and the contents of the buffer of the caller. *)
Definition ata_device_read (data : disk_device_data) (buffer : list Z) (len offset : Z) :
    M (state H) (res Z * list Z) :=
  if len =? 0 then mret (Ok 0, buffer) else
  let e := extent_of len offset in
  if dd_len data <=? u64 offset then mret (Err EINVAL, buffer) else
  let len := cut_len data len offset in
  if end_lba e <? mid_lba e then
    '(failed, buffer) ← read_part data (start_lba e + dd_lba data) (ATA_SECTOR_SIZE - start_diff e) len buffer 0;
    mret (if failed : bool then Err EIO else Ok len, buffer)
  else
  '(failed, buffer) ← (if truthy (sectors e)
     then read_chunks (Z.to_nat (sectors e)) data e 0 buffer else mret (false, buffer));
  if failed : bool then mret (Err EIO, buffer) else
  '(failed, buffer) ← (if truthy (start_diff e)
     then read_part data (start_lba e + dd_lba data) (ATA_SECTOR_SIZE - start_diff e) (start_diff e) buffer 0
     else mret (false, buffer));
  if failed : bool then mret (Err EIO, buffer) else
  '(failed, buffer) ← (if truthy (end_diff e)
     then read_part data (end_lba e + dd_lba data) 0 (end_diff e) buffer (start_diff e + sectors e * ATA_SECTOR_SIZE)
     else mret (false, buffer));
  mret (if failed : bool then Err EIO else Ok len, buffer).

(** [ata_write_sectors (..., buffer + off)] *)
Definition write_from (data : disk_device_data) (sectors lba : Z) (buffer : list Z) (off : Z) : M (state H) bool :=
  b ← lift (slice buffer off (zlen buffer - off));
  err ← ata_write_sectors (dd_channel data) (dd_drive data) sectors lba b;
  mret (truthy err).

Fixpoint write_chunks (fuel : nat) (data : disk_device_data) (e : extent) (i : Z) (buffer : list Z) :
    M (state H) bool :=
  let lba := mid_lba e + dd_lba data + i in
  let off := start_diff e + i * ATA_SECTOR_SIZE in
  if i + UCHAR_MAX <? sectors e then
    match fuel with
    | O => fault
    | S fuel =>
        failed ← write_from data UCHAR_MAX lba buffer off;
        if failed : bool then mret true else write_chunks fuel data e (i + UCHAR_MAX) buffer
    end
  else write_from data (sectors e - i) lba buffer off.

(** A sector is read, the bytes [d] are put in it at [off], and it is written. *)
Definition patch_sector (data : disk_device_data) (lba off : Z) (d : list Z) : M (state H) bool :=
  failed ← read_bounce data lba;
  if failed : bool then mret true else
  b ← gets ata_buffer;
  b ← lift (blit b off d);
  modify (fun s => set_buffer s b);;
  write_from data 1 lba b 0.

Definition ata_device_write (data : disk_device_data) (buffer : list Z) (len offset : Z) : M (state H) (res Z) :=
  if len =? 0 then mret (Ok 0) else
  let e := extent_of len offset in
  if dd_len data <=? u64 offset then mret (Err EINVAL) else
  let len := cut_len data len offset in
  if end_lba e <? mid_lba e then
    d ← lift (slice buffer 0 len);
    failed ← patch_sector data (start_lba e + dd_lba data) (ATA_SECTOR_SIZE - start_diff e) d;
    mret (if failed : bool then Err EIO else Ok len)
  else
  failed ← (if truthy (sectors e) then write_chunks (Z.to_nat (sectors e)) data e 0 buffer else mret false);
  if failed : bool then mret (Err EIO) else
  failed ← (if truthy (start_diff e) then
      d ← lift (slice buffer 0 (start_diff e));
      patch_sector data (start_lba e + dd_lba data) (ATA_SECTOR_SIZE - start_diff e) d
    else mret false);
  if failed : bool then mret (Err EIO) else
  failed ← (if truthy (end_diff e) then
      d ← lift (slice buffer (start_diff e + sectors e * ATA_SECTOR_SIZE) (end_diff e));
      patch_sector data (end_lba e + dd_lba data) 0 d
    else mret false);
  mret (if failed : bool then Err EIO else Ok len).
End driver.


(** ** Copies between a disk and a buffer *)

(** [b'] is [b] with the bytes [lo .. hi) replaced by those of [src], shifted. *)
Definition filled (src : list Z) (shift lo hi : Z) (b b' : list Z) : Prop :=
  zlen b' = zlen b /\
  forall i : nat, b' !! i = if decide (lo <= Z.of_nat i < hi) then src !! Z.to_nat (Z.of_nat i + shift) else b !! i.

Lemma filled_none src shift x b : filled src shift x x b b.
Proof. split; [done|]. intros i. rewrite decide_False by lia. done. Qed.

Lemma filled_eq src shift lo hi shift' lo' hi' b b' : filled src shift lo hi b b' ->
  shift' = shift -> lo' = lo -> hi' = hi -> filled src shift' lo' hi' b b'.
Proof. by intros Hf -> -> ->. Qed.

Lemma filled_right src shift lo mid hi b b1 b2 : lo <= mid <= hi ->
  filled src shift lo mid b b1 -> filled src shift mid hi b1 b2 -> filled src shift lo hi b b2.
Proof.
  intros Hm [H1 H2] [H3 H4]. split; [congruence|]. intros i. rewrite H4, H2.
  repeat case_decide; try lia; done.
Qed.

Lemma filled_left src shift lo mid hi b b1 b2 : lo <= mid <= hi ->
  filled src shift mid hi b b1 -> filled src shift lo mid b1 b2 -> filled src shift lo hi b b2.
Proof.
  intros Hm [H1 H2] [H3 H4]. split; [congruence|]. intros i. rewrite H4, H2.
  repeat case_decide; try lia; done.
Qed.

Lemma slice_lookup {A} (b : list A) off n d i : slice b off n = Some d ->
  0 <= off /\ 0 <= n /\ off + n <= zlen b /\ zlen d = n /\
  ((i < Z.to_nat n)%nat -> d !! i = b !! Z.to_nat (Z.of_nat i + off)).
Proof.
  intros Hs. pose proof (slice_len _ _ _ _ Hs) as Hl. revert Hs. unfold slice.
  destruct (Z.leb_spec 0 off), (Z.leb_spec 0 n), (Z.leb_spec (off + n) (zlen b)); try done.
  intros [= <-]. split_and!; auto. intros Hi. rewrite lookup_take_lt, lookup_drop by lia. f_equal. lia.
Qed.

Lemma slice_exists {A} (b : list A) off n : 0 <= off -> 0 <= n -> off + n <= zlen b ->
  exists d, slice b off n = Some d.
Proof.
  intros. unfold slice.
  destruct (Z.leb_spec 0 off), (Z.leb_spec 0 n), (Z.leb_spec (off + n) (zlen b)); try lia. eauto.
Qed.

Lemma slice_split {A} (b : list A) off n m d1 d2 :
  slice b off n = Some d1 -> slice b (off + n) m = Some d2 -> slice b off (n + m) = Some (d1 ++ d2).
Proof.
  intros H1 H2. destruct (slice_lookup _ _ _ _ 0 H1) as (? & ? & ? & L1 & _), (slice_lookup _ _ _ _ 0 H2) as (? & ? & ? & L2 & _).
  destruct (slice_exists b off (n + m)) as [d Hd]; [lia..|]. rewrite Hd. f_equal. apply list_eq. intros i.
  destruct (slice_lookup _ _ _ _ i Hd) as (_ & _ & _ & L & E).
  destruct (decide (i < Z.to_nat n)%nat).
  - rewrite lookup_app_l by (unfold zlen in *; lia).
    destruct (slice_lookup _ _ _ _ i H1) as (_ & _ & _ & _ & E1). rewrite E, E1 by lia. done.
  - rewrite lookup_app_r by (unfold zlen in *; lia).
    destruct (decide (i < Z.to_nat (n + m))%nat).
    + destruct (slice_lookup _ _ _ _ (i - length d1) H2) as (_ & _ & _ & _ & E2).
      rewrite E, E2 by (unfold zlen in *; lia). f_equal. unfold zlen in *. lia.
    + rewrite !lookup_ge_None_2; [done|unfold zlen in *; lia..].
Qed.

(** A part of [src] that is copied to a buffer. *)
Lemma blit_filled src a n d b off : slice src a n = Some d -> 0 <= off -> off + n <= zlen b ->
  exists b', blit b off d = Some b' /\ filled src (a - off) off (off + n) b b'.
Proof.
  intros Hs Ho Hn. pose proof (slice_len _ _ _ _ Hs) as Hl.
  destruct (blit_some b off d Ho ltac:(lia)) as [b' Hb]. exists b'. split; [done|].
  split; [by apply blit_len in Hb|]. intros i. rewrite (blit_lookup _ _ _ _ i Hb), Hl.
  case_decide as Hi; [|done].
  destruct (slice_lookup _ _ _ _ (i - Z.to_nat off) Hs) as (? & ? & ? & ? & Hd). rewrite Hd by lia. f_equal. lia.
Qed.

(** The bytes of a range that was filled. *)
Lemma filled_slice src shift lo hi b b' : filled src shift lo hi b b' -> 0 <= lo <= hi -> hi <= zlen b ->
  0 <= lo + shift -> hi + shift <= zlen src -> slice b' lo (hi - lo) = slice src (lo + shift) (hi - lo).
Proof.
  intros [Hl Hb] H1 H2 H3 H4.
  destruct (slice_exists b' lo (hi - lo)) as [d Hd]; [lia..|].
  destruct (slice_exists src (lo + shift) (hi - lo)) as [d' Hd']; [lia..|].
  rewrite Hd, Hd'. f_equal. apply list_eq. intros i.
  destruct (slice_lookup _ _ _ _ i Hd) as (_ & _ & _ & L1 & E1), (slice_lookup _ _ _ _ i Hd') as (_ & _ & _ & L2 & E2).
  destruct (decide (i < Z.to_nat (hi - lo))%nat).
  - rewrite E1, E2, Hb by done. rewrite decide_True by lia. f_equal. lia.
  - rewrite !lookup_ge_None_2; [done|unfold zlen in *; lia..].
Qed.

(** ** Drives

    What the operations on byte ranges use of a drive: [on_disk] says which bytes
    it holds, and whole sectors of them can be read, and written where the drive
    is a [WritableDisk]. Drives in programmed mode are instances (below). *)
Section ranges.
Context {H : Type} (io : port_io H) (prdt_phys : Z -> Z) (patience : nat).

Class Disk (ch drv : Z) := {
  on_disk : state H -> list Z -> Prop;
  on_disk_buffer s D b : on_disk s D -> on_disk (set_buffer s b) D;
  on_disk_read s D lba n d : on_disk s D -> 0 < n <= UCHAR_MAX -> slice D (lba * 512) (n * 512) = Some d ->
    exists s', ata_read_sectors io prdt_phys patience ch drv n lba s = Some ((0, d), s') /\
      on_disk s' D /\ ata_buffer s' = ata_buffer s
}.

Class WritableDisk (ch drv : Z) `{!Disk ch drv} := {
  on_disk_write s D lba n buf d D' : on_disk s D -> 0 < n <= UCHAR_MAX ->
    slice buf 0 (n * 512) = Some d -> blit D (lba * 512) d = Some D' ->
    exists s', ata_write_sectors io prdt_phys patience ch drv n lba buf s = Some (0, s') /\
      on_disk s' D' /\ ata_buffer s' = ata_buffer s
}.

Context (data : disk_device_data) `{HR : !Disk (dd_channel data) (dd_drive data)}.
Context `{HW : !WritableDisk (dd_channel data) (dd_drive data)}.
Local Abbreviation read_to := (read_to io prdt_phys patience).
Local Abbreviation read_bounce := (read_bounce io prdt_phys patience).
Local Abbreviation read_part := (read_part io prdt_phys patience).
Local Abbreviation read_chunks := (read_chunks io prdt_phys patience).
Local Abbreviation write_from := (write_from io prdt_phys patience).
Local Abbreviation write_chunks := (write_chunks io prdt_phys patience).
Local Abbreviation patch_sector := (patch_sector io prdt_phys patience).
Local Abbreviation ata_device_read := (ata_device_read io prdt_phys patience).
Local Abbreviation ata_device_write := (ata_device_write io prdt_phys patience).

(** A drive that holds [D], with its sector buffer in place. *)
Definition drive_holds (s : state H) (D : list Z) : Prop := on_disk s D /\ zlen (ata_buffer s) = 2048.

Lemma read_to_ok s D n lba buf off :
  drive_holds s D -> 0 < n <= UCHAR_MAX -> 0 <= lba -> (lba + n) * 512 <= zlen D ->
  0 <= off -> off + n * 512 <= zlen buf ->
  exists s' buf', read_to data n lba buf off s = Some ((false, buf'), s') /\ drive_holds s' D /\
    filled D (lba * 512 - off) off (off + n * 512) buf buf' /\ ata_buffer s' = ata_buffer s.
Proof.
  intros [Hd Hb] Hn Hl HD Ho Hbuf.
  destruct (slice_exists D (lba * 512) (n * 512)) as [d Hs]; [lia..|].
  destruct (on_disk_read s D lba n d Hd Hn Hs) as (s' & Hr & Hd' & Hb').
  destruct (blit_filled _ _ _ _ buf off Hs Ho Hbuf) as (buf' & Hbl & Hf).
  exists s', buf'. split_and!; auto; [|by split; [|congruence] ].
  unfold Ata.read_to. rewrite (bind_run _ _ _ _ _ Hr). cbn [fst snd].
  unfold lift, mbind, M_bind. by rewrite Hbl.
Qed.

Lemma read_bounce_ok s D lba :
  drive_holds s D -> 0 <= lba -> (lba + 1) * 512 <= zlen D ->
  exists s', read_bounce data lba s = Some (false, s') /\ drive_holds s' D /\
    filled D (lba * 512) 0 512 (ata_buffer s) (ata_buffer s').
Proof.
  intros Hd Hl HD.
  destruct (read_to_ok s D 1 lba (ata_buffer s) 0) as (s' & b & Hr & [Hd' Hb'] & Hf & Hb); auto; [lia..| |].
  { destruct Hd. lia. }
  exists (set_buffer s' b). unfold Ata.read_bounce. rewrite gets_run, (bind_run _ _ _ _ _ Hr), modify_run.
  cbn [fst snd ata_buffer set_buffer]. split; [done|]. split.
  - split; [by apply on_disk_buffer|]. cbn. destruct Hf as [-> _]. apply Hd.
  - replace (lba * 512) with (lba * 512 - 0) by lia. exact Hf.
Qed.

(** The position of a byte of the range on the drive. *)
Definition disk_pos (offset : Z) : Z := dd_lba data * 512 + offset.

(** The extent of a range, when nothing wraps. *)
Lemma extent_eq len offset : 0 <= offset -> 0 < len -> offset + len < 2 ^ 63 ->
  exists e, extent_of len offset = e /\
    start_lba e = offset / 512 /\ mid_lba e = (offset + 511) / 512 /\ end_lba e = (offset + len) / 512 /\
    start_diff e = mid_lba e * 512 - offset /\ end_diff e = offset + len - end_lba e * 512 /\
    (mid_lba e <= end_lba e -> sectors e = end_lba e - mid_lba e).
Proof.
  intros Ho Hl Hw. eexists. split; [done|]. unfold extent_of. cbn [start_lba mid_lba end_lba start_diff end_diff sectors].
  rewrite Z.quot_div_nonneg, Z.rem_mod_nonneg, (wrap_small 64 (offset + len)) by lia.
  assert (offset / 512 + (if offset mod 512 =? 0 then 0 else 1) = (offset + 511) / 512) as ->
    by (destruct (Z.eqb_spec (offset mod 512) 0); divlia).
  rewrite (wrap_small 64 (_ - offset)), (wrap_small 64 (offset + len - _)) by divlia.
  split_and!; auto. intros Hle. rewrite wrap_small; [done|]. divlia.
Qed.

Lemma read_chunks_ok e D offset : 0 <= dd_lba data -> 0 <= mid_lba e -> 0 <= start_diff e ->
  start_diff e = mid_lba e * 512 - offset -> disk_pos offset + start_diff e + sectors e * 512 <= zlen D ->
  forall fuel i s buf, sectors e - i <= Z.of_nat fuel -> 0 <= i < sectors e -> drive_holds s D ->
  start_diff e + sectors e * 512 <= zlen buf ->
  exists s' buf', read_chunks fuel data e i buf s = Some ((false, buf'), s') /\ drive_holds s' D /\
    filled D (disk_pos offset) (start_diff e + i * 512) (start_diff e + sectors e * 512) buf buf'.
Proof.
  intros Hp Hm Hsd Hsd' HD. unfold disk_pos in *.
  induction fuel as [|fuel IH]; intros i s buf Hf Hi Hd Hb; [lia|].
  cbn [Ata.read_chunks]. destruct (Z.ltb_spec (i + UCHAR_MAX) (sectors e)).
  - destruct (read_to_ok s D UCHAR_MAX (mid_lba e + dd_lba data + i) buf (start_diff e + i * 512))
      as (s1 & b1 & Hr & Hd1 & Hf1 & _); auto; [lia..|].
    rewrite (bind_run _ _ _ _ _ Hr).
    destruct (IH (i + UCHAR_MAX) s1 b1) as (s2 & b2 & Hr2 & Hd2 & Hf2); auto; [lia..| |].
    { destruct Hf1 as [-> _]. lia. }
    exists s2, b2. split_and!; auto.
    eapply (filled_right _ _ _ (start_diff e + (i + UCHAR_MAX) * 512)); [lia| |exact Hf2].
    replace (start_diff e + (i + UCHAR_MAX) * 512) with (start_diff e + i * 512 + UCHAR_MAX * 512) by lia.
    replace (dd_lba data * 512 + offset) with ((mid_lba e + dd_lba data + i) * 512 - (start_diff e + i * 512)) by lia.
    exact Hf1.
  - destruct (read_to_ok s D (sectors e - i) (mid_lba e + dd_lba data + i) buf (start_diff e + i * 512))
      as (s1 & b1 & Hr & Hd1 & Hf1 & _); auto; [lia..|].
    exists s1, b1. split_and!; auto.
    replace (start_diff e + sectors e * 512) with (start_diff e + i * 512 + (sectors e - i) * 512) by lia.
    replace (dd_lba data * 512 + offset) with ((mid_lba e + dd_lba data + i) * 512 - (start_diff e + i * 512)) by lia.
    exact Hf1.
Qed.

(** A part of one sector is read through the sector buffer. *)
Lemma read_part_ok s D lba from n off buf :
  drive_holds s D -> 0 <= lba -> (lba + 1) * 512 <= zlen D -> 0 <= from -> 0 <= n -> from + n <= 512 ->
  0 <= off -> off + n <= zlen buf ->
  exists s' buf', read_part data lba from n buf off s = Some ((false, buf'), s') /\ drive_holds s' D /\
    filled D (lba * 512 + from - off) off (off + n) buf buf'.
Proof.
  intros Hd Hl HD Hf Hn Hfn Ho Hb. destruct (read_bounce_ok s D lba Hd Hl HD) as (s' & Hr & Hd' & Hfill).
  pose proof Hd' as [_ Hlen].
  destruct (slice_exists (ata_buffer s') from n) as [d Hs]; [lia..|].
  destruct (blit_filled _ _ _ _ buf off Hs Ho Hb) as (buf' & Hbl & Hf').
  exists s', buf'. split_and!; auto.
  { unfold Ata.read_part. rewrite (bind_run _ _ _ _ _ Hr), gets_run. unfold lift, mbind, M_bind. by rewrite Hs, Hbl. }
  destruct Hf' as [Hl' Hf']. split; [done|]. intros i. rewrite Hf'.
  case_decide; [|done]. destruct Hfill as [_ Hfill]. rewrite Hfill, decide_True by lia. f_equal. lia.
Qed.

(** The parts of a range, each skipped when it is empty. *)
Lemma middle_ok s D e offset buf : 0 <= dd_lba data -> 0 <= mid_lba e -> 0 <= start_diff e -> 0 <= sectors e ->
  start_diff e = mid_lba e * 512 - offset -> disk_pos offset + start_diff e + sectors e * 512 <= zlen D ->
  drive_holds s D -> start_diff e + sectors e * 512 <= zlen buf ->
  exists s' buf',
    (if truthy (sectors e) then read_chunks (Z.to_nat (sectors e)) data e 0 buf else mret (false, buf)) s
      = Some ((false, buf'), s') /\ drive_holds s' D /\
    filled D (disk_pos offset) (start_diff e) (start_diff e + sectors e * 512) buf buf'.
Proof.
  intros Hp Hm Hsd Hs Hsd' HD Hd Hb. unfold truthy. destruct (Z.eqb_spec (sectors e) 0) as [->|]; cbn [negb].
  - exists s, buf. split_and!; auto. rewrite Z.mul_0_l, Z.add_0_r. apply filled_none.
  - destruct (read_chunks_ok e D offset Hp Hm Hsd Hsd' HD (Z.to_nat (sectors e)) 0 s buf) as (s' & b & ? & ? & Hf); auto; [lia..|].
    exists s', b. rewrite Z.mul_0_l, Z.add_0_r in Hf. auto.
Qed.

Lemma edge_ok s D shift lba from n off buf : drive_holds s D -> 0 <= off -> 0 <= n -> off + n <= zlen buf ->
  (0 < n -> 0 <= lba /\ (lba + 1) * 512 <= zlen D /\ 0 <= from /\ from + n <= 512 /\ shift = lba * 512 + from - off) ->
  exists s' buf', (if truthy n then read_part data lba from n buf off else mret (false, buf)) s
      = Some ((false, buf'), s') /\ drive_holds s' D /\
    filled D shift off (off + n) buf buf'.
Proof.
  intros Hd Ho Hn Hb Hin. unfold truthy. destruct (Z.eqb_spec n 0) as [->|]; cbn [negb].
  - exists s, buf. split_and!; auto. rewrite Z.add_0_r. apply filled_none.
  - destruct Hin as (? & ? & ? & ? & ->); [lia|]. by apply read_part_ok.
Qed.

Lemma device_read_ok s D buf len offset :
  drive_holds s D -> 0 <= dd_lba data -> 0 <= offset -> 0 < len -> offset + len <= dd_len data -> dd_len data < 2 ^ 63 ->
  (dd_lba data * 512 + offset + len + 511) / 512 * 512 <= zlen D -> len <= zlen buf ->
  exists s' buf', ata_device_read data buf len offset s = Some ((Ok len, buf'), s') /\ drive_holds s' D /\
    filled D (disk_pos offset) 0 len buf buf'.
Proof.
  intros Hd Hp Ho Hl Hr Hw HD Hb. unfold Ata.ata_device_read. destruct (Z.eqb_spec len 0); [lia|].
  destruct (extent_eq len offset) as (e & -> & Es & Em & Ee & Esd & Eed & Esec); [lia..|].
  rewrite (wrap_small 64 offset) by lia. destruct (Z.leb_spec (dd_len data) offset); [lia|].
  unfold cut_len. rewrite (wrap_small 64 (offset + len)) by lia. destruct (Z.ltb_spec (dd_len data) (offset + len)); [lia|].
  destruct (Z.ltb_spec (end_lba e) (mid_lba e)) as [Hin|Hout].
  - destruct (read_part_ok s D (start_lba e + dd_lba data) (512 - start_diff e) len 0 buf)
      as (s' & buf' & Hrb & Hd' & Hf); auto; [divlia..|].
    exists s', buf'. rewrite (bind_run _ _ _ _ _ Hrb). split_and!; auto. unfold disk_pos.
    replace (dd_lba data * 512 + offset) with ((start_lba e + dd_lba data) * 512 + (512 - start_diff e) - 0) by divlia.
    exact Hf.
  - specialize (Esec Hout). assert (0 <= start_diff e /\ 0 <= end_diff e /\ 0 <= sectors e) by divlia.
    destruct (middle_ok s D e offset buf) as (s1 & b1 & Hr1 & Hd1 & Hf1); auto; [unfold disk_pos; divlia..|].
    rewrite (bind_run _ _ _ _ _ Hr1). pose proof (proj1 Hf1) as Hl1.
    destruct (edge_ok s1 D (disk_pos offset) (start_lba e + dd_lba data) (512 - start_diff e) (start_diff e) 0 b1)
      as (s2 & b2 & Hr2 & Hd2 & Hf2); auto; [unfold disk_pos; divlia..|].
    rewrite (bind_run _ _ _ _ _ Hr2). pose proof (proj1 Hf2) as Hl2.
    destruct (edge_ok s2 D (disk_pos offset) (end_lba e + dd_lba data) 0 (end_diff e) (start_diff e + sectors e * 512) b2)
      as (s3 & b3 & Hr3 & Hd3 & Hf3); auto; [unfold disk_pos; divlia..|].
    exists s3, b3. rewrite (bind_run _ _ _ _ _ Hr3). split_and!; auto.
    replace (start_diff e + sectors e * 512 + end_diff e) with len in Hf3 by lia.
    eapply (filled_right _ _ _ (start_diff e + sectors e * 512)); [lia| |exact Hf3].
    eapply (filled_left _ _ _ (start_diff e)); [lia|exact Hf1|exact Hf2].
Qed.
Lemma write_from_ok s D n lba buf off :
  drive_holds s D -> 0 < n <= UCHAR_MAX -> 0 <= lba -> (lba + n) * 512 <= zlen D ->
  0 <= off -> off + n * 512 <= zlen buf ->
  exists s' D', write_from data n lba buf off s = Some (false, s') /\ drive_holds s' D' /\
    filled buf (off - lba * 512) (lba * 512) (lba * 512 + n * 512) D D' /\ ata_buffer s' = ata_buffer s.
Proof.
  intros [Hd Hb] Hn Hl HD Ho Hbuf.
  destruct (slice_exists buf off (zlen buf - off)) as [b Hs]; [lia..|].
  pose proof (slice_len _ _ _ _ Hs) as Hlen.
  destruct (slice_exists b 0 (n * 512)) as [d Hs']; [lia..|].
  destruct (blit_filled _ _ _ _ D (lba * 512) Hs') as (D' & HD' & [Hf1 Hf2]); [lia..|].
  destruct (on_disk_write s D lba n b d D' Hd Hn Hs' HD') as (s' & Hr & Hd' & Hb').
  exists s', D'. split_and!; auto; [|by split; [|congruence]|split; [done|] ].
  - unfold Ata.write_from, lift. rewrite Hs. unfold mbind, M_bind. by rewrite Hr.
  - intros i. rewrite Hf2. case_decide; [|done].
    destruct (slice_lookup _ _ _ _ (Z.to_nat (Z.of_nat i + (0 - lba * 512))) Hs) as (_ & _ & _ & _ & E).
    rewrite E by lia. f_equal. lia.
Qed.

Lemma write_chunks_ok e buf offset : 0 <= dd_lba data -> 0 <= mid_lba e -> 0 <= start_diff e ->
  start_diff e = mid_lba e * 512 - offset -> start_diff e + sectors e * 512 <= zlen buf ->
  let at_ := disk_pos offset in
  forall fuel i s D, sectors e - i <= Z.of_nat fuel -> 0 <= i < sectors e -> drive_holds s D ->
  at_ + start_diff e + sectors e * 512 <= zlen D ->
  exists s' D', write_chunks fuel data e i buf s = Some (false, s') /\ drive_holds s' D' /\
    filled buf (- at_) (at_ + (start_diff e + i * 512)) (at_ + (start_diff e + sectors e * 512)) D D'.
Proof.
  intros Hp Hm Hsd Hsd' Hb at_. unfold at_, disk_pos in *.
  induction fuel as [|fuel IH]; intros i s D Hf Hi Hd HD; [lia|].
  cbn [Ata.write_chunks]. destruct (Z.ltb_spec (i + UCHAR_MAX) (sectors e)).
  - destruct (write_from_ok s D UCHAR_MAX (mid_lba e + dd_lba data + i) buf (start_diff e + i * 512))
      as (s1 & D1 & Hr & Hd1 & Hf1 & _); auto; [lia..|].
    rewrite (bind_run _ _ _ _ _ Hr).
    destruct (IH (i + UCHAR_MAX) s1 D1) as (s2 & D2 & Hr2 & Hd2 & Hf2); auto; [lia..| |].
    { destruct Hf1 as [-> _]. lia. }
    exists s2, D2. split_and!; auto.
    eapply (filled_right _ _ _ (dd_lba data * 512 + offset + (start_diff e + (i + UCHAR_MAX) * 512))); [lia| |exact Hf2].
    eapply filled_eq; [exact Hf1|lia..].
  - destruct (write_from_ok s D (sectors e - i) (mid_lba e + dd_lba data + i) buf (start_diff e + i * 512))
      as (s1 & D1 & Hr & Hd1 & Hf1 & _); auto; [lia..|].
    exists s1, D1. split_and!; auto. eapply filled_eq; [exact Hf1|lia..].
Qed.

(** A sector is patched: the bytes around the new ones stay. *)
Lemma patch_sector_ok s D lba off src a n d :
  drive_holds s D -> 0 <= lba -> (lba + 1) * 512 <= zlen D -> slice src a n = Some d ->
  0 <= off -> off + n <= 512 ->
  exists s' D', patch_sector data lba off d s = Some (false, s') /\ drive_holds s' D' /\
    filled src (a - (lba * 512 + off)) (lba * 512 + off) (lba * 512 + off + n) D D'.
Proof.
  intros Hd Hl HD Hs Ho Hn. destruct (read_bounce_ok s D lba Hd Hl HD) as (s1 & Hr & Hd1 & Hfill).
  pose proof (slice_lookup _ _ _ _ 0 Hs) as (Ha & Hn0 & _).
  destruct (blit_filled _ _ _ _ (ata_buffer s1) off Hs Ho) as (b & Hb & Hf). { destruct Hd1. lia. }
  assert (drive_holds (set_buffer s1 b) D) as Hd2.
  { destruct Hd1, Hf as [Hl' _]. split; [by apply on_disk_buffer|]. cbn. lia. }
  destruct (write_from_ok (set_buffer s1 b) D 1 lba b 0) as (s' & D' & Hw & Hd' & Hf' & _); auto; [lia..| |].
  { destruct Hd2. cbn in *. lia. }
  exists s', D'. split_and!; auto.
  - unfold Ata.patch_sector. rewrite (bind_run _ _ _ _ _ Hr), gets_run. unfold lift. unfold mbind at 1, M_bind at 1.
    rewrite Hb. by rewrite modify_run.
  - destruct Hf' as [Hl' Hf'], Hf as [_ Hf], Hfill as [_ Hfill]. split; [done|]. intros i. rewrite Hf'.
    destruct (decide (lba * 512 <= Z.of_nat i < lba * 512 + 1 * 512)); [|case_decide; [lia|done]].
    rewrite Hf. repeat case_decide; try lia; [f_equal; lia|]. rewrite Hfill, decide_True by lia. f_equal. lia.
Qed.

Lemma write_middle_ok s D e offset buf : 0 <= dd_lba data -> 0 <= mid_lba e -> 0 <= start_diff e -> 0 <= sectors e ->
  start_diff e = mid_lba e * 512 - offset -> disk_pos offset + start_diff e + sectors e * 512 <= zlen D ->
  drive_holds s D -> start_diff e + sectors e * 512 <= zlen buf ->
  exists s' D',
    (if truthy (sectors e) then write_chunks (Z.to_nat (sectors e)) data e 0 buf else mret false) s
      = Some (false, s') /\ drive_holds s' D' /\
    filled buf (- disk_pos offset) (disk_pos offset + start_diff e) (disk_pos offset + start_diff e + sectors e * 512) D D'.
Proof.
  intros Hp Hm Hsd Hs Hsd' HD Hd Hb. unfold truthy. destruct (Z.eqb_spec (sectors e) 0) as [->|]; cbn [negb].
  - exists s, D. split_and!; auto. rewrite Z.mul_0_l, Z.add_0_r. apply filled_none.
  - destruct (write_chunks_ok e buf offset Hp Hm Hsd Hsd' Hb (Z.to_nat (sectors e)) 0 s D) as (s' & D' & ? & ? & Hf); auto; [lia..|].
    exists s', D'. split_and!; auto. eapply filled_eq; [exact Hf|lia..].
Qed.

Lemma write_edge_ok s D at_ lba off a n buf : drive_holds s D -> 0 <= a -> 0 <= n -> a + n <= zlen buf ->
  (0 < n -> 0 <= lba /\ (lba + 1) * 512 <= zlen D /\ 0 <= off /\ off + n <= 512 /\ lba * 512 + off = at_ + a) ->
  exists s' D', (if truthy n then d ← lift (slice buf a n); patch_sector data lba off d else mret false) s
      = Some (false, s') /\ drive_holds s' D' /\
    filled buf (- at_) (at_ + a) (at_ + a + n) D D'.
Proof.
  intros Hd Ho Hn Hb Hin. unfold truthy. destruct (Z.eqb_spec n 0) as [->|]; cbn [negb].
  - exists s, D. split_and!; auto. rewrite Z.add_0_r. apply filled_none.
  - destruct Hin as (? & ? & ? & ? & Heq); [lia|]. destruct (slice_exists buf a n) as [d Hs]; [lia..|].
    destruct (patch_sector_ok s D lba off buf a n d) as (s' & D' & Hr & ? & Hf); auto.
    exists s', D'. unfold lift, mbind, M_bind. rewrite Hs. split_and!; auto. eapply filled_eq; [exact Hf|lia..].
Qed.

Lemma device_write_ok s D buf len offset :
  drive_holds s D -> 0 <= dd_lba data -> 0 <= offset -> 0 < len -> offset + len <= dd_len data -> dd_len data < 2 ^ 63 ->
  (dd_lba data * 512 + offset + len + 511) / 512 * 512 <= zlen D -> len <= zlen buf ->
  exists s' D', ata_device_write data buf len offset s = Some (Ok len, s') /\ drive_holds s' D' /\
    filled buf (- disk_pos offset) (disk_pos offset) (disk_pos offset + len) D D'.
Proof.
  intros Hd Hp Ho Hl Hr Hw HD Hb. unfold Ata.ata_device_write. destruct (Z.eqb_spec len 0); [lia|].
  destruct (extent_eq len offset) as (e & -> & Es & Em & Ee & Esd & Eed & Esec); [lia..|].
  rewrite (wrap_small 64 offset) by lia. destruct (Z.leb_spec (dd_len data) offset); [lia|].
  unfold cut_len. rewrite (wrap_small 64 (offset + len)) by lia. destruct (Z.ltb_spec (dd_len data) (offset + len)); [lia|].
  destruct (Z.ltb_spec (end_lba e) (mid_lba e)) as [Hin|Hout].
  - destruct (slice_exists buf 0 len) as [d Hs]; [lia..|].
    destruct (patch_sector_ok s D (start_lba e + dd_lba data) (512 - start_diff e) buf 0 len d)
      as (s' & D' & Hrb & Hd' & Hf); auto; [divlia..|].
    exists s', D'. unfold lift at 1. unfold mbind at 1, M_bind at 1. rewrite Hs, (bind_run _ _ _ _ _ Hrb).
    split_and!; auto. eapply filled_eq; [exact Hf|unfold disk_pos; divlia..].
  - specialize (Esec Hout). assert (0 <= start_diff e /\ 0 <= end_diff e /\ 0 <= sectors e) by divlia.
    destruct (write_middle_ok s D e offset buf) as (s1 & D1 & Hr1 & Hd1 & Hf1); auto; [unfold disk_pos; divlia..|].
    rewrite (bind_run _ _ _ _ _ Hr1). pose proof (proj1 Hf1) as Hl1.
    destruct (write_edge_ok s1 D1 (disk_pos offset) (start_lba e + dd_lba data) (512 - start_diff e) 0 (start_diff e) buf)
      as (s2 & D2 & Hr2 & Hd2 & Hf2); auto; [unfold disk_pos; divlia..|].
    rewrite (bind_run _ _ _ _ _ Hr2). pose proof (proj1 Hf2) as Hl2.
    destruct (write_edge_ok s2 D2 (disk_pos offset) (end_lba e + dd_lba data) 0 (start_diff e + sectors e * 512) (end_diff e) buf)
      as (s3 & D3 & Hr3 & Hd3 & Hf3); auto; [unfold disk_pos; divlia..|].
    exists s3, D3. rewrite (bind_run _ _ _ _ _ Hr3). split_and!; auto.
    eapply (filled_right _ _ _ (disk_pos offset + (start_diff e + sectors e * 512))); [lia| |eapply filled_eq; [exact Hf3|lia..]].
    eapply (filled_left _ _ _ (disk_pos offset + start_diff e)); [lia|eapply filled_eq; [exact Hf1|lia..]|eapply filled_eq; [exact Hf2|lia..]].
Qed.
End ranges.


(** ** The sector named by the task file

    The decoding of the registers by a drive: bit 4 of the device register is the
    drive, bit 6 selects logical addresses; otherwise the registers hold sector,
    cylinder and head of a geometry with 16 heads and 63 sectors. *)
Definition tf_drive (tf : Z -> Z) : Z := if Z.testbit (tf ATA_REG_DEVICE_SELECT) 4 then 1 else 0.

Definition tf_lba (tf : Z -> Z) : Z :=
  let h := tf ATA_REG_DEVICE_SELECT mod 16 in
  if Z.testbit (tf ATA_REG_DEVICE_SELECT) 6
  then tf ATA_REG_LBA0 + 256 * tf ATA_REG_LBA1 + 65536 * tf ATA_REG_LBA2 + 16777216 * h
  else ((tf ATA_REG_LBA1 + 256 * tf ATA_REG_LBA2) * 16 + h) * 63 + tf ATA_REG_LBA0 - 1.

Definition tf_set (tf : Z -> Z) (reg v : Z) : Z -> Z := fun x => if x =? reg then v else tf x.

(** The addresses a drive can take: 28 bits, or the cylinders of the geometry. *)
Definition addressable (capabilities lba : Z) : Prop :=
  0 <= lba < (if truthy (Z.land capabilities (Z.shiftl 1 9)) then 2 ^ 28 else 65536 * 1008).

(** The task file after [send_address]. *)
Definition sent_tf (tf : Z -> Z) (drv sectors : Z) (a : address) : Z -> Z :=
  let dev := match lba_mode a with
             | ATA_ADDR_CHS => Z.lor (Z.lor 0xa0 (Z.shiftl drv 4)) (head a)
             | _ => Z.lor (Z.lor 0xe0 (Z.shiftl drv 4)) (head a)
             end in
  let io i := default 0 ((lba_io a).[i]) in
  tf_set (tf_set (tf_set (tf_set (tf_set tf ATA_REG_DEVICE_SELECT dev) ATA_REG_SECTOR_COUNT0 sectors)
    ATA_REG_LBA0 (io 0)) ATA_REG_LBA1 (io 1)) ATA_REG_LBA2 (io 2).

Lemma byte_of x k : 0 <= k -> Z.land (Z.shiftr x k) 0xff = x / 2 ^ k mod 256.
Proof. intros. rewrite (Z.land_ones _ 8), Z.shiftr_div_pow2 by lia. done. Qed.

Lemma address_fields capabilities lba : addressable capabilities lba ->
  let a := sector_address capabilities lba in
  lba_mode a <> ATA_ADDR_LBA48 /\ 0 <= head a < 16 /\
  exists l0 l1 l2, lba_io a = [l0; l1; l2; 0; 0; 0] /\ 0 <= l0 < 256 /\ 0 <= l1 < 256 /\ 0 <= l2 < 256 /\
    lba = match lba_mode a with
          | ATA_ADDR_CHS => ((l1 + 256 * l2) * 16 + head a) * 63 + l0 - 1
          | _ => l0 + 256 * l1 + 65536 * l2 + 16777216 * head a
          end.
Proof.
  unfold addressable, sector_address. intros Hl.
  destruct (Z.leb_spec 0x10000000 lba) as [|_]; [destruct (truthy _) in Hl; lia|].
  destruct (truthy _); cbn [lba_mode lba_io head].
  - rewrite !byte_of by lia. change 15 with (Z.ones 4). change 255 with (Z.ones 8).
    rewrite !Z.land_ones, Z.shiftr_div_pow2 by lia.
    split; [done|]. split; [divlia|]. do 3 eexists. split; [done|]. split_and!; divlia.
  - rewrite byte_of by lia. rewrite (wrap_small 8 (lba mod 63 + 1)) by divlia.
    rewrite (wrap_small 32) by divlia. rewrite (wrap_small 16), (wrap_small 8) by divlia.
    change 255 with (Z.ones 8). rewrite Z.land_ones by lia.
    split; [done|]. split; [divlia|]. do 3 eexists. split; [done|]. split_and!; divlia.
Qed.

Lemma device_register drv h c : (c = 0xa0 \/ c = 0xe0) -> drv = 0 \/ drv = 1 -> 0 <= h < 16 ->
  let v := Z.lor (Z.lor c (Z.shiftl drv 4)) h in
  v mod 16 = h /\ Z.testbit v 4 = (drv =? 1) /\ Z.testbit v 6 = (c =? 0xe0) /\ 0 <= v < 256.
Proof.
  intros Hc Hd Hh. assert (h ∈ seqZ 0 16) as Hin by (apply elem_of_seqZ; lia).
  let l := eval vm_compute in (seqZ 0 16) in change (seqZ 0 16) with l in Hin.
  repeat (apply elem_of_cons in Hin as [->|Hin]; [destruct Hc as [-> | ->], Hd as [-> | ->]; split_and!; vm_compute; first [reflexivity | discriminate]|]).
  by apply not_elem_of_nil in Hin.
Qed.

(** The registers that [send_address] leaves name the drive, the sector and the
    number of sectors. *)
Lemma sent_tf_names tf drv sectors capabilities lba : drv = 0 \/ drv = 1 -> addressable capabilities lba ->
  let tf' := sent_tf tf drv sectors (sector_address capabilities lba) in
  tf_drive tf' = drv /\ tf_lba tf' = lba /\ tf' ATA_REG_SECTOR_COUNT0 = sectors.
Proof.
  intros Hd Hl tf'.
  destruct (address_fields capabilities lba Hl) as (Hm & Hh & l0 & l1 & l2 & Hio & _ & _ & _ & Heq).
  unfold tf', sent_tf, tf_drive, tf_lba, tf_set. rewrite Hio.
  set (h := head _) in *. destruct (lba_mode _); [|..|done].
  1: pose proof (device_register drv h 0xa0 (or_introl eq_refl) Hd Hh) as Hv.
  2: pose proof (device_register drv h 0xe0 (or_intror eq_refl) Hd Hh) as Hv.
  all: cbv zeta in Hv; match type of Hv with context [Z.testbit ?e 4] => generalize dependent e end; intros v (Hh' & H4 & H6 & _).
  all: cbn -[Z.testbit Z.modulo Z.mul Z.add]; rewrite H4, H6, Hh'.
  all: split_and!; [destruct Hd as [-> | ->]; done|symmetry; exact Heq|done].
Qed.


(** ** Programmed transfers

    What the ATA standard promises of a channel whose registers are at [base] and
    [control]: [idle] is a channel that can take a command, [data_in] and
    [data_out] one that transfers sectors of a drive from an address on. Each has
    the number of times the status reads busy, at most [patience]; the contents
    of the two drives are a function. After the last sector of a write the channel
    may be busy as well; what a command does that is sent while it is busy is not
    determined, so there is no law for it. *)
Section pio.
Context {H : Type} (io : port_io H) (prdt_phys : Z -> Z) (patience : nat).

Definition fits (D : list Z) (lba n : Z) : Prop := 0 <= lba /\ 0 < n /\ (lba + n) * 512 <= zlen D.
Definition with_disk (ds : Z -> list Z) (drv : Z) (D : list Z) : Z -> list Z := fun x => if x =? drv then D else ds x.
Definition ready (b : Z) : Prop := Z.land b ATA_SR_BSY = 0 /\ Z.land b ATA_SR_ERR = 0 /\ Z.land b ATA_SR_DF = 0 /\ Z.land b ATA_SR_DRQ <> 0.

Class Controller (bs ctl : Z) := {
  idle : H -> (Z -> Z) -> (Z -> list Z) -> nat -> Prop;
  data_in : H -> (Z -> list Z) -> Z -> Z -> nat -> nat -> Prop;
  data_out : H -> (Z -> list Z) -> Z -> Z -> nat -> nat -> Prop;
  idle_control h tf ds k v : idle h tf ds k -> exists h', outb io v ctl h = Some (tt, h') /\ idle h' tf ds k;
  idle_alt_status h tf ds k : idle h tf ds k -> exists b h', inb io ctl h = Some (b, h') /\ idle h' tf ds k;
  idle_busy h tf ds k : idle h tf ds (S k) -> exists b h', inb io (u16 (bs + 7)) h = Some (b, h') /\
    Z.land b ATA_SR_BSY <> 0 /\ idle h' tf ds k;
  idle_status h tf ds : idle h tf ds 0 -> exists b h', inb io (u16 (bs + 7)) h = Some (b, h') /\
    Z.land b ATA_SR_BSY = 0 /\ idle h' tf ds 0;
  idle_register h tf ds reg v : idle h tf ds 0 -> 2 <= reg <= 6 -> 0 <= v < 256 ->
    exists h', outb io v (u16 (bs + reg)) h = Some (tt, h') /\ idle h' (tf_set tf reg v) ds 0;
  idle_read h tf ds drv lba n : idle h tf ds 0 -> tf_drive tf = drv -> tf_lba tf = lba ->
    tf ATA_REG_SECTOR_COUNT0 = n -> fits (ds drv) lba n ->
    exists h' k, outb io ATA_CMD_READ_PIO (u16 (bs + 7)) h = Some (tt, h') /\ (k <= patience)%nat /\
      data_in h' ds drv lba (Z.to_nat n) k;
  idle_write h tf ds drv lba n : idle h tf ds 0 -> tf_drive tf = drv -> tf_lba tf = lba ->
    tf ATA_REG_SECTOR_COUNT0 = n -> fits (ds drv) lba n ->
    exists h' k, outb io ATA_CMD_WRITE_PIO (u16 (bs + 7)) h = Some (tt, h') /\ (k <= patience)%nat /\
      data_out h' ds drv lba (Z.to_nat n) k;
  idle_flush h tf ds : idle h tf ds 0 -> exists h' tf' k,
    outb io ATA_CMD_CACHE_FLUSH (u16 (bs + 7)) h = Some (tt, h') /\ (k <= patience)%nat /\ idle h' tf' ds k;
  in_alt_status h ds drv lba n k : data_in h ds drv lba n k -> exists b h', inb io ctl h = Some (b, h') /\ data_in h' ds drv lba n k;
  in_busy h ds drv lba n k : data_in h ds drv lba n (S k) -> exists b h', inb io (u16 (bs + 7)) h = Some (b, h') /\
    Z.land b ATA_SR_BSY <> 0 /\ data_in h' ds drv lba n k;
  in_ready h ds drv lba n : data_in h ds drv lba n 0 -> exists b h', inb io (u16 (bs + 7)) h = Some (b, h') /\
    ready b /\ data_in h' ds drv lba n 0;
  in_transfer h ds drv lba n d : data_in h ds drv lba (S n) 0 -> slice (ds drv) (lba * 512) 512 = Some d ->
    exists h' k, insw io bs 256 h = Some (d, h') /\ (k <= patience)%nat /\
      match n with O => exists tf, idle h' tf ds k | S _ => data_in h' ds drv (lba + 1) n k end;
  out_alt_status h ds drv lba n k : data_out h ds drv lba n k -> exists b h', inb io ctl h = Some (b, h') /\ data_out h' ds drv lba n k;
  out_busy h ds drv lba n k : data_out h ds drv lba n (S k) -> exists b h', inb io (u16 (bs + 7)) h = Some (b, h') /\
    Z.land b ATA_SR_BSY <> 0 /\ data_out h' ds drv lba n k;
  out_ready h ds drv lba n : data_out h ds drv lba n 0 -> exists b h', inb io (u16 (bs + 7)) h = Some (b, h') /\
    ready b /\ data_out h' ds drv lba n 0;
  out_transfer h ds drv lba n d D' : data_out h ds drv lba (S n) 0 -> zlen d = 512 -> blit (ds drv) (lba * 512) d = Some D' ->
    exists h' k, outsw io bs d h = Some (tt, h') /\ (k <= patience)%nat /\
      match n with
      | O => exists tf, idle h' tf (with_disk ds drv D') k
      | S _ => data_out h' (with_disk ds drv D') drv (lba + 1) n k
      end
}.

(** The driver sends the flush command after a write without waiting for the last
    sector to be taken. This is the assumption that no wait was needed; the
    standard does not promise it, and only the lemmas on writes use it. *)
Class Prompt (bs ctl : Z) `{!Controller bs ctl} := {
  prompt h ds drv lba d h' tf ds' k :
    data_out h ds drv lba 1 0 -> outsw io bs d h = Some (tt, h') -> idle h' tf ds' k -> k = O
}.

(** *** Running the driver on the hardware

    The variables of the driver stay as in [s] while the hardware changes. *)
Section run.
Context (s : state H) (ch : Z) (r : ata_registers).
Hypothesis Hregs : (ata_channels s).[ch] = Some r.

Definition runs {A} (m : M (state H) A) (h : H) (a : A) (h' : H) : Prop := m (set_hw s h) = Some (a, set_hw s h').

Lemma runs_ret {A} (a : A) h : runs (mret a) h a h.
Proof. done. Qed.

Lemma runs_bind {A B} (m : M (state H) A) (f : A -> M (state H) B) h a h1 b h2 :
  runs m h a h1 -> runs (f a) h1 b h2 -> runs (x ← m; f x) h b h2.
Proof. unfold runs. intros Hm Hf. by rewrite (bind_run _ _ _ _ _ Hm). Qed.

Lemma runs_lift {A} (o : option A) a h : o = Some a -> runs (lift o) h a h.
Proof. intros ->. done. Qed.

Lemma runs_hw {A} (m : M H A) h a h' : m h = Some (a, h') -> runs (on_hw m) h a h'.
Proof. intros Hm. unfold runs, on_hw. cbn. by rewrite Hm. Qed.

Lemma runs_regs h : runs (regs ch) h r h.
Proof. unfold runs, regs, lift. cbn. by rewrite Hregs. Qed.

Lemma runs_out reg v p h h' : port_of r reg = Some p -> high_order reg = false ->
  outb io (u8 v) p h = Some (tt, h') -> runs (ata_write io ch reg v) h tt h'.
Proof.
  intros Hp Hh Ho. unfold ata_write. eapply runs_bind; [apply runs_regs|]. rewrite Hh.
  eapply runs_bind; [apply runs_ret|]. eapply runs_bind; [|apply runs_ret].
  unfold out_reg. eapply runs_bind; [apply runs_regs|]. rewrite Hp. by apply runs_hw.
Qed.

Lemma runs_in reg p h b h' : port_of r reg = Some p -> high_order reg = false ->
  inb io p h = Some (b, h') -> runs (ata_read io ch reg) h b h'.
Proof.
  intros Hp Hh Hi. unfold ata_read. eapply runs_bind; [apply runs_regs|]. rewrite Hh, Hp.
  eapply runs_bind; [apply runs_ret|]. eapply runs_bind; [by apply runs_hw|].
  eapply runs_bind; [apply runs_ret|apply runs_ret].
Qed.

Context (bs ctl : Z) `{!Controller bs ctl}.
Hypothesis Hbs : base r = bs.
Hypothesis Hctl : u16 (control r + 2) = ctl.

(** A register of the command block, and the control register. *)
Lemma port_command reg : reg < 8 -> port_of r reg = Some (u16 (bs + reg)) /\ high_order reg = false.
Proof. intros. rewrite <- Hbs. unfold port_of, high_order. destruct (Z.ltb_spec reg 0x08), (Z.ltb_spec 0x07 reg); try lia. done. Qed.

Lemma port_control : port_of r ATA_REG_CONTROL = Some ctl.
Proof. rewrite <- Hctl. unfold port_of. cbn -[wrap]. do 2 f_equal. lia. Qed.

(** The states a poll can find a channel in. *)
Class Pollable (P : H -> nat -> Prop) (Q : Z -> Prop) := {
  poll_alt h k : P h k -> exists b h', inb io ctl h = Some (b, h') /\ P h' k;
  poll_busy h k : P h (S k) -> exists b h', inb io (u16 (bs + 7)) h = Some (b, h') /\ Z.land b ATA_SR_BSY <> 0 /\ P h' k;
  poll_ready h : P h O -> exists b h', inb io (u16 (bs + 7)) h = Some (b, h') /\ Z.land b ATA_SR_BSY = 0 /\ Q b /\ P h' O
}.

Lemma idle_pollable tf ds : Pollable (fun h k => idle h tf ds k) (fun _ => True).
Proof.
  split; [intros ? ?; apply idle_alt_status|intros ? ?; apply idle_busy|]. intros h Hi.
  destruct (idle_status h tf ds Hi) as (b & h' & ? & ? & ?). eauto 6.
Qed.

Lemma in_pollable ds drv lba n : Pollable (fun h k => data_in h ds drv lba n k) ready.
Proof.
  split; [intros ? ?; apply in_alt_status|intros ? ?; apply in_busy|]. intros h Hi.
  destruct (in_ready h ds drv lba n Hi) as (b & h' & ? & Hr & ?). exists b, h'. split_and!; auto. apply Hr.
Qed.

Lemma out_pollable ds drv lba n : Pollable (fun h k => data_out h ds drv lba n k) ready.
Proof.
  split; [intros ? ?; apply out_alt_status|intros ? ?; apply out_busy|]. intros h Hi.
  destruct (out_ready h ds drv lba n Hi) as (b & h' & ? & Hr & ?). exists b, h'. split_and!; auto. apply Hr.
Qed.

Lemma wait_ready P Q `{!Pollable P Q} fuel : forall h k, P h k -> (k <= fuel)%nat ->
  exists h', runs (wait_while io fuel ch ATA_REG_STATUS ATA_SR_BSY true) h tt h' /\ P h' O.
Proof.
  destruct (port_command ATA_REG_STATUS ltac:(lia)) as [Hp Hh].
  induction fuel as [|fuel IH]; intros h [|k] HP Hk; try lia; cbn [wait_while].
  1, 2: destruct (poll_ready h HP) as (b & h' & Hi & Hb & _ & HP'); exists h'; split; [|done];
    eapply runs_bind; [by eapply runs_in|]; rewrite Hb; apply runs_ret.
  destruct (poll_busy h k HP) as (b & h1 & Hi & Hb & HP1).
  destruct (IH h1 k HP1 ltac:(lia)) as (h' & Hr & HP'). exists h'. split; [|done].
  eapply runs_bind; [by eapply runs_in|]. unfold truthy. destruct (Z.eqb_spec (Z.land b ATA_SR_BSY) 0); [done|]. exact Hr.
Qed.

Lemma alt_reads P Q `{!Pollable P Q} n : forall h k, P h k ->
  exists h', runs (read_times io n ch ATA_REG_ALT_STATUS) h tt h' /\ P h' k.
Proof.
  induction n as [|n IH]; intros h k HP; [by exists h|]. cbn [read_times].
  destruct (poll_alt h k HP) as (b & h1 & Hi & HP1). destruct (IH h1 k HP1) as (h' & Hr & HP').
  exists h'. split; [|done]. eapply runs_bind; [|exact Hr]. eapply runs_in; [apply port_control|done|exact Hi].
Qed.

Lemma poll_runs P Q `{!Pollable P Q} check_err h k : P h k -> (k <= patience)%nat ->
  (check_err = true -> forall b, Q b -> ready b) ->
  exists h', runs (ata_poll io patience ch check_err) h 0 h' /\ P h' O.
Proof.
  intros HP Hk Hc. unfold ata_poll. destruct (alt_reads P Q 4 h k HP) as (h1 & Hr1 & HP1).
  destruct (wait_ready P Q patience h1 k HP1 Hk) as (h2 & Hr2 & HP2).
  destruct check_err.
  - destruct (poll_ready h2 HP2) as (b & h3 & Hi & _ & HQ & HP3). exists h3. split; [|done].
    eapply runs_bind; [exact Hr1|]. eapply runs_bind; [exact Hr2|].
    destruct (port_command ATA_REG_STATUS ltac:(lia)) as [Hp Hh].
    eapply runs_bind; [by eapply runs_in|].
    destruct (Hc eq_refl b HQ) as (_ & -> & -> & Hd). unfold truthy.
    destruct (Z.eqb_spec (Z.land b ATA_SR_DRQ) 0); [done|]. apply runs_ret.
  - exists h2. split; [|done]. eapply runs_bind; [exact Hr1|]. eapply runs_bind; [exact Hr2|]. apply runs_ret.
Qed.
Lemma pio_read_runs ds drv n : forall lba h k got d, (k <= patience)%nat ->
  data_in h ds drv lba (S n) k -> slice (ds drv) (lba * 512) (Z.of_nat (S n) * 512) = Some d ->
  exists h' tf k', runs (pio_read io patience (S n) ch bs got) h (0, got ++ d) h' /\ (k' <= patience)%nat /\ idle h' tf ds k'.
Proof.
  induction n as [|n IH]; intros lba h k got d Hk Hin Hd.
  all: pose proof (in_pollable ds drv lba) as Hpoll; cbn [pio_read].
  all: destruct (poll_runs (fun h k => data_in h ds drv lba _ k) ready true h k Hin Hk ltac:(auto)) as (h1 & Hr1 & Hin1).
  - destruct (in_transfer h1 ds drv lba 0 d Hin1 Hd) as (h2 & k2 & Hi & Hk2 & tf & Hid).
    exists h2, tf, k2. split; [|done]. eapply runs_bind; [exact Hr1|]. cbn [truthy]. change (truthy 0) with false.
    eapply runs_bind; [by apply runs_hw|]. apply runs_ret.
  - destruct (slice_lookup _ _ _ _ 0 Hd) as (? & ? & ? & _).
    destruct (slice_exists (ds drv) (lba * 512) 512) as [d1 Hd1]; [lia..|].
    destruct (slice_exists (ds drv) ((lba + 1) * 512) (Z.of_nat (S n) * 512)) as [d2 Hd2]; [lia..|].
    assert (d = d1 ++ d2) as ->.
    { assert (slice (ds drv) (lba * 512) (512 + Z.of_nat (S n) * 512) = Some (d1 ++ d2)) as Hs.
      { apply slice_split; [done|]. rewrite <- Hd2. f_equal. lia. }
      replace (512 + Z.of_nat (S n) * 512) with (Z.of_nat (S (S n)) * 512) in Hs by lia. congruence. }
    destruct (in_transfer h1 ds drv lba (S n) d1 Hin1 Hd1) as (h2 & k2 & Hi & Hk2 & Hin2).
    destruct (IH (lba + 1) h2 k2 (got ++ d1) d2 Hk2 Hin2 Hd2) as (h' & tf & k' & Hr & Hk' & Hid).
    exists h', tf, k'. split; [|done]. eapply runs_bind; [exact Hr1|]. change (truthy 0) with false.
    eapply runs_bind; [by apply runs_hw|]. by rewrite app_assoc.
Qed.

Lemma with_disk_same ds drv D : with_disk ds drv D drv = D.
Proof. unfold with_disk. by rewrite Z.eqb_refl. Qed.

Lemma slice_drop (buf : list Z) a n d : slice buf a n = Some d -> slice (drop (Z.to_nat a) buf) 0 n = Some d.
Proof.
  intros Hs. destruct (slice_lookup _ _ _ _ 0 Hs) as (? & ? & ? & _). revert Hs. unfold slice, zlen in *.
  rewrite length_drop.
  destruct (Z.leb_spec 0 a), (Z.leb_spec 0 n), (Z.leb_spec (a + n) (Z.of_nat (length buf))),
    (Z.leb_spec (0 + n) (Z.of_nat (length buf - Z.to_nat a))); try lia; try done.
Qed.

Lemma pio_write_runs drv buf n : forall lba ds h k a, (k <= patience)%nat -> 0 <= a -> 0 <= lba ->
  data_out h ds drv lba (S n) k ->
  (lba + Z.of_nat (S n)) * 512 <= zlen (ds drv) -> a + Z.of_nat (S n) * 512 <= zlen buf ->
  exists h' tf ds' k', runs (pio_write io patience (S n) ch bs (drop (Z.to_nat a) buf)) h tt h' /\ (k' <= patience)%nat /\
    idle h' tf ds' k' /\ (Prompt bs ctl -> k' = O) /\
    filled buf (a - lba * 512) (lba * 512) ((lba + Z.of_nat (S n)) * 512) (ds drv) (ds' drv).
Proof.
  induction n as [|n IH]; intros lba ds h k a Hk Ha Hl Hout HD Hb.
  all: pose proof (out_pollable ds drv lba) as Hpoll; cbn [pio_write].
  all: destruct (poll_runs (fun h k => data_out h ds drv lba _ k) ready false h k Hout Hk ltac:(done)) as (h1 & Hr1 & Hout1).
  all: destruct (slice_exists buf a 512) as [d Hd]; [lia..|].
  all: pose proof (slice_drop _ _ _ _ Hd) as Hd'.
  all: destruct (blit_filled _ _ _ _ (ds drv) (lba * 512) Hd) as (D1 & HD1 & Hf1); [lia..|].
  all: pose proof (slice_len _ _ _ _ Hd) as Hlen.
  - destruct (out_transfer h1 ds drv lba 0 d D1 Hout1 Hlen HD1) as (h2 & k2 & Hi & Hk2 & tf & Hid).
    exists h2, tf, (with_disk ds drv D1), k2. split_and!; auto.
    + eapply runs_bind; [exact Hr1|]. eapply runs_bind; [by apply runs_lift|].
      eapply runs_bind; [by apply runs_hw|]. apply runs_ret.
    + intros HP. eapply prompt; [exact Hout1|exact Hi|exact Hid].
    + rewrite with_disk_same. eapply filled_eq; [exact Hf1|lia..].
  - destruct (out_transfer h1 ds drv lba (S n) d D1 Hout1 Hlen HD1) as (h2 & k2 & Hi & Hk2 & Hout2).
    destruct (IH (lba + 1) (with_disk ds drv D1) h2 k2 (a + 512)) as (h' & tf & ds' & k' & Hr & Hk' & Hid & Hpr & Hf2); auto; [lia..| | |].
    { rewrite with_disk_same, (proj1 Hf1). lia. }
    { lia. }
    exists h', tf, ds', k'. split_and!; auto.
    + eapply runs_bind; [exact Hr1|]. eapply runs_bind; [by apply runs_lift|].
      eapply runs_bind; [by apply runs_hw|].
      replace (Z.to_nat (a + 512)) with (Z.to_nat a + 512)%nat in Hr by lia. rewrite <- drop_drop in Hr. exact Hr.
    + rewrite with_disk_same in Hf2.
      eapply (filled_right _ _ _ ((lba + 1) * 512)); [lia|eapply filled_eq; [exact Hf1|lia..]|eapply filled_eq; [exact Hf2|lia..]].
Qed.

(** *** The address *)

Lemma runs_register tf ds reg v h : idle h tf ds 0 -> 2 <= reg <= 6 -> 0 <= v < 256 ->
  exists h', runs (ata_write io ch reg v) h tt h' /\ idle h' (tf_set tf reg v) ds 0.
Proof.
  intros Hi Hr Hv. destruct (idle_register h tf ds reg v Hi Hr Hv) as (h' & Ho & Hi').
  destruct (port_command reg ltac:(lia)) as [Hp Hh]. exists h'. split; [|done].
  eapply runs_out; [exact Hp|done|]. by rewrite wrap_small by lia.
Qed.

Lemma send_address_runs tf ds drv sectors capabilities lba h : idle h tf ds 0 -> drv = 0 \/ drv = 1 ->
  addressable capabilities lba -> 0 <= sectors < 256 ->
  let a := sector_address capabilities lba in
  exists h', runs (send_address io ch drv sectors a) h tt h' /\ idle h' (sent_tf tf drv sectors a) ds 0.
Proof.
  intros Hi Hd Hl Hs a.
  destruct (address_fields capabilities lba Hl) as (Hm & Hh & l0 & l1 & l2 & Hio & H0 & H1 & H2 & _). fold a in Hm, Hh, Hio.
  unfold sent_tf. set (dev := match lba_mode a with ATA_ADDR_CHS => _ | _ => _ end).
  assert (0 <= dev < 256) as Hdev.
  { unfold dev. destruct (lba_mode a); [eapply (device_register drv (head a) 0xa0)|eapply (device_register drv (head a) 0xe0)|]; auto. done. }
  destruct (runs_register tf ds ATA_REG_DEVICE_SELECT dev h Hi ltac:(lia) Hdev) as (h1 & R1 & I1).
  destruct (runs_register _ ds ATA_REG_SECTOR_COUNT0 sectors h1 I1 ltac:(lia) Hs) as (h2 & R2 & I2).
  destruct (runs_register _ ds ATA_REG_LBA0 l0 h2 I2 ltac:(lia) H0) as (h3 & R3 & I3).
  destruct (runs_register _ ds ATA_REG_LBA1 l1 h3 I3 ltac:(lia) H1) as (h4 & R4 & I4).
  destruct (runs_register _ ds ATA_REG_LBA2 l2 h4 I4 ltac:(lia) H2) as (h5 & R5 & I5).
  exists h5. rewrite Hio. split; [|exact I5]. unfold send_address. eapply runs_bind.
  { instantiate (1 := h1). instantiate (1 := tt). unfold dev in R1. destruct (lba_mode a); done. }
  eapply runs_bind; [by destruct (lba_mode a); [apply runs_ret..|]|].
  eapply runs_bind; [exact R2|]. rewrite Hio.
  eapply runs_bind; [by apply runs_lift|]. eapply runs_bind; [exact R3|].
  eapply runs_bind; [by apply runs_lift|]. eapply runs_bind; [exact R4|].
  eapply runs_bind; [by apply runs_lift|]. exact R5.
Qed.
End run.
(** *** A drive in programmed mode *)
Section disk.
Context (ch drv bs ctl : Z) `{HC : !Controller bs ctl}.
Hypothesis Hdrv : drv = 0 \/ drv = 1.

(** The variables of the driver for the drive. *)
Record config (s : state H) (r : ata_registers) (d : ata_device) : Prop := {
  cf_regs : (ata_channels s).[ch] = Some r;
  cf_base : base r = bs;
  cf_control : u16 (control r + 2) = ctl;
  cf_device : (ata_devices s).[ch * 2 + drv] = Some d;
  cf_exists : truthy (exists_ d) = true;
  cf_drive : drive d = drv;
  cf_dma : ata_dma_support s = false;
  cf_size : addressable (capabilities d) (size d - 1);
  cf_buffer : zlen (dev_buffer d) = 131072
}.

Definition pio_on_disk (s : state H) (D : list Z) : Prop :=
  exists r d tf ds k, config s r d /\ idle (hw s) tf ds k /\ (k <= patience)%nat /\ ds drv = D /\ zlen D = size d * 512.

(** Interrupts are turned off; the registers keep their ports. *)
Lemma prepare_pio s r d tf ds k n : config s r d -> idle (hw s) tf ds k ->
  exists s1 r1, prepare io prdt_phys false ch (ch * 2 + drv) n s = Some (tt, s1) /\
    config s1 r1 d /\ base r1 = base r /\ idle (hw s1) tf ds k /\ ata_buffer s1 = ata_buffer s.
Proof.
  intros [Hr Hb Hc Hd He Hdr Hdma Hs Hbuf] Hi.
  set (r1 := mk_registers (base r) (control r) (bus_master_ide r) ATA_CTL_NIEN).
  pose proof (zlookup_Some_lt _ _ _ Hr) as Hlt. pose proof (zstore_lt (ata_channels s) ch r1 Hlt) as Hst.
  set (s0 := set_channels (set_irq s false) (<[Z.to_nat ch := r1]> (ata_channels s))).
  assert ((ata_channels s0).[ch] = Some r1) as Hr1 by by apply zlookup_insert_same.
  destruct (idle_control (hw s) tf ds k ATA_CTL_NIEN Hi) as (h1 & Ho & Hi1).
  assert (runs s0 (ata_write io ch ATA_REG_CONTROL ATA_CTL_NIEN) (hw s) tt h1) as Hw.
  { by eapply runs_out; [exact Hr1|by apply port_control|done|]. }
  exists (set_hw s0 h1), r1. split; [|split_and!; try done; split; done].
  unfold prepare, set_nien, regs, lift. rewrite modify_run. unfold mbind, M_bind, gets. cbn [ata_channels set_irq].
  rewrite Hr. fold r1. rewrite Hst. exact Hw.
Qed.

(** The sector count and the address are sent. *)
Lemma address_runs s r d tf ds k lba n h : config s r d -> idle h tf ds k -> (k <= patience)%nat ->
  0 < n < 256 -> 0 <= lba -> lba + n <= size d ->
  exists h0 h1 tf1, runs s (wait_while io patience ch ATA_REG_STATUS ATA_SR_BSY true) h tt h0 /\
    runs s (send_address io ch (drive d) n (sector_address (capabilities d) lba)) h0 tt h1 /\ idle h1 tf1 ds 0 /\
    tf_drive tf1 = drv /\ tf_lba tf1 = lba /\ tf1 ATA_REG_SECTOR_COUNT0 = n.
Proof.
  intros [Hr Hbs Hctl Hd He Hdr Hdma Hs Hbuf] Hi Hk Hn Hl Hsz.
  pose proof (idle_pollable bs ctl tf ds) as Hpoll.
  destruct (wait_ready s ch r Hr bs ctl Hbs (fun h k => idle h tf ds k) (fun _ => True) patience h k Hi Hk) as (h0 & R0 & I0).
  assert (addressable (capabilities d) lba) as Ha by (unfold addressable in *; lia).
  destruct (send_address_runs s ch r Hr bs ctl Hbs tf ds (drive d) n (capabilities d) lba h0 I0) as (h1 & R1 & I1);
    [by rewrite Hdr|done|lia|].
  destruct (sent_tf_names tf drv n (capabilities d) lba Hdrv Ha) as (T1 & T2 & T3).
  eexists h0, h1, _. split_and!; try done; by rewrite Hdr.
Qed.

(** A command is written to the command register. *)
Lemma command_runs s r d cmd h h' : config s r d -> 0 <= cmd < 256 ->
  outb io cmd (u16 (bs + 7)) h = Some (tt, h') -> runs s (ata_write io ch ATA_REG_COMMAND cmd) h tt h'.
Proof.
  intros [Hr Hbs Hctl _ _ _ _ _ _] Hc Ho. destruct (port_command r bs Hbs ATA_REG_COMMAND ltac:(lia)) as [Hp Hh].
  eapply runs_out; [exact Hr|exact Hp|exact Hh|]. by rewrite wrap_small by lia.
Qed.

Lemma command_28 capabilities lba op : addressable capabilities lba ->
  command (lba_mode (sector_address capabilities lba)) false op
  = match op with ATA_OP_READ => ATA_CMD_READ_PIO | ATA_OP_WRITE => ATA_CMD_WRITE_PIO end.
Proof. intros Ha. destruct (address_fields _ _ Ha) as (Hm & _). by destruct (lba_mode _), op. Qed.

Lemma config_hw s r d h : config s r d -> config (set_hw s h) r d.
Proof. by intros []. Qed.

Lemma config_buffer s r d b : config s r d -> config (set_buffer s b) r d.
Proof. by intros []. Qed.

(** The common part of a command: interrupts off, the address, the command. *)
Lemma access_starts s r d0 s0 d tf ds k op buffer lba n : config s r d0 ->
  (match op with
   | ATA_OP_WRITE =>
       d ← device (ch * 2 + drv);
       data ← lift (slice buffer 0 (n * ATA_SECTOR_SIZE));
       b ← lift (blit (dev_buffer d) 0 data);
       store_device (ch * 2 + drv) (set_dev_buffer d b)
   | ATA_OP_READ => mret tt
   end) s = Some (tt, s0) ->
  config s0 r d -> idle (hw s0) tf ds k -> (k <= patience)%nat ->
  0 < n < 256 -> 0 <= lba -> lba + n <= size d ->
  exists s1 r1 h1 tf1, config s1 r1 d /\ idle h1 tf1 ds 0 /\ ata_buffer s1 = ata_buffer s0 /\
    tf_drive tf1 = drv /\ tf_lba tf1 = lba /\ tf1 ATA_REG_SECTOR_COUNT0 = n /\
    ata_access io prdt_phys patience op ch drv lba n buffer s =
      (ata_write io ch ATA_REG_COMMAND (command (lba_mode (sector_address (capabilities d) lba)) false op);;
       run_pio io patience op (lba_mode (sector_address (capabilities d) lba)) ch (base r1) n buffer) (set_hw s1 h1).
Proof.
  intros Hcf0 H0 Hcf Hi Hk Hn Hl Hsz.
  destruct (prepare_pio s0 r d tf ds k n Hcf Hi) as (s1 & r1 & Hp & Hcf1 & Hb1 & Hi1 & Hbuf1).
  destruct (address_runs s1 r1 d tf ds k lba n (hw s1) Hcf1 Hi1 Hk Hn Hl Hsz) as (h0 & h1 & tf1 & R0 & R1 & I1 & T).
  exists s1, r1, h1, tf1. split_and!; try apply T; try done.
  unfold ata_access. rewrite (bind_run (regs ch) _ s r s) by (unfold regs, lift; by rewrite (cf_regs _ _ _ Hcf0)).
  rewrite gets_run, (cf_dma _ _ _ Hcf0), (bind_run _ _ _ _ _ H0), (bind_run _ _ _ _ _ Hp).
  rewrite (bind_run (device (ch * 2 + drv)) _ s1 d s1) by (unfold device, lift; by rewrite (cf_device _ _ _ Hcf1)).
  assert (s1 = set_hw s1 (hw s1)) as E by by destruct s1.
  rewrite E at 1. rewrite (bind_run _ _ _ _ _ R0), ret_run, (bind_run _ _ _ _ _ R1). by rewrite Hb1.
Qed.

Lemma sectors_in_drive d lba n : truthy (exists_ d) = true -> addressable (capabilities d) (size d - 1) ->
  0 < n < 256 -> 0 <= lba -> lba + n <= size d -> in_drive d (u32 lba) (u8 n) = true.
Proof.
  intros He Ha Hn Hl Hs. unfold in_drive, addressable in *. rewrite He.
  assert (size d < 2 ^ 32) by (destruct (truthy _) in Ha; lia).
  rewrite (wrap_small 32 lba), (wrap_small 8 n), wrap_small by lia. cbn [andb]. lia.
Qed.

Lemma pio_read_ok s D lba n d : pio_on_disk s D -> 0 < n <= UCHAR_MAX -> slice D (lba * 512) (n * 512) = Some d ->
  exists s', ata_read_sectors io prdt_phys patience ch drv n lba s = Some ((0, d), s') /\
    pio_on_disk s' D /\ ata_buffer s' = ata_buffer s.
Proof.
  intros (r & dv & tf & ds & k & Hcf & Hi & Hk & HD & Hsz) Hn Hs. pose proof Hcf as [_ _ _ Hdev He _ _ Ha _].
  destruct (slice_lookup _ _ _ _ 0 Hs) as (? & ? & ? & _). assert (size dv < 2 ^ 32) by (unfold addressable in Ha; destruct (truthy _) in Ha; lia).
  unfold ata_read_sectors.
  rewrite (bind_run (device (ch * 2 + drv)) _ s dv s) by (unfold device, lift; by rewrite Hdev).
  rewrite sectors_in_drive by (auto; lia). cbn [negb]. rewrite (wrap_small 8 n), (wrap_small 32 lba) by lia.
  destruct (access_starts s r dv s dv tf ds k ATA_OP_READ [] lba n Hcf eq_refl Hcf Hi Hk)
    as (s1 & r1 & h1 & tf1 & Hcf1 & I1 & Hb1 & T1 & T2 & T3 & ->); [lia..|].
  rewrite command_28 by (unfold addressable in *; lia).
  destruct (idle_read h1 tf1 ds drv lba n I1 T1 T2 T3) as (h2 & k2 & Ho & Hk2 & Hin). { rewrite HD. unfold fits. lia. }
  rewrite (bind_run _ _ _ _ _ (command_runs s1 r1 dv ATA_CMD_READ_PIO h1 h2 Hcf1 ltac:(lia) Ho)).
  unfold run_pio. destruct (Z.to_nat n) as [|m] eqn:Em; [lia|].
  pose proof Hcf1 as [Hr1 Hbs Hctl _ _ _ _ _ _]. rewrite Hbs.
  destruct (pio_read_runs s1 ch r1 Hr1 bs ctl Hbs Hctl ds drv m lba h2 k2 [] d Hk2 Hin) as (h3 & tf3 & k3 & R3 & Hk3 & I3).
  { rewrite HD, <- Hs. f_equal. lia. }
  exists (set_hw s1 h3). split; [exact R3|]. split; [|done].
  exists r1, dv, tf3, ds, k3. split_and!; auto using config_hw.
Qed.

Lemma stored_buffer s r d buffer n data : config s r d -> slice buffer 0 (n * 512) = Some data -> n < 256 ->
  exists b s0, (d ← device (ch * 2 + drv); data ← lift (slice buffer 0 (n * ATA_SECTOR_SIZE));
    b ← lift (blit (dev_buffer d) 0 data); store_device (ch * 2 + drv) (set_dev_buffer d b)) s = Some (tt, s0) /\
  config s0 r (set_dev_buffer d b) /\ hw s0 = hw s /\ ata_buffer s0 = ata_buffer s.
Proof.
  intros Hcf Hs Hn. pose proof Hcf as [Hr Hb Hc Hd He Hdr Hdma Ha Hbuf].
  destruct (blit_some (dev_buffer d) 0 data) as [b Hbl]; [lia|rewrite (slice_len _ _ _ _ Hs); lia|].
  pose proof (zlookup_Some_lt _ _ _ Hd) as Hlt.
  exists b, (set_devices s (<[Z.to_nat (ch * 2 + drv) := set_dev_buffer d b]> (ata_devices s))). split.
  - rewrite (bind_run (device (ch * 2 + drv)) _ s d s) by (unfold device, lift; by rewrite Hd).
    unfold lift, mbind, M_bind, store_device. rewrite Hs, Hbl. unfold mbind, M_bind, gets, lift.
    by rewrite zstore_lt by done.
  - split_and!; [|done..]. split; try done; cbn; [by apply zlookup_insert_same|]. by apply blit_len in Hbl as ->.
Qed.

Lemma filled_unique src shift lo hi b b1 b2 : filled src shift lo hi b b1 -> filled src shift lo hi b b2 -> b1 = b2.
Proof. intros [_ H1] [_ H2]. apply list_eq. intros i. by rewrite H1, H2. Qed.

Lemma pio_write_ok `{HP : !Prompt bs ctl} s D lba n buf d D' : pio_on_disk s D -> 0 < n <= UCHAR_MAX ->
  slice buf 0 (n * 512) = Some d -> blit D (lba * 512) d = Some D' ->
  exists s', ata_write_sectors io prdt_phys patience ch drv n lba buf s = Some (0, s') /\
    pio_on_disk s' D' /\ ata_buffer s' = ata_buffer s.
Proof.
  intros (r & dv & tf & ds & k & Hcf & Hi & Hk & HD & Hsz) Hn Hs Hbl. pose proof Hcf as [_ _ _ Hdev He _ _ Ha _].
  assert (0 <= lba /\ (lba + n) * 512 <= zlen D) as [Hl HlD].
  { pose proof (slice_len _ _ _ _ Hs). unfold blit in Hbl.
    destruct (Z.leb_spec 0 (lba * 512)), (Z.leb_spec (lba * 512 + zlen d) (zlen D)); try done. lia. }
  destruct (slice_lookup _ _ _ _ 0 Hs) as (_ & _ & Hbuf & _).
  assert (size dv < 2 ^ 32) by (unfold addressable in Ha; destruct (truthy _) in Ha; lia).
  unfold ata_write_sectors.
  rewrite (bind_run (device (ch * 2 + drv)) _ s dv s) by (unfold device, lift; by rewrite Hdev).
  rewrite sectors_in_drive by (auto; lia). cbn [negb]. rewrite (wrap_small 8 n), (wrap_small 32 lba) by lia.
  destruct (stored_buffer s r dv buf n d Hcf Hs) as (b & s0 & Hs0 & Hcf0 & Hhw & Hb0); [lia|]. rewrite <- Hhw in Hi.
  destruct (access_starts s r dv s0 _ tf ds k ATA_OP_WRITE buf lba n Hcf Hs0 Hcf0 Hi Hk)
    as (s1 & r1 & h1 & tf1 & Hcf1 & I1 & Hb1 & T1 & T2 & T3 & Hrun); [cbn; lia..|].
  rewrite command_28 in Hrun by (unfold addressable in *; cbn; lia).
  destruct (idle_write h1 tf1 ds drv lba n I1 T1 T2 T3) as (h2 & k2 & Ho & Hk2 & Hout). { rewrite HD. unfold fits. lia. }
  pose proof Hcf1 as [Hr1 Hbs Hctl _ _ _ _ _ _].
  rewrite (bind_run _ _ _ _ _ (command_runs s1 r1 _ ATA_CMD_WRITE_PIO h1 h2 Hcf1 ltac:(lia) Ho)), Hbs in Hrun.
  unfold run_pio in Hrun. destruct (Z.to_nat n) as [|m] eqn:Em; [lia|].
  destruct (pio_write_runs s1 ch r1 Hr1 bs ctl Hbs Hctl drv buf m lba ds h2 k2 0 Hk2 ltac:(lia) Hl Hout)
    as (h3 & tf3 & ds3 & k3 & R3 & _ & I3 & Hpr & Hf3); [rewrite HD; lia|lia|]. rewrite (Hpr HP) in I3.
  destruct (idle_flush h3 tf3 ds3 I3) as (h4 & tf4 & k4 & Ho4 & Hk4 & I4).
  pose proof (idle_pollable bs ctl tf4 ds3) as Hpoll.
  destruct (poll_runs s1 ch r1 Hr1 bs ctl Hbs Hctl (fun h k => idle h tf4 ds3 k) (fun _ => True) false h4 k4 I4 Hk4) as (h5 & R5 & I5); [done|].
  exists (set_hw s1 h5). split_and!.
  - rewrite (bind_run _ _ s (0, []) (set_hw s1 h5)); [done|]. rewrite Hrun.
    change (runs s1 (pio_write io patience (S m) ch bs (drop (Z.to_nat 0) buf);;
      ata_write io ch ATA_REG_COMMAND (match lba_mode (sector_address (capabilities dv) lba) with
        ATA_ADDR_LBA48 => ATA_CMD_CACHE_FLUSH_EXT | _ => ATA_CMD_CACHE_FLUSH end);;
      ata_poll io patience ch false;; mret (0, @nil Z)) h2 (0, @nil Z) h5).
    eapply runs_bind; [exact R3|]. eapply runs_bind; [|eapply runs_bind; [exact R5|apply runs_ret] ].
    destruct (address_fields (capabilities dv) lba) as (Hm & _); [unfold addressable in *; lia|].
    destruct (lba_mode _); [| |done]; by eapply command_runs.
  - exists r1, (set_dev_buffer dv b), tf4, ds3, 0%nat. split_and!; [by apply config_hw|exact I5|lia| |].
    + eapply filled_unique; [exact Hf3|]. rewrite HD. 
      destruct (blit_filled _ _ _ _ D (lba * 512) Hs) as (D2 & HD2 & Hf2); [lia..|].
      assert (D2 = D') as -> by congruence. eapply filled_eq; [exact Hf2|lia..].
    + apply blit_len in Hbl. cbn. lia.
  - cbn. congruence.
Qed.

Lemma pio_buffer_ok s D b : pio_on_disk s D -> pio_on_disk (set_buffer s b) D.
Proof.
  intros (r & d & tf & ds & k & Hcf & Hrest). exists r, d, tf, ds, k. split; [by apply config_buffer|exact Hrest].
Qed.

(** A channel that keeps the promises of the standard gives a disk. *)
#[local] Instance pio_disk : Disk io prdt_phys patience ch drv := {
  on_disk := pio_on_disk;
  on_disk_buffer := pio_buffer_ok;
  on_disk_read := pio_read_ok
}.
#[local] Instance pio_writable `{!Prompt bs ctl} : WritableDisk io prdt_phys patience ch drv := {
  on_disk_write := pio_write_ok
}.

(** C16: on a channel that keeps the promises of the ATA standard, programmed reads
    return whole sectors. For a drive of at most 2^28 sectors (65536 * 1008 without
    logical addresses) that holds the bytes [D] and is not used by bus-master
    transfers, [ata_read_sectors] of 1 to 255 sectors inside the drive returns zero
    and exactly the bytes of those sectors and leaves the drive as it was; the address
    registers are programmed with the right sector, every wait ends, and the drive
    can take another command. *)
Theorem programmed_reads s D lba n d :
  pio_on_disk s D -> 0 < n <= UCHAR_MAX -> slice D (lba * 512) (n * 512) = Some d ->
  exists s', ata_read_sectors io prdt_phys patience ch drv n lba s = Some ((0, d), s') /\ pio_on_disk s' D.
Proof. intros Hs Hn Hd. destruct (pio_read_ok s D lba n d Hs Hn Hd) as (s' & ? & ? & _). eauto. Qed.

(** Programmed writes replace whole sectors, if the drive is not busy when the
    flush command is sent. *)
Lemma programmed_writes `{!Prompt bs ctl} s D lba n buf w D' :
  pio_on_disk s D -> 0 < n <= UCHAR_MAX -> slice buf 0 (n * 512) = Some w -> blit D (lba * 512) w = Some D' ->
  exists s', ata_write_sectors io prdt_phys patience ch drv n lba buf s = Some (0, s') /\ pio_on_disk s' D'.
Proof. intros Hs Hn Hw HD. destruct (pio_write_ok s D lba n buf w D' Hs Hn Hw HD) as (s' & ? & ? & _). eauto. Qed.
End disk.
End pio.

(** ** Byte ranges *)

(** A non-empty range inside the device, and the device inside the drive. *)
Definition in_device (data : disk_device_data) (D : list Z) (len offset : Z) : Prop :=
  0 <= dd_lba data /\ 0 <= offset /\ 0 < len /\ offset + len <= dd_len data /\ dd_len data < 2 ^ 63 /\
  dd_lba data * 512 + (dd_len data + 511) / 512 * 512 <= zlen D.

Lemma in_device_end data D len offset : in_device data D len offset ->
  (dd_lba data * 512 + offset + len + 511) / 512 * 512 <= zlen D.
Proof. intros (? & ? & ? & ? & ? & ?). divlia. Qed.

(** A disk that can be written behaves as an array of bytes: a write replaces
    exactly its range, and reads after it return what the drive then holds. *)
Lemma device_is_byte_array {H : Type} (io : port_io H) prdt_phys patience (data : disk_device_data)
    `{!Disk io prdt_phys patience (dd_channel data) (dd_drive data), !WritableDisk io prdt_phys patience (dd_channel data) (dd_drive data)}
    s D buf len offset :
  drive_holds io prdt_phys patience data s D -> in_device data D len offset -> len <= zlen buf ->
  exists s' D', ata_device_write io prdt_phys patience data buf len offset s = Some (Ok len, s') /\
    drive_holds io prdt_phys patience data s' D' /\
    filled buf (- disk_pos data offset) (disk_pos data offset) (disk_pos data offset + len) D D' /\
    forall len2 offset2 buf2, in_device data D len2 offset2 -> len2 <= zlen buf2 ->
      exists s2 buf2', ata_device_read io prdt_phys patience data buf2 len2 offset2 s' = Some ((Ok len2, buf2'), s2) /\
        drive_holds io prdt_phys patience data s2 D' /\
        filled D' (disk_pos data offset2) 0 len2 buf2 buf2'.
Proof.
  intros Hd Hin Hb. pose proof (in_device_end _ _ _ _ Hin) as He. destruct Hin as (? & ? & ? & ? & ? & ?).
  destruct (device_write_ok io prdt_phys patience data s D buf len offset) as (s' & D' & Hw & Hd' & Hf); auto.
  exists s', D'. split_and!; auto. intros len2 offset2 buf2 Hin2 Hb2.
  pose proof (in_device_end _ _ _ _ Hin2) as He2. destruct Hin2 as (? & ? & ? & ? & ? & ?).
  apply device_read_ok; auto. by rewrite (proj1 Hf).
Qed.

(** A drive in programmed mode that holds [D], with the sector buffer of the
    driver in place. *)
Definition pio_drive {H : Type} (io : port_io H) (patience : nat) (data : disk_device_data) (bs ctl : Z)
    `{!Controller io patience bs ctl} (s : state H) (D : list Z) : Prop :=
  (dd_drive data = 0 \/ dd_drive data = 1) /\ pio_on_disk io patience (dd_channel data) (dd_drive data) bs ctl s D /\
  zlen (ata_buffer s) = 2048.

Lemma pio_device_read {H : Type} (io : port_io H) prdt_phys patience data bs ctl `{HC : !Controller io patience bs ctl} s D buf len offset :
  pio_drive io patience data bs ctl s D -> in_device data D len offset -> len <= zlen buf ->
  exists s' buf', ata_device_read io prdt_phys patience data buf len offset s = Some ((Ok len, buf'), s') /\
    pio_drive io patience data bs ctl s' D /\ filled D (disk_pos data offset) 0 len buf buf'.
Proof.
  intros (Hdrv & Hd & Hbuf) Hin Hb. pose proof (in_device_end _ _ _ _ Hin) as He. destruct Hin as (? & ? & ? & ? & ? & ?).
  pose (HD := pio_disk io prdt_phys patience (dd_channel data) (dd_drive data) bs ctl Hdrv).
  destruct (device_read_ok io prdt_phys patience data (HR := HD) s D buf len offset) as (s' & buf' & Hr & [Hd' Hb'] & Hf); auto.
  { by split. }
  exists s', buf'. split_and!; auto. by split_and!.
Qed.

(** C17: a disk or a partition of it is read as an array of bytes. On a drive in
    programmed mode (of at most 2^28 sectors, on a channel that keeps the promises of
    the ATA standard), reading a non-empty range inside the device, aligned to sectors
    or not and of any length, returns the length, puts exactly the bytes that the drive
    holds in that range into the caller's buffer and leaves the rest of the buffer, the
    drive and the driver as they were. *)
Theorem device_reads_bytes {H : Type} (io : port_io H) prdt_phys patience data bs ctl `{!Controller io patience bs ctl} s D buf len offset :
  pio_drive io patience data bs ctl s D -> in_device data D len offset -> len <= zlen buf ->
  exists s' buf', ata_device_read io prdt_phys patience data buf len offset s = Some ((Ok len, buf'), s') /\
    pio_drive io patience data bs ctl s' D /\ filled D (disk_pos data offset) 0 len buf buf'.
Proof. apply pio_device_read. Qed.

(** ** A channel with two drives

    An implementation of the laws. After the last sector of a write the channel
    reads busy [lag] times; a command that is sent while it is busy has no result. *)
Module Emulator.

Inductive phase := Idle (busy : nat) | In (drv lba : Z) (n : nat) | Out (drv lba : Z) (n : nat).
Record channel_state := mk_channel { task_file : Z -> Z; disks : Z -> list Z; doing : phase }.

Definition status (p : phase) : Z := match p with Idle O => 0x50 | Idle (S _) => 0x80 | _ => 0x58 end.

(** Reading the status register at 0x1f7 lets time pass. *)
Definition in_port (p : Z) : M channel_state Z := fun h =>
  Some (status (doing h),
        match doing h with
        | Idle (S k) => if p =? 0x1f7 then mk_channel (task_file h) (disks h) (Idle k) else h
        | _ => h
        end).

Definition out_port (v p : Z) : M channel_state unit := fun h =>
  let tf := task_file h in
  let next ph := Some (tt, mk_channel tf (disks h) ph) in
  if p =? 0x1f7 then
    match doing h with
    | Idle O =>
        if v =? ATA_CMD_READ_PIO then next (In (tf_drive tf) (tf_lba tf) (Z.to_nat (tf ATA_REG_SECTOR_COUNT0)))
        else if v =? ATA_CMD_WRITE_PIO then next (Out (tf_drive tf) (tf_lba tf) (Z.to_nat (tf ATA_REG_SECTOR_COUNT0)))
        else next (Idle O)
    | _ => None
    end
  else if (0x1f2 <=? p) && (p <=? 0x1f6) then Some (tt, mk_channel (tf_set tf (p - 0x1f0) v) (disks h) (doing h))
  else Some (tt, h).

Definition in_words (p : Z) (n : nat) : M channel_state (list Z) := fun h =>
  match doing h with
  | In drv lba (S m) =>
      d ← slice (disks h drv) (lba * 512) 512;
      Some (d, mk_channel (task_file h) (disks h) (match m with O => Idle O | _ => In drv (lba + 1) m end))
  | _ => None
  end.

Definition out_words (lag : nat) (p : Z) (d : list Z) : M channel_state unit := fun h =>
  match doing h with
  | Out drv lba (S m) =>
      D ← blit (disks h drv) (lba * 512) d;
      Some (tt, mk_channel (task_file h) (with_disk (disks h) drv D) (match m with O => Idle lag | _ => Out drv (lba + 1) m end))
  | _ => None
  end.

Definition lagging (lag : nat) : port_io channel_state := mk_io in_port out_port in_words (out_words lag) (fun _ l => mret l).
Definition ports : port_io channel_state := lagging 0.

#[export] Instance emulated (lag : nat) : Controller (lagging lag) lag 0x1f0 0x3f6.
Proof.
  refine {|
    idle h tf ds k := h = mk_channel tf ds (Idle k);
    data_in h ds drv lba n k := k = O /\ exists tf, h = mk_channel tf ds (In drv lba n);
    data_out h ds drv lba n k := k = O /\ exists tf, h = mk_channel tf ds (Out drv lba n)
  |}.
  all: try (intros; match goal with Hh : S _ = O /\ _ |- _ => by destruct Hh end).
  - intros h tf ds k v ->. eauto.
  - intros h tf ds k ->. cbn. destruct k; eauto.
  - intros h tf ds k ->. cbn. eauto 6.
  - intros h tf ds ->. cbn. eauto 6.
  - intros h tf ds reg v -> Hr Hv. exists (mk_channel (tf_set tf reg v) ds (Idle 0)). split; [|done].
    cbn. unfold out_port. cbn [task_file disks doing]. rewrite wrap_small by lia.
    destruct (Z.eqb_spec (0x1f0 + reg) 0x1f7); [lia|].
    destruct (Z.leb_spec 0x1f2 (0x1f0 + reg)), (Z.leb_spec (0x1f0 + reg) 0x1f6); try lia. cbn [andb].
    by replace (0x1f0 + reg - 0x1f0) with reg by lia.
  - intros h tf ds drv lba n -> <- <- <- _. eexists _, 0%nat. split; [done|]. split; [lia|]. eauto.
  - intros h tf ds drv lba n -> <- <- <- _. eexists _, 0%nat. split; [done|]. split; [lia|]. eauto.
  - intros h tf ds ->. eexists _, _, 0%nat. split; [done|]. split; [lia|]. eauto.
  - intros h ds drv lba n k [-> [tf ->] ]. cbn. eauto 8.
  - intros h ds drv lba n [_ [tf ->] ]. cbn. do 2 eexists. split; [done|]. split; [done|]. eauto.
  - intros h ds drv lba n d [_ [tf ->] ] Hd. cbn. unfold in_words. cbn [doing disks]. rewrite Hd. orun.
    eexists _, 0%nat. split; [done|]. split; [lia|]. destruct n; eauto.
  - intros h ds drv lba n k [-> [tf ->] ]. cbn. eauto 8.
  - intros h ds drv lba n [_ [tf ->] ]. cbn. do 2 eexists. split; [done|]. split; [done|]. eauto.
  - intros h ds drv lba n d D' [_ [tf ->] ] Hl HD. cbn. unfold out_words. cbn [doing disks]. rewrite HD. orun.
    exists (mk_channel tf (with_disk ds drv D') (match n with O => Idle lag | _ => Out drv (lba + 1) n end)), (match n with O => lag | _ => O end).
    split; [by destruct n|]. split; [destruct n; lia|]. destruct n; eauto.
Defined.

#[export] Instance no_lag : Prompt ports 0 0x1f0 0x3f6.
Proof.
  split. intros h ds drv lba d h' tf ds' k [_ [tf0 ->] ] Ho ->. cbn in Ho. unfold out_words in Ho. cbn [doing disks] in Ho.
  destruct (blit (ds drv) (lba * 512) d) as [D|]; [|done]. by injection Ho as _ _ <-.
Qed.

(** The primary channel with a drive of four sectors. *)
Definition four_sectors : list Z := replicate 2048 7.
Definition boot_with (busy : nat) : state channel_state :=
  mk_state [mk_registers 0x1f0 0x3f4 0xc000 0; mk_registers 0x170 0x374 0xc008 0]
    [mk_device 1 0 0 512 4 0 (replicate 131072 0)]
    false false (replicate 2048 0) (mk_channel (fun _ => 0) (fun _ => four_sectors) (Idle busy)).
Definition boot_state : state channel_state := boot_with 0.

Lemma boot_on_disk lag busy : (busy <= lag)%nat -> pio_on_disk (lagging lag) lag 0 0 0x1f0 0x3f6 (boot_with busy) four_sectors.
Proof.
  intros Hb.
  exists (mk_registers 0x1f0 0x3f4 0xc000 0), (mk_device 1 0 0 512 4 0 (replicate 131072 0)), (fun _ => 0), (fun _ => four_sectors), busy.
  split_and!; [|done|done|done|apply zlen_replicate].
  split; [reflexivity|reflexivity|reflexivity|reflexivity|reflexivity|reflexivity|reflexivity| |apply zlen_replicate].
  unfold addressable. change (0 <= 3 < 2 ^ 28). lia.
Qed.
Definition new_bytes : list Z := replicate 1024 9.
Definition four_sectors' : list Z := replicate 512 7 ++ new_bytes ++ replicate 512 7.

(** Two sectors are read from a channel that is busy at first. *)
Lemma programmed_reads_witness :
  exists s', ata_read_sectors (lagging 3) (fun _ => 0) 3 0 0 2 1 (boot_with 2) = Some ((0, replicate 1024 7), s') /\
    pio_on_disk (lagging 3) 3 0 0 0x1f0 0x3f6 s' four_sectors.
Proof.
  apply (programmed_reads (lagging 3) (fun _ => 0) 3 0 0 0x1f0 0x3f6 (or_introl eq_refl) (boot_with 2) four_sectors 1 2).
  - apply boot_on_disk. lia.
  - lia.
  - vm_compute. reflexivity.
Defined.

Lemma programmed_writes_example :
  exists s', ata_write_sectors ports (fun _ => 0) 0 0 0 2 1 new_bytes boot_state = Some (0, s') /\
    pio_on_disk ports 0 0 0 0x1f0 0x3f6 s' four_sectors'.
Proof.
  apply (programmed_writes ports (fun _ => 0) 0 0 0 0x1f0 0x3f6 (or_introl eq_refl) boot_state four_sectors 1 2 new_bytes new_bytes).
  - by apply (boot_on_disk 0 0).
  - lia.
  - vm_compute. reflexivity.
  - vm_compute. reflexivity.
Qed.

(** The last three sectors of the drive as a partition. *)
Definition partition : disk_device_data := mk_data 0 0 1 1536.

Lemma boot_drive lag : pio_drive (lagging lag) lag partition 0x1f0 0x3f6 boot_state four_sectors.
Proof. split; [by left|]. split; [apply (boot_on_disk lag 0); lia|reflexivity]. Qed.

Lemma device_reads_bytes_witness :
  exists s2 buf', ata_device_read (lagging 3) (fun _ => 0) 3 partition (replicate 1300 0) 1200 100 boot_state = Some ((Ok 1200, buf'), s2) /\
    filled four_sectors 612 0 1200 (replicate 1300 0) buf'.
Proof.
  destruct (device_reads_bytes (lagging 3) (fun _ => 0) 3 partition 0x1f0 0x3f6 boot_state four_sectors (replicate 1300 0) 1200 100)
    as (s' & b & Hr & _ & Hf).
  - apply boot_drive.
  - split_and!; try done; lia.
  - rewrite zlen_replicate. lia.
  - exists s', b. split; [exact Hr|exact Hf].
Defined.

(** ** Where the driver goes wrong *)

(** A write that reaches past the end of a partition is cut off in its result but
    not on the drive: the sector behind the partition is overwritten. *)
Definition one_sector : disk_device_data := mk_data 0 0 1 512.

Lemma write_past_partition :
  option_map (fun p => (p.1, disks (hw p.2) 0 !! 1024%nat))
    (ata_device_write ports (fun _ => 0) 0 one_sector new_bytes 1024 0 boot_state) = Some (Ok 512, Some 9).
Proof. vm_compute. reflexivity. Qed.

(** A read that reaches past the end of the last sectors of the drive fails
    instead of returning the bytes that are there. *)
Lemma read_past_end_fails :
  option_map (fun p => p.1.1)
    (ata_device_read ports (fun _ => 0) 0 (mk_data 0 0 3 512) (replicate 1024 0) 1024 0 boot_state) = Some (Err EIO).
Proof. vm_compute. reflexivity. Qed.

(** The flush command is sent while the drive is still busy with the last sector,
    where the standard leaves the result open. *)
Lemma flush_while_busy : ata_write_sectors (lagging 1) (fun _ => 0) 1 0 0 2 1 new_bytes boot_state = None.
Proof. vm_compute. reflexivity. Qed.

(** Drives are stored in the order they are found but looked up by channel and
    drive: when there is no primary slave, a drive on the second channel is not
    found under its own numbers. *)
Definition no_slave : state channel_state :=
  set_devices boot_state
    [mk_device 1 0 0 512 4 0 []; mk_device 1 1 0 512 4 0 []; mk_device 0 0 0 0 0 0 []; mk_device 0 0 0 0 0 0 []].

Lemma second_drive_not_found :
  option_map fst (ata_read_sectors ports (fun _ => 0) 0 1 0 1 0 no_slave) = Some (-1, []).
Proof. vm_compute. reflexivity. Qed.

(** The descriptor of a bus-master transfer holds 16 bits of length: the chunks of
    255 sectors that the driver asks for are transferred in part. *)
Lemma long_transfer_cut :
  option_map (fun p => prdt_len <$> ata_devices p.2)
    (prepare ports (fun _ => 0) true 0 0 UCHAR_MAX boot_state) = Some [65024] /\ UCHAR_MAX * ATA_SECTOR_SIZE = 130560.
Proof. split; vm_compute; reflexivity. Qed.
End Emulator.
End Ata.
