(* ===== verification/Lock.v ===== *)
(** * Spinlocks and semaphores (util/lock.c)

    Module [Lock]: the atomic actions of [spinlock_acquire], [spinlock_release],
    [semaphore_wait] and [semaphore_signal], and all interleavings of any
    number of threads that run them on one lock. The other components model a
    lock as a flag that must be free when it is taken; the theorem on spinlocks
    is what allows it. *)

From S2P Require Import Prelude CBits Hash HashMap.

Module Lock.
Import HashMap.

(** ** Spinlocks

    Where a thread is: outside, at the atomic exchange, in the inner loop,
    inside the critical section, behind the barrier of the release. *)
Inductive spin_pc := Outside | AtExchange | AtLoop | Inside | AtStore.

#[export] Instance spin_pc_eq_dec : EqDecision spin_pc.
Proof. solve_decision. Defined.

(** One atomic action on the value of the lock. *)
Definition spinlock_acquire_step (l : Z) (pc : spin_pc) : Z * spin_pc :=
  match pc with
  | AtExchange => (1, if truthy l then AtLoop else Inside)
  | AtLoop => (l, if truthy l then AtLoop else AtExchange)
  | pc => (l, pc)
  end.

Definition spinlock_release_step (l : Z) (pc : spin_pc) : Z * spin_pc :=
  match pc with
  | Inside => (l, AtStore)
  | AtStore => (0, Outside)
  | pc => (l, pc)
  end.

(** A thread calls [spinlock_acquire], runs it, and releases the lock only when
    it is inside. *)
Inductive spin_step : Z * list spin_pc -> Z * list spin_pc -> Prop :=
| sp_call l ts i :
    ts !! i = Some Outside -> spin_step (l, ts) (l, <[i := AtExchange]> ts)
| sp_acquire l ts i pc l' pc' :
    ts !! i = Some pc -> pc = AtExchange \/ pc = AtLoop ->
    spinlock_acquire_step l pc = (l', pc') -> spin_step (l, ts) (l', <[i := pc']> ts)
| sp_release l ts i pc l' pc' :
    ts !! i = Some pc -> pc = Inside \/ pc = AtStore ->
    spinlock_release_step l pc = (l', pc') -> spin_step (l, ts) (l', <[i := pc']> ts).

Definition holds (pc : spin_pc) : bool := match pc with Inside | AtStore => true | _ => false end.

(** The lock is 1 exactly when one thread holds it. *)
Definition spin_ok (s : Z * list spin_pc) : Prop :=
  let '(l, ts) := s in
  (l = 0 /\ Forall (fun pc => holds pc = false) ts) \/
  (l = 1 /\ exists i pc, ts !! i = Some pc /\ holds pc = true /\
     forall j pc', ts !! j = Some pc' -> holds pc' = true -> j = i).

Lemma nobody_holds (ts : list spin_pc) i pc :
  Forall (fun pc => holds pc = false) ts -> holds pc = false ->
  Forall (fun pc => holds pc = false) (<[i := pc]> ts).
Proof. intros Hts Hpc. by apply Forall_insert. Qed.

(** A thread that is not the holder moves between actions that do not hold. *)
Lemma other_moves (ts : list spin_pc) i pc h p :
  ts !! h = Some p -> holds p = true -> h <> i -> holds pc = false ->
  (forall j pc', ts !! j = Some pc' -> holds pc' = true -> j = h) ->
  (<[i := pc]> ts) !! h = Some p /\
  forall j pc', (<[i := pc]> ts) !! j = Some pc' -> holds pc' = true -> j = h.
Proof.
  intros Hh Hp Hne Hpc Huniq. split; [by rewrite list_lookup_insert_ne by done|].
  intros j pc' Hj Hh'. destruct (decide (i = j)) as [<-|].
  - apply list_lookup_insert_Some in Hj as [(_ & <- & _)|[? _]]; [congruence|done].
  - rewrite list_lookup_insert_ne in Hj by done. by eapply Huniq.
Qed.

Lemma spin_ok_step s s' : spin_step s s' -> spin_ok s -> spin_ok s'.
Proof.
  intros Hs Hok. destruct Hs as [l ts i Hi|l ts i pc l' pc' Hi Hpc Hstep|l ts i pc l' pc' Hi Hpc Hstep];
    destruct Hok as [[-> Hts]|(-> & h & p & Hh & Hp & Huniq)].
  - left. split; [done|]. by apply nobody_holds.
  - right. split; [done|]. exists h, p. assert (h <> i) by (intros ->; simplify_eq).
    destruct (other_moves ts i AtExchange h p) as [? ?]; auto.
  - destruct Hpc as [-> | ->]; simpl in Hstep; injection Hstep as <- <-.
    + right. split; [done|]. exists i, Inside. pose proof (lookup_lt_Some _ _ _ Hi).
      split; [by apply list_lookup_insert_eq|]. split; [done|]. intros j q Hj Hq.
      destruct (decide (i = j)) as [<-|]; [done|]. rewrite list_lookup_insert_ne in Hj by done.
      rewrite Forall_lookup in Hts. rewrite (Hts j q Hj) in Hq. done.
    + left. split; [done|]. by apply nobody_holds.
  - assert (h <> i) by (intros ->; destruct Hpc as [-> | ->]; simplify_eq).
    destruct Hpc as [-> | ->]; simpl in Hstep; injection Hstep as <- <-; right; (split; [done|]); exists h, p;
      destruct (other_moves ts i AtLoop h p) as [? ?]; auto.
  - rewrite Forall_lookup in Hts. specialize (Hts i pc Hi). destruct Hpc as [-> | ->]; done.
  - assert (h = i) as -> by (symmetry; apply (Huniq i pc Hi); by destruct Hpc as [-> | ->]).
    pose proof (lookup_lt_Some _ _ _ Hi) as Hlt.
    destruct Hpc as [-> | ->]; simpl in Hstep; injection Hstep as <- <-.
    + right. split; [done|]. exists i, AtStore. split; [by apply list_lookup_insert_eq|]. split; [done|].
      intros j q Hj Hq. destruct (decide (i = j)) as [<-|]; [done|].
      rewrite list_lookup_insert_ne in Hj by done. by eapply Huniq.
    + left. split; [done|]. apply Forall_lookup_2. intros j q Hj. destruct (decide (i = j)) as [<-|].
      * apply list_lookup_insert_Some in Hj as [(_ & <- & _)|[? _]]; done.
      * rewrite list_lookup_insert_ne in Hj by done. destruct (holds q) eqn:E; [|done].
        exfalso. apply n. symmetry. by eapply Huniq.
Qed.

(** C39: mutual exclusion. However any number of threads interleave, at most one
    is between the end of [spinlock_acquire] and the store of
    [spinlock_release]; and when none is, a thread about to try the exchange
    gets the lock by its next action. *)
Theorem spinlock_mutex n l ts :
  rtc spin_step (0, replicate n Outside) (l, ts) ->
  (forall i j pi pj, ts !! i = Some pi -> ts !! j = Some pj -> holds pi = true -> holds pj = true -> i = j) /\
  (Forall (fun pc => holds pc = false) ts -> forall i, ts !! i = Some AtExchange ->
     spinlock_acquire_step l AtExchange = (1, Inside)).
Proof.
  intros Hr. assert (spin_ok (l, ts)) as Hok.
  { refine (rtc_invariant _ _ spin_ok_step _ _ Hr _). left. split; [done|].
    apply Forall_replicate. done. }
  destruct Hok as [[-> Hts]|(-> & h & p & Hh & Hp & Huniq)]; split.
  - intros i j pi pj Hi _ Hhi _. rewrite Forall_lookup in Hts. rewrite (Hts i pi Hi) in Hhi. done.
  - done.
  - intros i j pi pj Hi Hj Hhi Hhj. rewrite (Huniq i pi Hi Hhi). symmetry. by apply (Huniq j pj).
  - intros Hts. rewrite Forall_lookup in Hts. by rewrite (Hts h p Hh) in Hp.
Qed.

Lemma spinlock_mutex_witness :
  (forall i j pi pj, [Inside; AtExchange] !! i = Some pi -> [Inside; AtExchange] !! j = Some pj ->
     holds pi = true -> holds pj = true -> i = j) /\
  (Forall (fun pc => holds pc = false) [Inside; AtExchange] -> forall i, [Inside; AtExchange] !! i = Some AtExchange ->
     spinlock_acquire_step 1 AtExchange = (1, Inside)).
Proof.
  apply (spinlock_mutex 2 1 [Inside; AtExchange]).
  eapply rtc_l; [apply (sp_call 0 [Outside; Outside] 0%nat); reflexivity|].
  eapply rtc_l; [apply (sp_call 0 [AtExchange; Outside] 1%nat); reflexivity|].
  eapply rtc_l; [eapply (sp_acquire 0 [AtExchange; AtExchange] 0%nat); [reflexivity|left; reflexivity|reflexivity]|].
  apply rtc_refl.
Defined.

(** ** Semaphores

    The count and the state of the threads that wait for it. *)
Record semaphore := mk_semaphore { sem_lock : Z; blocked : list nat }.

Definition semaphore_create (init_count : Z) (o : mem) : option (option semaphore * mem) :=
  '(ok, o) ← malloc o;
  Some (if ok : bool then Some (mk_semaphore init_count []) else None, o).

(** The threads whose state becomes running. *)
Definition semaphore_free (sem : semaphore) (running : nat -> bool) : nat -> bool :=
  fold_left (fun st t => fun i => bool_decide (i = t) || st i) (blocked sem) running.

Definition semaphore_signal (sem : semaphore) : semaphore :=
  mk_semaphore (s32 (sem_lock sem + 1)) (blocked sem).

(** The two atomic actions of [semaphore_wait]. *)
Inductive sem_pc := AtLoad | AtSub | Passed.

Definition semaphore_wait_step (sem : semaphore) (pc : sem_pc) : semaphore * sem_pc :=
  match pc with
  | AtLoad => (sem, if truthy (sem_lock sem) then AtSub else AtLoad)
  | AtSub => (mk_semaphore (s32 (sem_lock sem - 1)) (blocked sem), Passed)
  | Passed => (sem, Passed)
  end.

(** One thread that waits again and again, with signals from others; the
    counters are of the waits that passed and of the signals. *)
Inductive sem_step : semaphore * sem_pc * Z * Z -> semaphore * sem_pc * Z * Z -> Prop :=
| ss_signal sem pc p g : sem_step (sem, pc, p, g) (semaphore_signal sem, pc, p, g + 1)
| ss_load sem p g : sem_step (sem, AtLoad, p, g) (semaphore_wait_step sem AtLoad, p, g)
| ss_sub sem p g : sem_step (sem, AtSub, p, g) (semaphore_wait_step sem AtSub, p + 1, g)
| ss_again sem p g : sem_step (sem, Passed, p, g) (sem, AtLoad, p, g).

(** As long as the count fits its type. *)
Definition sem_ok (init : Z) (s : semaphore * sem_pc * Z * Z) : Prop :=
  let '(sem, pc, p, g) := s in
  0 <= g /\ (init + g < 2 ^ 31 ->
    0 <= p <= init + g /\ sem_lock sem = init + g - p /\ (pc = AtSub -> p < init + g)).

Lemma s32_id x : - 2 ^ 31 <= x < 2 ^ 31 -> s32 x = x.
Proof. intros Hx. unfold swrap. destruct (Z.ltb_spec (x mod 2 ^ 32) (2 ^ (32 - 1))); divlia. Qed.

Lemma sem_ok_step init s s' : 0 <= init -> sem_step s s' -> sem_ok init s -> sem_ok init s'.
Proof.
  intros Hi Hs. destruct Hs as [sem pc p g|sem p g|sem p g|sem p g]; intros [Hg Hok]; split; try lia; intros Hb;
    destruct Hok as (Hp & Hl & Hat); try lia.
  - simpl. rewrite Hl, s32_id by lia. split_and!; try lia; intros E; specialize (Hat E); lia.
  - simpl. split; [done|]. split; [done|]. unfold truthy. rewrite Hl.
    destruct (Z.eqb_spec (init + g - p) 0); [done|]. intros _. lia.
  - simpl. specialize (Hat eq_refl). rewrite Hl, s32_id by lia. split_and!; try lia. done.
  - split; [done|]. split; [done|]. discriminate.
Qed.

(** With one waiting thread a semaphore counts: the waits that passed never
    exceed the initial count and the signals, and the stored count is the
    difference, never negative. *)
Theorem semaphore_counts init sem pc p g :
  0 <= init -> rtc sem_step (mk_semaphore init [], AtLoad, 0, 0) (sem, pc, p, g) -> init + g < 2 ^ 31 ->
  0 <= p <= init + g /\ sem_lock sem = init + g - p.
Proof.
  intros Hi Hr Hb.
  assert (sem_ok init (sem, pc, p, g)) as [_ Hok].
  { refine (rtc_invariant _ _ (fun x y => sem_ok_step init x y Hi) _ _ Hr _).
    split; [lia|]. intros _. simpl. split_and!; try lia. done. }
  destruct (Hok Hb) as (? & ? & _). done.
Qed.

Lemma semaphore_counts_witness :
  0 <= 1 <= 0 + 1 /\ sem_lock (mk_semaphore 0 []) = 0 + 1 - 1.
Proof.
  apply (semaphore_counts 0 (mk_semaphore 0 []) Passed 1 1); [lia| |reflexivity].
  eapply rtc_l; [apply ss_signal|]. eapply rtc_l; [apply ss_load|]. eapply rtc_l; [apply ss_sub|]. apply rtc_refl.
Defined.

(** ** Defects *)

(** The load and the subtraction are two actions: two threads pass a semaphore
    of count 1, and the count becomes -1. *)
Lemma semaphore_race :
  let sem := mk_semaphore 1 [] in
  let '(sem, t1) := semaphore_wait_step sem AtLoad in
  let '(sem, t2) := semaphore_wait_step sem AtLoad in
  let '(sem, t1) := semaphore_wait_step sem t1 in
  let '(sem, t2) := semaphore_wait_step sem t2 in
  (t1, t2, sem_lock sem) = (Passed, Passed, -1).
Proof. reflexivity. Qed.
End Lock.
