(* ===== verification/PhysMem.v ===== *)
(** * Physical memory and page frames (arch/x86_64/mm.c)

    Module [PhysMem]: the physical memory that the kernel reaches through its
    direct map, the memory map of the boot loader, and the allocator of page
    frames with its table of reference counts. *)

From S2P Require Import Prelude CBits.

Module PhysMem.
Import CBits.

Abbreviation PAGE_SIZE := 0x1000.
Abbreviation PAGE_STRUCT_SIZE := 4096.
Abbreviation PAGE_STRUCT_ENTRIES := 512.

(** [struct mem_region] *)
Record mem_region := mk_region { r_base : Z; r_len : Z }.

(** The state of mm.c. The code reads and writes memory by words of eight bytes
    and by whole frames: [mem] holds the word at each address that is a multiple
    of eight, as a map from the address divided by eight; words that are not in
    the map are zero. An address [PHYS_REL (a)] is represented by [a]; accesses
    from [mem_size] on are outside of the physical memory. [table] is
    [phys_alloc_table], the counts of the frames. *)
Record vm := mk_vm {
  mem : gmap Z Z; mem_size : Z;
  table : list Z; next_phys_addr : Z; mem_avail : bool;
  regions : list mem_region; curr : Z
}.

Definition set_mem (v : vm) (x : gmap Z Z) : vm :=
  mk_vm x (mem_size v) (table v) (next_phys_addr v) (mem_avail v) (regions v) (curr v).
Definition set_table (v : vm) (x : list Z) : vm :=
  mk_vm (mem v) (mem_size v) x (next_phys_addr v) (mem_avail v) (regions v) (curr v).
Definition set_next (v : vm) (x : Z) : vm :=
  mk_vm (mem v) (mem_size v) (table v) x (mem_avail v) (regions v) (curr v).
Definition set_avail (v : vm) (x : bool) : vm :=
  mk_vm (mem v) (mem_size v) (table v) (next_phys_addr v) x (regions v) (curr v).
Definition set_curr (v : vm) (x : Z) : vm :=
  mk_vm (mem v) (mem_size v) (table v) (next_phys_addr v) (mem_avail v) (regions v) x.

(** ** Words and frames *)

Definition word (v : vm) (a : Z) : Z := default 0 (mem v !! (a / 8)).
Definition accessible (v : vm) (a n : Z) : bool := (0 <=? a) && (a + n <=? mem_size v).

Definition load (a : Z) : M vm Z := fun v =>
  if accessible v a 8 && (a mod 8 =? 0) then Some (word v a, v) else None.
Definition store (a x : Z) : M vm unit := fun v =>
  if accessible v a 8 && (a mod 8 =? 0) then Some (tt, set_mem v (<[a / 8 := u64 x]> (mem v))) else None.

(** [n] words from address [a] on, given by their number. *)
Fixpoint fill (m : gmap Z Z) (a : Z) (f : Z -> Z) (n : nat) : gmap Z Z :=
  match n with O => m | S n => <[a / 8 + Z.of_nat n := f (Z.of_nat n)]> (fill m a f n) end.

(** [memset (PHYS_REL (a), 0, PAGE_SIZE)] and [memcpy] of a frame. *)
Definition zero_frame (a : Z) : M vm unit := fun v =>
  if accessible v a PAGE_SIZE && (a mod 8 =? 0) then Some (tt, set_mem v (fill (mem v) a (fun _ => 0) 512)) else None.
Definition copy_frame (dst src : Z) : M vm unit := fun v =>
  if accessible v dst PAGE_SIZE && (dst mod 8 =? 0) && accessible v src PAGE_SIZE && (src mod 8 =? 0)
  then Some (tt, set_mem v (fill (mem v) dst (fun i => word v (src + 8 * i)) 512)) else None.

(** ** Page frames *)

Definition count (v : vm) : Z := zlen (regions v).

(** The loop over the holes of the memory map; [true] when it returned. *)
Fixpoint skip_holes (fuel : nat) : M vm bool :=
  v ← gets (fun v => v);
  if negb (curr v <? u64 (count v - 1)) then mret false else
  match fuel with
  | O => fault
  | S fuel =>
      r ← lift ((regions v).[curr v]);
      n ← lift ((regions v).[curr v + 1]);
      if (u64 (r_base r + r_len r) <=? next_phys_addr v) && (next_phys_addr v <? r_base n)
      then modify (fun v => set_next v (r_base n));; mret true
      else modify (fun v => set_curr v (curr v + 1));; skip_holes fuel
  end.

Definition vm_next_page : M vm unit :=
  v ← gets (fun v => v);
  found ← skip_holes (length (regions v));
  if found : bool then mret tt else
  v ← gets (fun v => v);
  r ← lift ((regions v).[count v - 1]);
  if next_phys_addr v <? u64 (r_base r + r_len r)
  then modify (fun v => set_curr v (count v - 1));; modify (fun v => set_next v (u64 (next_phys_addr v + PAGE_SIZE)))
  else modify (fun v => set_avail v false).

Definition page_count (addr : Z) : M vm Z := v ← gets (fun v => v); lift ((table v).[addr / PAGE_SIZE]).
Definition set_page_count (addr c : Z) : M vm unit :=
  v ← gets (fun v => v); t ← lift ((table v).[addr / PAGE_SIZE <- u32 c]); modify (fun v => set_table v t).

(** [while (mem_avail)], bounded by [fuel]. *)
Fixpoint alloc_page (fuel : nat) : M vm Z :=
  match fuel with
  | O => fault
  | S fuel =>
      v ← gets (fun v => v);
      if negb (mem_avail v) then mret 0 else
      c ← page_count (next_phys_addr v);
      if c =? 0 then
        set_page_count (next_phys_addr v) (c + 1);; vm_next_page;; mret (next_phys_addr v)
      else vm_next_page;; alloc_page fuel
  end.

Definition ref_page (addr : Z) : M vm unit :=
  if addr =? 0 then mret tt else
  c ← page_count addr;
  if c =? 0 then mret tt else set_page_count addr (c + 1).

(** [while (mmap.curr && mmap.regions[mmap.curr].base > next_phys_addr) mmap.curr--] *)
Fixpoint curr_back (fuel : nat) : M vm unit :=
  v ← gets (fun v => v);
  if curr v =? 0 then mret tt else
  match fuel with
  | O => fault
  | S fuel =>
      r ← lift ((regions v).[curr v]);
      if next_phys_addr v <? r_base r then modify (fun v => set_curr v (curr v - 1));; curr_back fuel
      else mret tt
  end.

Definition free_page (addr : Z) : M vm unit :=
  if addr =? 0 then mret tt else
  let addr := ALIGN_DOWN addr PAGE_SIZE in
  c ← page_count addr;
  (if c =? 0 then mret tt else set_page_count addr (c - 1));;
  c ← page_count addr;
  v ← gets (fun v => v);
  if (c =? 0) && (addr <? next_phys_addr v)
  then modify (fun v => set_next v addr);; curr_back (length (regions v))
  else mret tt.

(** The result of [alloc_virtual_page], as a physical address; zero is NULL. *)
Definition alloc_virtual_page (fuel : nat) : M vm Z := alloc_page fuel.
Definition free_virtual_page (addr : Z) : M vm unit := free_page addr.

(** [mark_resv_mem_alloc]: [for (i = 0; i < n; i++) table[i].count = 1], then a
    memset of [len] bytes on the entries that follow, four bytes each. *)
Definition zero_bytes (l : list Z) (len : Z) : list Z :=
  let full := Z.to_nat (len / 4) in
  replicate (Nat.min full (length l)) 0 ++
  match drop full l with
  | [] => []
  | x :: l => Z.shiftl (Z.shiftr x (8 * (len mod 4))) (8 * (len mod 4)) :: l
  end.

Definition mark_resv_mem_alloc (total_phys_mem : Z) : M vm unit :=
  v ← gets (fun v => v);
  let n := next_phys_addr v / PAGE_SIZE in
  let len := u64 (total_phys_mem - next_phys_addr v) / PAGE_SIZE in
  if (zlen (table v) <? n) || (4 * (zlen (table v) - n) <? len) then fault else
  modify (fun v => set_table v (replicate (Z.to_nat n) 1 ++ zero_bytes (drop (Z.to_nat n) (table v)) len)).

(** ** The allocator *)

(** What advancing to the next frame leaves alone. *)
Record same_frames (v v' : vm) : Prop := {
  sf_mem : mem v' = mem v;
  sf_size : mem_size v' = mem_size v;
  sf_table : table v' = table v;
  sf_regions : regions v' = regions v
}.

Lemma same_frames_refl v : same_frames v v.
Proof. by split. Qed.

Lemma same_frames_trans v1 v2 v3 : same_frames v1 v2 -> same_frames v2 v3 -> same_frames v1 v3.
Proof. intros [] []. split; congruence. Qed.

(** Frame number [f] has the count [c]. *)
Definition frame_count (v : vm) (f : Z) : Z := default 0 ((table v).[f]).

Definition region_ok (n : Z) (r : mem_region) : Prop :=
  0 <= r_base r /\ 0 <= r_len r /\ r_base r mod PAGE_SIZE = 0 /\ r_base r + r_len r <= PAGE_SIZE * (n - 1).

Record frames_ok (v : vm) : Prop := {
  fo_regions : 0 < count v < 2 ^ 32;
  fo_curr : 0 <= curr v < count v;
  fo_next : 0 <= next_phys_addr v <= PAGE_SIZE * (zlen (table v) - 1);
  fo_aligned : next_phys_addr v mod PAGE_SIZE = 0;
  fo_region : forall i r, (regions v).[i] = Some r -> region_ok (zlen (table v)) r;
  fo_size : PAGE_SIZE * zlen (table v) <= mem_size v <= 2 ^ 52;
  fo_counts : forall f c, (table v).[f] = Some c -> 0 <= c < 2 ^ 32;
  fo_zero : 0 < frame_count v 0
}.

(** The end of the last region. *)
Definition last_end (v : vm) : Z :=
  match (regions v).[count v - 1] with Some r => r_base r + r_len r | None => 0 end.

Lemma region_in v i : frames_ok v -> 0 <= i < count v -> exists r, (regions v).[i] = Some r /\ region_ok (zlen (table v)) r.
Proof. intros Hok Hi. destruct (zlookup_lt_Some _ _ Hi) as [r Hr]. exists r. split; [done|]. by eapply fo_region. Qed.

Lemma skip_holes_ok n : forall v, frames_ok v -> count v - 1 - curr v <= Z.of_nat n ->
  exists b v', skip_holes n v = Some (b, v') /\ frames_ok v' /\ same_frames v v' /\ mem_avail v' = mem_avail v /\
    if b : bool then next_phys_addr v < next_phys_addr v' /\ 1 < count v
    else next_phys_addr v' = next_phys_addr v.
Proof.
  induction n as [|n IH]; intros v Hok Hn; pose proof Hok as [Hr Hc Hx Ha Hreg Hs Hcnt Hz]; cbn [skip_holes]; rewrite gets_run;
    rewrite (wrap_small 64 (count v - 1)) by lia; destruct (Z.ltb_spec (curr v) (count v - 1)); cbn [negb]; try lia.
  1,3: exists false, v; split_and!; [done..|by apply same_frames_refl|done|done].
  destruct (region_in v (curr v) Hok ltac:(lia)) as (r & Hr1 & Hr2).
  destruct (region_in v (curr v + 1) Hok ltac:(lia)) as (r' & Hr1' & Hr2').
  rewrite Hr1, Hr1', !(bind_run (lift (Some _)) _ v _ v eq_refl). destruct (_ && _) eqn:E.
  - apply andb_prop in E as [_ E]. destruct Hr2' as (B1 & B2 & B3 & B4).
    eexists true, _. split; [reflexivity|]. split_and!; [|by split|done|cbn; lia|lia].
    split; try done. cbn. lia.
  - rewrite modify_run. set (v1 := set_curr v (curr v + 1)).
    assert (frames_ok v1) as Hok1 by (split; try done; cbn; unfold count in *; cbn; lia).
    destruct (IH v1 Hok1) as (b & v' & H1 & H2 & H3 & H4 & H5); [change (count v1) with (count v); cbn; lia|].
    exists b, v'. split_and!; [done..| |done|done]. destruct H3. by split.
Qed.

Lemma vm_next_page_ok v : frames_ok v ->
  exists v', vm_next_page v = Some (tt, v') /\ frames_ok v' /\ same_frames v v' /\
    (next_phys_addr v < next_phys_addr v' /\ mem_avail v' = mem_avail v \/
     next_phys_addr v' = next_phys_addr v /\ mem_avail v' = false) /\
    (count v = 1 -> if next_phys_addr v <? last_end v then next_phys_addr v' = next_phys_addr v + PAGE_SIZE /\ mem_avail v' = mem_avail v
                    else mem_avail v' = false).
Proof.
  intros Hok. unfold vm_next_page. rewrite gets_run.
  destruct (skip_holes_ok (length (regions v)) v Hok) as (b & v1 & H1 & Hok1 & SF & Ha & HQ).
  { destruct Hok as [_ ? _ _ _ _ _ _]. unfold count, zlen in *. lia. }
  rewrite (bind_run _ _ _ _ _ H1). destruct b.
  { exists v1. split_and!; [done..|left; split; [lia|done]|]. intros. lia. }
  rewrite gets_run. pose proof Hok1 as [Hr Hc Hx Hal Hreg Hs Hcnt Hz].
  assert (count v1 = count v /\ last_end v1 = last_end v) as [Ec El].
  { unfold last_end, count. by rewrite (sf_regions _ _ SF). }
  destruct (region_in v1 (count v1 - 1) Hok1 ltac:(lia)) as (r & Hr1 & (B1 & B2 & B3 & B4)).
  rewrite Hr1, (bind_run (lift (Some _)) _ v1 _ v1 eq_refl). rewrite (wrap_small 64 (r_base r + r_len r)) by lia.
  assert (last_end v = r_base r + r_len r) as Ele by (rewrite <- El; unfold last_end; by rewrite Hr1).
  rewrite Ele, HQ. destruct (Z.ltb_spec (next_phys_addr v) (r_base r + r_len r)).
  - rewrite modify_run. eexists. split; [reflexivity|]. cbn [next_phys_addr set_next set_curr mem_avail].
    rewrite HQ. rewrite (wrap_small 64) by lia.
    split_and!; [|destruct SF; by split|left; split; [lia|done]|done].
    split; try done; cbn [set_next set_curr next_phys_addr count regions curr table]; rewrite ?HQ in *; [unfold count in *; cbn; lia| |].
    + split; [lia|]. enough (next_phys_addr v + PAGE_SIZE <= PAGE_SIZE * (zlen (table v1) - 1)) by done. divlia.
    + divlia.
  - eexists. split; [reflexivity|]. split_and!; [|destruct SF; by split|right; done|done]. by split.
Qed.
(** Changing one count. *)
Lemma set_count_ok v f c : frames_ok v -> 0 <= f < zlen (table v) -> 0 <= c < 2 ^ 32 -> (f = 0 -> 0 < c) ->
  exists t, (table v).[f <- u32 c] = Some t /\ zlen t = zlen (table v) /\ frames_ok (set_table v t) /\
    forall g, frame_count (set_table v t) g = if g =? f then c else frame_count v g.
Proof.
  intros Hok Hf Hc H0. rewrite (wrap_small 32) by done. exists (<[Z.to_nat f := c]> (table v)).
  assert ((table v).[f <- c] = Some (<[Z.to_nat f := c]> (table v))) as Hst by (by apply zstore_lt).
  pose proof (zstore_len _ _ _ _ Hst) as Hlen.
  assert (forall g, frame_count (set_table v (<[Z.to_nat f := c]> (table v))) g = if g =? f then c else frame_count v g) as Hfc.
  { intros g. unfold frame_count. cbn [table set_table]. rewrite (zlookup_zstore _ _ _ _ g Hst). by destruct (g =? f). }
  split_and!; [done..| |done]. destruct Hok as [R1 R2 R3 R4 R5 R6 R7 R8].
  split; cbn [table set_table regions curr next_phys_addr mem_size count]; rewrite ?Hlen; try done.
  - intros g x. rewrite (zlookup_zstore _ _ _ _ g Hst). destruct (g =? f); [by intros [= <-]|apply R7].
  - rewrite Hfc. destruct (Z.eqb_spec 0 f) as [<-|]; [by apply H0|done].
Qed.

Lemma page_count_run v a : frames_ok v -> 0 <= a / PAGE_SIZE < zlen (table v) ->
  page_count a v = Some (frame_count v (a / PAGE_SIZE), v) /\ 0 <= frame_count v (a / PAGE_SIZE) < 2 ^ 32.
Proof.
  intros Hok Ha. destruct (zlookup_lt_Some _ _ Ha) as [c Hc]. unfold page_count. rewrite gets_run. unfold frame_count. rewrite Hc.
  split; [done|]. by eapply fo_counts.
Qed.

Lemma set_page_count_run v a c : frames_ok v -> 0 <= a / PAGE_SIZE < zlen (table v) -> 0 <= c < 2 ^ 32 -> (a / PAGE_SIZE = 0 -> 0 < c) ->
  exists t, set_page_count a c v = Some (tt, set_table v t) /\ zlen t = zlen (table v) /\ frames_ok (set_table v t) /\
    forall g, frame_count (set_table v t) g = if g =? a / PAGE_SIZE then c else frame_count v g.
Proof.
  intros Hok Ha Hc H0. destruct (set_count_ok v _ c Hok Ha Hc H0) as (t & Ht & Hrest). exists t. split; [|done].
  unfold set_page_count. by rewrite gets_run, Ht.
Qed.

(** A frame number of an address below the table's end. *)
Lemma next_frame v : frames_ok v -> 0 <= next_phys_addr v / PAGE_SIZE < zlen (table v).
Proof. intros [? ? Hx ? ? ? ? ?]. divlia. Qed.

(** What an allocation does: nothing is left, or a frame that nobody used is
    handed out. *)
Definition alloc_effect (v : vm) (a : Z) (v' : vm) : Prop :=
  frames_ok v' /\ mem v' = mem v /\ mem_size v' = mem_size v /\ zlen (table v') = zlen (table v) /\
  (a = 0 /\ table v' = table v /\ mem_avail v' = false \/
   0 < a /\ a mod PAGE_SIZE = 0 /\ a / PAGE_SIZE < zlen (table v) /\ frame_count v (a / PAGE_SIZE) = 0 /\
   forall f, frame_count v' f = if f =? a / PAGE_SIZE then 1 else frame_count v f).

Definition lowest (v : vm) (a : Z) : Prop :=
  count v = 1 -> mem_avail v = true -> forall f, next_phys_addr v <= PAGE_SIZE * f ->
  (if a =? 0 then PAGE_SIZE * f <= last_end v else PAGE_SIZE * f < a) -> 0 < frame_count v f.

(** The frames that the allocator has passed are in use. *)
Definition passed (v v' : vm) : Prop :=
  regions v' = regions v /\
  (count v = 1 -> forall f, next_phys_addr v <= PAGE_SIZE * f < next_phys_addr v' -> 0 < frame_count v' f).

Lemma alloc_page_ok fuel : forall v, frames_ok v -> zlen (table v) - next_phys_addr v / PAGE_SIZE < Z.of_nat fuel ->
  exists a v', alloc_page fuel v = Some (a, v') /\ alloc_effect v a v' /\ lowest v a /\ passed v v'.
Proof.
  induction fuel as [|fuel IH]; intros v Hok Hf; pose proof (next_frame v Hok) as Hn; [lia|].
  cbn [alloc_page]. rewrite gets_run. destruct (mem_avail v) eqn:Ea; cbn [negb].
  2: { exists 0, v. split; [done|]. split; [by split_and!; try left|]. split; [intros ? Ht; congruence|].
    split; [done|]. intros; lia. }
  destruct (page_count_run v (next_phys_addr v) Hok Hn) as [Hp Hc]. rewrite (bind_run _ _ _ _ _ Hp).
  pose proof Hok as [R1 R2 R3 R4 R5 R6 R7 R8]. destruct (Z.eqb_spec (frame_count v (next_phys_addr v / PAGE_SIZE)) 0) as [E|E].
  - destruct (set_page_count_run v (next_phys_addr v) (frame_count v (next_phys_addr v / PAGE_SIZE) + 1) Hok Hn ltac:(lia) ltac:(lia))
      as (t & Ht & Hl & Hok1 & Hfc).
    rewrite (bind_run _ _ _ _ _ Ht). destruct (vm_next_page_ok _ Hok1) as (v' & Hv' & Hok' & [S1 S2 S3 S4] & Hadv & Hone).
    rewrite (bind_run _ _ _ _ _ Hv'). exists (next_phys_addr v), v'. split; [done|].
    assert (next_phys_addr v <> 0) as Hnz. { intros H0. rewrite H0 in E. change (0 / PAGE_SIZE) with 0 in E. lia. }
    split.
    + unfold alloc_effect. rewrite S1, S2, S3. cbn [mem mem_size table set_table]. split_and!; [done..|]. right.
      split_and!; [lia|done|lia|done|]. intros f. unfold frame_count at 1. rewrite S3.
      fold (frame_count (set_table v t) f). rewrite Hfc, E. done.
    + split; [intros _ _ f Hf1 Hf2; destruct (Z.eqb_spec (next_phys_addr v) 0); lia|]. split; [done|].
      intros Hc1 f Hf1. specialize (Hone Hc1). change (next_phys_addr (set_table v t)) with (next_phys_addr v) in Hone, Hadv.
      assert (f = next_phys_addr v / PAGE_SIZE) as ->.
      { destruct (next_phys_addr v <? last_end _); [divlia|]. destruct Hadv as [[_ ?]|[? _]]; [cbn in *; congruence|lia]. }
      unfold frame_count. rewrite S3. fold (frame_count (set_table v t) (next_phys_addr v / PAGE_SIZE)).
      rewrite Hfc, Z.eqb_refl, E. done.
  - destruct (vm_next_page_ok v Hok) as (v1 & Hv1 & Hok1 & [S1 S2 S3 S4] & Hadv & Hone). rewrite (bind_run _ _ _ _ _ Hv1).
    assert (0 < frame_count v (next_phys_addr v / PAGE_SIZE)) as Hused by lia.
    destruct Hadv as [[Hlt Hav]|[Heq Hav]].
    + destruct (IH v1 Hok1) as (a & v' & Ha & (X1 & X2 & X3 & X4 & X5) & Hlow & Hpr & Hpass).
      { rewrite S3. pose proof (fo_aligned _ Hok1). divlia. }
      exists a, v'. split; [done|]. unfold alloc_effect. rewrite S1, S2, S3 in *. split.
      * split_and!; [done..|]. unfold frame_count in X5. by rewrite S3 in X5.
      * assert (forall f, PAGE_SIZE * f = next_phys_addr v -> 0 < frame_count v f) as Hthis.
        { intros f Ef. replace f with (next_phys_addr v / PAGE_SIZE) by divlia. done. }
        assert (count v1 = count v) as Ec by (unfold count; by rewrite S4).
        split; [|split; [congruence|]].
        2: { intros Hc1 f Hf1. specialize (Hone Hc1).
          assert (next_phys_addr v1 = next_phys_addr v + PAGE_SIZE) as En by (destruct (_ <? _); [apply Hone|congruence]).
          destruct (Z.lt_ge_cases (PAGE_SIZE * f) (next_phys_addr v1)); [|apply Hpass; [congruence|lia]].
          assert (0 < frame_count v f) as Hfv by (apply Hthis; divlia).
          destruct X5 as [(_ & X5 & _)|(_ & _ & _ & X5a & X5)].
          - unfold frame_count in *. by rewrite X5.
          - rewrite X5. destruct (_ =? _); [lia|]. unfold frame_count. by rewrite S3. }
        intros Hc1 Hav1 f Hf1 Hf2. specialize (Hone Hc1).
        destruct (Z.eq_dec (PAGE_SIZE * f) (next_phys_addr v)) as [Ef|Ef].
        { by apply Hthis. }
        assert (last_end v1 = last_end v) as El by (unfold last_end, count; by rewrite S4).
        assert (frame_count v1 f = frame_count v f) as Efc by (unfold frame_count; by rewrite S3).
        rewrite <- Efc. apply Hlow; [congruence|congruence| |by rewrite El].
        destruct (next_phys_addr v <? last_end v); [divlia|congruence].
    + destruct fuel as [|fuel]; [lia|]. cbn [alloc_page]. rewrite gets_run, Hav. cbn [negb].
      exists 0, v1. split; [done|]. split; [split_and!; [done..|congruence|left; done]|].
      split; [|split; [done|]; intros; lia].
      intros Hc1 Hav1 f Hf1 Hf2. specialize (Hone Hc1). cbn in Hf2.
      destruct (Z.ltb_spec (next_phys_addr v) (last_end v)); [destruct Hone; lia|].
      replace f with (next_phys_addr v / PAGE_SIZE); [done|]. divlia.
Qed.
Lemma align_page a : 0 <= a < 2 ^ 64 -> ALIGN_DOWN a PAGE_SIZE = a / PAGE_SIZE * PAGE_SIZE.
Proof. apply (ALIGN_DOWN_spec a 12). lia. Qed.

(** What changing counts leaves alone. *)
Record counts_only (v v' : vm) : Prop := {
  co_mem : mem v' = mem v;
  co_size : mem_size v' = mem_size v;
  co_len : zlen (table v') = zlen (table v);
  co_avail : mem_avail v' = mem_avail v;
  co_regions : regions v' = regions v
}.

Lemma ref_page_ok v a : frames_ok v -> 0 < a -> a / PAGE_SIZE < zlen (table v) -> frame_count v (a / PAGE_SIZE) < 2 ^ 32 - 1 ->
  exists v', ref_page a v = Some (tt, v') /\ frames_ok v' /\ counts_only v v' /\ next_phys_addr v' = next_phys_addr v /\
    forall f, frame_count v' f = if (f =? a / PAGE_SIZE) && (0 <? frame_count v f) then frame_count v f + 1 else frame_count v f.
Proof.
  intros Hok Ha Hl Hc. assert (0 <= a / PAGE_SIZE) by (apply Z.div_pos; lia).
  destruct (page_count_run v a Hok ltac:(lia)) as [Hp Hr]. unfold ref_page. destruct (Z.eqb_spec a 0); [lia|].
  rewrite (bind_run _ _ _ _ _ Hp). destruct (Z.eqb_spec (frame_count v (a / PAGE_SIZE)) 0) as [E|E].
  - exists v. split_and!; [done..|by split|done|]. intros f. destruct (Z.eqb_spec f (a / PAGE_SIZE)) as [->|]; [|done].
    by rewrite E.
  - destruct (set_page_count_run v a (frame_count v (a / PAGE_SIZE) + 1) Hok) as (t & Ht & Htl & Hok' & Hf); [lia..|].
    eexists. split; [exact Ht|]. split_and!; [done|by split|done|]. intros f. rewrite Hf.
    destruct (Z.eqb_spec f (a / PAGE_SIZE)) as [->|]; [|done]. cbn [andb].
    destruct (Z.ltb_spec 0 (frame_count v (a / PAGE_SIZE))); lia.
Qed.

Lemma curr_back_ok n : forall v, frames_ok v -> curr v <= Z.of_nat n ->
  exists v', curr_back n v = Some (tt, v') /\ frames_ok v' /\ same_frames v v' /\ mem_avail v' = mem_avail v /\
    next_phys_addr v' = next_phys_addr v.
Proof.
  induction n as [|n IH]; intros v Hok Hn; pose proof Hok as [R1 R2 R3 R4 R5 R6 R7 R8]; cbn [curr_back]; rewrite gets_run;
    destruct (Z.eqb_spec (curr v) 0); try lia.
  1,2: exists v; split_and!; [done..|by split|done|done].
  destruct (region_in v (curr v) Hok R2) as (r & Hr & _). rewrite Hr, (bind_run (lift (Some _)) _ v _ v eq_refl).
  destruct (_ <? _); [|exists v; split_and!; [done..|by split|done|done]].
  rewrite modify_run. set (v1 := set_curr v (curr v - 1)).
  assert (frames_ok v1) as Hok1 by (split; try done; change (count v1) with (count v); cbn; lia).
  destruct (IH v1 Hok1) as (v' & H1 & H2 & [] & H4 & H5); [cbn; lia|]. exists v'. split_and!; [done..|by split|done|done].
Qed.

Lemma free_page_ok v a : frames_ok v -> PAGE_SIZE <= a < 2 ^ 64 -> a / PAGE_SIZE < zlen (table v) ->
  exists v', free_page a v = Some (tt, v') /\ frames_ok v' /\ counts_only v v' /\
    (forall f, frame_count v' f = if f =? a / PAGE_SIZE then Z.max 0 (frame_count v f - 1) else frame_count v f) /\
    next_phys_addr v' = if (frame_count v (a / PAGE_SIZE) <=? 1) && (a / PAGE_SIZE * PAGE_SIZE <? next_phys_addr v)
                        then a / PAGE_SIZE * PAGE_SIZE else next_phys_addr v.
Proof.
  intros Hok Ha Hl. assert (1 <= a / PAGE_SIZE) as Hf1 by (apply Z.div_le_lower_bound; lia).
  unfold free_page. destruct (Z.eqb_spec a 0); [lia|]. cbv zeta. rewrite align_page by lia.
  set (f := a / PAGE_SIZE) in *. assert (f * PAGE_SIZE / PAGE_SIZE = f) as Ef by (by rewrite Z.div_mul).
  destruct (page_count_run v (f * PAGE_SIZE) Hok) as [Hp Hr]; [rewrite Ef; lia|]. rewrite Ef in *.
  rewrite (bind_run _ _ _ _ _ Hp).
  assert (exists v1, (if frame_count v f =? 0 then mret tt else set_page_count (f * PAGE_SIZE) (frame_count v f - 1)) v = Some (tt, v1) /\
    frames_ok v1 /\ counts_only v v1 /\ next_phys_addr v1 = next_phys_addr v /\ curr v1 = curr v /\
    forall g, frame_count v1 g = if g =? f then Z.max 0 (frame_count v g - 1) else frame_count v g) as (v1 & H1 & Hok1 & C1 & N1 & K1 & F1).
  { destruct (Z.eqb_spec (frame_count v f) 0) as [E|E].
    - exists v. split_and!; [done..|by split|done|done|]. intros g. destruct (Z.eqb_spec g f) as [->|]; lia.
    - destruct (set_page_count_run v (f * PAGE_SIZE) (frame_count v f - 1) Hok) as (t & Ht & Htl & Hok' & Hf); rewrite ?Ef in *; [lia..|].
      eexists. split; [exact Ht|]. split_and!; [done|by split|done|done|]. intros g. rewrite Hf.
      destruct (Z.eqb_spec g f) as [->|]; lia. }
  rewrite (bind_run _ _ _ _ _ H1). pose proof C1 as [C11 C12 C13 C14 C15].
  destruct (page_count_run v1 (f * PAGE_SIZE) Hok1) as [Hp1 Hr1]; [rewrite Ef, C13; lia|]. rewrite Ef in *.
  rewrite (bind_run _ _ _ _ _ Hp1), gets_run, N1. rewrite (F1 f), Z.eqb_refl.
  assert ((Z.max 0 (frame_count v f - 1) =? 0) = (frame_count v f <=? 1)) as -> by lia.
  destruct (_ && _) eqn:E; [|by exists v1]. apply andb_prop in E as [E1 E2].
  rewrite modify_run. set (v2 := set_next v1 (f * PAGE_SIZE)).
  assert (frames_ok v2) as Hok2.
  { destruct Hok1. split; try done; cbn [v2 next_phys_addr set_next table]; [rewrite C13; lia|]. by apply Z.mod_mul. }
  destruct (curr_back_ok (length (regions v1)) v2 Hok2) as (v' & H2 & Hok' & [S1 S2 S3 S4] & A & N).
  { destruct Hok1. cbn. unfold count, zlen in *. lia. }
  exists v'. split_and!; [done..| | |done].
  - split; rewrite ?S1, ?S2, ?S3, ?S4, ?A; done.
  - intros g. unfold frame_count at 1. rewrite S3. apply F1.
Qed.
(** ** Histories

    [H f] is the number of references to frame [f] that were given out and not
    given back. References are added and freed by their holders. *)
Definition bump (H : Z -> Z) (f d : Z) : Z -> Z := fun g => if g =? f then H g + d else H g.

Inductive frame_step (fuel : nat) : vm * (Z -> Z) -> vm * (Z -> Z) -> Prop :=
  | step_alloc v H a v' : alloc_page fuel v = Some (a, v') ->
      frame_step fuel (v, H) (v', if a =? 0 then H else bump H (a / PAGE_SIZE) 1)
  | step_ref v H a v' : 0 < H (a / PAGE_SIZE) -> frame_count v (a / PAGE_SIZE) < 2 ^ 32 - 1 -> ref_page a v = Some (tt, v') ->
      frame_step fuel (v, H) (v', bump H (a / PAGE_SIZE) 1)
  | step_free v H a v' : a < 2 ^ 64 -> 0 < H (a / PAGE_SIZE) -> free_page a v = Some (tt, v') ->
      frame_step fuel (v, H) (v', bump H (a / PAGE_SIZE) (-1)).

(** No frame below the next one to try is free. *)
Definition low (v : vm) : Prop := forall f, 0 <= f -> PAGE_SIZE * f < next_phys_addr v -> 0 < frame_count v f.

(** The invariant of histories that start at [v0]. *)
Record accounted_frames (v0 v : vm) (H : Z -> Z) : Prop := {
  af_start : frames_ok v0;
  af_ok : frames_ok v;
  af_len : zlen (table v) = zlen (table v0);
  af_regions : regions v = regions v0;
  af_counts : forall f, frame_count v f = frame_count v0 f + H f;
  af_held : forall f, 0 <= H f /\ (0 < H f -> 0 < f < zlen (table v0));
  af_low : count v0 = 1 -> low v
}.

Lemma low_passed v v' : low v -> count v = 1 -> passed v v' -> (forall f, frame_count v f <= frame_count v' f) -> low v'.
Proof.
  intros Hlow Hc [_ Hp] Hm f Hf Hlt. destruct (Z.lt_ge_cases (PAGE_SIZE * f) (next_phys_addr v)).
  - specialize (Hlow f Hf ltac:(lia)). specialize (Hm f). lia.
  - apply Hp; [done|lia].
Qed.

Lemma frame_count_nonneg v f : frames_ok v -> 0 <= frame_count v f.
Proof.
  intros Hok. unfold frame_count. destruct ((table v).[f]) eqn:E; [|done]. cbn. by apply (fo_counts _ Hok) in E as [? _].
Qed.

Lemma alloc_inv fuel v0 v H a v' : alloc_page fuel v = Some (a, v') -> accounted_frames v0 v H ->
  zlen (table v0) < Z.of_nat fuel -> accounted_frames v0 v' (if a =? 0 then H else bump H (a / PAGE_SIZE) 1).
Proof.
  intros Ha [Hok0 Hok Hl Hr Hc Hh Hlow] Hf. pose proof (next_frame _ Hok) as Hn.
  destruct (alloc_page_ok fuel v Hok ltac:(lia)) as (a' & w & Ha' & (E1 & E2 & E3 & E4 & E5) & _ & Hp).
  rewrite Ha in Ha'. injection Ha' as <- <-. unfold bump.
  assert (count v = count v0) as Ecv by (unfold count; by rewrite Hr).
  destruct E5 as [(-> & Et & _)|(P1 & P2 & P3 & P4 & P5)].
  - assert (forall f, frame_count v' f = frame_count v f) as Efc by (intros f; unfold frame_count; by rewrite Et).
    cbn. split; [done|done|congruence|destruct Hp; congruence|intros f; by rewrite Efc|done|].
    intros Hc1. eapply low_passed; [by apply Hlow|congruence|done|]. intros f. rewrite Efc. lia.
  - destruct (Z.eqb_spec a 0); [lia|]. split; [done|done|congruence|destruct Hp; congruence| | |].
    + intros f. rewrite P5. specialize (Hc f). destruct (Z.eqb_spec f (a / PAGE_SIZE)) as [->|]; [|done]. lia.
    + intros f. destruct (Hh f) as [Hh1 Hh2]. destruct (Z.eqb_spec f (a / PAGE_SIZE)) as [->|]; [|done].
      split; [lia|]. intros _. rewrite <- Hl. divlia.
    + intros Hc1. eapply low_passed; [by apply Hlow|congruence|done|]. intros f. rewrite P5.
      destruct (Z.eqb_spec f (a / PAGE_SIZE)) as [->|]; lia.
Qed.

Lemma frame_step_inv fuel v0 x y : frame_step fuel x y -> accounted_frames v0 x.1 x.2 ->
  zlen (table v0) < Z.of_nat fuel -> accounted_frames v0 y.1 y.2.
Proof.
  intros [v H a v' Ha|v H a v' Hheld Hmax Ha|v H a v' Hmax Hheld Ha] Haf Hf; cbn [fst snd] in *; [by eapply alloc_inv| |];
    destruct Haf as [Hok0 Hok Hl Hr Hc Hh Hlow]; destruct (Hh (a / PAGE_SIZE)) as [_ Hin]; specialize (Hin Hheld);
    assert (0 <= frame_count v0 (a / PAGE_SIZE)) as Hnn by (by apply frame_count_nonneg);
    pose proof (Hc (a / PAGE_SIZE)) as Hca; assert (PAGE_SIZE <= a) as Hpos by divlia; unfold bump.
  - destruct (ref_page_ok v a Hok ltac:(lia) ltac:(lia) Hmax) as (w & Ha' & R1 & [R2 R3 R4 R5 R6] & R7 & R8).
    rewrite Ha in Ha'. injection Ha' as <-.
    assert (forall f, frame_count v' f = frame_count v f + if f =? a / PAGE_SIZE then 1 else 0) as Efc.
    { intros f. rewrite R8. destruct (Z.eqb_spec f (a / PAGE_SIZE)) as [->|]; cbn [andb]; [|lia].
      destruct (Z.ltb_spec 0 (frame_count v (a / PAGE_SIZE))); lia. }
    split; [done|done|congruence|congruence| | |].
    + intros f. rewrite Efc, Hc. destruct (f =? _); lia.
    + intros f. destruct (Hh f) as [? ?]. destruct (Z.eqb_spec f (a / PAGE_SIZE)) as [->|]; [|done]. split; [lia|done].
    + intros Hc1 f Hf1 Hf2. rewrite R7 in Hf2. specialize (Hlow Hc1 f Hf1 Hf2). rewrite Efc. destruct (_ =? _); lia.
  - destruct (free_page_ok v a Hok ltac:(lia) ltac:(lia)) as (w & Ha' & R1 & [R2 R3 R4 R5 R6] & R7 & R8).
    rewrite Ha in Ha'. injection Ha' as <-.
    assert (forall f, frame_count v' f = frame_count v f - if f =? a / PAGE_SIZE then 1 else 0) as Efc.
    { intros f. rewrite R7. destruct (Z.eqb_spec f (a / PAGE_SIZE)) as [->|]; lia. }
    split; [done|done|congruence|congruence| | |].
    + intros f. rewrite Efc, Hc. destruct (f =? _); lia.
    + intros f. destruct (Hh f) as [? ?]. destruct (Z.eqb_spec f (a / PAGE_SIZE)) as [->|]; [|done]. split; [lia|done].
    + intros Hc1 f Hf1 Hf2. rewrite R8 in Hf2.
      assert (PAGE_SIZE * f < next_phys_addr v /\ (frame_count v (a / PAGE_SIZE) <= 1 -> a / PAGE_SIZE * PAGE_SIZE < next_phys_addr v -> f < a / PAGE_SIZE)) as [Hfn Hfa].
      { destruct (Z.leb_spec (frame_count v (a / PAGE_SIZE)) 1), (Z.ltb_spec (a / PAGE_SIZE * PAGE_SIZE) (next_phys_addr v)); cbn [andb] in Hf2; lia. }
      specialize (Hlow Hc1 f Hf1 Hfn). rewrite Efc. destruct (Z.eqb_spec f (a / PAGE_SIZE)) as [->|]; [|lia].
      destruct (Z.lt_ge_cases (frame_count v (a / PAGE_SIZE)) 2); lia.
Qed.

Lemma history_accounted fuel v0 v H : frames_ok v0 -> (count v0 = 1 -> low v0) -> zlen (table v0) < Z.of_nat fuel ->
  rtc (frame_step fuel) (v0, fun _ => 0) (v, H) -> accounted_frames v0 v H.
Proof.
  intros Hok Hlow Hf Hr.
  apply (rtc_invariant (frame_step fuel) (fun x => accounted_frames v0 x.1 x.2)) with (x := (v0, fun _ => 0)) (y := (v, H)); [|done|].
  - intros x y Hs Hx. by eapply frame_step_inv.
  - split; [done|done|done|done|intros f; cbn; lia|intros f; cbn; lia|done].
Qed.

(** C6: in every history of allocations, added references and frees, the count
    of each frame is what it was at the start plus the references that are held,
    and an allocation ends and hands out a frame that nobody holds, or reports
    that memory is exhausted. *)
Theorem frames_exclusive fuel v0 v H :
  frames_ok v0 -> (count v0 = 1 -> low v0) -> zlen (table v0) < Z.of_nat fuel ->
  rtc (frame_step fuel) (v0, fun _ => 0) (v, H) ->
  (forall f, frame_count v f = frame_count v0 f + H f) /\
  exists a v', alloc_page fuel v = Some (a, v') /\
    (a = 0 /\ mem_avail v' = false \/
     0 < a /\ a mod PAGE_SIZE = 0 /\ H (a / PAGE_SIZE) = 0 /\ frame_count v0 (a / PAGE_SIZE) = 0).
Proof.
  intros Hok Hlow Hf Hr.
  destruct (history_accounted fuel v0 v H Hok Hlow Hf Hr) as [_ Hok' Hl _ Hc Hh _]. split; [done|]. pose proof (next_frame _ Hok').
  destruct (alloc_page_ok fuel v Hok' ltac:(lia)) as (a & v' & Ha & (_ & _ & _ & _ & E) & _). exists a, v'. split; [done|].
  destruct E as [(-> & _ & ?)|(P1 & P2 & _ & P4 & _)]; [by left|right]. split_and!; [done..| |];
    specialize (Hc (a / PAGE_SIZE)); destruct (Hh (a / PAGE_SIZE)); pose proof (frame_count_nonneg v0 (a / PAGE_SIZE) Hok); lia.
Qed.

(** On a machine with one region of memory the allocator always hands out
    the lowest free frame, and reports that memory is exhausted only when every
    frame of the region is in use. *)
Theorem lowest_frame_first fuel v0 v H :
  frames_ok v0 -> count v0 = 1 -> low v0 -> zlen (table v0) < Z.of_nat fuel ->
  rtc (frame_step fuel) (v0, fun _ => 0) (v, H) -> mem_avail v = true ->
  exists a v', alloc_page fuel v = Some (a, v') /\
    forall f, 0 <= f -> (if a =? 0 then PAGE_SIZE * f <= last_end v else PAGE_SIZE * f < a) -> 0 < frame_count v f.
Proof.
  intros Hok Hc1 Hlow Hf Hr Hav.
  destruct (history_accounted fuel v0 v H Hok (fun _ => Hlow) Hf Hr) as [_ Hok' Hl Hreg Hc Hh Hlow'].
  pose proof (next_frame _ Hok'). destruct (alloc_page_ok fuel v Hok' ltac:(lia)) as (a & v' & Ha & _ & Hlo & _).
  exists a, v'. split; [done|]. intros f Hf0 Hfa. destruct (Z.lt_ge_cases (PAGE_SIZE * f) (next_phys_addr v)); [by apply Hlow'|].
  apply Hlo; [|done|lia|done]. unfold count in *. by rewrite Hreg.
Qed.

(** ** Examples *)

(** Four frames of memory, of which the first two are reserved. *)
Definition demo_vm : vm := mk_vm ∅ 0x5000 [1; 1; 0; 0; 0] 0x2000 true [mk_region 0 0x4000] 0.

Lemma demo_frames_ok : frames_ok demo_vm.
Proof.
  split; [vm_compute; intuition discriminate..| |vm_compute; intuition discriminate| |vm_compute; reflexivity].
  - intros i r Hr. apply zlookup_Some_lt in Hr as Hi. change (zlen (regions demo_vm)) with 1 in Hi.
    replace i with 0 in Hr by lia. injection Hr as <-. vm_compute. intuition discriminate.
  - intros f c Hc. apply zlookup_Some_lt in Hc as Hf. change (zlen (table demo_vm)) with 5 in Hf.
    assert (f = 0 \/ f = 1 \/ f = 2 \/ f = 3 \/ f = 4) as [-> | [-> | [-> | [-> | ->]]]] by lia; injection Hc as <-; lia.
Qed.

Lemma demo_low : low demo_vm.
Proof.
  intros f Hf Hlt. cbn in Hlt. assert (f = 0 \/ f = 1) as [-> | ->] by lia; vm_compute; reflexivity.
Qed.

(** A run of allocations and frees. *)
Definition after {S A} (m : M S A) (s : S) : S := match m s with Some (_, s') => s' | None => s end.
Definition demo_vm1 := after (alloc_page 6) demo_vm.
Definition demo_vm2 := after (alloc_page 6) demo_vm1.
Definition demo_vm3 := after (free_page 0x2007) demo_vm2.

Lemma demo_history : rtc (frame_step 6) (demo_vm, fun _ => 0) (demo_vm3, bump (bump (bump (fun _ => 0) 2 1) 3 1) 2 (-1)).
Proof.
  apply rtc_l with (demo_vm1, bump (fun _ => 0) 2 1).
  { apply (step_alloc 6 demo_vm (fun _ => 0) 0x2000 demo_vm1). vm_compute. reflexivity. }
  apply rtc_l with (demo_vm2, bump (bump (fun _ => 0) 2 1) 3 1).
  { apply (step_alloc 6 demo_vm1 (bump (fun _ => 0) 2 1) 0x3000 demo_vm2). vm_compute. reflexivity. }
  apply rtc_once. apply (step_free 6 demo_vm2 (bump (bump (fun _ => 0) 2 1) 3 1) 0x2007 demo_vm3);
    [lia | vm_compute; reflexivity..].
Qed.

Lemma frames_exclusive_witness : exists a v', alloc_page 6 demo_vm3 = Some (a, v') /\ a = 0x2000 /\ frame_count demo_vm3 3 = 1.
Proof.
  destruct (frames_exclusive 6 demo_vm demo_vm3 _ demo_frames_ok (fun _ => demo_low) ltac:(vm_compute; reflexivity) demo_history)
    as (Hc & a & v' & Ha & _).
  exists a, v'. split; [exact Ha|]. split; [|rewrite Hc; vm_compute; reflexivity].
  vm_compute in Ha. congruence.
Defined.

Lemma lowest_frame_first_witness : exists a v', alloc_page 6 demo_vm3 = Some (a, v') /\ a = 0x2000 /\ 0 < frame_count demo_vm3 1.
Proof.
  destruct (lowest_frame_first 6 demo_vm demo_vm3 _ demo_frames_ok eq_refl demo_low ltac:(vm_compute; reflexivity) demo_history)
    as (a & v' & Ha & Hlow); [vm_compute; reflexivity|].
  assert (a = 0x2000) as -> by (vm_compute in Ha; congruence).
  exists 0x2000, v'. split; [exact Ha|]. split; [reflexivity|]. apply Hlow; [lia | vm_compute; reflexivity].
Defined.

(** ** What the allocator does not promise *)

(** The frame after the last one of memory is handed out. *)
Lemma alloc_page_past_end :
  option_map fst (alloc_page 6 demo_vm2) = Some 0x4000 /\ last_end demo_vm2 = 0x4000.
Proof. by vm_compute. Qed.

(** So are frames in a hole between two regions. *)
Lemma alloc_page_in_hole :
  let v := mk_vm ∅ 0x9000 [1; 1; 0; 0; 0; 0; 0; 0; 0] 0x2000 true [mk_region 0 0x3000; mk_region 0x5000 0x3000] 0 in
  option_map fst (alloc_page 10 (after (alloc_page 10) v)) = Some 0x3000.
Proof. by vm_compute. Qed.

(** Once memory was exhausted, freed frames are not handed out again. *)
Lemma exhausted_for_ever fuel v : mem_avail v = false -> alloc_page (S fuel) v = Some (0, v).
Proof. intros H. cbn [alloc_page]. rewrite gets_run, H. done. Qed.

Lemma free_page_keeps_exhausted v a v' : free_page a v = Some (tt, v') -> mem_avail v' = mem_avail v.
Proof.
  assert (forall n v v', curr_back n v = Some (tt, v') -> mem_avail v' = mem_avail v) as Hback.
  { induction n as [|n IH]; intros w w'; cbn [curr_back]; rewrite gets_run; destruct (curr w =? 0); try by intros [= <-].
    unfold lift, mbind, M_bind. destruct ((regions w).[curr w]); [|done]. destruct (_ <? _); [|by intros [= <-]].
    by intros ->%IH. }
  unfold free_page, page_count, set_page_count, gets, lift, modify, mbind, M_bind, mret, M_ret.
  destruct (a =? 0); [by intros [= <-]|]. destruct ((table v).[_]) as [c|]; [|done].
  destruct (c =? 0).
  - destruct ((table v).[_]); [|done]. destruct (_ && _); [|by intros [= <-]]. intros H. by apply Hback in H.
  - destruct ((table v).[_ <- _]) as [t|]; [|done]. cbn [table set_table].
    destruct (t.[_]); [|done]. destruct (_ && _); [|by intros [= <-]]. intros H. by apply Hback in H.
Qed.

(** The table is cleared by a number of bytes that is the number of entries, so
    three quarters of the entries keep what was in memory before. *)
Lemma reserved_table_garbage :
  table (after (mark_resv_mem_alloc 0x9000) (mk_vm ∅ 0x9000 (replicate 9 7) 0x1000 true [mk_region 0 0x9000] 0))
  = [1; 0; 0; 7; 7; 7; 7; 7; 7].
Proof. by vm_compute. Qed.

End PhysMem.
