(* ===== verification/Paging.v ===== *)
(** * Address spaces (arch/x86_64/mm.c)

    Module [Paging]: the four-level page tables of the processor, which live in
    physical memory: translation of virtual addresses, mapping and unmapping of
    pages, reference counts of whole address spaces, and the tables that the
    kernel sets up when it starts. A pointer to a table is represented by the
    physical address of the table. *)

From S2P Require Import Prelude CBits PhysMem.

Module Paging.
Import CBits PhysMem.

Abbreviation PAGE_FLAG_PRESENT := 0x1.
Abbreviation PAGE_FLAG_RW := 0x2.
Abbreviation PAGE_FLAG_USER := 0x4.
Abbreviation PAGE_FLAG_SIZE := 0x80.
Abbreviation PAGE_FLAG_GLOBAL := 0x100.
Abbreviation PAGE_FLAG_COW := 0x200.
Abbreviation LARGE_PAGE_SIZE := 0x200000.
Abbreviation HUGE_PAGE_SIZE := 0x40000000.
Abbreviation LOW_PHYSICAL_BASE_VMA := 0xfffffe0000000000.
Abbreviation THREAD_LOCAL_BASE_VMA := 0xfffffd0000000000.

Definition PML4T_INDEX (v : Z) : Z := Z.land (Z.shiftr v 39) 0x1ff.
Definition PDPT_INDEX (v : Z) : Z := Z.land (Z.shiftr v 30) 0x1ff.
Definition PDT_INDEX (v : Z) : Z := Z.land (Z.shiftr v 21) 0x1ff.
Definition PT_INDEX (v : Z) : Z := Z.land (Z.shiftr v 12) 0x1ff.
Definition PHYS_REL (x : Z) : Z := u64 (x + LOW_PHYSICAL_BASE_VMA).

Definition present (e : Z) : bool := truthy (Z.land e PAGE_FLAG_PRESENT).
Definition large (e : Z) : bool := truthy (Z.land e PAGE_FLAG_SIZE).
Definition cow (e : Z) : bool := truthy (Z.land e PAGE_FLAG_COW).

(** [v >> 48 != !!(pml4e & 0x100) * 0xffff] *)
Definition sign_extended (v : Z) : bool :=
  Z.shiftr v 48 =? (if truthy (Z.land (PML4T_INDEX v) 0x100) then 0xffff else 0).

(** The table that an entry points to. *)
Definition table_addr (e : Z) : Z := ALIGN_DOWN e PAGE_SIZE.

(** ** Translation *)

Definition vm_phys_addr (pml4t v : Z) : M vm Z :=
  if negb (sign_extended v) then mret 0 else
  e ← load (pml4t + 8 * PML4T_INDEX v);
  if negb (present e) then mret 0 else
  let pdpt := table_addr e in
  e ← load (pdpt + 8 * PDPT_INDEX v);
  if negb (present e) then mret 0 else
  if large e then mret (Z.lor (ALIGN_DOWN e HUGE_PAGE_SIZE) (Z.land v (HUGE_PAGE_SIZE - 1))) else
  let pdt := table_addr e in
  e ← load (pdt + 8 * PDT_INDEX v);
  if negb (present e) then mret 0 else
  if large e then mret (Z.lor (ALIGN_DOWN e LARGE_PAGE_SIZE) (Z.land v (LARGE_PAGE_SIZE - 1))) else
  let pt := table_addr e in
  e ← load (pt + 8 * PT_INDEX v);
  if negb (present e) then mret 0 else
  mret (Z.lor (ALIGN_DOWN e PAGE_SIZE) (Z.land v (PAGE_SIZE - 1))).

(** ** Mapping

    The result of a function that returns zero or -1; [VmFail None] leaves
    [errno] as it was. *)
Inductive vm_result := VmOk | VmFail (e : option errno).

Section alloc.
Context (fuel : nat).

(** One of the three stages of [vm_map_page] that add a table: the entry at
    [slot], and whether there was memory. *)
Definition ensure_table (slot flags : Z) : M vm bool :=
  e ← load slot;
  if present e then mret true else
  page ← alloc_page fuel;
  store slot page;;
  if page =? 0 then mret false else
  zero_frame page;;
  store slot (Z.lor page (Z.lor (Z.lor (Z.lor PAGE_FLAG_PRESENT PAGE_FLAG_RW) PAGE_FLAG_USER) flags));;
  mret true.

Definition vm_map_page (pml4t phys_addr v flags : Z) : M vm vm_result :=
  if negb (sign_extended v) then mret (VmFail (Some EFAULT)) else
  let slot := pml4t + 8 * PML4T_INDEX v in
  ok ← ensure_table slot flags;
  if negb ok then mret (VmFail None) else
  e ← load slot;
  let slot := table_addr e + 8 * PDPT_INDEX v in
  ok ← ensure_table slot flags;
  if negb ok then mret (VmFail None) else
  e ← load slot;
  if large e then mret (VmFail (Some EINVAL)) else
  let slot := table_addr e + 8 * PDT_INDEX v in
  ok ← ensure_table slot flags;
  if negb ok then mret (VmFail None) else
  e ← load slot;
  if large e then mret (VmFail (Some EINVAL)) else
  let slot := table_addr e + 8 * PT_INDEX v in
  store slot (Z.lor (ALIGN_DOWN phys_addr PAGE_SIZE) (Z.lor PAGE_FLAG_PRESENT flags));; mret VmOk.

Definition vm_unmap_page (pml4t v : Z) : M vm vm_result :=
  if negb (sign_extended v) then mret (VmFail (Some EFAULT)) else
  e ← load (pml4t + 8 * PML4T_INDEX v);
  if negb (present e) then mret VmOk else
  let slot := table_addr e + 8 * PDPT_INDEX v in
  e ← load slot;
  if negb (present e) then mret VmOk else
  if large e then store slot 0;; mret VmOk else
  let slot := table_addr e + 8 * PDT_INDEX v in
  e ← load slot;
  if negb (present e) then mret VmOk else
  if large e then store slot 0;; mret VmOk else
  store (table_addr e + 8 * PT_INDEX v) 0;; mret VmOk.

(** ** Whole address spaces *)

(** [for (i = 0; i < n; i++)] over the entries of a table. *)
Fixpoint each_entry (body : Z -> Z -> M vm unit) (n : nat) (t i : Z) : M vm unit :=
  match n with
  | O => mret tt
  | S n => e ← load (t + 8 * i); body (t + 8 * i) e;; each_entry body n t (i + 1)
  end.
Abbreviation entries body t := (each_entry (fun _ e => body e) 512 t 0).

Definition ref_pt (pt : Z) : M vm unit :=
  entries (fun e => if present e then ref_page e else mret tt) pt.
Definition ref_pdt (pdt : Z) : M vm unit :=
  entries (fun e => if present e && negb (large e) then ref_page e;; ref_pt (table_addr e) else mret tt) pdt.
Definition ref_pdpt (pdpt : Z) : M vm unit :=
  entries (fun e => if present e && negb (large e) then ref_page e;; ref_pdt (table_addr e) else mret tt) pdpt.

Definition free_pt (pt : Z) : M vm unit :=
  entries (fun e => if present e then free_page e else mret tt) pt.
Definition free_pdt (pdt : Z) : M vm unit :=
  entries (fun e => if present e && negb (large e) then free_pt (table_addr e);; free_page (table_addr e) else mret tt) pdt.
Definition free_pdpt (pdpt : Z) : M vm unit :=
  entries (fun e => if present e && negb (large e) then free_pdt (table_addr e);; free_page (table_addr e) else mret tt) pdpt.

Definition vm_unmap_user_mem (pml4t : Z) : M vm unit :=
  each_entry (fun slot e =>
    if present e then free_pdpt (table_addr e);; free_page (table_addr e);; store slot 0 else mret tt) 256 pml4t 0.

End alloc.

(** ** The tables of the kernel

    The physical addresses of the statically allocated tables and of the boot
    stack are known to the linker. *)
Record kernel_symbols := mk_symbols {
  kernel_pml4t : Z; alloc_space_pdpt : Z; phys_map_pdpt : Z; kernel_thread_local_pdpt : Z;
  kernel_stack_pdt : Z; kernel_stack_pt : Z; boot_stack : Z; kernel_end : Z
}.

(** [for (i = from; i < to; i++) store (slot i, value i)] *)
Fixpoint store_seq (slot value : Z -> Z) (n : nat) (i : Z) : M vm unit :=
  match n with O => mret tt | S n => store (slot i) (value i);; store_seq slot value n (i + 1) end.

Definition kernel_flags : Z := Z.lor (Z.lor PAGE_FLAG_PRESENT PAGE_FLAG_RW) PAGE_FLAG_GLOBAL.
Definition user_flags : Z := Z.lor (Z.lor PAGE_FLAG_PRESENT PAGE_FLAG_RW) PAGE_FLAG_USER.

(** The function up to the new CR3, and the first frame of the allocator. *)
Definition vm_init (k : kernel_symbols) (total_phys_mem : Z) : M vm unit :=
  store (kernel_pml4t k + 8 * 507) (Z.lor (alloc_space_pdpt k) kernel_flags);;
  store_seq (fun i => kernel_pml4t k + 8 * (i + 508)) (fun i => Z.lor (phys_map_pdpt k + PAGE_SIZE * i) kernel_flags) 4 0;;
  store_seq (fun i => phys_map_pdpt k + 8 * i)
    (fun i => Z.lor (i * HUGE_PAGE_SIZE) (Z.lor (Z.lor (Z.lor PAGE_FLAG_PRESENT PAGE_FLAG_RW) PAGE_FLAG_SIZE) PAGE_FLAG_GLOBAL))
    (Z.to_nat (PAGE_STRUCT_ENTRIES * 4)) 0;;
  store (kernel_pml4t k + 8 * PML4T_INDEX THREAD_LOCAL_BASE_VMA) (Z.lor (kernel_thread_local_pdpt k) user_flags);;
  store (kernel_thread_local_pdpt k + 8 * 511) (Z.lor (kernel_stack_pdt k) user_flags);;
  store (kernel_stack_pdt k + 8 * 511) (Z.lor (kernel_stack_pt k) user_flags);;
  store_seq (fun i => kernel_stack_pt k + 8 * (i + 256)) (fun i => Z.lor (boot_stack k + i * PAGE_SIZE) user_flags) 256 0;;
  modify (fun v => set_avail v true);;
  modify (fun v => set_next v (ALIGN_UP (ALIGN_UP (kernel_end k) PAGE_SIZE + total_phys_mem / PAGE_SIZE * 4) PAGE_SIZE)).

(** ** Words of memory *)

Lemma word_store v a x b : a mod 8 = 0 -> b mod 8 = 0 ->
  word (set_mem v (<[a / 8 := u64 x]> (mem v))) b = if b =? a then u64 x else word v b.
Proof.
  intros Ha Hb. unfold word. cbn [mem set_mem]. destruct (Z.eqb_spec b a) as [->|Hne]; [by rewrite lookup_insert_eq|].
  rewrite lookup_insert_ne; [done|]. divlia.
Qed.

Lemma fill_lookup m a f n i : fill m a f n !! i = if (a / 8 <=? i) && (i <? a / 8 + Z.of_nat n) then Some (f (i - a / 8)) else m !! i.
Proof.
  induction n as [|n IH]; cbn [fill].
  { destruct (Z.leb_spec (a / 8) i), (Z.ltb_spec i (a / 8 + Z.of_nat 0)); try lia; done. }
  destruct (Z.eq_dec i (a / 8 + Z.of_nat n)) as [->|Hne].
  - rewrite lookup_insert_eq. destruct (Z.leb_spec (a / 8) (a / 8 + Z.of_nat n)), (Z.ltb_spec (a / 8 + Z.of_nat n) (a / 8 + Z.of_nat (S n))); try lia.
    cbn [andb]. do 2 f_equal. lia.
  - rewrite lookup_insert_ne, IH by lia.
    destruct (Z.leb_spec (a / 8) i), (Z.ltb_spec i (a / 8 + Z.of_nat n)), (Z.ltb_spec i (a / 8 + Z.of_nat (S n))); try lia; done.
Qed.

Lemma word_fill v a f b : a mod 8 = 0 -> b mod 8 = 0 ->
  word (set_mem v (fill (mem v) a f 512)) b = if (a <=? b) && (b <? a + PAGE_SIZE) then f ((b - a) / 8) else word v b.
Proof.
  intros Ha Hb. unfold word. cbn [mem set_mem]. rewrite fill_lookup.
  replace ((a / 8 <=? b / 8) && (b / 8 <? a / 8 + Z.of_nat 512)) with ((a <=? b) && (b <? a + PAGE_SIZE)).
  - destruct (_ && _); [|done]. cbn. f_equal. divlia.
  - apply eq_true_iff_eq. rewrite !andb_true_iff, !Z.leb_le, !Z.ltb_lt. divlia.
Qed.

(** ** Bits of entries *)

Lemma present_bit e : present e = Z.testbit e 0.
Proof. apply (land_shl1 e 0). lia. Qed.
Lemma large_bit e : large e = Z.testbit e 7.
Proof. apply (land_shl1 e 7). lia. Qed.
Lemma cow_bit e : cow e = Z.testbit e 9.
Proof. apply (land_shl1 e 9). lia. Qed.

Lemma page_bits a i : a mod PAGE_SIZE = 0 -> i < 12 -> Z.testbit a i = false.
Proof.
  intros Ha Hi. replace a with (a / PAGE_SIZE * 2 ^ 12) by divlia. by apply Z.mul_pow2_bits_low.
Qed.

Lemma page_lor a fl : a mod PAGE_SIZE = 0 -> 0 <= fl < PAGE_SIZE -> Z.lor a fl = a + fl.
Proof.
  intros Ha Hf. rewrite Z.lor_comm. replace a with (Z.shiftl (a / PAGE_SIZE) 12) at 1 by (rewrite Z.shiftl_mul_pow2; divlia).
  rewrite lor_high by lia. divlia.
Qed.

Lemma table_addr_lor a fl : 0 <= a < 2 ^ 64 -> a mod PAGE_SIZE = 0 -> 0 <= fl < PAGE_SIZE -> table_addr (Z.lor a fl) = a.
Proof. intros Ha Hm Hf. unfold table_addr. rewrite page_lor, align_page by divlia. divlia. Qed.

(** ** The reference walk

    [idx k v] is the index of address [v] in a table of level [k], 4 for the
    PML4T down to 1 for page tables; an entry of level [k] maps [2 ^ shift k]
    bytes. *)
Definition shift (k : nat) : Z := 12 + 9 * (Z.of_nat k - 1).
Definition idx (k : nat) (v : Z) : Z := Z.land (Z.shiftr v (shift k)) 0x1ff.
Definition leafb (k : nat) (e : Z) : bool := (k =? 1)%nat || (k <? 4)%nat && large e.

Fixpoint walk (v : vm) (k : nat) (t va : Z) : Z :=
  match k with
  | O => 0
  | S k' =>
      let e := word v (t + 8 * idx k va) in
      if negb (present e) then 0 else
      if leafb k e then Z.lor (ALIGN_DOWN e (2 ^ shift k)) (Z.land va (2 ^ shift k - 1)) else
      walk v k' (table_addr e) va
  end.
Definition xlate (v : vm) (root va : Z) : Z := if sign_extended va then walk v 4 root va else 0.

Lemma idx_range k v : 0 <= idx k v < 512.
Proof. unfold idx. change 0x1ff with (Z.ones 9). rewrite Z.land_ones by lia. apply Z.mod_pos_bound. lia. Qed.

(** The table that the indices [p] lead to from a table of level [k]. *)
Fixpoint tab (v : vm) (k : nat) (t : Z) (p : list Z) {struct p} : option Z :=
  match p, k with
  | [], _ => Some t
  | i :: p, O => None
  | i :: p, S k' =>
      let e := word v (t + 8 * i) in
      if present e && negb (leafb k e) then tab v k' (table_addr e) p else None
  end.

Definition idxs (p : list Z) : Prop := Forall (fun i => 0 <= i < 512) p.

Lemma tab_snoc v p i : forall k t, tab v k t (p ++ [i]) =
  match tab v k t p with
  | Some t' => let e := word v (t' + 8 * i) in
      if (length p <? k)%nat && present e && negb (leafb (k - length p) e) then Some (table_addr e) else None
  | None => None
  end.
Proof.
  induction p as [|j p IH]; intros [|k] t; [done|done|done|].
  cbn [app tab length]. destruct (present (word v (t + 8 * j)) && _); [|done]. rewrite IH. done.
Qed.

Lemma tab_prefix_None v k t p q : tab v k t p = None -> tab v k t (p ++ q) = None.
Proof.
  revert k t. induction p as [|i p IH]; intros k t; [done|]. destruct k as [|k]; [done|]. cbn [app tab].
  destruct (_ && _); [|done]. apply IH.
Qed.

Lemma tab_short v p : forall k t t', tab v k t p = Some t' -> (length p <= k)%nat.
Proof.
  induction p as [|i p IH]; intros [|k] t t'; cbn [tab length]; try lia; [done|]. destruct (_ && _); [|done].
  intros ?%IH. lia.
Qed.

(** *** Trees of tables *)

(** A table is a frame in use. *)
Record table_ok (v : vm) (t : Z) : Prop := {
  to_aligned : t mod PAGE_SIZE = 0;
  to_pos : 0 < t;
  to_in : t / PAGE_SIZE < zlen (table v);
  to_used : 0 < frame_count v (t / PAGE_SIZE)
}.

(** The tables of an address space are frames in use, and form a tree. *)
Record tree (v : vm) (root : Z) : Prop := {
  tr_table : forall p t, idxs p -> tab v 4 root p = Some t -> table_ok v t;
  tr_inj : forall p q t, idxs p -> idxs q -> tab v 4 root p = Some t -> tab v 4 root q = Some t -> p = q
}.

Lemma tab_root v root : tab v 4 root [] = Some root.
Proof. done. Qed.

(** Entries of different tables are different words. *)
Lemma slot_inj t i t' i' : t mod PAGE_SIZE = 0 -> t' mod PAGE_SIZE = 0 -> 0 <= i < 512 -> 0 <= i' < 512 ->
  t + 8 * i = t' + 8 * i' -> t = t' /\ i = i'.
Proof. intros. divlia. Qed.

Lemma slot_aligned t i : t mod PAGE_SIZE = 0 -> (t + 8 * i) mod 8 = 0.
Proof. intros. divlia. Qed.

Lemma slot_access v t i : frames_ok v -> table_ok v t -> 0 <= i < 512 -> accessible v (t + 8 * i) 8 && ((t + 8 * i) mod 8 =? 0) = true.
Proof.
  intros Hok [T1 T2 T3 _] Hi. rewrite (slot_aligned t i T1). unfold accessible. destruct Hok as [_ _ _ _ _ Hs _ _].
  destruct (Z.leb_spec 0 (t + 8 * i)), (Z.leb_spec (t + 8 * i + 8) (mem_size v)); try done; divlia.
Qed.

Lemma load_slot v t i : frames_ok v -> table_ok v t -> 0 <= i < 512 -> load (t + 8 * i) v = Some (word v (t + 8 * i), v).
Proof. intros. unfold load. by rewrite slot_access. Qed.

Lemma store_slot v t i x : frames_ok v -> table_ok v t -> 0 <= i < 512 ->
  store (t + 8 * i) x v = Some (tt, set_mem v (<[(t + 8 * i) / 8 := u64 x]> (mem v))).
Proof. intros. unfold store. by rewrite slot_access. Qed.

(** Changing memory alone keeps the frames. *)
Lemma frames_ok_mem v m : frames_ok v -> frames_ok (set_mem v m).
Proof. intros []. by split. Qed.

Lemma table_ok_mem v m t : table_ok v t -> table_ok (set_mem v m) t.
Proof. intros []. by split. Qed.

(** *** Changes that leave most entries alone *)

(** [q] is the path of an entry: the indices to its table and its own. *)
Lemma tab_agree v v' root (P : list Z -> Prop) :
  (forall p t i, idxs (p ++ [i]) -> tab v 4 root p = Some t -> ~ P (p ++ [i]) -> word v' (t + 8 * i) = word v (t + 8 * i)) ->
  forall p, idxs p -> (forall q, q <> [] -> q `prefix_of` p -> ~ P q) -> tab v' 4 root p = tab v 4 root p.
Proof.
  intros Hw. induction p as [|i p IH] using rev_ind; intros Hi HP; [done|]. rewrite !tab_snoc.
  assert (idxs p) as Hip by (by apply Forall_app in Hi as [? _]).
  rewrite IH; [|done|]. 2: { intros q Hq Hpre. apply HP; [done|]. by apply prefix_app_r. }
  destruct (tab v 4 root p) as [t|] eqn:E; [|done]. rewrite (Hw p t i); [done..|]. apply HP; [by destruct p|done].
Qed.

Definition vpath (va : Z) : list Z := [idx 4 va; idx 3 va; idx 2 va; idx 1 va].

Lemma vpath_idxs va n : idxs (take n (vpath va)).
Proof. apply Forall_take. repeat constructor; apply idx_range. Qed.

Lemma vpath_snoc va k : (k < 4)%nat -> take (4 - k) (vpath va) = take (4 - S k) (vpath va) ++ [idx (S k) va].
Proof. intros Hk. destruct k as [|[|[|[|k]]]]; [done..|lia]. Qed.

Lemma walk_agree v v' root va :
  (forall k t, (1 <= k <= 4)%nat -> tab v 4 root (take (4 - k) (vpath va)) = Some t ->
     word v' (t + 8 * idx k va) = word v (t + 8 * idx k va)) ->
  walk v' 4 root va = walk v 4 root va.
Proof.
  intros Hw. cut (forall k t, (k <= 4)%nat -> tab v 4 root (take (4 - k) (vpath va)) = Some t -> walk v' k t va = walk v k t va).
  { intros Hcut. by apply Hcut. }
  induction k as [|k IH]; intros t Hk Ht; [done|]. cbn [walk]. rewrite (Hw (S k) t ltac:(lia) Ht).
  destruct (present (word v (t + 8 * idx (S k) va))) eqn:Ep; [|done]. cbn [negb].
  destruct (leafb (S k) (word v (t + 8 * idx (S k) va))) eqn:El; [done|]. apply IH; [lia|].
  rewrite vpath_snoc, tab_snoc, Ht by lia. cbv zeta. rewrite length_take. cbn [length vpath].
  replace (Nat.min (4 - S k) 4) with (4 - S k)%nat by lia. replace (4 - (4 - S k))%nat with (S k) by lia.
  rewrite Ep, El. destruct (Nat.ltb_spec (4 - S k) 4); [done|lia].
Qed.

(** The code is the walk. *)
Lemma vm_phys_addr_ok v root va : frames_ok v -> tree v root -> vm_phys_addr root va v = Some (xlate v root va, v).
Proof.
  intros Hok [Ht _]. unfold vm_phys_addr, xlate. destruct (sign_extended va); [|done]. cbn [negb].
  change (PML4T_INDEX va) with (idx 4 va). change (PDPT_INDEX va) with (idx 3 va).
  change (PDT_INDEX va) with (idx 2 va). change (PT_INDEX va) with (idx 1 va).
  assert (forall k t, (1 <= k <= 4)%nat -> tab v 4 root (take (4 - k) (vpath va)) = Some t ->
    load (t + 8 * idx k va) v = Some (word v (t + 8 * idx k va), v)) as Hload.
  { intros k t Hk Hp. apply load_slot; [done| |apply idx_range]. eapply Ht; [apply vpath_idxs|exact Hp]. }
  cbn [walk]. cbv zeta. rewrite (bind_run _ _ _ _ _ (Hload 4%nat root ltac:(lia) eq_refl)).
  destruct (present (word v (root + 8 * idx 4 va))) eqn:E4; [|done]. cbn [negb leafb Nat.eqb Nat.ltb Nat.leb orb andb].
  assert (tab v 4 root [idx 4 va] = Some (table_addr (word v (root + 8 * idx 4 va)))) as T3 by (cbn; by rewrite E4).
  set (t3 := table_addr _) in *. rewrite (bind_run _ _ _ _ _ (Hload 3%nat t3 ltac:(lia) T3)).
  destruct (present (word v (t3 + 8 * idx 3 va))) eqn:E3; [|done]. cbn [negb].
  destruct (large (word v (t3 + 8 * idx 3 va))) eqn:L3; [done|].
  assert (tab v 4 root [idx 4 va; idx 3 va] = Some (table_addr (word v (t3 + 8 * idx 3 va)))) as T2.
  { change ([idx 4 va; idx 3 va]) with ([idx 4 va] ++ [idx 3 va]). rewrite tab_snoc, T3. cbn. by rewrite E3, L3. }
  set (t2 := table_addr (word v (t3 + _))) in *. rewrite (bind_run _ _ _ _ _ (Hload 2%nat t2 ltac:(lia) T2)).
  destruct (present (word v (t2 + 8 * idx 2 va))) eqn:E2; [|done]. cbn [negb].
  destruct (large (word v (t2 + 8 * idx 2 va))) eqn:L2; [done|].
  assert (tab v 4 root [idx 4 va; idx 3 va; idx 2 va] = Some (table_addr (word v (t2 + 8 * idx 2 va)))) as T1.
  { change ([idx 4 va; idx 3 va; idx 2 va]) with ([idx 4 va; idx 3 va] ++ [idx 2 va]). rewrite tab_snoc, T2. cbn. by rewrite E2, L2. }
  set (t1 := table_addr (word v (t2 + _))) in *. rewrite (bind_run _ _ _ _ _ (Hload 1%nat t1 ltac:(lia) T1)).
  by destruct (present (word v (t1 + 8 * idx 1 va))).
Qed.

(** *** Changing one entry *)

Definition space (v : vm) (root : Z) : Prop := frames_ok v /\ tree v root.

Lemma walk_at v root va k t : (k <= 4)%nat -> tab v 4 root (take (4 - k) (vpath va)) = Some t -> walk v 4 root va = walk v k t va.
Proof.
  intros Hk. remember (4 - k)%nat as n eqn:En. revert k t Hk En. induction n as [|n IH]; intros k t Hk En Ht.
  - assert (k = 4%nat) as -> by lia. by injection Ht as <-.
  - assert (S n = 4 - k)%nat as En' by lia. rewrite En', vpath_snoc, tab_snoc in Ht by lia.
    replace (4 - S k)%nat with n in Ht by lia. destruct (tab v 4 root (take n (vpath va))) as [t'|] eqn:E; [|done].
    cbv zeta in Ht. rewrite length_take in Ht. cbn [length vpath] in Ht.
    replace (Nat.min n 4) with n in Ht by lia. replace (4 - n)%nat with (S k) in Ht by lia.
    rewrite (IH (S k) t' ltac:(lia) ltac:(lia) eq_refl). cbn [walk].
    destruct (Nat.ltb_spec n 4); [|lia]. cbn [andb] in Ht.
    destruct (present (word v (t' + 8 * idx (S k) va))); [|done]. cbn [andb negb] in *.
    destruct (leafb (S k) (word v (t' + 8 * idx (S k) va))); [done|]. by injection Ht as <-.
Qed.

Section entry.
Context (v : vm) (root : Z) (p0 : list Z) (t0 i0 : Z).
Hypothesis Hsp : space v root.
Hypothesis Hp0 : idxs p0.
Hypothesis Ht0 : tab v 4 root p0 = Some t0.
Hypothesis Hi0 : 0 <= i0 < 512.
Let q0 : list Z := p0 ++ [i0].
Let slot : Z := t0 + 8 * i0.

Lemma entry_table : table_ok v t0.
Proof. eapply tr_table; [apply Hsp|done|done]. Qed.

Lemma entry_path p t i : idxs p -> 0 <= i < 512 -> tab v 4 root p = Some t -> t + 8 * i = slot -> p ++ [i] = q0.
Proof.
  intros Hp Hi Ht Heq. destruct Hsp as [_ [T1 T2]]. pose proof (to_aligned _ _ (T1 p t Hp Ht)). pose proof (to_aligned _ _ entry_table).
  destruct (slot_inj t i t0 i0) as [-> ->]; [done..|]. unfold q0. f_equal. by eapply T2.
Qed.

(** The state after a change of the entry, and of frames that are no tables. *)
Context (v' : vm).
Hypothesis Hword : forall p t i, idxs p -> 0 <= i < 512 -> tab v 4 root p = Some t -> t + 8 * i <> slot ->
  word v' (t + 8 * i) = word v (t + 8 * i).

Lemma entry_tab p : idxs p -> ~ q0 `prefix_of` p -> tab v' 4 root p = tab v 4 root p.
Proof.
  intros Hp Hpre. apply (tab_agree v v' root (fun q => q = q0)); [|done|].
  - intros p' t i Hpi Ht Hne. apply Forall_app in Hpi as [Hp' Hi]. apply Forall_cons in Hi as [Hi _].
    apply (Hword p'); [done..|]. intros Heq. apply Hne. by eapply entry_path.
  - intros q _ Hq ->. done.
Qed.

Lemma not_own_prefix : ~ q0 `prefix_of` p0.
Proof. intros Hpre%prefix_length. unfold q0 in Hpre. rewrite length_app in Hpre. cbn in Hpre. lia. Qed.

Lemma entry_tab0 : tab v' 4 root p0 = Some t0.
Proof. rewrite entry_tab; [done|done|apply not_own_prefix]. Qed.

Lemma q0_idxs : idxs q0.
Proof. apply Forall_app. split; [done|]. by constructor. Qed.

(** Addresses whose path does not use the entry translate as before. *)
Lemma entry_walk va : ~ q0 `prefix_of` vpath va -> walk v' 4 root va = walk v 4 root va.
Proof.
  intros Hpre. apply walk_agree. intros k t Hk Ht. apply (Hword (take (4 - k) (vpath va))); [apply vpath_idxs|apply idx_range|done|].
  intros Heq. apply Hpre. rewrite <- (entry_path _ _ _ (vpath_idxs va (4 - k)) (idx_range k va) Ht Heq).
  destruct k as [|k]; [lia|]. rewrite <- vpath_snoc by lia. apply prefix_take.
Qed.

Hypothesis Hkeep : forall t, table_ok v t -> table_ok v' t.

(** The entry ends the path: no new table. *)
Lemma tree_cut : tab v' 4 root q0 = None -> tree v' root.
Proof.
  intros Hq0. destruct Hsp as [_ [T1 T2]].
  assert (forall p t, idxs p -> tab v' 4 root p = Some t -> tab v 4 root p = Some t) as Hback.
  { intros p t Hp Ht. destruct (decide (q0 `prefix_of` p)) as [[r ->]|Hn].
    - by rewrite (tab_prefix_None _ _ _ _ r Hq0) in Ht.
    - by rewrite entry_tab in Ht. }
  split.
  - intros p t Hp Ht. apply Hkeep. eapply T1; [done|]. by apply Hback.
  - intros p q t Hp Hq H1 H2. eapply T2; [done|done|by apply Hback..].
Qed.

(** The entry points to a new, empty table. *)
Lemma tree_grow f : tab v' 4 root q0 = Some f -> (forall i, 0 <= i < 512 -> word v' (f + 8 * i) = 0) ->
  (forall p, idxs p -> tab v 4 root p <> Some f) -> table_ok v' f -> tree v' root.
Proof.
  intros Hq0 Hzero Hfresh Hf. destruct Hsp as [_ [T1 T2]].
  assert (forall p t, idxs p -> tab v' 4 root p = Some t -> p = q0 /\ t = f \/ tab v 4 root p = Some t) as Hback.
  { intros p t Hp Ht. destruct (decide (q0 `prefix_of` p)) as [[r ->]|Hn].
    - destruct r as [|i r]; [rewrite app_nil_r in *; rewrite Hq0 in Ht; injection Ht as <-; by left|].
      assert (tab v' 4 root (q0 ++ [i]) = None) as Hnone.
      { apply Forall_app in Hp as [_ Hp]. apply Forall_cons in Hp as [Hi _]. rewrite tab_snoc, Hq0. cbv zeta.
        rewrite Hzero by done. by rewrite andb_false_r. }
      change (i :: r) with ([i] ++ r) in Ht. rewrite app_assoc, (tab_prefix_None _ _ _ _ r Hnone) in Ht. done.
    - right. by rewrite entry_tab in Ht. }
  split.
  - intros p t Hp Ht. destruct (Hback p t Hp Ht) as [[-> ->]|Hv]; [done|]. apply Hkeep. by eapply T1.
  - intros p q t Hp Hq H1 H2. destruct (Hback p t Hp H1) as [[E1 E2]|Hv1], (Hback q t Hq H2) as [[E3 E4]|Hv2].
    + congruence.
    + subst t. by destruct (Hfresh q Hq).
    + subst t. by destruct (Hfresh p Hp).
    + by eapply T2.
Qed.
End entry.

(** *** Adding a table *)

(** Tables and counts only grow; frames in use that are no tables of the address
    space keep their contents. *)
Record grows (root : Z) (v v' : vm) : Prop := {
  gr_len : zlen (table v') = zlen (table v);
  gr_size : mem_size v' = mem_size v;
  gr_counts : forall f, frame_count v f <= frame_count v' f;
  gr_tabs : forall p t, idxs p -> tab v' 4 root p = Some t -> tab v 4 root p = Some t \/ frame_count v (t / PAGE_SIZE) = 0;
  gr_data : forall a, a mod 8 = 0 -> 0 < frame_count v (a / PAGE_SIZE) ->
    (forall p t, idxs p -> tab v 4 root p = Some t -> t / PAGE_SIZE <> a / PAGE_SIZE) -> word v' a = word v a
}.

Lemma grows_refl root v : grows root v v.
Proof. split; [done|done|lia|by left|done]. Qed.

Lemma grows_trans root v1 v2 v3 : grows root v1 v2 -> grows root v2 v3 -> frames_ok v1 -> grows root v1 v3.
Proof.
  intros [L1 S1 C1 T1 D1] [L2 S2 C2 T2 D2] Hok. split; [congruence|congruence| | |].
  - intros f. specialize (C1 f). specialize (C2 f). lia.
  - intros p t Hp Ht. destruct (T2 p t Hp Ht) as [H|H]; [by apply T1|]. right.
    specialize (C1 (t / PAGE_SIZE)). pose proof (frame_count_nonneg v1 (t / PAGE_SIZE) Hok). lia.
  - intros a Ha Hc Hno. rewrite D2; [by apply D1|done| |].
    + specialize (C1 (a / PAGE_SIZE)). lia.
    + intros p t Hp Ht. destruct (T1 p t Hp Ht) as [H|H]; [by eapply Hno|]. intros E. rewrite E in H. lia.
Qed.

Lemma tab_mem v v' k t p : mem v' = mem v -> tab v' k t p = tab v k t p.
Proof.
  intros Hm. assert (forall a, word v' a = word v a) as Hw by (intros a; unfold word; by rewrite Hm).
  revert k t. induction p as [|i p IH]; intros [|k] t; [done..|]. cbn [tab]. rewrite Hw. by destruct (_ && _).
Qed.

Lemma walk_mem v v' k t va : mem v' = mem v -> walk v' k t va = walk v k t va.
Proof.
  intros Hm. assert (forall a, word v' a = word v a) as Hw by (intros a; unfold word; by rewrite Hm).
  revert t. induction k as [|k IH]; intros t; [done|]. cbn [walk]. rewrite Hw, IH. done.
Qed.

Lemma table_ok_counts v v' t : zlen (table v') = zlen (table v) -> (forall f, frame_count v f <= frame_count v' f) ->
  table_ok v t -> table_ok v' t.
Proof. intros Hl Hc [T1 T2 T3 T4]. split; [done|done|congruence|]. specialize (Hc (t / PAGE_SIZE)). lia. Qed.

Lemma alloc_space v root a v' : space v root -> alloc_effect v a v' ->
  space v' root /\ (forall f, frame_count v f <= frame_count v' f).
Proof.
  intros [Hok [T1 T2]] (Hok' & Hm & _ & Hl & HE).
  assert (forall f, frame_count v f <= frame_count v' f) as Hc.
  { intros f. destruct HE as [(_ & Ht & _)|(_ & _ & _ & H0 & Hf)]; [unfold frame_count; by rewrite Ht|].
    rewrite Hf. destruct (Z.eqb_spec f (a / PAGE_SIZE)) as [->|]; lia. }
  split; [|done]. split; [done|]. split.
  - intros p t Hp Ht. rewrite (tab_mem v) in Ht by done. eapply table_ok_counts; [done..|]. by eapply T1.
  - intros p q t Hp Hq H1 H2. rewrite (tab_mem v) in H1, H2 by done. by eapply T2.
Qed.

(** A path through an entry that is not present leads nowhere. *)
Lemma walk_absent v root va p0 t0 i0 : (length p0 < 4)%nat -> tab v 4 root p0 = Some t0 -> p0 ++ [i0] `prefix_of` vpath va ->
  present (word v (t0 + 8 * i0)) = false -> walk v 4 root va = 0.
Proof.
  intros Hl Ht Hpre Habs. set (k := (4 - length p0)%nat).
  assert (take (4 - k) (vpath va) = p0 /\ idx k va = i0) as [Ep Ei].
  { destruct Hpre as [r Hr]. assert (p0 = take (length p0) (vpath va)) as E1 by (rewrite Hr, <- app_assoc; by rewrite take_app_length).
    assert (take (S (length p0)) (vpath va) = p0 ++ [i0]) as E2.
    { rewrite Hr. replace (S (length p0)) with (length (p0 ++ [i0])) by (rewrite length_app; cbn; lia). apply take_app_length. }
    split; [unfold k; rewrite E1 at 2; f_equal; lia|].
    assert (k = S (k - 1)) as Ek by (unfold k; lia). pose proof (vpath_snoc va (k - 1) ltac:(lia)) as Hs.
    rewrite <- Ek in Hs. replace (4 - (k - 1))%nat with (S (length p0)) in Hs by (unfold k; lia).
    replace (4 - k)%nat with (length p0) in Hs by (unfold k; lia). rewrite E2, <- E1 in Hs. by apply app_inj_2 in Hs as [_ [= <-]]. }
  rewrite (walk_at v root va k t0) by (unfold k in *; try lia; by rewrite Ep).
  destruct k as [|k'] eqn:Ek; [done|]. cbn [walk]. rewrite Ei, Habs. done.
Qed.

(** The flags that callers pass to [vm_map_page]. *)
Definition map_flags (flags : Z) : Prop := 0 <= flags < PAGE_SIZE /\ Z.testbit flags 7 = false.

Definition new_entry (a flags : Z) : Z :=
  Z.lor a (Z.lor (Z.lor (Z.lor PAGE_FLAG_PRESENT PAGE_FLAG_RW) PAGE_FLAG_USER) flags).

Lemma new_entry_ok a flags : 0 <= a < 2 ^ 64 -> a mod PAGE_SIZE = 0 -> map_flags flags ->
  u64 (new_entry a flags) = new_entry a flags /\ present (new_entry a flags) = true /\ large (new_entry a flags) = false /\
  table_addr (new_entry a flags) = a.
Proof.
  intros Ha Hm [Hf Hs]. unfold new_entry. change (Z.lor (Z.lor PAGE_FLAG_PRESENT PAGE_FLAG_RW) PAGE_FLAG_USER) with 7.
  pose proof (lor_bound 12 7 flags ltac:(lia) ltac:(lia) Hf) as Hb. change (2 ^ 12) with PAGE_SIZE in Hb. split_and!.
  - rewrite page_lor by done. apply wrap_small. divlia.
  - by rewrite present_bit, !Z.lor_spec, orb_true_r.
  - rewrite large_bit, !Z.lor_spec, Hs, (page_bits a 7) by (try done; lia). done.
  - by apply table_addr_lor.
Qed.

Section ensure.
Context (fuel : nat) (flags root : Z) (p0 : list Z) (t0 i0 : Z) (v : vm).
Hypothesis Hflags : map_flags flags.
Hypothesis Hfuel : zlen (table v) < Z.of_nat fuel.
Hypothesis Hsp : space v root.
Hypothesis Hp0 : idxs p0.
Hypothesis Hlen : (length p0 < 3)%nat.
Hypothesis Ht0 : tab v 4 root p0 = Some t0.
Hypothesis Hi0 : 0 <= i0 < 512.
Let slot : Z := t0 + 8 * i0.

(** What a stage promises. *)
Definition stage (b : bool) (v' : vm) : Prop :=
  space v' root /\ grows root v v' /\ (forall va, xlate v' root va = xlate v root va) /\ tab v' 4 root p0 = Some t0 /\
  (forall p, idxs p -> ~ p0 ++ [i0] `prefix_of` p -> tab v' 4 root p = tab v 4 root p) /\
  (b = true -> present (word v' slot) = true).

(** Storing an entry that is not present where none was. *)
Lemma stage_absent w : space w root -> mem w = mem v -> zlen (table w) = zlen (table v) -> mem_size w = mem_size v ->
  (forall f, frame_count v f <= frame_count w f) -> present (word v slot) = false ->
  stage false (set_mem w (<[slot / 8 := u64 0]> (mem w))).
Proof.
  intros Hw Hm Hl Hs Hc Habs. set (v' := set_mem w _). change (u64 0) with 0 in *.
  assert (forall a, word w a = word v a) as Hww by (intros a; unfold word; by rewrite Hm).
  assert (tab w 4 root p0 = Some t0) as Ht0w by (by rewrite (tab_mem v)).
  pose proof (entry_table w root p0 t0 Hw Hp0 Ht0w) as Htok. pose proof (to_aligned _ _ Htok) as Hal.
  assert (forall p t i, idxs p -> 0 <= i < 512 -> tab w 4 root p = Some t -> t + 8 * i <> slot -> word v' (t + 8 * i) = word w (t + 8 * i)) as Hword.
  { intros p t i Hp Hi Ht Hne. unfold v'. change 0 with (u64 0). rewrite word_store.
    - by destruct (Z.eqb_spec (t + 8 * i) slot).
    - by apply slot_aligned.
    - apply slot_aligned. destruct Hw as [_ [T1 _]]. by eapply to_aligned, T1. }
  assert (word v' slot = 0) as Hslot.
  { unfold v'. change 0 with (u64 0) at 1. rewrite word_store, Z.eqb_refl by (by apply slot_aligned). done. }
  pose proof (entry_tab w root p0 t0 i0 Hw Hp0 Ht0w Hi0 v' Hword) as Htab.
  pose proof (entry_tab0 w root p0 t0 i0 Hw Hp0 Ht0w Hi0 v' Hword) as Htab0.
  assert (tab v' 4 root (p0 ++ [i0]) = None) as Hq0.
  { rewrite tab_snoc, Htab0. cbv zeta. fold slot. rewrite Hslot. by rewrite andb_false_r. }
  split_and!.
  - split; [apply frames_ok_mem, Hw|]. eapply (tree_cut w root p0 t0 i0); try done. intros t. apply table_ok_mem.
  - split; [done..| |].
    + intros p t Hp Ht. left. destruct (decide (p0 ++ [i0] `prefix_of` p)) as [[r ->]|Hn].
      * by rewrite (tab_prefix_None _ _ _ _ r Hq0) in Ht.
      * rewrite Htab in Ht by done. by rewrite (tab_mem v) in Ht.
    + intros a Ha Hca Hno. unfold v'. change 0 with (u64 0) at 1. rewrite word_store by (try done; by apply slot_aligned).
      destruct (Z.eqb_spec a slot) as [->|]; [|apply Hww]. destruct (Hno p0 t0 Hp0 Ht0). unfold slot. divlia.
  - intros va. unfold xlate. destruct (sign_extended va); [|done]. destruct (decide (p0 ++ [i0] `prefix_of` vpath va)) as [Hpre|Hpre].
    + rewrite (walk_absent v' root va p0 t0 i0), (walk_absent v root va p0 t0 i0); [done|lia|done..|lia|done|done|].
      fold slot. by rewrite Hslot.
    + rewrite (entry_walk w root p0 t0 i0 Hw Hp0 Ht0w Hi0 v' Hword va Hpre). by apply walk_mem.
  - done.
  - intros p Hp Hn. rewrite Htab by done. by apply tab_mem.
  - done.
Qed.

(** The entry of a new table. *)
Lemma stage_new w f v' : space w root -> mem w = mem v -> zlen (table w) = zlen (table v) -> mem_size w = mem_size v ->
  (forall g, frame_count v g <= frame_count w g) -> table_ok w f -> frame_count v (f / PAGE_SIZE) = 0 ->
  present (word v slot) = false -> v' = set_mem w (mem v') ->
  (forall b, b mod 8 = 0 -> word v' b = if b =? slot then new_entry f flags else
     if (f <=? b) && (b <? f + PAGE_SIZE) then 0 else word w b) -> stage true v'.
Proof.
  intros Hw Hm Hl Hs Hc [F1 F2 F3 F4] Hfree Habs Ev Hwd. pose proof (frames_ok_mem w (mem v') (proj1 Hw)) as Hok'. rewrite <- Ev in Hok'.
  assert (f < 2 ^ 64) as Hf64 by (destruct Hw as [[_ _ _ _ _ Hz _ _] _]; divlia).
  destruct (new_entry_ok f flags ltac:(lia) F1 Hflags) as (_ & Hpres & Hnl & Hta).
  assert (forall a, word w a = word v a) as Hww by (intros a; unfold word; by rewrite Hm).
  assert (tab w 4 root p0 = Some t0) as Ht0w by (by rewrite (tab_mem v)).
  pose proof (entry_table w root p0 t0 Hw Hp0 Ht0w) as Htok. pose proof (to_aligned _ _ Htok) as Hal.
  assert (forall p t, idxs p -> tab w 4 root p = Some t -> t <> f) as Hnf.
  { intros p t Hp Ht ->. rewrite (tab_mem v) in Ht by done. destruct Hsp as [_ [T1 _]]. pose proof (to_used _ _ (T1 p f Hp Ht)). lia. }
  assert (forall p t i, idxs p -> 0 <= i < 512 -> tab w 4 root p = Some t -> t + 8 * i <> slot -> word v' (t + 8 * i) = word w (t + 8 * i)) as Hword.
  { intros p t i Hp Hi Ht Hne. pose proof (Hnf p t Hp Ht). destruct Hw as [_ [T1 _]]. pose proof (to_aligned _ _ (T1 p t Hp Ht)).
    rewrite Hwd by (by apply slot_aligned). destruct (Z.eqb_spec (t + 8 * i) slot); [done|].
    destruct (Z.leb_spec f (t + 8 * i)), (Z.ltb_spec (t + 8 * i) (f + PAGE_SIZE)); try done. divlia. }
  assert (word v' slot = new_entry f flags) as Hslot by (rewrite Hwd, Z.eqb_refl by (by apply slot_aligned); done).
  assert (forall i, 0 <= i < 512 -> word v' (f + 8 * i) = 0) as Hzero.
  { intros i Hi. rewrite Hwd by (by apply slot_aligned). destruct (Z.eqb_spec (f + 8 * i) slot) as [E|].
    - destruct (slot_inj f i t0 i0) as [-> _]; [done..|]. by destruct (Hnf p0 t0 Hp0 Ht0w).
    - destruct (Z.leb_spec f (f + 8 * i)), (Z.ltb_spec (f + 8 * i) (f + PAGE_SIZE)); try done; lia. }
  pose proof (entry_tab w root p0 t0 i0 Hw Hp0 Ht0w Hi0 v' Hword) as Htab.
  pose proof (entry_tab0 w root p0 t0 i0 Hw Hp0 Ht0w Hi0 v' Hword) as Htab0.
  assert (tab v' 4 root (p0 ++ [i0]) = Some f) as Hq0.
  { rewrite tab_snoc, Htab0. cbv zeta. fold slot. rewrite Hslot, Hpres. unfold leafb. rewrite Hnl, andb_false_r, orb_false_r.
    destruct (Nat.ltb_spec (length p0) 4), (Nat.eqb_spec (4 - length p0) 1); try lia. cbn [andb negb]. by rewrite Hta. }
  assert (forall t, table_ok w t -> table_ok v' t) as Hkeep by (intros t; rewrite Ev; apply table_ok_mem).
  split_and!.
  - split; [done|]. eapply (tree_grow w root p0 t0 i0); try done.
    + intros p Hp Ht. by apply (Hnf p f Hp Ht).
    + apply Hkeep. by split.
  - assert (table v' = table w /\ mem_size v' = mem_size w) as [Etw Esw] by (by rewrite Ev).
    split; [congruence|congruence|unfold frame_count in *; by rewrite Etw| |].
    + intros p t Hp Ht. destruct (decide (p0 ++ [i0] `prefix_of` p)) as [[r ->]|Hn].
      * right. destruct r as [|i r]; [rewrite app_nil_r, Hq0 in Ht; by injection Ht as <-|].
        apply Forall_app in Hp as [_ Hp]. apply Forall_cons in Hp as [Hi _].
        change (i :: r) with ([i] ++ r) in Ht. rewrite app_assoc in Ht.
        rewrite (tab_prefix_None _ _ _ _ r) in Ht; [done|]. rewrite tab_snoc, Hq0. cbv zeta. rewrite Hzero by done. by rewrite andb_false_r.
      * left. rewrite Htab in Ht by done. by rewrite (tab_mem v) in Ht.
    + intros a Ha Hca Hno. rewrite Hwd by done. destruct (Z.eqb_spec a slot) as [->|].
      * destruct (Hno p0 t0 Hp0 Ht0). unfold slot. divlia.
      * destruct (Z.leb_spec f a), (Z.ltb_spec a (f + PAGE_SIZE)); try apply Hww.
        replace (a / PAGE_SIZE) with (f / PAGE_SIZE) in Hca by divlia. lia.
  - intros va. unfold xlate. destruct (sign_extended va); [|done]. destruct (decide (p0 ++ [i0] `prefix_of` vpath va)) as [Hpre|Hpre].
    + rewrite (walk_absent v root va p0 t0 i0) by (try done; lia).
      destruct Hpre as [r Hr]. destruct r as [|j r].
      { apply (f_equal length) in Hr. rewrite app_nil_r, length_app in Hr. cbn in Hr. lia. }
      assert (0 <= j < 512) as Hj.
      { pose proof (vpath_idxs va 4) as Hall. change (take 4 (vpath va)) with (vpath va) in Hall. rewrite Hr in Hall.
        apply Forall_app in Hall as [_ Hall]. by apply Forall_cons in Hall as [? _]. }
      apply (walk_absent v' root va (p0 ++ [i0]) f j); [rewrite length_app; cbn; lia|done| |by rewrite Hzero].
      rewrite Hr. exists r. by rewrite <- (app_assoc (p0 ++ [i0])).
    + rewrite (entry_walk w root p0 t0 i0 Hw Hp0 Ht0w Hi0 v' Hword va Hpre). by apply walk_mem.
  - done.
  - intros p Hp Hn. rewrite Htab by done. by apply tab_mem.
  - intros _. by rewrite Hslot.
Qed.

Lemma ensure_ok : exists b v', ensure_table fuel slot flags v = Some (b, v') /\ stage b v'.
Proof.
  unfold ensure_table. pose proof (entry_table v root p0 t0 Hsp Hp0 Ht0) as Htok. pose proof Hsp as [Hok _].
  unfold slot at 1. rewrite (bind_run _ _ _ _ _ (load_slot v t0 i0 Hok Htok Hi0)). fold slot.
  destruct (present (word v slot)) eqn:Ep.
  { exists true, v. split; [done|]. split_and!; try done. apply grows_refl. }
  pose proof (next_frame _ Hok).
  destruct (alloc_page_ok fuel v Hok ltac:(lia)) as (a & w & Ha & HE & _). rewrite (bind_run _ _ _ _ _ Ha).
  destruct (alloc_space v root a w Hsp HE) as [Hw Hc]. destruct HE as (Hokw & Hm & Hs & Hl & HE).
  assert (table_ok w t0) as Htokw by (by eapply table_ok_counts).
  unfold slot at 1. rewrite (bind_run _ _ _ _ _ (store_slot w t0 i0 a Hokw Htokw Hi0)). fold slot.
  destruct HE as [(-> & _ & _)|(A1 & A2 & A3 & A4 & A5)].
  { eexists false, _. split; [reflexivity|]. by apply stage_absent. }
  destruct (Z.eqb_spec a 0); [lia|]. set (w1 := set_mem w _).
  assert (table_ok w a) as Haok. { split; [done|done|congruence|]. rewrite A5, Z.eqb_refl. lia. }
  assert (zero_frame a w1 = Some (tt, set_mem w1 (fill (mem w1) a (fun _ => 0) 512))) as Hz.
  { unfold zero_frame, accessible. change (mem_size w1) with (mem_size w). destruct Hokw as [_ _ _ _ _ Hsz _ _].
    destruct (Z.leb_spec 0 a), (Z.leb_spec (a + PAGE_SIZE) (mem_size w)), (Z.eqb_spec (a mod 8) 0); try done; divlia. }
  rewrite (bind_run _ _ _ _ _ Hz). set (w2 := set_mem w1 _).
  assert (frames_ok w2) as Hok2 by (by do 2 apply frames_ok_mem).
  assert (table_ok w2 t0) as Htok2 by (by do 2 apply table_ok_mem).
  fold (new_entry a flags). unfold slot at 1. rewrite (bind_run _ _ _ _ _ (store_slot w2 t0 i0 (new_entry a flags) Hok2 Htok2 Hi0)). fold slot.
  eexists true, _. split; [reflexivity|]. eapply (stage_new w a); try done.
  intros b Hb. pose proof (to_aligned _ _ Htok) as Hal. rewrite word_store by (try done; by apply slot_aligned).
  assert (a < 2 ^ 64) as Ha64 by (destruct Hokw as [_ _ _ _ _ Hz' _ _]; divlia).
  rewrite (proj1 (new_entry_ok a flags ltac:(lia) A2 Hflags)). destruct (Z.eqb_spec b slot); [done|].
  unfold w2. rewrite word_fill by (try done; divlia). destruct (_ && _); [done|].
  unfold w1. rewrite word_store by (try done; by apply slot_aligned). by destruct (Z.eqb_spec b slot).
Qed.
End ensure.

(** *** Storing an entry that ends its path *)

Section cut.
Context (v : vm) (root : Z) (p0 : list Z) (t0 i0 x : Z).
Hypothesis Hsp : space v root.
Hypothesis Hp0 : idxs p0.
Hypothesis Ht0 : tab v 4 root p0 = Some t0.
Hypothesis Hi0 : 0 <= i0 < 512.
Hypothesis Hx : present (u64 x) && negb (leafb (4 - length p0) (u64 x)) = false.
Let slot : Z := t0 + 8 * i0.
Let v' : vm := set_mem v (<[slot / 8 := u64 x]> (mem v)).

Lemma store_cut : store slot x v = Some (tt, v') /\ space v' root /\ grows root v v' /\ word v' slot = u64 x /\
  tab v' 4 root p0 = Some t0 /\
  (forall p, idxs p -> ~ p0 ++ [i0] `prefix_of` p -> tab v' 4 root p = tab v 4 root p) /\
  (forall va, ~ p0 ++ [i0] `prefix_of` vpath va -> walk v' 4 root va = walk v 4 root va).
Proof.
  pose proof (entry_table v root p0 t0 Hsp Hp0 Ht0) as Htok. pose proof (to_aligned _ _ Htok) as Hal.
  assert (forall b, b mod 8 = 0 -> word v' b = if b =? slot then u64 x else word v b) as Hwd.
  { intros b Hb. unfold v'. apply word_store; [by apply slot_aligned|done]. }
  assert (forall p t i, idxs p -> 0 <= i < 512 -> tab v 4 root p = Some t -> t + 8 * i <> slot -> word v' (t + 8 * i) = word v (t + 8 * i)) as Hword.
  { intros p t i Hp Hi Ht Hne. rewrite Hwd; [by destruct (Z.eqb_spec (t + 8 * i) slot)|].
    apply slot_aligned. destruct Hsp as [_ [T1 _]]. by eapply to_aligned, T1. }
  assert (word v' slot = u64 x) as Hslot by (rewrite Hwd, Z.eqb_refl by (by apply slot_aligned); done).
  pose proof (entry_tab v root p0 t0 i0 Hsp Hp0 Ht0 Hi0 v' Hword) as Htab.
  pose proof (entry_tab0 v root p0 t0 i0 Hsp Hp0 Ht0 Hi0 v' Hword) as Htab0.
  assert (tab v' 4 root (p0 ++ [i0]) = None) as Hq0.
  { rewrite tab_snoc, Htab0. cbv zeta. fold slot. rewrite Hslot, <- andb_assoc, Hx. by rewrite andb_false_r. }
  split_and!; [by apply store_slot; [apply Hsp|..]| | |done|done|done|].
  - split; [apply frames_ok_mem, Hsp|]. eapply (tree_cut v root p0 t0 i0); try done. intros t. apply table_ok_mem.
  - split; [done|done|done| |].
    + intros p t Hp Ht. left. destruct (decide (p0 ++ [i0] `prefix_of` p)) as [[r ->]|Hn].
      * by rewrite (tab_prefix_None _ _ _ _ r Hq0) in Ht.
      * by rewrite Htab in Ht.
    + intros a Ha Hca Hno. rewrite Hwd by done. destruct (Z.eqb_spec a slot) as [->|]; [|done].
      destruct (Hno p0 t0 Hp0 Ht0). unfold slot. divlia.
  - apply (entry_walk v root p0 t0 i0 Hsp Hp0 Ht0 Hi0 v' Hword).
Qed.
End cut.

(** ** Pages *)

Lemma idx_div k va : idx k va = va / 2 ^ shift k mod 512.
Proof.
  unfold idx. change 0x1ff with (Z.ones 9). rewrite Z.land_ones, Z.shiftr_div_pow2 by (unfold shift; lia). done.
Qed.

(** Two addresses of the same page. *)
Definition same_page (va va' : Z) : bool := va / PAGE_SIZE =? va' / PAGE_SIZE.

Lemma sign_extended_div va : 0 <= va < 2 ^ 64 -> sign_extended va = true <-> va < 2 ^ 47 \/ 2 ^ 64 - 2 ^ 47 <= va.
Proof.
  intros Hv. unfold sign_extended. change (PML4T_INDEX va) with (idx 4 va). pose proof (idx_range 4 va) as Hr.
  change 0x100 with (Z.shiftl 1 8). rewrite land_shl1, Z.testbit_eqb, Z.shiftr_div_pow2 by lia.
  assert (idx 4 va = va / 2 ^ 39 mod 512) as E by apply idx_div. rewrite E in *. rewrite Z.eqb_eq.
  destruct (Z.eqb_spec (va / 2 ^ 39 mod 512 / 2 ^ 8 mod 2) 1); divlia.
Qed.

Lemma same_page_path va va' : 0 <= va < 2 ^ 64 -> 0 <= va' < 2 ^ 64 -> sign_extended va = true -> sign_extended va' = true ->
  vpath va = vpath va' <-> va / PAGE_SIZE = va' / PAGE_SIZE.
Proof.
  intros Hv Hv' H1 H2. apply sign_extended_div in H1, H2; [|done..]. unfold vpath. rewrite !idx_div.
  change (shift 1) with 12. change (shift 2) with 21. change (shift 3) with 30. change (shift 4) with 39. split.
  - intros [= E4 E3 E2 E1]. divlia.
  - intros E.
    assert (forall k, 0 <= k -> va / 2 ^ (12 + k) = va' / 2 ^ (12 + k)) as Hk.
    { intros k Hk. rewrite Z.pow_add_r, <- !Z.div_div by lia. change (2 ^ 12) with PAGE_SIZE. by rewrite E. }
    assert (va / 2 ^ 12 = va' / 2 ^ 12) as -> by done.
    assert (va / 2 ^ 21 = va' / 2 ^ 21) as -> by (by apply (Hk 9)).
    assert (va / 2 ^ 30 = va' / 2 ^ 30) as -> by (by apply (Hk 18)).
    by assert (va / 2 ^ 39 = va' / 2 ^ 39) as -> by (by apply (Hk 27)).
Qed.

(** ** Mapping a page *)

Definition leaf_entry (phys flags : Z) : Z := Z.lor (ALIGN_DOWN phys PAGE_SIZE) (Z.lor PAGE_FLAG_PRESENT flags).

Lemma leaf_entry_ok phys flags : 0 <= phys < 2 ^ 64 -> map_flags flags ->
  u64 (leaf_entry phys flags) = leaf_entry phys flags /\ present (leaf_entry phys flags) = true /\
  ALIGN_DOWN (leaf_entry phys flags) PAGE_SIZE = ALIGN_DOWN phys PAGE_SIZE.
Proof.
  intros Hp [Hf _]. unfold leaf_entry. pose proof (align_page phys Hp) as Ea.
  pose proof (lor_bound 12 1 flags ltac:(lia) ltac:(lia) Hf) as Hb. change (2 ^ 12) with PAGE_SIZE in Hb.
  assert (ALIGN_DOWN phys PAGE_SIZE mod PAGE_SIZE = 0) as Hm by (rewrite Ea; by apply Z.mod_mul).
  assert (0 <= ALIGN_DOWN phys PAGE_SIZE <= phys) as Hle by (rewrite Ea; divlia). split_and!.
  - rewrite page_lor by done. apply wrap_small. divlia.
  - by rewrite present_bit, !Z.lor_spec, orb_true_r.
  - by apply table_addr_lor; [lia|..].
Qed.

(** A present entry that is no leaf leads to a table. *)
Lemma tab_next v root p t i : (length p < 4)%nat -> tab v 4 root p = Some t -> present (word v (t + 8 * i)) = true ->
  leafb (4 - length p) (word v (t + 8 * i)) = false -> tab v 4 root (p ++ [i]) = Some (table_addr (word v (t + 8 * i))).
Proof.
  intros Hl Ht Hp Hn. rewrite tab_snoc, Ht. cbv zeta. rewrite Hp, Hn. by destruct (Nat.ltb_spec (length p) 4); [|lia].
Qed.

(** What mapping [phys] at the page of [va] does. *)
Definition map_effect (root phys va : Z) (v : vm) (r : vm_result) (v' : vm) : Prop :=
  space v' root /\ grows root v v' /\
  forall va', xlate v' root va' =
    match r with
    | VmOk => if sign_extended va' && bool_decide (vpath va = vpath va')
              then Z.lor (ALIGN_DOWN phys PAGE_SIZE) (Z.land va' (PAGE_SIZE - 1)) else xlate v root va'
    | VmFail _ => xlate v root va'
    end.

Lemma map_page_ok fuel v root phys va flags :
  space v root -> zlen (table v) < Z.of_nat fuel -> 0 <= phys < 2 ^ 64 -> map_flags flags ->
  exists r v', vm_map_page fuel root phys va flags v = Some (r, v') /\ map_effect root phys va v r v'.
Proof.
  intros Hsp Hfu Hph Hfl. unfold vm_map_page. pose proof Hsp as [Hok _].
  assert (forall e, map_effect root phys va v (VmFail e) v) as Hstay by (intros e; split_and!; [done|apply grows_refl|done]).
  destruct (sign_extended va) eqn:Esx; [|by eexists _, v]. cbn [negb].
  change (PML4T_INDEX va) with (idx 4 va). change (PDPT_INDEX va) with (idx 3 va).
  change (PDT_INDEX va) with (idx 2 va). change (PT_INDEX va) with (idx 1 va).
  pose proof (idx_range 4 va) as R4. pose proof (idx_range 3 va) as R3. pose proof (idx_range 2 va) as R2. pose proof (idx_range 1 va) as R1.
  (* PML4T *)
  destruct (ensure_ok fuel flags root [] root (idx 4 va) v Hfl Hfu Hsp ltac:(constructor) ltac:(cbn; lia) eq_refl R4)
    as (b1 & v1 & H1 & S1 & G1 & X1 & T1 & _ & P1).
  rewrite (bind_run _ _ _ _ _ H1). destruct b1; cbn [negb]; [|by eexists _, v1]. specialize (P1 eq_refl).
  pose proof S1 as [Hok1 Tr1]. set (s4 := root + 8 * idx 4 va) in *.
  assert (table_ok v1 root) as To1 by (eapply tr_table; [done|constructor|done]).
  unfold s4 at 1. rewrite (bind_run _ _ _ _ _ (load_slot v1 root (idx 4 va) Hok1 To1 R4)). fold s4.
  assert (tab v1 4 root [idx 4 va] = Some (table_addr (word v1 s4))) as Q1 by (by apply (tab_next v1 root [] root); [cbn; lia|..]).
  set (t3 := table_addr (word v1 s4)) in *. set (s3 := t3 + 8 * idx 3 va).
  (* PDPT *)
  destruct (ensure_ok fuel flags root [idx 4 va] t3 (idx 3 va) v1 Hfl ltac:(rewrite (gr_len _ _ _ G1); lia) S1 (vpath_idxs va 1) ltac:(cbn; lia) Q1 R3)
    as (b2 & v2 & H2 & S2 & G2 & X2 & T2 & _ & P2). fold s3 in H2, P2.
  rewrite (bind_run _ _ _ _ _ H2). pose proof (grows_trans _ _ _ _ G1 G2 Hok) as G02.
  assert (forall va', xlate v2 root va' = xlate v root va') as X02 by (intros; by rewrite X2).
  destruct b2; cbn [negb]; [|by eexists _, v2]. specialize (P2 eq_refl). pose proof S2 as [Hok2 Tr2].
  assert (table_ok v2 t3) as To2 by (eapply tr_table; [done|exact (vpath_idxs va 1)|exact T2]).
  unfold s3 at 1. rewrite (bind_run _ _ _ _ _ (load_slot v2 t3 (idx 3 va) Hok2 To2 R3)). fold s3.
  destruct (large (word v2 s3)) eqn:L2; [by eexists _, v2|].
  assert (tab v2 4 root [idx 4 va; idx 3 va] = Some (table_addr (word v2 s3))) as Q2.
  { apply (tab_next v2 root [idx 4 va] t3); [cbn; lia|done|done|]. cbn. done. }
  set (t2 := table_addr (word v2 s3)) in *. set (s2 := t2 + 8 * idx 2 va).
  (* PDT *)
  destruct (ensure_ok fuel flags root [idx 4 va; idx 3 va] t2 (idx 2 va) v2 Hfl ltac:(rewrite (gr_len _ _ _ G02); lia) S2 (vpath_idxs va 2) ltac:(cbn; lia) Q2 R2)
    as (b3 & v3 & H3 & S3 & G3 & X3 & T3 & _ & P3). fold s2 in H3, P3.
  rewrite (bind_run _ _ _ _ _ H3). pose proof (grows_trans _ _ _ _ G02 G3 Hok) as G03.
  assert (forall va', xlate v3 root va' = xlate v root va') as X03 by (intros; by rewrite X3).
  destruct b3; cbn [negb]; [|by eexists _, v3]. specialize (P3 eq_refl). pose proof S3 as [Hok3 Tr3].
  assert (table_ok v3 t2) as To3 by (eapply tr_table; [done|exact (vpath_idxs va 2)|exact T3]).
  unfold s2 at 1. rewrite (bind_run _ _ _ _ _ (load_slot v3 t2 (idx 2 va) Hok3 To3 R2)). fold s2.
  destruct (large (word v3 s2)) eqn:L3; [by eexists _, v3|].
  assert (tab v3 4 root [idx 4 va; idx 3 va; idx 2 va] = Some (table_addr (word v3 s2))) as Q3.
  { apply (tab_next v3 root [idx 4 va; idx 3 va] t2); [cbn; lia|done|done|]. cbn. done. }
  set (t1 := table_addr (word v3 s2)) in *. fold (leaf_entry phys flags).
  (* PT *)
  destruct (leaf_entry_ok phys flags Hph Hfl) as (Eu & Epres & Eal).
  destruct (store_cut v3 root [idx 4 va; idx 3 va; idx 2 va] t1 (idx 1 va) (leaf_entry phys flags) S3 (vpath_idxs va 3) Q3 R1
    ltac:(by rewrite andb_false_r)) as (Hst & S4 & G4 & W4 & T4 & _ & X4).
  rewrite (bind_run _ _ _ _ _ Hst). eexists VmOk, _. split; [reflexivity|].
  split_and!; [done|by eapply grows_trans|]. intros va'. set (v' := set_mem v3 _) in *.
  rewrite Eu in W4. destruct (sign_extended va') eqn:Esx'; [|unfold xlate; by rewrite Esx']. cbn [andb].
  case_bool_decide as Evp.
  - unfold xlate. rewrite Esx'. rewrite (walk_at v' root va' 1 t1 ltac:(lia)).
    + cbn [walk]. injection Evp as _ _ _ E1. rewrite <- E1. rewrite W4, Epres. cbn [negb leafb Nat.eqb orb].
      change (2 ^ shift 1) with PAGE_SIZE. by rewrite Eal.
    + rewrite <- Evp. exact T4.
  - rewrite <- X03. unfold xlate. rewrite Esx'. apply X4. intros Hpre. apply Evp.
    destruct Hpre as [r Hr]. unfold vpath in *. cbn in Hr. by injection Hr as -> -> -> -> <-.
Qed.

(** ** Unmapping a page *)

(** The number of indices that the walk for [va] uses: up to an entry that is
    not present, or to the entry of the page. *)
Fixpoint depth (v : vm) (k : nat) (t va : Z) : nat :=
  match k with
  | O => 0%nat
  | S k' =>
      let e := word v (t + 8 * idx k va) in
      if negb (present e) || leafb k e then 1%nat else S (depth v k' (table_addr e) va)
  end.

(** All addresses that share the entry translate to nothing afterwards, and all
    others as before. *)
Definition unmap_effect (root : Z) (va : Z) (n : nat) (v v' : vm) : Prop :=
  space v' root /\ grows root v v' /\
  forall va', xlate v' root va' =
    if sign_extended va' && bool_decide (take n (vpath va) `prefix_of` vpath va') then 0 else xlate v root va'.

Lemma unmap_len va k : length (take (4 - S k) (vpath va)) = (4 - S k)%nat.
Proof. rewrite length_take. cbn. lia. Qed.

Section unmap.
Context (v : vm) (root va : Z) (k : nat) (t : Z).
Hypothesis Hsp : space v root.
Hypothesis Hk : (k < 4)%nat.
Hypothesis Ht : tab v 4 root (take (4 - S k) (vpath va)) = Some t.
Let slot : Z := t + 8 * idx (S k) va.

Lemma unmap_absent : present (word v slot) = false -> unmap_effect root va (4 - k) v v.
Proof.
  intros Habs. split_and!; [done|apply grows_refl|]. intros va'. unfold xlate. destruct (sign_extended va') eqn:E; [|done].
  cbn [andb]. case_bool_decide as Hpre; [|done]. rewrite vpath_snoc in Hpre by lia.
  eapply walk_absent; [rewrite unmap_len; lia|exact Ht|exact Hpre|exact Habs].
Qed.

Lemma unmap_store : exists v', store slot 0 v = Some (tt, v') /\ unmap_effect root va (4 - k) v v'.
Proof.
  destruct (store_cut v root (take (4 - S k) (vpath va)) t (idx (S k) va) 0 Hsp (vpath_idxs va _) Ht (idx_range _ _) eq_refl)
    as (Hst & S' & G' & W' & T' & _ & X'). eexists. split; [exact Hst|]. split_and!; [done..|]. intros va'.
  unfold xlate. destruct (sign_extended va') eqn:E; [|done]. cbn [andb]. rewrite vpath_snoc by lia. case_bool_decide as Hpre.
  - eapply walk_absent; [rewrite unmap_len; lia|exact T'|exact Hpre|by rewrite W'].
  - by apply X'.
Qed.
End unmap.

Lemma unmap_page_ok v root va : space v root -> sign_extended va = true ->
  exists v', vm_unmap_page root va v = Some (VmOk, v') /\ unmap_effect root va (depth v 4 root va) v v'.
Proof.
  intros Hsp Hsx. pose proof Hsp as [Hok Htr]. unfold vm_unmap_page. rewrite Hsx. cbn [negb].
  change (PML4T_INDEX va) with (idx 4 va). change (PDPT_INDEX va) with (idx 3 va).
  change (PDT_INDEX va) with (idx 2 va). change (PT_INDEX va) with (idx 1 va).
  assert (forall k t, (k < 4)%nat -> tab v 4 root (take (4 - S k) (vpath va)) = Some t ->
    load (t + 8 * idx (S k) va) v = Some (word v (t + 8 * idx (S k) va), v)) as Hload.
  { intros k t Hk Hp. apply load_slot; [done| |apply idx_range]. eapply tr_table; [done|apply vpath_idxs|exact Hp]. }
  assert (forall k t, (k < 4)%nat -> tab v 4 root (take (4 - S k) (vpath va)) = Some t ->
    present (word v (t + 8 * idx (S k) va)) = true -> leafb (S k) (word v (t + 8 * idx (S k) va)) = false ->
    tab v 4 root (take (4 - k) (vpath va)) = Some (table_addr (word v (t + 8 * idx (S k) va)))) as Hnext.
  { intros k t Hk Hp E1 E2. rewrite vpath_snoc by lia. pose proof (unmap_len va k) as El.
    apply tab_next; rewrite ?El; [lia|done|done|]. by replace (4 - (4 - S k))%nat with (S k) by lia. }
  cbn [depth]. rewrite (bind_run _ _ _ _ _ (Hload 3%nat root ltac:(lia) eq_refl)).
  destruct (present (word v (root + 8 * idx 4 va))) eqn:E4; cbn [negb orb].
  2: { exists v. split; [done|]. exact (unmap_absent v root va 3 root Hsp ltac:(lia) eq_refl E4). }
  pose proof (Hnext 3%nat root ltac:(lia) eq_refl E4 eq_refl) as T3. cbn [leafb Nat.eqb Nat.ltb Nat.leb orb andb].
  set (t3 := table_addr _) in *. rewrite (bind_run _ _ _ _ _ (Hload 2%nat t3 ltac:(lia) T3)).
  destruct (present (word v (t3 + 8 * idx 3 va))) eqn:E3; cbn [negb orb].
  2: { exists v. split; [done|]. exact (unmap_absent v root va 2 t3 Hsp ltac:(lia) T3 E3). }
  destruct (large (word v (t3 + 8 * idx 3 va))) eqn:L3.
  { destruct (unmap_store v root va 2 t3 Hsp ltac:(lia) T3) as (v' & Hs & HE). rewrite (bind_run _ _ _ _ _ Hs). by exists v'. }
  pose proof (Hnext 2%nat t3 ltac:(lia) T3 E3 L3) as T2. set (t2 := table_addr (word v (t3 + _))) in *.
  rewrite (bind_run _ _ _ _ _ (Hload 1%nat t2 ltac:(lia) T2)).
  destruct (present (word v (t2 + 8 * idx 2 va))) eqn:E2; cbn [negb orb].
  2: { exists v. split; [done|]. exact (unmap_absent v root va 1 t2 Hsp ltac:(lia) T2 E2). }
  destruct (large (word v (t2 + 8 * idx 2 va))) eqn:L2.
  { destruct (unmap_store v root va 1 t2 Hsp ltac:(lia) T2) as (v' & Hs & HE). rewrite (bind_run _ _ _ _ _ Hs). by exists v'. }
  pose proof (Hnext 1%nat t2 ltac:(lia) T2 E2 L2) as T1. set (t1 := table_addr (word v (t2 + _))) in *.
  destruct (unmap_store v root va 0 t1 Hsp ltac:(lia) T1) as (v' & Hs & HE). rewrite (bind_run _ _ _ _ _ Hs).
  exists v'. split; [done|]. rewrite orb_true_r. exact HE.
Qed.

(** ** The tables of the kernel *)

(** The words at aligned addresses that were not stored to keep their values. *)
Definition writes (v v' : vm) (P : Z -> Prop) : Prop :=
  v' = set_mem v (mem v') /\ forall b, b mod 8 = 0 -> ~ P b -> word v' b = word v b.

Lemma writes_trans v1 v2 v3 (P : Z -> Prop) : writes v1 v2 P -> writes v2 v3 P -> writes v1 v3 P.
Proof.
  intros [E1 W1] [E2 W2]. split; [|intros b Hb Hn; rewrite W2 by done; by apply W1].
  rewrite E2. cbn [mem set_mem]. rewrite E1. done.
Qed.

Lemma writes_weaken v v' (P Q : Z -> Prop) : writes v v' P -> (forall b, P b -> Q b) -> writes v v' Q.
Proof. intros [E W] HPQ. split; [done|]. intros b Hb Hn. apply W; [done|]. auto. Qed.

Definition can_store (v : vm) (a : Z) : Prop := 0 <= a /\ a mod 8 = 0 /\ a + 8 <= mem_size v.

Lemma word_store_run v a x : can_store v a -> exists v', store a x v = Some (tt, v') /\ writes v v' (fun b => b = a) /\ word v' a = u64 x.
Proof.
  intros (H1 & H2 & H3). unfold store, accessible. rewrite H2.
  destruct (Z.leb_spec 0 a), (Z.leb_spec (a + 8) (mem_size v)); try lia. eexists. split; [reflexivity|]. split.
  - split; [done|]. intros b Hb Hn. rewrite word_store by done. by destruct (Z.eqb_spec b a).
  - rewrite word_store by done. by rewrite Z.eqb_refl.
Qed.

Lemma store_seq_run slot value n : forall v i,
  (forall j, i <= j < i + Z.of_nat n -> can_store v (slot j)) ->
  (forall j j', i <= j < i + Z.of_nat n -> i <= j' < i + Z.of_nat n -> slot j = slot j' -> j = j') ->
  exists v', store_seq slot value n i v = Some (tt, v') /\
    writes v v' (fun b => exists j, i <= j < i + Z.of_nat n /\ b = slot j) /\
    forall j, i <= j < i + Z.of_nat n -> word v' (slot j) = u64 (value j).
Proof.
  induction n as [|n IH]; intros v i Hcan Hinj; cbn [store_seq].
  { exists v. split; [done|]. split; [split; [by destruct v|done]|]. intros; lia. }
  destruct (word_store_run v (slot i) (value i) (Hcan i ltac:(lia))) as (v1 & H1 & [E1 W1] & X1).
  rewrite (bind_run _ _ _ _ _ H1).
  destruct (IH v1 (i + 1)) as (v' & H2 & [E2 W2] & X2).
  { intros j Hj. rewrite E1. apply (Hcan j). lia. }
  { intros j j' Hj Hj'. apply Hinj; lia. }
  exists v'. split; [done|]. split.
  - apply (writes_trans v v1 v').
    + apply (writes_weaken v v1 (fun b => b = slot i)); [by split|]. intros b ->. exists i. lia.
    + apply (writes_weaken v1 v' (fun b => exists j, i + 1 <= j < i + 1 + Z.of_nat n /\ b = slot j)); [by split|].
      intros b (j & Hj & ->). exists j. split; [lia|done].
  - intros j Hj. destruct (Z.eq_dec j i) as [->|Hne]; [|apply X2; lia]. rewrite W2; [done|apply (Hcan i); lia|].
    intros (j' & Hj' & E). apply Hinj in E; lia.
Qed.

(** The static tables are different pages of the memory. *)
Record symbols_ok (k : kernel_symbols) (size : Z) : Prop := {
  so_aligned : forall a, a ∈ [kernel_pml4t k; alloc_space_pdpt k; phys_map_pdpt k; kernel_thread_local_pdpt k;
                              kernel_stack_pdt k; kernel_stack_pt k] -> 0 < a /\ a mod PAGE_SIZE = 0 /\ a + 4 * PAGE_SIZE <= size;
  so_size : size <= 2 ^ 52;
  so_apart : forall a, a ∈ [kernel_pml4t k; kernel_thread_local_pdpt k; kernel_stack_pdt k; kernel_stack_pt k] ->
    a + PAGE_SIZE <= phys_map_pdpt k \/ phys_map_pdpt k + 4 * PAGE_SIZE <= a;
  so_nodup : NoDup [kernel_pml4t k; kernel_thread_local_pdpt k; kernel_stack_pdt k; kernel_stack_pt k]
}.

(** Membership in a list that is written out. *)
Ltac inlist := clear; repeat first [apply list_elem_of_here | apply list_elem_of_further].

(** Words of the PML4T from entry 508 on and of the map of physical memory. *)
Definition map_word (k : kernel_symbols) (b : Z) : Prop :=
  (exists i, 0 <= i < 4 /\ b = kernel_pml4t k + 8 * (i + 508)) \/ (exists j, 0 <= j < 2048 /\ b = phys_map_pdpt k + 8 * j).

Definition map_words_ok (k : kernel_symbols) (v : vm) : Prop :=
  (forall i, 0 <= i < 4 -> word v (kernel_pml4t k + 8 * (i + 508)) = u64 (Z.lor (phys_map_pdpt k + PAGE_SIZE * i) kernel_flags)) /\
  (forall j, 0 <= j < 2048 -> word v (phys_map_pdpt k + 8 * j) = u64 (Z.lor (j * HUGE_PAGE_SIZE) 0x183)).

(** Stores elsewhere keep the map. *)
Lemma map_words_keep k v v' P : symbols_ok k (mem_size v) -> map_words_ok k v -> writes v v' P ->
  (forall b, P b -> ~ map_word k b) -> map_words_ok k v'.
Proof.
  intros Hs [M1 M2] [E W] HP.
  destruct (so_aligned _ _ Hs (kernel_pml4t k)) as (? & ? & _); [inlist|].
  destruct (so_aligned _ _ Hs (phys_map_pdpt k)) as (? & ? & _); [inlist|]. split.
  - intros i Hi. rewrite W; [by apply M1|divlia|]. intros Hp. apply (HP _ Hp). left. eauto.
  - intros j Hj. rewrite W; [by apply M2|divlia|]. intros Hp. apply (HP _ Hp). right. eauto.
Qed.

Lemma map_word_page k b a i : symbols_ok k b -> a ∈ [kernel_thread_local_pdpt k; kernel_stack_pdt k; kernel_stack_pt k] ->
  0 <= i < 512 -> ~ map_word k (a + 8 * i).
Proof.
  intros Hs Ha Hi. destruct (so_aligned _ _ Hs a) as (? & ? & _); [set_solver|].
  destruct (so_aligned _ _ Hs (kernel_pml4t k)) as (? & ? & _); [set_solver|].
  destruct (so_apart _ _ Hs a) as [Hap|Hap]; [set_solver|..];
    (assert (a <> kernel_pml4t k) as Hne; [intros ->; pose proof (so_nodup _ _ Hs) as Hnd; apply NoDup_cons in Hnd as [Hnd _]; done|]);
    intros [(i' & Hi' & E)|(j & Hj & E)]; divlia.
Qed.

(** A step of the initialisation after the map is in place. *)
Lemma init_step k v a i x : symbols_ok k (mem_size v) -> map_words_ok k v ->
  a ∈ [kernel_pml4t k; kernel_thread_local_pdpt k; kernel_stack_pdt k; kernel_stack_pt k] -> 0 <= i < 512 ->
  ~ map_word k (a + 8 * i) ->
  exists v', store (a + 8 * i) x v = Some (tt, v') /\ mem_size v' = mem_size v /\ map_words_ok k v'.
Proof.
  intros Hs Hm Ha Hi Hn. destruct (so_aligned _ _ Hs a) as (A1 & A2 & A3); [clear - Ha; set_solver|].
  destruct (word_store_run v (a + 8 * i) x) as (v' & H1 & W & _); [split_and!; divlia|].
  exists v'. split; [done|]. split; [destruct W as [-> _]; done|]. eapply map_words_keep; [done|done|exact W|]. by intros b ->.
Qed.

Lemma vm_init_ok k total v : symbols_ok k (mem_size v) ->
  exists v', vm_init k total v = Some (tt, v') /\ mem_size v' = mem_size v /\ map_words_ok k v'.
Proof.
  intros Hs. unfold vm_init. pose proof (so_aligned _ _ Hs) as Hal.
  destruct (Hal (kernel_pml4t k)) as (P1 & P2 & P3); [inlist|]. destruct (Hal (phys_map_pdpt k)) as (M1 & M2 & M3); [inlist|].
  destruct (word_store_run v (kernel_pml4t k + 8 * 507) (Z.lor (alloc_space_pdpt k) kernel_flags)) as (v1 & H1 & [E1 _] & _); [split_and!; divlia|].
  rewrite (bind_run _ _ _ _ _ H1). assert (mem_size v1 = mem_size v) as Z1 by (by rewrite E1).
  destruct (store_seq_run (fun i => kernel_pml4t k + 8 * (i + 508)) (fun i => Z.lor (phys_map_pdpt k + PAGE_SIZE * i) kernel_flags) 4 v1 0)
    as (v2 & H2 & [E2 _] & X2); [intros j Hj; split_and!; divlia|intros; lia|].
  rewrite (bind_run _ _ _ _ _ H2). assert (mem_size v2 = mem_size v) as Z2 by (by rewrite E2).
  destruct (store_seq_run (fun i => phys_map_pdpt k + 8 * i)
    (fun i => Z.lor (i * HUGE_PAGE_SIZE) (Z.lor (Z.lor (Z.lor PAGE_FLAG_PRESENT PAGE_FLAG_RW) PAGE_FLAG_SIZE) PAGE_FLAG_GLOBAL)) (Z.to_nat (PAGE_STRUCT_ENTRIES * 4)) v2 0)
    as (v3 & H3 & [E3 W3] & X3); [intros j Hj; split_and!; divlia|intros; lia|].
  rewrite (bind_run _ _ _ _ _ H3). assert (mem_size v3 = mem_size v) as Z3 by (by rewrite E3).
  assert (map_words_ok k v3) as MW3.
  { split; [|intros j Hj; apply X3; lia]. intros i Hi. rewrite W3; [apply X2; lia|divlia|]. intros (j & Hj & E).
    destruct (so_apart _ _ Hs (kernel_pml4t k)); [inlist|lia..]. }
  clear W3 X3 X2.
  assert (PML4T_INDEX THREAD_LOCAL_BASE_VMA = 506) as -> by done.
  destruct (init_step k v3 (kernel_pml4t k) 506 (Z.lor (kernel_thread_local_pdpt k) user_flags)) as (v4 & H4 & Z4 & MW4);
    [by rewrite Z3|done|inlist|lia| |].
  { intros [(i & Hi & E)|(j & Hj & E)]; [lia|]. destruct (so_apart _ _ Hs (kernel_pml4t k)); [inlist|lia..]. }
  rewrite (bind_run _ _ _ _ _ H4).
  destruct (init_step k v4 (kernel_thread_local_pdpt k) 511 (Z.lor (kernel_stack_pdt k) user_flags)) as (v5 & H5 & Z5 & MW5);
    [by rewrite Z4, Z3|done|inlist|lia|eapply map_word_page; [done|inlist|lia]|].
  rewrite (bind_run _ _ _ _ _ H5).
  destruct (init_step k v5 (kernel_stack_pdt k) 511 (Z.lor (kernel_stack_pt k) user_flags)) as (v6 & H6 & Z6 & MW6);
    [by rewrite Z5, Z4, Z3|done|inlist|lia|eapply map_word_page; [done|inlist|lia]|].
  rewrite (bind_run _ _ _ _ _ H6). destruct (Hal (kernel_stack_pt k)) as (K1 & K2 & K3); [inlist|].
  destruct (store_seq_run (fun i => kernel_stack_pt k + 8 * (i + 256)) (fun i => Z.lor (boot_stack k + i * PAGE_SIZE) user_flags) 256 v6 0)
    as (v7 & H7 & W7 & _); [intros j Hj; split_and!; divlia|intros; lia|].
  rewrite (bind_run _ _ _ _ _ H7). eexists. split; [reflexivity|]. pose proof W7 as [E7 _].
  assert (mem_size v7 = mem_size v) as Z7 by (rewrite E7; cbn; congruence).
  split; [done|]. apply (map_words_keep k v6 v7) in W7; [done|by rewrite Z6, Z5, Z4, Z3|done|].
  intros b (j & Hj & ->). eapply map_word_page; [done|inlist|lia].
Qed.

Lemma huge_entry j : 0 <= j < 2048 ->
  let e := u64 (Z.lor (j * HUGE_PAGE_SIZE) 0x183) in
  present e = true /\ large e = true /\ ALIGN_DOWN e HUGE_PAGE_SIZE = j * HUGE_PAGE_SIZE.
Proof.
  intros Hj. cbv zeta. assert (Z.lor (j * HUGE_PAGE_SIZE) 0x183 = j * HUGE_PAGE_SIZE + 0x183) as E.
  { rewrite Z.lor_comm. replace (j * HUGE_PAGE_SIZE) with (Z.shiftl j 30) at 1 by (rewrite Z.shiftl_mul_pow2; lia).
    rewrite lor_high by lia. lia. }
  rewrite wrap_small by lia. split_and!.
  - by rewrite present_bit, Z.lor_spec, orb_true_r.
  - by rewrite large_bit, Z.lor_spec, orb_true_r.
  - rewrite E. change HUGE_PAGE_SIZE with (2 ^ 30). rewrite ALIGN_DOWN_spec by lia. divlia.
Qed.

(** The indices of an address of the physical map. *)
Lemma phys_rel_idx x : 0 <= x < 2 ^ 41 -> let va := PHYS_REL x in
  sign_extended va = true /\ PML4T_INDEX va = x / 2 ^ 39 + 508 /\ PDPT_INDEX va = x / 2 ^ 30 mod 512 /\
  Z.land va (HUGE_PAGE_SIZE - 1) = x mod HUGE_PAGE_SIZE.
Proof.
  intros Hx va. assert (va = x + LOW_PHYSICAL_BASE_VMA) as E by (apply wrap_small; lia).
  split_and!.
  - apply sign_extended_div; lia.
  - change (PML4T_INDEX va) with (idx 4 va). rewrite idx_div, E. change (shift 4) with 39. divlia.
  - change (PDPT_INDEX va) with (idx 3 va). rewrite idx_div, E. change (shift 3) with 30. divlia.
  - change (HUGE_PAGE_SIZE - 1) with (Z.ones 30). rewrite Z.land_ones, E by lia. divlia.
Qed.

(** ** Properties *)

(** The kernel's map of physical memory. After [vm_init] the virtual address
    [PHYS_REL (x)] translates to the physical address [x] for all of the two
    tebibytes that the kernel supports. *)
Theorem physical_map_identity k total v x :
  symbols_ok k (mem_size v) -> 0 <= x < 2 ^ 41 ->
  exists v', vm_init k total v = Some (tt, v') /\ vm_phys_addr (kernel_pml4t k) (PHYS_REL x) v' = Some (x, v').
Proof.
  intros Hs Hx. destruct (vm_init_ok k total v Hs) as (v' & Hv' & Hsz & [W1 W2]). exists v'. split; [done|].
  destruct (phys_rel_idx x Hx) as (I1 & I2 & I3 & I4). unfold vm_phys_addr. rewrite I1, I2, I3, I4. cbn [negb].
  destruct (so_aligned _ _ Hs (kernel_pml4t k)) as (P1 & P2 & P3); [inlist|].
  destruct (so_aligned _ _ Hs (phys_map_pdpt k)) as (M1 & M2 & M3); [inlist|]. pose proof (so_size _ _ Hs) as Hmax.
  assert (forall a, can_store v' a -> load a v' = Some (word v' a, v')) as Hload.
  { intros a (A1 & A2 & A3). unfold load, accessible. rewrite A2.
    destruct (Z.leb_spec 0 a), (Z.leb_spec (a + 8) (mem_size v')); try lia. done. }
  assert (0 <= x / 2 ^ 39 < 4) as Hi by divlia.
  rewrite (bind_run _ _ _ _ _ (Hload (kernel_pml4t k + 8 * (x / 2 ^ 39 + 508)) ltac:(split_and!; rewrite ?Hsz; divlia))).
  rewrite (W1 _ Hi). assert (0 <= phys_map_pdpt k + PAGE_SIZE * (x / 2 ^ 39) < 2 ^ 53) as Hpm by divlia.
  assert ((phys_map_pdpt k + PAGE_SIZE * (x / 2 ^ 39)) mod PAGE_SIZE = 0) as Hpa by divlia.
  change kernel_flags with 0x103. rewrite (wrap_small 64) by (rewrite page_lor by (try done; lia); lia).
  assert (present (Z.lor (phys_map_pdpt k + PAGE_SIZE * (x / 2 ^ 39)) 0x103) = true) as -> by (by rewrite present_bit, Z.lor_spec, orb_true_r).
  cbn [negb]. cbv zeta. rewrite table_addr_lor by (try done; lia).
  replace (phys_map_pdpt k + PAGE_SIZE * (x / 2 ^ 39) + 8 * (x / 2 ^ 30 mod 512)) with (phys_map_pdpt k + 8 * (x / 2 ^ 30)) by divlia.
  assert (0 <= x / 2 ^ 30 < 2048) as Hj by divlia.
  rewrite (bind_run _ _ _ _ _ (Hload (phys_map_pdpt k + 8 * (x / 2 ^ 30)) ltac:(split_and!; rewrite ?Hsz; divlia))).
  rewrite (W2 _ Hj). destruct (huge_entry (x / 2 ^ 30) Hj) as (-> & -> & ->). cbn [negb].
  rewrite Z.lor_comm. change HUGE_PAGE_SIZE with (2 ^ 30). rewrite <- Z.shiftl_mul_pow2 by lia. rewrite (lor_high (x mod 2 ^ 30)) by (try apply Z.mod_pos_bound; lia).
  replace (x mod 2 ^ 30 + x / 2 ^ 30 * 2 ^ 30) with x by (pose proof (Z.div_mod x (2 ^ 30)); lia). done.
Qed.

(** C7: mapping a page. [vm_map_page] returns; when it succeeds, every address of
    the page translates to the frame and all others as before; when it fails, for
    want of memory or because the address is part of a large page, every address
    translates as before. Frames in use that are no page tables keep their
    contents, and the tables still form a tree of frames in use. *)
Theorem vm_map_page_correct fuel v root phys va flags :
  space v root -> zlen (table v) < Z.of_nat fuel -> 0 <= phys < 2 ^ 64 -> map_flags flags ->
  0 <= va < 2 ^ 64 -> sign_extended va = true ->
  exists r v', vm_map_page fuel root phys va flags v = Some (r, v') /\ space v' root /\ grows root v v' /\
    forall va', 0 <= va' < 2 ^ 64 -> exists x, vm_phys_addr root va' v = Some (x, v) /\
      vm_phys_addr root va' v' = Some (match r with
        | VmOk => if same_page va va' then Z.lor (ALIGN_DOWN phys PAGE_SIZE) (Z.land va' (PAGE_SIZE - 1)) else x
        | VmFail _ => x
        end, v').
Proof.
  intros Hsp Hfu Hph Hfl Hva Hsx. destruct (map_page_ok fuel v root phys va flags Hsp Hfu Hph Hfl) as (r & v' & Hr & S' & G' & X').
  exists r, v'. split_and!; [done..|]. intros va' Hva'. exists (xlate v root va').
  destruct Hsp as [Hok Htr], S' as [Hok' Htr']. rewrite !vm_phys_addr_ok by done. split; [done|]. do 2 f_equal. rewrite X'.
  destruct r; [|done]. unfold same_page. destruct (sign_extended va') eqn:E; cbn [andb].
  - pose proof (same_page_path va va' Hva Hva' Hsx E) as Hp.
    case_bool_decide as Ep; destruct (Z.eqb_spec (va / PAGE_SIZE) (va' / PAGE_SIZE)); tauto.
  - destruct (Z.eqb_spec (va / PAGE_SIZE) (va' / PAGE_SIZE)) as [Eq|]; [|done]. exfalso.
    apply sign_extended_div in Hsx; [|done]. assert (~ sign_extended va' = true) as Hn by (by rewrite E).
    rewrite sign_extended_div in Hn by done. divlia.
Qed.

(** Unmapping a page. [vm_unmap_page] always succeeds for an address of the
    two halves of the address space; afterwards the address translates to
    nothing, as do all addresses that share its entry, and every other address
    translates as before. *)
Theorem vm_unmap_page_correct v root va :
  space v root -> sign_extended va = true ->
  exists v', vm_unmap_page root va v = Some (VmOk, v') /\ space v' root /\ vm_phys_addr root va v' = Some (0, v') /\
    forall va', exists x, vm_phys_addr root va' v = Some (x, v) /\
      vm_phys_addr root va' v' =
        Some (if bool_decide (take (depth v 4 root va) (vpath va) `prefix_of` vpath va') then 0 else x, v').
Proof.
  intros Hsp Hsx. destruct (unmap_page_ok v root va Hsp Hsx) as (v' & Hr & S' & G' & X').
  exists v'. split; [done|]. split; [done|]. destruct Hsp as [Hok Htr], S' as [Hok' Htr']. split.
  - rewrite vm_phys_addr_ok by done. rewrite X', Hsx. cbn [andb]. rewrite bool_decide_eq_true_2; [done|]. apply prefix_take.
  - intros va'. exists (xlate v root va'). rewrite !vm_phys_addr_ok by done. split; [done|]. do 2 f_equal. rewrite X'.
    destruct (sign_extended va') eqn:E; [done|]. unfold xlate. rewrite E. by case_bool_decide.
Qed.

(** ** Examples *)

Definition demo_symbols : kernel_symbols := mk_symbols 0x1000 0x2000 0x3000 0x7000 0x8000 0x9000 0xa000 0x200000.
Definition demo_boot : vm := mk_vm ∅ 0x400000 [] 0 false [] 0.

Lemma demo_symbols_ok : symbols_ok demo_symbols (mem_size demo_boot).
Proof.
  split.
  - apply Forall_forall. repeat constructor; vm_compute; intuition discriminate.
  - vm_compute. intuition discriminate.
  - apply Forall_forall. constructor; [left; vm_compute; discriminate|]. repeat (constructor; [right; vm_compute; discriminate|]). constructor.
  - apply (bool_decide_eq_true_1 _). vm_compute. reflexivity.
Qed.

Lemma physical_map_identity_witness :
  exists v', vm_init demo_symbols 0 demo_boot = Some (tt, v') /\
    vm_phys_addr (kernel_pml4t demo_symbols) (PHYS_REL 0x123456789) v' = Some (0x123456789, v').
Proof. apply (physical_map_identity demo_symbols 0 demo_boot 0x123456789 demo_symbols_ok). lia. Defined.

(** Frames 0 and 1 are in use; frame 1 is an empty PML4T. *)
Definition demo_space : vm := mk_vm ∅ 0x8000 [1; 1; 0; 0; 0; 0; 0; 0] 0x2000 true [mk_region 0 0x7000] 0.

Lemma demo_space_ok : space demo_space 0x1000.
Proof.
  assert (forall p t, tab demo_space 4 0x1000 p = Some t -> p = [] /\ t = 0x1000) as Htab.
  { intros [|i p] t; cbn [tab]; [by intros [= <-]|]. unfold word. cbn [mem demo_space]. rewrite lookup_empty. done. }
  split.
  - split; [vm_compute; intuition discriminate..| |vm_compute; intuition discriminate| |vm_compute; reflexivity].
    + intros i r Hr. apply zlookup_Some_lt in Hr as Hi. change (zlen (regions demo_space)) with 1 in Hi.
      replace i with 0 in Hr by lia. injection Hr as <-. vm_compute. intuition discriminate.
    + intros f c Hc. unfold zlookup in Hc. destruct (f <? 0); [done|].
      assert (Forall (fun c => 0 <= c < 2 ^ 32) (table demo_space)) as Hall by (repeat constructor; lia).
      exact (Forall_lookup_1 _ _ _ _ Hall Hc).
  - split.
    + intros p t _ Ht. destruct (Htab p t Ht) as [_ ->]. split; vm_compute; reflexivity.
    + intros p q t _ _ H1 H2. destruct (Htab p t H1) as [-> _], (Htab q t H2) as [-> _]. done.
Qed.

Lemma vm_map_page_correct_witness :
  exists v', vm_map_page 9 0x1000 0x7000 0x400000 6 demo_space = Some (VmOk, v') /\
    vm_phys_addr 0x1000 0x400123 v' = Some (0x7123, v') /\ vm_phys_addr 0x1000 0x401123 v' = Some (0, v').
Proof.
  destruct (vm_map_page_correct 9 demo_space 0x1000 0x7000 0x400000 6 demo_space_ok) as (r & v' & Hr & _ & _ & Hx).
  - vm_compute. reflexivity.
  - lia.
  - split; [lia | reflexivity].
  - lia.
  - vm_compute. reflexivity.
  - assert (r = VmOk) as -> by (apply (f_equal (option_map fst)) in Hr; vm_compute in Hr; congruence).
    exists v'. split; [exact Hr|]. destruct (Hx 0x400123 ltac:(lia)) as (x & _ & H1). destruct (Hx 0x401123 ltac:(lia)) as (y & Hy & H2).
    split; [exact H1|]. rewrite H2. apply (f_equal (option_map fst)) in Hy. vm_compute in Hy. injection Hy as <-. reflexivity.
Defined.

Lemma vm_unmap_page_correct_witness :
  exists v', vm_unmap_page 0x1000 0x400000 demo_space = Some (VmOk, v') /\ vm_phys_addr 0x1000 0x400000 v' = Some (0, v').
Proof.
  destruct (vm_unmap_page_correct demo_space 0x1000 0x400000 demo_space_ok eq_refl) as (v' & H1 & _ & H2 & _).
  exists v'. split; [exact H1 | exact H2].
Defined.
End Paging.
