(* ===== verification/Cow.v ===== *)
(** * Page faults and copy-on-write (arch/x86_64/page-fault.c)

    Module [Cow]: the handler of page faults, and what it promises to the other
    holders of the frames that an address space shares. *)

From S2P Require Import Prelude CBits PhysMem Paging.

Module Cow.
Import CBits PhysMem Paging.

Abbreviation PAGE_ERR_USER := 0x4.

Section alloc.
Context (fuel : nat).

(** ** Page faults *)

(** [np[i] = (cp[i] | PAGE_FLAG_COW) & ~PAGE_FLAG_RW] for the present entries. *)
Definition cow_entry (e : Z) : Z := Z.land (Z.lor e PAGE_FLAG_COW) (Z.lnot PAGE_FLAG_RW).
Definition own_entry (page e : Z) : Z :=
  Z.land (Z.lor (Z.lor page PAGE_FLAG_RW) (Z.land e (PAGE_SIZE - 1))) (Z.lnot PAGE_FLAG_COW).

Fixpoint copy_entries (n : nat) (np cp i : Z) : M vm unit :=
  match n with
  | O => mret tt
  | S n =>
      e ← load (cp + 8 * i);
      (if present e then store (np + 8 * i) (cow_entry e) else mret tt);;
      copy_entries n np cp (i + 1)
  end.

(** A table that is shared is replaced by a copy whose entries are shared in
    turn; [false] when there is no memory. *)
Definition cow_table (slot : Z) : M vm bool :=
  e ← load slot;
  if negb (cow e) then mret true else
  page ← alloc_page fuel;
  if page =? 0 then mret false else
  zero_frame page;;
  copy_entries 512 page (table_addr e) 0;;
  free_page e;;
  store slot (own_entry page e);;
  mret true.

(** A page that is shared is replaced by a copy. *)
Definition cow_page (slot e : Z) : M vm bool :=
  page ← alloc_page fuel;
  if page =? 0 then mret false else
  copy_frame page (table_addr e);;
  free_page e;;
  store slot (own_entry page e);;
  mret true.

(** The part of [int_page_fault] for faults in user mode at address [addr]:
    whether the fault was resolved, or else SIGSEGV is sent. *)
Definition cow_fault (pml4t addr : Z) : M vm bool :=
  if negb (sign_extended addr) then mret false else
  let slot := pml4t + 8 * PML4T_INDEX addr in
  e ← load slot;
  if negb (present e) then mret false else
  ok ← cow_table slot;
  if negb ok then mret false else
  e ← load slot;
  let slot := table_addr e + 8 * PDPT_INDEX addr in
  e ← load slot;
  if large e || negb (present e) then mret false else
  ok ← cow_table slot;
  if negb ok then mret false else
  e ← load slot;
  let slot := table_addr e + 8 * PDT_INDEX addr in
  e ← load slot;
  if large e || negb (present e) then mret false else
  ok ← cow_table slot;
  if negb ok then mret false else
  e ← load slot;
  let slot := table_addr e + 8 * PT_INDEX addr in
  e ← load slot;
  if negb (present e) then mret false else
  if negb (cow e) then mret false else cow_page slot e.

(** The handler for a process other than the kernel: the outcome and
    [thread_switch_lock]. *)
Inductive fault_outcome := FaultResolved | FaultSignal.
Definition int_page_fault (pml4t err addr lock : Z) : M vm (fault_outcome * Z) :=
  if truthy (Z.land err PAGE_ERR_USER) then
    ok ← cow_fault pml4t addr;
    mret (if ok : bool then (FaultResolved, 0) else (FaultSignal, 1))
  else mret (FaultSignal, lock).

End alloc.

(** ** Entries *)

(** The page may be written. *)
Definition rw (e : Z) : bool := truthy (Z.land e PAGE_FLAG_RW).

Lemma rw_bit e : rw e = Z.testbit e 1.
Proof. apply (land_shl1 e 1). lia. Qed.

Lemma flag_bit k i : 0 <= k -> 0 <= i -> Z.testbit (2 ^ k) i = (i =? k).
Proof. intros Hk Hi. rewrite Z.pow2_bits_eqb by done. apply Z.eqb_sym. Qed.

(** Entries that are not present, or differ in flags other than [present] and
    [large] only. *)
Record same_target (e e' : Z) : Prop := {
  st_present : present e' = present e;
  st_large : present e = true -> large e' = large e;
  st_frame : present e = true -> e' / PAGE_SIZE = e / PAGE_SIZE
}.

Lemma same_target_refl e : same_target e e.
Proof. done. Qed.

Lemma bits_range e : (forall i, 64 <= i -> Z.testbit e i = false) -> 0 <= e -> e < 2 ^ 64.
Proof.
  intros Hb He. destruct (Z.eq_dec e 0) as [->|Hne]; [lia|]. apply Z.log2_lt_pow2; [lia|].
  destruct (Z.lt_ge_cases (Z.log2 e) 64); [done|]. pose proof (Z.bit_log2 e ltac:(lia)) as Ht. rewrite Hb in Ht by done. done.
Qed.

Lemma high_bits e i : 0 <= e < 2 ^ 64 -> 64 <= i -> Z.testbit e i = false.
Proof.
  intros He Hi. destruct (Z.eq_dec e 0) as [->|Hne]; [apply Z.bits_0|]. apply Z.bits_above_log2; [lia|].
  enough (Z.log2 e < 64) by lia. apply Z.log2_lt_pow2; lia.
Qed.

Lemma cow_entry_bit e i : 0 <= i -> Z.testbit (cow_entry e) i = (Z.testbit e i || (i =? 9)) && negb (i =? 1).
Proof.
  intros Hi. unfold cow_entry. rewrite Z.land_spec, Z.lor_spec, Z.lnot_spec by done.
  change PAGE_FLAG_COW with (2 ^ 9). change PAGE_FLAG_RW with (2 ^ 1). by rewrite !flag_bit by lia.
Qed.

Lemma shift_page e e' : (forall i, 12 <= i -> Z.testbit e i = Z.testbit e' i) -> e / PAGE_SIZE = e' / PAGE_SIZE.
Proof.
  intros Hb. change PAGE_SIZE with (2 ^ 12). rewrite <- !Z.shiftr_div_pow2 by lia. apply Z.bits_inj'. intros i Hi.
  rewrite !Z.shiftr_spec by done. apply Hb. lia.
Qed.

Lemma cow_entry_ok e : 0 <= e < 2 ^ 64 -> u64 (cow_entry e) = cow_entry e /\ 0 <= cow_entry e < 2 ^ 64 /\
  same_target e (cow_entry e) /\ cow (cow_entry e) = true /\ rw (cow_entry e) = false.
Proof.
  intros He. assert (0 <= cow_entry e) as H0 by (apply Z.land_nonneg; left; apply Z.lor_nonneg; lia).
  assert (cow_entry e < 2 ^ 64) as H64.
  { apply bits_range; [|done]. intros i Hi. rewrite cow_entry_bit, (high_bits e i He Hi) by lia.
    destruct (Z.eqb_spec i 9); [lia|done]. }
  split_and!; [by apply wrap_small|done|done| |by rewrite cow_bit, cow_entry_bit, orb_true_r|by rewrite rw_bit, cow_entry_bit, andb_false_r].
  split; [by rewrite !present_bit, cow_entry_bit, orb_false_r, andb_true_r|intros _; by rewrite !large_bit, cow_entry_bit, orb_false_r, andb_true_r|].
  intros _. apply shift_page. intros i Hi. rewrite cow_entry_bit by lia. destruct (Z.eqb_spec i 9), (Z.eqb_spec i 1); try lia.
  by rewrite orb_false_r, andb_true_r.
Qed.

Definition own_flags (e : Z) : Z := Z.land (Z.lor PAGE_FLAG_RW (Z.land e (PAGE_SIZE - 1))) (Z.lnot PAGE_FLAG_COW).

Lemma own_flags_bit e i : 0 <= i -> Z.testbit (own_flags e) i = ((i =? 1) || Z.testbit e i && (i <? 12)) && negb (i =? 9).
Proof.
  intros Hi. unfold own_flags. rewrite Z.land_spec, Z.lor_spec, Z.land_spec, Z.lnot_spec by done.
  change PAGE_FLAG_COW with (2 ^ 9). change PAGE_FLAG_RW with (2 ^ 1). rewrite !flag_bit by lia.
  change (PAGE_SIZE - 1) with (Z.ones 12). by rewrite Z.testbit_ones_nonneg by lia.
Qed.

Lemma own_flags_range e : 0 <= own_flags e < PAGE_SIZE.
Proof.
  assert (own_flags e = Z.land (own_flags e) (Z.ones 12)) as ->.
  { apply Z.bits_inj'. intros i Hi. rewrite Z.land_spec, own_flags_bit, Z.testbit_ones_nonneg by lia.
    destruct (Z.ltb_spec i 12); [by rewrite !andb_true_r|]. destruct (Z.eqb_spec i 1); [lia|]. by rewrite andb_false_r. }
  rewrite Z.land_ones by lia. apply Z.mod_pos_bound. lia.
Qed.

Lemma own_entry_flags page e : page mod PAGE_SIZE = 0 -> own_entry page e = Z.lor page (own_flags e).
Proof.
  intros Hp. apply Z.bits_inj'. intros i Hi. unfold own_entry, own_flags. rewrite !Z.land_spec, !Z.lor_spec, !Z.land_spec, !Z.lnot_spec, !Z.lor_spec, !Z.land_spec by done.
  change PAGE_FLAG_COW with (2 ^ 9). rewrite !flag_bit by lia. destruct (Z.eqb_spec i 9) as [->|].
  - rewrite (page_bits page 9) by (done || lia). by rewrite !andb_false_r.
  - by rewrite !andb_true_r, orb_assoc.
Qed.

Lemma own_entry_ok page e : 0 <= page < 2 ^ 64 -> page mod PAGE_SIZE = 0 ->
  u64 (own_entry page e) = own_entry page e /\ present (own_entry page e) = present e /\ large (own_entry page e) = large e /\
  table_addr (own_entry page e) = page /\ cow (own_entry page e) = false /\ rw (own_entry page e) = true.
Proof.
  intros Hp Hm. pose proof (own_flags_range e) as Hr. rewrite own_entry_flags by done.
  assert (forall i, 0 <= i < 12 -> Z.testbit (Z.lor page (own_flags e)) i = ((i =? 1) || Z.testbit e i) && negb (i =? 9)) as Hb.
  { intros i Hi. rewrite Z.lor_spec, (page_bits page i), own_flags_bit by (done || lia).
    destruct (Z.ltb_spec i 12); [|lia]. by rewrite andb_true_r. }
  split_and!.
  - rewrite page_lor by done. apply wrap_small. divlia.
  - by rewrite !present_bit, Hb, andb_true_r by lia.
  - by rewrite !large_bit, Hb, andb_true_r by lia.
  - by apply table_addr_lor.
  - by rewrite cow_bit, Hb, andb_false_r by lia.
  - by rewrite rw_bit, Hb by lia.
Qed.

Lemma table_addr_div e : 0 <= e < 2 ^ 64 -> table_addr e = e / PAGE_SIZE * PAGE_SIZE.
Proof. apply align_page. Qed.

(** ** Replacing a table by a copy *)

Definition words64 (v : vm) : Prop := forall a, 0 <= word v a < 2 ^ 64.

(** Walks through entries that correspond end at the same address. *)
Lemma walk_rel v v' root va :
  (forall k t t', (1 <= k <= 4)%nat -> tab v 4 root (take (4 - k) (vpath va)) = Some t ->
     tab v' 4 root (take (4 - k) (vpath va)) = Some t' ->
     let e := word v (t + 8 * idx k va) in let e' := word v' (t' + 8 * idx k va) in
     present e' = present e /\ (present e = true -> leafb k e' = leafb k e) /\
     (present e = true -> leafb k e = true -> ALIGN_DOWN e' (2 ^ shift k) = ALIGN_DOWN e (2 ^ shift k))) ->
  walk v' 4 root va = walk v 4 root va.
Proof.
  intros Hw. cut (forall k t t', (k <= 4)%nat -> tab v 4 root (take (4 - k) (vpath va)) = Some t ->
    tab v' 4 root (take (4 - k) (vpath va)) = Some t' -> walk v' k t' va = walk v k t va).
  { intros Hcut. by apply Hcut. }
  induction k as [|k IH]; intros t t' Hk Ht Ht'; [done|]. cbn [walk].
  destruct (Hw (S k) t t' ltac:(lia) Ht Ht') as (E1 & E2 & E3). rewrite E1.
  destruct (present (word v (t + 8 * idx (S k) va))) eqn:Ep; [|done]. cbn [negb]. rewrite E2 by done.
  destruct (leafb (S k) (word v (t + 8 * idx (S k) va))) eqn:El; [by rewrite E3|]. specialize (E2 eq_refl).
  pose proof (unmap_len va k) as Hlen.
  apply IH; [lia|..]; rewrite vpath_snoc by lia; apply tab_next; rewrite ?Hlen; try done; try lia.
  all: by replace (4 - (4 - S k))%nat with (S k) by lia.
Qed.

Lemma same_target_align k e e' : (1 <= k <= 4)%nat -> 0 <= e < 2 ^ 64 -> 0 <= e' < 2 ^ 64 -> same_target e e' -> present e = true ->
  ALIGN_DOWN e' (2 ^ shift k) = ALIGN_DOWN e (2 ^ shift k).
Proof.
  intros Hk He He' [_ _ Hf] Hp. assert (12 <= shift k < 64) as Hs by (unfold shift; lia).
  rewrite !ALIGN_DOWN_spec by (done || lia). f_equal.
  replace (shift k) with (12 + (shift k - 12)) by lia. rewrite Z.pow_add_r, <- !Z.div_div by lia. change (2 ^ 12) with PAGE_SIZE. by rewrite Hf.
Qed.

Lemma same_target_table e e' : 0 <= e < 2 ^ 64 -> 0 <= e' < 2 ^ 64 -> same_target e e' -> present e = true -> table_addr e' = table_addr e.
Proof. intros He He' [_ _ Hf] Hp. rewrite !table_addr_div by done. by rewrite Hf. Qed.

Lemma same_target_leaf k e e' : same_target e e' -> present e = true -> leafb k e' = leafb k e.
Proof. intros [_ Hl _] Hp. unfold leafb. by rewrite Hl. Qed.

Section replace.
Context (v : vm) (root : Z) (p0 : list Z) (t0 i0 old f : Z).
Hypothesis Hsp : space v root.
Hypothesis H64 : words64 v.
Hypothesis Hp0 : idxs p0.
Hypothesis Ht0 : tab v 4 root p0 = Some t0.
Hypothesis Hi0 : 0 <= i0 < 512.
Let q0 : list Z := p0 ++ [i0].
Let slot : Z := t0 + 8 * i0.
Hypothesis Hold : tab v 4 root q0 = Some old.
Context (v' : vm).
Hypothesis H64' : words64 v'.
Hypothesis Hword : forall p t i, idxs p -> 0 <= i < 512 -> tab v 4 root p = Some t -> t + 8 * i <> slot ->
  word v' (t + 8 * i) = word v (t + 8 * i).
Hypothesis Hnew : tab v' 4 root q0 = Some f.
Hypothesis Hcopy : forall i, 0 <= i < 512 -> same_target (word v (old + 8 * i)) (word v' (f + 8 * i)).

Lemma replace_tab p : idxs p -> p <> q0 -> tab v' 4 root p = tab v 4 root p.
Proof.
  induction p as [|i p IH] using rev_ind; intros Hp Hne; [done|]. apply Forall_app in Hp as [Hp Hi].
  apply Forall_cons in Hi as [Hi _]. rewrite !tab_snoc. destruct (decide (p = q0)) as [->|Hq].
  - rewrite Hnew, Hold. cbv zeta. pose proof (Hcopy i Hi) as Hst.
    rewrite (st_present _ _ Hst). destruct (present (word v (old + 8 * i))) eqn:Ep; [|by rewrite andb_false_r].
    by rewrite (same_target_leaf _ _ _ Hst Ep), (same_target_table _ _ (H64 _) (H64' _) Hst Ep).
  - rewrite IH by done. destruct (tab v 4 root p) as [t|] eqn:E; [|done]. cbv zeta. rewrite (Hword p t i); [done..|].
    intros Heq. apply Hne. by eapply (entry_path v root p0 t0 i0 Hsp Hp0 Ht0 Hi0).
Qed.

Hypothesis Hfresh : forall p, idxs p -> tab v 4 root p <> Some f.
Hypothesis Hkeep : forall t, t <> old -> table_ok v t -> table_ok v' t.
Hypothesis Hf : table_ok v' f.

Lemma replace_tree : tree v' root.
Proof.
  destruct Hsp as [_ [T1 T2]]. pose proof (q0_idxs p0 i0 Hp0 Hi0) as Hq0. split.
  - intros p t Hp Ht. destruct (decide (p = q0)) as [->|Hne]; [rewrite Hnew in Ht; by injection Ht as <-|].
    rewrite replace_tab in Ht by done. apply Hkeep; [|by eapply T1]. intros ->. apply Hne. by eapply T2.
  - intros p q t Hp Hq H1 H2. destruct (decide (p = q0)) as [->|Hn1], (decide (q = q0)) as [->|Hn2]; [done|..].
    + rewrite replace_tab in H2 by done. rewrite Hnew in H1. injection H1 as ->. by destruct (Hfresh q Hq).
    + rewrite replace_tab in H1 by done. rewrite Hnew in H2. injection H2 as ->. by destruct (Hfresh p Hp).
    + rewrite replace_tab in H1, H2 by done. by eapply T2.
Qed.

(** Every address translates as before. *)
Lemma replace_walk va : walk v' 4 root va = walk v 4 root va.
Proof.
  apply walk_rel. intros k t t' Hk Ht Ht' e e'. set (p := take (4 - k) (vpath va)) in *.
  pose proof (vpath_idxs va (4 - k)) as Hp. fold p in Hp. pose proof (idx_range k va) as Hi.
  assert (length p = (4 - k)%nat) as Hlen by (unfold p; rewrite length_take; cbn; lia).
  assert (same_target e e' -> present e' = present e /\ (present e = true -> leafb k e' = leafb k e) /\
    (present e = true -> leafb k e = true -> ALIGN_DOWN e' (2 ^ shift k) = ALIGN_DOWN e (2 ^ shift k))) as Hst.
  { intros Hst. split_and!; [apply Hst|by apply same_target_leaf|]. intros Hpr _. apply same_target_align; [done|apply H64|apply H64'|done|done]. }
  destruct (decide (p = q0)) as [Eq|Hne].
  - rewrite Eq in Ht, Ht'. rewrite Hold in Ht. rewrite Hnew in Ht'. injection Ht as <-. injection Ht' as <-. by apply Hst, Hcopy.
  - rewrite replace_tab in Ht' by done. rewrite Ht in Ht'. injection Ht' as <-.
    destruct (Z.eq_dec (t + 8 * idx k va) slot) as [Eslot|Hns]; [|apply Hst; unfold e, e'; by rewrite (Hword p)].
    pose proof (entry_path v root p0 t0 i0 Hsp Hp0 Ht0 Hi0 p t (idx k va) Hp Hi Ht Eslot) as Eq. fold q0 in Eq.
    assert (tab v' 4 root p = Some t) as Ht2 by (by rewrite replace_tab).
    pose proof Hold as Ho. pose proof Hnew as Hn. rewrite <- Eq, tab_snoc, Ht in Ho. rewrite <- Eq, tab_snoc, Ht2 in Hn. cbv zeta in Ho, Hn.
    rewrite Hlen in Ho, Hn. replace (4 - (4 - k))%nat with k in Ho, Hn by lia. fold e in Ho. fold e' in Hn.
    destruct (_ <? _)%nat; [|done]. cbn [andb] in Ho, Hn.
    destruct (present e), (present e'), (leafb k e), (leafb k e'); try done.
Qed.
End replace.

(** ** Running the steps of the handler *)

Lemma frame_access v a : frames_ok v -> table_ok v a -> accessible v a PAGE_SIZE && (a mod 8 =? 0) = true.
Proof.
  intros [_ _ _ _ _ Hs _ _] [T1 T2 T3 _]. unfold accessible.
  destruct (Z.leb_spec 0 a), (Z.leb_spec (a + PAGE_SIZE) (mem_size v)), (Z.eqb_spec (a mod 8) 0); try done; divlia.
Qed.

Lemma in_frame a b : a mod PAGE_SIZE = 0 -> (a <=? b) && (b <? a + PAGE_SIZE) = (b / PAGE_SIZE =? a / PAGE_SIZE).
Proof. intros Ha. apply eq_true_iff_eq. rewrite andb_true_iff, Z.leb_le, Z.ltb_lt, Z.eqb_eq. divlia. Qed.

Lemma copy_entries_ok n : forall v np cp i, frames_ok v -> table_ok v np -> table_ok v cp -> np <> cp -> words64 v ->
  0 <= i -> i + Z.of_nat n = 512 ->
  exists v', copy_entries n np cp i v = Some (tt, v') /\ v' = set_mem v (mem v') /\ words64 v' /\
    forall b, b mod 8 = 0 -> word v' b =
      if (b / PAGE_SIZE =? np / PAGE_SIZE) && (np + 8 * i <=? b) && present (word v (cp + (b - np)))
      then cow_entry (word v (cp + (b - np))) else word v b.
Proof.
  induction n as [|n IH]; intros v np cp i Hok Hnp Hcp Hne H64 Hi Hn; cbn [copy_entries].
  { exists v. split_and!; [done|by destruct v|done|]. intros b Hb. pose proof (to_aligned _ _ Hnp).
    destruct (Z.eqb_spec (b / PAGE_SIZE) (np / PAGE_SIZE)), (Z.leb_spec (np + 8 * i) b); try done. divlia. }
  rewrite (bind_run _ _ _ _ _ (load_slot v cp i Hok Hcp ltac:(lia))). set (e := word v (cp + 8 * i)).
  pose proof (to_aligned _ _ Hnp) as An. pose proof (to_aligned _ _ Hcp) as Ac.
  assert (exists v1, (if present e then store (np + 8 * i) (cow_entry e) else mret tt) v = Some (tt, v1) /\ v1 = set_mem v (mem v1) /\
    words64 v1 /\ forall b, b mod 8 = 0 -> word v1 b = if (b =? np + 8 * i) && present e then cow_entry e else word v b)
    as (v1 & H1 & E1 & W1 & X1).
  { destruct (present e).
    - eexists. split; [by apply store_slot; [..|lia]|]. split; [done|]. destruct (cow_entry_ok e (H64 _)) as (Eu & Er & _).
      split.
      + intros a. unfold word. cbn [mem set_mem]. destruct (decide (a / 8 = (np + 8 * i) / 8)) as [->|Hd].
        * rewrite lookup_insert_eq. cbn. by rewrite Eu.
        * rewrite lookup_insert_ne by done. apply H64.
      + intros b Hb. rewrite word_store by (done || by apply slot_aligned). rewrite Eu, andb_true_r. done.
    - exists v. split_and!; [done|by destruct v|done|]. intros b _. by rewrite andb_false_r. }
  rewrite (bind_run _ _ _ _ _ H1).
  assert (frames_ok v1) as Hok1 by (rewrite E1; by apply frames_ok_mem).
  assert (table_ok v1 np /\ table_ok v1 cp) as [Hnp1 Hcp1] by (rewrite E1; split; by apply table_ok_mem).
  destruct (IH v1 np cp (i + 1) Hok1 Hnp1 Hcp1 Hne W1 ltac:(lia) ltac:(lia)) as (v' & H2 & E2 & W2 & X2).
  exists v'. split; [done|]. split; [rewrite E2; cbn [mem set_mem]; by rewrite E1|]. split; [done|].
  intros b Hb. rewrite X2, !X1 by (done || divlia).
  destruct (Z.eqb_spec (b / PAGE_SIZE) (np / PAGE_SIZE)) as [Ef|Ef]; cbn [andb].
  2: { destruct (Z.eqb_spec b (np + 8 * i)) as [->|]; [|done]. exfalso. apply Ef. divlia. }
  assert (cp + (b - np) <> np + 8 * i) as Hcross by (intros E; divlia).
  destruct (Z.eqb_spec (cp + (b - np)) (np + 8 * i)); [done|]. cbn [andb].
  destruct (Z.eqb_spec b (np + 8 * i)) as [->|Hbi].
  - replace (np + 8 * i - np) with (8 * i) by lia. fold e. destruct (Z.leb_spec (np + 8 * (i + 1)) (np + 8 * i)), (Z.leb_spec (np + 8 * i) (np + 8 * i)); try lia.
    done.
  - cbn [andb]. assert ((np + 8 * (i + 1) <=? b) = (np + 8 * i <=? b)) as -> by divlia. done.
Qed.
(** ** Frames that others hold *)

Definition user (va : Z) : Prop := 0 <= va < 2 ^ 47.

(** The path of an entry for the lower half of the address space. *)
Definition user_half (q : list Z) : Prop := match q with a :: _ => a < 256 | [] => False end.

Lemma user_path va n : user va -> user_half (take (S n) (vpath va)).
Proof.
  intros Hva. cbn. rewrite idx_div. unfold user, shift in *. cbn. divlia.
Qed.

Lemma user_sign va : user va -> sign_extended va = true.
Proof. intros Hva. apply sign_extended_div; unfold user in Hva; lia. Qed.

Section sharing.
Context (shared : Z -> Prop) (root : Z).

(** [shared] holds of the frames that are also used by somebody else. The tables
    of [root] lead user addresses to them only through entries that are copied on
    a write and that do not allow one. *)
Record sharing (v : vm) : Prop := {
  sh_space : space v root;
  sh_words : words64 v;
  sh_root : ~ shared (root / PAGE_SIZE);
  sh_used : forall f, shared f -> 0 < frame_count v f;
  sh_counts : forall p t, idxs p -> tab v 4 root p = Some t -> shared (t / PAGE_SIZE) -> 2 <= frame_count v (t / PAGE_SIZE);
  sh_guard : forall p t i, idxs p -> 0 <= i < 512 -> tab v 4 root p = Some t -> user_half (p ++ [i]) -> ~ shared (t / PAGE_SIZE) ->
    present (word v (t + 8 * i)) = true -> shared (word v (t + 8 * i) / PAGE_SIZE) ->
    cow (word v (t + 8 * i)) = true /\ rw (word v (t + 8 * i)) = false
}.

(** An entry that a write fault makes writable. *)
Definition upgradable (e : Z) : bool := rw e || cow e.
Definition upgradable_path (v : vm) (va : Z) : Prop :=
  forall k t, (1 <= k <= 4)%nat -> tab v 4 root (take (4 - k) (vpath va)) = Some t ->
  present (word v (t + 8 * idx k va)) = true -> upgradable (word v (t + 8 * idx k va)) = true.

(** The entry of a page. *)
Definition page_entry (v : vm) (va : Z) : option Z :=
  match tab v 4 root (take 3 (vpath va)) with
  | Some t => let e := word v (t + 8 * idx 1 va) in if present e then Some e else None
  | None => None
  end.
Definition same_page_entry (o o' : option Z) : Prop :=
  match o, o' with
  | Some e, Some e' => e' / PAGE_SIZE = e / PAGE_SIZE
  | None, None => True
  | _, _ => False
  end.
Lemma same_page_entry_refl o : same_page_entry o o.
Proof. by destruct o. Qed.

Record cow_step (q0 : list Z) (slot : Z) (v v' : vm) : Prop := {
  cs_sharing : sharing v';
  cs_len : zlen (table v') = zlen (table v);
  cs_tabs : forall p, idxs p -> p <> q0 -> tab v' 4 root p = tab v 4 root p;
  cs_new : forall t, tab v' 4 root q0 = Some t -> tab v 4 root q0 = Some t \/ frame_count v (t / PAGE_SIZE) = 0;
  cs_walk : forall va, walk v' 4 root va = walk v 4 root va;
  cs_words : forall a, a mod 8 = 0 -> a <> slot -> 0 < frame_count v (a / PAGE_SIZE) -> word v' a = word v a;
  cs_counts : forall f, 0 < frame_count v f -> (forall p t, idxs p -> tab v 4 root p = Some t -> t / PAGE_SIZE <> f) ->
    frame_count v' f = frame_count v f;
  cs_pages : forall va, same_page_entry (page_entry v va) (page_entry v' va);
  cs_upgrade : forall va, upgradable_path v va -> upgradable_path v' va
}.

(** The table that an entry leads to after it was made private. *)
Record private_table (q0 : list Z) (slot : Z) (v v' : vm) : Prop := {
  pt_tab : tab v' 4 root q0 = Some (table_addr (word v' slot));
  pt_private : ~ shared (table_addr (word v' slot) / PAGE_SIZE);
  pt_rw : upgradable (word v slot) = true -> rw (word v' slot) = true;
  pt_target : forall i, 0 <= i < 512 ->
    same_target (word v (table_addr (word v slot) + 8 * i)) (word v' (table_addr (word v' slot) + 8 * i));
  pt_entries : forall i, 0 <= i < 512 -> upgradable (word v (table_addr (word v slot) + 8 * i)) = true ->
    present (word v (table_addr (word v slot) + 8 * i)) = true ->
    upgradable (word v' (table_addr (word v' slot) + 8 * i)) = true
}.

Lemma sharing_alloc v a v' : sharing v -> alloc_effect v a v' -> sharing v'.
Proof.
  intros [P1 P2 P3 P4 P5 P6] HE. destruct (alloc_space v root a v' P1 HE) as [Hsp Hc]. destruct HE as (_ & Hm & _).
  assert (forall b, word v' b = word v b) as Hw by (intros b; unfold word; by rewrite Hm).
  split; [done| |done| | |].
  - intros b. rewrite Hw. apply P2.
  - intros f Hf. specialize (P4 f Hf). specialize (Hc f). lia.
  - intros p t Hp Ht Hs. rewrite (tab_mem v) in Ht by done. specialize (P5 p t Hp Ht Hs). specialize (Hc (t / PAGE_SIZE)). lia.
  - intros p t i Hp Hi Ht. rewrite (tab_mem v) in Ht by done. rewrite Hw. by apply (P6 p).
Qed.

Lemma same_mem_step q0 slot v v' : sharing v' -> mem v' = mem v -> zlen (table v') = zlen (table v) ->
  table v' = table v -> cow_step q0 slot v v'.
Proof.
  intros Hs Hm Hl Ht. assert (forall b, word v' b = word v b) as Hw by (intros b; unfold word; by rewrite Hm).
  split; [done|done| | | | | | |].
  - intros p _ _. by apply tab_mem.
  - intros t Htab. left. by rewrite <- Htab, (tab_mem v' v).
  - intros va. by apply walk_mem.
  - intros a _ _ _. unfold word. by rewrite Hm.
  - intros f _ _. unfold frame_count. by rewrite Ht.
  - intros va. unfold page_entry. rewrite (tab_mem v v') by done. destruct (tab v 4 root _) as [t|]; [|done]. cbv zeta. rewrite Hw.
    by destruct (present _).
  - intros va Hup k t Hk. rewrite (tab_mem v v'), Hw by done. by apply Hup.
Qed.

Section table.
Context (p0 : list Z) (t0 i0 : Z) (v : vm).
Hypothesis Hsh : sharing v.
Hypothesis Hp0 : idxs p0.
Hypothesis Hlen : (length p0 < 3)%nat.
Hypothesis Ht0 : tab v 4 root p0 = Some t0.
Hypothesis Hpriv : ~ shared (t0 / PAGE_SIZE).
Hypothesis Hi0 : 0 <= i0 < 512.
Let slot : Z := t0 + 8 * i0.
Let q0 : list Z := p0 ++ [i0].
Let e : Z := word v slot.
Hypothesis Hpres : present e = true.
Hypothesis Hleaf : leafb (4 - length p0) e = false.
Let old : Z := table_addr e.

Lemma old_tab : tab v 4 root q0 = Some old.
Proof. apply (tab_next v root p0 t0 i0); [lia|done..]. Qed.

Lemma old_frame : e / PAGE_SIZE = old / PAGE_SIZE.
Proof. unfold old. rewrite table_addr_div by apply (sh_words v Hsh). by rewrite Z.div_mul. Qed.

(** The entry is private already. *)
Lemma table_private : user_half q0 -> cow e = false -> cow_step q0 slot v v /\ private_table q0 slot v v.
Proof.
  intros Huser Hc. pose proof old_tab as Hold. split; [by apply same_mem_step|]. split.
  - exact Hold.
  - intros Hs. fold e in Hs. fold old in Hs. rewrite <- old_frame in Hs. destruct (sh_guard v Hsh p0 t0 i0 Hp0 Hi0 Ht0 Huser Hpriv Hpres Hs) as [H _].
    fold slot e in H. congruence.
  - unfold upgradable. fold e. by rewrite Hc, orb_false_r.
  - intros. apply same_target_refl.
  - done.
Qed.

(** The state after the copy, with the new table [f] and the old one released. *)
Context (f : Z) (v' : vm).
Hypothesis Hok' : frames_ok v'.
Hypothesis Hlen' : zlen (table v') = zlen (table v).
Hypothesis H64' : words64 v'.
Hypothesis Hf1 : f mod PAGE_SIZE = 0.
Hypothesis Hf2 : 0 < f.
Hypothesis Hf3 : f / PAGE_SIZE < zlen (table v).
Hypothesis Hfree : frame_count v (f / PAGE_SIZE) = 0.
Hypothesis Hcounts : forall g, frame_count v' g = if g =? f / PAGE_SIZE then 1 else
  if g =? old / PAGE_SIZE then frame_count v g - 1 else frame_count v g.
Hypothesis Hwords : forall b, b mod 8 = 0 -> word v' b = if b =? slot then own_entry f e else
  if b / PAGE_SIZE =? f / PAGE_SIZE then (if present (word v (old + (b - f))) then cow_entry (word v (old + (b - f))) else 0) else word v b.

Lemma copied_frame p t : idxs p -> tab v 4 root p = Some t -> t / PAGE_SIZE <> f / PAGE_SIZE.
Proof.
  intros Hp Ht E. pose proof (to_used _ _ (tr_table _ _ (proj2 (sh_space _ Hsh)) p t Hp Ht)) as Hu. rewrite E in Hu. lia.
Qed.

Lemma copied_slot_frame : slot / PAGE_SIZE = t0 / PAGE_SIZE.
Proof.
  pose proof (to_aligned _ _ (tr_table _ _ (proj2 (sh_space _ Hsh)) p0 t0 Hp0 Ht0)) as Ha. unfold slot. divlia.
Qed.

Lemma copied_new : word v' slot = own_entry f e /\ table_addr (word v' slot) = f /\ tab v' 4 root p0 = Some t0 /\
  tab v' 4 root q0 = Some f /\ (forall i, 0 <= i < 512 -> word v' (f + 8 * i) = let x := word v (old + 8 * i) in if present x then cow_entry x else 0) /\
  forall p t i, idxs p -> 0 <= i < 512 -> tab v 4 root p = Some t -> t + 8 * i <> slot -> word v' (t + 8 * i) = word v (t + 8 * i).
Proof.
  pose proof (sh_space _ Hsh) as Hsp. pose proof (proj2 Hsp) as [T1 T2]. pose proof (to_aligned _ _ (T1 p0 t0 Hp0 Ht0)) as Ha0.
  assert (slot mod 8 = 0) as Hsl by (by apply slot_aligned).
  assert (word v' slot = own_entry f e) as Hws by (rewrite Hwords, Z.eqb_refl by done; done).
  assert (forall p t i, idxs p -> 0 <= i < 512 -> tab v 4 root p = Some t -> t + 8 * i <> slot -> word v' (t + 8 * i) = word v (t + 8 * i)) as Hw.
  { intros p t i Hp Hi Ht Hne. pose proof (to_aligned _ _ (T1 p t Hp Ht)) as Ha. pose proof (copied_frame p t Hp Ht) as Hd.
    rewrite Hwords by (by apply slot_aligned). destruct (Z.eqb_spec (t + 8 * i) slot); [done|].
    replace ((t + 8 * i) / PAGE_SIZE) with (t / PAGE_SIZE) by divlia. by destruct (Z.eqb_spec (t / PAGE_SIZE) (f / PAGE_SIZE)). }
  assert (0 <= f < 2 ^ 64) as Hf64 by (destruct Hok' as [_ _ _ _ _ Hz _ _]; rewrite Hlen' in Hz; divlia).
  destruct (own_entry_ok f e Hf64 Hf1) as (_ & O1 & O2 & O3 & _).
  pose proof (entry_tab0 v root p0 t0 i0 Hsp Hp0 Ht0 Hi0 v' Hw) as Hp0'.
  split_and!; [done|by rewrite Hws|done| | |done].
  - unfold q0. rewrite (tab_next v' root p0 t0 i0); [f_equal; fold slot; by rewrite Hws|lia|done|fold slot; by rewrite Hws, O1|].
    fold slot. rewrite Hws. unfold leafb in *. by rewrite O2.
  - intros i Hi. rewrite Hwords by (by apply slot_aligned). destruct (Z.eqb_spec (f + 8 * i) slot) as [E|].
    + pose proof (copied_frame p0 t0 Hp0 Ht0). rewrite <- copied_slot_frame, <- E in *. divlia.
    + replace ((f + 8 * i) / PAGE_SIZE) with (f / PAGE_SIZE) by divlia. rewrite Z.eqb_refl.
      by replace (f + 8 * i - f) with (8 * i) by lia.
Qed.

Lemma old_ok : table_ok v old.
Proof. eapply tr_table; [apply (sh_space v Hsh)|by apply q0_idxs|apply old_tab]. Qed.

Lemma new_not_shared : ~ shared (f / PAGE_SIZE).
Proof. intros Hs. pose proof (sh_used v Hsh _ Hs). lia. Qed.

Lemma copied_target i : 0 <= i < 512 -> same_target (word v (old + 8 * i)) (word v' (f + 8 * i)).
Proof.
  intros Hi. destruct copied_new as (_ & _ & _ & _ & Hz & _). rewrite (Hz i Hi). cbv zeta.
  destruct (present (word v (old + 8 * i))) eqn:Ep; [apply cow_entry_ok, (sh_words v Hsh)|]. split; by rewrite Ep.
Qed.

Lemma copied_tabs p : idxs p -> p <> q0 -> tab v' 4 root p = tab v 4 root p.
Proof.
  destruct copied_new as (_ & _ & _ & Hq & _ & Hw).
  apply (replace_tab v root p0 t0 i0 old f (sh_space v Hsh) (sh_words v Hsh) Hp0 Ht0 Hi0 old_tab v' H64' Hw Hq copied_target).
Qed.

Lemma copied_tab_counts p t : idxs p -> p <> q0 -> tab v 4 root p = Some t -> frame_count v' (t / PAGE_SIZE) = frame_count v (t / PAGE_SIZE).
Proof.
  intros Hp Hne Ht. rewrite Hcounts. pose proof (copied_frame p t Hp Ht). destruct (Z.eqb_spec (t / PAGE_SIZE) (f / PAGE_SIZE)); [done|].
  destruct (Z.eqb_spec (t / PAGE_SIZE) (old / PAGE_SIZE)) as [E|]; [|done]. destruct Hne.
  pose proof (sh_space v Hsh) as [_ Htr]. pose proof (to_aligned _ _ (tr_table _ _ Htr p t Hp Ht)). pose proof (to_aligned _ _ old_ok).
  assert (t = old) as -> by divlia. eapply (tr_inj _ _ Htr); [done|by apply q0_idxs|done|apply old_tab].
Qed.

Lemma copied_space : space v' root.
Proof.
  destruct copied_new as (_ & _ & _ & Hq & _ & Hw). split; [done|].
  apply (replace_tree v root p0 t0 i0 old f (sh_space v Hsh) (sh_words v Hsh) Hp0 Ht0 Hi0 old_tab v' H64' Hw Hq copied_target).
  - intros p Hp Ht. by apply (copied_frame p f Hp).
  - intros t Hne [K1 K2 K3 K4]. pose proof (to_aligned _ _ old_ok). split; [done|done|congruence|]. rewrite Hcounts.
    destruct (Z.eqb_spec (t / PAGE_SIZE) (f / PAGE_SIZE)); [lia|]. destruct (Z.eqb_spec (t / PAGE_SIZE) (old / PAGE_SIZE)); [|done].
    destruct Hne. divlia.
  - split; [done|done|congruence|]. rewrite Hcounts, Z.eqb_refl. lia.
Qed.

Lemma copied_sharing : sharing v'.
Proof.
  destruct copied_new as (Hs & Hta & _ & Hq & Hz & Hw). pose proof new_not_shared as Hns. pose proof (sh_words v Hsh) as H64.
  split; [apply copied_space|done|apply (sh_root v Hsh)| | |].
  - intros g Hg. pose proof (sh_used v Hsh g Hg) as Hu. rewrite Hcounts. destruct (Z.eqb_spec g (f / PAGE_SIZE)) as [->|]; [lia|].
    destruct (Z.eqb_spec g (old / PAGE_SIZE)) as [->|]; [|done].
    pose proof (sh_counts v Hsh q0 old (q0_idxs p0 i0 Hp0 Hi0) old_tab Hg). lia.
  - intros p t Hp Ht Hst. destruct (decide (p = q0)) as [->|Hne]; [rewrite Hq in Ht; by injection Ht as <-|].
    rewrite copied_tabs in Ht by done. rewrite (copied_tab_counts p t Hp Hne Ht). by apply (sh_counts v Hsh p).
  - intros p t i Hp Hi Ht Huser Hnt Hpr Hst. destruct (decide (p = q0)) as [->|Hne].
    + rewrite Hq in Ht. injection Ht as <-. rewrite (Hz i Hi) in *. cbv zeta in *.
      destruct (present (word v (old + 8 * i))) eqn:Ep; [|done]. by apply cow_entry_ok.
    + rewrite copied_tabs in Ht by done. destruct (Z.eq_dec (t + 8 * i) slot) as [E|E].
      * rewrite E in Hst. destruct Hns. rewrite <- Hta, table_addr_div, Z.div_mul by (done || apply H64'). done.
      * rewrite (Hw p t i Hp Hi Ht E) in *. by apply (sh_guard v Hsh p).
Qed.

Lemma copied_long p t i : idxs p -> 0 <= i < 512 -> tab v 4 root p = Some t -> (length p0 < length p)%nat -> t + 8 * i <> slot.
Proof.
  intros Hp Hi Ht Hl E. pose proof (entry_path v root p0 t0 i0 (sh_space v Hsh) Hp0 Ht0 Hi0 p t i Hp Hi Ht E) as Eq.
  apply (f_equal length) in Eq. rewrite !length_app in Eq. cbn in Eq. lia.
Qed.

Lemma copied_pages va : same_page_entry (page_entry v va) (page_entry v' va).
Proof.
  pose proof copied_new as (_ & _ & _ & Hq & _ & Hw). unfold page_entry. pose proof (vpath_idxs va 3) as Hp. pose proof (idx_range 1 va) as Hi.
  destruct (decide (take 3 (vpath va) = q0)) as [->|Hne].
  - rewrite Hq, old_tab. cbv zeta. fold slot e old. pose proof (copied_target _ Hi) as Hst. rewrite (st_present _ _ Hst).
    destruct (present (word v (old + 8 * idx 1 va))) eqn:Ep; [|done]. by apply Hst.
  - rewrite copied_tabs by done. destruct (tab v 4 root (take 3 (vpath va))) as [t|] eqn:Ht; [|done]. cbv zeta.
    rewrite (Hw _ t _ Hp Hi Ht); [apply same_page_entry_refl|]. apply (copied_long (take 3 (vpath va))); [done..|]. exact Hlen.
Qed.

Lemma copied_upgrade va : upgradable_path v va -> upgradable_path v' va.
Proof.
  intros Hup k t Hk Ht Hpr. pose proof copied_new as (Hs & _ & _ & Hq & Hz & Hw).
  pose proof (vpath_idxs va (4 - k)) as Hp. pose proof (idx_range k va) as Hi.
  destruct (decide (take (4 - k) (vpath va) = q0)) as [Eq|Hne].
  - rewrite Eq, Hq in Ht. injection Ht as <-. rewrite (Hz _ Hi) in *. cbv zeta in *. unfold upgradable.
    destruct (present (word v (old + 8 * idx k va))); [|done].
    destruct (cow_entry_ok _ (sh_words v Hsh (old + 8 * idx k va))) as (_ & _ & _ & -> & _). by rewrite orb_true_r.
  - rewrite copied_tabs in Ht by done. destruct (Z.eq_dec (t + 8 * idx k va) slot) as [E|E].
    + rewrite E, Hs. unfold upgradable. destruct Hok' as [_ _ _ _ _ Hsz _ _]. rewrite Hlen' in Hsz.
      destruct (own_entry_ok f e ltac:(divlia) Hf1) as (_ & _ & _ & _ & _ & ->). done.
    + rewrite (Hw _ t _ Hp Hi Ht E) in *. by apply Hup.
Qed.

Lemma copied_step : cow_step q0 slot v v' /\ private_table q0 slot v v'.
Proof.
  pose proof copied_new as (Hs & Hta & Hp0' & Hq & Hz & Hw). pose proof (sh_words v Hsh) as H64. split.
  - split; [apply copied_sharing|done|apply copied_tabs| | | | |apply copied_pages|apply copied_upgrade].
    + intros t Ht. right. rewrite Hq in Ht. by injection Ht as <-.
    + apply (replace_walk v root p0 t0 i0 old f (sh_space v Hsh) H64 Hp0 Ht0 Hi0 old_tab v' H64' Hw Hq copied_target).
    + intros a Ha Hne Hc. rewrite Hwords by done. destruct (Z.eqb_spec a slot); [done|].
      destruct (Z.eqb_spec (a / PAGE_SIZE) (f / PAGE_SIZE)) as [E|]; [|done]. rewrite E in Hc. lia.
    + intros g Hg Hno. rewrite Hcounts. destruct (Z.eqb_spec g (f / PAGE_SIZE)) as [->|]; [lia|].
      destruct (Z.eqb_spec g (old / PAGE_SIZE)) as [->|]; [|done]. destruct (Hno q0 old); [by apply q0_idxs|apply old_tab|done].
  - split; rewrite ?Hta.
    + done.
    + apply new_not_shared.
    + intros _. rewrite Hs. apply own_entry_ok; [|done]. destruct Hok' as [_ _ _ _ _ Hsz _ _]. rewrite Hlen' in Hsz. divlia.
    + apply copied_target.
    + intros i Hi _ Hpr. rewrite (Hz i Hi). cbv zeta. fold e old in Hpr. rewrite Hpr. unfold upgradable.
      destruct (cow_entry_ok _ (H64 (old + 8 * i))) as (_ & _ & _ & -> & _). by rewrite orb_true_r.
Qed.
End table.

Lemma cow_table_ok fuel p0 t0 i0 v : zlen (table v) < Z.of_nat fuel -> sharing v -> idxs p0 -> (length p0 < 3)%nat ->
  tab v 4 root p0 = Some t0 -> ~ shared (t0 / PAGE_SIZE) -> 0 <= i0 < 512 -> user_half (p0 ++ [i0]) ->
  present (word v (t0 + 8 * i0)) = true -> leafb (4 - length p0) (word v (t0 + 8 * i0)) = false ->
  exists b v', cow_table fuel (t0 + 8 * i0) v = Some (b, v') /\ cow_step (p0 ++ [i0]) (t0 + 8 * i0) v v' /\
    (b = true -> private_table (p0 ++ [i0]) (t0 + 8 * i0) v v').
Proof.
  intros Hfu Hsh Hp0 Hlen Ht0 Hpriv Hi0 Huser Hpres Hleaf. set (slot := t0 + 8 * i0) in *. set (e := word v slot) in *.
  pose proof (sh_space v Hsh) as [Hok Htr]. pose proof (tr_table _ _ Htr p0 t0 Hp0 Ht0) as Hto.
  pose proof (old_ok p0 t0 i0 v Hsh Hp0 Hlen Ht0 Hi0 Hpres Hleaf) as Hold. fold slot e in Hold. set (old := table_addr e) in *.
  unfold cow_table. unfold slot at 1. rewrite (bind_run _ _ _ _ _ (load_slot v t0 i0 Hok Hto Hi0)). fold slot e.
  destruct (cow e) eqn:Hcow; cbn [negb].
  2: { destruct (table_private p0 t0 i0 v Hsh Hp0 Hlen Ht0 Hpriv Hi0 Hpres Hleaf Huser Hcow). by exists true, v. }
  pose proof (next_frame _ Hok). destruct (alloc_page_ok fuel v Hok ltac:(lia)) as (a & w & Ha & HE & _). rewrite (bind_run _ _ _ _ _ Ha).
  pose proof (sharing_alloc v a w Hsh HE) as Hshw. destruct HE as (Hokw & Hm & Hs & Hl & HE).
  destruct HE as [(-> & Htab & _)|(A1 & A2 & A3 & A4 & A5)].
  { exists false, w. split; [done|]. split; [by apply same_mem_step|done]. }
  destruct (Z.eqb_spec a 0); [lia|]. assert (table_ok w a) as Haok by (split; [done|done|congruence|rewrite A5, Z.eqb_refl; lia]).
  assert (table_ok w old) as Holdw.
  { destruct Hold as [K1 K2 K3 K4]. split; [done|done|congruence|]. rewrite A5. destruct (_ =? _); lia. }
  assert (old <> a) as Hoa by (intros <-; pose proof (to_used _ _ Hold); lia).
  assert (zero_frame a w = Some (tt, set_mem w (fill (mem w) a (fun _ => 0) 512))) as Hz.
  { unfold zero_frame. by rewrite frame_access. }
  rewrite (bind_run _ _ _ _ _ Hz). set (w1 := set_mem w _).
  assert (forall b, b mod 8 = 0 -> word w1 b = if b / PAGE_SIZE =? a / PAGE_SIZE then 0 else word v b) as Hw1.
  { intros b Hb. unfold w1. rewrite word_fill by (done || divlia). change (8 * Z.of_nat 512) with PAGE_SIZE. rewrite in_frame by done.
    unfold word. by rewrite Hm. }
  assert (words64 w1) as H64w1.
  { intros b. assert (word w1 b = word w1 (b / 8 * 8)) as -> by (unfold word; by rewrite Z.div_mul). rewrite Hw1 by (by apply Z.mod_mul).
    destruct (_ =? _); [lia|apply (sh_words v Hsh)]. }
  destruct (copy_entries_ok 512 w1 a old 0) as (w2 & H2 & E2 & H64w2 & Hw2);
    [by apply frames_ok_mem|by apply table_ok_mem|by apply table_ok_mem|done|done|lia|done|].
  rewrite (bind_run _ _ _ _ _ H2). assert (frames_ok w2) as Hok2 by (rewrite E2; by do 2 apply frames_ok_mem).
  assert (table w2 = table w) as Et2 by (by rewrite E2). pose proof (sh_words v Hsh slot) as He64. fold e in He64.
  assert (e / PAGE_SIZE = old / PAGE_SIZE) as Ef by (unfold old; rewrite table_addr_div, Z.div_mul by done; done).
  assert (PAGE_SIZE <= e) as Hbig by (destruct Hold as [K1 K2 _ _]; divlia).
  destruct (free_page_ok w2 e Hok2 ltac:(lia)) as (w3 & H3 & Hok3 & [C1 C2 C3 _ _] & F3 & _).
  { rewrite Et2, Ef, Hl. apply Hold. }
  rewrite (bind_run _ _ _ _ _ H3).
  assert (table_ok w3 t0) as Hto3.
  { destruct Hto as [K1 K2 K3 K4]. split; [done|done|rewrite C3, Et2; congruence|].
    rewrite F3. unfold frame_count at 1 2. rewrite Et2. change (default 0 ((table w).[t0 / PAGE_SIZE])) with (frame_count w (t0 / PAGE_SIZE)).
    rewrite A5, Ef. destruct (Z.eqb_spec (t0 / PAGE_SIZE) (a / PAGE_SIZE)) as [E|]; [rewrite E in K4; lia|].
    destruct (Z.eqb_spec (t0 / PAGE_SIZE) (old / PAGE_SIZE)) as [E|]; [|done].
    assert (t0 = old) as E0 by (destruct Hold; divlia). pose proof (old_tab p0 t0 i0 v Hlen Ht0 Hpres Hleaf) as Ho.
    fold slot e old in Ho. rewrite <- E0 in Ho. pose proof (tr_inj _ _ Htr _ _ _ Hp0 (q0_idxs p0 i0 Hp0 Hi0) Ht0 Ho) as Eq.
    apply (f_equal length) in Eq. rewrite length_app in Eq. cbn in Eq. lia. }
  unfold slot at 1. rewrite (bind_run _ _ _ _ _ (store_slot w3 t0 i0 (own_entry a e) Hok3 Hto3 Hi0)). fold slot.
  eexists true, _. split; [reflexivity|]. set (v' := set_mem w3 _).
  assert (0 <= a < 2 ^ 64) as Ha64 by (destruct Hok as [_ _ _ _ _ Hsz _ _]; divlia).
  pose proof (proj1 (own_entry_ok a e Ha64 A2)) as Eu.
  enough (cow_step (p0 ++ [i0]) slot v v' /\ private_table (p0 ++ [i0]) slot v v') as [HA HB] by (by split).
  apply (copied_step p0 t0 i0 v Hsh Hp0 Hlen Ht0 Hpriv Hi0 Hpres Hleaf a v'); try done.
  - by apply frames_ok_mem.
  - change (table v') with (table w3). by rewrite C3, Et2.
  - intros b. unfold word. cbn [mem set_mem v']. destruct (decide (b / 8 = slot / 8)) as [->|Hd].
    + rewrite lookup_insert_eq. cbn. apply Z.mod_pos_bound. lia.
    + rewrite lookup_insert_ne, C1 by done. apply H64w2.
  - intros g. change (frame_count v' g) with (frame_count w3 g). rewrite F3, Ef. unfold frame_count at 1 2. rewrite Et2. fold (frame_count w g).
    fold slot e old. rewrite A5. pose proof (to_used _ _ Hold) as Hu. destruct (Z.eqb_spec g (old / PAGE_SIZE)) as [->|]; [|done].
    destruct (Z.eqb_spec (old / PAGE_SIZE) (a / PAGE_SIZE)) as [E|]; [rewrite E in Hu|]; lia.
  - intros b Hb. unfold v'. rewrite word_store by (try done; apply slot_aligned; apply Hto). rewrite Eu.
    fold slot e old. destruct (b =? slot); [done|]. unfold word at 1. rewrite C1. fold (word w2 b). rewrite Hw2 by done. fold slot e old.
    rewrite Z.mul_0_r, Z.add_0_r. assert ((b / PAGE_SIZE =? a / PAGE_SIZE) && (a <=? b) = (b / PAGE_SIZE =? a / PAGE_SIZE)) as ->.
    { destruct (Z.eqb_spec (b / PAGE_SIZE) (a / PAGE_SIZE)); [|done]. destruct (Z.leb_spec a b); [done|divlia]. }
    rewrite (Hw1 b Hb). destruct (Z.eqb_spec (b / PAGE_SIZE) (a / PAGE_SIZE)) as [E|]; [|done]. cbn [andb].
    pose proof (to_aligned _ _ Hold). rewrite Hw1 by divlia.
    destruct (Z.eqb_spec ((old + (b - a)) / PAGE_SIZE) (a / PAGE_SIZE)); [divlia|done].
Qed.

(** *** Pages of the process *)

(** The pages are frames in use that are no tables, each mapped once; a page that
    others hold has a count for them too. *)
Record user_pages (v : vm) : Prop := {
  up_ok : forall va e, user va -> page_entry v va = Some e ->
    0 < e / PAGE_SIZE < zlen (table v) /\ 0 < frame_count v (e / PAGE_SIZE) /\
    (shared (e / PAGE_SIZE) -> 2 <= frame_count v (e / PAGE_SIZE));
  up_tab : forall va e p t, user va -> page_entry v va = Some e -> idxs p -> tab v 4 root p = Some t ->
    t / PAGE_SIZE <> e / PAGE_SIZE;
  up_inj : forall va va' e e', user va -> user va' -> page_entry v va = Some e -> page_entry v va' = Some e' ->
    e / PAGE_SIZE = e' / PAGE_SIZE -> vpath va = vpath va'
}.

(** Frames whose contents a fault may not change: those of others and those that
    are no tables. *)
Definition protected (v : vm) (g : Z) : Prop :=
  0 < frame_count v g /\ (shared g \/ forall p t, idxs p -> tab v 4 root p = Some t -> t / PAGE_SIZE <> g).

Definition protects (v v' : vm) : Prop :=
  forall g, protected v g -> protected v' g /\ forall a, a mod 8 = 0 -> a / PAGE_SIZE = g -> word v' a = word v a.

Lemma protects_trans v1 v2 v3 : protects v1 v2 -> protects v2 v3 -> protects v1 v3.
Proof.
  intros H1 H2 g Hg. destruct (H1 g Hg) as [Hg2 W1]. destruct (H2 g Hg2) as [Hg3 W2]. split; [done|].
  intros a Ha Ef. by rewrite W2, W1.
Qed.

Section step.
Context (p0 : list Z) (t0 i0 : Z) (v v' : vm).
Let slot : Z := t0 + 8 * i0.
Hypothesis Hsh : sharing v.
Hypothesis Hp0 : idxs p0.
Hypothesis Ht0 : tab v 4 root p0 = Some t0.
Hypothesis Hpriv : ~ shared (t0 / PAGE_SIZE).
Hypothesis Hi0 : 0 <= i0 < 512.
Hypothesis Hst : cow_step (p0 ++ [i0]) slot v v'.

Lemma step_tab p t : idxs p -> tab v' 4 root p = Some t -> tab v 4 root p = Some t \/ frame_count v (t / PAGE_SIZE) = 0.
Proof.
  intros Hp Ht. destruct (decide (p = p0 ++ [i0])) as [->|Hne]; [by apply (cs_new _ _ _ _ Hst)|].
  left. by rewrite <- (cs_tabs _ _ _ _ Hst).
Qed.

Lemma slot_frame : slot / PAGE_SIZE = t0 / PAGE_SIZE.
Proof. pose proof (to_aligned _ _ (tr_table _ _ (proj2 (sh_space v Hsh)) p0 t0 Hp0 Ht0)). unfold slot. divlia. Qed.

Lemma step_protects : protects v v'.
Proof.
  intros g [Hg Hor]. split.
  - destruct Hor as [Hs|Hno].
    + split; [|by left]. by apply (sh_used v' (cs_sharing _ _ _ _ Hst)).
    + split; [by rewrite (cs_counts _ _ _ _ Hst)|]. right. intros p t Hp Ht. destruct (step_tab p t Hp Ht) as [H|H]; [by apply (Hno p)|].
      intros <-. lia.
  - intros a Ha <-. apply (cs_words _ _ _ _ Hst); [done| |done]. intros ->. rewrite slot_frame in *.
    destruct Hor as [Hs|Hno]; [done|]. by destruct (Hno p0 t0).
Qed.

Lemma step_user_pages : user_pages v -> user_pages v'.
Proof.
  intros [U1 U2 U3].
  assert (forall va e', page_entry v' va = Some e' -> exists e, page_entry v va = Some e /\ e' / PAGE_SIZE = e / PAGE_SIZE) as Hback.
  { intros va e' He'. pose proof (cs_pages _ _ _ _ Hst va) as Hs. rewrite He' in Hs.
    destruct (page_entry v va) as [e|]; [|done]. by exists e. }
  split.
  - intros va e' Hva He'. destruct (Hback va e' He') as (e & He & ->). destruct (U1 va e Hva He) as (H1 & H2 & H3).
    rewrite (cs_len _ _ _ _ Hst), (cs_counts _ _ _ _ Hst); [done|done|]. intros p t Hp Ht. by apply (U2 va e p).
  - intros va e' p t Hva He' Hp Ht. destruct (Hback va e' He') as (e & He & ->).
    destruct (step_tab p t Hp Ht) as [H|H]; [by apply (U2 va e p)|]. destruct (U1 va e Hva He) as (_ & Hu & _). intros E. rewrite E in H. lia.
  - intros va va' e1 e2 Hva Hva' H1 H2. destruct (Hback va e1 H1) as (e & He & ->), (Hback va' e2 H2) as (e' & He' & ->). by eapply U3.
Qed.
End step.

(** *** The page itself *)

Section page.
Context (va t0 : Z) (v : vm).
Hypothesis Hsh : sharing v.
Hypothesis Hup : user_pages v.
Hypothesis Hva : user va.
Let p0 : list Z := take 3 (vpath va).
Let i0 : Z := idx 1 va.
Let slot : Z := t0 + 8 * i0.
Let e : Z := word v slot.
Hypothesis Ht0 : tab v 4 root p0 = Some t0.
Hypothesis Hpriv : ~ shared (t0 / PAGE_SIZE).
Hypothesis Hpres : present e = true.
Context (f : Z) (v' : vm).
Hypothesis Hok' : frames_ok v'.
Hypothesis Hlen' : zlen (table v') = zlen (table v).
Hypothesis H64' : words64 v'.
Hypothesis Hf1 : f mod PAGE_SIZE = 0.
Hypothesis Hf2 : 0 < f.
Hypothesis Hf3 : f / PAGE_SIZE < zlen (table v).
Hypothesis Hfree : frame_count v (f / PAGE_SIZE) = 0.
Hypothesis Hcounts : forall g, frame_count v' g = if g =? f / PAGE_SIZE then 1 else
  if g =? e / PAGE_SIZE then frame_count v g - 1 else frame_count v g.
Hypothesis Hwords : forall b, b mod 8 = 0 -> word v' b = if b =? slot then own_entry f e else
  if b / PAGE_SIZE =? f / PAGE_SIZE then word v (table_addr e + (b - f)) else word v b.

Lemma page_p0 : idxs p0.
Proof. apply vpath_idxs. Qed.

Lemma page_i0 : 0 <= i0 < 512.
Proof. apply idx_range. Qed.

Lemma page_entry_old : page_entry v va = Some e.
Proof. unfold page_entry. fold p0. rewrite Ht0. cbv zeta. fold i0 slot e. by rewrite Hpres. Qed.

Lemma page_table p t : idxs p -> tab v 4 root p = Some t -> table_ok v t /\ t / PAGE_SIZE <> f / PAGE_SIZE /\ t / PAGE_SIZE <> e / PAGE_SIZE.
Proof.
  intros Hp Ht. pose proof (tr_table _ _ (proj2 (sh_space v Hsh)) p t Hp Ht) as Hto. split; [done|]. split.
  - intros E. pose proof (to_used _ _ Hto) as Hu. rewrite E in Hu. lia.
  - by apply (up_tab v Hup va e p t Hva page_entry_old Hp).
Qed.

Lemma page_word p t i : idxs p -> 0 <= i < 512 -> tab v 4 root p = Some t -> t + 8 * i <> slot -> word v' (t + 8 * i) = word v (t + 8 * i).
Proof.
  intros Hp Hi Ht Hne. destruct (page_table p t Hp Ht) as ([Ha _ _ _] & Hd & _). rewrite Hwords by (by apply slot_aligned).
  destruct (Z.eqb_spec (t + 8 * i) slot); [done|]. replace ((t + 8 * i) / PAGE_SIZE) with (t / PAGE_SIZE) by divlia.
  by destruct (Z.eqb_spec (t / PAGE_SIZE) (f / PAGE_SIZE)).
Qed.

Lemma page_slot : word v' slot = own_entry f e /\ present (own_entry f e) = true /\ own_entry f e / PAGE_SIZE = f / PAGE_SIZE /\
  rw (own_entry f e) = true /\ table_addr (own_entry f e) = f.
Proof.
  destruct (page_table p0 t0 page_p0 Ht0) as ([Ha _ _ _] & _).
  assert (word v' slot = own_entry f e) as Hs by (rewrite Hwords, Z.eqb_refl by (by apply slot_aligned); done).
  destruct Hok' as [_ _ _ _ _ Hsz _ _]. rewrite Hlen' in Hsz.
  destruct (own_entry_ok f e ltac:(divlia) Hf1) as (_ & O1 & _ & O3 & _ & O5). split_and!; [done|congruence| |done|done].
  rewrite <- O3 at 2. rewrite <- Hs. rewrite table_addr_div, Z.div_mul by (done || apply H64'). done.
Qed.

Lemma page_none w : tab w 4 root (p0 ++ [i0]) = None.
Proof.
  rewrite tab_snoc. destruct (tab w 4 root p0); [|done]. cbv zeta. change (length p0) with 3%nat. cbn [Nat.sub leafb Nat.eqb orb negb].
  by rewrite andb_false_r.
Qed.

Lemma page_tabs p : idxs p -> tab v' 4 root p = tab v 4 root p.
Proof.
  intros Hp. destruct (decide (p0 ++ [i0] `prefix_of` p)) as [[r ->]|Hn].
  - by rewrite !(tab_prefix_None _ _ _ _ r) by apply page_none.
  - by apply (entry_tab v root p0 t0 i0 (sh_space v Hsh) page_p0 Ht0 page_i0 v' page_word).
Qed.

Lemma page_walk va' : vpath va' <> vpath va -> walk v' 4 root va' = walk v 4 root va'.
Proof.
  intros Hne. apply (entry_walk v root p0 t0 i0 (sh_space v Hsh) page_p0 Ht0 page_i0 v' page_word).
  intros [r Hr]. apply Hne. unfold p0, i0, vpath in *. cbn in Hr. by injection Hr as -> -> -> -> <-.
Qed.

Lemma page_entries va' : page_entry v' va' = if decide (vpath va' = vpath va) then Some (own_entry f e) else page_entry v va'.
Proof.
  destruct page_slot as (Hs & Hp & _). unfold page_entry. rewrite page_tabs by apply vpath_idxs. case_decide as Ed.
  - replace (take 3 (vpath va')) with p0 by (unfold p0; by rewrite Ed). rewrite Ht0. cbv zeta.
    assert (idx 1 va' = i0) as -> by (unfold vpath, i0 in *; by injection Ed as _ _ _ ->). fold slot. by rewrite Hs, Hp.
  - destruct (tab v 4 root (take 3 (vpath va'))) as [t|] eqn:Ht; [|done]. cbv zeta.
    rewrite (page_word _ t (idx 1 va') (vpath_idxs va' 3) (idx_range 1 va') Ht); [done|]. intros E.
    pose proof (entry_path v root p0 t0 i0 (sh_space v Hsh) page_p0 Ht0 page_i0 _ t _ (vpath_idxs va' 3) (idx_range 1 va') Ht E) as Eq.
    apply Ed. unfold p0, i0, vpath in *. cbn in Eq. by injection Eq as -> -> -> ->.
Qed.

Lemma page_sharing : sharing v'.
Proof.
  destruct (up_ok v Hup va e Hva page_entry_old) as (He1 & He2 & He3). destruct page_slot as (Hs & _ & Hfr & _).
  assert (~ shared (f / PAGE_SIZE)) as Hns by (intros H; pose proof (sh_used v Hsh _ H); lia).
  split; [|done|apply (sh_root v Hsh)| | |].
  - split; [done|]. pose proof (sh_space v Hsh) as [_ [T1 T2]]. split.
    + intros p t Hp Ht. rewrite page_tabs in Ht by done. destruct (page_table p t Hp Ht) as ([K1 K2 K3 K4] & D1 & D2).
      split; [done|done|congruence|]. rewrite Hcounts. by destruct (Z.eqb_spec (t / PAGE_SIZE) (f / PAGE_SIZE)), (Z.eqb_spec (t / PAGE_SIZE) (e / PAGE_SIZE)).
    + intros p q t Hp Hq H1 H2. rewrite page_tabs in H1, H2 by done. by eapply T2.
  - intros g Hg. pose proof (sh_used v Hsh g Hg) as Hu. rewrite Hcounts. destruct (Z.eqb_spec g (f / PAGE_SIZE)) as [->|]; [lia|].
    destruct (Z.eqb_spec g (e / PAGE_SIZE)) as [->|]; [|done]. specialize (He3 Hg). lia.
  - intros p t Hp Ht Hst. rewrite page_tabs in Ht by done. destruct (page_table p t Hp Ht) as (_ & D1 & D2). rewrite Hcounts.
    destruct (Z.eqb_spec (t / PAGE_SIZE) (f / PAGE_SIZE)), (Z.eqb_spec (t / PAGE_SIZE) (e / PAGE_SIZE)); try done. by apply (sh_counts v Hsh p).
  - intros p t i Hp Hi Ht Huser Hnt Hpr Hst. rewrite page_tabs in Ht by done. destruct (Z.eq_dec (t + 8 * i) slot) as [E|E].
    + rewrite E, Hs, Hfr in Hst. done.
    + rewrite (page_word p t i Hp Hi Ht E) in *. by apply (sh_guard v Hsh p).
Qed.

Lemma page_user_pages : user_pages v'.
Proof.
  destruct page_slot as (_ & _ & Hfr & _). pose proof page_entry_old as Hold.
  assert (~ shared (f / PAGE_SIZE)) as Hns by (intros H; pose proof (sh_used v Hsh _ H); lia).
  assert (forall va' e', user va' -> vpath va' <> vpath va -> page_entry v va' = Some e' ->
    e' / PAGE_SIZE <> f / PAGE_SIZE /\ e' / PAGE_SIZE <> e / PAGE_SIZE) as Hother.
  { intros va' e' Hva' Hne He'. split.
    - intros E. destruct (up_ok v Hup va' e' Hva' He') as (_ & Hu & _). rewrite E in Hu. lia.
    - intros E. apply Hne. by apply (up_inj v Hup va' va e' e). }
  split.
  - intros va' e' Hva'. rewrite page_entries, Hlen', Hcounts. case_decide as Ed.
    + intros [= <-]. rewrite Hfr, Z.eqb_refl. split_and!; [divlia|done|lia|done].
    + intros He'. destruct (Hother va' e' Hva' Ed He') as [D1 D2].
      destruct (Z.eqb_spec (e' / PAGE_SIZE) (f / PAGE_SIZE)), (Z.eqb_spec (e' / PAGE_SIZE) (e / PAGE_SIZE)); try done. by apply (up_ok v Hup va').
  - intros va' e' p t Hva' He' Hp Ht. rewrite page_entries in He'. rewrite page_tabs in Ht by done. case_decide as Ed.
    + injection He' as <-. rewrite Hfr. by apply (page_table p).
    + by apply (up_tab v Hup va' e' p).
  - intros va1 va2 e1 e2 H1 H2. rewrite !page_entries. case_decide as D1; case_decide as D2; intros E1 E2 E.
    + congruence.
    + injection E1 as <-. rewrite Hfr in E. by destruct (Hother va2 e2 H2 D2 E2).
    + injection E2 as <-. rewrite Hfr in E. by destruct (Hother va1 e1 H1 D1 E1).
    + by apply (up_inj v Hup va1 va2 e1 e2).
Qed.

Lemma page_keeps g a : protected v g -> a mod 8 = 0 -> a / PAGE_SIZE = g -> word v' a = word v a.
Proof.
  intros [Hg Hor] Ha <-. destruct (page_table p0 t0 page_p0 Ht0) as ([Hal _ _ _] & _). pose proof page_i0 as Hi.
  rewrite Hwords by done. destruct (Z.eqb_spec a slot) as [->|].
  - assert (slot / PAGE_SIZE = t0 / PAGE_SIZE) as E by (unfold slot; divlia). rewrite E in Hor.
    destruct Hor as [Hs|Hno]; [done|]. by destruct (Hno p0 t0 page_p0 Ht0).
  - destruct (Z.eqb_spec (a / PAGE_SIZE) (f / PAGE_SIZE)) as [E|]; [|done]. rewrite E in Hg. lia.
Qed.

(** The new page has the contents of the old one. *)
Lemma page_copy j : 0 <= j < 512 -> word v' (f + 8 * j) = word v (table_addr e + 8 * j).
Proof.
  intros Hj. destruct (page_table p0 t0 page_p0 Ht0) as ([Hal _ _ _] & Hd & _). pose proof page_i0 as Hi.
  rewrite Hwords by (by apply slot_aligned). destruct (Z.eqb_spec (f + 8 * j) slot) as [E|].
  - destruct Hd. unfold slot in E. divlia.
  - replace ((f + 8 * j) / PAGE_SIZE) with (f / PAGE_SIZE) by divlia. rewrite Z.eqb_refl. f_equal. lia.
Qed.
End page.

Lemma cow_page_ok fuel va t0 v : zlen (table v) < Z.of_nat fuel -> sharing v -> user_pages v -> user va ->
  tab v 4 root (take 3 (vpath va)) = Some t0 -> present (word v (t0 + 8 * idx 1 va)) = true ->
  let e := word v (t0 + 8 * idx 1 va) in
  exists b v', cow_page fuel (t0 + 8 * idx 1 va) e v = Some (b, v') /\
    if b : bool then
      exists f, frames_ok v' /\ zlen (table v') = zlen (table v) /\ words64 v' /\ f mod PAGE_SIZE = 0 /\ 0 < f /\
        f / PAGE_SIZE < zlen (table v) /\ frame_count v (f / PAGE_SIZE) = 0 /\
        (forall g, frame_count v' g = if g =? f / PAGE_SIZE then 1 else
           if g =? e / PAGE_SIZE then frame_count v g - 1 else frame_count v g) /\
        (forall b, b mod 8 = 0 -> word v' b = if b =? t0 + 8 * idx 1 va then own_entry f e else
           if b / PAGE_SIZE =? f / PAGE_SIZE then word v (table_addr e + (b - f)) else word v b)
    else sharing v' /\ mem v' = mem v /\ table v' = table v.
Proof.
  intros Hfu Hsh Hup Hva Ht0 Hpres e. change (present e = true) in Hpres. set (slot := t0 + 8 * idx 1 va) in *. pose proof (idx_range 1 va) as Hi.
  pose proof (sh_space v Hsh) as [Hok Htr]. pose proof (tr_table _ _ Htr _ t0 (vpath_idxs va 3) Ht0) as Hto.
  assert (page_entry v va = Some e) as Hpe by (unfold page_entry; rewrite Ht0; cbv zeta; fold slot e; by rewrite Hpres).
  destruct (up_ok v Hup va e Hva Hpe) as (He1 & He2 & He3). pose proof (sh_words v Hsh slot) as He64. fold e in He64.
  assert (t0 / PAGE_SIZE <> e / PAGE_SIZE) as Hte by (by apply (up_tab v Hup va e _ t0 Hva Hpe (vpath_idxs va 3))).
  unfold cow_page. pose proof (next_frame _ Hok). destruct (alloc_page_ok fuel v Hok ltac:(lia)) as (a & w & Ha & HE & _).
  rewrite (bind_run _ _ _ _ _ Ha). pose proof (sharing_alloc v a w Hsh HE) as Hshw. destruct HE as (Hokw & Hm & Hs & Hl & HE).
  destruct HE as [(-> & Htab & _)|(A1 & A2 & A3 & A4 & A5)]; [by exists false, w|].
  destruct (Z.eqb_spec a 0); [lia|]. assert (table_ok w a) as Haok by (split; [done|done|congruence|rewrite A5, Z.eqb_refl; lia]).
  assert (e / PAGE_SIZE <> a / PAGE_SIZE) as Hea by (intros E; rewrite E in He2; lia).
  assert (table_addr e / PAGE_SIZE = e / PAGE_SIZE) as Ef by (rewrite table_addr_div, Z.div_mul by done; done).
  assert (table_ok w (table_addr e)) as Hew.
  { split; [rewrite table_addr_div by done; by apply Z.mod_mul|rewrite table_addr_div by done; lia|rewrite Ef; lia|].
    rewrite Ef, A5. by destruct (Z.eqb_spec (e / PAGE_SIZE) (a / PAGE_SIZE)). }
  assert (copy_frame a (table_addr e) w = Some (tt, set_mem w (fill (mem w) a (fun i => word w (table_addr e + 8 * i)) 512))) as Hcp.
  { unfold copy_frame. pose proof (frame_access w a Hokw Haok) as F1. pose proof (frame_access w _ Hokw Hew) as F2.
    by rewrite F1, <- andb_assoc, F2. }
  rewrite (bind_run _ _ _ _ _ Hcp). set (w1 := set_mem w _).
  assert (forall b, b mod 8 = 0 -> word w1 b = if b / PAGE_SIZE =? a / PAGE_SIZE then word v (table_addr e + (b - a)) else word v b) as Hw1.
  { intros b Hb. unfold w1. rewrite word_fill by (done || divlia). change (8 * Z.of_nat 512) with PAGE_SIZE. rewrite in_frame by done.
    unfold word. rewrite Hm. destruct (_ =? _); [|done]. do 3 f_equal. divlia. }
  destruct (free_page_ok w1 e) as (w2 & H2 & Hok2 & [C1 C2 C3 _ _] & F2 & _);
    [by apply frames_ok_mem|divlia|change (table w1) with (table w); lia|].
  rewrite (bind_run _ _ _ _ _ H2).
  assert (forall g, frame_count w2 g = if g =? a / PAGE_SIZE then 1 else if g =? e / PAGE_SIZE then frame_count v g - 1 else frame_count v g) as Fc.
  { intros g. rewrite F2. change (frame_count w1 g) with (frame_count w g). rewrite A5.
    destruct (Z.eqb_spec g (e / PAGE_SIZE)) as [->|]; [|done]. destruct (Z.eqb_spec (e / PAGE_SIZE) (a / PAGE_SIZE)); [done|lia]. }
  assert (table_ok w2 t0) as Hto2.
  { destruct Hto as [K1 K2 K3 K4]. split; [done|done|rewrite C3; change (table w1) with (table w); congruence|]. rewrite Fc.
    destruct (Z.eqb_spec (t0 / PAGE_SIZE) (a / PAGE_SIZE)); [lia|]. by destruct (Z.eqb_spec (t0 / PAGE_SIZE) (e / PAGE_SIZE)). }
  unfold slot at 1. rewrite (bind_run _ _ _ _ _ (store_slot w2 t0 _ (own_entry a e) Hok2 Hto2 Hi)). fold slot.
  eexists true, _. split; [reflexivity|]. set (v' := set_mem w2 _). exists a.
  assert (0 <= a < 2 ^ 64) as Ha64 by (destruct Hok as [_ _ _ _ _ Hsz _ _]; divlia).
  assert (forall b, b mod 8 = 0 -> word v' b = if b =? slot then own_entry a e else
    if b / PAGE_SIZE =? a / PAGE_SIZE then word v (table_addr e + (b - a)) else word v b) as Hw.
  { intros b Hb. unfold v'. rewrite word_store by (try done; apply slot_aligned; apply Hto). rewrite (proj1 (own_entry_ok a e Ha64 A2)).
    destruct (b =? slot); [done|]. unfold word at 1. rewrite C1. by apply Hw1. }
  split_and!; try done; [by apply frames_ok_mem|change (table v') with (table w2); rewrite C3; done|].
  intros b. unfold word. cbn [mem set_mem v']. destruct (decide (b / 8 = slot / 8)) as [->|Hd].
  - rewrite lookup_insert_eq. cbn. apply Z.mod_pos_bound. lia.
  - rewrite lookup_insert_ne, C1 by done. change (0 <= word w1 b < 2 ^ 64).
    assert (word w1 b = word w1 (b / 8 * 8)) as -> by (unfold word; by rewrite Z.div_mul).
    rewrite Hw1 by (by apply Z.mod_mul). destruct (_ =? _); apply (sh_words v Hsh).
Qed.

(** *** The levels of a fault *)

Lemma same_page_entry_trans o1 o2 o3 : same_page_entry o1 o2 -> same_page_entry o2 o3 -> same_page_entry o1 o3.
Proof. destruct o1, o2, o3; cbn; try done. congruence. Qed.

(** What holds between the state before the fault and the one at some level. *)
Record faulting (v v' : vm) : Prop := {
  fa_sharing : sharing v';
  fa_user : user_pages v';
  fa_len : zlen (table v') = zlen (table v);
  fa_protects : protects v v';
  fa_walk : forall va, walk v' 4 root va = walk v 4 root va;
  fa_pages : forall va, same_page_entry (page_entry v va) (page_entry v' va);
  fa_upgrade : forall va, upgradable_path v va -> upgradable_path v' va
}.

Lemma faulting_refl v : sharing v -> user_pages v -> faulting v v.
Proof. intros. split; try done. intros va. apply same_page_entry_refl. Qed.

(** [n] levels of the path to [va] are private, and writable if they can be. *)
Record reached (va : Z) (n : nat) (v v' : vm) (t : Z) : Prop := {
  re_tab : tab v' 4 root (take n (vpath va)) = Some t;
  re_private : ~ shared (t / PAGE_SIZE);
  re_rw : upgradable_path v va -> forall k t', (4 - n < k <= 4)%nat -> tab v' 4 root (take (4 - k) (vpath va)) = Some t' ->
    rw (word v' (t' + 8 * idx k va)) = true
}.

Lemma level fuel va n v v1 t : zlen (table v) < Z.of_nat fuel -> user va -> (n < 3)%nat -> faulting v v1 -> reached va n v v1 t ->
  let slot := t + 8 * idx (4 - n) va in
  present (word v1 slot) = true -> leafb (4 - n) (word v1 slot) = false ->
  exists b v2, cow_table fuel slot v1 = Some (b, v2) /\ faulting v v2 /\
    (b = true -> load slot v2 = Some (word v2 slot, v2) /\ reached va (S n) v v2 (table_addr (word v2 slot))).
Proof.
  intros Hfu Hva Hn [F1 F2 F3 F4 F5 F6 F7] [R1 R2 R3] slot Hpres Hleaf. pose proof (idx_range (4 - n) va) as Hi. pose proof (vpath_idxs va n) as Hp.
  assert (length (take n (vpath va)) = n) as Hlen by (rewrite length_take; cbn; lia).
  assert (take (S n) (vpath va) = take n (vpath va) ++ [idx (4 - n) va]) as Hq by (destruct n as [|[|[|n]]]; [done..|lia]).
  destruct (cow_table_ok fuel (take n (vpath va)) t (idx (4 - n) va) v1) as (b & v2 & H2 & Hst & Hpt); rewrite ?Hlen; try done; try lia.
  { rewrite <- Hq. by apply user_path. }
  exists b, v2. fold slot in H2, Hst, Hpt. split; [done|]. pose proof (cs_sharing _ _ _ _ Hst) as Hs2. split.
  { split; [done|by eapply step_user_pages|rewrite (cs_len _ _ _ _ Hst); done| | | |].
    - eapply protects_trans; [done|]. by eapply step_protects.
    - intros va'. by rewrite (cs_walk _ _ _ _ Hst).
    - intros va'. eapply same_page_entry_trans; [done|]. apply (cs_pages _ _ _ _ Hst).
    - intros va' H. by apply (cs_upgrade _ _ _ _ Hst), F7. }
  intros ->. specialize (Hpt eq_refl) as [P1 P2 P3 _ _]. rewrite <- Hq in P1.
  assert (forall m t', (m <= n)%nat -> tab v2 4 root (take m (vpath va)) = Some t' -> tab v1 4 root (take m (vpath va)) = Some t') as Hback.
  { intros m t' Hm Ht'. rewrite (cs_tabs _ _ _ _ Hst) in Ht'; [done|apply vpath_idxs|]. intros E. apply (f_equal length) in E.
    rewrite <- Hq, !length_take in E. change (length (vpath va)) with 4%nat in E. lia. }
  assert (tab v2 4 root (take n (vpath va)) = Some t) as R1'.
  { rewrite (cs_tabs _ _ _ _ Hst); [done|done|]. intros E. apply (f_equal length) in E. rewrite length_app, Hlen in E. cbn in E. lia. }
  split.
  { apply load_slot; [apply (sh_space v2 Hs2)| |done]. eapply tr_table; [apply (sh_space v2 Hs2)|exact Hp|done]. }
  split; [done|done|]. intros Hup k t' Hk Ht'. pose proof (Hback (4 - k)%nat t' ltac:(lia) Ht') as Ht1.
  destruct (Nat.eq_dec k (4 - n)%nat) as [->|Hne].
  - replace (4 - (4 - n))%nat with n in * by lia. rewrite R1 in Ht1. injection Ht1 as <-. apply P3.
    apply (F7 va Hup); [lia|by replace (4 - (4 - n))%nat with n by lia|done].
  - pose proof (sh_space v1 F1) as [_ Htr1]. pose proof (tr_table _ _ Htr1 _ _ (vpath_idxs va (4 - k)) Ht1) as Hto.
    pose proof (idx_range k va) as Hik. rewrite (cs_words _ _ _ _ Hst); [apply R3; [done|lia|done]|by apply slot_aligned; apply Hto| |].
    + intros E. pose proof (entry_path v1 root _ t (idx (4 - n) va) (sh_space v1 F1) Hp R1 Hi _ t' _ (vpath_idxs va (4 - k)) Hik Ht1 E) as Eq.
      apply (f_equal length) in Eq. rewrite !length_app, Hlen, length_take in Eq. change (length (vpath va)) with 4%nat in Eq. cbn [length] in Eq. lia.
    + destruct Hto as [K1 _ _ K4]. by replace ((t' + 8 * idx k va) / PAGE_SIZE) with (t' / PAGE_SIZE) by divlia.
Qed.

(** ** The whole fault *)

(** A write by the process is allowed at every level. *)
Fixpoint writable (v : vm) (k : nat) (t va : Z) : bool :=
  match k with
  | O => false
  | S k' => let e := word v (t + 8 * idx k va) in present e && rw e && (leafb k e || writable v k' (table_addr e) va)
  end.

Lemma writable_path v va e : page_entry v va = Some e ->
  (forall k t, (1 <= k <= 4)%nat -> tab v 4 root (take (4 - k) (vpath va)) = Some t -> rw (word v (t + 8 * idx k va)) = true) ->
  writable v 4 root va = true.
Proof.
  intros Hpe Hrw. unfold page_entry in Hpe. destruct (tab v 4 root (take 3 (vpath va))) as [t1|] eqn:Et1; [|done]. cbv zeta in Hpe.
  cut (forall k t, (k < 4)%nat -> tab v 4 root (take (4 - S k) (vpath va)) = Some t -> writable v (S k) t va = true).
  { intros Hcut. by apply (Hcut 3%nat root); [lia|]. }
  induction k as [|k IH]; intros t Hk Ht; cbn [writable].
  - change (4 - 1)%nat with 3%nat in Ht. rewrite Et1 in Ht. injection Ht as <-. rewrite (Hrw 1%nat t1 ltac:(lia) Et1).
    by destruct (present (word v (t1 + 8 * idx 1 va))).
  - destruct (tab v 4 root (take (4 - S k) (vpath va))) as [t'|] eqn:Et'.
    2: { replace (take 3 (vpath va)) with (take (4 - S k) (vpath va) ++ drop (4 - S k) (take 3 (vpath va))) in Et1.
      - by rewrite (tab_prefix_None _ _ _ _ _ Et') in Et1.
      - rewrite <- (take_drop (4 - S k) (take 3 (vpath va))) at 2. rewrite take_take. f_equal. f_equal. lia. }
    pose proof Et' as Hs. rewrite vpath_snoc, tab_snoc, Ht in Hs by lia. cbv zeta in Hs. pose proof (unmap_len va (S k)) as El. rewrite El in Hs.
    replace (4 - (4 - S (S k)))%nat with (S (S k)) in Hs by lia. rewrite (Hrw (S (S k)) t ltac:(lia) Ht).
    set (x := word v (t + 8 * idx (S (S k)) va)) in *.
    destruct (_ <? _)%nat; [|done]. cbn [andb] in Hs. destruct (present x); [|done]. cbn [andb] in *.
    destruct (leafb (S (S k)) x); [done|]. cbn [orb negb] in *. injection Hs as ->. apply IH; [lia|done].
Qed.

Lemma page_entry_walk v va e : page_entry v va = Some e -> walk v 4 root va = Z.lor (table_addr e) (Z.land va (PAGE_SIZE - 1)).
Proof.
  unfold page_entry. destruct (tab v 4 root (take 3 (vpath va))) as [t|] eqn:Et; [|done]. cbv zeta.
  destruct (present (word v (t + 8 * idx 1 va))) eqn:Ep; [|done]. intros [= <-].
  rewrite (walk_at v root va 1 t ltac:(lia) Et). cbn [walk]. rewrite Ep. cbn [negb leafb Nat.eqb orb]. done.
Qed.

Lemma page_offset a va : a mod PAGE_SIZE = 0 -> Z.lor a (Z.land va (PAGE_SIZE - 1)) = a + va mod PAGE_SIZE.
Proof.
  intros Ha. change (PAGE_SIZE - 1) with (Z.ones 12). rewrite Z.land_ones by lia. change (2 ^ 12) with PAGE_SIZE.
  apply page_lor; [done|]. apply Z.mod_pos_bound. lia.
Qed.

Lemma table_addr_aligned e : 0 <= e < 2 ^ 64 -> table_addr e mod PAGE_SIZE = 0.
Proof. intros He. rewrite table_addr_div by done. by apply Z.mod_mul. Qed.

(** The word at a virtual address. *)
Definition virtual_word (v : vm) (va : Z) : Z := word v (walk v 4 root va).

Definition fault_effect (va : Z) (v : vm) (b : bool) (v' : vm) : Prop :=
  sharing v' /\ user_pages v' /\
  (forall a, a mod 8 = 0 -> protected v (a / PAGE_SIZE) -> word v' a = word v a) /\
  (forall va', b = false \/ vpath va' <> vpath va -> walk v' 4 root va' = walk v 4 root va') /\
  (b = true -> ~ shared (walk v' 4 root va / PAGE_SIZE) /\
    (forall va', vpath va' = vpath va -> va' mod 8 = 0 -> virtual_word v' va' = virtual_word v va') /\
    (upgradable_path v va -> writable v' 4 root va = true)).

Lemma faulting_false va v v' : faulting v v' -> fault_effect va v false v'.
Proof.
  intros [F1 F2 F3 F4 F5 F6 F7]. split_and!; [done|done| |by intros|done]. intros a Ha Hp. by apply (F4 _ Hp).
Qed.

Lemma page_fault_effect va v v1 t f v' : user va -> sharing v -> user_pages v -> faulting v v1 -> reached va 3 v v1 t ->
  let e := word v1 (t + 8 * idx 1 va) in present e = true ->
  frames_ok v' -> zlen (table v') = zlen (table v1) -> words64 v' -> f mod PAGE_SIZE = 0 -> 0 < f ->
  f / PAGE_SIZE < zlen (table v1) -> frame_count v1 (f / PAGE_SIZE) = 0 ->
  (forall g, frame_count v' g = if g =? f / PAGE_SIZE then 1 else
     if g =? e / PAGE_SIZE then frame_count v1 g - 1 else frame_count v1 g) ->
  (forall b, b mod 8 = 0 -> word v' b = if b =? t + 8 * idx 1 va then own_entry f e else
     if b / PAGE_SIZE =? f / PAGE_SIZE then word v1 (table_addr e + (b - f)) else word v1 b) ->
  fault_effect va v true v'.
Proof.
  intros Hva Hsh Hup [F1 F2 F3 F4 F5 F6 F7] [R1 R2 R3] e Hpres Hok' Hlen' H64' Hf1 Hf2 Hf3 Hfree Hcounts Hwords.
  pose proof (page_sharing va t v1 F1 F2 Hva R1 Hpres f v' Hok' Hlen' H64' Hf1 Hf2 Hf3 Hfree Hcounts Hwords) as HS.
  pose proof (page_user_pages va t v1 F1 F2 Hva R1 Hpres f v' Hok' Hlen' H64' Hf1 Hf2 Hf3 Hfree Hcounts Hwords) as HU.
  pose proof (page_entries va t v1 F1 F2 Hva R1 Hpres f v' Hok' Hlen' H64' Hf1 Hf2 Hf3 Hfree Hwords) as HP.
  pose proof (page_slot va t v1 F1 F2 Hva R1 Hpres f v' Hok' Hlen' H64' Hf1 Hf2 Hf3 Hfree Hwords) as (S1 & S2 & S3 & S4 & S5).
  assert (page_entry v1 va = Some e) as Hpe by (by apply page_entry_old).
  fold e in S1, S2, S3, S4, S5, HP.
  assert (forall va', vpath va' = vpath va -> walk v' 4 root va' = f + va' mod PAGE_SIZE) as Hwalk.
  { intros va' Ev. rewrite (page_entry_walk v' va' (own_entry f e)) by (rewrite HP; by case_decide). rewrite S5. by apply page_offset. }
  split_and!; [done|done| | |].
  - intros a Ha Hp. destruct (F4 _ Hp) as [Hp1 Hw]. rewrite <- Hw by done.
    by apply (page_keeps va t v1 F1 F2 Hva R1 R2 Hpres f v' Hfree Hwords (a / PAGE_SIZE)).
  - intros va' [?|Hne]; [done|]. rewrite <- F5.
    by apply (page_walk va t v1 F1 F2 Hva R1 Hpres f v' Hfree Hwords).
  - intros _. split_and!.
    + rewrite Hwalk by done. intros Hs. pose proof (sh_used v1 F1 _ Hs) as Hu. 
      replace ((f + va mod PAGE_SIZE) / PAGE_SIZE) with (f / PAGE_SIZE) in Hu by divlia. lia.
    + intros va' Ev Hal. unfold virtual_word. rewrite Hwalk by done.
      replace (f + va' mod PAGE_SIZE) with (f + 8 * (va' mod PAGE_SIZE / 8)) by divlia.
      rewrite (page_copy va t v1 F1 F2 Hva R1 Hpres f v' Hf1 Hfree Hwords) by divlia. fold e.
      assert (page_entry v1 va' = Some e) as Hpe'.
      { rewrite <- Hpe. unfold page_entry. rewrite Ev. assert (idx 1 va' = idx 1 va) as -> by (unfold vpath in Ev; by injection Ev). done. }
      pose proof (sh_words v1 F1 (t + 8 * idx 1 va)) as He64. fold e in He64.
      rewrite <- (F5 va'), (page_entry_walk v1 va' e Hpe'), page_offset by (by apply table_addr_aligned).
      pose proof (F6 va') as HF. rewrite Hpe' in HF. destruct (page_entry v va') as [e0|] eqn:Ee0; [|done]. cbn in HF.
      replace (table_addr e + va' mod PAGE_SIZE) with (table_addr e + 8 * (va' mod PAGE_SIZE / 8)) by divlia.
      set (a := table_addr e + 8 * (va' mod PAGE_SIZE / 8)).
      assert (a / PAGE_SIZE = e / PAGE_SIZE /\ a mod 8 = 0) as [Ea1 Ea2].
      { pose proof (table_addr_aligned e He64). pose proof (table_addr_div e He64). unfold a. divlia. }
      assert (page_entry v va = Some e0) as Ee1.
      { rewrite <- Ee0. unfold page_entry. rewrite Ev. assert (idx 1 va' = idx 1 va) as -> by (unfold vpath in Ev; by injection Ev). done. }
      assert (protected v (a / PAGE_SIZE)) as Hpr.
      { rewrite Ea1, HF. split; [by apply (up_ok v Hup va e0 Hva)|]. right. intros p t' Hp Ht'. by apply (up_tab v Hup va e0 p). }
      by apply (F4 _ Hpr).
    + intros Hupg. apply (writable_path v' va (own_entry f e)); [rewrite HP; by case_decide|].
      intros k t' Hk Ht'. pose proof (idx_range k va) as Hi. pose proof (vpath_idxs va (4 - k)) as Hp.
      rewrite (page_tabs va t v1 F1 F2 Hva R1 Hpres f v' Hfree Hwords) in Ht' by done.
      destruct (Nat.eq_dec k 1%nat) as [->|Hne].
      { change (4 - 1)%nat with 3%nat in Ht'. rewrite R1 in Ht'. injection Ht' as <-. by rewrite S1. }
      rewrite (page_word va t v1 F1 F2 Hva R1 Hpres f v' Hfree Hwords _ t' _ Hp Hi Ht').
      * apply R3; [done|lia|done].
      * intros E. pose proof (entry_path v1 root _ t (idx 1 va) (sh_space v1 F1) (vpath_idxs va 3) R1 (idx_range 1 va) _ t' _ Hp Hi Ht' E) as Eq.
        apply (f_equal length) in Eq. rewrite !length_app, !length_take in Eq. change (length (vpath va)) with 4%nat in Eq. cbn [length] in Eq. lia.
Qed.

Ltac unresolved := eexists false, _; split; [reflexivity|by apply faulting_false].

Lemma cow_fault_ok fuel va v : zlen (table v) < Z.of_nat fuel -> user va -> sharing v -> user_pages v ->
  exists b v', cow_fault fuel root va v = Some (b, v') /\ fault_effect va v b v'.
Proof.
  intros Hfu Hva Hsh Hup. unfold cow_fault. rewrite user_sign by done. cbn [negb].
  change (PML4T_INDEX va) with (idx 4 va). change (PDPT_INDEX va) with (idx 3 va).
  change (PDT_INDEX va) with (idx 2 va). change (PT_INDEX va) with (idx 1 va).
  pose proof (faulting_refl v Hsh Hup) as F0.
  assert (reached va 0 v v root) as R0 by (split; [done|apply (sh_root v Hsh)|intros; lia]).
  assert (forall n w t, faulting v w -> reached va n v w t -> load (t + 8 * idx (4 - n) va) w = Some (word w (t + 8 * idx (4 - n) va), w)) as Hload.
  { intros n w t Fw Rw. pose proof (sh_space w (fa_sharing _ _ Fw)) as [Hokw Htrw].
    apply load_slot; [done| |apply idx_range]. eapply tr_table; [done|apply vpath_idxs|apply (re_tab _ _ _ _ _ Rw)]. }
  rewrite (bind_run _ _ _ _ _ (Hload 0%nat v root F0 R0)). change (4 - 0)%nat with 4%nat.
  set (s4 := root + 8 * idx 4 va). destruct (present (word v s4)) eqn:E4; cbn [negb]; [|unresolved].
  destruct (level fuel va 0 v v root Hfu Hva ltac:(lia) F0 R0 E4 eq_refl) as (b & v1 & H1 & F1 & Q1). change (4 - 0)%nat with 4%nat in *. fold s4 in H1, Q1.
  rewrite (bind_run _ _ _ _ _ H1). destruct b; cbn [negb]; [|unresolved].
  destruct (Q1 eq_refl) as [L1 R1]. rewrite (bind_run _ _ _ _ _ L1). set (t3 := table_addr (word v1 s4)) in *.
  rewrite (bind_run _ _ _ _ _ (Hload 1%nat v1 t3 F1 R1)). change (4 - 1)%nat with 3%nat. set (s3 := t3 + 8 * idx 3 va).
  destruct (large (word v1 s3)) eqn:L3; [unresolved|]. cbn [orb].
  destruct (present (word v1 s3)) eqn:E3; cbn [negb]; [|unresolved].
  destruct (level fuel va 1 v v1 t3 Hfu Hva ltac:(lia) F1 R1 E3 L3) as (b & v2 & H2 & F2 & Q2). change (4 - 1)%nat with 3%nat in *. fold s3 in H2, Q2.
  rewrite (bind_run _ _ _ _ _ H2). destruct b; cbn [negb]; [|unresolved].
  destruct (Q2 eq_refl) as [L2 R2]. rewrite (bind_run _ _ _ _ _ L2). set (t2 := table_addr (word v2 s3)) in *.
  rewrite (bind_run _ _ _ _ _ (Hload 2%nat v2 t2 F2 R2)). change (4 - 2)%nat with 2%nat. set (s2 := t2 + 8 * idx 2 va).
  destruct (large (word v2 s2)) eqn:L2'; [unresolved|]. cbn [orb].
  destruct (present (word v2 s2)) eqn:E2; cbn [negb]; [|unresolved].
  destruct (level fuel va 2 v v2 t2 Hfu Hva ltac:(lia) F2 R2 E2 L2') as (b & v3 & H3 & F3 & Q3). change (4 - 2)%nat with 2%nat in *. fold s2 in H3, Q3.
  rewrite (bind_run _ _ _ _ _ H3). destruct b; cbn [negb]; [|unresolved].
  destruct (Q3 eq_refl) as [L4 R3]. rewrite (bind_run _ _ _ _ _ L4). set (t1 := table_addr (word v3 s2)) in *.
  rewrite (bind_run _ _ _ _ _ (Hload 3%nat v3 t1 F3 R3)). change (4 - 3)%nat with 1%nat.
  destruct (present (word v3 (t1 + 8 * idx 1 va))) eqn:E1; cbn [negb]; [|unresolved].
  destruct (cow (word v3 (t1 + 8 * idx 1 va))); cbn [negb]; [|unresolved].
  destruct (cow_page_ok fuel va t1 v3) as (b & v' & H4 & HE); [rewrite (fa_len _ _ F3); lia|apply F3|apply F3|done|apply R3|done|].
  exists b, v'. split; [exact H4|]. destruct b.
  - destruct HE as (f & G1 & G2 & G3 & G4 & G5 & G6 & G7 & G8 & G9). by eapply (page_fault_effect va v v3 t1 f v').
  - destruct HE as (G1 & G2 & G3). apply faulting_false.
    pose proof (same_mem_step [] 0 v3 v' G1 G2 ltac:(by rewrite G3) G3) as Hst. destruct F3 as [X1 X2 X3 X4 X5 X6 X7].
    assert (forall b, word v' b = word v3 b) as Hw by (intros b; unfold word; by rewrite G2).
    assert (forall g, frame_count v' g = frame_count v3 g) as Hc by (intros g; unfold frame_count; by rewrite G3).
    assert (forall va', page_entry v' va' = page_entry v3 va') as Hpe.
    { intros va'. unfold page_entry. rewrite (tab_mem v3 v') by done. destruct (tab v3 4 root _); [|done]. cbv zeta. by rewrite Hw. }
    split; [done| |congruence| | | |].
    + destruct X2 as [U1 U2 U3]. split.
      * intros va' e. rewrite Hpe, Hc, G3. apply U1.
      * intros va' e p t. rewrite Hpe, (tab_mem v3 v') by done. apply U2.
      * intros va1 va2 e e'. rewrite !Hpe. apply U3.
    + intros g Hg. destruct (X4 g Hg) as [[Y1 Y2] Y3]. split; [|intros a Ha Ea; rewrite Hw; by apply Y3].
      split; [by rewrite Hc|]. destruct Y2 as [Y2|Y2]; [by left|right]. intros p t Hp. rewrite (tab_mem v3 v') by done. by apply Y2.
    + intros va'. by rewrite (cs_walk _ _ _ _ Hst).
    + intros va'. rewrite Hpe. apply X6.
    + intros va' Hu. apply (cs_upgrade _ _ _ _ Hst). by apply X7.
Qed.
End sharing.

(** ** Isolation *)

(** C4: A write fault of a process never shows through to others. Let [shared]
    be any set of frames that are also used by somebody else, to which the tables
    at [root] lead only through copy-on-write entries. The handler always
    returns. Afterwards no word of such a frame, or of any frame that is not a
    table of the process, has changed, and the same conditions hold again. When
    the fault is resolved the page lies in a frame that nobody else uses, has the
    contents it had, can be written if its entries allowed it to be, and all other
    pages are where they were; otherwise SIGSEGV is sent and no translation has
    changed. *)
Theorem copy_on_write_isolates shared root fuel v va err lock :
  sharing shared root v -> user_pages shared root v -> user va -> zlen (table v) < Z.of_nat fuel ->
  truthy (Z.land err PAGE_ERR_USER) = true ->
  exists o l v', int_page_fault fuel root err va lock v = Some ((o, l), v') /\
    sharing shared root v' /\ user_pages shared root v' /\
    (forall a, a mod 8 = 0 -> protected shared root v (a / PAGE_SIZE) -> word v' a = word v a) /\
    match o with
    | FaultSignal => forall va', user va' -> xlate v' root va' = xlate v root va'
    | FaultResolved =>
        (forall va', user va' -> va' / PAGE_SIZE <> va / PAGE_SIZE -> xlate v' root va' = xlate v root va') /\
        (forall va', user va' -> va' / PAGE_SIZE = va / PAGE_SIZE -> va' mod 8 = 0 ->
           word v' (xlate v' root va') = word v (xlate v root va')) /\
        ~ shared (xlate v' root va / PAGE_SIZE) /\ (upgradable_path root v va -> writable v' 4 root va = true)
    end.
Proof.
  intros Hsh Hup Hva Hfu Herr. destruct (cow_fault_ok shared root fuel va v Hfu Hva Hsh Hup) as (b & v' & H & E1 & E2 & E3 & E4 & E5).
  assert (forall w va', user va' -> xlate w root va' = walk w 4 root va') as Hx by (intros w va' H'; unfold xlate; by rewrite user_sign).
  assert (forall va', user va' -> vpath va' = vpath va <-> va' / PAGE_SIZE = va / PAGE_SIZE) as Hpath.
  { intros va' Hva'. apply same_page_path; try (by apply user_sign); unfold user in *; lia. }
  unfold int_page_fault. rewrite Herr. rewrite (bind_run _ _ _ _ _ H). destruct b; (eexists _, _, v'; split; [reflexivity|]); split_and!; try done.
  - intros va' Hva' Hne. rewrite !Hx by done. apply E4. right. by rewrite Hpath.
  - intros va' Hva' Heq Hal. rewrite !Hx by done. apply E5; [done| |done]. by apply Hpath.
  - rewrite Hx by done. by apply E5.
  - by apply E5.
  - intros va' Hva'. rewrite !Hx by done. apply E4. by left.
Qed.

(** A process with one page: frame 1 is its PML4T with the entry [e0], frames 2 to
    4 are tables and frame 5 is the page. *)
Definition demo_vm (e0 size : Z) (counts : list Z) (next len : Z) : vm :=
  mk_vm (<[0x1000 / 8 := e0]> (<[0x2000 / 8 := 0x3007]> (<[0x3000 / 8 := 0x4007]> (<[0x4000 / 8 := 0x5007]> (<[0x5008 / 8 := 42]> ∅)))))
    size counts next true [mk_region 0 len] 0.

Section demo.
Context (e0 size : Z) (counts : list Z) (next len : Z).
Hypothesis He0 : e0 = 0x2205 \/ e0 = 0x2007.
Let d : vm := demo_vm e0 size counts next len.

Lemma demo_word a : word d a =
  if a / 8 =? 0x200 then e0 else if a / 8 =? 0x400 then 0x3007 else if a / 8 =? 0x600 then 0x4007 else
  if a / 8 =? 0x800 then 0x5007 else if a / 8 =? 0xa01 then 42 else 0.
Proof.
  unfold word, d. cbn [mem demo_vm]. change (0x1000 / 8) with 0x200. change (0x2000 / 8) with 0x400. change (0x3000 / 8) with 0x600.
  change (0x4000 / 8) with 0x800. change (0x5008 / 8) with 0xa01.
  repeat match goal with |- context [(a / 8 =? ?n)] => destruct (Z.eqb_spec (a / 8) n) as [->|]; [by rewrite ?lookup_insert_ne, lookup_insert_eq by done|
    rewrite lookup_insert_ne by (intros E; congruence)] end.
  by rewrite lookup_empty.
Qed.

Lemma demo_words64 : words64 d.
Proof. intros a. rewrite demo_word. zcases; lia. Qed.

Lemma demo_tab p t : idxs p -> tab d 4 0x1000 p = Some t ->
  p = [] /\ t = 0x1000 \/ p = [0] /\ t = 0x2000 \/ p = [0; 0] /\ t = 0x3000 \/ p = [0; 0; 0] /\ t = 0x4000.
Proof.
  assert (forall n i, 0 <= i < 512 -> 0x200 <= n <= 0x800 -> n mod 0x200 = 0 -> i <> 0 -> word d (8 * n + 8 * i) = 0) as Hz.
  { intros n i Hi Hn Hm Hne. rewrite demo_word. replace ((8 * n + 8 * i) / 8) with (n + i) by divlia. zcases; try done; divlia. }
  intros Hp. destruct p as [|i p]; cbn [tab]; [intros [= <-]; by left|]. apply Forall_cons in Hp as [Hi Hp].
  destruct (Z.eq_dec i 0) as [->|Hne]; [|change (0x1000 + 8 * i) with (8 * 0x200 + 8 * i); by rewrite Hz].
  assert (word d (0x1000 + 8 * 0) = e0) as -> by (by rewrite demo_word).
  assert (present e0 && negb (leafb 4 e0) = true /\ table_addr e0 = 0x2000) as [-> ->] by (destruct He0 as [-> | ->]; done).
  destruct p as [|j p]; cbn [tab]; [intros [= <-]; right; by left|]. apply Forall_cons in Hp as [Hj Hp].
  destruct (Z.eq_dec j 0) as [->|Hne]; [|change (0x2000 + 8 * j) with (8 * 0x400 + 8 * j); by rewrite Hz].
  assert (word d (0x2000 + 8 * 0) = 0x3007) as -> by (by rewrite demo_word).
  change (if _ && _ then _ else _) with (tab d 2 0x3000 p).
  destruct p as [|k p]; cbn [tab]; [intros [= <-]; right; right; by left|]. apply Forall_cons in Hp as [Hk Hp].
  destruct (Z.eq_dec k 0) as [->|Hne]; [|change (0x3000 + 8 * k) with (8 * 0x600 + 8 * k); by rewrite Hz].
  assert (word d (0x3000 + 8 * 0) = 0x4007) as -> by (by rewrite demo_word).
  change (if _ && _ then _ else _) with (tab d 1 0x4000 p).
  destruct p as [|l p]; cbn [tab]; [intros [= <-]; right; right; by right|]. cbn [leafb Nat.eqb orb negb]. by rewrite andb_false_r.
Qed.

Lemma demo_page va e : user va -> page_entry 0x1000 d va = Some e -> va / PAGE_SIZE = 0 /\ e = 0x5007.
Proof.
  intros Hva. unfold page_entry. destruct (tab d 4 0x1000 (take 3 (vpath va))) as [t|] eqn:Et; [|done].
  apply demo_tab in Et; [|apply vpath_idxs]. destruct Et as [[E _] | [[E _] | [[E _] | [E ->]]]]; [done..|]. cbv zeta.
  pose proof (idx_range 1 va) as Hi. rewrite demo_word. replace ((0x4000 + 8 * idx 1 va) / 8) with (0x800 + idx 1 va) by divlia.
  destruct (Z.eqb_spec (idx 1 va) 0) as [E0|E0].
  - rewrite E0. cbn. intros [= <-]. split; [|done]. unfold user in Hva. cbn in E. injection E as E4 E3 E2.
    rewrite idx_div in *. unfold shift in *. cbn in E0, E2, E3, E4. divlia.
  - zcases; try lia; done.
Qed.

Hypothesis Hframes : frames_ok d.
Hypothesis Hcounts : forall f, 1 <= f <= 5 -> 0 < frame_count d f /\ f < zlen counts.

Lemma demo_table t : t = 0x1000 \/ t = 0x2000 \/ t = 0x3000 \/ t = 0x4000 -> table_ok d t.
Proof. intros [-> | [-> | [-> | ->]]]; (split; [done|done| |]); by apply Hcounts. Qed.

Lemma demo_space_of : space d 0x1000.
Proof.
  split; [done|]. split.
  - intros p t Hp Ht. apply demo_table. apply demo_tab in Ht as [[-> ->] | [[-> ->] | [[-> ->] | [-> ->]]]]; tauto.
  - intros p q t Hp Hq H1 H2. apply demo_tab in H1; [|done]. apply demo_tab in H2; [|done].
    destruct H1 as [[-> ->] | [[-> ->] | [[-> ->] | [-> ->]]]], H2 as [[-> E] | [[-> E] | [[-> E] | [-> E]]]]; done.
Qed.

Lemma demo_user_pages (shared : Z -> Prop) : (shared 5 -> 2 <= frame_count d 5) -> user_pages shared 0x1000 d.
Proof.
  intros H5. split.
  - intros va e Hva He. apply demo_page in He as [_ ->]; [|done]. change (0x5007 / PAGE_SIZE) with 5.
    destruct (Hcounts 5 ltac:(lia)). change (table d) with counts. split_and!; [lia|lia|done|done].
  - intros va e p t Hva He Hp Ht. apply demo_page in He as [_ ->]; [|done]. apply demo_tab in Ht; [|done].
    by destruct Ht as [[_ ->] | [[_ ->] | [[_ ->] | [_ ->]]]].
  - intros va va' e e' Hva Hva' He He' _. apply demo_page in He as [E _]; [|done]. apply demo_page in He' as [E' _]; [|done].
    apply same_page_path; [unfold user in *; lia|unfold user in *; lia|by apply user_sign|by apply user_sign|congruence].
Qed.
End demo.

Ltac frames_demo d :=
  split; [vm_compute; intuition discriminate..| |vm_compute; intuition discriminate| |vm_compute; reflexivity];
  [let i := fresh in let r := fresh in let Hr := fresh in let Hi := fresh in
   intros i r Hr; pose proof (zlookup_Some_lt _ _ _ Hr) as Hi; change (zlen (regions d)) with 1 in Hi; replace i with 0 in Hr by lia; injection Hr as <-;
   vm_compute; intuition discriminate
  |let f := fresh in let c := fresh in let Hc := fresh in intros f c Hc; unfold zlookup in Hc; destruct (f <? 0); [done|];
   refine (Forall_lookup_1 (fun c => 0 <= c < 2 ^ 32) _ _ _ _ Hc); repeat constructor; lia].

(** The tables and the page have two owners. *)
Definition demo_cow : vm := demo_vm 0x2205 0xc000 [1; 1; 2; 2; 2; 2; 0; 0; 0; 0; 0; 0] 0x6000 0xb000.
Definition demo_shared (f : Z) : Prop := 2 <= f <= 5.

Lemma demo_cow_frames : frames_ok demo_cow.
Proof. frames_demo demo_cow. Qed.

Lemma demo_cow_counts f : 1 <= f <= 5 -> 0 < frame_count demo_cow f /\ f < 12.
Proof. intros Hf. assert (f = 1 \/ f = 2 \/ f = 3 \/ f = 4 \/ f = 5) as [-> | [-> | [-> | [-> | ->]]]] by lia; done. Qed.

Lemma demo_cow_sharing : sharing demo_shared 0x1000 demo_cow.
Proof.
  assert (forall f, demo_shared f -> 2 <= frame_count demo_cow f) as Hc.
  { intros f Hf. unfold demo_shared in Hf. assert (f = 2 \/ f = 3 \/ f = 4 \/ f = 5) as [-> | [-> | [-> | ->]]] by lia; done. }
  split.
  - apply demo_space_of; [by left|apply demo_cow_frames|apply demo_cow_counts].
  - apply demo_words64. by left.
  - intros [H _]. vm_compute in H. done.
  - intros f Hf. specialize (Hc f Hf). lia.
  - intros p t Hp Ht Hs. by apply Hc.
  - intros p t i Hp Hi Ht _ Hns Hpr Hs. apply demo_tab in Ht; [|by left|done].
    destruct Ht as [[-> ->] | [[-> ->] | [[-> ->] | [-> ->]]]].
    2-4: destruct Hns; vm_compute; intuition discriminate.
    unfold demo_cow in *. rewrite demo_word in *. replace ((0x1000 + 8 * i) / 8) with (0x200 + i) in * by divlia.
    destruct (Z.eqb_spec (0x200 + i) 0x200); [done|]. revert Hpr. zcases; try lia. done.
Qed.

Lemma demo_cow_pages : user_pages demo_shared 0x1000 demo_cow.
Proof. apply demo_user_pages; [by left|apply demo_cow_counts|done]. Qed.

Lemma copy_on_write_isolates_witness :
  exists v', int_page_fault 13 0x1000 7 8 0 demo_cow = Some ((FaultResolved, 0), v') /\
    word v' (xlate v' 0x1000 8) = 42 /\ word v' 0x5008 = 42 /\ 2 <= frame_count demo_cow 5 /\ 1 <= frame_count v' 5 /\
    writable v' 4 0x1000 8 = true.
Proof.
  destruct (copy_on_write_isolates demo_shared 0x1000 13 demo_cow 8 7 0 demo_cow_sharing demo_cow_pages)
    as (o & l & v' & H & H1 & H2 & H3 & H4).
  - unfold user. lia.
  - vm_compute. reflexivity.
  - reflexivity.
  - assert ((o, l) = (FaultResolved, 0)) as E by (apply (f_equal (option_map fst)) in H; vm_compute in H; congruence).
    injection E as -> ->. destruct H4 as (H4 & H5 & H6 & H7). exists v'. split; [exact H|].
    split; [rewrite (H5 8) by (unfold user; lia || reflexivity); vm_compute; reflexivity|].
    split. { rewrite H3; [vm_compute; reflexivity|reflexivity|]. split; [vm_compute; reflexivity|]. left. vm_compute. intuition discriminate. }
    split; [vm_compute; discriminate|]. split.
    + pose proof (sh_used _ _ _ H1 5) as Hu. unfold demo_shared in Hu. lia.
    + apply H7. intros k t Hk Ht _. apply demo_tab in Ht; [|left; reflexivity|apply vpath_idxs].
      destruct k as [|[|[|[|[|k]]]]]; try lia; destruct Ht as [[E ->] | [[E ->] | [[E ->] | [E ->]]]]; try discriminate E; vm_compute; reflexivity.
Defined.

End Cow.
