(* ===== verification/AddrSpace.v ===== *)
(** * Sharing of address spaces and the program break (arch/x86_64/mm.c, thread.c)

    Module [AddrSpace]: the lists of frames that the loops over an address space
    count up ([ref_pt] to [ref_pdpt]) and down ([free_pt] to [free_pdpt]), and the
    program break of a process ([sys_brk], [sys_sbrk]). *)

From S2P Require Import Prelude CBits PhysMem Paging.

Module AddrSpace.
Import CBits PhysMem Paging.

(** ** The frames of an address space

    The loops that count the frames of an address space up and down visit lists of
    entries that depend on memory alone. *)

Definition run_list (op : Z -> M vm unit) (l : list Z) : M vm unit := foldr (fun a m => op a;; m) (mret tt) l.

Lemma run_list_app op l1 l2 v : run_list op (l1 ++ l2) v = (run_list op l1;; run_list op l2) v.
Proof.
  revert v. induction l1 as [|a l1 IH]; intros v; [done|]. cbn [app run_list foldr]. unfold mbind, M_bind.
  destruct (op a v) as [[[] w]|]; [|done]. apply IH.
Qed.

(** The entries that the loops visit in a table of level [k], from index [i] on. *)
Definition visited (k : nat) (e : Z) : bool := present e && ((k =? 1)%nat || negb (large e)).

Fixpoint refs (v : vm) (k : nat) (t : Z) {struct k} : list Z :=
  match k with
  | O => []
  | S k' => flat_map (fun i => let e := word v (t + 8 * i) in
      if visited k e then e :: refs v k' (table_addr e) else []) (seqZ 0 512)
  end.
Fixpoint frees (v : vm) (k : nat) (t : Z) {struct k} : list Z :=
  match k with
  | O => []
  | S k' => flat_map (fun i => let e := word v (t + 8 * i) in
      if visited k e then frees v k' (table_addr e) ++ [if (k =? 1)%nat then e else table_addr e] else []) (seqZ 0 512)
  end.
Lemma refs_S v k t : refs v (S k) t = flat_map (fun i => let e := word v (t + 8 * i) in
  if visited (S k) e then e :: refs v k (table_addr e) else []) (seqZ 0 512).
Proof. reflexivity. Qed.
Lemma frees_S v k t : frees v (S k) t = flat_map (fun i => let e := word v (t + 8 * i) in
  if visited (S k) e then frees v k (table_addr e) ++ [if (S k =? 1)%nat then e else table_addr e] else []) (seqZ 0 512).
Proof. reflexivity. Qed.
#[local] Opaque seqZ.
Definition user_refs (v : vm) (root : Z) : list Z :=
  flat_map (fun i => let e := word v (root + 8 * i) in if present e then e :: refs v 3 (table_addr e) else []) (seqZ 0 256).

(** Computations that leave memory alone. *)
Definition keeps {A} (m : M vm A) : Prop := forall v a v', m v = Some (a, v') -> mem v' = mem v /\ mem_size v' = mem_size v.
Definition keeps_mem (op : Z -> M vm unit) : Prop := forall a, keeps (op a).

Section keeps.
Context {A B : Type}.

Lemma keeps_bind (m : M vm A) (f : A -> M vm B) : keeps m -> (forall a, keeps (f a)) -> keeps (x ← m; f x).
Proof.
  intros Hm Hf v b v'. unfold mbind, M_bind. destruct (m v) as [[a w]|] eqn:E; [|done]. intros H.
  apply Hm in E as [E1 E2]. apply Hf in H as [H1 H2]. split; congruence.
Qed.
Lemma keeps_ret (a : A) : keeps (mret a).
Proof. by intros v b v' [= _ <-]. Qed.
Lemma keeps_gets (g : vm -> A) : keeps (gets g).
Proof. by intros v b v' [= _ <-]. Qed.
Lemma keeps_lift (o : option A) : keeps (lift o).
Proof. intros v b v'. unfold lift. destruct o; [by intros [= _ <-]|done]. Qed.
Lemma keeps_modify (g : vm -> vm) : (forall v, mem (g v) = mem v /\ mem_size (g v) = mem_size v) -> keeps (modify g).
Proof. intros Hg v b v' [= _ <-]. apply Hg. Qed.
Lemma keeps_if (b : bool) (m m' : M vm A) : keeps m -> keeps m' -> keeps (if b then m else m').
Proof. by destruct b. Qed.
Lemma keeps_fault : keeps (fault (A := A)).
Proof. by intros v b v'. Qed.
End keeps.

Create HintDb keeps.
#[export] Hint Resolve keeps_bind keeps_ret keeps_gets keeps_lift keeps_if keeps_fault : keeps.
#[export] Hint Extern 1 (keeps (modify _)) => (apply keeps_modify; intros; split; reflexivity) : keeps.

Lemma ref_page_keeps : keeps_mem ref_page.
Proof. intros a. unfold ref_page, page_count, set_page_count. auto 12 with keeps. Qed.

Lemma curr_back_keeps n : keeps (curr_back n).
Proof. induction n as [|n IH]; cbn [curr_back]; auto 12 with keeps. Qed.
#[export] Hint Resolve curr_back_keeps : keeps.

Lemma free_page_keeps : keeps_mem free_page.
Proof. intros a. unfold free_page, page_count, set_page_count. cbv zeta. auto 15 with keeps. Qed.

(** A loop over a table is a list of operations. *)
Lemma each_entry_list op body g n t v : keeps_mem op -> forall i,
  (forall j, i <= j < i + Z.of_nat n -> accessible v (t + 8 * j) 8 && ((t + 8 * j) mod 8 =? 0) = true) ->
  (forall j w, i <= j < i + Z.of_nat n -> mem w = mem v -> mem_size w = mem_size v ->
     body (t + 8 * j) (word v (t + 8 * j)) w = run_list op (g j) w) ->
  forall w, mem w = mem v -> mem_size w = mem_size v ->
  each_entry body n t i w = run_list op (flat_map g (seqZ i (Z.of_nat n))) w.
Proof.
  intros Hop. induction n as [|n IH]; intros i Hacc Hbody w Hm Hs; cbn [each_entry]; [by rewrite seqZ_nil by lia|].
  rewrite seqZ_cons by lia. cbn [flat_map]. rewrite run_list_app.
  assert (load (t + 8 * i) w = Some (word v (t + 8 * i), w)) as Hl.
  { unfold load, accessible. rewrite Hs. specialize (Hacc i ltac:(lia)). unfold accessible in Hacc. rewrite Hacc. unfold word. by rewrite Hm. }
  rewrite (bind_run _ _ _ _ _ Hl). unfold mbind, M_bind. rewrite Hbody by (done || lia).
  destruct (run_list op (g i) w) as [[[] w']|] eqn:E; [|done].
  assert (mem w' = mem v /\ mem_size w' = mem_size v) as [Hm' Hs'].
  { clear IH Hbody Hl. revert w Hm Hs E. induction (g i) as [|a l IHl]; intros w Hm Hs; cbn [run_list foldr]; [by intros [= <-]|].
    unfold mbind, M_bind. destruct (op a w) as [[[] w1]|] eqn:E1; [|done]. apply (Hop a) in E1 as [Hm1 Hs1]. apply IHl; congruence. }
  replace (Z.succ i) with (i + 1) by lia. replace (Z.pred (Z.of_nat (S n))) with (Z.of_nat n) by lia.
  apply IH; [intros j Hj; apply Hacc; lia|intros j w1 Hj; apply Hbody; lia|done|done].
Qed.

Section tables.
Context (v : vm) (root : Z).
Hypothesis Hsp : space v root.

Lemma table_access q t j : idxs q -> tab v 4 root q = Some t -> 0 <= j < 512 -> accessible v (t + 8 * j) 8 && ((t + 8 * j) mod 8 =? 0) = true.
Proof. intros Hq Ht Hj. apply slot_access; [apply Hsp| |done]. by eapply tr_table; [apply Hsp|..]. Qed.

Lemma visited_tab k q t j : idxs q -> length q = (4 - S (S k))%nat -> (S (S k) <= 3)%nat -> tab v 4 root q = Some t ->
  visited (S (S k)) (word v (t + 8 * j)) = true -> tab v 4 root (q ++ [j]) = Some (table_addr (word v (t + 8 * j))).
Proof.
  intros Hq Hl Hk Ht Hv. unfold visited in Hv. cbn [Nat.eqb orb] in Hv. apply andb_prop in Hv as [Hp Hn].
  apply tab_next; [lia|done|done|]. rewrite Hl. replace (4 - (4 - S (S k)))%nat with (S (S k)) by lia.
  unfold leafb. apply negb_true_iff in Hn. by rewrite Hn, andb_false_r, orb_false_r.
Qed.

(** The loops of mm.c as instances of one recursion. *)
Definition visit (op : Z -> M vm unit) (ls : vm -> nat -> Z -> list Z) (k : nat) (f : Z -> M vm unit) : Prop :=
  forall q t w, idxs q -> length q = (4 - k)%nat -> tab v 4 root q = Some t -> mem w = mem v -> mem_size w = mem_size v ->
  f t w = run_list op (ls v k t) w.

Lemma visit_table (op : Z -> M vm unit) ls k (body : Z -> M vm unit) (c : Z -> list Z) : keeps_mem op -> (1 <= k <= 3)%nat ->
  (forall t, ls v k t = flat_map (fun i => let e := word v (t + 8 * i) in if visited k e then c e else []) (seqZ 0 512)) ->
  (forall q t j w, idxs q -> length q = (4 - k)%nat -> tab v 4 root q = Some t -> 0 <= j < 512 ->
     mem w = mem v -> mem_size w = mem_size v -> let e := word v (t + 8 * j) in
     body e w = run_list op (if visited k e then c e else []) w) ->
  visit op ls k (fun t => each_entry (fun _ e => body e) 512 t 0).
Proof.
  intros Hop Hk Hls Hb q t w Hq Hl Ht Hm Hs. rewrite Hls.
  apply (each_entry_list op (fun _ e => body e) _ 512 t v Hop 0); [|intros j w' Hj Hm' Hs'|done|done].
  - intros j Hj. eapply table_access; [done|done|lia].
  - cbv zeta. apply (Hb q t j w'); try done; lia.
Qed.

Lemma run_list_one (op : Z -> M vm unit) a w : op a w = run_list op [a] w.
Proof. cbn [run_list foldr]. unfold mbind, M_bind. by destruct (op a w) as [[[] ?]|]. Qed.

Lemma visit_pt (op : Z -> M vm unit) ls : keeps_mem op ->
  (forall t, ls v 1%nat t = flat_map (fun i => let e := word v (t + 8 * i) in if visited 1 e then [e] else []) (seqZ 0 512)) ->
  visit op ls 1 (fun t => each_entry (fun _ e => if present e then op e else mret tt) 512 t 0).
Proof.
  intros Hop Hls. apply (visit_table op ls 1 (fun e => if present e then op e else mret tt) (fun e => [e]) Hop); [lia|done|].
  intros q t j w Hq Hl Ht Hj Hm Hs e. unfold visited. cbn [Nat.eqb orb]. rewrite andb_true_r.
  destruct (present e); [apply run_list_one|done].
Qed.

Lemma visit_next (op : Z -> M vm unit) ls k (B : Z -> M vm unit) (c : Z -> list Z) : keeps_mem op -> (S (S k) <= 3)%nat ->
  (forall t, ls v (S (S k)) t = flat_map (fun i => let e := word v (t + 8 * i) in if visited (S (S k)) e then c e else []) (seqZ 0 512)) ->
  (forall q e w, idxs q -> length q = (4 - S k)%nat -> tab v 4 root q = Some (table_addr e) -> mem w = mem v -> mem_size w = mem_size v ->
     B e w = run_list op (c e) w) ->
  visit op ls (S (S k)) (fun t => each_entry (fun _ e => if present e && negb (large e) then B e else mret tt) 512 t 0).
Proof.
  intros Hop Hk Hls HB. apply (visit_table op ls (S (S k)) (fun e => if present e && negb (large e) then B e else mret tt) c Hop); [lia|done|].
  intros q t j w Hq Hl Ht Hj Hm Hs e. change (present e && negb (large e)) with (visited (S (S k)) e). destruct (visited (S (S k)) e) eqn:Ev; [|done].
  apply (HB (q ++ [j])); try done.
  - apply Forall_app. split; [done|]. by constructor.
  - rewrite length_app. cbn. lia.
  - by apply (visited_tab k).
Qed.

Lemma run_list_cons_bind (op : Z -> M vm unit) a l (m : M vm unit) w : keeps_mem op ->
  (forall w', mem w' = mem w -> mem_size w' = mem_size w -> m w' = run_list op l w') ->
  (op a;; m) w = run_list op (a :: l) w.
Proof.
  intros Hop Hm. cbn [run_list foldr]. unfold mbind, M_bind. destruct (op a w) as [[[] w1]|] eqn:E; [|done].
  apply (Hop a) in E as [E1 E2]. by apply Hm.
Qed.

Lemma run_list_snoc_bind (op : Z -> M vm unit) a l (m : M vm unit) w :
  m w = run_list op l w -> (m;; op a) w = run_list op (l ++ [a]) w.
Proof.
  intros Hm. rewrite run_list_app. unfold mbind, M_bind. rewrite Hm. destruct (run_list op l w) as [[[] w1]|]; [|done]. apply run_list_one.
Qed.

Lemma ref_visits : visit ref_page refs 1 ref_pt /\ visit ref_page refs 2 ref_pdt /\ visit ref_page refs 3 ref_pdpt.
Proof.
  pose proof ref_page_keeps as Hop. assert (visit ref_page refs 1 ref_pt) as V1.
  { apply visit_pt; [done|apply refs_S]. }
  assert (visit ref_page refs 2 ref_pdt) as V2.
  { change (visit ref_page refs 2 (fun t => each_entry (fun _ e => if present e && negb (large e) then (ref_page e;; ref_pt (table_addr e)) else mret tt) 512 t 0)).
    apply (visit_next ref_page refs 0 (fun e => ref_page e;; ref_pt (table_addr e)) (fun e => e :: refs v 1 (table_addr e))); [done|lia|apply refs_S|].
    intros q e w Hq Hl Ht Hm Hs. apply run_list_cons_bind; [done|]. intros w' E1 E2. apply (V1 q); congruence. }
  split_and!; [done|done|].
  change (visit ref_page refs 3 (fun t => each_entry (fun _ e => if present e && negb (large e) then (ref_page e;; ref_pdt (table_addr e)) else mret tt) 512 t 0)).
    apply (visit_next ref_page refs 1 (fun e => ref_page e;; ref_pdt (table_addr e)) (fun e => e :: refs v 2 (table_addr e))); [done|lia|apply refs_S|].
  intros q e w Hq Hl Ht Hm Hs. apply run_list_cons_bind; [done|]. intros w' E1 E2. apply (V2 q); congruence.
Qed.

Lemma free_visits : visit free_page frees 1 free_pt /\ visit free_page frees 2 free_pdt /\ visit free_page frees 3 free_pdpt.
Proof.
  pose proof free_page_keeps as Hop. assert (visit free_page frees 1 free_pt) as V1 by (apply visit_pt; [done|apply frees_S]).
  assert (visit free_page frees 2 free_pdt) as V2.
  { change (visit free_page frees 2 (fun t => each_entry (fun _ e => if present e && negb (large e) then (free_pt (table_addr e);; free_page (table_addr e)) else mret tt) 512 t 0)).
    apply (visit_next free_page frees 0 (fun e => free_pt (table_addr e);; free_page (table_addr e)) (fun e => frees v 1 (table_addr e) ++ [table_addr e])); [done|lia|apply frees_S|].
    intros q e w Hq Hl Ht Hm Hs. apply run_list_snoc_bind. by apply (V1 q). }
  split_and!; [done|done|].
  change (visit free_page frees 3 (fun t => each_entry (fun _ e => if present e && negb (large e) then (free_pdt (table_addr e);; free_page (table_addr e)) else mret tt) 512 t 0)).
    apply (visit_next free_page frees 1 (fun e => free_pdt (table_addr e);; free_page (table_addr e)) (fun e => frees v 2 (table_addr e) ++ [table_addr e])); [done|lia|apply frees_S|].
  intros q e w Hq Hl Ht Hm Hs. apply run_list_snoc_bind. by apply (V2 q).
Qed.
End tables.

(** ** Lists of frames *)

Definition frame (a : Z) : Z := a / PAGE_SIZE.

Lemma map_flat_map {A B C} (f : B -> C) (g : A -> list B) l : map f (flat_map g l) = flat_map (fun i => map f (g i)) l.
Proof. induction l as [|a l IH]; [done|]. cbn. by rewrite map_app, IH. Qed.

Lemma elem_of_flat_map {A B} (g : A -> list B) l x : x ∈ flat_map g l <-> exists i, i ∈ l /\ x ∈ g i.
Proof. rewrite list_elem_of_In, in_flat_map. split; intros (i & H1 & H2); exists i; by rewrite !list_elem_of_In in *. Qed.

Lemma NoDup_flat_map {A B} (g : A -> list B) l : NoDup l -> (forall i, i ∈ l -> NoDup (g i)) ->
  (forall i j x, i ∈ l -> j ∈ l -> x ∈ g i -> x ∈ g j -> i = j) -> NoDup (flat_map g l).
Proof.
  induction l as [|a l IH]; intros Hl Hg Hd; cbn; [constructor|]. apply NoDup_cons in Hl as [Ha Hl]. apply NoDup_app. split_and!.
  - apply Hg. left.
  - intros x Hx Hx'. apply elem_of_flat_map in Hx' as (i & Hi & Hxi). apply Ha. rewrite (Hd a i x); [done|left|by right|done|done].
  - apply IH; [done| |]; [intros i Hi; apply Hg; by right|intros i j x Hi Hj; apply Hd; by right].
Qed.

Definition ref_ok (v : vm) (a : Z) : Prop :=
  PAGE_SIZE <= a < 2 ^ 64 /\ frame a < zlen (table v) /\ 0 < frame_count v (frame a) < 2 ^ 32 - 1.

Lemma ref_list_ok l : forall v, frames_ok v -> Forall (ref_ok v) l -> NoDup (map frame l) ->
  exists v', run_list ref_page l v = Some (tt, v') /\ frames_ok v' /\ counts_only v v' /\ next_phys_addr v' = next_phys_addr v /\
    forall f, frame_count v' f = frame_count v f + if decide (f ∈ map frame l) then 1 else 0.
Proof.
  induction l as [|a l IH]; intros v Hok Hall Hnd; cbn [run_list foldr].
  { exists v. split_and!; [done|done|by split|done|]. intros f. case_decide as H; [by apply not_elem_of_nil in H|lia]. }
  apply Forall_cons in Hall as [(A1 & A2 & A3) Hall]. cbn [map] in Hnd. apply NoDup_cons in Hnd as [Hn Hnd]. unfold frame in A2, A3.
  destruct (ref_page_ok v a Hok ltac:(lia) A2 ltac:(lia)) as (v1 & H1 & Hok1 & C1 & N1 & F1). rewrite (bind_run _ _ _ _ _ H1).
  assert (forall f, frame_count v1 f = frame_count v f + if f =? frame a then 1 else 0) as F1'.
  { intros f. rewrite F1. unfold frame. destruct (Z.eqb_spec f (a / PAGE_SIZE)) as [->|]; cbn [andb]; [|lia].
    destruct (Z.ltb_spec 0 (frame_count v (a / PAGE_SIZE))); lia. }
  destruct (IH v1 Hok1) as (v' & H2 & Hok2 & [D1 D2 D3 D4 D5] & N2 & F2); [|done|].
  { rewrite Forall_forall in *. intros b Hb. destruct (Hall b Hb) as (B1 & B2 & B3). destruct C1 as [_ _ E3 _ _].
    split; [done|]. rewrite E3, F1'. split; [done|]. destruct (Z.eqb_spec (frame b) (frame a)) as [E|]; [|lia].
    destruct Hn. rewrite <- E. by apply list_elem_of_In, in_map, list_elem_of_In. }
  exists v'. destruct C1 as [E1 E2 E3 E4 E5]. split; [done|]. split; [done|].
  split; [split; congruence|]. split; [congruence|]. intros f. rewrite F2, F1'. cbn [map].
  destruct (Z.eqb_spec f (frame a)) as [->|Hne].
  - rewrite decide_False by done. rewrite decide_True by left. lia.
  - case_decide as Hf; [rewrite decide_True by (by right); lia|]. rewrite decide_False; [lia|]. by rewrite elem_of_cons; intros [?|?].
Qed.

Lemma free_list_ok l : forall v, frames_ok v ->
  Forall (fun a => PAGE_SIZE <= a < 2 ^ 64 /\ frame a < zlen (table v) /\ 0 < frame_count v (frame a)) l -> NoDup (map frame l) ->
  exists v', run_list free_page l v = Some (tt, v') /\ frames_ok v' /\ counts_only v v' /\
    forall f, frame_count v' f = frame_count v f - if decide (f ∈ map frame l) then 1 else 0.
Proof.
  induction l as [|a l IH]; intros v Hok Hall Hnd; cbn [run_list foldr].
  { exists v. split_and!; [done|done|by split|]. intros f. case_decide as H; [by apply not_elem_of_nil in H|lia]. }
  apply Forall_cons in Hall as [(A1 & A2 & A3) Hall]. cbn [map] in Hnd. apply NoDup_cons in Hnd as [Hn Hnd]. unfold frame in A2, A3.
  destruct (free_page_ok v a Hok A1 A2) as (v1 & H1 & Hok1 & C1 & F1 & _). rewrite (bind_run _ _ _ _ _ H1).
  assert (forall f, frame_count v1 f = frame_count v f - if f =? frame a then 1 else 0) as F1'.
  { intros f. rewrite F1. unfold frame. destruct (Z.eqb_spec f (a / PAGE_SIZE)) as [->|]; lia. }
  destruct (IH v1 Hok1) as (v' & H2 & Hok2 & [D1 D2 D3 D4 D5] & F2); [|done|].
  { rewrite Forall_forall in *. intros b Hb. destruct (Hall b Hb) as (B1 & B2 & B3). destruct C1 as [_ _ E3 _ _].
    split; [done|]. rewrite E3, F1'. split; [done|]. destruct (Z.eqb_spec (frame b) (frame a)) as [E|]; [|lia].
    destruct Hn. rewrite <- E. by apply list_elem_of_In, in_map, list_elem_of_In. }
  exists v'. destruct C1 as [E1 E2 E3 E4 E5]. split; [done|]. split; [done|].
  split; [split; congruence|]. intros f. rewrite F2, F1'. cbn [map].
  destruct (Z.eqb_spec f (frame a)) as [->|Hne].
  - rewrite decide_False by done. rewrite decide_True by left. lia.
  - case_decide as Hf; [rewrite decide_True by (by right); lia|]. rewrite decide_False; [lia|]. by rewrite elem_of_cons; intros [?|?].
Qed.

(** ** Paths to frames *)

(** The entry at path [q] leads to a table or is that of a page. *)
Definition leads (v : vm) (root : Z) (q : list Z) (e : Z) : Prop :=
  exists p i t, q = p ++ [i] /\ idxs q /\ tab v 4 root p = Some t /\ e = word v (t + 8 * i) /\ present e = true /\
    (length p = 3%nat \/ (length p < 3)%nat /\ leafb (4 - length p) e = false).

Section paths.
Context (v : vm) (root : Z).
Hypothesis Hsp : space v root.

Lemma visited_leads k q t i : (1 <= k <= 3)%nat -> idxs q -> length q = (4 - k)%nat -> tab v 4 root q = Some t -> 0 <= i < 512 ->
  visited k (word v (t + 8 * i)) = true -> leads v root (q ++ [i]) (word v (t + 8 * i)).
Proof.
  intros Hk Hq Hl Ht Hi Hv. apply andb_prop in Hv as [Hp Hv]. exists q, i, t.
  split_and!; [done|apply Forall_app; split; [done|by constructor]|done|done|done|].
  destruct (Nat.eqb_spec k 1) as [->|Hne]; [left; lia|]. right. split; [lia|]. rewrite Hl. replace (4 - (4 - k))%nat with k by lia.
  unfold leafb. apply negb_true_iff in Hv. rewrite Hv, andb_false_r, orb_false_r. by apply Nat.eqb_neq.
Qed.

Lemma refs_leads k : forall q t e, (k <= 3)%nat -> idxs q -> length q = (4 - k)%nat -> tab v 4 root q = Some t -> e ∈ refs v k t ->
  exists r, r <> [] /\ leads v root (q ++ r) e.
Proof.
  induction k as [|k IH]; intros q t e Hk Hq Hl Ht He; [by apply not_elem_of_nil in He|].
  rewrite refs_S in He. apply elem_of_flat_map in He as (i & Hi & He). apply elem_of_seqZ in Hi. cbv zeta in He.
  destruct (visited (S k) (word v (t + 8 * i))) eqn:Ev; [|by apply not_elem_of_nil in He].
  pose proof (visited_leads (S k) q t i ltac:(lia) Hq Hl Ht ltac:(lia) Ev) as Hlead.
  apply elem_of_cons in He as [->|He]; [by exists [i]|]. destruct k as [|k]; [by apply not_elem_of_nil in He|].
  pose proof (visited_tab v root k q t i Hq Hl ltac:(lia) Ht Ev) as Ht'.
  destruct (IH (q ++ [i]) (table_addr (word v (t + 8 * i))) e ltac:(lia)) as (r & Hr & Hle); [|rewrite length_app; cbn; lia|done|done|].
  { apply Forall_app. split; [done|]. constructor; [lia|constructor]. }
  exists (i :: r). split; [done|]. by rewrite <- app_assoc in Hle.
Qed.

(** Frames at different paths below [q0] differ. *)
Definition leads_inj (P : list Z -> Prop) : Prop :=
  forall q q' e e', P q -> P q' -> leads v root q e -> leads v root q' e' -> frame e = frame e' -> q = q'.

Lemma refs_nodup P k : leads_inj P -> forall q t, (k <= 3)%nat -> idxs q -> length q = (4 - k)%nat -> tab v 4 root q = Some t ->
  (forall r, r <> [] -> P (q ++ r)) -> NoDup (map frame (refs v k t)).
Proof.
  intros Hinj. induction k as [|k IH]; intros q t Hk Hq Hl Ht HP; [constructor|]. rewrite refs_S, map_flat_map.
  assert (forall i, 0 <= i < 512 -> idxs (q ++ [i]) /\ length (q ++ [i]) = (4 - k)%nat) as Hqi.
  { intros i Hi. split; [apply Forall_app; split; [done|by constructor]|]. rewrite length_app. cbn. lia. }
  assert (forall i e, 0 <= i < 512 -> visited (S k) (word v (t + 8 * i)) = true -> e ∈ refs v k (table_addr (word v (t + 8 * i))) ->
    exists r, r <> [] /\ leads v root ((q ++ [i]) ++ r) e) as Hsub.
  { intros i e Hi Hv He. destruct k as [|k]; [by apply not_elem_of_nil in He|]. destruct (Hqi i Hi).
    apply (refs_leads (S k) _ (table_addr (word v (t + 8 * i)))); [lia|done|done|by apply (visited_tab v root k)|done]. }
  assert (forall i x, 0 <= i < 512 -> x ∈ map frame (let e := word v (t + 8 * i) in if visited (S k) e then e :: refs v k (table_addr e) else []) ->
    exists r e, leads v root (q ++ i :: r) e /\ frame e = x) as Hmem.
  { intros i x Hi Hx. cbv zeta in Hx. destruct (visited (S k) (word v (t + 8 * i))) eqn:Ev; [|by apply not_elem_of_nil in Hx].
    cbn [map] in Hx. apply elem_of_cons in Hx as [->|Hx].
    - exists [], (word v (t + 8 * i)). split; [|done]. by apply (visited_leads (S k)); [lia|..].
    - apply list_elem_of_In, in_map_iff in Hx as (e & <- & He). apply list_elem_of_In in He.
      destruct (Hsub i e Hi Ev He) as (r & _ & Hle). exists r, e. by rewrite <- app_assoc in Hle. }
  apply NoDup_flat_map; [apply NoDup_seqZ| |].
  - intros i Hi. apply elem_of_seqZ in Hi. cbv zeta. destruct (visited (S k) (word v (t + 8 * i))) eqn:Ev; [|constructor]. cbn [map]. apply NoDup_cons. split.
    + intros Hx. apply list_elem_of_In, in_map_iff in Hx as (e & Ef & He). apply list_elem_of_In in He.
      destruct (Hsub i e ltac:(lia) Ev He) as (r & Hr & Hle).
      pose proof (visited_leads (S k) q t i ltac:(lia) Hq Hl Ht ltac:(lia) Ev) as Hlead.
      assert (q ++ [i] = (q ++ [i]) ++ r) as E.
      { apply (Hinj _ _ (word v (t + 8 * i)) e); [by apply HP|rewrite <- app_assoc; by apply HP|done|done|done]. }
      apply Hr. apply (f_equal length) in E. rewrite !length_app in E. destruct r; [done|]. cbn in E. lia.
    + destruct k as [|k]; [constructor|]. destruct (Hqi i ltac:(lia)). apply (IH (q ++ [i])); [lia|done|done|by apply (visited_tab v root k)|].
      intros r Hr. rewrite <- app_assoc. by apply HP.
  - intros i j x Hi Hj Hx Hy. apply elem_of_seqZ in Hi, Hj. destruct (Hmem i x ltac:(lia) Hx) as (r & e & H1 & E1).
    destruct (Hmem j x ltac:(lia) Hy) as (r' & e' & H2 & E2).
    assert (q ++ i :: r = q ++ j :: r') as E by (apply (Hinj _ _ e e'); [by apply HP|by apply HP|done|done|congruence]).
    apply app_inv_head in E. by injection E.
Qed.
End paths.

Section alloc.
Context (fuel : nat).

(** ** The program break *)

(** [struct brk] *)
Record brk := mk_brk { brk_base : Z; brk_curr : Z; brk_max : Z }.

(** The number of pages from [lo] up to [hi]. *)
Definition pages (lo hi : Z) : nat := Z.to_nat ((hi - lo + PAGE_SIZE - 1) / PAGE_SIZE).

(** [for (i = ...; i < brk.curr; i += PAGE_SIZE)]; the body uses [addr]. *)
Fixpoint brk_shrink (n : nat) (pml4t addr : Z) : M vm unit :=
  match n with
  | O => mret tt
  | S n =>
      p ← vm_phys_addr pml4t addr;
      (if truthy p then free_page p else mret tt);;
      vm_unmap_page pml4t addr;;
      brk_shrink n pml4t addr
  end.

Fixpoint brk_grow (n : nat) (pml4t i : Z) : M vm (res unit) :=
  match n with
  | O => mret (Ok tt)
  | S n =>
      p ← alloc_page fuel;
      if p =? 0 then mret (Err ENOMEM) else
      r ← vm_map_page fuel pml4t p i (Z.lor PAGE_FLAG_RW PAGE_FLAG_USER);
      match r with
      | VmFail _ => mret (Err ENOMEM)
      | VmOk => brk_grow n pml4t (u64 (i + PAGE_SIZE))
      end
  end.

Definition sys_brk (pml4t : Z) (b : brk) (addr : Z) : M vm (res unit * brk) :=
  let moved := mk_brk (brk_base b) (ALIGN_UP addr PAGE_SIZE) (brk_max b) in
  if addr <? brk_base b then mret (Err ENOMEM, b) else
  if u64 (brk_base b + brk_max b) <? addr then mret (Err ENOMEM, b) else
  if addr <? brk_curr b then
    brk_shrink (pages (ALIGN_UP addr PAGE_SIZE) (brk_curr b)) pml4t addr;; mret (Ok tt, moved)
  else
    r ← brk_grow (pages (brk_curr b) (ALIGN_UP addr PAGE_SIZE)) pml4t (brk_curr b);
    mret (match r with Ok _ => (Ok tt, moved) | Err e => (Err e, b) end).

Definition sys_sbrk (pml4t : Z) (b : brk) (incr : Z) : M vm (option Z * brk) :=
  r ← sys_brk pml4t b (u64 (brk_curr b + incr));
  mret (match r with (Ok _, b') => (Some (brk_curr b), b') | (Err _, b') => (None, b') end).

End alloc.

(** ** Growing the break *)

Lemma alloc_grows v root a w : space v root -> alloc_effect v a w ->
  space w root /\ grows root v w /\ forall va, xlate w root va = xlate v root va.
Proof.
  intros Hsp HE. destruct (alloc_space v root a w Hsp HE) as [Hw Hc]. destruct HE as (_ & Hm & Hs & Hl & _). split; [done|]. split.
  - split; [done|done|done| |].
    + intros p t Hp Ht. left. by rewrite (tab_mem v) in Ht.
    + intros b _ _ _. unfold word. by rewrite Hm.
  - intros va. unfold xlate. destruct (sign_extended va); [|done]. by apply walk_mem.
Qed.

(** Whether [va] lies in the [n] pages from [i] on. *)
Definition in_pages (i : Z) (n : nat) (va : Z) : bool := (i <=? va) && (va <? i + PAGE_SIZE * Z.of_nat n).

Definition grow_effect (root i : Z) (n : nat) (v v' : vm) : Prop :=
  forall va, 0 <= va < 2 ^ 64 -> sign_extended va = true ->
    if in_pages i n va
    then exists f, 0 < f /\ frame_count v f = 0 /\ 0 < frame_count v' f /\ xlate v' root va = f * PAGE_SIZE + va mod PAGE_SIZE
    else xlate v' root va = xlate v root va.

Lemma brk_grow_ok fuel root n : forall v i, space v root -> zlen (table v) < Z.of_nat fuel -> 0 <= i -> i mod PAGE_SIZE = 0 ->
  i + PAGE_SIZE * Z.of_nat n <= 2 ^ 47 ->
  exists r v', brk_grow fuel n root i v = Some (r, v') /\ space v' root /\ grows root v v' /\
    match r with
    | Ok _ => grow_effect root i n v v'
    | Err e => e = ENOMEM /\ exists k, (k < n)%nat /\ grow_effect root i k v v'
    end.
Proof.
  assert (forall x, x mod PAGE_SIZE = 0 -> forall va, Z.lor x (Z.land va (PAGE_SIZE - 1)) = x + va mod PAGE_SIZE) as Hoff.
  { intros x Hx va. change (PAGE_SIZE - 1) with (Z.ones 12). rewrite Z.land_ones by lia. apply page_lor; [done|]. by apply Z.mod_pos_bound. }
  assert (forall root i v v', (forall va, xlate v' root va = xlate v root va) -> grow_effect root i 0 v v') as Hnone.
  { intros r i v v' H va Hva _. unfold in_pages. destruct (Z.leb_spec i va), (Z.ltb_spec va (i + PAGE_SIZE * Z.of_nat 0)); try lia; apply H. }
  induction n as [|n IH]; intros v i Hsp Hfu Hi Hal Hmax; cbn [brk_grow].
  { exists (Ok tt), v. split_and!; [done|done|apply grows_refl|by apply Hnone]. }
  pose proof Hsp as [Hok _]. pose proof (next_frame _ Hok).
  destruct (alloc_page_ok fuel v Hok ltac:(lia)) as (a & w & Ha & HE & _). rewrite (bind_run _ _ _ _ _ Ha).
  destruct (alloc_grows v root a w Hsp HE) as (Hspw & Gw & Xw). destruct HE as (Hokw & Hm & Hs & Hl & HE).
  destruct HE as [(-> & _ & _)|(A1 & A2 & A3 & A4 & A5)].
  { exists (Err ENOMEM), w. split_and!; [done|done|done|done|]. exists 0%nat. split; [lia|by apply Hnone]. }
  destruct (Z.eqb_spec a 0); [lia|]. assert (0 <= a < 2 ^ 64) as Ha64 by (destruct Hok as [_ _ _ _ _ Hsz _ _]; divlia).
  destruct (map_page_ok fuel w root a i (Z.lor PAGE_FLAG_RW PAGE_FLAG_USER) Hspw ltac:(lia) Ha64 ltac:(by split)) as (r & v1 & H1 & S1 & G1 & X1).
  rewrite (bind_run _ _ _ _ _ H1). pose proof (grows_trans _ _ _ _ Gw G1 Hok) as G01. destruct r as [|e].
  2: { exists (Err ENOMEM), v1. split_and!; [done|done|done|done|]. exists 0%nat. split; [lia|]. apply Hnone. intros va. by rewrite X1. }
  rewrite (wrap_small 64 (i + PAGE_SIZE)) by lia.
  destruct (IH v1 (i + PAGE_SIZE) S1) as (r & v' & H2 & S2 & G2 & X2); [rewrite (gr_len _ _ _ G01); done|lia|divlia|lia|].
  rewrite H2. pose proof (grows_trans _ _ _ _ G01 G2 Hok) as G02.
  assert (sign_extended i = true) as Hsi by (apply sign_extended_div; lia).
  assert (forall k, grow_effect root (i + PAGE_SIZE) k v1 v' -> (k <= n)%nat -> grow_effect root i (S k) v v') as Hstep.
  { intros k Hk Hkn va Hva Hsx. specialize (Hk va Hva Hsx). specialize (X1 va). rewrite Hsx in X1. cbn [andb] in X1. unfold in_pages in *.
    destruct (Z.leb_spec (i + PAGE_SIZE) va), (Z.ltb_spec va (i + PAGE_SIZE + PAGE_SIZE * Z.of_nat k)); cbn [andb] in Hk.
    1: { destruct (Z.leb_spec i va), (Z.ltb_spec va (i + PAGE_SIZE * Z.of_nat (S k))); try lia. cbn [andb].
      destruct Hk as (f & F1 & F2 & F3 & F4). exists f. split_and!; try done. pose proof (gr_counts _ _ _ G01 f). pose proof (frame_count_nonneg v f Hok). lia. }
    all: case_bool_decide as Ev; [apply same_page_path in Ev; [|lia|lia|done|done]|assert (i / PAGE_SIZE <> va / PAGE_SIZE) as Ev' by (intros E; apply Ev; by apply same_page_path; [lia|lia|..])].
    all: destruct (Z.leb_spec i va), (Z.ltb_spec va (i + PAGE_SIZE * Z.of_nat (S k))); cbn [andb]; try divlia.
    all: try (by rewrite Hk, X1, Xw).
    all: exists (a / PAGE_SIZE); pose proof (gr_counts _ _ _ G1 (a / PAGE_SIZE)) as C1; pose proof (gr_counts _ _ _ G2 (a / PAGE_SIZE)) as C2.
    all: rewrite A5, Z.eqb_refl in C1; split_and!; [divlia|done|lia|]; rewrite Hk, X1, align_page, Hoff by (done || by apply Z.mod_mul); divlia. }
  exists r, v'. split_and!; [done|done|done|]. destruct r as [[]|e].
  - by apply Hstep.
  - destruct X2 as (-> & k & Hk & X2). split; [done|]. exists (S k). split; [lia|]. by apply Hstep; [|lia].
Qed.

Lemma pages_len lo hi : lo <= hi -> lo mod PAGE_SIZE = 0 -> hi mod PAGE_SIZE = 0 -> lo + PAGE_SIZE * Z.of_nat (pages lo hi) = hi.
Proof. intros Hle Hl Hh. unfold pages. rewrite Z2Nat.id by (apply Z.div_pos; lia). divlia. Qed.

(** Growing the program break. A request above the present break and within
    the limit returns. When it succeeds the break is the address rounded up to a
    page, every address between the old and the new break translates to a frame
    that was free before, and all others translate as before. When memory runs out
    the error is ENOMEM, the break stays, and addresses outside of the requested
    range translate as before; in both cases frames in use that are no page
    tables keep their contents. *)
Theorem brk_growth_correct fuel root v b addr :
  space v root -> zlen (table v) < Z.of_nat fuel ->
  0 <= brk_base b <= brk_curr b -> brk_curr b mod PAGE_SIZE = 0 -> brk_curr b <= addr <= brk_base b + brk_max b ->
  brk_base b + brk_max b <= 2 ^ 47 - PAGE_SIZE ->
  exists r b' v', sys_brk fuel root b addr v = Some ((r, b'), v') /\ space v' root /\ grows root v v' /\
    match r with
    | Ok _ => b' = mk_brk (brk_base b) (ALIGN_UP addr PAGE_SIZE) (brk_max b) /\
        forall va, 0 <= va < 2 ^ 64 -> sign_extended va = true ->
          if (brk_curr b <=? va) && (va <? ALIGN_UP addr PAGE_SIZE)
          then exists f, 0 < f /\ frame_count v f = 0 /\ 0 < frame_count v' f /\ xlate v' root va = f * PAGE_SIZE + va mod PAGE_SIZE
          else xlate v' root va = xlate v root va
    | Err e => e = ENOMEM /\ b' = b /\
        forall va, 0 <= va < 2 ^ 64 -> sign_extended va = true -> va < brk_curr b \/ ALIGN_UP addr PAGE_SIZE <= va ->
          xlate v' root va = xlate v root va
    end.
Proof.
  intros Hsp Hfu Hb Hal Ha Hm. pose proof (ALIGN_UP_spec addr 12 ltac:(lia) ltac:(lia)) as Hup. change (2 ^ 12) with PAGE_SIZE in Hup.
  set (hi := ALIGN_UP addr PAGE_SIZE) in *. assert (hi mod PAGE_SIZE = 0 /\ addr <= hi < addr + PAGE_SIZE) as [Hhi Hr] by (rewrite Hup; divlia).
  pose proof (pages_len (brk_curr b) hi ltac:(lia) Hal Hhi) as Hpl.
  unfold sys_brk. fold hi. rewrite (wrap_small 64 (brk_base b + brk_max b)) by lia.
  destruct (Z.ltb_spec addr (brk_base b)); [lia|]. destruct (Z.ltb_spec (brk_base b + brk_max b) addr); [lia|].
  destruct (Z.ltb_spec addr (brk_curr b)); [lia|].
  destruct (brk_grow_ok fuel root (pages (brk_curr b) hi) v (brk_curr b) Hsp Hfu ltac:(lia) Hal ltac:(lia)) as (r & v' & Hrun & S1 & G1 & X1).
  rewrite (bind_run _ _ _ _ _ Hrun). destruct r as [[]|e]; (eexists _, _, v'; split; [reflexivity|]); split_and!; try done.
  - intros va Hva Hsx. specialize (X1 va Hva Hsx). unfold in_pages in X1. by rewrite Hpl in X1.
  - by destruct X1.
  - intros va Hva Hsx Hout. destruct X1 as (_ & k & Hk & X1). specialize (X1 va Hva Hsx). unfold in_pages in X1.
    destruct (Z.leb_spec (brk_curr b) va), (Z.ltb_spec va (brk_curr b + PAGE_SIZE * Z.of_nat k)); cbn [andb] in X1; try done. lia.
Qed.

Definition demo_brk : brk := mk_brk 0x400000 0x400000 0x10000.

Lemma brk_growth_correct_witness :
  exists v', sys_brk 9 0x1000 demo_brk 0x400800 demo_space = Some ((Ok tt, mk_brk 0x400000 0x401000 0x10000), v') /\
    exists f, 0 < f /\ frame_count demo_space f = 0 /\ xlate v' 0x1000 0x400123 = f * PAGE_SIZE + 0x123.
Proof.
  destruct (brk_growth_correct 9 0x1000 demo_space demo_brk 0x400800 demo_space_ok) as (r & b' & v' & H1 & _ & _ & H2).
  - vm_compute. reflexivity.
  - vm_compute. intuition discriminate.
  - reflexivity.
  - vm_compute. intuition discriminate.
  - vm_compute. discriminate.
  - assert (r = Ok tt) as -> by (apply (f_equal (option_map (fun x => fst (fst x)))) in H1; vm_compute in H1; congruence).
    destruct H2 as [Hb Hx]. exists v'. split; [rewrite H1, Hb; vm_compute; reflexivity|].
    specialize (Hx 0x400123 ltac:(lia) eq_refl). change (_ && _) with true in Hx. destruct Hx as (f & F1 & F2 & F3 & F4).
    exists f. split; [exact F1|]. split; [exact F2|exact F4].
Defined.

(** Shrinking to 0x401800 unmaps the page at 0x401000, which belongs to the data
    segment, and leaves the page at 0x402000 mapped. *)
Lemma brk_shrink_keeps_pages :
  option_map fst ((r ← sys_brk 17 0x1000 demo_brk 0x403000;
     sys_brk 17 0x1000 (snd r) 0x401800;;
     x ← vm_phys_addr 0x1000 0x401000; y ← vm_phys_addr 0x1000 0x402000; mret (x =? 0, y =? 0))
    (mk_vm ∅ 0x10000 [1; 1; 0; 0; 0; 0; 0; 0; 0; 0; 0; 0; 0; 0; 0; 0] 0x2000 true [mk_region 0 0xf000] 0)) = Some (true, false).
Proof. vm_compute. reflexivity. Qed.

End AddrSpace.
