(* ===== verification/Fork.v ===== *)
(** * Copies of address spaces (arch/x86_64/thread.c)

    Module [Fork]: the address space of a cloned thread. The user memory of the
    parent is marked copy-on-write, all its frames are counted once more, and the
    PML4T is copied; the stacks of the thread are copied page by page. *)

From S2P Require Import Prelude CBits PhysMem Paging Cow AddrSpace.

Module Fork.
Import CBits PhysMem Paging Cow AddrSpace.

Abbreviation THREAD_LOCAL_BASE_VMA := 0xfffffd0000000000.
Abbreviation SYSCALL_STACK_TOP_VMA := 0xfffffd7fd0000000.
Abbreviation INTERRUPT_STACK_TOP_VMA := 0xfffffd7fe0000000.
Abbreviation SIGINFO_VMA := 0xfffffd7fb0000000.
Abbreviation SIGNAL_TRAMPOLINE_VMA := 0xfffffd7fb0001000.

Section clone.
Context (fuel : nat).

(** [pml4t[i] &= ~PAGE_FLAG_RW; pml4t[i] |= PAGE_FLAG_COW] *)
Definition mark_entry (e : Z) : Z := Z.lor (Z.land e (Z.lnot PAGE_FLAG_RW)) PAGE_FLAG_COW.

Definition mark_user (pml4t : Z) : M vm unit :=
  each_entry (fun slot e => if present e then store slot (mark_entry e) else mret tt) 256 pml4t 0.

Definition ref_user (pml4t : Z) : M vm unit :=
  each_entry (fun _ e => if present e then ref_page e;; ref_pdpt (table_addr e) else mret tt) 256 pml4t 0.

(** The part of [thread_clone] that shares the user memory: [new] is the PML4T of
    the new thread and [tlp] its table of thread-local memory. *)
Definition share_memory (copy : bool) (pml4t new tlp : Z) : M vm unit :=
  zero_frame tlp;;
  (if copy then mark_user pml4t else mret tt);;
  ref_user pml4t;;
  copy_frame new pml4t;;
  store (new + 8 * PML4T_INDEX THREAD_LOCAL_BASE_VMA) (Z.lor tlp user_flags).

(** A page of a stack is copied to a new frame; [false] when there is no memory. *)
Definition clone_page (pml4t new addr : Z) : M vm bool :=
  page ← alloc_page fuel;
  if page =? 0 then mret false else
  p ← vm_phys_addr pml4t addr;
  copy_frame page p;;
  r ← vm_map_page fuel new page addr (Z.lor PAGE_FLAG_RW PAGE_FLAG_USER);
  match r with
  | VmOk => mret true
  | VmFail _ => free_page page;; mret false
  end.

(** The loops over the pages of a stack; [addr i] is the page of step [i]. *)
Fixpoint clone_pages (n : nat) (pml4t new : Z) (addr : Z -> Z) (i : Z) : M vm bool :=
  match n with
  | O => mret true
  | S n => ok ← clone_page pml4t new (addr i); if ok : bool then clone_pages n pml4t new addr (i + 1) else mret false
  end.

(** [st_page] is the physical address of the signal trampoline. *)
Definition thread_alloc_tl_kernel_data (pml4t st_page : Z) : M vm (res unit) :=
  siginfo_page ← alloc_page fuel;
  if siginfo_page =? 0 then mret (Err ENOMEM) else
  r ← vm_map_page fuel pml4t siginfo_page SIGINFO_VMA (Z.lor PAGE_FLAG_USER PAGE_FLAG_RW);
  match r with
  | VmFail e => mret (Err (default ENOMEM e))
  | VmOk =>
      vm_map_page fuel pml4t st_page SIGNAL_TRAMPOLINE_VMA PAGE_FLAG_USER;;
      ref_page st_page;;
      mret (Ok tt)
  end.

(** [struct thread_args] *)
Record thread_args := mk_args { args_pml4t : Z; args_stack : Z; args_stack_base : Z; args_stack_size : Z }.

(** The new arguments, or failure with the thread ID that was freed again. *)
Inductive clone_result := Cloned (a : thread_args) | CloneFailed (freed : option Z).

(** [thread_clone]; [calloc_ok] and [tid] are the outcomes of [calloc] and
    [alloc_pid]. *)
Definition thread_clone (calloc_ok : bool) (tid : option Z) (st_page : Z) (t : thread_args) (copy : bool) : M vm clone_result :=
  if negb calloc_ok then mret (CloneFailed None) else
  new ← alloc_virtual_page fuel;
  if new =? 0 then mret (CloneFailed None) else
  match tid with
  | None => free_virtual_page new;; mret (CloneFailed None)
  | Some id =>
      tlp ← alloc_virtual_page fuel;
      if tlp =? 0 then free_virtual_page new;; mret (CloneFailed (Some id)) else
      share_memory copy (args_pml4t t) new tlp;;
      ok ← clone_pages (pages (args_stack_base t) (args_stack_base t + args_stack_size t)) (args_pml4t t) new
             (fun i => u64 (args_stack_base t + PAGE_SIZE * i)) 0;
      ok ← (if ok : bool then clone_pages 256 (args_pml4t t) new (fun i => INTERRUPT_STACK_TOP_VMA - PAGE_SIZE - PAGE_SIZE * i) 0 else mret false);
      ok ← (if ok : bool then clone_pages 256 (args_pml4t t) new (fun i => SYSCALL_STACK_TOP_VMA - PAGE_SIZE - PAGE_SIZE * i) 0 else mret false);
      ok ← (if ok : bool then r ← thread_alloc_tl_kernel_data new st_page; mret (match r with Ok _ => true | Err _ => false end) else mret false);
      if ok : bool then mret (Cloned (mk_args new (args_stack t) (args_stack_base t) (args_stack_size t))) else
      free_pdpt tlp;; free_virtual_page new;; mret (CloneFailed (Some id))
  end.

(** The memory of a thread is released; the result is the ID given to [free_pid]. *)
Definition thread_free (tid pml4t : Z) : M vm Z :=
  e ← load (pml4t + 8 * PML4T_INDEX THREAD_LOCAL_BASE_VMA);
  (if present e then free_pdpt (table_addr e);; free_page (table_addr e) else mret tt);;
  free_virtual_page pml4t;;
  mret tid.
Definition thread_unmap_user_mem (pml4t : Z) : M vm unit := vm_unmap_user_mem pml4t.
End clone.

(** ** The user frames of an address space *)

Definition path_va (q : list Z) : Z :=
  match q with [a; b; c; d] => a * 2 ^ 39 + b * 2 ^ 30 + c * 2 ^ 21 + d * 2 ^ 12 | _ => 0 end.

Lemma path_va_ok q : idxs q -> length q = 4%nat -> user_half q -> user (path_va q) /\ vpath (path_va q) = q.
Proof.
  intros Hq Hl Hu. destruct q as [|a [|b [|c [|d [|x q]]]]]; try done. cbn in Hu. unfold idxs in Hq. rewrite !Forall_cons in Hq.
  destruct Hq as (Ha & Hb & Hc & Hd & _). cbn [path_va]. split; [unfold user; lia|].
  unfold vpath. rewrite !idx_div. unfold shift. cbn [Z.of_nat Pos.of_succ_nat Pos.succ].
  assert (forall x y : Z, x = y -> forall l l', l = l' -> x :: l = y :: l') as Hc2 by (by intros x y -> l l' ->).
  repeat apply Hc2; [| | | |done]; divlia.
Qed.

Section user.
Context (v : vm) (root : Z) (sh : Z -> Prop).
Hypothesis Hsp : space v root.
Hypothesis H64 : words64 v.
Hypothesis Hup : user_pages sh root v.

(** A path leads to a table, or it is that of a page. *)
Lemma leads_cases q e : leads v root q e -> user_half q ->
  idxs q /\ frame (table_addr e) = frame e /\
  (tab v 4 root q = Some (table_addr e) \/ page_entry root v (path_va q) = Some e /\ vpath (path_va q) = q /\ user (path_va q)).
Proof.
  intros (p & i & t & -> & Hq & Ht & -> & Hpr & Hc) Hu. split; [done|]. split.
  { unfold frame. rewrite table_addr_div, Z.div_mul by (done || apply H64). done. }
  destruct Hc as [Hl|[Hl Hleaf]]; [right|left; by apply tab_next; [lia|..]].
  destruct (path_va_ok (p ++ [i]) Hq) as [Hus Hvp]; [rewrite length_app; cbn; lia|done|]. split; [|done].
  unfold page_entry. assert (take 3 (vpath (path_va (p ++ [i]))) = p /\ idx 1 (path_va (p ++ [i])) = i) as [-> ->].
  { rewrite Hvp, take_app_length' by lia. split; [done|]. unfold vpath in Hvp. destruct p as [|a [|b [|c [|d p]]]]; try done. by injection Hvp. }
  rewrite Ht. cbv zeta. by rewrite Hpr.
Qed.

Lemma user_leads_inj : leads_inj v root user_half.
Proof.
  intros q q' e e' Hu Hu' H1 H2 E. destruct (leads_cases q e H1 Hu) as (I1 & F1 & C1), (leads_cases q' e' H2 Hu') as (I2 & F2 & C2).
  destruct Hsp as [_ [T1 T2]]. destruct C1 as [C1|(C1 & V1 & U1)], C2 as [C2|(C2 & V2 & U2)].
  - pose proof (to_aligned _ _ (T1 q _ I1 C1)). pose proof (to_aligned _ _ (T1 q' _ I2 C2)). unfold frame in *.
    assert (table_addr e = table_addr e') as Et by divlia. rewrite <- Et in C2. by eapply T2.
  - destruct (up_tab _ _ _ Hup _ _ _ _ U2 C2 I1 C1). unfold frame in *. congruence.
  - destruct (up_tab _ _ _ Hup _ _ _ _ U1 C1 I2 C2). unfold frame in *. congruence.
  - rewrite <- V1, <- V2. by apply (up_inj _ _ _ Hup _ _ e e').
Qed.

Lemma root_entry_leads i : 0 <= i < 512 -> present (word v (root + 8 * i)) = true ->
  leads v root [i] (word v (root + 8 * i)) /\ tab v 4 root [i] = Some (table_addr (word v (root + 8 * i))).
Proof.
  intros Hi Hp. split; [|by apply (tab_next v root [] root i); [cbn; lia|..]]. exists [], i, root.
  split_and!; [done|by constructor|done|done|done|]. right. split; [cbn; lia|done].
Qed.

Lemma user_refs_leads e : e ∈ user_refs v root -> exists q, user_half q /\ leads v root q e.
Proof.
  intros He. apply elem_of_flat_map in He as (i & Hi & He). apply elem_of_seqZ in Hi. cbv zeta in He.
  destruct (present (word v (root + 8 * i))) eqn:Ep; [|by apply not_elem_of_nil in He].
  destruct (root_entry_leads i ltac:(lia) Ep) as [Hl Ht]. apply elem_of_cons in He as [->|He].
  - exists [i]. split; [cbn; lia|done].
  - destruct (refs_leads v root 3 [i] _ e ltac:(lia) ltac:(constructor; [lia|constructor]) eq_refl Ht He) as (r & _ & Hr).
    exists ([i] ++ r). split; [cbn; lia|done].
Qed.

Lemma user_refs_nodup : NoDup (map frame (user_refs v root)).
Proof.
  unfold user_refs. rewrite map_flat_map. apply NoDup_flat_map; [apply NoDup_seqZ| |].
  - intros i Hi. apply elem_of_seqZ in Hi. cbv zeta. destruct (present (word v (root + 8 * i))) eqn:Ep; [|constructor].
    destruct (root_entry_leads i ltac:(lia) Ep) as [Hl Ht]. assert (idxs [i]) as Hidx by (constructor; [lia|constructor]).
    cbn [map]. apply NoDup_cons. split.
    + intros Hx. apply list_elem_of_In, in_map_iff in Hx as (e & Ef & He). apply list_elem_of_In in He.
      destruct (refs_leads v root 3 [i] _ e ltac:(lia) Hidx eq_refl Ht He) as (r & Hr & Hle).
      assert ([i] = [i] ++ r) as E by (apply (user_leads_inj _ _ (word v (root + 8 * i)) e); [cbn; lia|cbn; lia|exact Hl|done|done]).
      destruct r; [done|]. done.
    + apply (refs_nodup v root user_half 3 user_leads_inj [i]); [lia|done|done|done|]. intros r _. cbn. lia.
  - intros i j x Hi Hj Hx Hy. apply elem_of_seqZ in Hi, Hj.
    assert (forall i, 0 <= i < 256 -> x ∈ map frame (let e := word v (root + 8 * i) in if present e then e :: refs v 3 (table_addr e) else []) ->
      exists r e, leads v root (i :: r) e /\ frame e = x) as Hmem.
    { clear. intros i Hi Hx. cbv zeta in Hx. destruct (present (word v (root + 8 * i))) eqn:Ep; [|by apply not_elem_of_nil in Hx].
      destruct (root_entry_leads i ltac:(lia) Ep) as [Hl Ht]. cbn [map] in Hx. apply elem_of_cons in Hx as [->|Hx]; [by exists [], (word v (root + 8 * i))|].
      apply list_elem_of_In, in_map_iff in Hx as (e & <- & He). apply list_elem_of_In in He.
      destruct (refs_leads v root 3 [i] _ e ltac:(lia) ltac:(constructor; [lia|constructor]) eq_refl Ht He) as (r & _ & Hle). by exists r, e. }
    destruct (Hmem i ltac:(lia) Hx) as (r & e & H1 & E1), (Hmem j ltac:(lia) Hy) as (r' & e' & H2 & E2).
    assert (i :: r = j :: r') as E by (apply (user_leads_inj _ _ e e'); [cbn; lia|cbn; lia|done|done|congruence]). by injection E.
Qed.

Lemma refs_complete k : forall q t r e, (k <= 3)%nat -> length q = (4 - k)%nat -> tab v 4 root q = Some t -> r <> [] ->
  leads v root (q ++ r) e -> e ∈ refs v k t.
Proof.
  induction k as [|k IH]; intros q t r e Hk Hl Ht Hr Hlead.
  - exfalso. destruct Hlead as (p & i & t' & E & _ & _ & _ & _ & Hc). apply (f_equal length) in E. rewrite !length_app in E.
    destruct r; [done|]. cbn in E. lia.
  - destruct r as [|i r]; [done|]. rewrite refs_S. pose proof Hlead as (p & j & t' & E & Hidx & Ht' & He & Hpr & Hc).
    assert (0 <= i < 512) as Hi.
    { apply Forall_app in Hidx as [_ H]. by apply Forall_cons in H as [? _]. }
    apply elem_of_flat_map. exists i. split; [apply elem_of_seqZ; lia|]. cbv zeta.
    destruct r as [|j' r].
    + apply app_inj_2 in E as [<- [= <-]]; [|done]. rewrite Ht in Ht'. injection Ht' as <-.
      assert (visited (S k) (word v (t + 8 * i)) = true) as ->; [|rewrite He; left].
      unfold visited. rewrite <- He, Hpr. cbn [andb]. destruct Hc as [Hc|[Hc Hlf]].
      * replace (S k) with 1%nat by lia. done.
      * rewrite Hl in Hlf. replace (4 - (4 - S k))%nat with (S k) in Hlf by lia. unfold leafb in Hlf. apply orb_false_iff in Hlf as [_ Hlf].
        destruct (Nat.ltb_spec (S k) 4); [|lia]. cbn [andb] in Hlf. by rewrite Hlf, orb_true_r.
    + assert (exists s, p = (q ++ [i]) ++ s) as [s Es].
      { destruct (exists_last (l := j' :: r) ltac:(done)) as (s & x & Es). rewrite Es in E. exists s.
        change (q ++ i :: s ++ [x] = p ++ [j]) in E. rewrite app_comm_cons, app_assoc in E. apply app_inj_tail in E as [<- _].
        by rewrite <- app_assoc. }
      destruct (tab v 4 root (q ++ [i])) as [t1|] eqn:Et1; [|rewrite Es, (tab_prefix_None _ _ _ _ s Et1) in Ht'; done].
      pose proof Et1 as Et2. rewrite tab_snoc, Ht, Hl in Et1. cbv zeta in Et1. replace (4 - (4 - S k))%nat with (S k) in Et1 by lia.
      destruct (_ <? _)%nat; [|done]. cbn [andb] in Et1. destruct (present (word v (t + 8 * i))) eqn:Ep; [|done]. cbn [andb] in Et1.
      destruct (leafb (S k) (word v (t + 8 * i))) eqn:Elf; [done|]. injection Et1 as <-.
      assert (visited (S k) (word v (t + 8 * i)) = true) as ->.
      { unfold visited. rewrite Ep. unfold leafb in Elf. apply orb_false_iff in Elf as [_ Elf].
        destruct (Nat.ltb_spec (S k) 4); [|lia]. cbn [andb] in *. by rewrite Elf, orb_true_r. }
      right. apply (IH (q ++ [i]) _ (j' :: r)); [lia|rewrite length_app; cbn; lia|done|done|]. by rewrite <- app_assoc.
Qed.

Lemma user_refs_complete q e : leads v root q e -> user_half q -> e ∈ user_refs v root.
Proof.
  intros Hl Hu. destruct q as [|i r]; [done|]. cbn in Hu. pose proof Hl as (p & j & t' & E & Hidx & Ht' & He & Hpr & Hc).
  apply Forall_cons in Hidx as [Hi Hidx]. apply elem_of_flat_map. exists i. split; [apply elem_of_seqZ; lia|]. cbv zeta.
  destruct r as [|j' r].
  - destruct p as [|a p]; [|by apply (f_equal length) in E; rewrite length_app in E; cbn in E; lia]. injection E as <-. injection Ht' as <-.
    rewrite <- He, Hpr. left.
  - assert (exists s, p = [i] ++ s) as [s Es].
    { destruct p as [|a p]; [done|]. injection E as <- _. by exists p. }
    destruct (tab v 4 root [i]) as [t1|] eqn:Et1; [|rewrite Es, (tab_prefix_None _ _ _ _ s Et1) in Ht'; done].
    pose proof Et1 as Et2. cbn [tab] in Et1. destruct (present (word v (root + 8 * i))) eqn:Ep; [|done]. cbn in Et1. injection Et1 as <-.
    right. by apply (refs_complete 3 [i] _ (j' :: r)); [lia|..].
Qed.
End user.


(** ** Two owners *)

Lemma mark_entry_cow e : mark_entry e = cow_entry e.
Proof.
  apply Z.bits_inj'. intros i Hi. rewrite cow_entry_bit by done. unfold mark_entry.
  rewrite Z.lor_spec, Z.land_spec, Z.lnot_spec by done. change PAGE_FLAG_COW with (2 ^ 9). change PAGE_FLAG_RW with (2 ^ 1).
  rewrite !flag_bit by lia. destruct (Z.eqb_spec i 9), (Z.eqb_spec i 1); try lia; by destruct (Z.testbit _ _).
Qed.

(** Tables whose entries keep their targets are the same tables. *)
Lemma tab_target v v' root : words64 v -> words64 v' ->
  (forall p t i, idxs p -> 0 <= i < 512 -> tab v 4 root p = Some t -> same_target (word v (t + 8 * i)) (word v' (t + 8 * i))) ->
  forall p, idxs p -> tab v' 4 root p = tab v 4 root p.
Proof.
  intros H64 H64' Hst. induction p as [|i p IH] using rev_ind; intros Hp; [done|]. apply Forall_app in Hp as [Hp Hi].
  apply Forall_cons in Hi as [Hi _]. rewrite !tab_snoc, IH by done. destruct (tab v 4 root p) as [t|] eqn:Et; [|done]. cbv zeta.
  pose proof (Hst p t i Hp Hi Et) as Hs. rewrite (st_present _ _ Hs). destruct (present (word v (t + 8 * i))) eqn:Ep; [|by rewrite andb_false_r].
  by rewrite (same_target_leaf _ _ _ Hs Ep), (same_target_table _ _ (H64 _) (H64' _) Hs Ep).
Qed.

Section copy.
Context (v v' : vm) (root new tlp : Z).
Hypothesis Hsp : space v root.
Hypothesis H64 : words64 v.
Hypothesis Hup : user_pages (fun _ => False) root v.
Hypothesis Hnew : table_ok v new.
Hypothesis Htlp : table_ok v tlp.
Hypothesis Hdiff : new <> tlp.
Hypothesis Hfresh : forall p t, idxs p -> tab v 4 root p = Some t -> t <> new /\ t <> tlp.
Hypothesis Hpages : forall va e, user va -> page_entry root v va = Some e -> frame e <> frame new /\ frame e <> frame tlp.

(** The frames of the user memory. *)
Definition user_frame (f : Z) : Prop := f ∈ map frame (user_refs v root).

Definition marked (a : Z) : Z :=
  if (root <=? a) && (a <? root + 8 * 256) && present (word v a) then cow_entry (word v a) else word v a.

Hypothesis Hok' : frames_ok v'.
Hypothesis Hlen' : zlen (table v') = zlen (table v).
Hypothesis H64' : words64 v'.
Hypothesis Hcounts : forall f, frame_count v' f = frame_count v f + if decide (f ∈ map frame (user_refs v root)) then 1 else 0.
Hypothesis Hwords : forall b, b mod 8 = 0 -> word v' b =
  if b =? new + 8 * 506 then Z.lor tlp user_flags else
  if frame b =? frame new then marked (root + (b - new)) else
  if frame b =? frame tlp then 0 else marked b.

Lemma marked_target a : same_target (word v a) (marked a).
Proof. unfold marked. destruct (_ && _); [apply cow_entry_ok, H64|apply same_target_refl]. Qed.

Lemma slot_frame_of t i : t mod PAGE_SIZE = 0 -> 0 <= i < 512 -> frame (t + 8 * i) = frame t.
Proof. unfold frame. intros. divlia. Qed.

Lemma parent_word p t i : idxs p -> 0 <= i < 512 -> tab v 4 root p = Some t -> word v' (t + 8 * i) = marked (t + 8 * i).
Proof.
  intros Hp Hi Ht. pose proof (tr_table _ _ (proj2 Hsp) p t Hp Ht) as [K1 K2 K3 K4]. destruct (Hfresh p t Hp Ht) as [D1 D2].
  pose proof (to_aligned _ _ Hnew) as A1. pose proof (to_aligned _ _ Htlp) as A2.
  rewrite Hwords by (by apply slot_aligned). rewrite slot_frame_of by done. unfold frame.
  destruct (Z.eqb_spec (t + 8 * i) (new + 8 * 506)) as [E|_]; [destruct D1; divlia|].
  destruct (Z.eqb_spec (t / PAGE_SIZE) (new / PAGE_SIZE)) as [E|_]; [destruct D1; divlia|].
  destruct (Z.eqb_spec (t / PAGE_SIZE) (tlp / PAGE_SIZE)) as [E|_]; [destruct D2; divlia|]. done.
Qed.

Lemma parent_target p t i : idxs p -> 0 <= i < 512 -> tab v 4 root p = Some t -> same_target (word v (t + 8 * i)) (word v' (t + 8 * i)).
Proof. intros Hp Hi Ht. rewrite (parent_word p) by done. apply marked_target. Qed.

Lemma parent_tab p : idxs p -> tab v' 4 root p = tab v 4 root p.
Proof. apply tab_target; [done|done|]. apply parent_target. Qed.

Lemma root_table : table_ok v root.
Proof. eapply tr_table; [apply Hsp|constructor|done]. Qed.

Lemma child_word i : 0 <= i < 512 -> word v' (new + 8 * i) = if i =? 506 then Z.lor tlp user_flags else word v' (root + 8 * i).
Proof.
  intros Hi. rewrite (parent_word [] root i) by (done || constructor). pose proof (to_aligned _ _ Hnew) as A1.
  rewrite Hwords by (by apply slot_aligned). rewrite slot_frame_of, Z.eqb_refl by done. replace (new + 8 * i - new) with (8 * i) by lia.
  destruct (Z.eqb_spec (new + 8 * i) (new + 8 * 506)), (Z.eqb_spec i 506); try lia; done.
Qed.

Lemma tlp_word i : 0 <= i < 512 -> word v' (tlp + 8 * i) = 0.
Proof.
  intros Hi. pose proof (to_aligned _ _ Hnew) as A1. pose proof (to_aligned _ _ Htlp) as A2.
  rewrite Hwords by (by apply slot_aligned). rewrite slot_frame_of, Z.eqb_refl by done. unfold frame.
  destruct (Z.eqb_spec (tlp + 8 * i) (new + 8 * 506)) as [E|_]; [destruct Hdiff; divlia|].
  by destruct (Z.eqb_spec (tlp / PAGE_SIZE) (new / PAGE_SIZE)) as [E|_]; [destruct Hdiff; divlia|].
Qed.

Lemma tlp_entry : present (Z.lor tlp user_flags) = true /\ table_addr (Z.lor tlp user_flags) = tlp.
Proof.
  destruct Htlp as [A1 A2 A3 _]. destruct Hsp as [[_ _ _ _ _ Hsz _ _] _]. split.
  - by rewrite present_bit, Z.lor_spec, orb_true_r.
  - apply table_addr_lor; [divlia|done|]. vm_compute. intuition discriminate.
Qed.

(** The tables of the child. *)
Lemma child_tab p t : idxs p -> tab v' 4 new p = Some t ->
  p = [] /\ t = new \/ p = [506] /\ t = tlp \/ (exists i q, p = i :: q /\ i <> 506 /\ tab v 4 root p = Some t).
Proof.
  intros Hp Ht. destruct p as [|i q]; [injection Ht as <-; by left|]. pose proof Hp as Hiq. apply Forall_cons in Hiq as [Hi Hq].
  destruct (Z.eq_dec i 506) as [->|Hne].
  - cbn [tab] in Ht. rewrite (child_word 506 Hi) in Ht. cbn [Z.eqb Pos.eqb] in Ht. destruct tlp_entry as [E1 E2]. rewrite E1, E2 in Ht.
    cbn [leafb Nat.eqb Nat.ltb Nat.leb andb orb negb] in Ht.
    destruct q as [|j q]; [injection Ht as <-; right; by left|]. apply Forall_cons in Hq as [Hj _]. cbn [tab] in Ht. by rewrite tlp_word in Ht.
  - right. right. exists i, q. split_and!; [done|done|]. rewrite <- parent_tab by done. cbn [tab] in *. rewrite (child_word i Hi) in Ht.
    by destruct (Z.eqb_spec i 506).
Qed.

Lemma child_tab_user p : idxs p -> user_half p -> tab v' 4 new p = tab v 4 root p.
Proof.
  intros Hp Hu. rewrite <- parent_tab by done. destruct p as [|i q]; [done|]. cbn in Hu. apply Forall_cons in Hp as [Hi Hq].
  cbn [tab]. rewrite (child_word i Hi). destruct (Z.eqb_spec i 506); [lia|done].
Qed.

Lemma user_tab_frame p t : idxs p -> user_half p -> tab v 4 root p = Some t -> user_frame (frame t).
Proof.
  intros Hp Hu Ht. destruct (exists_last (l := p) ltac:(by destruct p)) as (p' & i & ->).
  pose proof Ht as Ht2. rewrite tab_snoc in Ht2. destruct (tab v 4 root p') as [t'|] eqn:Et; [|done]. cbv zeta in Ht2.
  destruct (Nat.ltb_spec (length p') 4); [|done]. cbn [andb] in Ht2. destruct (present (word v (t' + 8 * i))) eqn:Ep; [|done].
  cbn [andb] in Ht2. destruct (leafb (4 - length p') (word v (t' + 8 * i))) eqn:El; [done|]. injection Ht2 as <-.
  assert (leads v root (p' ++ [i]) (word v (t' + 8 * i))) as Hl.
  { exists p', i, t'. split_and!; try done. destruct (Nat.eq_dec (length p') 3%nat) as [E3|]; [|right; split; [lia|done]]. rewrite E3 in El. done. }
  destruct (leads_cases v root H64 _ _ Hl Hu) as (_ & Ef & _). rewrite Ef. apply list_elem_of_In, in_map, list_elem_of_In.
  by eapply user_refs_complete.
Qed.

Lemma user_frame_cases f : user_frame f -> 0 < frame_count v f /\ 2 <= frame_count v' f /\
  exists q, user_half q /\ idxs q /\ (exists t, tab v 4 root q = Some t /\ frame t = f) \/
  (exists va e, user va /\ page_entry root v va = Some e /\ frame e = f).
Proof.
  intros Hf. pose proof Hf as Hf2. apply list_elem_of_In, in_map_iff in Hf as (e & <- & He). apply list_elem_of_In in He.
  destruct (user_refs_leads v root e He) as (q & Hu & Hl).
  destruct (leads_cases v root H64 q e Hl Hu) as (Hidx & Ef & Hc).
  assert (0 < frame_count v (frame e)) as Hpos.
  { destruct Hc as [Ht|(Hpe & _ & Hus)]; [rewrite <- Ef; by apply (to_used _ _ (tr_table _ _ (proj2 Hsp) q _ Hidx Ht))|].
    by apply (up_ok _ _ _ Hup _ _ Hus Hpe). }
  split; [done|]. split; [rewrite Hcounts, decide_True by done; lia|]. exists q.
  destruct Hc as [Ht|(Hpe & _ & Hus)]; [left; split_and!; try done; by eexists|right; by eexists _, e].
Qed.

(** User frames are no tables of the upper half, and not the root. *)
Lemma upper_tab_frame p t : idxs p -> ~ user_half p -> tab v 4 root p = Some t -> ~ user_frame (frame t).
Proof.
  intros Hp Hn Ht Hf. destruct (user_frame_cases _ Hf) as (_ & _ & q & [(Hu & Hq & t' & Ht' & Ef)|(va & e & Hva & Hpe & Ef)]).
  - destruct Hsp as [_ [T1 T2]]. pose proof (to_aligned _ _ (T1 p t Hp Ht)). pose proof (to_aligned _ _ (T1 q t' Hq Ht')). unfold frame in Ef.
    assert (t' = t) as -> by divlia. by rewrite (T2 p q t Hp Hq Ht Ht') in Hn.
  - by destruct (up_tab _ _ _ Hup va e p t Hva Hpe Hp Ht).
Qed.

Lemma new_frames : ~ user_frame (frame new) /\ ~ user_frame (frame tlp).
Proof.
  assert (forall x, table_ok v x -> (forall p t, idxs p -> tab v 4 root p = Some t -> t <> x) ->
    (forall va e, user va -> page_entry root v va = Some e -> frame e <> frame x) -> ~ user_frame (frame x)) as Hx.
  { intros x [X1 _ _ _] Htab Hpg Hf. destruct (user_frame_cases _ Hf) as (_ & _ & q & [(Hu & Hq & t' & Ht' & Ef)|(va & e & Hva & Hpe & Ef)]).
    - pose proof (to_aligned _ _ (tr_table _ _ (proj2 Hsp) q t' Hq Ht')). destruct (Htab q t' Hq Ht'). unfold frame in Ef. divlia.
    - by destruct (Hpg va e Hva Hpe). }
  split; apply Hx; try done; intros; by eapply Hfresh || by eapply Hpages.
Qed.

Lemma counts_grow f : frame_count v f <= frame_count v' f.
Proof. rewrite Hcounts. case_decide; lia. Qed.

(** Entries of the root of either owner. *)
Lemma user_root_entry i : 0 <= i < 256 -> present (word v' (root + 8 * i)) = true ->
  cow (word v' (root + 8 * i)) = true /\ rw (word v' (root + 8 * i)) = false.
Proof.
  intros Hi Hp. pose proof (parent_word [] root i ltac:(constructor) ltac:(lia) eq_refl) as E. rewrite E in Hp |- *. unfold marked in *.
  destruct (Z.leb_spec root (root + 8 * i)), (Z.ltb_spec (root + 8 * i) (root + 8 * 256)); try lia. cbn [andb] in *.
  destruct (present (word v (root + 8 * i))) eqn:Ep; [|congruence]. by apply cow_entry_ok.
Qed.

Lemma half_snoc p i : p <> [] -> user_half (p ++ [i]) -> user_half p.
Proof. by destruct p. Qed.

Lemma parent_sharing : sharing user_frame root v'.
Proof.
  split; [|done| | | |].
  - split; [done|]. split.
    + intros p t Hp Ht. rewrite parent_tab in Ht by done. eapply table_ok_counts; [done|apply counts_grow|]. by eapply tr_table; [apply Hsp|..].
    + intros p q t Hp Hq H1 H2. rewrite parent_tab in H1, H2 by done. by eapply (tr_inj _ _ (proj2 Hsp)).
  - apply (upper_tab_frame [] root); [apply Forall_nil_2|intros []|done].
  - intros f Hf. destruct (user_frame_cases f Hf) as (_ & H2 & _). lia.
  - intros p t Hp Ht Hf. by apply user_frame_cases.
  - intros p t i Hp Hi Ht Hu Hns Hpr Hf. rewrite parent_tab in Ht by done. destruct p as [|a p].
    + injection Ht as <-. cbn in Hu. apply user_root_entry; [lia|done].
    + destruct Hns. by eapply (user_tab_frame (a :: p)).
Qed.

Lemma child_space : space v' new.
Proof.
  pose proof counts_grow as Hc. split; [done|]. split.
  - intros p t Hp Ht. destruct (child_tab p t Hp Ht) as [[-> ->] | [[-> ->] | (i & q & _ & _ & Ht')]]; (eapply table_ok_counts; [done|done|]); [done|done|].
    by eapply tr_table; [apply Hsp|..].
  - intros p q t Hp Hq H1 H2.
    destruct (child_tab p t Hp H1) as [[-> ->] | [[-> ->] | (i & r & -> & D1 & Ht1)]], (child_tab q _ Hq H2) as [[-> E] | [[-> E] | (j & s & -> & D2 & Ht2)]]; try done.
    + by destruct (Hfresh _ _ Hq Ht2).
    + by destruct (Hfresh _ _ Hq Ht2).
    + subst t. by destruct (Hfresh _ _ Hp Ht1).
    + subst t. by destruct (Hfresh _ _ Hp Ht1).
    + by eapply (tr_inj _ _ (proj2 Hsp)).
Qed.

Lemma child_sharing : sharing user_frame new v'.
Proof.
  split; [apply child_space|done|apply new_frames| | |].
  - intros f Hf. destruct (user_frame_cases f Hf) as (_ & H2 & _). lia.
  - intros p t Hp Ht Hf. by apply user_frame_cases.
  - intros p t i Hp Hi Ht Hu Hns Hpr Hf. destruct p as [|a p].
    + injection Ht as <-. cbn in Hu. rewrite (child_word i Hi) in *. destruct (Z.eqb_spec i 506); [lia|]. apply user_root_entry; [lia|done].
    + destruct Hns. rewrite child_tab_user in Ht by done. by eapply (user_tab_frame (a :: p)).
Qed.

Lemma parent_page va : same_page_entry (page_entry root v va) (page_entry root v' va).
Proof.
  unfold page_entry. pose proof (vpath_idxs va 3) as Hp. rewrite parent_tab by done.
  destruct (tab v 4 root (take 3 (vpath va))) as [t|] eqn:Et; [|done]. cbv zeta. pose proof (idx_range 1 va) as Hi.
  pose proof (parent_target _ t _ Hp Hi Et) as Hst. rewrite (st_present _ _ Hst).
  destruct (present (word v (t + 8 * idx 1 va))) eqn:Ep; [|done]. by apply Hst.
Qed.

Lemma child_page va : user va -> page_entry new v' va = page_entry root v' va.
Proof.
  intros Hva. unfold page_entry. pose proof (vpath_idxs va 3) as Hp. rewrite child_tab_user by (try done; by apply (user_path va 2)).
  by rewrite <- parent_tab.
Qed.

Lemma parent_user_pages : user_pages user_frame root v'.
Proof.
  assert (forall va e', page_entry root v' va = Some e' -> exists e, page_entry root v va = Some e /\ frame e' = frame e) as Hback.
  { intros va e' He'. pose proof (parent_page va) as Hs. rewrite He' in Hs. destruct (page_entry root v va) as [e|]; [|done]. by exists e. }
  unfold frame in Hback. split.
  - intros va e' Hva He'. destruct (Hback va e' He') as (e & He & ->). destruct (up_ok _ _ _ Hup va e Hva He) as (U1 & U2 & _).
    rewrite Hlen'. pose proof (counts_grow (e / PAGE_SIZE)). split_and!; [lia|lia|lia|]. intros Hf. by apply user_frame_cases.
  - intros va e' p t Hva He' Hp Ht. destruct (Hback va e' He') as (e & He & ->). rewrite parent_tab in Ht by done. by apply (up_tab _ _ _ Hup va e p).
  - intros va va' e1 e2 Hva Hva' H1 H2. destruct (Hback va e1 H1) as (e & He & ->), (Hback va' e2 H2) as (e' & He' & ->). by apply (up_inj _ _ _ Hup).
Qed.

Lemma child_user_pages : user_pages user_frame new v'.
Proof.
  destruct parent_user_pages as [U1 U2 U3]. split.
  - intros va e Hva He. rewrite child_page in He by done. by apply (U1 va).
  - intros va e p t Hva He Hp Ht. rewrite child_page in He by done.
    destruct (child_tab p t Hp Ht) as [[-> ->] | [[-> ->] | (i & q & _ & _ & Ht')]].
    3: { apply (U2 va e p t Hva He Hp). by rewrite parent_tab. }
    all: pose proof (parent_page va) as Hs; rewrite He in Hs; destruct (page_entry root v va) as [e0|] eqn:E0; [|done]; cbn in Hs; rewrite Hs;
      destruct (Hpages va e0 Hva E0); unfold frame in *; congruence.
  - intros va va' e e' Hva Hva' H1 H2. rewrite child_page in H1, H2 by done. by apply U3.
Qed.

(** Both translate as the parent did. *)
Lemma copy_walk va : user va -> walk v' 4 root va = walk v 4 root va /\ walk v' 4 new va = walk v 4 root va.
Proof.
  intros Hva. assert (walk v' 4 root va = walk v 4 root va) as H1.
  { apply walk_rel. intros k t t' Hk Ht Ht' e e'. pose proof (vpath_idxs va (4 - k)) as Hp. rewrite parent_tab, Ht in Ht' by done. injection Ht' as <-.
    pose proof (parent_target _ t _ Hp (idx_range k va) Ht) as Hst. fold e e' in Hst.
    split_and!; [apply Hst|by apply same_target_leaf|]. intros Hpr _. by apply same_target_align; [lia|apply H64|apply H64'|..]. }
  split; [done|]. rewrite <- H1. cbn [walk]. rewrite (child_word _ (idx_range 4 va)).
  pose proof (user_path va 0 Hva) as Hu. cbn in Hu. destruct (Z.eqb_spec (idx 4 va) 506); [lia|done].
Qed.
End copy.

(** ** Running the code *)

Lemma words64_aligned v : (forall b, b mod 8 = 0 -> 0 <= word v b < 2 ^ 64) -> words64 v.
Proof.
  intros H b. assert (word v b = word v (b / 8 * 8)) as -> by (unfold word; by rewrite Z.div_mul). apply H. by apply Z.mod_mul.
Qed.

Lemma mark_loop n : forall v root i, frames_ok v -> table_ok v root -> words64 v -> 0 <= i -> i + Z.of_nat n = 256 ->
  exists v', each_entry (fun slot e => if present e then store slot (mark_entry e) else mret tt) n root i v = Some (tt, v') /\
    v' = set_mem v (mem v') /\ words64 v' /\
    forall b, b mod 8 = 0 -> word v' b =
      if (root + 8 * i <=? b) && (b <? root + 8 * 256) && present (word v b) then cow_entry (word v b) else word v b.
Proof.
  induction n as [|n IH]; intros v root i Hok Ht H64 Hi Hn; cbn [each_entry].
  { exists v. split_and!; [done|by destruct v|done|]. intros b _. destruct (Z.leb_spec (root + 8 * i) b), (Z.ltb_spec b (root + 8 * 256)); try lia; done. }
  rewrite (bind_run _ _ _ _ _ (load_slot v root i Hok Ht ltac:(lia))). set (e := word v (root + 8 * i)).
  pose proof (to_aligned _ _ Ht) as Al.
  assert (exists v1, (if present e then store (root + 8 * i) (mark_entry e) else mret tt) v = Some (tt, v1) /\ v1 = set_mem v (mem v1) /\
    words64 v1 /\ forall b, b mod 8 = 0 -> word v1 b = if (b =? root + 8 * i) && present e then cow_entry e else word v b)
    as (v1 & H1 & E1 & W1 & X1).
  { destruct (present e).
    - destruct (cow_entry_ok e (H64 _)) as (Eu & Er & _). eexists. split; [by apply store_slot; [..|lia]|]. split; [done|]. rewrite mark_entry_cow.
      assert (forall b, b mod 8 = 0 -> word (set_mem v (<[(root + 8 * i) / 8 := u64 (cow_entry e)]> (mem v))) b =
        if (b =? root + 8 * i) && true then cow_entry e else word v b) as Hw.
      { intros b Hb. rewrite word_store by (done || by apply slot_aligned). by rewrite Eu, andb_true_r. }
      split; [|done]. apply words64_aligned. intros b Hb. rewrite Hw by done. destruct (_ && _); [done|apply H64].
    - exists v. split_and!; [done|by destruct v|done|]. intros b _. by rewrite andb_false_r. }
  rewrite (bind_run _ _ _ _ _ H1).
  destruct (IH v1 root (i + 1)) as (v' & H2 & E2 & W2 & X2); [rewrite E1; by apply frames_ok_mem|rewrite E1; by apply table_ok_mem|done|lia|lia|].
  exists v'. split; [done|]. split; [rewrite E2; cbn [mem set_mem]; by rewrite E1|]. split; [done|].
  intros b Hb. rewrite X2, !X1 by done. destruct (Z.eqb_spec b (root + 8 * i)) as [->|Hne]; cbn [andb].
  - fold e. destruct (Z.leb_spec (root + 8 * (i + 1)) (root + 8 * i)), (Z.leb_spec (root + 8 * i) (root + 8 * i)), (Z.ltb_spec (root + 8 * i) (root + 8 * 256)); try lia.
    done.
  - assert ((root + 8 * (i + 1) <=? b) = (root + 8 * i <=? b)) as -> by divlia. done.
Qed.

(** The lists depend on the words of the tables alone. *)
Lemma refs_agree v w root k : forall q t, (k <= 3)%nat -> idxs q -> length q = (4 - k)%nat -> tab v 4 root q = Some t ->
  (forall p t i, idxs p -> q `prefix_of` p -> 0 <= i < 512 -> tab v 4 root p = Some t -> word w (t + 8 * i) = word v (t + 8 * i)) ->
  refs w k t = refs v k t.
Proof.
  induction k as [|k IH]; intros q t Hk Hq Hl Ht Hw; [done|]. rewrite !refs_S, !flat_map_concat_map. f_equal. apply map_ext_in.
  intros i Hi. apply list_elem_of_In, elem_of_seqZ in Hi. cbv zeta. rewrite (Hw q t i Hq ltac:(done) ltac:(lia) Ht).
  destruct (visited (S k) (word v (t + 8 * i))) eqn:Ev; [|done]. f_equal. destruct k as [|k]; [done|].
  assert (idxs (q ++ [i])) as Hqi by (apply Forall_app; split; [done|constructor; [lia|constructor]]).
  apply (IH (q ++ [i])); [lia|done|rewrite length_app; cbn; lia|by apply (visited_tab v root k)|].
  intros p t' j Hp Hpre. apply (Hw p); [done|]. etrans; [|exact Hpre]. by exists [i].
Qed.

Section run.
Context (v : vm) (root new tlp : Z).
Hypothesis Hsp : space v root.
Hypothesis H64 : words64 v.
Hypothesis Hup : user_pages (fun _ => False) root v.
Hypothesis Hnew : table_ok v new.
Hypothesis Htlp : table_ok v tlp.
Hypothesis Hdiff : new <> tlp.
Hypothesis Hfresh : forall p t, idxs p -> tab v 4 root p = Some t -> t <> new /\ t <> tlp.
Hypothesis Hpages : forall va e, user va -> page_entry root v va = Some e -> frame e <> frame new /\ frame e <> frame tlp.
Hypothesis Hmax : forall f, user_frame v root f -> frame_count v f < 2 ^ 32 - 1.

(** After the marking. *)
Context (w : vm).
Hypothesis Hw : w = set_mem v (mem w).
Hypothesis H64w : words64 w.
Hypothesis Hwords : forall b, b mod 8 = 0 -> word w b = if frame b =? frame tlp then 0 else marked v root b.

Lemma w_word p t i : idxs p -> 0 <= i < 512 -> tab v 4 root p = Some t -> word w (t + 8 * i) = marked v root (t + 8 * i).
Proof.
  intros Hp Hi Ht. pose proof (tr_table _ _ (proj2 Hsp) p t Hp Ht) as [K1 K2 K3 K4]. destruct (Hfresh p t Hp Ht) as [_ D2].
  pose proof (to_aligned _ _ Htlp) as A2. rewrite Hwords by (by apply slot_aligned). unfold frame.
  destruct (Z.eqb_spec ((t + 8 * i) / PAGE_SIZE) (tlp / PAGE_SIZE)) as [E|_]; [destruct D2; divlia|done].
Qed.

Lemma w_lower p t i : idxs p -> p <> [] -> 0 <= i < 512 -> tab v 4 root p = Some t -> word w (t + 8 * i) = word v (t + 8 * i).
Proof.
  intros Hp Hne Hi Ht. rewrite (w_word p) by done. unfold marked. destruct Hsp as [_ [T1 T2]].
  pose proof (to_aligned _ _ (T1 p t Hp Ht)) as A1. pose proof (to_aligned _ _ (T1 [] root ltac:(apply Forall_nil_2) eq_refl)) as A2.
  destruct (Z.leb_spec root (t + 8 * i)), (Z.ltb_spec (t + 8 * i) (root + 8 * 256)); try done. destruct Hne.
  assert (t = root) as -> by divlia. by apply (T2 p [] root Hp); [apply Forall_nil_2|..].
Qed.

Lemma w_tab p : idxs p -> tab w 4 root p = tab v 4 root p.
Proof.
  apply tab_target; [done|done|]. intros p' t i Hp Hi Ht. rewrite (w_word p') by done. by apply marked_target.
Qed.

Lemma w_space : space w root.
Proof.
  split; [rewrite Hw; apply frames_ok_mem, Hsp|]. split.
  - intros p t Hp Ht. rewrite w_tab in Ht by done. rewrite Hw. apply table_ok_mem. by eapply tr_table; [apply Hsp|..].
  - intros p q t Hp Hq H1 H2. rewrite w_tab in H1, H2 by done. by eapply (tr_inj _ _ (proj2 Hsp)).
Qed.

Lemma w_entry i : 0 <= i < 256 -> let e := word v (root + 8 * i) in let e' := word w (root + 8 * i) in
  present e' = present e /\ (present e = true -> frame e' = frame e /\ table_addr e' = table_addr e).
Proof.
  intros Hi e e'. assert (same_target e e') as Hs.
  { unfold e'. rewrite (w_word [] root i ltac:(apply Forall_nil_2) ltac:(lia) eq_refl). by apply marked_target. }
  split; [apply Hs|]. intros Hp. split; [by apply Hs|]. apply same_target_table; [apply H64|apply H64w|done|done].
Qed.

Lemma w_refs : map frame (user_refs w root) = map frame (user_refs v root).
Proof.
  unfold user_refs. rewrite !map_flat_map, !flat_map_concat_map. f_equal. apply map_ext_in. intros i Hi.
  apply list_elem_of_In, elem_of_seqZ in Hi. cbv zeta. destruct (w_entry i ltac:(lia)) as [E1 E2]. cbv zeta in E1, E2. rewrite E1.
  destruct (present (word v (root + 8 * i))) eqn:Ep; [|done]. destruct (E2 eq_refl) as [E3 E4]. cbn [map]. rewrite E3, E4. f_equal. f_equal.
  assert (idxs [i]) as Hidx by (constructor; [lia|constructor]).
  apply (refs_agree v w root 3 [i]); [lia|done|done|by apply root_entry_leads; [lia|]|].
  intros p t j Hp Hpre Hj Ht. apply (w_lower p); try done. intros ->. by apply prefix_nil_inv in Hpre.
Qed.

Lemma ref_user_list w' : mem w' = mem w -> mem_size w' = mem_size w -> ref_user root w' = run_list ref_page (user_refs w root) w'.
Proof.
  pose proof w_space as Hspw. pose proof (ref_visits w root Hspw) as (_ & _ & V3). unfold ref_user, user_refs.
  apply (each_entry_list ref_page (fun _ e => if present e then ref_page e;; ref_pdpt (table_addr e) else mret tt) _ 256 root w ref_page_keeps 0).
  - intros j Hj. apply (table_access w root Hspw [] root); [apply Forall_nil_2|done|lia].
  - intros j w1 Hj Hm Hs. cbv zeta. destruct (present (word w (root + 8 * j))) eqn:Ep; [|done].
    destruct (root_entry_leads w root j ltac:(lia) Ep) as [_ Ht]. apply run_list_cons_bind; [apply ref_page_keeps|].
    intros w2 Hm2 Hs2. apply (V3 [j]); [constructor; [lia|constructor]|done|done|congruence|congruence].
Qed.

Lemma w_count f : frame_count w f = frame_count v f.
Proof. by rewrite Hw. Qed.

Lemma ref_user_ok : exists w', ref_user root w = Some (tt, w') /\ frames_ok w' /\ mem w' = mem w /\ mem_size w' = mem_size w /\
  zlen (table w') = zlen (table v) /\
  forall f, frame_count w' f = frame_count v f + if decide (f ∈ map frame (user_refs v root)) then 1 else 0.
Proof.
  rewrite ref_user_list by done. destruct (ref_list_ok (user_refs w root) w) as (w' & H1 & H2 & [D1 D2 D3 D4 D5] & _ & H3).
  - apply w_space.
  - apply Forall_forall. intros e He.
    assert (user_frame v root (frame e)) as Hf by (unfold user_frame; rewrite <- w_refs; by apply list_elem_of_In, in_map, list_elem_of_In).
    destruct (user_refs_leads w root e He) as (q & Hu & Hl).
    assert (0 <= e < 2 ^ 64) as He64 by (destruct Hl as (p & i & t & _ & _ & _ & -> & _); apply H64w).
    assert (0 < frame e < zlen (table v) /\ 0 < frame_count v (frame e)) as [Hr Hc].
    { pose proof Hf as Hf2. apply list_elem_of_In, in_map_iff in Hf2 as (e0 & Ef & He0). apply list_elem_of_In in He0. rewrite <- Ef.
      destruct (user_refs_leads v root e0 He0) as (q0 & Hu0 & Hl0). destruct (leads_cases v root H64 q0 e0 Hl0 Hu0) as (Hidx & Ef0 & Hcs).
      destruct Hcs as [Ht|(Hpe & _ & Hus)].
      - rewrite <- Ef0. destruct (tr_table _ _ (proj2 Hsp) q0 _ Hidx Ht) as [K1 K2 K3 K4]. unfold frame. split; [divlia|done].
      - destruct (up_ok _ _ _ Hup _ _ Hus Hpe) as (U1 & U2 & _). by split. }
    split; [unfold frame in *; divlia|]. rewrite w_count. rewrite Hw at 1. cbn [table set_mem]. specialize (Hmax _ Hf). lia.
  - rewrite w_refs. by eapply user_refs_nodup.
  - exists w'. split_and!; try done; [rewrite D3, Hw; done|]. intros f. by rewrite H3, w_refs, w_count.
Qed.
End run.

(** ** Forking *)

(** What [thread_clone] relies on: [root] is the PML4T of the thread, [new] and
    [tlp] are the frames that were just allocated, and no frame of the thread has
    so many owners that its count would overflow. *)
Record cloneable (v : vm) (root new tlp : Z) : Prop := {
  cl_space : space v root;
  cl_words : words64 v;
  cl_pages : user_pages (fun _ => False) root v;
  cl_new : table_ok v new;
  cl_tlp : table_ok v tlp;
  cl_diff : new <> tlp;
  cl_fresh : forall p t, idxs p -> tab v 4 root p = Some t -> t <> new /\ t <> tlp;
  cl_unmapped : forall va e, user va -> page_entry root v va = Some e -> frame e <> frame new /\ frame e <> frame tlp;
  cl_max : forall f, user_frame v root f -> frame_count v f < 2 ^ 32 - 1
}.

Record shared_copy (v v' : vm) (root new tlp : Z) : Prop := {
  sc_frames : frames_ok v';
  sc_len : zlen (table v') = zlen (table v);
  sc_words64 : words64 v';
  sc_counts : forall f, frame_count v' f = frame_count v f + if decide (f ∈ map frame (user_refs v root)) then 1 else 0;
  sc_words : forall b, b mod 8 = 0 -> word v' b =
    if b =? new + 8 * 506 then Z.lor tlp user_flags else
    if frame b =? frame new then marked v root (root + (b - new)) else
    if frame b =? frame tlp then 0 else marked v root b
}.

Lemma share_memory_ok v root new tlp : cloneable v root new tlp ->
  exists v', share_memory true root new tlp v = Some (tt, v') /\ shared_copy v v' root new tlp.
Proof.
  intros [Hsp H64 Hup Hnew Htlp Hdiff Hfresh Hpages Hmax]. pose proof Hsp as [Hok Htr].
  pose proof (root_table v root Hsp) as Hroot. destruct (Hfresh [] root (Forall_nil_2 _) eq_refl) as [Drn Drt].
  pose proof (to_aligned _ _ Hnew) as An. pose proof (to_aligned _ _ Htlp) as At. pose proof (to_aligned _ _ Hroot) as Ar.
  unfold share_memory. assert (zero_frame tlp v = Some (tt, set_mem v (fill (mem v) tlp (fun _ => 0) 512))) as Hz by (unfold zero_frame; by rewrite frame_access).
  rewrite (bind_run _ _ _ _ _ Hz). set (w1 := set_mem v _).
  assert (forall b, b mod 8 = 0 -> word w1 b = if frame b =? frame tlp then 0 else word v b) as Hw1.
  { intros b Hb. unfold w1. rewrite word_fill by (done || divlia). change (8 * Z.of_nat 512) with PAGE_SIZE. by rewrite in_frame. }
  assert (words64 w1) as H64w1 by (apply words64_aligned; intros b Hb; rewrite Hw1 by done; destruct (_ =? _); [lia|apply H64]).
  destruct (mark_loop 256 w1 root 0) as (w2 & H2 & E2 & H64w2 & X2); [by apply frames_ok_mem|by apply table_ok_mem|done|lia|done|].
  fold (mark_user root) in H2. rewrite (bind_run _ _ _ _ _ H2).
  assert (w2 = set_mem v (mem w2)) as Ew2 by (rewrite E2; done).
  assert (forall b, b mod 8 = 0 -> word w2 b = if frame b =? frame tlp then 0 else marked v root b) as Hw2.
  { intros b Hb. rewrite X2 by done. rewrite Z.mul_0_r, Z.add_0_r. rewrite Hw1 by done. unfold marked. unfold frame in *.
    destruct (Z.eqb_spec (b / PAGE_SIZE) (tlp / PAGE_SIZE)) as [E|]; [by rewrite andb_false_r|done]. }
  destruct (ref_user_ok v root new tlp Hsp H64 Hup Htlp Hfresh Hmax w2 Ew2 H64w2 Hw2) as (w3 & H3 & Hok3 & Em3 & Es3 & El3 & Hc3).
  rewrite (bind_run _ _ _ _ _ H3).
  assert (forall t, table_ok v t -> table_ok w3 t) as Hkeep.
  { intros t [K1 K2 K3 K4]. split; [done|done|congruence|]. rewrite Hc3. case_decide; lia. }
  assert (copy_frame new root w3 = Some (tt, set_mem w3 (fill (mem w3) new (fun i => word w3 (root + 8 * i)) 512))) as Hcp.
  { unfold copy_frame. pose proof (frame_access w3 new Hok3 (Hkeep _ Hnew)) as F1. pose proof (frame_access w3 root Hok3 (Hkeep _ Hroot)) as F2.
    by rewrite F1, <- andb_assoc, F2. }
  rewrite (bind_run _ _ _ _ _ Hcp). set (w4 := set_mem w3 _).
  assert (forall b, b mod 8 = 0 -> word w4 b = if frame b =? frame new then marked v root (root + (b - new)) else
    if frame b =? frame tlp then 0 else marked v root b) as Hw4.
  { intros b Hb. unfold w4. rewrite word_fill by (done || divlia). change (8 * Z.of_nat 512) with PAGE_SIZE. rewrite in_frame by done.
    fold (frame b) (frame new). unfold word. rewrite Em3. destruct (Z.eqb_spec (frame b) (frame new)) as [E|]; [|by apply Hw2].
    assert (8 * ((b - new) / 8) = b - new) as -> by divlia. fold (word w2 (root + (b - new))). rewrite Hw2 by divlia. unfold frame in *.
    destruct (Z.eqb_spec ((root + (b - new)) / PAGE_SIZE) (tlp / PAGE_SIZE)); [divlia|done]. }
  change (PML4T_INDEX THREAD_LOCAL_BASE_VMA) with 506.
  rewrite (store_slot w4 new 506); [|by apply frames_ok_mem|by apply table_ok_mem, Hkeep|lia].
  eexists. split; [reflexivity|]. set (v' := set_mem w4 _).
  assert (u64 (Z.lor tlp user_flags) = Z.lor tlp user_flags) as Eu.
  { change user_flags with 7. rewrite page_lor by (done || lia). apply wrap_small. destruct Htlp as [_ ? ? _]. destruct Hok as [_ _ _ _ _ Hsz _ _]. divlia. }
  assert (forall b, b mod 8 = 0 -> word v' b = if b =? new + 8 * 506 then Z.lor tlp user_flags else
    if frame b =? frame new then marked v root (root + (b - new)) else if frame b =? frame tlp then 0 else marked v root b) as Hw.
  { intros b Hb. unfold v'. rewrite word_store, Eu by (try done; by apply slot_aligned). destruct (b =? new + 8 * 506); [done|by apply Hw4]. }
  split; [by do 2 apply frames_ok_mem|done| |done|done].
  apply words64_aligned. intros b Hb. rewrite Hw by done.
  assert (forall a, 0 <= marked v root a < 2 ^ 64) as Hmk by (intros a; unfold marked; destruct (_ && _); [apply cow_entry_ok, H64|apply H64]).
  destruct (b =? new + 8 * 506); [rewrite <- Eu; apply Z.mod_pos_bound; lia|]. destruct (_ =? _); [apply Hmk|]. destruct (_ =? _); [lia|apply Hmk].
Qed.

(** One of two owners faults; [o] is the other. *)
Definition owners (root new r o : Z) : Prop := r = root /\ o = new \/ r = new /\ o = root.

Section owners.
Context (v v' : vm) (root new tlp r o : Z).
Hypothesis Hcl : cloneable v root new tlp.
Hypothesis Hsc : shared_copy v v' root new tlp.
Hypothesis Hro : owners root new r o.

Lemma owner_ok x : x = root \/ x = new -> sharing (user_frame v root) x v' /\ user_pages (user_frame v root) x v'.
Proof.
  destruct Hcl as [Hsp H64 Hup Hnew Htlp Hdiff Hfresh Hpages Hmax], Hsc as [C1 C2 C3 C4 C5]. intros [-> | ->].
  - split; [by apply (parent_sharing v v' root new tlp)|by apply (parent_user_pages v v' root new tlp)].
  - split; [by apply (child_sharing v v' root new tlp)|by apply (child_user_pages v v' root new tlp)].
Qed.

Lemma owner_tab p t : idxs p -> user_half p -> tab v' 4 o p = Some t -> user_frame v root (frame t).
Proof.
  destruct Hcl as [Hsp H64 Hup Hnew Htlp Hdiff Hfresh Hpages Hmax], Hsc as [C1 C2 C3 C4 C5]. intros Hp Hu Ht.
  assert (tab v 4 root p = Some t) as Htv.
  { destruct Hro as [[-> ->] | [-> ->]].
    - by rewrite <- (child_tab_user v v' root new tlp Hsp H64 Hnew Htlp Hdiff Hfresh C3 C5).
    - by rewrite <- (parent_tab v v' root new tlp Hsp H64 Hnew Htlp Hdiff Hfresh C3 C5). }
  by apply (user_tab_frame v root H64 p).
Qed.

Lemma owner_page va e : user va -> page_entry o v' va = Some e -> user_frame v root (frame e).
Proof.
  destruct Hcl as [Hsp H64 Hup Hnew Htlp Hdiff Hfresh Hpages Hmax], Hsc as [C1 C2 C3 C4 C5]. intros Hva He.
  assert (page_entry root v' va = Some e) as He1.
  { destruct Hro as [[-> ->] | [-> ->]]; [|done]. by rewrite <- (child_page v v' root new tlp Hsp H64 Hnew Htlp Hdiff Hfresh C3 C5). }
  pose proof (parent_page v v' root new tlp Hsp H64 Hnew Htlp Hdiff Hfresh C3 C5 va) as Hs. rewrite He1 in Hs.
  destruct (page_entry root v va) as [e0|] eqn:E0; [|done]. cbn in Hs. unfold frame. rewrite Hs.
  unfold page_entry in E0. destruct (tab v 4 root (take 3 (vpath va))) as [t|] eqn:Et; [|done]. cbv zeta in E0.
  destruct (present (word v (t + 8 * idx 1 va))) eqn:Ep; [|done]. injection E0 as <-.
  apply list_elem_of_In, (in_map frame), list_elem_of_In. apply (user_refs_complete v root (vpath va)).
  - exists (take 3 (vpath va)), (idx 1 va), t. split_and!; [done|exact (vpath_idxs va 4)|done|done|done|by left].
  - exact (user_path va 3 Hva).
Qed.

Lemma owner_root : protected (user_frame v root) r v' (frame o).
Proof.
  destruct Hcl as [Hsp H64 Hup Hnew Htlp Hdiff Hfresh Hpages Hmax], Hsc as [C1 C2 C3 C4 C5].
  pose proof (root_table v root Hsp) as Hroot. destruct (Hfresh [] root (Forall_nil_2 _) eq_refl) as [Drn Drt].
  assert (table_ok v o) as Ho by (by destruct Hro as [[-> ->] | [-> ->]]). split.
  - pose proof (to_used _ _ Ho) as Hu. unfold frame. rewrite C4. case_decide; lia.
  - right. intros p t Hp Ht.
    assert (t <> o /\ t mod PAGE_SIZE = 0) as [Hne Hal].
    { split.
      - destruct Hro as [[-> ->] | [-> ->]].
        + rewrite (parent_tab v v' root new tlp Hsp H64 Hnew Htlp Hdiff Hfresh C3 C5) in Ht by done. by destruct (Hfresh p t Hp Ht).
        + destruct (child_tab v v' root new tlp Hsp H64 Hnew Htlp Hdiff Hfresh C3 C5 p t Hp Ht) as [[-> ->] | [[-> ->] | (i & q & -> & _ & Ht')]]; try done.
          intros ->. pose proof (tr_inj _ _ (proj2 Hsp) (i :: q) [] root Hp (Forall_nil_2 _) Ht' eq_refl). done.
      - destruct (owner_ok r) as [Hs _]; [destruct Hro as [[-> ->] | [-> ->]]; [by left|by right]|].
        by apply (to_aligned _ _ (tr_table _ _ (proj2 (sh_space _ _ _ Hs)) p t Hp Ht)). }
    destruct Ho as [Ao _ _ _]. unfold frame. divlia.
Qed.

(** What a fault of [r] leaves to [o]. *)
Lemma other_view v2 va : user va ->
  (forall a, a mod 8 = 0 -> protected (user_frame v root) r v' (a / PAGE_SIZE) -> word v2 a = word v' a) ->
  xlate v2 o va = xlate v' o va /\
  (forall e, page_entry o v' va = Some e -> va mod 8 = 0 -> word v2 (xlate v2 o va) = word v' (xlate v' o va)).
Proof.
  intros Hva Hkeep. assert (o = root \/ o = new) as Hor by (destruct Hro as [[-> ->] | [-> ->]]; [by right|by left]).
  assert (r = root \/ r = new) as Hrr by (destruct Hro as [[-> ->] | [-> ->]]; [by left|by right]).
  destruct (owner_ok o Hor) as [Ho Huo]. destruct (owner_ok r Hrr) as [Hr _].
  assert (forall f, user_frame v root f -> protected (user_frame v root) r v' f) as Hprot.
  { intros f Hf. split; [by apply (sh_used _ _ _ Hr)|by left]. }
  assert (walk v2 4 o va = walk v' 4 o va) as Hwalk.
  { apply walk_agree. intros k t Hk Ht. pose proof (vpath_idxs va (4 - k)) as Hp. pose proof (idx_range k va) as Hi.
    pose proof (tr_table _ _ (proj2 (sh_space _ _ _ Ho)) _ t Hp Ht) as [Al _ _ _]. apply Hkeep; [by apply slot_aligned|].
    replace ((t + 8 * idx k va) / PAGE_SIZE) with (frame t) by (unfold frame; divlia).
    destruct (decide (k = 4%nat)) as [->|Hne]; [injection Ht as <-; apply owner_root|]. apply Hprot. apply (owner_tab (take (4 - k) (vpath va))); [done| |done].
    replace (4 - k)%nat with (S (3 - k)) by lia. by apply user_path. }
  unfold xlate. rewrite user_sign by done. split; [done|]. intros e He Hal. rewrite Hwalk.
  rewrite (page_entry_walk o v' va e He). assert (0 <= e < 2 ^ 64) as He64.
  { unfold page_entry in He. destruct (tab v' 4 o _); [|done]. cbv zeta in He. destruct (present _); [|done]. injection He as <-. apply (sh_words _ _ _ Ho). }
  rewrite page_offset by (by apply table_addr_aligned). pose proof (table_addr_aligned e He64). pose proof (table_addr_div e He64).
  apply Hkeep; [divlia|]. replace ((table_addr e + va mod PAGE_SIZE) / PAGE_SIZE) with (frame e) by (unfold frame; divlia).
  apply Hprot. by apply (owner_page va).
Qed.
End owners.

Lemma shared_contents v v' root new tlp va e : cloneable v root new tlp -> shared_copy v v' root new tlp -> user va ->
  page_entry root v va = Some e -> va mod 8 = 0 -> word v' (xlate v root va) = word v (xlate v root va).
Proof.
  intros [Hsp H64 Hup Hnew Htlp Hdiff Hfresh Hpages Hmax] [C1 C2 C3 C4 C5] Hva He Hal.
  unfold xlate. rewrite user_sign, (page_entry_walk root v va e He) by done. assert (0 <= e < 2 ^ 64) as He64.
  { unfold page_entry in He. destruct (tab v 4 root _); [|done]. cbv zeta in He. destruct (present _); [|done]. injection He as <-. apply H64. }
  pose proof (table_addr_aligned e He64) as Ta. pose proof (table_addr_div e He64) as Td. rewrite page_offset by done.
  set (a := table_addr e + va mod PAGE_SIZE). assert (frame a = frame e /\ a mod 8 = 0) as [Ef Ea] by (unfold frame, a; divlia).
  destruct (Hpages va e Hva He) as [D1 D2]. pose proof (up_tab _ _ _ Hup va e [] root Hva He (Forall_nil_2 _) eq_refl) as D3.
  pose proof (to_aligned _ _ Hnew) as An. pose proof (root_table v root Hsp) as [Ar _ _ _]. rewrite C5 by done.
  destruct (Z.eqb_spec a (new + 8 * 506)) as [E|_]; [destruct D1; rewrite <- Ef, E; unfold frame; divlia|]. rewrite Ef.
  destruct (Z.eqb_spec (frame e) (frame new)); [done|]. destruct (Z.eqb_spec (frame e) (frame tlp)); [done|]. unfold marked.
  destruct (Z.leb_spec root a), (Z.ltb_spec a (root + 8 * 256)); try done. destruct D3. unfold frame in *. divlia.
Qed.

(** C5: Forking makes isolated copies of memory. Sharing the user memory of a
    thread with a new one returns; both then translate every user address as the
    thread did and see the words it saw. From there on a write fault of either of
    the two returns and changes neither a translation nor a word of the other. *)
Theorem fork_isolates v root new tlp : cloneable v root new tlp ->
  exists v1, share_memory true root new tlp v = Some (tt, v1) /\
    (forall va, user va -> xlate v1 root va = xlate v root va /\ xlate v1 new va = xlate v root va) /\
    (forall va e, user va -> page_entry root v va = Some e -> va mod 8 = 0 ->
       word v1 (xlate v root va) = word v (xlate v root va)) /\
    forall r o fuel va err lock, owners root new r o -> user va -> zlen (table v) < Z.of_nat fuel ->
      truthy (Z.land err PAGE_ERR_USER) = true ->
      exists out l v2, int_page_fault fuel r err va lock v1 = Some ((out, l), v2) /\
        forall va', user va' -> xlate v2 o va' = xlate v1 o va' /\
          (forall e, page_entry o v1 va' = Some e -> va' mod 8 = 0 -> word v2 (xlate v2 o va') = word v1 (xlate v1 o va')).
Proof.
  intros Hcl. destruct (share_memory_ok v root new tlp Hcl) as (v1 & H1 & Hsc). exists v1. split; [done|]. split_and!.
  - intros va Hva. unfold xlate. rewrite user_sign by done. destruct Hcl, Hsc. by apply (copy_walk v v1 root new tlp).
  - intros va e Hva He Hal. by eapply shared_contents.
  - intros r o fuel va err lock Hro Hva Hfu Herr.
    destruct (owner_ok v v1 root new tlp Hcl Hsc r) as [Hs Hu]; [destruct Hro as [[-> ->] | [-> ->]]; [by left|by right]|].
    destruct (cow_fault_ok (user_frame v root) r fuel va v1) as (b & v2 & H2 & _ & _ & E3 & _); [by rewrite (sc_len _ _ _ _ _ Hsc)|done|done|done|].
    unfold int_page_fault. rewrite Herr, (bind_run _ _ _ _ _ H2). destruct b; (eexists _, _, v2; split; [reflexivity|]); intros va' Hva'.
    all: by apply (other_view v v1 root new tlp r o Hcl Hsc Hro v2 va' Hva').
Qed.

(** A thread with one page; frames 6 and 7 were allocated for the new thread. *)
Definition demo_fork : vm := demo_vm 0x2007 0x10000 [1; 1; 1; 1; 1; 1; 1; 1; 0; 0; 0; 0; 0; 0; 0; 0] 0x8000 0xf000.

Lemma demo_fork_frames : frames_ok demo_fork.
Proof. frames_demo demo_fork. Qed.

Lemma demo_fork_counts f : 1 <= f <= 5 -> 0 < frame_count demo_fork f /\ f < 16.
Proof. intros Hf. assert (f = 1 \/ f = 2 \/ f = 3 \/ f = 4 \/ f = 5) as [-> | [-> | [-> | [-> | ->]]]] by lia; done. Qed.

Lemma demo_cloneable : cloneable demo_fork 0x1000 0x6000 0x7000.
Proof.
  assert (0x2007 = 0x2205 \/ 0x2007 = 0x2007) as He by (by right). split; [| | | | |done| | |].
  - apply demo_space_of; [done|apply demo_fork_frames|apply demo_fork_counts].
  - by apply demo_words64.
  - by apply demo_user_pages; [|apply demo_fork_counts|].
  - split; done.
  - split; done.
  - intros p t Hp Ht. apply demo_tab in Ht as [[_ ->] | [[_ ->] | [[_ ->] | [_ ->]]]]; done.
  - intros va e Hva Hpe. apply demo_page in Hpe as [_ ->]; done.
  - intros f _. unfold frame_count. destruct ((table demo_fork).[f]) as [c|] eqn:Ec; [|done]. cbn.
    pose proof (fo_counts _ demo_fork_frames f c Ec) as Hc. unfold zlookup in Ec. destruct (f <? 0); [done|].
    enough (c <= 1) by lia. refine (Forall_lookup_1 (fun c => c <= 1) _ _ _ _ Ec). repeat constructor; lia.
Qed.

Lemma fork_isolates_witness :
  exists v1, share_memory true 0x1000 0x6000 0x7000 demo_fork = Some (tt, v1) /\ xlate v1 0x6000 8 = 0x5008 /\
    exists out l v2, int_page_fault 17 0x6000 7 8 0 v1 = Some ((out, l), v2) /\ xlate v2 0x1000 8 = 0x5008.
Proof.
  destruct (fork_isolates demo_fork 0x1000 0x6000 0x7000 demo_cloneable) as (v1 & H1 & H2 & _ & H3). exists v1. split; [exact H1|].
  assert (user 8) as Hu by (unfold user; lia). destruct (H2 8 Hu) as [Hr Hn].
  split; [rewrite Hn; vm_compute; reflexivity|].
  destruct (H3 0x6000 0x1000 17%nat 8 7 0) as (out & l & v2 & H4 & H5); [right; split; reflexivity|exact Hu|vm_compute; reflexivity|reflexivity|].
  exists out, l, v2. split; [exact H4|]. destruct (H5 8 Hu) as [-> _]. rewrite Hr. vm_compute. reflexivity.
Defined.

End Fork.
