(* ===== verification/Sched.v ===== *)
(** * The scheduler (arch/x86_64/thread.c)

    Module [Sched]: the choice of the next thread by [thread_switch]. *)

From S2P Require Import Prelude.

Module Sched.

(** [enum thread_state] *)
Inductive thread_state := THREAD_STATE_RUNNING | THREAD_STATE_BLOCKED | THREAD_STATE_IO.
#[export] Instance thread_state_eq_dec : EqDecision thread_state.
Proof. solve_decision. Defined.

(** [struct thread_queue] with the states of its threads, and [struct
    process_queue] with the index of a process that has ended. *)
Record thread_queue := mk_tq { tq_front : Z; tq_states : list thread_state }.
Record sched := mk_sched { queue : list thread_queue; front : Z; exit_process : Z }.

Definition len (q : thread_queue) : Z := zlen (tq_states q).

(** [THIS_PROCESS->threads] and [THIS_THREAD->state] *)
Definition this_threads : M sched thread_queue := s ← gets (fun s => s); lift ((queue s).[front s]).
Definition set_threads_front (f : Z) : M sched unit :=
  s ← gets (fun s => s);
  q ← lift ((queue s).[front s]);
  l ← lift ((queue s).[front s <- mk_tq f (tq_states q)]);
  modify (fun s => mk_sched l (front s) (exit_process s)).
Definition set_front (f : Z) : M sched unit := modify (fun s => mk_sched (queue s) f (exit_process s)).
Definition this_state : M sched thread_state := q ← this_threads; lift ((tq_states q).[tq_front q]).

(** The body of the loop of [thread_switch]. *)
Definition next_thread : M sched unit :=
  s ← gets (fun s => s);
  q ← this_threads;
  last ← (if exit_process s =? front s then mret true
          else set_threads_front (u64 (tq_front q + 1));; mret (u64 (tq_front q + 1) =? len q));
  if last : bool then
    set_threads_front 0;;
    set_front (u64 (front s + 1));;
    if u64 (front s + 1) =? zlen (queue s) then set_front 0 else mret tt
  else mret tt.

(** [do ... while (THIS_THREAD->state != THREAD_STATE_RUNNING)], bounded by [fuel]. *)
Fixpoint thread_switch (fuel : nat) : M sched unit :=
  match fuel with
  | O => fault
  | S fuel =>
      next_thread;;
      st ← this_state;
      if decide (st = THREAD_STATE_RUNNING) then mret tt else thread_switch fuel
  end.

(** [sched_init]: the kernel process with its one thread. *)
Definition sched_init : sched := mk_sched [mk_tq 0 [THREAD_STATE_RUNNING]] 0 0.

(** A thread in state [st] joins process [p]; [realloc_ok] is the outcome of
    [realloc], and [false] stands for the result -1. *)
Definition thread_attach_process (realloc_ok : bool) (p : Z) (st : thread_state) : M sched bool :=
  s ← gets (fun s => s);
  q ← lift ((queue s).[p]);
  if realloc_ok then
    l ← lift ((queue s).[p <- mk_tq (tq_front q) (tq_states q ++ [st])]);
    modify (fun s => mk_sched l (front s) (exit_process s));;
    mret true
  else mret false.

(** ** Positions *)

(** The numbers of a process and of a thread of it. *)
Definition pos : Type := Z * Z.

Definition count_of (s : sched) (p : Z) : Z := default 0 (len <$> (queue s).[p]).
Definition running (s : sched) (x : pos) : Prop :=
  exists q, (queue s).[x.1] = Some q /\ (tq_states q).[x.2] = Some THREAD_STATE_RUNNING.

(** The thread after the one at [x]: the next of the process, or the first of the
    next process; the remaining threads of a process that has ended are skipped. *)
Definition next (s : sched) (x : pos) : pos :=
  if (exit_process s =? x.1) || (x.2 + 1 =? count_of s x.1)
  then ((if x.1 + 1 =? zlen (queue s) then 0 else x.1 + 1), 0) else (x.1, x.2 + 1).

(** The state with the position as its current thread: the other processes will
    start with their first threads. *)
Record at_pos (s : sched) (x : pos) : Prop := {
  ap_len : 0 < zlen (queue s) < 2 ^ 32;
  ap_front : front s = x.1;
  ap_in : 0 <= x.1 < zlen (queue s);
  ap_thread : 0 <= x.2 < count_of s x.1;
  ap_fronts : forall p q, (queue s).[p] = Some q -> 0 < len q < 2 ^ 32 /\ tq_front q = if p =? x.1 then x.2 else 0
}.

(** The same threads and states. *)
Definition same_threads (s s' : sched) : Prop :=
  exit_process s' = exit_process s /\ zlen (queue s') = zlen (queue s) /\
  forall p, (tq_states <$> (queue s').[p]) = (tq_states <$> (queue s).[p]).

Lemma same_threads_refl s : same_threads s s.
Proof. done. Qed.

Lemma same_threads_trans s1 s2 s3 : same_threads s1 s2 -> same_threads s2 s3 -> same_threads s1 s3.
Proof. intros (A1 & A2 & A3) (B1 & B2 & B3). split_and!; [congruence|congruence|]. intros p. by rewrite B3. Qed.

Lemma same_count s s' p : same_threads s s' -> count_of s' p = count_of s p.
Proof.
  intros (_ & _ & H). specialize (H p). unfold count_of, len.
  destruct ((queue s').[p]), ((queue s).[p]); cbn in *; try done. by injection H as ->.
Qed.

Lemma same_next s s' x : same_threads s s' -> next s' x = next s x.
Proof. intros H. unfold next. rewrite (same_count s s') by done. destruct H as (-> & -> & _). done. Qed.

Lemma same_running s s' x : same_threads s s' -> running s' x <-> running s x.
Proof.
  intros (_ & _ & H). specialize (H x.1). unfold running. destruct ((queue s').[x.1]) as [q'|], ((queue s).[x.1]) as [q|]; cbn in H; try done.
  injection H as E. split; intros (? & [= <-] & ?); eexists; (split; [done|]); congruence.
Qed.

(** Setting the front of one queue. *)
Lemma set_front_run s q f : (queue s).[front s] = Some q ->
  exists l, set_threads_front f s = Some (tt, mk_sched l (front s) (exit_process s)) /\ zlen l = zlen (queue s) /\
    forall p, l.[p] = if p =? front s then Some (mk_tq f (tq_states q)) else (queue s).[p].
Proof.
  intros Hq. pose proof (zlookup_Some_lt _ _ _ Hq) as Hi.
  assert ((queue s).[front s <- mk_tq f (tq_states q)] = Some (<[Z.to_nat (front s) := mk_tq f (tq_states q)]> (queue s))) as Hs by (by apply zstore_lt).
  eexists. unfold set_threads_front. rewrite gets_run, Hq, (bind_run (lift (Some _)) _ s _ s eq_refl), Hs, (bind_run (lift (Some _)) _ s _ s eq_refl).
  split; [reflexivity|]. split; [by rewrite (zstore_len _ _ _ _ Hs)|]. intros p. by rewrite (zlookup_zstore _ _ _ _ p Hs).
Qed.

Lemma next_thread_ok s x : at_pos s x -> exists s', next_thread s = Some (tt, s') /\ at_pos s' (next s x) /\ same_threads s s'.
Proof.
  intros [Hl Hf Hin Ht Hfr]. destruct (zlookup_lt_Some _ _ Hin) as [q Hq]. destruct (Hfr _ _ Hq) as [Hlq Hfq]. rewrite Z.eqb_refl in Hfq.
  assert (count_of s x.1 = len q) as Hc by (unfold count_of; by rewrite Hq).
  unfold next_thread. rewrite gets_run. rewrite <- Hf in Hq. unfold this_threads. unfold next. rewrite Hc.
  assert ((s0 ← gets (fun s => s); lift ((queue s0).[front s0])) s = Some (q, s)) as Hthis by (rewrite gets_run, Hq; done).
  rewrite (bind_run _ _ _ _ _ Hthis). rewrite <- Hf.
  assert (exists s1, (if exit_process s =? front s then mret true
     else set_threads_front (u64 (tq_front q + 1));; mret (u64 (tq_front q + 1) =? len q)) s =
       Some ((exit_process s =? front s) || (x.2 + 1 =? len q), s1) /\ front s1 = front s /\ exit_process s1 = exit_process s /\
     zlen (queue s1) = zlen (queue s) /\ (exists q1, (queue s1).[front s] = Some q1 /\ tq_states q1 = tq_states q /\
       ((exit_process s =? front s) || (x.2 + 1 =? len q) = false -> tq_front q1 = x.2 + 1)) /\
     forall p, p <> front s -> (queue s1).[p] = (queue s).[p]) as (s1 & H1 & F1 & E1 & L1 & (q1 & Q1 & T1 & N1) & O1).
  { destruct (Z.eqb_spec (exit_process s) (front s)) as [He|He]; cbn [orb].
    - exists s. split_and!; try done. by exists q.
    - destruct (set_front_run s q (u64 (tq_front q + 1)) Hq) as (l & Hr & Hll & Hlk). rewrite Hfq in *.
      rewrite (wrap_small 64 (x.2 + 1)) in * by (unfold len in *; lia).
      eexists. rewrite (bind_run _ _ _ _ _ Hr). split; [reflexivity|]. cbn [front exit_process queue]. split_and!; try done.
      + eexists. rewrite Hlk, Z.eqb_refl. split; [reflexivity|]. by split.
      + intros p Hp. rewrite Hlk. by destruct (Z.eqb_spec p (front s)). }
  rewrite (bind_run _ _ _ _ _ H1). destruct ((exit_process s =? front s) || (x.2 + 1 =? len q)) eqn:Elast.
  - rewrite <- F1 in Q1. destruct (set_front_run s1 q1 0 Q1) as (l & Hr & Hll & Hlk). rewrite (bind_run _ _ _ _ _ Hr).
    rewrite (wrap_small 64 (front s + 1)) by lia. set (s2 := mk_sched l (front s + 1) (exit_process s1)).
    assert (set_front (front s + 1) (mk_sched l (front s1) (exit_process s1)) = Some (tt, s2)) as Hsf by done. rewrite (bind_run _ _ _ _ _ Hsf).
    set (p' := if front s + 1 =? zlen (queue s) then 0 else front s + 1).
    assert ((if front s + 1 =? zlen (queue s) then set_front 0 else mret tt) s2 = Some (tt, mk_sched l p' (exit_process s1))) as ->.
    { unfold p'. by destruct (front s + 1 =? zlen (queue s)). }
    assert (0 <= p' < zlen (queue s)) as Hp' by (unfold p'; destruct (Z.eqb_spec (front s + 1) (zlen (queue s))); lia).
    assert (forall p qq, l.[p] = Some qq -> 0 < len qq < 2 ^ 32 /\ tq_front qq = 0) as Hall.
    { intros p qq. rewrite Hlk, F1. destruct (Z.eqb_spec p (front s)) as [->|Hp]; [intros [= <-]|].
      - unfold len in *. cbn [tq_states tq_front]. by rewrite T1.
      - rewrite O1 by done. intros Hpp. destruct (Hfr p qq Hpp) as [B1 B2]. split; [done|]. rewrite B2, <- Hf. by destruct (Z.eqb_spec p (front s)). }
    eexists. split; [reflexivity|]. split.
    + split; cbn [queue front fst snd].
      * rewrite Hll, L1. done.
      * done.
      * rewrite Hll, L1. done.
      * unfold count_of. cbn [queue]. destruct (zlookup_lt_Some l p') as [qq Hqq]; [rewrite Hll, L1; done|]. rewrite Hqq. cbn.
        destruct (Hall _ _ Hqq). lia.
      * intros p qq Hpp. destruct (Hall _ _ Hpp) as [B1 B2]. split; [done|]. rewrite B2. by destruct (p =? p').
    + split_and!; cbn [queue exit_process]; [done|congruence|]. intros p. rewrite Hlk, F1. destruct (Z.eqb_spec p (front s)) as [->|Hp].
      * rewrite Hq. cbn. by rewrite T1.
      * by rewrite O1.
  - exists s1. split; [done|]. split.
    + split; cbn [fst snd]; [by rewrite L1|done|by rewrite L1, Hf| |].
      * unfold count_of. rewrite Q1. cbn. unfold len. rewrite T1. apply orb_false_iff in Elast as [_ El]. unfold len in *. lia.
      * intros p qq Hpp. destruct (Z.eqb_spec p (front s)) as [->|Hp].
        -- rewrite Q1 in Hpp. injection Hpp as <-. split; [unfold len in *; by rewrite T1|by apply N1].
        -- rewrite O1 in Hpp by done. destruct (Hfr p qq Hpp) as [B1 B2]. split; [done|]. rewrite B2, <- Hf. by destruct (Z.eqb_spec p (front s)).
    + split_and!; [done|done|]. intros p. destruct (Z.eq_dec p (front s)) as [->|Hp]; [rewrite Q1, Hq; cbn; by rewrite T1|by rewrite O1].
Qed.

(** ** Switching *)

#[export] Instance running_dec s x : Decision (running s x).
Proof.
  unfold running. destruct ((queue s).[x.1]) as [q|]; [|right; by intros (q & ? & _)].
  destruct (decide ((tq_states q).[x.2] = Some THREAD_STATE_RUNNING)); [left; by exists q|right; by intros (q' & [= <-] & ?)].
Defined.

Lemma this_state_ok s x : at_pos s x -> exists st, this_state s = Some (st, s) /\ (st = THREAD_STATE_RUNNING <-> running s x).
Proof.
  intros [Hl Hf Hin Ht Hfr]. destruct (zlookup_lt_Some _ _ Hin) as [q Hq]. destruct (Hfr _ _ Hq) as [Hlq Hfq]. rewrite Z.eqb_refl in Hfq.
  assert (count_of s x.1 = len q) as Hc by (unfold count_of; by rewrite Hq). rewrite Hc in Ht.
  destruct (zlookup_lt_Some (tq_states q) x.2 Ht) as [st Hst]. exists st. split.
  - unfold this_state, this_threads. rewrite bind_assoc, gets_run, Hf, Hq, (bind_run (lift (Some _)) _ s _ s eq_refl), Hfq, Hst. done.
  - unfold running. rewrite Hq. split; [intros ->; by exists q|]. intros (q' & [= <-] & E). congruence.
Qed.

(** The thread [k] steps after [x]. *)
Definition after_steps (s : sched) (k : nat) (x : pos) : pos := Nat.iter k (next s) x.

Lemma after_steps_S s k x : after_steps s (S k) x = after_steps s k (next s x).
Proof. unfold after_steps. by rewrite Nat.iter_succ_r. Qed.

Lemma after_steps_add s j k x : after_steps s (j + k) x = after_steps s j (after_steps s k x).
Proof. unfold after_steps. apply Nat.iter_add. Qed.

Lemma same_after s s' k x : same_threads s s' -> after_steps s' k x = after_steps s k x.
Proof. intros H. revert x. induction k as [|k IH]; intros x; [done|]. rewrite !after_steps_S, IH. by rewrite (same_next s s'). Qed.

(** [thread_switch] takes the first running thread of those that follow. *)
Lemma thread_switch_ok k : forall fuel s x, at_pos s x -> (0 < k)%nat -> (k <= fuel)%nat -> running s (after_steps s k x) ->
  exists k1 s', (0 < k1 <= k)%nat /\ thread_switch fuel s = Some (tt, s') /\ at_pos s' (after_steps s k1 x) /\ same_threads s s' /\
    running s (after_steps s k1 x) /\ forall i, (0 < i < k1)%nat -> ~ running s (after_steps s i x).
Proof.
  induction k as [|k IH]; intros fuel s x Hx Hk Hfu Hr; [lia|]. destruct fuel as [|fuel]; [lia|]. cbn [thread_switch].
  destruct (next_thread_ok s x Hx) as (s1 & H1 & Hx1 & Hsame). rewrite (bind_run _ _ _ _ _ H1).
  destruct (this_state_ok s1 _ Hx1) as (st & Hst & Hiff). rewrite (bind_run _ _ _ _ _ Hst). rewrite (same_running s s1) in Hiff by done.
  case_decide as Hd.
  - exists 1%nat, s1. split_and!; [lia|lia|done|done|done|by apply Hiff|]. intros i Hi. lia.
  - rewrite after_steps_S in Hr. destruct k as [|k]; [tauto|].
    destruct (IH fuel s1 (next s x) Hx1) as (k1 & s' & K1 & K2 & K3 & K4 & K5 & K6); [lia|lia|by rewrite (same_running s s1), (same_after s s1)|].
    exists (S k1), s'. rewrite after_steps_S. rewrite (same_after s s1), (same_running s s1) in * by done.
    split_and!; [lia|lia|done|done|by eapply same_threads_trans|done|]. intros i Hi. destruct i as [|[|i]]; [lia| |].
    + change (after_steps s 1 x) with (next s x). tauto.
    + rewrite after_steps_S. intros Hri. apply (K6 (S i)); [lia|]. by rewrite (same_running s s1), (same_after s s1).
Qed.

Fixpoint switches (fuel n : nat) : M sched unit :=
  match n with O => mret tt | S n => thread_switch fuel;; switches fuel n end.

Lemma switches_reach k : forall fuel s x, at_pos s x -> (0 < k <= fuel)%nat -> running s (after_steps s k x) ->
  exists m s', (0 < m <= k)%nat /\ switches fuel m s = Some (tt, s') /\ at_pos s' (after_steps s k x).
Proof.
  induction k as [k IH] using (well_founded_induction lt_wf). intros fuel s x Hx Hk Hr.
  destruct (thread_switch_ok k fuel s x Hx ltac:(lia) ltac:(lia) Hr) as (k1 & s1 & K1 & K2 & K3 & K4 & K5 & _).
  destruct (Nat.eq_dec k1 k) as [->|Hne].
  - exists 1%nat, s1. split; [lia|]. cbn [switches]. rewrite (bind_run _ _ _ _ _ K2). done.
  - assert (after_steps s1 (k - k1) (after_steps s k1 x) = after_steps s k x) as Ek.
    { rewrite (same_after s s1) by done. rewrite <- after_steps_add. f_equal. lia. }
    destruct (IH (k - k1)%nat ltac:(lia) fuel s1 _ K3) as (m & s' & M1 & M2 & M3); [lia|by rewrite (same_running s s1), Ek|].
    exists (S m), s'. rewrite Ek in M3. split; [lia|]. split; [|done]. cbn [switches]. by rewrite (bind_run _ _ _ _ _ K2).
Qed.

(** ** The initial state and new threads *)

Lemma sched_init_at_pos : at_pos sched_init (0, 0).
Proof.
  split; cbn; [vm_compute; intuition discriminate|done|vm_compute; intuition discriminate|vm_compute; intuition discriminate|].
  intros p q. unfold zlookup. destruct (Z.ltb_spec p 0); [discriminate|]. destruct (Z.to_nat p) as [|n] eqn:E; cbn; [|discriminate].
  intros [= <-]. replace p with 0 by lia. vm_compute. intuition discriminate.
Qed.

(** A new thread keeps the position and the earlier threads, and it is in turn. *)
Lemma attach_at_pos s x p st : at_pos s x -> 0 <= p < zlen (queue s) -> count_of s p + 1 < 2 ^ 32 ->
  exists s', thread_attach_process true p st s = Some (true, s') /\ at_pos s' x /\
    count_of s' p = count_of s p + 1 /\ (st = THREAD_STATE_RUNNING -> running s' (p, count_of s p)) /\
    forall y, running s y -> running s' y.
Proof.
  intros [Hl Hf Hin Ht Hfr] Hp Hc. destruct (zlookup_lt_Some _ _ Hp) as [q Hq]. destruct (Hfr _ _ Hq) as [Hlq Hfq].
  assert (count_of s p = len q) as Ec by (unfold count_of; by rewrite Hq). rewrite Ec in *.
  set (q' := mk_tq (tq_front q) (tq_states q ++ [st])). assert (len q' = len q + 1) as Eq' by (unfold len, q'; cbn; rewrite zlen_app; done).
  assert ((queue s).[p <- q'] = Some (<[Z.to_nat p := q']> (queue s))) as Hs by (by apply zstore_lt).
  set (s' := mk_sched (<[Z.to_nat p := q']> (queue s)) (front s) (exit_process s)).
  assert (forall i, (queue s').[i] = if i =? p then Some q' else (queue s).[i]) as Hlk by (intros i; exact (zlookup_zstore _ _ _ _ i Hs)).
  assert (zlen (queue s') = zlen (queue s)) as El by exact (zstore_len _ _ _ _ Hs).
  assert (forall i, count_of s' i = if i =? p then len q + 1 else count_of s i) as Hco.
  { intros i. unfold count_of. rewrite Hlk. destruct (Z.eqb_spec i p); [cbn; lia|done]. }
  exists s'. split_and!.
  - unfold thread_attach_process. rewrite gets_run, Hq, (bind_run (lift (Some _)) _ s _ s eq_refl). fold q'. rewrite Hs. reflexivity.
  - split; [by rewrite El|done|by rewrite El| |].
    + rewrite Hco. destruct (Z.eqb_spec x.1 p) as [E|]; [|done]. rewrite E in Ht. lia.
    + intros i qi. rewrite Hlk. destruct (Z.eqb_spec i p) as [->|Hne]; [|by apply Hfr]. intros [= <-]. split; [lia|done].
  - rewrite Hco, Z.eqb_refl. lia.
  - intros ->. exists q'. cbn [fst snd]. rewrite Hlk, Z.eqb_refl. split; [done|]. unfold q', len. cbn [tq_states]. apply zlookup_snoc.
  - intros y (qy & E1 & E2). unfold running. rewrite Hlk. destruct (Z.eqb_spec y.1 p) as [E|]; [|by exists qy]. exists q'. split; [done|].
    rewrite E, Hq in E1. injection E1 as <-. unfold q'. cbn [tq_states]. by apply zlookup_app_old.
Qed.

(** ** Every thread has its turn *)

Section rounds.
Context (s : sched) (C : Z).
Hypothesis Hn : 0 < zlen (queue s).
Hypothesis HC : forall p, 0 <= p < zlen (queue s) -> 0 < count_of s p <= C.

Definition succ_proc (p : Z) : Z := if p + 1 =? zlen (queue s) then 0 else p + 1.

Lemma hop n : forall x, 0 <= x.1 < zlen (queue s) -> 0 <= x.2 < count_of s x.1 -> count_of s x.1 - x.2 = Z.of_nat n ->
  exists k, (0 < k)%nat /\ Z.of_nat k <= Z.of_nat n /\ after_steps s k x = (succ_proc x.1, 0).
Proof.
  induction n as [|n IH]; intros x Hp Ht Hx; [lia|]. destruct ((exit_process s =? x.1) || (x.2 + 1 =? count_of s x.1)) eqn:E.
  - exists 1%nat. split; [lia|]. split; [lia|]. change (after_steps s 1 x) with (next s x). unfold next. by rewrite E.
  - pose proof E as E'. apply orb_false_iff in E' as [_ E2]. destruct (IH (x.1, x.2 + 1)) as (k & K1 & K2 & K3); cbn [fst snd] in *; [done|lia|lia|].
    exists (S k). split; [lia|]. split; [lia|]. rewrite after_steps_S. unfold next. by rewrite E.
Qed.

Lemma succ_range p : 0 <= p < zlen (queue s) -> 0 <= succ_proc p < zlen (queue s).
Proof. intros Hp. unfold succ_proc. destruct (Z.eqb_spec (p + 1) (zlen (queue s))); lia. Qed.

Lemma hops m : forall x, 0 <= x.1 < zlen (queue s) -> 0 <= x.2 < count_of s x.1 -> (0 < m)%nat ->
  exists k, (0 < k)%nat /\ Z.of_nat k <= Z.of_nat m * C /\ after_steps s k x = (Nat.iter m succ_proc x.1, 0).
Proof.
  induction m as [|m IH]; intros x Hp Ht Hm; [lia|]. pose proof (HC x.1 Hp) as Hc.
  destruct (hop (Z.to_nat (count_of s x.1 - x.2)) x Hp Ht ltac:(lia)) as (k & K1 & K2 & K3). destruct m as [|m].
  - exists k. split_and!; [done|lia|]. exact K3.
  - destruct (IH (succ_proc x.1, 0)) as (k' & K1' & K2' & K3'); cbn [fst snd] in *; [by apply succ_range|pose proof (HC _ (succ_range _ Hp)); lia|lia|].
    exists (k' + k)%nat. split; [lia|]. split; [lia|]. rewrite after_steps_add, K3, K3'. f_equal. symmetry. apply Nat.iter_succ_r.
Qed.

Lemma iter_succ m : forall p, 0 <= p < zlen (queue s) -> Nat.iter m succ_proc p = (p + Z.of_nat m) mod zlen (queue s).
Proof.
  induction m as [|m IH]; intros p Hp; [rewrite Z.add_0_r; cbn; by rewrite Z.mod_small|]. rewrite Nat.iter_succ_r, IH by (by apply succ_range).
  unfold succ_proc. destruct (Z.eqb_spec (p + 1) (zlen (queue s))) as [E|].
  - replace (p + Z.of_nat (S m)) with (Z.of_nat m + 1 * zlen (queue s)) by lia. by rewrite Z.mod_add by lia.
  - f_equal. lia.
Qed.

Lemma inside q j : (exit_process s =? q) = false -> Z.of_nat j < count_of s q -> after_steps s j (q, 0) = (q, Z.of_nat j).
Proof.
  intros He. induction j as [|j IH]; intros Hj; [done|]. unfold after_steps in *. rewrite Nat.iter_succ, IH by lia. unfold next. cbn [fst snd]. rewrite He.
  destruct (Z.eqb_spec (Z.of_nat j + 1) (count_of s q)); [lia|]. cbn [orb]. f_equal. lia.
Qed.

(** A thread that is not skipped. *)
Definition in_turn (y : pos) : Prop :=
  0 <= y.1 < zlen (queue s) /\ 0 <= y.2 < count_of s y.1 /\ (exit_process s <> y.1 \/ y.2 = 0).

Lemma reach x y : 0 <= x.1 < zlen (queue s) -> 0 <= x.2 < count_of s x.1 -> in_turn y ->
  exists k, (0 < k)%nat /\ Z.of_nat k <= (zlen (queue s) + 1) * C /\ after_steps s k x = y.
Proof.
  intros Hp Ht (Y1 & Y2 & Y3). set (n := zlen (queue s)) in *.
  set (m := Z.to_nat (if x.1 <? y.1 then y.1 - x.1 else y.1 - x.1 + n)).
  assert ((0 < m)%nat /\ Z.of_nat m <= n /\ (x.1 + Z.of_nat m) mod n = y.1) as (M1 & M2 & M3).
  { unfold m. destruct (Z.ltb_spec x.1 y.1); rewrite ?Z2Nat.id by lia; (split; [lia|]); (split; [lia|]).
    - rewrite Z.mod_small; lia.
    - replace (x.1 + (y.1 - x.1 + n)) with (y.1 + 1 * n) by lia. rewrite Z.mod_add, Z.mod_small; lia. }
  destruct (hops m x Hp Ht M1) as (k & K1 & K2 & K3). rewrite iter_succ in K3 by done. fold n in K3. rewrite M3 in K3. pose proof (HC y.1 Y1) as Hc.
  exists (Z.to_nat y.2 + k)%nat. split; [lia|]. split; [nia|]. rewrite after_steps_add, K3. destruct Y3 as [He|He].
  - rewrite inside, Z2Nat.id by (try (by apply Z.eqb_neq); lia). by destruct y.
  - rewrite He. destruct y as [q j]. cbn in *. by rewrite He.
Qed.
End rounds.

(** C10: The scheduler is fair. From any state of the queues in which the processes
    that do not run stand at their first threads, and for any running thread that
    does not belong to a process that has ended, repeated switches return and come
    to that thread after at most (processes + 1) * C of them, where C bounds the
    number of threads of a process. A switch chooses the first running thread
    that follows the present one, and keeps the states. *)
Theorem scheduler_fair s x y C fuel :
  at_pos s x -> (forall p, 0 <= p < zlen (queue s) -> count_of s p <= C) -> in_turn s y -> running s y ->
  (zlen (queue s) + 1) * C <= Z.of_nat fuel ->
  (exists k s', (0 < k)%nat /\ thread_switch fuel s = Some (tt, s') /\ at_pos s' (after_steps s k x) /\ same_threads s s' /\
     running s (after_steps s k x) /\ forall i, (0 < i < k)%nat -> ~ running s (after_steps s i x)) /\
  exists m s', Z.of_nat m <= (zlen (queue s) + 1) * C /\ switches fuel m s = Some (tt, s') /\ at_pos s' y.
Proof.
  intros Hx HC Hy Hr Hfu. assert (forall p, 0 <= p < zlen (queue s) -> 0 < count_of s p <= C) as HC'.
  { intros p Hp. split; [|by apply HC]. destruct (zlookup_lt_Some _ _ Hp) as [q Hq]. unfold count_of. rewrite Hq. cbn. by apply (ap_fronts _ _ Hx p). }
  destruct (reach s C (proj1 (ap_len _ _ Hx)) HC' x y (ap_in _ _ Hx) (ap_thread _ _ Hx) Hy) as (k & K1 & K2 & K3). rewrite <- K3 in Hr. split.
  - destruct (thread_switch_ok k fuel s x Hx K1 ltac:(lia) Hr) as (k1 & s1 & L1 & L2 & L3 & L4 & L5 & L6). exists k1, s1. by split_and!; [lia|..].
  - destruct (switches_reach k fuel s x Hx ltac:(lia) Hr) as (m & s' & M1 & M2 & M3). exists m, s'. rewrite K3 in M3. split_and!; [lia|done|done].
Qed.

(** Three processes; the second one has a blocked thread. *)
Definition demo_sched : sched :=
  mk_sched [mk_tq 0 [THREAD_STATE_RUNNING]; mk_tq 0 [THREAD_STATE_BLOCKED; THREAD_STATE_RUNNING]; mk_tq 0 [THREAD_STATE_RUNNING]] 0 0.

Lemma scheduler_fair_witness :
  at_pos demo_sched (0, 0) /\ exists m s', Z.of_nat m <= 8 /\ switches 8 m demo_sched = Some (tt, s') /\ at_pos s' (1, 1).
Proof.
  assert (forall p q, (queue demo_sched).[p] = Some q -> 0 < len q <= 2 /\ tq_front q = 0) as Hq.
  { intros p q. unfold zlookup. destruct (p <? 0); [discriminate|]. destruct (Z.to_nat p) as [|[|[|n]]]; cbn; [intros [= <-]..|discriminate]; vm_compute; intuition discriminate. }
  assert (at_pos demo_sched (0, 0)) as H0.
  { split; [vm_compute; intuition discriminate|reflexivity|vm_compute; intuition discriminate|vm_compute; intuition discriminate|].
    intros p q Hp. destruct (Hq p q Hp) as [H1 ->]. split; [lia|]. destruct (p =? _); reflexivity. }
  split; [exact H0|]. destruct (scheduler_fair demo_sched (0, 0) (1, 1) 2 8 H0) as [_ H].
  - intros p Hp. destruct (zlookup_lt_Some _ _ Hp) as [q E]. unfold count_of. rewrite E. cbn. destruct (Hq p q E). lia.
  - vm_compute. intuition discriminate.
  - exists (mk_tq 0 [THREAD_STATE_BLOCKED; THREAD_STATE_RUNNING]). split; reflexivity.
  - vm_compute. discriminate.
  - exact H.
Defined.

End Sched.
