(* ===== verification/Ext2Layout.v ===== *)
(** * On-disk structures of the ext2 driver (include/pml/ext2fs.h)

    Module [Ext2Layout]: the structures the driver shares with the disk, as
    arrays of bytes with the offset and the size of every field, since the
    driver computes checksums over their bytes, copies parts of them and uses
    one structure through the type of another. Then the inline functions of the
    header on the superblock. *)

From S2P Require Import Prelude CBits Hash HashMap CString.

Module Ext2Layout.
Import CBits Hash HashMap.

(** ** Fields of a structure *)

Record field := F { f_off : Z; f_len : Z }.

(** [s->f] and [s->f = v]. *)
Definition getf (s : list Z) (f : field) : Z :=
  le_val (take (Z.to_nat (f_len f)) (drop (Z.to_nat (f_off f)) s)).
Definition setf (s : list Z) (f : field) (v : Z) : list Z :=
  take (Z.to_nat (f_off f)) s ++ le_bytes (Z.to_nat (f_len f)) v ++ drop (Z.to_nat (f_off f + f_len f)) s.
Notation "s ~> f" := (getf s f) (at level 11, left associativity).


(** [struct ext2_super] *)
Definition s_inodes_count := F 0 4.
Definition s_blocks_count := F 4 4.
Definition s_r_blocks_count := F 8 4.
Definition s_free_blocks_count := F 12 4.
Definition s_free_inodes_count := F 16 4.
Definition s_first_data_block := F 20 4.
Definition s_log_block_size := F 24 4.
Definition s_log_cluster_size := F 28 4.
Definition s_blocks_per_group := F 32 4.
Definition s_clusters_per_group := F 36 4.
Definition s_inodes_per_group := F 40 4.
Definition s_mtime := F 44 4.
Definition s_wtime := F 48 4.
Definition s_mnt_count := F 52 2.
Definition s_max_mnt_count := F 54 2.
Definition s_magic := F 56 2.
Definition s_state := F 58 2.
Definition s_errors := F 60 2.
Definition s_minor_rev_level := F 62 2.
Definition s_lastcheck := F 64 4.
Definition s_checkinterval := F 68 4.
Definition s_creator_os := F 72 4.
Definition s_rev_level := F 76 4.
Definition s_def_resuid := F 80 2.
Definition s_def_resgid := F 82 2.
Definition s_first_ino := F 84 4.
Definition s_inode_size := F 88 2.
Definition s_block_group_nr := F 90 2.
Definition s_feature_compat := F 92 4.
Definition s_feature_incompat := F 96 4.
Definition s_feature_ro_compat := F 100 4.
Definition s_uuid := F 104 16.
Definition s_volume_name := F 120 16.
Definition s_last_mounted := F 136 64.
Definition s_algorithm_usage_bitmap := F 200 4.
Definition s_prealloc_blocks := F 204 1.
Definition s_prealloc_dir_blocks := F 205 1.
Definition s_reserved_gdt_blocks := F 206 2.
Definition s_journal_uuid := F 208 16.
Definition s_journal_inum := F 224 4.
Definition s_journal_dev := F 228 4.
Definition s_last_orphan := F 232 4.
Definition s_hash_seed := F 236 16.
Definition s_def_hash_version := F 252 1.
Definition s_jnl_backup_type := F 253 1.
Definition s_desc_size := F 254 2.
Definition s_default_mount_opts := F 256 4.
Definition s_first_meta_bg := F 260 4.
Definition s_mkfs_time := F 264 4.
Definition s_jnl_blocks := F 268 68.
Definition s_blocks_count_hi := F 336 4.
Definition s_r_blocks_count_hi := F 340 4.
Definition s_free_blocks_hi := F 344 4.
Definition s_min_extra_isize := F 348 2.
Definition s_want_extra_isize := F 350 2.
Definition s_flags := F 352 4.
Definition s_raid_stride := F 356 2.
Definition s_mmp_update_interval := F 358 2.
Definition s_mmp_block := F 360 8.
Definition s_raid_stripe_width := F 368 4.
Definition s_log_groups_per_flex := F 372 1.
Definition s_checksum_type := F 373 1.
Definition s_encryption_level := F 374 1.
Definition s_reserved_pad := F 375 1.
Definition s_kbytes_written := F 376 8.
Definition s_snapshot_inum := F 384 4.
Definition s_snapshot_id := F 388 4.
Definition s_snapshot_r_blocks_count := F 392 8.
Definition s_snapshot_list := F 400 4.
Definition s_error_count := F 404 4.
Definition s_first_error_time := F 408 4.
Definition s_first_error_ino := F 412 4.
Definition s_first_error_block := F 416 8.
Definition s_first_error_func := F 424 32.
Definition s_first_error_line := F 456 4.
Definition s_last_error_time := F 460 4.
Definition s_last_error_ino := F 464 4.
Definition s_last_error_line := F 468 4.
Definition s_last_error_block := F 472 8.
Definition s_last_error_func := F 480 32.
Definition s_mount_opts := F 512 64.
Definition s_usr_quota_inum := F 576 4.
Definition s_grp_quota_inum := F 580 4.
Definition s_overhead_clusters := F 584 4.
Definition s_backup_bgs := F 588 8.
Definition s_encrypt_algos := F 596 4.
Definition s_encrypt_pw_salt := F 600 16.
Definition s_lpf_ino := F 616 4.
Definition s_prj_quota_inum := F 620 4.
Definition s_checksum_seed := F 624 4.
Definition s_wtime_hi := F 628 1.
Definition s_mtime_hi := F 629 1.
Definition s_mkfs_time_hi := F 630 1.
Definition s_lastcheck_hi := F 631 1.
Definition s_first_error_time_hi := F 632 1.
Definition s_last_error_time_hi := F 633 1.
Definition s_first_error_errcode := F 634 1.
Definition s_last_error_errcode := F 635 1.
Definition s_encoding := F 636 2.
Definition s_encoding_flags := F 638 2.
Definition s_reserved := F 640 380.
Definition s_checksum := F 1020 4.
Definition super_fields : list field :=
  [s_inodes_count; s_blocks_count; s_r_blocks_count; s_free_blocks_count; s_free_inodes_count;
   s_first_data_block; s_log_block_size; s_log_cluster_size; s_blocks_per_group;
   s_clusters_per_group; s_inodes_per_group; s_mtime; s_wtime; s_mnt_count; s_max_mnt_count;
   s_magic; s_state; s_errors; s_minor_rev_level; s_lastcheck; s_checkinterval; s_creator_os;
   s_rev_level; s_def_resuid; s_def_resgid; s_first_ino; s_inode_size; s_block_group_nr;
   s_feature_compat; s_feature_incompat; s_feature_ro_compat; s_uuid; s_volume_name;
   s_last_mounted; s_algorithm_usage_bitmap; s_prealloc_blocks; s_prealloc_dir_blocks;
   s_reserved_gdt_blocks; s_journal_uuid; s_journal_inum; s_journal_dev; s_last_orphan;
   s_hash_seed; s_def_hash_version; s_jnl_backup_type; s_desc_size; s_default_mount_opts;
   s_first_meta_bg; s_mkfs_time; s_jnl_blocks; s_blocks_count_hi; s_r_blocks_count_hi;
   s_free_blocks_hi; s_min_extra_isize; s_want_extra_isize; s_flags; s_raid_stride;
   s_mmp_update_interval; s_mmp_block; s_raid_stripe_width; s_log_groups_per_flex; s_checksum_type;
   s_encryption_level; s_reserved_pad; s_kbytes_written; s_snapshot_inum; s_snapshot_id;
   s_snapshot_r_blocks_count; s_snapshot_list; s_error_count; s_first_error_time;
   s_first_error_ino; s_first_error_block; s_first_error_func; s_first_error_line;
   s_last_error_time; s_last_error_ino; s_last_error_line; s_last_error_block; s_last_error_func;
   s_mount_opts; s_usr_quota_inum; s_grp_quota_inum; s_overhead_clusters; s_backup_bgs;
   s_encrypt_algos; s_encrypt_pw_salt; s_lpf_ino; s_prj_quota_inum; s_checksum_seed; s_wtime_hi;
   s_mtime_hi; s_mkfs_time_hi; s_lastcheck_hi; s_first_error_time_hi; s_last_error_time_hi;
   s_first_error_errcode; s_last_error_errcode; s_encoding; s_encoding_flags; s_reserved;
   s_checksum].

(** [struct ext2_inode]; of its two unions the members for Linux and for the Hurd. *)
Definition i_mode := F 0 2.
Definition i_uid := F 2 2.
Definition i_size := F 4 4.
Definition i_atime := F 8 4.
Definition i_ctime := F 12 4.
Definition i_mtime := F 16 4.
Definition i_dtime := F 20 4.
Definition i_gid := F 24 2.
Definition i_links_count := F 26 2.
Definition i_blocks := F 28 4.
Definition i_flags := F 32 4.
Definition l_i_version := F 36 4.
Definition h_i_translator := F 36 4.
Definition i_block := F 40 60.
Definition i_generation := F 100 4.
Definition i_file_acl := F 104 4.
Definition i_size_high := F 108 4.
Definition i_faddr := F 112 4.
Definition l_i_blocks_hi := F 116 2.
Definition l_i_file_acl_hi := F 118 2.
Definition l_i_uid_high := F 120 2.
Definition l_i_gid_high := F 122 2.
Definition l_i_checksum_lo := F 124 2.
Definition l_i_reserved := F 126 2.
Definition h_i_frag := F 116 1.
Definition h_i_fsize := F 117 1.
Definition h_i_mode_high := F 118 2.
Definition h_i_uid_high := F 120 2.
Definition h_i_gid_high := F 122 2.
Definition h_i_author := F 124 4.
Definition inode_fields : list field :=
  [i_mode; i_uid; i_size; i_atime; i_ctime; i_mtime; i_dtime; i_gid; i_links_count; i_blocks;
   i_flags; l_i_version; i_block; i_generation; i_file_acl; i_size_high; i_faddr; l_i_blocks_hi;
   l_i_file_acl_hi; l_i_uid_high; l_i_gid_high; l_i_checksum_lo; l_i_reserved].

(** [struct ext2_large_inode] *)
Definition i_extra_isize := F 128 2.
Definition i_checksum_hi := F 130 2.
Definition i_ctime_extra := F 132 4.
Definition i_mtime_extra := F 136 4.
Definition i_atime_extra := F 140 4.
Definition i_crtime := F 144 4.
Definition i_crtime_extra := F 148 4.
Definition i_version_hi := F 152 4.
Definition i_projid := F 156 4.
Definition large_inode_fields : list field :=
  [i_mode; i_uid; i_size; i_atime; i_ctime; i_mtime; i_dtime; i_gid; i_links_count; i_blocks;
   i_flags; l_i_version; i_block; i_generation; i_file_acl; i_size_high; i_faddr; l_i_blocks_hi;
   l_i_file_acl_hi; l_i_uid_high; l_i_gid_high; l_i_checksum_lo; l_i_reserved; i_extra_isize;
   i_checksum_hi; i_ctime_extra; i_mtime_extra; i_atime_extra; i_crtime; i_crtime_extra;
   i_version_hi; i_projid].

(** [struct ext2_group_desc] *)
Definition bg_block_bitmap := F 0 4.
Definition bg_inode_bitmap := F 4 4.
Definition bg_inode_table := F 8 4.
Definition bg_free_blocks_count := F 12 2.
Definition bg_free_inodes_count := F 14 2.
Definition bg_used_dirs_count := F 16 2.
Definition bg_flags := F 18 2.
Definition bg_exclude_bitmap_lo := F 20 4.
Definition bg_block_bitmap_csum_lo := F 24 2.
Definition bg_inode_bitmap_csum_lo := F 26 2.
Definition bg_itable_unused := F 28 2.
Definition bg_checksum := F 30 2.
Definition group_desc_fields : list field :=
  [bg_block_bitmap; bg_inode_bitmap; bg_inode_table; bg_free_blocks_count; bg_free_inodes_count;
   bg_used_dirs_count; bg_flags; bg_exclude_bitmap_lo; bg_block_bitmap_csum_lo;
   bg_inode_bitmap_csum_lo; bg_itable_unused; bg_checksum].

(** [struct ext4_group_desc] *)
Definition bg_block_bitmap_hi := F 32 4.
Definition bg_inode_bitmap_hi := F 36 4.
Definition bg_inode_table_hi := F 40 4.
Definition bg_free_blocks_count_hi := F 44 2.
Definition bg_free_inodes_count_hi := F 46 2.
Definition bg_used_dirs_count_hi := F 48 2.
Definition bg_itable_unused_hi := F 50 2.
Definition bg_exclude_bitmap_hi := F 52 4.
Definition bg_block_bitmap_csum_hi := F 56 2.
Definition bg_inode_bitmap_csum_hi := F 58 2.
Definition bg_reserved := F 60 4.
Definition ext4_group_desc_fields : list field :=
  [bg_block_bitmap; bg_inode_bitmap; bg_inode_table; bg_free_blocks_count; bg_free_inodes_count;
   bg_used_dirs_count; bg_flags; bg_exclude_bitmap_lo; bg_block_bitmap_csum_lo;
   bg_inode_bitmap_csum_lo; bg_itable_unused; bg_checksum; bg_block_bitmap_hi; bg_inode_bitmap_hi;
   bg_inode_table_hi; bg_free_blocks_count_hi; bg_free_inodes_count_hi; bg_used_dirs_count_hi;
   bg_itable_unused_hi; bg_exclude_bitmap_hi; bg_block_bitmap_csum_hi; bg_inode_bitmap_csum_hi;
   bg_reserved].

(** [struct ext2_dirent]: the header of a directory entry and its name. *)
Definition d_inode := F 0 4.
Definition d_rec_len := F 4 2.
Definition d_name_len := F 6 2.
Definition d_name := F 8 255.
Definition dirent_fields : list field :=
  [d_inode; d_rec_len; d_name_len; d_name].

(** [struct ext2_dirent_tail] *)
Definition det_reserved_zero1 := F 0 4.
Definition det_rec_len := F 4 2.
Definition det_reserved_name_len := F 6 2.
Definition det_checksum := F 8 4.
Definition dirent_tail_fields : list field :=
  [det_reserved_zero1; det_rec_len; det_reserved_name_len; det_checksum].

(** [struct ext3_extent_header] *)
Definition eh_magic := F 0 2.
Definition eh_entries := F 2 2.
Definition eh_max := F 4 2.
Definition eh_depth := F 6 2.
Definition eh_generation := F 8 4.
Definition extent_header_fields : list field :=
  [eh_magic; eh_entries; eh_max; eh_depth; eh_generation].

(** [struct ext3_extent_index] *)
Definition ei_block := F 0 4.
Definition ei_leaf := F 4 4.
Definition ei_leaf_hi := F 8 2.
Definition ei_unused := F 10 2.
Definition extent_index_fields : list field :=
  [ei_block; ei_leaf; ei_leaf_hi; ei_unused].

(** [struct ext3_extent] *)
Definition ee_block := F 0 4.
Definition ee_len := F 4 2.
Definition ee_start_hi := F 6 2.
Definition ee_start := F 8 4.
Definition extent_fields : list field :=
  [ee_block; ee_len; ee_start_hi; ee_start].

(** ** Feature flags and derived quantities *)

Abbreviation EXT2_FT_INCOMPAT_FILETYPE := 0x2.
Abbreviation EXT3_FT_INCOMPAT_RECOVER := 0x4.
Abbreviation EXT3_FT_INCOMPAT_JOURNAL_DEV := 0x8.
Abbreviation EXT2_FT_INCOMPAT_META_BG := 0x10.
Abbreviation EXT4_FT_INCOMPAT_64BIT := 0x80.
Abbreviation EXT4_FT_INCOMPAT_MMP := 0x100.
Abbreviation EXT4_FT_INCOMPAT_EA_INODE := 0x400.
Abbreviation EXT4_FT_INCOMPAT_CSUM_SEED := 0x2000.
Abbreviation EXT4_FT_INCOMPAT_LARGEDIR := 0x4000.
Abbreviation EXT2_FT_RO_COMPAT_SPARSE_SUPER := 0x1.
Abbreviation EXT2_FT_RO_COMPAT_LARGE_FILE := 0x2.
Abbreviation EXT4_FT_RO_COMPAT_HUGE_FILE := 0x8.
Abbreviation EXT4_FT_RO_COMPAT_GDT_CSUM := 0x10.
Abbreviation EXT4_FT_RO_COMPAT_BIGALLOC := 0x200.
Abbreviation EXT4_FT_RO_COMPAT_METADATA_CSUM := 0x400.
Abbreviation EXT2_INCOMPAT_SUPPORT := 0x3e7d6.
Abbreviation EXT2_RO_COMPAT_SUPPORT := 0xf77b.
Abbreviation EXT2_OLD_REV := 0.
Abbreviation EXT2_DYNAMIC_REV := 1.
Abbreviation EXT2_OLD_INODE_SIZE := 128.
Abbreviation EXT2_OLD_FIRST_INODE := 11.
Abbreviation EXT2_MIN_DESC_SIZE := 32.

Section inlines.
Context (s : list Z).

Definition incompat (flag : Z) : bool := truthy (Z.land (s ~> s_feature_incompat) flag).
Definition ro_compat (flag : Z) : bool := truthy (Z.land (s ~> s_feature_ro_compat) flag).

Definition EXT2_BLOCK_SIZE : Z := Z.shiftl 1024 (s ~> s_log_block_size).
Definition EXT2_BLOCK_SIZE_BITS : Z := s ~> s_log_block_size + 10.
Definition EXT2_CLUSTER_SIZE : Z := Z.shiftl 1024 (s ~> s_log_cluster_size).
Definition EXT2_INODE_SIZE : Z :=
  if s ~> s_rev_level =? EXT2_OLD_REV then EXT2_OLD_INODE_SIZE else s ~> s_inode_size.
Definition EXT2_DESC_SIZE : Z := if incompat EXT4_FT_INCOMPAT_64BIT then s ~> s_desc_size else EXT2_MIN_DESC_SIZE.
Definition EXT2_FIRST_INODE : Z :=
  if s ~> s_rev_level =? EXT2_OLD_REV then EXT2_OLD_FIRST_INODE else s ~> s_first_ino.
Definition EXT2_DESC_PER_BLOCK : Z := EXT2_BLOCK_SIZE / EXT2_DESC_SIZE.
Definition EXT2_INODES_PER_BLOCK : Z := EXT2_BLOCK_SIZE / EXT2_INODE_SIZE.
Definition EXT2_MAX_BLOCKS_PER_GROUP : Z := u32 (65528 * (EXT2_CLUSTER_SIZE / EXT2_BLOCK_SIZE)).
Definition EXT2_MAX_INODES_PER_GROUP : Z := u32 (65536 - EXT2_INODES_PER_BLOCK).

(** A count that is split over a low and, with 64-bit block numbers, a high
    word of 32 bits; the inline functions of the header for the number of
    blocks, of reserved blocks and of free blocks. *)
Definition split_count (lo hi : field) : Z :=
  s64 (Z.lor (s ~> lo) (if incompat EXT4_FT_INCOMPAT_64BIT then Z.shiftl (s ~> hi) 32 else 0)).
Definition split_count_set (lo hi : field) (n : Z) : list Z :=
  let s1 := setf s lo n in
  if truthy (Z.land (s1 ~> s_feature_incompat) EXT4_FT_INCOMPAT_64BIT) then setf s1 hi (Z.shiftr n 32) else s1.

Definition ext2_blocks_count : Z := split_count s_blocks_count s_blocks_count_hi.
Definition ext2_r_blocks_count : Z := split_count s_r_blocks_count s_r_blocks_count_hi.
Definition ext2_free_blocks_count : Z := split_count s_free_blocks_count s_free_blocks_hi.
Definition ext2_blocks_count_set := split_count_set s_blocks_count s_blocks_count_hi.
Definition ext2_r_blocks_count_set := split_count_set s_r_blocks_count s_r_blocks_count_hi.
Definition ext2_free_blocks_count_set := split_count_set s_free_blocks_count s_free_blocks_hi.
Definition ext2_blocks_count_add (n : Z) : list Z := ext2_blocks_count_set (s64 (ext2_blocks_count + n)).
Definition ext2_r_blocks_count_add (n : Z) : list Z := ext2_r_blocks_count_set (s64 (ext2_r_blocks_count + n)).
Definition ext2_free_blocks_count_add (n : Z) : list Z := ext2_free_blocks_count_set (s64 (ext2_free_blocks_count + n)).

Definition ext2_has_group_desc_checksum : bool :=
  ro_compat (Z.lor EXT4_FT_RO_COMPAT_GDT_CSUM EXT4_FT_RO_COMPAT_METADATA_CSUM).

Definition ext2_update_super_revision : list Z :=
  if EXT2_OLD_REV <? s ~> s_rev_level then s else
  setf (setf (setf s s_rev_level EXT2_DYNAMIC_REV) s_first_ino EXT2_OLD_FIRST_INODE)
    s_inode_size EXT2_OLD_INODE_SIZE.
End inlines.

(** The size of a file and of a directory record. *)
Definition EXT2_I_SIZE (i : list Z) : Z := Z.lor (i ~> i_size) (Z.shiftl (i ~> i_size_high) 32).
Definition ext2_needs_large_file (size : Z) : bool := 0x80000000 <=? size.
Definition ext2_dir_rec_len (name_len : Z) (extended : bool) : Z :=
  let rec_len := u8 name_len + 8 + 3 in
  let rec_len := Z.land rec_len (u32 (Z.lnot 3)) in
  if extended then rec_len + 8 else rec_len.

(** ** Reading back what is stored *)

Lemma le_val_wrap n x : le_val (le_bytes n x) = wrap (8 * Z.of_nat n) x.
Proof.
  revert x. induction n as [|n IH]; intros x; [symmetry; apply Z.mod_1_r|].
  cbn [le_bytes le_val]. rewrite IH, Z.shiftr_div_pow2 by lia. unfold wrap.
  replace (8 * Z.of_nat (S n)) with (8 + 8 * Z.of_nat n) by lia. rewrite Z.pow_add_r by lia.
  change (2 ^ 8) with 256. rewrite (Z.rem_mul_r x 256) by (try apply Z.pow_nonzero; lia). lia.
Qed.

(** A field lies in the structure; two fields share no byte. *)
Definition f_in (s : list Z) (f : field) : Prop := 0 <= f_off f /\ 0 <= f_len f /\ f_off f + f_len f <= zlen s.
Definition f_disjoint (f g : field) : Prop := f_off f + f_len f <= f_off g \/ f_off g + f_len g <= f_off f.

Lemma zlen_setf s f v : f_in s f -> zlen (setf s f v) = zlen s.
Proof.
  intros (H1 & H2 & H3). pose proof (le_bytes_len (Z.to_nat (f_len f)) v) as Hn.
  unfold setf. rewrite !zlen_app, Hn. unfold zlen in *. rewrite length_take, length_drop. lia.
Qed.

Lemma bytes_ok_setf s f v : bytes_ok s -> bytes_ok (setf s f v).
Proof.
  intros H. unfold setf. apply Forall_app. split; [by apply Forall_take|].
  apply Forall_app. split; [apply le_bytes_ok | by apply Forall_drop].
Qed.

Lemma getf_range s f : bytes_ok s -> f_in s f -> 0 <= s ~> f < 2 ^ (8 * f_len f).
Proof.
  intros Hb (H1 & H2 & H3). unfold getf. set (l := take _ _).
  assert (bytes_ok l) as Hl by (by apply Forall_take, Forall_drop).
  assert (zlen l = f_len f) as Hn by (unfold l, zlen in *; rewrite length_take, length_drop; lia).
  pose proof (le_val_range l Hl) as Hr. rewrite Hn in Hr. rewrite (Z.pow_mul_r 2 8) by lia. exact Hr.
Qed.

Lemma setf_lookup_other s f v i : f_in s f -> ~ (f_off f <= Z.of_nat i < f_off f + f_len f) ->
  setf s f v !! i = s !! i.
Proof.
  intros (H1 & H2 & H3) Hi. pose proof (le_bytes_len (Z.to_nat (f_len f)) v) as Hn. unfold setf, zlen in *.
  destruct (decide (i < Z.to_nat (f_off f))%nat).
  - rewrite lookup_app_l by (rewrite length_take; lia). by rewrite lookup_take_lt.
  - rewrite lookup_app_r, length_take by (rewrite length_take; lia).
    rewrite lookup_app_r, lookup_drop by lia. f_equal. lia.
Qed.

Lemma getf_setf_other s f g v : f_in s f -> 0 <= f_off g -> 0 <= f_len g -> f_disjoint f g ->
  (setf s f v) ~> g = s ~> g.
Proof.
  intros Hf Hg1 Hg2 Hd. unfold getf. f_equal. apply list_eq. intros i.
  destruct (decide (i < Z.to_nat (f_len g))%nat).
  - rewrite !lookup_take_lt, !lookup_drop by done. apply setf_lookup_other; [done|].
    unfold f_disjoint in Hd. lia.
  - by rewrite !lookup_take_ge by lia.
Qed.

Lemma getf_setf_same s f v : f_in s f -> (setf s f v) ~> f = wrap (8 * f_len f) v.
Proof.
  intros (H1 & H2 & H3). pose proof (le_bytes_len (Z.to_nat (f_len f)) v) as Hn. unfold getf, setf, zlen in *.
  rewrite drop_app_length' by (rewrite length_take; lia).
  rewrite take_app_length' by lia. rewrite le_val_wrap. f_equal. lia.
Qed.

(** Decides whether two fields are disjoint, and whether one lies in the first
    [n] bytes. *)
Definition disjointb (f g : field) : bool := (f_off f + f_len f <=? f_off g) || (f_off g + f_len g <=? f_off f).
Definition f_inb (n : Z) (f : field) : bool := (0 <=? f_off f) && (0 <=? f_len f) && (f_off f + f_len f <=? n).

Lemma disjointb_spec f g : disjointb f g = true -> f_disjoint f g.
Proof. unfold disjointb, f_disjoint. lia. Qed.

Lemma f_inb_spec n s f : f_inb n f = true -> n <= zlen s -> f_in s f.
Proof. unfold f_inb, f_in. lia. Qed.

(** Every field of the list starts where the one before it ends. *)
Fixpoint packed (off : Z) (l : list field) : bool :=
  match l with
  | [] => true
  | f :: l =>
      (f_off f =? off) && (0 <? f_len f) && packed (off + f_len f) l
  end.

Definition layout_end (l : list field) : Z := foldl (fun o f => o + f_len f) 0 l.

Lemma layout_end_app l o : foldl (fun o f => o + f_len f) o l = o + layout_end l.
Proof.
  unfold layout_end. revert o. induction l as [|f l IH]; intros o; cbn [foldl]; [lia|].
  rewrite IH, (IH (0 + f_len f)). lia.
Qed.

Lemma packed_spec l : forall off, packed off l = true ->
  0 <= layout_end l /\
  Forall (fun f => off <= f_off f /\ 0 < f_len f /\ f_off f + f_len f <= off + layout_end l) l /\
  ForallOrdPairs f_disjoint l.
Proof.
  induction l as [|f l IH]; intros off H; cbn [packed] in H; [split_and!; [done|constructor..]|].
  apply andb_prop in H as [H Hl]. apply andb_prop in H as [Ho Hn].
  assert (f_off f = off /\ 0 < f_len f) as [<- Hn'] by lia.
  destruct (IH _ Hl) as (Hp & Hb & Hd).
  assert (layout_end (f :: l) = f_len f + layout_end l) as Ee
    by (unfold layout_end at 1; cbn [foldl]; rewrite layout_end_app; lia).
  rewrite Ee. split; [lia|]. split.
  - constructor; [lia|]. eapply Forall_impl; [exact Hb|]. simpl. intros g Hg. lia.
  - constructor; [|done]. eapply Forall_impl; [exact Hb|]. simpl. intros g Hg. left. lia.
Qed.

(** The structures of the driver, and their sizes in bytes. *)
Definition layouts : list (list field * Z) :=
  [(super_fields, 1024); (inode_fields, 128); (large_inode_fields, 160); (group_desc_fields, 32);
   (ext4_group_desc_fields, 64); (dirent_tail_fields, 12); (extent_header_fields, 12);
   (extent_index_fields, 12); (extent_fields, 12)].

(** The on-disk structures have their documented sizes and no padding, and
    an assignment to a field of one changes that field to the value cut to its
    width, and no other field. *)
Theorem fields_independent l size f g s v :
  (l, size) ∈ layouts -> f ∈ l -> g ∈ l -> zlen s = size ->
  layout_end l = size /\ zlen (setf s f v) = size /\
  (setf s f v) ~> f = wrap (8 * f_len f) v /\ (f <> g -> (setf s f v) ~> g = s ~> g).
Proof.
  intros Hl Hf Hg Hs.
  assert (packed 0 l = true /\ layout_end l = size) as [Hp He].
  { assert (Forall (fun p => packed 0 p.1 = true /\ layout_end p.1 = p.2) layouts) as Ha
      by (repeat constructor; vm_compute; reflexivity).
    rewrite Forall_forall in Ha. exact (Ha _ Hl). }
  destruct (packed_spec l 0 Hp) as (_ & Hb & Hd). rewrite Forall_forall in Hb.
  pose proof (Hb f Hf) as Hbf. pose proof (Hb g Hg) as Hbg.
  assert (f_in s f) as Hin by (unfold f_in; lia).
  split_and!; [done|by rewrite zlen_setf|by apply getf_setf_same|].
  intros Hne. apply getf_setf_other; [done|lia|lia|].
  rewrite list_elem_of_In in Hf, Hg.
  destruct (ForallOrdPairs_In Hd f g Hf Hg) as [|[H|H]]; [done|done|]. destruct H; [by right | by left].
Qed.

Lemma fields_independent_witness :
  (setf (replicate 1024 7) s_magic 0x1ef53) ~> s_magic = 0xef53 /\
  (setf (replicate 1024 7) s_magic 0x1ef53) ~> s_state = 0x707.
Proof.
  destruct (fields_independent super_fields 1024 s_magic s_state (replicate 1024 7) 0x1ef53)
    as (_ & _ & H1 & H2).
  - apply list_elem_of_In. left. reflexivity.
  - apply list_elem_of_In. vm_compute. tauto.
  - apply list_elem_of_In. vm_compute. tauto.
  - reflexivity.
  - split; [rewrite H1; reflexivity|]. rewrite H2; [reflexivity | discriminate].
Defined.

(** ** Split counts *)

(** Two words and the feature flags, all different fields of the superblock. *)
Definition split_fields (lo hi : field) : bool :=
  (f_len lo =? 4) && (f_len hi =? 4) && f_inb 1024 lo && f_inb 1024 hi && disjointb lo hi &&
  disjointb lo s_feature_incompat && disjointb hi s_feature_incompat.

Lemma s64_small x : - 2 ^ 63 <= x < 2 ^ 63 -> s64 x = x.
Proof. intros Hx. unfold swrap. destruct (Z.ltb_spec (x mod 2 ^ 64) (2 ^ (64 - 1))); divlia. Qed.

Lemma split_count_roundtrip s lo hi n :
  split_fields lo hi = true -> zlen s = 1024 -> 0 <= n < 2 ^ 63 ->
  incompat s EXT4_FT_INCOMPAT_64BIT = true \/ n < 2 ^ 32 ->
  split_count (split_count_set s lo hi n) lo hi = n /\ zlen (split_count_set s lo hi n) = 1024.
Proof.
  unfold split_fields. rewrite !andb_true_iff. intros ((((((L1 & L2) & I1) & I2) & D1) & D2) & D3) Hs Hn Hw.
  apply Z.eqb_eq in L1, L2. apply disjointb_spec in D1, D2, D3.
  assert (f_in s lo) as Hlo by (eapply f_inb_spec; [exact I1|lia]).
  assert (zlen (setf s lo n) = 1024) as Hs1 by (by rewrite zlen_setf).
  assert (f_in (setf s lo n) hi) as Hhi by (eapply f_inb_spec; [exact I2|lia]).
  pose proof Hlo as (? & ? & ?). pose proof Hhi as (? & ? & ?).
  unfold split_count, split_count_set, incompat in *.
  rewrite (getf_setf_other s lo s_feature_incompat) by (try done; simpl; lia).
  destruct (truthy (Z.land (s ~> s_feature_incompat) EXT4_FT_INCOMPAT_64BIT)) eqn:E.
  - rewrite zlen_setf by done. split; [|done].
    rewrite (getf_setf_other _ hi s_feature_incompat), (getf_setf_other s lo s_feature_incompat)
      by (try done; simpl; lia). rewrite E, getf_setf_same, L2 by done.
    assert (f_disjoint hi lo) by (destruct D1; [by right | by left]).
    rewrite (getf_setf_other _ hi lo) by done.
    rewrite getf_setf_same, L1 by done. rewrite Z.shiftr_div_pow2 by lia. change (8 * 4) with 32.
    rewrite lor_high by (try apply wrap_range; lia). 
    assert (0 <= n / 2 ^ 32 < 2 ^ 31) by divlia. rewrite (wrap_small 32 (n / 2 ^ 32)) by lia. unfold wrap.
    pose proof (Z.div_mod n (2 ^ 32) ltac:(lia)) as Hdm. rewrite s64_small; lia.
  - split; [|done]. destruct Hw as [Hw|Hw]; [done|].
    rewrite (getf_setf_other s lo s_feature_incompat), E, Z.lor_0_r, getf_setf_same, L1 by (try done; simpl; lia).
    rewrite wrap_small, s64_small by lia. done.
Qed.

End Ext2Layout.
