(* ===== verification/Ext2Bitmap.v ===== *)
(** * Allocation bitmaps of the ext2 driver (drivers/fs/ext2/bitarray.c, bitmap.c)

    Module [Ext2Bitmap]: the 32-bit bitmaps and the 64-bit bitmaps with their
    bit array, the operations on single bits and on ranges, and the searches
    for the first clear and the first set bit, which look at bits up to a byte
    boundary, at bytes up to a word boundary, and then at words. Reading and
    writing the bitmaps of a filesystem is in [Ext2Fs]. *)

From S2P Require Import Prelude CBits Hash HashMap CString.

Module Ext2Bitmap.
Import CBits Hash HashMap CString.

(** ** Data

    [EXT2_BITMAP_IS_32] and [EXT2_BITMAP_IS_64] tell the two structures apart by
    their magic number; here the constructor does. [array_addr] is the address
    of the bit array, which decides where words start. *)

Abbreviation EXT2_BMAP_MAGIC_BLOCK := 1.
Abbreviation EXT2_BMAP_MAGIC_INODE := 2.
Abbreviation EXT2_BMAP_MAGIC_BLOCK64 := 4.
Abbreviation EXT2_BMAP_MAGIC_INODE64 := 8.

Inductive ext2_bitmap_type := EXT2_BMAP64_BITARRAY | EXT2_BMAP64_RBTREE | EXT2_BMAP64_AUTODIR.

Record ext2_bitmap32 := mk_b32 {
  magic32 : Z; start32 : Z; end32 : Z; real_end32 : Z; bits32 : list Z
}.

Record ext2_bitmap64 := mk_b64 {
  magic64 : Z; start64 : Z; end64 : Z; real_end64 : Z; cluster_bits : Z;
  bitarray : list Z; array_addr : Z
}.

Inductive ext2_bitmap := Bitmap32 (b : ext2_bitmap32) | Bitmap64 (b : ext2_bitmap64).

Definition set_bits32 (b : ext2_bitmap32) (l : list Z) : ext2_bitmap32 :=
  mk_b32 (magic32 b) (start32 b) (end32 b) (real_end32 b) l.
Definition set_bitarray (b : ext2_bitmap64) (l : list Z) : ext2_bitmap64 :=
  mk_b64 (magic64 b) (start64 b) (end64 b) (real_end64 b) (cluster_bits b) l (array_addr b).

(** ** Copies between buffers *)

(** [memcpy (dest + off, src + soff, n)] *)
Definition memcpy_buf (dest : list Z) (off : Z) (src : list Z) (soff n : Z) : option (list Z) :=
  d ← slice src soff n; blit dest off d.

(** ** bitarray.c *)

(** [(bmap->real_end - bmap->start) / 8 + 1] *)
Definition bitarray_size (b : ext2_bitmap64) : Z := u64 (real_end64 b - start64 b) / 8 + 1.

(** [addr] and [arr] are the address and the contents of the memory that the
    allocation of the array returns. *)
Definition ext2_bitarray_alloc_private (b : ext2_bitmap64) (addr : Z) (arr : list Z) :
    M mem (res ext2_bitmap64) :=
  priv ← malloc;
  if negb priv then mret (Err ENOMEM) else
  ok ← malloc;
  if negb ok then mret (Err ENOMEM) else
  mret (Ok (mk_b64 (magic64 b) (start64 b) (end64 b) (real_end64 b) (cluster_bits b)
              arr addr)).

Definition ext2_bitarray_new_bmap (b : ext2_bitmap64) (addr : Z) (arr : list Z) :
    M mem (res ext2_bitmap64) :=
  r ← ext2_bitarray_alloc_private b addr arr;
  match r with
  | Err e => mret (Err e)
  | Ok b =>
      l ← lift (blit (bitarray b) 0 (replicate (Z.to_nat (bitarray_size b)) 0));
      mret (Ok (set_bitarray b l))
  end.

Definition ext2_bitarray_mark_bmap (b : ext2_bitmap64) (arg : Z) : option ext2_bitmap64 :=
  l ← set_bit (bitarray b) (u64 (arg - start64 b)); Some (set_bitarray b l).
Definition ext2_bitarray_unmark_bmap (b : ext2_bitmap64) (arg : Z) : option ext2_bitmap64 :=
  l ← clear_bit (bitarray b) (u64 (arg - start64 b)); Some (set_bitarray b l).
Definition ext2_bitarray_test_bmap (b : ext2_bitmap64) (arg : Z) : option Z :=
  test_bit (bitarray b) (u64 (arg - start64 b)).

(** [for (i = 0; i < num; i++) op (bits, base + i - start)] *)
Fixpoint each_bit (op : list Z -> Z -> option (list Z)) (n : nat) (bits : list Z) (base start : Z) :
    option (list Z) :=
  match n with
  | O => Some bits
  | S n => l ← op bits (u64 (base - start)); each_bit op n l (base + 1) start
  end.

Definition ext2_bitarray_mark_bmap_extent (b : ext2_bitmap64) (arg num : Z) : option ext2_bitmap64 :=
  l ← each_bit set_bit (Z.to_nat num) (bitarray b) arg (start64 b); Some (set_bitarray b l).
Definition ext2_bitarray_unmark_bmap_extent (b : ext2_bitmap64) (arg num : Z) : option ext2_bitmap64 :=
  l ← each_bit clear_bit (Z.to_nat num) (bitarray b) arg (start64 b); Some (set_bitarray b l).

Definition ext2_bitarray_set_bmap_range (b : ext2_bitmap64) (start num : Z) (data : list Z) :
    option ext2_bitmap64 :=
  l ← memcpy_buf (bitarray b) (Z.shiftr start 3) data 0 (Z.shiftr (u64 (num + 7)) 3);
  Some (set_bitarray b l).
Definition ext2_bitarray_get_bmap_range (b : ext2_bitmap64) (start num : Z) (data : list Z) :
    option (list Z) :=
  memcpy_buf data 0 (bitarray b) (Z.shiftr start 3) (Z.shiftr (u64 (num + 7)) 3).

(** *** Searches

    [ext2_bitarray_find_first_zero] and [ext2_bitarray_find_first_set] have the
    same loops; [want] is the value of the bit they look for. *)
Section find.
Context (fuel : nat) (want : bool) (b : ext2_bitmap64).

(** A byte or a word of [n] bytes in which no bit has the value. *)
Definition barren (n : Z) (x : Z) : bool := x =? (if want then 0 else 2 ^ (8 * n) - 1).
Definition bit_found (t : Z) : bool := Bool.eqb (truthy t) want.

(** [while ((bitpos & 7) && count > 0)] *)
Definition find_to_byte (st : Z * Z) : option (ctl (Z * Z) Z) :=
  let '(bitpos, count) := st in
  if negb (truthy (Z.land bitpos 7) && (0 <? count)) then Some (Break st) else
  t ← test_bit (bitarray b) bitpos;
  Some (if bit_found t then Ret (u64 (bitpos + start64 b)) else Cont (u64 (bitpos + 1), count - 1)).

(** [while (count >= 8 && ((uintptr_t) pos & 7))]; the flag is [found]. *)
Definition find_to_word (st : Z * Z * Z * bool) : option (ctl (Z * Z * Z * bool) Empty_set) :=
  let '(pos, count, bitpos, found) := st in
  if negb ((8 <=? count) && truthy (Z.land (u64 (array_addr b + pos)) 7)) then Some (Break st) else
  x ← (bitarray b).[pos];
  Some (if negb (barren 1 x) then Break (pos, count, bitpos, true)
        else Cont (pos + 1, count - 8, u64 (bitpos + 8), found)).

(** [while (i)] over words, and over bytes. *)
Definition find_words (st : Z * Z) : option (ctl (Z * Z) Empty_set) :=
  let '(pos, i) := st in
  if i =? 0 then Some (Break st) else
  w ← load_le 8 (bitarray b) pos;
  Some (if negb (barren 8 w) then Break st else Cont (pos + 8, i - 1)).
Definition find_bytes (st : Z * Z) : option (ctl (Z * Z) Empty_set) :=
  let '(pos, i) := st in
  if i =? 0 then Some (Break st) else
  x ← (bitarray b).[pos];
  Some (if negb (barren 1 x) then Break st else Cont (pos + 1, i - 1)).

(** [while (count-- > 0)] *)
Definition find_last (st : Z * Z) : option (ctl (Z * Z) Z) :=
  let '(bitpos, count) := st in
  if negb (0 <? count) then Some (Break st) else
  t ← test_bit (bitarray b) bitpos;
  Some (if bit_found t then Ret (u64 (bitpos + start64 b)) else Cont (u64 (bitpos + 1), count - 1)).

Definition ext2_bitarray_find_first (start end_ : Z) : option (res Z) :=
  r ← loop fuel find_to_byte (u64 (start - start64 b), u64 (end_ - start + 1));
  match r with
  | inr x => Some (Ok x)
  | inl (bitpos, count) =>
      if count =? 0 then Some (Err ENOENT) else
      '(pos, count, bitpos, found) ←
        fell <$> loop fuel find_to_word (Z.shiftr bitpos 3, count, bitpos, false);
      '(count, bitpos) ← (if found : bool then Some (count, bitpos) else
          let max_loop := Z.shiftr count 6 in
          '(pos, i) ← fell <$> loop fuel find_words (pos, max_loop);
          let count := u64 (count - 64 * (max_loop - i)) in
          let bitpos := u64 (bitpos + 64 * (max_loop - i)) in
          let max_loop := Z.shiftr count 3 in
          '(pos, i) ← fell <$> loop fuel find_bytes (pos, max_loop);
          Some (u64 (count - 8 * (max_loop - i)), u64 (bitpos + 8 * (max_loop - i))));
      r ← loop fuel find_last (bitpos, count);
      Some (match r with inr x => Ok x | inl _ => Err ENOENT end)
  end.
End find.

Definition ext2_bitarray_find_first_zero (fuel : nat) := ext2_bitarray_find_first fuel false.
Definition ext2_bitarray_find_first_set (fuel : nat) := ext2_bitarray_find_first fuel true.

(** ** bitmap.c: making bitmaps *)

Definition ext2_make_bitmap_32 (magic start end_ real_end : Z) (initmap : option (list Z)) (arr : list Z) :
    M mem (res ext2_bitmap) :=
  ok ← malloc;
  if negb ok then mret (Err ENOMEM) else
  let size := u32 (real_end - start) / 8 + 1 in
  let size := Z.land (size + 7) (Z.lnot 3) in
  ok ← malloc;
  if negb ok then mret (Err ENOMEM) else
  l ← lift (match initmap with
            | Some m => memcpy_buf arr 0 m 0 size
            | None => blit arr 0 (replicate (Z.to_nat size) 0)
            end);
  mret (Ok (Bitmap32 (mk_b32 magic start end_ real_end l))).

Definition ext2_make_bitmap_64 (ratio_bits magic : Z) (type : ext2_bitmap_type)
    (start end_ real_end : Z) (addr : Z) (arr : list Z) : M mem (res ext2_bitmap) :=
  match type with
  | EXT2_BMAP64_BITARRAY =>
      ok ← malloc;
      if negb ok then mret (Err ENOMEM) else
      let bits := if magic =? EXT2_BMAP_MAGIC_BLOCK64 then ratio_bits else 0 in
      r ← ext2_bitarray_new_bmap (mk_b64 magic start end_ real_end bits [] 0) addr arr;
      mret (match r with Ok b => Ok (Bitmap64 b) | Err e => Err e end)
  | _ => mret (Err EUCLEAN)
  end.

(** ** bitmap.c: single bits and ranges; [None] of the argument is NULL *)

(** [arg & ~0xffffffffUL] *)
Definition above32 (arg : Z) : bool := truthy (Z.land arg (u64 (Z.lnot 0xffffffff))).

Definition ext2_mark_bitmap (bmap : option ext2_bitmap) (arg : Z) : option (option ext2_bitmap) :=
  match bmap with
  | None => Some bmap
  | Some (Bitmap32 b) =>
      if above32 arg then Some bmap else
      if (arg <? start32 b) || (end32 b <? arg) then Some bmap else
      l ← set_bit (bits32 b) (u64 (arg - start32 b));
      Some (Some (Bitmap32 (set_bits32 b l)))
  | Some (Bitmap64 b) =>
      let arg := Z.shiftr arg (cluster_bits b) in
      if (arg <? start64 b) || (end64 b <? arg) then Some bmap else
      b ← ext2_bitarray_mark_bmap b arg;
      Some (Some (Bitmap64 b))
  end.

Definition ext2_unmark_bitmap (bmap : option ext2_bitmap) (arg : Z) : option (option ext2_bitmap) :=
  match bmap with
  | None => Some bmap
  | Some (Bitmap32 b) =>
      if above32 arg then Some bmap else
      if (arg <? start32 b) || (end32 b <? arg) then Some bmap else
      l ← clear_bit (bits32 b) (u64 (arg - start32 b));
      Some (Some (Bitmap32 (set_bits32 b l)))
  | Some (Bitmap64 b) =>
      let arg := Z.shiftr arg (cluster_bits b) in
      if (arg <? start64 b) || (end64 b <? arg) then Some bmap else
      b ← ext2_bitarray_unmark_bmap b arg;
      Some (Some (Bitmap64 b))
  end.

Definition ext2_test_bitmap (bmap : option ext2_bitmap) (arg : Z) : option Z :=
  match bmap with
  | None => Some 0
  | Some (Bitmap32 b) =>
      if above32 arg then Some 0 else
      if (arg <? start32 b) || (end32 b <? arg) then Some 0 else
      test_bit (bits32 b) (u64 (arg - start32 b))
  | Some (Bitmap64 b) =>
      let arg := Z.shiftr arg (cluster_bits b) in
      if (arg <? start64 b) || (end64 b <? arg) then Some 0 else
      ext2_bitarray_test_bmap b arg
  end.

(** The counter of the loop on a 32-bit bitmap is an [int], that of the loop on
    a 64-bit bitmap an [unsigned int]. *)
Definition ext2_mark_block_bitmap_range (bmap : option ext2_bitmap) (block num : Z) :
    option (option ext2_bitmap) :=
  let end_ := u64 (block + num) in
  match bmap with
  | None => Some bmap
  | Some (Bitmap32 b) =>
      if above32 block || above32 (u64 (block + num - 1)) then Some bmap else
      if (block <? start32 b) || (end32 b <? block) || (end32 b <? u64 (block + num - 1)) then Some bmap else
      if 2 ^ 31 <=? num then None else
      l ← each_bit set_bit (Z.to_nat num) (bits32 b) block (start32 b);
      Some (Some (Bitmap32 (set_bits32 b l)))
  | Some (Bitmap64 b) =>
      let block := Z.shiftr block (cluster_bits b) in
      let end_ := Z.shiftr (u64 (end_ + (2 ^ cluster_bits b - 1))) (cluster_bits b) in
      let num := s64 (end_ - block) in
      if (block <? start64 b) || (end64 b <? block) || (end64 b <? u64 (block + num - 1)) then Some bmap else
      b ← ext2_bitarray_mark_bmap_extent b block (u32 num);
      Some (Some (Bitmap64 b))
  end.

Definition ext2_set_bitmap_range (bmap : option ext2_bitmap) (start num : Z) (data : list Z) :
    option (res (option ext2_bitmap)) :=
  match bmap with
  | None => Some (Err EINVAL)
  | Some (Bitmap32 b) =>
      if above32 (u64 (start + num - 1)) then Some (Err EUCLEAN) else
      if (start <? start32 b) || (real_end32 b <? u64 (start + num - 1)) then Some (Err EUCLEAN) else
      l ← memcpy_buf (bits32 b) (Z.shiftr (u64 (start - start32 b)) 3) data 0 (Z.shiftr (u32 (num + 7)) 3);
      Some (Ok (Some (Bitmap32 (set_bits32 b l))))
  | Some (Bitmap64 b) =>
      b ← ext2_bitarray_set_bmap_range b start num data;
      Some (Ok (Some (Bitmap64 b)))
  end.

(** The buffer after the call. *)
Definition ext2_get_bitmap_range (bmap : option ext2_bitmap) (start num : Z) (data : list Z) :
    option (res (list Z)) :=
  match bmap with
  | None => Some (Err EINVAL)
  | Some (Bitmap32 b) =>
      if above32 (u64 (start + num - 1)) then Some (Err EUCLEAN) else
      if (start <? start32 b) || (real_end32 b <? u64 (start + num - 1)) then Some (Err EUCLEAN) else
      l ← memcpy_buf data 0 (bits32 b) (Z.shiftr (u64 (start - start32 b)) 3) (Z.shiftr (u32 (num + 7)) 3);
      Some (Ok l)
  | Some (Bitmap64 b) =>
      l ← ext2_bitarray_get_bmap_range b start num data;
      Some (Ok l)
  end.

(** [while (start <= end)] on a 32-bit bitmap. *)
Definition find_zero32 (b : ext2_bitmap32) (end_ : Z) (start : Z) : option (ctl Z Z) :=
  if end_ <? start then Some (Break start) else
  t ← test_bit (bits32 b) (u64 (start - start32 b));
  Some (if truthy (u32 t) then Cont (u64 (start + 1)) else Ret start).

Definition ext2_find_first_zero_bitmap (fuel : nat) (bmap : option ext2_bitmap) (start end_ : Z) :
    option (res Z) :=
  match bmap with
  | None => Some (Err EINVAL)
  | Some (Bitmap32 b) =>
      if above32 start || above32 end_ then Some (Err EUCLEAN) else
      if (start <? start32 b) || (end32 b <? end_) || (end_ <? start) then Some (Err EUCLEAN) else
      r ← loop fuel (find_zero32 b end_) start;
      Some (match r with inr x => Ok x | inl _ => Err ENOENT end)
  | Some (Bitmap64 b) =>
      let cstart := Z.shiftr start (cluster_bits b) in
      let cend := Z.shiftr end_ (cluster_bits b) in
      if (cstart <? start64 b) || (end64 b <? cend) || (end_ <? start) then Some (Err EUCLEAN) else
      r ← ext2_bitarray_find_first_zero fuel b cstart cend;
      Some (match r with
            | Ok cout =>
                let cout := u64 (Z.shiftl cout (cluster_bits b)) in
                Ok (if start <=? cout then cout else start)
            | Err e => Err e
            end)
  end.

(** ** Bits of bytes and words *)

Lemma le_val_zero l : bytes_ok l -> le_val l = 0 -> Forall (eq 0) l.
Proof.
  induction 1 as [|x l Hx Hl IH]; [done|]. cbn [le_val]. intros E.
  pose proof (le_val_range l Hl). constructor; [lia|]. apply IH. lia.
Qed.

Lemma le_val_ones l : bytes_ok l -> le_val l = 256 ^ zlen l - 1 -> Forall (eq 255) l.
Proof.
  induction 1 as [|x l Hx Hl IH]; [done|]. cbn [le_val]. rewrite zlen_cons, Z.pow_add_r by (try apply zlen_nonneg; lia).
  intros E. pose proof (le_val_range l Hl). constructor; [lia|]. apply IH. lia.
Qed.

Section search.
Context (want : bool) (b : ext2_bitmap64) (lo hi : Z).

Abbreviation bits := (bitarray b).

Hypothesis Hok : bytes_ok bits.
Hypothesis Hlo : 0 <= lo.
Hypothesis Hhi : hi <= 8 * zlen bits.
Hypothesis Hwidth : 8 * zlen bits < 2 ^ 64.
Hypothesis Hstart : 0 <= start64 b /\ hi + start64 b <= 2 ^ 64.

(** No bit of the range has the value. *)
Definition nohit (i j : Z) : Prop := forall k, i <= k < j -> bit_at bits k = negb want.

Lemma nohit_app i j k : nohit i j -> nohit j k -> nohit i k.
Proof. intros H1 H2 x Hx. destruct (Z.lt_ge_cases x j); [apply H1 | apply H2]; lia. Qed.

Lemma nohit_nil i j : j <= i -> nohit i j.
Proof. intros H k Hk. lia. Qed.

Lemma barren_byte x k : 0 <= k < 8 -> barren want 1 x = true -> Z.testbit x k = negb want.
Proof.
  unfold barren. intros Hk H%Z.eqb_eq. subst x. destruct want; simpl.
  - apply Z.testbit_0_l.
  - change (2 ^ (8 * 1) - 1) with (Z.ones 8). apply Z.ones_spec_low. lia.
Qed.

Lemma byte_nohit pos x : bits.[pos] = Some x -> barren want 1 x = true -> nohit (8 * pos) (8 * pos + 8).
Proof.
  intros Hx Hb k Hk. unfold bit_at. rewrite shr3, land7. replace (k / 8) with pos by divlia.
  rewrite Hx. apply barren_byte; [divlia|done].
Qed.

Lemma word_bytes_barren l : bytes_ok l -> length l = 8%nat -> barren want 8 (le_val l) = true ->
  Forall (fun x => barren want 1 x = true) l.
Proof.
  intros Hl Hn. unfold barren. destruct want; intros H%Z.eqb_eq.
  - eapply Forall_impl; [by apply le_val_zero|]. intros x <-. done.
  - eapply Forall_impl; [apply le_val_ones; [done|]|].
    + unfold zlen. rewrite Hn. exact H.
    + intros x <-. done.
Qed.

Lemma word_nohit pos w : load_le 8 bits pos = Some w -> barren want 8 w = true -> nohit (8 * pos) (8 * pos + 64).
Proof.
  unfold load_le. destruct (Z.leb_spec 0 pos), (Z.leb_spec (pos + Z.of_nat 8) (zlen bits)); try done.
  cbn [andb]. intros [= <-] Hb k Hk.
  apply word_bytes_barren in Hb.
  2: by apply Forall_take, Forall_drop.
  2: { rewrite length_take, length_drop. unfold zlen in *. lia. }
  rewrite Forall_lookup in Hb.
  destruct (zlookup_lt_Some bits (k / 8)) as [x Hx]; [divlia|].
  apply (byte_nohit (k / 8) x Hx); [|divlia].
  apply (Hb (Z.to_nat (k / 8 - pos))). rewrite lookup_take_lt by divlia.
  rewrite lookup_drop. unfold zlookup in Hx. destruct (Z.ltb_spec (k / 8) 0); [done|].
  rewrite <- Hx. f_equal. divlia.
Qed.

(** ** The loops of the searches *)

Definition found_at (x : Z) : Prop :=
  exists i, x = i + start64 b /\ lo <= i < hi /\ bit_at bits i = want /\ nohit lo i.

(** [count] bits from [bitpos] on are left to look at. *)
Definition searching (bitpos count : Z) : Prop :=
  lo <= bitpos /\ 0 <= count /\ bitpos + count = hi /\ nohit lo bitpos.

Lemma searching_step bitpos count n :
  searching bitpos count -> 0 <= n <= count -> nohit bitpos (bitpos + n) -> searching (bitpos + n) (count - n).
Proof.
  intros (H1 & H2 & H3 & H4) Hn H. split_and!; try lia. by apply (nohit_app lo bitpos).
Qed.

Lemma bit_step bitpos count : searching bitpos count -> 0 < count ->
  exists t, test_bit bits bitpos = Some t /\
    (if bit_found want t then found_at (u64 (bitpos + start64 b))
     else searching (u64 (bitpos + 1)) (count - 1)).
Proof.
  intros Hs Hc. pose proof Hs as (H1 & H2 & H3 & H4).
  destruct (test_bit_spec bits bitpos) as (t & Ht & Htr); [lia|]. exists t. split; [done|].
  nowrap. unfold bit_found. rewrite Htr. destruct (Bool.eqb_spec (bit_at bits bitpos) want) as [E|E].
  - exists bitpos. auto with lia.
  - apply searching_step; [done|lia|]. intros k Hk. replace k with bitpos by lia.
    by destruct (bit_at bits bitpos), want.
Qed.

Lemma find_to_byte_ok fuel bitpos count :
  searching bitpos count -> (Z.to_nat count < fuel)%nat ->
  exists r, loop fuel (find_to_byte want b) (bitpos, count) = Some r /\
    match r with
    | inr x => found_at x
    | inl (bitpos, count) => searching bitpos count /\ (bitpos mod 8 = 0 \/ count = 0)
    end.
Proof.
  intros Hs Hf.
  apply (loop_inv _ (fun st => searching st.1 st.2) (fun st => Z.to_nat st.2)); [|done..].
  intros [bp c] H. cbn [fst snd] in *. unfold find_to_byte. rewrite land7. pose proof H as (H1 & H2 & H3 & H4).
  unfold truthy. destruct (Z.eqb_spec (bp mod 8) 0) as [E|E]; cbn [andb negb].
  { eexists. split; [done|]. simpl. auto. }
  destruct (Z.ltb_spec 0 c) as [Hc|Hc]; cbn [negb].
  2: { eexists. split; [done|]. simpl. split; [done|]. right. lia. }
  destruct (bit_step bp c H Hc) as (t & Ht & Hn). rewrite Ht. orun.
  eexists. split; [done|]. destruct (bit_found want t); [done|]. simpl. split; [done|lia].
Qed.

Lemma find_last_ok fuel bitpos count :
  searching bitpos count -> (Z.to_nat count < fuel)%nat ->
  exists r, loop fuel (find_last want b) (bitpos, count) = Some r /\
    match r with inr x => found_at x | inl _ => nohit lo hi end.
Proof.
  intros Hs Hf.
  apply (loop_inv _ (fun st => searching st.1 st.2) (fun st => Z.to_nat st.2)); [|done..].
  intros [bp c] H. cbn [fst snd] in *. unfold find_last. pose proof H as (H1 & H2 & H3 & H4).
  destruct (Z.ltb_spec 0 c) as [Hc|Hc]; cbn [negb].
  2: { eexists. split; [done|]. by replace hi with bp by lia. }
  destruct (bit_step bp c H Hc) as (t & Ht & Hn). rewrite Ht. orun.
  eexists. split; [done|]. destruct (bit_found want t); [done|]. simpl. split; [done|lia].
Qed.

Lemma find_to_word_ok fuel pos count bitpos :
  searching bitpos count -> bitpos = 8 * pos -> (Z.to_nat count < fuel)%nat ->
  exists pos' count' bitpos' found,
    fell <$> loop fuel (find_to_word want b) (pos, count, bitpos, false) = Some (pos', count', bitpos', found) /\
    searching bitpos' count' /\ count' <= count /\ bitpos' = 8 * pos'.
Proof.
  intros Hs Hp Hf.
  destruct (loop_inv (find_to_word want b)
    (fun '(p, c, bp, _) => searching bp c /\ c <= count /\ bp = 8 * p) (fun '(p, c, bp, _) => Z.to_nat c)
    (fun r => let '(p, c, bp, _) := fell r in searching bp c /\ c <= count /\ bp = 8 * p))
    with (fuel := fuel) (s := (pos, count, bitpos, false)) as (r & Hr & HQ); [|auto with lia|done|].
  - intros [[[p c] bp] fd] (H & Hc & Hbp). pose proof H as (H1 & H2 & H3 & H4). unfold find_to_word.
    destruct (Z.leb_spec 8 c) as [Hge|]; cbn [andb negb]; [|eexists; split; [done|]; simpl; auto].
    destruct (truthy _); cbn [negb]; [|eexists; split; [done|]; simpl; auto].
    destruct (zlookup_lt_Some bits p) as [x Hx]; [lia|]. rewrite Hx. orun. eexists. split; [done|].
    destruct (barren want 1 x) eqn:Eb; cbn [negb]; [|simpl; auto].
    nowrap. split; [|lia]. split_and!; [|lia..]. subst bp.
    apply searching_step; [done|lia|]. by apply (byte_nohit p x).
  - destruct (fell r) as [[[p c] bp] fd] eqn:E. rewrite Hr. cbn [fmap option_fmap option_map]. rewrite E.
    exists p, c, bp, fd. auto.
Qed.

(** A loop over units of [n] bits that are skipped while they are barren. *)
Lemma find_units_ok (n : Z) (body : Z * Z -> option (ctl (Z * Z) Empty_set)) fuel pos i count bitpos :
  0 < n <= 8 ->
  (forall p j, 0 <= p -> 0 < j -> 8 * p + 8 * n * j <= hi -> lo <= 8 * p -> exists c, body (p, j) = Some c /\
     (c = Break (p, j) \/ c = Cont (p + n, j - 1) /\ nohit (8 * p) (8 * (p + n)))) ->
  (forall p, body (p, 0) = Some (Break (p, 0))) ->
  searching bitpos count -> bitpos = 8 * pos -> 0 <= i -> 8 * n * i <= count -> (Z.to_nat i < fuel)%nat ->
  exists pos' i', fell <$> loop fuel body (pos, i) = Some (pos', i') /\ 0 <= i' <= i /\
    pos' = pos + n * (i - i') /\ searching (bitpos + 8 * n * (i - i')) (count - 8 * n * (i - i')).
Proof.
  intros Hn Hbody Hzero Hs Hp Hi Hc Hf.
  destruct (loop_inv body
    (fun '(p, j) => 0 <= j <= i /\ p = pos + n * (i - j) /\
       searching (bitpos + 8 * n * (i - j)) (count - 8 * n * (i - j))) (fun '(p, j) => Z.to_nat j)
    (fun r => let '(p, j) := fell r in 0 <= j <= i /\ p = pos + n * (i - j) /\
       searching (bitpos + 8 * n * (i - j)) (count - 8 * n * (i - j))))
    with (fuel := fuel) (s := (pos, i)) as (r & Hr & HQ); [| |done|].
  - intros [p j] (Hj & -> & H). destruct (Z.eq_dec j 0) as [->|Hj0].
    { rewrite Hzero. eexists. split; [done|]. simpl. auto with lia. }
    pose proof H as (H1 & H2 & H3 & H4).
    destruct (Hbody (pos + n * (i - j)) j) as (c & -> & Hc'); [nia|lia|nia|nia|].
    eexists. split; [done|]. destruct Hc' as [-> | [-> Hno]]; simpl; [auto with lia|].
    split; [|lia]. split_and!; [lia..|].
    replace (bitpos + 8 * n * (i - (j - 1))) with (bitpos + 8 * n * (i - j) + 8 * n) by lia.
    replace (count - 8 * n * (i - (j - 1))) with (count - 8 * n * (i - j) - 8 * n) by lia.
    apply searching_step; [done|nia|].
    replace (bitpos + 8 * n * (i - j)) with (8 * (pos + n * (i - j))) by lia.
    by replace (8 * (pos + n * (i - j)) + 8 * n) with (8 * (pos + n * (i - j) + n)) by lia.
  - split_and!; [lia..|]. by rewrite Z.sub_diag, Z.mul_0_r, Z.add_0_r, Z.sub_0_r.
  - destruct (fell r) as [p j] eqn:E. rewrite Hr. cbn [fmap option_fmap option_map]. rewrite E.
    exists p, j. auto.
Qed.

Lemma load_le_some pos : 0 <= pos -> pos + 8 <= zlen bits -> exists w, load_le 8 bits pos = Some w.
Proof.
  intros H1 H2. unfold load_le. destruct (Z.leb_spec 0 pos), (Z.leb_spec (pos + Z.of_nat 8) (zlen bits)); try lia.
  by eexists.
Qed.

Lemma find_words_ok fuel pos i count bitpos :
  searching bitpos count -> bitpos = 8 * pos -> 0 <= i -> 64 * i <= count -> (Z.to_nat i < fuel)%nat ->
  exists pos' i', fell <$> loop fuel (find_words want b) (pos, i) = Some (pos', i') /\ 0 <= i' <= i /\
    pos' = pos + 8 * (i - i') /\ searching (bitpos + 64 * (i - i')) (count - 64 * (i - i')).
Proof.
  intros. apply (find_units_ok 8); try done.
  intros p j Hp Hj Hl Hlo'. unfold find_words. destruct (Z.eqb_spec j 0); [lia|].
  destruct (load_le_some p) as [w Hw]; [lia..|]. rewrite Hw. orun. eexists. split; [done|].
  destruct (barren want 8 w) eqn:E; cbn [negb]; [right | by left]. split; [done|].
  replace (8 * (p + 8)) with (8 * p + 64) by lia. by apply (word_nohit p w).
Qed.

Lemma find_bytes_ok fuel pos i count bitpos :
  searching bitpos count -> bitpos = 8 * pos -> 0 <= i -> 8 * i <= count -> (Z.to_nat i < fuel)%nat ->
  exists pos' i', fell <$> loop fuel (find_bytes want b) (pos, i) = Some (pos', i') /\ 0 <= i' <= i /\
    pos' = pos + (i - i') /\ searching (bitpos + 8 * (i - i')) (count - 8 * (i - i')).
Proof.
  intros. destruct (find_units_ok 1 (find_bytes want b) fuel pos i count bitpos)
    as (p' & i' & H1' & H2' & H3' & H4'); try done.
  - intros p j Hp Hj Hl Hlo'. unfold find_bytes. destruct (Z.eqb_spec j 0); [lia|].
    destruct (zlookup_lt_Some bits p) as [x Hx]; [lia|]. rewrite Hx. orun. eexists. split; [done|].
    destruct (barren want 1 x) eqn:E; cbn [negb]; [right | by left]. split; [done|].
    replace (8 * (p + 1)) with (8 * p + 8) by lia. by apply (byte_nohit p x).
  - exists p', i'. split_and!; [done|lia..|done].
Qed.
(** What follows the byte boundary: bytes, words, bytes, bits. *)
Lemma find_rest_ok fuel bitpos count :
  searching bitpos count -> bitpos mod 8 = 0 -> hi - lo < Z.of_nat fuel ->
  exists count' bitpos', 
    ('(pos, count, bitpos, found) ←
        fell <$> loop fuel (find_to_word want b) (Z.shiftr bitpos 3, count, bitpos, false);
      if found : bool then Some (count, bitpos) else
      let max_loop := Z.shiftr count 6 in
      '(pos, i) ← fell <$> loop fuel (find_words want b) (pos, max_loop);
      let count := u64 (count - 64 * (max_loop - i)) in
      let bitpos := u64 (bitpos + 64 * (max_loop - i)) in
      let max_loop := Z.shiftr count 3 in
      '(pos, i) ← fell <$> loop fuel (find_bytes want b) (pos, max_loop);
      Some (u64 (count - 8 * (max_loop - i)), u64 (bitpos + 8 * (max_loop - i)))) = Some (count', bitpos') /\
    searching bitpos' count'.
Proof.
  intros H1 Hal Hf. pose proof H1 as (H1a & H1b & H1c & H1d). rewrite shr3.
  destruct (find_to_word_ok fuel (bitpos / 8) count bitpos H1 ltac:(divlia) ltac:(lia))
    as (pos & c2 & bp2 & fd & Hr2 & H2 & Hle & Hbp2).
  rewrite Hr2. orun. pose proof H2 as (H2a & H2b & H2c & H2d). destruct fd; [eauto|].
  rewrite (Z.shiftr_div_pow2 c2 6) by lia. change (2 ^ 6) with 64.
  destruct (find_words_ok fuel pos (c2 / 64) c2 bp2 H2 Hbp2 ltac:(divlia) ltac:(divlia) ltac:(divlia))
    as (pos3 & i3 & Hr3 & Hi3 & Hp3 & H3).
  rewrite Hr3. orun. pose proof H3 as (H3a & H3b & H3c & H3d).
  rewrite (wrap_small 64 (c2 - _)), (wrap_small 64 (bp2 + _)) by lia.
  set (c3 := c2 - 64 * _) in *. set (bp3 := bp2 + 64 * _) in *.
  destruct (find_bytes_ok fuel pos3 (c3 / 8) c3 bp3 H3 ltac:(unfold bp3; lia) ltac:(divlia) ltac:(divlia)
    ltac:(divlia)) as (pos4 & i4 & Hr4 & Hi4 & Hp4 & H4).
  rewrite !shr3, Hr4. orun. pose proof H4 as (H4a & H4b & H4c & H4d).
  rewrite (wrap_small 64 (c3 - _)), (wrap_small 64 (bp3 + _)) by lia. eauto.
Qed.
End search.

(** ** First clear and first set bit *)

(** The answer of a search: the least number of the range for which the
    predicate holds, or [ENOENT] when there is none. *)
Definition least_of (P : Z -> bool) (lo hi : Z) (r : res Z) : Prop :=
  match r with
  | Ok x => lo <= x <= hi /\ P x = true /\ forall y, lo <= y < x -> P y = false
  | Err e => e = ENOENT /\ forall y, lo <= y <= hi -> P y = false
  end.

(** The geometry of a bitmap and the size of its array agree. *)
Record wf64 (b : ext2_bitmap64) : Prop := {
  wf64_bytes : bytes_ok (bitarray b);
  wf64_range : 0 <= start64 b <= end64 b;
  wf64_end : end64 b <= real_end64 b < 2 ^ 64 - 1;
  wf64_size : real_end64 b - start64 b < 8 * zlen (bitarray b) < 2 ^ 64;
  wf64_cluster : 0 <= cluster_bits b < 32
}.

(** Bit of a cluster. *)
Definition marked64 (b : ext2_bitmap64) (c : Z) : bool := bit_at (bitarray b) (c - start64 b).

(** The range of bits that a search for blocks looks at. *)
Lemma found_least want b start end_ x :
  found_at want b (start - start64 b) (end_ - start64 b + 1) x ->
  least_of (fun c => Bool.eqb (marked64 b c) want) start end_ (Ok x).
Proof.
  intros (i & -> & Hi & Hb & Hno). split; [lia|]. unfold marked64.
  replace (i + start64 b - start64 b) with i by lia. split; [rewrite Hb; apply Bool.eqb_reflx|].
  intros y Hy. rewrite Hno by lia. by destruct want.
Qed.

Lemma nohit_least want b start end_ :
  nohit want b (start - start64 b) (end_ - start64 b + 1) ->
  least_of (fun c => Bool.eqb (marked64 b c) want) start end_ (Err ENOENT).
Proof. intros Hno. split; [done|]. intros y Hy. unfold marked64. rewrite Hno by lia. by destruct want. Qed.

Lemma find_first_ok want b fuel start end_ :
  wf64 b -> start64 b <= start <= end_ -> end_ <= end64 b -> end_ - start + 1 < Z.of_nat fuel ->
  exists r, ext2_bitarray_find_first fuel want b start end_ = Some r /\
    least_of (fun c => Bool.eqb (marked64 b c) want) start end_ r.
Proof.
  intros [Hok Hr He Hs Hcb] Hse Hee Hf.
  set (lo := start - start64 b). set (hi := end_ - start64 b + 1).
  assert (hi - lo = end_ - start + 1) as Hhl by (unfold hi, lo; lia).
  assert (0 <= lo) as Hlo by (unfold lo; lia). assert (hi <= 8 * zlen (bitarray b)) as Hhi by (unfold hi; lia).
  assert (0 <= start64 b /\ hi + start64 b <= 2 ^ 64) as Hst by (unfold hi; lia).
  assert (8 * zlen (bitarray b) < 2 ^ 64) as Hw by lia.
  unfold ext2_bitarray_find_first. rewrite (wrap_small 64 (start - start64 b)), (wrap_small 64 (end_ - start + 1)) by lia.
  assert (searching want b lo hi lo (end_ - start + 1)) as H0
    by (unfold searching; split_and!; try lia; apply nohit_nil; lia).
  destruct (find_to_byte_ok want b lo hi Hlo Hhi Hw Hst fuel lo (end_ - start + 1) H0 ltac:(lia))
    as (r & Hr1 & HQ1). fold lo. rewrite Hr1. orun.
  destruct r as [[bp c]|x]; [|eexists; split; [done|]; by apply found_least].
  destruct HQ1 as [H1 Hal]. pose proof H1 as (H1a & H1b & H1c & H1d).
  destruct (Z.eqb_spec c 0) as [->|Hc].
  { eexists. split; [done|]. apply nohit_least. fold lo hi. by replace hi with bp by lia. }
  destruct (find_rest_ok want b lo hi Hok Hlo Hhi Hw Hst fuel bp c H1 ltac:(lia) ltac:(lia))
    as (c2 & bp2 & Hr2 & H2). revert Hr2. orun.
  destruct (fell <$> loop fuel (find_to_word want b) _) as [[[[pos c1] bp1] fd]|]; [orun|done].
  intros ->. orun. pose proof H2 as (H2a & H2b & H2c & H2d).
  destruct (find_last_ok want b lo hi Hlo Hhi Hw Hst fuel bp2 c2 H2 ltac:(lia)) as (r & -> & HQ3). orun.
  eexists. split; [done|]. destruct r; [by apply nohit_least | by apply found_least].
Qed.

(** ** Bitmaps as sets of clusters *)

Definition bm_start (bm : ext2_bitmap) : Z := match bm with Bitmap32 b => start32 b | Bitmap64 b => start64 b end.
Definition bm_end (bm : ext2_bitmap) : Z := match bm with Bitmap32 b => end32 b | Bitmap64 b => end64 b end.
Definition bm_real_end (bm : ext2_bitmap) : Z :=
  match bm with Bitmap32 b => real_end32 b | Bitmap64 b => real_end64 b end.
Definition bm_shift (bm : ext2_bitmap) : Z := match bm with Bitmap32 _ => 0 | Bitmap64 b => cluster_bits b end.
Definition bm_bits (bm : ext2_bitmap) : list Z := match bm with Bitmap32 b => bits32 b | Bitmap64 b => bitarray b end.
Definition with_bits (bm : ext2_bitmap) (l : list Z) : ext2_bitmap :=
  match bm with
  | Bitmap32 b => Bitmap32 (set_bits32 b l)
  | Bitmap64 b => Bitmap64 (set_bitarray b l)
  end.

(** The cluster of a block, and whether a cluster is in use. *)
Definition cluster (bm : ext2_bitmap) (x : Z) : Z := Z.shiftr x (bm_shift bm).
Definition in_range (bm : ext2_bitmap) (c : Z) : bool := (bm_start bm <=? c) && (c <=? bm_end bm).
Definition in_use (bm : ext2_bitmap) (c : Z) : bool := in_range bm c && bit_at (bm_bits bm) (c - bm_start bm).

Definition bm_limit (bm : ext2_bitmap) : Z := match bm with Bitmap32 _ => 2 ^ 32 | Bitmap64 _ => 2 ^ 64 - 1 end.

Record wf (bm : ext2_bitmap) : Prop := {
  wf_bytes : bytes_ok (bm_bits bm);
  wf_range : 0 <= bm_start bm <= bm_end bm;
  wf_end : bm_end bm <= bm_real_end bm < bm_limit bm;
  wf_size : bm_real_end bm - bm_start bm < 8 * zlen (bm_bits bm) < 2 ^ 64;
  wf_shift : 0 <= bm_shift bm < 32
}.

Lemma wf_with_bits bm l : wf bm -> bytes_ok l -> zlen l = zlen (bm_bits bm) -> wf (with_bits bm l).
Proof. intros [] Hl Hn. destruct bm; split; simpl in *; rewrite ?Hn; done. Qed.

Lemma with_bits_in_use bm l c : in_use (with_bits bm l) c = in_range bm c && bit_at l (c - bm_start bm).
Proof. by destruct bm. Qed.

Lemma above32_spec x : 0 <= x < 2 ^ 64 -> above32 x = (2 ^ 32 <=? x).
Proof.
  intros Hx. unfold above32. change (u64 (Z.lnot 0xffffffff)) with (Z.shiftl (Z.ones 32) 32).
  replace (Z.land x (Z.shiftl (Z.ones 32) 32)) with (Z.shiftl (Z.shiftr x 32) 32).
  - rewrite Z.shiftl_mul_pow2, Z.shiftr_div_pow2 by lia. unfold truthy.
    destruct (Z.leb_spec (2 ^ 32) x), (Z.eqb_spec (x / 2 ^ 32 * 2 ^ 32) 0); try done; divlia.
  - bitwise i Hi. destruct (Z.lt_ge_cases i 32).
    + rewrite !(Z.testbit_neg_r _ (i - 32)) by lia. by rewrite andb_false_r.
    + rewrite Z.shiftr_spec by lia. replace (i - 32 + 32) with i by lia.
      destruct (Z.lt_ge_cases i 64).
      * rewrite Z.ones_spec_low by lia. by rewrite andb_true_r.
      * rewrite (testbit_high 64 x) by lia. done.
Qed.

Lemma cluster_range bm x : wf bm -> 0 <= x < 2 ^ 64 -> 0 <= cluster bm x < 2 ^ 64.
Proof.
  intros [] Hx. unfold cluster. rewrite Z.shiftr_div_pow2 by lia.
  assert (1 <= 2 ^ bm_shift bm) by (apply (Z.pow_le_mono_r 2 0); lia).
  split; [apply Z.div_pos; lia|]. apply Z.div_lt_upper_bound; nia.
Qed.

(** The operations on one bit, in one form for both kinds of bitmap. *)
Lemma one_bit_form bm x (op : list Z -> Z -> option (list Z)) :
  wf bm -> 0 <= x < 2 ^ 64 ->
  (match bm with
   | Bitmap32 b =>
      if above32 x then Some (Some bm) else
      if (x <? start32 b) || (end32 b <? x) then Some (Some bm) else
      l ← op (bits32 b) (u64 (x - start32 b));
      Some (Some (Bitmap32 (set_bits32 b l)))
   | Bitmap64 b =>
      let x := Z.shiftr x (cluster_bits b) in
      if (x <? start64 b) || (end64 b <? x) then Some (Some bm) else
      b ← (l ← op (bitarray b) (u64 (x - start64 b)); Some (set_bitarray b l));
      Some (Some (Bitmap64 b))
   end) =
  (if in_range bm (cluster bm x)
   then l ← op (bm_bits bm) (cluster bm x - bm_start bm); Some (Some (with_bits bm l))
   else Some (Some bm)).
Proof.
  intros Hwf Hx. pose proof (cluster_range bm x Hwf Hx) as Hc. destruct Hwf as [_ Hr He _ _].
  unfold in_range. destruct bm as [b|b]; unfold cluster in *; cbn [bm_start bm_end bm_shift bm_bits bm_limit bm_real_end] in *.
  - rewrite Z.shiftr_0_r in *. rewrite above32_spec by done.
    destruct (Z.leb_spec (2 ^ 32) x), (Z.ltb_spec x (start32 b)), (Z.ltb_spec (end32 b) x),
      (Z.leb_spec (start32 b) x), (Z.leb_spec x (end32 b)); try lia; cbn [orb andb]; try done.
    by rewrite wrap_small by lia.
  - destruct (Z.ltb_spec (Z.shiftr x (cluster_bits b)) (start64 b)), (Z.ltb_spec (end64 b) (Z.shiftr x (cluster_bits b))),
      (Z.leb_spec (start64 b) (Z.shiftr x (cluster_bits b))), (Z.leb_spec (Z.shiftr x (cluster_bits b)) (end64 b));
      try lia; cbn [orb andb]; try done.
    rewrite wrap_small by lia. by destruct (op _ _).
Qed.

Lemma in_range_bit bm c : wf bm -> in_range bm c = true -> 0 <= c - bm_start bm < 8 * zlen (bm_bits bm).
Proof.
  intros [_ Hr He Hs _]. unfold in_range.
  destruct (Z.leb_spec (bm_start bm) c), (Z.leb_spec c (bm_end bm)); try done. lia.
Qed.

Section one_bit.
Context (op : list Z -> Z -> option (list Z)) (v : bool).
Hypothesis op_spec : forall l i, 0 <= i < 8 * zlen l -> bytes_ok l ->
  exists l', op l i = Some l' /\ zlen l' = zlen l /\ bytes_ok l' /\
    forall j, bit_at l' j = if j =? i then v else bit_at l j.

Lemma update_ok bm x : wf bm -> 0 <= x < 2 ^ 64 ->
  exists l,
    (if in_range bm (cluster bm x)
     then l ← op (bm_bits bm) (cluster bm x - bm_start bm); Some (Some (with_bits bm l))
     else Some (Some bm)) = Some (Some (with_bits bm l)) /\ wf (with_bits bm l) /\
    forall c, in_use (with_bits bm l) c = if c =? cluster bm x then in_range bm c && v else in_use bm c.
Proof.
  intros Hwf Hx. destruct (in_range bm (cluster bm x)) eqn:E.
  - destruct (op_spec (bm_bits bm) (cluster bm x - bm_start bm)) as (l & Hl & Hn & Hok & Hb);
      [by apply in_range_bit | by apply Hwf |].
    rewrite Hl. orun. exists l. split; [done|]. split; [by apply wf_with_bits|].
    intros c. rewrite with_bits_in_use, Hb. unfold in_use.
    destruct (Z.eqb_spec c (cluster bm x)), (Z.eqb_spec (c - bm_start bm) (cluster bm x - bm_start bm)); try lia; done.
  - exists (bm_bits bm). assert (with_bits bm (bm_bits bm) = bm) as -> by by destruct bm as [[]|[]].
    split; [done|]. split; [done|]. intros c. destruct (Z.eqb_spec c (cluster bm x)) as [->|]; [|done].
    unfold in_use. by rewrite E.
Qed.
End one_bit.

Lemma set_bit_update l i : 0 <= i < 8 * zlen l -> bytes_ok l ->
  exists l', set_bit l i = Some l' /\ zlen l' = zlen l /\ bytes_ok l' /\
    forall j, bit_at l' j = if j =? i then true else bit_at l j.
Proof.
  intros Hi Hl. destruct (set_bit_spec l i Hi Hl) as (l' & H1 & H2 & H3 & H4). exists l'.
  split_and!; [done..|]. intros j. rewrite H4. by destruct (j =? i).
Qed.

Lemma clear_bit_update l i : 0 <= i < 8 * zlen l -> bytes_ok l ->
  exists l', clear_bit l i = Some l' /\ zlen l' = zlen l /\ bytes_ok l' /\
    forall j, bit_at l' j = if j =? i then false else bit_at l j.
Proof.
  intros Hi Hl. destruct (clear_bit_spec l i Hi Hl) as (l' & H1 & H2 & H3 & H4). exists l'.
  split_and!; [done..|]. intros j. rewrite H4. by destruct (j =? i).
Qed.

Lemma mark_ok bm x : wf bm -> 0 <= x < 2 ^ 64 ->
  exists l, ext2_mark_bitmap (Some bm) x = Some (Some (with_bits bm l)) /\ wf (with_bits bm l) /\
    forall c, in_use (with_bits bm l) c = if c =? cluster bm x then in_range bm c && true else in_use bm c.
Proof.
  intros Hwf Hx. destruct (update_ok set_bit true set_bit_update bm x Hwf Hx) as (l & Hl & H).
  exists l. split; [|done]. rewrite <- Hl, <- (one_bit_form bm x set_bit) by done. by destruct bm.
Qed.

Lemma unmark_ok bm x : wf bm -> 0 <= x < 2 ^ 64 ->
  exists l, ext2_unmark_bitmap (Some bm) x = Some (Some (with_bits bm l)) /\ wf (with_bits bm l) /\
    forall c, in_use (with_bits bm l) c = if c =? cluster bm x then in_range bm c && false else in_use bm c.
Proof.
  intros Hwf Hx. destruct (update_ok clear_bit false clear_bit_update bm x Hwf Hx) as (l & Hl & H).
  exists l. split; [|done]. rewrite <- Hl, <- (one_bit_form bm x clear_bit) by done. by destruct bm.
Qed.

Lemma test_ok bm x : wf bm -> 0 <= x < 2 ^ 64 ->
  exists t, ext2_test_bitmap (Some bm) x = Some t /\ truthy t = in_use bm (cluster bm x).
Proof.
  intros Hwf Hx.
  assert (ext2_test_bitmap (Some bm) x =
    if in_range bm (cluster bm x) then test_bit (bm_bits bm) (cluster bm x - bm_start bm) else Some 0) as ->.
  { pose proof (cluster_range bm x Hwf Hx).
    destruct Hwf as [_ Hr He _ _]. unfold in_range.
    destruct bm as [b|b]; unfold cluster in *;
      cbn [ext2_test_bitmap bm_start bm_end bm_shift bm_bits bm_limit bm_real_end] in *.
    - rewrite Z.shiftr_0_r in *. rewrite above32_spec by done.
      destruct (Z.leb_spec (2 ^ 32) x), (Z.ltb_spec x (start32 b)), (Z.ltb_spec (end32 b) x),
        (Z.leb_spec (start32 b) x), (Z.leb_spec x (end32 b)); try lia; cbn [orb andb]; try done.
      by rewrite wrap_small by lia.
    - set (c := Z.shiftr x (cluster_bits b)) in *. unfold ext2_bitarray_test_bmap.
      destruct (Z.ltb_spec c (start64 b)), (Z.ltb_spec (end64 b) c),
        (Z.leb_spec (start64 b) c), (Z.leb_spec c (end64 b)); try lia; cbn [orb andb]; try done.
      by rewrite wrap_small by lia. }
  unfold in_use. destruct (in_range bm (cluster bm x)) eqn:E; [|by exists 0].
  destruct (test_bit_spec (bm_bits bm) (cluster bm x - bm_start bm)) as (t & Ht & Htr); [by apply in_range_bit|].
  exists t. done.
Qed.

Lemma each_set_ok n l base start :
  bytes_ok l -> 0 <= base - start -> base - start + Z.of_nat n <= 8 * zlen l < 2 ^ 64 ->
  exists l', each_bit set_bit n l base start = Some l' /\ zlen l' = zlen l /\ bytes_ok l' /\
    forall j, bit_at l' j = (base - start <=? j) && (j <? base - start + Z.of_nat n) || bit_at l j.
Proof.
  revert l base. induction n as [|n IH]; intros l base Hok H1 H2.
  - exists l. split_and!; [done..|]. intros j.
    destruct (Z.leb_spec (base - start) j), (Z.ltb_spec j (base - start + Z.of_nat 0)); try lia; done.
  - cbn [each_bit]. rewrite wrap_small by lia.
    destruct (set_bit_update l (base - start)) as (l1 & Hl1 & Hn1 & Hok1 & Hb1); [lia|done|]. rewrite Hl1. orun.
    destruct (IH l1 (base + 1)) as (l2 & Hl2 & Hn2 & Hok2 & Hb2); [done|lia|lia|].
    exists l2. split_and!; [done|lia|done|]. intros j. rewrite Hb2, Hb1.
    destruct (Z.leb_spec (base + 1 - start) j), (Z.ltb_spec j (base + 1 - start + Z.of_nat n)),
      (Z.leb_spec (base - start) j), (Z.ltb_spec j (base - start + Z.of_nat (S n))),
      (Z.eqb_spec j (base - start)); try lia; cbn [andb orb]; try done.
Qed.

(** The clusters of [num] blocks from [x] on end before this one. *)
Definition cluster_end (bm : ext2_bitmap) (x num : Z) : Z := Z.shiftr (x + num + (2 ^ bm_shift bm - 1)) (bm_shift bm).

Lemma cluster_end_bounds bm x num : wf bm -> 0 <= x -> 1 <= num ->
  cluster bm x < cluster_end bm x num <= cluster bm x + num /\ 0 <= cluster bm x <= x /\
  cluster_end bm x num <= x + num.
Proof.
  intros [_ _ _ _ Hs] Hx Hn. unfold cluster, cluster_end. rewrite !Z.shiftr_div_pow2 by lia.
  assert (1 <= 2 ^ bm_shift bm) by (apply (Z.pow_le_mono_r 2 0); lia). set (k := 2 ^ bm_shift bm) in *.
  pose proof (Z.div_mod x k ltac:(lia)). pose proof (Z.mod_pos_bound x k ltac:(lia)).
  pose proof (Z.div_mod (x + num + (k - 1)) k ltac:(lia)). pose proof (Z.mod_pos_bound (x + num + (k - 1)) k ltac:(lia)).
  set (q := x / k) in *. set (q' := (x + num + (k - 1)) / k) in *.
  assert (0 <= q) by (apply Z.div_pos; lia). nia.
Qed.

(** The range, when it lies in the bitmap. *)
Definition range_in (bm : ext2_bitmap) (x num : Z) : bool :=
  in_range bm (cluster bm x) && in_range bm (cluster_end bm x num - 1).

Lemma range_form bm x num : wf bm -> 0 <= x -> 1 <= num < 2 ^ 31 -> x + num + 2 ^ 32 <= 2 ^ 64 ->
  ext2_mark_block_bitmap_range (Some bm) x num =
  if range_in bm x num then
    l ← each_bit set_bit (Z.to_nat (cluster_end bm x num - cluster bm x)) (bm_bits bm) (cluster bm x) (bm_start bm);
    Some (Some (with_bits bm l))
  else Some (Some bm).
Proof.
  intros Hwf Hx Hn Hov. destruct (cluster_end_bounds bm x num Hwf Hx ltac:(lia)) as (H1 & H2 & H3).
  destruct Hwf as [_ Hr He _ Hs]. unfold range_in, in_range, ext2_mark_block_bitmap_range.
  rewrite !(wrap_small 64 (x + num)) by lia.
  destruct bm as [b|b]; unfold cluster, cluster_end in *;
    cbn [bm_start bm_end bm_shift bm_bits bm_limit bm_real_end] in *.
  - rewrite !Z.shiftr_0_r in *. rewrite !wrap_small, !above32_spec by lia.
    replace (x + num + (2 ^ 0 - 1)) with (x + num) by lia. replace (x + num - x) with num by lia.
    destruct (Z.leb_spec (2 ^ 31) num); [lia|].
    destruct (Z.leb_spec (2 ^ 32) x), (Z.leb_spec (2 ^ 32) (x + num - 1)), (Z.ltb_spec x (start32 b)),
      (Z.ltb_spec (end32 b) x), (Z.ltb_spec (end32 b) (x + num - 1)), (Z.leb_spec (start32 b) x), (Z.leb_spec x (end32 b)),
      (Z.leb_spec (start32 b) (x + num - 1)), (Z.leb_spec (x + num - 1) (end32 b)); try lia; done.
  - assert (2 ^ cluster_bits b <= 2 ^ 32) by (apply Z.pow_le_mono_r; lia).
    assert (1 <= 2 ^ cluster_bits b) by (apply (Z.pow_le_mono_r 2 0); lia).
    rewrite (wrap_small 64 (x + num + _)) by lia.
    set (c1 := Z.shiftr x _) in *. set (c2 := Z.shiftr (x + num + _) _) in *.
    assert (s64 (c2 - c1) = c2 - c1) as -> by (unfold swrap; destruct (Z.ltb_spec ((c2 - c1) mod 2 ^ 64) (2 ^ (64 - 1))); divlia).
    replace (c1 + (c2 - c1) - 1) with (c2 - 1) by lia. rewrite !wrap_small by lia.
    unfold ext2_bitarray_mark_bmap_extent.
    destruct (Z.ltb_spec c1 (start64 b)), (Z.ltb_spec (end64 b) c1), (Z.ltb_spec (end64 b) (c2 - 1)),
      (Z.leb_spec (start64 b) c1), (Z.leb_spec c1 (end64 b)), (Z.leb_spec (start64 b) (c2 - 1)),
      (Z.leb_spec (c2 - 1) (end64 b)); try lia; cbn [orb andb]; try done. by destruct (each_bit _ _ _ _ _).
Qed.

Lemma range_ok bm x num : wf bm -> 0 <= x -> 1 <= num < 2 ^ 31 -> x + num + 2 ^ 32 <= 2 ^ 64 ->
  exists l, ext2_mark_block_bitmap_range (Some bm) x num = Some (Some (with_bits bm l)) /\ wf (with_bits bm l) /\
    forall c, in_use (with_bits bm l) c =
      range_in bm x num && (cluster bm x <=? c) && (c <? cluster_end bm x num) || in_use bm c.
Proof.
  intros Hwf Hx Hn Hov. rewrite range_form by done.
  destruct (cluster_end_bounds bm x num Hwf Hx ltac:(lia)) as (H1 & H2 & H3).
  destruct (range_in bm x num) eqn:E.
  - pose proof E as [E1 E2]%andb_prop. pose proof (in_range_bit bm _ Hwf E1). pose proof (in_range_bit bm _ Hwf E2).
    destruct (each_set_ok (Z.to_nat (cluster_end bm x num - cluster bm x)) (bm_bits bm) (cluster bm x) (bm_start bm))
      as (l & -> & Hl & Hok & Hb); [apply Hwf|lia|pose proof (wf_size bm Hwf); lia|]. orun.
    exists l. split; [done|]. split; [by apply wf_with_bits|]. intros c. rewrite with_bits_in_use, Hb.
    unfold in_use, in_range in *.
    destruct (Z.leb_spec (cluster bm x - bm_start bm) (c - bm_start bm)),
      (Z.ltb_spec (c - bm_start bm) (cluster bm x - bm_start bm + Z.of_nat (Z.to_nat (cluster_end bm x num - cluster bm x)))),
      (Z.leb_spec (cluster bm x) c), (Z.ltb_spec c (cluster_end bm x num)); try lia; cbn [andb orb]; try done.
  - exists (bm_bits bm). assert (with_bits bm (bm_bits bm) = bm) as -> by by destruct bm as [[]|[]]. done.
Qed.

(** ** Searching for a free block *)

Lemma wf_wf64 b : wf (Bitmap64 b) -> wf64 b.
Proof. intros [? ? ? ? ?]. by split. Qed.

Lemma find_zero32_ok fuel b start end_ : wf (Bitmap32 b) ->
  start32 b <= start <= end_ -> end_ <= end32 b -> end_ - start + 1 < Z.of_nat fuel ->
  exists r, loop fuel (find_zero32 b end_) start = Some r /\
    least_of (fun x => negb (in_use (Bitmap32 b) x)) start end_ (match r with inr x => Ok x | inl _ => Err ENOENT end).
Proof.
  intros Hwf Hs He Hf. set (P := fun x => negb (in_use (Bitmap32 b) x)).
  apply (loop_inv _ (fun x => start <= x <= end_ + 1 /\ forall y, start <= y < x -> P y = false)
    (fun x => Z.to_nat (end_ + 1 - x))); [|split; [lia|]; intros; lia|lia].
  intros x [Hx Hlow]. unfold find_zero32. destruct (Z.ltb_spec end_ x).
  { eexists. split; [done|]. simpl. split; [done|]. intros y Hy. apply Hlow. lia. }
  pose proof Hwf as [Hok Hr Hre Hsz _]. cbn [bm_start bm_end bm_real_end bm_limit bm_bits] in *.
  rewrite (wrap_small 64 (x - start32 b)) by lia.
  destruct (test_bit_spec (bits32 b) (x - start32 b)) as (t & Ht & Htr); [lia|]. rewrite Ht. orun.
  eexists. split; [done|].
  assert (u32 t = t) as ->.
  { unfold test_bit in Ht. destruct ((bits32 b).[_]) as [y|] eqn:Ey; [|done]. injection Ht as <-.
    pose proof (bytes_ok_lookup _ _ _ Hok Ey). apply wrap_small.
    pose proof (land_bound_l 8 y (Z.shiftl 1 (Z.land (x - start32 b) 7))). lia. }
  assert (in_use (Bitmap32 b) x = truthy t) as Hu.
  { unfold in_use, in_range. cbn [bm_start bm_end bm_bits].
    destruct (Z.leb_spec (start32 b) x), (Z.leb_spec x (end32 b)); try lia. done. }
  destruct (truthy t) eqn:Et.
  - rewrite wrap_small by lia. split; [|lia]. split; [lia|]. intros y Hy.
    destruct (Z.eq_dec y x) as [->|]; [unfold P; by rewrite Hu | apply Hlow; lia].
  - split; [lia|]. split; [unfold P; by rewrite Hu|done].
Qed.

(** The first block of a range of blocks whose cluster is free, from the first
    free cluster. *)
Lemma cluster_least (P : Z -> bool) k start end_ r :
  0 <= k -> 0 <= start <= end_ -> end_ < 2 ^ 64 -> least_of P (Z.shiftr start k) (Z.shiftr end_ k) r ->
  least_of (fun x => P (Z.shiftr x k)) start end_
    (match r with
     | Ok c => let c := u64 (Z.shiftl c k) in Ok (if start <=? c then c else start)
     | Err e => Err e
     end).
Proof.
  intros Hk Hse He. rewrite !Z.shiftr_div_pow2 by lia.
  assert (1 <= 2 ^ k) as Hp by (apply (Z.pow_le_mono_r 2 0); lia). set (q := 2 ^ k) in *.
  destruct r as [c|e]; cbn [least_of].
  - intros (Hc & Hpc & Hmin). cbv zeta. rewrite Z.shiftl_mul_pow2 by lia. fold q.
    pose proof (Z.div_mod start q ltac:(lia)). pose proof (Z.mod_pos_bound start q ltac:(lia)).
    pose proof (Z.div_mod end_ q ltac:(lia)). pose proof (Z.mod_pos_bound end_ q ltac:(lia)).
    assert (0 <= start / q) by (apply Z.div_pos; lia).
    rewrite wrap_small by nia. destruct (Z.leb_spec start (c * q)).
    + split; [nia|]. rewrite Z.shiftr_div_pow2 by lia. fold q. rewrite Z.div_mul by lia. split; [done|].
      intros y Hy. rewrite Z.shiftr_div_pow2 by lia. fold q. apply Hmin.
      split; [apply Z.div_le_mono; lia | apply Z.div_lt_upper_bound; lia].
    + split; [lia|]. rewrite Z.shiftr_div_pow2 by lia. fold q.
      assert (c = start / q) as <- by nia. split; [done|]. intros y Hy. lia.
  - intros [-> Hno]. split; [done|]. intros y Hy. rewrite Z.shiftr_div_pow2 by lia. fold q. apply Hno.
    split; apply Z.div_le_mono; lia.
Qed.

(** The guards of the search. *)
Definition search_valid (bm : ext2_bitmap) (start end_ : Z) : bool :=
  (bm_start bm <=? cluster bm start) && (cluster bm end_ <=? bm_end bm) && (start <=? end_).

Lemma find_zero_ok fuel bm start end_ :
  wf bm -> 0 <= start < 2 ^ 64 -> 0 <= end_ < 2 ^ 64 -> bm_end bm - bm_start bm + 1 < Z.of_nat fuel ->
  exists r, ext2_find_first_zero_bitmap fuel (Some bm) start end_ = Some r /\
    if search_valid bm start end_
    then least_of (fun x => negb (in_use bm (cluster bm x))) start end_ r
    else r = Err EUCLEAN.
Proof.
  intros Hwf Hs He Hf. unfold search_valid, ext2_find_first_zero_bitmap. pose proof Hwf as [_ Hr Hre _ Hk].
  destruct bm as [b|b]; unfold cluster; cbn [bm_start bm_end bm_shift bm_limit bm_real_end] in *.
  - rewrite !Z.shiftr_0_r, !above32_spec by done.
    destruct (Z.leb_spec (2 ^ 32) start), (Z.leb_spec (2 ^ 32) end_), (Z.ltb_spec start (start32 b)),
      (Z.ltb_spec (end32 b) end_), (Z.ltb_spec end_ start), (Z.leb_spec (start32 b) start),
      (Z.leb_spec end_ (end32 b)), (Z.leb_spec start end_); try lia; cbn [orb andb]; try by eexists.
    destruct (find_zero32_ok fuel b start end_ Hwf) as (r & -> & HQ); [lia..|]. orun.
    eexists. split; [done|]. destruct r as [x|x]; cbn [least_of] in *.
    + destruct HQ as [_ HQ]. split; [done|]. intros y Hy. rewrite Z.shiftr_0_r. by apply HQ.
    + rewrite Z.shiftr_0_r. destruct HQ as (H1' & H2' & H3'). split_and!; [lia..|done|].
      intros y Hy. rewrite Z.shiftr_0_r. by apply H3'.
  - set (cs := Z.shiftr start _). set (ce := Z.shiftr end_ _).
    destruct (Z.ltb_spec cs (start64 b)), (Z.ltb_spec (end64 b) ce), (Z.ltb_spec end_ start),
      (Z.leb_spec (start64 b) cs), (Z.leb_spec ce (end64 b)), (Z.leb_spec start end_);
      try lia; cbn [orb andb]; try by eexists.
    assert (cs <= ce) by (unfold cs, ce; rewrite !Z.shiftr_div_pow2 by lia;
      apply Z.div_le_mono; [apply Z.pow_pos_nonneg; lia | lia]).
    destruct (find_first_ok false b fuel cs ce (wf_wf64 b Hwf)) as (r & Hr' & HQ); [lia..|].
    unfold ext2_bitarray_find_first_zero. rewrite Hr'. orun. eexists. split; [done|].
    apply (cluster_least (fun c => negb (in_use (Bitmap64 b) c)) (cluster_bits b)); [lia..|]. fold cs ce.
    assert (forall c, cs <= c <= ce -> negb (in_use (Bitmap64 b) c) = Bool.eqb (marked64 b c) false) as Heq.
    { intros c Hc. unfold in_use, in_range, marked64. cbn [bm_start bm_end bm_bits].
      destruct (Z.leb_spec (start64 b) c), (Z.leb_spec c (end64 b)); try lia. by destruct (bit_at _ _). }
    destruct r as [c|e]; cbn [least_of] in *.
    + destruct HQ as (H1' & H2' & H3'). split_and!; [lia..| |]; [by rewrite Heq by lia|].
      intros y Hy. rewrite Heq by lia. by apply H3'.
    + destruct HQ as [-> HQ]. split; [done|]. intros y Hy. rewrite Heq by lia. by apply HQ.
Qed.

(** ** Histories of a bitmap *)

(** The clusters in use. *)
Definition used_clusters (bm : ext2_bitmap) : gset Z :=
  list_to_set (filter (fun c => in_use bm c = true) (seqZ (bm_start bm) (bm_end bm - bm_start bm + 1))).

Lemma elem_of_used bm c : c ∈ used_clusters bm <-> in_use bm c = true.
Proof.
  unfold used_clusters. rewrite elem_of_list_to_set, list_elem_of_filter, elem_of_seqZ.
  split; [tauto|]. intros H. split; [done|]. unfold in_use, in_range in H.
  destruct (Z.leb_spec (bm_start bm) c), (Z.leb_spec c (bm_end bm)); try done. lia.
Qed.

Inductive bitmap_op := Mark (x : Z) | Unmark (x : Z) | MarkRange (x num : Z).

Definition run_op (bm : option ext2_bitmap) (op : bitmap_op) : option (option ext2_bitmap) :=
  match op with
  | Mark x => ext2_mark_bitmap bm x
  | Unmark x => ext2_unmark_bitmap bm x
  | MarkRange x num => ext2_mark_block_bitmap_range bm x num
  end.

Fixpoint run_ops (bm : option ext2_bitmap) (ops : list bitmap_op) : option (option ext2_bitmap) :=
  match ops with [] => Some bm | op :: ops => bm ← run_op bm op; run_ops bm ops end.

(** What an operation does to the set; [bm] gives the geometry only. *)
Definition set_op (bm : ext2_bitmap) (used : gset Z) (op : bitmap_op) : gset Z :=
  match op with
  | Mark x => if in_range bm (cluster bm x) then {[cluster bm x]} ∪ used else used
  | Unmark x => used ∖ {[cluster bm x]}
  | MarkRange x num =>
      if range_in bm x num
      then list_to_set (seqZ (cluster bm x) (cluster_end bm x num - cluster bm x)) ∪ used else used
  end.

Definition op_ok (op : bitmap_op) : Prop :=
  match op with
  | Mark x | Unmark x => 0 <= x < 2 ^ 64
  | MarkRange x num => 0 <= x /\ 1 <= num < 2 ^ 31 /\ x + num + 2 ^ 32 <= 2 ^ 64
  end.

Lemma with_bits_twice bm l l' : with_bits (with_bits bm l) l' = with_bits bm l'.
Proof. by destruct bm. Qed.

Lemma set_op_with_bits bm l used op : set_op (with_bits bm l) used op = set_op bm used op.
Proof. by destruct bm, op. Qed.

Lemma run_op_ok bm op : wf bm -> op_ok op ->
  exists l, run_op (Some bm) op = Some (Some (with_bits bm l)) /\ wf (with_bits bm l) /\
    used_clusters (with_bits bm l) = set_op bm (used_clusters bm) op.
Proof.
  intros Hwf Hop.
  assert (forall l X, (forall c, in_use (with_bits bm l) c = true <-> c ∈ X) ->
    used_clusters (with_bits bm l) = X) as Hext.
  { intros l X HX. apply set_eq. intros c. rewrite elem_of_used. apply HX. }
  destruct op as [x|x|x num]; cbn [run_op set_op op_ok] in *.
  - destruct (mark_ok bm x Hwf Hop) as (l & Hl & Hw & Hu). exists l. split_and!; [done..|].
    apply Hext. intros c. rewrite Hu. destruct (in_range bm (cluster bm x)) eqn:E.
    + rewrite elem_of_union, elem_of_singleton, elem_of_used.
      destruct (Z.eqb_spec c (cluster bm x)) as [->|]; [rewrite E|]; naive_solver.
    + rewrite elem_of_used. destruct (Z.eqb_spec c (cluster bm x)) as [->|]; [|done].
      unfold in_use. by rewrite E.
  - destruct (unmark_ok bm x Hwf Hop) as (l & Hl & Hw & Hu). exists l. split_and!; [done..|].
    apply Hext. intros c. rewrite Hu, elem_of_difference, elem_of_singleton, elem_of_used.
    destruct (Z.eqb_spec c (cluster bm x)) as [->|]; [rewrite andb_false_r|]; naive_solver.
  - destruct Hop as (Hx & Hn & Hov). destruct (range_ok bm x num Hwf Hx Hn Hov) as (l & Hl & Hw & Hu).
    exists l. split_and!; [done..|]. apply Hext. intros c. rewrite Hu.
    destruct (range_in bm x num); [|by rewrite elem_of_used].
    rewrite elem_of_union, elem_of_list_to_set, elem_of_seqZ, elem_of_used, orb_true_iff.
    destruct (Z.leb_spec (cluster bm x) c), (Z.ltb_spec c (cluster_end bm x num)); cbn [andb]; intuition (try lia; done).
Qed.

(** C18: a bitmap of either kind behaves like a set of clusters. After any
    sequence of marks, unmarks and marked ranges, within the bitmap or not, the
    test of a block tells whether its cluster is in the set that the same
    operations on a set give, and the structure stays well formed. *)
Theorem bitmap_refines_set bm ops :
  wf bm -> Forall op_ok ops ->
  exists bm', run_ops (Some bm) ops = Some (Some bm') /\ wf bm' /\
    forall x, 0 <= x < 2 ^ 64 ->
      exists t, ext2_test_bitmap (Some bm') x = Some t /\
        truthy t = bool_decide (cluster bm x ∈ foldl (set_op bm) (used_clusters bm) ops).
Proof.
  intros Hwf Hops. assert (exists l, run_ops (Some bm) ops = Some (Some (with_bits bm l)) /\ wf (with_bits bm l) /\
    used_clusters (with_bits bm l) = foldl (set_op bm) (used_clusters bm) ops) as (l & Hl & Hw & Hu).
  { revert bm Hwf. induction Hops as [|op ops Hop Hops IH]; intros bm Hwf; cbn [run_ops foldl].
    - exists (bm_bits bm). assert (with_bits bm (bm_bits bm) = bm) as -> by by destruct bm as [[]|[]]. done.
    - destruct (run_op_ok bm op Hwf Hop) as (l & -> & Hw & Hu). orun.
      destruct (IH _ Hw) as (l' & Hl' & Hw' & Hu'). exists l'. rewrite with_bits_twice in *.
      split_and!; [done..|]. rewrite Hu', Hu. generalize (set_op bm (used_clusters bm) op).
      clear. induction ops as [|op ops IH]; intros X; [done|]. cbn [foldl]. by rewrite set_op_with_bits, IH. }
  exists (with_bits bm l). split; [done|]. split; [done|]. intros x Hx.
  destruct (test_ok _ x Hw Hx) as (t & Ht & Htr). exists t. split; [done|]. rewrite Htr, <- Hu.
  assert (cluster (with_bits bm l) x = cluster bm x) as -> by by destruct bm.
  case_bool_decide as E; rewrite elem_of_used in E; [done | by apply not_true_is_false].
Qed.

(** The search for a free block, which looks at words and bytes where it
    can, returns the least block of the range whose cluster is free, [ENOENT]
    when every cluster of the range is in use, and [EUCLEAN] when the range is
    empty or leaves the bitmap. It never leaves the bit array and ends. *)
Theorem find_first_zero_correct fuel bm start end_ :
  wf bm -> 0 <= start < 2 ^ 64 -> 0 <= end_ < 2 ^ 64 -> bm_end bm - bm_start bm + 1 < Z.of_nat fuel ->
  exists r, ext2_find_first_zero_bitmap fuel (Some bm) start end_ = Some r /\
    if search_valid bm start end_
    then least_of (fun x => bool_decide (cluster bm x ∉ used_clusters bm)) start end_ r
    else r = Err EUCLEAN.
Proof.
  intros Hwf Hs He Hf. destruct (find_zero_ok fuel bm start end_ Hwf Hs He Hf) as (r & Hr & HQ).
  exists r. split; [done|]. destruct (search_valid bm start end_); [|done].
  assert (forall x, bool_decide (cluster bm x ∉ used_clusters bm) = negb (in_use bm (cluster bm x))) as Heq.
  { intros x. case_bool_decide as E; rewrite elem_of_used in E; [by rewrite (not_true_is_false _ E)|].
    by rewrite E. }
  destruct r as [x|e]; cbn [least_of] in *.
  - rewrite Heq. destruct HQ as (H1 & H2 & H3). split_and!; [lia..|done|]. intros y Hy. rewrite Heq. by apply H3.
  - destruct HQ as [-> HQ]. split; [done|]. intros y Hy. rewrite Heq. by apply HQ.
Qed.

(** ** Ranges of bits *)

(** What [ext2_set_bitmap_range] stores, [ext2_get_bitmap_range] returns. *)
Lemma range_roundtrip bm start num data buf bm' :
  0 <= num < 2 ^ 32 - 7 -> ext2_set_bitmap_range (Some bm) start num data = Some (Ok (Some bm')) ->
  zlen buf = (num + 7) / 8 ->
  exists d, slice data 0 ((num + 7) / 8) = Some d /\ ext2_get_bitmap_range (Some bm') start num buf = Some (Ok d).
Proof.
  intros Hn Hset Hbuf.
  assert (forall d, zlen d = zlen buf -> blit buf 0 d = Some d) as Hwhole.
  { intros d Hd. unfold blit. rewrite Z.add_0_l, Hd. destruct (Z.leb_spec (zlen buf) (zlen buf)); [|lia].
    cbn [andb Z.leb]. unfold zlen. rewrite Nat2Z.id, drop_all, app_nil_r. done. }
  destruct bm as [b|b]; cbn [ext2_set_bitmap_range] in Hset.
  - destruct (above32 _) eqn:E1; [done|]. destruct (_ || _) eqn:E2; [done|].
    unfold memcpy_buf in Hset. rewrite (wrap_small 32) in Hset by lia. rewrite !shr3 in Hset.
    destruct (slice data 0 ((num + 7) / 8)) as [d|] eqn:Ed; [orunin Hset|done].
    destruct (blit (bits32 b) _ d) as [l|] eqn:El; [orunin Hset|done]. injection Hset as <-. exists d. split; [done|].
    cbn [ext2_get_bitmap_range start32 real_end32 bits32 set_bits32]. rewrite E1, E2. unfold memcpy_buf.
    rewrite (wrap_small 32) by lia. rewrite !shr3. rewrite <- (slice_len _ _ _ _ Ed), (slice_blit _ _ _ _ El). orun.
    rewrite Hwhole; [done|]. by rewrite (slice_len _ _ _ _ Ed).
  - unfold ext2_bitarray_set_bmap_range, memcpy_buf in Hset. rewrite (wrap_small 64) in Hset by lia.
    rewrite !shr3 in Hset. destruct (slice data 0 ((num + 7) / 8)) as [d|] eqn:Ed; [orunin Hset|done].
    destruct (blit (bitarray b) _ d) as [l|] eqn:El; [orunin Hset|done]. injection Hset as <-. exists d. split; [done|].
    cbn [ext2_get_bitmap_range]. unfold ext2_bitarray_get_bmap_range, memcpy_buf. cbn [bitarray set_bitarray].
    rewrite (wrap_small 64) by lia. rewrite !shr3. rewrite <- (slice_len _ _ _ _ Ed), (slice_blit _ _ _ _ El). orun.
    rewrite Hwhole; [done|]. by rewrite (slice_len _ _ _ _ Ed).
Qed.

(** ** New bitmaps *)

Lemma blit_all (arr d : list Z) : zlen d = zlen arr -> blit arr 0 d = Some d.
Proof.
  intros Hd. unfold blit. rewrite Z.add_0_l, Hd. destruct (Z.leb_spec (zlen arr) (zlen arr)); [|lia].
  cbn [andb Z.leb]. unfold zlen. by rewrite Nat2Z.id, drop_all, app_nil_r.
Qed.

(** A new 64-bit bitmap is empty, or there is no memory for it. *)
Lemma make_bitmap_64_ok ratio magic start end_ real_end addr arr o :
  0 <= start <= end_ -> end_ <= real_end < 2 ^ 63 -> 0 <= ratio < 32 ->
  zlen arr = (real_end - start) / 8 + 1 ->
  exists r o', ext2_make_bitmap_64 ratio magic EXT2_BMAP64_BITARRAY start end_ real_end addr arr o = Some (r, o') /\
    match r with
    | Ok bm => wf bm /\ used_clusters bm = ∅ /\ bm_start bm = start /\ bm_end bm = end_
    | Err e => e = ENOMEM
    end.
Proof.
  intros Hs He Hr Ha. unfold ext2_make_bitmap_64, ext2_bitarray_new_bmap, ext2_bitarray_alloc_private, malloc.
  cbv [mbind M_bind mret M_ret].
  destruct o as [|[] o]; cbn [negb]; [|destruct o as [|[] [|[] o]]|]; cbn [negb]; try by do 2 eexists; split.
  all: unfold bitarray_size, lift; cbn [start64 real_end64 bitarray]; rewrite wrap_small by lia.
  all: rewrite blit_all by (rewrite zlen_replicate, Z2Nat.id; [done | divlia]).
  all: do 2 eexists; split; [done|].
  all: split_and!; [|apply set_eq; intros c; rewrite elem_of_used, elem_of_empty; unfold in_use; cbn [bm_bits bitarray set_bitarray];
    rewrite bit_at_zeros, andb_false_r; done|done..].
  all: split; cbn; rewrite ?zlen_replicate; try apply bytes_ok_zeros; try lia; try (rewrite Z2Nat.id by divlia; divlia).
  all: destruct (_ =? _); lia.
Qed.

(** ** Witnesses *)

(** 100 clusters of two blocks each, the first of them cluster 1. *)
Definition demo_bm : ext2_bitmap :=
  Bitmap64 (mk_b64 EXT2_BMAP_MAGIC_BLOCK64 1 100 104 1 (replicate 13 0) 0x1003).
Definition demo_ops : list bitmap_op :=
  [MarkRange 2 170; Unmark 163; Mark 500; Mark 199; MarkRange 190 40].

Lemma demo_wf : wf demo_bm.
Proof. split; [apply (bytes_ok_zeros 13)|..]; vm_compute; intuition discriminate. Qed.

Lemma bitmap_refines_set_witness :
  exists bm' t, run_ops (Some demo_bm) demo_ops = Some (Some bm') /\
    ext2_test_bitmap (Some bm') 162 = Some t /\ truthy t = false.
Proof.
  destruct (bitmap_refines_set demo_bm demo_ops demo_wf) as (bm' & Hrun & _ & Ht).
  { repeat constructor; cbn; lia. }
  destruct (Ht 162) as (t & Ht1 & Ht2); [lia|]. exists bm', t. split; [exact Hrun|]. split; [exact Ht1|].
  rewrite Ht2. vm_compute. reflexivity.
Defined.

Definition demo_full : ext2_bitmap :=
  Bitmap64 (mk_b64 EXT2_BMAP_MAGIC_BLOCK64 1 200 207 0 (replicate 20 255 ++ [0xbf; 0; 0; 0; 0; 0]) 0x1003).

Lemma find_first_zero_correct_witness :
  exists r, ext2_find_first_zero_bitmap 300 (Some demo_full) 5 200 = Some r /\ r = Ok 167.
Proof.
  destruct (find_first_zero_correct 300 demo_full 5 200) as (r & Hr & _).
  - split; [repeat constructor; lia|..]; vm_compute; intuition discriminate.
  - lia.
  - lia.
  - cbn. lia.
  - exists r. split; [exact Hr|]. vm_compute in Hr. congruence.
Defined.

End Ext2Bitmap.
