(* ===== verification/Ext2Fs.v ===== *)
(** * Filesystem state of the ext2 driver (drivers/fs/ext2/util.c, bitmap.c,
      checksum.c, super.c)

    Module [Ext2Fs]: a mounted filesystem with its superblock, the table of
    group descriptors, the allocation bitmaps and the cache of inodes, over a
    block device that is known by the class [BlockDevice] only. The operations
    locate the parts of a block group, keep the checksums of the group
    descriptors, and allocate and free blocks and inodes. *)

From S2P Require Import Prelude CBits Hash HashMap CString Ext2Layout Ext2Bitmap.

Module Ext2Fs.
Import CBits Hash HashMap CString Ext2Layout Ext2Bitmap.

(** ** Block devices

    The functions of [struct block_device]: [dev_read len offset] is [Ok] with
    the bytes when the call returns [len] and [Err] with the error number of the
    driver otherwise; the buffer of a failed read is left as it was. *)
Class BlockDevice (D : Type) := {
  dev_read : Z -> Z -> D -> res (list Z) * D;
  dev_write : list Z -> Z -> D -> res unit * D
}.

(** What the driver relies on: a device stores bytes at offsets, a read returns
    them and changes none, a write that succeeds stores its data, and one that
    fails changes nothing outside the range it was given. *)
Definition patched (c : Z -> Z) (off : Z) (data : list Z) (x : Z) : Z :=
  if off <=? x then default (c x) (data !! Z.to_nat (x - off)) else c x.

Class DeviceLaws (D : Type) `{BlockDevice D} := {
  contents : D -> Z -> Z;
  dev_read_ok : forall n off d data d', 0 <= n -> 0 <= off -> dev_read n off d = (Ok data, d') ->
    data = map (contents d) (seqZ off n);
  dev_read_frame : forall n off d r d', dev_read n off d = (r, d') -> forall x, contents d' x = contents d x;
  dev_write_ok : forall data off d d', 0 <= off -> dev_write data off d = (Ok tt, d') ->
    forall x, contents d' x = patched (contents d) off data x;
  dev_write_err : forall data off d e d', 0 <= off -> dev_write data off d = (Err e, d') ->
    forall x, x < off \/ off + zlen data <= x -> contents d' x = contents d x
}.

Abbreviation EXT2_FLAG_CHANGED := 0x1.
Abbreviation EXT2_FLAG_DIRTY := 0x2.
Abbreviation EXT2_FLAG_IB_DIRTY := 0x8.
Abbreviation EXT2_FLAG_BB_DIRTY := 0x10.
Abbreviation EXT2_FLAG_64BIT := 0x20.
Abbreviation EXT2_BG_INODE_UNINIT := 0x1.
Abbreviation EXT2_BG_BLOCK_UNINIT := 0x2.
Abbreviation EXT2_BITMAP_BLOCK := 0x1.
Abbreviation EXT2_BITMAP_INODE := 0x2.
Abbreviation MS_RDONLY := 1.

(** [struct ext2_inode_cache]: the block buffer with the number of the block it
    holds, and the slots with an inode number and the bytes of the inode. *)
Record inode_cache := mk_icache {
  ic_buffer : list Z; ic_block : Z; cache_last : Z; cache : list (Z * list Z)
}.

(** [struct ext2_fs] *)
Record ext2_fs := mk_fs {
  super : list Z;
  mflags : Z;
  flags : Z;
  blksize : Z;
  group_desc_count : Z;
  desc_blocks : Z;
  group_desc : list Z;
  inode_blocks_per_group : Z;
  block_bitmap : option ext2_bitmap;
  inode_bitmap : option ext2_bitmap;
  cluster_ratio_bits : Z;
  checksum_seed : Z;
  icache : option inode_cache
}.

Definition set_super (f : ext2_fs) (x : list Z) : ext2_fs :=
  mk_fs x (mflags f) (flags f) (blksize f) (group_desc_count f) (desc_blocks f) (group_desc f)
    (inode_blocks_per_group f) (block_bitmap f) (inode_bitmap f) (cluster_ratio_bits f)
    (checksum_seed f) (icache f).
Definition set_flags (f : ext2_fs) (x : Z) : ext2_fs :=
  mk_fs (super f) (mflags f) x (blksize f) (group_desc_count f) (desc_blocks f) (group_desc f)
    (inode_blocks_per_group f) (block_bitmap f) (inode_bitmap f) (cluster_ratio_bits f)
    (checksum_seed f) (icache f).
Definition set_group_desc (f : ext2_fs) (x : list Z) : ext2_fs :=
  mk_fs (super f) (mflags f) (flags f) (blksize f) (group_desc_count f) (desc_blocks f) x
    (inode_blocks_per_group f) (block_bitmap f) (inode_bitmap f) (cluster_ratio_bits f)
    (checksum_seed f) (icache f).
Definition set_block_bitmap (f : ext2_fs) (x : option ext2_bitmap) : ext2_fs :=
  mk_fs (super f) (mflags f) (flags f) (blksize f) (group_desc_count f) (desc_blocks f)
    (group_desc f) (inode_blocks_per_group f) x (inode_bitmap f) (cluster_ratio_bits f)
    (checksum_seed f) (icache f).
Definition set_inode_bitmap (f : ext2_fs) (x : option ext2_bitmap) : ext2_fs :=
  mk_fs (super f) (mflags f) (flags f) (blksize f) (group_desc_count f) (desc_blocks f)
    (group_desc f) (inode_blocks_per_group f) (block_bitmap f) x (cluster_ratio_bits f)
    (checksum_seed f) (icache f).
Definition set_icache (f : ext2_fs) (x : option inode_cache) : ext2_fs :=
  mk_fs (super f) (mflags f) (flags f) (blksize f) (group_desc_count f) (desc_blocks f)
    (group_desc f) (inode_blocks_per_group f) (block_bitmap f) (inode_bitmap f)
    (cluster_ratio_bits f) (checksum_seed f) x.

Section driver.
Context {D : Type} `{BlockDevice D}.

(** What the functions run on: the filesystem, the device, the answers of the
    allocator, the static tables of [crc32], and the static buffer of zeros of
    [ext2_zero_blocks] with its length in blocks. *)
Record st := mk_st {
  fs : ext2_fs; dev : D; oracle : mem; tables : crc32_tables; zbuf : list Z; stride_len : Z
}.

Definition set_fs (s : st) (x : ext2_fs) : st :=
  mk_st x (dev s) (oracle s) (tables s) (zbuf s) (stride_len s).
Definition set_dev (s : st) (x : D) : st :=
  mk_st (fs s) x (oracle s) (tables s) (zbuf s) (stride_len s).
Definition set_oracle (s : st) (x : mem) : st :=
  mk_st (fs s) (dev s) x (tables s) (zbuf s) (stride_len s).
Definition set_tables (s : st) (x : crc32_tables) : st :=
  mk_st (fs s) (dev s) (oracle s) x (zbuf s) (stride_len s).
Definition set_zbuf (s : st) (x : list Z) (n : Z) : st :=
  mk_st (fs s) (dev s) (oracle s) (tables s) x n.

Definition modify_fs (f : ext2_fs -> ext2_fs) : M st unit := modify (fun s => set_fs s (f (fs s))).

(** Allocating code and [crc32]. *)
Definition alloc : M st bool := fun s =>
  match malloc (oracle s) with Some (b, o) => Some (b, set_oracle s o) | None => None end.
Definition crc32_st (seed : Z) (data : list Z) (len : Z) : M st Z := fun s =>
  match crc32 (tables s) seed data len with Some (c, t) => Some (c, set_tables s t) | None => None end.

(** ** super.c: blocks of the device *)

Definition ext2_read_blocks (block num : Z) : M st (res (list Z)) := fun s =>
  let '(r, d) := dev_read (u64 (num * blksize (fs s))) (s64 (block * blksize (fs s))) (dev s) in
  Some (r, set_dev s d).

Definition ext2_write_blocks (buffer : list Z) (block num : Z) : M st (res unit) := fun s =>
  data ← slice buffer 0 (u64 (num * blksize (fs s)));
  let '(r, d) := dev_write data (s64 (block * blksize (fs s))) (dev s) in
  Some (r, set_dev s d).

(** ** Block groups *)

Definition EXT2_CLUSTER_RATIO (f : ext2_fs) : Z := Z.shiftl 1 (cluster_ratio_bits f).
Definition EXT2_CLUSTER_MASK (f : ext2_fs) : Z := EXT2_CLUSTER_RATIO f - 1.
Definition EXT2_B2C (f : ext2_fs) (block : Z) : Z := Z.shiftr block (cluster_ratio_bits f).
Definition EXT2_NUM_B2C (f : ext2_fs) (blocks : Z) : Z :=
  Z.shiftr (u64 (blocks + EXT2_CLUSTER_MASK f)) (cluster_ratio_bits f).

Definition ext2_group_first_block (f : ext2_fs) (group : Z) : Z :=
  u64 (super f ~> s_first_data_block + super f ~> s_blocks_per_group * group).
Definition ext2_group_last_block (f : ext2_fs) (group : Z) : Z :=
  if group =? u32 (group_desc_count f - 1) then u64 (ext2_blocks_count (super f) - 1)
  else u64 (ext2_group_first_block f group + super f ~> s_blocks_per_group - 1).
Definition ext2_group_blocks_count (f : ext2_fs) (group : Z) : Z :=
  let bpg := super f ~> s_blocks_per_group in
  if group =? u32 (group_desc_count f - 1) then
    let nblocks := Z.rem (ext2_blocks_count (super f) - super f ~> s_first_data_block) bpg in
    if nblocks =? 0 then bpg else nblocks
  else bpg.
Definition ext2_group_of_block (f : ext2_fs) (block : Z) : Z :=
  u32 (u64 (block - super f ~> s_first_data_block) / super f ~> s_blocks_per_group).
Definition ext2_group_of_inode (f : ext2_fs) (ino : Z) : Z :=
  u32 (u64 (ino - 1) / super f ~> s_inodes_per_group).

(** [while (1)] of [ext2_bg_super_test_root]; the group number shrinks by a
    factor of at least three. *)
Fixpoint ext2_bg_super_test_root (fuel : nat) (group x : Z) : option bool :=
  match fuel with
  | O => None
  | S fuel =>
      if group <? x then Some false else
      if group =? x then Some true else
      if truthy (group mod x) then Some false else
      ext2_bg_super_test_root fuel (group / x) x
  end.

(** [s_backup_bgs[i]] *)
Definition s_backup_bg (i : Z) : field := F (f_off s_backup_bgs + 4 * i) 4.

Definition ext2_bg_has_super (f : ext2_fs) (group : Z) : option bool :=
  if group =? 0 then Some true else
  if ro_compat (super f) EXT2_FT_RO_COMPAT_SPARSE_SUPER then
    Some ((group =? super f ~> (s_backup_bg 0)) || (group =? super f ~> (s_backup_bg 1))) else
  if group <=? 1 then Some true else
  if negb (truthy (Z.land group 1)) then Some false else
  r3 ← ext2_bg_super_test_root 32 group 3;
  if r3 : bool then Some true else
  r5 ← ext2_bg_super_test_root 32 group 5;
  if r5 : bool then Some true else
  ext2_bg_super_test_root 32 group 7.

(** The locations of the copies of the superblock and of the descriptors in a
    group, and the number of blocks they use. *)
Record bgd_loc := mk_loc { loc_super : Z; loc_old_desc : Z; loc_new_desc : Z; loc_used : Z }.

Definition ext2_super_bgd_loc (f : ext2_fs) (group : Z) : option bgd_loc :=
  let group_block := ext2_group_first_block f group in
  let group_block := if (group_block =? 0) && (blksize f =? 1024) then 1 else group_block in
  let meta_bg_ft := incompat (super f) EXT2_FT_INCOMPAT_META_BG in
  let old_desc_blocks := if meta_bg_ft then super f ~> s_first_meta_bg
                         else desc_blocks f + super f ~> s_reserved_gdt_blocks in
  has_super ← ext2_bg_has_super f group;
  let meta_bg_size := EXT2_DESC_PER_BLOCK (super f) in
  if meta_bg_size =? 0 then None else
  let meta_bg := group / meta_bg_size in
  let super_block := if has_super : bool then group_block else 0 in
  let nblocks := if has_super then 1 else 0 in
  if negb meta_bg_ft || (meta_bg <? super f ~> s_first_meta_bg) then
    Some (if has_super then mk_loc super_block (u64 (group_block + 1)) 0 (s64 (nblocks + old_desc_blocks))
          else mk_loc super_block 0 0 nblocks)
  else
    let r := group mod meta_bg_size in
    Some (if (r =? 0) || (r =? 1) || (r =? meta_bg_size - 1)
          then mk_loc super_block 0 (u64 (group_block + (if has_super then 1 else 0))) (nblocks + 1)
          else mk_loc super_block 0 0 nblocks).

Definition ext2_descriptor_block (f : ext2_fs) (group_block i : Z) : option Z :=
  let adjust := if (i =? 0) && (blksize f =? 1024) && (1 <? EXT2_CLUSTER_RATIO f) then 1 else 0 in
  if negb (incompat (super f) EXT2_FT_INCOMPAT_META_BG) || (i <? super f ~> s_first_meta_bg)
  then Some (u64 (group_block + adjust + i + 1)) else
  let bg := s32 (EXT2_DESC_PER_BLOCK (super f) * i) in
  has_super ← ext2_bg_has_super f (u32 bg);
  let block := ext2_group_first_block f (u32 bg) in
  let hs := if has_super : bool then 1 else 0 in
  let bpg := super f ~> s_blocks_per_group in
  if negb (group_block =? super f ~> s_first_data_block) &&
     (u64 (block + hs + bpg) <? u64 (ext2_blocks_count (super f))) then
    next ← ext2_bg_has_super f (u32 (bg + 1));
    Some (u64 (u64 (block + bpg) + (if next : bool then 1 else 0) + adjust))
  else Some (u64 (block + hs + adjust)).

(** ** Group descriptors

    [ext2_group_desc] on the table in memory: the offset of the descriptor, or
    NULL, which the callers do not test. *)
Definition ext2_group_desc (f : ext2_fs) (group : Z) : option Z :=
  if group_desc_count f <? group then None else Some (u32 (group * EXT2_DESC_SIZE (super f))).

Definition gd_get (group : Z) (fl : field) : M st Z := fun s =>
  off ← ext2_group_desc (fs s) group;
  v ← load_le (Z.to_nat (f_len fl)) (group_desc (fs s)) (off + f_off fl);
  Some (v, s).
Definition gd_set (group : Z) (fl : field) (v : Z) : M st unit := fun s =>
  off ← ext2_group_desc (fs s) group;
  t ← blit (group_desc (fs s)) (off + f_off fl) (le_bytes (Z.to_nat (f_len fl)) v);
  Some (tt, set_fs s (set_group_desc (fs s) t)).

Definition ext2_bg_test_flags (group fl : Z) : M st Z :=
  v ← gd_get group bg_flags; mret (Z.land v fl).
Definition ext2_bg_clear_flags (group fl : Z) : M st unit :=
  v ← gd_get group bg_flags; gd_set group bg_flags (Z.land v (Z.lnot fl)).

(** A number of [w] bits in the first descriptor, with [w] more in the second
    half of a 64-bit descriptor. *)
Definition bg_split (w : Z) (lo hi : field) (group : Z) : M st Z :=
  v ← gd_get group lo;
  f ← gets fs;
  if incompat (super f) EXT4_FT_INCOMPAT_64BIT then
    h ← gd_get group hi; mret (Z.lor v (Z.shiftl h w))
  else mret v.
Definition bg_split_set (w : Z) (lo hi : field) (group v : Z) : M st unit :=
  gd_set group lo v;;
  f ← gets fs;
  if incompat (super f) EXT4_FT_INCOMPAT_64BIT then gd_set group hi (Z.shiftr v w) else mret tt.

Definition ext2_block_bitmap_loc := bg_split 32 bg_block_bitmap bg_block_bitmap_hi.
Definition ext2_inode_bitmap_loc := bg_split 32 bg_inode_bitmap bg_inode_bitmap_hi.
Definition ext2_inode_table_loc := bg_split 32 bg_inode_table bg_inode_table_hi.
Definition ext2_bg_free_blocks_count := bg_split 16 bg_free_blocks_count bg_free_blocks_count_hi.
Definition ext2_bg_free_blocks_count_set := bg_split_set 16 bg_free_blocks_count bg_free_blocks_count_hi.
Definition ext2_bg_free_inodes_count := bg_split 16 bg_free_inodes_count bg_free_inodes_count_hi.
Definition ext2_bg_free_inodes_count_set := bg_split_set 16 bg_free_inodes_count bg_free_inodes_count_hi.
Definition ext2_bg_used_dirs_count := bg_split 16 bg_used_dirs_count bg_used_dirs_count_hi.
Definition ext2_bg_used_dirs_count_set := bg_split_set 16 bg_used_dirs_count bg_used_dirs_count_hi.
Definition ext2_bg_itable_unused := bg_split 16 bg_itable_unused bg_itable_unused_hi.
Definition ext2_bg_itable_unused_set := bg_split_set 16 bg_itable_unused bg_itable_unused_hi.

(** ** checksum.c *)

(** The bytes of a descriptor. *)
Definition desc_bytes (group : Z) : M st (list Z) := fun s =>
  off ← ext2_group_desc (fs s) group;
  d ← slice (group_desc (fs s)) off (EXT2_DESC_SIZE (super (fs s)));
  Some (d, s).

Definition ext2_superblock_checksum (s : list Z) : M st Z :=
  crc32_st 0xffffffff s (f_off s_checksum).
Definition ext2_superblock_checksum_valid : M st bool :=
  f ← gets fs;
  if negb (ro_compat (super f) EXT4_FT_RO_COMPAT_METADATA_CSUM) then mret true else
  c ← ext2_superblock_checksum (super f); mret (super f ~> s_checksum =? c).
Definition ext2_superblock_checksum_update : M st unit :=
  f ← gets fs;
  if negb (ro_compat (super f) EXT4_FT_RO_COMPAT_METADATA_CSUM) then mret tt else
  c ← ext2_superblock_checksum (super f);
  modify_fs (fun f => set_super f (setf (super f) s_checksum c)).

Definition ext2_bg_checksum (group : Z) : M st Z := gd_get group bg_checksum.
Definition ext2_bg_checksum_update (group checksum : Z) : M st unit := gd_set group bg_checksum checksum.

(** The checksum field is zero while the descriptor is summed. *)
Definition ext2_group_desc_checksum (group : Z) : M st Z :=
  desc ← desc_bytes group;
  f ← gets fs;
  let size := EXT2_DESC_SIZE (super f) in
  if ro_compat (super f) EXT4_FT_RO_COMPAT_METADATA_CSUM then
    c ← crc32_st (checksum_seed f) (le_bytes 4 group) 4;
    c ← crc32_st c (setf desc bg_checksum 0) size;
    mret (Z.land c 0xffff)
  else
    let offset := f_off bg_checksum in
    uuid ← lift (slice (super f) (f_off s_uuid) 16);
    crc ← lift (crc16 0xffff uuid 16);
    crc ← lift (crc16 crc (le_bytes 4 group) 4);
    crc ← lift (crc16 crc desc offset);
    let offset := offset + f_len bg_checksum in
    if offset <? size then lift (crc16 crc (drop (Z.to_nat offset) desc) (size - offset)) else mret crc.

Definition ext2_group_desc_checksum_valid (group : Z) : M st bool :=
  f ← gets fs;
  if negb (ext2_has_group_desc_checksum (super f)) then mret true else
  a ← ext2_bg_checksum group;
  b ← ext2_group_desc_checksum group;
  mret (a =? b).
Definition ext2_group_desc_checksum_update (group : Z) : M st unit :=
  f ← gets fs;
  if negb (ext2_has_group_desc_checksum (super f)) then mret tt else
  c ← ext2_group_desc_checksum group; ext2_bg_checksum_update group c.

Abbreviation EXT4_BG_BLOCK_BITMAP_CSUM_HI_END := 58.
Abbreviation EXT4_BG_INODE_BITMAP_CSUM_HI_END := 60.

(** The checksums of the two bitmaps of a group differ in the fields and in the
    size a descriptor must have for the high half. *)
Definition bitmap_checksum_valid (lo hi : field) (hi_end group : Z) (bitmap : list Z) (size : Z) : M st bool :=
  f ← gets fs;
  if negb (ro_compat (super f) EXT4_FT_RO_COMPAT_METADATA_CSUM) then mret true else
  provided ← gd_get group lo;
  crc ← crc32_st (checksum_seed f) bitmap size;
  if hi_end <=? EXT2_DESC_SIZE (super f) then
    h ← gd_get group hi; mret (Z.lor provided (Z.shiftl h 16) =? crc)
  else mret (provided =? Z.land crc 0xffff).
Definition bitmap_checksum_update (lo hi : field) (hi_end group : Z) (bitmap : list Z) (size : Z) : M st unit :=
  f ← gets fs;
  if negb (ro_compat (super f) EXT4_FT_RO_COMPAT_METADATA_CSUM) then mret tt else
  crc ← crc32_st (checksum_seed f) bitmap size;
  gd_set group lo (Z.land crc 0xffff);;
  if hi_end <=? EXT2_DESC_SIZE (super f) then gd_set group hi (Z.shiftr crc 16) else mret tt.

Definition ext2_block_bitmap_checksum_valid :=
  bitmap_checksum_valid bg_block_bitmap_csum_lo bg_block_bitmap_csum_hi EXT4_BG_BLOCK_BITMAP_CSUM_HI_END.
Definition ext2_block_bitmap_checksum_update :=
  bitmap_checksum_update bg_block_bitmap_csum_lo bg_block_bitmap_csum_hi EXT4_BG_BLOCK_BITMAP_CSUM_HI_END.
Definition ext2_inode_bitmap_checksum_valid :=
  bitmap_checksum_valid bg_inode_bitmap_csum_lo bg_inode_bitmap_csum_hi EXT4_BG_INODE_BITMAP_CSUM_HI_END.
Definition ext2_inode_bitmap_checksum_update :=
  bitmap_checksum_update bg_inode_bitmap_csum_lo bg_inode_bitmap_csum_hi EXT4_BG_INODE_BITMAP_CSUM_HI_END.

(** ** Allocation statistics *)

Definition add_flags (x : Z) : M st unit := modify_fs (fun f => set_flags f (Z.lor (flags f) x)).

Definition ext2_block_alloc_stats (block inuse : Z) : M st unit :=
  f ← gets fs;
  let group := ext2_group_of_block f block in
  if u64 (ext2_blocks_count (super f)) <? block then mret tt else
  bm ← lift (if 0 <? inuse then ext2_mark_bitmap (block_bitmap f) block
             else ext2_unmark_bitmap (block_bitmap f) block);
  modify_fs (fun f => set_block_bitmap f bm);;
  n ← ext2_bg_free_blocks_count group;
  ext2_bg_free_blocks_count_set group (u32 (n - inuse));;
  ext2_bg_clear_flags group EXT2_BG_BLOCK_UNINIT;;
  ext2_group_desc_checksum_update group;;
  modify_fs (fun f => set_super f (ext2_free_blocks_count_add (super f) (- inuse * EXT2_CLUSTER_RATIO f)));;
  add_flags (Z.lor EXT2_FLAG_CHANGED (Z.lor EXT2_FLAG_DIRTY EXT2_FLAG_BB_DIRTY)).

Definition ext2_inode_alloc_stats (ino inuse : Z) (isdir : bool) : M st unit :=
  f ← gets fs;
  let group := ext2_group_of_inode f ino in
  let ipg := super f ~> s_inodes_per_group in
  if super f ~> s_inodes_count <? ino then mret tt else
  bm ← lift (if 0 <? inuse then ext2_mark_bitmap (inode_bitmap f) ino
             else ext2_unmark_bitmap (inode_bitmap f) ino);
  modify_fs (fun f => set_inode_bitmap f bm);;
  n ← ext2_bg_free_inodes_count group;
  ext2_bg_free_inodes_count_set group (u32 (n - inuse));;
  (if isdir then d ← ext2_bg_used_dirs_count group; ext2_bg_used_dirs_count_set group (u32 (d + inuse))
   else mret tt);;
  ext2_bg_clear_flags group EXT2_BG_INODE_UNINIT;;
  (if ext2_has_group_desc_checksum (super f) then
     unused ← ext2_bg_itable_unused group;
     let first_unused := u32 (ipg - unused + group * ipg + 1) in
     (if first_unused <=? ino then ext2_bg_itable_unused_set group (u32 (u32 (group * ipg + ipg) - ino))
      else mret tt);;
     ext2_group_desc_checksum_update group
   else mret tt);;
  modify_fs (fun f => set_super f (setf (super f) s_free_inodes_count (super f ~> s_free_inodes_count - inuse)));;
  add_flags (Z.lor EXT2_FLAG_CHANGED (Z.lor EXT2_FLAG_DIRTY EXT2_FLAG_IB_DIRTY)).

Definition ext2_clear_block_uninit (group : Z) : M st unit :=
  f ← gets fs;
  if (group_desc_count f <=? group) || negb (ext2_has_group_desc_checksum (super f)) then mret tt else
  fl ← ext2_bg_test_flags group EXT2_BG_BLOCK_UNINIT;
  if negb (truthy fl) then mret tt else
  ext2_bg_clear_flags group EXT2_BG_BLOCK_UNINIT;;
  ext2_group_desc_checksum_update group;;
  add_flags (Z.lor EXT2_FLAG_CHANGED (Z.lor EXT2_FLAG_DIRTY EXT2_FLAG_BB_DIRTY)).

(** [for (i = 0; i < n; i++, ino++) ext2_unmark_bitmap (map, ino)] on the inode
    bitmap of the filesystem, which every caller passes. *)
Fixpoint unmark_inodes (n : nat) (map : option ext2_bitmap) (ino : Z) : option (option ext2_bitmap) :=
  match n with
  | O => Some map
  | S n => map ← ext2_unmark_bitmap map ino; unmark_inodes n map (u64 (ino + 1))
  end.

Definition ext2_check_inode_uninit (group : Z) : M st unit :=
  f ← gets fs;
  if (group_desc_count f <=? group) || negb (ext2_has_group_desc_checksum (super f)) then mret tt else
  fl ← ext2_bg_test_flags group EXT2_BG_INODE_UNINIT;
  if negb (truthy fl) then mret tt else
  let ipg := super f ~> s_inodes_per_group in
  bm ← lift (unmark_inodes (Z.to_nat ipg) (inode_bitmap f) (u32 (group * ipg + 1)));
  modify_fs (fun f => set_inode_bitmap f bm);;
  ext2_bg_clear_flags group (Z.lor EXT2_BG_INODE_UNINIT EXT2_BG_BLOCK_UNINIT);;
  ext2_group_desc_checksum_update group;;
  add_flags (Z.lor EXT2_FLAG_CHANGED (Z.lor EXT2_FLAG_DIRTY EXT2_FLAG_IB_DIRTY)).

(** ** Choosing a free block and a free inode

    [fuel] bounds the loops over the bits of a bitmap and, for inodes, over the
    groups. The callers pass the bitmap of the filesystem or NULL, which stands
    for it. *)
Section choose.
Context (fuel : nat).

Definition ext2_new_block (goal : Z) : M st (res Z) :=
  f ← gets fs;
  match block_bitmap f with
  | None => mret (Err EINVAL)
  | Some bm =>
      let count := u64 (ext2_blocks_count (super f)) in
      let first := super f ~> s_first_data_block in
      let goal := if (goal =? 0) || (count <=? goal) then Z.land goal (Z.lnot (EXT2_CLUSTER_MASK f)) else goal in
      r ← lift (ext2_find_first_zero_bitmap fuel (Some bm) goal (u64 (count - 1)));
      r ← (match r with
           | Err ENOENT => if negb (goal =? first)
               then lift (ext2_find_first_zero_bitmap fuel (Some bm) first (u64 (goal - 1))) else mret r
           | _ => mret r
           end);
      match r with
      | Err e => mret (Err e)
      | Ok b => ext2_clear_block_uninit (ext2_group_of_block f b);; mret (Ok b)
      end
  end.

Definition new_inode_step (start_inode : Z) (i : Z) : M st (ctl Z errno) :=
  f ← gets fs;
  let ipg := super f ~> s_inodes_per_group in
  let count := super f ~> s_inodes_count in
  let ino_in_group := u64 (i - 1) mod ipg in
  ext2_check_inode_uninit (u32 (u64 (i - 1) / ipg));;
  f ← gets fs;
  let upto := u64 (i + ipg - ino_in_group) in
  let upto := if (i <? start_inode) && (start_inode <=? upto) then u64 (start_inode - 1) else upto in
  let upto := if count <? upto then count else upto in
  r ← lift (ext2_find_first_zero_bitmap fuel (inode_bitmap f) i upto);
  mret (match r with
        | Ok first_zero => Break first_zero
        | Err ENOENT =>
            let i := u64 (upto + 1) in
            let i := if count <? i then EXT2_FIRST_INODE (super f) else i in
            if i =? start_inode then Break i else Cont i
        | Err _ => Ret ENOSPC
        end).

Definition ext2_new_inode (dir : Z) : M st (res Z) :=
  f ← gets fs;
  match inode_bitmap f with
  | None => mret (Err EINVAL)
  | Some _ =>
      let ipg := super f ~> s_inodes_per_group in
      let start := if 0 <? dir then u32 (u32 (u64 (dir - 1) / ipg) * ipg + 1) else 0 in
      let start := if start <? EXT2_FIRST_INODE (super f) then EXT2_FIRST_INODE (super f) else start in
      if super f ~> s_inodes_count <? start then mret (Err ENOSPC) else
      r ← mloop fuel (new_inode_step start) start;
      match r with
      | inr e => mret (Err e)
      | inl i =>
          f ← gets fs;
          t ← lift (ext2_test_bitmap (inode_bitmap f) i);
          mret (if truthy t then Err ENOSPC else Ok i)
      end
  end.
End choose.

(** ** bitmap.c: the bitmaps of a filesystem

    [fresh size] is the address and the contents of what the allocator returns
    for an array of that size. *)
Section bitmaps.
Context (fresh : Z -> Z * list Z).

Definition with_mem {A} (m : M mem A) : M st A := fun s =>
  match m (oracle s) with Some (a, o) => Some (a, set_oracle s o) | None => None end.

(** The sizes of the arrays of the two kinds of bitmap. *)
Definition array32 (start real_end : Z) : Z * list Z :=
  fresh (Z.land (u32 (real_end - start) / 8 + 1 + 7) (Z.lnot 3)).
Definition array64 (start real_end : Z) : Z * list Z := fresh (u64 (real_end - start) / 8 + 1).

Definition make_bitmap (magic32 magic64 start end_ real_end : Z) : M st (res ext2_bitmap) :=
  f ← gets fs;
  if truthy (Z.land (flags f) EXT2_FLAG_64BIT) then
    let '(addr, arr) := array64 start real_end in
    with_mem (ext2_make_bitmap_64 (cluster_ratio_bits f) magic64 EXT2_BMAP64_BITARRAY start end_ real_end addr arr)
  else if (0xffffffff <? end_) || (0xffffffff <? real_end) then mret (Err EUCLEAN)
  else with_mem (ext2_make_bitmap_32 magic32 (u32 start) (u32 end_) (u32 real_end) None
                   (array32 (u32 start) (u32 real_end)).2).

Definition ext2_allocate_block_bitmap : M st (res ext2_bitmap) :=
  f ← gets fs;
  let start := EXT2_B2C f (super f ~> s_first_data_block) in
  let end_ := u64 (EXT2_B2C f (ext2_blocks_count (super f) - 1)) in
  let real_end := u64 (super f ~> s_clusters_per_group * group_desc_count f - 1 + start) in
  make_bitmap EXT2_BMAP_MAGIC_BLOCK EXT2_BMAP_MAGIC_BLOCK64 start end_ real_end.

Definition ext2_allocate_inode_bitmap : M st (res ext2_bitmap) :=
  f ← gets fs;
  make_bitmap EXT2_BMAP_MAGIC_INODE EXT2_BMAP_MAGIC_INODE64 1 (super f ~> s_inodes_count)
    (u64 (super f ~> s_inodes_per_group * group_desc_count f)).

(** A failed allocation leaves no bitmap. *)
Definition ext2_prepare_read_bitmap (fl : Z) : M st (res unit) :=
  f ← gets fs;
  if (blksize f <? super f ~> s_clusters_per_group / 8) || (blksize f <? super f ~> s_inodes_per_group / 8)
  then mret (Err EUCLEAN) else
  r ← (if truthy (Z.land fl EXT2_BITMAP_BLOCK) then
         r ← ext2_allocate_block_bitmap;
         match r with
         | Ok bm => modify_fs (fun f => set_block_bitmap f (Some bm));; mret (Ok tt)
         | Err e => modify_fs (fun f => set_block_bitmap f None);; mret (Err e)
         end
       else mret (Ok tt));
  match r with
  | Err e => mret (Err e)
  | Ok _ =>
      if truthy (Z.land fl EXT2_BITMAP_INODE) then
        r ← ext2_allocate_inode_bitmap;
        match r with
        | Ok bm => modify_fs (fun f => set_inode_bitmap f (Some bm));; mret (Ok tt)
        | Err e => modify_fs (fun f => set_inode_bitmap f None);; mret (Err e)
        end
      else mret (Ok tt)
  end.

(** *** Groups without a bitmap on disk *)

Definition mark_block (b : Z) : M st unit :=
  f ← gets fs; bm ← lift (ext2_mark_bitmap (block_bitmap f) b); modify_fs (fun f => set_block_bitmap f bm).
Definition mark_range (b num : Z) : M st unit :=
  f ← gets fs; bm ← lift (ext2_mark_block_bitmap_range (block_bitmap f) b num);
  modify_fs (fun f => set_block_bitmap f bm).

Definition ext2_reserve_super_bgd (group : Z) : M st Z :=
  f ← gets fs;
  loc ← lift (ext2_super_bgd_loc f group);
  let old_desc_nblocks := s32 (if incompat (super f) EXT2_FT_INCOMPAT_META_BG then super f ~> s_first_meta_bg
                               else desc_blocks f + super f ~> s_reserved_gdt_blocks) in
  (if truthy (loc_super loc) || (group =? 0) then mark_block (loc_super loc) else mret tt);;
  (if (group =? 0) && (blksize f =? 1024) && (1 <? EXT2_CLUSTER_RATIO f) then mark_block 0 else mret tt);;
  (if truthy (loc_old_desc loc) then
     let count := u64 (ext2_blocks_count (super f)) in
     let nblocks := if count <=? u64 (loc_old_desc loc + old_desc_nblocks)
                    then s32 (ext2_blocks_count (super f) - loc_old_desc loc) else old_desc_nblocks in
     mark_range (loc_old_desc loc) nblocks
   else mret tt);;
  (if truthy (loc_new_desc loc) then mark_block (loc_new_desc loc) else mret tt);;
  mret (s32 (s32 (ext2_group_blocks_count f group) - (inode_blocks_per_group f + loc_used loc + 2))).

(** The body of the loop over the groups. *)
Definition mark_uninit_group (i : Z) : M st unit :=
  fl ← ext2_bg_test_flags i EXT2_BG_BLOCK_UNINIT;
  if negb (truthy fl) then mret tt else
  ext2_reserve_super_bgd i;;
  b ← ext2_inode_table_loc i;
  f ← gets fs;
  (if truthy b then mark_range b (inode_blocks_per_group f) else mret tt);;
  b ← ext2_block_bitmap_loc i;
  (if truthy b then mark_block b else mret tt);;
  b ← ext2_inode_bitmap_loc i;
  if truthy b then mark_block b else mret tt.

Fixpoint each_group (body : Z -> M st unit) (n : nat) (i : Z) : M st unit :=
  match n with O => mret tt | S n => body i;; each_group body n (i + 1) end.

Definition ext2_mark_uninit_bg_group_blocks : M st (res unit) :=
  f ← gets fs;
  each_group mark_uninit_group (Z.to_nat (group_desc_count f)) 0;; mret (Ok tt).

(** *** Reading *)

(** One of the two halves of the loop body: the block [loc] of the group is read
    to the buffer, unless the group has none, checked, and stored in the bitmap
    from bit [itr] on. The result is the value of [ret] and the buffer, or the
    value with which the function ends: after a checksum that does not fit, that
    is the zero of the read before. *)
Definition read_group_bitmap (uninit : Z) (loc : Z -> M st Z)
    (valid : Z -> list Z -> Z -> M st bool) (get : ext2_fs -> option ext2_bitmap)
    (put : ext2_fs -> option ext2_bitmap -> ext2_fs) (csum_flag : bool) (i nbytes itr : Z) (buf : list Z) :
    M st (list Z + res unit) :=
  b ← loc i;
  f ← gets fs;
  un ← (if csum_flag then
          fl ← ext2_bg_test_flags i uninit;
          if truthy fl then ext2_group_desc_checksum_valid i else mret false
        else mret false);
  let b := if un || (u64 (ext2_blocks_count (super f)) <=? b) then 0 else b in
  r ← (if truthy b then
         r ← ext2_read_blocks b 1;
         match r with
         | Err _ => mret (inr (Err EIO))
         | Ok buf =>
             v ← valid i buf nbytes;
             mret (if v : bool then inl buf else inr (Ok tt))
         end
       else buf ← lift (blit buf 0 (replicate (Z.to_nat nbytes) 0)); mret (inl buf));
  match r with
  | inr r => mret (inr r)
  | inl buf =>
      f ← gets fs;
      r ← lift (ext2_set_bitmap_range (get f) itr (u32 (Z.shiftl nbytes 3)) buf);
      match r with
      | Err e => mret (inr (Err e))
      | Ok bm => modify_fs (fun f => put f bm);; mret (inl buf)
      end
  end.

(** The loop [for (i = start; i <= end; i++)]; a buffer that is NULL is skipped. *)
Fixpoint read_groups (n : nat) (csum_flag : bool) (i blkitr inoitr block_nbytes inode_nbytes : Z)
    (blockbuf inodebuf : option (list Z)) : M st (res unit) :=
  match n with
  | O => mret (Ok tt)
  | S n =>
      rb ← (match blockbuf with
            | None => mret (inl None)
            | Some buf =>
                r ← read_group_bitmap EXT2_BG_BLOCK_UNINIT ext2_block_bitmap_loc ext2_block_bitmap_checksum_valid
                      block_bitmap set_block_bitmap csum_flag i block_nbytes blkitr buf;
                mret (match r with inl buf => inl (Some buf) | inr r => inr r end)
            end);
      match rb with
      | inr r => mret r
      | inl blockbuf =>
          ri ← (match inodebuf with
                | None => mret (inl None)
                | Some buf =>
                    r ← read_group_bitmap EXT2_BG_INODE_UNINIT ext2_inode_bitmap_loc ext2_inode_bitmap_checksum_valid
                          inode_bitmap set_inode_bitmap csum_flag i inode_nbytes inoitr buf;
                    mret (match r with inl buf => inl (Some buf) | inr r => inr r end)
                end);
          match ri with
          | inr r => mret r
          | inl inodebuf =>
              read_groups n csum_flag (i + 1)
                (u64 (blkitr + Z.shiftl block_nbytes 3)) (u64 (inoitr + Z.shiftl inode_nbytes 3))
                block_nbytes inode_nbytes blockbuf inodebuf
          end
      end
  end.

(** A buffer for one block, when the flag asks for it. Without memory the
    function returns the variable [ret] before it is assigned: [junk]. *)
Definition block_buffer (want : bool) : M st (option (option (list Z))) :=
  f ← gets fs;
  if want then ok ← alloc; mret (if ok : bool then Some (Some (fresh (blksize f)).2) else None)
  else mret (Some None).

Definition ext2_read_bitmap_start (junk : res unit) (fl start end_ : Z) : M st (res unit) :=
  f ← gets fs;
  let want_block := truthy (Z.land fl EXT2_BITMAP_BLOCK) in
  let want_inode := truthy (Z.land fl EXT2_BITMAP_INODE) in
  let block_nbytes := if want_block then super f ~> s_clusters_per_group / 8 else 0 in
  let inode_nbytes := if want_inode then super f ~> s_inodes_per_group / 8 else 0 in
  let csum_flag := ext2_has_group_desc_checksum (super f) in
  bb ← block_buffer want_block;
  match bb with
  | None => mret junk
  | Some blockbuf =>
      ib ← block_buffer want_inode;
      match ib with
      | None => mret junk
      | Some inodebuf =>
          read_groups (Z.to_nat (end_ - start + 1)) csum_flag start
            (u64 (EXT2_B2C f (super f ~> s_first_data_block) + start * Z.shiftl block_nbytes 3))
            (u64 (1 + start * Z.shiftl inode_nbytes 3)) block_nbytes inode_nbytes blockbuf inodebuf
      end
  end.

Definition ext2_read_bitmap_end (fl : Z) : M st (res unit) :=
  if truthy (Z.land fl EXT2_BITMAP_BLOCK) then ext2_mark_uninit_bg_group_blocks else mret (Ok tt).

Definition ext2_clean_bitmap (fl : Z) : M st unit :=
  (if truthy (Z.land fl EXT2_BITMAP_BLOCK) then modify_fs (fun f => set_block_bitmap f None) else mret tt);;
  if truthy (Z.land fl EXT2_BITMAP_INODE) then modify_fs (fun f => set_inode_bitmap f None) else mret tt.

Definition ext2_read_bitmap (junk : res unit) (fl start end_ : Z) : M st (res unit) :=
  r ← ext2_prepare_read_bitmap fl;
  match r with
  | Err e => mret (Err e)
  | Ok _ =>
      r ← ext2_read_bitmap_start junk fl start end_;
      r ← (match r with Ok _ => ext2_read_bitmap_end fl | Err e => mret (Err e) end);
      match r with
      | Ok _ => mret (Ok tt)
      | Err e => ext2_clean_bitmap fl;; mret (Err e)
      end
  end.

Definition ext2_read_bitmaps (junk : res unit) : M st (res unit) :=
  f ← gets fs;
  let fl := Z.lor (if block_bitmap f then 0 else EXT2_BITMAP_BLOCK) (if inode_bitmap f then 0 else EXT2_BITMAP_INODE) in
  if fl =? 0 then mret (Ok tt) else ext2_read_bitmap junk fl 0 (u32 (group_desc_count f - 1)).

(** *** Writing *)

(** [for (j = nbits; j < n; j++) set_bit (buf, j)] *)
Definition pad_bits (buf : list Z) (nbits n : Z) : option (list Z) :=
  each_bit set_bit (Z.to_nat (n - nbits)) buf nbits 0.

(** The block bitmap of group [i]; [inr] is the jump to [err]. *)
Definition write_block_group (csum_flag : bool) (i nbytes itr : Z) (buf : list Z) : M st (list Z + res unit) :=
  fl ← (if csum_flag then ext2_bg_test_flags i EXT2_BG_BLOCK_UNINIT else mret 0);
  if truthy fl then mret (inl buf) else
  f ← gets fs;
  r ← lift (ext2_get_bitmap_range (block_bitmap f) itr (u32 (Z.shiftl nbytes 3)) buf);
  match r with
  | Err e => mret (inr (Err e))
  | Ok buf =>
      let nbits := u32 (EXT2_NUM_B2C f (u64 (ext2_blocks_count (super f) - super f ~> s_first_data_block)
                                         mod super f ~> s_blocks_per_group)) in
      buf ← lift (if (i =? u32 (group_desc_count f - 1)) && truthy nbits
                  then pad_bits buf nbits (blksize f * 8) else Some buf);
      ext2_block_bitmap_checksum_update i buf nbytes;;
      ext2_group_desc_checksum_update i;;
      add_flags EXT2_FLAG_DIRTY;;
      b ← ext2_block_bitmap_loc i;
      if truthy b then
        r ← ext2_write_blocks buf b 1;
        mret (match r with Err _ => inr (Err EIO) | Ok _ => inl buf end)
      else mret (inl buf)
  end.

Definition write_inode_group (csum_flag : bool) (i nbytes itr : Z) (buf : list Z) : M st (list Z + res unit) :=
  fl ← (if csum_flag then ext2_bg_test_flags i EXT2_BG_INODE_UNINIT else mret 0);
  if truthy fl then mret (inl buf) else
  f ← gets fs;
  r ← lift (ext2_get_bitmap_range (inode_bitmap f) itr (u32 (Z.shiftl nbytes 3)) buf);
  match r with
  | Err e => mret (inr (Err e))
  | Ok buf =>
      ext2_inode_bitmap_checksum_update i buf nbytes;;
      ext2_group_desc_checksum_update i;;
      add_flags EXT2_FLAG_DIRTY;;
      b ← ext2_inode_bitmap_loc i;
      if truthy b then
        r ← ext2_write_blocks buf b 1;
        mret (match r with Err _ => inr (Err EIO) | Ok _ => inl buf end)
      else mret (inl buf)
  end.

Fixpoint write_groups (n : nat) (csum_flag : bool) (i blkitr inoitr block_nbytes inode_nbytes : Z)
    (blockbuf inodebuf : option (list Z)) : M st (res unit) :=
  match n with
  | O => mret (Ok tt)
  | S n =>
      rb ← (match blockbuf with
            | None => mret (inl None)
            | Some buf =>
                r ← write_block_group csum_flag i block_nbytes blkitr buf;
                mret (match r with inl buf => inl (Some buf) | inr r => inr r end)
            end);
      match rb with
      | inr r => mret r
      | inl blockbuf =>
          ri ← (match inodebuf with
                | None => mret (inl None)
                | Some buf =>
                    r ← write_inode_group csum_flag i inode_nbytes inoitr buf;
                    mret (match r with inl buf => inl (Some buf) | inr r => inr r end)
                end);
          match ri with
          | inr r => mret r
          | inl inodebuf =>
              write_groups n csum_flag (i + 1)
                (u64 (blkitr + Z.shiftl block_nbytes 3)) (u64 (inoitr + Z.shiftl inode_nbytes 3))
                block_nbytes inode_nbytes blockbuf inodebuf
          end
      end
  end.

(** A buffer of one block, all ones. *)
Definition ones_buffer (want : bool) : M st (option (option (list Z))) :=
  f ← gets fs;
  if want then ok ← alloc; mret (if ok : bool then Some (Some (replicate (Z.to_nat (blksize f)) 0xff)) else None)
  else mret (Some None).

Definition ext2_write_bitmaps (junk : res unit) : M st (res unit) :=
  f ← gets fs;
  let do_block := (if block_bitmap f then true else false) && truthy (Z.land (flags f) EXT2_FLAG_BB_DIRTY) in
  let do_inode := (if inode_bitmap f then true else false) && truthy (Z.land (flags f) EXT2_FLAG_IB_DIRTY) in
  if truthy (Z.land (mflags f) MS_RDONLY) then mret (Err EROFS) else
  if negb do_block && negb do_inode then mret (Ok tt) else
  let csum_flag := ext2_has_group_desc_checksum (super f) in
  let block_nbytes := if do_block then super f ~> s_clusters_per_group / 8 else 0 in
  let inode_nbytes := if do_inode then u32 (super f ~> s_inodes_per_group + 7) / 8 else 0 in
  bb ← ones_buffer do_block;
  match bb with
  | None => mret junk
  | Some blockbuf =>
      ib ← ones_buffer do_inode;
      match ib with
      | None => mret junk
      | Some inodebuf =>
          r ← write_groups (Z.to_nat (group_desc_count f)) csum_flag 0
                (EXT2_B2C f (super f ~> s_first_data_block)) 1 block_nbytes inode_nbytes blockbuf inodebuf;
          match r with
          | Err e => mret (Err e)
          | Ok _ =>
              (if do_block then modify_fs (fun f => set_flags f (Z.land (flags f) (Z.lnot EXT2_FLAG_BB_DIRTY)))
               else mret tt);;
              (if do_inode then modify_fs (fun f => set_flags f (Z.land (flags f) (Z.lnot EXT2_FLAG_IB_DIRTY)))
               else mret tt);;
              mret (Ok tt)
          end
      end
  end.

(** ** Writing the superblock and the descriptors *)

Abbreviation EXT2_MAGIC := 0xef53.
Abbreviation EXT2_STATE_VALID := 0x1.
Abbreviation EXT2_SUPER_OFFSET := 1024.
Abbreviation FLUSH_VALID := 1.

Definition modify_super (g : list Z -> list Z) : M st unit := modify_fs (fun f => set_super f (g (super f))).

(** [fs->device->write] of the superblock. *)
Definition write_super_at (offset : Z) : M st (res unit) := fun s =>
  let '(r, d) := dev_write (super (fs s)) offset (dev s) in
  Some (match r with Ok _ => Ok tt | Err _ => Err EIO end, set_dev s d).

Definition ext2_write_backup_superblock (group group_block : Z) : M st (res unit) :=
  modify_super (fun s => setf s s_block_group_nr (if 65535 <? group then 65535 else group));;
  ext2_superblock_checksum_update;;
  f ← gets fs;
  write_super_at (s64 (group_block * blksize f)).
Definition ext2_write_primary_superblock : M st (res unit) := write_super_at EXT2_SUPER_OFFSET.

(** The body of the loop over the groups. *)
Definition flush_group (old_desc_blocks i : Z) : M st (res unit) :=
  f ← gets fs;
  loc ← lift (ext2_super_bgd_loc f i);
  (if (0 <? i) && truthy (loc_super loc) then ext2_write_backup_superblock i (loc_super loc) else mret (Ok tt));?
  (if truthy (loc_old_desc loc) then ext2_write_blocks (group_desc f) (loc_old_desc loc) old_desc_blocks
   else mret (Ok tt));?
  (if truthy (loc_new_desc loc) then
     let meta_bg := i / EXT2_DESC_PER_BLOCK (super f) in
     ext2_write_blocks (drop (Z.to_nat (meta_bg * blksize f)) (group_desc f)) (loc_new_desc loc) 1
   else mret (Ok tt)).

Fixpoint flush_groups (n : nat) (old_desc_blocks i : Z) : M st (res unit) :=
  match n with
  | O => mret (Ok tt)
  | S n => flush_group old_desc_blocks i ;? flush_groups n old_desc_blocks (i + 1)
  end.

(** [now] is the time; a filesystem that was opened has its descriptors in
    memory. *)
Definition ext2_flush_fs (junk : res unit) (now fl : Z) : M st (res unit) :=
  f ← gets fs;
  if negb (super f ~> s_magic =? EXT2_MAGIC) then mret (Err EUCLEAN) else
  let state := super f ~> s_state in
  modify_super (fun s => setf s s_wtime now);;
  modify_super (fun s => setf s s_block_group_nr 0);;
  modify_super (fun s => setf s s_state (Z.land (s ~> s_state) (Z.lnot EXT2_STATE_VALID)));;
  modify_super (fun s => setf s s_feature_incompat (Z.land (s ~> s_feature_incompat) (Z.lnot EXT3_FT_INCOMPAT_RECOVER)));;
  ext2_write_bitmaps junk ;?
  f ← gets fs;
  let old_desc_blocks :=
    if incompat (super f) EXT2_FT_INCOMPAT_META_BG then Z.min (super f ~> s_first_meta_bg) (desc_blocks f)
    else desc_blocks f in
  (if incompat (super f) EXT3_FT_INCOMPAT_JOURNAL_DEV then mret (Ok tt)
   else flush_groups (Z.to_nat (group_desc_count f)) old_desc_blocks 0) ;?
  modify_super (fun s => setf s s_block_group_nr 0);;
  modify_super (fun s => setf s s_state state);;
  (if truthy (Z.land fl FLUSH_VALID)
   then modify_super (fun s => setf s s_state (Z.lor (s ~> s_state) EXT2_STATE_VALID)) else mret tt);;
  ext2_superblock_checksum_update;;
  ext2_write_primary_superblock ;?
  modify_fs (fun f => set_flags f (Z.land (flags f) (Z.lnot EXT2_FLAG_DIRTY)));; mret (Ok tt).

(** ** Allocating a block *)

Definition EXT2_MAX_STRIDE_LENGTH (s : list Z) : Z := 4194304 / EXT2_BLOCK_SIZE s.

(** [while (i < num)] *)
Definition zero_step (num : Z) (a : Z * Z) : M st (ctl (Z * Z) errno) :=
  let '(i, block) := a in
  if num <=? i then mret (Break a) else
  s ← gets (fun s => s);
  if stride_len s =? 0 then fault else
  let r := block mod stride_len s in
  let c := if truthy r then Z.min (stride_len s - r) (num - i) else Z.min (num - i) (stride_len s) in
  w ← ext2_write_blocks (zbuf s) block c;
  mret (match w with Err e => Ret e | Ok _ => Cont (i + c, u64 (block + c)) end).

Definition ext2_zero_blocks (fuel : nat) (block num : Z) : M st (res unit) :=
  if num <=? 0 then mret (Ok tt) else
  s ← gets (fun s => s);
  let max := EXT2_MAX_STRIDE_LENGTH (super (fs s)) in
  ok ← (if (stride_len s <? num) && (stride_len s <? max) then
          ok ← alloc;
          if ok : bool then
            let n := Z.min num max in
            modify (fun s => set_zbuf s (replicate (Z.to_nat (blksize (fs s) * n)) 0) n);; mret true
          else mret false
        else mret true);
  if negb ok then mret (Err ENOMEM) else
  r ← mloop fuel (zero_step num) (0, block);
  mret (match r with inl _ => Ok tt | inr e => Err e end).

(** [own_buffer]: the caller passes a buffer for the zeros. *)
Definition ext2_alloc_block (fuel : nat) (junk : res unit) (goal : Z) (own_buffer : bool) : M st (res Z) :=
  f ← gets fs;
  (if block_bitmap f then mret (Ok tt)
   else ext2_read_bitmap junk EXT2_BITMAP_BLOCK 0 (u32 (group_desc_count f - 1))) ;?
  block ←? ext2_new_block fuel goal;
  (if own_buffer then f ← gets fs; ext2_write_blocks (replicate (Z.to_nat (blksize f)) 0) block 1
   else ext2_zero_blocks fuel block 1) ;?
  ext2_block_alloc_stats block 1;; mret (Ok block).

End bitmaps.
End driver.

End Ext2Fs.
