(* ===== verification/Ext2Alloc.v ===== *)
(** * Allocation in an ext2 filesystem

    Module [Ext2Alloc]: what the operations of [Ext2Fs] promise. A write to one
    group descriptor leaves the others alone, an updated checksum is valid, and
    allocating and freeing blocks keeps the bitmap, the counts of the groups and
    the count of the superblock in step. *)

From S2P Require Import Prelude CBits Hash HashMap CString Ext2Layout Ext2Bitmap Ext2Fs.

Module Ext2Alloc.
Import CBits Hash HashMap CString Ext2Layout Ext2Bitmap Ext2Fs.

(** ** The table of group descriptors *)

(** The bytes of descriptor [g]. *)
Definition desc_of (tbl : list Z) (ds g : Z) : list Z := take (Z.to_nat ds) (drop (Z.to_nat (g * ds)) tbl).

Lemma blit_bytes b off d b' : blit b off d = Some b' -> bytes_ok b -> bytes_ok d -> bytes_ok b'.
Proof.
  unfold blit. destruct (_ && _); [|done]. intros [= <-] Hb Hd.
  apply Forall_app. split; [by apply Forall_take|]. apply Forall_app. split; [done | by apply Forall_drop].
Qed.

Section table.
Context (tbl : list Z) (ds g : Z).
Hypothesis Hds : 0 < ds.
Hypothesis Hg : 0 <= g.
Hypothesis Hin : (g + 1) * ds <= zlen tbl.

Lemma desc_len : zlen (desc_of tbl ds g) = ds.
Proof. unfold desc_of, zlen in *. rewrite length_take, length_drop. nia. Qed.

Lemma desc_bytes_ok : bytes_ok tbl -> bytes_ok (desc_of tbl ds g).
Proof. intros H. by apply Forall_take, Forall_drop. Qed.

Lemma desc_load fl : 0 <= f_off fl -> 0 <= f_len fl -> f_off fl + f_len fl <= ds ->
  load_le (Z.to_nat (f_len fl)) tbl (g * ds + f_off fl) = Some (desc_of tbl ds g ~> fl).
Proof.
  intros H1 H2 H3. unfold load_le, getf, desc_of.
  destruct (Z.leb_spec 0 (g * ds + f_off fl)), (Z.leb_spec (g * ds + f_off fl + Z.of_nat (Z.to_nat (f_len fl))) (zlen tbl));
    try nia. cbn [andb]. do 2 f_equal.
  rewrite skipn_firstn_comm, take_take, drop_drop. f_equal; [lia|]. f_equal. nia.
Qed.

Lemma desc_slice : slice tbl (g * ds) ds = Some (desc_of tbl ds g).
Proof.
  unfold slice, desc_of. destruct (Z.leb_spec 0 (g * ds)), (Z.leb_spec 0 ds), (Z.leb_spec (g * ds + ds) (zlen tbl)); try nia.
  done.
Qed.

Lemma desc_store fl v : 0 <= f_off fl -> 0 <= f_len fl -> f_off fl + f_len fl <= ds ->
  exists tbl', blit tbl (g * ds + f_off fl) (le_bytes (Z.to_nat (f_len fl)) v) = Some tbl' /\
    zlen tbl' = zlen tbl /\ (bytes_ok tbl -> bytes_ok tbl') /\
    desc_of tbl' ds g = setf (desc_of tbl ds g) fl v /\
    forall g', 0 <= g' -> g' <> g -> desc_of tbl' ds g' = desc_of tbl ds g'.
Proof.
  intros H1 H2 H3. pose proof (le_bytes_len (Z.to_nat (f_len fl)) v) as Hn.
  destruct (blit_some tbl (g * ds + f_off fl) (le_bytes (Z.to_nat (f_len fl)) v)) as [tbl' Ht]; [nia|nia|].
  exists tbl'. split; [done|]. split; [by apply blit_len in Ht|].
  split; [intros; by eapply blit_bytes, le_bytes_ok|].
  assert (f_in (desc_of tbl ds g) fl) as Hf by (unfold f_in; rewrite desc_len; lia).
  split.
  - apply list_eq. intros i. destruct (decide (i < Z.to_nat ds)%nat) as [Hi|Hi].
    + unfold desc_of at 1. rewrite lookup_take_lt, lookup_drop by done. rewrite (blit_lookup _ _ _ _ _ Ht).
      case_decide as Hd.
      * unfold setf. rewrite lookup_app_r, length_take by (rewrite length_take; lia).
        pose proof desc_len as Hl. unfold zlen in *. rewrite lookup_app_l by lia. f_equal. lia.
      * rewrite setf_lookup_other by (try done; lia). unfold desc_of. by rewrite lookup_take_lt, lookup_drop.
    + rewrite !lookup_ge_None_2; [done| |unfold desc_of; rewrite length_take; lia].
      pose proof (zlen_setf _ _ v Hf) as Hl. rewrite desc_len in Hl. unfold zlen in Hl. lia.
  - intros g' Hg' Hne. apply list_eq. intros i. unfold desc_of. destruct (decide (i < Z.to_nat ds)%nat) as [Hi|Hi].
    + rewrite !lookup_take_lt, !lookup_drop by done. rewrite (blit_lookup _ _ _ _ _ Ht).
      case_decide as Hd; [|done]. exfalso. unfold zlen in *.
      assert (g' = g) by nia. done.
    + by rewrite !lookup_take_ge by lia.
Qed.
End table.

(** ** Well-formed filesystems *)

Abbreviation ds f := (EXT2_DESC_SIZE (super f)).

Record fs_ok (f : ext2_fs) : Prop := {
  ok_sb_len : zlen (super f) = 1024;
  ok_sb_bytes : bytes_ok (super f);
  ok_tbl : bytes_ok (group_desc f);
  ok_ds : 32 <= ds f <= 1024 /\ ds f mod 4 = 0;
  ok_ds64 : incompat (super f) EXT4_FT_INCOMPAT_64BIT = true -> 64 <= ds f;
  ok_count : 0 < group_desc_count f /\ group_desc_count f * ds f <= zlen (group_desc f) < 2 ^ 32;
  ok_seed : 0 <= checksum_seed f < 2 ^ 32
}.

(** Descriptor [g] of a filesystem. *)
Definition gdesc (f : ext2_fs) (g : Z) : list Z := desc_of (group_desc f) (ds f) g.

Definition tables_ok (t : crc32_tables) : Prop := t = crc32_tables0 \/ t = crc32_tables1.

(** Only the descriptor of group [g] changes, to [d]. *)
Record desc_update (f f' : ext2_fs) (g : Z) (d : list Z) : Prop := {
  du_fs : f' = set_group_desc f (group_desc f');
  du_len : zlen (group_desc f') = zlen (group_desc f);
  du_bytes : bytes_ok (group_desc f) -> bytes_ok (group_desc f');
  du_desc : gdesc f' g = d;
  du_other : forall g', 0 <= g' -> g' <> g -> gdesc f' g' = gdesc f g'
}.

Lemma desc_update_refl f g : desc_update f f g (gdesc f g).
Proof. split; try done. by destruct f. Qed.

Lemma desc_update_trans f1 f2 f3 g d d' :
  desc_update f1 f2 g d -> desc_update f2 f3 g d' -> desc_update f1 f3 g d'.
Proof.
  intros [E1 L1 B1 D1 O1] [E2 L2 B2 D2 O2]. split; [|congruence|auto|done|].
  - rewrite E2, E1. done.
  - intros g' H1 H2. rewrite O2, O1; done.
Qed.

Lemma desc_update_ok f f' g d : fs_ok f -> desc_update f f' g d -> fs_ok f'.
Proof.
  intros [] [E L B _ _]. rewrite E. split; cbn; auto. by rewrite L.
Qed.

Lemma desc_update_super f f' g d : desc_update f f' g d -> super f' = super f.
Proof. intros [E _ _ _ _]. by rewrite E. Qed.

Section env.
Context {D : Type} `{BlockDevice D}.
Implicit Types s : st (D := D).

(** What code that only works on the filesystem leaves alone. *)
Record same_env (s s' : st (D := D)) : Prop := {
  se_dev : dev s' = dev s;
  se_oracle : oracle s' = oracle s;
  se_zbuf : zbuf s' = zbuf s;
  se_stride : stride_len s' = stride_len s;
  se_tables : tables_ok (tables s) -> tables_ok (tables s')
}.

Lemma same_env_refl s : same_env s s.
Proof. by split. Qed.

Lemma same_env_trans s1 s2 s3 : same_env s1 s2 -> same_env s2 s3 -> same_env s1 s3.
Proof. intros [] []. split; [congruence..|auto]. Qed.

Lemma same_env_set_fs s f : same_env s (set_fs s f).
Proof. by split. Qed.

(** A step that rewrites the descriptor of group [g]. *)
Definition desc_step (s s' : st (D := D)) (g : Z) (d : list Z) : Prop :=
  desc_update (fs s) (fs s') g d /\ same_env s s'.

Lemma desc_step_refl s g : desc_step s s g (gdesc (fs s) g).
Proof. split; [apply desc_update_refl | apply same_env_refl]. Qed.

Lemma desc_step_trans s1 s2 s3 g d d' : desc_step s1 s2 g d -> desc_step s2 s3 g d' -> desc_step s1 s3 g d'.
Proof. intros [U1 S1] [U2 S2]. split; [by eapply desc_update_trans | by eapply same_env_trans]. Qed.

Lemma desc_step_ok s s' g d : fs_ok (fs s) -> desc_step s s' g d -> fs_ok (fs s').
Proof. intros Hok [Hu _]. by eapply desc_update_ok. Qed.

Section group.
Context (g : Z).

Definition in_desc (f : ext2_fs) (fl : field) : Prop := 0 <= f_off fl /\ 0 <= f_len fl /\ f_off fl + f_len fl <= ds f.
Definition group_in (f : ext2_fs) : Prop := 0 <= g < group_desc_count f.

Lemma group_fits f : fs_ok f -> group_in f -> (g + 1) * ds f <= zlen (group_desc f).
Proof. intros [_ _ _ Hd _ Hc _] Hg. unfold group_in in Hg. nia. Qed.

Lemma group_desc_off f : fs_ok f -> group_in f -> ext2_group_desc f g = Some (g * ds f).
Proof.
  intros Hok Hg. pose proof (group_fits f Hok Hg). destruct Hok as [_ _ _ Hd _ Hc _]. unfold group_in in Hg.
  unfold ext2_group_desc. destruct (Z.ltb_spec (group_desc_count f) g); [lia|]. f_equal. apply wrap_small. nia.
Qed.

Lemma gd_get_ok s fl : fs_ok (fs s) -> group_in (fs s) -> in_desc (fs s) fl ->
  gd_get g fl s = Some (gdesc (fs s) g ~> fl, s).
Proof.
  intros Hok Hg (F1 & F2 & F3). pose proof (group_fits _ Hok Hg). unfold gd_get.
  rewrite group_desc_off by done. orun. rewrite desc_load; try done; [destruct (ok_ds _ Hok); lia|apply Hg].
Qed.

Lemma gd_set_ok s fl v : fs_ok (fs s) -> group_in (fs s) -> in_desc (fs s) fl ->
  exists s', gd_set g fl v s = Some (tt, s') /\ desc_step s s' g (setf (gdesc (fs s) g) fl v).
Proof.
  intros Hok Hg (F1 & F2 & F3). pose proof (group_fits _ Hok Hg) as Hfit. unfold gd_set.
  rewrite group_desc_off by done. orun.
  destruct (desc_store (group_desc (fs s)) (ds (fs s)) g) with (fl := fl) (v := v) as (t & -> & Hl & Hb & Hd & Ho);
    [destruct (ok_ds _ Hok); lia|apply Hg|done|done..|]. orun.
  eexists. split; [done|]. split; [|apply same_env_set_fs]. by split.
Qed.

(** *** Flags and counts *)

Lemma in_desc_32 f fl : fs_ok f -> f_inb 32 fl = true -> in_desc f fl.
Proof. intros Hok. destruct (ok_ds _ Hok). unfold f_inb, in_desc. lia. Qed.

Lemma in_desc_64 f fl : fs_ok f -> incompat (super f) EXT4_FT_INCOMPAT_64BIT = true -> f_inb 64 fl = true -> in_desc f fl.
Proof. intros Hok H64. pose proof (ok_ds64 _ Hok H64). unfold f_inb, in_desc. lia. Qed.

(** A split number of a descriptor, and the descriptor with the number set. *)
Definition split_num (f : ext2_fs) (w : Z) (lo hi : field) (d : list Z) : Z :=
  if incompat (super f) EXT4_FT_INCOMPAT_64BIT then Z.lor (d ~> lo) (Z.shiftl (d ~> hi) w) else d ~> lo.
Definition split_put (f : ext2_fs) (w : Z) (lo hi : field) (d : list Z) (v : Z) : list Z :=
  if incompat (super f) EXT4_FT_INCOMPAT_64BIT then setf (setf d lo v) hi (Z.shiftr v w) else setf d lo v.

Lemma bg_split_ok s w lo hi : fs_ok (fs s) -> group_in (fs s) -> f_inb 32 lo = true -> f_inb 64 hi = true ->
  bg_split w lo hi g s = Some (split_num (fs s) w lo hi (gdesc (fs s) g), s).
Proof.
  intros Hok Hg Hlo Hhi. unfold bg_split, split_num.
  rewrite (bind_run _ _ _ _ _ (gd_get_ok s lo Hok Hg (in_desc_32 _ _ Hok Hlo))). rewrite gets_run.
  destruct (incompat _ _) eqn:E; [|done].
  by rewrite (bind_run _ _ _ _ _ (gd_get_ok s hi Hok Hg (in_desc_64 _ _ Hok E Hhi))).
Qed.

Lemma bg_split_set_ok s w lo hi v : fs_ok (fs s) -> group_in (fs s) -> f_inb 32 lo = true -> f_inb 64 hi = true ->
  exists s', bg_split_set w lo hi g v s = Some (tt, s') /\
    desc_step s s' g (split_put (fs s) w lo hi (gdesc (fs s) g) v).
Proof.
  intros Hok Hg Hlo Hhi. unfold bg_split_set, split_put.
  destruct (gd_set_ok s lo v Hok Hg (in_desc_32 _ _ Hok Hlo)) as (s1 & Hs1 & U1).
  rewrite (bind_run _ _ _ _ _ Hs1), gets_run. pose proof (desc_step_ok _ _ _ _ Hok U1) as Hok1.
  assert (super (fs s1) = super (fs s)) as Es by (eapply desc_update_super, U1). rewrite Es.
  destruct (incompat _ _) eqn:E; [|by exists s1].
  assert (group_in (fs s1)) as Hg1 by (unfold group_in in *; destruct U1 as [[-> _ _ _ _] _]; done).
  destruct (gd_set_ok s1 hi (Z.shiftr v w) Hok1 Hg1) as (s2 & Hs2 & U2); [apply in_desc_64; [done|by rewrite Es|done]|].
  exists s2. split; [done|]. destruct U1 as [U1 S1]. rewrite (du_desc _ _ _ _ U1) in U2.
  eapply desc_step_trans; [split|]; done.
Qed.

Lemma clear_flags_ok s fl : fs_ok (fs s) -> group_in (fs s) ->
  exists s', ext2_bg_clear_flags g fl s = Some (tt, s') /\
    desc_step s s' g (setf (gdesc (fs s) g) bg_flags (Z.land (gdesc (fs s) g ~> bg_flags) (Z.lnot fl))).
Proof.
  intros Hok Hg. unfold ext2_bg_clear_flags.
  rewrite (bind_run _ _ _ _ _ (gd_get_ok s bg_flags Hok Hg (in_desc_32 _ bg_flags Hok eq_refl))).
  apply gd_set_ok; [done..|]. by apply in_desc_32.
Qed.

(** *** Checksums *)

(** The checksum of a descriptor, independent of the one stored in it. *)
Definition csum_of (f : ext2_fs) (d : list Z) : Z :=
  if ro_compat (super f) EXT4_FT_RO_COMPAT_METADATA_CSUM
  then Z.land (crc32c_ref (crc32c_ref (checksum_seed f) (le_bytes 4 g)) (setf d bg_checksum 0)) 0xffff
  else crc16_ref 0xffff (take 16 (drop 104 (super f)) ++ le_bytes 4 g ++ take 30 d ++ drop 32 d).

Lemma crc32_st_ok s seed data len :
  tables_ok (tables s) -> 0 <= seed < 2 ^ 32 -> bytes_ok data -> 0 <= len <= zlen data -> len mod 4 = 0 ->
  crc32_st seed data len s = Some (crc32c_ref seed (take (Z.to_nat len) data), set_tables s crc32_tables1).
Proof. intros. unfold crc32_st. by rewrite crc32_run. Qed.

Lemma crc16_ref_app a b seed : crc16_ref seed (a ++ b) = crc16_ref (crc16_ref seed a) b.
Proof. apply foldl_app. Qed.

Lemma crc16_ref_range seed l : bytes_ok l -> 0 <= seed < 2 ^ 16 -> 0 <= crc16_ref seed l < 2 ^ 16.
Proof. intros. apply crc_fold_range; [lia..|done|done]. Qed.

Lemma csum_range f d : fs_ok f -> bytes_ok d -> 0 <= csum_of f d < 2 ^ 16.
Proof.
  intros Hok Hd. unfold csum_of. destruct (ro_compat _ _).
  - change 0xffff with (Z.ones 16). rewrite Z.land_ones by lia. apply Z.mod_pos_bound. lia.
  - apply crc16_ref_range; [|lia]. pose proof (ok_sb_bytes _ Hok).
    repeat (apply Forall_app; split); try apply le_bytes_ok; try apply Forall_take; try apply Forall_drop; try done;
      by apply Forall_drop.
Qed.

Lemma checksum_ok s : fs_ok (fs s) -> group_in (fs s) -> tables_ok (tables s) ->
  exists t, ext2_group_desc_checksum g s = Some (csum_of (fs s) (gdesc (fs s) g), set_tables s t) /\ tables_ok t.
Proof.
  intros Hok Hg Ht. unfold ext2_group_desc_checksum. set (d := gdesc (fs s) g).
  pose proof (group_fits _ Hok Hg) as Hfit. destruct (ok_ds _ Hok) as [Hds Hm].
  assert (zlen d = ds (fs s)) as Hdl by (apply desc_len; [lia|apply Hg|done]).
  assert (bytes_ok d) as Hdb by (apply desc_bytes_ok, Hok).
  assert (desc_bytes g s = Some (d, s)) as Hd.
  { unfold desc_bytes. rewrite group_desc_off by done. orun.
    rewrite (desc_slice (group_desc (fs s)) (ds (fs s)) g); [done|lia|apply Hg|done]. }
  rewrite (bind_run _ _ _ _ _ Hd), gets_run. unfold csum_of. destruct (ro_compat _ _).
  - assert (f_in d bg_checksum) as Hf by (unfold f_in; cbn; lia).
    rewrite (bind_run _ _ _ _ _ (crc32_st_ok s (checksum_seed (fs s)) (le_bytes 4 g) 4 Ht (ok_seed _ Hok)
      (le_bytes_ok _ _) ltac:(rewrite le_bytes_len; lia) eq_refl)).
    rewrite (take_ge (le_bytes 4 g)) by (pose proof (le_bytes_len 4 g); unfold zlen in *; lia).
    set (c1 := crc32c_ref _ (le_bytes 4 g)).
    assert (0 <= c1 < 2 ^ 32) as Hc1 by (apply crc32c_ref_range; [apply le_bytes_ok|apply Hok]).
    rewrite (bind_run _ _ _ _ _ (crc32_st_ok (set_tables s crc32_tables1) c1 (setf d bg_checksum 0) (ds (fs s))
      ltac:(by right) Hc1 ltac:(by apply bytes_ok_setf) ltac:(rewrite zlen_setf by done; lia) Hm)).
    rewrite take_ge by (pose proof (zlen_setf d bg_checksum 0 Hf); unfold zlen in *; lia).
    exists crc32_tables1. split; [done|by right].
  - assert (slice (super (fs s)) (f_off s_uuid) 16 = Some (take 16 (drop 104 (super (fs s))))) as Hu.
    { unfold slice. rewrite (ok_sb_len _ Hok). done. }
    cbv zeta. rewrite Hu. change (f_off bg_checksum) with 30. change (f_len bg_checksum) with 2.
    assert (zlen (take 16 (drop 104 (super (fs s)))) = 16) as Hul
      by (pose proof (ok_sb_len _ Hok); unfold zlen in *; rewrite length_take, length_drop; lia).
    rewrite (bind_run (lift (Some _)) _ s _ s eq_refl).
    rewrite (crc16_correct 0xffff) by (try lia; apply Forall_take, Forall_drop, Hok).
    rewrite (bind_run (lift (Some _)) _ s _ s eq_refl).
    rewrite (take_ge (take 16 _)) by (unfold zlen in *; lia). set (c1 := crc16_ref _ (take 16 _)).
    assert (0 <= c1 < 2 ^ 16) as Hc1 by (apply crc16_ref_range; [apply Forall_take, Forall_drop, Hok|lia]).
    rewrite (crc16_correct c1) by (try apply le_bytes_ok; rewrite ?le_bytes_len; lia).
    rewrite (bind_run (lift (Some _)) _ s _ s eq_refl).
    rewrite (take_ge (le_bytes 4 g)) by (pose proof (le_bytes_len 4 g); unfold zlen in *; lia).
    set (c2 := crc16_ref c1 _). assert (0 <= c2 < 2 ^ 16) as Hc2 by (apply crc16_ref_range; [apply le_bytes_ok|lia]).
    rewrite (crc16_correct c2) by (try done; lia). rewrite (bind_run (lift (Some _)) _ s _ s eq_refl).
    set (c3 := crc16_ref c2 _). assert (0 <= c3 < 2 ^ 16) as Hc3 by (apply crc16_ref_range; [by apply Forall_take|lia]).
    rewrite !crc16_ref_app. fold c1. fold c2. fold c3. exists (tables s). assert (set_tables s (tables s) = s) as -> by by destruct s.
    destruct (Z.ltb_spec (30 + 2) (ds (fs s))).
    + rewrite crc16_correct; [|done|by apply Forall_drop|unfold zlen in *; rewrite length_drop; lia].
      split; [|done]. rewrite (take_ge (drop _ d)) by (unfold zlen in *; rewrite length_drop; lia). done.
    + split; [|done]. rewrite (drop_ge d) by (unfold zlen in *; lia). done.
Qed.

Lemma take_setf d f v n : f_in d f -> Z.of_nat n <= f_off f -> take n (setf d f v) = take n d.
Proof.
  intros Hf Hn. apply list_eq. intros i. destruct (decide (i < n)%nat).
  - rewrite !lookup_take_lt by done. apply setf_lookup_other; [done|lia].
  - by rewrite !lookup_take_ge by lia.
Qed.

Lemma drop_setf d f v n : f_in d f -> f_off f + f_len f <= Z.of_nat n -> drop n (setf d f v) = drop n d.
Proof.
  intros Hf Hn. apply list_eq. intros i. rewrite !lookup_drop. apply setf_lookup_other; [done|lia].
Qed.

Lemma setf_setf d f v v' : f_in d f -> setf (setf d f v) f v' = setf d f v'.
Proof.
  intros Hf. pose proof Hf as (F1 & F2 & F3). unfold setf at 1. rewrite take_setf, drop_setf by (try done; lia). done.
Qed.

Lemma csum_setf f d v : zlen d = ds f -> 32 <= ds f -> csum_of f (setf d bg_checksum v) = csum_of f d.
Proof.
  intros Hd Hds. assert (f_in d bg_checksum) as Hf by (unfold f_in; cbn; lia).
  unfold csum_of. rewrite setf_setf, take_setf, drop_setf by (try done; cbn; lia). done.
Qed.

Lemma checksum_update_ok s : fs_ok (fs s) -> group_in (fs s) -> tables_ok (tables s) ->
  exists s', ext2_group_desc_checksum_update g s = Some (tt, s') /\
    desc_step s s' g (if ext2_has_group_desc_checksum (super (fs s))
                      then setf (gdesc (fs s) g) bg_checksum (csum_of (fs s) (gdesc (fs s) g)) else gdesc (fs s) g).
Proof.
  intros Hok Hg Ht. unfold ext2_group_desc_checksum_update. rewrite gets_run.
  destruct (ext2_has_group_desc_checksum _); cbn [negb].
  - destruct (checksum_ok s Hok Hg Ht) as (t & Hc & Ht'). rewrite (bind_run _ _ _ _ _ Hc).
    destruct (gd_set_ok (set_tables s t) bg_checksum (csum_of (fs s) (gdesc (fs s) g)) Hok Hg) as (s' & Hs' & U & [S1 S2 S3 S4 S5]);
      [by apply in_desc_32|]. exists s'. split; [done|]. split; [done|]. split; try done. intros _. by apply S5.
  - exists s. split; [done|]. apply desc_step_refl.
Qed.
End group.
End env.

(** ** The free count of a group *)

Definition free_of (f : ext2_fs) (d : list Z) : Z := split_num f 16 bg_free_blocks_count bg_free_blocks_count_hi d.

Lemma free_of_setf f d fl v : f_in d fl -> disjointb fl bg_free_blocks_count = true ->
  disjointb fl bg_free_blocks_count_hi = true -> free_of f (setf d fl v) = free_of f d.
Proof.
  intros Hf H1%disjointb_spec H2%disjointb_spec. unfold free_of, split_num.
  by rewrite !getf_setf_other by (try done; cbn; lia).
Qed.

Lemma free_of_put f d n : fs_ok f -> zlen d = ds f -> 0 <= n < 2 ^ 16 ->
  free_of f (split_put f 16 bg_free_blocks_count bg_free_blocks_count_hi d n) = n.
Proof.
  intros Hok Hd Hn. destruct (ok_ds _ Hok) as [Hds _]. unfold free_of, split_num, split_put.
  assert (f_in d bg_free_blocks_count) as F1 by (unfold f_in; cbn; lia).
  destruct (incompat _ _) eqn:E.
  - pose proof (ok_ds64 _ Hok E).
    assert (f_in (setf d bg_free_blocks_count n) bg_free_blocks_count_hi) as F2 by (unfold f_in; rewrite zlen_setf by done; cbn; lia).
    rewrite (getf_setf_same _ bg_free_blocks_count_hi), (getf_setf_other _ bg_free_blocks_count_hi bg_free_blocks_count)
      by (try done; try (cbn; lia); apply disjointb_spec; done).
    rewrite getf_setf_same by done. cbn [f_len bg_free_blocks_count bg_free_blocks_count_hi].
    rewrite Z.shiftr_div_pow2, Z.div_small by lia. change (8 * 2) with 16. rewrite wrap_small by lia. cbn. apply Z.lor_0_r.
  - rewrite getf_setf_same by done. cbn. by rewrite wrap_small by lia.
Qed.

Lemma zlen_split_put f d w lo hi n : f_in d lo -> (incompat (super f) EXT4_FT_INCOMPAT_64BIT = true -> f_in d hi) ->
  zlen (split_put f w lo hi d n) = zlen d.
Proof.
  intros Hlo Hhi. unfold split_put. destruct (incompat _ _); [|by apply zlen_setf].
  assert (f_in (setf d lo n) hi) by (unfold f_in; rewrite zlen_setf by done; by apply Hhi).
  by rewrite !zlen_setf.
Qed.

(** ** The counts of the superblock *)

Lemma split_set_other s lo hi n g :
  split_fields lo hi = true -> zlen s = 1024 -> f_inb 1024 g = true -> disjointb lo g = true -> disjointb hi g = true ->
  split_count_set s lo hi n ~> g = s ~> g.
Proof.
  unfold split_fields. rewrite !andb_true_iff. intros ((((((_ & _) & I1) & I2) & _) & _) & _) Hs Hg D1%disjointb_spec D2%disjointb_spec.
  assert (f_in s lo) as Hlo by (eapply f_inb_spec; [exact I1|lia]).
  assert (f_in (setf s lo n) hi) as Hhi by (eapply f_inb_spec; [exact I2|rewrite zlen_setf by done; lia]).
  assert (f_in s g) as (? & ? & ?) by (eapply f_inb_spec; [exact Hg|lia]).
  unfold split_count_set. destruct (truthy _); [rewrite getf_setf_other by done|]; by rewrite getf_setf_other.
Qed.

Lemma split_set_len s lo hi n : split_fields lo hi = true -> zlen s = 1024 -> zlen (split_count_set s lo hi n) = 1024.
Proof.
  unfold split_fields. rewrite !andb_true_iff. intros ((((((_ & _) & I1) & I2) & _) & _) & _) Hs.
  assert (f_in s lo) as Hlo by (eapply f_inb_spec; [exact I1|lia]).
  assert (f_in (setf s lo n) hi) as Hhi by (eapply f_inb_spec; [exact I2|rewrite zlen_setf by done; lia]).
  unfold split_count_set. destruct (truthy _); by rewrite ?zlen_setf.
Qed.

Lemma split_set_bytes s lo hi n : bytes_ok s -> bytes_ok (split_count_set s lo hi n).
Proof. intros Hs. unfold split_count_set. destruct (truthy _); repeat apply bytes_ok_setf; done. Qed.

(** The superblock with another number of free blocks. *)
Lemma free_count_add_other s n g :
  zlen s = 1024 -> f_inb 1024 g = true -> disjointb s_free_blocks_count g = true -> disjointb s_free_blocks_hi g = true ->
  ext2_free_blocks_count_add s n ~> g = s ~> g.
Proof. intros. by apply split_set_other. Qed.

Lemma fs_ok_set_super f sb : fs_ok f -> zlen sb = 1024 -> bytes_ok sb ->
  sb ~> s_feature_incompat = super f ~> s_feature_incompat -> sb ~> s_desc_size = super f ~> s_desc_size ->
  fs_ok (set_super f sb).
Proof.
  intros [] Hl Hb E1 E2.
  assert (EXT2_DESC_SIZE sb = ds f) as Ed by (unfold EXT2_DESC_SIZE, incompat; by rewrite E1, E2).
  split; cbn; rewrite ?Ed; auto. unfold incompat. rewrite E1. done.
Qed.

Lemma fs_ok_free_add f n : fs_ok f -> fs_ok (set_super f (ext2_free_blocks_count_add (super f) n)).
Proof.
  intros Hok. pose proof (ok_sb_len _ Hok).
  apply fs_ok_set_super; [done|by apply split_set_len|by apply split_set_bytes, Hok|..]; by apply free_count_add_other.
Qed.

(** ** Allocation statistics *)

(** The parts that allocating blocks never changes. *)
Record frame (f f' : ext2_fs) : Prop := {
  fr_mflags : mflags f' = mflags f;
  fr_blksize : blksize f' = blksize f;
  fr_count : group_desc_count f' = group_desc_count f;
  fr_desc_blocks : desc_blocks f' = desc_blocks f;
  fr_iblocks : inode_blocks_per_group f' = inode_blocks_per_group f;
  fr_inodes : inode_bitmap f' = inode_bitmap f;
  fr_ratio : cluster_ratio_bits f' = cluster_ratio_bits f;
  fr_seed : checksum_seed f' = checksum_seed f;
  fr_icache : icache f' = icache f
}.

Lemma frame_refl f : frame f f.
Proof. by split. Qed.

Lemma frame_trans f1 f2 f3 : frame f1 f2 -> frame f2 f3 -> frame f1 f3.
Proof. intros [] []. split; congruence. Qed.

Lemma frame_desc f f' g d : desc_update f f' g d -> frame f f'.
Proof. intros [E _ _ _ _]. rewrite E. by split. Qed.

Lemma du_bitmap f f' g d : desc_update f f' g d -> block_bitmap f' = block_bitmap f.
Proof. intros [E _ _ _ _]. by rewrite E. Qed.

Section stats.
Context {D : Type} `{BlockDevice D}.
Implicit Types s : st (D := D).

Lemma group_in_frame g f f' : frame f f' -> group_in g f -> group_in g f'.
Proof. unfold group_in. intros []. lia. Qed.

(** One group's free count is set, the "uninitialised" flag is cleared and the
    checksum is renewed. *)
Definition free_count_step (g n : Z) : M (st (D := D)) unit :=
  ext2_bg_free_blocks_count_set g n;;
  ext2_bg_clear_flags g EXT2_BG_BLOCK_UNINIT;;
  ext2_group_desc_checksum_update g.

Lemma free_count_step_bind {B} g n (k : M (st (D := D)) B) s :
  (ext2_bg_free_blocks_count_set g n;; ext2_bg_clear_flags g EXT2_BG_BLOCK_UNINIT;;
   ext2_group_desc_checksum_update g;; k) s = (free_count_step g n;; k) s.
Proof.
  unfold free_count_step, mbind, M_bind.
  destruct (ext2_bg_free_blocks_count_set g n s) as [[[] s1]|]; [|done].
  by destruct (ext2_bg_clear_flags g EXT2_BG_BLOCK_UNINIT s1) as [[[] s2]|].
Qed.

Lemma free_count_step_ok s g n : fs_ok (fs s) -> group_in g (fs s) -> tables_ok (tables s) -> 0 <= n < 2 ^ 16 ->
  exists s' d, free_count_step g n s = Some (tt, s') /\ desc_step s s' g d /\ free_of (fs s) d = n.
Proof.
  intros Hok Hg Ht Hn. destruct (ok_ds _ Hok) as [Hds _].
  pose proof (group_fits g _ Hok Hg) as Hfit.
  assert (zlen (gdesc (fs s) g) = ds (fs s)) as Hd0 by (apply desc_len; [lia|apply Hg|done]).
  unfold free_count_step.
  destruct (bg_split_set_ok g s 16 bg_free_blocks_count bg_free_blocks_count_hi n Hok Hg eq_refl eq_refl) as (s1 & Hs1 & U1).
  rewrite (bind_run _ _ _ _ _ Hs1). set (d1 := split_put _ _ _ _ _ _) in U1.
  pose proof (desc_step_ok _ _ _ _ Hok U1) as Hok1. pose proof U1 as [[E1 L1 B1 D1 O1] S1].
  assert (group_in g (fs s1)) as Hg1 by (by rewrite E1).
  assert (zlen d1 = ds (fs s)) as Hd1.
  { unfold d1. rewrite zlen_split_put; [done|unfold f_in; cbn; lia|]. intros E. pose proof (ok_ds64 _ Hok E). unfold f_in; cbn; lia. }
  destruct (clear_flags_ok g s1 EXT2_BG_BLOCK_UNINIT Hok1 Hg1) as (s2 & Hs2 & U2).
  rewrite (bind_run _ _ _ _ _ Hs2). rewrite D1 in U2. set (d2 := setf d1 _ _) in U2.
  pose proof (desc_step_trans _ _ _ _ _ _ U1 U2) as U12. pose proof (desc_step_ok _ _ _ _ Hok U12) as Hok2.
  pose proof U12 as [[E2 L2 B2 D2 O2] S2]. assert (group_in g (fs s2)) as Hg2 by (by rewrite E2).
  assert (f_in d1 bg_flags) as F1 by (unfold f_in; cbn; lia).
  assert (zlen d2 = ds (fs s)) as Hd2 by (unfold d2; by rewrite zlen_setf).
  destruct (checksum_update_ok g s2 Hok2 Hg2) as (s3 & Hs3 & U3); [by apply S2|].
  rewrite D2 in U3. exists s3. eexists. split; [exact Hs3|]. split; [by eapply desc_step_trans|].
  assert (free_of (fs s) d2 = n) as Hf2.
  { unfold d2. rewrite free_of_setf by done. by apply free_of_put. }
  destruct (ext2_has_group_desc_checksum _); [|done]. rewrite free_of_setf; [done| |done..]. unfold f_in; cbn; lia.
Qed.

(** What [ext2_block_alloc_stats] does to the filesystem. *)
Record stats_effect (f f' : ext2_fs) (bm : ext2_bitmap) (block inuse : Z) (l : list Z) : Prop := {
  ef_ok : fs_ok f';
  ef_frame : frame f f';
  ef_bitmap : block_bitmap f' = Some (with_bits bm l);
  ef_wf : wf (with_bits bm l);
  ef_used : forall c, in_use (with_bits bm l) c =
    if c =? cluster bm block then in_range bm c && (0 <? inuse) else in_use bm c;
  ef_super : super f' = ext2_free_blocks_count_add (super f) (- inuse * EXT2_CLUSTER_RATIO f);
  ef_free : free_of f' (gdesc f' (ext2_group_of_block f block)) =
    free_of f (gdesc f (ext2_group_of_block f block)) - inuse;
  ef_other : forall g, 0 <= g -> g <> ext2_group_of_block f block -> gdesc f' g = gdesc f g
}.

Lemma gdesc_super f sb g : EXT2_DESC_SIZE sb = ds f -> gdesc (set_super f sb) g = gdesc f g.
Proof. intros E. unfold gdesc. cbn. by rewrite E. Qed.

Lemma free_add_desc_size sb n : zlen sb = 1024 -> EXT2_DESC_SIZE (ext2_free_blocks_count_add sb n) = EXT2_DESC_SIZE sb.
Proof. intros Hs. unfold EXT2_DESC_SIZE, incompat. by rewrite !free_count_add_other by done. Qed.

Lemma free_of_free_add f n d : zlen (super f) = 1024 ->
  free_of (set_super f (ext2_free_blocks_count_add (super f) n)) d = free_of f d.
Proof. intros Hs. unfold free_of, split_num, incompat. cbn. by rewrite free_count_add_other by done. Qed.

Lemma block_alloc_stats_ok s bm block inuse :
  fs_ok (fs s) -> tables_ok (tables s) -> block_bitmap (fs s) = Some bm -> wf bm -> 0 <= block < 2 ^ 64 ->
  block <= u64 (ext2_blocks_count (super (fs s))) -> group_in (ext2_group_of_block (fs s) block) (fs s) ->
  0 <= free_of (fs s) (gdesc (fs s) (ext2_group_of_block (fs s) block)) - inuse < 2 ^ 16 ->
  exists l s', ext2_block_alloc_stats block inuse s = Some (tt, s') /\ same_env s s' /\
    stats_effect (fs s) (fs s') bm block inuse l.
Proof.
  intros Hok Ht Hbm Hwf Hb Hc Hg Hn. set (g := ext2_group_of_block (fs s) block) in *.
  unfold ext2_block_alloc_stats. rewrite gets_run. fold g. cbv zeta.
  destruct (Z.ltb_spec (u64 (ext2_blocks_count (super (fs s)))) block); [lia|].
  assert (exists l, (if 0 <? inuse then ext2_mark_bitmap (block_bitmap (fs s)) block
      else ext2_unmark_bitmap (block_bitmap (fs s)) block) = Some (Some (with_bits bm l)) /\ wf (with_bits bm l) /\
    forall c, in_use (with_bits bm l) c = if c =? cluster bm block then in_range bm c && (0 <? inuse) else in_use bm c)
    as (l & Hl & Hw & Hu).
  { rewrite Hbm. destruct (0 <? inuse); [apply mark_ok | apply unmark_ok]; done. }
  rewrite Hl. rewrite (bind_run (lift (Some _)) _ s _ s eq_refl). unfold modify_fs. rewrite modify_run.
  set (s1 := set_fs s _). assert (fs_ok (fs s1)) as Hok1 by (destruct Hok; by split).
  rewrite (bind_run _ _ _ _ _ (bg_split_ok g s1 16 bg_free_blocks_count bg_free_blocks_count_hi Hok1 Hg eq_refl eq_refl)).
  fold (free_of (fs s1) (gdesc (fs s1) g)). change (free_of (fs s1) (gdesc (fs s1) g)) with (free_of (fs s) (gdesc (fs s) g)).
  rewrite (wrap_small 32) by lia. set (n := _ - inuse) in *.
  destruct (free_count_step_ok s1 g n Hok1 Hg Ht Hn) as (s2 & d & Hs2 & U2 & Hf2).
  rewrite free_count_step_bind, (bind_run _ _ _ _ _ Hs2).
  unfold add_flags, modify_fs. rewrite modify_run. cbn [modify].
  pose proof (desc_step_ok _ _ _ _ Hok1 U2) as Hok2. destruct U2 as [U2 S2]. pose proof U2 as [E2 L2 B2 D2 O2].
  eexists l, _. split; [reflexivity|]. split.
  { eapply same_env_trans; [|apply same_env_set_fs]. eapply same_env_trans; [|apply same_env_set_fs].
    eapply same_env_trans; [apply (same_env_set_fs s)|exact S2]. }
  cbn [fs set_fs]. set (f2 := fs s2) in *.
  assert (super f2 = super (fs s)) as Es by (by rewrite E2).
  assert (zlen (super f2) = 1024) as Hl2 by apply Hok2.
  split; cbn [fs set_fs block_bitmap super set_flags set_super].
  - pose proof (fs_ok_free_add f2 (- inuse * EXT2_CLUSTER_RATIO f2) Hok2) as [? ? ? ? ? ? ?]. by split.
  - assert (frame (fs s) f2) as [] by (rewrite E2; by split). by split.
  - rewrite E2. done.
  - done.
  - done.
  - rewrite Es. unfold EXT2_CLUSTER_RATIO. rewrite E2. done.
  - change (free_of (set_flags ?f _)) with (free_of f). rewrite free_of_free_add by done.
    unfold gdesc at 1. cbn [super set_flags set_super group_desc]. rewrite free_add_desc_size by done.
    fold g. fold (gdesc f2 g). rewrite D2. fold n. unfold free_of, split_num in Hf2 |- *. rewrite Es. exact Hf2.
  - intros g' Hg' Hne. unfold gdesc at 1. cbn [super set_flags set_super group_desc]. rewrite free_add_desc_size by done.
    fold (gdesc f2 g'). rewrite O2 by done. done.
Qed.
End stats.

(** ** Accounts

    The number of free blocks that a group descriptor states is the number of
    clear bits of its blocks, and the superblock states the number of all clear
    bits. Filesystems without clusters, as [ext2_openfs] accepts them. *)

Fixpoint countb (P : Z -> bool) (l : list Z) : Z :=
  match l with [] => 0 | x :: l => (if P x then 1 else 0) + countb P l end.

Lemma countb_bounds P l : 0 <= countb P l <= zlen l.
Proof. induction l as [|x l IH]; [done|]. rewrite zlen_cons. cbn [countb]. destruct (P x); lia. Qed.

Lemma countb_ext P Q l : (forall x, x ∈ l -> P x = Q x) -> countb P l = countb Q l.
Proof.
  induction l as [|x l IH]; intros Hl; [done|]. cbn [countb]. rewrite Hl by left.
  rewrite IH; [done|]. intros y Hy. apply Hl. by right.
Qed.

(** A predicate that changes at one element of the list. *)
Lemma countb_flip P Q x l : NoDup l -> x ∈ l -> (forall y, y <> x -> Q y = P y) ->
  countb Q l = countb P l - (if P x then 1 else 0) + (if Q x then 1 else 0).
Proof.
  intros Hnd Hx HPQ. induction Hnd as [|y l Hy Hnd IH]; [by apply not_elem_of_nil in Hx|].
  cbn [countb]. apply elem_of_cons in Hx as [<-|Hx].
  - rewrite (countb_ext Q P l); [lia|]. intros z Hz. apply HPQ. by intros ->.
  - rewrite IH by done. rewrite (HPQ y) by (by intros ->). lia.
Qed.

Definition first_block (f : ext2_fs) : Z := super f ~> s_first_data_block.
Definition total_blocks (f : ext2_fs) : Z := ext2_blocks_count (super f).
Definition per_group (f : ext2_fs) : Z := super f ~> s_blocks_per_group.
Definition group_blocks (f : ext2_fs) (g : Z) : list Z :=
  let lo := first_block f + g * per_group f in seqZ lo (Z.min (per_group f) (total_blocks f - lo)).
Definition all_blocks (f : ext2_fs) : list Z := seqZ (first_block f) (total_blocks f - first_block f).
Definition free (bm : ext2_bitmap) (b : Z) : bool := negb (in_use bm b).

Record layout_ok (f : ext2_fs) (bm : ext2_bitmap) : Prop := {
  la_per_group : 0 < per_group f < 2 ^ 16;
  la_total : 0 <= first_block f < total_blocks f;
  la_groups : total_blocks f - first_block f <= group_desc_count f * per_group f;
  la_start : bm_start bm = first_block f;
  la_end : bm_end bm = total_blocks f - 1;
  la_shift : bm_shift bm = 0;
  la_ratio : cluster_ratio_bits f = 0
}.

Record accounted (f : ext2_fs) (bm : ext2_bitmap) : Prop := {
  ac_bitmap : block_bitmap f = Some bm;
  ac_wf : wf bm;
  ac_layout : layout_ok f bm;
  ac_groups : forall g, group_in g f -> free_of f (gdesc f g) = countb (free bm) (group_blocks f g);
  ac_super : ext2_free_blocks_count (super f) = countb (free bm) (all_blocks f)
}.

Lemma total_range f : fs_ok f -> total_blocks f < 2 ^ 63 /\
  (incompat (super f) EXT4_FT_INCOMPAT_64BIT = true \/ total_blocks f < 2 ^ 32).
Proof.
  intros Hok. unfold total_blocks, ext2_blocks_count, split_count. split.
  - unfold swrap. destruct (Z.ltb_spec (Z.lor (super f ~> s_blocks_count)
      (if incompat (super f) EXT4_FT_INCOMPAT_64BIT then Z.shiftl (super f ~> s_blocks_count_hi) 32 else 0) mod 2 ^ 64) (2 ^ (64 - 1)));
      [lia|]. pose proof (Z.mod_pos_bound (Z.lor (super f ~> s_blocks_count)
      (if incompat (super f) EXT4_FT_INCOMPAT_64BIT then Z.shiftl (super f ~> s_blocks_count_hi) 32 else 0)) (2 ^ 64)). lia.
  - destruct (incompat _ _); [by left|right]. rewrite Z.lor_0_r.
    assert (0 <= super f ~> s_blocks_count < 2 ^ (8 * 4)) as Hr.
    { apply (getf_range (super f) s_blocks_count); [apply Hok|]. eapply (f_inb_spec 1024); [done|]. rewrite (ok_sb_len _ Hok). lia. }
    rewrite s64_small by lia. lia.
Qed.

Section accounts.
Context (f : ext2_fs) (bm : ext2_bitmap).
Hypothesis Hok : fs_ok f.
Hypothesis Hac : accounted f bm.

Definition block_in (b : Z) : Prop := first_block f <= b < total_blocks f.

Lemma group_of_in b : block_in b ->
  ext2_group_of_block f b = (b - first_block f) / per_group f /\ group_in (ext2_group_of_block f b) f /\
  b ∈ group_blocks f (ext2_group_of_block f b).
Proof.
  intros Hb. destruct Hac as [_ _ [Hp Ht Hg _ _ _ _] _ _]. pose proof (total_range f Hok) as [Htr _].
  destruct (ok_count _ Hok) as [Hc1 Hc2]. destruct (ok_ds _ Hok) as [Hds _]. unfold block_in in Hb.
  assert (0 <= (b - first_block f) / per_group f < group_desc_count f) as Hq
    by (split; [apply Z.div_pos; lia | apply Z.div_lt_upper_bound; lia]).
  assert (ext2_group_of_block f b = (b - first_block f) / per_group f) as E.
  { unfold ext2_group_of_block. fold (first_block f) (per_group f). rewrite (wrap_small 64) by lia.
    apply wrap_small. nia. }
  split; [done|]. rewrite E. split; [done|]. unfold group_blocks. apply elem_of_seqZ.
  pose proof (Z.div_mod (b - first_block f) (per_group f) ltac:(lia)).
  pose proof (Z.mod_pos_bound (b - first_block f) (per_group f) ltac:(lia)). nia.
Qed.

Lemma group_of_unique b g : block_in b -> 0 <= g -> b ∈ group_blocks f g -> g = ext2_group_of_block f b.
Proof.
  intros Hb Hg Hin. destruct (group_of_in b Hb) as [-> _]. unfold group_blocks in Hin. apply elem_of_seqZ in Hin.
  destruct Hac as [_ _ [Hp _ _ _ _ _ _] _ _]. apply (Z.div_unique _ _ _ (b - first_block f - g * per_group f)); lia.
Qed.

Lemma cluster_id b : cluster bm b = b.
Proof. unfold cluster. rewrite (la_shift _ _ (ac_layout _ _ Hac)). apply Z.shiftr_0_r. Qed.

Lemma block_in_range b : block_in b -> in_range bm b = true.
Proof.
  intros Hb. unfold in_range, block_in in *. destruct Hac as [_ _ [_ _ _ -> -> _ _] _ _]. lia.
Qed.

Lemma zlen_seqZ a n : 0 <= n -> zlen (seqZ a n) = n.
Proof. intros. unfold zlen. rewrite length_seqZ. lia. Qed.

(** The count of a block's group leaves room for the block to change state. *)
Lemma count_room b : block_in b ->
  0 <= countb (free bm) (group_blocks f (ext2_group_of_block f b)) - (if in_use bm b then -1 else 1) < 2 ^ 16.
Proof.
  intros Hb. destruct (group_of_in b Hb) as (_ & Hg & Hin). set (g := ext2_group_of_block f b) in *.
  assert (NoDup (group_blocks f g)) as Hnd by apply NoDup_seqZ.
  assert (zlen (group_blocks f g) <= per_group f) as Hlen.
  { unfold group_blocks. rewrite zlen_seqZ; [lia|]. unfold group_blocks in Hin. apply elem_of_seqZ in Hin. lia. }
  pose proof (la_per_group _ _ (ac_layout _ _ Hac)).
  assert (forall y, y <> b -> (if y =? b then negb (free bm b) else free bm y) = free bm y) as Hq.
  { intros y Hy. destruct (Z.eqb_spec y b); done. }
  pose proof (countb_flip (free bm) (fun y => if y =? b then negb (free bm b) else free bm y) b (group_blocks f g) Hnd Hin Hq) as Hflip.
  cbv beta in Hflip. rewrite Z.eqb_refl in Hflip.
  pose proof (countb_bounds (free bm) (group_blocks f g)).
  pose proof (countb_bounds (fun y => if y =? b then negb (free bm b) else free bm y) (group_blocks f g)).
  set (c2 := countb (fun y => _) _) in *. clearbody c2.
  assert (free bm b = negb (in_use bm b)) as Hfb by done. rewrite Hfb in Hflip.
  destruct (in_use bm b); cbn [negb] in *; lia.
Qed.

(** Allocating a free block and freeing a used one keep the accounts. *)
Lemma accounted_stats f' b inuse l :
  block_in b -> inuse = (if in_use bm b then -1 else 1) -> stats_effect f f' bm b inuse l -> accounted f' (with_bits bm l).
Proof.
  intros Hb Hin Hef. pose proof (ok_sb_len _ Hok) as Hsl.
  destruct Hef as [Hok' Hfr Hbm' Hwf' Hused Hsup Hfree Hother]. destruct Hfr as [_ _ Hcount _ _ _ Hratio _ _].
  rewrite cluster_id in Hused.
  assert (forall g, f_inb 1024 g = true -> disjointb s_free_blocks_count g = true ->
    disjointb s_free_blocks_hi g = true -> super f' ~> g = super f ~> g) as Hfld
    by (intros g; rewrite Hsup; by apply free_count_add_other).
  assert (first_block f' = first_block f) as Ef by (by apply Hfld).
  assert (per_group f' = per_group f) as Ep by (by apply Hfld).
  assert (total_blocks f' = total_blocks f) as Et
    by (unfold total_blocks, ext2_blocks_count, split_count, incompat; by rewrite !Hfld).
  assert (forall g, group_blocks f' g = group_blocks f g) as Egb by (intros g; unfold group_blocks; by rewrite Ef, Ep, Et).
  assert (forall y, y <> b -> free (with_bits bm l) y = free bm y) as Hsame.
  { intros y Hy. unfold free. rewrite Hused. destruct (Z.eqb_spec y b); [done|]. done. }
  assert (free (with_bits bm l) b = negb (free bm b)) as Hflip.
  { unfold free. rewrite Hused, Z.eqb_refl, (block_in_range b Hb), Hin. by destruct (in_use bm b). }
  assert (forall L, NoDup L -> b ∈ L -> countb (free (with_bits bm l)) L = countb (free bm) L - inuse) as Hcnt.
  { intros L HL HbL. rewrite (countb_flip (free bm) _ b L HL HbL Hsame), Hflip, Hin. unfold free.
    destruct (in_use bm b); cbn [negb]; lia. }
  destruct (group_of_in b Hb) as (_ & Hgin & Hbin). pose proof (ac_layout _ _ Hac) as [L1 L2 L3 L4 L5 L6 L7].
  split; [done|done| | |].
  - split; rewrite ?Ef, ?Ep, ?Et, ?Hcount, ?Hratio; try done; by destruct bm.
  - intros g Hg. rewrite Egb. destruct (Z.eq_dec g (ext2_group_of_block f b)) as [->|Hne].
    + rewrite Hfree, (ac_groups _ _ Hac) by done. by rewrite Hcnt by (try apply NoDup_seqZ; done).
    + rewrite Hother by (try done; apply Hg).
      replace (free_of f' (gdesc f g)) with (free_of f (gdesc f g))
        by (unfold free_of, split_num, incompat; by rewrite Hfld).
      rewrite (ac_groups _ _ Hac) by (unfold group_in in *; lia). apply countb_ext. intros y Hy. symmetry. apply Hsame.
      intros ->. apply Hne. apply group_of_unique; [done|apply Hg|done].
  - assert (b ∈ all_blocks f) as Hball by (apply elem_of_seqZ; unfold block_in in Hb; lia).
    pose proof (ac_super _ _ Hac) as Hs. unfold all_blocks in *.
    rewrite Ef, Et, Hcnt by (try apply NoDup_seqZ; done). rewrite <- Hs.
    pose proof (Hcnt _ (NoDup_seqZ _ _) Hball) as Hc2.
    pose proof (countb_bounds (free (with_bits bm l)) (seqZ (first_block f) (total_blocks f - first_block f))) as Hb1.
    rewrite zlen_seqZ in Hb1 by lia. pose proof (total_range f Hok) as [Ht1 Ht2].
    rewrite Hsup. unfold EXT2_CLUSTER_RATIO. rewrite L7. change (Z.shiftl 1 0) with 1.
    unfold ext2_free_blocks_count_add, ext2_free_blocks_count_set. rewrite s64_small by lia.
    replace (ext2_free_blocks_count (super f) + - inuse * 1) with (ext2_free_blocks_count (super f) - inuse) by lia.
    apply split_count_roundtrip; [done|done|lia|destruct Ht2; [by left|right; lia]].
Qed.

(** So does a change of a descriptor that keeps its free count. *)
Lemma accounted_desc f' g d : desc_update f f' g d -> free_of f d = free_of f (gdesc f g) -> accounted f' bm.
Proof.
  intros [E L B Dd O] Hd. destruct Hac as [A1 A2 [L1 L2 L3 L4 L5 L6 L7] A4 A5].
  split; [by rewrite E|done| | |by rewrite E].
  - rewrite E. by split.
  - intros g' Hg'. rewrite E in Hg'. specialize (A4 g' Hg').
    replace (free_of f' (gdesc f' g')) with (free_of f (gdesc f' g')) by (rewrite E at 2; done).
    replace (group_blocks f' g') with (group_blocks f g') by (by rewrite E).
    destruct (Z.eq_dec g' g) as [->|]; [congruence|]. rewrite O; [done|apply Hg'|done].
Qed.
End accounts.

Lemma accounted_flags f bm x : accounted f bm -> accounted (set_flags f x) bm.
Proof. intros [A1 A2 [] A4 A5]. split; [done | done | by split | done | done]. Qed.

Lemma fs_ok_flags f x : fs_ok f -> fs_ok (set_flags f x).
Proof. intros []. by split. Qed.

(** ** Allocating and freeing *)

Section allocate.
Context {D : Type} `{DeviceLaws D}.
Implicit Types s : st (D := D).

(** The static buffer of zeros has the length that is recorded for it. *)
Record zeros_ok s : Prop := {
  zo_stride : 0 <= stride_len s;
  zo_buffer : zbuf s = replicate (Z.to_nat (blksize (fs s) * stride_len s)) 0
}.

(** A filesystem in use: [bm] is its block bitmap. *)
Record good s (bm : ext2_bitmap) : Prop := {
  g_ok : fs_ok (fs s);
  g_tables : tables_ok (tables s);
  g_blksize : blksize (fs s) = EXT2_BLOCK_SIZE (super (fs s)) /\ 0 < blksize (fs s) <= 2 ^ 16;
  g_zeros : zeros_ok s;
  g_accounted : accounted (fs s) bm
}.

(** Steps that leave the accounts alone. *)
Definition quiet s s' (bm : ext2_bitmap) : Prop :=
  same_env s s' /\ frame (fs s) (fs s') /\ super (fs s') = super (fs s) /\ good s' bm.

Lemma quiet_refl s bm : good s bm -> quiet s s bm.
Proof. intros. split_and!; [apply same_env_refl | apply frame_refl | done | done]. Qed.

Lemma quiet_trans s1 s2 s3 bm : quiet s1 s2 bm -> quiet s2 s3 bm -> quiet s1 s3 bm.
Proof.
  intros (E1 & F1 & S1 & G1) (E2 & F2 & S2 & G2).
  split_and!; [by eapply same_env_trans | by eapply frame_trans | congruence | done].
Qed.

Lemma quiet_flags s bm x : good s bm -> quiet s (set_fs s (set_flags (fs s) x)) bm.
Proof.
  intros [Hok Ht Hb [Z1 Z2] Hac]. split_and!; [apply same_env_set_fs | by split | done |].
  split; [by apply fs_ok_flags | done | done | by split | by apply accounted_flags].
Qed.

Lemma quiet_desc s s' bm g d : good s bm -> desc_step s s' g d -> free_of (fs s) d = free_of (fs s) (gdesc (fs s) g) ->
  quiet s s' bm.
Proof.
  intros [Hok Ht Hb [Z1 Z2] Hac] Hstep Hf. pose proof (desc_step_ok _ _ _ _ Hok Hstep) as Hok'.
  destruct Hstep as [U E]. pose proof (frame_desc _ _ _ _ U) as Hfr. pose proof (desc_update_super _ _ _ _ U) as Hsup.
  split_and!; [done..|]. destruct E as [E1 E2 E3 E4 E5]. split; [done | by apply E5 | | | by eapply accounted_desc].
  - destruct Hfr as [_ -> _ _ _ _ _ _ _]. by rewrite Hsup.
  - split; [congruence|]. destruct Hfr as [_ -> _ _ _ _ _ _ _]. congruence.
Qed.

Lemma clear_block_uninit_ok s bm g : good s bm -> group_in g (fs s) ->
  exists s', ext2_clear_block_uninit g s = Some (tt, s') /\ quiet s s' bm.
Proof.
  intros HG Hg. pose proof HG as [Hok Ht Hb Hz Hac]. unfold ext2_clear_block_uninit. rewrite gets_run.
  destruct (_ || _); [by exists s; split; [done | apply quiet_refl]|].
  unfold ext2_bg_test_flags. rewrite bind_assoc.
  rewrite (bind_run _ _ _ _ _ (gd_get_ok g s bg_flags Hok Hg (in_desc_32 _ bg_flags Hok eq_refl))), ret_run.
  destruct (negb _); [by exists s; split; [done | apply quiet_refl]|].
  destruct (clear_flags_ok g s EXT2_BG_BLOCK_UNINIT Hok Hg) as (s1 & H1 & U1).
  pose proof (group_fits g _ Hok Hg) as Hfit. destruct (ok_ds _ Hok) as [Hds _].
  assert (zlen (gdesc (fs s) g) = ds (fs s)) as Hlen by (apply desc_len; [lia|apply Hg|done]).
  assert (quiet s s1 bm) as Q1.
  { eapply quiet_desc; [done..|]. apply free_of_setf; [unfold f_in; cbn; lia|done..]. }
  rewrite (bind_run _ _ _ _ _ H1). pose proof Q1 as (_ & F1 & S1 & HG1). pose proof HG1 as [Hok1 Ht1 _ _ _].
  pose proof (group_in_frame g _ _ F1 Hg) as Hg1.
  destruct (checksum_update_ok g s1 Hok1 Hg1 Ht1) as (s2 & H2 & U2). rewrite (bind_run _ _ _ _ _ H2).
  pose proof (group_fits g _ Hok1 Hg1) as Hfit1.
  assert (zlen (gdesc (fs s1) g) = ds (fs s1)) as Hlen1 by (apply desc_len; [rewrite S1; lia|apply Hg|done]).
  assert (quiet s1 s2 bm) as Q2.
  { eapply quiet_desc; [done..|]. destruct (ext2_has_group_desc_checksum _); [|done].
    apply free_of_setf; [unfold f_in; rewrite Hlen1, S1; cbn; lia|done..]. }
  eexists. split; [reflexivity|]. eapply quiet_trans; [exact Q1|]. eapply quiet_trans; [exact Q2|].
  apply quiet_flags. apply Q2.
Qed.

(** The first free block from [goal] on, going round at the end. *)
Definition next_free (f : ext2_fs) (bm : ext2_bitmap) (goal : Z) (r : res Z) : Prop :=
  match r with
  | Ok b => block_in f b /\ free bm b = true /\
      (goal <= b /\ (forall y, goal <= y < b -> free bm y = false) \/
       b < goal /\ (forall y, goal <= y < total_blocks f -> free bm y = false) /\
         (forall y, first_block f <= y < b -> free bm y = false))
  | Err e => e = ENOENT /\ forall y, block_in f y -> free bm y = false
  end.

Lemma find_zero_accounted fuel s bm start end_ :
  good s bm -> first_block (fs s) <= start <= end_ -> end_ < total_blocks (fs s) ->
  total_blocks (fs s) - first_block (fs s) < Z.of_nat fuel ->
  exists r, ext2_find_first_zero_bitmap fuel (Some bm) start end_ = Some r /\ least_of (free bm) start end_ r.
Proof.
  intros [Hok _ _ _ Hac] Hs He Hf. pose proof (total_range _ Hok) as [Ht _].
  destruct (ac_layout _ _ Hac) as [_ [L1 _] _ L4 L5 L6 _].
  destruct (find_zero_ok fuel bm start end_ (ac_wf _ _ Hac)) as (r & Hr & HQ); [lia..|]. exists r. split; [done|].
  assert (search_valid bm start end_ = true) as Hv.
  { unfold search_valid. rewrite !(cluster_id _ _ Hac), L4, L5. lia. }
  rewrite Hv in HQ. unfold least_of in *. unfold free. destruct r as [x|e].
  - destruct HQ as (H1 & H2 & H3). rewrite (cluster_id _ _ Hac) in H2. split_and!; [lia..|done|].
    intros y Hy. specialize (H3 y Hy). by rewrite (cluster_id _ _ Hac) in H3.
  - destruct HQ as [-> HQ]. split; [done|]. intros y Hy. specialize (HQ y Hy). by rewrite (cluster_id _ _ Hac) in HQ.
Qed.

Lemma new_block_ok fuel s bm goal :
  good s bm -> block_in (fs s) goal -> total_blocks (fs s) - first_block (fs s) < Z.of_nat fuel ->
  exists r s', ext2_new_block fuel goal s = Some (r, s') /\ quiet s s' bm /\ next_free (fs s) bm goal r.
Proof.
  intros HG Hgoal Hf. pose proof HG as [Hok Ht Hb Hz Hac]. pose proof (total_range _ Hok) as [Htr _].
  unfold ext2_new_block. rewrite gets_run, (ac_bitmap _ _ Hac). cbv zeta. fold (total_blocks (fs s)) (first_block (fs s)).
  destruct (ac_layout _ _ Hac) as [_ [L1 L2] _ _ _ _ _]. unfold block_in in Hgoal.
  rewrite (wrap_small 64 (total_blocks (fs s))), (wrap_small 64 (total_blocks (fs s) - 1)) by lia.
  assert ((if (goal =? 0) || (total_blocks (fs s) <=? goal) then Z.land goal (Z.lnot (EXT2_CLUSTER_MASK (fs s))) else goal) = goal) as ->.
  { destruct (Z.leb_spec (total_blocks (fs s)) goal), (Z.eqb_spec goal 0) as [->|]; try lia; done. }
  destruct (find_zero_accounted fuel s bm goal (total_blocks (fs s) - 1) HG) as (r & Hr & HQ); [lia..|].
  rewrite Hr. rewrite (bind_run (lift (Some r)) _ s _ s eq_refl).
  assert (exists r2, (match r with
     | Err ENOENT => if negb (goal =? first_block (fs s))
         then lift (ext2_find_first_zero_bitmap fuel (Some bm) (first_block (fs s)) (u64 (goal - 1))) else mret r
     | _ => mret r end) s = Some (r2, s) /\ next_free (fs s) bm goal r2) as (r2 & Hr2 & HQ2).
  { destruct r as [x|e]; cbn [least_of] in HQ.
    - exists (Ok x). split; [done|]. destruct HQ as (H1 & H2 & H3). cbn [next_free]. unfold block_in.
      split_and!; [lia..|done|left]. split; [lia|done].
    - destruct HQ as [-> HQ]. destruct (Z.eqb_spec goal (first_block (fs s))) as [->|Hne].
      + exists (Err ENOENT). split; [done|]. split; [done|]. intros y Hy. apply HQ. unfold block_in in Hy. lia.
      + cbn [negb]. rewrite (wrap_small 64 (goal - 1)) by lia.
        destruct (find_zero_accounted fuel s bm (first_block (fs s)) (goal - 1) HG) as (r & Hr' & HQ'); [lia..|].
        exists r. rewrite Hr'. split; [done|]. destruct r as [x|e]; cbn [least_of next_free] in *.
        * destruct HQ' as (H1 & H2 & H3). unfold block_in. split_and!; [lia..|done|right].
          split_and!; [lia| |done]. intros y Hy. apply HQ. lia.
        * destruct HQ' as [-> HQ']. split; [done|]. intros y Hy. unfold block_in in Hy.
          destruct (Z.le_gt_cases goal y); [apply HQ | apply HQ']; lia. }
  rewrite (bind_run _ _ _ _ _ Hr2). destruct r2 as [b|e]; [|by eexists _, s; split_and!; [|apply quiet_refl|]].
  destruct (group_of_in _ _ Hok Hac b (proj1 HQ2)) as (_ & Hg & _).
  destruct (clear_block_uninit_ok s bm _ HG Hg) as (s' & Hs' & Q). rewrite (bind_run _ _ _ _ _ Hs').
  by exists (Ok b), s'.
Qed.

(** ** Zeroing blocks *)

Lemma slice_replicate (x : Z) n m : 0 <= m <= n -> slice (replicate (Z.to_nat n) x) 0 m = Some (replicate (Z.to_nat m) x).
Proof.
  intros Hm. unfold slice, zlen. rewrite length_replicate.
  destruct (Z.leb_spec 0 0), (Z.leb_spec 0 m), (Z.leb_spec (0 + m) (Z.of_nat (Z.to_nat n))); try lia. cbn [andb].
  change (Z.to_nat 0) with 0%nat. rewrite drop_0, take_replicate. do 2 f_equal. lia.
Qed.

(** The bytes from [lo] to [hi] are zero and the others are those of [d]. *)
Definition zeroed (d d' : D) (lo hi : Z) : Prop :=
  forall x, contents d' x = if (lo <=? x) && (x <? hi) then 0 else contents d x.
Definition kept_outside (d d' : D) (lo hi : Z) : Prop :=
  forall x, x < lo \/ hi <= x -> contents d' x = contents d x.

Lemma zeroed_kept d d' lo hi : zeroed d d' lo hi -> kept_outside d d' lo hi.
Proof. intros Hz x Hx. rewrite Hz. destruct (Z.leb_spec lo x), (Z.ltb_spec x hi); try lia; done. Qed.

Lemma write_zeros s n block c :
  0 <= c <= n -> 0 < blksize (fs s) <= 2 ^ 16 -> 0 <= block -> (block + c) * blksize (fs s) < 2 ^ 63 ->
  exists r d, ext2_write_blocks (replicate (Z.to_nat (blksize (fs s) * n)) 0) block c s = Some (r, set_dev s d) /\
    match r with
    | Ok _ => zeroed (dev s) d (block * blksize (fs s)) ((block + c) * blksize (fs s))
    | Err _ => kept_outside (dev s) d (block * blksize (fs s)) ((block + c) * blksize (fs s))
    end.
Proof.
  intros Hc Hb Hblk Hlim. unfold ext2_write_blocks. set (bs := blksize (fs s)) in *.
  rewrite (wrap_small 64 (c * bs)) by nia. rewrite (s64_small (block * bs)) by nia.
  rewrite slice_replicate by nia. cbn [mbind option_bind].
  destruct (dev_write _ _ _) as [r d] eqn:E. eexists r, d. split; [done|].
  assert (0 <= block * bs) as Hoff by nia. destruct r as [[]|e].
  - intros x. rewrite (dev_write_ok _ _ _ _ Hoff E). unfold patched.
    destruct (Z.leb_spec (block * bs) x), (Z.ltb_spec x ((block + c) * bs)); cbn [andb]; try done.
    + rewrite lookup_replicate_2; [done|]. nia.
    + rewrite lookup_ge_None_2; [done|]. rewrite length_replicate. nia.
  - intros x Hx. apply (dev_write_err _ _ _ _ _ Hoff E). unfold zlen. rewrite length_replicate. nia.
Qed.

Lemma zeroed_app d d1 d2 lo mid hi : lo <= mid <= hi -> zeroed d d1 lo mid -> zeroed d1 d2 mid hi -> zeroed d d2 lo hi.
Proof.
  intros Hm Z1 Z2 x. rewrite Z2, Z1.
  destruct (Z.leb_spec lo x), (Z.leb_spec mid x), (Z.ltb_spec x mid), (Z.ltb_spec x hi); try lia; done.
Qed.

Lemma kept_app d d1 d2 lo mid hi : lo <= mid <= hi -> zeroed d d1 lo mid -> kept_outside d1 d2 mid hi -> kept_outside d d2 lo hi.
Proof. intros Hm Z1 K2 x Hx. rewrite K2 by lia. apply (zeroed_kept _ _ _ _ Z1). lia. Qed.

(** The loop, from a state whose buffer is not empty. *)
Lemma zero_loop_ok fuel s block num :
  zeros_ok s -> 0 < stride_len s -> 0 <= num < 2 ^ 31 -> 0 < blksize (fs s) <= 2 ^ 16 -> 0 <= block ->
  (block + num) * blksize (fs s) < 2 ^ 63 -> num < Z.of_nat fuel ->
  exists x d, mloop fuel (zero_step num) (0, block) s = Some (x, set_dev s d) /\
    match x with
    | inl _ => zeroed (dev s) d (block * blksize (fs s)) ((block + num) * blksize (fs s))
    | inr _ => kept_outside (dev s) d (block * blksize (fs s)) ((block + num) * blksize (fs s))
    end.
Proof.
  intros [Hz1 Hz2] Hst Hnum Hb Hblk Hlim Hf. set (bs := blksize (fs s)) in *.
  destruct (mloop_inv (zero_step num)
    (fun a t => exists d, t = set_dev s d /\ 0 <= a.1 <= num /\ a.2 = block + a.1 /\
       zeroed (dev s) d (block * bs) ((block + a.1) * bs))
    (fun a => Z.to_nat (num - a.1))
    (fun x t => exists d, t = set_dev s d /\
       match x with
       | inl _ => zeroed (dev s) d (block * bs) ((block + num) * bs)
       | inr _ => kept_outside (dev s) d (block * bs) ((block + num) * bs)
       end)) with (fuel := fuel) (a := (0, block)) (t := s) as (x & t' & Hx & d & -> & HQ);
    [| | cbn; lia | by exists x, d].
  - intros [i b] t (d & -> & Hi & Eb & HZ). cbn [fst snd] in *. subst b. unfold zero_step.
    destruct (Z.leb_spec num i).
    { eexists _, _. split; [done|]. exists d. split; [done|]. by replace num with i by lia. }
    rewrite gets_run. cbn [stride_len set_dev]. destruct (Z.eqb_spec (stride_len s) 0); [lia|].
    set (r := (block + i) mod stride_len s). set (c := if truthy r then _ else _).
    assert (0 < c <= stride_len s /\ c <= num - i) as Hc.
    { pose proof (Z.mod_pos_bound (block + i) (stride_len s) Hst) as Hr. fold r in Hr. unfold c. destruct (truthy r); lia. }
    cbn [zbuf set_dev]. rewrite Hz2.
    destruct (write_zeros (set_dev s d) (stride_len s) (block + i) c) as (w & d' & Hw & HW); cbn [fs set_dev];
      [lia | done | lia | fold bs; nia |]. cbn [fs dev set_dev] in *. fold bs in Hw, HW |- *.
    rewrite (bind_run _ _ _ _ _ Hw).
    eexists _, _. split; [reflexivity|]. destruct w as [[]|e].
    + cbn [fst snd]. split; [|lia]. exists d'. split_and!; [done|lia..| |].
      * rewrite wrap_small by nia. lia.
      * replace (block + (i + c)) with (block + i + c) by lia. eapply zeroed_app; [|done|done]. nia.
    + exists d'. split; [done|]. eapply kept_app; [|exact HZ|]; [nia|].
      intros x Hx. apply HW. nia.
  - exists (dev s). cbn [fst snd]. split_and!; [by destruct s|lia..|]. intros x.
    replace (block + 0) with block by lia. destruct (Z.leb_spec (block * bs) x), (Z.ltb_spec x (block * bs)); try lia; done.
Qed.

(** What zeroing leaves alone. *)
Record device_step s s' : Prop := {
  ds_fs : fs s' = fs s;
  ds_tables : tables s' = tables s;
  ds_zeros : zeros_ok s -> zeros_ok s'
}.

Lemma device_step_good s s' bm : device_step s s' -> good s bm -> good s' bm.
Proof. intros [F T Zr] [Hok Ht Hb Hz Hac]. split; rewrite ?F, ?T; auto. Qed.

Lemma set_dev_step s d : device_step s (set_dev s d).
Proof. split; [done..|]. intros []. by split. Qed.

Lemma alloc_run s : exists b o, alloc s = Some (b, set_oracle s o).
Proof. unfold alloc. destruct (oracle s) as [|b o]; cbn; eauto. Qed.

(** The buffer of zeros grows when it is too short. *)
Lemma zero_blocks_ok fuel s bm block num :
  good s bm -> 0 <= num < 2 ^ 31 -> 0 <= block -> (block + num) * blksize (fs s) < 2 ^ 63 -> num < Z.of_nat fuel ->
  exists r s', ext2_zero_blocks fuel block num s = Some (r, s') /\ device_step s s' /\
    match r with
    | Ok _ => zeroed (dev s) (dev s') (block * blksize (fs s)) ((block + num) * blksize (fs s))
    | Err _ => kept_outside (dev s) (dev s') (block * blksize (fs s)) ((block + num) * blksize (fs s))
    end.
Proof.
  intros [Hok Ht [Hb1 Hb2] Hz Hac] Hnum Hblk Hlim Hf. unfold ext2_zero_blocks. destruct (Z.leb_spec num 0).
  { exists (Ok tt), s. split_and!; [done|by split|]. intros x. replace (block + num) with block by lia.
    destruct (Z.leb_spec (block * blksize (fs s)) x), (Z.ltb_spec x (block * blksize (fs s))); try lia; done. }
  rewrite gets_run. cbv zeta. set (max := EXT2_MAX_STRIDE_LENGTH (super (fs s))).
  assert (1 <= max) as Hmax.
  { unfold max, EXT2_MAX_STRIDE_LENGTH. rewrite <- Hb1. apply Z.div_le_lower_bound; lia. }
  assert (forall s1, device_step s s1 -> dev s1 = dev s -> 0 < stride_len s1 -> zeros_ok s1 ->
    exists r s', (r ← mloop fuel (zero_step num) (0, block); mret (match r with inl _ => Ok tt | inr e => Err e end)) s1 =
      Some (r, s') /\ device_step s s' /\
    match r with
    | Ok _ => zeroed (dev s) (dev s') (block * blksize (fs s)) ((block + num) * blksize (fs s))
    | Err _ => kept_outside (dev s) (dev s') (block * blksize (fs s)) ((block + num) * blksize (fs s))
    end) as Hgo.
  { intros s1 [F1 T1 Z1] D1 Hst Hz1.
    destruct (zero_loop_ok fuel s1 block num Hz1 Hst) as (x & d & Hx & HQ); rewrite ?F1; try done; try lia.
    rewrite (bind_run _ _ _ _ _ Hx). rewrite F1, D1 in HQ. eexists _, _. split; [reflexivity|].
    split; [split; [done..|]; intros _; destruct Hz1; by split|]. by destruct x. }
  destruct (Z.ltb_spec (stride_len s) num), (Z.ltb_spec (stride_len s) max); cbn [andb].
  2-4: rewrite ret_run; cbn [negb]; apply Hgo; [by split|done|destruct Hz; lia|done].
  destruct (alloc_run s) as ([] & o & Ha); rewrite bind_assoc, (bind_run _ _ _ _ _ Ha).
  - rewrite bind_assoc, modify_run, ret_run. cbn [negb].
    assert (zeros_ok (set_zbuf (set_oracle s o) (replicate (Z.to_nat (blksize (fs (set_oracle s o)) * Z.min num max)) 0) (Z.min num max))) as Hz'
      by (split; [cbn; lia|done]).
    apply Hgo; [by split|done|cbn; lia|done].
  - rewrite ret_run. cbn [negb]. eexists _, _. split; [reflexivity|]. split; [|done]. split; [done..|]. intros []. by split.
Qed.

(** Marking a free block and unmarking a used one. *)
Lemma stats_good s bm b inuse :
  good s bm -> block_in (fs s) b -> inuse = (if in_use bm b then -1 else 1) ->
  exists l s', ext2_block_alloc_stats b inuse s = Some (tt, s') /\ same_env s s' /\ frame (fs s) (fs s') /\
    good s' (with_bits bm l) /\
    (forall c, in_use (with_bits bm l) c = if c =? b then negb (in_use bm b) else in_use bm c).
Proof.
  intros [Hok Ht Hb Hz Hac] Hbin Hin. pose proof (count_room _ _ Hok Hac b Hbin) as Hroom.
  destruct (group_of_in _ _ Hok Hac b Hbin) as (_ & Hg & _). pose proof (total_range _ Hok) as [Htr _].
  destruct (ac_layout _ _ Hac) as [_ [L1 _] _ _ _ _ _]. pose proof Hbin as Hbin'. unfold block_in in Hbin'.
  rewrite <- Hin, <- (ac_groups _ _ Hac) in Hroom by done.
  destruct (block_alloc_stats_ok s bm b inuse) as (l & s3 & H3 & E3 & HE);
    [done|done|apply Hac|apply Hac|lia| |done|done|].
  { fold (total_blocks (fs s)). rewrite wrap_small by lia. lia. }
  exists l, s3. pose proof HE as [X1 X2 X3 X4 X5 X6 X7 X8]. split_and!; [done..| |].
  - destruct E3 as [V1 V2 V3 V4 V5]. split; [done | by apply V5 | | | exact (accounted_stats _ _ Hok Hac _ _ _ _ Hbin Hin HE)].
    + destruct X2 as [_ -> _ _ _ _ _ _ _]. rewrite X6. unfold EXT2_BLOCK_SIZE.
      by rewrite free_count_add_other by (try done; apply Hok).
    + destruct Hz. split; [by rewrite V4|]. destruct X2 as [_ -> _ _ _ _ _ _ _]. by rewrite V3, V4.
  - intros c. rewrite X5, (cluster_id _ _ Hac). destruct (Z.eqb_spec c b) as [->|]; [|done].
    rewrite (block_in_range _ _ Hac b Hbin), Hin. by destruct (in_use bm b).
Qed.

(** Allocation fails when every block is in use, and when the block that was
    found cannot be zeroed; only its bytes may have changed then. *)
Definition alloc_error s s' (bm : ext2_bitmap) (goal : Z) (e : errno) : Prop :=
  next_free (fs s) bm goal (Err e) /\ dev s' = dev s \/
  exists b, next_free (fs s) bm goal (Ok b) /\
    kept_outside (dev s) (dev s') (b * blksize (fs s)) ((b + 1) * blksize (fs s)).

(** What allocating a block does. [own_buffer] says where the zeros come from. *)
Lemma alloc_block_ok fuel fresh junk s bm goal own_buffer :
  good s bm -> block_in (fs s) goal -> total_blocks (fs s) - first_block (fs s) + 1 < Z.of_nat fuel ->
  total_blocks (fs s) * blksize (fs s) < 2 ^ 63 ->
  exists r s' l, ext2_alloc_block fresh fuel junk goal own_buffer s = Some (r, s') /\
    frame (fs s) (fs s') /\
    match r with
    | Ok b => next_free (fs s) bm goal (Ok b) /\ good s' (with_bits bm l) /\
        (forall c, in_use (with_bits bm l) c = if c =? b then true else in_use bm c) /\
        zeroed (dev s) (dev s') (b * blksize (fs s)) ((b + 1) * blksize (fs s))
    | Err e => good s' bm /\ alloc_error s s' bm goal e
    end.
Proof.
  intros HG Hgoal Hf Hlim. pose proof HG as [Hok Ht [Hb1 Hb2] Hz Hac]. unfold ext2_alloc_block.
  rewrite gets_run, (ac_bitmap _ _ Hac). rewrite (andthen_ok (mret (Ok tt)) _ s tt s eq_refl).
  destruct (new_block_ok fuel s bm goal HG Hgoal ltac:(lia)) as (r & s1 & H1 & Q1 & HN). destruct Q1 as (E1 & F1 & S1 & G1).
  destruct r as [b|e].
  2: { rewrite (andthen_err _ _ _ _ _ H1). exists (Err e), s1, []. split_and!; [done..|].
    left. split; [done|]. apply E1. }
  rewrite (andthen_ok _ _ _ _ _ H1). pose proof HN as (Hbin & Hfree & _).
  destruct (ac_layout _ _ Hac) as [_ [L1 L2] _ _ _ _ _]. pose proof (total_range _ Hok) as [Htr _].
  assert (blksize (fs s1) = blksize (fs s)) as Ebs by apply F1. unfold block_in in Hbin.
  assert (exists r s2, (if own_buffer then f ← gets fs; ext2_write_blocks (replicate (Z.to_nat (blksize f)) 0) b 1
     else ext2_zero_blocks fuel b 1) s1 = Some (r, s2) /\ device_step s1 s2 /\
    match r with
    | Ok _ => zeroed (dev s1) (dev s2) (b * blksize (fs s)) ((b + 1) * blksize (fs s))
    | Err _ => kept_outside (dev s1) (dev s2) (b * blksize (fs s)) ((b + 1) * blksize (fs s))
    end)
    as (r2 & s2 & H2 & D2 & HZ).
  { destruct own_buffer.
    - rewrite gets_run. replace (blksize (fs s1)) with (blksize (fs s1) * 1) by lia.
      destruct (write_zeros s1 1 b 1) as (r & d & Hr & HZ); [lia|rewrite Ebs; done|lia|rewrite Ebs; nia|].
      exists r, (set_dev s1 d). split_and!; [done|apply set_dev_step|]. rewrite Ebs in HZ. by destruct r.
    - destruct (zero_blocks_ok fuel s1 bm b 1 G1) as (r & s2 & Hr & HD & HZ); [lia|lia|rewrite Ebs; nia|lia|].
      rewrite Ebs in HZ. exists r, s2. split_and!; [done..|]. by destruct r. }
  pose proof (device_step_good _ _ _ D2 G1) as G2. pose proof (ds_fs _ _ D2) as F2. destruct r2 as [[]|e].
  2: { rewrite (andthen_err _ _ _ _ _ H2). exists (Err e), s2, []. split; [done|]. split; [by rewrite F2|].
    split; [done|]. right. exists b. rewrite <- (se_dev _ _ E1). done. }
  rewrite (andthen_ok _ _ _ _ _ H2). pose proof G2 as [Hok2 Ht2 Hb2' Hz2 Hac2].
  assert (super (fs s2) = super (fs s)) as S2 by congruence.
  assert (block_in (fs s2) b) as Hbin2 by (unfold block_in, first_block, total_blocks in *; rewrite S2; lia).
  assert (in_use bm b = false) as Hnu by (unfold free in Hfree; by destruct (in_use bm b)).
  destruct (stats_good s2 bm b 1 G2 Hbin2) as (l & s3 & H3 & E3 & F3 & G3 & HU); [by rewrite Hnu|].
  rewrite (bind_run _ _ _ _ _ H3). exists (Ok b), s3, l. rewrite Hnu in HU. cbn [negb] in HU.
  split; [done|]. split; [eapply frame_trans; [exact F1|]; rewrite <- F2; exact F3|].
  split_and!; [done..|]. rewrite (se_dev _ _ E3), <- (se_dev _ _ E1). done.
Qed.

Lemma with_bits_bounds bm l : bm_start (with_bits bm l) = bm_start bm /\ bm_end (with_bits bm l) = bm_end bm.
Proof. by destruct bm. Qed.

Lemma good_blocks s s' bm l : good s bm -> good s' (with_bits bm l) ->
  first_block (fs s') = first_block (fs s) /\ total_blocks (fs s') = total_blocks (fs s).
Proof.
  intros [_ _ _ _ [_ _ [_ _ _ A B _ _] _ _]] [_ _ _ _ [_ _ [_ _ _ A' B' _ _] _ _]].
  destruct (with_bits_bounds bm l) as [E1 E2]. rewrite E1 in A'. rewrite E2 in B'. lia.
Qed.

(** ** The allocator as a set of blocks

    Clients allocate near a goal and free blocks that they own. *)
Inductive op := OpAlloc (goal : Z) (own_buffer : bool) | OpFree (block : Z).

Definition run_op fresh fuel junk (o : op) : M (st (D := D)) (res Z) :=
  match o with
  | OpAlloc goal own_buffer => ext2_alloc_block fresh fuel junk goal own_buffer
  | OpFree block => ext2_block_alloc_stats block (-1);; mret (Ok block)
  end.

(** The specification: [X] is the set of the blocks in use, of a filesystem
    whose blocks are [lo .. hi - 1]. *)
Inductive spec_step (lo hi : Z) (X : gset Z) : op -> res Z -> gset Z -> Prop :=
  | spec_alloc goal own b :
      lo <= b < hi -> b ∉ X ->
      (goal <= b /\ (forall y, goal <= y < b -> y ∈ X) \/
       b < goal /\ (forall y, goal <= y < hi -> y ∈ X) /\ (forall y, lo <= y < b -> y ∈ X)) ->
      spec_step lo hi X (OpAlloc goal own) (Ok b) ({[b]} ∪ X)
  | spec_full goal own : (forall y, lo <= y < hi -> y ∈ X) -> spec_step lo hi X (OpAlloc goal own) (Err ENOENT) X
  | spec_device goal own b e : lo <= b < hi -> b ∉ X -> spec_step lo hi X (OpAlloc goal own) (Err e) X
  | spec_free b : b ∈ X -> spec_step lo hi X (OpFree b) (Ok b) (X ∖ {[b]}).

(** What a client may ask for. *)
Definition allowed (lo hi : Z) (X : gset Z) (o : op) : Prop :=
  match o with OpAlloc goal _ => lo <= goal < hi | OpFree b => lo <= b < hi /\ b ∈ X end.

Lemma not_free bm y : free bm y = false <-> y ∈ used_clusters bm.
Proof. rewrite elem_of_used. unfold free. by destruct (in_use bm y). Qed.

Lemma is_free bm y : free bm y = true <-> y ∉ used_clusters bm.
Proof. rewrite elem_of_used. unfold free. by destruct (in_use bm y). Qed.

Lemma used_flip bm bm' b v : (forall c, in_use bm' c = if c =? b then v else in_use bm c) ->
  used_clusters bm' = if v : bool then {[b]} ∪ used_clusters bm else used_clusters bm ∖ {[b]}.
Proof.
  intros Hu. apply set_eq. intros c. rewrite elem_of_used, Hu.
  destruct v; rewrite ?elem_of_union, ?elem_of_difference, elem_of_singleton, elem_of_used;
    destruct (Z.eqb_spec c b); naive_solver.
Qed.

Lemma op_refines fresh fuel junk s bm o :
  let lo := first_block (fs s) in let hi := total_blocks (fs s) in
  good s bm -> allowed lo hi (used_clusters bm) o -> hi - lo + 1 < Z.of_nat fuel -> hi * blksize (fs s) < 2 ^ 63 ->
  exists r s' bm', run_op fresh fuel junk o s = Some (r, s') /\ good s' bm' /\
    first_block (fs s') = lo /\ total_blocks (fs s') = hi /\ blksize (fs s') = blksize (fs s) /\
    spec_step lo hi (used_clusters bm) o r (used_clusters bm').
Proof.
  intros lo hi HG Ho Hf Hl. destruct o as [goal own|b]; cbn [allowed run_op] in *.
  - destruct (alloc_block_ok fuel fresh junk s bm goal own HG Ho Hf Hl) as (r & s' & l & Hr & Hfr & HQ).
    pose proof (fr_blksize _ _ Hfr) as Ebs. destruct r as [b|e].
    + destruct HQ as ((Hb & Hfree & Hnx) & HG' & Hu & _). exists (Ok b), s', (with_bits bm l).
      destruct (good_blocks _ _ _ _ HG HG') as [E1 E2]. split_and!; [done..|].
      rewrite (used_flip _ _ _ _ Hu). constructor; [done|by apply is_free|].
      destruct Hnx as [[? Hy]|(? & Hy & Hy')]; [left|right]; split_and?; try done; intros y ?; apply not_free; eauto.
    + destruct HQ as [HG' HE]. exists (Err e), s', bm.
      assert (with_bits bm (bm_bits bm) = bm) as Ebm by by destruct bm as [[]|[]].
      rewrite <- Ebm in HG' at 1. destruct (good_blocks _ _ _ _ HG HG') as [E1 E2]. rewrite Ebm in HG'.
      split_and!; [done..|]. destruct HE as [[[-> HE] _]|(b & (Hb & Hfree & _) & _)].
      * constructor. intros y Hy. by apply not_free, HE.
      * econstructor; [done|]. by apply is_free.
  - destruct Ho as [Hb Hin]. pose proof Hin as Hin'. rewrite elem_of_used in Hin'.
    destruct (stats_good s bm b (-1) HG Hb) as (l & s' & Hs & _ & Hfr & HG' & Hu); [by rewrite Hin'|].
    rewrite (bind_run _ _ _ _ _ Hs). exists (Ok b), s', (with_bits bm l).
    destruct (good_blocks _ _ _ _ HG HG') as [E1 E2]. split_and!; [done..|apply Hfr|].
    rewrite Hin' in Hu. rewrite (used_flip _ _ _ _ Hu). by constructor.
Qed.

(** A run of operations with their results, each one allowed where it starts,
    and a run of the specification. *)
Inductive history fresh fuel junk : st (D := D) -> list (op * res Z) -> st (D := D) -> Prop :=
  | history_nil s : history fresh fuel junk s [] s
  | history_cons s bm o r s' h s'' :
      block_bitmap (fs s) = Some bm ->
      allowed (first_block (fs s)) (total_blocks (fs s)) (used_clusters bm) o ->
      run_op fresh fuel junk o s = Some (r, s') ->
      history fresh fuel junk s' h s'' -> history fresh fuel junk s ((o, r) :: h) s''.

Inductive spec_history (lo hi : Z) : gset Z -> list (op * res Z) -> gset Z -> Prop :=
  | spec_nil X : spec_history lo hi X [] X
  | spec_cons X o r X' h X'' :
      spec_step lo hi X o r X' -> spec_history lo hi X' h X'' -> spec_history lo hi X ((o, r) :: h) X''.

(** A run as a function, which stops at an operation that is not allowed. *)
Definition allowedb (lo hi : Z) (bm : ext2_bitmap) (o : op) : bool :=
  match o with
  | OpAlloc goal _ => (lo <=? goal) && (goal <? hi)
  | OpFree b => (lo <=? b) && (b <? hi) && in_use bm b
  end.

Fixpoint run_history fresh fuel junk (ops : list op) : M (st (D := D)) (list (op * res Z)) :=
  match ops with
  | [] => mret []
  | o :: ops =>
      f ← gets fs;
      bm ← lift (block_bitmap f);
      if negb (allowedb (first_block f) (total_blocks f) bm o) then fault else
      r ← run_op fresh fuel junk o; h ← run_history fresh fuel junk ops; mret ((o, r) :: h)
  end.

Lemma run_history_sound fresh fuel junk ops : forall s h s',
  run_history fresh fuel junk ops s = Some (h, s') -> history fresh fuel junk s h s'.
Proof.
  induction ops as [|o ops IH]; intros s h s'; cbn [run_history]; [intros [= <- <-]; constructor|].
  rewrite gets_run. destruct (block_bitmap (fs s)) as [bm|] eqn:Eb; [|done].
  rewrite (bind_run (lift (Some bm)) _ s _ s eq_refl). destruct (allowedb _ _ bm o) eqn:Ea; [|done]. cbn [negb].
  unfold mbind, M_bind. destruct (run_op _ _ _ o s) as [[r s1]|] eqn:Er; [|done].
  destruct (run_history _ _ _ ops s1) as [[h1 s2]|] eqn:Eh; [|done]. intros [= <- <-].
  eapply history_cons; [done| |done|by apply IH].
  destruct o as [goal own|b]; cbn [allowed allowedb] in *; [lia|].
  apply andb_prop in Ea as [Ea Hu]. split; [lia|]. by apply elem_of_used.
Qed.

(** Allocation of a block on a filesystem in use returns the first free
    block from the goal on, going round at the end; that block is in use
    afterwards and its bytes on the device are zero, no other block changes its
    state and no other byte its value. [ENOENT] means that every block is in
    use; when the block cannot be zeroed, the error leaves it free. In every
    case the call returns and the filesystem stays well formed, its counts of
    free blocks included. *)
Theorem alloc_block_correct fresh fuel junk s bm goal own_buffer :
  good s bm -> block_in (fs s) goal -> total_blocks (fs s) - first_block (fs s) + 1 < Z.of_nat fuel ->
  total_blocks (fs s) * blksize (fs s) < 2 ^ 63 ->
  exists r s', ext2_alloc_block fresh fuel junk goal own_buffer s = Some (r, s') /\
    match r with
    | Ok b => next_free (fs s) bm goal (Ok b) /\
        zeroed (dev s) (dev s') (b * blksize (fs s)) ((b + 1) * blksize (fs s)) /\
        exists bm', good s' bm' /\ forall c, in_use bm' c = if c =? b then true else in_use bm c
    | Err e => good s' bm /\ alloc_error s s' bm goal e
    end.
Proof.
  intros HG Hgoal Hf Hl.
  destruct (alloc_block_ok fuel fresh junk s bm goal own_buffer HG Hgoal Hf Hl) as (r & s' & l & Hr & _ & HQ).
  exists r, s'. split; [done|]. destruct r as [b|e]; [|done]. destruct HQ as (H1 & H2 & H3 & H4). eauto 10.
Qed.

(** C11: however clients interleave allocations and frees of blocks in use, the
    driver behaves as a set of blocks, and at the end the count of free blocks
    in every group descriptor is the number of free blocks of the group, and
    the count in the superblock is the number of all free blocks. *)
Theorem allocator_refines_set fresh fuel junk s bm h s'' :
  let lo := first_block (fs s) in let hi := total_blocks (fs s) in
  good s bm -> hi - lo + 1 < Z.of_nat fuel -> hi * blksize (fs s) < 2 ^ 63 ->
  history fresh fuel junk s h s'' ->
  exists bm'', good s'' bm'' /\ spec_history lo hi (used_clusters bm) h (used_clusters bm'') /\
    (forall g, group_in g (fs s'') ->
       free_of (fs s'') (gdesc (fs s'') g) = countb (free bm'') (group_blocks (fs s'') g)) /\
    ext2_free_blocks_count (super (fs s'')) = countb (free bm'') (seqZ lo (hi - lo)).
Proof.
  intros lo hi HG Hf Hl Hh.
  assert (exists bm'', good s'' bm'' /\ first_block (fs s'') = lo /\ total_blocks (fs s'') = hi /\
    spec_history lo hi (used_clusters bm) h (used_clusters bm'')) as (bm'' & HG'' & <- & <- & Hs).
  { subst lo hi. revert bm HG. induction Hh as [s|s bm0 o r s' h s'' Hbm Ho Hr Hh IH]; intros bm HG.
    - exists bm. split_and!; [done..|constructor].
    - assert (bm0 = bm) as ->. { destruct HG as [_ _ _ _ Hac]. pose proof (ac_bitmap _ _ Hac). congruence. }
      destruct (op_refines fresh fuel junk s bm o HG Ho Hf Hl) as (r1 & s1 & bm1 & Hr1 & HG1 & E1 & E2 & E3 & Hstep).
      rewrite Hr in Hr1. injection Hr1 as <- <-. rewrite E1, E2, E3 in IH.
      destruct (IH Hf Hl bm1 HG1) as (bm'' & ? & ? & ? & ?). exists bm''. split_and!; [done..|]. by econstructor. }
  exists bm''. destruct (g_accounted _ _ HG'') as [A1 A2 A3 A4 A5]. split_and!; done.
Qed.
End allocate.

(** ** Checksums of group descriptors *)

(** After [ext2_group_desc_checksum_update] the checksum of the group is
    valid. The update changes no other field of the descriptor, no other
    descriptor, and nothing else of the filesystem. *)
Theorem group_checksum_update_valid {D} `{BlockDevice D} (s : st (D := D)) g fl :
  fs_ok (fs s) -> group_in g (fs s) -> tables_ok (tables s) -> f_in (gdesc (fs s) g) fl -> f_disjoint bg_checksum fl ->
  exists s', ext2_group_desc_checksum_update g s = Some (tt, s') /\
    option_map fst (ext2_group_desc_checksum_valid g s') = Some true /\
    gdesc (fs s') g ~> fl = gdesc (fs s) g ~> fl /\
    (forall g', 0 <= g' -> g' <> g -> gdesc (fs s') g' = gdesc (fs s) g') /\
    fs s' = set_group_desc (fs s) (group_desc (fs s')) /\ dev s' = dev s.
Proof.
  intros Hok Hg Ht Hfl Hdis. destruct (checksum_update_ok g s Hok Hg Ht) as (s' & Hs' & Hstep).
  pose proof (desc_step_ok _ _ _ _ Hok Hstep) as Hok'. destruct Hstep as [U E]. pose proof U as [U1 U2 U3 U4 U5].
  pose proof (desc_update_super _ _ _ _ U) as Hsup. pose proof (frame_desc _ _ _ _ U) as Hfr.
  pose proof (group_fits g _ Hok Hg) as Hfit. destruct (ok_ds _ Hok) as [Hds _].
  assert (zlen (gdesc (fs s) g) = ds (fs s)) as Hlen by (apply desc_len; [lia|apply Hg|done]).
  assert (f_in (gdesc (fs s) g) bg_checksum) as Hin by (unfold f_in; cbn; lia).
  exists s'. split_and!; [done| | |done|done|apply E].
  - unfold ext2_group_desc_checksum_valid. rewrite gets_run. rewrite Hsup in *.
    destruct (ext2_has_group_desc_checksum (super (fs s))) eqn:Ec; [|done]. cbn [negb].
    assert (group_in g (fs s')) as Hg' by (eapply group_in_frame; done).
    assert (tables_ok (tables s')) as Ht' by (by apply E). unfold ext2_bg_checksum.
    rewrite (bind_run _ _ _ _ _ (gd_get_ok g s' bg_checksum Hok' Hg' (in_desc_32 _ bg_checksum Hok' eq_refl))).
    destruct (checksum_ok g s' Hok' Hg' Ht') as (t & Hc & _). rewrite (bind_run _ _ _ _ _ Hc).
    cbn [mret M_ret option_map fst]. f_equal. apply Z.eqb_eq. rewrite U4.
    assert (csum_of g (fs s') (setf (gdesc (fs s) g) bg_checksum (csum_of g (fs s) (gdesc (fs s) g))) =
      csum_of g (fs s) (gdesc (fs s) g)) as ->.
    { rewrite csum_setf by (rewrite Hsup; lia). unfold csum_of. by rewrite Hsup, (fr_seed _ _ Hfr). }
    rewrite getf_setf_same by done. apply wrap_small. change (8 * f_len bg_checksum) with 16. apply csum_range; [done|].
    apply desc_bytes_ok. apply Hok.
  - rewrite U4. destruct (ext2_has_group_desc_checksum _); [|done]. destruct Hfl as (? & ? & ?).
    apply getf_setf_other; [done|lia|lia|done].
Qed.

(** ** A filesystem in memory *)

(** A device of [disk_size] bytes; requests that leave it fail. *)
Record ramdisk := mk_disk { disk_size : Z; disk_bytes : Z -> Z }.
Definition on_disk (d : ramdisk) (off n : Z) : bool := (0 <=? off) && (off + n <=? disk_size d).

#[global] Instance RamDisk : BlockDevice ramdisk := {
  dev_read n off d := if on_disk d off n then (Ok (map (disk_bytes d) (seqZ off n)), d) else (Err EIO, d);
  dev_write data off d := if on_disk d off (zlen data) then (Ok tt, mk_disk (disk_size d) (patched (disk_bytes d) off data))
    else (Err EIO, d)
}.

#[global] Program Instance RamDisk_laws : DeviceLaws ramdisk := { contents := disk_bytes }.
Next Obligation. intros n off d data d' _ _. cbn. destruct (on_disk _ _ _); [|done]. by intros [= <- <-]. Qed.
Next Obligation. intros n off d r d'. cbn. destruct (on_disk _ _ _); by intros [= <- <-]. Qed.
Next Obligation. intros data off d d' _. cbn. destruct (on_disk _ _ _); [|done]. by intros [= <-]. Qed.
Next Obligation. intros data off d e d' _. cbn. destruct (on_disk _ _ _); [done|]. by intros [= <- <-]. Qed.

(** Two groups of eight blocks from block 1 on; the last three blocks of the
    first group and the first one of the second are free. *)
Definition demo_super : list Z :=
  foldl (fun s '(f, v) => setf s f v) (replicate 1024 0)
    [(s_blocks_count, 17); (s_first_data_block, 1); (s_blocks_per_group, 8); (s_inodes_per_group, 8); (s_inodes_count, 16);
     (s_free_blocks_count, 4); (s_magic, 0xef53); (s_rev_level, 1); (s_first_ino, 11);
     (s_feature_ro_compat, EXT4_FT_RO_COMPAT_GDT_CSUM)].
Definition demo_table : list Z :=
  setf (setf (replicate 64 0) (F (f_off bg_free_blocks_count) 2) 3) (F (32 + f_off bg_free_blocks_count) 2) 1.
Definition demo_bitmap : ext2_bitmap :=
  Bitmap64 (mk_b64 EXT2_BMAP_MAGIC_BLOCK64 1 16 16 0 [0x1f; 0xfe] 0x1000).
Definition demo_fs : ext2_fs :=
  mk_fs demo_super 0 0 1024 2 1 demo_table 1 (Some demo_bitmap) None 0 0xffffffff None.
Definition demo_state : st (D := ramdisk) :=
  mk_st demo_fs (mk_disk 17408 (fun _ => 7)) [] crc32_tables0 [] 0.

Lemma demo_fs_ok : fs_ok demo_fs.
Proof.
  split; try (vm_compute; intuition discriminate); apply Forall_forall; intros x Hx.
  all: apply list_elem_of_In in Hx; vm_compute in Hx; intuition (subst; lia).
Qed.

Lemma demo_good : good demo_state demo_bitmap.
Proof.
  split; [apply demo_fs_ok | by left | vm_compute; intuition discriminate | by split |].
  split; [done | | | | vm_compute; reflexivity].
  - split; [repeat constructor; lia|..]; vm_compute; intuition discriminate.
  - split; vm_compute; intuition discriminate.
  - intros g Hg. assert (g = 0 \/ g = 1) as [-> | ->] by (unfold group_in in Hg; cbn in Hg; lia); vm_compute; reflexivity.
Qed.

Lemma run_fst {S A} (m : M S A) s a d : option_map fst (m s) = Some a -> m s = Some (a, default d (option_map snd (m s))).
Proof. destruct (m s) as [[]|]; cbn; congruence. Qed.

Lemma group_checksum_update_valid_witness :
  exists s', ext2_group_desc_checksum_update 1 demo_state = Some (tt, s') /\
    option_map fst (ext2_group_desc_checksum_valid 1 demo_state) = Some false /\
    option_map fst (ext2_group_desc_checksum_valid 1 s') = Some true.
Proof.
  destruct (group_checksum_update_valid demo_state 1 bg_flags) as (s' & H1 & H2 & _).
  - exact demo_fs_ok.
  - unfold group_in. cbn. lia.
  - left. reflexivity.
  - vm_compute. intuition discriminate.
  - right. vm_compute. discriminate.
  - exists s'. split; [exact H1|]. split; [vm_compute; reflexivity | exact H2].
Defined.

Lemma alloc_block_correct_witness :
  exists r s', ext2_alloc_block (fun _ => (0, [])) 20 (Ok tt) 8 false demo_state = Some (r, s') /\ r = Ok 8.
Proof.
  destruct (alloc_block_correct (fun _ => (0, [])) 20 (Ok tt) demo_state demo_bitmap 8 false demo_good) as (r & s' & H1 & H2).
  - unfold block_in. vm_compute. intuition discriminate.
  - vm_compute. reflexivity.
  - vm_compute. reflexivity.
  - exists r, s'. split; [exact H1|]. apply (f_equal (option_map fst)) in H1. vm_compute in H1. congruence.
Defined.

(** Allocate from block 9 on, which goes to block 9, then again, which goes
    round to block 6, and free block 1. *)
Abbreviation demo_run := (run_history (D := ramdisk) (fun _ => (0, [])) 20 (Ok tt) [OpAlloc 9 true; OpAlloc 9 false; OpFree 1]).

Lemma allocator_refines_set_witness :
  exists h s'' bm'', demo_run demo_state = Some (h, s'') /\ map snd h = [Ok 9; Ok 6; Ok 1] /\
    spec_history (first_block demo_fs) (total_blocks demo_fs) (used_clusters demo_bitmap) h (used_clusters bm'').
Proof.
  assert (option_map fst (demo_run demo_state) = Some [(OpAlloc 9 true, Ok 9); (OpAlloc 9 false, Ok 6); (OpFree 1, Ok 1)]) as Hf
    by (vm_compute; reflexivity).
  assert (total_blocks demo_fs - first_block demo_fs + 1 < Z.of_nat 20) as H1 by (vm_compute; reflexivity).
  assert (total_blocks demo_fs * blksize demo_fs < 2 ^ 63) as H2 by (vm_compute; reflexivity).
  destruct (demo_run demo_state) as [[h s'']|] eqn:Hr; [|discriminate Hf].
  exists h, s''.
  destruct (allocator_refines_set _ _ _ demo_state demo_bitmap _ _ demo_good H1 H2 (run_history_sound _ _ _ _ _ _ _ Hr))
    as (bm'' & _ & Hs & _).
  exists bm''. split; [reflexivity|]. split; [|exact Hs]. injection Hf as ->. reflexivity.
Defined.

End Ext2Alloc.
