(* ===== verification/Ext2Choose.v ===== *)
(** * Choosing inodes and backup groups in an ext2 filesystem

    Module [Ext2Choose]: the search of [ext2_new_inode] over the inode bitmap,
    which initialises the groups it visits, ends and returns the first free
    inode after the directory's group; the groups that hold a backup of the
    superblock are the powers of 3, 5 and 7. *)

From S2P Require Import Prelude CBits Hash HashMap CString Ext2Layout Ext2Bitmap Ext2Fs Ext2Alloc.

Module Ext2Choose.
Import CBits Hash HashMap CString Ext2Layout Ext2Bitmap Ext2Fs Ext2Alloc.

(** ** Groups with a backup *)

Definition power_of (x group : Z) : Prop := exists k, 0 < k /\ group = x ^ k.

Lemma power_small x group : 2 <= x -> 0 <= group < x -> ~ power_of x group.
Proof. intros Hx Hg (k & Hk & ->). pose proof (Z.pow_le_mono_r x 1 k). rewrite Z.pow_1_r in *. lia. Qed.

Lemma power_div x group : 2 <= x -> x < group -> power_of x group <-> group mod x = 0 /\ power_of x (group / x).
Proof.
  intros Hx Hg. split.
  - intros (k & Hk & ->). assert (1 < k) as Hk1.
    { destruct (Z.eq_dec k 1) as [->|]; [rewrite Z.pow_1_r in Hg|]; lia. }
    replace k with (Z.succ (k - 1)) by lia. rewrite Z.pow_succ_r by lia. rewrite (Z.mul_comm x).
    rewrite Z.mod_mul, Z.div_mul by lia. split; [done|]. exists (k - 1). split; [lia|done].
  - intros (Hm & k & Hk & Hp). exists (Z.succ k). split; [lia|]. rewrite Z.pow_succ_r, <- Hp by lia.
    pose proof (Z.div_mod group x ltac:(lia)). lia.
Qed.

Lemma test_root_ok x : 2 <= x -> forall fuel group, (0 < fuel)%nat -> 0 <= group < 2 ^ Z.of_nat fuel ->
  exists b, ext2_bg_super_test_root fuel group x = Some b /\ (b = true <-> power_of x group).
Proof.
  intros Hx. induction fuel as [|fuel IH]; intros group Hf Hg; [lia|]. cbn [ext2_bg_super_test_root].
  destruct (Z.ltb_spec group x).
  { exists false. split; [done|]. split; [done|]. intros Hp.
    exfalso. apply (power_small x group); [lia|lia|done]. }
  destruct (Z.eqb_spec group x) as [->|Hne].
  { exists true. split; [done|]. split; [|done]. intros _. exists 1. by rewrite Z.pow_1_r. }
  pose proof (power_div x group Hx ltac:(lia)) as Hpd. unfold truthy. destruct (Z.eqb_spec (group mod x) 0) as [Hm|Hm]; cbn [negb].
  - rewrite Nat2Z.inj_succ, Z.pow_succ_r in Hg by lia.
    assert (group / x < 2 ^ Z.of_nat fuel) by (apply Z.div_lt_upper_bound; nia).
    assert (0 < group / x) by (apply Z.div_str_pos; lia).
    destruct (IH (group / x)) as (b & Hb & HQ); [destruct fuel; [change (2 ^ Z.of_nat 0) with 1 in *|]; lia|lia|].
    exists b. split; [done|]. tauto.
  - exists false. split; [done|]. split; [done|]. tauto.
Qed.

(** Without the sparse superblock flag the groups that hold a backup of the
    superblock are 0, 1 and the powers of 3, 5 and 7; the search for the
    root ends for every group number. *)
Theorem backup_groups f group :
  ro_compat (super f) EXT2_FT_RO_COMPAT_SPARSE_SUPER = false -> 0 <= group < 2 ^ 32 ->
  exists b, ext2_bg_has_super f group = Some b /\
    (b = true <-> group = 0 \/ group = 1 \/ power_of 3 group \/ power_of 5 group \/ power_of 7 group).
Proof.
  intros Hs Hg. unfold ext2_bg_has_super. rewrite Hs.
  destruct (Z.eqb_spec group 0) as [->|H0]; [by exists true; tauto|].
  destruct (Z.leb_spec group 1). { exists true. split; [done|]. split; [right; left; lia|done]. }
  destruct (test_root_ok 3 ltac:(lia) 32 group) as (b3 & -> & H3); [lia..|].
  destruct (test_root_ok 5 ltac:(lia) 32 group) as (b5 & -> & H5); [lia..|].
  destruct (test_root_ok 7 ltac:(lia) 32 group) as (b7 & -> & H7); [lia..|].
  assert (forall x, x mod 2 = 1 -> 0 < x -> power_of x group -> group mod 2 = 1) as Hodd.
  { intros x Hx Hx0 (k & Hk & ->). rewrite <- (Z2Nat.id k) by lia. generalize (Z.to_nat k). intros n.
    induction n as [|n IH]; [done|]. rewrite Nat2Z.inj_succ, Z.pow_succ_r by lia. rewrite Z.mul_mod, Hx, IH by lia. done. }
  change (Z.land group 1) with (Z.land group (Z.ones 1)). rewrite (Z.land_ones group 1) by lia. change (2 ^ 1) with 2. unfold truthy.
  destruct (Z.eqb_spec (group mod 2) 0) as [He|He]; cbn [negb].
  - exists false. split; [done|]. split; [done|].
    intros [?|[?|[Hp|[Hp|Hp]]]]; try lia; apply Hodd in Hp; lia || done.
  - cbn [mbind option_bind]. destruct b3; [exists true; tauto|]. destruct b5; [exists true; tauto|].
    exists b7. split; [done|]. rewrite H7.
    split; [tauto|]. intros [?|[?|[?|[?|?]]]]; [lia|lia|naive_solver..].
Qed.

Lemma backup_groups_witness :
  exists b, ext2_bg_has_super demo_fs 243 = Some b /\ b = true.
Proof.
  destruct (backup_groups demo_fs 243) as (b & Hb & HQ).
  - vm_compute. reflexivity.
  - lia.
  - exists b. split; [exact Hb|]. apply HQ. right. right. left. exists 5. split; [lia | reflexivity].
Defined.

(** ** Inodes *)

Section inodes.
Context {D : Type} `{BlockDevice D}.
Implicit Types s : st (D := D).

(** A filesystem with superblock [sb] and inode bitmap [bm]. *)
Record inodes_ok (sb : list Z) (groups : Z) s (bm : ext2_bitmap) : Prop := {
  io_ok : fs_ok (fs s);
  io_tables : tables_ok (tables s);
  io_super : super (fs s) = sb;
  io_groups : group_desc_count (fs s) = groups;
  io_bitmap : inode_bitmap (fs s) = Some bm;
  io_wf : wf bm;
  io_start : bm_start bm = 1;
  io_end : bm_end bm = sb ~> s_inodes_count;
  io_shift : bm_shift bm = 0
}.

Definition fewer (bm' bm : ext2_bitmap) : Prop := forall c, in_use bm' c = true -> in_use bm c = true.

Lemma fewer_refl bm : fewer bm bm.
Proof. by intros c. Qed.

Lemma fewer_trans bm1 bm2 bm3 : fewer bm1 bm2 -> fewer bm2 bm3 -> fewer bm1 bm3.
Proof. unfold fewer. auto. Qed.

Lemma unmark_inodes_ok n : forall bm ino, wf bm -> 0 <= ino < 2 ^ 64 ->
  exists l, unmark_inodes n (Some bm) ino = Some (Some (with_bits bm l)) /\ wf (with_bits bm l) /\ fewer (with_bits bm l) bm.
Proof.
  induction n as [|n IH]; intros bm ino Hw Hi; cbn [unmark_inodes].
  - exists (bm_bits bm). assert (with_bits bm (bm_bits bm) = bm) as -> by by destruct bm as [[]|[]].
    split_and!; [done..|]. by intros c.
  - destruct (unmark_ok bm ino Hw Hi) as (l & -> & Hw' & Hu). cbn [mbind option_bind].
    destruct (IH _ (u64 (ino + 1)) Hw' (wrap_range 64 _ ltac:(lia))) as (l' & -> & Hw2 & Hf).
    exists l'. assert (with_bits (with_bits bm l) l' = with_bits bm l') as E by by destruct bm.
    rewrite E in *. split_and!; [done..|]. eapply fewer_trans; [done|].
    intros c. rewrite Hu. destruct (_ =? _); [by rewrite andb_false_r|done].
Qed.

Lemma inodes_ok_desc sb n s s' bm g d : inodes_ok sb n s bm -> desc_step s s' g d -> inodes_ok sb n s' bm.
Proof.
  intros [] Hd. pose proof (desc_step_ok _ _ _ _ io_ok0 Hd). destruct Hd as [[E _ _ _ _] [_ _ _ _ Ht]].
  split; try done; try (by rewrite E). by apply Ht.
Qed.

Lemma inodes_ok_flags sb n s bm x : inodes_ok sb n s bm -> inodes_ok sb n (set_fs s (set_flags (fs s) x)) bm.
Proof. intros []. split; try done. by apply fs_ok_flags. Qed.

Lemma inodes_ok_bitmap sb n s bm l : inodes_ok sb n s bm -> wf (with_bits bm l) ->
  inodes_ok sb n (set_fs s (set_inode_bitmap (fs s) (Some (with_bits bm l)))) (with_bits bm l).
Proof. intros [[]] Hw. split; try done; by destruct bm. Qed.

(** Initialising a group may free inodes of it. *)
Lemma check_inode_uninit_ok sb n s bm group : inodes_ok sb n s bm -> 0 <= group ->
  exists s' bm', ext2_check_inode_uninit group s = Some (tt, s') /\ inodes_ok sb n s' bm' /\ fewer bm' bm.
Proof.
  intros HI Hg. pose proof HI as [Hok Ht Hs Hn Hbm Hw _ _ _]. unfold ext2_check_inode_uninit. rewrite gets_run.
  pose proof (fewer_refl bm).
  destruct (Z.leb_spec (group_desc_count (fs s)) group); cbn [orb]; [by exists s, bm|].
  destruct (ext2_has_group_desc_checksum _); cbn [negb]; [|by exists s, bm].
  assert (group_in group (fs s)) as Hgi by (unfold group_in; lia).
  unfold ext2_bg_test_flags. rewrite bind_assoc.
  rewrite (bind_run _ _ _ _ _ (gd_get_ok group s bg_flags Hok Hgi (in_desc_32 _ bg_flags Hok eq_refl))), ret_run.
  destruct (negb _); [by exists s, bm|]. cbv zeta. rewrite Hbm.
  edestruct (unmark_inodes_ok) as (l & Hl & Hw' & Hf); [exact Hw | | rewrite Hl].
  { pose proof (wrap_range 32 (group * super (fs s) ~> s_inodes_per_group + 1) ltac:(lia)). lia. }
  rewrite (bind_run (lift (Some _)) _ s _ s eq_refl). unfold modify_fs at 1. rewrite modify_run.
  pose proof (inodes_ok_bitmap _ _ _ _ _ HI Hw') as HI1. set (s1 := set_fs s _) in *.
  destruct (clear_flags_ok group s1 (Z.lor EXT2_BG_INODE_UNINIT EXT2_BG_BLOCK_UNINIT) (io_ok _ _ _ _ HI1) Hgi) as (s2 & H2 & U2).
  rewrite (bind_run _ _ _ _ _ H2). pose proof (inodes_ok_desc _ _ _ _ _ _ _ HI1 U2) as HI2.
  assert (group_in group (fs s2)) as Hg2 by (unfold group_in; rewrite (io_groups _ _ _ _ HI2); lia).
  destruct (checksum_update_ok group s2 (io_ok _ _ _ _ HI2) Hg2 (io_tables _ _ _ _ HI2)) as (s3 & H3 & U3).
  rewrite (bind_run _ _ _ _ _ H3). pose proof (inodes_ok_desc _ _ _ _ _ _ _ HI2 U3) as HI3.
  eexists _, _. split; [reflexivity|]. split; [by apply inodes_ok_flags|done].
Qed.

Section search.
Context (sb : list Z) (n : Z) (bm0 : ext2_bitmap) (start : Z) (fuel : nat).
Let ipg := sb ~> s_inodes_per_group.
Let count := sb ~> s_inodes_count.
Let first := EXT2_FIRST_INODE sb.
Hypothesis Hipg : 0 < ipg < 2 ^ 32.
Hypothesis Hcount : count < 2 ^ 32.
Hypothesis Hfirst : 1 <= first <= start.
Hypothesis Hstart : start <= count.
Hypothesis Hfuel : 2 * count + 2 < Z.of_nat fuel.

(** The inodes that are looked at before [i] are in use. *)
Definition used_before (i : Z) : Prop :=
  start <= i /\ (forall y, start <= y < i -> in_use bm0 y = true) \/
  i < start /\ (forall y, start <= y <= count -> in_use bm0 y = true) /\ (forall y, first <= y < i -> in_use bm0 y = true).

Definition search_inv (i : Z) s : Prop :=
  exists bm, inodes_ok sb n s bm /\ fewer bm bm0 /\ first <= i <= count /\ used_before i.
Definition search_measure (i : Z) : nat := Z.to_nat (if start <=? i then count - i + 1 + start else start - i).
Definition search_post (x : Z + errno) s : Prop :=
  match x with
  | inl i => exists bm, inodes_ok sb n s bm /\ fewer bm bm0 /\ first <= i <= count /\
      (in_use bm i = false /\ used_before i \/ i = start /\ forall y, first <= y <= count -> in_use bm0 y = true)
  | inr _ => False
  end.

Lemma new_inode_step_ok i s : search_inv i s ->
  exists c s', new_inode_step fuel start i s = Some (c, s') /\
    match c with
    | Cont i' => search_inv i' s' /\ (search_measure i' < search_measure i)%nat
    | Break i' => search_post (inl i') s'
    | Ret r => search_post (inr r) s'
    end.
Proof.
  intros (bm & HI & Hfw & Hi & Hbef). unfold new_inode_step. rewrite gets_run. cbv zeta. rewrite (io_super _ _ _ _ HI).
  fold ipg count. rewrite (wrap_small 64 (i - 1)) by lia.
  assert (0 <= (i - 1) / ipg < 2 ^ 32) as Hq by (split; [apply Z.div_pos; lia | apply Z.div_lt_upper_bound; nia]).
  rewrite (wrap_small 32) by lia.
  destruct (check_inode_uninit_ok sb n s bm ((i - 1) / ipg) HI ltac:(lia)) as (s1 & bm1 & H1 & HI1 & Hf1).
  rewrite (bind_run _ _ _ _ _ H1), gets_run, (io_super _ _ _ _ HI1). fold count first.
  pose proof (Z.mod_pos_bound (i - 1) ipg ltac:(lia)) as Hmod.
  rewrite (wrap_small 64 (i + ipg - (i - 1) mod ipg)), (wrap_small 64 (start - 1)) by lia.
  set (u1 := if (i <? start) && (start <=? i + ipg - (i - 1) mod ipg) then start - 1 else i + ipg - (i - 1) mod ipg).
  set (upto := if count <? u1 then count else u1).
  assert (i <= upto <= count /\ (i < start -> upto < start)) as [Hup Hup2].
  { unfold upto, u1. destruct (Z.ltb_spec i start), (Z.leb_spec start (i + ipg - (i - 1) mod ipg)); cbn [andb];
      match goal with |- context [count <? ?u] => destruct (Z.ltb_spec count u) end; lia. }
  rewrite (io_bitmap _ _ _ _ HI1). pose proof HI1 as [_ _ _ _ _ Hw Hs He Hsh].
  destruct (find_zero_ok fuel bm1 i upto Hw) as (r & Hr & HQ); [lia..|rewrite Hs, He; fold count; lia|].
  assert (forall x, cluster bm1 x = x) as Hcl by (intros x; unfold cluster; rewrite Hsh; apply Z.shiftr_0_r).
  assert (search_valid bm1 i upto = true) as Hv by (unfold search_valid; rewrite !Hcl, Hs, He; fold count; lia).
  rewrite Hv in HQ. rewrite Hr, (bind_run (lift (Some r)) _ s1 _ s1 eq_refl).
  eexists _, s1. split; [reflexivity|]. pose proof (fewer_trans _ _ _ Hf1 Hfw) as Hfw1. destruct r as [x|e]; cbn [least_of] in HQ.
  - destruct HQ as (Hx & Hfree & Hless). exists bm1. split_and!; [done|done|lia|lia|left].
    rewrite Hcl in Hfree. split; [by destruct (in_use bm1 x)|].
    assert (forall y, i <= y < x -> in_use bm0 y = true) as Hnew.
    { intros y Hy. apply Hfw1. specialize (Hless y Hy). rewrite Hcl in Hless. by destruct (in_use bm1 y). }
    destruct Hbef as [[Hb1 Hb2]|(Hb1 & Hb2 & Hb3)]; [left|right]; split_and?; try lia; try done;
      intros y Hy; destruct (Z.le_gt_cases i y); try (apply Hnew; lia); [apply Hb2|apply Hb3]; lia.
  - destruct HQ as [-> HQ].
    assert (forall y, i <= y <= upto -> in_use bm0 y = true) as Hnew.
    { intros y Hy. apply Hfw1. specialize (HQ y Hy). rewrite Hcl in HQ. by destruct (in_use bm1 y). }
    rewrite (wrap_small 64 (upto + 1)) by lia.
    destruct (Z.ltb_spec count (upto + 1)) as [Hwrap|Hwrap].
    + assert (upto = count) as Eu by lia.
      assert (start <= i) as Hsi by (destruct (Z.le_gt_cases start i); [done|]; specialize (Hup2 ltac:(lia)); lia).
      destruct Hbef as [[Hb1 Hb2]|(Hb1 & Hb2 & Hb3)]; [|lia].
      assert (forall y, start <= y <= count -> in_use bm0 y = true) as Hall.
      { intros y Hy. destruct (Z.le_gt_cases i y); [apply Hnew|apply Hb2]; lia. }
      destruct (Z.eqb_spec first start) as [E|Hne].
      * exists bm1. split_and!; [done|done|lia|lia|right]. split; [done|]. rewrite E. done.
      * split; [|unfold search_measure; destruct (Z.leb_spec start first), (Z.leb_spec start i); lia].
        exists bm1. split_and!; [done|done|lia|lia|right]. split_and!; [lia|done|lia].
    + destruct (Z.eqb_spec (upto + 1) start) as [E|Hne].
      * exists bm1. split_and!; [done|done|lia|lia|right]. split; [done|].
        destruct Hbef as [[Hb1 Hb2]|(Hb1 & Hb2 & Hb3)]; [lia|]. intros y Hy.
        destruct (Z.le_gt_cases start y); [apply Hb2; lia|]. destruct (Z.le_gt_cases i y); [apply Hnew|apply Hb3]; lia.
      * split; [|unfold search_measure; destruct (Z.leb_spec start (upto + 1)), (Z.leb_spec start i); lia].
        exists bm1. split_and!; [done|done|lia|lia|].
        destruct Hbef as [[Hb1 Hb2]|(Hb1 & Hb2 & Hb3)]; [left|right]; split_and?; try lia; try done;
          intros y Hy; destruct (Z.le_gt_cases i y); try (apply Hnew; lia); [apply Hb2|apply Hb3]; lia.
Qed.
End search.

(** Where the search starts: the first inode of the directory's group that is
    not reserved. *)
Definition search_start (sb : list Z) (dir : Z) : Z :=
  Z.max (EXT2_FIRST_INODE sb) (if 0 <? dir then (dir - 1) / sb ~> s_inodes_per_group * sb ~> s_inodes_per_group + 1 else 0).

Lemma test_inode_ok sb n s bm i : inodes_ok sb n s bm -> 1 <= i <= sb ~> s_inodes_count -> sb ~> s_inodes_count < 2 ^ 32 ->
  exists t, ext2_test_bitmap (Some bm) i = Some t /\ truthy t = in_use bm i.
Proof.
  intros HI Hi Hc. destruct (test_ok bm i (io_wf _ _ _ _ HI) ltac:(lia)) as (t & Ht & HQ).
  exists t. split; [done|]. rewrite HQ. unfold cluster. by rewrite (io_shift _ _ _ _ HI), Z.shiftr_0_r.
Qed.

(** C12: the search for a free inode ends. It returns an inode that is free and
    not reserved, the first one from the group of the directory on, going round
    at the end; [ENOSPC] means that every inode that is not reserved was in use.
    Groups that are initialised on the way only lose bits of the bitmap. *)
Theorem new_inode_correct fuel sb n s bm dir :
  inodes_ok sb n s bm -> 0 < sb ~> s_inodes_per_group < 2 ^ 32 -> sb ~> s_inodes_count < 2 ^ 32 ->
  1 <= EXT2_FIRST_INODE sb <= sb ~> s_inodes_count -> 0 <= dir <= sb ~> s_inodes_count ->
  2 * sb ~> s_inodes_count + 2 < Z.of_nat fuel ->
  exists r s' bm', ext2_new_inode fuel dir s = Some (r, s') /\ inodes_ok sb n s' bm' /\ fewer bm' bm /\
    match r with
    | Ok i => EXT2_FIRST_INODE sb <= i <= sb ~> s_inodes_count /\ in_use bm' i = false /\
        used_before sb bm (search_start sb dir) i
    | Err e => e = ENOSPC /\ forall y, EXT2_FIRST_INODE sb <= y <= sb ~> s_inodes_count -> in_use bm y = true
    end.
Proof.
  intros HI Hipg Hcount Hfirst Hdir Hfuel. unfold ext2_new_inode. rewrite gets_run, (io_bitmap _ _ _ _ HI).
  cbv zeta. rewrite (io_super _ _ _ _ HI).
  set (ipg := sb ~> s_inodes_per_group) in *. set (count := sb ~> s_inodes_count) in *. set (first := EXT2_FIRST_INODE sb) in *.
  set (st0 := if 0 <? dir then _ else 0). set (start := if st0 <? first then first else st0).
  assert (start = search_start sb dir /\ first <= start <= count) as [Es Hs].
  { unfold start, st0, search_start. fold first ipg. destruct (Z.ltb_spec 0 dir).
    - rewrite (wrap_small 64) by lia. pose proof (Z.div_mod (dir - 1) ipg ltac:(lia)).
      pose proof (Z.mod_pos_bound (dir - 1) ipg ltac:(lia)).
      assert (0 <= (dir - 1) / ipg) by (apply Z.div_pos; lia). rewrite (wrap_small 32 ((dir - 1) / ipg)) by nia.
      rewrite wrap_small by nia. destruct (Z.ltb_spec ((dir - 1) / ipg * ipg + 1) first); nia.
    - destruct (Z.ltb_spec 0 first); lia. }
  destruct (Z.ltb_spec count start); [lia|].
  destruct (mloop_inv (new_inode_step fuel start) (search_inv sb n bm start) (search_measure sb start) (search_post sb n bm start))
    with (fuel := fuel) (a := start) (t := s) as (x & s' & Hx & HQ).
  { intros i t. apply new_inode_step_ok; done || lia. }
  { exists bm. split_and!; [done|apply fewer_refl|lia|lia|]. left. split; [lia|]. intros; lia. }
  { unfold search_measure. fold count. destruct (Z.leb_spec start start); lia. }
  rewrite (bind_run _ _ _ _ _ Hx). destruct x as [i|]; [|done]. destruct HQ as (bm' & HI' & Hfw & Hi & HQ).
  rewrite gets_run, (io_bitmap _ _ _ _ HI'). destruct (test_inode_ok sb n s' bm' i HI') as (t & -> & Ht); [lia|done|].
  rewrite (bind_run (lift (Some t)) _ s' _ s' eq_refl). rewrite Ht. eexists _, s', bm'. split; [reflexivity|].
  split_and!; [done..|]. rewrite <- Es. destruct (in_use bm' i) eqn:Eu.
  - destruct HQ as [[? _]|[-> HQ]]; [done|]. done.
  - split_and!; [lia..|done|]. destruct HQ as [[_ ?]|[-> HQ]]; [done|]. left. split; [lia|]. intros; lia.
Qed.
End inodes.

(** Sixteen inodes, of which the first eleven are in use. *)
Definition demo_inodes : ext2_bitmap := Bitmap32 (mk_b32 EXT2_BMAP_MAGIC_INODE 1 16 16 [0xff; 0x07; 0; 0]).
Definition demo_inode_state : st (D := ramdisk) := set_fs demo_state (set_inode_bitmap demo_fs (Some demo_inodes)).

Lemma new_inode_correct_witness :
  exists r s', ext2_new_inode 40 2 demo_inode_state = Some (r, s') /\ r = Ok 12.
Proof.
  destruct (new_inode_correct 40 demo_super 2 demo_inode_state demo_inodes 2) as (r & s' & bm' & H1 & _).
  - split; try reflexivity; [destruct demo_fs_ok; split; assumption | left; reflexivity |].
    split; [repeat constructor; lia|..]; vm_compute; intuition discriminate.
  - vm_compute. intuition discriminate.
  - vm_compute. reflexivity.
  - vm_compute. intuition discriminate.
  - vm_compute. intuition discriminate.
  - vm_compute. reflexivity.
  - exists r, s'. split; [exact H1|]. apply (f_equal (option_map fst)) in H1. vm_compute in H1. congruence.
Defined.

End Ext2Choose.
