(* ===== verification/Ext2Inode.v ===== *)
(** * Inodes and block maps of the ext2 driver (drivers/fs/ext2/util.c, bmap.c,
      checksum.c)

    Module [Ext2Inode]: the cache of inodes, reading and writing the inodes of a
    filesystem with their checksums, the size and block counts kept in an inode,
    and the map from the blocks of a file to blocks of the device through direct
    and indirect blocks. *)

From S2P Require Import Prelude CBits Hash HashMap CString Ext2Layout Ext2Bitmap Ext2Fs Ext2Alloc.

Module Ext2Inode.
Import CBits Hash HashMap CString Ext2Layout Ext2Bitmap Ext2Fs Ext2Alloc.

Abbreviation EXT4_HUGE_FILE_FL := 0x40000.
Abbreviation EXT4_EXTENTS_FL := 0x80000.
Abbreviation EXT4_INLINE_DATA_FL := 0x10000000.
Abbreviation EXT4_INODE_CSUM_HI_EXTRA_END := 4.
Abbreviation EXT2_NDIR_BLOCKS := 12.
Abbreviation EXT2_IND_BLOCK := 12.
Abbreviation EXT2_DIND_BLOCK := 13.
Abbreviation EXT2_TIND_BLOCK := 14.
Abbreviation BMAP_ALLOC := 1.
Abbreviation BMAP_SET := 2.
Abbreviation BMAP_ZERO := 8.

(** [sizeof (struct ext2_inode)] *)
Abbreviation inode_struct_size := 128.

Section driver.
Context {D : Type} `{BlockDevice D}.
Notation st := (st (D := D)).

(** ** The cache of inodes

    [fresh size] is the address and the contents of what the allocator returns. *)
Context (fresh : Z -> Z * list Z).

Definition ext2_flush_inode_cache (c : inode_cache) : inode_cache :=
  mk_icache (ic_buffer c) 0 (cache_last c) (map (fun e => (0, snd e)) (cache c)).

(** Memory for [n] slots: [None] when all of it was allocated, otherwise how many
    slots come after the one that failed. *)
Fixpoint alloc_slots (n : nat) : M st (option nat) :=
  match n with
  | O => mret None
  | S n => ok ← alloc; if ok : bool then alloc_slots n else mret (Some n)
  end.

(** When an allocation fails [ext2_free_inode_cache] reads the members that are
    not set yet and frees the pointers of all slots; only when the last slot
    fails is everything set that it uses. *)
Definition ext2_create_inode_cache (cache_size : nat) : M st (res unit) :=
  f ← gets fs;
  if icache f then mret (Ok tt) else
  ok ← alloc;
  if negb ok then mret (Err ENOMEM) else
  ok ← alloc;
  if negb ok then fault else
  ok ← alloc;
  if negb ok then fault else
  failed ← alloc_slots cache_size;
  match failed with
  | Some O => mret (Err ENOMEM)
  | Some _ => fault
  | None =>
      let slots := replicate cache_size (0, (fresh (EXT2_INODE_SIZE (super f))).2) in
      modify_fs (fun f => set_icache f (Some (ext2_flush_inode_cache
        (mk_icache (fresh (blksize f)).2 0 (-1) slots))));;
      mret (Ok tt)
  end.

Definition get_cache : M st inode_cache := f ← gets fs; lift (icache f).
Definition set_cache (c : inode_cache) : M st unit := modify_fs (fun f => set_icache f (Some c)).

(** The first slot that holds an inode. *)
Fixpoint find_slot (ino : Z) (l : list (Z * list Z)) : option nat :=
  match l with
  | [] => None
  | (i, _) :: l => if i =? ino then Some O else S <$> find_slot ino l
  end.

(** ** Checksums *)

Definition has_checksum_hi (f : ext2_fs) (inode : list Z) : bool :=
  (EXT2_OLD_INODE_SIZE <? EXT2_INODE_SIZE (super f)) && (EXT4_INODE_CSUM_HI_EXTRA_END <=? inode ~> i_extra_isize).

(** The inode with its checksum fields set to zero. *)
Definition without_checksum (inode : list Z) (has_hi : bool) : list Z :=
  let inode := setf inode l_i_checksum_lo 0 in
  if has_hi then setf inode i_checksum_hi 0 else inode.

Definition ext2_inode_checksum (ino : Z) (inode : list Z) (has_hi : bool) : M st Z :=
  f ← gets fs;
  let zeroed := without_checksum inode has_hi in
  crc ← crc32_st (checksum_seed f) (le_bytes 8 ino) 8;
  crc ← crc32_st crc (le_bytes 4 (zeroed ~> i_generation)) 4;
  crc32_st crc zeroed (EXT2_INODE_SIZE (super f)).

Definition ext2_inode_checksum_valid (ino : Z) (inode : list Z) : M st bool :=
  f ← gets fs;
  if negb (ro_compat (super f) EXT4_FT_RO_COMPAT_METADATA_CSUM) then mret true else
  let has_hi := has_checksum_hi f inode in
  crc ← ext2_inode_checksum ino inode has_hi;
  let lo := inode ~> l_i_checksum_lo in
  let '(provided, crc) := if has_hi then (Z.lor lo (Z.shiftl (inode ~> i_checksum_hi) 16), crc)
                          else (lo, Z.land crc 0xffff) in
  if provided =? crc then mret true else
  b ← lift (slice inode 0 inode_struct_size);
  mret (forallb (fun x => x =? 0) b).

Definition ext2_inode_checksum_update (ino : Z) (inode : list Z) : M st (list Z) :=
  f ← gets fs;
  if negb (ro_compat (super f) EXT4_FT_RO_COMPAT_METADATA_CSUM) then mret inode else
  let has_hi := has_checksum_hi f inode in
  crc ← ext2_inode_checksum ino inode has_hi;
  let inode := setf inode l_i_checksum_lo (Z.land crc 0xffff) in
  mret (if has_hi then setf inode i_checksum_hi (Z.shiftr crc 16) else inode).

(** ** Reading and writing inodes *)

(** The block of an inode and the offset in it. *)
Definition inode_place (ino : Z) : M st (res (Z * Z)) :=
  f ← gets fs;
  let sb := super f in
  let per := sb ~> s_inodes_per_group in
  if per =? 0 then fault else
  let offset := u64 (u64 (ino - 1) mod per * EXT2_INODE_SIZE sb) in
  let block := Z.shiftr offset (EXT2_BLOCK_SIZE_BITS sb) in
  blockno ← ext2_inode_table_loc (u32 (u64 (ino - 1) / per));
  if (blockno =? 0) || (blockno <? sb ~> s_first_data_block) ||
     (u64 (ext2_blocks_count sb) <=? u64 (blockno + inode_blocks_per_group f - 1)) then mret (Err EUCLEAN) else
  mret (Ok (u64 (blockno + block), Z.land offset (EXT2_BLOCK_SIZE sb - 1))).

(** The block is read into the buffer of the cache unless it is there. *)
Definition cached_block (blockno : Z) : M st (res unit) :=
  c ← get_cache;
  if blockno =? ic_block c then mret (Ok tt) else
  b ←? ext2_read_blocks blockno 1;
  set_cache (mk_icache b blockno (cache_last c) (cache c));; mret (Ok tt).

(** [clen] of the two loops. *)
Definition chunk (f : ext2_fs) (offset len : Z) : Z := if blksize f <? offset + len then blksize f - offset else len.

(** [while (len)] of [ext2_read_inode]: [ptr] bytes are in the slot. *)
Definition read_inode_step (slot : Z) (a : Z * Z * Z * Z) : M st (ctl (Z * Z * Z * Z) errno) :=
  let '(offset, len, ptr, blockno) := a in
  if len =? 0 then mret (Break a) else
  f ← gets fs;
  let clen := chunk f offset len in
  r ← cached_block blockno;
  match r with
  | Err e => mret (Ret e)
  | Ok _ =>
      c ← get_cache;
      e ← lift ((cache c).[slot]);
      new ← lift (memcpy_buf e.2 ptr (ic_buffer c) (u32 offset) clen);
      slots ← lift ((cache c).[slot <- (e.1, new)]);
      set_cache (mk_icache (ic_buffer c) (ic_block c) (cache_last c) slots);;
      mret (Cont (0, len - clen, ptr + clen, u64 (blockno + 1)))
  end.

(** The inode is returned as far as [struct ext2_inode] goes. *)
Definition inode_prefix (f : ext2_fs) (bytes : list Z) : option (list Z) :=
  slice bytes 0 (Z.min inode_struct_size (EXT2_INODE_SIZE (super f))).

(** The inode is copied from its place to a slot of the cache, which gets the
    number of the inode when the checksum is right. *)
Definition fetch_inode (f : ext2_fs) (ino slot blockno offset : Z) : M st (res (list Z)) :=
  let len := EXT2_INODE_SIZE (super f) in
  r ← mloop (S (Z.to_nat len)) (read_inode_step slot) (offset, len, 0, blockno);
  match r with
  | inr e => mret (Err e)
  | inl _ =>
      c ← get_cache;
      e ← lift ((cache c).[slot]);
      let bytes := e.2 in
      valid ← ext2_inode_checksum_valid ino bytes;
      (if valid : bool then
         slots ← lift ((cache c).[slot <- (ino, bytes)]);
         set_cache (mk_icache (ic_buffer c) (ic_block c) slot slots)
       else mret tt);;
      b ← lift (inode_prefix f bytes);
      mret (if valid : bool then Ok b else Err EUCLEAN)
  end.

Definition ext2_read_inode (ino : Z) : M st (res (list Z)) :=
  f ← gets fs;
  let sb := super f in
  if (ino =? 0) || (sb ~> s_inodes_count <? ino) then mret (Err EINVAL) else
  ext2_create_inode_cache 4 ;?
  c ← get_cache;
  match find_slot ino (cache c) with
  | Some i => e ← lift (cache c !! i); b ← lift (inode_prefix f e.2); mret (Ok b)
  | None =>
      let per := sb ~> s_inodes_per_group in
      if per =? 0 then fault else
      if group_desc_count f <? u32 (u64 (ino - 1) / per) then mret (Err EINVAL) else
      place ←? inode_place ino;
      let '(blockno, offset) := place in
      if zlen (cache c) =? 0 then fault else
      let slot := u32 (cache_last c + 1) mod zlen (cache c) in
      fetch_inode f ino slot blockno offset
  end.

(** [while (len)] of [ext2_update_inode] *)
Definition write_inode_step (winode : list Z) (a : Z * Z * Z * Z) : M st (ctl (Z * Z * Z * Z) errno) :=
  let '(offset, len, ptr, blockno) := a in
  if len =? 0 then mret (Break a) else
  f ← gets fs;
  let clen := chunk f offset len in
  r ← cached_block blockno;
  match r with
  | Err e => mret (Ret e)
  | Ok _ =>
      c ← get_cache;
      b ← lift (memcpy_buf (ic_buffer c) (u32 offset) winode ptr clen);
      set_cache (mk_icache b (ic_block c) (cache_last c) (cache c));;
      w ← ext2_write_blocks b blockno 1;
      mret (match w with Err e => Ret e | Ok _ => Cont (0, len - clen, ptr + clen, u64 (blockno + 1)) end)
  end.

(** The slot of the inode is overwritten when the cache has one. *)
Definition update_cached (ino : Z) (data : list Z) : M st (res unit) :=
  f ← gets fs;
  match icache f with
  | None => ext2_create_inode_cache 4
  | Some c =>
      match find_slot ino (cache c) with
      | None => mret (Ok tt)
      | Some i =>
          e ← lift (cache c !! i);
          new ← lift (blit e.2 0 data);
          set_cache (mk_icache (ic_buffer c) (ic_block c) (cache_last c) (<[i := (ino, new)]> (cache c)));;
          mret (Ok tt)
      end
  end.

Definition ext2_update_inode (ino : Z) (inode : list Z) (bufsize : Z) : M st (res unit) :=
  f ← gets fs;
  let len := EXT2_INODE_SIZE (super f) in
  if truthy (Z.land (mflags f) MS_RDONLY) then mret (Err EROFS) else
  ok ← alloc;
  if negb ok then mret (Err ENOMEM) else
  let winode := replicate (Z.to_nat len) 0 in
  winode ←? (if bufsize <? len then b ←? ext2_read_inode ino; w ← lift (blit winode 0 b); mret (Ok w)
             else mret (Ok winode));
  data ← lift (slice inode 0 (Z.min bufsize len));
  update_cached ino data ;?
  winode ← lift (blit winode 0 data);
  winode ← ext2_inode_checksum_update ino winode;
  place ←? inode_place ino;
  let '(blockno, offset) := place in
  r ← mloop (S (Z.to_nat len)) (write_inode_step winode) (offset, len, 0, blockno);
  match r with
  | inr e => mret (Err e)
  | inl _ => add_flags EXT2_FLAG_CHANGED;; mret (Ok tt)
  end.

(** ** The size and the number of blocks of an inode *)

Abbreviation EXT2_FT_RO_COMPAT_LARGE_FILE := 0x2.
Abbreviation EXT4_FT_INCOMPAT_LARGEDIR := 0x4000.

(** [S_ISREG], [S_ISDIR] and [S_ISLNK] *)
Definition file_type (inode : list Z) : Z := Z.land (inode ~> i_mode) 0xf000.
Definition is_reg (inode : list Z) : bool := file_type inode =? 0x8000.
Definition is_dir (inode : list Z) : bool := file_type inode =? 0x4000.
Definition is_lnk (inode : list Z) : bool := file_type inode =? 0xa000.

Definition ext2_is_inline_symlink (inode : list Z) : bool := is_lnk inode && (EXT2_I_SIZE inode <? f_len i_block).

(** The feature that files of 2 GiB and more need is set in the superblock. *)
Definition set_feature (fl : field) (bit : Z) : M st unit :=
  f ← gets fs;
  if truthy (Z.land (super f ~> fl) bit) then mret tt else
  modify_super (fun s => setf s fl (Z.lor (s ~> fl) bit));;
  modify_super (fun s => if s ~> s_rev_level =? EXT2_OLD_REV then ext2_update_super_revision s else s);;
  add_flags (Z.lor EXT2_FLAG_DIRTY EXT2_FLAG_CHANGED).

Definition ext2_inode_set_size (inode : list Z) (size : Z) : M st (res (list Z)) :=
  if size <? 0 then mret (Err EINVAL) else
  (if ext2_needs_large_file size then
     if is_reg inode then set_feature s_feature_ro_compat EXT2_FT_RO_COMPAT_LARGE_FILE;; mret (Ok tt)
     else if is_dir inode then set_feature s_feature_incompat EXT4_FT_INCOMPAT_LARGEDIR;; mret (Ok tt)
     else mret (Err EFBIG)
   else mret (Ok tt)) ;?
  mret (Ok (setf (setf inode i_size (Z.land size 0xffffffff)) i_size_high (Z.shiftr size 32))).

Definition huge (f : ext2_fs) : bool := ro_compat (super f) EXT4_FT_RO_COMPAT_HUGE_FILE.

(** [i_blocks] with its high half, and a number of blocks in its unit. *)
Definition block_count (f : ext2_fs) (inode : list Z) : Z :=
  s64 (inode ~> i_blocks + (if huge f then Z.shiftl (inode ~> l_i_blocks_hi) 32 else 0)).
Definition in_units (f : ext2_fs) (inode : list Z) (nblocks : Z) : Z :=
  let n := if negb (huge f) || negb (truthy (Z.land (inode ~> i_flags) EXT4_HUGE_FILE_FL))
           then u64 (nblocks * (blksize f / 512)) else nblocks in
  u64 (n * EXT2_CLUSTER_RATIO f).

Definition ext2_iblk_add_blocks (f : ext2_fs) (inode : list Z) (nblocks : Z) : res (list Z) :=
  let b := s64 (block_count f inode + in_units f inode nblocks) in
  if huge f then Ok (setf (setf inode l_i_blocks_hi (Z.shiftr b 32)) i_blocks (Z.land b 0xffffffff))
  else if 0xffffffff <? b then Err EOVERFLOW
  else Ok (setf inode i_blocks (Z.land b 0xffffffff)).

Definition ext2_iblk_sub_blocks (f : ext2_fs) (inode : list Z) (nblocks : Z) : res (list Z) :=
  let b := block_count f inode in
  let n := in_units f inode nblocks in
  if u64 b <? n then Err EOVERFLOW else
  let b := s64 (b - n) in
  let inode := if huge f then setf inode l_i_blocks_hi (Z.shiftr b 32) else inode in
  Ok (setf inode i_blocks (Z.land b 0xffffffff)).

(** The low half is set even when the count is too large. *)
Definition ext2_iblk_set (f : ext2_fs) (inode : list Z) (nblocks : Z) : res unit * list Z :=
  let n := in_units f inode nblocks in
  let inode := setf inode i_blocks (Z.land n 0xffffffff) in
  if huge f then (Ok tt, setf inode l_i_blocks_hi (Z.shiftr n 32))
  else if truthy (Z.shiftr n 32) then (Err EOVERFLOW, inode)
  else (Ok tt, inode).

Definition ext2_file_block_offset_too_big (f : ext2_fs) (inode : list Z) (offset : Z) : bool :=
  if 2 ^ 32 - 1 <=? offset then true
  else if truthy (Z.land (inode ~> i_flags) EXT4_EXTENTS_FL) then false
  else
    let n := Z.shiftr (blksize f) 2 in
    u64 (n + u64 (n * n) + u64 (n * n * n) + EXT2_NDIR_BLOCKS) <=? offset.

(** ** The map of blocks

    The functions of extent.c for files that are made of extents are arguments:
    where the next block of such a file should go, and the whole of the map. *)
Context (extent_goal : list Z -> Z -> M st (option Z)).
Context (extent_bmap : Z -> list Z -> Z -> Z -> Z -> M st (res Z * list Z * Z)).

(** [inode->i_block[n]] *)
Definition i_block_at (n : Z) : field := F (f_off i_block + 4 * n) 4.

Definition ext2_find_inode_goal (ino : Z) (inode : list Z) (block : Z) : M st Z :=
  f ← gets fs;
  let noblocks :=
    let log_flex := super f ~> s_log_groups_per_flex in
    let group := ext2_group_of_inode f ino in
    let group := if truthy log_flex then Z.land group (Z.lnot (Z.shiftl 1 log_flex - 1)) else group in
    ext2_group_first_block f group in
  if ext2_is_inline_symlink inode || truthy (Z.land (inode ~> i_flags) EXT4_INLINE_DATA_FL) then mret noblocks
  else if truthy (Z.land (inode ~> i_flags) EXT4_EXTENTS_FL) then
    g ← extent_goal inode block; mret (default noblocks g)
  else if truthy (inode ~> i_block_at 0) then mret (inode ~> i_block_at 0)
  else mret noblocks.

Context (fuel : nat) (junk : res unit).

(** Entry [n] of a block of block numbers. *)
Definition load_entry (buf : list Z) (n : Z) : option Z := l ← slice buf (4 * n) 4; Some (le_val l).
Definition store_entry (buf : list Z) (n v : Z) : option (list Z) := blit buf (4 * n) (le_bytes 4 v).

(** The new block number is replaced by 64, and the count that is increased is
    the pointer to it. *)
Definition block_ind_bmap (flags ind blockno result : Z) : M st (res Z) :=
  if ind =? 0 then
    if truthy (Z.land flags BMAP_SET) then mret (Err EINVAL) else mret (Ok 0)
  else
    buf ←? ext2_read_blocks ind 1;
    if truthy (Z.land flags BMAP_SET) then
      buf ← lift (store_entry buf blockno result);
      ext2_write_blocks buf ind 1 ;? mret (Ok result)
    else
      b ← lift (load_entry buf blockno);
      if negb (truthy b) && truthy (Z.land flags BMAP_ALLOC) then
        goal ← (if truthy blockno then lift (load_entry buf (blockno - 1)) else mret ind);
        _ ←? ext2_alloc_block fresh fuel junk goal true;
        let b := 64 in
        buf ← lift (store_entry buf blockno b);
        ext2_write_blocks buf ind 1 ;? mret (Ok b)
      else mret (Ok b).

Definition addr_per_block (f : ext2_fs) : Z := u32 (Z.shiftr (blksize f) 2).

Definition block_dind_bmap (flags dind blockno result : Z) : M st (res Z) :=
  f ← gets fs;
  if addr_per_block f =? 0 then fault else
  b ←? block_ind_bmap (Z.land flags (Z.lnot BMAP_SET)) dind (blockno / addr_per_block f) 0;
  block_ind_bmap flags b (blockno mod addr_per_block f) result.

Definition block_tind_bmap (flags tind blockno result : Z) : M st (res Z) :=
  f ← gets fs;
  if addr_per_block f =? 0 then fault else
  b ←? block_dind_bmap (Z.land flags (Z.lnot BMAP_SET)) tind (blockno / addr_per_block f) 0;
  block_ind_bmap flags b (blockno mod addr_per_block f) result.

(** What [ext2_bmap] has changed so far. *)
Record bmap_state := mk_bmap { b_inode : list Z; b_alloc : Z; b_dirty : bool; b_phys : Z }.

(** A block of the file that the inode refers to directly. *)
Definition direct_bmap (ino : Z) (flags block : Z) (b : bmap_state) : M st (res unit * bmap_state) :=
  let inode := b_inode b in
  if truthy (Z.land flags BMAP_SET) then
    mret (Ok tt, mk_bmap (setf inode (i_block_at block) (b_phys b)) (b_alloc b) true (b_phys b))
  else
    let phys := inode ~> i_block_at block in
    goal ← (if truthy block then mret (inode ~> i_block_at (block - 1)) else g ← ext2_find_inode_goal ino inode block; mret (u32 g));
    if negb (truthy phys) && truthy (Z.land flags BMAP_ALLOC) then
      r ← ext2_alloc_block fresh fuel junk goal true;
      match r with
      | Err e => mret (Err e, mk_bmap inode (b_alloc b) (b_dirty b) phys)
      | Ok n =>
          mret (Ok tt, mk_bmap (setf inode (i_block_at block) (u32 n)) (b_alloc b + 1) (b_dirty b) (u32 n))
      end
    else mret (Ok tt, mk_bmap inode (b_alloc b) (b_dirty b) phys).

(** A block reached through entry [slot] of the inode by [walk]: the indirect
    block is allocated when there is none. *)
Definition indirect_bmap (walk : Z -> Z -> Z -> Z -> M st (res Z)) (slot flags block : Z) (b : bmap_state) :
    M st (res unit * bmap_state) :=
  let inode := b_inode b in
  let go (b : bmap_state) (ind : Z) : M st (res unit * bmap_state) :=
    r ← walk flags ind block (u32 (b_phys b));
    mret (match r with
          | Ok p => (Ok tt, mk_bmap (b_inode b) (b_alloc b) (b_dirty b) p)
          | Err e => (Err e, b)
          end) in
  let ind := inode ~> i_block_at slot in
  if truthy ind then go b ind
  else if negb (truthy (Z.land flags BMAP_ALLOC)) then
    mret (if truthy (Z.land flags BMAP_SET) then Err EINVAL else Ok tt, b)
  else
    r ← ext2_alloc_block fresh fuel junk (inode ~> i_block_at (slot - 1)) true;
    match r with
    | Err e => mret (Err e, b)
    | Ok n => go (mk_bmap (setf inode (i_block_at slot) (u32 n)) (b_alloc b + 1) (b_dirty b) (b_phys b)) (u32 n)
    end.

(** Which of the four kinds a block of the file is. *)
Definition map_bmap (ino : Z) (flags block : Z) (b : bmap_state) : M st (res unit * bmap_state) :=
  f ← gets fs;
  let n := Z.shiftr (blksize f) 2 in
  if block <? EXT2_NDIR_BLOCKS then direct_bmap ino flags block b else
  let block := block - EXT2_NDIR_BLOCKS in
  if block <? n then indirect_bmap block_ind_bmap EXT2_IND_BLOCK flags block b else
  let block := block - n in
  if block <? u64 (n * n) then indirect_bmap block_dind_bmap EXT2_DIND_BLOCK flags block b else
  indirect_bmap block_tind_bmap EXT2_TIND_BLOCK flags (block - u64 (n * n)) b.

(** [inode] is the inode that is passed, or [None] for NULL. The result is the
    status, the block of the device, and the inode as it is left. *)
Definition ext2_bmap (ino : Z) (inode : option (list Z)) (own_buffer : bool) (flags block phys : Z) :
    M st (res unit * Z * list Z) :=
  let phys := if truthy (Z.land flags BMAP_SET) then phys else 0 in
  r ← (match inode with Some i => mret (Ok i) | None => ext2_read_inode ino end);
  match r with
  | Err e => mret (Err e, phys, [])
  | Ok inode =>
      f ← gets fs;
      if ext2_file_block_offset_too_big f inode block then mret (Err EFBIG, phys, inode) else
      if truthy (Z.land (inode ~> i_flags) EXT4_INLINE_DATA_FL) then mret (Err EUCLEAN, phys, inode) else
      ok ← (if own_buffer then mret true else alloc);
      if negb ok then mret (Err ENOMEM, phys, inode) else
      rb ← (if truthy (Z.land (inode ~> i_flags) EXT4_EXTENTS_FL) then
              x ← extent_bmap ino inode flags block phys;
              let '(r, i, n) := x in
              mret (match r with Ok p => (Ok tt, mk_bmap i n false p) | Err e => (Err e, mk_bmap i n false phys) end)
            else map_bmap ino flags block (mk_bmap inode 0 false phys));
      let '(r, b) := rb in
      r ← (match r with
           | Ok _ => if truthy (b_phys b) && truthy (Z.land flags BMAP_ZERO) then ext2_zero_blocks fuel (b_phys b) 1 else mret r
           | Err _ => mret r
           end);
      match r with
      | Ok _ =>
          if truthy (b_alloc b) || b_dirty b then
            f ← gets fs;
            let i := match ext2_iblk_add_blocks f (b_inode b) (u64 (b_alloc b)) with Ok i => i | Err _ => b_inode b end in
            u ← ext2_update_inode ino i inode_struct_size;
            mret (u, b_phys b, i)
          else mret (Ok tt, b_phys b, b_inode b)
      | Err e => mret (Err e, b_phys b, b_inode b)
      end
  end.
End driver.

(** ** A filesystem whose inodes can be used *)

Section inodes.
Context {D : Type} `{DeviceLaws D} (fresh : Z -> Z * list Z).
Implicit Types s : st (D := D).

Abbreviation isize f := (EXT2_INODE_SIZE (super f)).
Abbreviation per_group f := (super f ~> s_inodes_per_group).

(** The bytes of a block of the device. *)
Definition block_bytes (d : D) (bs blk : Z) : list Z := map (contents d) (seqZ (blk * bs) bs).

(** Inodes do not cross the ends of blocks, and the tables of inodes fit where
    the filesystem has them. *)
Record geometry (f : ext2_fs) : Prop := {
  geo_ok : fs_ok f;
  geo_block : blksize f = EXT2_BLOCK_SIZE (super f) /\ 1024 <= blksize f <= 65536;
  geo_inode : 128 <= isize f <= blksize f /\ blksize f mod isize f = 0 /\ isize f mod 4 = 0;
  geo_per : 0 < per_group f;
  geo_table : 0 <= inode_blocks_per_group f < 2 ^ 32 /\
    per_group f * isize f <= inode_blocks_per_group f * blksize f;
  geo_total : 0 <= ext2_blocks_count (super f) /\ ext2_blocks_count (super f) * blksize f < 2 ^ 63
}.

(** The buffer of the cache is what the device has in its block. *)
Record cache_ok (f : ext2_fs) (d : D) (c : inode_cache) : Prop := {
  co_buffer : zlen (ic_buffer c) = blksize f /\ bytes_ok (ic_buffer c);
  co_coherent : ic_block c <> 0 -> ic_buffer c = block_bytes d (blksize f) (ic_block c);
  co_slots : 0 < zlen (cache c) < 2 ^ 31;
  co_last : -1 <= cache_last c < zlen (cache c);
  co_slot : Forall (fun e => zlen e.2 = isize f /\ bytes_ok e.2) (cache c)
}.

Record inodes_ok s : Prop := {
  io_geometry : geometry (fs s);
  io_tables : tables_ok (tables s);
  io_bytes : forall x, 0 <= contents (dev s) x < 256;
  io_cache : exists c, icache (fs s) = Some c /\ cache_ok (fs s) (dev s) c
}.

(** Only the cache, the tables of [crc32] and the answers of the allocator may
    differ, and the device has the same contents. *)
Definition reads s s' : Prop :=
  fs s' = set_icache (fs s) (icache (fs s')) /\ (forall x, contents (dev s') x = contents (dev s) x).

Lemma reads_refl s : reads s s.
Proof. split; [by destruct s as [[]] | done]. Qed.

Lemma reads_trans s1 s2 s3 : reads s1 s2 -> reads s2 s3 -> reads s1 s3.
Proof. intros [E1 C1] [E2 C2]. split; [rewrite E2, E1; done | intros x; by rewrite C2, C1]. Qed.

Lemma geometry_icache f c : geometry f -> geometry (set_icache f c).
Proof. intros [[] ? ? ? ? ?]. by split. Qed.

Lemma reads_ok s s' c : inodes_ok s -> reads s s' -> tables_ok (tables s') ->
  icache (fs s') = Some c -> cache_ok (fs s') (dev s') c -> inodes_ok s'.
Proof.
  intros [G T B _] [E C] T' Ec Hc. split; [|done| |by exists c].
  - rewrite E. by apply geometry_icache.
  - intros x. rewrite C. apply B.
Qed.

Lemma block_bytes_same (d d' : D) bs blk :
  (forall x, contents d' x = contents d x) -> block_bytes d' bs blk = block_bytes d bs blk.
Proof. intros Hc. unfold block_bytes. apply map_ext. done. Qed.

Lemma zlen_block_bytes (d : D) bs blk : 0 <= bs -> zlen (block_bytes d bs blk) = bs.
Proof. intros. unfold block_bytes, zlen. rewrite length_map, length_seqZ. lia. Qed.

Lemma block_bytes_ok (d : D) bs blk : (forall x, 0 <= contents d x < 256) -> bytes_ok (block_bytes d bs blk).
Proof.
  intros Hb. apply Forall_forall. intros x Hx. unfold block_bytes in Hx. apply list_elem_of_In, in_map_iff in Hx.
  destruct Hx as (y & <- & _). apply Hb.
Qed.

(** *** Where an inode is *)

Definition group_of (f : ext2_fs) (ino : Z) : Z := (ino - 1) / per_group f.
(** The number that a group descriptor gives for the table of inodes. *)
Definition table_of (f : ext2_fs) (ino : Z) : Z :=
  split_num f 32 bg_inode_table bg_inode_table_hi (gdesc f (group_of f ino)).
(** The inode exists and its group has a descriptor. *)
Definition valid_ino (f : ext2_fs) (ino : Z) : Prop :=
  1 <= ino <= super f ~> s_inodes_count /\ group_of f ino < group_desc_count f /\ table_of f ino < 2 ^ 62.

Definition table_valid (f : ext2_fs) (ino : Z) : bool :=
  negb ((table_of f ino =? 0) || (table_of f ino <? super f ~> s_first_data_block) ||
        (ext2_blocks_count (super f) <=? u64 (table_of f ino + inode_blocks_per_group f - 1))).

(** Its first byte on the device. *)
Definition inode_addr (f : ext2_fs) (ino : Z) : Z :=
  table_of f ino * blksize f + (ino - 1) mod per_group f * isize f.
Definition inode_block (f : ext2_fs) (ino : Z) : Z := inode_addr f ino / blksize f.
Definition inode_offset (f : ext2_fs) (ino : Z) : Z := inode_addr f ino mod blksize f.

Lemma multiple_fits a b i : 0 < i -> a mod i = 0 -> b mod i = 0 -> a < b -> a + i <= b.
Proof.
  intros Hi Ha Hb Hl. pose proof (Z.div_mod a i ltac:(lia)) as Ea. pose proof (Z.div_mod b i ltac:(lia)) as Eb.
  rewrite Ha, Z.add_0_r in Ea. rewrite Hb, Z.add_0_r in Eb. assert (a / i < b / i) by nia. nia.
Qed.

Lemma block_size_pow f : geometry f -> blksize f = 2 ^ EXT2_BLOCK_SIZE_BITS (super f) /\ 0 <= EXT2_BLOCK_SIZE_BITS (super f).
Proof.
  intros [ [Hl Hb] [-> _] _ _ _ _].
  pose proof (getf_range (super f) s_log_block_size Hb ltac:(unfold f_in; rewrite Hl; cbn; lia)).
  unfold EXT2_BLOCK_SIZE, EXT2_BLOCK_SIZE_BITS. rewrite Z.shiftl_mul_pow2, Z.pow_add_r by lia. split; [|lia].
  change (2 ^ 10) with 1024. lia.
Qed.

Lemma getf_nonneg l fl : bytes_ok l -> 0 <= l ~> fl.
Proof. intros Hl. unfold getf. apply le_val_range. by apply Forall_take, Forall_drop. Qed.

Lemma table_nonneg f ino : geometry f -> 0 <= table_of f ino.
Proof.
  intros [Hok _ _ _ _ _]. assert (Hb : bytes_ok (gdesc f (group_of f ino))) by apply desc_bytes_ok, Hok.
  unfold table_of, split_num. destruct (incompat _ _); [|by apply getf_nonneg].
  apply Z.lor_nonneg. split; [|apply Z.shiftl_nonneg]; by apply getf_nonneg.
Qed.

Record placed_at (f : ext2_fs) (blk off : Z) : Prop := {
  pa_block : 0 < blk /\ (blk + 1) * blksize f < 2 ^ 63;
  pa_off : 0 <= off /\ off + isize f <= blksize f
}.

Lemma inode_in_block f ino : geometry f -> valid_ino f ino -> table_valid f ino = true ->
  placed_at f (inode_block f ino) (inode_offset f ino) /\
  inode_block f ino = table_of f ino + ((ino - 1) mod per_group f * isize f) / blksize f /\
  inode_offset f ino = ((ino - 1) mod per_group f * isize f) mod blksize f.
Proof.
  intros Hg (Hino & _ & H62) Hv. pose proof (table_nonneg f ino Hg) as Ht0.
  destruct Hg as [Hok [_ Hb] [Hi [Hd _] ] Hp [Hn Ht] [Hc Hl] ].
  unfold inode_block, inode_offset, inode_addr, table_valid in *.
  set (o := (ino - 1) mod per_group f * isize f).
  assert (Ho : 0 <= o /\ o + isize f <= per_group f * isize f)
    by (unfold o; pose proof (Z.mod_pos_bound (ino - 1) (per_group f) Hp); nia).
  rewrite Z.div_add_l, (Z.add_comm _ o), Z.mod_add by lia.
  assert (Hin : 0 < table_of f ino /\ table_of f ino + inode_blocks_per_group f - 1 < ext2_blocks_count (super f)).
  { rewrite (wrap_small 64) in Hv; [lia|]. destruct (Z.eqb_spec (table_of f ino) 0); [done|]. lia. }
  assert (Hq : o / blksize f < inode_blocks_per_group f) by (apply Z.div_lt_upper_bound; lia).
  pose proof (Z.div_pos o (blksize f) ltac:(lia) ltac:(lia)).
  split_and!; [split | done | done]; [nia|].
  pose proof (Z.mod_pos_bound o (blksize f) ltac:(lia)). split; [lia|].
  apply multiple_fits; [lia | | done | lia].
  rewrite Z.mod_mod_divide by (apply Z.mod_divide; lia). unfold o. apply Z.mod_mul. lia.
Qed.

(** The descriptor of the group is read, and nothing changes. *)
Lemma inode_place_run s ino : geometry (fs s) -> valid_ino (fs s) ino ->
  inode_place ino s =
    Some (if table_valid (fs s) ino then Ok (inode_block (fs s) ino, inode_offset (fs s) ino) else Err EUCLEAN, s).
Proof.
  intros Hg Hv. pose proof (block_size_pow _ Hg) as [Hpow Hbits]. pose proof (table_nonneg _ ino Hg) as Ht0.
  pose proof Hg as [Hok [Hbs Hb] [Hi [Hd _] ] Hp [Hn Ht] [Hc Hl] ]. pose proof Hv as (Hino & Hgr & H62).
  pose proof (getf_range (super (fs s)) s_inodes_count (ok_sb_bytes _ Hok) ltac:(unfold f_in; rewrite (ok_sb_len _ Hok); cbn; lia)) as Hcnt.
  change (8 * f_len s_inodes_count) with 32 in Hcnt.
  unfold inode_place. rewrite gets_run. rewrite (proj2 (Z.eqb_neq _ 0)) by lia.
  rewrite (wrap_small 64 (ino - 1)) by lia. fold (group_of (fs s) ino).
  assert (Hgrp : 0 <= group_of (fs s) ino < 2 ^ 32).
  { unfold group_of. split; [apply Z.div_pos; lia|]. apply Z.div_lt_upper_bound; nia. }
  rewrite (wrap_small 32) by lia. unfold ext2_inode_table_loc.
  rewrite (bind_run _ _ _ _ _ (bg_split_ok (group_of (fs s) ino) s 32 bg_inode_table bg_inode_table_hi Hok ltac:(unfold group_in; lia) eq_refl eq_refl)).
  fold (table_of (fs s) ino). rewrite (wrap_small 64 (ext2_blocks_count _)) by nia.
  unfold table_valid. destruct (_ || _ || _) eqn:E; cbn [negb]; [done|].
  destruct (inode_in_block (fs s) ino Hg Hv) as (Hpl & -> & ->); [unfold table_valid; by rewrite E|].
  set (o := (ino - 1) mod per_group (fs s) * isize (fs s)) in *.
  assert (Ho : 0 <= o < 2 ^ 48).
  { unfold o. pose proof (Z.mod_pos_bound (ino - 1) _ Hp). split; [nia|].
    eapply Z.lt_le_trans with (per_group (fs s) * isize (fs s)); nia. }
  rewrite (wrap_small 64 o) by lia. rewrite Z.shiftr_div_pow2, <- Hpow by lia.
  rewrite <- Hbs. replace (blksize (fs s) - 1) with (Z.ones (EXT2_BLOCK_SIZE_BITS (super (fs s)))) by (rewrite Z.ones_equiv, Hpow; lia).
  rewrite Z.land_ones, <- Hpow by lia.
  rewrite wrap_small; [done|]. pose proof (Z.div_pos o (blksize (fs s)) ltac:(lia) ltac:(lia)).
  assert (o / blksize (fs s) <= o) by (apply Z.div_le_upper_bound; nia). lia.
Qed.

(** *** The buffer of the cache *)

Lemma get_cache_run {B} s c (k : inode_cache -> M (st (D := D)) B) :
  icache (fs s) = Some c -> (z ← get_cache; k z) s = k c s.
Proof. intros Hc. unfold get_cache, mbind, M_bind, gets, lift. by rewrite Hc. Qed.

Lemma read_block_run s blk : geometry (fs s) -> 0 < blk -> (blk + 1) * blksize (fs s) < 2 ^ 63 ->
  exists r d, ext2_read_blocks blk 1 s = Some (r, set_dev s d) /\ (forall x, contents d x = contents (dev s) x) /\
    (forall b, r = Ok b -> b = block_bytes (dev s) (blksize (fs s)) blk).
Proof.
  intros [_ [_ Hb] _ _ _ _] Hk Hl. unfold ext2_read_blocks.
  rewrite Z.mul_1_l, (wrap_small 64), (s64_small (blk * blksize (fs s))) by nia.
  destruct (dev_read _ _ _) as [r d] eqn:E. exists r, d. split; [done|].
  split; [by eapply dev_read_frame|]. intros b ->. eapply dev_read_ok; [| |exact E]; nia.
Qed.

Lemma cached_block_ok s c blk : inodes_ok s -> icache (fs s) = Some c -> 0 < blk -> (blk + 1) * blksize (fs s) < 2 ^ 63 ->
  exists r s' c', cached_block blk s = Some (r, s') /\ reads s s' /\ inodes_ok s' /\ tables s' = tables s /\
    icache (fs s') = Some c' /\ cache c' = cache c /\ cache_last c' = cache_last c /\
    (r = Ok tt -> ic_block c' = blk) /\ (ic_block c = blk -> r = Ok tt /\ s' = s).
Proof.
  intros Hok Hc Hk Hl. unfold cached_block. rewrite (get_cache_run s c) by done.
  destruct (Z.eqb_spec blk (ic_block c)) as [Heq|Hne].
  { exists (Ok tt), s, c. split_and!; try done. apply reads_refl. }
  destruct (read_block_run s blk (io_geometry _ Hok) Hk Hl) as (r & d & Hr & Hd & Hb).
  pose proof (io_cache _ Hok) as (c0 & Hc0 & Hco). rewrite Hc in Hc0. injection Hc0 as <-.
  destruct r as [b|e].
  - rewrite (andthen_ok _ _ _ _ _ Hr). specialize (Hb b eq_refl). subst b.
    eexists (Ok tt), _, _. split; [done|]. cbn.
    assert (Hre : reads s (set_fs (set_dev s d) (set_icache (fs s)
      (Some (mk_icache (block_bytes (dev s) (blksize (fs s)) blk) blk (cache_last c) (cache c)))))) by (by split).
    split; [exact Hre|]. split; [|by split_and!].
    eapply reads_ok; [exact Hok | exact Hre | apply Hok | done|]. destruct Hco. pose proof (io_geometry _ Hok) as [_ [_ ?] _ _ _ _].
    split; cbn; try done.
    + split; [apply zlen_block_bytes; lia | apply block_bytes_ok, Hok].
    + intros _. by rewrite (block_bytes_same _ _ _ _ Hd).
  - rewrite (andthen_err _ _ _ _ _ Hr). exists (Err e), (set_dev s d), c.
    assert (Hre : reads s (set_dev s d)) by (split; [by destruct s as [ [] ] | done]).
    split_and!; try done. eapply reads_ok; [exact Hok | exact Hre | apply Hok | done|].
    destruct Hco. split; try done. cbn. intros Hb0. rewrite (block_bytes_same _ _ _ _ Hd). auto.
Qed.

(** One round is enough for an inode that lies in one block. *)
Lemma chunk_whole f off : geometry f -> off + isize f <= blksize f -> chunk f off (isize f) = isize f.
Proof. intros _ Ho. unfold chunk. by destruct (Z.ltb_spec (blksize f) (off + isize f)); [lia|]. Qed.

Lemma slice_some (b : list Z) off n : 0 <= off -> 0 <= n -> off + n <= zlen b ->
  slice b off n = Some (take (Z.to_nat n) (drop (Z.to_nat off) b)).
Proof. intros. unfold slice. by replace ((0 <=? off) && (0 <=? n) && (off + n <=? zlen b)) with true by lia. Qed.

Lemma slice_bytes (b : list Z) off n l : slice b off n = Some l -> bytes_ok b -> bytes_ok l.
Proof. unfold slice. destruct (_ && _); [|done]. intros [= <-] Hb. by apply Forall_take, Forall_drop. Qed.

Lemma blit_whole (old new : list Z) : zlen new = zlen old -> blit old 0 new = Some new.
Proof.
  intros Hl. unfold blit. replace ((0 <=? 0) && (0 + zlen new <=? zlen old)) with true by lia.
  rewrite drop_ge, app_nil_r by (unfold zlen in *; lia). done.
Qed.

(** The bytes that the device has for the inode at an offset of a block. *)
Definition stored_inode (d : D) (f : ext2_fs) (blk off : Z) : list Z :=
  take (Z.to_nat (isize f)) (drop (Z.to_nat off) (block_bytes d (blksize f) blk)).

Lemma stored_inode_len (d : D) f blk off : geometry f -> placed_at f blk off -> zlen (stored_inode d f blk off) = isize f.
Proof.
  intros [_ [_ Hb] [Hi _] _ _ _] [_ Ho]. pose proof (zlen_block_bytes d (blksize f) blk ltac:(lia)).
  unfold stored_inode, zlen in *. rewrite length_take, length_drop. lia.
Qed.

Lemma cache_step_ok s c' : inodes_ok s -> cache_ok (fs s) (dev s) c' ->
  let s' := set_fs s (set_icache (fs s) (Some c')) in reads s s' /\ inodes_ok s'.
Proof.
  intros Hok Hc s'. assert (Hre : reads s s') by (by split). split; [exact Hre|].
  eapply reads_ok; [exact Hok | exact Hre | apply Hok | done|]. destruct Hc. by split.
Qed.

Lemma slot_stored (c : inode_cache) (f : ext2_fs) (d : D) slot e bytes :
  cache_ok f d c -> (cache c).[slot] = Some e -> zlen bytes = isize f -> bytes_ok bytes -> forall i,
  cache_ok f d (mk_icache (ic_buffer c) (ic_block c) (cache_last c) (<[Z.to_nat slot := (i, bytes)]> (cache c))).
Proof.
  intros [] He Hl Hb i. split; cbn; try done.
  - unfold zlen in *. by rewrite length_insert.
  - unfold zlen in *. by rewrite length_insert.
  - apply Forall_insert; [done|]. by split.
Qed.

Lemma lift_run {T A B} (o : option A) (k : A -> M T B) a (s : T) : o = Some a -> (z ← lift o; k z) s = k a s.
Proof. by intros ->. Qed.

(** The cached block, and the cache, after the block of an inode is in the buffer. *)
Lemma slot_of (c : inode_cache) (f : ext2_fs) (d : D) slot e :
  cache_ok f d c -> (cache c).[slot] = Some e -> zlen e.2 = isize f /\ bytes_ok e.2.
Proof.
  intros [] He. unfold zlookup in He. destruct (slot <? 0); [done|].
  by apply (Forall_lookup_1 _ _ _ _ co_slot0 He).
Qed.

Lemma read_step_run s c slot blk off :
  inodes_ok s -> icache (fs s) = Some c -> 0 <= slot < zlen (cache c) -> placed_at (fs s) blk off ->
  exists r s' c', read_inode_step slot (off, isize (fs s), 0, blk) s = Some (r, s') /\
    reads s s' /\ inodes_ok s' /\ tables s' = tables s /\ icache (fs s') = Some c' /\ cache_last c' = cache_last c /\
    (match r with
     | Ret _ => cache c' = cache c
     | Cont a => a = (0, 0, isize (fs s), u64 (blk + 1)) /\
         exists i, cache c' = <[Z.to_nat slot := (i, stored_inode (dev s) (fs s) blk off)]> (cache c)
     | Break _ => False
     end) /\
    (ic_block c = blk -> exists a, r = Cont a).
Proof.
  intros Hok Hc Hslot Hp. pose proof Hp as [ [Hb1 Hb2] [Ho1 Ho2] ].
  pose proof (io_geometry _ Hok) as Hg. pose proof Hg as [_ [_ Hbs] [Hi _] _ _ _].
  unfold read_inode_step. rewrite (proj2 (Z.eqb_neq (isize (fs s)) 0)) by lia.
  rewrite gets_run, chunk_whole by done.
  destruct (cached_block_ok s c blk Hok Hc Hb1 Hb2) as (r & s1 & c1 & E1 & R1 & Hok1 & T1 & Hc1 & Hs1 & Hl1 & Hr1 & Hq1).
  rewrite (bind_run _ _ _ _ _ E1). destruct r as [ []|e].
  2: { exists (Ret e), s1, c1. split_and!; try done. intros Heq. by destruct (Hq1 Heq). }
  specialize (Hr1 eq_refl). rewrite (get_cache_run s1 c1) by done.
  destruct (zlookup_lt_Some (cache c1) slot) as [e He]; [by rewrite Hs1|].
  pose proof (io_cache _ Hok1) as (c0 & Hc0 & Hco). rewrite Hc1 in Hc0. injection Hc0 as <-.
  assert (Hsz : blksize (fs s1) = blksize (fs s) /\ isize (fs s1) = isize (fs s)) by (by rewrite (proj1 R1)).
  assert (Hbuf : ic_buffer c1 = block_bytes (dev s) (blksize (fs s)) blk).
  { rewrite (co_coherent _ _ _ Hco) by lia. rewrite Hr1, (proj1 Hsz). apply block_bytes_same, R1. }
  assert (Hlen : zlen (stored_inode (dev s) (fs s) blk off) = isize (fs s)) by (by apply stored_inode_len).
  assert (Hm : memcpy_buf e.2 0 (ic_buffer c1) (u32 off) (isize (fs s)) = Some (stored_inode (dev s) (fs s) blk off)).
  { unfold memcpy_buf. rewrite (wrap_small 32), Hbuf by lia.
    rewrite slice_some by (rewrite ?zlen_block_bytes; lia). orun.
    apply blit_whole. destruct (slot_of _ _ _ _ _ Hco He) as [-> _]. by rewrite (proj2 Hsz). }
  rewrite (lift_run _ _ _ _ He), (lift_run _ _ _ _ Hm), (lift_run _ _ _ _ (zstore_lt (cache c1) slot _ ltac:(by rewrite Hs1))).
  destruct (cache_step_ok s1 (mk_icache (ic_buffer c1) (ic_block c1) (cache_last c1)
    (<[Z.to_nat slot := (e.1, stored_inode (dev s) (fs s) blk off)]> (cache c1))) Hok1) as [R2 Hok2].
  { eapply slot_stored; [done | exact He | by rewrite (proj2 Hsz)|].
    unfold stored_inode. apply Forall_take, Forall_drop, block_bytes_ok, Hok. }
  eexists _, _, _. split; [done|]. split; [by eapply reads_trans|]. split; [exact Hok2|].
  split; [done|]. split; [done|]. split; [done|]. split; [|by eexists].
  split; [by rewrite Z.sub_diag, Z.add_0_l|]. exists e.1. cbn. by rewrite Hs1.
Qed.

Lemma read_inode_loop s c slot blk off n :
  inodes_ok s -> icache (fs s) = Some c -> 0 <= slot < zlen (cache c) -> placed_at (fs s) blk off ->
  exists r s' c', mloop (S (S n)) (read_inode_step slot) (off, isize (fs s), 0, blk) s = Some (r, s') /\
    reads s s' /\ inodes_ok s' /\ tables s' = tables s /\ icache (fs s') = Some c' /\ cache_last c' = cache_last c /\
    (match r with
     | inr _ => cache c' = cache c
     | inl _ => exists i, cache c' = <[Z.to_nat slot := (i, stored_inode (dev s) (fs s) blk off)]> (cache c)
     end) /\
    (ic_block c = blk -> exists a, r = inl a).
Proof.
  intros Hok Hc Hslot Hp.
  destruct (read_step_run s c slot blk off Hok Hc Hslot Hp) as (r & s1 & c1 & E1 & R1 & Hok1 & T1 & Hc1 & Hl1 & Hr & Hq).
  cbn [mloop]. rewrite (bind_run _ _ _ _ _ E1). destruct r as [a|a|e]; [|done|].
  - destruct Hr as [-> Hr]. eexists (inl _), s1, c1. split; [done|]. split_and!; try done. intros _. by eexists.
  - exists (inr e), s1, c1. split_and!; try done. intros Heq. destruct (Hq Heq) as [? [=] ].
Qed.

(** *** Checksums *)

Definition inode_csum (f : ext2_fs) (ino : Z) (inode : list Z) (has_hi : bool) : Z :=
  let zeroed := without_checksum inode has_hi in
  crc32c_ref (crc32c_ref (crc32c_ref (checksum_seed f) (le_bytes 8 ino)) (le_bytes 4 (zeroed ~> i_generation))) zeroed.

Lemma lo_in inode : 128 <= zlen inode -> f_in inode l_i_checksum_lo.
Proof. intros. unfold f_in. cbn. lia. Qed.

Lemma hi_in f inode : zlen inode = isize f -> has_checksum_hi f inode = true -> 132 <= zlen inode -> f_in inode i_checksum_hi.
Proof. intros. unfold f_in. cbn. lia. Qed.

Lemma hi_fits f inode : geometry f -> zlen inode = isize f -> has_checksum_hi f inode = true -> 132 <= zlen inode.
Proof.
  intros [_ _ [_ [_ Hm] ] _ _ _] Hl Hh. unfold has_checksum_hi in Hh. apply andb_true_iff in Hh as [Hh _].
  apply Z.ltb_lt in Hh. rewrite Hl. divlia.
Qed.

Lemma without_checksum_len f inode : geometry f -> zlen inode = isize f ->
  zlen (without_checksum inode (has_checksum_hi f inode)) = isize f.
Proof.
  intros Hg Hl. pose proof (geo_inode _ Hg) as [Hi _]. unfold without_checksum.
  destruct (has_checksum_hi f inode) eqn:E; [|by rewrite zlen_setf; [|apply lo_in; lia] ].
  pose proof (hi_fits _ _ Hg Hl E). rewrite zlen_setf; [by rewrite zlen_setf; [|apply lo_in; lia]|].
  unfold f_in. cbn. rewrite zlen_setf by (apply lo_in; lia). lia.
Qed.

Lemma without_checksum_bytes inode b : bytes_ok inode -> bytes_ok (without_checksum inode b).
Proof. intros Hb. unfold without_checksum. destruct b; repeat apply bytes_ok_setf; done. Qed.

Lemma inode_checksum_run s ino inode : geometry (fs s) -> tables_ok (tables s) -> bytes_ok inode -> zlen inode = isize (fs s) ->
  ext2_inode_checksum ino inode (has_checksum_hi (fs s) inode) s =
    Some (inode_csum (fs s) ino inode (has_checksum_hi (fs s) inode), set_tables s crc32_tables1).
Proof.
  intros Hg Ht Hb Hl. pose proof (geo_ok _ Hg) as Hok. pose proof (geo_inode _ Hg) as [Hi [_ Hm] ].
  unfold ext2_inode_checksum, inode_csum. rewrite gets_run. set (z := without_checksum _ _).
  assert (Hz : zlen z = isize (fs s)) by (by apply without_checksum_len).
  assert (Hzb : bytes_ok z) by (by apply without_checksum_bytes).
  assert (Htk : forall n x, take (Z.to_nat (Z.of_nat n)) (le_bytes n x) = le_bytes n x).
  { intros n x. rewrite take_ge; [done|]. pose proof (le_bytes_len n x). unfold zlen in *. lia. }
  rewrite (bind_run _ _ _ _ _ (crc32_st_ok s (checksum_seed (fs s)) (le_bytes 8 ino) 8 Ht (ok_seed _ Hok)
    (le_bytes_ok _ _) ltac:(rewrite le_bytes_len; lia) eq_refl)).
  change 8 with (Z.of_nat 8) at 1. rewrite Htk. set (c1 := crc32c_ref _ (le_bytes 8 ino)).
  assert (0 <= c1 < 2 ^ 32) as Hc1 by (apply crc32c_ref_range; [apply le_bytes_ok|apply Hok]).
  rewrite (bind_run _ _ _ _ _ (crc32_st_ok (set_tables s crc32_tables1) c1 (le_bytes 4 (z ~> i_generation)) 4
    ltac:(by right) Hc1 (le_bytes_ok _ _) ltac:(rewrite le_bytes_len; lia) eq_refl)).
  change 4 with (Z.of_nat 4) at 1. rewrite Htk. set (c2 := crc32c_ref c1 _).
  assert (0 <= c2 < 2 ^ 32) as Hc2 by (apply crc32c_ref_range; [apply le_bytes_ok|done]).
  rewrite crc32_st_ok; [|by right | done | done | lia | done].
  rewrite take_ge by (unfold zlen in Hz; lia). done.
Qed.

(** Whether the checksum of an inode is accepted, and an inode with its checksum. *)
Definition csum_accepted (f : ext2_fs) (ino : Z) (inode : list Z) : bool :=
  if negb (ro_compat (super f) EXT4_FT_RO_COMPAT_METADATA_CSUM) then true else
  let has_hi := has_checksum_hi f inode in
  let crc := inode_csum f ino inode has_hi in
  (if has_hi then Z.lor (inode ~> l_i_checksum_lo) (Z.shiftl (inode ~> i_checksum_hi) 16) =? crc
   else inode ~> l_i_checksum_lo =? Z.land crc 0xffff) || forallb (fun x => x =? 0) (take 128 inode).
Definition signed (f : ext2_fs) (ino : Z) (inode : list Z) : list Z :=
  if negb (ro_compat (super f) EXT4_FT_RO_COMPAT_METADATA_CSUM) then inode else
  let has_hi := has_checksum_hi f inode in
  let crc := inode_csum f ino inode has_hi in
  let inode := setf inode l_i_checksum_lo (Z.land crc 0xffff) in
  if has_hi then setf inode i_checksum_hi (Z.shiftr crc 16) else inode.

Lemma set_tables_id s : set_tables s (tables s) = s.
Proof. by destruct s. Qed.

Lemma checksum_valid_run s ino inode : geometry (fs s) -> tables_ok (tables s) -> bytes_ok inode -> zlen inode = isize (fs s) ->
  exists t, ext2_inode_checksum_valid ino inode s = Some (csum_accepted (fs s) ino inode, set_tables s t) /\ tables_ok t.
Proof.
  intros Hg Ht Hb Hl. pose proof (geo_inode _ Hg) as [Hi _].
  unfold ext2_inode_checksum_valid, csum_accepted. rewrite gets_run. destruct (ro_compat _ _); cbn [negb].
  2: { exists (tables s). by rewrite set_tables_id. }
  rewrite (bind_run _ _ _ _ _ (inode_checksum_run s ino inode Hg Ht Hb Hl)).
  exists crc32_tables1. split; [|by right].
  assert (Hsl : slice inode 0 128 = Some (take 128 inode)) by (apply slice_some; lia).
  destruct (has_checksum_hi _ _); destruct (_ =? _); cbn [orb]; try done; by rewrite (lift_run _ _ _ _ Hsl).
Qed.

Lemma checksum_update_run s ino inode : geometry (fs s) -> tables_ok (tables s) -> bytes_ok inode -> zlen inode = isize (fs s) ->
  exists t, ext2_inode_checksum_update ino inode s = Some (signed (fs s) ino inode, set_tables s t) /\ tables_ok t.
Proof.
  intros Hg Ht Hb Hl. unfold ext2_inode_checksum_update, signed. rewrite gets_run. destruct (ro_compat _ _); cbn [negb].
  2: { exists (tables s). by rewrite set_tables_id. }
  rewrite (bind_run _ _ _ _ _ (inode_checksum_run s ino inode Hg Ht Hb Hl)).
  exists crc32_tables1. split; [done | by right].
Qed.

Lemma signed_accepted f ino inode : geometry f -> bytes_ok inode -> zlen inode = isize f ->
  has_checksum_hi f inode = false -> csum_accepted f ino (signed f ino inode) = true.
Proof.
  intros Hg Hb Hl Hh. pose proof (geo_inode _ Hg) as [Hi _]. unfold csum_accepted, signed. rewrite Hh.
  destruct (ro_compat _ _); cbn [negb]; [|done]. set (v := Z.land _ _).
  assert (Hin : f_in inode l_i_checksum_lo) by (apply lo_in; lia).
  assert (Hh' : has_checksum_hi f (setf inode l_i_checksum_lo v) = false).
  { unfold has_checksum_hi in *. rewrite getf_setf_other; [done | done | cbn; lia | cbn; lia | unfold f_disjoint; cbn; lia]. }
  rewrite Hh'. replace (inode_csum f ino (setf inode l_i_checksum_lo v) false) with (inode_csum f ino inode false)
    by (unfold inode_csum, without_checksum; by rewrite setf_setf).
  fold v. rewrite getf_setf_same by done. change (8 * f_len l_i_checksum_lo) with 16.
  rewrite wrap_small, Z.eqb_refl; [done|]. unfold v. rewrite (Z.land_ones _ 16) by lia. apply Z.mod_pos_bound. lia.
Qed.

(** *** Reading *)

Lemma find_slot_found ino l i : find_slot ino l = Some i -> exists b, l !! i = Some (ino, b).
Proof.
  revert i. induction l as [|[j b] l IH]; intros i; cbn; [done|].
  destruct (Z.eqb_spec j ino) as [->|]; [intros [= <-]; by eexists|].
  destruct (find_slot ino l) as [k|]; [|done]. intros [= <-]. by apply IH.
Qed.

Lemma find_slot_insert ino l k b : find_slot ino l = None -> (k < length l)%nat ->
  find_slot ino (<[k := (ino, b)]> l) = Some k.
Proof.
  revert k. induction l as [|[j b'] l IH]; intros k Hn Hk; cbn in *; [lia|].
  destruct (Z.eqb_spec j ino) as [->|Hne]; [done|]. destruct k as [|k]; cbn.
  - by rewrite Z.eqb_refl.
  - destruct (Z.eqb_spec j ino); [done|]. rewrite IH; [done | by destruct (find_slot ino l) | lia].
Qed.

(** The slot that the next inode goes to. *)
Lemma next_slot_in (f : ext2_fs) (d : D) c : cache_ok f d c -> 0 <= u32 (cache_last c + 1) mod zlen (cache c) < zlen (cache c).
Proof. intros []. apply Z.mod_pos_bound. lia. Qed.

Lemma create_cache_run s c n : icache (fs s) = Some c -> ext2_create_inode_cache fresh n s = Some (Ok tt, s).
Proof. intros Hc. unfold ext2_create_inode_cache. rewrite gets_run. by rewrite Hc. Qed.

Lemma prefix_run f bytes : geometry f -> zlen bytes = isize f -> inode_prefix f bytes = Some (take 128 bytes).
Proof.
  intros Hg Hl. pose proof (geo_inode _ Hg) as [Hi _]. unfold inode_prefix.
  rewrite Z.min_l by lia. apply slice_some; lia.
Qed.

(** The outcome of reading an inode that is not in the cache, from its place. *)
Definition fetched s' (ino : Z) (c : inode_cache) (bytes : list Z) (r : res (list Z)) : Prop :=
  let slot := u32 (cache_last c + 1) mod zlen (cache c) in
  match r with
  | Ok b => b = take 128 bytes /\ exists c', icache (fs s') = Some c' /\ cache c' = <[Z.to_nat slot := (ino, bytes)]> (cache c)
  | Err _ => True
  end.

Lemma read_fetch s ino c blk off :
  inodes_ok s -> icache (fs s) = Some c -> placed_at (fs s) blk off ->
  let slot := u32 (cache_last c + 1) mod zlen (cache c) in
  exists r s', fetch_inode (fs s) ino slot blk off s = Some (r, s') /\
    reads s s' /\ inodes_ok s' /\ fetched s' ino c (stored_inode (dev s) (fs s) blk off) r /\
    (ic_block c = blk -> csum_accepted (fs s) ino (stored_inode (dev s) (fs s) blk off) = true -> exists b, r = Ok b).
Proof.
  intros Hok Hc Hp slot. pose proof (io_cache _ Hok) as (c0 & Hc0 & Hco). rewrite Hc in Hc0. injection Hc0 as <-.
  pose proof (next_slot_in _ _ _ Hco) as Hslot. fold slot in Hslot. pose proof (io_geometry _ Hok) as Hg.
  pose proof (geo_inode _ Hg) as [Hi _]. unfold fetch_inode.
  replace (S (Z.to_nat (isize (fs s)))) with (S (S (Z.to_nat (isize (fs s) - 1)))) by lia.
  destruct (read_inode_loop s c slot blk off (Z.to_nat (isize (fs s) - 1)) Hok Hc Hslot Hp) as (r & s1 & c1 & E1 & R1 & Hok1 & T1 & Hc1 & Hl1 & Hr & Hq).
  rewrite (bind_run _ _ _ _ _ E1). destruct r as [a|e].
  2: { exists (Err e), s1. split_and!; try done. intros Heq. by destruct (Hq Heq). }
  destruct Hr as [i Hr]. set (bytes := stored_inode (dev s) (fs s) blk off) in *.
  rewrite (get_cache_run s1 c1) by done.
  assert (Hlen : zlen (cache c1) = zlen (cache c)) by (unfold zlen; by rewrite Hr, length_insert).
  assert (He : (cache c1).[slot] = Some (i, bytes)) by (rewrite Hr; by apply zlookup_insert_same).
  rewrite (lift_run _ _ _ _ He). cbn [snd]. cbv zeta.
  pose proof (io_cache _ Hok1) as (c2 & Hc2 & Hco1). rewrite Hc1 in Hc2. injection Hc2 as <-.
  destruct (slot_of _ _ _ _ _ Hco1 He) as [Hbl Hbb]. cbn in Hbl, Hbb.
  destruct (checksum_valid_run s1 ino bytes (io_geometry _ Hok1) (io_tables _ Hok1) Hbb Hbl) as (t & Ev & Ht).
  rewrite (bind_run _ _ _ _ _ Ev).
  assert (Eacc : csum_accepted (fs s1) ino bytes = csum_accepted (fs s) ino bytes) by (by rewrite (proj1 R1)).
  rewrite Eacc. assert (Hpre : inode_prefix (fs s) bytes = Some (take 128 bytes)).
  { apply prefix_run; [done|]. by rewrite Hbl, (proj1 R1). }
  assert (R2 : reads s (set_tables s1 t)) by (eapply reads_trans; [exact R1 | split; [by destruct s1 as [ [] ] | done] ]).
  assert (Hok2 : inodes_ok (set_tables s1 t)).
  { eapply reads_ok; [exact Hok | exact R2 | exact Ht | exact Hc1 | exact Hco1]. }
  destruct (csum_accepted (fs s) ino bytes).
  - assert (Hz : (cache c1).[slot <- (ino, bytes)] = Some (<[Z.to_nat slot := (ino, bytes)]> (cache c1))) by (apply zstore_lt; by rewrite Hlen).
    assert (Hco2 : cache_ok (fs s1) (dev s1) (mk_icache (ic_buffer c1) (ic_block c1) slot (<[Z.to_nat slot := (ino, bytes)]> (cache c1)))).
    { pose proof (slot_stored c1 (fs s1) (dev s1) slot _ bytes Hco1 He Hbl Hbb ino) as [Q1 Q2 Q3 Q4 Q5].
      split; cbn in *; try done. unfold zlen in *. rewrite length_insert in *. lia. }
    destruct (cache_step_ok (set_tables s1 t) _ Hok2 Hco2) as [R3 Hok3].
    eexists (Ok _), _. split; [rewrite (bind_run _ _ _ tt _ (lift_run _ _ _ _ Hz)); by rewrite (lift_run _ _ _ _ Hpre)|].
    split; [by eapply reads_trans|]. split; [exact Hok3|]. split; [|by eexists].
    split; [done|]. eexists. split; [done|]. cbn. by rewrite Hr, list_insert_insert_eq.
  - exists (Err EUCLEAN), (set_tables s1 t). split; [rewrite ret_run; by rewrite (lift_run _ _ _ _ Hpre)|]. by split_and!.
Qed.

(** The bytes of an inode on the device. *)
Definition on_device (d : D) (f : ext2_fs) (ino : Z) : list Z :=
  stored_inode d f (inode_block f ino) (inode_offset f ino).

(** [ext2_read_inode] past its tests of the number. *)
Lemma read_inode_start s ino c : inodes_ok s -> valid_ino (fs s) ino -> icache (fs s) = Some c -> find_slot ino (cache c) = None ->
  ext2_read_inode fresh ino s =
    (if table_valid (fs s) ino
     then fetch_inode (fs s) ino (u32 (cache_last c + 1) mod zlen (cache c)) (inode_block (fs s) ino) (inode_offset (fs s) ino)
     else mret (Err EUCLEAN)) s.
Proof.
  intros Hok Hv Hc Hf. pose proof (io_geometry _ Hok) as Hg. pose proof Hg as [Hfs _ _ Hp _ _]. pose proof Hv as (Hino & Hgr & _).
  pose proof (io_cache _ Hok) as (c0 & Hc0 & Hco). rewrite Hc in Hc0. injection Hc0 as <-. pose proof (co_slots _ _ _ Hco).
  pose proof (getf_range (super (fs s)) s_inodes_count (ok_sb_bytes _ Hfs) ltac:(unfold f_in; rewrite (ok_sb_len _ Hfs); cbn; lia)) as Hcnt.
  change (8 * f_len s_inodes_count) with 32 in Hcnt.
  unfold ext2_read_inode. rewrite gets_run.
  replace ((ino =? 0) || (super (fs s) ~> s_inodes_count <? ino)) with false by lia.
  rewrite (andthen_ok _ _ _ _ _ (create_cache_run s c 4 Hc)), (get_cache_run s c), Hf by done.
  rewrite (proj2 (Z.eqb_neq (per_group (fs s)) 0)) by lia.
  assert (Hgrp : 0 <= group_of (fs s) ino < 2 ^ 32).
  { unfold group_of. split; [apply Z.div_pos; lia|]. apply Z.div_lt_upper_bound; nia. }
  rewrite (wrap_small 64 (ino - 1)) by lia. fold (group_of (fs s) ino). rewrite (wrap_small 32 (group_of _ _)) by lia.
  replace (group_desc_count (fs s) <? group_of (fs s) ino) with false by lia.
  pose proof (inode_place_run s ino Hg Hv) as Ep. destruct (table_valid (fs s) ino).
  - rewrite (andthen_ok _ _ _ _ _ Ep). by replace (zlen (cache c) =? 0) with false by lia.
  - by rewrite (andthen_err _ _ _ _ _ Ep).
Qed.

Lemma read_inode_ok s ino : inodes_ok s -> valid_ino (fs s) ino ->
  exists r s', ext2_read_inode fresh ino s = Some (r, s') /\ reads s s' /\ inodes_ok s' /\
    (forall b, r = Ok b -> zlen b = 128 /\ exists c i e, icache (fs s') = Some c /\ find_slot ino (cache c) = Some i /\
       cache c !! i = Some e /\ b = take 128 e.2).
Proof.
  intros Hok Hv. pose proof (io_geometry _ Hok) as Hg. pose proof (io_cache _ Hok) as (c & Hc & Hco).
  pose proof (geo_inode _ Hg) as [Hi _].
  destruct (find_slot ino (cache c)) as [i|] eqn:Ef.
  - destruct (find_slot_found _ _ _ Ef) as [b Hb]. pose proof Hv as (Hino & _ & _).
    assert (Hlen : zlen b = isize (fs s)) by apply (proj1 (Forall_lookup_1 _ _ _ _ (co_slot _ _ _ Hco) Hb)).
    exists (Ok (take 128 b)), s. split.
    { unfold ext2_read_inode. rewrite gets_run.
      replace ((ino =? 0) || (super (fs s) ~> s_inodes_count <? ino)) with false by lia.
      rewrite (andthen_ok _ _ _ _ _ (create_cache_run s c 4 Hc)), (get_cache_run s c), Ef by done.
      by rewrite (lift_run _ _ _ _ Hb), (lift_run _ _ _ _ (prefix_run _ _ Hg Hlen)). }
    split; [apply reads_refl|]. split; [done|]. intros b' [= <-].
    split; [unfold zlen in *; rewrite length_take; lia|]. by exists c, i, (ino, b).
  - rewrite (read_inode_start s ino c) by done. destruct (table_valid (fs s) ino) eqn:Et.
    2: { exists (Err EUCLEAN), s. by split_and!; [|apply reads_refl| |]. }
    destruct (inode_in_block _ _ Hg Hv Et) as [Hp _].
    destruct (read_fetch s ino c _ _ Hok Hc Hp) as (r & s' & E & R & Hok' & Hf & _).
    exists r, s'. split; [exact E|]. split; [done|]. split; [done|]. intros b ->. destruct Hf as (-> & c' & Hc' & Hcc).
    split; [pose proof (stored_inode_len (dev s) _ _ _ Hg Hp); unfold zlen in *; rewrite length_take; lia|].
    pose proof (next_slot_in _ _ _ Hco). unfold zlen in *.
    eexists c', _, _. split; [done|]. rewrite Hcc. split; [apply find_slot_insert; [done | lia]|].
    split; [apply list_lookup_insert_eq; lia | done].
Qed.

(** *** Writing *)

Lemma find_slot_same ino l i b : find_slot ino l = Some i -> find_slot ino (<[i := (ino, b)]> l) = Some i.
Proof.
  revert i. induction l as [|[j b'] l IH]; intros i; cbn; [done|].
  destruct (Z.eqb_spec j ino) as [->|Hne]; [intros [= <-]; cbn; by rewrite Z.eqb_refl|].
  destruct (find_slot ino l) as [k|]; [|done]. intros [= <-]. cbn.
  destruct (Z.eqb_spec j ino); [done|]. by rewrite IH.
Qed.

Lemma blit_front (old new : list Z) b : blit old 0 new = Some b -> take (length new) b = new.
Proof.
  unfold blit. destruct (_ && _); [|done]. intros [= <-]. change (Z.to_nat 0) with 0%nat. cbn [take app].
  by rewrite take_app_length.
Qed.

Lemma update_cached_ok s c ino data :
  inodes_ok s -> icache (fs s) = Some c -> zlen data = 128 -> bytes_ok data ->
  exists s' c', update_cached fresh ino data s = Some (Ok tt, s') /\ reads s s' /\ inodes_ok s' /\ tables s' = tables s /\
    icache (fs s') = Some c' /\ find_slot ino (cache c') = find_slot ino (cache c) /\
    (forall i e, find_slot ino (cache c') = Some i -> cache c' !! i = Some e -> take 128 e.2 = data) /\
    cache_last c' = cache_last c.
Proof.
  intros Hok Hc Hl Hb. pose proof (io_geometry _ Hok) as Hg. pose proof (geo_inode _ Hg) as [Hi _].
  pose proof (io_cache _ Hok) as (c0 & Hc0 & Hco). rewrite Hc in Hc0. injection Hc0 as <-.
  unfold update_cached. rewrite gets_run, Hc. destruct (find_slot ino (cache c)) as [i|] eqn:Ef.
  2: { exists s, c. split_and!; try done; [apply reads_refl|]. intros i e. by rewrite Ef. }
  destruct (find_slot_found _ _ _ Ef) as [old Ho]. rewrite (lift_run _ _ _ _ Ho). cbn [snd].
  pose proof (Forall_lookup_1 _ _ _ _ (co_slot _ _ _ Hco) Ho) as [Hol Hob]. cbn in Hol, Hob.
  destruct (blit_some old 0 data ltac:(lia) ltac:(lia)) as [new Hn]. rewrite (lift_run _ _ _ _ Hn).
  pose proof (blit_len _ _ _ _ Hn) as Hnl. pose proof (blit_bytes _ _ _ _ Hn Hob Hb) as Hnb.
  assert (Hco2 : cache_ok (fs s) (dev s) (mk_icache (ic_buffer c) (ic_block c) (cache_last c) (<[i := (ino, new)]> (cache c)))).
  { rewrite <- (Nat2Z.id i). eapply (slot_stored c _ _ (Z.of_nat i) (ino, old)); [done | by rewrite zlookup_nat | lia | done]. }
  destruct (cache_step_ok s _ Hok Hco2) as [R2 Hok2]. eexists _, _. split; [done|]. split; [done|]. split; [done|].
  split; [done|]. split; [done|]. cbn. rewrite (find_slot_same _ _ _ _ Ef). split; [done|]. split; [|done].
  intros k e [= <-]. rewrite list_lookup_insert_eq by (by eapply lookup_lt_Some). intros [= <-]. cbn.
  pose proof (blit_front _ _ _ Hn) as Hf. replace 128%nat with (length data); [done|]. unfold zlen in Hl. lia.
Qed.

Lemma block_bytes_at (d : D) bs blk x : blk * bs <= x ->
  default (contents d x) (block_bytes d bs blk !! Z.to_nat (x - blk * bs)) = contents d x.
Proof.
  intros Hx. destruct (block_bytes d bs blk !! Z.to_nat (x - blk * bs)) as [v|] eqn:E; [|done].
  unfold block_bytes in E. apply list_lookup_fmap_Some_1 in E as (y & -> & E).
  apply lookup_seqZ in E as [-> _]. cbn. f_equal. lia.
Qed.

(** Writing a block that differs from the device in [w] at [off] writes [w]. *)
Lemma patched_block (d : D) bs blk off (w b : list Z) x :
  0 <= bs -> 0 <= off -> 0 <= blk -> off + zlen w <= bs -> blit (block_bytes d bs blk) off w = Some b ->
  patched (contents d) (blk * bs) b x = patched (contents d) (blk * bs + off) w x.
Proof.
  intros Hbs Ho Hk Hl Hb. unfold patched.
  destruct (Z.leb_spec (blk * bs) x), (Z.leb_spec (blk * bs + off) x); try lia.
  - rewrite (blit_lookup _ _ _ _ _ Hb). case_decide as Hd.
    + f_equal. f_equal. lia.
    + rewrite (lookup_ge_None_2 w) by (unfold zlen in *; lia). cbn [default].
      by apply block_bytes_at.
  - rewrite (blit_lookup _ _ _ _ _ Hb). case_decide as Hd; [lia|].
    by apply block_bytes_at.
Qed.

Lemma block_bytes_lookup (d : D) bs blk i : (i < Z.to_nat bs)%nat ->
  block_bytes d bs blk !! i = Some (contents d (blk * bs + Z.of_nat i)).
Proof. intros Hi. unfold block_bytes. rewrite (list_lookup_fmap (contents d)). rewrite lookup_seqZ_lt by lia. done. Qed.

(** The block as the device has it after the write. *)
Lemma block_after (d d' : D) bs blk (b : list Z) : 0 <= bs -> 0 <= blk -> zlen b = bs ->
  (forall x, contents d' x = patched (contents d) (blk * bs) b x) -> block_bytes d' bs blk = b.
Proof.
  intros Hbs Hk Hb Hc. apply list_eq. intros i. destruct (decide (i < Z.to_nat bs)%nat) as [Hi|Hi].
  - rewrite block_bytes_lookup by done. rewrite Hc. unfold patched.
    destruct (Z.leb_spec (blk * bs) (blk * bs + Z.of_nat i)); [|lia].
    replace (Z.to_nat (blk * bs + Z.of_nat i - blk * bs)) with i by lia.
    destruct (lookup_lt_is_Some_2 b i) as [v Hv]; [unfold zlen in Hb; lia|]. by rewrite Hv.
  - rewrite !lookup_ge_None_2; [done|unfold zlen in Hb; lia|].
    pose proof (zlen_block_bytes d' bs blk Hbs). unfold zlen in *. lia.
Qed.

Lemma patched_bytes (c : Z -> Z) off w x : (forall x, 0 <= c x < 256) -> bytes_ok w -> 0 <= patched c off w x < 256.
Proof.
  intros Hc Hw. unfold patched. destruct (off <=? x); [|apply Hc].
  destruct (w !! Z.to_nat (x - off)) as [v|] eqn:E; [|apply Hc]. by apply (Forall_lookup_1 _ _ _ _ Hw E).
Qed.

Lemma write_block_run s b blk : geometry (fs s) -> zlen b = blksize (fs s) -> 0 < blk -> (blk + 1) * blksize (fs s) < 2 ^ 63 ->
  exists r d, ext2_write_blocks b blk 1 s = Some (r, set_dev s d) /\
    match r with
    | Ok _ => forall x, contents d x = patched (contents (dev s)) (blk * blksize (fs s)) b x
    | Err _ => kept_outside (dev s) d (blk * blksize (fs s)) ((blk + 1) * blksize (fs s))
    end.
Proof.
  intros [_ [_ Hbs] _ _ _ _] Hb Hk Hl. unfold ext2_write_blocks.
  rewrite Z.mul_1_l, (wrap_small 64), (s64_small (blk * blksize (fs s))) by nia.
  rewrite slice_some by lia. change (Z.to_nat 0) with 0%nat. rewrite drop_0, take_ge by (unfold zlen in Hb; lia). orun.
  destruct (dev_write _ _ _) as [r d] eqn:E. exists r, d. split; [done|].
  assert (0 <= blk * blksize (fs s)) as Hoff by nia. destruct r as [ []|e].
  - by apply dev_write_ok.
  - intros x Hx. eapply dev_write_err; [exact Hoff | exact E|]. lia.
Qed.

(** The filesystem as before, apart from the cache. *)
Definition cache_only s s' : Prop := fs s' = set_icache (fs s) (icache (fs s')).

(** What writing [w] to the place of an inode leaves. *)
Definition written s s' (c : inode_cache) (blk off : Z) (w : list Z) : Prop :=
  inodes_ok s' /\ (exists c', icache (fs s') = Some c' /\ cache c' = cache c /\ cache_last c' = cache_last c /\ ic_block c' = blk) /\
  forall x, contents (dev s') x = patched (contents (dev s)) (blk * blksize (fs s) + off) w x.
Definition block_kept s s' (blk : Z) : Prop :=
  kept_outside (dev s) (dev s') (blk * blksize (fs s)) ((blk + 1) * blksize (fs s)).

Lemma write_step_run s c w blk off :
  inodes_ok s -> icache (fs s) = Some c -> placed_at (fs s) blk off -> zlen w = isize (fs s) -> bytes_ok w ->
  exists r s', write_inode_step w (off, isize (fs s), 0, blk) s = Some (r, s') /\ cache_only s s' /\
    match r with
    | Cont a => a = (0, 0, isize (fs s), u64 (blk + 1)) /\ written s s' c blk off w
    | Ret _ => block_kept s s' blk
    | Break _ => False
    end.
Proof.
  intros Hok Hc Hp Hwl Hwb. pose proof Hp as [ [Hb1 Hb2] [Ho1 Ho2] ].
  pose proof (io_geometry _ Hok) as Hg. pose proof Hg as [_ [_ Hbs] [Hi _] _ _ _].
  unfold write_inode_step. rewrite (proj2 (Z.eqb_neq (isize (fs s)) 0)) by lia. rewrite gets_run, chunk_whole by done.
  destruct (cached_block_ok s c blk Hok Hc Hb1 Hb2) as (r & s1 & c1 & E1 & R1 & Hok1 & T1 & Hc1 & Hs1 & Hl1 & Hr1 & _).
  rewrite (bind_run _ _ _ _ _ E1). destruct r as [ []|e].
  2: { exists (Ret e), s1. split; [done|]. split; [apply R1|]. intros x _. apply R1. }
  specialize (Hr1 eq_refl). rewrite (get_cache_run s1 c1) by done.
  pose proof (io_cache _ Hok1) as (c0 & Hc0 & Hco). rewrite Hc1 in Hc0. injection Hc0 as <-.
  assert (Hsz : blksize (fs s1) = blksize (fs s)) by (by rewrite (proj1 R1)).
  assert (Hbuf : ic_buffer c1 = block_bytes (dev s1) (blksize (fs s)) blk) by (rewrite (co_coherent _ _ _ Hco), Hr1, Hsz by lia; done).
  destruct (co_buffer _ _ _ Hco) as [Hbl Hbb].
  destruct (blit_some (ic_buffer c1) off w ltac:(lia) ltac:(lia)) as [b Hb].
  assert (Hm : memcpy_buf (ic_buffer c1) (u32 off) w 0 (isize (fs s)) = Some b).
  { unfold memcpy_buf. rewrite (wrap_small 32) by lia. rewrite slice_some by lia.
    change (Z.to_nat 0) with 0%nat. rewrite drop_0, take_ge by (unfold zlen in Hwl; lia). done. }
  rewrite (lift_run _ _ _ _ Hm). pose proof (blit_len _ _ _ _ Hb) as Hbl'. pose proof (blit_bytes _ _ _ _ Hb Hbb Hwb) as Hbb'.
  set (c2 := mk_icache b (ic_block c1) (cache_last c1) (cache c1)).
  set (s2 := set_fs s1 (set_icache (fs s1) (Some c2))).
  assert (E2 : set_cache c2 s1 = Some (tt, s2)) by done. rewrite (bind_run _ _ _ _ _ E2).
  assert (Hg2 : geometry (fs s2)) by (apply geometry_icache, Hok1).
  destruct (write_block_run s2 b blk Hg2 ltac:(cbn; lia) Hb1 ltac:(cbn; lia)) as (r & d & E3 & Hd).
  rewrite (bind_run _ _ _ _ _ E3). change (blksize (fs s2)) with (blksize (fs s1)) in Hd. change (dev s2) with (dev s1) in Hd. rewrite Hsz in Hd.
  assert (Hcs : cache_only s (set_dev s2 d)) by (unfold cache_only; cbn; by rewrite (proj1 R1)).
  destruct r as [ []|e].
  2: { exists (Ret e), (set_dev s2 d). split; [done|]. split; [exact Hcs|]. intros x Hx. cbn. rewrite (Hd x Hx). apply R1. }
  eexists _, (set_dev s2 d). split; [done|]. split; [exact Hcs|]. split; [by rewrite Z.sub_diag, Z.add_0_l|].
  assert (Hcont : forall x, contents d x = patched (contents (dev s)) (blk * blksize (fs s) + off) w x).
  { intros x. rewrite Hd. rewrite (patched_block (dev s1) _ _ off w) by (try lia; by rewrite <- Hbuf).
    unfold patched. by rewrite (proj2 R1 x). }
  split; [|split; [|exact Hcont] ].
  - split; [exact Hg2 | apply Hok1 | |].
    + intros x. cbn. rewrite Hcont. apply patched_bytes; [apply Hok | done].
    + exists c2. split; [done|]. destruct Hco. split; cbn; try done; [split; [lia | done]|].
      intros _. rewrite Hr1. symmetry. apply (block_after (dev s1)); [lia | lia | lia|]. by rewrite Hsz.
  - exists c2. by split_and!.
Qed.

Lemma write_inode_loop s c w blk off n :
  inodes_ok s -> icache (fs s) = Some c -> placed_at (fs s) blk off -> zlen w = isize (fs s) -> bytes_ok w ->
  exists r s', mloop (S (S n)) (write_inode_step w) (off, isize (fs s), 0, blk) s = Some (r, s') /\ cache_only s s' /\
    match r with inl _ => written s s' c blk off w | inr _ => block_kept s s' blk end.
Proof.
  intros Hok Hc Hp Hwl Hwb. destruct (write_step_run s c w blk off Hok Hc Hp Hwl Hwb) as (r & s1 & E1 & C1 & Hr).
  cbn [mloop]. rewrite (bind_run _ _ _ _ _ E1). destruct r as [a|a|e]; [|done|by exists (inr e), s1].
  destruct Hr as [-> Hr]. eexists (inl _), s1. by split.
Qed.

(** The inode that is written for 128 bytes: the rest of a larger one is zero. *)
Definition padded (f : ext2_fs) (inode : list Z) : list Z := inode ++ replicate (Z.to_nat (isize f - 128)) 0.

Lemma padded_len f inode : geometry f -> zlen inode = 128 -> zlen (padded f inode) = isize f.
Proof. intros [_ _ [Hi _] _ _ _] Hl. unfold padded. rewrite zlen_app, zlen_replicate. lia. Qed.

Lemma bytes_replicate_0 n : bytes_ok (replicate n 0).
Proof. apply Forall_replicate. lia. Qed.

Lemma padded_bytes f inode : bytes_ok inode -> bytes_ok (padded f inode).
Proof. intros Hb. apply Forall_app. split; [done | apply bytes_replicate_0]. Qed.

Lemma padded_no_hi f inode : zlen inode = 128 -> has_checksum_hi f (padded f inode) = false.
Proof.
  intros Hl. unfold has_checksum_hi. destruct (Z.ltb_spec 128 (isize f)); [|done]. cbn [andb].
  unfold getf, padded. rewrite drop_app_length' by (unfold zlen in Hl; cbn; lia).
  rewrite take_replicate. replace (le_val _) with 0; [done|].
  generalize (Nat.min (Z.to_nat (f_len i_extra_isize)) (Z.to_nat (isize f - 128))). clear. intros n.
  induction n as [|n IH]; [done|]. cbn [replicate le_val]. by rewrite <- IH.
Qed.

Lemma blit_padded f (old inode : list Z) : geometry f -> zlen inode = 128 ->
  (old = replicate (Z.to_nat (isize f)) 0 \/
   exists b, zlen b = 128 /\ blit (replicate (Z.to_nat (isize f)) 0) 0 b = Some old) ->
  blit old 0 inode = Some (padded f inode).
Proof.
  intros [_ _ [Hi _] _ _ _] Hl Ho.
  assert (Hold : zlen old = isize f /\ drop 128 old = replicate (Z.to_nat (isize f - 128)) 0).
  { destruct Ho as [->|(b & Hb & Ho)].
    - rewrite zlen_replicate, drop_replicate. split; [lia|]. f_equal. lia.
    - pose proof (blit_len _ _ _ _ Ho) as Hbl. rewrite zlen_replicate in Hbl. split; [lia|].
      unfold blit in Ho. destruct (_ && _); [|done]. injection Ho as <-. change (Z.to_nat 0) with 0%nat. cbn [take app].
      rewrite drop_app_length' by (unfold zlen in Hb; lia). rewrite drop_replicate. f_equal. lia. }
  destruct Hold as [Hol Hod]. unfold blit. replace ((0 <=? 0) && (0 + zlen inode <=? zlen old)) with true by lia.
  rewrite Hl. change (Z.to_nat 0) with 0%nat. change (Z.to_nat (0 + 128)) with 128%nat. by rewrite Hod.
Qed.

(** The inode is in the cache. *)
Definition cached s (ino : Z) : Prop := exists c i, icache (fs s) = Some c /\ find_slot ino (cache c) = Some i.

Lemma update_base s ino inode : inodes_ok s -> valid_ino (fs s) ino -> zlen inode = 128 ->
  exists r s1, (if 128 <? isize (fs s)
     then b ←? ext2_read_inode fresh ino; w ← lift (blit (replicate (Z.to_nat (isize (fs s))) 0) 0 b); mret (Ok w)
     else mret (Ok (replicate (Z.to_nat (isize (fs s))) 0))) s = Some (r, s1) /\ reads s s1 /\ inodes_ok s1 /\
    (forall w, r = Ok w -> blit w 0 inode = Some (padded (fs s) inode) /\ (128 < isize (fs s) -> cached s1 ino)).
Proof.
  intros Hok Hv Hl. pose proof (io_geometry _ Hok) as Hg. pose proof (geo_inode _ Hg) as [Hi _].
  destruct (Z.ltb_spec 128 (isize (fs s))) as [Hs|Hs].
  2: { eexists (Ok _), s. split; [done|]. split; [apply reads_refl|]. split; [done|]. intros w [= <-].
       split; [apply blit_padded; [done | done | by left] | lia]. }
  destruct (read_inode_ok s ino Hok Hv) as (r & s1 & E & R & Hok1 & Hr). destruct r as [b|e].
  2: { exists (Err e), s1. split; [by rewrite (andthen_err _ _ _ _ _ E)|]. by split_and!. }
  destruct (Hr b eq_refl) as (Hbl & c & i & e & Hc & Hf & _).
  destruct (blit_some (replicate (Z.to_nat (isize (fs s))) 0) 0 b ltac:(lia) ltac:(rewrite zlen_replicate; lia)) as [w Hw].
  exists (Ok w), s1. split; [by rewrite (andthen_ok _ _ _ _ _ E), (lift_run _ _ _ _ Hw)|]. split; [done|]. split; [done|].
  intros w' [= <-]. split; [apply blit_padded; [done | done | by right; exists b]|]. intros _. by exists c, i.
Qed.

Lemma reads_kept s s' blk : reads s s' -> block_kept s s' blk.
Proof. intros [_ Hc] x _. apply Hc. Qed.

Lemma tables_step s t : inodes_ok s -> tables_ok t -> reads s (set_tables s t) /\ inodes_ok (set_tables s t).
Proof.
  intros Hok Ht. assert (R : reads s (set_tables s t)) by (split; [by destruct s as [ [] ] | done]).
  split; [done|]. destruct (io_cache _ Hok) as (c & Hc & Hco). eapply reads_ok; [exact Hok | exact R | done | exact Hc | exact Hco].
Qed.

Lemma oracle_step s o : inodes_ok s -> reads s (set_oracle s o) /\ inodes_ok (set_oracle s o).
Proof.
  intros Hok. assert (R : reads s (set_oracle s o)) by (split; [by destruct s as [ [] ] | done]).
  split; [done|]. destruct (io_cache _ Hok) as (c & Hc & Hco). eapply reads_ok; [exact Hok | exact R | apply Hok | exact Hc | exact Hco].
Qed.

(** *** Reading what was written *)

Lemma stored_patched (d d' : D) f blk off w : geometry f -> placed_at f blk off -> zlen w = isize f ->
  (forall x, contents d' x = patched (contents d) (blk * blksize f + off) w x) -> stored_inode d' f blk off = w.
Proof.
  intros [_ [_ Hbs] [Hi _] _ _ _] [ [Hb1 Hb2] [Ho1 Ho2] ] Hw Hc. apply list_eq. intros i. unfold stored_inode.
  destruct (decide (i < Z.to_nat (isize f))%nat) as [Hlt|Hge].
  - rewrite lookup_take_lt, lookup_drop, block_bytes_lookup by lia. rewrite Hc. unfold patched.
    destruct (Z.leb_spec (blk * blksize f + off) (blk * blksize f + Z.of_nat (Z.to_nat off + i))); [|lia].
    replace (Z.to_nat (blk * blksize f + Z.of_nat (Z.to_nat off + i) - (blk * blksize f + off))) with i by lia.
    destruct (lookup_lt_is_Some_2 w i) as [v Hv]; [unfold zlen in Hw; lia|]. by rewrite Hv.
  - rewrite lookup_take_ge, lookup_ge_None_2; [done | unfold zlen in Hw; lia | lia].
Qed.

Lemma read_cached s ino c i e : inodes_ok s -> valid_ino (fs s) ino -> icache (fs s) = Some c ->
  find_slot ino (cache c) = Some i -> cache c !! i = Some e -> ext2_read_inode fresh ino s = Some (Ok (take 128 e.2), s).
Proof.
  intros Hok Hv Hc Hf He. pose proof (io_geometry _ Hok) as Hg. pose proof Hv as (Hino & _ & _).
  pose proof (io_cache _ Hok) as (c0 & Hc0 & Hco). rewrite Hc in Hc0. injection Hc0 as <-.
  pose proof (Forall_lookup_1 _ _ _ _ (co_slot _ _ _ Hco) He) as [Hlen _].
  unfold ext2_read_inode. rewrite gets_run.
  replace ((ino =? 0) || (super (fs s) ~> s_inodes_count <? ino)) with false by lia.
  rewrite (andthen_ok _ _ _ _ _ (create_cache_run s c 4 Hc)), (get_cache_run s c), Hf by done.
  by rewrite (lift_run _ _ _ _ He), (lift_run _ _ _ _ (prefix_run _ _ Hg Hlen)).
Qed.

Lemma read_from_buffer s ino c : inodes_ok s -> valid_ino (fs s) ino -> table_valid (fs s) ino = true ->
  icache (fs s) = Some c -> find_slot ino (cache c) = None -> ic_block c = inode_block (fs s) ino ->
  csum_accepted (fs s) ino (on_device (dev s) (fs s) ino) = true ->
  exists s', ext2_read_inode fresh ino s = Some (Ok (take 128 (on_device (dev s) (fs s) ino)), s').
Proof.
  intros Hok Hv Ht Hc Hf Hb Ha. destruct (inode_in_block _ _ (io_geometry _ Hok) Hv Ht) as [Hp _].
  rewrite (read_inode_start s ino c) by done. rewrite Ht.
  destruct (read_fetch s ino c _ _ Hok Hc Hp) as (r & s' & E & _ & _ & Hfe & Hq).
  destruct (Hq Hb Ha) as [b ->]. destruct Hfe as (-> & _). exists s'. exact E.
Qed.

Lemma flags_step s x : inodes_ok s -> inodes_ok (set_fs s (set_flags (fs s) x)).
Proof.
  intros [ [Hfs ? ? ? ? ?] ? ? (c & Hc & [])]. split; [split; try done; by apply fs_ok_flags | done | done | exists c].
  split; [exact Hc | by split].
Qed.

Lemma setf_app (a b : list Z) fl v : f_in a fl -> setf (a ++ b) fl v = setf a fl v ++ b.
Proof.
  intros (H1 & H2 & H3). unfold setf, zlen in *.
  by rewrite take_app_le, drop_app_le, <- !app_assoc by lia.
Qed.

Lemma signed_padded f ino inode : geometry f -> zlen inode = 128 -> bytes_ok inode ->
  zlen (signed f ino (padded f inode)) = isize f /\ bytes_ok (signed f ino (padded f inode)) /\
  csum_accepted f ino (signed f ino (padded f inode)) = true /\
  setf (take 128 (signed f ino (padded f inode))) l_i_checksum_lo 0 = setf inode l_i_checksum_lo 0.
Proof.
  intros Hg Hl Hb. pose proof (padded_len f inode Hg Hl) as Hpl. pose proof (padded_bytes f inode Hb) as Hpb.
  pose proof (padded_no_hi f inode Hl) as Hh. pose proof (geo_inode _ Hg) as [Hi _].
  assert (Hin : f_in (padded f inode) l_i_checksum_lo) by (apply lo_in; lia).
  assert (Htk : take 128 (padded f inode) = inode) by (unfold padded; rewrite take_app_length'; [done | unfold zlen in Hl; lia]).
  split; [|split; [|split; [by apply signed_accepted|] ] ]; unfold signed; rewrite Hh; destruct (ro_compat _ _); cbn [negb]; try done.
  - by rewrite zlen_setf.
  - by apply bytes_ok_setf.
  - set (v := Z.land _ _). assert (Hi2 : f_in inode l_i_checksum_lo) by (apply lo_in; lia).
    unfold padded. rewrite setf_app, take_app_length' by (done || pose proof (zlen_setf inode l_i_checksum_lo v Hi2); unfold zlen in *; lia).
    by apply setf_setf.
  - by rewrite Htk.
Qed.

(** What a successful update means for the device and for the next read. *)
Definition updated s s' (ino : Z) (inode : list Z) : Prop :=
  (forall x, contents (dev s') x =
     patched (contents (dev s)) (inode_addr (fs s) ino) (signed (fs s) ino (padded (fs s) inode)) x) /\
  inodes_ok s' /\
  exists data s'', ext2_read_inode fresh ino s' = Some (Ok data, s'') /\
    setf data l_i_checksum_lo 0 = setf inode l_i_checksum_lo 0.

Lemma inode_addr_split f ino : geometry f -> inode_block f ino * blksize f + inode_offset f ino = inode_addr f ino.
Proof. intros [_ [_ Hb] _ _ _ _]. unfold inode_block, inode_offset. pose proof (Z.div_mod (inode_addr f ino) (blksize f)). lia. Qed.

(** The last part of the update: the signed inode goes to its place. *)
Lemma update_write s ino inode c :
  inodes_ok s -> valid_ino (fs s) ino -> zlen inode = 128 -> bytes_ok inode -> icache (fs s) = Some c ->
  (forall i e, find_slot ino (cache c) = Some i -> cache c !! i = Some e -> take 128 e.2 = inode) ->
  exists r s', (place ←? inode_place ino;
     let '(blockno, offset) := place in
     r ← mloop (S (Z.to_nat (isize (fs s)))) (write_inode_step (signed (fs s) ino (padded (fs s) inode)))
           (offset, isize (fs s), 0, blockno);
     match r with inr e => mret (Err e) | inl _ => add_flags EXT2_FLAG_CHANGED;; mret (Ok tt) end) s = Some (r, s') /\
    match r with Ok _ => updated s s' ino inode | Err _ => block_kept s s' (inode_block (fs s) ino) end.
Proof.
  intros Hok Hv Hl Hb Hc Hcache. pose proof (io_geometry _ Hok) as Hg. pose proof (geo_inode _ Hg) as [Hi _].
  pose proof (inode_place_run s ino Hg Hv) as Ep. destruct (table_valid (fs s) ino) eqn:Et.
  2: { exists (Err EUCLEAN), s. split; [by rewrite (andthen_err _ _ _ _ _ Ep) | by intros x _]. }
  rewrite (andthen_ok _ _ _ _ _ Ep). cbv zeta beta iota.
  destruct (inode_in_block _ _ Hg Hv Et) as [Hp _]. destruct (signed_padded (fs s) ino inode Hg Hl Hb) as (Hwl & Hwb & Hwa & Hws).
  set (w := signed (fs s) ino (padded (fs s) inode)) in *.
  replace (S (Z.to_nat (isize (fs s)))) with (S (S (Z.to_nat (isize (fs s) - 1)))) by lia.
  destruct (write_inode_loop s c w _ _ (Z.to_nat (isize (fs s) - 1)) Hok Hc Hp Hwl Hwb) as (r & s1 & E1 & C1 & Hr).
  rewrite (bind_run _ _ _ _ _ E1). destruct r as [a|e]; [|by exists (Err e), s1].
  destruct Hr as (Hok1 & (c1 & Hc1 & Hcs & Hcl & Hcb) & Hcont).
  eexists (Ok tt), _. split; [done|]. set (s2 := set_fs s1 _). assert (Hok2 : inodes_ok s2) by (by apply flags_step).
  assert (Efs : fs s2 = set_flags (set_icache (fs s) (Some c1)) (flags (fs s2))) by (cbn; rewrite C1, Hc1; done).
  assert (Hv2 : valid_ino (fs s2) ino) by (rewrite Efs; exact Hv).
  split; [by rewrite <- (inode_addr_split _ _ Hg)|]. split; [exact Hok2|].
  destruct (find_slot ino (cache c)) as [i|] eqn:Ef.
  - destruct (find_slot_found _ _ _ Ef) as [b Hsl]. exists (take 128 b), s2.
    split; [|pose proof (Hcache i _ eq_refl Hsl) as Hd; cbn in Hd; by rewrite Hd].
    eapply (read_cached s2 ino c1 i (ino, b)); [done | done | by rewrite Efs | by rewrite Hcs | by rewrite Hcs].
  - assert (Edev : on_device (dev s2) (fs s2) ino = w).
    { rewrite Efs. change (on_device (dev s2) (fs s) ino = w).
      apply (stored_patched (dev s)); [exact Hg | exact Hp | exact Hwl | exact Hcont]. }
    destruct (read_from_buffer s2 ino c1) as [s3 E3]; [done | done | by rewrite Efs | by rewrite Efs | by rewrite Hcs | by rewrite Efs | by rewrite Edev, Efs|].
    exists (take 128 w), s3. rewrite Edev in E3. by split.
Qed.

Lemma update_inode_ok s ino inode :
  inodes_ok s -> valid_ino (fs s) ino -> zlen inode = 128 -> bytes_ok inode ->
  exists r s', ext2_update_inode fresh ino inode 128 s = Some (r, s') /\
    match r with Ok _ => updated s s' ino inode | Err _ => block_kept s s' (inode_block (fs s) ino) end.
Proof.
  intros Hok Hv Hl Hb. pose proof (io_geometry _ Hok) as Hg. pose proof (geo_inode _ Hg) as [Hi _].
  unfold ext2_update_inode. rewrite gets_run. destruct (truthy _).
  { eexists (Err _), s. by split; [|apply reads_kept, reads_refl]. }
  destruct (alloc_run s) as (ok & o & Ea). rewrite (bind_run _ _ _ _ _ Ea).
  destruct (oracle_step s o Hok) as [R0 Hok0]. destruct ok; cbn [negb]; [|by eexists (Err _), _; split; [|apply reads_kept] ].
  destruct (update_base (set_oracle s o) ino inode Hok0 Hv Hl) as (r1 & s1 & E1 & R1 & Hok1 & Hr1). cbn zeta.
  pose proof (reads_trans _ _ _ R0 R1) as R01. destruct r1 as [w|e].
  2: { rewrite (andthen_err _ _ _ _ _ E1). by eexists (Err _), _; split; [|apply reads_kept]. }
  rewrite (andthen_ok _ _ _ _ _ E1). destruct (Hr1 w eq_refl) as [Hw _].
  assert (Hsl : slice inode 0 (Z.min 128 (isize (fs s))) = Some inode).
  { rewrite Z.min_l, slice_some by lia. change (Z.to_nat 0) with 0%nat. by rewrite drop_0, take_ge by (unfold zlen in Hl; lia). }
  rewrite (lift_run _ _ _ _ Hsl). destruct (io_cache _ Hok1) as (c1 & Hc1 & _).
  destruct (update_cached_ok s1 c1 ino inode Hok1 Hc1 Hl Hb) as (s2 & c2 & E2 & R2 & Hok2 & T2 & Hc2 & Hf2 & Hd2 & _).
  rewrite (andthen_ok _ _ _ _ _ E2), (lift_run _ _ _ _ Hw). pose proof (reads_trans _ _ _ R01 R2) as R02.
  pose proof (proj1 R02) as Ef2.
  assert (Hg2 : geometry (fs s2)) by apply Hok2. change (padded (fs (set_oracle s o)) inode) with (padded (fs s) inode).
  destruct (checksum_update_run s2 ino (padded (fs s) inode) Hg2 (io_tables _ Hok2) (padded_bytes _ _ Hb)) as (t & E3 & Ht).
  { rewrite padded_len by done. by rewrite Ef2. }
  rewrite (bind_run _ _ _ _ _ E3). destruct (tables_step s2 t Hok2 Ht) as [R3 Hok3].
  pose proof (reads_trans _ _ _ R02 R3) as R03. pose proof (proj1 R03) as Ef3.
  destruct (update_write (set_tables s2 t) ino inode c2) as (r & s' & E & Hr); [done | by rewrite Ef3 | done | done | done | done|].
  assert (Efs : fs (set_tables s2 t) = fs s2) by done. rewrite Efs in E, Hr.
  exists r, s'. split.
  - rewrite <- E. rewrite Ef2. reflexivity.
  - destruct r as [ []|e].
    + destruct Hr as (Hc & Hi' & Hrd). split; [|done]. intros x. rewrite Hc, Efs, Ef2. unfold patched. by rewrite (proj2 R03 x).
    + intros x Hx. rewrite (Hr x); [apply R03|]. by rewrite Efs, Ef2.
Qed.

(** ** What the map of blocks means *)

(** Entry [n] of a block of block numbers, and the block at the end of a path of
    entries; zero stands for no block. *)
Definition map_entry (d : D) (bs blk n : Z) : Z := le_val (map (contents d) (seqZ (blk * bs + 4 * n) 4)).
Fixpoint follow (d : D) (bs : Z) (path : list Z) (blk : Z) : Z :=
  match path with
  | [] => blk
  | n :: path => if blk =? 0 then 0 else follow d bs path (map_entry d bs blk n)
  end.

(** The entry of the inode for a block of the file and the path from there. *)
Definition block_path (bs block : Z) : Z * list Z :=
  let n := bs / 4 in
  if block <? 12 then (block, [])
  else if block - 12 <? n then (12, [block - 12])
  else
    let b := block - 12 - n in
    if b <? n * n then (13, [b / n; b mod n])
    else let b := b - n * n in (14, [b / n / n; (b / n) mod n; b mod n]).

Definition file_block (d : D) (bs : Z) (inode : list Z) (block : Z) : Z :=
  let '(slot, path) := block_path bs block in follow d bs path (inode ~> i_block_at slot).

(** The filesystem is the same and the device has the same contents. *)
Definition unchanged s s' : Prop := fs s' = fs s /\ forall x, contents (dev s') x = contents (dev s) x.

Lemma unchanged_refl s : unchanged s s.
Proof. done. Qed.

Lemma unchanged_trans s1 s2 s3 : unchanged s1 s2 -> unchanged s2 s3 -> unchanged s1 s3.
Proof. intros [E1 C1] [E2 C2]. split; [congruence | intros x; by rewrite C2]. Qed.

Lemma entry_same (d d' : D) bs blk n : (forall x, contents d' x = contents d x) -> map_entry d' bs blk n = map_entry d bs blk n.
Proof. intros Hc. unfold map_entry. f_equal. by apply map_ext. Qed.

Lemma follow_same (d d' : D) bs path : (forall x, contents d' x = contents d x) -> forall blk, follow d' bs path blk = follow d bs path blk.
Proof.
  intros Hc. induction path as [|n path IH]; intros blk; cbn; [done|]. destruct (blk =? 0); [done|].
  by rewrite (entry_same d d'), IH.
Qed.

Lemma entry_range (d : D) bs blk n : (forall x, 0 <= contents d x < 256) -> 0 <= map_entry d bs blk n < 2 ^ 32.
Proof.
  intros Hc. unfold map_entry. set (l := map _ _).
  assert (Hb : bytes_ok l).
  { apply Forall_forall. intros x Hx. apply list_elem_of_In, in_map_iff in Hx. destruct Hx as (z & <- & _). apply Hc. }
  pose proof (le_val_range l Hb) as Hr. assert (Hl : zlen l = 4) by (unfold l, zlen; by rewrite length_map, length_seqZ).
  rewrite Hl in Hr. exact Hr.
Qed.

Lemma load_entry_run (d : D) bs blk n : 0 <= n -> 4 * n + 4 <= bs -> load_entry (block_bytes d bs blk) n = Some (map_entry d bs blk n).
Proof.
  intros Hn Hl. unfold load_entry. rewrite slice_some by (rewrite ?zlen_block_bytes; lia). orun. f_equal. unfold map_entry. f_equal.
  apply list_eq. intros i. destruct (decide (i < 4)%nat) as [Hi|Hi].
  - rewrite lookup_take_lt, lookup_drop, block_bytes_lookup by lia.
    rewrite (list_lookup_fmap (contents d)), lookup_seqZ_lt by lia. cbn. do 2 f_equal. lia.
  - rewrite lookup_take_ge by lia. rewrite lookup_ge_None_2; [done|]. rewrite length_map, length_seqZ. lia.
Qed.

(** Looking a block up: no flag that changes anything. *)
Definition lookup_only (fl : Z) : Prop :=
  truthy (Z.land fl BMAP_SET) = false /\ truthy (Z.land fl BMAP_ALLOC) = false /\ truthy (Z.land fl BMAP_ZERO) = false.

Context (fuel : nat) (junk : res unit).

Lemma ind_lookup s fl ind n res0 : geometry (fs s) -> (forall x, 0 <= contents (dev s) x < 256) -> lookup_only fl ->
  0 <= ind < 2 ^ 32 -> 0 <= n < blksize (fs s) / 4 ->
  exists r s', block_ind_bmap fresh fuel junk fl ind n res0 s = Some (r, s') /\ unchanged s s' /\
    (forall v, r = Ok v -> v = follow (dev s) (blksize (fs s)) [n] ind).
Proof.
  intros Hg Hb (Hset & Hal & _) Hi Hn. pose proof Hg as [_ [_ Hbs] _ _ _ _]. unfold block_ind_bmap. rewrite Hset. cbn [follow].
  destruct (Z.eqb_spec ind 0) as [->|Hne]; [exists (Ok 0), s; split; [done|]; split; [done|]; by intros v [= <-]|].
  destruct (read_block_run s ind Hg ltac:(lia) ltac:(nia)) as (r & d & Hr & Hd & Hok). destruct r as [buf|e].
  2: { rewrite (andthen_err _ _ _ _ _ Hr). by exists (Err e), (set_dev s d). }
  rewrite (andthen_ok _ _ _ _ _ Hr). rewrite (Hok buf eq_refl).
  rewrite (lift_run _ _ _ _ (load_entry_run (dev s) (blksize (fs s)) ind n ltac:(lia) ltac:(divlia))). rewrite Hal, andb_false_r.
  eexists (Ok _), (set_dev s d). split; [done|]. split; [done|]. by intros v [= <-].
Qed.

Lemma flags_lookup fl : lookup_only fl -> lookup_only (Z.land fl (Z.lnot BMAP_SET)).
Proof.
  intros (H1 & H2 & H3). unfold lookup_only. rewrite <- !Z.land_assoc.
  change (Z.land (Z.lnot BMAP_SET) BMAP_SET) with 0. change (Z.land (Z.lnot BMAP_SET) BMAP_ALLOC) with BMAP_ALLOC.
  change (Z.land (Z.lnot BMAP_SET) BMAP_ZERO) with BMAP_ZERO. by rewrite Z.land_0_r.
Qed.

Lemma apb_run f : geometry f -> addr_per_block f = blksize f / 4 /\ 0 < blksize f / 4 < 2 ^ 16 /\ Z.shiftr (blksize f) 2 = blksize f / 4.
Proof.
  intros [_ [_ Hb] _ _ _ _]. unfold addr_per_block. rewrite Z.shiftr_div_pow2 by lia. change (2 ^ 2) with 4.
  rewrite wrap_small by divlia. split_and!; [done | divlia | divlia | done].
Qed.

Lemma follow_range (d : D) bs path : (forall x, 0 <= contents d x < 256) -> forall blk, 0 <= blk < 2 ^ 32 -> 0 <= follow d bs path blk < 2 ^ 32.
Proof.
  intros Hb. induction path as [|n path IH]; intros blk Hk; cbn; [done|]. destruct (blk =? 0); [lia|]. by apply IH, entry_range.
Qed.

Lemma follow_app (d : D) bs p q : forall blk, follow d bs (p ++ q) blk = follow d bs q (follow d bs p blk).
Proof.
  induction p as [|n p IH]; intros blk; cbn; [done|]. destruct (blk =? 0); [|apply IH]. by destruct q.
Qed.

Lemma dind_lookup s fl ind b res0 : geometry (fs s) -> (forall x, 0 <= contents (dev s) x < 256) -> lookup_only fl ->
  0 <= ind < 2 ^ 32 -> 0 <= b < (blksize (fs s) / 4) * (blksize (fs s) / 4) ->
  exists r s', block_dind_bmap fresh fuel junk fl ind b res0 s = Some (r, s') /\ unchanged s s' /\
    (forall v, r = Ok v -> v = follow (dev s) (blksize (fs s)) [b / (blksize (fs s) / 4); b mod (blksize (fs s) / 4)] ind).
Proof.
  intros Hg Hb Hf Hi Hn. destruct (apb_run _ Hg) as (Ha & Hp & _). unfold block_dind_bmap. rewrite gets_run, Ha.
  set (n := blksize (fs s) / 4) in *. rewrite (proj2 (Z.eqb_neq n 0)) by lia.
  assert (Hq : 0 <= b / n < n) by (split; [apply Z.div_pos; lia | apply Z.div_lt_upper_bound; lia]).
  pose proof (Z.mod_pos_bound b n ltac:(lia)) as Hm.
  destruct (ind_lookup s _ ind (b / n) 0 Hg Hb (flags_lookup _ Hf) Hi Hq) as (r & s1 & E1 & U1 & H1). destruct r as [v|e].
  2: { rewrite (andthen_err _ _ _ _ _ E1). by exists (Err e), s1. }
  rewrite (andthen_ok _ _ _ _ _ E1). specialize (H1 v eq_refl). destruct U1 as [Ef1 Hc1].
  destruct (ind_lookup s1 fl v (b mod n) res0) as (r & s2 & E2 & U2 & H2); [by rewrite Ef1 | intros x; rewrite Hc1; apply Hb | done | | by rewrite Ef1|].
  { rewrite H1. by apply follow_range. }
  exists r, s2. split; [exact E2|]. split; [by eapply unchanged_trans|]. intros u ->. rewrite (H2 u eq_refl), Ef1.
  rewrite (follow_same (dev s)) by done. rewrite H1. by rewrite <- (follow_app (dev s) _ [b / n] [b mod n]).
Qed.

Lemma tind_lookup s fl ind b res0 : geometry (fs s) -> (forall x, 0 <= contents (dev s) x < 256) -> lookup_only fl ->
  0 <= ind < 2 ^ 32 -> 0 <= b < (blksize (fs s) / 4) * (blksize (fs s) / 4) * (blksize (fs s) / 4) ->
  exists r s', block_tind_bmap fresh fuel junk fl ind b res0 s = Some (r, s') /\ unchanged s s' /\
    (forall v, r = Ok v -> v = follow (dev s) (blksize (fs s))
       [b / (blksize (fs s) / 4) / (blksize (fs s) / 4); (b / (blksize (fs s) / 4)) mod (blksize (fs s) / 4); b mod (blksize (fs s) / 4)] ind).
Proof.
  intros Hg Hb Hf Hi Hn. destruct (apb_run _ Hg) as (Ha & Hp & _). unfold block_tind_bmap. rewrite gets_run, Ha.
  set (n := blksize (fs s) / 4) in *. rewrite (proj2 (Z.eqb_neq n 0)) by lia.
  assert (Hq : 0 <= b / n < n * n) by (split; [apply Z.div_pos; lia | apply Z.div_lt_upper_bound; nia]).
  pose proof (Z.mod_pos_bound b n ltac:(lia)) as Hm.
  destruct (dind_lookup s _ ind (b / n) 0 Hg Hb (flags_lookup _ Hf) Hi Hq) as (r & s1 & E1 & U1 & H1). destruct r as [v|e].
  2: { rewrite (andthen_err _ _ _ _ _ E1). by exists (Err e), s1. }
  rewrite (andthen_ok _ _ _ _ _ E1). specialize (H1 v eq_refl). destruct U1 as [Ef1 Hc1].
  destruct (ind_lookup s1 fl v (b mod n) res0) as (r & s2 & E2 & U2 & H2); [by rewrite Ef1 | intros x; rewrite Hc1; apply Hb | done | | by rewrite Ef1|].
  { rewrite H1. by apply follow_range. }
  exists r, s2. split; [exact E2|]. split; [by eapply unchanged_trans|]. intros u ->. rewrite (H2 u eq_refl), Ef1.
  rewrite (follow_same (dev s)) by done. rewrite H1. by rewrite <- (follow_app (dev s) _ [_; _] [b mod n]).
Qed.

Context (extent_goal : list Z -> Z -> M (st (D := D)) (option Z)).
Context (extent_bmap : Z -> list Z -> Z -> Z -> Z -> M (st (D := D)) (res Z * list Z * Z)).

(** A file that is mapped by direct and indirect blocks. *)
Definition mapped_inode (inode : list Z) : Prop :=
  zlen inode = 128 /\ bytes_ok inode /\ truthy (Z.land (inode ~> i_flags) EXT4_EXTENTS_FL) = false /\
  truthy (Z.land (inode ~> i_flags) EXT4_INLINE_DATA_FL) = false.

Lemma i_block_range inode n : zlen inode = 128 -> bytes_ok inode -> 0 <= n <= 14 ->
  f_in inode (i_block_at n) /\ 0 <= inode ~> i_block_at n < 2 ^ 32.
Proof.
  intros Hl Hb Hn. assert (Hf : f_in inode (i_block_at n)) by (unfold f_in; cbn; lia). split; [done|].
  exact (getf_range inode (i_block_at n) Hb Hf).
Qed.

Lemma goal_run s ino inode block : mapped_inode inode -> exists g, ext2_find_inode_goal extent_goal ino inode block s = Some (g, s).
Proof.
  intros (_ & _ & He & Hi). unfold ext2_find_inode_goal. rewrite gets_run, He, Hi, orb_false_r.
  destruct (ext2_is_inline_symlink inode); [by eexists|]. destruct (truthy (inode ~> i_block_at 0)); by eexists.
Qed.

Lemma direct_lookup s ino fl block b : mapped_inode (b_inode b) -> lookup_only fl ->
  direct_bmap fresh extent_goal fuel junk ino fl block b s =
    Some (Ok tt, mk_bmap (b_inode b) (b_alloc b) (b_dirty b) (b_inode b ~> i_block_at block), s).
Proof.
  intros Hm (Hset & Hal & _). unfold direct_bmap. rewrite Hset, Hal, andb_false_r.
  destruct (goal_run s ino (b_inode b) block Hm) as [g Hg].
  destruct (truthy block); [done|]. unfold mbind, M_bind. by rewrite Hg.
Qed.

Lemma indirect_lookup s walk slot fl block b (n : Z) path :
  lookup_only fl -> b_phys b = 0 ->
  (exists r s', walk fl (b_inode b ~> i_block_at slot) block 0 s = Some (r, s') /\ unchanged s s' /\
     (forall v, r = Ok v -> v = follow (dev s) (blksize (fs s)) (n :: path) (b_inode b ~> i_block_at slot))) ->
  exists r b' s', indirect_bmap fresh fuel junk walk slot fl block b s = Some (r, b', s') /\ unchanged s s' /\
    b_inode b' = b_inode b /\ b_alloc b' = b_alloc b /\ b_dirty b' = b_dirty b /\
    (r = Ok tt -> b_phys b' = follow (dev s) (blksize (fs s)) (n :: path) (b_inode b ~> i_block_at slot)).
Proof.
  intros (Hset & Hal & _) Hz (r & s' & E & U & Hr). unfold indirect_bmap. rewrite Hset, Hal, Hz. cbn zeta.
  change (u32 0) with 0. unfold truthy at 1. destruct (Z.eqb_spec (b_inode b ~> i_block_at slot) 0) as [H0'|Hne]; cbn [negb].
  - rewrite H0'. exists (Ok tt), b, s. by split_and!.
  - rewrite (bind_run _ _ _ _ _ E). destruct r as [v|e].
    + eexists (Ok tt), _, s'. split; [done|]. split; [done|]. split_and!; try done. intros _. by apply Hr.
    + eexists (Err e), b, s'. by split_and!.
Qed.

(** The four kinds of block are those of [block_path]. *)
Lemma map_lookup s ino fl block b :
  geometry (fs s) -> (forall x, 0 <= contents (dev s) x < 256) -> mapped_inode (b_inode b) -> lookup_only fl -> b_phys b = 0 ->
  0 <= block < 12 + blksize (fs s) / 4 + (blksize (fs s) / 4) * (blksize (fs s) / 4)
                + (blksize (fs s) / 4) * (blksize (fs s) / 4) * (blksize (fs s) / 4) ->
  exists r b' s', map_bmap fresh extent_goal fuel junk ino fl block b s = Some (r, b', s') /\ unchanged s s' /\
    b_inode b' = b_inode b /\ b_alloc b' = b_alloc b /\ b_dirty b' = b_dirty b /\
    (r = Ok tt -> b_phys b' = file_block (dev s) (blksize (fs s)) (b_inode b) block).
Proof.
  intros Hg Hb Hm Hf Hz Hblk. destruct (apb_run _ Hg) as (_ & Hn & Hs). unfold map_bmap, file_block, block_path. rewrite gets_run, Hs.
  set (n := blksize (fs s) / 4) in *. rewrite (wrap_small 64 (n * n)) by nia. cbn zeta.
  pose proof Hm as (Hl & Hib & _ & _).
  destruct (Z.ltb_spec block 12).
  { rewrite direct_lookup by done. eexists _, _, s. split; [done|]. by split_and!. }
  destruct (Z.ltb_spec (block - 12) n).
  { apply indirect_lookup; [done | done|]. apply ind_lookup; [done | done | done | by apply i_block_range | fold n; lia]. }
  destruct (Z.ltb_spec (block - 12 - n) (n * n)).
  { apply indirect_lookup; [done | done|]. apply dind_lookup; [done | done | done | by apply i_block_range | fold n; lia]. }
  apply indirect_lookup; [done | done|]. apply tind_lookup; [done | done | done | by apply i_block_range | fold n; lia].
Qed.

Lemma too_big_run f inode block : geometry f -> mapped_inode inode -> 0 <= block -> ext2_file_block_offset_too_big f inode block = false ->
  block < 12 + blksize f / 4 + (blksize f / 4) * (blksize f / 4) + (blksize f / 4) * (blksize f / 4) * (blksize f / 4).
Proof.
  intros Hg (_ & _ & He & _) Hk. destruct (apb_run _ Hg) as (_ & Hn & Hs). unfold ext2_file_block_offset_too_big.
  destruct (Z.leb_spec (2 ^ 32 - 1) block); [done|]. rewrite He, Hs. set (n := blksize f / 4) in *. cbn zeta.
  pose proof (geo_block _ Hg) as [_ Hb]. assert (n <= 16384) by (unfold n; divlia).
  rewrite (wrap_small 64 (n * n)), (wrap_small 64 (n * n * n)) by nia. rewrite wrap_small by nia. lia.
Qed.

Lemma bmap_lookup s ino inode own fl block phys :
  geometry (fs s) -> (forall x, 0 <= contents (dev s) x < 256) -> mapped_inode inode -> lookup_only fl -> 0 <= block ->
  exists r p s', ext2_bmap fresh extent_goal extent_bmap fuel junk ino (Some inode) own fl block phys s = Some (r, p, inode, s') /\
    unchanged s s' /\
    if ext2_file_block_offset_too_big (fs s) inode block then r = Err EFBIG
    else r = Ok tt -> p = file_block (dev s) (blksize (fs s)) inode block.
Proof.
  intros Hg Hb Hm Hf Hk. pose proof Hm as (_ & _ & He & Hi). pose proof Hf as (Hset & _ & Hzero).
  unfold ext2_bmap. rewrite Hset. cbn zeta. rewrite ret_run, gets_run.
  destruct (ext2_file_block_offset_too_big _ _ _) eqn:Eb; [by eexists _, _, s|]. rewrite Hi.
  assert (Hal : exists ok o, (if own then mret true else alloc) s = Some (ok, set_oracle s o)).
  { destruct own; [exists true, (oracle s); by destruct s | apply alloc_run]. }
  destruct Hal as (ok & o & Eo). rewrite (bind_run _ _ _ _ _ Eo). destruct ok; cbn [negb].
  2: { by eexists (Err ENOMEM), 0, (set_oracle s o). }
  rewrite He. destruct (map_lookup (set_oracle s o) ino fl block (mk_bmap inode 0 false 0)) as (r & b & s1 & E1 & U1 & Hbi & Hba & Hbd & Hr);
    [done | done | done | done | done | split; [done | by eapply too_big_run]|].
  rewrite (bind_run _ _ _ _ _ E1). cbn in Hbi, Hba, Hbd. rewrite Hzero, andb_false_r, Hba, Hbd, Hbi.
  destruct r as [ []|e]; eexists _, _, s1; (split; [done|]); split; [done | by intros _; apply Hr | done | done].
Qed.

(** ** Setting an entry *)

Definition set_only (fl : Z) : Prop :=
  truthy (Z.land fl BMAP_SET) = true /\ truthy (Z.land fl BMAP_ALLOC) = false /\ truthy (Z.land fl BMAP_ZERO) = false.

Lemma flags_set_lookup fl : set_only fl -> lookup_only (Z.land fl (Z.lnot BMAP_SET)).
Proof.
  intros (_ & H2 & H3). unfold lookup_only. rewrite <- !Z.land_assoc.
  change (Z.land (Z.lnot BMAP_SET) BMAP_SET) with 0. change (Z.land (Z.lnot BMAP_SET) BMAP_ALLOC) with BMAP_ALLOC.
  change (Z.land (Z.lnot BMAP_SET) BMAP_ZERO) with BMAP_ZERO. by rewrite Z.land_0_r.
Qed.

(** The blocks of block numbers on a path. *)
Fixpoint pointer_blocks (d : D) (bs : Z) (path : list Z) (blk : Z) : list Z :=
  match path with [] => [] | n :: path => blk :: pointer_blocks d bs path (map_entry d bs blk n) end.

Lemma patched_entry (c : Z -> Z) (d : D) bs blk n v : 0 <= v < 2 ^ 32 ->
  (forall x, contents d x = patched c (blk * bs + 4 * n) (le_bytes 4 v) x) -> map_entry d bs blk n = v.
Proof.
  intros Hv Hc. unfold map_entry. replace (map (contents d) (seqZ (blk * bs + 4 * n) 4)) with (le_bytes 4 v).
  { rewrite le_val_wrap. apply wrap_small. exact Hv. }
  pose proof (le_bytes_len 4 v) as Hl. unfold zlen in Hl. apply list_eq. intros i. destruct (decide (i < 4)%nat) as [Hi|Hi].
  - rewrite (list_lookup_fmap (contents d)), lookup_seqZ_lt by lia. cbn. rewrite Hc. unfold patched.
    destruct (Z.leb_spec (blk * bs + 4 * n) (blk * bs + 4 * n + Z.of_nat i)); [|lia].
    replace (Z.to_nat (blk * bs + 4 * n + Z.of_nat i - (blk * bs + 4 * n))) with i by lia.
    destruct (lookup_lt_is_Some_2 (le_bytes 4 v) i) as [u Hu]; [lia|]. rewrite Hu. done.
  - rewrite !lookup_ge_None_2; [done | rewrite length_map, length_seqZ; lia | lia].
Qed.

(** Entries of other blocks stay. *)
Lemma patched_other_block (d0 d : D) bs blk blk' n m v : 0 < bs -> 0 <= n -> 4 * n + 4 <= bs -> 0 <= m -> 4 * m + 4 <= bs -> blk' <> blk ->
  (forall x, contents d x = patched (contents d0) (blk * bs + 4 * n) (le_bytes 4 v) x) -> map_entry d bs blk' m = map_entry d0 bs blk' m.
Proof.
  intros Hbs Hn Hn4 Hm Hm4 Hne Hc. unfold map_entry. f_equal. apply map_ext_in. intros x Hx.
  apply list_elem_of_In, elem_of_seqZ in Hx. rewrite Hc. unfold patched. pose proof (le_bytes_len 4 v) as Hl. unfold zlen in Hl.
  destruct (Z.leb_spec (blk * bs + 4 * n) x); [|done]. rewrite lookup_ge_None_2; [done|]. nia.
Qed.

(** The entry [m] of the block that the path [pre] leads to is set to [p]. *)
Definition set_at s s' (p : Z) (pre : list Z) (m ind : Z) (r : res Z) : Prop :=
  let last := follow (dev s) (blksize (fs s)) pre ind in
  fs s' = fs s /\
  (forall v, r = Ok v -> v = p /\ last <> 0 /\
     forall x, contents (dev s') x = patched (contents (dev s)) (last * blksize (fs s) + 4 * m) (le_bytes 4 p) x).

Lemma ind_set s fl ind n p : geometry (fs s) -> set_only fl -> 0 <= ind < 2 ^ 32 -> 0 <= n < blksize (fs s) / 4 ->
  exists r s', block_ind_bmap fresh fuel junk fl ind n p s = Some (r, s') /\ set_at s s' p [] n ind r.
Proof.
  intros Hg (Hset & _ & _) Hi Hn. pose proof Hg as [_ [_ Hbs] _ _ _ _]. unfold block_ind_bmap. rewrite Hset.
  destruct (Z.eqb_spec ind 0) as [->|Hne]; [by exists (Err EINVAL), s|].
  destruct (read_block_run s ind Hg ltac:(lia) ltac:(nia)) as (r & d & Hr & Hd & Hok). destruct r as [buf|e].
  2: { rewrite (andthen_err _ _ _ _ _ Hr). by exists (Err e), (set_dev s d). }
  rewrite (andthen_ok _ _ _ _ _ Hr). rewrite (Hok buf eq_refl). clear buf Hr Hok.
  set (s1 := set_dev s d). assert (Hg1 : geometry (fs s1)) by exact Hg. pose proof (le_bytes_len 4 p) as Hl4. change (Z.of_nat 4) with 4 in Hl4.
  assert (Hbuf : block_bytes (dev s) (blksize (fs s)) ind = block_bytes d (blksize (fs s)) ind) by (symmetry; by apply block_bytes_same).
  rewrite Hbuf. destruct (blit_some (block_bytes d (blksize (fs s)) ind) (4 * n) (le_bytes 4 p)) as [b Hb];
    [lia | rewrite zlen_block_bytes by lia; divlia|].
  assert (Hse : store_entry (block_bytes d (blksize (fs s)) ind) n p = Some b) by exact Hb. rewrite (lift_run _ _ _ _ Hse).
  pose proof (blit_len _ _ _ _ Hb) as Hbl. rewrite zlen_block_bytes in Hbl by lia.
  destruct (write_block_run s1 b ind Hg1 Hbl ltac:(lia) ltac:(cbn; nia)) as (r & d2 & Ew & Hw). destruct r as [ []|e].
  2: { rewrite (andthen_err _ _ _ _ _ Ew). by exists (Err e), (set_dev s1 d2). }
  rewrite (andthen_ok _ _ _ _ _ Ew). exists (Ok p), (set_dev s1 d2). split; [done|]. split; [done|].
  intros v [= <-]. split; [done|]. split; [done|]. intros x. cbn. rewrite Hw.
  change (blksize (fs s1)) with (blksize (fs s)). change (dev s1) with d.
  rewrite (patched_block d (blksize (fs s)) ind (4 * n) (le_bytes 4 p) b x) by (done || lia || (rewrite Hl4; divlia)).
  unfold patched. by rewrite Hd.
Qed.

(** Setting below a block that was looked up. *)
Lemma set_below s s1 fl ind pre v m p :
  geometry (fs s) -> set_only fl -> unchanged s s1 -> v = follow (dev s) (blksize (fs s)) pre ind -> 0 <= v < 2 ^ 32 ->
  0 <= m < blksize (fs s) / 4 ->
  exists r s', block_ind_bmap fresh fuel junk fl v m p s1 = Some (r, s') /\ set_at s s' p pre m ind r.
Proof.
  intros Hg Hf [Ef Hc] Hv Hr Hm.
  destruct (ind_set s1 fl v m p) as (r & s2 & E2 & F2 & H2); [by rewrite Ef | done | done | by rewrite Ef|].
  exists r, s2. split; [done|]. split; [congruence|]. intros u ->. destruct (H2 u eq_refl) as (-> & Hne & Hx). cbn [follow] in Hne, Hx.
  split; [done|]. rewrite <- Hv. split; [done|]. intros x. rewrite Hx, Ef. unfold patched. by rewrite Hc.
Qed.

Lemma dind_set s fl ind b p : geometry (fs s) -> (forall x, 0 <= contents (dev s) x < 256) -> set_only fl ->
  0 <= ind < 2 ^ 32 -> 0 <= b < (blksize (fs s) / 4) * (blksize (fs s) / 4) ->
  exists r s', block_dind_bmap fresh fuel junk fl ind b p s = Some (r, s') /\
    set_at s s' p [b / (blksize (fs s) / 4)] (b mod (blksize (fs s) / 4)) ind r.
Proof.
  intros Hg Hb Hf Hi Hn. destruct (apb_run _ Hg) as (Ha & Hp & _). unfold block_dind_bmap. rewrite gets_run, Ha.
  set (n := blksize (fs s) / 4) in *. rewrite (proj2 (Z.eqb_neq n 0)) by lia.
  assert (Hq : 0 <= b / n < n) by (split; [apply Z.div_pos; lia | apply Z.div_lt_upper_bound; lia]).
  pose proof (Z.mod_pos_bound b n ltac:(lia)) as Hm.
  destruct (ind_lookup s _ ind (b / n) 0 Hg Hb (flags_set_lookup _ Hf) Hi Hq) as (r & s1 & E1 & U1 & H1). destruct r as [v|e].
  2: { rewrite (andthen_err _ _ _ _ _ E1). exists (Err e), s1. split; [done|]. by split; [apply U1|]. }
  rewrite (andthen_ok _ _ _ _ _ E1). pose proof (H1 v eq_refl) as Hv.
  apply (set_below s s1 fl ind _ v); [done | done | done | done | rewrite Hv; by apply follow_range | done].
Qed.

Lemma tind_set s fl ind b p : geometry (fs s) -> (forall x, 0 <= contents (dev s) x < 256) -> set_only fl ->
  0 <= ind < 2 ^ 32 -> 0 <= b < (blksize (fs s) / 4) * (blksize (fs s) / 4) * (blksize (fs s) / 4) ->
  exists r s', block_tind_bmap fresh fuel junk fl ind b p s = Some (r, s') /\
    set_at s s' p [b / (blksize (fs s) / 4) / (blksize (fs s) / 4); (b / (blksize (fs s) / 4)) mod (blksize (fs s) / 4)]
      (b mod (blksize (fs s) / 4)) ind r.
Proof.
  intros Hg Hb Hf Hi Hn. destruct (apb_run _ Hg) as (Ha & Hp & _). unfold block_tind_bmap. rewrite gets_run, Ha.
  set (n := blksize (fs s) / 4) in *. rewrite (proj2 (Z.eqb_neq n 0)) by lia.
  assert (Hq : 0 <= b / n < n * n) by (split; [apply Z.div_pos; lia | apply Z.div_lt_upper_bound; nia]).
  pose proof (Z.mod_pos_bound b n ltac:(lia)) as Hm.
  destruct (dind_lookup s _ ind (b / n) 0 Hg Hb (flags_set_lookup _ Hf) Hi Hq) as (r & s1 & E1 & U1 & H1). destruct r as [v|e].
  2: { rewrite (andthen_err _ _ _ _ _ E1). exists (Err e), s1. split; [done|]. by split; [apply U1|]. }
  rewrite (andthen_ok _ _ _ _ _ E1). pose proof (H1 v eq_refl) as Hv.
  apply (set_below s s1 fl ind _ v); [done | done | done | done | rewrite Hv; by apply follow_range | done].
Qed.

(** The block that a path leads to stays where it is when none of the blocks
    before it is the one that is written. *)
Lemma follow_kept (d0 d : D) bs pre m v last : forall blk,
  0 < bs -> 0 <= m -> 4 * m + 4 <= bs -> Forall (fun n => 0 <= n /\ 4 * n + 4 <= bs) pre ->
  follow d0 bs pre blk = last -> last <> 0 -> last ∉ pointer_blocks d0 bs pre blk ->
  (forall x, contents d x = patched (contents d0) (last * bs + 4 * m) (le_bytes 4 v) x) ->
  follow d bs pre blk = last.
Proof.
  induction pre as [|n pre IH]; intros blk Hbs Hm Hm4 Hpre Hl Hne Hin Hc; cbn in *; [done|].
  apply Forall_cons in Hpre as [ [Hn Hn4] Hpre]. apply not_elem_of_cons in Hin as [Hin1 Hin2].
  destruct (blk =? 0); [congruence|].
  rewrite (patched_other_block d0 d bs last blk m n v) by (done || congruence). by apply IH.
Qed.

Lemma pointer_blocks_snoc (d : D) bs pre m : forall blk, follow d bs pre blk <> 0 ->
  pointer_blocks d bs (pre ++ [m]) blk = pointer_blocks d bs pre blk ++ [follow d bs pre blk].
Proof.
  induction pre as [|n pre IH]; intros blk Hne; cbn in *; [done|].
  destruct (blk =? 0); [done|]. by rewrite IH.
Qed.

Lemma set_at_follow s s' p pre m ind r v : set_at s s' p pre m ind r -> r = Ok v -> 0 <= p < 2 ^ 32 -> 0 < blksize (fs s) ->
  0 <= m -> 4 * m + 4 <= blksize (fs s) -> Forall (fun n => 0 <= n /\ 4 * n + 4 <= blksize (fs s)) pre ->
  NoDup (pointer_blocks (dev s) (blksize (fs s)) (pre ++ [m]) ind) ->
  follow (dev s') (blksize (fs s)) (pre ++ [m]) ind = p.
Proof.
  intros [_ Hs] Hr Hp Hbs Hm Hm4 Hpre Hnd. destruct (Hs v Hr) as (_ & Hne & Hc).
  rewrite pointer_blocks_snoc in Hnd by done. apply NoDup_app in Hnd as (_ & Hnd & _).
  rewrite follow_app, (follow_kept (dev s) (dev s') _ pre m p _ ind Hbs Hm Hm4 Hpre eq_refl Hne).
  - cbn [follow]. rewrite (proj2 (Z.eqb_neq _ 0) Hne). by eapply patched_entry.
  - intros Hin. by apply (Hnd _ Hin), list_elem_of_singleton.
  - exact Hc.
Qed.

(** No block of block numbers occurs twice on the way to a block of the file. *)
Definition distinct_path (d : D) (bs : Z) (inode : list Z) (block : Z) : Prop :=
  let '(slot, path) := block_path bs block in NoDup (pointer_blocks d bs path (inode ~> i_block_at slot)).

Lemma indirect_set s walk slot fl block b p pre m :
  set_only fl -> b_phys b = p -> 0 <= p < 2 ^ 32 ->
  (exists r s', walk fl (b_inode b ~> i_block_at slot) block p s = Some (r, s') /\
     set_at s s' p pre m (b_inode b ~> i_block_at slot) r) ->
  exists r b' s', indirect_bmap fresh fuel junk walk slot fl block b s = Some (r, b', s') /\ fs s' = fs s /\
    b_inode b' = b_inode b /\ b_alloc b' = b_alloc b /\ b_dirty b' = b_dirty b /\
    (r = Ok tt -> b_phys b' = p /\ set_at s s' p pre m (b_inode b ~> i_block_at slot) (Ok p)).
Proof.
  intros (Hset & Hal & _) Hz Hp (r & s' & E & Hr). unfold indirect_bmap. rewrite Hset, Hal, Hz. cbn zeta.
  rewrite (wrap_small 32) by lia. destruct (truthy (b_inode b ~> i_block_at slot)); cbn [negb].
  - rewrite (bind_run _ _ _ _ _ E). destruct r as [v|e].
    + destruct (proj2 Hr v eq_refl) as [-> _]. eexists (Ok tt), _, s'. split; [done|]. split; [apply Hr|]. by split_and!.
    + eexists (Err e), b, s'. split; [done|]. split; [apply Hr|]. by split_and!.
  - exists (Err EINVAL), b, s. by split_and!.
Qed.

(** A walk that sets the entry at the end of a path sets the block of the file. *)
Lemma set_finish s b p pre m slot (X : M (st (D := D)) (res unit * bmap_state)) :
  1024 <= blksize (fs s) -> (forall x, 0 <= contents (dev s) x < 256) -> 0 <= p < 2 ^ 32 ->
  0 <= m < blksize (fs s) / 4 -> Forall (fun i => 0 <= i < blksize (fs s) / 4) pre ->
  NoDup (pointer_blocks (dev s) (blksize (fs s)) (pre ++ [m]) (b_inode b ~> i_block_at slot)) ->
  (exists r b' s', X s = Some (r, b', s') /\ fs s' = fs s /\ b_inode b' = b_inode b /\ b_alloc b' = b_alloc b /\ b_dirty b' = b_dirty b /\
    (r = Ok tt -> b_phys b' = p /\ set_at s s' p pre m (b_inode b ~> i_block_at slot) (Ok p))) ->
  exists r b' s', X s = Some (r, b', s') /\ fs s' = fs s /\ b_inode b' = b_inode b /\ b_alloc b' = b_alloc b /\ b_dirty b' = b_dirty b /\
    (r = Ok tt -> b_phys b' = p /\ follow (dev s') (blksize (fs s)) (pre ++ [m]) (b_inode b ~> i_block_at slot) = p /\
       forall x, 0 <= contents (dev s') x < 256).
Proof.
  intros Hbs Hb Hp Hm Hpre Hnd (r & b' & s' & E & E1 & E2 & E3 & E4 & Hr). exists r, b', s'. split_and!; try done.
  assert (Hn4 : forall i, 0 <= i < blksize (fs s) / 4 -> 0 <= i /\ 4 * i + 4 <= blksize (fs s)) by (intros i Hi; divlia).
  intros Hrr. destruct (Hr Hrr) as [Hph Hat]. split; [done|]. split.
  - apply (set_at_follow s s' p pre m _ (Ok p) p Hat eq_refl Hp ltac:(lia)); [apply Hn4; lia | apply Hn4; lia | | done].
    eapply Forall_impl; [exact Hpre|]. auto.
  - destruct (proj2 Hat p eq_refl) as (_ & _ & Hc). intros x. rewrite Hc. apply patched_bytes; [done | apply le_bytes_ok].
Qed.

Lemma map_set s ino fl block b p :
  geometry (fs s) -> (forall x, 0 <= contents (dev s) x < 256) -> mapped_inode (b_inode b) -> set_only fl -> b_phys b = p ->
  0 <= p < 2 ^ 32 -> distinct_path (dev s) (blksize (fs s)) (b_inode b) block ->
  12 <= block < 12 + blksize (fs s) / 4 + (blksize (fs s) / 4) * (blksize (fs s) / 4)
                + (blksize (fs s) / 4) * (blksize (fs s) / 4) * (blksize (fs s) / 4) ->
  exists r b' s', map_bmap fresh extent_goal fuel junk ino fl block b s = Some (r, b', s') /\ fs s' = fs s /\
    b_inode b' = b_inode b /\ b_alloc b' = b_alloc b /\ b_dirty b' = b_dirty b /\
    (r = Ok tt -> b_phys b' = p /\ file_block (dev s') (blksize (fs s)) (b_inode b) block = p /\
       forall x, 0 <= contents (dev s') x < 256).
Proof.
  intros Hg Hb Hm Hf Hz Hp Hd Hblk. destruct (apb_run _ Hg) as (_ & Hn & Hs). pose proof (geo_block _ Hg) as [_ Hbs].
  unfold map_bmap, file_block, block_path, distinct_path in *. rewrite gets_run, Hs.
  unfold block_path in Hd.
  set (n := blksize (fs s) / 4) in *. rewrite (wrap_small 64 (n * n)) by nia. cbn zeta in *.
  pose proof Hm as (Hl & Hib & _ & _). replace (block <? 12) with false in * by lia.
  destruct (Z.ltb_spec (block - 12) n).
  { apply (set_finish s b p [] (block - 12) 12); [lia | done | done | fold n; lia | constructor | done|].
    apply indirect_set; [done | done | done|]. apply ind_set; [done | done | by apply i_block_range | fold n; lia]. }
  destruct (Z.ltb_spec (block - 12 - n) (n * n)).
  { set (k := block - 12 - n) in *. assert (Hk : 0 <= k / n < n) by (split; [apply Z.div_pos; lia | apply Z.div_lt_upper_bound; lia]).
    pose proof (Z.mod_pos_bound k n ltac:(lia)).
    apply (set_finish s b p [k / n] (k mod n) 13); [lia | done | done | done | by apply Forall_singleton | done|].
    apply indirect_set; [done | done | done|]. apply dind_set; [done | done | done | by apply i_block_range | fold n; lia]. }
  set (k := block - 12 - n - n * n) in *.
  assert (Hk : 0 <= k / n < n * n) by (split; [apply Z.div_pos; lia | apply Z.div_lt_upper_bound; nia]).
  assert (Hk2 : 0 <= k / n / n < n) by (split; [apply Z.div_pos; lia | apply Z.div_lt_upper_bound; lia]).
  pose proof (Z.mod_pos_bound k n ltac:(lia)). pose proof (Z.mod_pos_bound (k / n) n ltac:(lia)).
  apply (set_finish s b p [k / n / n; (k / n) mod n] (k mod n) 14); [lia | done | done | done | | done|].
  { apply Forall_cons. split; [done | by apply Forall_singleton]. }
  apply indirect_set; [done | done | done|]. apply tind_set; [done | done | done | by apply i_block_range | fold n; lia].
Qed.

Lemma iblk_keeps f (inode : list Z) n : zlen inode = 128 -> bytes_ok inode ->
  let i := match ext2_iblk_add_blocks f inode n with Ok i => i | Err _ => inode end in
  zlen i = 128 /\ bytes_ok i /\ forall fl, 0 <= f_off fl -> 0 <= f_len fl -> f_disjoint i_blocks fl -> f_disjoint l_i_blocks_hi fl -> i ~> fl = inode ~> fl.
Proof.
  intros Hl Hb. unfold ext2_iblk_add_blocks. set (v := s64 _).
  assert (H1 : f_in inode l_i_blocks_hi) by (unfold f_in; cbn; lia). assert (H2 : f_in inode i_blocks) by (unfold f_in; cbn; lia).
  assert (H3 : f_in (setf inode l_i_blocks_hi (Z.shiftr v 32)) i_blocks) by (unfold f_in; cbn; rewrite zlen_setf by done; lia).
  destruct (huge f); [|destruct (_ <? _); [done|] ]; cbn.
  - split; [by rewrite !zlen_setf|]. split; [by repeat apply bytes_ok_setf|]. intros fl Ho Hn D1 D2.
    by rewrite !getf_setf_other.
  - split; [by rewrite zlen_setf|]. split; [by apply bytes_ok_setf|]. intros fl Ho Hn D1 D2. by rewrite getf_setf_other.
Qed.

(** An inode whose direct entry was set, as it is written back. *)
Lemma direct_set_inode f (inode : list Z) block p : mapped_inode inode -> 0 <= block < 12 -> 0 <= p < 2 ^ 32 ->
  let x := setf inode (i_block_at block) p in
  let i := match ext2_iblk_add_blocks f x (u64 0) with Ok i => i | Err _ => x end in
  mapped_inode i /\ i ~> i_block_at block = p.
Proof.
  intros (Hl & Hb & He & Hi) Hk Hp x i. destruct (i_block_range inode block Hl Hb ltac:(lia)) as [Hin _].
  assert (Hxl : zlen x = 128) by (unfold x; by rewrite zlen_setf).
  destruct (iblk_keeps f x (u64 0) Hxl ltac:(by apply bytes_ok_setf)) as (Kl & Kb & Kf). fold i in Kl, Kb, Kf.
  assert (Hfl : i ~> i_flags = inode ~> i_flags).
  { rewrite Kf by (cbn; lia || unfold f_disjoint; cbn; lia). unfold x.
    apply getf_setf_other; [done | cbn; lia | cbn; lia | unfold f_disjoint; cbn; lia]. }
  split; [split_and!; [done | done | by rewrite Hfl | by rewrite Hfl]|].
  rewrite Kf by (cbn; lia || unfold f_disjoint; cbn; lia). unfold x. rewrite getf_setf_same by done. apply wrap_small. cbn. lia.
Qed.

(** What setting a block means for looking it up. *)
Definition set_looked_up s' ino block p i : Prop :=
  forall own fl phys, lookup_only fl ->
  exists r q s'', ext2_bmap fresh extent_goal extent_bmap fuel junk ino (Some i) own fl block phys s' = Some (r, q, i, s'') /\
    (r = Ok tt -> q = p).

Lemma lookup_after s' ino block p i : geometry (fs s') -> (forall x, 0 <= contents (dev s') x < 256) -> mapped_inode i -> 0 <= block ->
  file_block (dev s') (blksize (fs s')) i block = p -> set_looked_up s' ino block p i.
Proof.
  intros Hg Hb Hm Hk Hp own fl phys Hf. destruct (bmap_lookup s' ino i own fl block phys Hg Hb Hm Hf Hk) as (r & q & s2 & E & _ & Hr).
  exists r, q, s2. split; [exact E|]. intros ->. destruct (ext2_file_block_offset_too_big _ _ _); [done|]. by rewrite Hr.
Qed.

Lemma bmap_set_ok s ino inode own fl block p :
  inodes_ok s -> valid_ino (fs s) ino -> mapped_inode inode -> set_only fl -> 0 <= block ->
  ext2_file_block_offset_too_big (fs s) inode block = false -> 0 <= p < 2 ^ 32 ->
  distinct_path (dev s) (blksize (fs s)) inode block ->
  exists r q i s', ext2_bmap fresh extent_goal extent_bmap fuel junk ino (Some inode) own fl block p s = Some (r, q, i, s') /\
    (r = Ok tt -> q = p /\ set_looked_up s' ino block p i).
Proof.
  intros Hok Hv Hm Hf Hk Hbig Hp Hd. pose proof (io_geometry _ Hok) as Hg. pose proof (io_bytes _ Hok) as Hb.
  pose proof Hm as (Hl & Hib & He & Hi). pose proof Hf as (Hset & Hal & Hzero). pose proof (too_big_run _ _ _ Hg Hm Hk Hbig) as Hlim.
  unfold ext2_bmap. rewrite Hset. cbn zeta. rewrite ret_run, gets_run, Hbig, Hi.
  assert (Ha : exists ok o, (if own then mret true else alloc) s = Some (ok, set_oracle s o)).
  { destruct own; [exists true, (oracle s); by destruct s | apply alloc_run]. }
  destruct Ha as (ok & o & Eo). rewrite (bind_run _ _ _ _ _ Eo). destruct ok; cbn [negb].
  2: { by eexists (Err ENOMEM), _, _, (set_oracle s o). }
  rewrite He. destruct (oracle_step s o Hok) as [_ Hok0]. set (s0 := set_oracle s o) in *.
  destruct (Z.ltb_spec block 12) as [Hdir|Hind].
  - assert (Em : map_bmap fresh extent_goal fuel junk ino fl block (mk_bmap inode 0 false p) s0 =
      Some (Ok tt, mk_bmap (setf inode (i_block_at block) p) 0 true p, s0)).
    { unfold map_bmap. rewrite gets_run. replace (block <? 12) with true by lia. unfold direct_bmap. by rewrite Hset. }
    rewrite (bind_run _ _ _ _ _ Em). rewrite Hzero, andb_false_r. cbn zeta. rewrite ret_run. cbn [b_alloc b_dirty orb truthy Z.eqb negb b_inode b_phys].
    rewrite gets_run. destruct (direct_set_inode (fs s0) inode block p Hm ltac:(lia) Hp) as [Hmi Hbi]. cbn zeta in Hmi, Hbi.
    set (i := match ext2_iblk_add_blocks _ _ _ with Ok i => i | Err _ => _ end) in *.
    destruct (update_inode_ok s0 ino i Hok0 Hv (proj1 Hmi) (proj1 (proj2 Hmi))) as (r & s' & E & Hr).
    rewrite (bind_run _ _ _ _ _ E). exists r, p, i, s'. split; [done|]. intros ->. split; [done|]. destruct Hr as (_ & Hok' & _).
    apply lookup_after; [apply Hok' | apply Hok' | done | done|]. unfold file_block, block_path. by replace (block <? 12) with true by lia.
  - destruct (map_set s0 ino fl block (mk_bmap inode 0 false p) p) as (r & b & s1 & E1 & F1 & Hbi & Hba & Hbd & Hr);
      [apply Hok0 | apply Hok0 | done | done | done | done | done | cbn; lia|].
    rewrite (bind_run _ _ _ _ _ E1). cbn in Hbi, Hba, Hbd. rewrite Hzero, andb_false_r, Hba, Hbd, Hbi.
    destruct r as [ []|e]; [|by eexists (Err e), _, _, s1]. destruct (Hr eq_refl) as (Hph & Hfb & Hbb). rewrite Hph.
    exists (Ok tt), p, inode, s1. split; [done|]. intros _. split; [done|].
    apply lookup_after; [by rewrite F1 | done | done | done | by rewrite F1].
Qed.

(** C13: Writing back the 128 bytes of an inode either fails and changes at most the block of
    the inode, or fills the slot of the inode in the inode table with these bytes, their
    checksum set, followed by zeros up to the inode size of the file system (so the fields of
    a larger inode are cleared, [update_clears_rest] below), and changes no byte of the device
    outside of that slot; reading the inode then succeeds and gives the bytes written, apart
    from the checksum, and the cache stays consistent with the device. *)
Theorem update_inode_correct s ino inode :
  inodes_ok s -> valid_ino (fs s) ino -> zlen inode = 128 -> bytes_ok inode ->
  exists r s', ext2_update_inode fresh ino inode 128 s = Some (r, s') /\
    match r with Ok _ => updated s s' ino inode | Err _ => block_kept s s' (inode_block (fs s) ino) end.
Proof. apply update_inode_ok. Qed.

(** C14: The block map follows the tree of direct, indirect, doubly and triply indirect blocks
    that the device holds: a lookup changes nothing and gives the block at the end of the path
    of the file block, zero for a hole, and EFBIG past the largest file; setting the entry of
    a file block, at any depth, makes every later lookup give the block that was set. *)
Theorem bmap_correct s ino inode block :
  inodes_ok s -> valid_ino (fs s) ino -> mapped_inode inode -> 0 <= block ->
  (forall own fl phys, lookup_only fl ->
     exists r q s', ext2_bmap fresh extent_goal extent_bmap fuel junk ino (Some inode) own fl block phys s = Some (r, q, inode, s') /\
       unchanged s s' /\
       if ext2_file_block_offset_too_big (fs s) inode block then r = Err EFBIG
       else r = Ok tt -> q = file_block (dev s) (blksize (fs s)) inode block) /\
  (forall own fl p, set_only fl -> ext2_file_block_offset_too_big (fs s) inode block = false -> 0 <= p < 2 ^ 32 ->
     distinct_path (dev s) (blksize (fs s)) inode block ->
     exists r q i s', ext2_bmap fresh extent_goal extent_bmap fuel junk ino (Some inode) own fl block p s = Some (r, q, i, s') /\
       (r = Ok tt -> q = p /\ set_looked_up s' ino block p i)).
Proof.
  intros Hok Hv Hm Hk. split; intros own fl p Hf; [|by intros; apply bmap_set_ok].
  apply bmap_lookup; [apply Hok | apply Hok | done | done | done].
Qed.
End inodes.


(** ** A filesystem in memory *)

(** The filesystem of [Ext2Alloc] with checksums of metadata and inodes of [size]
    bytes, whose tables are blocks 3 and 11. *)
Definition inode_super (size : Z) : list Z :=
  setf (setf demo_super s_inode_size size) s_feature_ro_compat EXT4_FT_RO_COMPAT_METADATA_CSUM.
Definition inode_table : list Z :=
  setf (setf demo_table (F (f_off bg_inode_table) 4) 3) (F (32 + f_off bg_inode_table) 4) 11.
Definition inode_cache0 (size : Z) : inode_cache :=
  mk_icache (replicate 1024 0) 0 (-1) (replicate 4 (0, replicate (Z.to_nat size) 0)).
Definition inode_fs (size : Z) : ext2_fs :=
  mk_fs (inode_super size) 0 0 1024 2 1 inode_table (size / 128) (Some demo_bitmap) None 0 0xffffffff (Some (inode_cache0 size)).
Definition inode_state (size : Z) (bytes : Z -> Z) : st (D := ramdisk) :=
  mk_st (inode_fs size) (mk_disk 17408 bytes) [] crc32_tables0 [] 0.
Definition no_memory (n : Z) : Z * list Z := (0, []).

(** Block 9 refers to block 10 in its entry 5. *)
Definition ind_disk (x : Z) : Z := if x =? 9 * 1024 + 4 * 5 then 10 else 0.
Definition demo_inode : list Z := setf (setf (replicate 128 0) i_mode 0x81a4) (i_block_at 12) 9.

Lemma inode_geometry : geometry (inode_fs 128).
Proof.
  split; try (vm_compute; intuition discriminate).
  split; try (vm_compute; intuition discriminate); apply Forall_forall; intros x Hx.
  all: apply list_elem_of_In in Hx; vm_compute in Hx; intuition (subst; lia).
Qed.

Lemma inode_demo_ok bytes : (forall x, 0 <= bytes x < 256) -> inodes_ok (inode_state 128 bytes).
Proof.
  intros Hb. split; [exact inode_geometry | by left | exact Hb|]. exists (inode_cache0 128). split; [done|].
  split; try (vm_compute; intuition discriminate).
  - split; [done | apply bytes_replicate_0].
  - apply Forall_replicate. split; [done | apply bytes_replicate_0].
Qed.

Lemma demo_valid_ino : valid_ino (inode_fs 128) 2.
Proof. vm_compute. intuition discriminate. Qed.

Lemma demo_inode_mapped : mapped_inode demo_inode.
Proof.
  split; [done|]. split; [|done]. repeat apply bytes_ok_setf. apply bytes_replicate_0.
Qed.

Lemma ind_disk_bytes x : 0 <= ind_disk x < 256.
Proof. unfold ind_disk. destruct (_ =? _); lia. Qed.

Lemma update_inode_correct_witness :
  exists s', ext2_update_inode no_memory 2 demo_inode 128 (inode_state 128 ind_disk) = Some (Ok tt, s') /\
    updated no_memory (inode_state 128 ind_disk) s' 2 demo_inode.
Proof.
  destruct (update_inode_correct no_memory (inode_state 128 ind_disk) 2 demo_inode) as (r & s' & E & Hr).
  - apply inode_demo_ok, ind_disk_bytes.
  - exact demo_valid_ino.
  - reflexivity.
  - apply demo_inode_mapped.
  - assert (Ho : option_map fst (ext2_update_inode no_memory 2 demo_inode 128 (inode_state 128 ind_disk)) = Some (Ok tt))
      by (vm_compute; reflexivity).
    rewrite E in Ho. injection Ho as ->. exists s'. split; [exact E | exact Hr].
Defined.

Abbreviation demo_bmap i fl block phys :=
  (ext2_bmap no_memory (fun _ _ => mret None) (fun _ _ _ _ _ => mret (Err EIO, [], 0)) 20 (Ok tt) 2 (Some i) true fl block phys).

(** Block 17 of the file is block 10; it is set to 12 and looked up again. *)
Lemma bmap_correct_witness :
  (exists s', demo_bmap demo_inode 0 17 0 (inode_state 128 ind_disk) = Some (Ok tt, 10, demo_inode, s')) /\
  exists i s', demo_bmap demo_inode 2 17 12 (inode_state 128 ind_disk) = Some (Ok tt, 12, i, s') /\
    exists r q s'', demo_bmap i 0 17 0 s' = Some (r, q, i, s'') /\ (r = Ok tt -> q = 12).
Proof.
  destruct (bmap_correct no_memory 20 (Ok tt) (fun _ _ => mret None) (fun _ _ _ _ _ => mret (Err EIO, [], 0))
    (inode_state 128 ind_disk) 2 demo_inode 17) as [Hl Hs].
  - apply inode_demo_ok, ind_disk_bytes.
  - exact demo_valid_ino.
  - exact demo_inode_mapped.
  - lia.
  - split.
    + destruct (Hl true 0 0) as (r & q & s' & E & _); [done|].
      assert (Ho : option_map fst (demo_bmap demo_inode 0 17 0 (inode_state 128 ind_disk)) = Some (Ok tt, 10, demo_inode))
        by (vm_compute; reflexivity).
      rewrite E in Ho. injection Ho as -> ->. by exists s'.
    + destruct (Hs true 2 12) as (r & q & i & s' & E & Hr); [done | reflexivity | lia | apply NoDup_singleton|].
      assert (Ho : option_map (fun x => (fst (fst (fst x)), snd (fst (fst x)))) (demo_bmap demo_inode 2 17 12 (inode_state 128 ind_disk)) = Some (Ok tt, 12))
        by (vm_compute; reflexivity).
      rewrite E in Ho. injection Ho as -> ->. exists i, s'. split; [exact E|]. destruct (Hr eq_refl) as [_ Hq].
      destruct (Hq true 0 0) as (r & q & s'' & E' & Hq'); [done|]. by exists r, q, s''.
Defined.


(** ** Behaviours the code does not mean *)

(** Writing back the 128 bytes that the driver keeps of an inode clears the rest of a larger
    one on the device. *)
Lemma update_clears_rest {D} `{DeviceLaws D} fresh (s s' : st (D := D)) ino inode k :
  inodes_ok s -> valid_ino (fs s) ino -> zlen inode = 128 -> bytes_ok inode ->
  ext2_update_inode fresh ino inode 128 s = Some (Ok tt, s') ->
  128 <= k < EXT2_INODE_SIZE (super (fs s)) -> contents (dev s') (inode_addr (fs s) ino + k) = 0.
Proof.
  intros Hok Hv Hl Hb E Hk. destruct (update_inode_ok fresh s ino inode Hok Hv Hl Hb) as (r & s1 & E1 & Hr).
  rewrite E in E1. injection E1 as <- <-. destruct Hr as (Hc & _). rewrite Hc. unfold patched.
  destruct (Z.leb_spec (inode_addr (fs s) ino) (inode_addr (fs s) ino + k)); [|lia].
  replace (Z.to_nat (inode_addr (fs s) ino + k - inode_addr (fs s) ino)) with (Z.to_nat k) by lia.
  assert (Hp : padded (fs s) inode !! Z.to_nat k = Some 0).
  { unfold padded, zlen in *. rewrite lookup_app_r by lia. apply lookup_replicate_2. lia. }
  assert (Hs : signed (fs s) ino (padded (fs s) inode) !! Z.to_nat k = Some 0); [|by rewrite Hs].
  unfold signed. rewrite padded_no_hi by done. destruct (negb _); [done|].
  rewrite setf_lookup_other; [done | apply lo_in; rewrite padded_len by (done || apply Hok); lia | cbn; lia].
Qed.

(** An inode with a wrong checksum replaces the bytes of another one in the cache, which is
    then returned under the number of the other. *)
Definition full_cache : inode_cache :=
  mk_icache (replicate 1024 0) 0 3 ((fun i => (i, replicate 128 i)) <$> [1; 2; 3; 4]).
Definition poisoned_state : st (D := ramdisk) :=
  set_fs (inode_state 128 (fun _ => 9)) (set_icache (inode_fs 128) (Some full_cache)).
Lemma bad_inode_poisons_cache :
  option_map fst (ext2_read_inode no_memory 1 poisoned_state) = Some (Ok (replicate 128 1)) /\
  option_map fst (ext2_read_inode no_memory 6 poisoned_state) = Some (Err EUCLEAN) /\
  option_map fst ((ext2_read_inode no_memory 6;; ext2_read_inode no_memory 1) poisoned_state) = Some (Ok (replicate 128 9)).
Proof. vm_compute. by split_and!. Qed.

(** A block allocated for an indirect entry is forgotten: the entry becomes 64. *)
Lemma allocated_block_is_64 :
  option_map fst (block_ind_bmap no_memory 20 (Ok tt) BMAP_ALLOC 2 0 0 (inode_state 128 (fun _ => 0))) = Some (Ok 64) /\
  option_map fst (ext2_alloc_block no_memory 20 (Ok tt) 2 true (inode_state 128 (fun _ => 0))) = Some (Ok 6).
Proof. vm_compute. by split. Qed.

(** When memory runs out the cache is freed with members that were not set. *)
Lemma cache_out_of_memory {D} `{BlockDevice D} fresh (s : st (D := D)) o :
  icache (fs s) = None -> oracle s = true :: false :: o -> ext2_create_inode_cache fresh 4 s = None.
Proof. intros Hc Ho. unfold ext2_create_inode_cache, mbind, M_bind, gets, alloc. rewrite Hc, Ho. cbn. done. Qed.
End Ext2Inode.
