(* ===== verification/Ext2Iter.v ===== *)
(** * Walking the blocks of a file (drivers/fs/ext2/util.c)

    Module [Ext2Iter]: [ext2_block_iterate] with the functions for indirect,
    doubly and triply indirect blocks. They call a function for each block number
    of a file, which may change the number, ask to stop, or report an error. *)

From S2P Require Import Prelude CBits Hash HashMap CString Ext2Layout Ext2Bitmap Ext2Fs Ext2Alloc Ext2Inode.

Module Ext2Iter.
Import CBits Hash HashMap CString Ext2Layout Ext2Bitmap Ext2Fs Ext2Alloc Ext2Inode.

Abbreviation BLOCK_CHANGED := 1.
Abbreviation BLOCK_ABORT := 2.
Abbreviation BLOCK_ERROR := 4.
Abbreviation BLOCK_INLINE_CHANGED := 8.
Abbreviation BLOCK_FLAG_APPEND := 1.
Abbreviation BLOCK_FLAG_DEPTH_TRAVERSE := 2.
Abbreviation BLOCK_FLAG_DATA_ONLY := 4.
Abbreviation BLOCK_FLAG_READ_ONLY := 8.
Abbreviation BLOCK_FLAG_NO_LARGE := 16.
Abbreviation BLOCK_COUNT_IND := (-1).
Abbreviation BLOCK_COUNT_DIND := (-2).
Abbreviation BLOCK_COUNT_TIND := (-3).
Abbreviation BLOCK_COUNT_TRANSLATOR := (-4).
Abbreviation EXT2_OS_HURD := 1.

(** [x & m] as a condition. *)
Definition has (x m : Z) : bool := truthy (Z.land x m).

(** [struct ext2_block_ctx]: what changes while blocks are visited. [bufs] is
    the memory of [ind_buf], [dind_buf] and [tind_buf], which are parts of one
    allocation. *)
Record block_ctx (P : Type) := mk_bctx { blkcnt : Z; c_err : option errno; bufs : list Z; private : P }.
Arguments mk_bctx {P}.
Arguments blkcnt {P}.
Arguments c_err {P}.
Arguments bufs {P}.
Arguments private {P}.

Section iterate.
Context {D : Type} `{BlockDevice D} (fresh : Z -> Z * list Z) {P : Type}.
Notation st := (st (D := D)).

(** The function that is called and the flags of the walk: the arguments are a
    block number, its place in the file, the block that refers to it, the place
    in that block and the private data; the results are the flags, the block
    number that is left, and the private data. *)
Context (func : Z -> Z -> Z -> Z -> P -> M st (Z * Z * P)) (flags : Z).

Definition count (c : block_ctx P) (n : Z) : block_ctx P := mk_bctx (s64 (blkcnt c + n)) (c_err c) (bufs c) (private c).
Definition set_err (c : block_ctx P) (e : option errno) : block_ctx P := mk_bctx (blkcnt c) e (bufs c) (private c).
Definition set_bufs (c : block_ctx P) (b : list Z) : block_ctx P := mk_bctx (blkcnt c) (c_err c) b (private c).
Definition set_private (c : block_ctx P) (p : P) : block_ctx P := mk_bctx (blkcnt c) (c_err c) (bufs c) p.

Definition call (c : block_ctx P) (block n ref_block ref_offset : Z) : M st (Z * Z * block_ctx P) :=
  x ← func block n ref_block ref_offset (private c);
  let '(r, b, p) := x in mret (r, b, set_private c p).

(** Entries of the buffers, at an offset in bytes. *)
Definition entry_at (b : list Z) (off : Z) : option Z := l ← slice b off 4; Some (le_val l).
Definition store_at (b : list Z) (off v : Z) : option (list Z) := blit b off (le_bytes 4 v).

Definition append : bool := has flags BLOCK_FLAG_APPEND.
Definition read_only : bool := has flags BLOCK_FLAG_READ_ONLY.

(** [if ((ctx->flags & BLOCK_FLAG_READ_ONLY) && (ret & BLOCK_CHANGED))] *)
Definition violation (ret : Z) : bool := read_only && has ret BLOCK_CHANGED.
Definition refused (ret : Z) : Z := Z.lor ret (Z.lor BLOCK_ABORT BLOCK_ERROR).

(** The part that the functions for the three kinds of indirect block share:
    [pos] is their buffer, [kind] the count that is passed for the block itself,
    [skip] the blocks below an absent block, and [body] the loop over the entries
    with the result so far. The block number [ind] is returned as it is left. *)
Definition iterate_block (pos kind skip : Z) (body : Z -> Z -> block_ctx P -> M st (Z * Z * block_ctx P))
    (ind ref_block ref_offset : Z) (c : block_ctx P) : M st (Z * Z * block_ctx P) :=
  let depth := has flags BLOCK_FLAG_DEPTH_TRAVERSE in
  let data_only := has flags BLOCK_FLAG_DATA_ONLY in
  let visit ind (c : block_ctx P) : M st (Z * Z * block_ctx P) :=
    x ← call c ind kind ref_block ref_offset; let '(r, b, c) := x in mret (r, u32 b, c) in
  x ← (if negb depth && negb data_only then visit ind c else mret (0, ind, c));
  let '(ret, ind, c) := x in
  if violation ret then mret (refused ret, ind, set_err c (Some EROFS)) else
  if (ind =? 0) || has ret BLOCK_ABORT then mret (ret, ind, count c skip) else
  f ← gets fs;
  if (ext2_blocks_count (super f) <=? ind) || (ind <? super f ~> s_first_data_block) then
    mret (Z.lor ret BLOCK_ERROR, ind, set_err c (Some EUCLEAN)) else
  r ← ext2_read_blocks ind 1;
  match r with
  | Err _ => mret (Z.lor ret BLOCK_ERROR, ind, set_err c (Some EIO))
  | Ok b =>
      b ← lift (blit (bufs c) pos b);
      x ← body ind ret (set_bufs (set_err c None) b);
      let '(ret, changed, c) := x in
      if violation changed then mret (refused changed, ind, set_err c (Some EROFS)) else
      x ← (if has changed BLOCK_CHANGED then
             b ← lift (slice (bufs c) pos (blksize f));
             w ← ext2_write_blocks b ind 1;
             mret (match w with
                   | Ok _ => (ret, set_err c None)
                   | Err e => (Z.lor ret (Z.lor BLOCK_ERROR BLOCK_ABORT), set_err c (Some e))
                   end)
           else mret (ret, c));
      let '(ret, c) := x in
      x ← (if depth && negb data_only && negb (has ret BLOCK_ABORT) then
             x ← visit ind c; let '(r, ind, c) := x in mret (Z.lor ret r, ind, c)
           else mret (ret, ind, c));
      let '(ret, ind, c) := x in
      if violation ret then mret (refused ret, ind, set_err c (Some EROFS)) else mret (ret, ind, c)
  end.

(** The loop of [ext2_block_iterate_ind] from entry [i] on; [limit] is the number
    of bytes of a block in all three functions. *)
Fixpoint ind_loop (n : nat) (i offset ind ret changed : Z) (c : block_ctx P) : M st (Z * Z * block_ctx P) :=
  match n with
  | O => mret (ret, changed, c)
  | S n =>
      e ← lift (entry_at (bufs c) (4 * i));
      if negb append && (e =? 0) then ind_loop n (i + 1) (offset + 4) ind ret changed (count c 1) else
      x ← call c e (blkcnt c) ind offset;
      let '(fl, b, c) := x in
      bs ← lift (store_at (bufs c) (4 * i) (u32 b));
      let c := set_bufs c bs in
      let changed := Z.lor changed fl in
      if has fl BLOCK_ABORT then mret (Z.lor ret BLOCK_ABORT, changed, c)
      else ind_loop n (i + 1) (offset + 4) ind ret changed (count c 1)
  end.

Definition limit (f : ext2_fs) : Z := s32 (blksize f).

Definition ext2_block_iterate_ind (ind ref_block ref_offset : Z) (c : block_ctx P) : M st (Z * Z * block_ctx P) :=
  f ← gets fs;
  iterate_block 0 BLOCK_COUNT_IND (limit f) (fun ind ret => ind_loop (Z.to_nat (limit f)) 0 0 ind ret 0)
    ind ref_block ref_offset c.

(** The loops of the other two: [child] visits the blocks below an entry. *)
Fixpoint child_loop (child : Z -> Z -> Z -> block_ctx P -> M st (Z * Z * block_ctx P)) (pos skip : Z) (n : nat)
    (i offset ind ret changed : Z) (c : block_ctx P) : M st (Z * Z * block_ctx P) :=
  match n with
  | O => mret (ret, changed, c)
  | S n =>
      e ← lift (entry_at (bufs c) (pos + 4 * i));
      if negb append && (e =? 0) then
        child_loop child pos skip n (i + 1) offset ind ret changed (count (count c skip) 1) else
      x ← child e ind offset c;
      let '(fl, b, c) := x in
      bs ← lift (store_at (bufs c) (pos + 4 * i) b);
      let c := set_bufs c bs in
      let changed := Z.lor changed fl in
      if has fl (Z.lor BLOCK_ABORT BLOCK_ERROR)
      then mret (Z.lor ret (Z.land fl (Z.lor BLOCK_ABORT BLOCK_ERROR)), changed, c)
      else child_loop child pos skip n (i + 1) (offset + 4) ind ret changed (count c 1)
  end.

Definition ext2_block_iterate_dind (dind ref_block ref_offset : Z) (c : block_ctx P) : M st (Z * Z * block_ctx P) :=
  f ← gets fs;
  let n := limit f in
  iterate_block (blksize f) BLOCK_COUNT_DIND (s32 (n * n))
    (fun dind ret => child_loop ext2_block_iterate_ind (blksize f) n (Z.to_nat n) 0 0 dind ret 0)
    dind ref_block ref_offset c.

(** The entries of a triply indirect block are walked as doubly indirect blocks
    when blocks are appended, and as indirect blocks otherwise. *)
Definition ext2_block_iterate_tind (tind ref_block ref_offset : Z) (c : block_ctx P) : M st (Z * Z * block_ctx P) :=
  f ← gets fs;
  let n := limit f in
  let child := if append then ext2_block_iterate_dind else ext2_block_iterate_ind in
  iterate_block (2 * blksize f) BLOCK_COUNT_TIND (s64 (n * n * n))
    (fun tind ret => child_loop child (2 * blksize f) (s32 (n * n)) (Z.to_nat n) 0 0 tind ret 0)
    tind ref_block ref_offset c.

(** What [ext2_block_iterate] has reached at the label [err]. *)
Record walk := mk_walk { w_ret : Z; w_inode : list Z; w_ctx : block_ctx P }.

(** The loop over the blocks of the inode from entry [i] on; the flag tells
    whether it was left by [goto err]. *)
Fixpoint direct_loop (n : nat) (i : Z) (w : walk) : M st (bool * walk) :=
  match n with
  | O => mret (false, w)
  | S n =>
      let b := w_inode w ~> i_block_at i in
      if truthy b || append then
        x ← call (w_ctx w) b (blkcnt (w_ctx w)) 0 i;
        let '(r, b, c) := x in
        let ret := Z.lor (w_ret w) r in
        let inode := setf (w_inode w) (i_block_at i) b in
        if has ret BLOCK_ABORT then mret (true, mk_walk ret inode c)
        else direct_loop n (i + 1) (mk_walk ret inode (count c 1))
      else direct_loop n (i + 1) (mk_walk (w_ret w) (w_inode w) (count (w_ctx w) 1))
  end.

(** One of the three indirect blocks of the inode. *)
Definition slot_walk (iter : Z -> Z -> Z -> block_ctx P -> M st (Z * Z * block_ctx P)) (slot skip : Z) (w : walk) :
    M st (bool * walk) :=
  let b := w_inode w ~> i_block_at slot in
  if truthy b || append then
    x ← iter b 0 slot (w_ctx w);
    let '(r, b, c) := x in
    let ret := Z.lor (w_ret w) r in
    mret (has ret BLOCK_ABORT, mk_walk ret (setf (w_inode w) (i_block_at slot) b) c)
  else mret (false, mk_walk (w_ret w) (w_inode w) (count (w_ctx w) skip)).

(** Continues unless the part before it jumped to [err]. *)
Definition unless_err (m : M st (bool * walk)) (k : walk -> M st (bool * walk)) : M st (bool * walk) :=
  x ← m; let '(stop, w) := x in if stop : bool then mret (true, w) else k w.

Definition walk_blocks (w : walk) : M st (bool * walk) :=
  f ← gets fs;
  let n := s32 (Z.shiftr (blksize f) 2) in
  unless_err (direct_loop (Z.to_nat EXT2_NDIR_BLOCKS) 0 w) (fun w =>
  if violation (w_ret w) then mret (true, mk_walk (refused (w_ret w)) (w_inode w) (set_err (w_ctx w) (Some EROFS))) else
  unless_err (slot_walk ext2_block_iterate_ind EXT2_IND_BLOCK n w) (fun w =>
  unless_err (slot_walk ext2_block_iterate_dind EXT2_DIND_BLOCK (s32 (n * n)) w) (fun w =>
  slot_walk ext2_block_iterate_tind EXT2_TIND_BLOCK 0 w))).

(** The block of a translator on filesystems of the Hurd. *)
Definition translator (w : walk) : M st (bool * walk) :=
  f ← gets fs;
  let b := w_inode w ~> h_i_translator in
  if (super f ~> s_creator_os =? EXT2_OS_HURD) && negb (has flags BLOCK_FLAG_DATA_ONLY) && truthy b then
    x ← call (w_ctx w) b BLOCK_COUNT_TRANSLATOR 0 0;
    let '(r, b, c) := x in
    let ret := Z.lor (w_ret w) r in
    let inode := setf (w_inode w) h_i_translator b in
    if has ret BLOCK_ABORT then mret (true, mk_walk ret inode c) else
    if violation ret then mret (true, mk_walk (refused ret) inode (set_err c (Some EROFS)))
    else mret (false, mk_walk ret inode c)
  else mret (false, w).

(** The walk over the extents of a file, which is made of functions of extent.c,
    up to the label [end]: the flags, the inode and the context. *)
Context (extent_walk : Z -> walk -> M st walk).

(** [err:] an update that succeeds clears the flags, also those of an error. *)
Definition finish_walk (ino : Z) (w : walk) : M st walk :=
  if has (w_ret w) BLOCK_CHANGED then
    r ← ext2_update_inode fresh ino (w_inode w) inode_struct_size;
    mret (match r with
          | Ok _ => mk_walk 0 (w_inode w) (w_ctx w)
          | Err e => mk_walk (-1) (w_inode w) (set_err (w_ctx w) (Some e))
          end)
  else mret w.

(** The status, the inode and the private data. *)
Definition ext2_block_iterate (ino : Z) (inode : list Z) (blockbuf : option (list Z)) (p : P) :
    M st (res unit * list Z * P) :=
  if has (inode ~> i_flags) EXT4_INLINE_DATA_FL then mret (Err ENOTSUP, inode, p) else
  if has flags BLOCK_FLAG_NO_LARGE && (negb (is_dir inode) && truthy (inode ~> i_size_high))
  then mret (Err EFBIG, inode, p) else
  f ← gets fs;
  x ← (match blockbuf with
       | Some b => mret (Some b)
       | None => ok ← alloc; mret (if ok : bool then Some (fresh (blksize f * 3)).2 else None)
       end);
  match x with
  | None => mret (Err ENOMEM, inode, p)
  | Some b =>
      x ← translator (mk_walk 0 inode (mk_bctx 0 None b p));
      let '(stop, w) := x in
      w ← (if stop : bool then finish_walk ino w
           else if has (w_inode w ~> i_flags) EXT4_EXTENTS_FL then extent_walk ino w
           else x ← walk_blocks w; finish_walk ino x.2);
      let e := match c_err (w_ctx w) with Some e => Err e | None => Ok tt end in
      mret (if has (w_ret w) BLOCK_ERROR then e else Ok tt, w_inode w, private (w_ctx w))
  end.
End iterate.

(** ** Files with direct blocks only *)

Lemma setf_getf (s : list Z) (fl : field) : bytes_ok s -> f_in s fl -> setf s fl (s ~> fl) = s.
Proof.
  intros Hb (H1 & H2 & H3). unfold setf, getf. set (l := take (Z.to_nat (f_len fl)) (drop (Z.to_nat (f_off fl)) s)).
  assert (Hl : length l = Z.to_nat (f_len fl)) by (unfold l, zlen in *; rewrite length_take, length_drop; lia).
  rewrite <- Hl, le_bytes_le_val by (by apply Forall_take, Forall_drop). subst l.
  replace (Z.to_nat (f_off fl + f_len fl)) with (Z.to_nat (f_off fl) + Z.to_nat (f_len fl))%nat by lia.
  rewrite <- drop_drop, take_drop. apply take_drop.
Qed.

Section direct.
Context {D : Type} `{BlockDevice D} (fresh : Z -> Z * list Z) {P : Type}.
Notation st := (st (D := D)).
Context (func : Z -> Z -> Z -> Z -> P -> M st (Z * Z * P)) (flags : Z).
Context (extent_walk : Z -> walk (P := P) -> M st (walk (P := P))).

(** The function leaves block numbers alone. *)
Definition keeps_numbers : Prop := forall b n rb ro p s r b' p' s',
  func b n rb ro p s = Some (r, b', p', s') -> b' = b.

(** What a walk should do with the blocks of a list, given with their places:
    visit them in order until the function asks to stop. *)
Fixpoint visit (l : list (Z * Z)) (ret : Z) (p : P) : M st (Z * P) :=
  match l with
  | [] => mret (ret, p)
  | (i, b) :: l =>
      x ← func b i 0 i p;
      let '(r, _, p) := x in
      let ret := Z.lor ret r in
      if has ret BLOCK_ABORT then mret (ret, p) else visit l ret p
  end.

(** The blocks that the inode refers to, from entry [i] on. *)
Fixpoint blocks_from (n : nat) (i : Z) (inode : list Z) : list (Z * Z) :=
  match n with
  | O => []
  | S n => let b := inode ~> i_block_at i in
      if truthy b then (i, b) :: blocks_from n (i + 1) inode else blocks_from n (i + 1) inode
  end.
Definition direct_blocks (inode : list Z) : list (Z * Z) := blocks_from 12 0 inode.

(** A file in the format without extents that has direct blocks only. *)
Record direct_file (f : ext2_fs) (inode : list Z) : Prop := {
  df_mapped : mapped_inode inode;
  df_ind : forall n, 12 <= n <= 14 -> inode ~> i_block_at n = 0;
  df_os : (super f ~> s_creator_os =? EXT2_OS_HURD) = false
}.

Lemma s64_id x : 0 <= x < 2 ^ 62 -> s64 x = x.
Proof. intros. unfold swrap. rewrite Z.mod_small by lia. destruct (Z.ltb_spec x (2 ^ (64 - 1))); lia. Qed.

Lemma direct_loop_run inode n : zlen inode = 128 -> bytes_ok inode -> keeps_numbers -> append flags = false ->
  forall i ret b p s, 0 <= i -> i + Z.of_nat n <= 12 -> has ret BLOCK_ABORT = false ->
  match visit (blocks_from n i inode) ret p s with
  | Some (r, p', s') => exists c,
      direct_loop func flags n i (mk_walk ret inode (mk_bctx i None b p)) s =
        Some (has r BLOCK_ABORT, mk_walk r inode (mk_bctx c None b p'), s')
  | None => direct_loop func flags n i (mk_walk ret inode (mk_bctx i None b p)) s = None
  end.
Proof.
  intros Hl Hb Hk Ha. induction n as [|n IH]; intros i ret b p s Hi Hn Hr.
  { cbn [blocks_from visit direct_loop]. exists i. cbn. by rewrite Hr. }
  cbn [blocks_from direct_loop w_inode w_ctx w_ret]. rewrite Ha, orb_false_r.
  assert (Hc : count (mk_bctx i None b p) 1 = mk_bctx (i + 1) None b p)
    by (unfold count; cbn; rewrite s64_id by lia; done).
  destruct (truthy (inode ~> i_block_at i)).
  - cbn [visit]. unfold call. cbn [private blkcnt].
    destruct (func (inode ~> i_block_at i) i 0 i p s) as [ [ [ [r b'] p'] s']|] eqn:E;
      unfold mbind, M_bind; rewrite E; [|done]. apply Hk in E. subst b'. cbn [mret M_ret].
    rewrite setf_getf by (try done; unfold f_in; cbn; lia).
    destruct (has (Z.lor ret r) BLOCK_ABORT) eqn:Eab.
    + cbn. rewrite Eab. by eexists.
    + specialize (IH (i + 1) (Z.lor ret r) b p' s' ltac:(lia) ltac:(lia) Eab).
      unfold count, set_private. cbn [blkcnt c_err bufs private]. rewrite s64_id by lia. exact IH.
  - rewrite Hc. apply IH; [lia|lia|done].
Qed.

Lemma empty_slot iter slot skip (w : walk (P := P)) (s : st) : append flags = false -> w_inode w ~> i_block_at slot = 0 ->
  slot_walk flags iter slot skip w s = Some (false, mk_walk (w_ret w) (w_inode w) (count (w_ctx w) skip), s).
Proof. intros Ha Hs. unfold slot_walk. rewrite Hs, Ha. done. Qed.

(** From the label [err] on. *)
Definition conclude (ino : Z) (w : walk (P := P)) : M st (res unit * list Z * P) :=
  w ← finish_walk fresh ino w;
  let e := match c_err (w_ctx w) with Some e => Err e | None => Ok tt end in
  mret (if has (w_ret w) BLOCK_ERROR then e else Ok tt, w_inode w, private (w_ctx w)).

Lemma conclude_run ino (w : walk (P := P)) s : (has (w_ret w) BLOCK_CHANGED = false -> c_err (w_ctx w) = None) ->
  conclude ino w s =
  (r ← (if has (w_ret w) BLOCK_CHANGED then ext2_update_inode fresh ino (w_inode w) inode_struct_size else mret (Ok tt));
   mret (r, w_inode w, private (w_ctx w))) s.
Proof.
  intros Hc. unfold conclude, finish_walk. destruct (has (w_ret w) BLOCK_CHANGED).
  - rewrite bind_assoc. unfold mbind, M_bind.
    destruct (ext2_update_inode fresh ino (w_inode w) inode_struct_size s) as [ [ [u|e] s']|]; [by destruct u|done|done].
  - rewrite !ret_run, Hc by done. by destruct (has (w_ret w) BLOCK_ERROR).
Qed.

Lemma refused_changed ret : has (refused ret) BLOCK_CHANGED = has ret BLOCK_CHANGED.
Proof.
  unfold refused, has. rewrite Z.land_lor_distr_l. change (Z.land (Z.lor BLOCK_ABORT BLOCK_ERROR) BLOCK_CHANGED) with 0.
  by rewrite Z.lor_0_r.
Qed.

(** What the walk has reached at the label [err] when the calls returned [ret]. *)
Record settled (w : walk (P := P)) (ret : Z) (inode : list Z) (q : P) : Prop := {
  se_changed : has (w_ret w) BLOCK_CHANGED = has ret BLOCK_CHANGED;
  se_inode : w_inode w = inode;
  se_private : private (w_ctx w) = q;
  se_err : has ret BLOCK_CHANGED = false -> c_err (w_ctx w) = None
}.

Lemma walk_blocks_direct inode b p s : keeps_numbers -> append flags = false -> direct_file (fs s) inode ->
  match visit (direct_blocks inode) 0 p s with
  | Some (ret, q, s0) => exists stop w,
      walk_blocks func flags (mk_walk 0 inode (mk_bctx 0 None b p)) s = Some (stop, w, s0) /\ settled w ret inode q
  | None => walk_blocks func flags (mk_walk 0 inode (mk_bctx 0 None b p)) s = None
  end.
Proof.
  intros Hk Ha [ (Hl & Hb & _) Hind Hos]. unfold walk_blocks. rewrite gets_run. unfold unless_err at 1 4.
  pose proof (direct_loop_run inode 12 Hl Hb Hk Ha 0 0 b p s ltac:(lia) ltac:(lia) eq_refl) as Hrun.
  unfold direct_blocks. destruct (visit (blocks_from 12 0 inode) 0 p s) as [ [ [ret q] s0]|] eqn:Ev.
  2: { unfold mbind, M_bind. change (Z.to_nat EXT2_NDIR_BLOCKS) with 12%nat. by rewrite Hrun. }
  destruct Hrun as [c Hrun]. rewrite (bind_run _ _ _ _ _ Hrun). cbn beta iota.
  destruct (has ret BLOCK_ABORT); [by do 2 eexists|]. cbn [w_ret w_inode w_ctx].
  destruct (violation flags ret) eqn:Ev'.
  { do 2 eexists. split; [done|]. split; cbn; [apply refused_changed|done|done|]. intros Hc. unfold violation in Ev'.
    by rewrite Hc, andb_false_r in Ev'. }
  unfold unless_err at 1. erewrite bind_run by (apply empty_slot; [done|apply (Hind 12); lia]).
  cbn beta iota. unfold unless_err at 1. erewrite bind_run by (apply empty_slot; [done|apply (Hind 13); lia]).
  cbn beta iota. erewrite empty_slot by (try done; apply (Hind 14); lia). by do 2 eexists.
Qed.

(** A walk that does not append visits the blocks of the file in order; what
    remains is to store the inode when the function reported a change. *)
Lemma block_iterate_direct ino inode b p s :
  keeps_numbers -> has flags BLOCK_FLAG_APPEND = false -> has flags BLOCK_FLAG_NO_LARGE = false -> direct_file (fs s) inode ->
  ext2_block_iterate fresh func flags extent_walk ino inode (Some b) p s =
  (x ← visit (direct_blocks inode) 0 p;
   let '(ret, p) := x in
   r ← (if has ret BLOCK_CHANGED then ext2_update_inode fresh ino inode inode_struct_size else mret (Ok tt));
   mret (r, inode, p)) s.
Proof.
  intros Hk Ha Hn Hf. pose proof (walk_blocks_direct inode b p s Hk Ha Hf) as Hw. destruct Hf as [ (Hl & Hb & He & Hd) Hind Hos].
  unfold ext2_block_iterate.
  change (has (inode ~> i_flags) EXT4_INLINE_DATA_FL = false) in Hd. change (has (inode ~> i_flags) EXT4_EXTENTS_FL = false) in He.
  rewrite Hd, Hn. cbn [andb]. rewrite gets_run, ret_run. unfold translator.
  rewrite bind_assoc, gets_run. cbn [w_inode]. rewrite Hos. cbn [andb]. rewrite ret_run. cbn [w_inode]. rewrite He, bind_assoc.
  destruct (visit (direct_blocks inode) 0 p s) as [ [ [ret q] s0]|] eqn:Ev;
    [destruct Hw as (stop & w & Hw & [Sc Si Sp Se]) | unfold mbind, M_bind; by rewrite Hw, Ev].
  rewrite (bind_run _ _ _ _ _ Hw), (bind_run _ _ _ _ _ Ev). cbn beta iota.
  pose proof (conclude_run ino w s0 ltac:(by rewrite Sc)) as Hcon. rewrite Sc, Si, Sp in Hcon. exact Hcon.
Qed.
End direct.

(** ** Where the walk does not do what it should *)

Section defects.
Context {D : Type} `{BlockDevice D} {P : Type}.
Notation st := (st (D := D)).
Context (func : Z -> Z -> Z -> Z -> P -> M st (Z * Z * P)) (flags : Z).

(** The function neither stops the walk nor reports a change. *)
Definition passive : Prop := forall b n rb ro p s r b' p' s',
  func b n rb ro p s = Some (r, b', p', s') -> has r BLOCK_ABORT = false /\ has r BLOCK_CHANGED = false.

Lemma entry_at_in b off : is_Some (entry_at b off) -> 0 <= off /\ off + 4 <= zlen b.
Proof.
  unfold entry_at, slice. destruct (Z.leb_spec 0 off), (Z.leb_spec (off + 4) (zlen b)); cbn [andb]; intros [x Hx]; try done.
  all: exfalso; revert Hx; cbn; rewrite ?andb_false_r; done.
Qed.

(** [limit] is four times the number of entries: the loop runs past the block,
    through the buffers behind it, and out of the allocation. *)
Lemma ind_loop_overruns n : passive -> forall i off ind ret ch (c : block_ctx P) s,
  0 <= i -> 4 * i <= zlen (bufs c) -> zlen (bufs c) < 4 * (i + Z.of_nat n) ->
  ind_loop func flags n i off ind ret ch c s = None.
Proof.
  intros Hp. induction n as [|n IH]; intros i off ind ret ch c s Hi Hl Hn; [lia|]. cbn [ind_loop].
  destruct (entry_at (bufs c) (4 * i)) as [e|] eqn:Ee; [|done].
  destruct (entry_at_in _ _ ltac:(by rewrite Ee)) as [_ Hin]. rewrite (bind_run (lift _) _ s e s) by done.
  destruct (negb (append flags) && (e =? 0)); [apply IH; cbn; lia|]. unfold call.
  destruct (func e (blkcnt c) ind off (private c) s) as [ [ [ [r b'] p'] s']|] eqn:Ef;
    unfold mbind, M_bind; rewrite Ef; [|done]. apply Hp in Ef as [Ea _]. cbn beta iota delta [mret M_ret].
  cbn [bufs set_private]. unfold lift. destruct (store_at (bufs c) (4 * i) (u32 b')) as [bs|] eqn:Es; [|done].
  rewrite Ea. apply blit_len in Es. apply IH; cbn; lia.
Qed.

(** So no file with an indirect block can be walked to its end. *)
Lemma indirect_block_overruns ind rb ro (c : block_ctx P) data s d' : passive ->
  0 < blksize (fs s) < 2 ^ 31 -> zlen (bufs c) = 3 * blksize (fs s) -> ind <> 0 ->
  super (fs s) ~> s_first_data_block <= ind < ext2_blocks_count (super (fs s)) ->
  has flags BLOCK_FLAG_DATA_ONLY = true ->
  dev_read (u64 (1 * blksize (fs s))) (s64 (ind * blksize (fs s))) (dev s) = (Ok data, d') ->
  ext2_block_iterate_ind func flags ind rb ro c s = None.
Proof.
  intros Hp Hb Hl Hi Hr Hd Hread. unfold ext2_block_iterate_ind, iterate_block. rewrite gets_run, Hd. cbn [negb].
  rewrite (andb_false_r (negb _)), ret_run. unfold violation. rewrite andb_false_r.
  destruct (Z.eqb_spec ind 0); [done|]. cbn [orb]. change (has 0 BLOCK_ABORT) with false. cbn iota. rewrite gets_run.
  destruct (Z.leb_spec (ext2_blocks_count (super (fs s))) ind), (Z.ltb_spec ind (super (fs s) ~> s_first_data_block)); try lia.
  cbn [orb]. erewrite bind_run by (unfold ext2_read_blocks; by rewrite Hread). cbn beta iota.
  destruct (blit (bufs c) 0 data) as [bs|] eqn:Eb; [|done]. apply blit_len in Eb.
  rewrite (bind_run (lift (Some bs)) _ _ bs _ eq_refl). unfold mbind, M_bind.
 rewrite ind_loop_overruns; [done|done|lia|cbn; lia|].
  cbn. unfold limit, swrap. rewrite Z.mod_small by lia. destruct (Z.ltb_spec (blksize (fs s)) (2 ^ (32 - 1))); lia.
Qed.

(** An error is forgotten when the function also reported a change and the inode
    can be stored. *)
Lemma error_forgotten fresh ino (w : walk (P := P)) s s' :
  has (w_ret w) BLOCK_CHANGED = true -> ext2_update_inode fresh ino (w_inode w) inode_struct_size s = Some (Ok tt, s') ->
  conclude fresh ino w s = Some (Ok tt, w_inode w, private (w_ctx w), s').
Proof.
  intros Hc Hu. rewrite conclude_run by (by rewrite Hc). rewrite Hc, (bind_run _ _ _ _ _ Hu). done.
Qed.
End defects.
End Ext2Iter.
