(* ===== verification/Ext2Dir.v ===== *)
(** * Directories of the ext2 driver (drivers/fs/ext2/util.c, link.c, checksum.c)

    Module [Ext2Dir]: the entries of a directory block, their checksums, the walk
    over the entries of a directory, and what is built on it: looking up a name,
    adding an entry, and expanding a directory. Looking up a name is proved
    correct; adding and expanding are modelled only. *)

From S2P Require Import Prelude CBits Hash HashMap CString Ext2Layout Ext2Bitmap Ext2Fs Ext2Alloc Ext2Inode Ext2Iter.

Module Ext2Dir.
Import CBits Hash HashMap CString Ext2Layout Ext2Bitmap Ext2Fs Ext2Alloc Ext2Inode Ext2Iter.

Abbreviation EXT2_DIR_NAME_CHECKSUM := 0xde00.
Abbreviation EXT2_INDEX_FL := 0x1000.
Abbreviation DIRENT_CHANGED := 1.
Abbreviation DIRENT_ABORT := 2.
Abbreviation DIRENT_FLAG_EMPTY := 1.
Abbreviation DIRENT_FLAG_REMOVED := 2.
Abbreviation DIRENT_FLAG_CHECKSUM := 4.
Abbreviation DIRENT_FLAG_INLINE := 8.
Abbreviation DIRENT_DOT_FILE := 1.
Abbreviation DIRENT_OTHER_FILE := 3.
Abbreviation DIRENT_DELETED_FILE := 4.
Abbreviation DIRENT_CHECKSUM := 5.

(** [sizeof (struct ext2_dirent_tail)] *)
Abbreviation tail_size := 12.

(** ** Entries

    [buf] is a block of a directory and [off] the offset of an entry in it. *)
Definition dget (buf : list Z) (off : Z) (fl : field) : option Z := load_le (Z.to_nat (f_len fl)) buf (off + f_off fl).
Definition dput (buf : list Z) (off : Z) (fl : field) (v : Z) : option (list Z) :=
  blit buf (off + f_off fl) (le_bytes (Z.to_nat (f_len fl)) v).

(** The length that [d_rec_len] stands for. *)
Definition ext2_get_rec_len (f : ext2_fs) (len : Z) : Z :=
  if blksize f <? 65536 then len
  else if (len =? 65535) || (len =? 0) then u32 (blksize f)
  else Z.lor (Z.land len 65532) (Z.shiftl (Z.land len 3) 16).

Definition ext2_set_rec_len (f : ext2_fs) (len : Z) (buf : list Z) (off : Z) : option (res (list Z)) :=
  if (blksize f <? len) || (262144 <? blksize f) || truthy (Z.land len 3) then Some (Err EINVAL) else
  let word := if len <? 65536 then len
              else if len =? blksize f then (if blksize f =? 65536 then 65535 else 0)
              else Z.lor (Z.land len 65532) (Z.land (Z.shiftr len 16) 3) in
  b ← dput buf off d_rec_len word; Some (Ok b).

(** The offset of the next entry, and the length of a name. *)
Definition rec_len_at (f : ext2_fs) (buf : list Z) (off : Z) : option Z :=
  len ← dget buf off d_rec_len; Some (ext2_get_rec_len f len).
Definition name_len_at (buf : list Z) (off : Z) : option Z :=
  n ← dget buf off d_name_len; Some (Z.land n 0xff).

(** Whether [strncmp (name, p, n)] is zero, for the bytes of a string and those
    at an offset of a block. *)
Fixpoint strncmp_zero (n : nat) (name buf : list Z) (p : Z) : option bool :=
  match n with
  | O => Some true
  | S n =>
      b ← buf.[p];
      let a := default 0 (head name) in
      if negb (a =? b) then Some false
      else if a =? 0 then Some true else strncmp_zero n (tail name) buf (p + 1)
  end.

(** Whether [strcmp (p, name)] is zero. *)
Fixpoint strcmp_zero (name buf : list Z) (p : Z) : option bool :=
  b ← buf.[p];
  match name with
  | [] => Some (b =? 0)
  | a :: name => if b =? a then strcmp_zero name buf (p + 1) else Some false
  end.

(** ** checksum.c: the checksum of a directory block *)

(** [while ((void * ) d < top)] of [ext2_get_dirent_tail] *)
Fixpoint find_tail (n : nat) (buf : list Z) (d top : Z) : option (res Z) :=
  if negb (d <? top) then Some (Ok d) else
  match n with
  | O => None
  | S n =>
      len ← dget buf d d_rec_len;
      if (len <? 8) || truthy (Z.land len 3) then Some (Err EUCLEAN) else find_tail n buf (d + len) top
  end.

(** The offset of the tail. *)
Definition ext2_get_dirent_tail (f : ext2_fs) (buf : list Z) : option (res Z) :=
  let top := blksize f - tail_size in
  r ← find_tail (Z.to_nat (blksize f)) buf 0 top;
  match r with
  | Err e => Some (Err e)
  | Ok d =>
      if blksize f <? d then Some (Err EUCLEAN) else
      if negb (d =? top) then Some (Err ENOSPC) else
      z ← dget buf d det_reserved_zero1;
      len ← dget buf d det_rec_len;
      name ← dget buf d det_reserved_name_len;
      Some (if truthy z || negb (len =? tail_size) || negb (name =? EXT2_DIR_NAME_CHECKSUM) then Err ENOSPC else Ok d)
  end.

(** The offset of [struct ext2_dx_countlimit] with its two members. *)
Definition ext2_get_dx_count_limit (f : ext2_fs) (buf : list Z) : option (res (Z * Z * Z)) :=
  rec_len ← dget buf 0 d_rec_len;
  name ← dget buf 0 d_name_len;
  place ← (if (rec_len =? blksize f) && negb (truthy name) then Some (Ok 8)
           else if rec_len =? 12 then
             len ← dget buf 12 d_rec_len;
             if negb (len =? blksize f - 12) then Some (Err EUCLEAN) else
             zero ← load_le 4 buf 24;
             info_length ← load_le 1 buf 29;
             Some (if truthy zero || negb (info_length =? 8) then Err EUCLEAN else Ok 32)
           else Some (Err EUCLEAN));
  match place with
  | Err e => Some (Err e)
  | Ok place =>
      limit ← load_le 2 buf place;
      count ← load_le 2 buf (place + 2);
      let max_entries := (blksize f - place) / 8 in
      Some (if (max_entries <? limit) || (max_entries <? count) then Err ENOSPC else Ok (place, limit, count))
  end.

(** A directory: the number of its inode, the mode of its vnode, and the bytes
    of the inode in its [struct ext2_file]. *)
Record dnode := mk_dnode { v_ino : Z; v_mode : Z; v_inode : list Z }.
Definition set_inode (d : dnode) (i : list Z) : dnode := mk_dnode (v_ino d) (v_mode d) i.

(** The local variables of [ext2_process_dir_block]. *)
Record scan (P : Type) := mk_scan {
  s_offset : Z; s_next : Z; s_entry : Z; s_changed : bool; s_ret : Z; s_buf : list Z; s_priv : P
}.
Arguments mk_scan {P}.
Arguments s_offset {P}.
Arguments s_next {P}.
Arguments s_entry {P}.
Arguments s_changed {P}.
Arguments s_ret {P}.
Arguments s_buf {P}.
Arguments s_priv {P}.

(** How the loop is left: with [return BLOCK_ABORT], which may set [ctx->err], or
    at its end or by [break]. *)
Inductive scan_end := Returned (e : option errno) | Finished (do_abort : bool).

(** [struct ext2_dir_ctx]: what changes in it. *)
Record dir_ctx (P : Type) := mk_dctx { dc_err : option errno; dc_buffer : list Z; dc_bufsize : Z; dc_priv : P }.
Arguments mk_dctx {P}.
Arguments dc_err {P}.
Arguments dc_buffer {P}.
Arguments dc_bufsize {P}.
Arguments dc_priv {P}.

Section driver.
Context {D : Type} `{BlockDevice D}.
Notation st := (st (D := D)).

Definition ext2_dirent_checksum (dir : dnode) (buf : list Z) (size : Z) : M st Z :=
  f ← gets fs;
  crc ← crc32_st (checksum_seed f) (le_bytes 8 (v_ino dir)) 8;
  crc ← crc32_st crc (le_bytes 4 (v_inode dir ~> i_generation)) 4;
  crc32_st crc buf size.

Definition ext2_dirent_checksum_valid (dir : dnode) (buf : list Z) : M st bool :=
  f ← gets fs;
  t ← lift (ext2_get_dirent_tail f buf);
  match t with
  | Err _ => mret true
  | Ok t => sum ← lift (dget buf t det_checksum); crc ← ext2_dirent_checksum dir buf t; mret (sum =? crc)
  end.

(** The value 1 is returned without a tail, with the error number that looking
    for it has set. *)
Definition ext2_dirent_checksum_update (dir : dnode) (buf : list Z) : M st (res (list Z)) :=
  f ← gets fs;
  t ← lift (ext2_get_dirent_tail f buf);
  match t with
  | Err e => mret (Err e)
  | Ok t => crc ← ext2_dirent_checksum dir buf t; b ← lift (dput buf t det_checksum crc); mret (Ok b)
  end.

(** The checksum of a block of an index, and the offset of its tail. *)
Definition ext2_dx_checksum (dir : dnode) (buf : list Z) : M st (res (Z * Z)) :=
  f ← gets fs;
  c ← lift (ext2_get_dx_count_limit f buf);
  match c with
  | Err e => mret (Err e)
  | Ok (place, limit, count) =>
      if blksize f - 8 <? place + limit * 8 then mret (Err ENOSPC) else
      let t := place + limit * 8 in
      crc ← crc32_st (checksum_seed f) (le_bytes 8 (v_ino dir)) 8;
      crc ← crc32_st crc (le_bytes 4 (v_inode dir ~> i_generation)) 4;
      crc ← crc32_st crc buf (place + count * 8);
      reserved ← lift (slice buf t 4);
      crc ← crc32_st crc reserved 4;
      crc ← crc32_st crc [0; 0; 0; 0] 4;
      mret (Ok (t, crc))
  end.

Definition ext2_dx_checksum_valid (dir : dnode) (buf : list Z) : M st bool :=
  r ← ext2_dx_checksum dir buf;
  match r with
  | Err _ => mret false
  | Ok (t, crc) => sum ← lift (load_le 4 buf (t + 4)); mret (sum =? crc)
  end.

Definition ext2_dx_checksum_update (dir : dnode) (buf : list Z) : M st (res (list Z)) :=
  r ← ext2_dx_checksum dir buf;
  match r with
  | Err e => mret (Err e)
  | Ok (t, crc) => b ← lift (blit buf (t + 4) (le_bytes 4 crc)); mret (Ok b)
  end.

Definition ext2_dir_block_checksum_valid (dir : dnode) (buf : list Z) : M st bool :=
  f ← gets fs;
  if negb (ro_compat (super f) EXT4_FT_RO_COMPAT_METADATA_CSUM) then mret true else
  t ← lift (ext2_get_dirent_tail f buf);
  match t with
  | Ok _ => ext2_dirent_checksum_valid dir buf
  | Err _ =>
      c ← lift (ext2_get_dx_count_limit f buf);
      match c with Ok _ => ext2_dx_checksum_valid dir buf | Err _ => mret false end
  end.

Definition ext2_dir_block_checksum_update (dir : dnode) (buf : list Z) : M st (res (list Z)) :=
  f ← gets fs;
  if negb (ro_compat (super f) EXT4_FT_RO_COMPAT_METADATA_CSUM) then mret (Ok buf) else
  t ← lift (ext2_get_dirent_tail f buf);
  match t with
  | Ok _ => ext2_dirent_checksum_update dir buf
  | Err _ =>
      c ← lift (ext2_get_dx_count_limit f buf);
      match c with Ok _ => ext2_dx_checksum_update dir buf | Err _ => mret (Err ENOSPC) end
  end.

(** ** Blocks of a directory *)

Definition csum_size (f : ext2_fs) : Z := if ro_compat (super f) EXT4_FT_RO_COMPAT_METADATA_CSUM then tail_size else 0.

(** The status and the buffer. *)
Definition ext2_read_dir_block (dir : dnode) (block : Z) (buffer : list Z) : M st (res unit * list Z) :=
  r ← ext2_read_blocks block 1;
  match r with
  | Err e => mret (Err e, buffer)
  | Ok b => valid ← ext2_dir_block_checksum_valid dir b; mret (if valid : bool then Ok tt else Err EUCLEAN, b)
  end.

Definition ext2_write_dir_block (dir : dnode) (block : Z) (buffer : list Z) : M st (res unit * list Z) :=
  r ← ext2_dir_block_checksum_update dir buffer;
  match r with
  | Err e => mret (Err e, buffer)
  | Ok b => w ← ext2_write_blocks b block 1; mret (w, b)
  end.

Definition ext2_init_dirent_tail (f : ext2_fs) (buf : list Z) (t : Z) : option (list Z) :=
  b ← blit buf t (replicate 12 0);
  r ← ext2_set_rec_len f tail_size b t;
  dput (match r with Ok b => b | Err _ => b end) t det_reserved_name_len EXT2_DIR_NAME_CHECKSUM.

Definition put_all (buf : list Z) (off : Z) (l : list (field * Z)) : option (list Z) :=
  foldl (fun b '(fl, v) => b ← b; dput b off fl v) (Some buf) l.

(** An empty block, or the first block of a directory [ino]. *)
Definition ext2_new_dir_block (ino parent : Z) : M st (res (list Z)) :=
  f ← gets fs;
  ok ← alloc;
  if negb ok then mret (Err ENOMEM) else
  let buf := replicate (Z.to_nat (blksize f)) 0 in
  r ← lift (ext2_set_rec_len f (u32 (blksize f - csum_size f)) buf 0);
  match r with
  | Err e => mret (Err e)
  | Ok buf =>
      let filetype := if incompat (super f) EXT2_FT_INCOMPAT_FILETYPE then 2 else 0 in
      let dot := ext2_dir_rec_len 1 false in
      r ← (if truthy ino then
             buf ← lift (put_all buf 0 [(d_inode, ino); (d_name_len, Z.lor (Z.shiftl filetype 8) 1)]);
             buf ← lift (blit buf 8 [46]);
             buf ← lift (dput buf 0 d_rec_len dot);
             r ← lift (ext2_set_rec_len f (u32 (blksize f - csum_size f - dot)) buf dot);
             match r with
             | Err e => mret (Err e)
             | Ok buf =>
                 buf ← lift (put_all buf dot [(d_inode, parent); (d_name_len, Z.lor (Z.shiftl filetype 8) 2)]);
                 buf ← lift (blit buf (dot + 8) [46; 46]);
                 mret (Ok buf)
             end
           else mret (Ok buf));
      match r with
      | Err e => mret (Err e)
      | Ok buf =>
          if 0 <? csum_size f then b ← lift (ext2_init_dirent_tail f buf (blksize f - tail_size)); mret (Ok b)
          else mret (Ok buf)
      end
  end.

(** ** Walking the entries of a block *)

(** The loop that follows an entry with a hole behind it: [while] in
    [ext2_dirent_valid], and the one that steps over what is not an entry. *)
Fixpoint ext2_dirent_valid (n : nat) (f : ext2_fs) (buf : list Z) (offset final : Z) : option bool :=
  if negb ((offset <? final) && (offset <=? blksize f - 12)) then Some (offset =? final) else
  match n with
  | O => None
  | S n =>
      rec_len ← rec_len_at f buf offset;
      name_len ← name_len_at buf offset;
      if (rec_len <? 8) || (rec_len mod 4 =? 0) || (rec_len <? name_len + 8) then Some false
      else ext2_dirent_valid n f buf (u32 (offset + rec_len)) final
  end.

Fixpoint skip_removed (n : nat) (f : ext2_fs) (buf : list Z) (offset final : Z) : option Z :=
  if negb (offset <? final) then Some offset else
  match n with
  | O => None
  | S n =>
      v ← ext2_dirent_valid (Z.to_nat (blksize f)) f buf offset final;
      if v : bool then Some offset else skip_removed n f buf (u32 (offset + 4)) final
  end.

(** The function that is called for an entry: what kind of entry it is, its
    offset, the size of the buffer, the buffer and the private data. The results
    are the flags, the buffer and the private data. *)
Definition dir_iter (P : Type) : Type := Z -> Z -> Z -> list Z -> P -> M st (Z * list Z * P).

Section scan.
Context {P : Type} (func : dir_iter P) (flags bufsize : Z) (inline_data : bool).

(** From the label [next] on. *)
Definition advance (f : ext2_fs) (sc : scan P) (rec_len : Z) : option (scan P) :=
  let next := if s_next sc =? s_offset sc then u32 (s_next sc + rec_len) else s_next sc in
  name_len ← name_len_at (s_buf sc) (s_offset sc);
  let size := Z.land (name_len + 11) (u32 (Z.lnot 3)) in
  let final := u32 (s_offset sc + rec_len) in
  offset ← (if has flags DIRENT_FLAG_REMOVED && negb (rec_len =? size)
            then skip_removed (Z.to_nat bufsize) f (s_buf sc) (u32 (s_offset sc + size)) final
            else Some final);
  Some (mk_scan offset next (s_entry sc) (s_changed sc) (s_ret sc) (s_buf sc) (s_priv sc)).

(** The entry is the one that holds the checksum of the block. *)
Definition is_tail (f : ext2_fs) (offset raw name : Z) : bool :=
  negb inline_data && (offset =? u32 (bufsize - csum_size f)) && (raw =? csum_size f) && (name =? EXT2_DIR_NAME_CHECKSUM).

Fixpoint scan_block (n : nat) (sc : scan P) : M st (scan_end * scan P) :=
  let offset := s_offset sc in
  let buf := s_buf sc in
  if negb (offset <? u32 (bufsize - 8)) then mret (Finished false, sc) else
  match n with
  | O => fault
  | S n =>
      f ← gets fs;
      raw ← lift (dget buf offset d_rec_len);
      name ← lift (dget buf offset d_name_len);
      ino ← lift (dget buf offset d_inode);
      let rec_len := ext2_get_rec_len f raw in
      if (bufsize <? u32 (offset + rec_len)) || (rec_len <? 8) || truthy (rec_len mod 4) ||
         (rec_len <? Z.land name 0xff + 8) then mret (Returned (Some EUCLEAN), sc) else
      let tail := is_tail f offset raw name in
      if (ino =? 0) && negb (has flags (if tail then DIRENT_FLAG_CHECKSUM else DIRENT_FLAG_EMPTY)) then
        sc ← lift (advance f sc rec_len); scan_block n sc
      else
        let entry := if (ino =? 0) && tail then DIRENT_CHECKSUM else s_entry sc in
        x ← func (if offset <? s_next sc then DIRENT_DELETED_FILE else entry) offset bufsize buf (s_priv sc);
        let '(ret, buf, p) := x in
        let entry := if entry <? DIRENT_OTHER_FILE then entry + 1 else entry in
        let changed := has ret DIRENT_CHANGED in
        rec_len ← (if changed then lift (rec_len_at f buf offset) else mret rec_len);
        let sc := mk_scan offset (s_next sc) entry (s_changed sc || changed) ret buf p in
        if has ret DIRENT_ABORT then mret (Finished true, sc)
        else sc ← lift (advance f sc rec_len); scan_block n sc
  end.
End scan.

Definition err_of (r : res unit) : option errno := match r with Ok _ => None | Err e => Some e end.

(** The flags for the walk over the blocks, the block number, which is left as it
    is, and the context. *)
Definition ext2_process_dir_block {P} (dir : dnode) (flags : Z) (func : dir_iter P)
    (blockno blkcnt ref_block ref_offset : Z) (c : dir_ctx P) : M st (Z * Z * dir_ctx P) :=
  f ← gets fs;
  let entry := if truthy blkcnt then DIRENT_OTHER_FILE else DIRENT_DOT_FILE in
  let inline_data := has flags DIRENT_FLAG_INLINE in
  x ← (if inline_data then mret (dc_err c, dc_buffer c)
       else x ← ext2_read_dir_block dir blockno (dc_buffer c); mret (err_of x.1, x.2));
  let '(err, buf) := x in
  if negb inline_data && bool_decide (err <> None) then mret (BLOCK_ABORT, blockno, mk_dctx err buf (dc_bufsize c) (dc_priv c)) else
  let bufsize := if inline_data then u32 (dc_bufsize c) else u32 (blksize f) in
  x ← scan_block func flags bufsize inline_data (Z.to_nat bufsize) (mk_scan 0 0 entry false 0 buf (dc_priv c));
  let '(how, sc) := x in
  match how with
  | Returned e =>
      let err := match e with Some _ => e | None => err end in
      mret (BLOCK_ABORT, blockno, mk_dctx err (s_buf sc) (dc_bufsize c) (s_priv sc))
  | Finished do_abort =>
      let stop := if do_abort then BLOCK_ABORT else 0 in
      if s_changed sc then
        if inline_data then mret (Z.lor BLOCK_INLINE_CHANGED stop, blockno, mk_dctx err (s_buf sc) (dc_bufsize c) (s_priv sc)) else
        x ← ext2_write_dir_block dir blockno (s_buf sc);
        let '(w, buf) := x in
        mret (match w with Ok _ => Z.lor (s_ret sc) stop | Err _ => BLOCK_ABORT end, blockno,
              mk_dctx (err_of w) buf (dc_bufsize c) (s_priv sc))
      else mret (Z.lor (s_ret sc) stop, blockno, mk_dctx err (s_buf sc) (dc_bufsize c) (s_priv sc))
  end.

(** [S_ISDIR (dir->mode)] *)
Definition dir_mode (d : dnode) : bool := Z.land (v_mode d) 0xf000 =? 0x4000.

Context (fresh : Z -> Z * list Z).
Context (extent_walk : forall P : Type, (Z -> Z -> Z -> Z -> P -> M st (Z * Z * P)) -> Z -> walk (P := P) -> M st (walk (P := P))).

(** The status, the directory, and the private data of the function. *)
Definition ext2_dir_iterate {P} (dir : dnode) (flags : Z) (blockbuf : option (list Z)) (func : dir_iter P) (p : P) :
    M st (res unit * dnode * P) :=
  if negb (dir_mode dir) then mret (Err ENOTDIR, dir, p) else
  f ← gets fs;
  b ← (match blockbuf with
       | Some b => mret (Some b)
       | None => ok ← alloc; mret (if ok : bool then Some (fresh (blksize f)).2 else None)
       end);
  match b with
  | None => mret (Err ENOMEM, dir, p)
  | Some b =>
      let walk_func := ext2_process_dir_block dir flags func in
      x ← ext2_block_iterate fresh walk_func BLOCK_FLAG_READ_ONLY (extent_walk _ walk_func) (v_ino dir) (v_inode dir) None
            (mk_dctx None b 0 p);
      let '(r, inode, c) := x in
      let r := match r with
        | Err e => Err e
        | Ok _ => match dc_err c with Some e => Err e | None => Ok tt end
        end in
      mret (r, set_inode dir inode, dc_priv c)
  end.

(** ** Looking up a name *)

(** [struct ext2_lookup_ctx]: the inode once the name is found. *)
Definition ext2_process_lookup (name : list Z) (namelen : Z) : dir_iter (option Z) :=
  fun entry offset bufsize buf found =>
    n ← lift (name_len_at buf offset);
    if negb (namelen =? n) then mret (0, buf, found) else
    eq ← lift (strncmp_zero (Z.to_nat n) name buf (offset + f_off d_name));
    if negb eq then mret (0, buf, found) else
    ino ← lift (dget buf offset d_inode);
    mret (DIRENT_ABORT, buf, Some ino).

Definition ext2_lookup_inode (dir : dnode) (name : list Z) (namelen : Z) (buffer : option (list Z)) : M st (res Z * dnode) :=
  x ← ext2_dir_iterate dir 0 buffer (ext2_process_lookup name namelen) None;
  let '(r, dir, found) := x in
  mret (match r with
        | Err e => Err e
        | Ok _ => match found with Some ino => Ok ino | None => Err ENOENT end
        end, dir).

(** ** link.c *)

(** [struct ext2_link_ctx]; [l_prev] is the offset of the entry before. *)
Record link_ctx := mk_lctx {
  l_name : option (list Z); l_namelen : Z; l_inode : Z; l_flags : Z; l_done : bool; l_err : option errno; l_prev : option Z
}.
Definition set_done (l : link_ctx) : link_ctx :=
  mk_lctx (l_name l) (l_namelen l) (l_inode l) (l_flags l) true (l_err l) (l_prev l).
Definition set_lerr (l : link_ctx) (e : option errno) : link_ctx :=
  mk_lctx (l_name l) (l_namelen l) (l_inode l) (l_flags l) (l_done l) e (l_prev l).
Definition set_prev (l : link_ctx) (p : Z) : link_ctx :=
  mk_lctx (l_name l) (l_namelen l) (l_inode l) (l_flags l) (l_done l) (l_err l) (Some p).

(** [l->err = ext2_set_rec_len (...)], with [return DIRENT_ABORT] on an error. *)
Definition put_rec_len (f : ext2_fs) (len : Z) (buf : list Z) (off : Z) (l : link_ctx)
    (k : list Z -> link_ctx -> option (Z * list Z * link_ctx)) : option (Z * list Z * link_ctx) :=
  r ← ext2_set_rec_len f len buf off;
  match r with
  | Err e => Some (DIRENT_ABORT, buf, set_lerr l (Some e))
  | Ok buf => k buf (set_lerr l None)
  end.

(** The entry behind this one is merged into it when it is empty. *)
Definition merge_next (f : ext2_fs) (offset curr bufsize : Z) (buf : list Z) : option (option Z) :=
  let next := u32 (offset + curr) in
  if negb (next <? bufsize - csum_size f - 8) then Some None else
  ino ← dget buf next d_inode;
  if truthy ino then Some None else
  len ← dget buf next d_rec_len;
  Some (if u32 (next + len) <=? bufsize then Some (u32 (curr + len)) else None).

(** The place for the new entry: an entry in use is split when it is long enough,
    an empty entry is filled. *)
Definition place_entry (f : ext2_fs) (offset rec_len curr ret : Z) (buf : list Z) (l : link_ctx) :
    option (Z * list Z * link_ctx) :=
  ino ← dget buf offset d_inode;
  if truthy ino then
    name_len ← name_len_at buf offset;
    let min_rec_len := ext2_dir_rec_len name_len false in
    if curr <? u32 (min_rec_len + rec_len) then Some (ret, buf, l) else
    put_rec_len f min_rec_len buf offset l (fun buf l =>
      len ← dget buf offset d_rec_len;
      let next := offset + len in
      buf ← dput buf next d_inode 0;
      buf ← dput buf next d_name_len 0;
      put_rec_len f (u32 (curr - min_rec_len)) buf next l (fun buf l => Some (DIRENT_CHANGED, buf, l)))
  else
    if curr <? rec_len then Some (ret, buf, l) else
    buf ← dput buf offset d_inode (l_inode l);
    old ← dget buf offset d_name_len;
    buf ← dput buf offset d_name_len (Z.lor (Z.land old 0xff00) (Z.land (l_namelen l) 0xff));
    buf ← blit buf (offset + f_off d_name) (default [] (l_name l));
    nl ← dget buf offset d_name_len;
    buf ← (if incompat (super f) EXT2_FT_INCOMPAT_FILETYPE
           then dput buf offset d_name_len (Z.lor (Z.land nl 0xff) (Z.shiftl (Z.land (l_flags l) 7) 8)) else Some buf);
    Some (Z.lor DIRENT_ABORT DIRENT_CHANGED, buf, set_done l).

Definition process_link (f : ext2_fs) (offset bufsize : Z) (buf : list Z) (l : link_ctx) : option (Z * list Z * link_ctx) :=
  if l_done l then Some (DIRENT_ABORT, buf, l) else
  let rec_len := ext2_dir_rec_len (l_namelen l) false in
  curr ← rec_len_at f buf offset;
  let l := set_lerr l None in
  m ← merge_next f offset curr bufsize buf;
  match m with
  | None => place_entry f offset rec_len curr 0 buf l
  | Some curr => put_rec_len f curr buf offset l (fun buf l => place_entry f offset rec_len curr DIRENT_CHANGED buf l)
  end.

Definition ext2_process_link : dir_iter link_ctx := fun entry offset bufsize buf l =>
  f ← gets fs; lift (process_link f offset bufsize buf l).

Definition ext2_dir_type (mode : Z) : Z :=
  let t := Z.land mode 0xf000 in
  if t =? 0x8000 then 1 else if t =? 0x4000 then 2 else if t =? 0x2000 then 3 else if t =? 0x6000 then 4
  else if t =? 0x1000 then 5 else if t =? 0xc000 then 6 else if t =? 0xa000 then 7 else 0.

(** ** Expanding a directory *)

Context (extent_goal : list Z -> Z -> M st (option Z)) (fuel : nat).

(** [struct ext2_dir_expand_ctx] *)
Record expand_ctx := mk_ectx { e_done : bool; e_newblocks : Z; e_goal : Z; e_err : option errno }.

Definition ext2_process_dir_expand (dir : dnode) (blockno blkcnt ref_block ref_offset : Z) (e : expand_ctx) :
    M st (Z * Z * expand_ctx) :=
  if truthy blockno then
    mret (0, blockno, if 0 <=? blkcnt then mk_ectx (e_done e) (e_newblocks e) blockno (e_err e) else e) else
  f ← gets fs;
  let failed (e : expand_ctx) (x : errno) := (BLOCK_ABORT, blockno, mk_ectx (e_done e) (e_newblocks e) (e_goal e) (Some x)) in
  x ← (if truthy blkcnt && (EXT2_B2C f (e_goal e) =? EXT2_B2C f (u64 (e_goal e + 1))) then mret (Ok (u64 (e_goal e + 1)), e)
       else
         let e := mk_ectx (e_done e) (e_newblocks e) (Z.land (e_goal e) (u64 (Z.lnot (EXT2_CLUSTER_MASK f)))) (e_err e) in
         r ← ext2_new_block fuel (e_goal e);
         match r with
         | Err x => mret (Err x, e)
         | Ok b => ext2_block_alloc_stats b 1;; mret (Ok b, mk_ectx (e_done e) (e_newblocks e + 1) (e_goal e) (e_err e))
         end);
  let '(r, e) := x in
  match r with
  | Err x => mret (failed e x)
  | Ok newblock =>
      x ← (if 0 <? blkcnt then
             r ← ext2_new_dir_block 0 0;
             match r with
             | Err x => mret (Err x, e, true)
             | Ok block =>
                 w ← ext2_write_dir_block dir newblock block;
                 mret (w.1, mk_ectx true (e_newblocks e) (e_goal e) (e_err e), false)
             end
           else r ← ext2_zero_blocks fuel newblock 1; mret (r, e, false));
      let '(r, e, early) := x in
      let e := if negb early && (0 <=? blkcnt) then mk_ectx (e_done e) (e_newblocks e) newblock (e_err e) else e in
      match r with
      | Err x => mret (failed e x)
      | Ok _ => mret (if e_done e then Z.lor BLOCK_CHANGED BLOCK_ABORT else BLOCK_CHANGED, newblock, e)
      end
  end.

Definition ext2_expand_dir (dir : dnode) : M st (res unit * dnode) :=
  f ← gets fs;
  if has (mflags f) MS_RDONLY then mret (Err EROFS, dir) else
  if negb (dir_mode dir) then mret (Err ENOTDIR, dir) else
  goal ← ext2_find_inode_goal extent_goal (v_ino dir) (v_inode dir) 0;
  let func := ext2_process_dir_expand dir in
  x ← ext2_block_iterate fresh func BLOCK_FLAG_APPEND (extent_walk _ func) (v_ino dir) (v_inode dir) None
        (mk_ectx false 0 goal None);
  let '(r, inode, e) := x in
  let dir := set_inode dir inode in
  match r, e_err e with
  | Err ENOTSUP, _ => mret (Err ENOTSUP, dir)
  | _, Some x => mret (Err x, dir)
  | _, None =>
      if negb (e_done e) then mret (Err EIO, dir) else
      r ← ext2_inode_set_size inode (s64 (EXT2_I_SIZE inode + blksize f));
      match r with
      | Err x => mret (Err x, dir)
      | Ok inode =>
          f ← gets fs;
          let inode := match ext2_iblk_add_blocks f inode (u64 (e_newblocks e)) with Ok i => i | Err _ => inode end in
          u ← ext2_update_inode fresh (v_ino dir) inode inode_struct_size;
          mret (u, set_inode dir inode)
      end
  end.

(** ** Adding an entry *)

Definition ext2_add_index_link : res unit := Err ENOTSUP.

(** What the result of a walk that adds an entry means: [None] when there was no
    room. *)
Definition link_status (r : res unit) (l : link_ctx) : option (res unit) :=
  match r with
  | Err e => Some (Err e)
  | Ok _ => match l_err l with Some e => Some (Err e) | None => if l_done l then Some (Ok tt) else None end
  end.

Definition ext2_add_link (dir : dnode) (name : option (list Z)) (ino flags : Z) : M st (res unit * dnode) :=
  f ← gets fs;
  if has (mflags f) MS_RDONLY then mret (Err EROFS, dir) else
  if has (v_inode dir ~> i_flags) EXT2_INDEX_FL then mret (ext2_add_index_link, dir) else
  let l := mk_lctx name (match name with Some n => zlen n | None => 0 end) ino flags false None None in
  x ← ext2_dir_iterate dir DIRENT_FLAG_EMPTY None ext2_process_link l;
  let '(r, dir, l) := x in
  match link_status r l with
  | Some r => mret (r, dir)
  | None =>
      x ← ext2_expand_dir dir;
      let '(r, dir) := x in
      match r with
      | Err _ => mret (Err ENOSPC, dir)
      | Ok _ =>
          x ← ext2_dir_iterate dir DIRENT_FLAG_EMPTY None ext2_process_link l;
          let '(r, dir, l) := x in
          mret (default (Err ENOSPC) (link_status r l), dir)
      end
  end.

End driver.

(** ** Directory blocks as lists of entries *)

(** The header of an entry, and an entry with everything that its record holds
    behind the header: the name and what is left over. *)
Definition hdr (ino len nlen : Z) : list Z := le_bytes 4 ino ++ le_bytes 2 len ++ le_bytes 2 nlen.
Record entry := mk_entry { en_ino : Z; en_nlen : Z; en_body : list Z }.
Definition en_len (e : entry) : Z := 8 + zlen (en_body e).
Definition enc (e : entry) : list Z := hdr (en_ino e) (en_len e) (en_nlen e) ++ en_body e.
Definition block_of (l : list entry) : list Z := concat (map enc l).

Definition en_name_len (e : entry) : Z := Z.land (en_nlen e) 0xff.
Definition en_name (e : entry) : list Z := take (Z.to_nat (en_name_len e)) (en_body e).

Record entry_ok (e : entry) : Prop := {
  eo_ino : 0 <= en_ino e < 2 ^ 32;
  eo_nlen : 0 <= en_nlen e < 2 ^ 16;
  eo_body : bytes_ok (en_body e);
  eo_len : 12 <= en_len e < 2 ^ 16 /\ en_len e mod 4 = 0;
  eo_name : en_name_len e <= zlen (en_body e)
}.

Section splices.
Context {A : Type}.
Implicit Types (pre x y post : list A).

Lemma blit_middle pre x y post : zlen y = zlen x -> blit (pre ++ x ++ post) (zlen pre) y = Some (pre ++ y ++ post).
Proof.
  intros Hy. unfold blit. autorewrite with carray. pose proof (zlen_nonneg pre). pose proof (zlen_nonneg post).
  destruct (Z.leb_spec 0 (zlen pre)), (Z.leb_spec (zlen pre + zlen y) (zlen pre + (zlen x + zlen post))); try lia.
  cbn [andb]. unfold zlen in *. rewrite Nat2Z.id, take_app_length. do 3 f_equal.
  rewrite app_assoc, drop_app_length'; [done|]. rewrite length_app. lia.
Qed.

Lemma slice_middle pre x post : slice (pre ++ x ++ post) (zlen pre) (zlen x) = Some x.
Proof.
  unfold slice. autorewrite with carray. pose proof (zlen_nonneg pre). pose proof (zlen_nonneg post). pose proof (zlen_nonneg x).
  destruct (Z.leb_spec 0 (zlen pre)), (Z.leb_spec 0 (zlen x)), (Z.leb_spec (zlen pre + zlen x) (zlen pre + (zlen x + zlen post))); try lia.
  cbn [andb]. unfold zlen in *. by rewrite !Nat2Z.id, drop_app_length, take_app_length.
Qed.
End splices.

Lemma load_middle pre x post n : length x = n -> load_le n (pre ++ x ++ post) (zlen pre) = Some (le_val x).
Proof.
  intros Hn. unfold load_le. autorewrite with carray. pose proof (zlen_nonneg pre). pose proof (zlen_nonneg post).
  destruct (Z.leb_spec 0 (zlen pre)), (Z.leb_spec (zlen pre + Z.of_nat n) (zlen pre + (zlen x + zlen post))); try (unfold zlen in *; lia).
  cbn [andb]. unfold zlen. rewrite Nat2Z.id, drop_app_length. subst n. by rewrite take_app_length.
Qed.

Lemma le_load n v : 0 <= v < 2 ^ (8 * Z.of_nat n) -> le_val (le_bytes n v) = v.
Proof. intros Hv. rewrite le_val_wrap. by apply wrap_small. Qed.

Lemma zlen_hdr i l n : zlen (hdr i l n) = 8.
Proof. unfold hdr. autorewrite with carray. by rewrite !le_bytes_len. Qed.

Lemma zlen_enc e : zlen (enc e) = en_len e.
Proof. unfold enc. autorewrite with carray. by rewrite zlen_hdr. Qed.

Section header.
Context (pre rest : list Z) (i l n : Z).
Abbreviation buf := (pre ++ hdr i l n ++ rest).

Lemma hdr_ino : buf = pre ++ le_bytes 4 i ++ (le_bytes 2 l ++ le_bytes 2 n ++ rest).
Proof. unfold hdr. by rewrite <- !app_assoc. Qed.
Lemma hdr_len : buf = (pre ++ le_bytes 4 i) ++ le_bytes 2 l ++ (le_bytes 2 n ++ rest).
Proof. unfold hdr. by rewrite <- !app_assoc. Qed.
Lemma hdr_nlen : buf = (pre ++ le_bytes 4 i ++ le_bytes 2 l) ++ le_bytes 2 n ++ rest.
Proof. unfold hdr. by rewrite <- !app_assoc. Qed.
End header.

(** A field that starts where [p] ends. *)
Lemma dget_at p rest off fl n v : zlen p = off + f_off fl -> Z.to_nat (f_len fl) = n -> 0 <= v < 2 ^ (8 * Z.of_nat n) ->
  dget (p ++ le_bytes n v ++ rest) off fl = Some v.
Proof.
  intros Hp Hn Hv. unfold dget. rewrite Hn, <- Hp, load_middle.
  - by rewrite le_load.
  - pose proof (le_bytes_len n v) as Hl. unfold zlen in Hl. lia.
Qed.

Lemma dput_at p rest off fl n v w : zlen p = off + f_off fl -> Z.to_nat (f_len fl) = n ->
  dput (p ++ le_bytes n v ++ rest) off fl w = Some (p ++ le_bytes n w ++ rest).
Proof. intros Hp Hn. unfold dput. rewrite Hn, <- Hp. apply blit_middle. by rewrite !le_bytes_len. Qed.

Section header_fields.
Context (pre rest : list Z) (i l n : Z).

Lemma dget_ino : 0 <= i < 2 ^ 32 -> dget (pre ++ hdr i l n ++ rest) (zlen pre) d_inode = Some i.
Proof. intros. rewrite hdr_ino. apply dget_at; [cbn; lia|done|done]. Qed.
Lemma dget_len : 0 <= l < 2 ^ 16 -> dget (pre ++ hdr i l n ++ rest) (zlen pre) d_rec_len = Some l.
Proof. intros. rewrite hdr_len. apply dget_at; [rewrite zlen_app, le_bytes_len; cbn; lia|done|done]. Qed.
Lemma dget_nlen : 0 <= n < 2 ^ 16 -> dget (pre ++ hdr i l n ++ rest) (zlen pre) d_name_len = Some n.
Proof. intros. rewrite hdr_nlen. apply dget_at; [rewrite !zlen_app, !le_bytes_len; cbn; lia|done|done]. Qed.
Lemma dput_ino v : dput (pre ++ hdr i l n ++ rest) (zlen pre) d_inode v = Some (pre ++ hdr v l n ++ rest).
Proof. rewrite !hdr_ino. apply dput_at; [cbn; lia|done]. Qed.
Lemma dput_len v : dput (pre ++ hdr i l n ++ rest) (zlen pre) d_rec_len v = Some (pre ++ hdr i v n ++ rest).
Proof. rewrite !hdr_len. apply dput_at; [rewrite zlen_app, le_bytes_len; cbn; lia|done]. Qed.
Lemma dput_nlen v : dput (pre ++ hdr i l n ++ rest) (zlen pre) d_name_len v = Some (pre ++ hdr i l v ++ rest).
Proof. rewrite !hdr_nlen. apply dput_at; [rewrite !zlen_app, !le_bytes_len; cbn; lia|done]. Qed.
End header_fields.

Lemma enc_split pre e post : pre ++ enc e ++ post = pre ++ hdr (en_ino e) (en_len e) (en_nlen e) ++ (en_body e ++ post).
Proof. unfold enc. by rewrite <- app_assoc. Qed.

Section entry_fields.
Context (pre post : list Z) (e : entry).
Hypothesis Hok : entry_ok e.

Lemma get_ino : dget (pre ++ enc e ++ post) (zlen pre) d_inode = Some (en_ino e).
Proof. rewrite enc_split. apply dget_ino, Hok. Qed.
Lemma get_rec_len : dget (pre ++ enc e ++ post) (zlen pre) d_rec_len = Some (en_len e).
Proof. rewrite enc_split. apply dget_len. destruct (eo_len e Hok). lia. Qed.
Lemma get_nlen : dget (pre ++ enc e ++ post) (zlen pre) d_name_len = Some (en_nlen e).
Proof. rewrite enc_split. apply dget_nlen, Hok. Qed.
Lemma get_name_len : name_len_at (pre ++ enc e ++ post) (zlen pre) = Some (en_name_len e).
Proof. unfold name_len_at. by rewrite get_nlen. Qed.
Lemma en_name_range : 0 <= en_name_len e < 256.
Proof. unfold en_name_len. change 255 with (Z.ones 8). rewrite Z.land_ones by lia. apply Z.mod_pos_bound. lia. Qed.
End entry_fields.

(** ** One step of the walk *)

Section steps.
Context {D : Type} `{BlockDevice D} {P : Type} (func : dir_iter (D := D) P) (flags : Z).
Notation st := (st (D := D)).

(** Blocks are small enough for [d_rec_len] to hold every length. *)
Definition small_blocks (f : ext2_fs) : Prop := 1024 <= blksize f < 65536.

Lemma rec_len_small f len : small_blocks f -> ext2_get_rec_len f len = len.
Proof. intros Hs. unfold ext2_get_rec_len, small_blocks in *. destruct (Z.ltb_spec (blksize f) 65536); [done|lia]. Qed.

Lemma rec_len_entry f pre e post : small_blocks f -> entry_ok e -> rec_len_at f (pre ++ enc e ++ post) (zlen pre) = Some (en_len e).
Proof. intros Hs He. unfold rec_len_at. rewrite get_rec_len by done. cbn. by rewrite rec_len_small. Qed.

Lemma advance_run f bs (sc : scan P) rl nl : has flags DIRENT_FLAG_REMOVED = false -> name_len_at (s_buf sc) (s_offset sc) = Some nl ->
  0 <= s_offset sc -> 0 <= rl -> s_offset sc + rl < 2 ^ 32 ->
  advance flags bs f sc rl = Some (mk_scan (s_offset sc + rl)
    (if s_next sc =? s_offset sc then u32 (s_next sc + rl) else s_next sc) (s_entry sc) (s_changed sc) (s_ret sc) (s_buf sc) (s_priv sc)).
Proof. intros Hf Hn H0 H1 H2. unfold advance. rewrite Hn, Hf. cbn. by rewrite (wrap_small 32) by lia. Qed.

(** Whether an entry is passed over without a call. *)
Definition skipped (f : ext2_fs) (bs off : Z) (e : entry) : bool :=
  (en_ino e =? 0) && negb (has flags (if is_tail bs false f off (en_len e) (en_nlen e) then DIRENT_FLAG_CHECKSUM else DIRENT_FLAG_EMPTY)).

(** A walk that stands at a good entry makes its call, or none, and goes on. *)
Lemma scan_step n pre e post nx en ch rt p (s : st) :
  small_blocks (fs s) -> entry_ok e -> zlen (pre ++ enc e ++ post) = blksize (fs s) ->
  let bs := blksize (fs s) in
  let buf := pre ++ enc e ++ post in
  let sc := mk_scan (zlen pre) nx en ch rt buf p in
  scan_block func flags bs false (S n) sc s =
  (if skipped (fs s) bs (zlen pre) e then sc ← lift (advance flags bs (fs s) sc (en_len e)); scan_block func flags bs false n sc
   else
     let kind := if (en_ino e =? 0) && is_tail bs false (fs s) (zlen pre) (en_len e) (en_nlen e) then DIRENT_CHECKSUM else en in
     x ← func (if zlen pre <? nx then DIRENT_DELETED_FILE else kind) (zlen pre) bs buf p;
     let '(ret, buf, p) := x in
     rec_len ← (if has ret DIRENT_CHANGED then lift (rec_len_at (fs s) buf (zlen pre)) else mret (en_len e));
     let sc := mk_scan (zlen pre) nx (if kind <? DIRENT_OTHER_FILE then kind + 1 else kind) (ch || has ret DIRENT_CHANGED) ret buf p in
     if has ret DIRENT_ABORT then mret (Finished true, sc)
     else sc ← lift (advance flags bs (fs s) sc rec_len); scan_block func flags bs false n sc) s.
Proof.
  intros Hs He Hl. cbn zeta. destruct Hs as [Hs1 Hs2]. pose proof (zlen_nonneg pre). pose proof (zlen_nonneg post).
  rewrite !zlen_app, zlen_enc in Hl. destruct He as [Hi Hn Hb [Hlen Hmod] Hname] eqn:EHe.
  cbn [scan_block s_offset s_buf]. rewrite (wrap_small 32 (blksize (fs s) - 8)) by lia.
  destruct (Z.ltb_spec (zlen pre) (blksize (fs s) - 8)); [|lia]. cbn [negb]. rewrite gets_run.
  rewrite get_rec_len, get_nlen, get_ino by done.
  rewrite !(lift_run (Some _) _ _ s eq_refl). rewrite rec_len_small by done.
  rewrite (wrap_small 32 (zlen pre + en_len e)) by lia.
  destruct (Z.ltb_spec (blksize (fs s)) (zlen pre + en_len e)); [lia|].
  destruct (Z.ltb_spec (en_len e) 8); [lia|]. rewrite Hmod. cbn [truthy Z.eqb negb orb].
  unfold en_name_len, en_len in Hname |- *. destruct (Z.ltb_spec (8 + zlen (en_body e)) (Z.land (en_nlen e) 255 + 8)); [lia|].
  unfold skipped, en_len. by destruct (_ && _).
Qed.

(** The walk ends at the end of the block. *)
Lemma scan_end_run n nx en ch rt buf p (s : st) : small_blocks (fs s) -> zlen buf = blksize (fs s) ->
  scan_block func flags (blksize (fs s)) false n (mk_scan (zlen buf) nx en ch rt buf p) s =
  Some (Finished false, mk_scan (zlen buf) nx en ch rt buf p, s).
Proof.
  intros [Hs1 Hs2] Hl. destruct n; cbn [scan_block s_offset]; rewrite (wrap_small 32) by lia;
    destruct (Z.ltb_spec (zlen buf) (blksize (fs s) - 8)); (lia || done).
Qed.
End steps.

(** ** Blocks with their checksum *)

Definition tail_entry (sum : list Z) : entry := mk_entry 0 EXT2_DIR_NAME_CHECKSUM sum.
Definition tail_bytes (f : ext2_fs) (sum : list Z) : list Z :=
  if ro_compat (super f) EXT4_FT_RO_COMPAT_METADATA_CSUM then enc (tail_entry sum) else [].

(** [buf] is a block of a directory with the entries [l]. *)
Record dir_block (f : ext2_fs) (l : list entry) (sum buf : list Z) : Prop := {
  db_buf : buf = block_of l ++ tail_bytes f sum;
  db_len : zlen buf = blksize f;
  db_ok : Forall entry_ok l;
  db_sum : zlen sum = 4 /\ bytes_ok sum
}.

Lemma block_of_app l l' : block_of (l ++ l') = block_of l ++ block_of l'.
Proof. unfold block_of. by rewrite map_app, concat_app. Qed.

Lemma block_of_cons e l : block_of (e :: l) = enc e ++ block_of l.
Proof. done. Qed.

Lemma block_split f pre e post sum :
  block_of (pre ++ e :: post) ++ tail_bytes f sum = block_of pre ++ enc e ++ (block_of post ++ tail_bytes f sum).
Proof. rewrite block_of_app, block_of_cons. by rewrite <- !app_assoc. Qed.

Lemma zlen_tail f sum : zlen sum = 4 -> zlen (tail_bytes f sum) = csum_size f.
Proof.
  intros Hs. unfold tail_bytes, csum_size. destruct (ro_compat _ _); [|done]. rewrite zlen_enc. unfold en_len. cbn. lia.
Qed.

Lemma tail_ok sum : zlen sum = 4 -> bytes_ok sum -> entry_ok (tail_entry sum).
Proof. intros Hl Hb. split; unfold en_len, en_name_len; cbn [tail_entry en_ino en_nlen en_body]; rewrite ?Hl; try done; vm_compute; intuition congruence. Qed.

(** What a walk leaves. *)
Definition left_with {P} (sc : scan P) (ch : bool) (rt : Z) (buf : list Z) (p : P) : Prop :=
  s_changed sc = ch /\ s_ret sc = rt /\ s_buf sc = buf /\ s_priv sc = p.

Section walks.
Context {D : Type} `{BlockDevice D} {P : Type} (func : dir_iter (D := D) P) (flags : Z).
Notation st := (st (D := D)).
Hypothesis no_checksums : has flags DIRENT_FLAG_CHECKSUM = false.
Hypothesis no_removed : has flags DIRENT_FLAG_REMOVED = false.

(** The walk behind the last entry. *)
Lemma scan_last n l sum nx en ch rt buf p (s : st) : small_blocks (fs s) -> dir_block (fs s) l sum buf -> (0 < n)%nat ->
  exists sc, scan_block func flags (blksize (fs s)) false n (mk_scan (zlen (block_of l)) nx en ch rt buf p) s =
    Some (Finished false, sc, s) /\ left_with sc ch rt buf p.
Proof.
  intros Hs [Hbuf Hl _ [Hsum Hb] ] Hn. destruct (ro_compat (super (fs s)) EXT4_FT_RO_COMPAT_METADATA_CSUM) eqn:Ec.
  - unfold tail_bytes in Hbuf. rewrite Ec in Hbuf.
    rewrite Hbuf in Hl |- *. clear Hbuf buf. rewrite <- (app_nil_r (enc (tail_entry sum))) in Hl |- *. destruct n as [|n]; [lia|].
    pose proof (tail_ok sum Hsum Hb) as Ht. pose proof (zlen_nonneg (block_of l)).
    rewrite (scan_step func flags n _ _ _ _ _ _ _ _ _ Hs Ht Hl). unfold skipped.
    assert (He : en_len (tail_entry sum) = 12) by (unfold en_len; cbn; lia).
    assert (Et : is_tail (blksize (fs s)) false (fs s) (zlen (block_of l)) (en_len (tail_entry sum)) (en_nlen (tail_entry sum)) = true).
    { unfold is_tail, csum_size. rewrite Ec, He. rewrite !zlen_app, zlen_enc, zlen_nil, He in Hl.
      destruct Hs. rewrite (wrap_small 32) by lia. destruct (Z.eqb_spec (zlen (block_of l)) (blksize (fs s) - 12)); [done|lia]. }
    rewrite Et, no_checksums. cbn [tail_entry en_ino Z.eqb negb andb].
    erewrite lift_run by (apply (advance_run _ _ _ _ _ (en_name_len (tail_entry sum))); [done|by apply get_name_len| | |]; cbn [s_offset];
      [lia|lia|rewrite !zlen_app, zlen_enc in Hl; pose proof (zlen_nonneg (@nil Z)); destruct Hs; lia]).
    cbn [s_offset s_next s_entry s_changed s_ret s_buf s_priv].
    replace (zlen (block_of l) + en_len (tail_entry sum)) with (zlen (block_of l ++ enc (tail_entry sum) ++ []))
      by (rewrite !zlen_app, zlen_enc, zlen_nil; lia).
    rewrite scan_end_run by done. by eexists.
  - unfold tail_bytes in Hbuf. rewrite Ec, app_nil_r in Hbuf. subst buf. rewrite scan_end_run by done. by eexists.
Qed.

(** An entry of the list is not taken for the tail. *)
Lemma not_tail f l pre e post sum buf : small_blocks f -> dir_block f l sum buf -> l = pre ++ e :: post ->
  is_tail (blksize f) false f (zlen (block_of pre)) (en_len e) (en_nlen e) = false.
Proof.
  intros [Hs1 Hs2] [Hbuf Hl Hok [Hsum _] ] ->. rewrite Hbuf, block_split, !zlen_app, zlen_enc, zlen_tail in Hl by done.
  apply Forall_app in Hok as [_ [He _]%Forall_cons]. destruct He as [_ _ _ [He _] _].
  pose proof (zlen_nonneg (block_of pre)). pose proof (zlen_nonneg (block_of post)).
  unfold is_tail, csum_size in *. destruct (ro_compat _ _); cbn [negb andb].
  - rewrite (wrap_small 32) by lia. destruct (Z.eqb_spec (zlen (block_of pre)) (blksize f - 12)); [lia|done].
  - destruct (Z.eqb_spec (en_len e) 0); [lia|]. by rewrite andb_false_r.
Qed.

(** One step at an entry of the list. *)
Lemma walk_step n l pre e post sum nx en ch rt buf p (s : st) :
  small_blocks (fs s) -> dir_block (fs s) l sum buf -> l = pre ++ e :: post ->
  let bs := blksize (fs s) in
  let off := zlen (block_of pre) in
  exists nx1 nx2 en2 kind,
  scan_block func flags bs false (S n) (mk_scan off nx en ch rt buf p) s =
  (if (en_ino e =? 0) && negb (has flags DIRENT_FLAG_EMPTY)
   then scan_block func flags bs false n (mk_scan (off + en_len e) nx1 en ch rt buf p)
   else
     x ← func kind off bs buf p;
     let '(ret, buf, p) := x in
     rec_len ← (if has ret DIRENT_CHANGED then lift (rec_len_at (fs s) buf off) else mret (en_len e));
     let sc := mk_scan off nx2 en2 (ch || has ret DIRENT_CHANGED) ret buf p in
     if has ret DIRENT_ABORT then mret (Finished true, sc)
     else sc ← lift (advance flags bs (fs s) sc rec_len); scan_block func flags bs false n sc) s.
Proof.
  intros Hs Hdb El. cbn zeta. pose proof (not_tail _ _ _ _ _ _ _ Hs Hdb El) as Hnt. destruct Hdb as [Hbuf Hl Hok _].
  rewrite El, block_split in Hbuf. subst l. apply Forall_app in Hok as [_ [He _]%Forall_cons]. subst buf.
  rewrite (scan_step func flags n _ _ _ _ _ _ _ _ _ Hs He Hl). unfold skipped. rewrite Hnt.
  exists (if nx =? zlen (block_of pre) then u32 (nx + en_len e) else nx), nx,
    (if en <? DIRENT_OTHER_FILE then en + 1 else en), (if zlen (block_of pre) <? nx then DIRENT_DELETED_FILE else en).
  pose proof (zlen_nonneg (block_of pre)). pose proof (zlen_nonneg (block_of post ++ tail_bytes (fs s) sum)).
  destruct ((en_ino e =? 0) && negb (has flags DIRENT_FLAG_EMPTY)).
  - erewrite lift_run by (apply (advance_run _ _ _ _ _ (en_name_len e)); [done|by apply get_name_len| | |]; cbn [s_offset];
      [lia|destruct He as [_ _ _ [? _] _]; lia|rewrite !zlen_app, zlen_enc in Hl; rewrite zlen_app in *; destruct Hs; lia]).
    done.
  - by rewrite andb_false_r.
Qed.
End walks.

(** ** Looking up a name in a block *)

(** The inode of the first entry in use with a name. *)
Definition named (name : list Z) (e : entry) : bool := negb (en_ino e =? 0) && bool_decide (en_name e = name).
Definition find_name (name : list Z) (l : list entry) : option Z := en_ino <$> head (filter (fun e => named name e = true) l).

Lemma zlookup_middle {A} (pre : list A) x post : (pre ++ x :: post).[zlen pre] = Some x.
Proof. unfold zlen. rewrite zlookup_nat. by apply list_lookup_middle. Qed.

Lemma strncmp_zero_spec name x : forall pre post, length x = length name -> Forall (fun c => c <> 0) name ->
  strncmp_zero (length name) name (pre ++ x ++ post) (zlen pre) = Some (bool_decide (x = name)).
Proof.
  revert x. induction name as [|a name IH]; intros [|b x] pre post Hl Hn; try done.
  cbn [strncmp_zero length tail app]. change (default 0 (head (a :: name))) with a. rewrite zlookup_middle. orun. apply Forall_cons in Hn as [Ha Hn].
  destruct (Z.eqb_spec a b) as [<-|Hne]; cbn [negb].
  - destruct (Z.eqb_spec a 0); [done|]. replace (pre ++ a :: x ++ post) with ((pre ++ [a]) ++ x ++ post) by (by rewrite <- app_assoc).
    replace (zlen pre + 1) with (zlen (pre ++ [a])) by (rewrite zlen_app; done). rewrite IH by (cbn in Hl; lia || done).
    f_equal. apply bool_decide_ext. split; [by intros -> | by intros [=] ].
  - f_equal. symmetry. apply bool_decide_eq_false. congruence.
Qed.

Lemma name_split e : entry_ok e -> exists rest, en_body e = en_name e ++ rest /\ zlen (en_name e) = en_name_len e.
Proof.
  intros He. exists (drop (Z.to_nat (en_name_len e)) (en_body e)). split; [symmetry; apply take_drop|].
  pose proof (en_name_range e). pose proof (eo_name e He). unfold en_name, zlen in *. rewrite length_take. lia.
Qed.

Section lookup.
Context {D : Type} `{BlockDevice D}.
Notation st := (st (D := D)).
Context (name : list Z) (name_ok : Forall (fun c => c <> 0) name).

Lemma process_lookup_run kind bs pre e post found (s : st) : entry_ok e -> en_ino e <> 0 ->
  ext2_process_lookup name (zlen name) kind (zlen pre) bs (pre ++ enc e ++ post) found s =
  Some (if named name e then (DIRENT_ABORT, pre ++ enc e ++ post, Some (en_ino e)) else (0, pre ++ enc e ++ post, found), s).
Proof.
  intros He Hi. unfold ext2_process_lookup, named. rewrite get_name_len by done. rewrite (lift_run (Some _) _ _ s eq_refl).
  destruct (name_split e He) as (rest & Hb & Hl). destruct (Z.eqb_spec (en_ino e) 0); [done|]. cbn [negb andb].
  destruct (Z.eqb_spec (zlen name) (en_name_len e)) as [Heq|Hne]; cbn [negb].
  2: { rewrite bool_decide_eq_false_2; [done|]. intros En. rewrite En in Hl. lia. }
  assert (Hs : strncmp_zero (Z.to_nat (en_name_len e)) name (pre ++ enc e ++ post) (zlen pre + f_off d_name) =
    Some (bool_decide (en_name e = name))).
  { rewrite <- Heq. unfold zlen at 1. rewrite Nat2Z.id. unfold enc. rewrite Hb, <- !app_assoc, app_assoc.
    replace (zlen pre + f_off d_name) with (zlen (pre ++ hdr (en_ino e) (en_len e) (en_nlen e)))
      by (rewrite zlen_app, zlen_hdr; done).
    apply strncmp_zero_spec; [unfold zlen in *; lia|done]. }
  rewrite Hs. rewrite (lift_run (Some _) _ _ s eq_refl). destruct (bool_decide (en_name e = name)); cbn [negb]; [|done].
  rewrite get_ino by done. done.
Qed.

Lemma lookup_scan n l sum buf (s : st) : small_blocks (fs s) -> dir_block (fs s) l sum buf ->
  forall post pre nx en, l = pre ++ post -> (length post < n)%nat ->
  exists sc, scan_block (ext2_process_lookup name (zlen name)) 0 (blksize (fs s)) false n
      (mk_scan (zlen (block_of pre)) nx en false 0 buf None) s =
    Some (Finished (bool_decide (find_name name post <> None)), sc, s) /\
    left_with sc false (if find_name name post then DIRENT_ABORT else 0) buf (find_name name post).
Proof.
  intros Hs Hdb post. revert n. induction post as [|e post IH]; intros n pre nx en El Hn.
  { rewrite app_nil_r in El. subst pre. apply (scan_last _ 0 eq_refl eq_refl n l sum); try done. }
  pose proof Hdb as [Hbuf Hl Hok _]. rewrite El, block_split in Hbuf. rewrite El in Hok.
  apply Forall_app in Hok as [_ [He _]%Forall_cons]. pose proof (zlen_nonneg (block_of post)).
  cbn [length] in Hn. destruct (eo_len e He) as [Hlen _]. destruct n as [|n]; [lia|].
  destruct (walk_step (ext2_process_lookup name (zlen name)) 0 eq_refl n l pre e post sum nx en false 0 buf None s Hs Hdb El)
    as (nx1 & nx2 & en2 & kind & ->). change (has 0 DIRENT_FLAG_EMPTY) with false. cbn [negb]. rewrite andb_true_r.
  assert (Eoff : zlen (block_of pre) + en_len e = zlen (block_of (pre ++ [e])))
    by (rewrite block_of_app, zlen_app, block_of_cons, zlen_app, zlen_enc; change (zlen (block_of [])) with 0; lia).
  assert (Efind : find_name name (e :: post) = if named name e then Some (en_ino e) else find_name name post).
  { unfold find_name. rewrite filter_cons. by destruct (named name e). }
  destruct (Z.eqb_spec (en_ino e) 0) as [E0|E0].
  - assert (Hnn : named name e = false) by (unfold named; by rewrite E0). rewrite Efind, Hnn, Eoff.
    apply IH; [by rewrite <- app_assoc|lia].
  - pose proof (process_lookup_run kind (blksize (fs s)) (block_of pre) e (block_of post ++ tail_bytes (fs s) sum) None s He E0) as Hp.
    rewrite <- Hbuf in Hp. rewrite (bind_run _ _ _ _ _ Hp), Efind. destruct (named name e).
    + change (has DIRENT_ABORT DIRENT_CHANGED) with false. change (has DIRENT_ABORT DIRENT_ABORT) with true. cbn iota. rewrite ret_run. by eexists.
    + change (has 0 DIRENT_CHANGED) with false. change (has 0 DIRENT_ABORT) with false. cbn iota. rewrite ret_run.
      pose proof (zlen_nonneg (block_of pre)). assert (zlen (block_of pre) + en_len e <= blksize (fs s)).
      { rewrite <- Hl, Hbuf, !zlen_app, zlen_enc. pose proof (zlen_nonneg (tail_bytes (fs s) sum)). lia. }
      erewrite lift_run by (apply (advance_run _ _ _ _ _ (en_name_len e)); cbn [s_offset s_buf];
        [done|rewrite Hbuf; by apply get_name_len|lia|lia|destruct Hs; lia]).
      cbn [s_offset s_next s_entry s_changed s_ret s_buf s_priv orb]. rewrite Eoff. apply IH; [by rewrite <- app_assoc|lia].
Qed.
End lookup.

(** ** The tail of a block and its checksum *)

Lemma find_tail_run l : forall pre post n, Forall entry_ok l -> zlen (block_of l) <= Z.of_nat n ->
  find_tail n (pre ++ block_of l ++ post) (zlen pre) (zlen pre + zlen (block_of l)) = Some (Ok (zlen pre + zlen (block_of l))).
Proof.
  induction l as [|e l IH]; intros pre post n Hok Hn.
  { change (zlen (block_of [])) with 0. rewrite Z.add_0_r. destruct n; cbn [find_tail]; by rewrite Z.ltb_irrefl. }
  apply Forall_cons in Hok as [He Hok]. rewrite block_of_cons, zlen_app, zlen_enc in *.
  destruct (eo_len e He) as [Hlen Hmod]. pose proof (zlen_nonneg (block_of l)). destruct n as [|n]; [lia|]. cbn [find_tail].
  destruct (Z.ltb_spec (zlen pre) (zlen pre + (en_len e + zlen (block_of l)))); [|lia]. cbn [negb].
  rewrite <- app_assoc, get_rec_len by done. orun. destruct (Z.ltb_spec (en_len e) 8); [lia|].
  change 3 with (Z.ones 2). rewrite Z.land_ones by lia. change (2 ^ 2) with 4. rewrite Hmod. cbn [truthy Z.eqb negb orb].
  specialize (IH (pre ++ enc e) post n Hok ltac:(lia)). rewrite zlen_app, zlen_enc, <- !app_assoc in IH.
  by rewrite Z.add_assoc.
Qed.

Lemma block_mod4 l : Forall entry_ok l -> zlen (block_of l) mod 4 = 0.
Proof.
  induction 1 as [|e l He _ IH]; [done|]. rewrite block_of_cons, zlen_app, zlen_enc.
  destruct (eo_len e He) as [_ Hm]. rewrite Z.add_mod, Hm, IH by lia. done.
Qed.

Lemma tail_found f l sum buf : dir_block f l sum buf -> ro_compat (super f) EXT4_FT_RO_COMPAT_METADATA_CSUM = true ->
  ext2_get_dirent_tail f buf = Some (Ok (zlen (block_of l))) /\ zlen (block_of l) = blksize f - 12 /\
  buf = block_of l ++ enc (tail_entry sum) ++ [].
Proof.
  intros [Hbuf Hl Hok [Hsum Hb] ] Hc. unfold tail_bytes in Hbuf. rewrite Hc in Hbuf.
  assert (En : en_len (tail_entry sum) = 12) by (unfold en_len; cbn; lia).
  assert (Ht : zlen (block_of l) = blksize f - 12) by (rewrite Hbuf, zlen_app, zlen_enc, En in Hl; lia).
  rewrite <- (app_nil_r (enc _)) in Hbuf. split; [|done]. pose proof (zlen_nonneg (block_of l)).
  pose proof (tail_ok sum Hsum Hb) as Htl.
  unfold ext2_get_dirent_tail. rewrite Hbuf.
  pose proof (find_tail_run l [] (enc (tail_entry sum) ++ []) (Z.to_nat (blksize f)) Hok ltac:(lia)) as Hf.
  change (zlen (@nil Z)) with 0 in Hf. rewrite Z.add_0_l, Ht in Hf. rewrite app_nil_l in Hf. rewrite Hf. orun.
  destruct (Z.ltb_spec (blksize f) (blksize f - 12)); [lia|]. rewrite Z.eqb_refl. cbn [negb]. rewrite <- Ht.
  change det_reserved_zero1 with d_inode. change det_rec_len with d_rec_len. change det_reserved_name_len with d_name_len.
  rewrite get_ino, get_rec_len, get_nlen by done. orun. by rewrite En.
Qed.

Lemma tail_sum pre sum post : zlen sum = 4 -> bytes_ok sum ->
  dget (pre ++ enc (tail_entry sum) ++ post) (zlen pre) det_checksum = Some (le_val sum).
Proof.
  intros Hs Hb. rewrite enc_split. unfold dget. cbn [en_body tail_entry]. rewrite app_assoc.
  replace (zlen pre + f_off det_checksum) with (zlen (pre ++ hdr (en_ino (tail_entry sum)) (en_len (tail_entry sum)) (en_nlen (tail_entry sum))))
    by (rewrite zlen_app, zlen_hdr; done).
  apply load_middle. unfold zlen in Hs. change (Z.to_nat (f_len det_checksum)) with 4%nat. lia.
Qed.

(** The checksum of a block with the entries [l] by the reference CRC. *)
Definition dir_csum (f : ext2_fs) (dir : dnode) (l : list entry) : Z :=
  crc32c_ref (crc32c_ref (crc32c_ref (checksum_seed f) (le_bytes 8 (v_ino dir))) (le_bytes 4 (v_inode dir ~> i_generation))) (block_of l).

Section lookup_dir.
Context {D : Type} `{DeviceLaws D}.
Notation st := (st (D := D)).

(** Block [ib] of the directory holds the entries [l], with their checksum when
    the filesystem has checksums. *)
Definition holds (s : st) (dir : dnode) (ib : Z * Z) (l : list entry) : Prop :=
  0 < ib.2 /\ (ib.2 + 1) * blksize (fs s) < 2 ^ 63 /\
  exists sum, dir_block (fs s) l sum (block_bytes (dev s) (blksize (fs s)) ib.2) /\
    (ro_compat (super (fs s)) EXT4_FT_RO_COMPAT_METADATA_CSUM = true -> le_val sum = dir_csum (fs s) dir l).

(** The entries of a directory, in the order of its blocks. *)
Definition dir_entries (s : st) (dir : dnode) (l : list entry) : Prop :=
  exists ls, Forall2 (holds s dir) (direct_blocks (v_inode dir)) ls /\ l = concat ls.

(** Nothing but the tables of [crc32] and the answers of the allocator may differ. *)
Definition kept (s s' : st) : Prop := unchanged s s' /\ tables_ok (tables s').

Lemma kept_trans s1 s2 s3 : kept s1 s2 -> kept s2 s3 -> kept s1 s3.
Proof. intros [U1 _] [U2 T2]. split; [by eapply unchanged_trans|done]. Qed.

Lemma holds_kept s s' dir ib l : unchanged s s' -> holds s dir ib l -> holds s' dir ib l.
Proof.
  intros [Ef Ec] (H1 & H2 & sum & H3 & H4). unfold holds. rewrite Ef. split_and!; try done. exists sum.
  assert (block_bytes (dev s') (blksize (fs s)) ib.2 = block_bytes (dev s) (blksize (fs s)) ib.2) as ->; [|done].
  unfold block_bytes. apply map_ext. exact Ec.
Qed.

Lemma le_bytes_all n x : take (Z.to_nat (Z.of_nat n)) (le_bytes n x) = le_bytes n x.
Proof. rewrite take_ge; [done|]. pose proof (le_bytes_len n x). unfold zlen in *. lia. Qed.

Lemma dirent_checksum_run (s : st) dir l rest : geometry (fs s) -> tables_ok (tables s) -> Forall entry_ok l -> bytes_ok (block_of l ++ rest) ->
  ext2_dirent_checksum dir (block_of l ++ rest) (zlen (block_of l)) s = Some (dir_csum (fs s) dir l, set_tables s crc32_tables1).
Proof.
  intros Hg Ht Hok Hb. pose proof (geo_ok _ Hg) as Hf. unfold ext2_dirent_checksum, dir_csum. rewrite gets_run.
  rewrite (bind_run _ _ _ _ _ (crc32_st_ok s (checksum_seed (fs s)) (le_bytes 8 (v_ino dir)) 8 Ht (ok_seed _ Hf)
    (le_bytes_ok _ _) ltac:(rewrite le_bytes_len; lia) eq_refl)).
  change 8 with (Z.of_nat 8) at 1. rewrite le_bytes_all. set (c1 := crc32c_ref _ (le_bytes 8 _)).
  assert (0 <= c1 < 2 ^ 32) as Hc1 by (apply crc32c_ref_range; [apply le_bytes_ok|apply Hf]).
  rewrite (bind_run _ _ _ _ _ (crc32_st_ok (set_tables s crc32_tables1) c1 (le_bytes 4 (v_inode dir ~> i_generation)) 4
    ltac:(by right) Hc1 (le_bytes_ok _ _) ltac:(rewrite le_bytes_len; lia) eq_refl)).
  change 4 with (Z.of_nat 4) at 1. rewrite le_bytes_all. set (c2 := crc32c_ref c1 _).
  assert (0 <= c2 < 2 ^ 32) as Hc2 by (apply crc32c_ref_range; [apply le_bytes_ok|done]).
  pose proof (zlen_nonneg rest). pose proof (zlen_nonneg (block_of l)).
  rewrite crc32_st_ok; [|by right|done|done|rewrite zlen_app; lia|by apply block_mod4].
  unfold zlen. rewrite Nat2Z.id, take_app_length. done.
Qed.

Lemma checksum_accepted (s : st) dir ib l : geometry (fs s) -> tables_ok (tables s) -> (forall x, 0 <= contents (dev s) x < 256) ->
  holds s dir ib l ->
  exists t, ext2_dir_block_checksum_valid dir (block_bytes (dev s) (blksize (fs s)) ib.2) s = Some (true, set_tables s t) /\ tables_ok t.
Proof.
  intros Hg Ht Hby (_ & _ & sum & Hdb & Hsg). unfold ext2_dir_block_checksum_valid. rewrite gets_run.
  assert (Hbb : bytes_ok (block_bytes (dev s) (blksize (fs s)) ib.2)).
  { unfold bytes_ok, block_bytes. apply Forall_map. apply Forall_true. intros x. apply Hby. }
  generalize dependent (block_bytes (dev s) (blksize (fs s)) ib.2). intros buf Hdb Hbb.
  destruct (ro_compat (super (fs s)) EXT4_FT_RO_COMPAT_METADATA_CSUM) eqn:Ec; cbn [negb].
  2: { exists (tables s). split; [by destruct s|done]. }
  destruct (tail_found _ _ _ _ Hdb Ec) as (Hf & _ & Hbuf). pose proof Hdb as [_ _ Hok [Hs4 Hsb] ].
  rewrite (lift_run _ _ _ s Hf). unfold ext2_dirent_checksum_valid. rewrite gets_run, (lift_run _ _ _ s Hf).
  rewrite Hbuf in Hbb |- *. rewrite (lift_run _ _ _ s (tail_sum _ _ _ Hs4 Hsb)).
  rewrite (bind_run _ _ _ _ _ (dirent_checksum_run s dir l _ Hg Ht Hok Hbb)). rewrite (Hsg eq_refl), Z.eqb_refl.
  exists crc32_tables1. split; [done|by right].
Qed.

Lemma find_name_app name l l' : find_name name (l ++ l') = match find_name name l with Some i => Some i | None => find_name name l' end.
Proof. unfold find_name. rewrite filter_app. by destruct (filter _ l) as [|e k]. Qed.

(** The device refused a read with [e]. *)
Definition read_failed (e : errno) : Prop := exists n off (d d' : D), dev_read n off d = (Err e, d').

Lemma bind_inv {T A B} (m : M T A) (k : A -> M T B) s b s' :
  (x ← m; k x) s = Some (b, s') -> exists a s1, m s = Some (a, s1) /\ k a s1 = Some (b, s').
Proof. unfold mbind, M_bind. destruct (m s) as [ [a s1]|]; [by eauto|done]. Qed.

(** A walk over a directory leaves the block numbers of its file alone. *)
Lemma dir_walk_keeps {P} dir flags (func : dir_iter (D := D) P) : keeps_numbers (ext2_process_dir_block dir flags func).
Proof.
  intros b n rb ro c s r b' c' s'. unfold ext2_process_dir_block. rewrite gets_run. cbv zeta.
  intros ( [e buf] & s1 & _ & Hk)%bind_inv. destruct (negb _ && _); [by injection Hk|].
  apply bind_inv in Hk as ( [ [e'|ab] sc] & s2 & _ & Hk); [by injection Hk|].
  destruct (s_changed sc); [|by injection Hk]. destruct (has flags DIRENT_FLAG_INLINE); [by injection Hk|].
  apply bind_inv in Hk as ( [w buf'] & s3 & _ & Hk). by injection Hk.
Qed.

Lemma block_of_length l : Forall entry_ok l -> 12 * Z.of_nat (length l) <= zlen (block_of l).
Proof.
  induction 1 as [|e l He _ IH]; [done|]. rewrite block_of_cons, zlen_app, zlen_enc. destruct (eo_len e He). cbn [length]. lia.
Qed.

Section walk.
Context (name : list Z) (name_ok : Forall (fun c => c <> 0) name) (dir : dnode).
Abbreviation process := (ext2_process_dir_block dir 0 (ext2_process_lookup name (zlen name))).

(** A context in which nothing was found and nothing went wrong. *)
Definition looking (c : dir_ctx (option Z)) : Prop := dc_err c = None /\ dc_priv c = None.
Definition looked (l : list entry) (c : dir_ctx (option Z)) : Prop :=
  dc_err c = None /\ dc_priv c = find_name name l \/ exists e, dc_err c = Some e /\ read_failed e.

Lemma read_dir_block_run (s : st) ib l buf : geometry (fs s) -> tables_ok (tables s) -> (forall x, 0 <= contents (dev s) x < 256) ->
  holds s dir ib l ->
  exists r buf' s', ext2_read_dir_block dir ib.2 buf s = Some (r, buf', s') /\ kept s s' /\
    match r with Ok _ => buf' = block_bytes (dev s) (blksize (fs s)) ib.2 | Err e => read_failed e end.
Proof.
  intros Hg Ht Hby Hh. pose proof Hh as (Hp & Hlim & _). pose proof (geo_block _ Hg) as [_ Hbs].
  unfold ext2_read_dir_block, ext2_read_blocks, mbind, M_bind.
  rewrite Z.mul_1_l, (wrap_small 64), (s64_small (ib.2 * blksize (fs s))) by nia.
  destruct (dev_read _ _ _) as [ [b|e] d] eqn:E.
  - assert (b = block_bytes (dev s) (blksize (fs s)) ib.2) as -> by (eapply dev_read_ok; [| |exact E]; nia).
    assert (Hun : unchanged s (set_dev s d)) by (split; [done|]; intros x; by eapply dev_read_frame).
    assert (Hbb : block_bytes d (blksize (fs s)) ib.2 = block_bytes (dev s) (blksize (fs s)) ib.2)
      by (unfold block_bytes; apply map_ext; apply Hun).
    destruct (checksum_accepted (set_dev s d) dir ib l) as (t & Hv & Htt); [done|done| |by eapply holds_kept|].
    { intros x. pose proof (proj2 Hun x) as Hx. cbn [dev set_dev] in Hx |- *. rewrite Hx. apply Hby. }
    cbn [dev set_dev fs] in Hv. rewrite Hbb in Hv. rewrite Hv. eexists _, _, _. split; [done|]. split; [|done]. split; [|done].
    eapply unchanged_trans; [exact Hun|done].
  - eexists _, _, _. split; [done|]. split; [split; [|done]; split; [done|]; intros x; by eapply dev_read_frame|].
    by do 4 eexists.
Qed.

Lemma process_block_run (s : st) ib l n rb ro c : geometry (fs s) -> small_blocks (fs s) -> tables_ok (tables s) ->
  (forall x, 0 <= contents (dev s) x < 256) -> holds s dir ib l -> looking c ->
  exists r c' s', process ib.2 n rb ro c s = Some (r, ib.2, c', s') /\ kept s s' /\ has r BLOCK_CHANGED = false /\
    looked l c' /\ (has r BLOCK_ABORT = false -> r = 0 /\ looking c' /\ find_name name l = None) /\
    (has r BLOCK_ABORT = true -> find_name name l <> None \/ exists e, dc_err c' = Some e /\ read_failed e).
Proof.
  intros Hg Hs Ht Hby Hh [Hc1 Hc2]. destruct (read_dir_block_run s ib l (dc_buffer c) Hg Ht Hby Hh) as (r & buf & s1 & Hr & Hk & Hcase).
  unfold ext2_process_dir_block. rewrite gets_run. cbv zeta. change (has 0 DIRENT_FLAG_INLINE) with false. cbn [negb andb].
  rewrite bind_assoc, (bind_run _ _ _ _ _ Hr), ret_run. cbn [fst snd]. destruct r as [u|e]; cbn [err_of].
  2: { rewrite bool_decide_eq_true_2 by done. eexists _, _, s1. split; [done|]. split; [done|]. split; [done|].
       split; [right; by eexists|]. split; [done|]. intros _. right. by eexists. }
  rewrite bool_decide_eq_false_2 by (intros Hn; by apply Hn). subst buf. destruct Hh as (_ & _ & sum & Hdb & _).
  destruct Hk as [ [Ef Ec] Ht1]. pose proof Hs as [Hs1 Hs2]. rewrite (wrap_small 32 (blksize (fs s))) by lia. rewrite <- Ef in *.
  destruct (lookup_scan name name_ok (Z.to_nat (blksize (fs s1))) l sum _ s1 Hs Hdb l [] 0
    (if truthy n then DIRENT_OTHER_FILE else DIRENT_DOT_FILE) eq_refl) as (sc & Hsc & E1 & E2 & E3 & E4).
  { destruct Hdb as [Hb Hl Hok _]. rewrite Hb, zlen_app in Hl. pose proof (zlen_nonneg (tail_bytes (fs s1) sum)).
    pose proof (block_of_length l Hok). lia. }
  change (zlen (block_of [])) with 0 in Hsc. rewrite Hc2. rewrite (bind_run _ _ _ _ _ Hsc). rewrite E1. eexists _, _, s1. split; [done|].
  split; [done|]. rewrite E2, E3, E4. cbn [dc_err dc_priv]. unfold looked, looking. cbn [dc_err dc_priv].
  destruct (find_name name l) as [i|]; [rewrite bool_decide_eq_true_2 by done|rewrite bool_decide_eq_false_2 by (intros Hn; by apply Hn)];
    (split; [done|]; split; [by left|]; split; [done|]); intros Hab; [by left|done].
Qed.
End walk.

(** The walk over the blocks of the directory. *)
Lemma visit_run name (name_ok : Forall (fun c => c <> 0) name) dir bl ls : forall (s : st) c,
  geometry (fs s) -> small_blocks (fs s) -> tables_ok (tables s) -> (forall x, 0 <= contents (dev s) x < 256) ->
  Forall2 (holds s dir) bl ls -> looking c ->
  exists ret c' s', visit (ext2_process_dir_block dir 0 (ext2_process_lookup name (zlen name))) bl 0 c s = Some (ret, c', s') /\
    kept s s' /\ has ret BLOCK_CHANGED = false /\ looked name (concat ls) c'.
Proof.
  revert ls. induction bl as [|[i b] bl IH]; intros ls s c Hg Hs Ht Hby Hall Hc.
  { apply Forall2_nil_inv_l in Hall as ->. exists 0, c, s. split; [done|]. split; [done|]. split; [done|]. left. by destruct Hc as [-> ->]. }
  apply Forall2_cons_inv_l in Hall as (l & ls' & Hh & Hall & ->). cbn [visit concat].
  destruct (process_block_run name name_ok dir s (i, b) l i 0 i c Hg Hs Ht Hby Hh Hc) as (r & c1 & s1 & Hr & Hk & Hch & Hl & Hgo & Hstop).
  cbn [snd] in Hr. rewrite (bind_run _ _ _ _ _ Hr), Z.lor_0_l. cbn beta iota. unfold looked. rewrite find_name_app.
  destruct (has r BLOCK_ABORT) eqn:Eab.
  - exists r, c1, s1. split; [done|]. split; [done|]. split; [done|]. destruct (Hstop eq_refl) as [Hf|He]; [|by right].
    destruct Hl as [ [E1 E2]|He]; [|by right]. left. split; [done|]. by destruct (find_name name l).
  - destruct (Hgo eq_refl) as (-> & Hlk & ->). destruct Hk as [ [Ef Ec] Ht1].
    destruct (IH ls' s1 c1) as (ret & c' & s' & Hv & Hk' & Hch' & Hl'); [by rewrite Ef|by rewrite Ef|done| | |done|].
    { intros x. rewrite Ec. apply Hby. }
    { eapply Forall2_impl; [exact Hall|]. intros ib k Hh'. by apply (holds_kept s). }
    exists ret, c', s'. split; [done|]. split; [|done]. by apply (kept_trans s s1 s').
Qed.

(** Without a buffer of the caller the walk allocates one. *)
Lemma iterate_allocates {P} fresh (func : Z -> Z -> Z -> Z -> P -> M st (Z * Z * P)) flags extent_walk ino inode p (s : st) o :
  mapped_inode inode -> has flags BLOCK_FLAG_NO_LARGE = false -> malloc (oracle s) = Some (true, o) ->
  ext2_block_iterate fresh func flags extent_walk ino inode None p s =
  ext2_block_iterate fresh func flags extent_walk ino inode (Some (fresh (blksize (fs s) * 3)).2) p (set_oracle s o).
Proof.
  intros (_ & _ & _ & Hd) Hn Ho. change (has (inode ~> i_flags) EXT4_INLINE_DATA_FL = false) in Hd.
  unfold ext2_block_iterate. rewrite Hd, Hn. cbn [andb]. rewrite !gets_run, ret_run, bind_assoc.
  erewrite bind_run by (unfold alloc; by rewrite Ho). by rewrite ret_run.
Qed.

Lemma succeeds_run o : all_succeed o -> exists o', malloc o = Some (true, o') /\ all_succeed o'.
Proof. intros Ho. destruct o as [|b o]; [by exists []|]. apply Forall_cons in Ho as [Hb Ho]. exists o. by destruct b. Qed.

(** C15: Looking up a name in a directory. The call returns, and changes neither the file
    system nor the device nor the directory. It gives the inode of the first entry in use
    with that name, over all blocks of the directory in order, or ENOENT when no entry has
    it; the only other outcome is the error with which the device refused a read. The
    directory has direct blocks only (a walk over an indirect block overruns its buffers,
    [indirect_block_overruns] of [Ext2Iter]), blocks of less than 64 KiB that hold entries
    and, on a file system with metadata checksums, their CRC-32C; memory can be had. *)
Theorem lookup_inode_correct fresh extent_walk (s : st) dir name l :
  geometry (fs s) -> small_blocks (fs s) -> tables_ok (tables s) -> (forall x, 0 <= contents (dev s) x < 256) ->
  all_succeed (oracle s) -> dir_mode dir = true -> direct_file (fs s) (v_inode dir) -> dir_entries s dir l ->
  Forall (fun c => c <> 0) name ->
  exists r s', ext2_lookup_inode fresh extent_walk dir name (zlen name) None s = Some (r, dir, s') /\ unchanged s s' /\
    (r = match find_name name l with Some ino => Ok ino | None => Err ENOENT end \/ exists e, r = Err e /\ read_failed e).
Proof.
  intros Hg Hs Ht Hby Ho Hm Hf (ls & Hls & ->) Hn. unfold ext2_lookup_inode, ext2_dir_iterate. rewrite Hm. cbn [negb].
  rewrite bind_assoc, gets_run, !bind_assoc. destruct (succeeds_run _ Ho) as (o1 & E1 & Ho1). destruct (succeeds_run _ Ho1) as (o2 & E2 & _).
  erewrite bind_run by (unfold alloc; by rewrite E1). rewrite ret_run. cbv zeta. rewrite !bind_assoc.
  set (b := (fresh (blksize (fs s))).2). set (s2 := set_oracle s o2).
  set (f := ext2_process_dir_block dir 0 (ext2_process_lookup name (zlen name))).
  destruct (visit_run name Hn dir (direct_blocks (v_inode dir)) ls s2 (mk_dctx None b 0 None)) as (ret & c & s' & Hv & [Hu _] & Hch & Hl);
    [done..|].
  assert (Hit : ext2_block_iterate fresh f BLOCK_FLAG_READ_ONLY (extent_walk _ f) (v_ino dir) (v_inode dir) None (mk_dctx None b 0 None)
    (set_oracle s o1) = Some (Ok tt, v_inode dir, c, s')).
  { erewrite iterate_allocates; [|apply Hf|done|exact E2]. change (set_oracle (set_oracle s o1) o2) with s2.
    rewrite block_iterate_direct; [|apply dir_walk_keeps|done|done|done]. fold f in Hv. by rewrite (bind_run _ _ _ _ _ Hv), Hch. }
  rewrite (bind_run _ _ _ _ _ Hit). rewrite ret_run.
  assert (Hd : set_inode dir (v_inode dir) = dir) by (by destruct dir). rewrite Hd.
  eexists _, s'. split; [done|]. split; [exact Hu|]. destruct Hl as [ [-> ->]|(e & -> & He)]; [by left|right; by exists e].
Qed.
End lookup_dir.

(** ** A directory of two blocks *)

Definition dot_entries : list entry :=
  [mk_entry 2 (Z.lor 1 (Z.shiftl 2 8)) [46; 0; 0; 0]; mk_entry 2 (Z.lor 2 (Z.shiftl 2 8)) (46 :: 46 :: replicate 990 0)].
Definition file_entries : list entry :=
  [mk_entry 0 1 [97; 0; 0; 0]; mk_entry 12 (Z.lor 1 (Z.shiftl 1 8)) [97; 0; 0; 0];
   mk_entry 13 (Z.lor 1 (Z.shiftl 1 8)) (98 :: replicate 979 0)].
Definition demo_dir : dnode :=
  mk_dnode 2 0x41ed (setf (setf (setf (replicate 128 0) i_mode 0x41ed) (i_block_at 0) 9) (i_block_at 1) 10).

Definition demo_sum (l : list entry) : list Z := le_bytes 4 (dir_csum (inode_fs 128) demo_dir l).
Definition demo_block (l : list entry) : list Z := block_of l ++ enc (tail_entry (demo_sum l)).
Definition dir_bytes : list Z := demo_block dot_entries ++ demo_block file_entries.
Definition dir_disk (x : Z) : Z := if x <? 9 * 1024 then 0 else default 0 (dir_bytes !! Z.to_nat (x - 9 * 1024)).

Lemma demo_entries_ok : Forall entry_ok (dot_entries ++ file_entries).
Proof.
  repeat (apply Forall_cons; split; [split; try (vm_compute; intuition discriminate); cbn [en_body];
    repeat first [apply bytes_replicate_0 | apply Forall_cons; split; [lia|] | apply Forall_nil; exact I]|]).
  constructor.
Qed.

Lemma demo_block_bytes l : Forall entry_ok l -> bytes_ok (demo_block l).
Proof.
  assert (Henc : forall e, bytes_ok (en_body e) -> bytes_ok (enc e)).
  { intros e He. unfold enc, hdr. repeat apply Forall_app_2; [apply le_bytes_ok..|exact He]. }
  intros Hl. apply Forall_app_2; [|apply Henc, le_bytes_ok].
  apply Forall_concat, Forall_map. eapply Forall_impl; [exact Hl|]. intros e He. apply Henc, He.
Qed.

Lemma dir_disk_bytes x : 0 <= dir_disk x < 256.
Proof.
  unfold dir_disk. destruct (_ <? _); [lia|]. destruct (_ !! _) as [y|] eqn:E; cbn; [|lia].
  pose proof demo_entries_ok as [Ha Hb]%Forall_app.
  assert (Hall : bytes_ok dir_bytes) by (apply Forall_app_2; by apply demo_block_bytes).
  exact (Forall_lookup_1 _ _ _ _ Hall E).
Qed.

Lemma demo_dir_entries : dir_entries (inode_state 128 dir_disk) demo_dir (dot_entries ++ file_entries).
Proof.
  pose proof demo_entries_ok as [Ha Hb]%Forall_app. exists [dot_entries; file_entries]. split; [|by rewrite <- (app_nil_r file_entries) at 1].
  change (direct_blocks (v_inode demo_dir)) with [(0, 9); (1, 10)].
  apply Forall2_cons; split; [|apply Forall2_cons; split; [|apply Forall2_nil_2] ]; (split; [reflexivity|]; split; [vm_compute; reflexivity|]);
    [exists (demo_sum dot_entries)|exists (demo_sum file_entries)]; (split; [|intros _; vm_compute; reflexivity]);
    (split; [vm_compute; reflexivity | vm_compute; reflexivity | done | split; [reflexivity | apply le_bytes_ok] ]).
Qed.

(** The name [a] of an entry that is no longer used is not found there but in the
    entry behind it. *)
Lemma lookup_inode_correct_witness :
  exists s', ext2_lookup_inode no_memory (fun _ _ _ w => mret w) demo_dir [97] 1 None (inode_state 128 dir_disk) =
      Some (Ok 12, demo_dir, s') /\ unchanged (inode_state 128 dir_disk) s' /\
    find_name [97] (dot_entries ++ file_entries) = Some 12.
Proof.
  destruct (lookup_inode_correct no_memory (fun _ _ _ w => mret w) (inode_state 128 dir_disk) demo_dir [97] (dot_entries ++ file_entries))
    as (r & s' & E & Hu & _).
  - exact inode_geometry.
  - split; [vm_compute; discriminate | reflexivity].
  - left. reflexivity.
  - exact dir_disk_bytes.
  - constructor.
  - reflexivity.
  - split.
    + split; [reflexivity|]. split; [|done]. repeat apply bytes_ok_setf. apply bytes_replicate_0.
    + intros n Hn. assert (n = 12 \/ n = 13 \/ n = 14) as [-> | [-> | ->] ] by lia; vm_compute; reflexivity.
    + vm_compute. reflexivity.
  - exact demo_dir_entries.
  - repeat constructor; discriminate.
  - assert (Ho : option_map fst (ext2_lookup_inode no_memory (fun _ _ _ w => mret w) demo_dir [97] 1 None (inode_state 128 dir_disk)) =
      Some (Ok 12, demo_dir)) by (vm_compute; reflexivity).
    change (zlen [97]) with 1 in E. rewrite E in Ho. injection Ho as ->. exists s'. split; [exact E|]. split; [exact Hu|].
    vm_compute. reflexivity.
Defined.
End Ext2Dir.
