(* ===== verification/Pid.v ===== *)
(** * Process identifiers (kernel/pid.c)

    Module [Pid]: the bitmap allocator of process IDs and the map from process
    IDs to processes, over any map that satisfies [HashMap.KernelMap]. Module
    [Cred]: the system calls on user and group IDs. *)

From S2P Require Import Prelude CBits Hash HashMap.

Module Pid.
Import CBits HashMap.

Abbreviation PID_BITMAP_INCREMENT := 1024.
Abbreviation PID_BITMAP_SIZE_LIMIT := 32768.

Section ops.
Context {T : Type} `{KernelMap T}.

(** What uninitialised heap memory holds. *)
Context (junk : Z).

(** The static variables of pid.c. *)
Record pid_state := mk_pid_state {
  pid_bitmap : list Z;
  next_pid : Z;
  pid_bitmap_size : Z;
  pid_bitmap_lock : bool;
  pid_hashmap : T
}.

Definition set_next_pid (st : pid_state) (n : Z) : pid_state :=
  mk_pid_state (pid_bitmap st) n (pid_bitmap_size st) (pid_bitmap_lock st) (pid_hashmap st).
Definition set_pid_bitmap (st : pid_state) (bm : list Z) : pid_state :=
  mk_pid_state bm (next_pid st) (pid_bitmap_size st) (pid_bitmap_lock st) (pid_hashmap st).
Definition set_pid_bitmap_size (st : pid_state) (n : Z) : pid_state :=
  mk_pid_state (pid_bitmap st) (next_pid st) n (pid_bitmap_lock st) (pid_hashmap st).
Definition set_lock (st : pid_state) (b : bool) : pid_state :=
  mk_pid_state (pid_bitmap st) (next_pid st) (pid_bitmap_size st) b (pid_hashmap st).
Definition set_pid_hashmap (st : pid_state) (h : T) : pid_state :=
  mk_pid_state (pid_bitmap st) (next_pid st) (pid_bitmap_size st) (pid_bitmap_lock st) h.

(** Acquiring a lock that is held never returns on one processor. *)
Definition spinlock_acquire (st : pid_state) : option pid_state :=
  if pid_bitmap_lock st then None else Some (set_lock st true).
Definition spinlock_release (st : pid_state) : pid_state := set_lock st false.

(** [memset (p + off, 0, n)] inside a block. *)
Definition memset0 (l : list Z) (off n : Z) : option (list Z) :=
  if (0 <=? off) && (off + n <=? zlen l)
  then Some (take (Z.to_nat off) l ++ replicate (Z.to_nat n) 0 ++ drop (Z.to_nat (off + n)) l)
  else None.

(** [realloc]: the common prefix is kept, the rest is uninitialised. *)
Definition realloc_bytes (l : list Z) (n : Z) : list Z :=
  take (Z.to_nat n) l ++ replicate (Z.to_nat n - length l) (u8 junk).

(** The inner loop: looks for a clear bit from [next]; the flag says whether
    one was found at the returned position. *)
Fixpoint scan_pid (fuel : nat) (bm : list Z) (next limit : Z) : option (bool * Z) :=
  if next <? limit then
    match fuel with
    | O => None
    | S fuel =>
        b ← test_bit bm next;
        if negb (truthy b) then Some (true, next) else scan_pid fuel bm (next + 1) limit
    end
  else Some (false, next).

(** The outer loop; each round adds [PID_BITMAP_INCREMENT] to the size. *)
Fixpoint alloc_pid_loop (fuel : nat) (st : pid_state) (o : mem) : option (res Z * pid_state * mem) :=
  if pid_bitmap_size st <? PID_BITMAP_SIZE_LIMIT then
    match fuel with
    | O => None
    | S fuel =>
        '(found, n) ← scan_pid (Z.to_nat (pid_bitmap_size st * 8 - next_pid st))
          (pid_bitmap st) (next_pid st) (pid_bitmap_size st * 8);
        if found : bool then
          let pid := s32 n in
          bm ← set_bit (pid_bitmap st) pid;
          Some (Ok pid, spinlock_release (set_pid_bitmap (set_next_pid st (u64 (n + 1))) bm), o)
        else
          let st := set_next_pid st n in
          let st := set_pid_bitmap_size st (pid_bitmap_size st + PID_BITMAP_INCREMENT) in
          '(ok, o) ← malloc o;
          if negb (ok : bool) then Some (Err ENOMEM, spinlock_release st, o) else
          bm ← memset0 (realloc_bytes (pid_bitmap st) (pid_bitmap_size st))
            (pid_bitmap_size st - PID_BITMAP_INCREMENT) PID_BITMAP_INCREMENT;
          alloc_pid_loop fuel (set_pid_bitmap st bm) o
    end
  else Some (Err ENOMEM, spinlock_release st, o).

(** At most 32 rounds separate an empty bitmap from the size limit. *)
Definition alloc_pid (st : pid_state) (o : mem) : option (res Z * pid_state * mem) :=
  st ← spinlock_acquire st;
  alloc_pid_loop 32 st o.

Definition free_pid (st : pid_state) (pid : Z) : option pid_state :=
  if pid <? 0 then Some st else
  st ← spinlock_acquire st;
  bm ← clear_bit (pid_bitmap st) pid;
  let st := set_pid_bitmap st bm in
  let st := if u64 pid <? next_pid st then set_next_pid st pid else st in
  Some (spinlock_release st).

(** [siphash (&pid, sizeof (pid_t), 0)] *)
Definition pid_key (pid : Z) : option Z := Hash.siphash (le_bytes 4 (u32 pid)) 4 0.

(** [None] also stands for the panic when the insertion fails. *)
Definition map_pid_process (st : pid_state) (pid process : Z) (o : mem) : option (pid_state * mem) :=
  key ← pid_key pid;
  '((r, h), o) ← km_insert (pid_hashmap st) key process o;
  if truthy r then None else Some (set_pid_hashmap st h, o).

Definition unmap_pid (st : pid_state) (pid : Z) : option pid_state :=
  key ← pid_key pid;
  '(_, h) ← km_remove (pid_hashmap st) key;
  Some (set_pid_hashmap st h).

Definition lookup_pid (st : pid_state) (pid : Z) : option Z :=
  key ← pid_key pid;
  km_lookup (pid_hashmap st) key.

(** [process0] is [process_queue.queue[0]]; [create] makes the empty map. *)
Definition init_pid_allocator (create : M mem (option T)) (process0 : Z) (o : mem) :
    option (pid_state * mem) :=
  '(ok, o) ← malloc o;
  if negb (ok : bool) then None else
  bm ← set_bit (replicate (Z.to_nat PID_BITMAP_INCREMENT) 0) 0;
  '(h, o) ← create o;
  h ← h;
  map_pid_process (mk_pid_state bm 1 PID_BITMAP_INCREMENT false h) 0 process0 o.

(** ** Process groups

    The process structures by address; [this] is [THIS_PROCESS]. *)
Record process := mk_process { p_pid : Z; p_ppid : Z; p_pgid : Z; p_sid : Z }.

Definition set_pgid (p : process) (pgid : Z) : process :=
  mk_process (p_pid p) (p_ppid p) pgid (p_sid p).

Definition sys_getpid (procs : gmap Z process) (this : Z) : option Z := p_pid <$> procs !! this.
Definition sys_getppid (procs : gmap Z process) (this : Z) : option Z := p_ppid <$> procs !! this.

Definition sys_getpgid (st : pid_state) (procs : gmap Z process) (this pid : Z) : option (res Z) :=
  p ← (if truthy pid then lookup_pid st pid else Some this);
  if p =? 0 then Some (Err ESRCH) else
  process ← procs !! p;
  Some (Ok (p_pgid process)).

Definition sys_setpgid (st : pid_state) (procs : gmap Z process) (this pid pgid : Z) :
    option (res Z * gmap Z process) :=
  if pgid <? 0 then Some (Err EINVAL, procs) else
  p ← (if truthy pid then lookup_pid st pid else Some this);
  if p =? 0 then Some (Err ESRCH, procs) else
  process ← procs !! p;
  let pgid := if truthy pgid then pgid else p_pid process in
  if p_sid process =? pid then Some (Err EPERM, procs) else
  l ← lookup_pid st pgid;
  if l =? 0 then Some (Err ESRCH, procs) else
  leader ← procs !! l;
  if negb (p_sid process =? p_sid leader) then Some (Err EPERM, procs) else
  Some (Ok 0, <[p := set_pgid process pgid]> procs).

Definition sys_getpgrp (procs : gmap Z process) (this : Z) : option Z := p_pgid <$> procs !! this.

Definition sys_setpgrp (st : pid_state) (procs : gmap Z process) (this : Z) :
    option (res Z * gmap Z process) := sys_setpgid st procs this 0 0.
End ops.
Arguments pid_state T : clear implicits.

(** ** Correctness of the allocator *)

Section alloc.
Context {T : Type} `{KernelMap T} (junk : Z).
Implicit Types (st : pid_state T) (bm : list Z) (o : mem).
#[local] Arguments replicate : simpl never.

(** Every bit below [next_pid] is set, so the search finds the least free ID. *)
Definition bitmap_ok (st : pid_state T) : Prop :=
  zlen (pid_bitmap st) = pid_bitmap_size st /\ bytes_ok (pid_bitmap st) /\
  pid_bitmap_size st mod 1024 = 0 /\ 1024 <= pid_bitmap_size st <= PID_BITMAP_SIZE_LIMIT /\
  0 <= next_pid st <= pid_bitmap_size st * 8 /\
  forall i, 0 <= i < next_pid st -> bit_at (pid_bitmap st) i = true.

Lemma bit_at_app_zeros bm n i : bit_at (bm ++ replicate n 0) i = bit_at bm i.
Proof.
  destruct (Z.ltb_spec i (8 * zlen bm)); [by apply bit_at_app_l|].
  unfold bit_at, zlookup. destruct (_ <? 0); [done|]. rewrite shr3.
  assert (zlen bm <= i / 8) by (apply Z.div_le_lower_bound; lia). unfold zlen in *.
  rewrite lookup_app_r, (lookup_ge_None_2 bm) by lia.
  destruct (replicate n 0 !! _) eqn:E; [|done]. apply lookup_replicate in E as [-> _].
  apply Z.testbit_0_l.
Qed.

Lemma scan_pid_spec fuel bm next limit :
  0 <= next <= limit -> limit <= 8 * zlen bm -> limit - next <= Z.of_nat fuel ->
  exists found n, scan_pid fuel bm next limit = Some (found, n) /\ next <= n <= limit /\
    (forall j, next <= j < n -> bit_at bm j = true) /\
    (if found : bool then n < limit /\ bit_at bm n = false else n = limit).
Proof.
  revert next. induction fuel as [|fuel IH]; intros next Hn Hl Hf; simpl.
  - destruct (Z.ltb_spec next limit); [lia|]. exists false, next. split_and!; auto; lia.
  - destruct (Z.ltb_spec next limit); [|exists false, next; split_and!; auto; lia].
    destruct (test_bit_spec bm next) as (r & -> & Hr); [lia|]. orun. rewrite Hr.
    destruct (bit_at bm next) eqn:Hb; simpl.
    + destruct (IH (next + 1)) as (found & n & -> & Hn' & Hset & Hfin); [lia..|].
      exists found, n. split_and!; auto; [lia..|]. intros j Hj.
      destruct (Z.eq_dec j next) as [->|]; [done|]. apply Hset. lia.
    + exists true, next. split_and!; auto; lia.
Qed.

(** Growing the bitmap keeps its set of bits. *)
Lemma grow_bitmap bm size :
  zlen bm = size -> 0 <= size ->
  memset0 (realloc_bytes junk bm (size + 1024)) (size + 1024 - 1024) 1024 =
  Some (bm ++ replicate 1024 0).
Proof.
  intros Hl Hs. unfold memset0, realloc_bytes, zlen in *.
  rewrite take_ge by lia.
  replace (Z.to_nat (size + 1024) - length bm)%nat with 1024%nat by lia.
  rewrite length_app, length_replicate.
  destruct (Z.leb_spec 0 (size + 1024 - 1024)); [|lia].
  destruct (Z.leb_spec (size + 1024 - 1024 + 1024) (Z.of_nat (length bm + 1024))); [|lia].
  cbv [andb]. f_equal. rewrite take_app_length' by lia. f_equal.
  rewrite drop_ge; [apply app_nil_r|]. rewrite length_app, length_replicate. lia.
Qed.

Lemma alloc_pid_loop_spec fuel st o :
  bitmap_ok st -> all_succeed o ->
  PID_BITMAP_SIZE_LIMIT - pid_bitmap_size st <= 1024 * Z.of_nat fuel ->
  exists r st' o', alloc_pid_loop junk fuel st o = Some (r, st', o') /\
    bitmap_ok st' /\ all_succeed o' /\ pid_hashmap st' = pid_hashmap st /\
    pid_bitmap_lock st' = false /\
    match r with
    | Ok pid =>
        0 <= pid /\ bit_at (pid_bitmap st) pid = false /\
        (forall j, 0 <= j < pid -> bit_at (pid_bitmap st) j = true) /\
        forall j, bit_at (pid_bitmap st') j = (j =? pid) || bit_at (pid_bitmap st) j
    | Err e =>
        e = ENOMEM /\ (forall j, bit_at (pid_bitmap st') j = bit_at (pid_bitmap st) j) /\
        pid_bitmap_size st' = PID_BITMAP_SIZE_LIMIT /\
        (pid_bitmap_size st < PID_BITMAP_SIZE_LIMIT ->
         forall j, 0 <= j < 8 * (PID_BITMAP_SIZE_LIMIT - 1024) -> bit_at (pid_bitmap st) j = true)
    end.
Proof.
  revert st o. induction fuel as [|fuel IH]; intros st o Hok Ho Hf;
    pose proof Hok as (Hlen & Hby & Hmod & Hsz & Hnx & Hset); cbn [alloc_pid_loop].
  - destruct (Z.ltb_spec (pid_bitmap_size st) PID_BITMAP_SIZE_LIMIT); [lia|].
    exists (Err ENOMEM), (spinlock_release st), o. split_and!; auto; simpl; lia.
  - destruct (Z.ltb_spec (pid_bitmap_size st) PID_BITMAP_SIZE_LIMIT) as [Hlt|];
      [|exists (Err ENOMEM), (spinlock_release st), o; split_and!; auto; simpl; lia].
    destruct (scan_pid_spec (Z.to_nat (pid_bitmap_size st * 8 - next_pid st)) (pid_bitmap st)
      (next_pid st) (pid_bitmap_size st * 8)) as (found & n & -> & Hn & Hbs & Hfin); [lia..|].
    assert (Hall : forall j, 0 <= j < n -> bit_at (pid_bitmap st) j = true).
    { intros j Hj. destruct (Z.ltb_spec j (next_pid st)); [apply Hset|apply Hbs]; lia. }
    orun. destruct found.
    + destruct Hfin as [Hnl Hclr].
      assert (s32 n = n) as ->.
      { unfold swrap. rewrite Z.mod_small by lia. destruct (Z.ltb_spec n (2 ^ (32 - 1))); lia. }
      destruct (set_bit_spec (pid_bitmap st) n) as (bm & -> & Hl' & Hb' & Hbits); [lia|done|]. orun.
      eexists (Ok n), _, o. split; [reflexivity|]. rewrite wrap_small by lia.
      split_and!; simpl; auto; try lia; [|by rewrite Hl'..]. 
      split_and!; simpl; auto; try lia. intros i Hi. rewrite Hbits.
      destruct (Z.eqb_spec i n); [done|]. apply Hall. lia.
    + subst n. destruct (malloc_succeeds 0 o) as (o1 & -> & _ & Hm); [by apply Forall_take|].
      orun. cbn [negb pid_bitmap set_next_pid set_pid_bitmap_size pid_bitmap_size].
      rewrite grow_bitmap by lia. orun.
      set (st1 := set_pid_bitmap _ _).
      assert (bitmap_ok st1) as Hok1.
      { split_and!; simpl; [|apply Forall_app; split; [done|apply bytes_ok_zeros]|divlia..|].
        - rewrite zlen_app, zlen_replicate. lia.
        - intros i Hi. rewrite bit_at_app_zeros. by apply Hall. }
      destruct (IH st1 o1 Hok1 (Hm Ho)) as (r & st' & o' & -> & Hok' & Ho' & Hh & Hlk & Hr);
        [simpl; lia|].
      exists r, st', o'. split_and!; auto. destruct r as [pid|e].
      * destruct Hr as (H1 & H2 & H3 & H4). simpl in *. split_and!; auto.
        -- by rewrite bit_at_app_zeros in H2.
        -- intros j Hj. specialize (H3 j Hj). by rewrite bit_at_app_zeros in H3.
        -- intros j. by rewrite H4, bit_at_app_zeros.
      * destruct Hr as (H1 & H2 & H3 & H4). simpl in *. split_and!; auto.
        -- intros j. by rewrite H2, bit_at_app_zeros.
        -- intros _ j Hj. destruct (Z.ltb_spec j (pid_bitmap_size st * 8)); [apply Hall; lia|].
           rewrite <- (bit_at_app_zeros _ 1024). apply H4; lia.
Qed.

Lemma alloc_pid_spec st o :
  bitmap_ok st -> pid_bitmap_lock st = false -> all_succeed o ->
  exists r st' o', alloc_pid junk st o = Some (r, st', o') /\
    bitmap_ok st' /\ all_succeed o' /\ pid_hashmap st' = pid_hashmap st /\
    pid_bitmap_lock st' = false /\
    match r with
    | Ok pid =>
        0 <= pid /\ bit_at (pid_bitmap st) pid = false /\
        (forall j, 0 <= j < pid -> bit_at (pid_bitmap st) j = true) /\
        forall j, bit_at (pid_bitmap st') j = (j =? pid) || bit_at (pid_bitmap st) j
    | Err e =>
        e = ENOMEM /\ (forall j, bit_at (pid_bitmap st') j = bit_at (pid_bitmap st) j) /\
        pid_bitmap_size st' = PID_BITMAP_SIZE_LIMIT /\
        (pid_bitmap_size st < PID_BITMAP_SIZE_LIMIT ->
         forall j, 0 <= j < 8 * (PID_BITMAP_SIZE_LIMIT - 1024) -> bit_at (pid_bitmap st) j = true)
    end.
Proof.
  intros Hok Hl Ho. unfold alloc_pid, spinlock_acquire. rewrite Hl. orun.
  apply (alloc_pid_loop_spec 32 (set_lock st true) o Hok Ho).
  destruct Hok as (_ & _ & _ & Hs & _). simpl. lia.
Qed.

Lemma free_pid_spec st pid :
  bitmap_ok st -> pid_bitmap_lock st = false -> 0 <= pid < 8 * pid_bitmap_size st ->
  exists st', free_pid st pid = Some st' /\ bitmap_ok st' /\ pid_bitmap_lock st' = false /\
    pid_hashmap st' = pid_hashmap st /\
    forall j, bit_at (pid_bitmap st') j = negb (j =? pid) && bit_at (pid_bitmap st) j.
Proof.
  intros (Hlen & Hby & Hmod & Hsz & Hnx & Hset) Hl Hp. unfold free_pid, spinlock_acquire.
  destruct (Z.ltb_spec pid 0); [lia|]. rewrite Hl. orun. simpl pid_bitmap.
  destruct (clear_bit_spec (pid_bitmap st) pid) as (bm & -> & Hl' & Hb' & Hbits); [lia|done|]. orun.
  eexists. split; [reflexivity|]. rewrite wrap_small by lia. simpl next_pid.
  destruct (Z.ltb_spec pid (next_pid st)); split_and!; simpl; auto; split_and!; simpl; auto; try lia.
  - intros i Hi. rewrite Hbits. destruct (Z.eqb_spec i pid); [lia|]. apply Hset. lia.
  - intros i Hi. rewrite Hbits. destruct (Z.eqb_spec i pid); [lia|]. apply Hset. lia.
Qed.

(** *** Histories of the allocator

    The state and the set of IDs that are handed out and not yet freed. *)
Inductive pid_step : pid_state T * gset Z -> pid_state T * gset Z -> Prop :=
| ps_alloc st L o pid st' o' :
    all_succeed o -> alloc_pid junk st o = Some (Ok pid, st', o') ->
    pid_step (st, L) (st', {[pid]} ∪ L)
| ps_alloc_fail st L o e st' o' :
    all_succeed o -> alloc_pid junk st o = Some (Err e, st', o') ->
    pid_step (st, L) (st', L)
| ps_free st L pid st' :
    pid ∈ L -> free_pid st pid = Some st' ->
    pid_step (st, L) (st', L ∖ {[pid]}).

(** The bitmap is the set of live IDs and the reserved ID 0. *)
Definition pid_inv (x : pid_state T * gset Z) : Prop :=
  bitmap_ok x.1 /\ pid_bitmap_lock x.1 = false /\ 0 ∉ x.2 /\
  forall i, bit_at (pid_bitmap x.1) i = true <-> i = 0 \/ i ∈ x.2.

Lemma pid_inv_step x y : pid_step x y -> pid_inv x -> pid_inv y.
Proof.
  intros Hs (Hok & Hl & H0 & Hb).
  destruct Hs as [st L o pid st' o' Ho Ha|st L o e st' o' Ho Ha|st L pid st' Hin Hf]; simpl in *.
  - destruct (alloc_pid_spec st o Hok Hl Ho) as (r & st2 & o2 & Ha' & Hok' & _ & _ & Hl' & Hr).
    rewrite Ha in Ha'. simplify_eq. destruct Hr as (Hp & Hclr & _ & Hbits).
    assert (pid <> 0) by (intros ->; rewrite (proj2 (Hb 0)) in Hclr by auto; done).
    split_and!; simpl; auto; [set_solver|]. intros i. rewrite Hbits, orb_true_iff, Hb, Z.eqb_eq. set_solver.
  - destruct (alloc_pid_spec st o Hok Hl Ho) as (r & st2 & o2 & Ha' & Hok' & _ & _ & Hl' & Hr).
    rewrite Ha in Ha'. simplify_eq. destruct Hr as (_ & Hbits & _).
    split_and!; simpl; auto. intros i. by rewrite Hbits.
  - assert (bit_at (pid_bitmap st) pid = true) as Hpb by (apply Hb; auto).
    pose proof (bit_at_range _ _ Hpb) as Hr. pose proof Hok as (Hlen & _).
    destruct (free_pid_spec st pid Hok Hl) as (st2 & Hf' & Hok' & Hl' & _ & Hbits); [lia|].
    rewrite Hf in Hf'. simplify_eq. split_and!; simpl; auto; [set_solver|].
    intros i. rewrite Hbits, andb_true_iff, negb_true_iff, Z.eqb_neq, Hb.
    assert (pid <> 0) by (intros ->; done). set_solver.
Qed.

(** [alloc_pid] returns the least ID whose bit is clear, marks exactly it,
    growing the bitmap as needed, or reports ENOMEM with the set of IDs
    unchanged; it terminates and never touches memory outside of the bitmap. *)
Theorem alloc_pid_least st o :
  bitmap_ok st -> pid_bitmap_lock st = false -> all_succeed o ->
  exists r st' o', alloc_pid junk st o = Some (r, st', o') /\
    bitmap_ok st' /\ pid_bitmap_lock st' = false /\
    match r with
    | Ok pid =>
        0 <= pid /\ bit_at (pid_bitmap st) pid = false /\
        (forall j, 0 <= j < pid -> bit_at (pid_bitmap st) j = true) /\
        forall j, bit_at (pid_bitmap st') j = (j =? pid) || bit_at (pid_bitmap st) j
    | Err e =>
        e = ENOMEM /\ forall j, bit_at (pid_bitmap st') j = bit_at (pid_bitmap st) j
    end.
Proof.
  intros Hok Hl Ho.
  destruct (alloc_pid_spec st o Hok Hl Ho) as (r & st' & o' & Ha & Hok' & _ & _ & Hl' & Hr).
  exists r, st', o'. split_and!; auto. destruct r; naive_solver.
Qed.

(** C19: as long as the memory for the bitmap can be had, in every history of
    allocations and releases that starts with only ID 0 reserved, an allocation
    terminates and returns the least positive ID that is not in use, or ENOMEM
    once the bitmap has reached its limit; a release of a live ID ends as well.
    So no two live processes share an ID.  (After a failed growth of the bitmap
    this is no longer so, lemma [failed_growth_overruns] below.) *)
Theorem pids_unique st0 st L o :
  bitmap_ok st0 -> pid_bitmap_lock st0 = false ->
  (forall i, bit_at (pid_bitmap st0) i = (i =? 0)) ->
  rtc pid_step (st0, ∅) (st, L) -> all_succeed o ->
  (exists r st' o', alloc_pid junk st o = Some (r, st', o') /\
    match r with
    | Ok pid => 0 < pid /\ pid ∉ L /\ forall j, 0 < j < pid -> j ∈ L
    | Err e => e = ENOMEM /\ pid_bitmap_size st' = PID_BITMAP_SIZE_LIMIT
    end) /\
  forall pid, pid ∈ L -> exists st', free_pid st pid = Some st'.
Proof.
  intros Hok Hl H0 Hrtc Ho.
  assert (pid_inv (st, L)) as (Hok' & Hl' & H0' & Hb).
  { refine (rtc_invariant _ _ pid_inv_step _ _ Hrtc _). split_and!; simpl; auto; [set_solver|].
    intros i. rewrite H0, Z.eqb_eq. set_solver. }
  simpl in *. split.
  - destruct (alloc_pid_spec st o Hok' Hl' Ho) as (r & st' & o' & Ha & _ & _ & _ & _ & Hr).
    exists r, st', o'. split; [done|]. destruct r as [pid|e]; [|naive_solver].
    destruct Hr as (Hp & Hclr & Hlow & _).
    assert (~ (pid = 0 \/ pid ∈ L)) as Hn by (rewrite <- Hb, Hclr; done).
    split_and!; [lia|set_solver|]. intros j Hj.
    destruct (proj1 (Hb j) (Hlow j ltac:(lia))); [lia|done].
  - intros pid Hin. assert (bit_at (pid_bitmap st) pid = true) as Hpb by (apply Hb; auto).
    pose proof (bit_at_range _ _ Hpb). pose proof Hok' as (Hlen & _).
    destruct (free_pid_spec st pid Hok' Hl') as (st' & Hf & _); [lia|eauto].
Qed.
End alloc.

(** *** The state that [init_pid_allocator] builds *)

Definition boot_state : pid_state hashmap :=
  mk_pid_state (1 :: replicate 1023 0) 1 1024 false (mk_hmap (calloc_ptrs 16) 16 0).

Lemma boot_bits i : bit_at (1 :: replicate 1023 0) i = (i =? 0).
Proof.
  destruct (set_bit_spec (replicate 1024 0) 0) as (bm & Hs & _ & _ & Hb);
    [vm_compute; split; [discriminate|done]|apply bytes_ok_zeros|].
  assert (bm = 1 :: replicate 1023 0) as <- by (vm_compute in Hs; by injection Hs as <-).
  rewrite Hb, bit_at_zeros. by rewrite orb_false_r.
Qed.

Lemma boot_ok : bitmap_ok boot_state.
Proof.
  split_and!; simpl; try done.
  - constructor; [lia|]. apply (bytes_ok_zeros 1023).
  - intros i Hi. rewrite boot_bits. apply Z.eqb_eq. lia.
Qed.

Lemma alloc_pid_least_witness :
  exists r st' o', alloc_pid 170 boot_state [] = Some (r, st', o') /\ bitmap_ok st'.
Proof.
  destruct (alloc_pid_least 170 boot_state []) as (r & st' & o' & H1 & H2 & _).
  - exact boot_ok.
  - reflexivity.
  - constructor.
  - exists r, st', o'. split; [exact H1 | exact H2].
Defined.

(** Three IDs are handed out and the second one is given back. *)
Definition some_history : option (pid_state hashmap) :=
  '(_, st, _) ← alloc_pid 170 boot_state [];
  '(_, st, _) ← alloc_pid 170 st [];
  '(_, st, _) ← alloc_pid 170 st [];
  free_pid st 2.

Lemma pids_unique_witness :
  exists st, some_history = Some st /\
  (exists r st' o', alloc_pid 170 st [] = Some (r, st', o') /\
    match r with
    | Ok pid => 0 < pid /\ pid ∉ (({[3]} ∪ ({[2]} ∪ ({[1]} ∪ ∅))) ∖ {[2]} : gset Z) /\
        forall j, 0 < j < pid -> j ∈ (({[3]} ∪ ({[2]} ∪ ({[1]} ∪ ∅))) ∖ {[2]} : gset Z)
    | Err e => e = ENOMEM /\ pid_bitmap_size st' = PID_BITMAP_SIZE_LIMIT
    end).
Proof.
  eexists. split; [vm_compute; reflexivity|].
  match goal with
  | |- exists r st' o', alloc_pid _ ?st _ = _ /\ _ =>
      refine (proj1 (pids_unique 170 boot_state st (({[3]} ∪ ({[2]} ∪ ({[1]} ∪ ∅))) ∖ {[2]}) [] boot_ok
        eq_refl boot_bits _ (Forall_nil_2 _)))
  end.
  do 3 (eapply rtc_l; [eapply ps_alloc with (o := []); [constructor|vm_compute; reflexivity]|]).
  apply rtc_once, ps_free; [set_solver|vm_compute; reflexivity].
Defined.

(** ** The process table *)

Lemma pid_key_ok pid : exists key, pid_key pid = Some key /\ 0 <= key < 2 ^ 64.
Proof.
  unfold pid_key. rewrite Hash.siphash_padded.
  - eexists. split; [done|]. apply Hash.siphash_ref_range; [|lia]. apply Forall_take, le_bytes_ok.
  - apply le_bytes_ok.
  - rewrite le_bytes_len. lia.
Qed.

Section table.
Context {T : Type} `{KernelMap T}.
Implicit Types (st : pid_state T) (pm : gmap Z Z) (o : mem).

(** The IDs in use: the table is keyed by their hashes, which must differ. *)
Context (P : Z -> Prop) (P_distinct : forall p q, P p -> P q -> pid_key p = pid_key q -> p = q).

Definition table_rep (st : pid_state T) (pm : gmap Z Z) : Prop :=
  exists g, km_rep (pid_hashmap st) g /\
    forall q key, P q -> pid_key q = Some key -> pm !! q = g !! key.

Lemma table_lookup st pm i : table_rep st pm -> P i -> lookup_pid st i = Some (default 0 (pm !! i)).
Proof.
  intros (g & Hg & Hpm) HP. destruct (pid_key_ok i) as (key & Hk & Hr). unfold lookup_pid. rewrite Hk. orun.
  rewrite (km_lookup_law _ g) by done. by rewrite (Hpm i key).
Qed.

Lemma table_unmap st pm i :
  table_rep st pm -> P i -> exists st', unmap_pid st i = Some st' /\ table_rep st' (base.delete i pm).
Proof.
  intros (g & Hg & Hpm) HP. destruct (pid_key_ok i) as (key & Hk & Hr). unfold unmap_pid. rewrite Hk. orun.
  destruct (km_remove_law _ g key Hg) as (t' & -> & Hg'). orun.
  eexists. split; [reflexivity|]. exists (base.delete key g). split; [done|].
  intros q key' HPq Hk'. destruct (decide (q = i)) as [->|Hne].
  - assert (key' = key) as -> by congruence. by rewrite !lookup_delete_eq.
  - rewrite !lookup_delete_ne; [by apply Hpm| |done].
    intros ->. apply Hne, P_distinct; auto. congruence.
Qed.

Lemma table_map st pm i process o :
  table_rep st pm -> P i -> km_safe (pid_hashmap st) o -> all_succeed o ->
  exists st' o', map_pid_process st i process o = Some (st', o') /\ table_rep st' (<[i := process]> pm).
Proof.
  intros (g & Hg & Hpm) HP Hs Ho. destruct (pid_key_ok i) as (key & Hk & Hr).
  unfold map_pid_process. rewrite Hk. orun.
  destruct (km_insert_law _ g key process o Hg Hr Hs) as (r & t' & o' & -> & Hcase & Hz).
  rewrite (Hz Ho) in *. orun. eexists _, o'. split; [reflexivity|].
  destruct Hcase as [[_ Hg']|[? _]]; [|lia]. exists (<[key := process]> g). split; [done|].
  intros q key' HPq Hk'. destruct (decide (q = i)) as [->|Hne].
  - assert (key' = key) as -> by congruence. by rewrite !lookup_insert_eq.
  - rewrite !lookup_insert_ne; [by apply Hpm| |done].
    intros ->. apply Hne, P_distinct; auto. congruence.
Qed.

(** The process table maps IDs to processes: a process entered under an ID
    is found under it, and removal takes away exactly that ID, when the hashes
    of the IDs in use differ. *)
Theorem process_table_correct st pm pid process o :
  table_rep st pm -> P pid -> km_safe (pid_hashmap st) o -> all_succeed o ->
  lookup_pid st pid = Some (default 0 (pm !! pid)) /\
  (exists st' o', map_pid_process st pid process o = Some (st', o') /\
     table_rep st' (<[pid := process]> pm)) /\
  (exists st', unmap_pid st pid = Some st' /\ table_rep st' (base.delete pid pm)).
Proof.
  intros Hrep HP Hs Ho. split_and!; [by apply table_lookup|by apply table_map|by apply table_unmap].
Qed.
End table.

Lemma process_table_correct_witness :
  exists st' o', map_pid_process boot_state 1 4096 [] = Some (st', o') /\
    table_rep (fun p => p = 1 \/ p = 2) st' (<[1 := 4096]> ∅).
Proof.
  destruct (process_table_correct (fun p => p = 1 \/ p = 2)) with
    (st := boot_state) (pm := ∅ : gmap Z Z) (pid := 1) (process := 4096) (o := @nil bool) as (_ & H & _).
  - intros p q [-> | ->] [-> | ->] E; try reflexivity; vm_compute in E; discriminate.
  - exists ∅. split; [split; [exact empty_hashmap_ok | reflexivity] | intros; reflexivity].
  - left. reflexivity.
  - split; [reflexivity | intros E; vm_compute in E; discriminate].
  - constructor.
  - exact H.
Defined.

(** ** Process groups and sessions *)

Section groups.
Context {T : Type} `{KernelMap T}.
Implicit Types (st : pid_state T) (procs : gmap Z process).

(** The leader of every process's group exists and is in the process's session. *)
Definition groups_ok st procs : Prop :=
  forall p proc, procs !! p = Some proc ->
    exists l leader, lookup_pid st (p_pgid proc) = Some l /\ l <> 0 /\
      procs !! l = Some leader /\ p_sid leader = p_sid proc.

(** The only way a call changes the processes. *)
Lemma setpgid_inv st procs this pid pgid r procs' :
  sys_setpgid st procs this pid pgid = Some (r, procs') ->
  ((exists e, r = Err e) /\ procs' = procs) \/
  exists tgt proc l leader g,
    r = Ok 0 /\ procs !! tgt = Some proc /\ lookup_pid st g = Some l /\ l <> 0 /\
    procs !! l = Some leader /\ p_sid leader = p_sid proc /\ p_sid proc <> pid /\
    procs' = <[tgt := set_pgid proc g]> procs.
Proof.
  unfold sys_setpgid. intros Hrun.
  destruct (pgid <? 0); [simplify_eq; eauto|].
  destruct (if truthy pid then _ else _) as [tgt|]; [|done]. simpl in Hrun.
  destruct (tgt =? 0); [simplify_eq; eauto|].
  destruct (procs !! tgt) as [proc|] eqn:Ht; [|done]. simpl in Hrun.
  destruct (Z.eqb_spec (p_sid proc) pid); [simplify_eq; eauto|].
  destruct (lookup_pid st _) as [l|] eqn:El in Hrun; [|done]. simpl in Hrun.
  destruct (Z.eqb_spec l 0); [simplify_eq; eauto|].
  destruct (procs !! l) as [leader|] eqn:Hl; [|done]. simpl in Hrun.
  destruct (Z.eqb_spec (p_sid proc) (p_sid leader)); simpl in Hrun; simplify_eq; [|eauto].
  right. eauto 15.
Qed.

(** Changing process groups keeps every process group inside one session:
    the group's leader exists and two members of a group are in the same
    session; a call that fails changes nothing. *)
Theorem setpgid_keeps_sessions st procs this pid pgid r procs' :
  groups_ok st procs -> sys_setpgid st procs this pid pgid = Some (r, procs') ->
  groups_ok st procs' /\
  (forall p q proc1 proc2, procs' !! p = Some proc1 -> procs' !! q = Some proc2 ->
     p_pgid proc1 = p_pgid proc2 -> p_sid proc1 = p_sid proc2) /\
  (forall e, r = Err e -> procs' = procs).
Proof.
  intros Hok Hrun.
  assert (groups_ok st procs') as Hok'.
  { destruct (setpgid_inv _ _ _ _ _ _ _ Hrun) as
      [[_ ->]|(tgt & proc & l & leader & g & -> & Ht & El & Hl0 & Hl & Hsid & _ & ->)]; [done|].
    (* whoever leads a group still does, in the same session *)
    assert (forall m x, procs !! m = Some x ->
      exists x', <[tgt := set_pgid proc g]> procs !! m = Some x' /\ p_sid x' = p_sid x) as Hkeep.
    { intros m x Hm. destruct (decide (m = tgt)) as [->|Hne].
      - rewrite lookup_insert_eq. eexists. split; [done|]. simplify_eq. done.
      - rewrite lookup_insert_ne by done. eauto. }
    intros q pr [[<- <-]|[Hne Hq]]%lookup_insert_Some.
    - destruct (Hkeep l leader Hl) as (x & Hx & Hs). exists l, x. simpl. split_and!; auto. congruence.
    - destruct (Hok q pr Hq) as (m & x & Hm & Hm0 & Hx & Hs).
      destruct (Hkeep m x Hx) as (x' & Hx' & Hs'). exists m, x'. split_and!; auto. congruence. }
  split_and!; auto.
  - intros p q p1 p2 H1 H2 E. destruct (Hok' p p1 H1) as (m1 & l1 & E1 & _ & L1 & S1).
    destruct (Hok' q p2 H2) as (m2 & l2 & E2 & _ & L2 & S2). rewrite E in E1.
    simplify_eq. congruence.
  - intros e ->. by destruct (setpgid_inv _ _ _ _ _ _ _ Hrun) as
      [[_ ->]|(? & ? & ? & ? & ? & ? & _)].
Qed.
End groups.

(** A session with leader 5 (a process at address 50) and process 7 (at 70). *)
Definition demo_state : option (pid_state hashmap) :=
  '(st, o) ← map_pid_process boot_state 5 50 [];
  '(st, o) ← map_pid_process st 7 70 o;
  Some st.

Definition demo_procs : gmap Z process :=
  <[50 := mk_process 5 1 5 5]> (<[70 := mk_process 7 5 7 5]> ∅).

Lemma setpgid_keeps_sessions_witness :
  exists st r procs', demo_state = Some st /\ sys_setpgid st demo_procs 70 0 5 = Some (r, procs') /\
    groups_ok st procs'.
Proof.
  destruct demo_state as [st|] eqn:E; [|vm_compute in E; discriminate].
  assert (Hl : lookup_pid st 5 = Some 50 /\ lookup_pid st 7 = Some 70).
  { vm_compute in E. injection E as <-. split; vm_compute; reflexivity. }
  destruct Hl as [H5 H7].
  assert (Hok : groups_ok st demo_procs).
  { intros p proc. unfold demo_procs. intros [[<- <-]|[_ [[<- <-]|[_ Hp]]%lookup_insert_Some]]%lookup_insert_Some.
    - exists 50, (mk_process 5 1 5 5). auto.
    - exists 70, (mk_process 7 5 7 5). auto.
    - rewrite lookup_empty in Hp. discriminate. }
  assert (Hrun : sys_setpgid st demo_procs 70 0 5 =
    Some (Ok 0, <[70 := mk_process 7 5 5 5]> demo_procs)).
  { unfold sys_setpgid. simpl. rewrite H5. reflexivity. }
  eexists st, _, _. split; [reflexivity|]. split; [exact Hrun|].
  exact (proj1 (setpgid_keeps_sessions st demo_procs 70 0 5 _ _ Hok Hrun)).
Defined.

(** *** Defects the model exhibits *)

(** The check that protects a session leader compares its session with the
    argument [pid], which is 0 when the process names itself. *)
Lemma session_leader_changes_group :
  (st ← demo_state;
   '(r, procs) ← sys_setpgid st demo_procs 50 0 7;
   p ← procs !! 50;
   Some (r, p_pid p, p_sid p, p_pgid p)) = Some (Ok 0, 5, 5, 7).
Proof. vm_compute. reflexivity. Qed.

(** After a failed growth the size is that of the larger bitmap, and the next
    allocation reads past the end of the old one. *)
Lemma failed_growth_overruns :
  let st := mk_pid_state (replicate 1024 255) 8192 1024 false (pid_hashmap boot_state) in
  ('(r, st', o) ← alloc_pid 0 st [false];
   Some (r, pid_bitmap_size st', zlen (pid_bitmap st'), fst <$> alloc_pid 0 st' o)) =
  Some (Err ENOMEM, 2048, 1024, None).
Proof. vm_compute. reflexivity. Qed.

(** Once the bitmap has grown to its limit no ID is handed out again, whatever
    is freed. *)
Lemma limit_is_final {T} `{KernelMap T} junk (st : pid_state T) o :
  PID_BITMAP_SIZE_LIMIT <= pid_bitmap_size st -> pid_bitmap_lock st = false ->
  exists st', alloc_pid junk st o = Some (Err ENOMEM, st', o).
Proof.
  intros Hs Hl. unfold alloc_pid, spinlock_acquire. rewrite Hl. orun.
  assert ((pid_bitmap_size (set_lock st true) <? PID_BITMAP_SIZE_LIMIT) = false) as Hge
    by (simpl; apply Z.ltb_ge; lia).
  generalize 32%nat as fuel. intros [|fuel]; cbn [alloc_pid_loop]; rewrite Hge; eauto.
Qed.

End Pid.
