(* ===== verification/Cred.v ===== *)
(** * User and group IDs (kernel/pid.c)

    The credentials of a process and every system call that reads or changes
    them. The theorems show that privilege is never gained: the IDs reachable by
    any sequence of calls of a process without root among its user IDs stay
    within the IDs it started with. *)

From S2P Require Import Prelude.

Module Cred.

Abbreviation NGROUPS_MAX := 16.

(** [(uid_t) -1] and [(gid_t) -1]: "leave unchanged". *)
Abbreviation NO_ID := 4294967295.

(** The credential fields of [struct process]. *)
Record cred := mk_cred {
  uid : Z; euid : Z; suid : Z;
  gid : Z; egid : Z; sgid : Z;
  sup_gids : list Z;
  nsup_gids : Z
}.

Definition set_uids (c : cred) (u e s : Z) : cred :=
  mk_cred u e s (gid c) (egid c) (sgid c) (sup_gids c) (nsup_gids c).
Definition set_gids (c : cred) (g e s : Z) : cred :=
  mk_cred (uid c) (euid c) (suid c) g e s (sup_gids c) (nsup_gids c).
Definition set_groups (c : cred) (l : list Z) (n : Z) : cred :=
  mk_cred (uid c) (euid c) (suid c) (gid c) (egid c) (sgid c) l n.

(** ** User IDs *)

Definition sys_getuid (c : cred) : Z := uid c.
Definition sys_geteuid (c : cred) : Z := euid c.

Definition sys_setuid (c : cred) (u : Z) : res Z * cred :=
  if truthy (euid c) && negb (uid c =? u) then (Err EPERM, c) else
  (Ok 0, set_uids c u u u).

Definition sys_setreuid (c : cred) (ruid euid' : Z) : res Z * cred :=
  if truthy (euid c) && negb (ruid =? NO_ID) &&
     (negb (ruid =? uid c) && negb (ruid =? euid c)) then (Err EPERM, c) else
  if truthy (euid c) && negb (euid' =? NO_ID) &&
     (negb (euid' =? uid c) && negb (euid' =? euid c) && negb (euid' =? suid c))
  then (Err EPERM, c) else
  let c := if negb (euid' =? NO_ID) then
             set_uids c (uid c) euid' (if negb (uid c =? euid') then euid' else suid c)
           else c in
  let c := if negb (ruid =? NO_ID) then set_uids c ruid (euid c) (euid c) else c in
  (Ok 0, c).

(** The IDs stored through the pointers that are not NULL. *)
Definition sys_getresuid (c : cred) (ruid euid' suid' : bool) : Z * (option Z * option Z * option Z) :=
  (0, (if ruid then Some (uid c) else None, if euid' then Some (euid c) else None,
       if suid' then Some (suid c) else None)).

(** The check made for each of the three arguments. *)
Definition uid_denied (c : cred) (id : Z) : bool :=
  negb (id =? NO_ID) && (negb (id =? uid c) && negb (id =? euid c) && negb (id =? suid c)).

Definition sys_setresuid (c : cred) (ruid euid' suid' : Z) : res Z * cred :=
  if truthy (euid c) && uid_denied c ruid then (Err EPERM, c) else
  if truthy (euid c) && uid_denied c euid' then (Err EPERM, c) else
  if truthy (euid c) && uid_denied c suid' then (Err EPERM, c) else
  let c := if negb (ruid =? NO_ID) then set_uids c ruid (euid c) (suid c) else c in
  let c := if negb (euid' =? NO_ID) then set_uids c (uid c) euid' (suid c) else c in
  let c := if negb (suid' =? NO_ID) then set_uids c (uid c) (euid c) suid' else c in
  (Ok 0, c).

Definition sys_seteuid (c : cred) (euid' : Z) : res Z * cred := sys_setresuid c NO_ID euid' NO_ID.

(** ** Group IDs *)

Definition sys_getgid (c : cred) : Z := gid c.
Definition sys_getegid (c : cred) : Z := egid c.

Definition sys_setgid (c : cred) (g : Z) : res Z * cred :=
  if truthy (euid c) && negb (gid c =? g) then (Err EPERM, c) else
  (Ok 0, set_gids c g g g).

Definition sys_setregid (c : cred) (rgid egid' : Z) : res Z * cred :=
  if truthy (euid c) && negb (rgid =? NO_ID) &&
     (negb (rgid =? gid c) && negb (rgid =? egid c)) then (Err EPERM, c) else
  if truthy (euid c) && negb (egid' =? NO_ID) &&
     (negb (egid' =? gid c) && negb (egid' =? egid c) && negb (egid' =? sgid c))
  then (Err EPERM, c) else
  let c := if negb (egid' =? NO_ID) then
             set_gids c (gid c) egid' (if negb (gid c =? egid') then egid' else sgid c)
           else c in
  let c := if negb (rgid =? NO_ID) then set_gids c rgid (egid c) (egid c) else c in
  (Ok 0, c).

Definition sys_getresgid (c : cred) (rgid egid' sgid' : bool) : Z * (option Z * option Z * option Z) :=
  (0, (if rgid then Some (gid c) else None, if egid' then Some (egid c) else None,
       if sgid' then Some (sgid c) else None)).

Definition gid_denied (c : cred) (id : Z) : bool :=
  negb (id =? NO_ID) && (negb (id =? gid c) && negb (id =? egid c) && negb (id =? sgid c)).

Definition sys_setresgid (c : cred) (rgid egid' sgid' : Z) : res Z * cred :=
  if truthy (euid c) && gid_denied c rgid then (Err EPERM, c) else
  if truthy (euid c) && gid_denied c egid' then (Err EPERM, c) else
  if truthy (euid c) && gid_denied c sgid' then (Err EPERM, c) else
  let c := if negb (rgid =? NO_ID) then set_gids c rgid (egid c) (sgid c) else c in
  let c := if negb (egid' =? NO_ID) then set_gids c (gid c) egid' (sgid c) else c in
  let c := if negb (sgid' =? NO_ID) then set_gids c (gid c) (egid c) sgid' else c in
  (Ok 0, c).

Definition sys_setegid (c : cred) (egid' : Z) : res Z * cred := sys_setresgid c NO_ID egid' NO_ID.

(** ** Supplementary groups *)

(** The result and the IDs copied to the caller's list. *)
Definition sys_getgroups (c : cred) (size : Z) : res Z * list Z :=
  if size =? 0 then (Ok (s32 (nsup_gids c)), [])
  else if u64 size <? nsup_gids c then (Err EINVAL, [])
  else (Ok 0, take (Z.to_nat (nsup_gids c)) (sup_gids c)).

(** [list] is the caller's array; reading past its end is [None]. *)
Definition sys_setgroups (c : cred) (size : Z) (list : list Z) : option (res Z * cred) :=
  if truthy (euid c) then Some (Err EPERM, c)
  else if NGROUPS_MAX <? size then Some (Err EINVAL, c)
  else if zlen list <? size then None
  else Some (Ok 0, set_groups c
    (take (Z.to_nat size) list ++ drop (Z.to_nat size) (sup_gids c)) size).

(** ** Theorems *)

(** One call of a process on its own credentials. *)
Inductive cred_step (c : cred) : cred -> Prop :=
| cs_setuid u : cred_step c (sys_setuid c u).2
| cs_seteuid u : cred_step c (sys_seteuid c u).2
| cs_setreuid r e : cred_step c (sys_setreuid c r e).2
| cs_setresuid r e s : cred_step c (sys_setresuid c r e s).2
| cs_setgid g : cred_step c (sys_setgid c g).2
| cs_setegid g : cred_step c (sys_setegid c g).2
| cs_setregid r e : cred_step c (sys_setregid c r e).2
| cs_setresgid r e s : cred_step c (sys_setresgid c r e s).2
| cs_setgroups n l r c' : sys_setgroups c n l = Some (r, c') -> cred_step c c'.

Definition uids (c : cred) : gset Z := {[uid c; euid c; suid c]}.
Definition gids (c : cred) : gset Z := {[gid c; egid c; sgid c]}.

(** [within c0 c]: the IDs of [c] are among those of [c0]. *)
Definition within (c0 c : cred) : Prop :=
  uids c ⊆ uids c0 /\ gids c ⊆ gids c0 /\ sup_gids c = sup_gids c0 /\ nsup_gids c = nsup_gids c0.

Lemma truthy_nonzero x : truthy x = true <-> x <> 0.
Proof. unfold truthy. rewrite negb_true_iff, Z.eqb_neq. done. Qed.

Lemma uid_denied_false c id : uid_denied c id = false -> id = NO_ID \/ id ∈ uids c.
Proof.
  unfold uid_denied, uids. rewrite andb_false_iff, !andb_false_iff, !negb_false_iff, !Z.eqb_eq. set_solver.
Qed.

Lemma gid_denied_false c id : gid_denied c id = false -> id = NO_ID \/ id ∈ gids c.
Proof.
  unfold gid_denied, gids. rewrite andb_false_iff, !andb_false_iff, !negb_false_iff, !Z.eqb_eq. set_solver.
Qed.

Lemma within_refl c : within c c.
Proof. by split_and!. Qed.

Lemma within_trans c1 c2 c3 : within c1 c2 -> within c2 c3 -> within c1 c3.
Proof. intros (?&?&?&?) (?&?&?&?). split_and!; [set_solver..|congruence|congruence]. Qed.

#[export] Instance within_preorder : PreOrder within.
Proof. split; [exact within_refl|exact within_trans]. Qed.

Section unprivileged.
Context (c : cred) (Hpriv : truthy (euid c) = true).

Lemma set_uids_within u e s :
  u ∈ uids c -> e ∈ uids c -> s ∈ uids c -> within c (set_uids c u e s).
Proof. intros. split_and!; try done. unfold uids in *; simpl. set_solver. Qed.

Lemma set_gids_within g e s :
  g ∈ gids c -> e ∈ gids c -> s ∈ gids c -> within c (set_gids c g e s).
Proof. intros. split_and!; try done. unfold gids in *; simpl. set_solver. Qed.

Lemma own_uid : uid c ∈ uids c. Proof. unfold uids. set_solver. Qed.
Lemma own_euid : euid c ∈ uids c. Proof. unfold uids. set_solver. Qed.
Lemma own_suid : suid c ∈ uids c. Proof. unfold uids. set_solver. Qed.
Lemma own_gid : gid c ∈ gids c. Proof. unfold gids. set_solver. Qed.
Lemma own_egid : egid c ∈ gids c. Proof. unfold gids. set_solver. Qed.
Lemma own_sgid : sgid c ∈ gids c. Proof. unfold gids. set_solver. Qed.
#[local] Hint Resolve own_uid own_euid own_suid own_gid own_egid own_sgid : core.

Lemma setuid_within u : within c (sys_setuid c u).2.
Proof.
  unfold sys_setuid. rewrite Hpriv. destruct (Z.eqb_spec (uid c) u) as [<-|]; simpl; [|done].
  by apply set_uids_within.
Qed.

Lemma setgid_within g : within c (sys_setgid c g).2.
Proof.
  unfold sys_setgid. rewrite Hpriv. destruct (Z.eqb_spec (gid c) g) as [<-|]; simpl; [|done].
  by apply set_gids_within.
Qed.

Lemma setresuid_within r e s : within c (sys_setresuid c r e s).2.
Proof.
  unfold sys_setresuid. rewrite Hpriv. simpl.
  destruct (uid_denied c r) eqn:Hr; [done|]. destruct (uid_denied c e) eqn:He; [done|].
  destruct (uid_denied c s) eqn:Hs; [done|].
  apply uid_denied_false in Hr, He, Hs. simpl.
  destruct (Z.eqb_spec r NO_ID), (Z.eqb_spec e NO_ID), (Z.eqb_spec s NO_ID); simpl;
    try done; apply set_uids_within; naive_solver.
Qed.

Lemma setresgid_within r e s : within c (sys_setresgid c r e s).2.
Proof.
  unfold sys_setresgid. rewrite Hpriv. simpl.
  destruct (gid_denied c r) eqn:Hr; [done|]. destruct (gid_denied c e) eqn:He; [done|].
  destruct (gid_denied c s) eqn:Hs; [done|].
  apply gid_denied_false in Hr, He, Hs. simpl.
  destruct (Z.eqb_spec r NO_ID), (Z.eqb_spec e NO_ID), (Z.eqb_spec s NO_ID); simpl;
    try done; apply set_gids_within; naive_solver.
Qed.

Lemma setreuid_within r e : within c (sys_setreuid c r e).2.
Proof.
  unfold sys_setreuid. rewrite Hpriv. simpl.
  destruct (negb (r =? NO_ID) && _) eqn:Hr; [done|].
  destruct (negb (e =? NO_ID) && _) eqn:He; [done|].
  assert (r = NO_ID \/ r ∈ uids c) as Hr'.
  { rewrite !andb_false_iff, !negb_false_iff, !Z.eqb_eq in Hr. unfold uids. set_solver. }
  apply (uid_denied_false c) in He. clear Hr. simpl.
  destruct (Z.eqb_spec r NO_ID), (Z.eqb_spec e NO_ID); simpl; try done; try case_match;
    apply set_uids_within; naive_solver.
Qed.

Lemma setregid_within r e : within c (sys_setregid c r e).2.
Proof.
  unfold sys_setregid. rewrite Hpriv. simpl.
  destruct (negb (r =? NO_ID) && _) eqn:Hr; [done|].
  destruct (negb (e =? NO_ID) && _) eqn:He; [done|].
  assert (r = NO_ID \/ r ∈ gids c) as Hr'.
  { rewrite !andb_false_iff, !negb_false_iff, !Z.eqb_eq in Hr. unfold gids. set_solver. }
  apply (gid_denied_false c) in He. clear Hr. simpl.
  destruct (Z.eqb_spec r NO_ID), (Z.eqb_spec e NO_ID); simpl; try done; try case_match;
    apply set_gids_within; naive_solver.
Qed.

Lemma cred_step_within c' : cred_step c c' -> within c c'.
Proof.
  destruct 1 as [u|u|r e|r e s|g|g|r e|r e s|n l r c' Hg].
  - apply setuid_within.
  - apply setresuid_within.
  - apply setreuid_within.
  - apply setresuid_within.
  - apply setgid_within.
  - apply setresgid_within.
  - apply setregid_within.
  - apply setresgid_within.
  - unfold sys_setgroups in Hg. rewrite Hpriv in Hg. by simplify_eq.
Qed.
End unprivileged.

Lemma reachable_within c0 c : 0 ∉ uids c0 -> rtc cred_step c0 c -> within c0 c.
Proof.
  intros H0 Hr. refine (rtc_invariant cred_step (within c0) _ _ _ Hr (within_refl c0)).
  intros c1 c2 Hs Hw. etransitivity; [exact Hw|]. apply cred_step_within; [|done].
  apply truthy_nonzero. destruct Hw as (Hu & _). unfold uids in *. set_solver.
Qed.

(** C20: no sequence of credential system calls gains privilege: a process with
    no user ID equal to 0 only ever reaches user and group IDs it started with,
    and its supplementary groups never change. *)
Theorem no_privilege_gain c0 c :
  0 ∉ uids c0 -> rtc cred_step c0 c ->
  uids c ⊆ uids c0 /\ gids c ⊆ gids c0 /\ sup_gids c = sup_gids c0 /\ nsup_gids c = nsup_gids c0 /\
  euid c <> 0.
Proof.
  intros H0 Hr. destruct (reachable_within c0 c H0 Hr) as (Hu & Hg & Hs & Hn).
  split_and!; auto. unfold uids in *. set_solver.
Qed.

Definition demo_cred : cred := mk_cred 1000 1001 1000 100 100 100 [] 0.

Lemma no_privilege_gain_witness :
  uids (sys_setreuid demo_cred 1001 1000).2 ⊆ uids demo_cred.
Proof.
  refine (proj1 (no_privilege_gain demo_cred _ _ _)).
  - vm_compute. intros H. discriminate.
  - apply rtc_once. constructor.
Defined.

(** A root process that calls [setuid] with another user's ID gives up
    privilege for good: every state it can reach afterwards has all three user
    IDs equal to that ID. *)
Theorem setuid_drops_root c u c' :
  euid c = 0 -> u <> 0 -> rtc cred_step (sys_setuid c u).2 c' ->
  (sys_setuid c u).1 = Ok 0 /\ uid c' = u /\ euid c' = u /\ suid c' = u.
Proof.
  intros He Hu Hr. unfold sys_setuid in *. rewrite He in *. simpl in *.
  apply reachable_within in Hr as (Hw & _); unfold uids in *; simpl in *; [|set_solver].
  assert (forall x, x ∈ ({[uid c'; euid c'; suid c']} : gset Z) -> x = u) as Hx.
  { intros x Hx%Hw. rewrite !elem_of_union, !elem_of_singleton in Hx. tauto. }
  split_and!; [done|apply Hx; rewrite !elem_of_union, !elem_of_singleton; tauto..].
Qed.

Lemma setuid_drops_root_witness :
  (sys_setuid (mk_cred 0 0 0 0 0 0 [] 0) 1000).1 = Ok 0 /\
  uid (sys_setuid (sys_setuid (mk_cred 0 0 0 0 0 0 [] 0) 1000).2 0).2 = 1000.
Proof.
  edestruct (setuid_drops_root (mk_cred 0 0 0 0 0 0 [] 0) 1000
    (sys_setuid (sys_setuid (mk_cred 0 0 0 0 0 0 [] 0) 1000).2 0).2) as (H1 & H2 & _).
  - reflexivity.
  - lia.
  - apply rtc_once. constructor.
  - split; [exact H1 | exact H2].
Defined.

(** [sys_getgroups] reports success with 0, not with the number of IDs it
    stored. *)
Lemma getgroups_returns_zero :
  sys_getgroups (mk_cred 0 0 0 0 0 0 [10; 20; 30] 3) 16 = (Ok 0, [10; 20; 30]).
Proof. reflexivity. Qed.

End Cred.
