(* ===== verification/FdTable.v ===== *)
(** * File descriptors (kernel/fd.c, the descriptor part of process_fork)

    The system file descriptor table with its reference counts, the descriptor
    tables of the processes that point into it, and the operations that
    allocate, fill, duplicate, copy and close descriptors. *)

From S2P Require Import Prelude CBits HashMap.

Module FdTable.
Import CBits HashMap.

Abbreviation SYSTEM_FD_TABLE_SIZE := 65536.
Abbreviation O_ACCMODE := 3.
Abbreviation O_NONBLOCK := 128.

Inductive fcntl_cmd :=
| F_DUPFD | F_GETFD | F_SETFD | F_GETFL | F_SETFL | F_SETLK | F_SETLKW | F_GETLK | F_OTHER.

(** [struct fd]; the vnode is an address, 0 is NULL. *)
Record fd := mk_fd { vnode : Z; path : Z; offset : Z; flags : Z; count : Z }.

Definition zero_fd : fd := mk_fd 0 0 0 0 0.
Definition set_count (f : fd) (n : Z) : fd := mk_fd (vnode f) (path f) (offset f) (flags f) n.
Definition set_flags (f : fd) (n : Z) : fd := mk_fd (vnode f) (path f) (offset f) n (count f).

(** [struct fd_table]; a slot is NULL or the index of a system entry. *)
Record fd_table := mk_fd_table {
  table : list (option Z);
  curr : Z;
  size : Z;
  max_size : Z
}.

(** The system table, the search start, the lock, the table of each process
    and the vnodes given to [UNREF_OBJECT] so far. *)
Record fd_state := mk_fd_state {
  system_fd_table : list fd;
  fd_table_start : Z;
  fd_lock : bool;
  fds : list fd_table;
  unrefs : list Z
}.

Definition set_sys (s : fd_state) (l : list fd) : fd_state :=
  mk_fd_state l (fd_table_start s) (fd_lock s) (fds s) (unrefs s).
Definition set_start (s : fd_state) (n : Z) : fd_state :=
  mk_fd_state (system_fd_table s) n (fd_lock s) (fds s) (unrefs s).
Definition set_fd_lock (s : fd_state) (b : bool) : fd_state :=
  mk_fd_state (system_fd_table s) (fd_table_start s) b (fds s) (unrefs s).
Definition set_fds (s : fd_state) (l : list fd_table) : fd_state :=
  mk_fd_state (system_fd_table s) (fd_table_start s) (fd_lock s) l (unrefs s).
Definition unref_object (s : fd_state) (v : Z) : fd_state :=
  mk_fd_state (system_fd_table s) (fd_table_start s) (fd_lock s) (fds s) (unrefs s ++ [v]).

Definition set_table (t : fd_table) (l : list (option Z)) : fd_table :=
  mk_fd_table l (curr t) (size t) (max_size t).
Definition set_curr (t : fd_table) (n : Z) : fd_table :=
  mk_fd_table (table t) n (size t) (max_size t).
Definition set_size (t : fd_table) (n : Z) : fd_table :=
  mk_fd_table (table t) (curr t) n (max_size t).

Definition spinlock_acquire (s : fd_state) : option fd_state :=
  if fd_lock s then None else Some (set_fd_lock s true).
Definition spinlock_release (s : fd_state) : fd_state := set_fd_lock s false.

(** The table of the process number [p]. *)
Definition upd_fds (s : fd_state) (p : nat) (t : fd_table) : fd_state := set_fds s (<[p := t]> (fds s)).

(** [realloc] to [n] slots and [memset] of the slots from [old] on; a new size
    below [old] makes the length given to memset wrap. *)
Definition resize_table (l : list (option Z)) (old n : Z) : option (list (option Z)) :=
  if n <? old then None else
  Some (take (Z.to_nat old) l ++ replicate (Z.to_nat (n - old)) None).

(** ** Process descriptors *)

Definition file_fd (s : fd_state) (p : nat) (fd : Z) : option (res Z) :=
  t ← fds s !! p;
  if (fd <? 0) || (size t <=? fd) then Some (Err EBADF) else
  slot ← (table t).[fd];
  match slot with
  | Some k => Some (Ok k)
  | None => Some (Err EBADF)
  end.

(** Looks for an empty slot from [i]; the flag says whether one was found. *)
Fixpoint scan_slots (fuel : nat) (l : list (option Z)) (i n : Z) : option (bool * Z) :=
  if i <? n then
    match fuel with
    | O => None
    | S fuel =>
        slot ← l.[i];
        match slot with
        | None => Some (true, i)
        | Some _ => scan_slots fuel l (i + 1) n
        end
    end
  else Some (false, i).

Definition alloc_procfd (s : fd_state) (p : nat) (o : mem) : option (res Z * fd_state * mem) :=
  s ← spinlock_acquire s;
  t ← fds s !! p;
  '(found, i) ← scan_slots (Z.to_nat (size t - curr t)) (table t) (curr t) (size t);
  if found : bool then
    Some (Ok (s32 i), upd_fds (spinlock_release s) p (set_curr t (i + 1)), o)
  else
    let t := set_curr t i in
    if size t <? max_size t then
      let new_size := if u64 (size t * 2) <? max_size t then u64 (size t * 2) else max_size t in
      '(ok, o) ← malloc o;
      if negb (ok : bool) then Some (Err ENOMEM, upd_fds (spinlock_release s) p t, o) else
      l ← resize_table (table t) (size t) new_size;
      let t := set_size (set_table t l) new_size in
      if size t <=? curr t then Some (Err EMFILE, upd_fds (spinlock_release s) p t, o) else
      Some (Ok (s32 (curr t)), upd_fds (spinlock_release s) p (set_curr t (curr t + 1)), o)
    else Some (Err EMFILE, upd_fds (spinlock_release s) p t, o).

(** Duplicates [fd] at or above [fd2]. *)
Definition dupfd (s : fd_state) (p : nat) (fd fd2 : Z) (o : mem) : option (res Z * fd_state * mem) :=
  r ← file_fd s p fd;
  match r with
  | Err e => Some (Err e, s, o)
  | Ok k =>
      t ← fds s !! p;
      '(found, i) ← scan_slots (Z.to_nat (size t - u64 fd2)) (table t) (u64 fd2) (size t);
      x ← (if found : bool then Some (Ok (i, t), o) else
           if size t <? max_size t then
             let new_size := next64_p2 (u64 (fd2 + 1)) in
             let new_size := if max_size t <? new_size then max_size t else new_size in
             '(ok, o) ← malloc o;
             if negb (ok : bool) then Some (Err ENOMEM, o) else
             l ← resize_table (table t) (size t) new_size;
             Some (Ok (u64 fd2, set_size (set_table t l) new_size), o)
           else Some (Err EMFILE, o));
      match x with
      | (Err e, o) => Some (Err e, s, o)
      | (Ok (i, t), o) =>
          l ← (table t).[i <- Some k];
          f ← (system_fd_table s).[k];
          sys ← (system_fd_table s).[k <- set_count f (u64 (count f + 1))];
          Some (Ok 0, upd_fds (set_sys s sys) p (set_table t l), o)
      end
  end.

(** ** System descriptors *)

Fixpoint scan_fd (fuel : nat) (l : list fd) (i : Z) : option (bool * Z) :=
  if i <? SYSTEM_FD_TABLE_SIZE then
    match fuel with
    | O => None
    | S fuel =>
        f ← l.[i];
        if count f =? 0 then Some (true, i) else scan_fd fuel l (i + 1)
    end
  else Some (false, i).

Definition alloc_fd (s : fd_state) : option (Z * fd_state) :=
  s ← spinlock_acquire s;
  '(found, i) ← scan_fd (Z.to_nat (SYSTEM_FD_TABLE_SIZE - fd_table_start s))
    (system_fd_table s) (fd_table_start s);
  if found : bool then
    f ← (system_fd_table s).[i];
    sys ← (system_fd_table s).[i <- set_count f (u64 (count f + 1))];
    Some (s32 i, set_start (spinlock_release (set_sys s sys)) (i + 1))
  else Some (-1, set_start (spinlock_release s) i).

(** [if (!--system_fd_table[k].count) ...] with the lock held. *)
Definition release_entry (s : fd_state) (k : Z) : option fd_state :=
  f ← (system_fd_table s).[k];
  let n := u64 (count f - 1) in
  if negb (truthy n) then
    sys ← (system_fd_table s).[k <- zero_fd];
    let s := set_sys (unref_object s (vnode f)) sys in
    Some (if u64 k <? fd_table_start s then set_start s k else s)
  else
    sys ← (system_fd_table s).[k <- set_count f n];
    Some (set_sys s sys).

Definition free_fd (s : fd_state) (k : Z) : option fd_state :=
  s ← spinlock_acquire s;
  s ← release_entry s k;
  Some (spinlock_release s).

Definition free_altprocfd (s : fd_state) (p : nat) (fd : Z) : option fd_state :=
  t ← fds s !! p;
  slot ← (table t).[fd];
  match slot with
  | None => Some s
  | Some k =>
      s ← spinlock_acquire s;
      l ← (table t).[fd <- None];
      s ← release_entry (upd_fds s p (set_table t l)) k;
      Some (spinlock_release s)
  end.

(** [p] is the current process. *)
Definition free_procfd (s : fd_state) (p : nat) (fd : Z) : option fd_state := free_altprocfd s p fd.

(** [sys_close] of drivers/fs/syscall.c. *)
Definition sys_close (s : fd_state) (p : nat) (fd : Z) : option (res Z * fd_state) :=
  r ← file_fd s p fd;
  match r with
  | Err _ => Some (Err EBADF, s)
  | Ok _ => s ← free_procfd s p fd; Some (Ok 0, s)
  end.

Definition fill_fd (s : fd_state) (p : nat) (fd sysfd vp fl : Z) : option fd_state :=
  f ← (system_fd_table s).[sysfd];
  sys ← (system_fd_table s).[sysfd <-
    mk_fd vp (path f) (offset f) (Z.land fl (Z.lor O_ACCMODE O_NONBLOCK)) (count f)];
  t ← fds s !! p;
  l ← (table t).[fd <- Some sysfd];
  Some (upd_fds (set_sys s sys) p (set_table t l)).

Definition sys_fcntl (s : fd_state) (p : nat) (fd : Z) (cmd : fcntl_cmd) (arg : Z) (o : mem) :
    option (res Z * fd_state * mem) :=
  r ← file_fd s p fd;
  match r with
  | Err _ => Some (Err EBADF, s, o)
  | Ok k =>
      f ← (system_fd_table s).[k];
      match cmd with
      | F_DUPFD => dupfd s p fd arg o
      | F_GETFD | F_GETFL => Some (Ok (flags f), s, o)
      | F_SETFD | F_SETFL =>
          sys ← (system_fd_table s).[k <-
            set_flags f (Z.lor (Z.land (flags f) O_ACCMODE) (Z.land arg (Z.lnot O_ACCMODE)))];
          Some (Ok 0, set_sys s sys, o)
      | F_SETLK | F_SETLKW | F_GETLK => Some (Err ENOSYS, s, o)
      | F_OTHER => Some (Err EINVAL, s, o)
      end
  end.

(** The copy of the descriptor table in [process_fork]: each copied descriptor
    takes a reference. *)
Fixpoint ref_slots (l : list (option Z)) (sys : list fd) : option (list fd) :=
  match l with
  | [] => Some sys
  | None :: l => ref_slots l sys
  | Some k :: l =>
      f ← sys.[k];
      sys ← sys.[k <- set_count f (u64 (count f + 1))];
      ref_slots l sys
  end.

Definition fork_fds (s : fd_state) (p : nat) : option fd_state :=
  t ← fds s !! p;
  sys ← ref_slots (take (Z.to_nat (size t)) (table t)) (system_fd_table s);
  Some (set_fds (set_sys s sys)
    (fds s ++ [mk_fd_table (take (Z.to_nat (size t)) (table t)) (curr t) (size t) (max_size t)])).

(** ** References

    How many descriptors of the processes point to a system entry. *)

Definition hit (k : Z) (slot : option Z) : Z := if decide (slot = Some k) then 1 else 0.

Definition slot_refs (k : Z) (l : list (option Z)) : Z := foldr (fun s n => hit k s + n) 0 l.

Definition refs_in (k : Z) (l : list fd_table) : Z :=
  foldr (fun t n => slot_refs k (table t) + n) 0 l.

Definition refs (s : fd_state) (k : Z) : Z := refs_in k (fds s).

(** The reference count of an entry; entries outside of the table have none. *)
Definition cnt_in (l : list fd) (k : Z) : Z := match l.[k] with Some f => count f | None => 0 end.
Definition cnt (s : fd_state) (k : Z) : Z := cnt_in (system_fd_table s) k.

Lemma hit_range k o : 0 <= hit k o <= 1.
Proof. unfold hit. case_decide; lia. Qed.

Lemma slot_refs_nonneg k l : 0 <= slot_refs k l.
Proof. induction l as [|o l IH]; simpl; [lia|]. pose proof (hit_range k o). lia. Qed.

Lemma slot_refs_app k l1 l2 : slot_refs k (l1 ++ l2) = slot_refs k l1 + slot_refs k l2.
Proof. induction l1 as [|o l1 IH]; simpl; lia. Qed.

Lemma slot_refs_none k n : slot_refs k (replicate n None) = 0.
Proof. induction n as [|n IH]; [done|]. simpl. rewrite IH. done. Qed.

Lemma slot_refs_insert k l (i : nat) old new :
  l !! i = Some old -> slot_refs k (<[i := new]> l) = slot_refs k l - hit k old + hit k new.
Proof.
  intros Hi. pose proof (lookup_lt_Some _ _ _ Hi).
  rewrite insert_take_drop by done. rewrite <- (take_drop_middle l i old Hi) at 3.
  rewrite !slot_refs_app. simpl. lia.
Qed.

Lemma slot_refs_store k l i old new l' :
  l.[i] = Some old -> l.[i <- new] = Some l' ->
  slot_refs k l' = slot_refs k l - hit k old + hit k new.
Proof.
  intros Hi [Hr ->]%zstore_Some. apply slot_refs_insert.
  unfold zlookup in Hi. by destruct (i <? 0).
Qed.

Lemma slot_refs_elem k l : Some k ∈ l -> 1 <= slot_refs k l.
Proof.
  induction l as [|o l IH]; [by intros ?%elem_of_nil|]. simpl.
  pose proof (slot_refs_nonneg k l). pose proof (hit_range k o).
  intros [<-|Hin]%elem_of_cons; [|specialize (IH Hin); lia].
  unfold hit. rewrite decide_True by done. lia.
Qed.

Lemma slot_refs_pos k l : 0 < slot_refs k l -> Some k ∈ l.
Proof.
  induction l as [|o l IH]; simpl; [lia|]. intros Hp. apply elem_of_cons.
  unfold hit in Hp. case_decide; [by left|]. right. apply IH. lia.
Qed.

Lemma refs_in_nonneg k l : 0 <= refs_in k l.
Proof. induction l as [|t l IH]; simpl; [lia|]. pose proof (slot_refs_nonneg k (table t)). lia. Qed.

Lemma refs_in_app k l1 l2 : refs_in k (l1 ++ l2) = refs_in k l1 + refs_in k l2.
Proof. induction l1 as [|t l1 IH]; simpl; lia. Qed.

Lemma refs_in_insert k l (p : nat) t t' :
  l !! p = Some t ->
  refs_in k (<[p := t']> l) = refs_in k l - slot_refs k (table t) + slot_refs k (table t').
Proof.
  intros Hp. pose proof (lookup_lt_Some _ _ _ Hp).
  rewrite insert_take_drop by done. rewrite <- (take_drop_middle l p t Hp) at 3.
  rewrite !refs_in_app. simpl. lia.
Qed.

Lemma refs_in_ge k l t : t ∈ l -> slot_refs k (table t) <= refs_in k l.
Proof.
  induction l as [|t0 l IH]; [by intros ?%elem_of_nil|]. simpl.
  pose proof (refs_in_nonneg k l). pose proof (slot_refs_nonneg k (table t0)).
  intros [<-|Hin]%elem_of_cons; [lia|]. specialize (IH Hin). lia.
Qed.

Lemma cnt_in_store l k f l' j :
  l.[k <- f] = Some l' -> cnt_in l' j = if j =? k then count f else cnt_in l j.
Proof. intros Hs. unfold cnt_in. rewrite (zlookup_zstore _ _ _ _ _ Hs). by destruct (j =? k). Qed.

(** ** The invariant

    [pend] counts the references taken by [alloc_fd] that are not yet in a
    descriptor. Counts never fall below the references that exist. *)

Definition table_ok (t : fd_table) : Prop :=
  zlen (table t) = size t /\ 0 <= curr t <= size t /\ size t <= max_size t < 2 ^ 31 /\
  forall k, Some k ∈ table t -> 0 <= k < SYSTEM_FD_TABLE_SIZE.

Definition fd_ok (pend : Z -> Z) (s : fd_state) : Prop :=
  zlen (system_fd_table s) = SYSTEM_FD_TABLE_SIZE /\ fd_lock s = false /\
  0 <= fd_table_start s <= SYSTEM_FD_TABLE_SIZE /\
  Forall table_ok (fds s) /\
  forall k, 0 <= pend k /\ refs s k + pend k <= cnt s k < 2 ^ 64.

Lemma fd_ok_table pend s p t : fd_ok pend s -> fds s !! p = Some t -> table_ok t.
Proof. intros (_ & _ & _ & Hf & _) Hp. rewrite Forall_lookup in Hf. eauto. Qed.

Lemma cnt_outside s k : zlen (system_fd_table s) = SYSTEM_FD_TABLE_SIZE ->
  cnt s k <> 0 -> 0 <= k < SYSTEM_FD_TABLE_SIZE.
Proof.
  intros Hl. unfold cnt, cnt_in. destruct (_ .[k]) eqn:E; [|done].
  apply zlookup_Some_lt in E. lia.
Qed.

Lemma release_entry_spec s k :
  zlen (system_fd_table s) = SYSTEM_FD_TABLE_SIZE -> 1 <= cnt s k < 2 ^ 64 ->
  0 <= fd_table_start s <= SYSTEM_FD_TABLE_SIZE ->
  exists s', release_entry s k = Some s' /\ fds s' = fds s /\ fd_lock s' = fd_lock s /\
    zlen (system_fd_table s') = SYSTEM_FD_TABLE_SIZE /\
    0 <= fd_table_start s' <= SYSTEM_FD_TABLE_SIZE /\
    (forall j, cnt s' j = cnt s j - (if j =? k then 1 else 0)) /\
    (exists f, (system_fd_table s).[k] = Some f /\
       if cnt s k =? 1 then unrefs s' = unrefs s ++ [vnode f] /\ (system_fd_table s').[k] = Some zero_fd
       else unrefs s' = unrefs s /\ (system_fd_table s').[k] = Some (set_count f (count f - 1))).
Proof.
  intros Hl Hc Hst. pose proof (cnt_outside s k Hl ltac:(lia)) as Hk.
  unfold release_entry. destruct (zlookup_lt_Some (system_fd_table s) k) as [f Hf]; [lia|].
  assert (Hcf : cnt s k = count f) by (unfold cnt, cnt_in; by rewrite Hf).
  rewrite Hf, Hcf in *. orun. rewrite wrap_small by lia. unfold truthy.
  destruct (Z.eqb_spec (count f - 1) 0) as [E|E], (Z.eqb_spec (count f) 1); try lia; cbn [negb].
  - destruct (zstore _ k zero_fd) as [sys|] eqn:Hs; [|rewrite zstore_lt in Hs; [done|lia]]. orun.
    eexists. split; [reflexivity|]. rewrite (wrap_small 64 k) by lia. simpl fd_table_start.
    assert (forall j, cnt_in sys j = cnt s j - (if j =? k then 1 else 0)) as Hcnt.
    { intros j. rewrite (cnt_in_store _ _ _ _ _ Hs). fold (cnt s j).
      destruct (Z.eqb_spec j k) as [->|]; simpl; lia. }
    pose proof (zstore_len _ _ _ _ Hs). pose proof (zlookup_zstore _ _ _ _ k Hs) as Hz.
    rewrite Z.eqb_refl in Hz.
    destruct (Z.ltb_spec k (fd_table_start s)); split_and!; simpl; try lia; eauto.
  - destruct (zstore _ k (set_count f (count f - 1))) as [sys|] eqn:Hs;
      [|rewrite zstore_lt in Hs; [done|lia]]. orun.
    eexists. split; [reflexivity|].
    pose proof (zstore_len _ _ _ _ Hs). pose proof (zlookup_zstore _ _ _ _ k Hs) as Hz.
    rewrite Z.eqb_refl in Hz. split_and!; simpl; try lia; eauto.
    intros j. unfold cnt. simpl. rewrite (cnt_in_store _ _ _ _ _ Hs). fold (cnt s j).
    destruct (Z.eqb_spec j k) as [->|]; simpl; lia.
Qed.

(** *** Tables *)

Lemma elem_of_zstore {A} (l : list A) i x l' y : l.[i <- x] = Some l' -> y ∈ l' -> y = x \/ y ∈ l.
Proof.
  intros [_ ->]%zstore_Some [j Hj]%list_elem_of_lookup.
  apply list_lookup_insert_Some in Hj as [(_ & -> & _)|[_ Hj]]; [by left|].
  right. by eapply list_elem_of_lookup_2.
Qed.

Lemma table_ok_store t i slot l :
  table_ok t -> (table t).[i <- slot] = Some l ->
  (forall k, slot = Some k -> 0 <= k < SYSTEM_FD_TABLE_SIZE) -> table_ok (set_table t l).
Proof.
  intros (Hl & Hc & Hs & Hr) Hst Hk. split_and!; simpl; try lia.
  - by rewrite (zstore_len _ _ _ _ Hst).
  - intros k Hin. destruct (elem_of_zstore _ _ _ _ _ Hst Hin) as [<-|]; eauto.
Qed.

Lemma resize_table_ok t n :
  table_ok t -> size t <= n <= max_size t ->
  exists l, resize_table (table t) (size t) n = Some l /\ l = table t ++ replicate (Z.to_nat (n - size t)) None /\
    table_ok (set_size (set_table t l) n).
Proof.
  intros (Hl & Hc & Hs & Hr) Hn. unfold resize_table, zlen in *.
  destruct (Z.ltb_spec n (size t)); [lia|]. rewrite take_ge by lia.
  eexists. split_and!; [done..|]. split_and!; simpl; try lia.
  - rewrite zlen_app, zlen_replicate. unfold zlen. lia.
  - intros k [Hin|Hin]%elem_of_app; [eauto|].
    by apply elem_of_replicate in Hin as [? _].
Qed.

Lemma scan_slots_spec fuel l i n :
  0 <= i -> n <= zlen l -> n - i <= Z.of_nat fuel ->
  exists found j, scan_slots fuel l i n = Some (found, j) /\ i <= j /\ (i <= n -> j <= n) /\
    (forall x, i <= x < j -> exists k, l.[x] = Some (Some k)) /\
    (if found : bool then j < n /\ l.[j] = Some None else n <= j /\ (n <= i -> j = i)).
Proof.
  revert i. induction fuel as [|fuel IH]; intros i Hi Hn Hf; simpl.
  - destruct (Z.ltb_spec i n); [lia|]. exists false, i. split_and!; auto; lia.
  - destruct (Z.ltb_spec i n); [|exists false, i; split_and!; auto; lia].
    destruct (zlookup_lt_Some l i) as [[k|] Hk]; [lia|..]; rewrite Hk; orun.
    + destruct (IH (i + 1)) as (found & j & -> & Hj & Hjn & Hset & Hfin); [lia..|].
      exists found, j. split; [done|]. split; [lia|]. split; [lia|]. split.
      * intros x Hx. destruct (Z.eq_dec x i) as [->|]; [eauto|]. apply Hset. lia.
      * destruct found; [done|]. split; [tauto|lia].
    + exists true, i. split_and!; auto; lia.
Qed.

(** *** Replacing the table of a process *)

Lemma fd_ok_upd pend pend' s s' p t t' :
  fd_ok pend s -> fds s !! p = Some t -> table_ok t' ->
  zlen (system_fd_table s') = SYSTEM_FD_TABLE_SIZE -> fd_lock s' = false ->
  0 <= fd_table_start s' <= SYSTEM_FD_TABLE_SIZE ->
  fds s' = <[p := t']> (fds s) ->
  (forall k, 0 <= pend' k /\ cnt s' k < 2 ^ 64 /\
     slot_refs k (table t') - slot_refs k (table t) + pend' k - pend k <= cnt s' k - cnt s k) ->
  fd_ok pend' s'.
Proof.
  intros (Hl & Hlk & Hst & Hf & Hr) Hp Ht' Hl' Hlk' Hst' Hfds Hk. split_and!; auto; try lia.
  - rewrite Hfds. by apply Forall_insert.
  - intros k. destruct (Hk k) as (H1 & H2 & H3). destruct (Hr k) as (H4 & H5).
    split; [done|]. split; [|done]. unfold refs in *. rewrite Hfds, (refs_in_insert k _ p t) by done. lia.
Qed.

Lemma alloc_procfd_ok pend s p t o :
  fd_ok pend s -> fds s !! p = Some t ->
  exists r s' o' t', alloc_procfd s p o = Some (r, s', o') /\ fd_ok pend s' /\
    system_fd_table s' = system_fd_table s /\ fd_table_start s' = fd_table_start s /\
    unrefs s' = unrefs s /\ fds s' = <[p := t']> (fds s) /\ (exists n, table t' = table t ++ replicate n None) /\
    match r with
    | Ok fd => curr t <= fd < curr t' /\ (table t').[fd] = Some None
    | Err e => e = EMFILE \/ e = ENOMEM
    end.
Proof.
  intros Hok Hp. pose proof (fd_ok_table _ _ _ _ Hok Hp) as Ht.
  pose proof Ht as (Hl & Hc & Hs & Hr). pose proof Hok as (Hsl & Hlk & Hst & Hf & Hrf).
  unfold alloc_procfd, spinlock_acquire. rewrite Hlk. orun. simpl fds. rewrite Hp. orun.
  destruct (scan_slots_spec (Z.to_nat (size t - curr t)) (table t) (curr t) (size t))
    as (found & j & -> & Hj & Hjn & _ & Hfin); [lia..|]. orun.
  assert (forall t', table_ok t' -> (exists n, table t' = table t ++ replicate n None) ->
    fd_ok pend (upd_fds (spinlock_release (set_fd_lock s true)) p t')) as Hupd.
  { intros t' Ht' [n Hn]. eapply (fd_ok_upd pend pend s); eauto. simpl. intros k.
    destruct (Hrf k). rewrite Hn, slot_refs_app, slot_refs_none. unfold cnt in *. simpl. lia. }
  assert (exists n, table t = table t ++ replicate n None) as Hsame by (exists O; by rewrite app_nil_r).
  assert (forall x, 0 <= x < 2 ^ 31 -> s32 x = x) as Hs32.
  { intros x Hx. unfold swrap. rewrite Z.mod_small by lia. destruct (Z.ltb_spec x (2 ^ (32 - 1))); lia. }
  destruct found.
  - destruct Hfin as [Hjs Hnone]. rewrite Hs32 by lia.
    eexists _, _, _, (set_curr t (j + 1)). split; [reflexivity|]. split_and!; simpl; auto; try lia.
    apply Hupd; [|done]. split_and!; simpl; auto; lia.
  - assert (j = size t) as -> by lia. simpl.
    assert (table_ok (set_curr t (size t))) as Htc by (split_and!; simpl; auto; lia).
    destruct (Z.ltb_spec (size t) (max_size t)) as [Hlt|].
    2: { eexists (Err EMFILE), _, o, _. split; [reflexivity|]. split_and!; simpl; auto. }
    destruct (malloc o) as [[ok o1]|] eqn:Em; [|by destruct o]. orun.
    destruct ok; cbn [negb].
    2: { eexists (Err ENOMEM), _, o1, _. split; [reflexivity|]. split_and!; simpl; auto. }
    rewrite (wrap_small 64 (size t * 2)) by lia.
    set (n := if size t * 2 <? max_size t then size t * 2 else max_size t).
    assert (size t <= n <= max_size t) as Hn by (unfold n; destruct (Z.ltb_spec (size t * 2) (max_size t)); lia).
    destruct (resize_table_ok _ n Htc) as (l & Hres & Hleq & Htl); [simpl; lia|].
    simpl in Hres, Hleq. rewrite Hres. orun. simpl.
    destruct (Z.leb_spec n (size t)).
    + eexists (Err EMFILE), _, o1, _. split; [reflexivity|]. split_and!; simpl; auto; [|by eauto].
      apply Hupd; [done|by eauto].
    + rewrite Hs32 by lia. eexists (Ok (size t)), _, o1,
        (set_curr (set_size (set_table (set_curr t (size t)) l) n) (size t + 1)).
      split; [reflexivity|]. split; [|split_and!; simpl; auto; try lia; [by eauto|]].
      * apply Hupd; [|simpl; by eauto]. destruct Htl as (? & ? & ? & ?). simpl in *. split_and!; simpl; auto; lia.
      * rewrite Hleq, <- Hl. unfold zlookup, zlen. destruct (Z.ltb_spec (Z.of_nat (length (table t))) 0); [lia|].
        rewrite Nat2Z.id, lookup_app_r, Nat.sub_diag by lia. apply lookup_replicate. unfold zlen in *. split; [done|lia].
Qed.

Lemma scan_fd_spec fuel l i :
  zlen l = SYSTEM_FD_TABLE_SIZE -> 0 <= i <= SYSTEM_FD_TABLE_SIZE ->
  SYSTEM_FD_TABLE_SIZE - i <= Z.of_nat fuel ->
  exists found j, scan_fd fuel l i = Some (found, j) /\ i <= j <= SYSTEM_FD_TABLE_SIZE /\
    (forall x, i <= x < j -> cnt_in l x <> 0) /\
    (if found : bool then j < SYSTEM_FD_TABLE_SIZE /\ cnt_in l j = 0 else j = SYSTEM_FD_TABLE_SIZE).
Proof.
  intros Hl. revert i. induction fuel as [|fuel IH]; intros i Hi Hf; cbn [scan_fd].
  - destruct (Z.ltb_spec i SYSTEM_FD_TABLE_SIZE); [lia|]. exists false, i. split_and!; auto; lia.
  - destruct (Z.ltb_spec i SYSTEM_FD_TABLE_SIZE); [|exists false, i; split_and!; auto; lia].
    destruct (zlookup_lt_Some l i) as [f Hfi]; [lia|]. rewrite Hfi. orun.
    assert (cnt_in l i = count f) as Hci by (unfold cnt_in; by rewrite Hfi).
    destruct (Z.eqb_spec (count f) 0).
    + exists true, i. split_and!; auto; lia.
    + destruct (IH (i + 1)) as (found & j & -> & Hj & Hset & Hfin); [lia..|].
      exists found, j. split_and!; auto; [lia..|]. intros x Hx.
      destruct (Z.eq_dec x i) as [->|]; [lia|]. apply Hset. lia.
Qed.

(** *** System entries *)

Definition bump (pend : Z -> Z) (k : Z) : Z -> Z := fun j => pend j + (if j =? k then 1 else 0).

(** An update of the system table that changes reference counts only. *)
Lemma fd_ok_sys pend pend' s s' :
  fd_ok pend s -> fds s' = fds s -> fd_lock s' = false ->
  zlen (system_fd_table s') = SYSTEM_FD_TABLE_SIZE ->
  0 <= fd_table_start s' <= SYSTEM_FD_TABLE_SIZE ->
  (forall k, 0 <= pend' k /\ cnt s' k < 2 ^ 64 /\ pend' k - pend k <= cnt s' k - cnt s k) ->
  fd_ok pend' s'.
Proof.
  intros (Hl & Hlk & Hst & Hf & Hr) Hfds Hlk' Hl' Hst' Hk. split_and!; auto; try lia.
  - by rewrite Hfds.
  - intros k. destruct (Hk k) as (H1 & H2 & H3), (Hr k). unfold refs in *. rewrite Hfds. lia.
Qed.

Lemma alloc_fd_ok pend s :
  fd_ok pend s ->
  exists r s', alloc_fd s = Some (r, s') /\ fds s' = fds s /\ unrefs s' = unrefs s /\
    ((r = -1 /\ fd_ok pend s') \/
     (0 <= r < SYSTEM_FD_TABLE_SIZE /\ cnt s r = 0 /\ refs s r = 0 /\ pend r = 0 /\ fd_ok (bump pend r) s')).
Proof.
  intros Hok. pose proof Hok as (Hl & Hlk & Hst & Hf & Hr).
  unfold alloc_fd, spinlock_acquire. rewrite Hlk. orun. simpl fd_table_start. simpl system_fd_table.
  destruct (scan_fd_spec (Z.to_nat (SYSTEM_FD_TABLE_SIZE - fd_table_start s)) (system_fd_table s)
    (fd_table_start s)) as (found & j & -> & Hj & _ & Hfin); [lia..|]. orun. destruct found.
  - destruct Hfin as [Hjl Hc]. destruct (zlookup_lt_Some (system_fd_table s) j) as [f Hfj]; [lia|].
    rewrite Hfj. orun. assert (count f = 0) as Hcf by (unfold cnt_in in Hc; by rewrite Hfj in Hc).
    rewrite Hcf, (wrap_small 64 (0 + 1)) by lia.
    destruct (zstore _ j _) as [sys|] eqn:Hs; [|rewrite zstore_lt in Hs; [done|lia]]. orun.
    assert (s32 j = j) as ->.
    { unfold swrap. rewrite Z.mod_small by lia. destruct (Z.ltb_spec j (2 ^ (32 - 1))); lia. }
    eexists j, _. split; [reflexivity|]. split_and!; simpl; auto. right.
    destruct (Hr j) as [Hp0 Hrj]. pose proof (refs_in_nonneg j (fds s)). fold (refs s j) in *.
    fold (cnt s j) in Hc. split_and!; try lia.
    eapply fd_ok_sys; eauto; simpl; try lia; [by rewrite (zstore_len _ _ _ _ Hs)|].
    intros k. unfold cnt at 1 2, bump. simpl. rewrite (cnt_in_store _ _ _ _ _ Hs). simpl.
    fold (cnt s k). destruct (Hr k) as [? ?].
    destruct (Z.eqb_spec k j) as [->|]; [rewrite Hc; lia|]. pose proof (refs_in_nonneg k (fds s)). lia.
  - subst j. eexists (-1), _. split; [reflexivity|]. split_and!; simpl; auto. left. split; [done|].
    eapply fd_ok_sys; eauto; simpl; try lia. intros k. destruct (Hr k). unfold cnt in *; simpl. lia.
Qed.

Lemma free_fd_ok pend s k :
  fd_ok (bump pend k) s -> (forall j, 0 <= pend j) -> exists s', free_fd s k = Some s' /\ fd_ok pend s'.
Proof.
  intros Hok Hpend. pose proof Hok as (Hl & Hlk & Hst & Hf & Hr).
  unfold free_fd, spinlock_acquire. rewrite Hlk. orun.
  destruct (release_entry_spec (set_fd_lock s true) k) as (s' & -> & Hfds & _ & Hl' & Hst' & Hcnt & _); auto.
  { change (cnt (set_fd_lock s true) k) with (cnt s k). destruct (Hr k) as [? ?]. unfold bump in *.
    rewrite Z.eqb_refl in *. pose proof (refs_in_nonneg k (fds s)). specialize (Hpend k). unfold refs in *. lia. }
  orun. eexists. split; [reflexivity|]. eapply fd_ok_sys; eauto; simpl; auto.
  intros j. change (cnt (spinlock_release s') j) with (cnt s' j). rewrite Hcnt.
  change (cnt (set_fd_lock s true) j) with (cnt s j). specialize (Hpend j). destruct (Hr j). unfold bump in *.
  destruct (j =? k); lia.
Qed.

Lemma slot_in_range pend s p t fd k :
  fd_ok pend s -> fds s !! p = Some t -> (table t).[fd] = Some (Some k) ->
  0 <= k < SYSTEM_FD_TABLE_SIZE /\ 1 <= refs s k /\ 1 <= cnt s k < 2 ^ 64.
Proof.
  intros Hok Hp Hs. pose proof (fd_ok_table _ _ _ _ Hok Hp) as (_ & _ & _ & Hrange).
  assert (Some k ∈ table t) as Hin.
  { unfold zlookup in Hs. destruct (fd <? 0); [done|]. by eapply list_elem_of_lookup_2. }
  pose proof Hok as (_ & _ & _ & _ & Hr). destruct (Hr k).
  pose proof (slot_refs_elem _ _ Hin). pose proof (refs_in_ge k (fds s) t ltac:(by eapply list_elem_of_lookup_2)).
  unfold refs in *. split; [eauto|]. lia.
Qed.

Lemma fill_fd_ok pend s p t fd k vp fl :
  fd_ok (bump pend k) s -> (forall j, 0 <= pend j) -> 0 <= k < SYSTEM_FD_TABLE_SIZE ->
  fds s !! p = Some t -> (table t).[fd] = Some None ->
  exists s' f l, fill_fd s p fd k vp fl = Some s' /\ fd_ok pend s' /\
    fds s' = <[p := set_table t l]> (fds s) /\ l.[fd] = Some (Some k) /\
    (system_fd_table s').[k] = Some f /\ vnode f = vp.
Proof.
  intros Hok Hpend Hk Hp Hslot. pose proof Hok as (Hl & Hlk & Hst & Hf & Hr).
  pose proof (fd_ok_table _ _ _ _ Hok Hp) as Ht. unfold fill_fd.
  destruct (zlookup_lt_Some (system_fd_table s) k) as [f Hfk]; [lia|]. rewrite Hfk. orun.
  destruct (zstore _ k _) as [sys|] eqn:Hs; [|rewrite zstore_lt in Hs; [done|lia]]. orun.
  rewrite Hp. orun. pose proof (zlookup_Some_lt _ _ _ Hslot).
  destruct (zstore (table t) fd (Some k)) as [l|] eqn:Hst2; [|rewrite zstore_lt in Hst2; [done|lia]]. orun.
  pose proof (zlookup_zstore _ _ _ _ k Hs) as Hz. rewrite Z.eqb_refl in Hz.
  pose proof (zlookup_zstore _ _ _ _ fd Hst2) as Hz2. rewrite Z.eqb_refl in Hz2.
  eexists _, _, l. split; [reflexivity|]. split; [|split_and!; simpl; eauto; done].
  eapply (fd_ok_upd (bump pend k) pend s _ p t (set_table t l)); eauto; simpl; auto.
  - eapply table_ok_store; eauto. intros ? [= <-]. done.
  - by rewrite (zstore_len _ _ _ _ Hs).
  - intros j. rewrite (slot_refs_store j _ _ _ _ _ Hslot Hst2).
    assert (cnt (upd_fds (set_sys s sys) p (set_table t l)) j = cnt s j) as ->.
    { unfold cnt. simpl. rewrite (cnt_in_store _ _ _ _ _ Hs). simpl.
      destruct (Z.eqb_spec j k) as [->|]; [|done]. unfold cnt_in. by rewrite Hfk. }
    specialize (Hpend j). destruct (Hr j). unfold bump, hit in *. simpl.
    destruct (Z.eqb_spec j k) as [->|]; repeat case_decide; simplify_eq; lia.
Qed.

(** Closing a descriptor gives up exactly one reference; the entry is released
    exactly when it was the last one counted. *)
Lemma close_ok pend s p t fd k :
  fd_ok pend s -> fds s !! p = Some t -> (table t).[fd] = Some (Some k) ->
  exists s' f l, free_altprocfd s p fd = Some s' /\ fd_ok pend s' /\
    fds s' = <[p := set_table t l]> (fds s) /\ l.[fd] = Some None /\
    (forall j, cnt s' j = cnt s j - (if j =? k then 1 else 0)) /\
    (forall j, refs s' j = refs s j - (if j =? k then 1 else 0)) /\
    (system_fd_table s).[k] = Some f /\
    if cnt s k =? 1 then unrefs s' = unrefs s ++ [vnode f] /\ (system_fd_table s').[k] = Some zero_fd
    else unrefs s' = unrefs s /\ (system_fd_table s').[k] = Some (set_count f (count f - 1)).
Proof.
  intros Hok Hp Hslot. pose proof Hok as (Hl & Hlk & Hst & Hf & Hr).
  destruct (slot_in_range _ _ _ _ _ _ Hok Hp Hslot) as (Hk & Hrk & Hck).
  pose proof (fd_ok_table _ _ _ _ Hok Hp) as Ht.
  unfold free_altprocfd, spinlock_acquire. rewrite Hp. orun. rewrite Hslot. orun. rewrite Hlk. orun.
  pose proof (zlookup_Some_lt _ _ _ Hslot).
  destruct (zstore (table t) fd None) as [l|] eqn:Hst2; [|rewrite zstore_lt in Hst2; [done|lia]]. orun.
  pose proof (zlookup_zstore _ _ _ _ fd Hst2) as Hz2. rewrite Z.eqb_refl in Hz2.
  destruct (release_entry_spec (upd_fds (set_fd_lock s true) p (set_table t l)) k)
    as (s' & -> & Hfds & _ & Hl' & Hst' & Hcnt & f & Hfk & Hrel); auto.
  simpl in *. orun.
  assert (forall j, slot_refs j l = slot_refs j (table t) - (if j =? k then 1 else 0)) as Hsr.
  { intros j. rewrite (slot_refs_store j _ _ _ _ _ Hslot Hst2). unfold hit.
    destruct (Z.eqb_spec j k); repeat case_decide; simplify_eq; lia. }
  assert (forall j, cnt (spinlock_release s') j = cnt s j - (if j =? k then 1 else 0)) as Hcnt' by apply Hcnt.
  eexists _, f, l. split; [reflexivity|]. split_and!; auto.
  - eapply (fd_ok_upd pend pend s _ p t (set_table t l)); eauto; simpl; auto.
    + eapply table_ok_store; eauto. done.
    + intros j. rewrite Hcnt'. simpl. rewrite Hsr. destruct (Hr j), (j =? k); lia.
  - intros j. unfold refs. simpl. rewrite Hfds, (refs_in_insert j _ p t) by done. simpl. rewrite Hsr. lia.
Qed.

(** A descriptor to entry [k] is stored over slot [i] of a table that was at
    most extended, and takes a reference. *)
Lemma store_ref_ok pend s p t t1 i k l f sys :
  fd_ok pend s -> fds s !! p = Some t -> table_ok t1 ->
  (exists n, table t1 = table t ++ replicate n None) ->
  0 <= k < SYSTEM_FD_TABLE_SIZE -> cnt s k + 1 < 2 ^ 64 ->
  (table t1).[i <- Some k] = Some l -> (system_fd_table s).[k] = Some f ->
  (system_fd_table s).[k <- set_count f (u64 (count f + 1))] = Some sys ->
  fd_ok pend (upd_fds (set_sys s sys) p (set_table t1 l)) /\
  forall j, cnt_in sys j = cnt s j + (if j =? k then 1 else 0).
Proof.
  intros Hok Hp Ht1 [n Hn] Hk Hc Hst Hfk Hs. pose proof Hok as (Hl & Hlk & Hstart & Hf & Hr).
  assert (cnt s k = count f) as Hcf by (unfold cnt, cnt_in; by rewrite Hfk).
  assert (forall j, cnt_in sys j = cnt s j + (if j =? k then 1 else 0)) as Hcnt.
  { intros j. rewrite (cnt_in_store _ _ _ _ _ Hs). simpl. fold (cnt s j).
    destruct (Hr k). pose proof (refs_in_nonneg k (fds s)). unfold refs in *.
    rewrite wrap_small by lia. destruct (Z.eqb_spec j k) as [->|]; lia. }
  split; [|done].
  eapply (fd_ok_upd pend pend s _ p t (set_table t1 l)); eauto; simpl; auto.
  - eapply table_ok_store; eauto. intros ? [= <-]. done.
  - by rewrite (zstore_len _ _ _ _ Hs).
  - intros j. unfold cnt at 1 2. simpl. rewrite Hcnt. destruct (Hr j).
    pose proof (zstore_Some _ _ _ _ Hst) as [Hi _].
    destruct (zlookup_lt_Some (table t1) i Hi) as [old Hold].
    rewrite (slot_refs_store j _ _ _ _ _ Hold Hst), Hn, slot_refs_app, slot_refs_none.
    pose proof (hit_range j old). unfold hit in *.
    destruct (Z.eqb_spec j k) as [->|]; repeat case_decide; simplify_eq; lia.
Qed.

Lemma file_fd_slot s p t fd k :
  fds s !! p = Some t -> file_fd s p fd = Some (Ok k) -> (table t).[fd] = Some (Some k).
Proof.
  intros Hp. unfold file_fd. rewrite Hp. orun. destruct (_ || _); [done|].
  destruct ((table t).[fd]) as [[k'|]|]; orun; intros; by simplify_eq.
Qed.

Lemma ref_slots_spec l sys :
  (forall k, Some k ∈ l -> 0 <= k < zlen sys) -> (forall k, 0 <= cnt_in sys k) ->
  (forall k, cnt_in sys k + slot_refs k l < 2 ^ 64) ->
  exists sys', ref_slots l sys = Some sys' /\ zlen sys' = zlen sys /\
    forall k, cnt_in sys' k = cnt_in sys k + slot_refs k l.
Proof.
  revert sys. induction l as [|[k|] l IH]; intros sys Hr Hpos Hc; cbn [ref_slots].
  - exists sys. split_and!; auto. intros k. simpl. lia.
  - destruct (zlookup_lt_Some sys k) as [f Hf]; [apply Hr; left|]. rewrite Hf. orun.
    destruct (zstore sys k _) as [sys1|] eqn:Hs;
      [|rewrite zstore_lt in Hs; [done|by eapply zlookup_Some_lt]]. orun.
    assert (forall j, cnt_in sys1 j = cnt_in sys j + hit j (Some k)) as H1.
    { intros j. rewrite (cnt_in_store _ _ _ _ _ Hs). simpl.
      assert (cnt_in sys k = count f) as Hcf by (unfold cnt_in; by rewrite Hf).
      specialize (Hpos k). specialize (Hc k). simpl in Hc. pose proof (slot_refs_nonneg k l).
      unfold hit in *. rewrite decide_True in Hc by done. rewrite wrap_small by lia.
      destruct (Z.eqb_spec j k) as [->|]; case_decide; simplify_eq; lia. }
    destruct (IH sys1) as (sys' & Hrun & Hl & Hcnt).
    + intros j Hj. rewrite (zstore_len _ _ _ _ Hs). apply Hr. by right.
    + intros j. rewrite H1. pose proof (hit_range j (Some k)). specialize (Hpos j). lia.
    + intros j. rewrite H1. specialize (Hc j). simpl in Hc. lia.
    + exists sys'. split_and!; auto; [by rewrite Hl, (zstore_len _ _ _ _ Hs)|].
      intros j. rewrite Hcnt, H1. simpl. lia.
  - destruct (IH sys) as (sys' & Hrun & Hl & Hcnt); auto.
    + intros j Hj. apply Hr. by right.
    + exists sys'. auto.
Qed.

Lemma fork_ok pend s p t :
  fd_ok pend s -> fds s !! p = Some t -> (forall k, cnt s k + slot_refs k (table t) < 2 ^ 64) ->
  exists s', fork_fds s p = Some s' /\ fd_ok pend s' /\
    fds s' = fds s ++ [t] /\ forall k, cnt s' k = cnt s k + slot_refs k (table t).
Proof.
  intros Hok Hp Hc. pose proof Hok as (Hl & Hlk & Hst & Hf & Hr).
  pose proof (fd_ok_table _ _ _ _ Hok Hp) as Ht. pose proof Ht as (Htl & Hcu & Hts & Hrange).
  unfold fork_fds. rewrite Hp. orun. unfold zlen in Htl. rewrite take_ge by lia.
  destruct (ref_slots_spec (table t) (system_fd_table s)) as (sys & -> & Hsl & Hcnt); auto.
  { intros k Hk. rewrite Hl. eauto. }
  { intros k. destruct (Hr k). pose proof (refs_in_nonneg k (fds s)). unfold refs, cnt in *. lia. }
  orun. assert (mk_fd_table (table t) (curr t) (size t) (max_size t) = t) as -> by (by destruct t).
  eexists. split; [reflexivity|]. unfold fd_ok. split_and!; auto; simpl; try lia.
  - apply Forall_app. split; [done|]. by constructor.
  - intros k. unfold refs, cnt. simpl. rewrite Hcnt, refs_in_app. simpl.
    destruct (Hr k). specialize (Hc k). unfold refs, cnt in *. lia.
Qed.

(** ** Histories

    One step is what a system call of process [p] does to the tables: an open
    reserves a system entry and a descriptor and either fills them in with a
    vnode and flags or gives them back, [ExitFd] is one round of the loop of
    [process_free]. *)

Inductive fd_op :=
| OpenFile (p : nat) (o : mem) (file : option (Z * Z))
| CloseFd (p : nat) (fd : Z)
| ExitFd (p : nat) (fd : Z)
| Fcntl (p : nat) (fd : Z) (cmd : fcntl_cmd) (arg : Z) (o : mem)
| ForkFds (p : nat).

Definition run_op (s : fd_state) (op : fd_op) : option fd_state :=
  match op with
  | OpenFile p o file =>
      '(k, s) ← alloc_fd s;
      if k =? -1 then Some s else
      '(r, s, _) ← alloc_procfd s p o;
      match r, file with
      | Err _, _ => free_fd s k
      | Ok fd, Some (vp, fl) => fill_fd s p fd k vp fl
      | Ok fd, None => s ← free_procfd s p fd; free_fd s k
      end
  | CloseFd p fd => '(_, s) ← sys_close s p fd; Some s
  | ExitFd p fd => free_altprocfd s p fd
  | Fcntl p fd cmd arg o => '(_, s, _) ← sys_fcntl s p fd cmd arg o; Some s
  | ForkFds p => fork_fds s p
  end.

Definition op_proc (op : fd_op) : nat :=
  match op with
  | OpenFile p _ _ | CloseFd p _ | ExitFd p _ | Fcntl p _ _ _ _ | ForkFds p => p
  end.

(** A duplication to [arg] or above is safe when the number is below the limit of
    the process and the table has a free slot there, or ends before it, or cannot
    grow. *)
Definition dup_ok (t : fd_table) (arg : Z) : Prop :=
  0 <= arg < max_size t /\
  (size t <= arg \/ size t = max_size t \/ exists j, arg <= j < size t /\ (table t).[j] = Some None).

(** The process exists, exit closes slots of its table, and no count reaches 2^64. *)
Definition op_ok (s : fd_state) (op : fd_op) : Prop :=
  exists t, fds s !! op_proc op = Some t /\
  match op with
  | ExitFd _ fd => 0 <= fd < size t
  | Fcntl _ _ cmd arg _ => (forall k, cnt s k + 1 < 2 ^ 64) /\ (cmd = F_DUPFD -> dup_ok t arg)
  | ForkFds _ => forall k, cnt s k + slot_refs k (table t) < 2 ^ 64
  | _ => True
  end.

Definition fd_step (s s' : fd_state) : Prop := exists op, op_ok s op /\ run_op s op = Some s'.

Abbreviation none_pending := (fun _ : Z => 0).

Lemma file_fd_total pend s p t fd :
  fd_ok pend s -> fds s !! p = Some t ->
  exists r, file_fd s p fd = Some r /\
    match r with Ok k => (table t).[fd] = Some (Some k) | Err e => e = EBADF end.
Proof.
  intros Hok Hp. pose proof (fd_ok_table _ _ _ _ Hok Hp) as (Hl & _).
  unfold file_fd. rewrite Hp. orun. destruct (Z.ltb_spec fd 0), (Z.leb_spec (size t) fd); cbn [orb];
    try (by exists (Err EBADF)).
  destruct (zlookup_lt_Some (table t) fd) as [[k|] Hk]; [lia|..]; rewrite Hk; orun;
    [by exists (Ok k)|by exists (Err EBADF)].
Qed.

Lemma close_slot_ok pend s p t fd slot :
  fd_ok pend s -> fds s !! p = Some t -> (table t).[fd] = Some slot ->
  exists s', free_altprocfd s p fd = Some s' /\ fd_ok pend s'.
Proof.
  intros Hok Hp Hs. destruct slot as [k|].
  - destruct (close_ok _ _ _ _ _ _ Hok Hp Hs) as (s' & _ & _ & ? & ? & _). eauto.
  - unfold free_altprocfd. rewrite Hp. orun. rewrite Hs. orun. eauto.
Qed.

Lemma open_runs s p t o file :
  fd_ok none_pending s -> fds s !! p = Some t ->
  exists s', run_op s (OpenFile p o file) = Some s' /\ fd_ok none_pending s'.
Proof.
  intros Hok Hp. cbn [run_op].
  destruct (alloc_fd_ok _ s Hok) as (k & s1 & -> & Hfds & _ & Hk). orun.
  destruct Hk as [[-> Hok1]|(Hk & _ & _ & _ & Hok1)]; [rewrite Z.eqb_refl; eauto|].
  destruct (Z.eqb_spec k (-1)); [lia|]. rewrite <- Hfds in Hp.
  destruct (alloc_procfd_ok _ s1 p t o Hok1 Hp) as (r & s2 & o2 & t' & -> & Hok2 & _ & _ & _ & Hf2 & _ & Hr). orun.
  destruct r as [fd|e]; [|by apply free_fd_ok]. destruct Hr as [_ Hn].
  assert (fds s2 !! p = Some t') as Hp2 by (rewrite Hf2; apply list_lookup_insert_eq; by eapply lookup_lt_Some).
  destruct file as [[vp fl]|].
  - destruct (fill_fd_ok none_pending s2 p t' fd k vp fl) as (s' & ? & ? & -> & ? & _); eauto. done.
  - destruct (close_slot_ok _ s2 p t' fd None Hok2 Hp2 Hn) as (s3 & E & Hok3).
    unfold free_procfd. rewrite E. orun. by apply free_fd_ok.
Qed.

Lemma dup_store_ok s p t t1 i k (o : mem) :
  fd_ok none_pending s -> fds s !! p = Some t -> table_ok t1 ->
  (exists n, table t1 = table t ++ replicate n None) -> 0 <= i < size t1 ->
  0 <= k < SYSTEM_FD_TABLE_SIZE -> cnt s k + 1 < 2 ^ 64 ->
  exists s', (l ← (table t1).[i <- Some k]; f ← (system_fd_table s).[k];
     sys ← (system_fd_table s).[k <- set_count f (u64 (count f + 1))];
     Some (Ok 0, upd_fds (set_sys s sys) p (set_table t1 l), o)) = Some (Ok 0, s', o) /\ fd_ok none_pending s'.
Proof.
  intros Hok Hp Ht1 Hn Hi Hk Hc. pose proof Hok as (Hsl & _). pose proof Ht1 as (Hl1 & _).
  destruct (zstore (table t1) i (Some k)) as [l|] eqn:E1; [|rewrite zstore_lt in E1; [done|lia]]. orun.
  destruct (zlookup_lt_Some (system_fd_table s) k) as [f Hf]; [lia|]. rewrite Hf. orun.
  destruct (zstore (system_fd_table s) k _) as [sys|] eqn:E3; [|rewrite zstore_lt in E3; [done|lia]]. orun.
  eexists. split; [done|]. by eapply store_ref_ok.
Qed.

Lemma dupfd_runs s p t fd arg o :
  fd_ok none_pending s -> fds s !! p = Some t -> (forall k, cnt s k + 1 < 2 ^ 64) -> dup_ok t arg ->
  exists r s' o', dupfd s p fd arg o = Some (r, s', o') /\ fd_ok none_pending s'.
Proof.
  intros Hok Hp Hroom [Ha Hcase]. pose proof (fd_ok_table _ _ _ _ Hok Hp) as Ht. pose proof Ht as (Hl & Hc & Hm & _).
  unfold dupfd. destruct (file_fd_total _ s p t fd Hok Hp) as ([k|e] & -> & Hr); orun; [|by eauto].
  destruct (slot_in_range _ _ _ _ _ _ Hok Hp Hr) as (Hk & _ & _). rewrite Hp. orun.
  rewrite (wrap_small 64 arg) by lia.
  destruct (scan_slots_spec (Z.to_nat (size t - arg)) (table t) arg (size t))
    as (found & i & -> & Hi & Hin & Hset & Hfin); [lia..|]. orun. destruct found; orun.
  - destruct Hfin as [Hfin _]. destruct (dup_store_ok s p t t i k o Hok Hp Ht) as (s' & -> & ?); eauto; [|lia].
    exists O. by rewrite app_nil_r.
  - destruct (Z.ltb_spec (size t) (max_size t)); orun; [|by eauto].
    destruct (malloc o) as [[ok o1]|] eqn:Em; [|by destruct o]. orun. destruct ok; cbn [negb]; orun; [|by eauto].
    assert (size t <= arg) as Hsz.
    { destruct Hcase as [?|[?|(j & Hj & Hjn)]]; [done|lia|].
      destruct (Hset j ltac:(lia)) as [x Hx]. congruence. }
    rewrite (wrap_small 64 (arg + 1)) by lia.
    destruct (next64_p2_least (arg + 1)) as (q & _ & -> & Hq & _); [lia|].
    set (n := if max_size t <? 2 ^ q then _ else _).
    assert (arg < n <= max_size t) as Hn by (unfold n; destruct (Z.ltb_spec (max_size t) (2 ^ q)); lia).
    destruct (resize_table_ok t n Ht ltac:(lia)) as (l & -> & Hleq & Htl). orun.
    destruct (dup_store_ok s p t (set_size (set_table t l) n) arg k o1 Hok Hp Htl) as (s' & -> & ?); simpl; eauto. lia.
Qed.

Lemma fcntl_runs s p t fd cmd arg o :
  fd_ok none_pending s -> fds s !! p = Some t -> (forall k, cnt s k + 1 < 2 ^ 64) ->
  (cmd = F_DUPFD -> dup_ok t arg) ->
  exists r s' o', sys_fcntl s p fd cmd arg o = Some (r, s', o') /\ fd_ok none_pending s'.
Proof.
  intros Hok Hp Hroom Hdup. unfold sys_fcntl.
  destruct (file_fd_total _ s p t fd Hok Hp) as ([k|e] & -> & Hr); orun; [|by eauto].
  destruct (slot_in_range _ _ _ _ _ _ Hok Hp Hr) as (Hk & _ & _). pose proof Hok as (Hl & Hlk & Hst & Hf & Hrf).
  destruct (zlookup_lt_Some (system_fd_table s) k) as [f Hfk]; [lia|]. rewrite Hfk. orun.
  assert (forall fl, exists s', (sys ← (system_fd_table s).[k <- set_flags f fl];
      Some (Ok 0, set_sys s sys, o)) = Some (Ok 0, s', o) /\ fd_ok none_pending s') as Hset.
  { intros fl. destruct (zstore _ k _) as [sys|] eqn:Hs; [|rewrite zstore_lt in Hs; [done|lia]]. orun.
    eexists. split; [done|]. eapply fd_ok_sys; eauto; simpl; [by rewrite (zstore_len _ _ _ _ Hs)|]. intros j.
    assert (cnt (set_sys s sys) j = cnt s j) as ->.
    { unfold cnt. simpl. rewrite (cnt_in_store _ _ _ _ _ Hs). simpl.
      destruct (Z.eqb_spec j k) as [->|]; [|done]. unfold cnt_in. by rewrite Hfk. }
    destruct (Hrf j). lia. }
  destruct cmd; eauto; [by eapply dupfd_runs; eauto|..];
    destruct (Hset (Z.lor (Z.land (flags f) O_ACCMODE) (Z.land arg (Z.lnot O_ACCMODE)))) as (s' & -> & ?); eauto.
Qed.

(** Every permitted operation returns and keeps the tables consistent. *)
Lemma fd_run_op_ok s op :
  fd_ok none_pending s -> op_ok s op -> exists s', run_op s op = Some s' /\ fd_ok none_pending s'.
Proof.
  intros Hok (t & Hp & Hop). destruct op as [p o file|p fd|p fd|p fd cmd arg o|p]; cbn [op_proc] in *.
  - by eapply open_runs.
  - cbn [run_op]. unfold sys_close. destruct (file_fd_total _ s p t fd Hok Hp) as ([k|e] & -> & Hr); orun; [|by eauto].
    destruct (close_slot_ok _ s p t fd _ Hok Hp Hr) as (s' & E & ?). unfold free_procfd. rewrite E. orun. eauto.
  - pose proof (fd_ok_table _ _ _ _ Hok Hp) as (Hl & _).
    destruct (zlookup_lt_Some (table t) fd) as [slot Hs]; [lia|]. by eapply close_slot_ok.
  - cbn [run_op]. destruct Hop as [Hroom Hdup].
    destruct (fcntl_runs s p t fd cmd arg o Hok Hp Hroom Hdup) as (r & s' & o' & -> & ?). orun. eauto.
  - destruct (fork_ok _ _ _ _ Hok Hp Hop) as (s' & ? & ? & _). eauto.
Qed.

Lemma fd_step_ok s s' : fd_step s s' -> fd_ok none_pending s -> fd_ok none_pending s'.
Proof. intros (op & Hop & Hrun) Hok. destruct (fd_run_op_ok s op Hok Hop) as (s2 & ? & ?). congruence. Qed.

(** ** Theorems *)

(** C26: descriptors never dangle. In every history of opens, closes, fcntl
    calls, forks and exits, each descriptor of each process refers to a system
    entry whose count is at least the number of descriptors that refer to it, an
    entry handed out for a new file is one no descriptor refers to, and every
    further operation returns. The histories are restricted by [op_ok]: the
    calling process exists, no reference count reaches 2^64, and a duplication by
    fcntl asks for a number below the limit of the process for which the table has
    a free slot, ends before it, or is as large as it may be. (Other duplications
    overrun the table, [dupfd_shrinks_table] and [dupfd_past_limit] below.) *)
Theorem descriptors_never_dangle s0 s :
  fd_ok none_pending s0 -> rtc fd_step s0 s ->
  (forall p t fd k, fds s !! p = Some t -> (table t).[fd] = Some (Some k) ->
     exists f, (system_fd_table s).[k] = Some f /\ 1 <= refs s k <= count f) /\
  (forall k s', alloc_fd s = Some (k, s') -> k <> -1 -> refs s k = 0) /\
  (forall op, op_ok s op -> exists s', run_op s op = Some s').
Proof.
  intros Hok0 Hrtc. pose proof (rtc_invariant _ _ fd_step_ok _ _ Hrtc Hok0) as Hok. split_and!.
  - intros p t fd k Hp Hslot. destruct (slot_in_range _ _ _ _ _ _ Hok Hp Hslot) as (Hk & Hr & Hc).
    pose proof Hok as (Hl & _ & _ & _ & Hrf). destruct (Hrf k).
    destruct (zlookup_lt_Some (system_fd_table s) k) as [f Hf]; [lia|]. exists f. split; [done|].
    assert (cnt s k = count f) by (unfold cnt, cnt_in; by rewrite Hf). lia.
  - intros k s' Ha Hk. destruct (alloc_fd_ok _ s Hok) as (r & s2 & Ha' & _ & _ & Hr).
    rewrite Ha in Ha'. simplify_eq. naive_solver.
  - intros op Hop. destruct (fd_run_op_ok s op Hok Hop) as (s' & ? & _). eauto.
Qed.

(** Closing a descriptor removes exactly one reference. The vnode is released
    and the system entry cleared exactly when the count reaches zero; otherwise
    the entry keeps its contents, with the count one lower. *)
Theorem close_releases_last s p t fd k :
  fd_ok none_pending s -> fds s !! p = Some t -> (table t).[fd] = Some (Some k) ->
  exists s' f, free_procfd s p fd = Some s' /\ fd_ok none_pending s' /\
    (system_fd_table s).[k] = Some f /\
    (forall j, refs s' j = refs s j - (if j =? k then 1 else 0)) /\
    if count f =? 1 then unrefs s' = unrefs s ++ [vnode f] /\ (system_fd_table s').[k] = Some zero_fd
    else unrefs s' = unrefs s /\ (system_fd_table s').[k] = Some (set_count f (count f - 1)).
Proof.
  intros Hok Hp Hslot.
  destruct (close_ok _ _ _ _ _ _ Hok Hp Hslot) as (s' & f & l & Hc & Hok' & _ & _ & _ & Hr & Hf & Hrel).
  exists s', f. split_and!; auto.
  assert (cnt s k = count f) as Hcf by (unfold cnt, cnt_in; by rewrite Hf). by rewrite Hcf in Hrel.
Qed.

(** Duplicating an open descriptor stores it in the lowest empty slot at or
    above the requested one, when the table has one, adds one reference, and
    leaves every other slot alone. *)
Theorem dupfd_lowest s p t fd fd2 k o j :
  fd_ok none_pending s -> fds s !! p = Some t -> 0 <= fd < size t -> (table t).[fd] = Some (Some k) ->
  0 <= fd2 -> fd2 <= j < size t -> (table t).[j] = Some None -> cnt s k + 1 < 2 ^ 64 ->
  exists i s' l, dupfd s p fd fd2 o = Some (Ok 0, s', o) /\ fd_ok none_pending s' /\
    fd2 <= i <= j /\ (forall x, fd2 <= x < i -> (table t).[x] <> Some None) /\
    fds s' = <[p := set_table t l]> (fds s) /\
    (forall x, l.[x] = if x =? i then Some (Some k) else (table t).[x]) /\
    (forall x, cnt s' x = cnt s x + (if x =? k then 1 else 0)).
Proof.
  intros Hok Hp Hfd Hslot Hfd2 Hj Hempty Hroom.
  pose proof (fd_ok_table _ _ _ _ Hok Hp) as Ht. pose proof Ht as (Hl & Hc & Hs & Hr).
  destruct (slot_in_range _ _ _ _ _ _ Hok Hp Hslot) as (Hk & _ & _).
  assert (file_fd s p fd = Some (Ok k)) as Hfile.
  { unfold file_fd. rewrite Hp. orun. destruct (Z.ltb_spec fd 0), (Z.leb_spec (size t) fd); try lia.
    simpl. by rewrite Hslot. }
  unfold dupfd. rewrite Hfile. orun. rewrite Hp. orun. rewrite (wrap_small 64 fd2) by lia.
  destruct (scan_slots_spec (Z.to_nat (size t - fd2)) (table t) fd2 (size t))
    as (found & i & -> & Hi & _ & Hset & Hfin); [lia..|]. orun.
  assert (i <= j) as Hij.
  { destruct (Z.leb_spec i j); [done|]. destruct (Hset j) as [? Hx]; [lia|]. congruence. }
  destruct found; [|lia]. destruct Hfin as [Hin Hnone]. orun.
  destruct (zstore (table t) i (Some k)) as [l|] eqn:E1; [|rewrite zstore_lt in E1; [done|lia]]. orun.
  pose proof Hok as (Hsl & _). destruct (zlookup_lt_Some (system_fd_table s) k) as [f Hf]; [lia|].
  rewrite Hf. orun.
  destruct (zstore (system_fd_table s) k _) as [sys|] eqn:E3; [|rewrite zstore_lt in E3; [done|lia]]. orun.
  destruct (store_ref_ok _ s p t t i k l f sys Hok Hp Ht) as [Hok' Hcnt]; auto.
  { exists O. by rewrite app_nil_r. }
  eexists i, _, l. split; [reflexivity|]. split_and!; auto.
  - intros x Hx Hn. destruct (Hset x Hx) as [? Hx']. congruence.
  - intros x. by rewrite (zlookup_zstore _ _ _ _ x E1).
Qed.

(** *** Concrete states *)

(** One process with a table of [length l] slots, up to twice as many allowed;
    system entry 0 has [n] references and the others are free. *)
Definition demo_fds (l : list (option Z)) (n : Z) : fd_state :=
  mk_fd_state (mk_fd 77 0 0 0 n :: replicate (Z.to_nat 65535) zero_fd) 0 false
    [mk_fd_table l 0 (zlen l) (2 * zlen l)] [].

Lemma demo_cnt l n k : cnt (demo_fds l n) k = if k =? 0 then n else 0.
Proof.
  unfold cnt, cnt_in, demo_fds. cbn [system_fd_table]. generalize (Z.to_nat 65535). intros m.
  destruct (Z.eqb_spec k 0) as [->|]; [done|]. unfold zlookup.
  destruct (Z.ltb_spec k 0); [done|]. replace (Z.to_nat k) with (S (Z.to_nat (k - 1))) by lia.
  simpl. destruct (replicate m zero_fd !! _) eqn:E; [|done]. by apply lookup_replicate in E as [-> _].
Qed.

Lemma demo_ok l n :
  Forall (fun slot => slot = None \/ slot = Some 0) l -> zlen l < 2 ^ 30 -> slot_refs 0 l <= n < 2 ^ 64 ->
  fd_ok none_pending (demo_fds l n).
Proof.
  intros Hl Hz Hn. pose proof (zlen_nonneg l).
  split; [|split; [reflexivity|split; [cbn; lia|split]]].
  - unfold demo_fds. cbn [system_fd_table]. rewrite zlen_cons, zlen_replicate. lia.
  - apply Forall_singleton. split_and!; cbn [table size curr max_size]; try lia.
    intros k Hk. rewrite Forall_forall in Hl.
    destruct (Hl _ Hk) as [?|[= ->]]; [done|lia].
  - intros k. rewrite demo_cnt. unfold refs, refs_in. cbn [demo_fds fds foldr table].
    destruct (Z.eqb_spec k 0) as [->|Hk]; [lia|].
    assert (slot_refs k l = 0) as ->; [|lia].
    clear -Hl Hk. induction Hl as [|slot l Hs _ IH]; [done|]. simpl. rewrite IH.
    unfold hit. rewrite decide_False; [done|]. destruct Hs as [->| ->]; congruence.
Qed.

Lemma demo_one_ok : fd_ok none_pending (demo_fds [Some 0; None] 1).
Proof.
  apply demo_ok; [|vm_compute; reflexivity|vm_compute; split; [discriminate|reflexivity]].
  constructor; [by right|]. constructor; [by left|constructor].
Qed.

(** A descriptor is duplicated and the process forks. *)
Lemma dup_then_fork :
  exists s1 s, run_op (demo_fds [Some 0; None] 1) (Fcntl 0 0 F_DUPFD 1 []) = Some s1 /\
    run_op s1 (ForkFds 0) = Some s /\ op_ok s1 (ForkFds 0) /\
    exists t, fds s !! 1%nat = Some t /\ (table t).[1] = Some (Some 0).
Proof.
  destruct (dupfd_lowest (demo_fds [Some 0; None] 1) 0 (mk_fd_table [Some 0; None] 0 2 4) 0 1 0 [] 1)
    as (i & s1 & l & E & Hok & Hi & _ & Hfds & Hl & Hc); [exact demo_one_ok|done|simpl; lia|done|lia|simpl; lia|done|rewrite demo_cnt; simpl; lia|].
  simpl in Hfds. pose proof (f_equal (fun x => x !! O) Hfds) as Hp. simpl in Hp.
  set (t1 := set_table _ l) in *.
  assert (Hroom : forall k, cnt s1 k + slot_refs k (table t1) < 2 ^ 64).
  { intros k. destruct Hok as (_ & _ & _ & _ & Hr). destruct (Hr k) as [_ Hk].
    pose proof (refs_in_ge k (fds s1) t1 ltac:(by eapply list_elem_of_lookup_2)).
    unfold refs in Hk. rewrite Hc, demo_cnt in *. destruct (k =? 0); lia. }
  destruct (fork_ok _ s1 0 t1 Hok Hp Hroom) as (s & Hf & _ & Hfs & _).
  exists s1, s. split; [|split; [exact Hf|split; [by exists t1|]]].
  - cbn [run_op]. unfold sys_fcntl. change (file_fd _ 0 0) with (Some (Ok 0)). orun. cbn [demo_fds system_fd_table].
    change ((mk_fd 77 0 0 0 1 :: replicate (Z.to_nat 65535) zero_fd).[0]) with (Some (mk_fd 77 0 0 0 1)).
    orun. by rewrite E.
  - exists t1. rewrite Hfs, Hfds. split; [done|]. cbn [t1 set_table table]. rewrite Hl.
    by replace i with 1 by lia.
Qed.

Lemma descriptors_never_dangle_witness :
  exists s1 s, run_op (demo_fds [Some 0; None] 1) (Fcntl 0 0 F_DUPFD 1 []) = Some s1 /\
    run_op s1 (ForkFds 0) = Some s /\
    exists f, (system_fd_table s).[0] = Some f /\ 1 <= refs s 0 <= count f.
Proof.
  destruct dup_then_fork as (s1 & s & E1 & E2 & Hop & t & Ht & Hslot).
  exists s1, s. split; [exact E1|]. split; [exact E2|].
  destruct (descriptors_never_dangle (demo_fds [Some 0; None] 1) s) as [H _].
  - exact demo_one_ok.
  - apply (rtc_l _ _ s1); [|apply rtc_once; exists (ForkFds 0); split; [exact Hop|exact E2]].
    exists (Fcntl 0 0 F_DUPFD 1 []). split; [|exact E1].
    exists (mk_fd_table [Some 0; None] 0 2 4). split; [reflexivity|]. split.
    + intros k. rewrite demo_cnt. destruct (k =? 0); lia.
    + intros _. split; [simpl; lia|]. right. right. exists 1. split; [simpl; lia|reflexivity].
  - exact (H 1%nat t 1 0 Ht Hslot).
Defined.

Lemma close_releases_last_witness :
  exists s' f, free_procfd (demo_fds [Some 0; None] 1) 0 0 = Some s' /\
    (system_fd_table (demo_fds [Some 0; None] 1)).[0] = Some f /\ count f = 1 /\
    unrefs s' = [77].
Proof.
  destruct (close_releases_last (demo_fds [Some 0; None] 1) 0 (mk_fd_table [Some 0; None] 0 2 4) 0 0)
    as (s' & f & H1 & _ & H2 & _ & H3).
  - exact demo_one_ok.
  - reflexivity.
  - reflexivity.
  - exists s', f. assert (E : f = mk_fd 77 0 0 0 1) by (vm_compute in H2; congruence).
    rewrite E in H3 |- *. destruct H3 as [H3 _].
    split; [exact H1|]. split; [rewrite <- E; exact H2|]. split; [reflexivity|exact H3].
Defined.

Lemma dupfd_lowest_witness :
  exists i s', dupfd (demo_fds [Some 0; None] 1) 0 0 0 [] = Some (Ok 0, s', []) /\ 0 <= i <= 1.
Proof.
  destruct (dupfd_lowest (demo_fds [Some 0; None] 1) 0 (mk_fd_table [Some 0; None] 0 2 4) 0 0 0 [] 1)
    as (i & s' & l & H1 & _ & H2 & _).
  - exact demo_one_ok.
  - reflexivity.
  - simpl. lia.
  - reflexivity.
  - lia.
  - simpl. lia.
  - reflexivity.
  - rewrite demo_cnt. simpl. lia.
  - exists i, s'. split; [exact H1 | exact H2].
Defined.

(** *** Defects the model exhibits *)

(** Closing a descriptor does not lower the search start: with every slot of
    the table empty again, the next descriptor is refused. *)
Lemma closed_fds_not_reused :
  let s := mk_fd_state [mk_fd 77 0 0 0 1] 0 false [mk_fd_table [Some 0] 1 1 1] [] in
  (s' ← free_procfd s 0 0;
   t ← fds s' !! O;
   '(r, _, _) ← alloc_procfd s' 0 [];
   Some (table t, r)) = Some ([None], Err EMFILE).
Proof. vm_compute. reflexivity. Qed.

(** [F_DUPFD] stores the duplicate in slot 2 and returns 0. *)
Lemma fcntl_dupfd_returns_zero :
  let s := mk_fd_state [mk_fd 77 0 0 0 2] 0 false [mk_fd_table [Some 0; Some 0; None] 2 3 4] [] in
  ('(r, s', _) ← sys_fcntl s 0 0 F_DUPFD 1 [];
   t ← fds s' !! O;
   Some (r, table t)) = Some (Ok 0, [Some 0; Some 0; Some 0]).
Proof. vm_compute. reflexivity. Qed.

(** With no empty slot the new size is computed from the requested descriptor
    alone: a low request shrinks the table and the length cleared wraps around. *)
Lemma dupfd_shrinks_table :
  let s := mk_fd_state [mk_fd 77 0 0 0 4] 0 false [mk_fd_table (replicate 4 (Some 0)) 4 4 8] [] in
  dupfd s 0 0 1 [] = None.
Proof. vm_compute. reflexivity. Qed.

(** A request at or above the soft limit writes outside of the table. *)
Lemma dupfd_past_limit :
  let s := mk_fd_state [mk_fd 77 0 0 0 1] 0 false [mk_fd_table [Some 0; None] 1 2 4] [] in
  dupfd s 0 0 9 [] = None.
Proof. vm_compute. reflexivity. Qed.

End FdTable.
