(* ===== verification/Mman.v ===== *)
(** * Memory mappings (kernel/mman.c)

    Module [Mman]: the table of the memory regions of a process and the calls
    that map, unmap and synchronise regions. Page tables and frames are those of
    [Paging] and [PhysMem], descriptors those of [FdTable]; reading and writing
    files is an argument, as it belongs to the file system driver. *)

From S2P Require Import Prelude CBits HashMap PhysMem Paging AddrSpace FdTable.

Module Mman.
Import CBits PhysMem Paging AddrSpace.

Abbreviation PROT_NONE := 0.
Abbreviation PROT_READ := 1.
Abbreviation PROT_WRITE := 2.
Abbreviation MAP_SHARED := 1.
Abbreviation MAP_PRIVATE := 2.
Abbreviation MAP_ANONYMOUS := 4.
Abbreviation MAP_FIXED := 64.
Abbreviation MS_ASYNC := 1.
Abbreviation MS_SYNC := 2.
Abbreviation MS_INVALIDATE := 4.
Abbreviation O_RDONLY := 0.
Abbreviation O_WRONLY := 1.
Abbreviation S_IFMT := 0xf000.
Abbreviation S_IFREG := 0x8000.
Abbreviation USER_MMAP_BASE_VMA := 0x0000400000000000.
Abbreviation USER_MEM_TOP_VMA := 0x0000800000000000.

(** [struct mmap]; the file is an index into the system table of descriptors. *)
Record mmap := mk_mmap {
  base : Z; len : Z; prot : Z; file : option Z; fd : Z; offset : Z; flags : Z
}.

Definition set_len (r : mmap) (n : Z) : mmap := mk_mmap (base r) n (prot r) (file r) (fd r) (offset r) (flags r).
Definition set_place (r : mmap) (b n o : Z) : mmap := mk_mmap b n (prot r) (file r) (fd r) o (flags r).

(** The mappings of the process, memory, descriptors, and the outcomes of
    [realloc]. *)
Record mm := mk_mm { mmaps : list mmap; memory : vm; files : FdTable.fd_state; heap : HashMap.mem }.

Definition set_mmaps (s : mm) (x : list mmap) : mm := mk_mm x (memory s) (files s) (heap s).
Definition set_memory (s : mm) (x : vm) : mm := mk_mm (mmaps s) x (files s) (heap s).
Definition set_files (s : mm) (x : FdTable.fd_state) : mm := mk_mm (mmaps s) (memory s) x (heap s).
Definition set_heap (s : mm) (x : HashMap.mem) : mm := mk_mm (mmaps s) (memory s) (files s) x.

Definition on_vm {A} (m : M vm A) : M mm A := fun s =>
  '(a, v) ← m (memory s); Some (a, set_memory s v).

(** ** Searching the table *)

(** [for (i = 0; i < mmaps->len; i++)], from the region number [i] on. *)
Fixpoint region_before (l : list mmap) (addr i : Z) : Z :=
  match l with
  | [] => i - 1
  | r :: l => if addr <=? base r then i - 1 else region_before l addr (i + 1)
  end.
Definition find_region_before (addr : Z) : M mm Z := gets (fun s => region_before (mmaps s) addr 0).

Fixpoint region_before_equal (l : list mmap) (addr i : Z) : Z :=
  match l with
  | [] => i - 1
  | r :: l => if addr <? base r then i - 1 else region_before_equal l addr (i + 1)
  end.
Definition find_region_before_equal (addr : Z) : M mm Z := gets (fun s => region_before_equal (mmaps s) addr 0).

Definition get_region (i : Z) : M mm mmap := s ← gets (fun s => s); lift ((mmaps s).[i]).
Definition put_region (i : Z) (r : mmap) : M mm unit :=
  s ← gets (fun s => s); l ← lift ((mmaps s).[i <- r]); modify (fun s => set_mmaps s l).

Section calls.
(** The number of the process, its page tables, the bound of the frame
    allocator, and the file system: mode and size of a vnode, and transfers
    between a vnode and the memory of the process. *)
Context (p : nat) (pml4t : Z) (fuel : nat).
Context (vnode_mode vnode_size : Z -> Z) (vfs_read vfs_write : Z -> Z -> Z -> Z -> M vm Z).

(** The vnode of a file. *)
Definition file_vnode (k : Z) : M mm Z := s ← gets (fun s => s);
  f ← lift ((FdTable.system_fd_table (files s)).[k]); mret (FdTable.vnode f).

(** [region->file && vfs_write (...) < 0] *)
Definition write_region (r : mmap) (addr n off : Z) : M mm bool :=
  match file r with
  | None => mret false
  | Some k => vp ← file_vnode k; ret ← on_vm (vfs_write vp addr n off); mret (ret <? 0)
  end.

Fixpoint sync_loop (n : nat) (i addr l : Z) : M mm bool :=
  s ← gets (fun s => s);
  if negb (i <? zlen (mmaps s)) then mret true else
  match n with
  | O => fault
  | S n =>
      r ← get_region i;
      if u64 (base r + len r) <=? u64 (addr + l) then
        failed ← write_region r (base r) (len r) (offset r);
        if (failed : bool) then mret false else sync_loop n (i + 1) addr l
      else if base r <? u64 (addr + l) then
        failed ← write_region r (base r) (u64 (addr + l - base r)) (offset r);
        if (failed : bool) then mret false else sync_loop n (i + 1) addr l
      else mret true
  end.

(** Whether the function succeeds. *)
Definition sync_mappings (addr l : Z) : M mm bool :=
  ri ← find_region_before addr;
  ok ← (if 0 <=? ri then
          r ← get_region ri;
          if addr <? u64 (base r + len r) then
            failed ← write_region r addr (u64 (base r + len r - addr)) (u64 (offset r + addr - base r));
            mret (negb failed)
          else mret true
        else mret true);
  if negb (ok : bool) then mret false else
  s ← gets (fun s => s);
  sync_loop (length (mmaps s)) (ri + 1) addr l.

(** [for (j = lo; j < hi; j += PAGE_SIZE)] with the body of [clear_mappings]:
    the frame is looked up after the page was unmapped. *)
Fixpoint unmap_pages (n : nat) (j : Z) : M vm bool :=
  match n with
  | O => mret true
  | S n =>
      r ← vm_unmap_page pml4t j;
      match r with
      | VmFail _ => mret false
      | VmOk => a ← vm_phys_addr pml4t j; free_page a;; unmap_pages n (u64 (j + PAGE_SIZE))
      end
  end.

(** [if (region->file) free_procfd (region->fd)] *)
Definition close_region (r : mmap) : M mm unit :=
  match file r with
  | None => mret tt
  | Some _ => s ← gets (fun s => s); f ← lift (FdTable.free_procfd (files s) p (fd r)); modify (fun s => set_files s f)
  end.

Fixpoint clear_loop (n : nat) (i addr l : Z) : M mm bool :=
  s ← gets (fun s => s);
  if negb (i <? zlen (mmaps s)) then mret true else
  match n with
  | O => fault
  | S n =>
      r ← get_region i;
      if u64 (base r + len r) <=? u64 (addr + l) then
        ok ← on_vm (unmap_pages (pages (base r) (u64 (base r + len r))) (base r));
        if negb (ok : bool) then mret false else
        close_region r;;
        modify (fun s => set_mmaps s (delete (Z.to_nat i) (mmaps s)));;
        clear_loop n i addr l
      else if base r <? u64 (addr + l) then
        let diff := u64 (addr + l - base r) in
        ok ← on_vm (unmap_pages (pages (base r) (u64 (addr + l))) (base r));
        if negb (ok : bool) then mret false else
        put_region i (set_place r (u64 (addr + l)) (u64 (len r - diff)) (u64 (offset r + diff)));;
        clear_loop n (i + 1) addr l
      else mret true
  end.

Definition clear_mappings (addr l : Z) (sync : bool) : M mm bool :=
  ok ← (if sync then sync_mappings addr l else mret true);
  if negb (ok : bool) then mret false else
  ri ← find_region_before addr;
  ok ← (if 0 <=? ri then
          r ← get_region ri;
          if addr <? u64 (base r + len r) then
            let r := set_len r (u64 (addr - base r)) in
            put_region ri r;;
            on_vm (unmap_pages (pages (u64 (base r + len r)) addr) (u64 (base r + len r)))
          else mret true
        else mret true);
  if negb (ok : bool) then mret false else
  s ← gets (fun s => s);
  clear_loop (length (mmaps s)) (ri + 1) addr l.

(** Mapping pages with new frames, which [sys_mmap] clears; the address reached,
    and whether all pages were mapped. *)
Fixpoint map_new (zero : bool) (root : Z) (n : nat) (ptr fl : Z) : M vm (Z * bool) :=
  match n with
  | O => mret (ptr, true)
  | S n =>
      page ← alloc_page fuel;
      if page =? 0 then mret (ptr, false) else
      (if zero then zero_frame page else mret tt);;
      r ← vm_map_page fuel root page ptr fl;
      match r with
      | VmFail _ => free_page page;; mret (ptr, false)
      | VmOk => map_new zero root n (u64 (ptr + PAGE_SIZE)) fl
      end
  end.

(** The loop after [err0]. *)
Fixpoint release_pages (n : nat) (cptr : Z) : M vm unit :=
  match n with
  | O => mret tt
  | S n =>
      a ← vm_phys_addr pml4t cptr;
      free_page a;;
      vm_unmap_page pml4t cptr;;
      release_pages n (u64 (cptr + PAGE_SIZE))
  end.

Definition expand_mmap (root addr l : Z) : M mm (res unit) :=
  ri ← find_region_before_equal addr;
  if ri <? 0 then mret (Err ENOMEM) else
  r ← get_region ri;
  let l := ALIGN_UP l PAGE_SIZE in
  let lo := u64 (base r + len r) in
  '(ptr, ok) ← on_vm (map_new false root (pages lo (u64 (base r + l))) lo (Z.lor PAGE_FLAG_USER PAGE_FLAG_RW));
  if ok : bool then put_region ri (set_len r l);; mret (Ok tt)
  else on_vm (release_pages (pages (base r) ptr) (base r));; mret (Err ENOMEM).

(** ** sys_mmap *)

(** The loop that looks for a gap behind region [ri]. *)
Fixpoint find_gap (n : nat) (l : list mmap) (ri size : Z) : option (Z * Z) :=
  r ← l.[ri];
  if negb (ri <? zlen l - 1) then Some (u64 (base r + len r), ri) else
  match n with
  | O => None
  | S n =>
      next ← l.[ri + 1];
      let ptr := u64 (base r + len r) in
      if size <=? u64 (base next - ptr) then Some (ptr, ri) else find_gap n l (ri + 1) size
  end.

(** The address of a mapping and its place in the table. *)
Definition choose_place (addr hint size fl : Z) : M mm (option (Z * Z)) :=
  if truthy (Z.land fl MAP_FIXED) then
    ok ← clear_mappings addr size true;
    if negb (ok : bool) then mret None else
    ri ← find_region_before hint;
    mret (Some (hint, ri + 1))
  else
    ri ← find_region_before_equal hint;
    s ← gets (fun s => s);
    if 0 <=? ri then
      '(b, ri) ← lift (find_gap (length (mmaps s)) (mmaps s) ri size);
      mret (Some (b, ri + 1))
    else mret (Some (hint, ri + 1)).

(** The file that is mapped, with the tests of descriptor and offset. *)
Definition mapped_file (fl fdn off : Z) : M mm (res (option (Z * FdTable.fd))) :=
  if truthy (Z.land fl MAP_ANONYMOUS) then mret (Ok None) else
  s ← gets (fun s => s);
  k ← lift (FdTable.file_fd (files s) p fdn);
  match k with
  | Err _ => mret (Err EBADF)
  | Ok k =>
      f ← lift ((FdTable.system_fd_table (files s)).[k]);
      let vp := FdTable.vnode f in
      if negb (Z.land (vnode_mode vp) S_IFMT =? S_IFREG) then mret (Err EACCES) else
      if (off <? 0) || (vnode_size vp <? off) || truthy (Z.land off (PAGE_SIZE - 1)) then mret (Err EINVAL)
      else mret (Ok (Some (k, f)))
  end.

(** The tests of length, access mode and flags. *)
Definition args_error (l pr fl : Z) (vp : option (Z * FdTable.fd)) : option errno :=
  if l =? 0 then Some EINVAL else
  let denied := match vp with
    | None => false
    | Some (_, f) =>
        let mode := Z.land (FdTable.flags f) FdTable.O_ACCMODE in
        negb (truthy (Z.land pr PROT_WRITE)) && (mode =? O_WRONLY)
        || negb (truthy (Z.land pr PROT_READ)) && (mode =? O_RDONLY)
    end in
  if denied then Some EACCES else
  if Bool.eqb (truthy (Z.land fl MAP_SHARED)) (truthy (Z.land fl MAP_PRIVATE)) then Some EINVAL else None.

Definition check_args (l pr fl fdn off : Z) : M mm (res (option (Z * FdTable.fd))) :=
  vp ←? mapped_file fl fdn off;
  mret (match args_error l pr fl vp with Some e => Err e | None => Ok vp end).

(** The second loop, which sets the protection. *)
Fixpoint protect_pages (n : nat) (cptr fl : Z) : M vm bool :=
  match n with
  | O => mret true
  | S n =>
      page ← vm_phys_addr pml4t cptr;
      r ← vm_map_page fuel pml4t page cptr fl;
      match r with
      | VmFail _ => mret false
      | VmOk => protect_pages n (u64 (cptr + PAGE_SIZE)) fl
      end
  end.

(** [file->count++] *)
Definition hold_file (k : option Z) : M mm unit :=
  match k with
  | None => mret tt
  | Some k =>
      s ← gets (fun s => s);
      f ← lift ((FdTable.system_fd_table (files s)).[k]);
      l ← lift ((FdTable.system_fd_table (files s)).[k <- FdTable.set_count f (u64 (FdTable.count f + 1))]);
      modify (fun s => set_files s (FdTable.set_sys (files s) l))
  end.

(** [MAP_FAILED] without an error of its own is [Err None]. *)
Inductive mmap_result := Mapped (addr : Z) | MapFailed (e : option errno).

(** The part of [sys_mmap] that follows the choice of the address [b] and the
    place [ri] in the table: [l] is the length in whole pages. *)
Definition map_region (b ri l bytes pr fl fdn off : Z) (vp : option (Z * FdTable.fd)) : M mm mmap_result :=
  if USER_MEM_TOP_VMA <=? u64 (b + l) then mret (MapFailed (Some EINVAL)) else
  let pflags := Z.lor (if pr =? PROT_NONE then 0 else PAGE_FLAG_USER)
                      (if truthy (Z.land pr PROT_WRITE) then PAGE_FLAG_RW else 0) in
  let n := pages b (u64 (b + l)) in
  '(ptr, ok) ← on_vm (map_new true pml4t n b PAGE_FLAG_RW);
  let err0 := on_vm (release_pages (pages (ALIGN_DOWN b PAGE_SIZE) ptr) (ALIGN_DOWN b PAGE_SIZE));;
              mret (MapFailed None) in
  if negb (ok : bool) then err0 else
  ret ← (match vp with None => mret 0 | Some (_, f) => on_vm (vfs_read (FdTable.vnode f) b bytes off) end);
  if ret <? 0 then mret (MapFailed None) else
  ok ← on_vm (protect_pages n b pflags);
  if negb (ok : bool) then err0 else
  s ← gets (fun s => s);
  '(ok, h) ← lift (HashMap.malloc (heap s));
  modify (fun s => set_heap s h);;
  if negb (ok : bool) then err0 else
  let r := mk_mmap b l pr (fst <$> vp) fdn off fl in
  modify (fun s => set_mmaps s (take (Z.to_nat ri) (mmaps s) ++ r :: drop (Z.to_nat ri) (mmaps s)));;
  hold_file (fst <$> vp);;
  mret (Mapped b).

Definition sys_mmap (addr l pr fl fdn off : Z) : M mm mmap_result :=
  a ← check_args l pr fl fdn off;
  match a with
  | Err e => mret (MapFailed (Some e))
  | Ok vp =>
      let bytes := l in
      let l := ALIGN_UP l PAGE_SIZE in
      if truthy addr && truthy (Z.land addr (PAGE_SIZE - 1)) then mret (MapFailed (Some EINVAL)) else
      let hint := if truthy addr then addr else USER_MMAP_BASE_VMA in
      place ← choose_place addr hint l fl;
      match place with
      | None => mret (MapFailed None)
      | Some (b, ri) => map_region b ri l bytes pr fl fdn off vp
      end
  end.

Definition sys_munmap (addr l : Z) : M mm (res bool) :=
  if truthy (Z.land addr (PAGE_SIZE - 1)) || truthy (Z.land l (PAGE_SIZE - 1)) then mret (Err EINVAL)
  else ok ← clear_mappings addr l false; mret (Ok ok).

Definition sys_msync (addr l fl : Z) : M mm (res bool) :=
  if truthy (Z.land addr (PAGE_SIZE - 1)) || truthy (Z.land fl MS_ASYNC) && truthy (Z.land fl MS_SYNC)
     || (Z.land fl (Z.lor (Z.lor MS_ASYNC MS_SYNC) MS_INVALIDATE) =? 0) then mret (Err EINVAL)
  else if truthy (Z.land fl MS_ASYNC) then mret (Err ENOTSUP)
  else ok ← sync_mappings addr l; mret (Ok ok).
End calls.

(** ** Memory of a process

    User addresses are those of the lower half. *)

Definition user (va : Z) : Prop := 0 <= va < 2 ^ 47.

Lemma user_extended va : user va -> sign_extended va = true.
Proof. intros Hu. unfold user in Hu. apply sign_extended_div; lia. Qed.

Lemma user_same_page va va' : user va -> user va' -> vpath va = vpath va' <-> va / PAGE_SIZE = va' / PAGE_SIZE.
Proof. intros H1 H2. apply same_page_path; try (by apply user_extended); unfold user in *; lia. Qed.

(** A frame in use that is not one of the page tables. *)
Definition data (v : vm) (root f : Z) : Prop :=
  0 < f < zlen (table v) /\ 0 < frame_count v f /\
  forall q t, idxs q -> tab v 4 root q = Some t -> t / PAGE_SIZE <> f.

Lemma data_grows root v v' f : grows root v v' -> data v root f -> data v' root f.
Proof.
  intros [L1 S1 C1 T1 D1] (H1 & H2 & H3). specialize (C1 f).
  split_and!; [lia|lia|lia|].
  intros q t Hq Ht E. destruct (T1 q t Hq Ht) as [Ho|Ho]; [by apply (H3 q t)|]. rewrite E in Ho. lia.
Qed.

(** Stores outside of the page tables change no translation. *)
Lemma data_write v root v' :
  space v root -> v' = set_mem v (mem v') ->
  (forall q t i, idxs q -> 0 <= i < 512 -> tab v 4 root q = Some t -> word v' (t + 8 * i) = word v (t + 8 * i)) ->
  space v' root /\ (forall q, idxs q -> tab v' 4 root q = tab v 4 root q) /\ forall va, xlate v' root va = xlate v root va.
Proof.
  intros [Hok [T1 T2]] Ev Hw.
  assert (forall q, idxs q -> tab v' 4 root q = tab v 4 root q) as Htab.
  { intros q Hq. apply (tab_agree v v' root (fun _ => False)); [|done|by intros ? ? ? []].
    intros q' t i Hi Ht _. apply Forall_app in Hi as [Hq' Hi]. apply Forall_cons in Hi as [Hi _]. by eapply Hw. }
  split_and!; [|done|].
  - split; [rewrite Ev; by apply frames_ok_mem|]. split.
    + intros q t Hq Ht. rewrite Htab in Ht by done. rewrite Ev. apply table_ok_mem. by eapply T1.
    + intros q q' t Hq Hq' H1 H2. rewrite Htab in H1, H2 by done. by eapply T2.
  - intros va. unfold xlate. destruct (sign_extended va); [|done]. apply walk_agree.
    intros k t Hk Ht. eapply Hw; [apply vpath_idxs|apply idx_range|exact Ht].
Qed.

(** Clearing a new frame. *)
Lemma zero_data v0 v root a : grows root v0 v -> space v root -> a mod PAGE_SIZE = 0 -> 0 < a ->
  data v root (a / PAGE_SIZE) -> frame_count v0 (a / PAGE_SIZE) = 0 ->
  exists v', zero_frame a v = Some (tt, v') /\ grows root v0 v' /\ space v' root /\
    (forall f, data v root f -> data v' root f) /\
    forall va, xlate v' root va = xlate v root va.
Proof.
  intros G Hsp Ha Hpos Hd Hfree. pose proof Hd as (D1 & D2 & D3). pose proof Hsp as [Hok Htr].
  assert (accessible v a PAGE_SIZE && (a mod 8 =? 0) = true) as Hacc.
  { unfold accessible. destruct Hok as [_ _ _ _ _ Hsz _ _]. destruct (Z.leb_spec 0 a), (Z.leb_spec (a + PAGE_SIZE) (mem_size v)), (Z.eqb_spec (a mod 8) 0); try done; divlia. }
  unfold zero_frame. rewrite Hacc. eexists. split; [reflexivity|]. set (v' := set_mem v _).
  assert (forall b, b mod 8 = 0 -> word v' b = if b / PAGE_SIZE =? a / PAGE_SIZE then 0 else word v b) as Hw.
  { intros b Hb. unfold v'. rewrite word_fill by (done || divlia). change (8 * Z.of_nat 512) with PAGE_SIZE.
    destruct (Z.leb_spec a b), (Z.ltb_spec b (a + PAGE_SIZE)), (Z.eqb_spec (b / PAGE_SIZE) (a / PAGE_SIZE)); cbn [andb]; try done; divlia. }
  destruct (data_write v root v' Hsp eq_refl) as (Hsp' & Htab & Hx).
  { intros q t i Hq Hi Ht. pose proof (tr_table _ _ Htr q t Hq Ht) as [K1 K2 _ _]. rewrite Hw by (by apply slot_aligned).
    destruct (Z.eqb_spec ((t + 8 * i) / PAGE_SIZE) (a / PAGE_SIZE)) as [E|]; [|done]. destruct (D3 q t Hq Ht). divlia. }
  split_and!; try done.
  - destruct G as [L1 S1 C1 T1 W1]. split; [done..| |].
    + intros q t Hq Ht. rewrite Htab in Ht by done. by apply T1.
    + intros b Hb Hc Hno. rewrite Hw by done. destruct (Z.eqb_spec (b / PAGE_SIZE) (a / PAGE_SIZE)) as [E|]; [rewrite E in Hc; lia|]. by apply W1.
  - intros f (E1 & E2 & E3). split; [done|]. split; [done|]. intros q t Hq Ht. rewrite Htab in Ht by done. by apply (E3 q t).
Qed.

(** Freeing a frame that is no page table. *)
Lemma free_data v root a : space v root -> 0 <= a < 2 ^ 64 -> data v root (a / PAGE_SIZE) ->
  exists v', free_page a v = Some (tt, v') /\ space v' root /\ counts_only v v' /\
    (forall f, frame_count v' f = if f =? a / PAGE_SIZE then Z.max 0 (frame_count v f - 1) else frame_count v f) /\
    (forall q, tab v' 4 root q = tab v 4 root q) /\ forall va, xlate v' root va = xlate v root va.
Proof.
  intros Hsp Ha (D1 & D2 & D3). pose proof Hsp as [Hok [T1 T2]].
  destruct (free_page_ok v a Hok) as (v' & H1 & Hok' & Hco & Hc & _); [divlia|lia|]. pose proof Hco as [C1 C2 C3 C4 C5].
  exists v'. split; [done|]. assert (forall q, tab v' 4 root q = tab v 4 root q) as Htab by (intros q; by apply tab_mem).
  split_and!; try done.
  - split; [done|]. split.
    + intros q t Hq Ht. rewrite Htab in Ht. destruct (T1 q t Hq Ht) as [K1 K2 K3 K4]. split; [done|done|rewrite C3; done|].
      rewrite Hc. destruct (Z.eqb_spec (t / PAGE_SIZE) (a / PAGE_SIZE)) as [E|]; [by destruct (D3 q t Hq Ht)|done].
    + intros q q' t Hq Hq'. rewrite !Htab. by apply T2.
  - intros va. unfold xlate. destruct (sign_extended va); [|done]. by apply walk_mem.
Qed.

Lemma free_grows v0 v v' root f : grows root v0 v -> counts_only v v' -> frame_count v0 f = 0 ->
  frames_ok v' -> (forall g, frame_count v' g = if g =? f then Z.max 0 (frame_count v g - 1) else frame_count v g) ->
  grows root v0 v'.
Proof.
  intros [L1 S1 C1 T1 W1] [K1 K2 K3 K4 K5] Hf Hok Hc. split; [congruence|congruence| | |].
  - intros g. rewrite Hc. destruct (Z.eqb_spec g f) as [->|]; [lia|apply C1].
  - intros q t Hq Ht. rewrite (tab_mem v) in Ht by done. by apply T1.
  - intros b Hb H1 H2. unfold word. rewrite K1. by apply W1.
Qed.

(** The frame behind an address when the frames [fs] are mapped from [start] on. *)
Definition page_of (start : Z) (fs : list Z) (va : Z) : option Z :=
  if start <=? va then fs !! Z.to_nat ((va - start) / PAGE_SIZE) else None.

Lemma page_of_None start fs va : start mod PAGE_SIZE = 0 ->
  page_of start fs va = None <-> va < start \/ start + PAGE_SIZE * zlen fs <= va.
Proof.
  intros Ha. unfold page_of, zlen. destruct (Z.leb_spec start va); [|split; [lia|done]].
  rewrite lookup_ge_None. split; intros; divlia.
Qed.

Lemma page_of_snoc start fs f va : start mod PAGE_SIZE = 0 ->
  page_of start (fs ++ [f]) va =
  if va / PAGE_SIZE =? (start + PAGE_SIZE * zlen fs) / PAGE_SIZE then Some f else page_of start fs va.
Proof.
  intros Ha. unfold page_of, zlen. destruct (Z.leb_spec start va), (Z.eqb_spec (va / PAGE_SIZE) ((start + PAGE_SIZE * Z.of_nat (length fs)) / PAGE_SIZE)); try divlia.
  - rewrite lookup_app_r by divlia. replace (_ - length fs)%nat with O by divlia. done.
  - destruct (decide (Z.to_nat ((va - start) / PAGE_SIZE) < length fs)%nat); [by rewrite lookup_app_l|].
    rewrite !lookup_ge_None_2; [done|lia|rewrite length_app; simpl; divlia].
  - done.
Qed.

(** New frames, each in one page, were added to the memory [v0]. *)
Record fresh_pages (root start : Z) (fs : list Z) (v0 v : vm) : Prop := {
  fp_space : space v root;
  fp_grows : grows root v0 v;
  fp_nodup : NoDup fs;
  fp_frames : Forall (fun f => frame_count v0 f = 0 /\ data v root f) fs;
  fp_xlate : forall va, user va -> xlate v root va =
    match page_of start fs va with Some f => f * PAGE_SIZE + va mod PAGE_SIZE | None => xlate v0 root va end
}.

Lemma fresh_nil root start v : space v root -> fresh_pages root start [] v v.
Proof.
  intros Hsp. split; [done|apply grows_refl|constructor|constructor|].
  intros va Hva. unfold page_of. by destruct (start <=? va).
Qed.

(** Changes that keep the frames and the translations. *)
Lemma fresh_same root start fs v0 v v' : fresh_pages root start fs v0 v -> space v' root -> grows root v v' ->
  frames_ok v0 -> (forall va, user va -> xlate v' root va = xlate v root va) -> fresh_pages root start fs v0 v'.
Proof.
  intros [F1 F2 F3 F4 F5] Hsp G Hok Hx. split; [done|by eapply grows_trans|done| |].
  - eapply Forall_impl; [exact F4|]. intros f [H1 H2]. split; [done|]. by eapply data_grows.
  - intros va Hva. rewrite Hx by done. by apply F5.
Qed.

Lemma frame_offset x va : x mod PAGE_SIZE = 0 -> Z.lor x (Z.land va (PAGE_SIZE - 1)) = x + va mod PAGE_SIZE.
Proof.
  intros Hx. change (PAGE_SIZE - 1) with (Z.ones 12). rewrite Z.land_ones by lia. apply page_lor; [done|]. by apply Z.mod_pos_bound.
Qed.

(** One page more. *)
Lemma fresh_map root start fs v0 v v' a : fresh_pages root start fs v0 v -> frames_ok v0 ->
  start mod PAGE_SIZE = 0 -> user (start + PAGE_SIZE * zlen fs) -> 0 <= a < 2 ^ 64 -> a mod PAGE_SIZE = 0 ->
  data v root (a / PAGE_SIZE) -> frame_count v0 (a / PAGE_SIZE) = 0 -> a / PAGE_SIZE ∉ fs ->
  map_effect root a (start + PAGE_SIZE * zlen fs) v VmOk v' ->
  fresh_pages root start (fs ++ [a / PAGE_SIZE]) v0 v'.
Proof.
  intros [F1 F2 F3 F4 F5] Hok Hal Hu Ha Ham Hd Hfree Hnew (S' & G' & X'). split; [done|by eapply grows_trans| | |].
  - apply NoDup_app. split_and!; [done|intros x Hx ->%list_elem_of_singleton; done|apply NoDup_singleton].
  - apply Forall_app. split; [|apply Forall_singleton; split; [done|by eapply data_grows]].
    eapply Forall_impl; [exact F4|]. intros f [H1 H2]. split; [done|]. by eapply data_grows.
  - intros va Hva. rewrite X', (user_extended va Hva), page_of_snoc by done. cbn [andb].
    case_bool_decide as E.
    + apply user_same_page in E; [|done..]. destruct (Z.eqb_spec (va / PAGE_SIZE) ((start + PAGE_SIZE * zlen fs) / PAGE_SIZE)); [|congruence].
      rewrite align_page, frame_offset by (done || by apply Z.mod_mul). done.
    + destruct (Z.eqb_spec (va / PAGE_SIZE) ((start + PAGE_SIZE * zlen fs) / PAGE_SIZE)) as [E'|]; [|by apply F5].
      destruct E. by apply user_same_page.
Qed.

Lemma map_new_ok fuel zero root fl n : map_flags fl -> forall start fs v0 v,
  fresh_pages root start fs v0 v -> frames_ok v0 -> zlen (table v0) < Z.of_nat fuel ->
  0 <= start -> start mod PAGE_SIZE = 0 -> start + PAGE_SIZE * (zlen fs + Z.of_nat n) <= 2 ^ 47 ->
  exists fs' ok v', map_new fuel zero root n (start + PAGE_SIZE * zlen fs) fl v =
      Some ((start + PAGE_SIZE * zlen fs', ok), v') /\
    fresh_pages root start fs' v0 v' /\ zlen fs <= zlen fs' <= zlen fs + Z.of_nat n /\
    (ok = true -> zlen fs' = zlen fs + Z.of_nat n).
Proof.
  intros Hfl. induction n as [|n IH]; intros start fs v0 v HF Hok0 Hfu Hs Hal Hmax; cbn [map_new].
  { exists fs, true, v. split_and!; [done|done|lia|lia|lia]. }
  pose proof HF as [Hsp G0 Hnd Hfr Hx]. pose proof Hsp as [Hok _]. pose proof (next_frame _ Hok) as HnF. pose proof (gr_len _ _ _ G0) as Hlen. pose proof (zlen_nonneg fs) as Hfs0.
  destruct (alloc_page_ok fuel v Hok ltac:(lia)) as (a & w & Ha & HE & _). rewrite (bind_run _ _ _ _ _ Ha).
  destruct (alloc_grows v root a w Hsp HE) as (Hspw & Gw & Xw). destruct HE as (Hokw & Hm & Hms & Hl & HE).
  pose proof (fresh_same root start fs v0 v w HF Hspw Gw Hok0 ltac:(auto)) as HFw.
  destruct HE as [(-> & _ & _)|(A1 & A2 & A3 & A4 & A5)].
  { exists fs, false, w. split_and!; [done|done|lia|lia|done]. }
  destruct (Z.eqb_spec a 0); [lia|]. assert (0 <= a < 2 ^ 64) as Ha64 by (destruct Hok as [_ _ _ _ _ Hsz _ _]; divlia).
  assert (data w root (a / PAGE_SIZE)) as Hdw.
  { split; [split; [divlia|rewrite Hl; done]|]. split; [rewrite A5, Z.eqb_refl; lia|]. intros q t Hq Ht E.
    rewrite (tab_mem v) in Ht by done. destruct Hsp as [_ [T1 _]]. pose proof (to_used _ _ (T1 q t Hq Ht)) as Hu. rewrite E in Hu. lia. }
  assert (frame_count v0 (a / PAGE_SIZE) = 0) as Hc0 by (pose proof (gr_counts _ _ _ G0 (a / PAGE_SIZE)); pose proof (frame_count_nonneg v0 (a / PAGE_SIZE) Hok0); lia).
  assert (a / PAGE_SIZE ∉ fs) as Hnew.
  { intros Hin. rewrite Forall_forall in Hfr. destruct (Hfr _ Hin) as [_ (_ & Hc & _)]. lia. }
  assert (exists w1, (if zero then zero_frame a else mret tt) w = Some (tt, w1) /\ fresh_pages root start fs v0 w1 /\ data w1 root (a / PAGE_SIZE)) as (w1 & Hz & HF1 & Hd1).
  { destruct zero; [|by exists w]. destruct HFw as [_ G1 _ Hfw Hxw].
    destruct (zero_data v0 w root a G1 Hspw A2 A1 Hdw Hc0) as (w1 & Hz & G2 & S2 & D2 & X2). exists w1. split_and!; [done| |by apply D2].
    split; [done|done|done| |intros va Hva; rewrite X2; by apply Hxw].
    eapply Forall_impl; [exact Hfw|]. intros f [H1 Hd]. split; [done|].
    by apply D2. }
  rewrite (bind_run _ _ _ _ _ Hz). pose proof HF1 as [Hsp1 G1 _ _ _].
  assert (user (start + PAGE_SIZE * zlen fs)) as Hu by (unfold user; lia).
  destruct (map_page_ok fuel w1 root a (start + PAGE_SIZE * zlen fs) fl Hsp1 ltac:(rewrite (gr_len _ _ _ G1); lia) Ha64 Hfl) as (r & v1 & H1 & ME).
  rewrite (bind_run _ _ _ _ _ H1). destruct r as [|e].
  - pose proof (fresh_map root start fs v0 w1 v1 a HF1 Hok0 Hal Hu Ha64 A2 Hd1 Hc0 Hnew ME) as HF2.
    destruct (IH start (fs ++ [a / PAGE_SIZE]) v0 v1 HF2 Hok0 Hfu Hs Hal) as (fs' & ok & v' & Hrun & HF' & Hl' & Hok'); [autorewrite with carray; lia|].
    autorewrite with carray in *. rewrite wrap_small by lia.
    exists fs', ok, v'. split_and!; [|done|lia|lia|intros; rewrite Hok' by done; lia].
    rewrite <- Hrun. f_equal. lia.
  - destruct ME as (S1 & G2 & X1). pose proof (data_grows _ _ _ _ G2 Hd1) as Hd2.
    destruct (free_data v1 root a S1 Ha64 Hd2) as (v2 & H2 & S2 & C2 & Hc2 & Ht2 & X2). rewrite (bind_run _ _ _ _ _ H2).
    exists fs, false, v2. split_and!; [done| |lia|lia|done].
    pose proof (grows_trans _ _ _ _ G1 G2 Hok0) as G01. destruct HF1 as [_ _ F3 F4 F5].
    split; [done|by eapply (free_grows v0 v1 v2 root _ G01 C2 Hc0 (proj1 S2) Hc2)|done| |].
    + rewrite Forall_forall in F4 |- *. intros f Hf. destruct (F4 f Hf) as [Z1 Z2]. split; [done|].
      pose proof (data_grows _ _ _ _ G2 Z2) as (E1 & E2 & E3). destruct C2 as [_ _ K3 _ _]. split; [lia|]. split.
      * rewrite Hc2. destruct (Z.eqb_spec f (a / PAGE_SIZE)) as [->|]; [done|done].
      * intros q t Hq. rewrite Ht2. by apply E3.
    + intros va Hva. rewrite X2, X1. by apply F5.
Qed.

Lemma fresh_frame root start fs v0 v f : fresh_pages root start fs v0 v -> f ∈ fs ->
  data v root f /\ 0 <= f * PAGE_SIZE < 2 ^ 64 /\ f * PAGE_SIZE / PAGE_SIZE = f.
Proof.
  intros [[Hok _] _ _ Hfr _] Hin. rewrite Forall_forall in Hfr. destruct (Hfr f Hin) as [_ Hd]. pose proof Hd as (D1 & _).
  destruct Hok as [_ _ _ _ _ Hsz _ _]. split_and!; [done|lia|lia|by rewrite Z.div_mul].
Qed.

Lemma page_of_at start fs (k : nat) : start mod PAGE_SIZE = 0 -> page_of start fs (start + PAGE_SIZE * Z.of_nat k) = fs !! k.
Proof.
  intros Ha. unfold page_of. destruct (Z.leb_spec start (start + PAGE_SIZE * Z.of_nat k)); [|lia]. f_equal. divlia.
Qed.

Lemma page_at_offset start k : start mod PAGE_SIZE = 0 -> (start + PAGE_SIZE * k) mod PAGE_SIZE = 0.
Proof. intros Ha. divlia. Qed.

(** Setting the protection changes no translation. *)
Lemma protect_pages_ok fuel root fl n : map_flags fl -> forall k start fs v0 v,
  fresh_pages root start fs v0 v -> frames_ok v0 -> zlen (table v0) < Z.of_nat fuel ->
  0 <= start -> start mod PAGE_SIZE = 0 -> start + PAGE_SIZE * zlen fs <= 2 ^ 47 -> (k + n = length fs)%nat ->
  exists ok v', protect_pages root fuel n (start + PAGE_SIZE * Z.of_nat k) fl v = Some (ok, v') /\
    fresh_pages root start fs v0 v'.
Proof.
  intros Hfl. induction n as [|n IH]; intros k start fs v0 v HF Hok0 Hfu Hs Hal Hmax Hk; cbn [protect_pages].
  { by exists true, v. }
  pose proof HF as [Hsp G0 Hnd Hfr Hx]. pose proof Hsp as [Hok Htr].
  set (c := start + PAGE_SIZE * Z.of_nat k). assert (user c) as Hu by (unfold user, c, zlen in *; lia).
  rewrite (bind_run _ _ _ _ _ (vm_phys_addr_ok v root c Hok Htr)).
  destruct (lookup_lt_is_Some_2 fs k ltac:(lia)) as [f Hf].
  assert (c mod PAGE_SIZE = 0) as Hcm by (by apply page_at_offset).
  assert (xlate v root c = f * PAGE_SIZE) as Ec by (rewrite Hx by done; unfold c; rewrite page_of_at, Hf by done; fold c; lia).
  destruct (fresh_frame _ _ _ _ _ f HF) as (Hd & Hr & Hdiv); [by eapply list_elem_of_lookup_2|]. rewrite Ec.
  destruct (map_page_ok fuel v root (f * PAGE_SIZE) c fl Hsp ltac:(rewrite (gr_len _ _ _ G0); lia) Hr Hfl) as (r & v1 & H1 & S1 & G1 & X1).
  rewrite (bind_run _ _ _ _ _ H1).
  assert (fresh_pages root start fs v0 v1) as HF1.
  { eapply fresh_same; [exact HF|done..|]. intros va Hva. rewrite X1. destruct r as [|e]; [|done].
    rewrite (user_extended va Hva). cbn [andb]. case_bool_decide as E; [|done]. apply user_same_page in E; [|done..].
    rewrite align_page, frame_offset, Hdiv by (done || by apply Z.mod_mul). rewrite Hx by done.
    assert (page_of start fs va = Some f) as ->; [|done].
    rewrite <- Hf, <- (page_of_at start fs k Hal). fold c. unfold page_of.
    destruct (Z.leb_spec start va), (Z.leb_spec start c); try (unfold c in *; divlia). f_equal. unfold c in *. divlia. }
  destruct r as [|e]; [|by exists false, v1].
  rewrite wrap_small by (unfold c, zlen in *; lia).
  destruct (IH (S k) start fs v0 v1 HF1 Hok0 Hfu Hs Hal Hmax ltac:(lia)) as (ok & v' & Hrun & HF').
  exists ok, v'. split; [|done]. rewrite <- Hrun. unfold c. f_equal. lia.
Qed.

(** Translations are only lost. *)
Definition fewer (root : Z) (v v' : vm) : Prop :=
  forall va, user va -> xlate v' root va = 0 \/ xlate v' root va = xlate v root va.

Lemma fewer_fewer root v1 v2 v3 : fewer root v1 v2 -> fewer root v2 v3 -> fewer root v1 v3.
Proof.
  intros H1 H2 va Hva. destruct (H2 va Hva) as [->| ->]; [by left|]. by apply H1.
Qed.

Lemma unmap_user v root va : space v root -> user va ->
  exists v', vm_unmap_page root va v = Some (VmOk, v') /\ space v' root /\ grows root v v' /\ fewer root v v' /\
    forall va', user va' -> va' / PAGE_SIZE = va / PAGE_SIZE -> xlate v' root va' = 0.
Proof.
  intros Hsp Hu. destruct (unmap_page_ok v root va Hsp (user_extended va Hu)) as (v' & H1 & S1 & G1 & X1).
  exists v'. split_and!; [done..| |].
  - intros va' Hva'. rewrite X1. destruct (_ && _); auto.
  - intros va' Hva' E. rewrite X1, (user_extended va' Hva'). cbn [andb]. rewrite bool_decide_eq_true_2; [done|].
    apply user_same_page in E; [|done..]. rewrite E. apply prefix_take.
Qed.

(** Whether [va] is in the [n] pages from [i] on, see [in_pages]. *)
Lemma unmap_pages_ok root n : forall j v, space v root -> 0 <= j -> j mod PAGE_SIZE = 0 -> j + PAGE_SIZE * Z.of_nat n <= 2 ^ 47 ->
  exists v', unmap_pages root n j v = Some (true, v') /\ space v' root /\ grows root v v' /\ fewer root v v' /\
    forall va, user va -> in_pages j n va = true -> xlate v' root va = 0.
Proof.
  induction n as [|n IH]; intros j v Hsp Hj Hal Hmax; cbn [unmap_pages].
  { exists v. split_and!; [done|done|apply grows_refl|intros va _; by right|].
    intros va _. unfold in_pages. destruct (Z.leb_spec j va), (Z.ltb_spec va (j + PAGE_SIZE * Z.of_nat 0)); try done; lia. }
  assert (user j) as Hu by (unfold user; lia).
  destruct (unmap_user v root j Hsp Hu) as (w & H1 & S1 & G1 & F1 & X1). rewrite (bind_run _ _ _ _ _ H1).
  rewrite (bind_run _ _ _ _ _ (vm_phys_addr_ok w root j (proj1 S1) (proj2 S1))). rewrite (X1 j Hu eq_refl).
  change (free_page 0) with (mret (M := M vm) tt). rewrite ret_run, wrap_small by lia.
  destruct (IH (j + PAGE_SIZE) w S1 ltac:(lia) ltac:(divlia) ltac:(lia)) as (v' & H2 & S2 & G2 & F2 & X2).
  exists v'. split_and!; [done|done|by eapply grows_trans, Hsp|by eapply fewer_fewer|].
  intros va Hva Hin. destruct (in_pages (j + PAGE_SIZE) n va) eqn:E; [by apply X2|].
  destruct (F2 va Hva) as [->| ->]; [done|]. apply X1; [done|]. unfold in_pages in *.
  destruct (Z.leb_spec j va), (Z.ltb_spec va (j + PAGE_SIZE * Z.of_nat (S n))); try done.
  destruct (Z.leb_spec (j + PAGE_SIZE) va), (Z.ltb_spec va (j + PAGE_SIZE + PAGE_SIZE * Z.of_nat n)); try done; divlia.
Qed.

(** The error path gives the pages back. *)
Lemma release_pages_ok root n : forall fs c v, space v root -> 0 <= c -> c mod PAGE_SIZE = 0 -> c + PAGE_SIZE * Z.of_nat n <= 2 ^ 47 ->
  length fs = n -> NoDup fs ->
  (forall j f, fs !! j = Some f -> data v root f /\
     (xlate v root (c + PAGE_SIZE * Z.of_nat j) = 0 \/ xlate v root (c + PAGE_SIZE * Z.of_nat j) = f * PAGE_SIZE)) ->
  exists v', release_pages root n c v = Some (tt, v') /\ space v' root /\ fewer root v v' /\
    forall va, user va -> in_pages c n va = true -> xlate v' root va = 0.
Proof.
  induction n as [|n IH]; intros fs c v Hsp Hc Hal Hmax Hlen Hnd Hfs; cbn [release_pages].
  { exists v. split_and!; [done|done|intros va _; by right|].
    intros va _. unfold in_pages. destruct (Z.leb_spec c va), (Z.ltb_spec va (c + PAGE_SIZE * Z.of_nat 0)); try done; lia. }
  destruct fs as [|f fs]; [done|]. injection Hlen as Hlen. apply NoDup_cons in Hnd as [Hnf Hnd].
  assert (user c) as Hu by (unfold user; lia). destruct (Hfs 0%nat f eq_refl) as [Hd Hx0].
  replace (c + PAGE_SIZE * Z.of_nat 0) with c in Hx0 by lia.
  rewrite (bind_run _ _ _ _ _ (vm_phys_addr_ok v root c (proj1 Hsp) (proj2 Hsp))).
  assert (exists w, free_page (xlate v root c) v = Some (tt, w) /\ space w root /\ (forall va, xlate w root va = xlate v root va) /\
    forall g, g ∈ fs -> data v root g -> data w root g) as (w & Hw & Sw & Xw & Dw).
  { destruct Hx0 as [->| ->]; [by exists v|].
    assert (f * PAGE_SIZE / PAGE_SIZE = f) as Ef by (by rewrite Z.div_mul). pose proof Hd as (D1 & _).
    destruct (free_data v root (f * PAGE_SIZE) Hsp) as (w & H1 & S1 & [_ _ K3 _ _] & C1 & T1 & X1);
      [destruct Hsp as [[_ _ _ _ _ Hsz _ _] _]; lia|by rewrite Ef|].
    exists w. split_and!; [done..|]. intros g Hg (E1 & E2 & E3). split; [lia|]. split.
    - rewrite C1, Ef. destruct (Z.eqb_spec g f) as [->|]; [done|done].
    - intros q t Hq. rewrite T1. by apply E3. }
  rewrite (bind_run _ _ _ _ _ Hw). destruct (unmap_user w root c Sw Hu) as (w1 & H1 & S1 & G1 & F1 & X1).
  rewrite (bind_run _ _ _ _ _ H1), wrap_small by lia.
  destruct (IH fs (c + PAGE_SIZE) w1 S1 ltac:(lia) ltac:(divlia) ltac:(lia) Hlen Hnd) as (v' & H2 & S2 & F2 & X2).
  { intros j g Hg. destruct (Hfs (S j) g Hg) as [Hdg Hxg].
    replace (c + PAGE_SIZE + PAGE_SIZE * Z.of_nat j) with (c + PAGE_SIZE * Z.of_nat (S j)) by lia.
    split; [eapply data_grows; [exact G1|]; apply Dw; [by eapply list_elem_of_lookup_2|done]|].
    assert (user (c + PAGE_SIZE * Z.of_nat (S j))) as Hu' by (apply lookup_lt_Some in Hg; unfold user; lia).
    destruct (F1 _ Hu') as [->| ->]; [by left|]. by rewrite Xw. }
  exists v'. split_and!; [done|done| |].
  - intros va Hva. destruct (F2 va Hva) as [->| ->]; [by left|]. destruct (F1 va Hva) as [->| ->]; [by left|]. right. apply Xw.
  - intros va Hva Hin. destruct (in_pages (c + PAGE_SIZE) n va) eqn:E; [by apply X2|].
    destruct (F2 va Hva) as [->| ->]; [done|]. apply X1; [done|]. unfold in_pages in *.
    destruct (Z.leb_spec c va), (Z.ltb_spec va (c + PAGE_SIZE * Z.of_nat (S n))); try done.
    destruct (Z.leb_spec (c + PAGE_SIZE) va), (Z.ltb_spec va (c + PAGE_SIZE + PAGE_SIZE * Z.of_nat n)); try done; divlia.
Qed.

(** ** Tables of regions

    The regions are not empty, consist of whole pages of the lower half, and
    follow each other without overlap. *)

Definition range_ok (r : mmap) : Prop :=
  0 <= base r /\ 0 < len r /\ base r mod PAGE_SIZE = 0 /\ len r mod PAGE_SIZE = 0 /\ base r + len r <= 2 ^ 47.

Definition end_of (r : mmap) : Z := base r + len r.

Fixpoint laid_out (lo : Z) (l : list mmap) : Prop :=
  match l with [] => True | r :: l => range_ok r /\ lo <= base r /\ laid_out (end_of r) l end.

(** The end of the last region. *)
Definition last_end (lo : Z) (l : list mmap) : Z := match last l with Some r => end_of r | None => lo end.

Lemma last_end_cons lo r l : last_end lo (r :: l) = last_end (end_of r) l.
Proof. unfold last_end. rewrite last_cons. by destruct (last l). Qed.

Lemma laid_out_weaken lo lo' l : lo' <= lo -> laid_out lo l -> laid_out lo' l.
Proof. destruct l as [|r l]; [done|]. intros Hle (H1 & H2 & H3). split_and!; [done|lia|done]. Qed.

Lemma laid_out_app l1 : forall lo l2, laid_out lo (l1 ++ l2) <-> laid_out lo l1 /\ laid_out (last_end lo l1) l2.
Proof.
  induction l1 as [|r l1 IH]; intros lo l2; [simpl; tauto|]. cbn [app laid_out]. rewrite IH, last_end_cons. tauto.
Qed.

Lemma laid_out_range lo l r : laid_out lo l -> r ∈ l -> range_ok r /\ lo <= base r.
Proof.
  revert lo. induction l as [|x l IH]; intros lo; [by intros _ ?%elem_of_nil|]. cbn [laid_out].
  intros (H1 & H2 & H3) [->|Hin]%elem_of_cons; [done|]. destruct (IH _ H3 Hin) as [H4 H5]. split; [done|].
  unfold range_ok, end_of in *. lia.
Qed.

Lemma laid_out_end lo l : laid_out lo l -> lo <= 2 ^ 47 -> lo <= last_end lo l <= 2 ^ 47.
Proof.
  revert lo. induction l as [|r l IH]; intros lo Hl Hlo; [unfold last_end; simpl; lia|]. destruct Hl as (H1 & H2 & H3).
  rewrite last_end_cons. unfold range_ok, end_of in *. specialize (IH _ H3 ltac:(lia)). lia.
Qed.

(** Adding a region where it fits. *)
Lemma insert_region l k r : laid_out 0 l -> range_ok r -> last_end 0 (take k l) <= base r ->
  match l !! k with Some next => end_of r <= base next | None => True end ->
  laid_out 0 (take k l ++ r :: drop k l).
Proof.
  intros Hl Hr Hlo Hhi. rewrite <- (take_drop k l) in Hl. apply laid_out_app in Hl as [H1 H2]. apply laid_out_app.
  split; [done|]. cbn [laid_out]. split_and!; [done..|]. destruct (drop k l) as [|next l2] eqn:E; [done|].
  assert (l !! k = Some next) as Ek by (rewrite <- (Nat.add_0_r k), <- lookup_drop, E; done). rewrite Ek in Hhi.
  destruct H2 as (H3 & H4 & H5). split_and!; [done..|]. done.
Qed.

Lemma last_end_take lo l k r : l !! k = Some r -> last_end lo (take (S k) l) = end_of r.
Proof. intros Hk. rewrite (take_S_r _ _ r) by done. unfold last_end. by rewrite last_snoc. Qed.

(** Consecutive regions. *)
Lemma laid_out_next l k r next : laid_out 0 l -> l !! k = Some r -> l !! S k = Some next ->
  range_ok r /\ range_ok next /\ end_of r <= base next.
Proof.
  intros Hl Hr Hn. rewrite <- (take_drop (S k) l) in Hl. apply laid_out_app in Hl as [H1 H2].
  rewrite (last_end_take _ _ _ r Hr) in H2. assert (drop (S k) l = next :: drop (S (S k)) l) as E by (by apply drop_S).
  rewrite E in H2. destruct H2 as (H3 & H4 & _). split_and!; [|done|done].
  apply (laid_out_range 0 (take (S k) l)); [done|]. rewrite (take_S_r _ _ r) by done. apply elem_of_app. right. by apply list_elem_of_singleton.
Qed.

(** The searches split the table. *)
Lemma region_before_split l addr : forall i, exists l1 l2, l = l1 ++ l2 /\ region_before l addr i = i + zlen l1 - 1 /\
  Forall (fun r => base r < addr) l1 /\ match l2 with r :: _ => addr <= base r | [] => True end.
Proof.
  induction l as [|r l IH]; intros i; cbn [region_before]; [exists [], []; rewrite zlen_nil; split_and!; [done|lia|constructor|done]|].
  destruct (Z.leb_spec addr (base r)); [exists [], (r :: l); rewrite zlen_nil; split_and!; [done|lia|constructor|done]|].
  destruct (IH (i + 1)) as (l1 & l2 & -> & -> & H1 & H2). exists (r :: l1), l2. rewrite zlen_cons.
  split_and!; [done|lia|by constructor|done].
Qed.

Lemma region_before_equal_split l addr : forall i, exists l1 l2, l = l1 ++ l2 /\ region_before_equal l addr i = i + zlen l1 - 1 /\
  Forall (fun r => base r <= addr) l1 /\ match l2 with r :: _ => addr < base r | [] => True end.
Proof.
  induction l as [|r l IH]; intros i; cbn [region_before_equal]; [exists [], []; rewrite zlen_nil; split_and!; [done|lia|constructor|done]|].
  destruct (Z.ltb_spec addr (base r)); [exists [], (r :: l); rewrite zlen_nil; split_and!; [done|lia|constructor|done]|].
  destruct (IH (i + 1)) as (l1 & l2 & -> & -> & H1 & H2). exists (r :: l1), l2. rewrite zlen_cons.
  split_and!; [done|lia|by constructor|done].
Qed.

(** A gap that is found is large enough. *)
Lemma find_gap_ok l size n : laid_out 0 l -> 0 < size -> forall k, (k < length l)%nat -> (length l <= k + n + 1)%nat ->
  exists k' r, find_gap n l (Z.of_nat k) size = Some (end_of r, Z.of_nat k') /\ l !! k' = Some r /\
    match l !! S k' with Some next => end_of r + size <= base next | None => True end.
Proof.
  intros Hl Hsz. induction n as [|n IH]; intros k Hk Hn; cbn [find_gap].
  all: rewrite zlookup_nat; destruct (lookup_lt_is_Some_2 l k Hk) as [r Hr]; rewrite Hr; orun.
  all: assert (range_ok r) as (R1 & R2 & R3 & R4 & R5) by (eapply (laid_out_range 0 l); [done|by eapply list_elem_of_lookup_2]).
  all: rewrite (wrap_small 64 (base r + len r)) by lia; fold (end_of r).
  all: destruct (Z.ltb_spec (Z.of_nat k) (zlen l - 1)) as [Hlt|Hge]; cbn [negb]; unfold zlen in *; try lia.
  - exists k, r. split_and!; [done..|]. by rewrite lookup_ge_None_2 by lia.
  - replace (Z.of_nat k + 1) with (Z.of_nat (S k)) by lia. rewrite zlookup_nat.
    destruct (lookup_lt_is_Some_2 l (S k) ltac:(lia)) as [next Hnx]. rewrite Hnx. orun.
    destruct (laid_out_next l k r next Hl Hr Hnx) as (_ & (N1 & N2 & N3 & N4 & N5) & Hle).
    rewrite wrap_small by (unfold end_of in *; lia). destruct (Z.leb_spec size (base next - end_of r)).
    + exists k, r. split_and!; [done..|]. rewrite Hnx. lia.
    + apply IH; lia.
  - exists k, r. split_and!; [done..|]. by rewrite lookup_ge_None_2 by lia.
Qed.

(** ** sys_mmap *)

Lemma on_vm_run {A} (m : M vm A) s a v : m (memory s) = Some (a, v) -> on_vm m s = Some (a, set_memory s v).
Proof. intros H. unfold on_vm. by rewrite H. Qed.

(** Reading a file into mapped memory changes the frames behind the addresses
    and nothing else. *)
Definition reads_ok (root : Z) (vfs_read : Z -> Z -> Z -> Z -> M vm Z) : Prop :=
  forall vp addr n off v, space v root -> (forall va, addr <= va < addr + n -> xlate v root va <> 0) ->
  exists ret v', vfs_read vp addr n off v = Some (ret, v') /\ v' = set_mem v (mem v') /\
    forall a, a mod 8 = 0 -> word v' a <> word v a -> exists va, addr <= va < addr + n /\ xlate v root va / PAGE_SIZE = a / PAGE_SIZE.

(** The new pages keep their places while a file is read into them. *)
Lemma fresh_read root start fs v0 v v' n : fresh_pages root start fs v0 v -> start mod PAGE_SIZE = 0 -> 0 <= start ->
  start + PAGE_SIZE * zlen fs <= 2 ^ 47 -> n <= PAGE_SIZE * zlen fs -> v' = set_mem v (mem v') ->
  (forall a, a mod 8 = 0 -> word v' a <> word v a -> exists va, start <= va < start + n /\ xlate v root va / PAGE_SIZE = a / PAGE_SIZE) ->
  fresh_pages root start fs v0 v'.
Proof.
  intros HF Hal Hs Hmax Hn Ev Hch. pose proof HF as [Hsp G0 Hnd Hfr Hx]. pose proof Hsp as [_ Htr].
  assert (forall a, a mod 8 = 0 -> word v' a <> word v a -> a / PAGE_SIZE ∈ fs) as Hin.
  { intros a Ha Hne. destruct (Hch a Ha Hne) as (va & Hva & E). rewrite Hx in E by (unfold user; lia).
    destruct (page_of start fs va) as [f|] eqn:Ef.
    - replace (a / PAGE_SIZE) with f by (rewrite <- E; divlia). unfold page_of in Ef. destruct (start <=? va); [|done].
      by eapply list_elem_of_lookup_2.
    - apply page_of_None in Ef; [lia|done]. }
  rewrite Forall_forall in Hfr.
  destruct (data_write v root v' Hsp Ev) as (Hsp' & Htab & Hx').
  { intros q t i Hq Hi Ht. pose proof (tr_table _ _ Htr q t Hq Ht) as [K1 _ _ _].
    destruct (Z.eq_dec (word v' (t + 8 * i)) (word v (t + 8 * i))) as [|Hne]; [done|].
    apply Hin in Hne; [|by apply slot_aligned]. destruct (Hfr _ Hne) as [_ (_ & _ & D3)]. destruct (D3 q t Hq Ht). divlia. }
  assert (table v' = table v /\ mem_size v' = mem_size v) as [Et Es] by (by rewrite Ev).
  assert (forall f, frame_count v' f = frame_count v f) as Hc by (intros f; unfold frame_count; by rewrite Et).
  split; [done| |done| |].
  - destruct G0 as [L1 S1 C1 T1 W1]. split; [congruence|congruence|intros f; rewrite Hc; apply C1| |].
    + intros q t Hq Ht. rewrite Htab in Ht by done. by apply T1.
    + intros a Ha Hu Hno. destruct (Z.eq_dec (word v' a) (word v a)) as [->|Hne]; [by apply W1|].
      apply Hin in Hne; [|done]. destruct (Hfr _ Hne) as [H0 _]. lia.
  - rewrite Forall_forall. intros f Hf. destruct (Hfr f Hf) as [H0 (D1 & D2 & D3)]. split; [done|]. rewrite <- Et in D1.
    split; [done|]. split; [by rewrite Hc|]. intros q t Hq Ht. rewrite Htab in Ht by done. by apply (D3 q t).
  - intros va Hva. rewrite Hx'. by apply Hx.
Qed.

Section mapping.
Context (p : nat) (root : Z) (fuel : nat).
Context (vnode_mode vnode_size : Z -> Z) (vfs_read vfs_write : Z -> Z -> Z -> Z -> M vm Z).
Context (Hread : reads_ok root vfs_read).

(** The tests of the arguments read the descriptors. *)
Lemma check_args_ok pend s l pr fl fdn off :
  FdTable.fd_ok pend (files s) -> is_Some (FdTable.fds (files s) !! p) ->
  exists a, check_args p vnode_mode vnode_size l pr fl fdn off s = Some (a, s) /\
    match a with Ok (Some (k, f)) => (FdTable.system_fd_table (files s)).[k] = Some f | _ => True end /\
    (truthy (Z.land fl MAP_ANONYMOUS) = true -> match a with Ok (Some _) => False | _ => True end) /\
    (l = 0 -> match a with Ok _ => False | _ => True end).
Proof.
  intros Hfd [t Ht]. unfold check_args.
  assert (exists r, mapped_file p vnode_mode vnode_size fl fdn off s = Some (r, s) /\
    match r with Ok (Some (k, f)) => (FdTable.system_fd_table (files s)).[k] = Some f | _ => True end /\
    (truthy (Z.land fl MAP_ANONYMOUS) = true -> r = Ok None)) as (r & Hr & H1 & H2).
  { unfold mapped_file. destruct (truthy (Z.land fl MAP_ANONYMOUS)); [by exists (Ok None)|]. rewrite gets_run.
    pose proof Hfd as (Hl & _). unfold FdTable.file_fd. rewrite Ht. cbn [mbind option_bind].
    pose proof (FdTable.fd_ok_table _ _ _ _ Hfd Ht) as (T1 & T2 & T3 & T4).
    destruct (Z.ltb_spec fdn 0), (Z.leb_spec (FdTable.size t) fdn); cbn [orb]; [by exists (Err EBADF)..|].
    destruct (zlookup_lt_Some (FdTable.table t) fdn) as [slot Hslot]; [lia|]. rewrite Hslot. orun.
    destruct slot as [k|]; [|by exists (Err EBADF)].
    assert (0 <= k < FdTable.SYSTEM_FD_TABLE_SIZE) as Hk.
    { apply T4. unfold zlookup in Hslot. destruct (fdn <? 0); [done|]. by eapply list_elem_of_lookup_2. }
    destruct (zlookup_lt_Some (FdTable.system_fd_table (files s)) k) as [f Hf]; [lia|].
    unfold lift, mbind, M_bind. rewrite Hf. destruct (negb _); [by exists (Err EACCES)|].
    destruct (_ || _); [by exists (Err EINVAL)|by exists (Ok (Some (k, f)))]. }
  destruct r as [vp|e].
  - rewrite (andthen_ok _ _ _ _ _ Hr). eexists. split; [reflexivity|].
    destruct (args_error l pr fl vp) eqn:Ee; [done|]. split_and!; [done|intros Ha; injection (H2 Ha) as ->; done|].
    intros ->. done.
  - rewrite (andthen_err _ _ _ _ _ Hr). by exists (Err e).
Qed.

(** Where a region fits into the table. *)
Definition fits (l : list mmap) (k : nat) (b size : Z) : Prop :=
  0 <= b /\ b mod PAGE_SIZE = 0 /\ last_end 0 (take k l) <= b /\
  match l !! k with Some next => b + size <= base next | None => True end.

Lemma choose_place_ok s addr hint size fl :
  laid_out 0 (mmaps s) -> truthy (Z.land fl MAP_FIXED) = false -> 0 < size ->
  0 <= hint -> hint mod PAGE_SIZE = 0 -> 
  match mmaps s with r :: _ => base r <= hint \/ hint + size <= base r | [] => True end ->
  exists b k, choose_place p root vfs_write addr hint size fl s = Some (Some (b, Z.of_nat k), s) /\ fits (mmaps s) k b size /\ (b = hint \/ b <= 2 ^ 47).
Proof.
  intros Hl Hfx Hsz Hh Hal Hfirst. unfold choose_place. rewrite Hfx. unfold find_region_before_equal. rewrite !gets_run.
  destruct (region_before_equal_split (mmaps s) hint 0) as (l1 & l2 & El & -> & H1 & H2). rewrite Z.add_0_l.
  destruct (Z.leb_spec 0 (zlen l1 - 1)) as [Hge|Hlt].
  - assert (zlen (mmaps s) = zlen l1 + zlen l2) as Elen by (by rewrite El, zlen_app). unfold zlen in *.
    destruct (find_gap_ok (mmaps s) size (length (mmaps s)) Hl Hsz (length l1 - 1)) as (k & r & Hg & Hk & Hnext); [lia|lia|].
    replace (Z.of_nat (length l1) - 1) with (Z.of_nat (length l1 - 1)) by lia. rewrite Hg. cbn [lift].
    exists (end_of r), (S k). unfold mbind, M_bind, lift. split; [unfold mret, M_ret; do 4 f_equal; lia|].
    assert (range_ok r) as (R1 & R2 & R3 & R4 & R5) by (eapply (laid_out_range 0 (mmaps s)); [done|by eapply list_elem_of_lookup_2]).
    unfold fits. rewrite (last_end_take _ _ _ r Hk). unfold end_of in *. split_and!; [lia|divlia|lia|done|lia].
  - destruct l1 as [|r1 l1]; [|rewrite zlen_cons in Hlt; pose proof (zlen_nonneg l1); lia]. simpl in El. subst l2.
    exists hint, O. split; [done|]. split; [|by left]. unfold fits. rewrite take_0. split_and!; [done|done|done|].
    destruct (mmaps s) as [|r l]; [done|]. simpl. lia.
Qed.

Lemma hold_file_ok s vp :
  match vp with Some (k, f) => (FdTable.system_fd_table (files s)).[k] = Some f | None => True end ->
  exists x, hold_file (fst <$> vp) s = Some (tt, set_files s x).
Proof.
  destruct vp as [[k f]|]; simpl; intros Hf.
  - unfold mbind, M_bind, gets, lift. rewrite Hf. rewrite zstore_lt by (by eapply zlookup_Some_lt). by eexists.
  - exists (files s). by destruct s.
Qed.

(** The error path of [sys_mmap] after the pages [fs] were mapped. *)
Lemma err0_ok start fs v0 v : fresh_pages root start fs v0 v -> 0 <= start -> start mod PAGE_SIZE = 0 ->
  start + PAGE_SIZE * zlen fs <= 2 ^ 47 ->
  exists v', release_pages root (pages start (start + PAGE_SIZE * zlen fs)) start v = Some (tt, v') /\
    space v' root /\ fewer root v0 v'.
Proof.
  intros HF Hs Hal Hmax. pose proof HF as [Hsp G0 Hnd Hfr Hx]. pose proof (zlen_nonneg fs).
  assert (pages start (start + PAGE_SIZE * zlen fs) = length fs) as ->.
  { pose proof (pages_len start (start + PAGE_SIZE * zlen fs) ltac:(lia) Hal ltac:(divlia)). unfold zlen in *. lia. }
  destruct (release_pages_ok root (length fs) fs start v Hsp Hs Hal) as (v' & H1 & S1 & F1 & X1); [unfold zlen in *; lia|done|done| |].
  { intros j f Hj. destruct (fresh_frame _ _ _ _ _ f HF) as (Hd & _); [by eapply list_elem_of_lookup_2|]. split; [done|]. right.
    apply lookup_lt_Some in Hj as Hlt. rewrite Hx, page_of_at, Hj, page_at_offset by (done || unfold user, zlen in *; lia). lia. }
  exists v'. split_and!; [done|done|]. intros va Hva. destruct (in_pages start (length fs) va) eqn:E; [left; by apply X1|].
  destruct (F1 va Hva) as [->| ->]; [by left|]. right. rewrite Hx by done.
  assert (page_of start fs va = None) as ->; [|done]. apply page_of_None; [done|]. unfold in_pages, zlen in *.
  destruct (Z.leb_spec start va), (Z.ltb_spec va (start + PAGE_SIZE * Z.of_nat (length fs))); try done; lia.
Qed.

(** The outcome of mapping [size] bytes at [b] as region number [k]. *)
Definition map_outcome (s : mm) (k : nat) (r : mmap) (res : mmap_result) (s' : mm) : Prop :=
  space (memory s') root /\
  match res with
  | Mapped b =>
      b = base r /\ mmaps s' = take k (mmaps s) ++ r :: drop k (mmaps s) /\
      forall va, user va ->
        if (base r <=? va) && (va <? end_of r)
        then exists f, frame_count (memory s) f = 0 /\ data (memory s') root f /\ xlate (memory s') root va = f * PAGE_SIZE + va mod PAGE_SIZE
        else xlate (memory s') root va = xlate (memory s) root va
  | MapFailed _ => mmaps s' = mmaps s /\ (file r = None -> fewer root (memory s) (memory s'))
  end.

Lemma protection_flags pr : map_flags (Z.lor (if pr =? PROT_NONE then 0 else PAGE_FLAG_USER)
  (if truthy (Z.land pr PROT_WRITE) then PAGE_FLAG_RW else 0)).
Proof. by destruct (pr =? PROT_NONE), (truthy (Z.land pr PROT_WRITE)). Qed.

Lemma map_region_ok s b k size bytes pr fl fdn off vp :
  space (memory s) root -> zlen (table (memory s)) < Z.of_nat fuel ->
  0 <= b -> b mod PAGE_SIZE = 0 -> b < 2 ^ 48 -> 0 < size <= 2 ^ 48 -> size mod PAGE_SIZE = 0 -> bytes <= size ->
  match vp with Some (k, f) => (FdTable.system_fd_table (files s)).[k] = Some f | None => True end ->
  exists res s', map_region root fuel vfs_read b (Z.of_nat k) size bytes pr fl fdn off vp s = Some (res, s') /\
    map_outcome s k (mk_mmap b size pr (fst <$> vp) fdn off fl) res s' /\
    match res with Mapped _ => b + size < 2 ^ 47 | _ => True end.
Proof.
  intros Hsp Hfu Hb Hal Hbmax Hsz Hszal Hbytes Hvp. unfold map_region. rewrite (wrap_small 64 (b + size)) by lia.
  set (r := mk_mmap _ _ _ _ _ _ _).
  assert (map_outcome s k r (MapFailed (Some EINVAL)) s) as Hsame.
  { split; [done|]. split; [done|]. intros _ va _. by right. }
  destruct (Z.leb_spec USER_MEM_TOP_VMA (b + size)) as [|Htop]; [by exists (MapFailed (Some EINVAL)), s|].
  pose proof (pages_len b (b + size) ltac:(lia) Hal ltac:(divlia)) as Hpl. set (n := pages b (b + size)) in *.
  pose proof Hsp as [Hok0 _].
  destruct (map_new_ok fuel true root PAGE_FLAG_RW n ltac:(done) b [] (memory s) (memory s) (fresh_nil _ _ _ Hsp) Hok0 Hfu Hb Hal)
    as (fs & ok & v1 & H1 & HF1 & Hlen & Hall); [rewrite zlen_nil; lia|].
  rewrite zlen_nil, Z.mul_0_r, Z.add_0_r in *. rewrite (bind_run _ _ _ _ _ (on_vm_run _ _ _ _ H1)).
  assert (forall s1 v, fresh_pages root b fs (memory s) v -> memory s1 = v -> mmaps s1 = mmaps s ->
    exists res s', (on_vm (release_pages root (pages (ALIGN_DOWN b PAGE_SIZE) (b + PAGE_SIZE * zlen fs)) (ALIGN_DOWN b PAGE_SIZE));;
      mret (MapFailed None)) s1 = Some (res, s') /\ map_outcome s k r res s' /\ match res with Mapped _ => b + size < 2 ^ 47 | _ => True end) as Herr.
  { intros s1 v HF Hm Ht. rewrite align_page by lia. replace (b / PAGE_SIZE * PAGE_SIZE) with b by divlia.
    destruct (err0_ok b fs (memory s) v HF Hb Hal ltac:(lia)) as (v' & Hrun & S' & F'). rewrite <- Hm in Hrun.
    rewrite (bind_run _ _ _ _ _ (on_vm_run _ _ _ _ Hrun)). exists (MapFailed None), (set_memory s1 v'). by split_and!; [|split; [|split]|]. }
  cbv zeta. destruct ok; cbn [negb]; [|by apply (Herr _ v1)]. specialize (Hall eq_refl).
  assert (PAGE_SIZE * zlen fs = size) as Hfsz by lia.
  assert (exists ret v2, (match vp with None => mret 0 | Some (_, f) => on_vm (vfs_read (FdTable.vnode f) b bytes off) end) (set_memory s v1) =
    Some (ret, set_memory s v2) /\ fresh_pages root b fs (memory s) v2 /\ (vp = None -> ret = 0)) as (ret & v2 & H2 & HF2 & Hret).
  { destruct vp as [[k' f]|]; [|by exists 0, v1]. pose proof HF1 as [Hsp1 _ _ _ Hx1].
    destruct (Hread (FdTable.vnode f) b bytes off v1 Hsp1) as (ret & v2 & H2 & Ev & Hch).
    - intros va Hva. rewrite Hx1 by (unfold user; lia). destruct (page_of b fs va) as [g|] eqn:Eg; [|apply page_of_None in Eg; [lia|done]].
      unfold page_of in Eg. destruct (b <=? va); [|done]. destruct (fresh_frame _ _ _ _ _ g HF1) as ((D & _) & _); [by eapply list_elem_of_lookup_2|].
      pose proof (Z.mod_pos_bound va PAGE_SIZE ltac:(lia)). lia.
    - exists ret, v2. split_and!; [exact (on_vm_run _ (set_memory s v1) _ _ H2)| |done].
      eapply (fresh_read root b fs (memory s) v1 v2 bytes); try done; lia. }
  rewrite (bind_run _ _ _ _ _ H2). destruct (Z.ltb_spec ret 0).
  { eexists _, _. split_and!; [reflexivity| |done]. split; [apply HF2|]. split; [done|].
    intros Hf. destruct vp as [[k' f]|]; [done|]. specialize (Hret eq_refl). lia. }
  destruct (protect_pages_ok fuel root _ n (protection_flags pr) 0 b fs (memory s) v2 HF2 Hok0 Hfu Hb Hal) as (ok & v3 & H3 & HF3); [lia|unfold zlen in *; lia|].
  rewrite Z.mul_0_r, Z.add_0_r in H3. rewrite (bind_run _ _ _ _ _ (on_vm_run _ (set_memory s v2) _ _ H3)).
  destruct ok; cbn [negb]; [|by apply (Herr _ v3)].
  rewrite gets_run. change (heap (set_memory _ v3)) with (heap s).
  assert (exists ok h, HashMap.malloc (heap s) = Some (ok, h)) as (ok & h & Hm) by (unfold HashMap.malloc; destruct (heap s) as [|[] ?]; eauto).
  rewrite Hm. unfold lift at 1. unfold mbind at 1, M_bind at 1. rewrite modify_run.
  destruct ok; cbn [negb]; [|by apply (Herr _ v3)]. rewrite modify_run.
  destruct (hold_file_ok (set_mmaps (set_heap (set_memory (set_memory s v2) v3) h) (take k (mmaps s) ++ r :: drop k (mmaps s))) vp Hvp) as (x & Hh).
  cbn [set_heap set_memory mmaps]. rewrite Nat2Z.id. fold r. rewrite (bind_run _ _ _ _ _ Hh).
  eexists _, _. split; [reflexivity|]. split; [|lia]. pose proof HF3 as [Hsp3 _ _ Hfr3 Hx3]. split; [done|]. split_and!; [done|done|].
  intros va Hva. cbn [memory set_files set_mmaps set_heap set_memory]. rewrite Hx3 by done. unfold end_of. cbn [base len r].
  destruct (page_of b fs va) as [f|] eqn:Ef.
  - assert (b <= va < b + size) as Hin.
    { destruct (decide (va < b \/ b + PAGE_SIZE * zlen fs <= va)) as [Hout|]; [|lia]. apply page_of_None in Hout; [congruence|done]. }
    destruct (Z.leb_spec b va), (Z.ltb_spec va (b + size)); try lia. cbn [andb]. exists f.
    unfold page_of in Ef. destruct (b <=? va); [|done]. apply list_elem_of_lookup_2 in Ef. rewrite Forall_forall in Hfr3.
    by destruct (Hfr3 f Ef).
  - apply page_of_None in Ef; [|done]. by destruct (Z.leb_spec b va), (Z.ltb_spec va (b + size)); try lia.
Qed.
End mapping.

(** Regions in front of and behind a place in the table. *)
Lemma laid_out_before l r : forall lo, laid_out lo l -> r ∈ l -> end_of r <= last_end lo l.
Proof.
  induction l as [|x l IH]; intros lo H1 Hin; [by apply elem_of_nil in Hin|]. destruct H1 as (X1 & X2 & X3).
  rewrite last_end_cons. apply elem_of_cons in Hin as [->|Hin]; [|by apply IH].
  unfold range_ok in X1. apply laid_out_end in X3; unfold end_of in *; lia.
Qed.

Lemma laid_out_apart l1 r l2 r' : laid_out 0 (l1 ++ r :: l2) -> r' ∈ l1 ++ l2 -> end_of r' <= base r \/ end_of r <= base r'.
Proof.
  intros Hl Hin. apply laid_out_app in Hl as [H1 (H2 & H3 & H4)]. apply elem_of_app in Hin as [Hin|Hin].
  - left. transitivity (last_end 0 l1); [|done]. by apply laid_out_before.
  - right. by apply (laid_out_range _ _ _ H4 Hin).
Qed.

Lemma align_up_page l : 0 < l <= 2 ^ 47 ->
  l <= ALIGN_UP l PAGE_SIZE < l + PAGE_SIZE /\ ALIGN_UP l PAGE_SIZE mod PAGE_SIZE = 0.
Proof.
  intros Hl. pose proof (ALIGN_UP_spec l 12 ltac:(lia) ltac:(lia)) as E. change (2 ^ 12) with PAGE_SIZE in E. rewrite E. divlia.
Qed.


(** ** sys_munmap *)

(** What is left of a region when [lo] to [hi] is taken away. *)
Definition cut_region (lo hi : Z) (r : mmap) : list mmap :=
  if (end_of r <=? lo) || (hi <=? base r) then [r]
  else (if base r <? lo then [set_len r (lo - base r)] else []) ++
       (if end_of r <=? hi then [] else [set_place r hi (end_of r - hi) (u64 (offset r + (hi - base r)))]).

Definition cut_table (lo hi : Z) (l : list mmap) : list mmap := flat_map (cut_region lo hi) l.

Lemma cut_before lo hi l : Forall (fun r => end_of r <= lo) l -> cut_table lo hi l = l.
Proof.
  induction 1 as [|r l Hr Hl IH]; [done|]. cbn [cut_table flat_map]. fold (cut_table lo hi l). rewrite IH.
  unfold cut_region. by destruct (Z.leb_spec (end_of r) lo); [|lia].
Qed.

Lemma cut_behind lo hi l : Forall (fun r => hi <= base r) l -> cut_table lo hi l = l.
Proof.
  induction 1 as [|r l Hr Hl IH]; [done|]. cbn [cut_table flat_map]. fold (cut_table lo hi l). rewrite IH.
  unfold cut_region. by destruct (Z.leb_spec hi (base r)); [rewrite orb_true_r|lia].
Qed.

Lemma cut_app lo hi l1 l2 : cut_table lo hi (l1 ++ l2) = cut_table lo hi l1 ++ cut_table lo hi l2.
Proof. apply flat_map_app. Qed.

(** Taking a range away keeps the order. *)
Lemma cut_laid_out lo hi l : lo <= hi -> lo mod PAGE_SIZE = 0 -> hi mod PAGE_SIZE = 0 -> forall x, laid_out x l -> laid_out x (cut_table lo hi l).
Proof.
  intros Hle Hlo Hhi. induction l as [|r l IH]; intros x Hl; [done|]. destruct Hl as ((R1 & R2 & R3 & R4 & R5) & H2 & H3).
  specialize (IH _ H3). cbn [cut_table flat_map]. fold (cut_table lo hi l). unfold cut_region.
  unfold end_of in *. destruct (Z.leb_spec (base r + len r) lo), (Z.leb_spec hi (base r)); cbn [orb app].
  1-3: by split_and!; [|lia|done].
  destruct (Z.ltb_spec (base r) lo), (Z.leb_spec (base r + len r) hi); cbn [app laid_out].
  all: unfold range_ok, end_of in *; cbn [base len set_len set_place]; try split_and!; try divlia.
  all: eapply laid_out_weaken, IH; lia.
Qed.

Lemma free_procfd_ok pend f p t n : FdTable.fd_ok pend f -> FdTable.fds f !! p = Some t -> 0 <= n < FdTable.size t ->
  exists f' t', FdTable.free_procfd f p n = Some f' /\ FdTable.fd_ok pend f' /\ FdTable.fds f' !! p = Some t' /\
    FdTable.size t' = FdTable.size t.
Proof.
  intros Hok Ht Hn. pose proof (FdTable.fd_ok_table _ _ _ _ Hok Ht) as (T1 & _).
  destruct (zlookup_lt_Some (FdTable.table t) n) as [[k|] Hslot]; [lia| |].
  - destruct (FdTable.close_ok pend f p t n k Hok Ht Hslot) as (f' & e & l & H1 & H2 & H3 & _).
    exists f', (FdTable.set_table t l). split_and!; [done|done| |done]. rewrite H3. apply list_lookup_insert_eq. by eapply lookup_lt_Some.
  - exists f, t. split_and!; try done. unfold FdTable.free_procfd, FdTable.free_altprocfd. rewrite Ht. orun. by rewrite Hslot.
Qed.

Section unmapping.
Context (p : nat) (root addr size : Z) (pend : Z -> Z) (nfds : Z).
Hypothesis Haddr : 0 <= addr.
Hypothesis Hsize : 0 <= size.
Hypothesis Hmax : addr + size <= 2 ^ 47.
Hypothesis Halign : addr mod PAGE_SIZE = 0.
Hypothesis Hsalign : size mod PAGE_SIZE = 0.

Definition files_held (l : list mmap) (s : mm) : Prop :=
  FdTable.fd_ok pend (files s) /\ (exists t, FdTable.fds (files s) !! p = Some t /\ FdTable.size t = nfds) /\
  Forall (fun r => file r <> None -> 0 <= fd r < nfds) l.

(** The pages of the regions that start in the range. *)
Definition cleared (l : list mmap) (v : vm) : Prop :=
  forall r va, r ∈ l -> addr <= base r -> base r <= va < end_of r -> va < addr + size -> xlate v root va = 0.

Lemma cleared_cons r l v v' : fewer root v v' -> cleared l v' -> range_ok r ->
  (forall va, user va -> base r <= va < Z.min (end_of r) (addr + size) -> xlate v root va = 0) -> cleared (r :: l) v'.
Proof.
  intros Hf Hl Hr Hx r' va [->|Hin]%elem_of_cons Hb Hva Hlt; [|by apply (Hl r')].
  assert (user va) as Hu by (unfold user, range_ok, end_of in *; lia).
  destruct (Hf va Hu) as [->| ->]; [done|]. apply Hx; [done|lia].
Qed.

Lemma close_region_ok r s t : FdTable.fd_ok pend (files s) -> FdTable.fds (files s) !! p = Some t -> FdTable.size t = nfds ->
  (file r <> None -> 0 <= fd r < nfds) ->
  exists f', close_region p r s = Some (tt, set_files s f') /\ FdTable.fd_ok pend f' /\
    exists t', FdTable.fds f' !! p = Some t' /\ FdTable.size t' = nfds.
Proof.
  intros Hfd Ht Hs Hr. unfold close_region. destruct (file r) as [k|]; [|by exists (files s); split; [by destruct s|]; eauto].
  destruct (free_procfd_ok pend (files s) p t (fd r) Hfd Ht) as (f' & t' & H2 & H3 & H4 & H5); [rewrite Hs; by apply Hr|].
  exists f'. rewrite gets_run, H2. split_and!; [done|done|]. exists t'. split; [done|]. congruence.
Qed.

Lemma clear_loop_ok n : forall l1 l2 s, mmaps s = l1 ++ l2 -> laid_out addr l2 -> (length l2 <= n)%nat ->
  space (memory s) root -> files_held l2 s ->
  exists s', clear_loop p root n (zlen l1) addr size s = Some (true, s') /\ mmaps s' = l1 ++ cut_table addr (addr + size) l2 /\
    space (memory s') root /\ fewer root (memory s) (memory s') /\ cleared l2 (memory s').
Proof.
  induction n as [|n IH]; intros l1 l2 s Ht Hl Hn Hsp Hfh; cbn [clear_loop]; rewrite gets_run, Ht, zlen_app.
  all: destruct l2 as [|r l2]; [rewrite zlen_nil; destruct (Z.ltb_spec (zlen l1) (zlen l1 + 0)); [lia|]; cbn [negb];
    exists s; rewrite app_nil_r; split_and!; [done|by rewrite Ht, app_nil_r|done|intros va _; by right|by intros r va ?%elem_of_nil]|].
  { simpl in Hn. lia. }
  rewrite zlen_cons. pose proof (zlen_nonneg l2). destruct (Z.ltb_spec (zlen l1) (zlen l1 + (1 + zlen l2))); [|lia]. cbn [negb].
  assert ((mmaps s).[zlen l1] = Some r) as Hr.
  { rewrite Ht. unfold zlen. rewrite zlookup_nat. by apply list_lookup_middle. }
  assert (get_region (zlen l1) s = Some (r, s)) as Hget by (unfold get_region; rewrite gets_run; unfold lift; by rewrite Hr).
  rewrite (bind_run _ _ _ _ _ Hget). destruct Hl as (Hro & Hb & Hl). pose proof Hro as (R1 & R2 & R3 & R4 & R5).
  rewrite !(wrap_small 64 (base r + len r)), !(wrap_small 64 (addr + size)) by lia. fold (end_of r) in *.
  assert (user (base r)) as Hub by (unfold user, end_of in *; lia).
  destruct Hfh as (Hfd & (t & Htp & Hts) & Hall). apply Forall_cons in Hall as [Hrfd Hall].
  cbn [cut_table flat_map]. fold (cut_table addr (addr + size) l2). unfold cut_region.
  assert (0 < len r /\ addr < end_of r) as [_ Hend] by (unfold end_of; lia).
  destruct (Z.leb_spec (end_of r) addr); [lia|]. cbn [orb]. destruct (Z.ltb_spec (base r) addr); [lia|].
  destruct (Z.leb_spec (end_of r) (addr + size)) as [Hin|Hout].
  - destruct (Z.leb_spec (addr + size) (base r)); [unfold end_of in *; lia|]. cbn [app].
    pose proof (pages_len (base r) (end_of r) ltac:(unfold end_of; lia) R3 ltac:(unfold end_of; divlia)) as Hpl.
    destruct (unmap_pages_ok root (pages (base r) (end_of r)) (base r) (memory s) Hsp R1 R3 ltac:(unfold end_of in *; lia)) as (v1 & Q1 & S1 & G1 & F1 & X1).
    rewrite (bind_run _ _ _ _ _ (on_vm_run _ _ _ _ Q1)). cbn [negb].
    destruct (close_region_ok r (set_memory s v1) t Hfd Htp Hts Hrfd) as (f' & Hf' & Hfd' & t' & Htp' & Hts').
    rewrite (bind_run _ _ _ _ _ Hf'), modify_run. cbn [mmaps set_files set_memory]. rewrite Ht.
    replace (delete (Z.to_nat (zlen l1)) (l1 ++ r :: l2)) with (l1 ++ l2) by (unfold zlen; rewrite Nat2Z.id; by rewrite delete_middle).
    destruct (IH l1 l2 (set_mmaps (set_files (set_memory s v1) f') (l1 ++ l2))) as (s' & Q2 & Q3 & Q4 & Q5 & Q6); try done.
    { eapply laid_out_weaken, Hl. unfold end_of in *. lia. } { simpl in Hn. lia. } { split_and!; [done|eauto|done]. }
    exists s'. split_and!; [exact Q2|done|done|by eapply fewer_fewer|].
    eapply cleared_cons; [exact Q5|done|done|]. intros va Hva Hr2. apply X1; [done|]. unfold in_pages.
    destruct (Z.leb_spec (base r) va), (Z.ltb_spec va (base r + PAGE_SIZE * Z.of_nat (pages (base r) (end_of r)))); try done; lia.
  - destruct (Z.ltb_spec (base r) (addr + size)) as [Hov|Hno].
    + destruct (Z.leb_spec (addr + size) (base r)); [lia|].
      pose proof (pages_len (base r) (addr + size) ltac:(lia) R3 ltac:(divlia)) as Hpl.
      destruct (unmap_pages_ok root (pages (base r) (addr + size)) (base r) (memory s) Hsp R1 R3 ltac:(lia)) as (v1 & Q1 & S1 & G1 & F1 & X1).
      rewrite (bind_run _ _ _ _ _ (on_vm_run _ _ _ _ Q1)). cbn [negb].
      rewrite !(wrap_small 64 (addr + size - base r)), (wrap_small 64 (len r - _)) by (unfold end_of in *; lia).
      replace (len r - (addr + size - base r)) with (end_of r - (addr + size)) by (unfold end_of; lia).
      set (r' := set_place r _ _ _).
      assert (put_region (zlen l1) r' (set_memory s v1) = Some (tt, set_mmaps (set_memory s v1) (l1 ++ r' :: l2))) as Hput.
      { unfold put_region. rewrite gets_run. cbn [mmaps set_memory]. rewrite Ht, zstore_lt by (rewrite zlen_app, zlen_cons; pose proof (zlen_nonneg l1); lia).
        unfold zlen. rewrite Nat2Z.id. unfold lift, mbind, M_bind, modify. by rewrite insert_app_r_alt, Nat.sub_diag by lia. }
      rewrite (bind_run _ _ _ _ _ Hput). replace (zlen l1 + 1) with (zlen (l1 ++ [r'])) by (rewrite zlen_app; done).
      destruct (IH (l1 ++ [r']) l2 (set_mmaps (set_memory s v1) (l1 ++ r' :: l2))) as (s' & Q2 & Q3 & Q4 & Q5 & Q6).
      { cbn [mmaps set_mmaps]. by rewrite <- app_assoc. } { eapply laid_out_weaken, Hl. unfold end_of in *. lia. } { simpl in Hn. lia. } { done. }
      { split_and!; [done|eauto|done]. }
      exists s'. split_and!; [exact Q2|by rewrite Q3, <- app_assoc|done|by eapply fewer_fewer|].
      eapply cleared_cons; [exact Q5|done|done|]. intros va Hva Hr2. apply X1; [done|]. unfold in_pages.
      destruct (Z.leb_spec (base r) va), (Z.ltb_spec va (base r + PAGE_SIZE * Z.of_nat (pages (base r) (addr + size)))); try done; lia.
    + destruct (Z.leb_spec (addr + size) (base r)); [|lia]. rewrite cut_behind; last first.
      { rewrite Forall_forall. intros r' Hr'. destruct (laid_out_range _ _ r' Hl Hr'). unfold end_of in *. lia. }
      exists s. split_and!; [done|done|done|intros va _; by right|].
      intros r' va Hr' _ Hva Hlt. assert (addr + size <= base r') as Hge; [|lia].
      apply elem_of_cons in Hr' as [->|Hr']; [done|]. destruct (laid_out_range _ _ r' Hl Hr'). unfold end_of in *. lia.
Qed.

(** The region that starts in front of the range. *)
Lemma clear_front_ok l1 r l2 s : mmaps s = l1 ++ r :: l2 -> base r < addr -> range_ok r ->
  exists s', (r ← get_region (zlen l1);
    if addr <? u64 (base r + len r) then
      let r := set_len r (u64 (addr - base r)) in
      put_region (zlen l1) r;;
      on_vm (unmap_pages root (pages (u64 (base r + len r)) addr) (u64 (base r + len r)))
    else mret true) s = Some (true, s') /\ s' = set_mmaps s (l1 ++ (if end_of r <=? addr then r else set_len r (addr - base r)) :: l2).
Proof.
  intros Ht Hb (R1 & R2 & R3 & R4 & R5). assert (get_region (zlen l1) s = Some (r, s)) as Hget.
  { unfold get_region. rewrite gets_run, Ht. unfold zlen. rewrite zlookup_nat. by rewrite list_lookup_middle. }
  rewrite (bind_run _ _ _ _ _ Hget), (wrap_small 64 (base r + len r)) by lia. fold (end_of r).
  destruct (Z.ltb_spec addr (end_of r)), (Z.leb_spec (end_of r) addr); try lia; [|exists s; split; [done|]; rewrite <- Ht; by destruct s].
  cbv zeta. rewrite !(wrap_small 64 (addr - base r)) by lia. cbn [base len set_len].
  replace (base r + (addr - base r)) with addr by lia. rewrite (wrap_small 64 addr) by lia.
  assert (pages addr addr = O) as -> by (unfold pages; replace (addr - addr + PAGE_SIZE - 1) with 4095 by lia; done).
  eexists. split; [|reflexivity]. set (r' := set_len _ _).
  assert (put_region (zlen l1) r' s = Some (tt, set_mmaps s (l1 ++ r' :: l2))) as Hput.
  { unfold put_region. rewrite gets_run, Ht, zstore_lt by (rewrite zlen_app, zlen_cons; pose proof (zlen_nonneg l1); pose proof (zlen_nonneg l2); lia).
    unfold zlen. rewrite Nat2Z.id. unfold lift, mbind, M_bind, modify. by rewrite insert_app_r_alt, Nat.sub_diag by lia. }
  rewrite (bind_run _ _ _ _ _ Hput). reflexivity.
Qed.

Lemma clear_mappings_ok vfs_write s : laid_out 0 (mmaps s) -> space (memory s) root -> files_held (mmaps s) s ->
  Forall (fun r => addr <= base r \/ end_of r <= addr + size) (mmaps s) ->
  exists s', clear_mappings p root vfs_write addr size false s = Some (true, s') /\
    mmaps s' = cut_table addr (addr + size) (mmaps s) /\ space (memory s') root /\
    fewer root (memory s) (memory s') /\ cleared (mmaps s) (memory s').
Proof.
  intros Hl Hsp (Hfd & Hfs & Hall) Hno. unfold clear_mappings. rewrite ret_run. cbn [negb]. unfold find_region_before. rewrite gets_run.
  destruct (region_before_split (mmaps s) addr 0) as (l1 & l2 & El & -> & Hl1 & Hl2). rewrite El in *. rewrite Z.add_0_l.
  apply laid_out_app in Hl as [L1 L2]. apply Forall_app in Hall as [_ Hall2]. apply Forall_app in Hno as [Hno1 _].
  assert (laid_out addr l2) as L2'. { destruct l2 as [|x l2]; [done|]. destruct L2 as (X1 & X2 & X3). by split_and!. }
  assert (forall v, cleared l2 v -> cleared (l1 ++ l2) v) as Hcl.
  { intros v Hv r va [Hin|Hin]%elem_of_app Hb; [|by apply Hv]. rewrite Forall_forall in Hl1. apply Hl1 in Hin. lia. }
  destruct l1 as [|r l0 _] using rev_ind.
  { change (zlen [] - 1) with (-1). change (0 <=? -1) with false. cbv iota. rewrite ret_run. cbn [negb]. rewrite gets_run. change (-1 + 1) with (zlen (@nil mmap)).
    destruct (clear_loop_ok (length (mmaps s)) [] l2 s El L2' ltac:(rewrite El; simpl; lia) Hsp ltac:(by split_and!)) as (s' & C1 & C2 & C3 & C4 & C5).
    exists s'. split_and!; [done|by rewrite C2|done|done|done]. }
  rewrite zlen_app. change (zlen [r]) with 1. replace (zlen l0 + 1 - 1) with (zlen l0) by lia.
  destruct (Z.leb_spec 0 (zlen l0)); [|pose proof (zlen_nonneg l0); lia].
  apply laid_out_app in L1 as [L0 (Rok & Rb & _)]. rewrite Forall_app, Forall_singleton in Hl1, Hno1. destruct Hl1 as [Hl0 Hrb], Hno1 as [_ Hrn].
  destruct (clear_front_ok l0 r l2 s ltac:(by rewrite El, <- app_assoc) Hrb Rok) as (s1 & Hfront & Es1).
  rewrite (bind_run _ _ _ _ _ Hfront). cbn [negb]. rewrite gets_run. set (r' := if end_of r <=? addr then r else set_len r (addr - base r)) in *.
  replace (zlen l0 + 1) with (zlen (l0 ++ [r'])) by (rewrite zlen_app; done).
  destruct (clear_loop_ok (length (mmaps s1)) (l0 ++ [r']) l2 s1) as (s' & C1 & C2 & C3 & C4 & C5).
  { rewrite Es1. cbn [mmaps set_mmaps]. by rewrite <- app_assoc. } { done. }
  { rewrite Es1. cbn [mmaps set_mmaps]. rewrite length_app. simpl. lia. } { by rewrite Es1. } { by rewrite Es1. }
  exists s'. rewrite Es1 in C4. split_and!; [done| |done|done|by apply Hcl].
  rewrite C2, cut_app. f_equal. rewrite cut_app, cut_before.
  - f_equal. cbn [cut_table flat_map]. rewrite app_nil_r. unfold cut_region, r'. unfold range_ok, end_of in *.
    destruct (Z.leb_spec (base r + len r) addr); cbn [orb]; [done|]. destruct (Z.leb_spec (addr + size) (base r)); [lia|].
    destruct (Z.ltb_spec (base r) addr); [|lia]. destruct (Z.leb_spec (base r + len r) (addr + size)); [done|lia].
  - rewrite Forall_forall. intros x Hx. pose proof (laid_out_before l0 x 0 L0 Hx). lia.
Qed.
End unmapping.


(** ** Concrete mappings *)

Definition no_io (vp addr n off : Z) : M vm Z := mret 0.
Definition anon (b n : Z) : mmap := mk_mmap b n 3 None (-1) 0 (Z.lor MAP_PRIVATE MAP_ANONYMOUS).
Definition demo_mm (l : list mmap) (f : FdTable.fd_state) : mm := mk_mm l demo_space f [].

Lemma no_io_ok root : reads_ok root no_io.
Proof. intros vp addr n off v _ _. exists 0, v. split_and!; [done|by destruct v|done]. Qed.



(** ** Defects *)

Definition no_fds : FdTable.fd_state := FdTable.mk_fd_state [] 0 false [] [].
Definition mmap_at (addr l fl : Z) : M mm mmap_result :=
  sys_mmap 0 0x1000 9 (fun _ => 0) (fun _ => 0) no_io no_io addr l 3 fl (-1) 0.
Definition munmap_at (addr l : Z) : M mm (res bool) := sys_munmap 0 0x1000 no_io addr l.
Definition result {A B} (f : mm -> B) (m : M mm A) (l : list mmap) : option (A * B) :=
  '(a, s) ← m (demo_mm l no_fds); Some (a, f s).

(** The frames of a mapping are never given back: the page is unmapped before
    its frame is looked up. The counts are those of two frames in use at the
    start, three page tables and the frame of the page. *)
Lemma munmap_keeps_frames :
  result (fun s => table (memory s)) (mmap_at 0x10000 0x1000 6;; munmap_at 0x10000 0x1000) [] =
  Some (Ok true, [1; 1; 1; 1; 1; 1; 0; 0]).
Proof. vm_compute. reflexivity. Qed.

(** Cutting the end off a region leaves its pages mapped. *)
Lemma munmap_end_stays_mapped :
  result (fun s => (mmaps s, xlate (memory s) 0x1000 0x11000)) (mmap_at 0x10000 0x2000 6;; munmap_at 0x11000 0x1000) [] =
  Some (Ok true, ([anon 0x10000 0x1000], 0x6000)).
Proof. vm_compute. reflexivity. Qed.

(** Unmapping the middle of a region loses what is behind it. *)
Lemma munmap_middle_loses_end :
  result mmaps (munmap_at 0x11000 0x1000) [anon 0x10000 0x3000] = Some (Ok true, [anon 0x10000 0x1000]).
Proof. vm_compute. reflexivity. Qed.

(** An address in front of all regions is taken without looking at the gap. *)
Lemma mmap_overlaps_first :
  result mmaps (mmap_at 0x10000 0x2000 6) [anon 0x11000 0x1000] =
  Some (Mapped 0x10000, [anon 0x10000 0x2000; anon 0x11000 0x1000]).
Proof. vm_compute. reflexivity. Qed.

(** A length that wraps when it is rounded up is mapped as an empty region. *)
Lemma mmap_length_wraps : result mmaps (mmap_at 0x10000 (2 ^ 64 - 1) 6) [] = Some (Mapped 0x10000, [anon 0x10000 0]).
Proof. vm_compute. reflexivity. Qed.

(** Private mappings of files are written back as well. *)
Lemma private_written_back :
  fst <$> (sys_msync (fun _ _ _ _ => mret (-1)) 0x10000 0x1000 MS_SYNC
    (demo_mm [mk_mmap 0x10000 0x1000 3 (Some 0) 0 0 MAP_PRIVATE] (FdTable.mk_fd_state [FdTable.mk_fd 1 0 0 0 1] 1 false [] []))) =
  Some (Ok false).
Proof. vm_compute. reflexivity. Qed.

(** When memory runs out, [expand_mmap] unmaps the region from its start, and
    the region stays in the table. *)
Lemma expand_fails_unmaps :
  result (fun s => (mmaps s, xlate (memory s) 0x1000 0x10000)) (mmap_at 0x10000 0x1000 6;; expand_mmap 0x1000 9 0x1000 0x10000 0x10000) [] =
  Some (Err ENOMEM, ([anon 0x10000 0x1000], 0)).
Proof. vm_compute. reflexivity. Qed.
End Mman.
