(* ===== verification/Vfs.v ===== *)
(** * The VFS layer (drivers/fs/perm.c, drivers/fs/vnops.c, parts of syscall.c)

    Permission checks and the dispatch of vnode operations to the filesystem
    driver. The driver is a record of optional functions on its own state, as
    [struct vnode_ops] is a vector of pointers that may be NULL. *)

From S2P Require Import Prelude Cred FdTable.

Module Vfs.
Import Cred.

Abbreviation S_IFMT := 0xf000.
Abbreviation S_IFIFO := 0x1000.
Abbreviation S_IFCHR := 0x2000.
Abbreviation S_IFDIR := 0x4000.
Abbreviation S_IFREG := 0x8000.
Abbreviation S_IFLNK := 0xa000.
Abbreviation S_IFSOCK := 0xc000.
Abbreviation S_IRUSR := 0x100.
Abbreviation S_IWUSR := 0x80.
Abbreviation S_IXUSR := 0x40.
Abbreviation S_IRGRP := 0x20.
Abbreviation S_IWGRP := 0x10.
Abbreviation S_IXGRP := 0x8.
Abbreviation S_IROTH := 0x4.
Abbreviation S_IWOTH := 0x2.
Abbreviation S_IXOTH := 0x1.
Abbreviation S_ISUID := 0x800.
Abbreviation S_ISGID := 0x400.
Abbreviation UTIME_NOW := 1000000000.
Abbreviation UTIME_OMIT := 1000000001.
Abbreviation MS_RDONLY := 1.
Abbreviation X_OK := 1.
Abbreviation W_OK := 2.
Abbreviation R_OK := 4.
Abbreviation F_OK := 8.

Definition timespec : Type := Z * Z.

Record mount := mk_mount { m_flags : Z; m_device : Z }.

(** [struct vnode], the fields this layer reads; [v_mount = None] is NULL. *)
Record vnode := mk_vnode {
  v_mode : Z; v_ino : Z; v_nlink : Z; v_uid : Z; v_gid : Z; v_rdev : Z;
  v_atime : timespec; v_mtime : timespec; v_ctime : timespec;
  v_size : Z; v_blocks : Z; v_blksize : Z;
  v_mount : option mount
}.

Definition set_mode (vp : vnode) (m : Z) : vnode :=
  mk_vnode m (v_ino vp) (v_nlink vp) (v_uid vp) (v_gid vp) (v_rdev vp) (v_atime vp) (v_mtime vp)
    (v_ctime vp) (v_size vp) (v_blocks vp) (v_blksize vp) (v_mount vp).

Definition file_type (mode : Z) : Z := Z.land mode S_IFMT.
Definition S_ISDIR (mode : Z) : bool := file_type mode =? S_IFDIR.
Definition S_ISREG (mode : Z) : bool := file_type mode =? S_IFREG.
Definition S_ISLNK (mode : Z) : bool := file_type mode =? S_IFLNK.
Definition S_ISFIFO (mode : Z) : bool := file_type mode =? S_IFIFO.
Definition S_ISSOCK (mode : Z) : bool := file_type mode =? S_IFSOCK.
Definition S_ISCHR (mode : Z) : bool := file_type mode =? S_IFCHR.

(** ** Permission checks (perm.c) *)

Definition check_uid (c : cred) (real : bool) : Z := if real then uid c else euid c.
Definition check_gid (c : cred) (real : bool) : Z := if real then gid c else egid c.

Definition vfs_can_read (c : cred) (vp : vnode) (real : bool) : bool :=
  let uid := check_uid c real in
  let gid := check_gid c real in
  if uid =? 0 then true else
  if v_uid vp =? uid then
    if negb (truthy (Z.land (v_mode vp) S_IRUSR)) then false else
    if S_ISDIR (v_mode vp) && negb (truthy (Z.land (v_mode vp) S_IXUSR)) then false else true
  else if v_gid vp =? gid then
    if negb (truthy (Z.land (v_mode vp) S_IRGRP)) then false else
    if S_ISDIR (v_mode vp) && negb (truthy (Z.land (v_mode vp) S_IXGRP)) then false else true
  else if negb (truthy (Z.land (v_mode vp) S_IROTH)) then false
  else if S_ISDIR (v_mode vp) && negb (truthy (Z.land (v_mode vp) S_IXOTH)) then false
  else true.

Definition vfs_can_write (c : cred) (vp : vnode) (real : bool) : bool :=
  let uid := check_uid c real in
  let gid := check_gid c real in
  if uid =? 0 then true else
  if v_uid vp =? uid then
    if negb (truthy (Z.land (v_mode vp) S_IWUSR)) then false else
    if S_ISDIR (v_mode vp) && negb (truthy (Z.land (v_mode vp) S_IXUSR)) then false else true
  else if v_gid vp =? gid then
    if negb (truthy (Z.land (v_mode vp) S_IWGRP)) then false else
    if S_ISDIR (v_mode vp) && negb (truthy (Z.land (v_mode vp) S_IXGRP)) then false else true
  else if negb (truthy (Z.land (v_mode vp) S_IWOTH)) then false
  else if S_ISDIR (v_mode vp) && negb (truthy (Z.land (v_mode vp) S_IXOTH)) then false
  else true.

Definition vfs_can_exec (c : cred) (vp : vnode) (real : bool) : bool :=
  let uid := check_uid c real in
  let gid := check_gid c real in
  if uid =? 0 then truthy (Z.land (v_mode vp) (Z.lor (Z.lor S_IXUSR S_IXGRP) S_IXOTH)) else
  if v_uid vp =? uid then
    if negb (truthy (Z.land (v_mode vp) S_IXUSR)) then false else true
  else if v_gid vp =? gid then
    if negb (truthy (Z.land (v_mode vp) S_IXGRP)) then false else true
  else if negb (truthy (Z.land (v_mode vp) S_IXOTH)) then false
  else true.

Definition vfs_can_seek (vp : vnode) : bool :=
  negb (S_ISFIFO (v_mode vp) || S_ISSOCK (v_mode vp) || S_ISCHR (v_mode vp)).

(** ** Operation vectors *)

Definition name : Type := list Z.

Record stat := mk_stat {
  st_dev : Z; st_mode : Z; st_nlink : Z; st_ino : Z; st_uid : Z; st_gid : Z; st_rdev : Z;
  st_atim : timespec; st_mtim : timespec; st_ctim : timespec;
  st_size : Z; st_blocks : Z; st_blksize : Z
}.

Record dirent := mk_dirent { d_ino : Z; d_reclen : Z; d_namlen : Z; d_type : Z; d_name : name }.

Section vnops.
(** The state of the filesystem driver. *)
Context {D : Type}.

(** A pointer of the vector: NULL, or a function of its arguments. *)
Definition opv (A R : Type) : Type := option (A -> D -> res R * D).

Record vnode_ops := mk_ops {
  op_lookup : opv (vnode * name) vnode;
  op_getattr : opv (stat * vnode) stat;
  op_read : opv (vnode * Z * Z) (list Z);
  op_write : opv (vnode * list Z * Z * Z) Z;
  op_sync : opv vnode Z;
  op_chmod : opv (vnode * Z) vnode;
  op_chown : option (vnode * Z * Z -> D -> res Z * vnode * D);
  op_create : opv (vnode * name * Z * Z) vnode;
  op_mkdir : opv (vnode * name * Z) vnode;
  op_rename : opv (vnode * name * vnode * name) Z;
  op_link : opv (vnode * vnode * name) Z;
  op_unlink : opv (vnode * name) Z;
  op_symlink : opv (vnode * name * name) Z;
  op_readdir : opv (vnode * Z) (Z * dirent);
  op_readlink : opv (vnode * Z) (list Z);
  op_truncate : opv (vnode * Z) Z;
  op_utime : opv (vnode * option timespec * option timespec) Z;
  op_fill : opv vnode vnode
}.

Definition call {A R : Type} (op : opv A R) (a : A) (d : D) : res R * D :=
  match op with Some f => f a d | None => (Err ENOTSUP, d) end.

Context (ops : vnode_ops) (c : cred).

Definition vfs_lookup (dir : vnode) (n : name) (d : D) : res vnode * D :=
  if negb (vfs_can_read c dir false) then (Err EACCES, d) else
  if negb (S_ISDIR (v_mode dir)) then (Err ENOTDIR, d) else
  call (op_lookup ops) (dir, n) d.

(** [st] is what the caller's structure held before. *)
Definition vfs_getattr (st : stat) (vp : vnode) (d : D) : res stat * D :=
  if negb (vfs_can_read c vp false) then (Err EACCES, d) else
  let st := mk_stat (match v_mount vp with Some m => m_device m | None => st_dev st end)
    (v_mode vp) (v_nlink vp) (v_ino vp) (v_uid vp) (v_gid vp) (v_rdev vp)
    (v_atime vp) (v_mtime vp) (v_ctime vp) (v_size vp) (v_blocks vp) (v_blksize vp) in
  match op_getattr ops with
  | Some f => f (st, vp) d
  | None => (Ok st, d)
  end.

Definition vfs_read (vp : vnode) (len offset : Z) (d : D) : res (list Z) * D :=
  if negb (vfs_can_read c vp false) then (Err EACCES, d) else
  if S_ISDIR (v_mode vp) then (Err EISDIR, d) else
  if len =? 0 then (Ok [], d) else
  call (op_read ops) (vp, len, offset) d.

Definition vfs_write (vp : vnode) (buffer : list Z) (len offset : Z) (d : D) : res Z * D :=
  if negb (vfs_can_read c vp false) then (Err EACCES, d) else
  if S_ISDIR (v_mode vp) then (Err EISDIR, d) else
  if len =? 0 then (Ok 0, d) else
  call (op_write ops) (vp, buffer, len, offset) d.

Definition vfs_sync (vp : vnode) (d : D) : res Z * D :=
  if negb (vfs_can_write c vp false) then (Err EACCES, d) else
  call (op_sync ops) vp d.

(** The loop over the supplementary groups. *)
Definition in_sup_gids (g : Z) : bool :=
  existsb (Z.eqb g) (take (Z.to_nat (nsup_gids c)) (sup_gids c)).

Definition vfs_chmod (vp : vnode) (mode : Z) (d : D) : res vnode * D :=
  if truthy (euid c) && negb (euid c =? v_uid vp) then (Err EPERM, d) else
  let matches_gid := (egid c =? v_gid vp) || in_sup_gids (v_gid vp) in
  let mode := Z.land mode 0xfff in
  let mode := if negb matches_gid then Z.land mode (Z.lnot S_ISGID) else mode in
  call (op_chmod ops) (vp, mode) d.

(** The vnode is the caller's object after the call. *)
Definition vfs_chown (vp : vnode) (u g : Z) (d : D) : res Z * vnode * D :=
  if negb (u =? NO_ID) && truthy (euid c) && negb (euid c =? u) then (Err EPERM, vp, d) else
  if negb (g =? NO_ID) && truthy (euid c) && negb (in_sup_gids g) then (Err EPERM, vp, d) else
  match op_chown ops with
  | None => (Err ENOTSUP, vp, d)
  | Some f =>
      let mode := v_mode vp in
      let '(ret, vp, d) := f (set_mode vp (Z.land mode (Z.lnot (Z.lor S_ISUID S_ISGID))), u, g) d in
      match ret with
      | Ok 0 => (ret, vp, d)
      | _ => (ret, set_mode vp mode, d)
      end
  end.

Definition vfs_create (dir : vnode) (n : name) (mode rdev : Z) (d : D) : res vnode * D :=
  if negb (vfs_can_write c dir false) then (Err EACCES, d) else
  if negb (S_ISDIR (v_mode dir)) then (Err ENOTDIR, d) else
  call (op_create ops) (dir, n, mode, rdev) d.

Definition vfs_mkdir (dir : vnode) (n : name) (mode : Z) (d : D) : res vnode * D :=
  if negb (vfs_can_write c dir false) then (Err EACCES, d) else
  if negb (S_ISDIR (v_mode dir)) then (Err ENOTDIR, d) else
  call (op_mkdir ops) (dir, n, mode) d.

Definition vfs_rename (olddir : vnode) (oldname : name) (newdir : vnode) (newname : name) (d : D) : res Z * D :=
  if negb (S_ISDIR (v_mode olddir)) || negb (S_ISDIR (v_mode newdir)) then (Err ENOTDIR, d) else
  if negb (vfs_can_write c olddir false) || negb (vfs_can_write c newdir false) then (Err EACCES, d) else
  call (op_rename ops) (olddir, oldname, newdir, newname) d.

Definition vfs_link (dir vp : vnode) (n : name) (d : D) : res Z * D :=
  if negb (vfs_can_write c dir false) then (Err EACCES, d) else
  if negb (S_ISDIR (v_mode dir)) then (Err ENOTDIR, d) else
  call (op_link ops) (dir, vp, n) d.

Definition vfs_unlink (dir : vnode) (n : name) (d : D) : res Z * D :=
  if negb (vfs_can_write c dir false) then (Err EACCES, d) else
  call (op_unlink ops) (dir, n) d.

Definition vfs_symlink (dir : vnode) (n target : name) (d : D) : res Z * D :=
  if negb (vfs_can_write c dir false) then (Err EACCES, d) else
  if negb (S_ISDIR (v_mode dir)) then (Err ENOTDIR, d) else
  call (op_symlink ops) (dir, n, target) d.

(** The offset of [d_name] in [struct dirent] is 13. *)
Definition vfs_readdir (dir : vnode) (offset : Z) (d : D) : res (Z * dirent) * D :=
  if negb (vfs_can_read c dir false) then (Err EACCES, d) else
  if negb (S_ISDIR (v_mode dir)) then (Err ENOTDIR, d) else
  match op_readdir ops with
  | None => (Err ENOTSUP, d)
  | Some f =>
      match f (dir, offset) d with
      | (Ok (ret, e), d) =>
          (Ok (ret, mk_dirent (d_ino e) (u16 (13 + d_namlen e + 1)) (d_namlen e) (d_type e) (d_name e)), d)
      | (Err e, d) => (Err e, d)
      end
  end.

Definition vfs_readlink (vp : vnode) (len : Z) (d : D) : res (list Z) * D :=
  if negb (vfs_can_read c vp false) then (Err EACCES, d) else
  if negb (S_ISLNK (v_mode vp)) then (Err EINVAL, d) else
  call (op_readlink ops) (vp, len) d.

Definition vfs_truncate (vp : vnode) (len : Z) (d : D) : res Z * D :=
  if negb (vfs_can_write c vp false) then (Err EACCES, d) else
  if negb (S_ISREG (v_mode vp)) then (Err EINVAL, d) else
  call (op_truncate ops) (vp, len) d.

(** [now] is [time (NULL)]; NULL pointers are [None]; the outer [None] is the
    dereference of a NULL [modify]. *)
Definition vfs_utime (now : Z) (vp : vnode) (access modify : option timespec) (d : D) :
    option (res Z * D) :=
  let owner_ok := negb (truthy (euid c)) || (euid c =? v_uid vp) in
  let go (a m : timespec) :=
    let a := if a.2 =? UTIME_NOW then Some (now, 0) else if a.2 =? UTIME_OMIT then None else Some a in
    let m := if m.2 =? UTIME_NOW then Some (now, 0) else if m.2 =? UTIME_OMIT then None else Some m in
    call (op_utime ops) (vp, a, m) d in
  match access with
  | None =>
      if negb (vfs_can_write c vp false) && negb owner_ok then Some (Err EACCES, d)
      else Some (go (now, 0) (now, 0))
  | Some a =>
      if a.2 =? UTIME_NOW then
        m ← modify;
        if m.2 =? UTIME_NOW then
          if negb (vfs_can_write c vp false) && negb owner_ok then Some (Err EACCES, d)
          else Some (go (now, 0) (now, 0))
        else if negb (m.2 =? UTIME_OMIT) then
          if negb owner_ok then Some (Err EPERM, d) else Some (go a m)
        else Some (go a m)
      else if negb (a.2 =? UTIME_OMIT) then
        m ← modify;
        if negb (m.2 =? UTIME_OMIT) then
          if negb owner_ok then Some (Err EPERM, d) else Some (go a m)
        else Some (go a m)
      else m ← modify; Some (go a m)
  end.

Definition vfs_fill (vp : vnode) (d : D) : res vnode * D := call (op_fill ops) vp d.

(** ** System calls on open files (syscall.c)

    The file is the system descriptor entry; [vp] its vnode. *)

Definition xaccess (vp : vnode) (mode : Z) (real : bool) : option (res Z) :=
  if mode =? F_OK then Some (Ok 0) else
  if mode =? Z.land mode (Z.lor (Z.lor R_OK W_OK) X_OK) then
    if truthy (Z.land mode R_OK) && negb (vfs_can_read c vp real) then Some (Err EACCES) else
    denied ← (if truthy (Z.land mode W_OK) then
                m ← v_mount vp;
                Some (truthy (Z.land (m_flags m) MS_RDONLY) || negb (vfs_can_write c vp real))
              else Some false);
    if denied : bool then Some (Err EACCES) else
    if truthy (Z.land mode X_OK) && negb (vfs_can_exec c vp real) then Some (Err EACCES) else
    Some (Ok 0)
  else Some (Err EINVAL).

Definition set_offset (f : FdTable.fd) (n : Z) : FdTable.fd :=
  FdTable.mk_fd (FdTable.vnode f) (FdTable.path f) n (FdTable.flags f) (FdTable.count f).

Definition sys_read (file : FdTable.fd) (vp : vnode) (len : Z) (d : D) : res (list Z) * FdTable.fd * D :=
  match vfs_read vp len (FdTable.offset file) d with
  | (Ok data, d) =>
      (Ok data, if vfs_can_seek vp then set_offset file (s64 (FdTable.offset file + zlen data)) else file, d)
  | (Err e, d) => (Err e, file, d)
  end.

Definition sys_write (file : FdTable.fd) (vp : vnode) (buffer : list Z) (len : Z) (d : D) :
    res Z * FdTable.fd * D :=
  match vfs_write vp buffer len (FdTable.offset file) d with
  | (Ok ret, d) =>
      if ret =? -1 then (Ok ret, file, d) else
      (Ok ret, if vfs_can_seek vp then set_offset file (s64 (FdTable.offset file + ret)) else file, d)
  | (Err e, d) => (Err e, file, d)
  end.
End vnops.

Inductive whence := SEEK_SET | SEEK_CUR | SEEK_END | SEEK_OTHER.

Definition sys_lseek (file : FdTable.fd) (vp : vnode) (offset : Z) (wh : whence) : res Z * FdTable.fd :=
  if negb (vfs_can_seek vp) then (Err ESPIPE, file) else
  let finish offset :=
    if offset <? 0 then (Err EINVAL, file) else (Ok offset, set_offset file offset) in
  match wh with
  | SEEK_SET => finish offset
  | SEEK_CUR => finish (s64 (offset + FdTable.offset file))
  | SEEK_END => finish (s64 (offset + v_size vp))
  | SEEK_OTHER => (Err EINVAL, file)
  end.

(** The process's creation mask before and after. *)
Definition sys_umask (umask mode : Z) : Z * Z := (umask, Z.land mode 0x1ff).

(** ** Theorems *)

(** The class of a process relative to a file, as the shift of its permission
    bits: owner, group or others, the first that applies. *)
Definition perm_class (c : cred) (vp : vnode) (real : bool) : Z :=
  if v_uid vp =? check_uid c real then 6 else if v_gid vp =? check_gid c real then 3 else 0.

(** Bit 2 is read, 1 write and 0 execute. *)
Definition has_perm (c : cred) (vp : vnode) (real : bool) (bit : Z) : bool :=
  Z.testbit (v_mode vp) (perm_class c vp real + bit).

Lemma mode_bit m k x : x = Z.shiftl 1 k -> 0 <= k -> truthy (Z.land m x) = Z.testbit m k.
Proof. intros -> Hk. by apply land_shl1. Qed.

Ltac mode_bits :=
  rewrite ?(mode_bit _ 8 S_IRUSR), ?(mode_bit _ 7 S_IWUSR), ?(mode_bit _ 6 S_IXUSR),
    ?(mode_bit _ 5 S_IRGRP), ?(mode_bit _ 4 S_IWGRP), ?(mode_bit _ 3 S_IXGRP),
    ?(mode_bit _ 2 S_IROTH), ?(mode_bit _ 1 S_IWOTH), ?(mode_bit _ 0 S_IXOTH) by (reflexivity || lia).

Lemma any_exec m :
  truthy (Z.land m (Z.lor (Z.lor S_IXUSR S_IXGRP) S_IXOTH)) =
  Z.testbit m 6 || Z.testbit m 3 || Z.testbit m 0.
Proof.
  rewrite !Z.land_lor_distr_r, <- (mode_bit m 6 S_IXUSR), <- (mode_bit m 3 S_IXGRP),
    <- (mode_bit m 0 S_IXOTH) by (reflexivity || lia).
  unfold truthy. set (a := Z.land m S_IXUSR). set (b := Z.land m S_IXGRP). set (e := Z.land m S_IXOTH).
  destruct (Z.eqb_spec (Z.lor (Z.lor a b) e) 0) as [H|H].
  - apply Z.lor_eq_0_iff in H as [H ->]. apply Z.lor_eq_0_iff in H as [-> ->]. done.
  - destruct (Z.eqb_spec a 0), (Z.eqb_spec b 0), (Z.eqb_spec e 0); try done.
    exfalso. apply H. by rewrite !Z.lor_eq_0_iff.
Qed.

(** The permission checks implement the file mode: the super-user passes
    (for execution, when some execute bit is set); any other process is judged
    by the bits of its class alone, and a directory also needs the execute bit
    to be read or written. *)
Theorem permissions_follow_mode c vp real :
  vfs_can_read c vp real =
    ((check_uid c real =? 0) ||
     has_perm c vp real 2 && (negb (S_ISDIR (v_mode vp)) || has_perm c vp real 0)) /\
  vfs_can_write c vp real =
    ((check_uid c real =? 0) ||
     has_perm c vp real 1 && (negb (S_ISDIR (v_mode vp)) || has_perm c vp real 0)) /\
  vfs_can_exec c vp real =
    if check_uid c real =? 0
    then Z.testbit (v_mode vp) 6 || Z.testbit (v_mode vp) 3 || Z.testbit (v_mode vp) 0
    else has_perm c vp real 0.
Proof.
  unfold vfs_can_read, vfs_can_write, vfs_can_exec, has_perm, perm_class. mode_bits. rewrite any_exec.
  destruct (check_uid c real =? 0); [done|].
  destruct (v_uid vp =? check_uid c real), (v_gid vp =? check_gid c real), (S_ISDIR (v_mode vp));
    cbv [negb andb orb Z.add Pos.add Pos.succ Pos.add_carry];
    repeat match goal with |- context [Z.testbit ?m ?k] => destruct (Z.testbit m k) end; done.
Qed.

Section mediation.
Context {D : Type} (ops : @vnode_ops D) (c : cred).

(** The operations that change a directory or the length of a file. *)
Inductive request :=
| RCreate (dir : vnode) (n : name) (mode rdev : Z)
| RMkdir (dir : vnode) (n : name) (mode : Z)
| RRename (olddir : vnode) (oldname : name) (newdir : vnode) (newname : name)
| RLink (dir vp : vnode) (n : name)
| RUnlink (dir : vnode) (n : name)
| RSymlink (dir : vnode) (n target : name)
| RTruncate (vp : vnode) (len : Z)
| RSync (vp : vnode).

(** What a request writes to. *)
Definition targets (r : request) : list vnode :=
  match r with
  | RCreate dir _ _ _ | RMkdir dir _ _ | RLink dir _ _ | RUnlink dir _ | RSymlink dir _ _ => [dir]
  | RRename olddir _ newdir _ => [olddir; newdir]
  | RTruncate vp _ | RSync vp => [vp]
  end.

Definition drop_result {R : Type} (x : res R * D) : option errno * D :=
  (match x.1 with Ok _ => None | Err e => Some e end, x.2).

Definition serve (r : request) (d : D) : option errno * D :=
  match r with
  | RCreate dir n mode rdev => drop_result (vfs_create ops c dir n mode rdev d)
  | RMkdir dir n mode => drop_result (vfs_mkdir ops c dir n mode d)
  | RRename od on nd nn => drop_result (vfs_rename ops c od on nd nn d)
  | RLink dir vp n => drop_result (vfs_link ops c dir vp n d)
  | RUnlink dir n => drop_result (vfs_unlink ops c dir n d)
  | RSymlink dir n t => drop_result (vfs_symlink ops c dir n t d)
  | RTruncate vp len => drop_result (vfs_truncate ops c vp len d)
  | RSync vp => drop_result (vfs_sync ops c vp d)
  end.

(** Write permission by the bits of the mode: those of the class of the effective
    user; a directory needs its execute bit as well. *)
Definition may_write (vp : vnode) : bool :=
  (euid c =? 0) || has_perm c vp false 1 && (negb (S_ISDIR (v_mode vp)) || has_perm c vp false 0).

(** The type of file a request is for. *)
Definition fits (r : request) : bool :=
  match r with
  | RCreate dir _ _ _ | RMkdir dir _ _ | RLink dir _ _ | RSymlink dir _ _ => S_ISDIR (v_mode dir)
  | RRename olddir _ newdir _ => S_ISDIR (v_mode olddir) && S_ISDIR (v_mode newdir)
  | RTruncate vp _ => S_ISREG (v_mode vp)
  | RUnlink _ _ | RSync _ => true
  end.

(** The driver is asked directly. *)
Definition forward (r : request) (d : D) : option errno * D :=
  match r with
  | RCreate dir n mode rdev => drop_result (call (op_create ops) (dir, n, mode, rdev) d)
  | RMkdir dir n mode => drop_result (call (op_mkdir ops) (dir, n, mode) d)
  | RRename od on nd nn => drop_result (call (op_rename ops) (od, on, nd, nn) d)
  | RLink dir vp n => drop_result (call (op_link ops) (dir, vp, n) d)
  | RUnlink dir n => drop_result (call (op_unlink ops) (dir, n) d)
  | RSymlink dir n t => drop_result (call (op_symlink ops) (dir, n, t) d)
  | RTruncate vp len => drop_result (call (op_truncate ops) (vp, len) d)
  | RSync vp => drop_result (call (op_sync ops) vp d)
  end.

Lemma can_write_may vp : vfs_can_write c vp false = may_write vp.
Proof. apply permissions_follow_mode. Qed.

(** C31: creating, mkdir, rename, link, unlink, symlink, truncate and sync are
    mediated by the mode bits. A request without write permission on each vnode it
    changes is refused by EACCES (or ENOTDIR for a rename) and never reaches the
    filesystem driver, whatever the driver does; a request with that permission on
    files of the right type is handed to the driver as it is, and its answer
    returned. Not among these requests are write, which asks for read permission
    ([write_without_permission] below), and chmod, chown and utime, which go by
    the owner. *)
Theorem changes_need_write_permission r d :
  (forallb may_write (targets r) = false ->
   exists e, serve r d = (Some e, d) /\
     (e = EACCES \/ e = ENOTDIR /\ exists od on nd nn, r = RRename od on nd nn)) /\
  (forallb may_write (targets r) = true -> fits r = true -> serve r d = forward r d).
Proof.
  split.
  - destruct r; simpl; rewrite ?andb_true_r; intros Hw;
      unfold vfs_create, vfs_mkdir, vfs_rename, vfs_link, vfs_unlink, vfs_symlink, vfs_truncate, vfs_sync;
      rewrite ?can_write_may; try (rewrite Hw; simpl; by eauto).
    destruct (S_ISDIR (v_mode olddir)), (S_ISDIR (v_mode newdir)); simpl; eauto 10.
    apply andb_false_iff in Hw as [-> | ->]; simpl; eauto. rewrite orb_true_r. eauto.
  - destruct r; simpl; rewrite ?andb_true_r; intros Hw Hf;
      unfold vfs_create, vfs_mkdir, vfs_rename, vfs_link, vfs_unlink, vfs_symlink, vfs_truncate, vfs_sync;
      rewrite ?can_write_may; try (rewrite Hw, ?Hf; done).
    apply andb_true_iff in Hw as [-> ->], Hf as [-> ->]. done.
Qed.

Lemma land_lnot_bit m k i :
  0 <= k -> 0 <= i -> Z.testbit (Z.land m (Z.lnot (Z.shiftl 1 k))) i = Z.testbit m i && negb (i =? k).
Proof. intros. by rewrite Z.land_spec, Z.lnot_spec, testbit_shl1 by lia. Qed.

(** [chmod] is allowed to the owner and the super-user only, and the mode
    the driver receives consists of the low twelve bits requested, less the
    set-group-ID bit when the caller is not in the file's group. *)
Theorem chmod_sanitises vp mode d :
  vfs_chmod ops c vp mode d = (Err EPERM, d) /\ euid c <> 0 /\ euid c <> v_uid vp \/
  (euid c = 0 \/ euid c = v_uid vp) /\
  exists m, vfs_chmod ops c vp mode d = call (op_chmod ops) (vp, m) d /\
    forall i, 0 <= i ->
      Z.testbit m i = (i <? 12) && Z.testbit mode i &&
        (negb (i =? 10) || (egid c =? v_gid vp) || in_sup_gids c (v_gid vp)).
Proof.
  unfold vfs_chmod, truthy. destruct (Z.eqb_spec (euid c) 0) as [E|E];
    [|destruct (Z.eqb_spec (euid c) (v_uid vp)) as [E'|E']]; simpl.
  3: { left. auto. }
  all: right; split; [by auto|]; eexists; (split; [reflexivity|]); intros i Hi.
  all: assert (Z.testbit (Z.land mode 4095) i = (i <? 12) && Z.testbit mode i) as Hlow by
    (change 4095 with (Z.ones 12); rewrite Z.land_ones by lia; by apply (testbit_wrap 12)).
  all: destruct (egid c =? v_gid vp), (in_sup_gids c (v_gid vp)); simpl;
    rewrite ?orb_true_r, ?andb_true_r, ?orb_false_r; try done.
  all: change S_ISGID with (Z.shiftl 1 10); rewrite land_lnot_bit, Hlow by lia; done.
Qed.

(** [chown] clears the set-user-ID and set-group-ID bits of the vnode before
    the driver acts, and a call that fails leaves the mode as it was. *)
Theorem chown_mode_bits vp u g d :
  let '(r, vp', d') := vfs_chown ops c vp u g d in
  (r <> Ok 0 -> v_mode vp' = v_mode vp) /\
  (r = Ok 0 -> exists f vp0, op_chown ops = Some f /\ f (vp0, u, g) d = (Ok 0, vp', d') /\
     vp0 = set_mode vp (v_mode vp0) /\
     forall i, 0 <= i -> Z.testbit (v_mode vp0) i =
       Z.testbit (v_mode vp) i && negb (i =? 11) && negb (i =? 10)).
Proof.
  unfold vfs_chown. destruct (_ && _); [done|]. destruct (_ && _ && _); [done|].
  destruct (op_chown ops) as [f|]; [|done].
  set (vp0 := set_mode vp _). destruct (f (vp0, u, g) d) as [[r vp1] d1] eqn:Ef.
  assert (Hbits : forall i, 0 <= i -> Z.testbit (v_mode vp0) i =
    Z.testbit (v_mode vp) i && negb (i =? 11) && negb (i =? 10)).
  { intros i Hi. unfold vp0. cbn [v_mode set_mode]. change S_ISUID with (Z.shiftl 1 11). change S_ISGID with (Z.shiftl 1 10).
    rewrite Z.land_spec, Z.lnot_spec, Z.lor_spec, !testbit_shl1, negb_orb, andb_assoc by lia. done. }
  destruct r as [[|q|q]|e]; split; intros Hr; try done. exists f, vp0. auto.
Qed.

(** Reading and writing through a descriptor moves the offset of a seekable
    file by the number of bytes transferred and never that of a pipe, socket or
    character device; a failed transfer leaves the offset alone. *)
Theorem transfer_moves_offset file vp len buffer d :
  let '(r, file', _) := sys_read ops c file vp len d in
  let '(r2, file2, _) := sys_write ops c file vp buffer len d in
  (forall data, r = Ok data -> FdTable.offset file' =
     if vfs_can_seek vp then s64 (FdTable.offset file + zlen data) else FdTable.offset file) /\
  (forall e, r = Err e -> file' = file) /\
  (forall n, r2 = Ok n -> n <> -1 -> FdTable.offset file2 =
     if vfs_can_seek vp then s64 (FdTable.offset file + n) else FdTable.offset file) /\
  (forall e, r2 = Err e -> file2 = file).
Proof.
  unfold sys_read, sys_write. destruct (vfs_read _ _ _ _ _ _) as [[data|e] d1];
    destruct (vfs_write _ _ _ _ _ _ _) as [[n|e2] d2];
    repeat match goal with |- context [if ?b then _ else _] => destruct b eqn:? end;
    repeat split; intros; simplify_eq; try done; lia.
Qed.
End mediation.

(** Seeking sets the offset to the requested position and never to a negative
    one; an invalid request, or one on a file that cannot seek, leaves the
    descriptor alone. *)
Theorem lseek_correct file vp offset wh :
  let '(r, file') := sys_lseek file vp offset wh in
  (forall n, r = Ok n -> 0 <= n /\ file' = set_offset file n /\ vfs_can_seek vp = true /\
     n = match wh with
         | SEEK_SET => offset
         | SEEK_CUR => s64 (offset + FdTable.offset file)
         | _ => s64 (offset + v_size vp)
         end) /\
  (forall e, r = Err e -> file' = file /\ (e = ESPIPE \/ e = EINVAL)).
Proof.
  unfold sys_lseek. destruct (vfs_can_seek vp); simpl; [|split; intros; simplify_eq; auto].
  destruct wh; try (split; intros; simplify_eq; by auto);
    match goal with |- context [?x <? 0] => destruct (Z.ltb_spec x 0) end;
    split; intros; simplify_eq; auto.
Qed.

(** *** Witness data and defects the model exhibits *)

Definition no_ops : @vnode_ops (list Z) :=
  mk_ops None None None None None None None None None None None None None None None None None None.

(** A driver that records what it is asked to write, and the owner it is asked
    to set. *)
Definition log_ops : @vnode_ops (list Z) :=
  mk_ops None None None (Some (fun '(_, buf, _, _) d => (Ok (zlen buf), d ++ buf))) None None
    (Some (fun '(vp, u, _) d => (Ok 0, vp, d ++ [u]))) None None None None None None None None None
    (Some (fun _ d => (Ok 0, d ++ [1]))) None.

Definition demo_file (mode : Z) : vnode :=
  mk_vnode mode 2 1 0 0 0 (0, 0) (0, 0) (0, 0) 0 0 512 None.

Definition user_cred : cred := mk_cred 1000 1000 1000 100 100 100 [] 0.

Lemma changes_need_write_permission_witness :
  (exists e, serve no_ops user_cred (RUnlink (demo_file 0x41ed) [97]) [] = (Some e, []) /\
    (e = EACCES \/ e = ENOTDIR /\ exists od on nd nn, RUnlink (demo_file 0x41ed) [97] = RRename od on nd nn)) /\
  serve no_ops user_cred (RCreate (demo_file 0x41ff) [97] 0x81a4 0) [] =
    forward no_ops (RCreate (demo_file 0x41ff) [97] 0x81a4 0) [].
Proof.
  split; [apply (changes_need_write_permission no_ops user_cred (RUnlink (demo_file 0x41ed) [97]) [])|
    apply (changes_need_write_permission no_ops user_cred (RCreate (demo_file 0x41ff) [97] 0x81a4 0) [])];
    reflexivity.
Defined.

(** [vfs_write] asks for read permission: a process that may only read a file
    (mode 0444, another owner) writes to it. *)
Lemma write_without_permission :
  vfs_can_write user_cred (demo_file 0x8124) false = false /\
  vfs_write log_ops user_cred (demo_file 0x8124) [1; 2; 3] 3 0 [] = (Ok 3, [1; 2; 3]).
Proof. split; reflexivity. Qed.

(** [vfs_chown] compares the caller with the new owner, not the present one: any
    process can make itself the owner of any file. *)
Lemma chown_takes_foreign_file :
  v_uid (demo_file 0x8180) <> euid user_cred /\
  (vfs_chown log_ops user_cred (demo_file 0x8180) 1000 NO_ID []).2 = [1000].
Proof. split; [discriminate | reflexivity]. Qed.

(** Leaving one of the two times unchanged skips every permission check. *)
Lemma utime_unchecked :
  vfs_utime log_ops user_cred 5 (demo_file 0x8180) (Some (7, 0)) (Some (0, UTIME_OMIT)) [] =
  Some (Ok 0, [1]).
Proof. reflexivity. Qed.

(** The supplementary groups of a process are not consulted. *)
Lemma supplementary_groups_ignored :
  vfs_can_read (mk_cred 1000 1000 1000 100 100 100 [0] 1) (demo_file 0x8120) false = false.
Proof. reflexivity. Qed.

End Vfs.
