(* ===== verification/Devfs.v ===== *)
(** * Device files (kernel/device.c, drivers/fs/devfs.c, parts of drivers/ttydev.c)

    Module [Devfs]: the two maps of registered devices, the registration of
    devices, of disks with their partitions and of the console, and the
    filesystem that shows them: lookup, attributes, reading and writing through
    the device, and the listings of /dev and /dev/fd. *)

From S2P Require Import Prelude CBits Hash HashMap CString Printf Tty Ata FdTable Cred Vfs.

Module Devfs.
Import CBits HashMap.

Abbreviation DEVFS_SPECIAL_INO := 0xffffffff00000000.
Abbreviation DEVFS_ROOT_INO := 0xffffffff00000000.
Abbreviation DEVFS_FD_INO := 0xffffffff00000001.
Abbreviation DEVFS_DIR_MODE := 0x416d.
Abbreviation DEVFS_BLOCK_DEVICE_MODE := 0x61b6.
Abbreviation DEVFS_CHAR_DEVICE_MODE := 0x21b6.
Abbreviation MBR_MAGIC := 0xaa55.
Abbreviation DT_CHR := 2.
Abbreviation DT_DIR := 4.
Abbreviation DT_BLK := 6.
Abbreviation PAGE_SIZE := 4096.
Abbreviation ATA_SECTOR_SIZE := 512.
Abbreviation VN_FLAG_NO_BLOCK := 1.

Definition makedev (major minor : Z) : Z := Z.lor (Z.shiftl (Z.land major 0xffff) 16) (Z.land minor 0xffff).
Definition major_of (dev : Z) : Z := Z.land (Z.shiftr dev 16) 0xffff.
Definition minor_of (dev : Z) : Z := Z.land dev 0xffff.

Inductive device_type := DEVICE_TYPE_BLOCK | DEVICE_TYPE_CHAR.

(** The private data of a driver and the functions of a device: those of the ATA
    driver and of the terminals. *)
Inductive private_data := NoData | TtyData (tty : Z) | DiskData (d : Ata.disk_device_data).
Inductive functions := NoFunctions | AtaFunctions | TtyFunctions.

Record device := mk_device {
  dev_type : device_type; dev_name : list Z; major : Z; minor : Z; dev_data : private_data;
  block_size : Z; dev_functions : functions
}.

(** The registered devices by address with the two maps, the outcomes of
    allocations and the next address; the two locks of [devfs_read] and
    [devfs_write]; the number of vnodes that are allocated; the terminals, the
    disks, the open files and their vnodes, each with whether it belongs to devfs. *)
Record world (H : Type) := mk_world {
  device_name_map : strmap; device_num_map : hashmap; devices : gmap Z device;
  oracle : mem; next_addr : Z; read_lock : bool; write_lock : bool; vnodes : Z;
  tty_hashmap : option hashmap;
  terminals : Tty.world; disks : Ata.state H;
  files : FdTable.fd_state; nodes : gmap Z (bool * Vfs.vnode)
}.
Arguments mk_world {H}.
Arguments device_name_map {H}.
Arguments device_num_map {H}.
Arguments devices {H}.
Arguments oracle {H}.
Arguments next_addr {H}.
Arguments read_lock {H}.
Arguments write_lock {H}.
Arguments vnodes {H}.
Arguments tty_hashmap {H}.
Arguments terminals {H}.
Arguments disks {H}.
Arguments files {H}.
Arguments nodes {H}.

(** A call returns a result, or waits for input. *)
Inductive outcome (A : Type) := Waits | Returns (a : A).
Arguments Waits {A}.
Arguments Returns {A} _.

Section devfs.
Context {H : Type} (io : Ata.port_io H) (prdt_phys : Z -> Z) (patience : nat).
(** The output functions of the terminals, the clock, the process group of the
    caller and its number in the table of processes. *)
Context (out : Tty.tty_output) (real_time group : Z) (this : nat).
Implicit Types w : world H.

Definition set_names w m := mk_world m (device_num_map w) (devices w) (oracle w) (next_addr w) (read_lock w) (write_lock w) (vnodes w) (tty_hashmap w) (terminals w) (disks w) (files w) (nodes w).
Definition set_nums w m := mk_world (device_name_map w) m (devices w) (oracle w) (next_addr w) (read_lock w) (write_lock w) (vnodes w) (tty_hashmap w) (terminals w) (disks w) (files w) (nodes w).
Definition set_devs w d := mk_world (device_name_map w) (device_num_map w) d (oracle w) (next_addr w) (read_lock w) (write_lock w) (vnodes w) (tty_hashmap w) (terminals w) (disks w) (files w) (nodes w).
Definition set_alloc w o a := mk_world (device_name_map w) (device_num_map w) (devices w) o a (read_lock w) (write_lock w) (vnodes w) (tty_hashmap w) (terminals w) (disks w) (files w) (nodes w).
Definition set_locks w r l := mk_world (device_name_map w) (device_num_map w) (devices w) (oracle w) (next_addr w) r l (vnodes w) (tty_hashmap w) (terminals w) (disks w) (files w) (nodes w).
Definition set_vnodes w n := mk_world (device_name_map w) (device_num_map w) (devices w) (oracle w) (next_addr w) (read_lock w) (write_lock w) n (tty_hashmap w) (terminals w) (disks w) (files w) (nodes w).
Definition set_tty_map w m := mk_world (device_name_map w) (device_num_map w) (devices w) (oracle w) (next_addr w) (read_lock w) (write_lock w) (vnodes w) m (terminals w) (disks w) (files w) (nodes w).
Definition set_terminals w t := mk_world (device_name_map w) (device_num_map w) (devices w) (oracle w) (next_addr w) (read_lock w) (write_lock w) (vnodes w) (tty_hashmap w) t (disks w) (files w) (nodes w).
Definition set_disks w (s : Ata.state H) := mk_world (device_name_map w) (device_num_map w) (devices w) (oracle w) (next_addr w) (read_lock w) (write_lock w) (vnodes w) (tty_hashmap w) (terminals w) s (files w) (nodes w).

(** Code of the other components on their part of the state. *)
Definition on_mem {A} (m : M mem A) : M (world H) A := fun w =>
  match m (oracle w) with Some (a, o) => Some (a, set_alloc w o (next_addr w)) | None => None end.
Definition on_tty {A} (m : M Tty.world A) : M (world H) A := fun w =>
  match m (terminals w) with Some (a, t) => Some (a, set_terminals w t) | None => None end.
Definition on_ata {A} (m : M (Ata.state H) A) : M (world H) A := fun w =>
  match m (disks w) with Some (a, s) => Some (a, set_disks w s) | None => None end.

(** [malloc]: NULL or a new address. *)
Definition alloc : M (world H) (option Z) :=
  ok ← on_mem malloc;
  w ← gets (fun w => w);
  if ok : bool then modify (fun w => set_alloc w (oracle w) (next_addr w + 1));; mret (Some (next_addr w)) else mret None.

Definition device_at (a : Z) : M (world H) device := fun w => lift (devices w !! a) w.
Definition put_device (a : Z) (d : device) : M (world H) unit := modify (fun w => set_devs w (<[a := d]> (devices w))).
Definition free_device (a : Z) : M (world H) unit := modify (fun w => set_devs w (base.delete a (devices w))).
Definition lookup_num (k : Z) : M (world H) Z := fun w => lift (hashmap_lookup (device_num_map w) k) w.
Definition lookup_name (k : list Z) : M (world H) Z := fun w => lift (strmap_lookup (device_name_map w) k) w.

(** ** Registration (kernel/device.c) *)

(** The maps are created, or the kernel stops. *)
Definition device_map_init : M (world H) unit :=
  names ← on_mem strmap_create;
  nums ← on_mem hashmap_create;
  match names, nums with
  | Some n, Some m => modify (fun w => set_nums (set_names w n) m)
  | _, _ => fault
  end.

(** The two insertions, with what follows when they fail. *)
Definition device_add (name : list Z) (major minor : Z) (type : device_type) : M (world H) (option Z) :=
  let num_key := makedev major minor in
  dev ← alloc;
  match dev with
  | None => mret None
  | Some a =>
      s ← alloc;
      match s with
      | None => mret None
      | Some _ =>
          put_device a (mk_device type name major minor NoData 0 NoFunctions);;
          w ← gets (fun w => w);
          r ← on_mem (strmap_insert (device_name_map w) name a);
          modify (fun w => set_names w r.2);;
          if truthy r.1 then free_device a;; mret None else
          w ← gets (fun w => w);
          r ← on_mem (hashmap_insert (device_num_map w) num_key a);
          modify (fun w => set_nums w r.2);;
          if truthy r.1 then
            w ← gets (fun w => w);
            r ← lift (strmap_remove (device_name_map w) name);
            modify (fun w => set_names w r.2);;
            free_device a;; mret None
          else mret (Some a)
      end
  end.

(** What a driver stores in its device. *)
Definition set_driver (a : Z) (data : private_data) (bsize : Z) (f : functions) : M (world H) unit :=
  d ← device_at a;
  put_device a (mk_device (dev_type d) (dev_name d) (major d) (minor d) data bsize f).

(** *** Disks *)

(** An entry of the partition table, and the boot record in a sector. *)
Record mbr_part := mk_part { part_type : Z; part_lba : Z; part_sectors : Z }.

Definition part_of (sector : list Z) (p : Z) : option mbr_part :=
  type ← sector.[446 + 16 * p + 4];
  lba ← Hash.load_le 4 sector (446 + 16 * p + 8);
  sectors ← Hash.load_le 4 sector (446 + 16 * p + 12);
  Some (mk_part type lba sectors).
Definition mbr_magic (sector : list Z) : option Z := Hash.load_le 2 sector 510.

(** A block device of the ATA driver; [data] is allocated first. *)
Definition add_disk (name : list Z) (i minor : Z) (data : Ata.disk_device_data) : M (world H) unit :=
  p ← alloc;
  match p with
  | None => mret tt
  | Some _ =>
      dev ← device_add name (i + 1) minor DEVICE_TYPE_BLOCK;
      match dev with
      | None => mret tt
      | Some a => set_driver a (DiskData data) ATA_SECTOR_SIZE AtaFunctions
      end
  end.

(** [data->len = sectors * ATA_SECTOR_SIZE], a product of 32-bit integers. *)
Definition disk_len (sectors : Z) : Z := u32 (sectors * ATA_SECTOR_SIZE).

Fixpoint add_partitions (todo : list Z) (name : list Z) (i : Z) (d : Ata.ata_device) (sector : list Z) : M (world H) unit :=
  match todo with
  | [] => mret tt
  | p :: todo =>
      part ← lift (part_of sector p);
      (if part_type part =? 0 then mret tt
       else add_disk (name ++ [49 + p]) i (p + 1)
              (Ata.mk_data (Ata.channel d) (Ata.drive d) (part_lba part) (disk_len (part_sectors part))));;
      add_partitions todo name i d sector
  end.

(** One drive: [continue] when its own device cannot be added. *)
Definition add_drive (i count : Z) (d : Ata.ata_device) : M (world H) unit :=
  let name := [115; 100; 97 + count] in
  p ← alloc;
  match p with
  | None => mret tt
  | Some _ =>
      dev ← device_add name (i + 1) 0 DEVICE_TYPE_BLOCK;
      match dev with
      | None => mret tt
      | Some a =>
          set_driver a (DiskData (Ata.mk_data (Ata.channel d) (Ata.drive d) 0 (disk_len (Ata.size d)))) ATA_SECTOR_SIZE AtaFunctions;;
          if 0 <? Ata.size d then
            r ← on_ata (Ata.ata_read_sectors io prdt_phys patience (Ata.channel d) (Ata.drive d) 1 0);
            if truthy r.1 then mret tt else
            magic ← lift (mbr_magic r.2);
            if magic =? MBR_MAGIC then add_partitions [0; 1; 2; 3] name i d r.2 else mret tt
          else mret tt
      end
  end.

(** The loop over the four drives from [i] on; [count] is the letter. *)
Fixpoint add_drives (n : nat) (i count : Z) : M (world H) unit :=
  match n with
  | O => mret tt
  | S n =>
      w ← gets (fun w => w);
      d ← lift ((Ata.ata_devices (disks w)).[i]);
      if truthy (Ata.exists_ d) then add_drive i count d;; add_drives n (i + 1) (count + 1)
      else add_drives n (i + 1) count
  end.
Definition device_ata_init : M (world H) unit := add_drives 4 0 0.

(** *** The console (drivers/ttydev.c) *)

Definition console_name : list Z := [99; 111; 110; 115; 111; 108; 101].

Definition tty_device_init (kernel_tty : Z) : M (world H) unit :=
  dev ← device_add console_name 0 0 DEVICE_TYPE_CHAR;
  w ← gets (fun w => w);
  (match dev with
   | Some a => set_driver a (TtyData (Tty.current_tty (terminals w))) 0 TtyFunctions
   | None => mret tt
   end);;
  m ← on_mem hashmap_create;
  m ← lift m;
  r ← on_mem (hashmap_insert m 0 kernel_tty);
  modify (fun w => set_tty_map w (Some r.2)).

Definition tty_get_from_sid (kernel_tty sid : Z) : M (world H) Z :=
  w ← gets (fun w => w);
  match tty_hashmap w with
  | None => mret kernel_tty
  | Some m => a ← lift (hashmap_lookup m (u64 sid)); mret (if truthy a then a else kernel_tty)
  end.

(** The terminal of a descriptor; the private data of a character device is taken
    for one. *)
Definition tty_from_fd (fd : Z) : M (world H) (option Z) :=
  w ← gets (fun w => w);
  r ← lift (FdTable.file_fd (files w) this fd);
  match r with
  | Err _ => mret None
  | Ok k =>
      file ← lift ((FdTable.system_fd_table (files w)).[k]);
      node ← lift (nodes w !! FdTable.vnode file);
      if (node : bool * Vfs.vnode).1 then
        a ← lookup_num (Vfs.v_rdev node.2);
        if negb (truthy a) then mret None else
        d ← device_at a;
        match dev_type d, dev_data d with
        | DEVICE_TYPE_CHAR, TtyData t => mret (Some t)
        | DEVICE_TYPE_CHAR, NoData => mret None
        | DEVICE_TYPE_CHAR, DiskData _ => fault
        | DEVICE_TYPE_BLOCK, _ => mret None
        end
      else mret None
  end.

(** ** The filesystem (drivers/fs/devfs.c) *)

(** [devfs_fill]: the attributes of a vnode from its inode number. *)
Definition with_attrs (vp : Vfs.vnode) (mode nlink rdev size blocks blksize : Z) : Vfs.vnode :=
  Vfs.mk_vnode mode (Vfs.v_ino vp) nlink 0 0 rdev (real_time, 0) (real_time, 0) (real_time, 0)
    size blocks blksize (Vfs.v_mount vp).

Definition devfs_fill (vp : Vfs.vnode) : M (world H) (res Vfs.vnode) :=
  if Vfs.v_ino vp =? DEVFS_ROOT_INO then mret (Ok (with_attrs vp DEVFS_DIR_MODE 2 0 0 0 PAGE_SIZE))
  else if Vfs.v_ino vp =? DEVFS_FD_INO then mret (Ok (with_attrs vp DEVFS_DIR_MODE 3 0 0 0 PAGE_SIZE))
  else if truthy (Z.shiftr (Vfs.v_ino vp) 32) then mret (Err ENOENT)
  else
    a ← lookup_num (Vfs.v_ino vp);
    if negb (truthy a) then mret (Err ENOENT) else
    d ← device_at a;
    match dev_type d with
    | DEVICE_TYPE_BLOCK =>
        match dev_data d with
        | DiskData data =>
            mret (Ok (with_attrs vp DEVFS_BLOCK_DEVICE_MODE 1 (Vfs.v_ino vp) (Ata.dd_len data)
                        (Ata.dd_len data / ATA_SECTOR_SIZE) (block_size d)))
        | _ => fault
        end
    | DEVICE_TYPE_CHAR =>
        mret (Ok (with_attrs vp DEVFS_CHAR_DEVICE_MODE 1 (Vfs.v_ino vp) 0 0 PAGE_SIZE))
    end.

(** A zeroed vnode with an inode number. *)
Definition new_vnode (ino : Z) (mp : option Vfs.mount) : Vfs.vnode :=
  Vfs.mk_vnode 0 ino 0 0 0 0 (0, 0) (0, 0) (0, 0) 0 0 0 mp.

(** The object and its map of children; what was taken is given back. *)
Definition vnode_alloc : M (world H) bool :=
  ok ← on_mem malloc;
  if negb (ok : bool) then mret false else
  children ← on_mem strmap_create;
  match children with
  | None => mret false
  | Some _ => modify (fun w => set_vnodes w (vnodes w + 1));; mret true
  end.
Definition unref_vnode : M (world H) unit := modify (fun w => set_vnodes w (vnodes w - 1)).

Definition devfs_mount (mp : Vfs.mount) : M (world H) (res Vfs.vnode) :=
  ok ← vnode_alloc;
  if negb (ok : bool) then mret (Err ENOMEM) else devfs_fill (new_vnode DEVFS_ROOT_INO (Some mp)).

Definition devfs_unmount : M (world H) (res Z) := unref_vnode;; mret (Ok 0).
Definition devfs_check : M (world H) (res Z) := mret (Ok 0).

Definition fd_name : list Z := [102; 100].

(** The inode number of a name; a character device may be in exclusive use. *)
Definition name_ino (name : list Z) : M (world H) (res Z) :=
  if decide (name = fd_name) then mret (Ok DEVFS_FD_INO) else
  a ← lookup_name name;
  if negb (truthy a) then mret (Err ENOENT) else
  d ← device_at a;
  match dev_type d, dev_data d with
  | DEVICE_TYPE_CHAR, TtyData t =>
      tty ← on_tty (Tty.get t);
      if truthy (Z.land (Tty.flags tty) Tty.TTY_FLAG_EXCL) then unref_vnode;; mret (Err EPERM)
      else mret (Ok (makedev (major d) (minor d)))
  | DEVICE_TYPE_CHAR, _ => fault
  | DEVICE_TYPE_BLOCK, _ => mret (Ok (makedev (major d) (minor d)))
  end.

Definition devfs_lookup (devfs : Vfs.mount) (name : list Z) : M (world H) (res Vfs.vnode) :=
  ok ← vnode_alloc;
  if negb (ok : bool) then mret (Err ENOMEM) else
  ino ←? name_ino name;
  r ← devfs_fill (new_vnode ino (Some devfs));
  match r with
  | Ok vp => mret (Ok vp)
  | Err e => unref_vnode;; mret (Err e)
  end.

(** *** Reading and writing *)

(** The loop over a character device; [got] are the bytes stored so far. A terminal
    returns no other status. *)
Fixpoint char_read (n : nat) (tty : Z) (got : list Z) : M (world H) (outcome (res Z) * list Z) :=
  match n with
  | O => mret (Returns (Ok (zlen got)), got)
  | S n =>
      r ← on_tty (Tty.tty_device_read tty);
      match r with
      | Tty.Waits => mret (Waits, got)
      | Tty.Returns st c =>
          if st =? 1 then c ← lift c; char_read n tty (got ++ [c])
          else if st =? 2 then c ← lift c; mret (Returns (Ok (zlen (got ++ [c]))), got ++ [c])
          else if st =? 0 then mret (Returns (if zlen got =? 0 then Err EAGAIN else Ok (zlen got)), got)
          else fault
      end
  end.

(** Spinning on a lock that is held never ends. *)
Definition devfs_read (rdev : Z) (buffer : list Z) (len offset : Z) : M (world H) (outcome (res Z) * list Z) :=
  a ← lookup_num rdev;
  if negb (truthy a) then mret (Returns (Err ENOENT), buffer) else
  d ← device_at a;
  match dev_type d, dev_functions d, dev_data d with
  | DEVICE_TYPE_BLOCK, AtaFunctions, DiskData data =>
      r ← on_ata (Ata.ata_device_read io prdt_phys patience data buffer len offset);
      mret (Returns r.1, r.2)
  | DEVICE_TYPE_CHAR, TtyFunctions, TtyData tty =>
      w ← gets (fun w => w);
      if read_lock w then fault else
      modify (fun w => set_locks w true (write_lock w));;
      r ← char_read (Z.to_nat len) tty [];
      b ← lift (blit buffer 0 r.2);
      (match r.1 with Waits => mret tt | Returns _ => modify (fun w => set_locks w false (write_lock w)) end);;
      mret (r.1, b)
  | _, _, _ => fault
  end.

Fixpoint char_write (data : list Z) (tty i : Z) : M (world H) (res Z) :=
  match data with
  | [] => mret (Ok i)
  | c :: data =>
      r ← on_tty (Tty.tty_device_write out group tty c);
      match r with
      | Ok 1 => char_write data tty (i + 1)
      | Ok 0 => mret (if i =? 0 then Err EAGAIN else Ok i)
      | Ok _ => fault
      | Err e => mret (Err e)
      end
  end.

Definition devfs_write (rdev : Z) (buffer : list Z) (len offset : Z) : M (world H) (res Z) :=
  a ← lookup_num rdev;
  if negb (truthy a) then mret (Err ENOENT) else
  d ← device_at a;
  match dev_type d, dev_functions d, dev_data d with
  | DEVICE_TYPE_BLOCK, AtaFunctions, DiskData data =>
      on_ata (Ata.ata_device_write io prdt_phys patience data buffer len offset)
  | DEVICE_TYPE_CHAR, TtyFunctions, TtyData tty =>
      w ← gets (fun w => w);
      if write_lock w then fault else
      modify (fun w => set_locks w (read_lock w) true);;
      data ← lift (slice buffer 0 len);
      r ← char_write data tty 0;
      modify (fun w => set_locks w (read_lock w) false);;
      mret r
  | _, _, _ => fault
  end.

(** *** Listings *)

(** The first key in the buckets from an index on. *)
Fixpoint first_key (bs : list (list (entry Z))) : option (option Z) :=
  match bs with
  | [] => Some None
  | [] :: bs => first_key bs
  | (e :: _) :: _ => k ← entry_key e; Some (Some k)
  end.

(** The entry of the device with number [offset] and the next offset. *)
Definition list_device (de : Vfs.dirent) (offset : Z) : M (world H) (res (Z * Vfs.dirent)) :=
  a ← lookup_num offset;
  if negb (truthy a) then mret (Err EINVAL) else
  d ← device_at a;
  name ← lift (if zlen (dev_name d) <? 256 then Some (dev_name d) else None);
  let de := Vfs.mk_dirent offset (Vfs.d_reclen de) (zlen name)
              (match dev_type d with DEVICE_TYPE_BLOCK => DT_BLK | DEVICE_TYPE_CHAR => DT_CHR end) name in
  w ← gets (fun w => w);
  let m := device_num_map w in
  index ← lift (bucket_index offset (bucket_count m));
  chain ← lift ((buckets m).[index]);
  pos ← lift (find_key offset chain);
  pos ← lift pos;
  match chain !! S pos with
  | Some e => k ← lift (entry_key e); mret (Ok (k, de))
  | None => k ← lift (first_key (drop (Z.to_nat (index + 1)) (buckets m))); mret (Ok (default 0 k, de))
  end.

Definition list_root (de : Vfs.dirent) (offset : Z) : M (world H) (res (Z * Vfs.dirent)) :=
  if offset =? DEVFS_SPECIAL_INO then
    mret (Ok (DEVFS_SPECIAL_INO + 1, Vfs.mk_dirent DEVFS_FD_INO (Vfs.d_reclen de) 2 DT_DIR fd_name))
  else if offset =? DEVFS_SPECIAL_INO + 1 then mret (Ok (0, de))
  else if offset =? 0 then
    w ← gets (fun w => w);
    k ← lift (first_key (buckets (device_num_map w)));
    let offset := default 0 k in
    if offset =? 0 then mret (Ok (DEVFS_SPECIAL_INO, de)) else list_device de offset
  else list_device de offset.

(** The first slot of a table from an index on that is in use. *)
Fixpoint next_used (slots : list (option Z)) (i : Z) : option Z :=
  match slots with [] => None | Some _ :: _ => Some i | None :: slots => next_used slots (i + 1) end.

Definition list_fds (de : Vfs.dirent) (offset : Z) : M (world H) (res (Z * Vfs.dirent)) :=
  w ← gets (fun w => w);
  t ← lift (FdTable.fds (files w) !! this);
  let slots := take (Z.to_nat (FdTable.size t)) (FdTable.table t) in
  match (if offset =? 0 then next_used slots 0 else Some offset) with
  | None => mret (Ok (0, de))
  | Some offset =>
      slot ← lift ((FdTable.table t).[offset]);
      k ← lift slot;
      file ← lift ((FdTable.system_fd_table (files w)).[k]);
      node ← lift (nodes w !! FdTable.vnode file);
      text ← lift (Printf.sprintf 200 ∅ [37; 100] [Printf.AInt (s32 offset)] (replicate 256 0));
      let name := take (Z.to_nat text.1) text.2 in
      let de := Vfs.mk_dirent offset (Vfs.d_reclen de) (zlen name) (Z.shiftr (Z.land (Vfs.v_mode node.2) Vfs.S_IFMT) 12) name in
      mret (Ok (default 0 (next_used (drop (Z.to_nat (offset + 1)) slots) (offset + 1)), de))
  end.

(** The next offset, zero at the end. *)
Definition devfs_readdir (ino : Z) (de : Vfs.dirent) (offset : Z) : M (world H) (res (Z * Vfs.dirent)) :=
  if ino =? DEVFS_ROOT_INO then list_root de offset
  else if ino =? DEVFS_FD_INO then list_fds de offset
  else mret (Err ENOENT).

Definition devfs_readlink : M (world H) (res Z) := mret (Err EIO).
End devfs.


(** ** Registered devices *)
Section registry.
Context {H : Type} (io : Ata.port_io H) (prdt_phys : Z -> Z) (patience : nat).
Context (out : Tty.tty_output) (real_time group : Z) (this : nat).
Implicit Types w : world H.

Definition number (d : device) : Z := makedev (major d) (minor d).

(** The map of names and the map of numbers hold the same devices, each under its
    own name and number. *)
Record registry_ok w : Prop := {
  reg_names : map_ok (device_name_map w);
  reg_nums : map_ok (device_num_map w);
  reg_next : 0 < next_addr w;
  reg_addr a : is_Some (devices w !! a) -> 0 < a < next_addr w;
  reg_by_name n a : to_map (device_name_map w) !! n = Some a ->
    exists d, devices w !! a = Some d /\ dev_name d = n /\ to_map (device_num_map w) !! number d = Some a;
  reg_by_num k a : to_map (device_num_map w) !! k = Some a ->
    exists d, devices w !! a = Some d /\ number d = k /\ to_map (device_name_map w) !! dev_name d = Some a
}.

(** A device under a name. *)
Definition registered w (name : list Z) (d : device) : Prop :=
  dev_name d = name /\ exists a, to_map (device_name_map w) !! name = Some a /\ devices w !! a = Some d.

Lemma makedev_range major minor : 0 <= makedev major minor < 2 ^ 32.
Proof.
  unfold makedev. apply lor_bound; [lia| |].
  - change 0xffff with (Z.ones 16). rewrite Z.land_ones, Z.shiftl_mul_pow2 by lia.
    pose proof (Z.mod_pos_bound major (2 ^ 16) ltac:(lia)). lia.
  - change 0xffff with (Z.ones 16). rewrite Z.land_ones by lia. pose proof (Z.mod_pos_bound minor (2 ^ 16) ltac:(lia)). lia.
Qed.

(** The number gives back its two parts. *)
Lemma makedev_parts ma mi : 0 <= ma < 2 ^ 16 -> 0 <= mi < 2 ^ 16 ->
  major_of (makedev ma mi) = ma /\ minor_of (makedev ma mi) = mi.
Proof.
  intros Hma Hmi. unfold makedev, major_of, minor_of. change 0xffff with (Z.ones 16).
  rewrite !(Z.land_ones ma), !(Z.land_ones mi), !Z.mod_small by lia.
  rewrite Z.lor_comm, lor_high by lia. rewrite !Z.land_ones, Z.shiftr_div_pow2 by lia. split; divlia.
Qed.

Lemma lookup_num_run w k : map_ok (device_num_map w) -> 0 <= k < 2 ^ 64 ->
  lookup_num k w = Some (default 0 (to_map (device_num_map w) !! k), w).
Proof. intros [Hb _] Hk. unfold lookup_num, hashmap_lookup, lift. by rewrite (lookup_spec _ k Hb Hk). Qed.

Lemma lookup_name_run w n : map_ok (device_name_map w) -> Forall (fun b => 0 < b < 256) n ->
  lookup_name n w = Some (default 0 (to_map (device_name_map w) !! n), w).
Proof. intros [Hb _] Hk. unfold lookup_name, strmap_lookup, lift. by rewrite (lookup_spec _ n Hb Hk). Qed.

(** A lookup by number finds the device. *)
Lemma num_finds {B} w k a d (f : Z -> M (world H) B) g : registry_ok w ->
  to_map (device_num_map w) !! k = Some a -> devices w !! a = Some d -> 0 <= k < 2 ^ 64 ->
  (x ← lookup_num k; if negb (truthy x) then f x else e ← device_at x; g e) w = g d w.
Proof.
  intros Hok Hk Hd Hr. rewrite (bind_run _ _ _ _ _ (lookup_num_run w k (reg_nums w Hok) Hr)), Hk. change (default 0 (Some a)) with a.
  pose proof (reg_addr w Hok a (mk_is_Some _ _ Hd)) as Ha. unfold truthy. destruct (Z.eqb_spec a 0); [lia|].
  cbn [negb]. unfold device_at, lift, mbind, M_bind. by rewrite Hd.
Qed.

(** ** Registration *)

Lemma new_addr_run w : all_succeed (oracle w) ->
  exists o, alloc w = Some (Some (next_addr w), set_alloc w o (next_addr w + 1)) /\ all_succeed o.
Proof.
  intros Ho. destruct (malloc_succeeds 0 (oracle w)) as (o & Hm & _ & Hall); [by apply Forall_take|].
  exists o. split; [|auto]. unfold alloc, on_mem, mbind, M_bind. by rewrite Hm.
Qed.

(** What [device_add] returns and leaves, when memory does not run out. *)
Lemma device_add_ok w name ma mi type :
  registry_ok w -> all_succeed (oracle w) ->
  object_count (device_name_map w) < 2 ^ 58 -> object_count (device_num_map w) < 2 ^ 58 ->
  Forall (fun b => 0 < b < 256) name ->
  to_map (device_name_map w) !! name = None -> to_map (device_num_map w) !! makedev ma mi = None ->
  let d := mk_device type name ma mi NoData 0 NoFunctions in
  exists a w', device_add name ma mi type w = Some (Some a, w') /\
    devices w' = <[a := d]> (devices w) /\ devices w !! a = None /\ 0 < a < next_addr w' /\
    to_map (device_name_map w') = <[name := a]> (to_map (device_name_map w)) /\
    to_map (device_num_map w') = <[makedev ma mi := a]> (to_map (device_num_map w)) /\
    map_ok (device_name_map w') /\ map_ok (device_num_map w') /\ all_succeed (oracle w') /\
    object_count (device_name_map w') <= object_count (device_name_map w) + 1 /\
    object_count (device_num_map w') <= object_count (device_num_map w) + 1 /\
    next_addr w <= next_addr w' /\ terminals w' = terminals w /\ disks w' = disks w.
Proof.
  intros Hok Ho Hc1 Hc2 Hn Hfn Hfk d. set (a := next_addr w).
  destruct (new_addr_run w Ho) as (o1 & Ha1 & Ho1). set (w1 := set_alloc w o1 (next_addr w + 1)) in *.
  destruct (new_addr_run w1 Ho1) as (o2 & Ha2 & Ho2). set (w2 := set_alloc w1 o2 (next_addr w1 + 1)) in *.
  destruct (insert_spec (device_name_map w) name a o2) as (r1 & m1 & o3 & Hi1 & Hm1 & Hcnt1 & Hres1 & Hall1);
    [apply Hok|exact Hn|done|by apply alloc_safe_all|done|].
  destruct (Hall1 Ho2) as [-> Ho3].
  destruct Hres1 as [[_ Hmap1]|[? _] ]; [|done].
  destruct (insert_spec (device_num_map w) (makedev ma mi) a o3) as (r2 & m2 & o4 & Hi2 & Hm2 & Hcnt2 & Hres2 & Hall2);
    [apply Hok|pose proof (makedev_range ma mi); cbn; lia|done|by apply alloc_safe_all|done|].
  destruct (Hall2 Ho3) as [-> Ho4]. destruct Hres2 as [[_ Hmap2]|[? _] ]; [|done].
  pose proof (reg_next w Hok) as Hnext.
  exists a. eexists. split.
  { unfold device_add. rewrite (bind_run _ _ _ _ _ Ha1), (bind_run _ _ _ _ _ Ha2).
    unfold put_device. rewrite modify_run, gets_run. fold a.
    rewrite (bind_run _ _ _ (0, m1) (set_alloc (set_devs w2 (<[a := d]> (devices w2))) o3 (next_addr w2)))
      by (unfold on_mem, strmap_insert; cbn -[insert]; by rewrite Hi1).
    rewrite modify_run. change (truthy (0, m1).1) with false. cbv iota. rewrite gets_run.
    rewrite (bind_run _ _ _ (0, m2) (set_alloc (set_names (set_devs w2 (<[a := d]> (devices w2))) m1) o4 (next_addr w2)))
      by (unfold on_mem, hashmap_insert; cbn -[insert]; by rewrite Hi2).
    rewrite modify_run. change (truthy (0, m2).1) with false. reflexivity. }
  cbn. split_and!; auto; try lia.
  destruct (devices w !! a) eqn:E; [|done]. pose proof (reg_addr w Hok a (mk_is_Some _ _ E)). unfold a in *. lia.
Qed.
Lemma registry_add w a w' name ma mi type : registry_ok w ->
  let d := mk_device type name ma mi NoData 0 NoFunctions in
  to_map (device_name_map w) !! name = None -> to_map (device_num_map w) !! makedev ma mi = None ->
  devices w' = <[a := d]> (devices w) -> devices w !! a = None -> 0 < a < next_addr w' -> next_addr w <= next_addr w' ->
  to_map (device_name_map w') = <[name := a]> (to_map (device_name_map w)) ->
  to_map (device_num_map w') = <[makedev ma mi := a]> (to_map (device_num_map w)) ->
  map_ok (device_name_map w') -> map_ok (device_num_map w') -> registry_ok w'.
Proof.
  intros [_ _ Hn Ha Hbn Hbk] d Hfn Hfk Hd Hfresh Haw Hnw HN HK Hm1 Hm2. split; auto; [lia|..].
  - intros a' [d' Hd']. rewrite Hd in Hd'. apply lookup_insert_Some in Hd' as [[<- _]|[_ Hd'] ]; [done|].
    pose proof (Ha a' (mk_is_Some _ _ Hd')). lia.
  - intros n a' Hna. rewrite HN in Hna. apply lookup_insert_Some in Hna as [[<- <-]|[Hne Hna] ].
    + exists d. rewrite Hd, HK, lookup_insert_eq. split_and!; auto. apply lookup_insert_eq.
    + destruct (Hbn n a' Hna) as (d' & Hd' & Hn' & Hk'). exists d'. rewrite Hd, HK.
      rewrite lookup_insert_ne by congruence. split_and!; auto. rewrite lookup_insert_ne; [done|congruence].
  - intros k a' Hka. rewrite HK in Hka. apply lookup_insert_Some in Hka as [[<- <-]|[Hne Hka] ].
    + exists d. rewrite Hd, HN, lookup_insert_eq. split_and!; auto. apply lookup_insert_eq.
    + destruct (Hbk k a' Hka) as (d' & Hd' & Hk' & Hn'). exists d'. rewrite Hd, HN.
      rewrite lookup_insert_ne by congruence. split_and!; auto. rewrite lookup_insert_ne; [done|congruence].
Qed.

(** A driver stores its data in the device: names and numbers stay. *)
Lemma set_driver_ok w name d data bsize f : registry_ok w -> registered w name d ->
  exists a w', to_map (device_name_map w) !! name = Some a /\ set_driver a data bsize f w = Some (tt, w') /\ registry_ok w' /\
    registered w' name (mk_device (dev_type d) (dev_name d) (major d) (minor d) data bsize f).
Proof.
  intros [H1 H2 Hn Ha Hbn Hbk] (Hname & a & Hna & Hd).
  set (d' := mk_device (dev_type d) (dev_name d) (major d) (minor d) data bsize f).
  exists a, (set_devs w (<[a := d']> (devices w))). split; [done|]. split.
  { unfold set_driver, device_at, lift, mbind, M_bind. by rewrite Hd. }
  split; [|split; [done|]; exists a; split; [done|apply lookup_insert_eq] ].
  split; auto; cbn.
  - intros a' Hs. apply Ha. destruct (decide (a' = a)) as [->|]; [by eexists|]. by rewrite lookup_insert_ne in Hs.
  - intros n a' Hna'. destruct (Hbn n a' Hna') as (e & He & Hne & Hke). destruct (decide (a' = a)) as [->|].
    + exists d'. rewrite lookup_insert_eq. assert (e = d) as -> by congruence. done.
    + exists e. by rewrite lookup_insert_ne.
  - intros k a' Hka'. destruct (Hbk k a' Hka') as (e & He & Hke & Hne). destruct (decide (a' = a)) as [->|].
    + exists d'. rewrite lookup_insert_eq. assert (e = d) as -> by congruence. done.
    + exists e. by rewrite lookup_insert_ne.
Qed.

(** C36: Registering a device keeps the map of names and the map of numbers in step.
    When memory does not run out, [device_add] with a name and a number that are not
    taken returns a new device with them; it is found under both, every device that
    was registered before still is, and the two maps hold the same devices, each
    under its own name and number. *)
Theorem device_add_registers w name ma mi type :
  registry_ok w -> all_succeed (oracle w) ->
  object_count (device_name_map w) < 2 ^ 58 -> object_count (device_num_map w) < 2 ^ 58 ->
  Forall (fun b => 0 < b < 256) name ->
  to_map (device_name_map w) !! name = None -> to_map (device_num_map w) !! makedev ma mi = None ->
  exists a w', device_add name ma mi type w = Some (Some a, w') /\ registry_ok w' /\
    lookup_name name w' = Some (a, w') /\ lookup_num (makedev ma mi) w' = Some (a, w') /\
    registered w' name (mk_device type name ma mi NoData 0 NoFunctions) /\
    forall n d, registered w n d -> registered w' n d.
Proof.
  intros Hok Ho Hc1 Hc2 Hn Hfn Hfk.
  destruct (device_add_ok w name ma mi type Hok Ho Hc1 Hc2 Hn Hfn Hfk)
    as (a & w' & Hrun & Hd & Hfr & Ha & HN & HK & Hm1 & Hm2 & _ & _ & _ & Hnx & _).
  exists a, w'. split; [done|]. split; [by eapply registry_add|]. split_and!.
  - by rewrite lookup_name_run, HN, lookup_insert_eq.
  - pose proof (makedev_range ma mi). by rewrite lookup_num_run, HK, lookup_insert_eq by (auto; lia).
  - split; [done|]. exists a. rewrite HN, Hd, !lookup_insert_eq. done.
  - intros n d (Hdn & b & Hb & Hdb). split; [done|]. exists b. rewrite HN, Hd.
    rewrite !lookup_insert_ne by congruence. done.
Qed.

(** ** Lookup *)

Lemma create_succeeds {K} `{MapKey K} (o : mem) : all_succeed o ->
  exists (m : hmap K) o', create o = Some (Some m, o') /\ all_succeed o'.
Proof.
  intros Ho. destruct (malloc_succeeds 1 o) as (o1 & H1 & _ & Ha1); [by apply Forall_take|].
  destruct (malloc_succeeds 0 o1) as (o2 & H2 & _ & Ha2); [by apply Forall_take, Ha1|].
  eexists _, o2. split; [|auto]. unfold create, mbind, M_bind. rewrite H1. cbn [negb]. rewrite H2. reflexivity.
Qed.

Lemma vnode_alloc_run w : all_succeed (oracle w) ->
  exists o, vnode_alloc w = Some (true, set_vnodes (set_alloc w o (next_addr w)) (vnodes w + 1)) /\ all_succeed o.
Proof.
  intros Ho. destruct (malloc_succeeds 0 (oracle w)) as (o1 & H1 & _ & Ha1); [by apply Forall_take|].
  destruct (create_succeeds (K := list Z) o1 (Ha1 Ho)) as (m & o2 & H2 & Ha2).
  exists o2. split; [|done]. unfold vnode_alloc, on_mem, strmap_create, mbind, M_bind. rewrite H1. cbn [negb oracle set_alloc].
  rewrite H2. reflexivity.
Qed.

(** A world that differs from [w] in the vnodes, the allocations and the disks. *)
Lemma registry_same w w' : device_name_map w' = device_name_map w -> device_num_map w' = device_num_map w ->
  devices w' = devices w -> next_addr w' = next_addr w -> registry_ok w -> registry_ok w'.
Proof. intros E1 E2 E3 E4 []. split; rewrite ?E1, ?E2, ?E3, ?E4; auto. Qed.

Lemma registered_number w name d : registry_ok w -> registered w name d ->
  exists a, to_map (device_num_map w) !! number d = Some a /\ devices w !! a = Some d.
Proof.
  intros Hok (_ & a & Hna & Hd). destruct (reg_by_name w Hok name a Hna) as (e & He & _ & Hk).
  assert (e = d) as -> by congruence. eauto.
Qed.

(** Looking up the name of a disk: the vnode has its number and its size. *)
Lemma lookup_disk w devfs name d data : registry_ok w -> all_succeed (oracle w) ->
  registered w name d -> name <> fd_name -> Forall (fun b => 0 < b < 256) name ->
  dev_type d = DEVICE_TYPE_BLOCK -> dev_data d = DiskData data ->
  exists vp w', devfs_lookup real_time devfs name w = Some (Ok vp, w') /\
    Vfs.v_rdev vp = number d /\ Vfs.v_ino vp = number d /\ Vfs.v_mode vp = DEVFS_BLOCK_DEVICE_MODE /\
    Vfs.v_size vp = Ata.dd_len data /\ Vfs.v_blocks vp = Ata.dd_len data / ATA_SECTOR_SIZE /\
    registry_ok w' /\ registered w' name d /\ disks w' = disks w.
Proof.
  intros Hok Ho Hreg Hne Hn Ht Hdata. destruct (vnode_alloc_run w Ho) as (o & Hv & Ho').
  set (w1 := set_vnodes (set_alloc w o (next_addr w)) (vnodes w + 1)) in *.
  assert (registry_ok w1) as Hok1 by by apply (registry_same w).
  pose proof Hreg as (_ & a & Hna & Hd). destruct (registered_number w name d Hok Hreg) as (a' & Hk & Hd').
  assert (a' = a) as ->.
  { destruct (reg_by_name w Hok name a Hna) as (e & He & _ & Hk'). assert (e = d) as -> by congruence. congruence. }
  pose proof (makedev_range (major d) (minor d)) as Hr. fold (number d) in Hr.
  assert (name_ino name w1 = Some (Ok (number d), w1)) as Hino.
  { unfold name_ino. rewrite decide_False by done.
    rewrite (bind_run _ _ _ _ _ (lookup_name_run w1 name (reg_names w1 Hok1) Hn)).
    change (to_map (device_name_map w1)) with (to_map (device_name_map w)). rewrite Hna.
    change (default 0 (Some a)) with a. pose proof (reg_addr w Hok a (mk_is_Some _ _ Hd)).
    unfold truthy. destruct (Z.eqb_spec a 0); [lia|]. cbn [negb].
    rewrite (bind_run (device_at a) _ w1 d w1) by (unfold device_at, lift; change (devices w1) with (devices w); by rewrite Hd). by rewrite Ht. }
  exists (with_attrs real_time (new_vnode (number d) (Some devfs)) DEVFS_BLOCK_DEVICE_MODE 1 (number d) (Ata.dd_len data)
    (Ata.dd_len data / ATA_SECTOR_SIZE) (block_size d)), w1.
  split; [|by split_and!].
  unfold devfs_lookup. rewrite (bind_run _ _ _ _ _ Hv). cbn [negb]. rewrite (andthen_ok _ _ _ _ _ Hino).
  unfold devfs_fill. cbn [Vfs.v_ino new_vnode].
  destruct (Z.eqb_spec (number d) DEVFS_ROOT_INO); [lia|]. destruct (Z.eqb_spec (number d) DEVFS_FD_INO); [lia|].
  rewrite Z.shiftr_div_pow2, (Z.div_small (number d)) by lia. change (truthy 0) with false. cbv iota.
  unfold mbind at 1, M_bind at 1.
  rewrite (num_finds w1 (number d) a d); auto; [|lia]. rewrite Ht, Hdata. reflexivity.
Qed.
End registry.


(** ** Disks as files *)
Section disk_files.
Context {H : Type} (io : Ata.port_io H) (prdt_phys : Z -> Z) (patience : nat).
Context (out : Tty.tty_output) (real_time group : Z) (this : nat).
Context (data : Ata.disk_device_data).
Implicit Types w : world H.

(** A block device of the ATA driver. *)
Definition is_disk (d : device) : Prop :=
  dev_type d = DEVICE_TYPE_BLOCK /\ dev_data d = DiskData data /\ dev_functions d = AtaFunctions.

Lemma devfs_write_disk w name d buf len offset : registry_ok w -> registered w name d -> is_disk d ->
  devfs_write io prdt_phys patience out group (number d) buf len offset w =
    on_ata (Ata.ata_device_write io prdt_phys patience data buf len offset) w.
Proof.
  intros Hok Hreg (Ht & Hd & Hf). destruct (registered_number w name d Hok Hreg) as (a & Hk & Hda).
  pose proof (makedev_range (major d) (minor d)). unfold devfs_write.
  rewrite (num_finds w (number d) a d); auto; [|unfold number; lia]. by rewrite Ht, Hd, Hf.
Qed.

Lemma devfs_read_disk w name d buf len offset : registry_ok w -> registered w name d -> is_disk d ->
  devfs_read io prdt_phys patience (number d) buf len offset w =
    (r ← on_ata (Ata.ata_device_read io prdt_phys patience data buf len offset); mret (Returns r.1, r.2)) w.
Proof.
  intros Hok Hreg (Ht & Hd & Hf). destruct (registered_number w name d Hok Hreg) as (a & Hk & Hda).
  pose proof (makedev_range (major d) (minor d)). unfold devfs_read.
  rewrite (num_finds w (number d) a d); auto; [|unfold number; lia]. by rewrite Ht, Hd, Hf.
Qed.

(** C37: a registered disk or partition can be read through its name. Looking the name
    up gives a block device vnode whose size is the length stored for the device, and
    reading a range inside the device through the vnode returns the length and exactly
    the bytes that the drive holds there, the rest of the buffer being left alone. The
    drive is one in programmed mode, of at most 2^28 sectors, on a channel that keeps
    the promises of the ATA standard, and memory for the vnode is available. *)
Theorem disk_file_reads bs ctl `{!Ata.Controller io patience bs ctl} w devfs name d D buf len offset :
  registry_ok w -> all_succeed (oracle w) -> registered w name d -> is_disk d ->
  name <> fd_name -> Forall (fun b => 0 < b < 256) name ->
  Ata.pio_drive io patience data bs ctl (disks w) D -> Ata.in_device data D len offset -> len <= zlen buf ->
  exists vp w1, devfs_lookup real_time devfs name w = Some (Ok vp, w1) /\
    Vfs.v_mode vp = DEVFS_BLOCK_DEVICE_MODE /\ Vfs.v_size vp = Ata.dd_len data /\
    exists w2 buf', devfs_read io prdt_phys patience (Vfs.v_rdev vp) buf len offset w1 = Some ((Returns (Ok len), buf'), w2) /\
      Ata.pio_drive io patience data bs ctl (disks w2) D /\
      Ata.filled D (Ata.disk_pos data offset) 0 len buf buf'.
Proof.
  intros Hok Ho Hreg Hdisk Hne Hn HD Hin Hb. pose proof Hdisk as (Ht & Hdata & _).
  destruct (lookup_disk real_time w devfs name d data Hok Ho Hreg Hne Hn Ht Hdata)
    as (vp & w1 & Hl & Hrd & _ & Hm & Hs & _ & Hok1 & Hreg1 & Hds).
  exists vp, w1. split_and!; auto. rewrite Hrd. rewrite <- Hds in HD.
  destruct (Ata.pio_device_read io prdt_phys patience data bs ctl (disks w1) D buf len offset HD Hin Hb) as (s2 & b & Hr & Hd2 & Hf).
  exists (set_disks w1 s2), b. rewrite (devfs_read_disk w1 name d) by auto. split_and!; auto.
  unfold on_ata, mbind, M_bind. by rewrite Hr.
Qed.

(** With a drive that can be written, what is written through the vnode is read
    back through it. *)
Lemma disk_file_roundtrip `{!Ata.Disk io prdt_phys patience (Ata.dd_channel data) (Ata.dd_drive data),
    !Ata.WritableDisk io prdt_phys patience (Ata.dd_channel data) (Ata.dd_drive data)} w devfs name d D buf buf2 len offset :
  registry_ok w -> all_succeed (oracle w) -> registered w name d -> is_disk d ->
  name <> fd_name -> Forall (fun b => 0 < b < 256) name ->
  Ata.drive_holds io prdt_phys patience data (disks w) D -> Ata.in_device data D len offset ->
  len <= zlen buf -> len <= zlen buf2 ->
  exists vp w1, devfs_lookup real_time devfs name w = Some (Ok vp, w1) /\
    Vfs.v_mode vp = DEVFS_BLOCK_DEVICE_MODE /\ Vfs.v_size vp = Ata.dd_len data /\
    exists w2 D', devfs_write io prdt_phys patience out group (Vfs.v_rdev vp) buf len offset w1 = Some (Ok len, w2) /\
      Ata.drive_holds io prdt_phys patience data (disks w2) D' /\
      Ata.filled buf (- Ata.disk_pos data offset) (Ata.disk_pos data offset) (Ata.disk_pos data offset + len) D D' /\
      exists w3 buf', devfs_read io prdt_phys patience (Vfs.v_rdev vp) buf2 len offset w2 =
          Some ((Returns (Ok len), buf'), w3) /\
        slice buf' 0 len = slice buf 0 len.
Proof.
  intros Hok Ho Hreg Hdisk Hne Hn HD Hin Hb Hb2. pose proof Hdisk as (Ht & Hdata & _).
  destruct (lookup_disk real_time w devfs name d data Hok Ho Hreg Hne Hn Ht Hdata)
    as (vp & w1 & Hl & Hrd & _ & Hm & Hs & _ & Hok1 & Hreg1 & Hds).
  exists vp, w1. split_and!; auto. rewrite Hrd. rewrite <- Hds in HD.
  pose proof (Ata.in_device_end data D len offset Hin) as Hend. destruct Hin as (? & ? & ? & ? & ? & ?).
  destruct (Ata.device_write_ok io prdt_phys patience data (disks w1) D buf len offset) as (s2 & D' & Hw & Hd2 & Hf); auto.
  set (w2 := set_disks w1 s2). exists w2, D'.
  assert (registry_ok w2) as Hok2 by by apply (registry_same w1).
  rewrite (devfs_write_disk w1 name d) by auto. split_and!; auto.
  { unfold on_ata. by rewrite Hw. }
  destruct (Ata.device_read_ok io prdt_phys patience data s2 D' buf2 len offset) as (s3 & b3 & Hr & _ & Hf3); auto.
  { by rewrite (proj1 Hf). }
  exists (set_disks w2 s3), b3. rewrite (devfs_read_disk w2 name d) by auto. split.
  { unfold on_ata, mbind, M_bind. cbn [disks w2 set_disks]. by rewrite Hr. }
  pose proof (proj1 Hf) as HlD. unfold Ata.disk_pos in *.
  assert (Ata.dd_lba data * 512 + offset + len <= zlen D) by divlia.
  pose proof (Ata.filled_slice _ _ _ _ _ _ Hf3) as E1. pose proof (Ata.filled_slice _ _ _ _ _ _ Hf) as E2.
  replace len with (len - 0) at 1 by lia. rewrite E1 by lia.
  replace (0 + (Ata.dd_lba data * 512 + offset)) with (Ata.dd_lba data * 512 + offset) by lia.
  replace (len - 0) with (Ata.dd_lba data * 512 + offset + len - (Ata.dd_lba data * 512 + offset)) by lia.
  rewrite E2 by lia. f_equal; lia.
Qed.
End disk_files.

(** ** The console as a file *)
Section console_file.
Context {H : Type} (io : Ata.port_io H) (prdt_phys : Z -> Z) (patience : nat).
Context (out : Tty.tty_output) `{O : !Tty.OutputModel out} (real_time group : Z) (this : nat).
Implicit Types w : world H.

Lemma on_tty_run {A} w a t (m : M Tty.world A) r t' : Tty.displaying Tty.shown a t (terminals w) ->
  Tty.paints Tty.shown a t m r t' ->
  exists tw, on_tty m w = Some (r, set_terminals w tw) /\ Tty.displaying Tty.shown a t' tw.
Proof.
  intros Hw Hp. destruct (Hp _ Hw) as (tw & E & _ & Hd). exists tw. split; [|done]. unfold on_tty. by rewrite E.
Qed.

(** Reading [n] characters of a complete line takes as many as there are; the line
    ends the read. *)
Lemma char_read_line a f n : forall rest t got w, (0 < n)%nat -> rest <> [] ->
  Tty.displaying Tty.shown a t (terminals w) -> Tty.delivering f rest t -> Tty.idle f ->
  exists t' tw, char_read n a got w = Some ((Returns (Ok (zlen (got ++ take n rest))), got ++ take n rest), set_terminals w tw) /\
    Tty.displaying Tty.shown a t' tw /\
    if decide (length rest <= n)%nat then Tty.typing f [] t' else Tty.delivering f (drop n rest) t'.
Proof.
  induction n as [|n IH]; intros rest t got w Hn Hne Hw Hd Hf; [lia|]. destruct rest as [|c rest]; [done|].
  destruct (Tty.read_paints a f c rest t Hd Hf) as (t1 & H1 & Ht1).
  destruct (on_tty_run w a t _ _ _ Hw H1) as (tw1 & E1 & D1). cbn [char_read]. rewrite (bind_run _ _ _ _ _ E1).
  destruct (decide (rest = [])) as [->|Hr].
  - exists t1, tw1. cbn [Z.eqb Pos.eqb take]. rewrite take_nil. split; [done|]. split; [done|].
    rewrite decide_True by (cbn; lia). done.
  - cbn [Z.eqb Pos.eqb]. destruct n as [|n].
    + exists t1, tw1. cbn [take drop char_read]. split; [done|]. split; [done|].
      rewrite decide_False by (cbn; destruct rest; [done|cbn; lia]). by rewrite drop_0.
    + destruct (IH rest t1 (got ++ [c]) (set_terminals w tw1)) as (t2 & tw2 & E2 & D2 & Ht2); auto; [lia|].
      exists t2, tw2. rewrite <- app_assoc in E2. split; [exact E2|]. split; [done|].
      cbn [length drop]. repeat case_decide; try lia; done.
Qed.

(** A terminal as a character device. *)
Definition is_tty (d : device) (a : Z) : Prop :=
  dev_type d = DEVICE_TYPE_CHAR /\ dev_data d = TtyData a /\ dev_functions d = TtyFunctions.

(** C38: a line typed at the terminal is read through its device file. The keys
    are plain characters, erase, kill (^U) and characters quoted by ^V other than
    newline and ^D, in any order and number, and then Enter; word erase, reprint,
    signal and end-of-file characters are not among them ([key_ok] of [Tty]; a quoted
    newline or ^D and word erase break the line buffer, [full_line_overruns] there).
    A read of at least one byte returns the start of the edited line, which holds at
    most 1023 characters and the newline, as many bytes as fit in the length that was
    asked for, and no more than the line; the rest of the line is left for the next
    read, the buffer behind the bytes is not touched and the lock of the file is
    free again. *)
Theorem typed_line_from_file w name d a f ks t buf len :
  registry_ok w -> registered w name d -> is_tty d a -> read_lock w = false ->
  Tty.displaying Tty.shown a t (terminals w) -> Tty.typing f [] t -> Tty.idle f -> Forall Tty.key_ok ks ->
  0 < len <= zlen buf ->
  let line := Tty.edited ks ++ [10] in
  let got := take (Z.to_nat len) line in
  exists w1 w2 t', on_tty (Tty.input_bytes out a (concat (Tty.key_bytes <$> ks) ++ [10])) w = Some (tt, w1) /\
    devfs_read io prdt_phys patience (number d) buf len 0 w1 =
      Some ((Returns (Ok (zlen got)), got ++ drop (length got) buf), w2) /\
    read_lock w2 = false /\ Tty.displaying Tty.shown a t' (terminals w2) /\
    if decide (length line <= Z.to_nat len)%nat then Tty.typing f [] t' else Tty.delivering f (drop (Z.to_nat len) line) t'.
Proof.
  intros Hok Hreg (Ht & Hdt & Hfn) Hlock Hw Hty Hf Hks Hlen line got.
  destruct (Tty.keys_paints a f ks [] t Hty Hf Hks) as (t1 & H1 & Ht1). fold (Tty.edited ks) in Ht1.
  destruct (Tty.enter_paints a f _ t1 Ht1 Hf) as (t2 & H2 & Ht2). fold line in Ht2.
  pose proof (Tty.input_app_paints a _ [10] _ _ _ _ H1 H2) as Hin.
  destruct (on_tty_run w a t _ _ _ Hw Hin) as (tw & E & Dw). set (w1 := set_terminals w tw) in *.
  assert (registry_ok w1) as Hok1 by by apply (registry_same w).
  destruct (registered_number w name d Hok Hreg) as (ad & Hk & Hda).
  pose proof (makedev_range (major d) (minor d)).
  set (w1l := set_locks w1 true (write_lock w1)).
  destruct (char_read_line a f (Z.to_nat len) line t2 [] w1l) as (t3 & tw3 & Hr & D3 & Ht3); auto; [lia|by destruct (Tty.edited ks)|].
  assert (zlen got <= len) as Hg by (unfold got, zlen; rewrite length_take; lia).
  exists w1, (set_locks (set_terminals w1l tw3) false (write_lock w1)), t3. split_and!; auto.
  unfold devfs_read. rewrite (num_finds w1 (number d) ad d); auto; [|unfold number; lia].
  rewrite Ht, Hdt, Hfn. rewrite gets_run. change (read_lock w1) with (read_lock w). rewrite Hlock.
  rewrite modify_run. fold w1l. rewrite (bind_run _ _ _ _ _ Hr). cbn [app fst snd]. fold got.
  assert (blit buf 0 got = Some (got ++ drop (length got) buf)) as Hb.
  { unfold blit. destruct (Z.leb_spec (0 + zlen got) (zlen buf)); [|lia]. cbn [Z.leb Z.compare andb].
    change (take (Z.to_nat 0) buf) with (@nil Z). by replace (Z.to_nat (0 + zlen got)) with (length got) by (unfold zlen; lia). }
  unfold lift, mbind, M_bind. rewrite Hb. reflexivity.
Qed.
End console_file.


(** ** Listing /dev *)
Section listing.
Context {H : Type} (this : nat).
Implicit Types w : world H.

(** The devices in the order of the buckets of the map of numbers. *)
Definition order w : list (Z * Z) := pairs (buckets (device_num_map w)).

Lemma split_unique (l1 l2 l1' l2' : list (Z * Z)) k a a' :
  NoDup (l1 ++ (k, a) :: l2).*1 -> l1 ++ (k, a) :: l2 = l1' ++ (k, a') :: l2' -> a' = a /\ l2' = l2.
Proof.
  revert l1'. induction l1 as [|p l1 IH]; intros [|p' l1'] Hnd E; cbn in *; simplify_eq; auto.
  - apply NoDup_cons in Hnd as [Hni _]. exfalso. apply Hni. rewrite fmap_app. apply elem_of_app. right. left.
  - apply NoDup_cons in Hnd as [Hni _]. exfalso. apply Hni. rewrite fmap_app. apply elem_of_app. right. left.
  - apply NoDup_cons in Hnd as [_ Hnd]. by eapply IH.
Qed.

Lemma first_key_spec count bs : chains_ok count bs -> first_key bs = Some (head (pairs bs).*1).
Proof.
  induction 1 as [|chain bs [i Hc] _ IH]; [done|]. rewrite pairs_cons. destruct Hc as [|e chain He _]; [exact IH|].
  cbn [first_key]. pose proof He as (_ & k & Hk & _). rewrite (proj2 (entry_ok_key _ _ _ k He) Hk). orun.
  unfold chain_pairs. cbn [omap list_omap]. unfold pair_of at 1. by rewrite Hk.
Qed.

Lemma chains_of_buckets count (bs : list (list (entry Z))) : buckets_ok count bs -> chains_ok count bs.
Proof. intros (_ & _ & Hb & _). apply Forall_lookup. eauto. Qed.

(** Where a key is, and what follows it in the order. *)
Lemma key_place w k a l1 l2 : map_ok (device_num_map w) -> 0 <= k < 2 ^ 64 -> order w = l1 ++ (k, a) :: l2 ->
  let m := device_num_map w in
  exists index chain pos, bucket_index k (bucket_count m) = Some index /\ 0 <= index /\ (buckets m).[index] = Some chain /\
    Forall (entry_ok (bucket_count m) index) chain /\ find_key k chain = Some (Some pos) /\
    l2 = chain_pairs (drop (S pos) chain) ++ pairs (drop (Z.to_nat (index + 1)) (buckets m)).
Proof.
  intros [Hb _] Hk Ho m. fold m in Hb. destruct (bucket_of_key _ _ k Hb Hk) as (i & chain & Hi & Hr & Hz & Hch & Hf).
  exists i, chain. pose proof Hb as (_ & _ & _ & Hnd).
  destruct (find_key_spec _ _ k _ Hf) as [(pos & e & Hfind & Hp & He)|[_ Hn] ].
  2: { pose proof (not_in_bucket _ _ _ _ _ Hb Hi Hch ltac:(lia) Hn) as Hnin. exfalso. apply Hnin.
       unfold order in Ho. fold m in Ho. rewrite Ho, fmap_app. apply elem_of_app. right. left. }
  exists pos. split_and!; auto; [lia|].
  assert (order w = (pairs (take (Z.to_nat i) (buckets m)) ++ chain_pairs (take pos chain)) ++ (k, e_value e) ::
    (chain_pairs (drop (S pos) chain) ++ pairs (drop (S (Z.to_nat i)) (buckets m)))) as E.
  { unfold order. fold m. rewrite <- (take_drop_middle _ _ _ Hch) at 1. unfold pairs at 1.
    rewrite concat_app, chain_pairs_app. cbn [concat]. rewrite chain_pairs_app.
    rewrite <- (take_drop_middle _ _ _ Hp) at 1. rewrite chain_pairs_app.
    unfold chain_pairs at 3. cbn [omap list_omap]. unfold pair_of at 1. rewrite He. cbn.
    by rewrite <- !app_assoc. }
  rewrite Ho in E. unfold order in Ho. fold m in Ho. rewrite Ho in Hnd.
  destruct (split_unique _ _ _ _ _ _ _ Hnd E) as [_ <-].
  by replace (Z.to_nat (i + 1)) with (S (Z.to_nat i)) by lia.
Qed.

(** The directory entry of a device. *)
Definition device_entry (de : Vfs.dirent) (d : device) : Vfs.dirent :=
  Vfs.mk_dirent (number d) (Vfs.d_reclen de) (zlen (dev_name d))
    (match dev_type d with DEVICE_TYPE_BLOCK => DT_BLK | DEVICE_TYPE_CHAR => DT_CHR end) (dev_name d).

Lemma list_device_ok w de k a l1 l2 : registry_ok w -> (forall a d, devices w !! a = Some d -> zlen (dev_name d) < 256) ->
  order w = l1 ++ (k, a) :: l2 ->
  exists d, devices w !! a = Some d /\ number d = k /\
    list_device de k w = Some (Ok (default 0 (head l2.*1), device_entry de d), w).
Proof.
  intros Hok Hlen Ho. pose proof (reg_nums w Hok) as Hm. pose proof Hm as [Hb _]. pose proof Hb as (_ & _ & _ & Hnd).
  assert (to_map (device_num_map w) !! k = Some a) as Hk.
  { unfold to_map. apply elem_of_list_to_map_1; [done|]. unfold order in Ho. rewrite Ho. apply elem_of_app. right. left. }
  destruct (reg_by_num w Hok k a Hk) as (d & Hd & Hnum & _). exists d. split_and!; auto.
  assert (0 <= k < 2 ^ 64) as Hr by (pose proof (makedev_range (major d) (minor d)); unfold number in Hnum; lia).
  destruct (key_place w k a l1 l2 Hm Hr Ho) as (i & chain & pos & Hi & Hi0 & Hz & Hf & Hfind & Hl2).
  unfold list_device. rewrite (num_finds w k a d) by auto.
  pose proof (Hlen a d Hd). destruct (Z.ltb_spec (zlen (dev_name d)) 256); [|lia].
  unfold lift. unfold mbind, M_bind, gets. cbn [mret]. rewrite Hi, Hz, Hfind.
  unfold device_entry. rewrite Hnum.
  assert (chain !! S pos = head (drop (S pos) chain)) as ->.
  { pose proof (lookup_drop chain (S pos) 0) as E. rewrite Nat.add_0_r in E. rewrite <- E. by destruct (drop _ chain). }
  assert (Forall (entry_ok (bucket_count (device_num_map w)) i) (drop (S pos) chain)) as Hfd by by apply Forall_drop.
  destruct (drop (S pos) chain) as [|e2 c2]; cbn [head].
  - rewrite (first_key_spec (bucket_count (device_num_map w))), Hl2; [done|].
    by apply Forall_drop, chains_of_buckets.
  - apply Forall_cons in Hfd as [He2 _]. pose proof He2 as (_ & k2 & Hk2 & _).
    rewrite (proj2 (entry_ok_key _ _ _ k2 He2) Hk2), Hl2.
    unfold chain_pairs. cbn [omap list_omap]. unfold pair_of at 1. by rewrite Hk2.
Qed.

(** [devfs_readdir] walks through the registered devices. At the number of a
    device (not zero) it stores the entry of that device and returns the number of
    the next device in the order of the map, or zero after the last one; at offset
    zero it does the same for the first device of the map. Only when the map is
    empty, or its first device has number zero, is the offset of the entry fd
    returned instead, and after that entry the listing ends. *)
Theorem readdir_walks_devices w de :
  registry_ok w -> (forall a d, devices w !! a = Some d -> zlen (dev_name d) < 256) ->
  (forall l1 k a l2, order w = l1 ++ (k, a) :: l2 -> k <> 0 ->
     exists d, devices w !! a = Some d /\ number d = k /\
       devfs_readdir this DEVFS_ROOT_INO de k w = Some (Ok (default 0 (head l2.*1), device_entry de d), w)) /\
  devfs_readdir this DEVFS_ROOT_INO de 0 w =
    (match order w with
     | (k, _) :: _ => if k =? 0 then Some (Ok (DEVFS_SPECIAL_INO, de), w) else devfs_readdir this DEVFS_ROOT_INO de k w
     | [] => Some (Ok (DEVFS_SPECIAL_INO, de), w)
     end) /\
  (exists e, devfs_readdir this DEVFS_ROOT_INO de DEVFS_SPECIAL_INO w = Some (Ok (DEVFS_SPECIAL_INO + 1, e), w) /\
     Vfs.d_name e = fd_name /\ devfs_readdir this DEVFS_ROOT_INO e (DEVFS_SPECIAL_INO + 1) w = Some (Ok (0, e), w)).
Proof.
  intros Hok Hlen.
  assert (forall k, k <> 0 -> k < DEVFS_SPECIAL_INO -> devfs_readdir this DEVFS_ROOT_INO de k w = list_device de k w) as Hdev.
  { intros k Hk Hs. unfold devfs_readdir, list_root. rewrite Z.eqb_refl.
    destruct (Z.eqb_spec k DEVFS_SPECIAL_INO), (Z.eqb_spec k (DEVFS_SPECIAL_INO + 1)), (Z.eqb_spec k 0); try lia. done. }
  assert (forall l1 k a l2, order w = l1 ++ (k, a) :: l2 -> k < DEVFS_SPECIAL_INO) as Hsmall.
  { intros l1 k a l2 Ho. destruct (list_device_ok w de k a l1 l2 Hok Hlen Ho) as (d & _ & <- & _).
    pose proof (makedev_range (major d) (minor d)). unfold number. lia. }
  split_and!.
  - intros l1 k a l2 Ho Hk. rewrite Hdev by eauto. by eapply list_device_ok.
  - unfold devfs_readdir at 1, list_root.
    change (0 =? DEVFS_SPECIAL_INO) with false. change (0 =? DEVFS_SPECIAL_INO + 1) with false. change (0 =? 0) with true.
    pose proof (reg_nums w Hok) as [Hb _].
    pose proof (first_key_spec (bucket_count (device_num_map w)) _ (chains_of_buckets _ _ Hb)) as Hf. fold (order w) in Hf.
    change (DEVFS_ROOT_INO =? DEVFS_ROOT_INO) with true. cbv iota. rewrite gets_run.
    unfold lift. unfold mbind, M_bind. rewrite Hf. clear Hf. cbv beta iota.
    destruct (order w) as [|[k a] l] eqn:Ho; [done|]. change (default 0 (head ((k, a) :: l).*1)) with k.
    destruct (Z.eqb_spec k 0); [done|]. symmetry. apply Hdev; [done|]. by eapply (Hsmall []).
  - eexists. split; [reflexivity|]. split; reflexivity.
Qed.
End listing.


(** ** Systems with devices *)
Module Example.
Module E := Ata.Emulator.
#[local] Existing Instance E.emulated.
#[local] Existing Instance Tty.vga_text_model.

Definition empty_names : strmap := mk_hmap (calloc_ptrs 16) 16 0.
Definition empty_nums : hashmap := mk_hmap (calloc_ptrs 16) 16 0.
Definition no_files : FdTable.fd_state := FdTable.mk_fd_state [] 0 false [] [].

(** After [device_map_init], with the terminals [tw] and the disks [s]. *)
Definition fresh {H} (tw : Tty.world) (s : Ata.state H) : world H :=
  mk_world empty_names empty_nums ∅ [] 1 false false 0 None tw s no_files ∅.

Lemma fresh_ok {H} tw (s : Ata.state H) : registry_ok (fresh tw s).
Proof.
  split; cbn; [|exact empty_hashmap_ok|lia| |done|done].
  { split_and!; simpl; auto; [apply buckets_ok_empty; lia|]. by vm_compute. }
  intros a [d Hd]. by rewrite lookup_empty in Hd.
Qed.

Lemma fresh_names {H} tw (s : Ata.state H) n : to_map (device_name_map (fresh tw s)) !! n = None.
Proof. done. Qed.
Lemma fresh_nums {H} tw (s : Ata.state H) k : to_map (device_num_map (fresh tw s)) !! k = None.
Proof. done. Qed.

(** One device is registered and given to a driver. *)
Lemma one_device {H} tw (s : Ata.state H) name ma mi type data bsize f : Forall (fun b => 0 < b < 256) name ->
  let d := mk_device type name ma mi data bsize f in
  exists w, registry_ok w /\ registered w name d /\ all_succeed (oracle w) /\ terminals w = tw /\ disks w = s /\
    read_lock w = false /\ exists a, devices w = {[a := d]} /\ to_map (device_num_map w) = {[makedev ma mi := a]}.
Proof.
  intros Hn d.
  destruct (device_add_ok (fresh tw s) name ma mi type (fresh_ok tw s)) as
    (a & w1 & Hrun & Hd & Hfr & Ha & HN & HK & Hm1 & Hm2 & Ho & _ & _ & Hnx & Ht & Hs); cbn; auto; [lia|lia|].
  assert (registry_ok w1) as Hok1 by by eapply (registry_add (fresh tw s) a w1 name ma mi type (fresh_ok tw s)).
  assert (registered w1 name (mk_device type name ma mi NoData 0 NoFunctions)) as Hreg.
  { split; [done|]. exists a. by rewrite HN, Hd, !lookup_insert_eq. }
  destruct (set_driver_ok w1 name _ data bsize f Hok1 Hreg) as (a' & w2 & Hna & Hset & Hok2 & Hreg2).
  rewrite HN, lookup_insert_eq in Hna. injection Hna as <-.
  unfold set_driver, device_at, lift, mbind, M_bind in Hset. rewrite Hd, lookup_insert_eq in Hset.
  injection Hset as <-. exists (set_locks (set_devs w1 (<[a := d]> (devices w1))) false (write_lock w1)).
  split_and!; auto; [by apply (registry_same (set_devs w1 (<[a := d]> (devices w1))))|].
  exists a. cbn. rewrite Hd, HK, insert_insert_eq. done.
Qed.

Definition sda : list Z := [115; 100; 97].

Lemma device_add_registers_witness : exists a w',
  device_add sda 1 0 DEVICE_TYPE_BLOCK (fresh Tty.boot_world E.boot_state) = Some (Some a, w') /\
  lookup_name sda w' = Some (a, w') /\ lookup_num 65536 w' = Some (a, w').
Proof.
  destruct (device_add_registers (fresh Tty.boot_world E.boot_state) sda 1 0 DEVICE_TYPE_BLOCK)
    as (a & w' & H1 & _ & H2 & H3 & _).
  - apply fresh_ok.
  - constructor.
  - cbn. lia.
  - cbn. lia.
  - repeat constructor.
  - reflexivity.
  - reflexivity.
  - exists a, w'. split; [exact H1|]. split; [exact H2|exact H3].
Defined.

Lemma disk_file_reads_witness : exists (w : world E.channel_state) vp w1,
  devfs_lookup 0 (Vfs.mk_mount 0 0) sda w = Some (Ok vp, w1) /\ Vfs.v_size vp = 1536 /\
  exists w2 buf', devfs_read (E.lagging 3) (fun _ => 0) 3 (Vfs.v_rdev vp) (replicate 800 0) 700 100 w1 =
      Some ((Returns (Ok 700), buf'), w2) /\
    Ata.filled E.four_sectors 612 0 700 (replicate 800 0) buf'.
Proof.
  destruct (one_device Tty.boot_world E.boot_state sda 1 0 DEVICE_TYPE_BLOCK (DiskData E.partition) 512 AtaFunctions)
    as (w & Hok & Hreg & Ho & _ & Hs & _); [by repeat constructor|]. exists w.
  destruct (disk_file_reads (E.lagging 3) (fun _ => 0) 3 0 E.partition 0x1f0 0x3f6 w (Vfs.mk_mount 0 0) sda
    (mk_device DEVICE_TYPE_BLOCK sda 1 0 (DiskData E.partition) 512 AtaFunctions) E.four_sectors (replicate 800 0) 700 100)
    as (vp & w1 & Hl & _ & Hsz & w2 & buf' & Hr & _ & Hb).
  - exact Hok.
  - exact Ho.
  - exact Hreg.
  - by split_and!.
  - done.
  - by repeat constructor.
  - rewrite Hs. apply E.boot_drive.
  - split_and!; try done; lia.
  - rewrite zlen_replicate. lia.
  - exists vp, w1. split; [exact Hl|]. split; [exact Hsz|]. exists w2, buf'. split; [exact Hr|exact Hb].
Defined.

Lemma typed_line_from_file_witness : exists (w w1 w2 : world E.channel_state),
  on_tty (Tty.input_bytes Tty.vga_text_output 4096 [97; 98; 31; 22; 3; 10]) w = Some (tt, w1) /\
  devfs_read E.ports (fun _ => 0) 0 0 (replicate 8 0) 2 0 w1 = Some ((Returns (Ok 2), [97; 3; 0; 0; 0; 0; 0; 0]), w2).
Proof.
  destruct Tty.boot_console as (tw & _ & D).
  destruct (one_device tw E.boot_state console_name 0 0 DEVICE_TYPE_CHAR (TtyData 4096) 0 TtyFunctions)
    as (w & Hok & Hreg & _ & Ht & _ & Hlock & _); [by repeat constructor|].
  destruct (typed_line_from_file E.ports (fun _ => 0) 0 Tty.vga_text_output w console_name
    (mk_device DEVICE_TYPE_CHAR console_name 0 0 (TtyData 4096) 0 TtyFunctions) 4096 0
    [Tty.Plain 97; Tty.Plain 98; Tty.Erase; Tty.Quote 3] (Tty.initialised Tty.boot_tty) (replicate 8 0) 2)
    as (w1 & w2 & t' & Hin & Hr & _).
  - exact Hok.
  - exact Hreg.
  - by split_and!.
  - exact Hlock.
  - rewrite Ht. exact D.
  - apply Tty.boot_typing.
  - reflexivity.
  - repeat constructor; try lia; rewrite !not_elem_of_cons; (split_and!; [lia.. | apply not_elem_of_nil]).
  - rewrite zlen_replicate. lia.
  - exists w, w1, w2. split; [exact Hin|exact Hr].
Defined.
Lemma readdir_walks_devices_witness : exists (w : world E.channel_state) e e',
  devfs_readdir 0 DEVFS_ROOT_INO (Vfs.mk_dirent 0 0 0 0 []) 0 w = Some (Ok (0, e), w) /\
  Vfs.d_name e = sda /\ Vfs.d_ino e = 65536 /\ Vfs.d_type e = DT_BLK /\
  devfs_readdir 0 DEVFS_ROOT_INO e DEVFS_SPECIAL_INO w = Some (Ok (DEVFS_SPECIAL_INO + 1, e'), w).
Proof.
  destruct (one_device Tty.boot_world E.boot_state sda 1 0 DEVICE_TYPE_BLOCK (DiskData E.partition) 512 AtaFunctions)
    as (w & Hok & Hreg & _ & _ & _ & _ & a & Hd & Hk); [by repeat constructor|].
  assert (order w = [(65536, a)]) as Ho.
  { apply Permutation_singleton_r. apply (list_to_map_inj (M := gmap Z)).
    - apply (reg_nums w Hok).
    - apply NoDup_singleton.
    - change (list_to_map (order w)) with (to_map (device_num_map w)). by rewrite Hk. }
  destruct (readdir_walks_devices 0 w (Vfs.mk_dirent 0 0 0 0 []) Hok) as (H1 & H2 & _).
  { intros a' d'. rewrite Hd. intros [_ <-]%lookup_singleton_Some. reflexivity. }
  destruct (H1 [] 65536 a [] Ho ltac:(lia)) as (d & Hda & _ & Hr).
  rewrite Hd in Hda. apply lookup_singleton_Some in Hda as [_ <-].
  rewrite Ho in H2. exists w. do 2 eexists. split; [exact (eq_trans H2 Hr)|]. split_and!; reflexivity.
Defined.

(** ** Where it goes wrong *)

(** A world without disks. *)
Definition bare : world unit := fresh Tty.boot_world (Ata.mk_state [] [] false false [] tt).

(** The console has number zero, which also means the end of a listing: with a disk
    of two partitions, the console, the first partition and fd are never listed. *)
Definition with_disks : M (world unit) (option Z) :=
  device_add console_name 0 0 DEVICE_TYPE_CHAR;; device_add sda 1 0 DEVICE_TYPE_BLOCK;;
  device_add (sda ++ [49]) 1 1 DEVICE_TYPE_BLOCK;; device_add (sda ++ [50]) 1 2 DEVICE_TYPE_BLOCK.

Lemma listing_stops_at_console :
  option_map (fun p => (order p.2).*1) (with_disks bare) = Some [65538; 65536; 0; 65537] /\
  option_map fst ((with_disks;; devfs_readdir 0 DEVFS_ROOT_INO (Vfs.mk_dirent 0 0 0 0 []) 65536) bare) =
    Some (Ok (0, Vfs.mk_dirent 65536 0 3 DT_BLK sda)).
Proof. split; vm_compute; reflexivity. Qed.

(** With the console alone, it is not listed at all: the first call returns a
    position and no entry. *)
Lemma console_not_listed :
  option_map fst ((device_add console_name 0 0 DEVICE_TYPE_CHAR;;
    devfs_readdir 0 DEVFS_ROOT_INO (Vfs.mk_dirent 0 0 0 0 []) 0) bare) =
    Some (Ok (DEVFS_SPECIAL_INO, Vfs.mk_dirent 0 0 0 0 [])).
Proof. vm_compute. reflexivity. Qed.

(** A failed insertion into the map of numbers removes the name with
    [strmap_remove], which reads an entry after freeing it. *)
Lemma failed_add_uses_freed_entry :
  (device_add console_name 0 0 DEVICE_TYPE_CHAR;; device_add sda 1 0 DEVICE_TYPE_BLOCK)
    (set_alloc bare (replicate 9 true ++ [false]) 1) = None.
Proof. vm_compute. reflexivity. Qed.

(** The length of a disk in bytes is computed in 32 bits: a drive of 4 GiB has
    length zero, and every read from it fails. *)
Lemma disk_len_wraps n : 2 ^ 23 <= n < 2 ^ 32 -> disk_len n < n * ATA_SECTOR_SIZE /\ disk_len (2 ^ 23) = 0.
Proof. intros Hn. split; [|done]. unfold disk_len. pose proof (wrap_range 32 (n * ATA_SECTOR_SIZE) ltac:(lia)). lia. Qed.
End Example.

(** A lookup that finds no device does not give its vnode back. *)
Lemma missing_name_leaks {H} real_time (w : world H) devfs name : registry_ok w -> all_succeed (oracle w) ->
  name <> fd_name -> Forall (fun b => 0 < b < 256) name -> to_map (device_name_map w) !! name = None ->
  exists w', devfs_lookup real_time devfs name w = Some (Err ENOENT, w') /\ vnodes w' = vnodes w + 1.
Proof.
  intros Hok Ho Hne Hn Hna. destruct (vnode_alloc_run w Ho) as (o & Hv & _).
  set (w1 := set_vnodes (set_alloc w o (next_addr w)) (vnodes w + 1)) in *. exists w1. split; [|done].
  unfold devfs_lookup. rewrite (bind_run _ _ _ _ _ Hv). cbn [negb]. apply andthen_err.
  unfold name_ino. rewrite decide_False by done.
  rewrite (bind_run _ _ _ _ _ (lookup_name_run w1 name (reg_names w Hok) Hn)).
  change (to_map (device_name_map w1)) with (to_map (device_name_map w)). by rewrite Hna.
Qed.

(** A read that waits for a line keeps the lock of [devfs_read]: another read of the
    console, even one that must not block, does not return before the line is typed. *)
Lemma waiting_read_keeps_lock {H} (io : Ata.port_io H) prdt_phys patience (w : world H) name d a f t buf len :
  registry_ok w -> registered w name d -> is_tty d a -> read_lock w = false ->
  Tty.ttys (terminals w) !! a = Some t -> Tty.typing f [] t -> Tty.idle f -> 0 < len ->
  exists w', devfs_read io prdt_phys patience (number d) buf len 0 w = Some ((Waits, buf), w') /\
    forall buf' len', devfs_read io prdt_phys patience (number d) buf' len' 0 w' = None.
Proof.
  intros Hok Hreg (Ht & Hdt & Hfn) Hlock Hw Hty Hf Hlen.
  destruct (registered_number w name d Hok Hreg) as (ad & Hk & Hda). pose proof (makedev_range (major d) (minor d)).
  set (w1 := set_locks w true (write_lock w)). exists w1.
  assert (registry_ok w1) as Hok1 by by apply (registry_same w).
  assert (on_tty (Tty.tty_device_read a) w1 = Some (Tty.Waits, w1)) as Hr.
  { unfold on_tty, Tty.tty_device_read, Tty.get, mbind, M_bind, gets, lift. cbn [terminals w1 set_locks]. rewrite Hw.
    rewrite (Tty.typing_tios f [] t Hty). change (Tty.lflag Tty.default_termios Tty.ICANON) with true.
    unfold Tty.tty_wait_input_ready. rewrite (Tty.typing_flags f [] t Hty).
    pose proof (Tty.idle_bits f Hf) as [_ H1]. rewrite (Tty.flag_set _ 1), H1 by lia. by destruct w. }
  split.
  - unfold devfs_read. rewrite (num_finds w (number d) ad d); auto; [|unfold number; lia].
    rewrite Ht, Hdt, Hfn. rewrite gets_run, Hlock, modify_run. fold w1.
    destruct (Z.to_nat len) as [|n] eqn:En; [lia|]. cbn [char_read].
    unfold mbind, M_bind. rewrite Hr. unfold mret, M_ret. cbn [fst snd]. unfold blit, lift. cbn. pose proof (zlen_nonneg buf). change (zlen []) with 0. destruct (Z.leb_spec (0 + 0) (zlen buf)); [done|lia].
  - intros buf' len'. unfold devfs_read. rewrite (num_finds w1 (number d) ad d); auto; [|unfold number; lia].
    by rewrite Ht, Hdt, Hfn.
Qed.
End Devfs.
