(* ===== verification/Namei.v ===== *)
(** * The file system tree (drivers/fs/vtree.c, vnode.c, mount.c, include/pml/object.h)

    Module [Namei]: vnodes with their reference counts, the cache of vnodes of a
    mounted file system, mount points, and the resolution of paths. *)

From stdpp Require Import gmap.
From S2P Require Import Prelude HashMap Cred Vfs.

Module Namei.
Import Cred Vfs.

Abbreviation SYMLOOP_MAX := 32.
Abbreviation LINK_MAX := 128.
Abbreviation PATH_MAX := 4096.

(** The parts of [struct vnode] that make up the tree; [vn] has the attributes. *)
Record node := mk_node {
  vn : vnode;
  n_mount : option Z;
  n_parent : option Z;
  n_children : gmap name Z;
  n_refs : Z
}.

(** [struct mount]; the cache maps inode numbers to vnodes. *)
Record mnt := mk_mnt { mp_parent : option Z; mp_root_name : option name; mp_root : Z; vcache : gmap Z Z }.

Definition set_refs (n : node) (r : Z) : node := mk_node (vn n) (n_mount n) (n_parent n) (n_children n) r.
Definition set_parent (n : node) (p : option Z) : node := mk_node (vn n) (n_mount n) p (n_children n) (n_refs n).
Definition set_children (n : node) (ch : gmap name Z) : node := mk_node (vn n) (n_mount n) (n_parent n) ch (n_refs n).

(** The pieces of a path that the loop of [vnode_namei] cuts off with [strchr]. *)
Fixpoint pieces (path : name) : list name :=
  match path with
  | [] => [[]]
  | x :: path =>
      if x =? 47 then [] :: pieces path else
      match pieces path with
      | [] => [[x]]
      | p :: ps => (x :: p) :: ps
      end
  end.

(** The contents of a buffer up to the first null byte. *)
Fixpoint cstring (l : list Z) : list Z :=
  match l with
  | [] => []
  | x :: l => if x =? 0 then [] else x :: cstring l
  end.

(** [strrchr (path, '/')]: what is before and after the last slash. *)
Fixpoint last_slash (path : name) : option (name * name) :=
  match path with
  | [] => None
  | x :: path' =>
      match last_slash path' with
      | Some (d, n) => Some (x :: d, n)
      | None => if x =? 47 then Some ([], path') else None
      end
  end.

Section tree.
(** The state of the drivers, their operations and those of [mount_ops]. *)
Context {D : Type}.

(** The vnodes and mounts by their addresses, the working directory of the
    process, [errno], and the outcomes of coming allocations. *)
Record fs := mk_fs {
  nodes : gmap Z node;
  mounts : gmap Z mnt;
  mount_table : list Z;
  root_vnode : Z;
  cwd : Z;
  next_addr : Z;
  err : errno;
  drv : D;
  oom : HashMap.mem
}.

Definition set_nodes (s : fs) (x : gmap Z node) : fs :=
  mk_fs x (mounts s) (mount_table s) (root_vnode s) (cwd s) (next_addr s) (err s) (drv s) (oom s).
Definition set_mounts (s : fs) (x : gmap Z mnt) : fs :=
  mk_fs (nodes s) x (mount_table s) (root_vnode s) (cwd s) (next_addr s) (err s) (drv s) (oom s).
Definition with_cwd (s : fs) (x : Z) : fs :=
  mk_fs (nodes s) (mounts s) (mount_table s) (root_vnode s) x (next_addr s) (err s) (drv s) (oom s).
Definition with_next (s : fs) (x : Z) : fs :=
  mk_fs (nodes s) (mounts s) (mount_table s) (root_vnode s) (cwd s) x (err s) (drv s) (oom s).
Definition with_err (s : fs) (x : errno) : fs :=
  mk_fs (nodes s) (mounts s) (mount_table s) (root_vnode s) (cwd s) (next_addr s) x (drv s) (oom s).
Definition with_drv (s : fs) (x : D) : fs :=
  mk_fs (nodes s) (mounts s) (mount_table s) (root_vnode s) (cwd s) (next_addr s) (err s) x (oom s).
Definition with_oom (s : fs) (x : HashMap.mem) : fs :=
  mk_fs (nodes s) (mounts s) (mount_table s) (root_vnode s) (cwd s) (next_addr s) (err s) (drv s) x.

(** The operation vectors of a file system and its [dealloc] operation, which
    does nothing where the vector has none. *)
Context (ops : option Z -> @vnode_ops D) (op_dealloc : option Z -> vnode -> D -> D) (c : cred).

Definition get_node (p : Z) : M fs node := s ← gets (fun s => s); lift (nodes s !! p).
Definition put_node (p : Z) (n : node) : M fs unit := modify (fun s => set_nodes s (<[p := n]> (nodes s))).
Definition get_mount (m : option Z) : M fs mnt := s ← gets (fun s => s); lift (i ← m; mounts s !! i).
Definition set_cwd (p : Z) : M fs unit := modify (fun s => with_cwd s p).
Definition set_errno (e : errno) : M fs unit := modify (fun s => with_err s e).
Definition malloc : M fs bool := fun s => '(b, o) ← HashMap.malloc (oom s); Some (b, with_oom s o).

(** [REF_OBJECT] and [UNREF_OBJECT]; [vfs_dealloc] gives the inode numbers that
    [children] holds to [vnode_unref], which takes them for addresses. *)
Definition REF_OBJECT (p : Z) : M fs unit := n ← get_node p; put_node p (set_refs n (u32 (n_refs n + 1))).

Definition vnode_remove_cache (p : Z) : M fs unit :=
  n ← get_node p;
  m ← get_mount (n_mount n);
  i ← lift (n_mount n);
  modify (fun s => set_mounts s (<[i := mk_mnt (mp_parent m) (mp_root_name m) (mp_root m) (delete (v_ino (vn n)) (vcache m))]> (mounts s))).

Definition vfs_dealloc (unref : option Z -> M fs unit) (p : Z) : M fs unit :=
  n ← get_node p;
  (if forallb (fun x => x.2 =? 0) (map_to_list (n_children n)) then mret tt else fault);;
  unref (n_parent n);;
  (if n_mount n then vnode_remove_cache p else mret tt);;
  modify (fun s => with_drv s (op_dealloc (n_mount n) (vn n) (drv s)));;
  modify (fun s => set_nodes s (delete p (nodes s))).

Fixpoint unref (fuel : nat) (o : option Z) : M fs unit :=
  match o with
  | None => mret tt
  | Some p =>
      match fuel with
      | O => fault
      | S fuel =>
          n ← get_node p;
          put_node p (set_refs n (u32 (n_refs n - 1)));;
          if truthy (u32 (n_refs n - 1)) then mret tt else vfs_dealloc (unref fuel) p
      end
  end.

(** At most all vnodes are released. *)
Definition UNREF_OBJECT (o : option Z) : M fs unit := s ← gets (fun s => s); unref (S (size (nodes s))) o.

(** ** vnode.c *)

(** A vnode with the attributes [v]. When there is no memory for the map of
    children, [vfs_dealloc] reads the vector of operations, which is NULL. *)
Definition vnode_alloc (v : vnode) (m : option Z) : M fs (option Z) :=
  ok ← malloc;
  if negb ok then mret None else
  ok ← malloc;
  if negb ok then fault else
  s ← gets (fun s => s);
  put_node (next_addr s) (mk_node v m None ∅ 1);;
  modify (fun s => with_next s (next_addr s + 1));;
  mret (Some (next_addr s)).

Definition vnode_place_cache (p : Z) : M fs unit :=
  n ← get_node p;
  m ← get_mount (n_mount n);
  i ← lift (n_mount n);
  ok ← malloc;
  if negb ok then mret tt else
  modify (fun s => set_mounts s (<[i := mk_mnt (mp_parent m) (mp_root_name m) (mp_root m) (<[v_ino (vn n) := p]> (vcache m))]> (mounts s))).

Definition vnode_lookup_cache (m : option Z) (ino : Z) : M fs (option Z) :=
  mp ← get_mount m;
  mret (vcache mp !! ino).

(** ** vtree.c *)

(** [false] is the result -1. *)
Definition vnode_add_child (vp child : Z) (n : name) : M fs bool :=
  ok ← malloc;
  if negb ok then mret false else
  d ← get_node vp;
  ch ← get_node child;
  put_node vp (set_children d (<[n := v_ino (vn ch)]> (n_children d)));;
  REF_OBJECT child;;
  ch ← get_node child;
  put_node child (set_parent ch (Some vp));;
  REF_OBJECT vp;;
  mret true.

(** [vfs_lookup]; a driver makes the vnode of the file it finds. *)
Definition vfs_lookup (dir : Z) (n : name) : M fs (option Z) :=
  d ← get_node dir;
  s ← gets (fun s => s);
  let '(r, x) := Vfs.vfs_lookup (ops (n_mount d)) c (vn d) n (drv s) in
  modify (fun s => with_drv s x);;
  match r with
  | Err e => set_errno e;; mret None
  | Ok v =>
      p ← vnode_alloc v (n_mount d);
      match p with
      | None => set_errno ENOMEM;; mret None
      | Some _ => mret p
      end
  end.

Definition vnode_lookup_child (dir : Z) (n : name) : M fs (option Z) :=
  d ← get_node dir;
  let ino := default 0 (n_children d !! n) in
  if truthy ino then
    vp ← vnode_lookup_cache (n_mount d) ino;
    match vp with
    | None => mret None
    | Some p => REF_OBJECT p;; mret vp
    end
  else
    vp ← vfs_lookup dir n;
    match vp with
    | None => mret None
    | Some p => vnode_place_cache p;; vnode_add_child dir p n;; mret vp
    end.

(** [vnode_find_mount_point] of mount.c. *)
Fixpoint find_mount (ms : gmap Z mnt) (l : list Z) (vp : Z) (n : name) : option Z :=
  match l with
  | [] => None
  | i :: l =>
      match ms !! i with
      | Some m => if decide (mp_parent m = Some vp /\ mp_root_name m = Some n) then Some i else find_mount ms l vp n
      | None => None
      end
  end.
Definition vnode_find_mount_point (vp : Z) (n : name) : M fs (option Z) :=
  s ← gets (fun s => s);
  match find_mount (mounts s) (mount_table s) vp n with
  | None => mret None
  | Some i => m ← get_mount (Some i); REF_OBJECT (mp_root m);; mret (Some (mp_root m))
  end.

(** [vfs_readlink] into a buffer of [PATH_MAX] bytes that is then terminated. *)
Definition read_target (p : Z) : M fs (option name) :=
  n ← get_node p;
  s ← gets (fun s => s);
  let '(r, x) := vfs_readlink (ops (n_mount n)) c (vn n) (PATH_MAX - 1) (drv s) in
  modify (fun s => with_drv s x);;
  match r with
  | Err e => set_errno e;; mret None
  | Ok buffer => if zlen buffer <? PATH_MAX then mret (Some (cstring buffer)) else fault
  end.

Definition DOT : name := [46].
Definition DOTDOT : name := [46; 46].

(** The vnode that a piece of the path leads to from [vp]; [namei] resolves the
    targets of symbolic links. *)
Definition namei_step (namei : name -> Z -> M fs (option Z)) (link_count vp : Z) (n : name) : M fs (option Z) :=
  if decide (n = DOTDOT) then
    d ← get_node vp;
    q ← lift (n_parent d);
    REF_OBJECT q;;
    mret (Some q)
  else
    mp ← vnode_find_mount_point vp n;
    r ← (match mp with Some _ => mret mp | None => vnode_lookup_child vp n end);
    match r with
    | None => mret None
    | Some nvp =>
        x ← get_node nvp;
        if (0 <=? link_count) && S_ISLNK (v_mode (vn x)) then
          if LINK_MAX <=? link_count then set_errno ELOOP;; mret None else
          ok ← malloc;
          if negb ok then mret None else
          s ← gets (fun s => s);
          set_cwd vp;;
          t ← read_target nvp;
          match t with
          | None => set_cwd (cwd s);; mret None
          | Some target =>
              q ← namei target (link_count + 1);
              set_cwd (cwd s);;
              mret q
          end
        else mret r
    end.

Fixpoint namei_walk (namei : name -> Z -> M fs (option Z)) (link_count : Z) (l : list name) (vp : Z) : M fs (option Z) :=
  match l with
  | [] => mret (Some vp)
  | n :: l =>
      if decide (n = [] \/ n = DOT) then namei_walk namei link_count l vp else
      r ← namei_step namei link_count vp n;
      match r with
      | None => UNREF_OBJECT (Some vp);; mret None
      | Some nvp => namei_walk namei link_count l nvp
      end
  end.

(** [fuel] bounds the nesting of symbolic links. *)
Fixpoint vnode_namei (fuel : nat) (path : name) (link_count : Z) : M fs (option Z) :=
  match fuel with
  | O => fault
  | S fuel =>
      ok ← malloc;
      if negb ok then mret None else
      if SYMLOOP_MAX <=? link_count then set_errno ELOOP;; mret None else
      s ← gets (fun s => s);
      let '(vp, rest) := match path with
        | x :: rest => if x =? 47 then (root_vnode s, rest) else (cwd s, path)
        | [] => (cwd s, path)
        end in
      REF_OBJECT vp;;
      namei_walk (vnode_namei fuel) link_count (pieces rest) vp
  end.

(** The directory of the last component of a path, and the component. *)
Definition vnode_dir_name (fuel : nat) (path : name) : M fs (option (Z * name)) :=
  ok ← malloc;
  if negb ok then mret None else
  s ← gets (fun s => s);
  match last_slash path with
  | None => REF_OBJECT (cwd s);; mret (Some (cwd s, path))
  | Some ([], n) => REF_OBJECT (root_vnode s);; mret (Some (root_vnode s, n))
  | Some (d, n) =>
      vp ← vnode_namei fuel d 0;
      match vp with
      | None => mret None
      | Some p => mret (Some (p, n))
      end
  end.
End tree.
Arguments fs : clear implicits.

(** ** What paths mean

    A position in the tree is the list of files from the present one up to the
    root; a file is given by its file system and its attributes. *)

Definition file : Type := option Z * vnode.
Inductive outcome := Found (st : list file) | Failed (e : errno) | Unspecified.

(** A name that the drivers are asked for. *)
Definition ordinary (n : name) : Prop := n <> [] /\ n <> DOT /\ n <> DOTDOT.

Section meaning.
Context {D : Type} (ops : option Z -> @vnode_ops D) (c : cred).

(** The content [d] of the file systems; the file system mounted on an entry of a
    directory, the root directory of a file system, and the root of the tree. *)
Context (d : D) (mounted : option Z -> Z -> name -> option Z) (mroot : Z -> vnode) (rt : file).

Definition is_dir (f : file) : bool := S_ISDIR (v_mode f.2).
Definition entry_of (m : option Z) (v : vnode) (n : name) : res vnode := (call (op_lookup (ops m)) (v, n) d).1.
Definition target_of (f : file) : res (list Z) := (vfs_readlink (ops f.1) c f.2 (PATH_MAX - 1) d).1.

(** The entry [n] of the directory [f]. What a process finds in a directory that
    it may not read depends on whether others have looked there before. *)
Definition child (f : file) (n : name) : outcome :=
  if is_dir f then
    match mounted f.1 (v_ino f.2) n with
    | Some i => Found [(Some i, mroot i)]
    | None =>
        if vfs_can_read c f.2 false then
          match entry_of f.1 f.2 n with Ok w => Found [(f.1, w)] | Err e => Failed e end
        else Unspecified
    end
  else Failed (if vfs_can_read c f.2 false then ENOTDIR else EACCES).

(** One component of a path, and the cost: how many references may be taken. *)
Definition spec_step (rec : list file -> name -> outcome * Z) (follow : bool) (st : list file) (n : name) : outcome * Z :=
  match st with
  | [] => (Unspecified, 0)
  | f :: up =>
      if decide (n = DOTDOT) then
        match up with
        | [] => (Found st, 0)
        | _ => (if is_dir f then Found up else Unspecified, 0)
        end
      else
        match child f n with
        | Found [g] =>
            if follow && S_ISLNK (v_mode g.2) then
              match target_of g with
              | Ok b => rec st (cstring b)
              | Err e => (Failed e, 0)
              end
            else (Found (g :: st), 0)
        | o => (o, 0)
        end
  end.

Fixpoint spec_walk (rec : list file -> name -> outcome * Z) (follow : bool) (l : list name) (st : list file) : outcome * Z :=
  match l with
  | [] => (Found st, 0)
  | n :: l =>
      if decide (n = [] \/ n = DOT) then spec_walk rec follow l st else
      let '(o, k) := spec_step rec follow st n in
      match o with
      | Found st' => let '(o', k') := spec_walk rec follow l st' in (o', 1 + k + k')
      | _ => (o, 1 + k)
      end
  end.

(** [depth] is the number of nested symbolic links that may still be followed. *)
Fixpoint resolve (depth : nat) (follow : bool) (st : list file) (path : name) : outcome * Z :=
  match depth with
  | O => (Failed ELOOP, 0)
  | S depth =>
      let '(st, rest) := match path with
        | x :: rest => if x =? 47 then ([rt], rest) else (st, path)
        | [] => (st, path)
        end in
      let '(o, k) := spec_walk (resolve depth true) follow (pieces rest) st in (o, 1 + k)
  end.

(** What a driver promises: looking does not change the content, inode numbers
    are not zero and belong to one file, directories have one entry in the tree
    and their root directories none, and the targets of links fit the buffer. *)
Class driver_ok : Prop := {
  do_lookup : forall m v n, (call (op_lookup (ops m)) (v, n) d).2 = d;
  do_readlink : forall m v len, (call (op_readlink (ops m)) (v, len) d).2 = d;
  do_ino : forall m v n w, entry_of m v n = Ok w -> v_ino w <> 0;
  do_attr : forall m v1 v2 n1 n2 w1 w2, entry_of m v1 n1 = Ok w1 -> entry_of m v2 n2 = Ok w2 -> v_ino w1 = v_ino w2 -> w1 = w2;
  do_dir : forall m v1 v2 n1 n2 w, ordinary n1 -> ordinary n2 -> entry_of m v1 n1 = Ok w -> entry_of m v2 n2 = Ok w ->
    S_ISDIR (v_mode w) = true -> v_ino v1 = v_ino v2 /\ n1 = n2;
  do_root : forall i v n w, ordinary n -> entry_of (Some i) v n = Ok w -> v_ino w <> v_ino (mroot i);
  do_target : forall m v len b, 0 <= len -> call (op_readlink (ops m)) (v, len) d = (Ok b, d) -> zlen b <= len
}.

(** ** The tree of vnodes *)

Section tree_of.
Context (nds : gmap Z node) (ms : gmap Z mnt) (tbl : list Z) (root next : Z).

Definition dirn (n : node) : bool := S_ISDIR (v_mode (vn n)).

Record tree_ok : Prop := {
  t_next : forall p n, nds !! p = Some n -> p < next;
  t_root : exists n, nds !! root = Some n /\ n_mount n = rt.1 /\ vn n = rt.2 /\ n_parent n = Some root;
  t_rdir : is_dir rt = true;
  t_mount : forall p n, nds !! p = Some n -> exists i mp, n_mount n = Some i /\ ms !! i = Some mp;
  t_child : forall p n nm ino i mp, nds !! p = Some n -> n_children n !! nm = Some ino ->
    mounted (n_mount n) (v_ino (vn n)) nm = None -> n_mount n = Some i -> ms !! i = Some mp ->
    ordinary nm /\ exists q nq, entry_of (Some i) (vn n) nm = Ok (vn nq) /\ v_ino (vn nq) = ino /\
      vcache mp !! ino = Some q /\ nds !! q = Some nq /\ n_mount nq = Some i /\ (dirn nq = true -> n_parent nq = Some p);
  t_files : forall p n, nds !! p = Some n -> dirn n = false -> n_children n = ∅;
  t_unique : forall p q n n', nds !! p = Some n -> nds !! q = Some n' -> n_mount n = n_mount n' -> v_ino (vn n) = v_ino (vn n') ->
    dirn n = true -> dirn n' = true -> p = q;
  t_origin : forall q n, nds !! q = Some n -> dirn n = true ->
    (exists i, n_mount n = Some i /\ v_ino (vn n) = v_ino (mroot i)) \/
    exists p np nm, nds !! p = Some np /\ n_mount np = n_mount n /\ dirn np = true /\ ordinary nm /\
      n_children np !! nm = Some (v_ino (vn n)) /\ entry_of (n_mount n) (vn np) nm = Ok (vn n);
  t_mounted : forall p n nm, nds !! p = Some n ->
    find_mount ms tbl p nm = if dirn n then mounted (n_mount n) (v_ino (vn n)) nm else None;
  t_mroot : forall p nm i, find_mount ms tbl p nm = Some i -> is_Some (nds !! p) /\
    exists mp n, ms !! i = Some mp /\ nds !! mp_root mp = Some n /\ n_mount n = Some i /\ vn n = mroot i /\ dirn n = true /\ n_parent n = Some p;
  t_where : forall m ino nm i, mounted m ino nm = Some i ->
    exists p n, nds !! p = Some n /\ n_mount n = m /\ v_ino (vn n) = ino /\ dirn n = true
}.

(** The vnode at [p] stands for a position. *)
Fixpoint denotes (p : Z) (st : list file) : Prop :=
  match st with
  | [] => False
  | f :: up => exists n, nds !! p = Some n /\ n_mount n = f.1 /\ vn n = f.2 /\
      match up with
      | [] => p = root
      | _ => is_dir f = true -> exists q, n_parent n = Some q /\ denotes q up
      end
  end.
End tree_of.

(** More vnodes, the old ones with their attributes and parents. *)
Definition extends (nds nds' : gmap Z node) : Prop :=
  forall p n, nds !! p = Some n -> exists n', nds' !! p = Some n' /\ vn n' = vn n /\ n_mount n' = n_mount n /\ n_parent n' = n_parent n.

Lemma extends_refl nds : extends nds nds.
Proof. intros p n Hp. by exists n. Qed.

Lemma extends_trans n1 n2 n3 : extends n1 n2 -> extends n2 n3 -> extends n1 n3.
Proof.
  intros H1 H2 p n Hp. destruct (H1 p n Hp) as (n' & Hp' & A & B & C). destruct (H2 p n' Hp') as (n'' & Hp'' & A' & B' & C').
  exists n''. split_and!; [done|congruence..].
Qed.

Lemma denotes_extends nds nds' root st : extends nds nds' -> forall p, denotes nds root p st -> denotes nds' root p st.
Proof.
  intros He. induction st as [|f up IH]; intros p; [done|]. cbn [denotes]. intros (n & Hp & Hm & Hv & Hup).
  destruct (He p n Hp) as (n' & Hp' & Hv' & Hm' & Hpar). exists n'. split_and!; [done|congruence|congruence|].
  destruct up as [|g up]; [done|]. intros Hd. destruct (Hup Hd) as (q & Hq & Hden). exists q. split; [congruence|by apply IH].
Qed.

(** ** A new vnode *)

Section grow.
Context (Hdrv : driver_ok) (nds : gmap Z node) (ms : gmap Z mnt) (tbl : list Z) (root next : Z).
Hypothesis Hok : tree_ok nds ms tbl root next.
Context (dir : Z) (nd : node) (nm : name) (i : Z) (mp : mnt) (w : vnode).
Hypothesis Hdir : nds !! dir = Some nd.
Hypothesis Hm : n_mount nd = Some i.
Hypothesis Hmp : ms !! i = Some mp.
Hypothesis Hdd : dirn nd = true.
Hypothesis Hnm : ordinary nm.
Hypothesis Hnew : default 0 (n_children nd !! nm) = 0.
Hypothesis Hentry : entry_of (Some i) (vn nd) nm = Ok w.

Definition grown : gmap Z node :=
  <[next := mk_node w (Some i) (Some dir) ∅ 0]> (<[dir := set_children nd (<[nm := v_ino w]> (n_children nd))]> nds).
Definition cached : gmap Z mnt :=
  <[i := mk_mnt (mp_parent mp) (mp_root_name mp) (mp_root mp) (<[v_ino w := next]> (vcache mp))]> ms.

Lemma dir_old : dir <> next.
Proof. pose proof (t_next _ _ _ _ _ Hok dir nd Hdir). lia. Qed.

Lemma grown_new : grown !! next = Some (mk_node w (Some i) (Some dir) ∅ 0).
Proof. apply lookup_insert_eq. Qed.

Lemma grown_inv p n : grown !! p = Some n ->
  p = next /\ n = mk_node w (Some i) (Some dir) ∅ 0 \/
  p <> next /\ exists n0, nds !! p = Some n0 /\ vn n = vn n0 /\ n_mount n = n_mount n0 /\ n_parent n = n_parent n0 /\
    n_children n = if decide (p = dir) then <[nm := v_ino w]> (n_children n0) else n_children n0.
Proof.
  unfold grown. destruct (decide (p = next)) as [->|Hp]; [rewrite lookup_insert_eq; intros [= <-]; by left|]. rewrite lookup_insert_ne by done.
  intros H. right. split; [done|]. destruct (decide (p = dir)) as [->|Hpd].
  - rewrite lookup_insert_eq in H. injection H as <-. by exists nd.
  - rewrite lookup_insert_ne in H by done. by exists n.
Qed.

Lemma grown_old p n0 : nds !! p = Some n0 -> p <> next /\ exists n, grown !! p = Some n /\ vn n = vn n0 /\ n_mount n = n_mount n0 /\
  n_parent n = n_parent n0 /\ n_children n = if decide (p = dir) then <[nm := v_ino w]> (n_children n0) else n_children n0.
Proof.
  intros Hp. pose proof (t_next _ _ _ _ _ Hok p n0 Hp). split; [lia|]. unfold grown. rewrite lookup_insert_ne by lia. destruct (decide (p = dir)) as [->|Hpd].
  - rewrite lookup_insert_eq. rewrite Hdir in Hp. injection Hp as <-. by eexists.
  - rewrite lookup_insert_ne by done. by exists n0.
Qed.

Lemma grown_extends : extends nds grown.
Proof. intros p n Hp. destruct (grown_old p n Hp) as (_ & n' & H1 & H2 & H3 & H4 & _). by exists n'. Qed.

Lemma find_mount_same p n : find_mount cached tbl p n = find_mount ms tbl p n.
Proof.
  generalize tbl. intros t. induction t as [|j l IH]; [done|]. cbn [find_mount]. unfold cached in *. destruct (decide (j = i)) as [->|Hj].
  - rewrite lookup_insert_eq, Hmp. cbn [mp_parent mp_root_name]. by rewrite IH.
  - rewrite lookup_insert_ne by done. by rewrite IH.
Qed.

Lemma cached_inv j m : cached !! j = Some m -> exists m0, ms !! j = Some m0 /\ mp_root m = mp_root m0 /\
  (j = i -> m0 = mp /\ vcache m = <[v_ino w := next]> (vcache mp)) /\ (j <> i -> m = m0).
Proof.
  unfold cached. destruct (decide (j = i)) as [->|Hj].
  - rewrite lookup_insert_eq. intros [= <-]. by exists mp.
  - rewrite lookup_insert_ne by done. intros H. by exists m.
Qed.

Lemma cached_old j m0 : ms !! j = Some m0 -> exists m, cached !! j = Some m /\ mp_root m = mp_root m0.
Proof.
  intros Hj. unfold cached. destruct (decide (j = i)) as [->|].
  - rewrite lookup_insert_eq. eexists. split; [done|]. cbn. congruence.
  - rewrite lookup_insert_ne by done. by exists m0.
Qed.

(** No vnode of the directory exists yet. *)
Lemma new_dir_fresh q n : nds !! q = Some n -> n_mount n = Some i -> v_ino (vn n) = v_ino w -> dirn n = true -> S_ISDIR (v_mode w) = true -> False.
Proof.
  intros Hq Hqm Hino Hqd Hwd. destruct (t_origin _ _ _ _ _ Hok q n Hq Hqd) as [(j & Hj & E)|(p & np & nm' & Hp & Hpm & Hpd & Hnm' & Hch & He)].
  - rewrite Hqm in Hj. injection Hj as <-. apply (do_root i (vn nd) nm w); [done|done|congruence].
  - rewrite Hqm in Hpm, He. assert (vn n = w) as Ew by (by apply (do_attr (Some i) (vn np) (vn nd) nm' nm)). rewrite Ew in He.
    destruct (do_dir (Some i) (vn np) (vn nd) nm' nm w) as [E1 E2]; [done..|].
    assert (p = dir) as -> by (eapply (t_unique _ _ _ _ _ Hok); [done|done|congruence|congruence|done|done]).
    rewrite Hdir in Hp. injection Hp as <-. rewrite E2 in Hch. rewrite Hch, Hino in Hnew. cbn in Hnew. by apply (do_ino (Some i) (vn nd) nm w).
Qed.

Lemma grown_child : forall p n nm' ino j m, grown !! p = Some n -> n_children n !! nm' = Some ino ->
  mounted (n_mount n) (v_ino (vn n)) nm' = None -> n_mount n = Some j -> cached !! j = Some m ->
  ordinary nm' /\ exists q nq, entry_of (Some j) (vn n) nm' = Ok (vn nq) /\ v_ino (vn nq) = ino /\
    vcache m !! ino = Some q /\ grown !! q = Some nq /\ n_mount nq = Some j /\ (dirn nq = true -> n_parent nq = Some p).
Proof.
  intros p n nm' ino j m Hp Hch Hmo Hj Hc. destruct (grown_inv p n Hp) as [[-> ->]|(Hne & n0 & Hp0 & Ev & Em & Ep & Ech)]; [done|].
  destruct (cached_inv j m Hc) as (m0 & Hm0 & _ & Hi & Hni). rewrite Ev, Em in *. destruct (decide (p = dir /\ nm' = nm)) as [[-> ->]|Hold].
  - rewrite Hdir in Hp0. injection Hp0 as <-. assert (j = i) as -> by congruence. destruct (Hi eq_refl) as [_ ->].
    rewrite decide_True in Ech by done. rewrite Ech, lookup_insert_eq in Hch. injection Hch as <-.
    split; [done|]. exists next, (mk_node w (Some i) (Some dir) ∅ 0). rewrite lookup_insert_eq. split_and!; try done. apply grown_new.
  - assert (n_children n0 !! nm' = Some ino) as Hch0.
    { rewrite Ech in Hch. destruct (decide (p = dir)) as [->|]; [|done]. rewrite lookup_insert_ne in Hch; [done|]. intros <-. by apply Hold. }
    destruct (t_child _ _ _ _ _ Hok p n0 nm' ino j m0) as (Hord & q & nq & He & Hino & Hv & Hq & Hqm & Hpar); [done..|]. split; [done|].
    destruct (decide (j = i /\ ino = v_ino w)) as [[-> ->]|Hdiff].
    + destruct (Hi eq_refl) as [-> ->]. exists next, (mk_node w (Some i) (Some dir) ∅ 0). rewrite lookup_insert_eq. cbn [vn n_mount n_parent].
      assert (vn nq = w) as Ew by (by apply (do_attr (Some i) (vn n0) (vn nd) nm' nm)).
      split_and!; [by rewrite <- Ew|done|done|apply grown_new|done|]. intros Hwd. exfalso. unfold dirn in Hwd. cbn in Hwd.
      apply (new_dir_fresh q nq); [done|done|done| |done]. unfold dirn. by rewrite Ew.
    + destruct (grown_old q nq Hq) as (Hqn & nq' & Hq' & Ev' & Em' & Ep' & _). exists q, nq'. rewrite Ev', Em', Ep'. unfold dirn in *. rewrite Ev'.
      split_and!; try done. destruct (decide (j = i)) as [->|Hji]; [|by rewrite (Hni Hji)].
      destruct (Hi eq_refl) as [-> ->]. rewrite lookup_insert_ne; [done|]. intros E. by apply Hdiff.
Qed.

Lemma grown_mounted p n nm' : grown !! p = Some n ->
  find_mount cached tbl p nm' = if dirn n then mounted (n_mount n) (v_ino (vn n)) nm' else None.
Proof.
  intros Hp. rewrite find_mount_same. destruct (grown_inv p n Hp) as [[-> ->]|(Hne & n0 & Hp0 & Ev & Em & _)].
  - destruct (find_mount ms tbl next nm') as [j|] eqn:E.
    { destruct (t_mroot _ _ _ _ _ Hok _ _ _ E) as [[n0 Hn0] _]. pose proof (t_next _ _ _ _ _ Hok _ _ Hn0). lia. }
    unfold dirn. cbn [vn n_mount]. destruct (S_ISDIR (v_mode w)) eqn:Ed; [|done]. destruct (mounted (Some i) (v_ino w) nm') as [j|] eqn:Em; [|done].
    destruct (t_where _ _ _ _ _ Hok _ _ _ _ Em) as (q & nq & Hq & Hqm & Hqi & Hqd). destruct (new_dir_fresh q nq); done.
  - rewrite (t_mounted _ _ _ _ _ Hok p n0 nm' Hp0). unfold dirn. by rewrite Ev, Em.
Qed.

Lemma vtree_grow : tree_ok grown cached tbl root (next + 1).
Proof.
  pose proof Hok as [T1 T2 T3 T4 T5 T6 T7 T8 T9 T10 T11]. split.
  - intros p n Hp. destruct (grown_inv p n Hp) as [[-> _]|(_ & n0 & Hp0 & _)]; [lia|]. specialize (T1 p n0 Hp0). lia.
  - destruct T2 as (n & Hr & A & B & C). destruct (grown_old root n Hr) as (_ & n' & Hr' & A' & B' & C' & _). exists n'. split_and!; [done|congruence..].
  - done.
  - intros p n Hp. assert (forall j, is_Some (ms !! j) -> exists m, cached !! j = Some m) as Hcc.
    { intros j [m Hj]. destruct (cached_old j m Hj) as (m' & H' & _). by exists m'. }
    destruct (grown_inv p n Hp) as [[-> ->]|(_ & n0 & Hp0 & _ & Em & _)].
    + destruct (Hcc i) as [m Hc]; [done|]. by exists i, m.
    + destruct (T4 p n0 Hp0) as (j & m & Hj & Hmj). destruct (Hcc j) as [m' Hc]; [done|]. exists j, m'. split; [congruence|done].
  - apply grown_child.
  - intros p n Hp Hnd. destruct (grown_inv p n Hp) as [[-> ->]|(_ & n0 & Hp0 & Ev & _ & _ & Ech)]; [done|]. unfold dirn in *. rewrite Ev in Hnd.
    destruct (decide (p = dir)) as [->|]; [rewrite Hdir in Hp0; injection Hp0 as <-; congruence|]. rewrite Ech. by apply (T6 p).
  - intros p q n n' Hp Hq Em Ei Hd Hd'.
    destruct (grown_inv p n Hp) as [[-> ->]|(_ & n0 & Hp0 & Ev & Em0 & _)], (grown_inv q n' Hq) as [[-> ->]|(_ & n1 & Hq0 & Ev' & Em1 & _)];
      unfold dirn in *; cbn [vn n_mount] in *; [done| | |].
    + destruct (new_dir_fresh q n1); unfold dirn; congruence.
    + destruct (new_dir_fresh p n0); unfold dirn; congruence.
    + apply (T7 p q n0 n1); unfold dirn; congruence.
  - intros q n Hq Hd. destruct (grown_inv q n Hq) as [[-> ->]|(_ & n0 & Hq0 & Ev & Em & _)].
    + right. destruct (grown_old dir nd Hdir) as (_ & nd' & Hd' & Ev & Em & _ & Ech). rewrite decide_True in Ech by done.
      exists dir, nd', nm. unfold dirn in *. rewrite Ech, lookup_insert_eq, Ev, Em. cbn [vn n_mount]. by rewrite Hm.
    + unfold dirn in *. rewrite Ev in Hd. destruct (T8 q n0 Hq0 Hd) as [H|(p & np & nm' & Hp & Hpm & Hpd & Ho & Hch & He)]; [left; by rewrite Ev, Em|right].
      destruct (grown_old p np Hp) as (_ & np' & Hp' & Ev' & Em' & _ & Ech). exists p, np', nm'. rewrite Ev', Em', Ev, Em. split_and!; try done.
      rewrite Ech. destruct (decide (p = dir)) as [->|]; [|done]. destruct (decide (nm' = nm)) as [->|]; [|by rewrite lookup_insert_ne].
      exfalso. rewrite Hdir in Hp. injection Hp as <-. rewrite Hch in Hnew. cbn in Hnew. by eapply (do_ino (n_mount n0)).
  - intros p n nm'. apply grown_mounted.
  - intros p nm' j. rewrite find_mount_same. intros Hf. destruct (T10 p nm' j Hf) as ([n0 Hn0] & m & n & Hj & Hr & A & B & C & E).
    destruct (grown_old p n0 Hn0) as (_ & n0' & Hn0' & _). split; [by exists n0'|]. destruct (cached_old j m Hj) as (m' & Hm' & Er).
    destruct (grown_old (mp_root m) n Hr) as (_ & n' & Hn' & A' & B' & C' & _). exists m', n'. rewrite Er. unfold dirn in *. rewrite A'. split_and!; try done; congruence.
  - intros m ino nm' j Hmo. destruct (T11 m ino nm' j Hmo) as (p & n & Hp & A & B & C). destruct (grown_old p n Hp) as (_ & n' & Hn' & A' & B' & _).
    exists p, n'. unfold dirn in *. rewrite A', B'. done.
Qed.
End grow.
End meaning.
Arguments do_lookup {_ _ _ _ _} m v n.
Arguments do_readlink {_ _ _ _ _} m v len.
Arguments do_ino {_ _ _ _ _} m v n w _.
Arguments do_target {_ _ _ _ _} m v len b _ _.

(** ** The operations on a well-formed tree *)

Section run.
Context {D : Type} (ops : option Z -> @vnode_ops D) (op_dealloc : option Z -> vnode -> D -> D) (c : cred).
Context (d : D) (mounted : option Z -> Z -> name -> option Z) (mroot : Z -> vnode) (rt : file).
Context {Hdrv : driver_ok ops d mroot}.
Implicit Types (s : fs D) (held : Z -> Z).

(** The tree without the counts. *)
Definition skel (s : fs D) : gmap Z node := (fun n => set_refs n 0) <$> nodes s.
Definition tree (s : fs D) : Prop :=
  tree_ok ops d mounted mroot rt (skel s) (mounts s) (mount_table s) (root_vnode s) (next_addr s).

(** Besides the references counted by [held] every vnode has one of the tree. *)
Record inv (s : fs D) (held : Z -> Z) : Prop := {
  v_tree : tree s;
  v_refs : forall p n, nodes s !! p = Some n -> 1 + held p <= n_refs n;
  v_held : forall p, 0 <= held p;
  v_none : forall p, nodes s !! p = None -> held p = 0;
  v_drv : drv s = d;
  v_oom : oom s = []
}.
Definition bounded (s : fs D) (b : Z) : Prop := forall p n, nodes s !! p = Some n -> n_refs n <= b.

Definition hold (p : Z) (held : Z -> Z) : Z -> Z := fun q => held q + if q =? p then 1 else 0.

Definition position (s : fs D) (p : Z) (st : list file) : Prop := denotes (skel s) (root_vnode s) p st.

(** What the operations on the tree keep. *)
Record later (s s' : fs D) : Prop := {
  l_extends : extends (skel s) (skel s');
  l_root : root_vnode s' = root_vnode s;
  l_cwd : cwd s' = cwd s
}.

Lemma later_refl s : later s s.
Proof. split; [apply extends_refl|done|done]. Qed.

Lemma later_trans s1 s2 s3 : later s1 s2 -> later s2 s3 -> later s1 s3.
Proof. intros [A1 A2 A3] [B1 B2 B3]. split; [by eapply extends_trans|congruence|congruence]. Qed.

Lemma position_later s s' p st : later s s' -> position s p st -> position s' p st.
Proof. intros [A1 A2 A3] H. unfold position in *. rewrite A2. by eapply denotes_extends. Qed.

Lemma skel_Some s p n : nodes s !! p = Some n -> skel s !! p = Some (set_refs n 0).
Proof. intros H. unfold skel. by rewrite lookup_fmap, H. Qed.

Lemma skel_inv s p n : skel s !! p = Some n -> exists n0, nodes s !! p = Some n0 /\ n = set_refs n0 0.
Proof. unfold skel. rewrite lookup_fmap. destruct (nodes s !! p) as [n0|]; [|done]. intros [= <-]. by exists n0. Qed.

Lemma position_node s p f up : position s p (f :: up) -> exists n, nodes s !! p = Some n /\ n_mount n = f.1 /\ vn n = f.2.
Proof. intros (n & Hp & A & B & _). destruct (skel_inv s p n Hp) as (n0 & H0 & ->). by exists n0. Qed.

Lemma inv_weaken s held held' : inv s held -> (forall p, 0 <= held' p <= held p) -> inv s held'.
Proof.
  intros [A B C E F G] H. split; [done| |apply H| |done|done].
  - intros p n Hp. specialize (B p n Hp). specialize (H p). lia.
  - intros p Hp. specialize (E p Hp). specialize (H p). lia.
Qed.

Lemma hold_nonneg p held q : 0 <= held q -> 0 <= held q <= hold p held q.
Proof. unfold hold. destruct (q =? p); lia. Qed.

(** ** Small steps *)

Lemma get_run s p n : nodes s !! p = Some n -> get_node p s = Some (n, s).
Proof. intros H. unfold get_node. rewrite gets_run, H. done. Qed.

Lemma get_mount_run s i m : mounts s !! i = Some m -> get_mount (Some i) s = Some (m, s).
Proof. intros H. unfold get_mount. rewrite gets_run. cbn. by rewrite H. Qed.

Lemma malloc_run s : oom s = [] -> malloc s = Some (true, s).
Proof. destruct s. cbn. intros ->. done. Qed.

Lemma with_drv_same s : drv s = d -> with_drv s d = s.
Proof. destruct s. cbn. by intros ->. Qed.

Lemma ref_run s p n : nodes s !! p = Some n ->
  REF_OBJECT p s = Some (tt, set_nodes s (<[p := set_refs n (u32 (n_refs n + 1))]> (nodes s))).
Proof. intros H. unfold REF_OBJECT. by rewrite (bind_run _ _ _ _ _ (get_run s p n H)). Qed.

Lemma skel_refs s p n r : nodes s !! p = Some n -> skel (set_nodes s (<[p := set_refs n r]> (nodes s))) = skel s.
Proof.
  intros H. unfold skel. cbn. rewrite fmap_insert. apply insert_id. rewrite lookup_fmap, H. done.
Qed.

(** A reference more or less. *)
Lemma count_ok s held held' b p n r : inv s held -> bounded s b -> nodes s !! p = Some n ->
  (forall q, 0 <= held' q) -> (forall q, q <> p -> held' q = held q) -> 1 + held' p <= r <= b ->
  let s' := set_nodes s (<[p := set_refs n r]> (nodes s)) in inv s' held' /\ bounded s' b /\ later s s'.
Proof.
  intros [A B C E F G] Hb Hp Hn Ho Hr s'. pose proof (skel_refs s p n r Hp) as Hs. fold s' in Hs. split; [|split].
  - split; [unfold tree; by rewrite Hs| |done| |done|done]; subst s'; cbn [nodes set_nodes].
    + intros q nq. destruct (decide (q = p)) as [->|Hq]; [rewrite lookup_insert_eq; intros [= <-]; cbn; lia|].
      rewrite lookup_insert_ne, Ho by done. apply B.
    + intros q. destruct (decide (q = p)) as [->|Hq]; [by rewrite lookup_insert_eq|]. rewrite lookup_insert_ne, Ho by done. apply E.
  - intros q nq. subst s'. cbn [nodes set_nodes]. destruct (decide (q = p)) as [->|Hq]; [rewrite lookup_insert_eq; intros [= <-]; cbn; lia|].
    rewrite lookup_insert_ne by done. apply Hb.
  - split; [rewrite Hs; apply extends_refl|done|done].
Qed.

Lemma bounded_le s b b' : bounded s b -> b <= b' -> bounded s b'.
Proof. intros H Hl p n Hp. specialize (H p n Hp). lia. Qed.

Lemma ref_ok s held b p n : inv s held -> bounded s b -> b + 1 < 2 ^ 32 -> nodes s !! p = Some n ->
  exists s', REF_OBJECT p s = Some (tt, s') /\ inv s' (hold p held) /\ bounded s' (b + 1) /\ later s s'.
Proof.
  intros Hi Hb Hl Hp. pose proof (v_refs _ _ Hi p n Hp). pose proof (v_held _ _ Hi p). pose proof (Hb p n Hp).
  eexists. split; [by apply ref_run|]. rewrite wrap_small by lia. apply (count_ok s held); try done; [apply (bounded_le s b); [done|lia]| | |].
  - intros q. pose proof (v_held _ _ Hi q). unfold hold. destruct (q =? p); lia.
  - intros q Hq. unfold hold. destruct (Z.eqb_spec q p); [done|lia].
  - unfold hold. rewrite Z.eqb_refl. lia.
Qed.

Lemma unref_ok s held b p n : inv s (hold p held) -> (forall q, 0 <= held q) -> bounded s b -> b < 2 ^ 32 -> nodes s !! p = Some n ->
  exists s', UNREF_OBJECT op_dealloc (Some p) s = Some (tt, s') /\ inv s' held /\ bounded s' b /\ later s s' /\ err s' = err s.
Proof.
  intros Hi Hh Hb Hl Hp. pose proof (v_refs _ _ Hi p n Hp) as Hr. pose proof (Hb p n Hp). pose proof (Hh p). unfold hold in Hr. rewrite Z.eqb_refl in Hr.
  eexists. split; [|split; [|split; [|split]]].
  - unfold UNREF_OBJECT. rewrite gets_run. cbn [unref]. rewrite (bind_run _ _ _ _ _ (get_run s p n Hp)). rewrite wrap_small by lia.
    unfold truthy. destruct (Z.eqb_spec (n_refs n - 1) 0); [lia|]. reflexivity.
  - apply (count_ok s (hold p held) held b p n); try done; [|lia]. intros q Hq. unfold hold. destruct (Z.eqb_spec q p); [done|lia].
  - apply (count_ok s (hold p held) held b p n); try done; [|lia]. intros q Hq. unfold hold. destruct (Z.eqb_spec q p); [done|lia].
  - apply (count_ok s (hold p held) held b p n); try done; [|lia]. intros q Hq. unfold hold. destruct (Z.eqb_spec q p); [done|lia].
  - done.
Qed.

Lemma inv_err s held e : inv s held -> inv (with_err s e) held.
Proof. intros [A B C E F G]. by split. Qed.

Lemma inv_cwd s held p : inv s held -> inv (with_cwd s p) held.
Proof. intros [A B C E F G]. by split. Qed.

Lemma later_err s e : later s (with_err s e).
Proof. split; [apply extends_refl|done|done]. Qed.

(** ** Looking up a child *)

Lemma add_child_run s vp child nm nd nc : nodes s !! vp = Some nd -> nodes s !! child = Some nc -> vp <> child -> oom s = [] ->
  vnode_add_child vp child nm s = Some (true, set_nodes s
    (<[vp := mk_node (vn nd) (n_mount nd) (n_parent nd) (<[nm := v_ino (vn nc)]> (n_children nd)) (u32 (n_refs nd + 1))]>
      (<[child := mk_node (vn nc) (n_mount nc) (Some vp) (n_children nc) (u32 (n_refs nc + 1))]> (nodes s)))).
Proof.
  intros Hv Hc Hne Ho. unfold vnode_add_child. rewrite (bind_run _ _ _ _ _ (malloc_run s Ho)). cbn [negb].
  rewrite (bind_run _ _ _ _ _ (get_run s vp nd Hv)), (bind_run _ _ _ _ _ (get_run s child nc Hc)).
  set (nd1 := set_children nd _). set (s1 := set_nodes s (<[vp := nd1]> (nodes s))).
  assert (put_node vp nd1 s = Some (tt, s1)) as H1 by done. rewrite (bind_run _ _ _ _ _ H1).
  assert (nodes s1 !! child = Some nc) as Hc1 by (unfold s1; cbn; by rewrite lookup_insert_ne).
  rewrite (bind_run _ _ _ _ _ (ref_run s1 child nc Hc1)). set (nc1 := set_refs nc _). set (s2 := set_nodes s1 (<[child := nc1]> (nodes s1))).
  assert (nodes s2 !! child = Some nc1) as Hc2 by apply lookup_insert_eq. rewrite (bind_run _ _ _ _ _ (get_run s2 child nc1 Hc2)).
  set (nc2 := set_parent nc1 _). set (s3 := set_nodes s2 (<[child := nc2]> (nodes s2))).
  assert (put_node child nc2 s2 = Some (tt, s3)) as H3 by done. rewrite (bind_run _ _ _ _ _ H3).
  assert (nodes s3 !! vp = Some nd1) as Hv3 by (unfold s3, s2, s1; cbn; by rewrite !lookup_insert_ne, lookup_insert_eq by done).
  rewrite (bind_run _ _ _ _ _ (ref_run s3 vp nd1 Hv3)). 
  assert (forall x y, x = y -> Some (true, set_nodes s x) = Some (true, set_nodes s y)) as Hf by (by intros x y ->). apply Hf.
  unfold s3, s2, s1. cbn [nodes set_nodes]. apply map_eq. intros q. destruct (decide (q = vp)) as [->|]; [by simplify_map_eq|]. by destruct (decide (q = child)) as [->|]; simplify_map_eq.
Qed.

(** The look-up of a name that no vnode of the directory is known for. *)
Lemma fresh_child_ok s held b vp nd nm w i mp : inv s held -> bounded s b -> 1 <= b -> b + 1 < 2 ^ 32 -> nodes s !! vp = Some nd ->
  dirn nd = true -> ordinary nm -> default 0 (n_children nd !! nm) = 0 -> vfs_can_read c (vn nd) false = true ->
  n_mount nd = Some i -> mounts s !! i = Some mp -> entry_of ops d (Some i) (vn nd) nm = Ok w ->
  exists s', vnode_lookup_child ops c vp nm s = Some (Some (next_addr s), s') /\ inv s' (hold (next_addr s) held) /\ bounded s' (b + 1) /\ later s s' /\
    exists n, skel s' !! next_addr s = Some n /\ vn n = w /\ n_mount n = Some i /\ n_parent n = Some vp.
Proof.
  intros Hi Hb Hb1 Hb2 Hv Hdd Hnm Hnew Hcr Hm Hmp He. pose proof Hi as [Htree Href Hheld Hnone Hd Ho].
  set (q := next_addr s). assert (nodes s !! q = None) as Hq.
  { destruct (nodes s !! q) as [n|] eqn:E; [|done]. apply skel_Some in E. pose proof (t_next _ _ _ _ _ _ _ _ _ _ Htree q _ E). subst q. lia. }
  assert (vp <> q) as Hne by congruence.
  assert (Vfs.vfs_lookup (ops (Some i)) c (vn nd) nm d = (Ok w, d)) as Hl.
  { unfold Vfs.vfs_lookup. rewrite Hcr. unfold dirn in Hdd. rewrite Hdd. cbn [negb]. unfold entry_of in He. pose proof (do_lookup (Some i) (vn nd) nm) as H2.
    destruct (call _ _ d) as [r d']. cbn in *. congruence. }
  set (nq := mk_node w (Some i) None ∅ 1). set (s1 := with_next (set_nodes s (<[q := nq]> (nodes s))) (q + 1)).
  assert (vfs_lookup ops c vp nm s = Some (Some q, s1)) as H1.
  { unfold vfs_lookup. rewrite (bind_run _ _ _ _ _ (get_run s vp nd Hv)), gets_run, Hm, Hd, Hl.
    assert (modify (fun s => with_drv s d) s = Some (tt, s)) as Hdr by (unfold modify; by rewrite with_drv_same). rewrite (bind_run _ _ _ _ _ Hdr).
    assert (vnode_alloc w (Some i) s = Some (Some q, s1)) as Ha; [|by rewrite (bind_run _ _ _ _ _ Ha)].
    unfold vnode_alloc. do 2 (rewrite (bind_run _ _ _ _ _ (malloc_run s Ho)); cbn [negb]). done. }
  set (m' := mk_mnt (mp_parent mp) (mp_root_name mp) (mp_root mp) (<[v_ino w := q]> (vcache mp))). set (s2 := set_mounts s1 (<[i := m']> (mounts s))).
  assert (vnode_place_cache q s1 = Some (tt, s2)) as H2.
  { unfold vnode_place_cache. assert (nodes s1 !! q = Some nq) as Hq1 by apply lookup_insert_eq. rewrite (bind_run _ _ _ _ _ (get_run s1 q nq Hq1)).
    assert (get_mount (n_mount nq) s1 = Some (mp, s1)) as Hg by (by apply get_mount_run). rewrite (bind_run _ _ _ _ _ Hg).
    rewrite (bind_run (lift (n_mount nq)) _ s1 i s1 eq_refl). assert (malloc s1 = Some (true, s1)) as Hma by (by apply malloc_run).
    rewrite (bind_run _ _ _ _ _ Hma). done. }
  pose proof (add_child_run s2 vp q nm nd nq) as H3. cbn [nodes s2 s1 set_mounts with_next set_nodes] in H3.
  rewrite lookup_insert_eq, lookup_insert_ne in H3 by done. specialize (H3 Hv eq_refl Hne Ho).
  set (s3 := set_nodes s2 _) in H3. pose proof (Href vp nd Hv). pose proof (Hb vp nd Hv). pose proof (Hheld vp).
  assert (forall p, nodes s3 !! p = if decide (p = vp) then Some (mk_node (vn nd) (n_mount nd) (n_parent nd) (<[nm := v_ino w]> (n_children nd)) (n_refs nd + 1))
    else if decide (p = q) then Some (mk_node w (Some i) (Some vp) ∅ 2) else nodes s !! p) as Hlk.
  { intros p. unfold s3. cbn [nodes set_nodes]. rewrite (wrap_small 32 (n_refs nd + 1)) by lia. destruct (decide (p = vp)) as [->|]; [by rewrite lookup_insert_eq|].
    rewrite lookup_insert_ne by done. destruct (decide (p = q)) as [->|]; [by rewrite lookup_insert_eq|]. by rewrite !lookup_insert_ne by done. }
  assert (skel s3 = grown (skel s) q vp (set_refs nd 0) nm i w) as Hsk.
  { apply map_eq. intros p. unfold skel at 1. rewrite lookup_fmap, Hlk. unfold grown. destruct (decide (p = vp)) as [->|Hp1].
    - rewrite lookup_insert_ne, lookup_insert_eq by done. done.
    - destruct (decide (p = q)) as [->|Hp2]; [by rewrite lookup_insert_eq|]. rewrite !lookup_insert_ne by done. unfold skel. by rewrite lookup_fmap. }
  assert (tree s3) as Ht3.
  { unfold tree. rewrite Hsk. apply (vtree_grow ops d mounted mroot rt Hdrv (skel s) (mounts s) (mount_table s) (root_vnode s) q Htree vp (set_refs nd 0) nm i mp w); try done. by apply skel_Some. }
  exists s3. split_and!.
  - unfold vnode_lookup_child. rewrite (bind_run _ _ _ _ _ (get_run s vp nd Hv)). cbv zeta. rewrite Hnew. cbn [truthy Z.eqb negb].
    rewrite (bind_run _ _ _ _ _ H1), (bind_run _ _ _ _ _ H2), (bind_run _ _ _ _ _ H3). done.
  - split; [done| | | |done|done].
    + intros p n. rewrite Hlk. unfold hold. destruct (Z.eqb_spec p q) as [->|Hpq].
      * rewrite decide_False, decide_True by done. intros [= <-]. cbn. pose proof (Hnone q Hq). lia.
      * destruct (decide (p = vp)) as [->|]; [intros [= <-]; cbn; lia|]. rewrite decide_False by done. intros Hp. specialize (Href p n Hp). lia.
    + intros p. pose proof (hold_nonneg q held p (Hheld p)). lia.
    + intros p. rewrite Hlk. unfold hold. destruct (decide (p = vp)); [done|]. destruct (decide (p = q)); [done|]. intros Hp.
      destruct (Z.eqb_spec p q); [done|]. rewrite Hnone by done. done.
  - intros p n. rewrite Hlk. destruct (decide (p = vp)); [intros [= <-]; cbn; lia|]. destruct (decide (p = q)); [intros [= <-]; cbn; lia|].
    intros Hp. specialize (Hb p n Hp). lia.
  - split; [|done|done]. rewrite Hsk. apply (grown_extends ops d mounted mroot rt (skel s) (mounts s) (mount_table s) (root_vnode s) q Htree). by apply skel_Some.
  - exists (mk_node w (Some i) (Some vp) ∅ 0). rewrite Hsk. unfold grown. by rewrite lookup_insert_eq.
Qed.

Lemma lookup_fails s held vp nd nm e : inv s held -> nodes s !! vp = Some nd -> default 0 (n_children nd !! nm) = 0 ->
  Vfs.vfs_lookup (ops (n_mount nd)) c (vn nd) nm d = (Err e, d) ->
  vnode_lookup_child ops c vp nm s = Some (None, with_err s e).
Proof.
  intros Hi Hv Hnew Hl. unfold vnode_lookup_child. rewrite (bind_run _ _ _ _ _ (get_run s vp nd Hv)). cbv zeta. rewrite Hnew. cbn [truthy Z.eqb negb].
  unfold vfs_lookup. rewrite bind_assoc, (bind_run _ _ _ _ _ (get_run s vp nd Hv)), bind_assoc, gets_run, (v_drv _ _ Hi), Hl.
  unfold mbind, M_bind, modify. rewrite with_drv_same by apply Hi. done.
Qed.

(** The result of an operation that looks for the file [o] from position [st]. *)
Definition finds (s s' : fs D) (held : Z -> Z) (o : outcome) (r : option Z) : Prop :=
  match o with
  | Found st => exists q, r = Some q /\ inv s' (hold q held) /\ position s' q st
  | Failed e => r = None /\ err s' = e /\ inv s' held
  | Unspecified => False
  end.
Definition below (st : list file) (o : outcome) : outcome := match o with Found l => Found (l ++ st) | _ => o end.

Lemma lookup_child_ok s held b vp f up nm : inv s held -> bounded s b -> 1 <= b -> b + 1 < 2 ^ 32 -> position s vp (f :: up) ->
  ordinary nm -> (is_dir f = true -> mounted f.1 (v_ino f.2) nm = None) -> child ops c d mounted mroot f nm <> Unspecified ->
  exists r s', vnode_lookup_child ops c vp nm s = Some (r, s') /\ later s s' /\ bounded s' (b + 1) /\
    finds s s' held (below (f :: up) (child ops c d mounted mroot f nm)) r.
Proof.
  intros Hi Hb Hb1 Hb2 Hpos Hnm Hmo. pose proof (v_tree _ _ Hi) as Ht. destruct (position_node s vp f up Hpos) as (nd & Hv & Em & Ev).
  pose proof (skel_Some s vp nd Hv) as Hsv. assert (dirn nd = is_dir f) as Ed by (unfold dirn, is_dir; congruence).
  assert (forall e, Vfs.vfs_lookup (ops (n_mount nd)) c (vn nd) nm d = (Err e, d) -> default 0 (n_children nd !! nm) = 0 ->
    exists r s', vnode_lookup_child ops c vp nm s = Some (r, s') /\ later s s' /\ bounded s' (b + 1) /\ finds s s' held (Failed e) r) as Hfail.
  { intros e Hl Hnew. exists None, (with_err s e). split_and!; [by eapply lookup_fails|apply later_err| |split_and!; [done|done|by apply inv_err]].
    apply (bounded_le s b); [done|lia]. }
  assert (call (op_lookup (ops (n_mount nd))) (vn nd, nm) d = (entry_of ops d (n_mount nd) (vn nd) nm, d)) as Hcall.
  { unfold entry_of. pose proof (do_lookup (n_mount nd) (vn nd) nm) as H2. destruct (call _ _ d). cbn in *. congruence. }
  unfold child. destruct (is_dir f) eqn:Edf.
  - specialize (Hmo eq_refl). rewrite Hmo. destruct (vfs_can_read c f.2 false) eqn:Ecr; [intros _|done]. rewrite <- Ev, <- Em in *.
    destruct (t_mount _ _ _ _ _ _ _ _ _ _ Ht vp _ Hsv) as (i & mp & Hmi & Hmp). cbn [n_mount set_refs] in Hmi.
    destruct (decide (default 0 (n_children nd !! nm) = 0)) as [Hnew|Hold].
    + destruct (entry_of ops d (n_mount nd) (vn nd) nm) as [w|e] eqn:Een.
      * rewrite Hmi in Een. destruct (fresh_child_ok s held b vp nd nm w i mp) as (s' & Hr & Hi' & Hb' & Hl' & n & Hn & Hn1 & Hn2 & Hn3); try done.
        exists (Some (next_addr s)), s'. split_and!; try done. exists (next_addr s). split_and!; try done.
        exists n. split_and!; [done|by rewrite Hmi|done|]. intros _. exists vp. split; [done|]. by apply (position_later s s').
      * apply Hfail; [|done]. unfold Vfs.vfs_lookup. rewrite Ecr. unfold dirn in Ed. rewrite Ed. cbn [negb]. done.
    + destruct (n_children nd !! nm) as [ino|] eqn:Ech; [|done]. cbn in Hold.
      destruct (t_child _ _ _ _ _ _ _ _ _ _ Ht vp _ nm ino i mp Hsv Ech Hmo Hmi Hmp) as (_ & q & nq & Hen & Hino & Hca & Hq & Hqm & Hqp).
      cbn [vn set_refs] in Hen. rewrite Hmi, Hen. destruct (skel_inv s q nq Hq) as (nq0 & Hq0 & ->). cbn [vn n_mount n_parent set_refs] in *.
      destruct (ref_ok s held b q nq0) as (s' & Hr & Hi' & Hb' & Hl'); try done. exists (Some q), s'. split_and!; try done.
      * unfold vnode_lookup_child. rewrite (bind_run _ _ _ _ _ (get_run s vp nd Hv)). cbv zeta. rewrite Ech. change (default 0 (Some ino)) with ino.
        unfold truthy. destruct (Z.eqb_spec ino 0); [done|]. cbn [negb].
        assert (vnode_lookup_cache (n_mount nd) ino s = Some (Some q, s)) as Hlc.
        { unfold vnode_lookup_cache. rewrite Hmi, (bind_run _ _ _ _ _ (get_mount_run s i mp Hmp)), Hca. done. }
        rewrite (bind_run _ _ _ _ _ Hlc), (bind_run _ _ _ _ _ Hr). done.
      * exists q. split_and!; try done. apply (position_later s s'); [done|]. exists (set_refs nq0 0). split_and!; try done. intros Hdq. exists vp.
        split; [by apply Hqp|done].
  - intros _. apply (Hfail (if vfs_can_read c f.2 false then ENOTDIR else EACCES)).
    + unfold Vfs.vfs_lookup. rewrite Ev. destruct (vfs_can_read c f.2 false); [|done]. unfold is_dir in Edf. by rewrite Edf.
    + pose proof (t_files _ _ _ _ _ _ _ _ _ _ Ht vp _ Hsv Ed) as Hc0. cbn in Hc0. by rewrite Hc0.
Qed.

(** An entry of a directory: a mounted file system or a child. *)
Lemma entry_ok s held b vp f up nm : inv s held -> bounded s b -> 1 <= b -> b + 1 < 2 ^ 32 -> position s vp (f :: up) ->
  ordinary nm -> child ops c d mounted mroot f nm <> Unspecified ->
  exists r s', (mp ← vnode_find_mount_point vp nm; match mp with Some _ => mret mp | None => vnode_lookup_child ops c vp nm end) s = Some (r, s') /\
    later s s' /\ bounded s' (b + 1) /\ finds s s' held (below (f :: up) (child ops c d mounted mroot f nm)) r.
Proof.
  intros Hi Hb Hb1 Hb2 Hpos Hnm Hun. pose proof (v_tree _ _ Hi) as Ht. destruct (position_node s vp f up Hpos) as (nd & Hv & Em & Ev).
  pose proof (t_mounted _ _ _ _ _ _ _ _ _ _ Ht vp _ nm (skel_Some s vp nd Hv)) as Hf. cbn [n_mount vn set_refs] in Hf.
  assert (dirn (set_refs nd 0) = is_dir f) as Ed by (unfold dirn, is_dir; cbn; congruence). rewrite Ed, Em, Ev in Hf.
  unfold vnode_find_mount_point. rewrite bind_assoc, gets_run.
  destruct (find_mount (mounts s) (mount_table s) vp nm) as [i|] eqn:Ef.
  - destruct (is_dir f) eqn:Edf; [|done]. unfold child. rewrite Edf, <- Hf.
    destruct (t_mroot _ _ _ _ _ _ _ _ _ _ Ht vp nm i Ef) as (_ & mp & n & Hmp & Hr & Hrm & Hrv & Hrd & Hrp).
    destruct (skel_inv s _ n Hr) as (n0 & Hn0 & ->). destruct (ref_ok s held b _ n0 Hi Hb Hb2 Hn0) as (s' & Hrf & Hi' & Hb' & Hl').
    exists (Some (mp_root mp)), s'. split_and!; try done.
    + rewrite bind_assoc, (bind_run _ _ _ _ _ (get_mount_run s i mp Hmp)), bind_assoc, (bind_run _ _ _ _ _ Hrf). done.
    + exists (mp_root mp). split_and!; try done. apply (position_later s s'); [done|]. exists (set_refs n0 0). split_and!; try done.
      intros _. by exists vp.
  - rewrite ret_run. apply lookup_child_ok; try done. intros Hdf. by rewrite Hdf in Hf.
Qed.

Definition namei_ok (namei : name -> Z -> M (fs D) (option Z)) (link_count : Z) (spec : list file -> name -> outcome * Z) : Prop :=
  forall s held b st path, inv s held -> bounded s b -> 1 <= b -> position s (cwd s) st -> (spec st path).1 <> Unspecified ->
  b + (spec st path).2 < 2 ^ 32 ->
  exists r s', namei path link_count s = Some (r, s') /\ later s s' /\ bounded s' (b + (spec st path).2) /\ finds s s' held (spec st path).1 r.

(** Costs are not negative. *)
Definition costs (rec : list file -> name -> outcome * Z) : Prop := forall st path, 0 <= (rec st path).2.

Lemma step_cost rec follow st n : costs rec -> 0 <= (spec_step ops c d mounted mroot rec follow st n).2.
Proof.
  intros Hc. destruct st as [|f up]; [done|]. cbn [spec_step]. repeat case_match; cbn; done || apply Hc.
Qed.

Lemma walk_cost rec follow l : costs rec -> forall st, 0 <= (spec_walk ops c d mounted mroot rec follow l st).2.
Proof.
  intros Hc. induction l as [|n l IH]; intros st; cbn [spec_walk]; [done|]. case_decide; [apply IH|].
  pose proof (step_cost rec follow st n Hc) as Hs. destruct (spec_step _ _ _ _ _ _ _ _ _) as [o k]. cbn in Hs. destruct o as [st'|e|]; cbn; [|lia..].
  specialize (IH st'). destruct (spec_walk _ _ _ _ _ _ _ _ _). cbn in *. lia.
Qed.

Lemma resolve_cost n : forall follow, costs (resolve ops c d mounted mroot rt n follow).
Proof.
  induction n as [|n IH]; intros follow st path; [done|]. cbn [resolve].
  assert (forall st' p, 0 <= (let '(o, k) := spec_walk ops c d mounted mroot (resolve ops c d mounted mroot rt n true) follow p st' in (o, 1 + k)).2) as H.
  { intros st' p. pose proof (walk_cost (resolve ops c d mounted mroot rt n true) follow p (IH true) st'). destruct (spec_walk _ _ _ _ _ _ _ _ _). cbn in *. lia. }
  destruct path as [|x path]; [apply H|]. destruct (x =? 47); apply H.
Qed.

Lemma read_target_ok s held nvp g up : inv s held -> position s nvp (g :: up) ->
  read_target ops c nvp s = match target_of ops c d g with
    | Ok b => Some (Some (cstring b), s)
    | Err e => Some (None, with_err s e)
    end.
Proof.
  intros Hi Hpos. destruct (position_node s nvp g up Hpos) as (n & Hn & Em & Ev). unfold read_target, target_of.
  rewrite (bind_run _ _ _ _ _ (get_run s nvp n Hn)), gets_run, Em, Ev, (v_drv _ _ Hi).
  assert (exists r, vfs_readlink (ops g.1) c g.2 (PATH_MAX - 1) d = (r, d) /\ forall b, r = Ok b -> zlen b <= PATH_MAX - 1) as (r & -> & Hr).
  { unfold vfs_readlink. destruct (vfs_can_read c g.2 false); [|by eexists]. destruct (S_ISLNK (v_mode g.2)); [|by eexists]. cbn [negb].
    pose proof (do_readlink g.1 g.2 (PATH_MAX - 1)) as H2. destruct (call _ _ d) as [r d'] eqn:E. cbn in H2. subst d'. exists r. split; [done|].
    intros b ->. apply (do_target g.1 g.2); [lia|done]. }
  cbn [fst]. assert (modify (fun s => with_drv s d) s = Some (tt, s)) as Hdr by (unfold modify; by rewrite with_drv_same by apply Hi).
  rewrite (bind_run _ _ _ _ _ Hdr). destruct r as [b|e]; [|done]. specialize (Hr b eq_refl). destruct (Z.ltb_spec (zlen b) PATH_MAX); [done|lia].
Qed.

Lemma step_ok namei rec lc s held b vp st n : namei_ok namei (lc + 1) rec -> costs rec -> lc < SYMLOOP_MAX ->
  inv s held -> bounded s b -> 1 <= b -> position s vp st -> n <> [] -> n <> DOT ->
  let '(o, k) := spec_step ops c d mounted mroot rec (0 <=? lc) st n in o <> Unspecified -> b + 1 + k < 2 ^ 32 ->
  exists r s', namei_step ops c namei lc vp n s = Some (r, s') /\ later s s' /\ bounded s' (b + 1 + k) /\ finds s s' held o r.
Proof.
  intros Hrec Hcost Hlc Hi Hb Hb1 Hpos Hn0 Hn1. destruct st as [|f up]; [done|]. cbn [spec_step]. unfold namei_step. destruct (decide (n = DOTDOT)) as [->|Hn2].
  - pose proof Hpos as (nd & Hsv & Em & Ev & Hup). destruct (skel_inv s vp nd Hsv) as (nd0 & Hv & ->). cbn [n_parent set_refs] in Hup.
    assert (forall q st', n_parent nd0 = Some q -> position s q st' -> st' <> [] -> Found st' <> Unspecified -> b + 1 + 0 < 2 ^ 32 ->
      exists r s', (d0 ← get_node vp; q ← lift (n_parent d0); REF_OBJECT q;; mret (Some q)) s = Some (r, s') /\ later s s' /\ bounded s' (b + 1 + 0) /\
        finds s s' held (Found st') r) as Hgo.
    { intros q st' Hq Hpq Hne _ Hbb. destruct st' as [|g st']; [done|]. destruct (position_node s q g st' Hpq) as (nq & Hnq & _).
      destruct (ref_ok s held b q nq Hi Hb ltac:(lia) Hnq) as (s' & Hr & Hi' & Hb' & Hl'). exists (Some q), s'. rewrite !Z.add_0_r. split_and!; try done.
      - rewrite (bind_run _ _ _ _ _ (get_run s vp nd0 Hv)), Hq, (bind_run (lift (Some q)) _ s q s eq_refl), (bind_run _ _ _ _ _ Hr). done.
      - exists q. split_and!; try done. by apply (position_later s s'). }
    rewrite ?decide_True by done. destruct up as [|g up].
    + subst vp. destruct (t_root _ _ _ _ _ _ _ _ _ _ (v_tree _ _ Hi)) as (nr & Hr & _ & _ & Hrp). rewrite Hsv in Hr. injection Hr as <-.
      exact (Hgo (root_vnode s) [f] Hrp Hpos ltac:(done)).
    + destruct (is_dir f) eqn:Ed; [|done]. destruct (Hup eq_refl) as (q & Hq & Hpq). exact (Hgo q (g :: up) Hq Hpq ltac:(done)).
  - rewrite ?(decide_False _ _ Hn2). pose proof (entry_ok s held b vp f up n Hi Hb Hb1) as Hent.
    assert (forall o, child ops c d mounted mroot f n = o -> match o with Found l => exists g, l = [g] | _ => True end) as Hone.
    { intros o <-. unfold child. destruct (is_dir f), (mounted f.1 (v_ino f.2) n), (vfs_can_read c f.2 false), (entry_of ops d f.1 f.2 n); try done; by eexists. }
    specialize (Hone _ eq_refl). destruct (child ops c d mounted mroot f n) as [l|e|] eqn:Ech; [| |done].
    2:{ lazy iota beta. intros _ Hbb. destruct Hent as (r & s' & H1 & Hl & Hb' & -> & He & Hi'); [lia|done|done|done|]. exists None, s'. rewrite Z.add_0_r.
        split_and!; try done. rewrite <- bind_assoc, (bind_run _ _ _ _ _ H1). done. }
    destruct Hone as [g ->]. destruct ((0 <=? lc) && S_ISLNK (v_mode g.2)) eqn:Elnk.
    2:{ lazy iota beta. intros _ Hbb. destruct Hent as (r & s' & H1 & Hl & Hb' & q & -> & Hi' & Hq); [lia|done|done|done|]. cbn [app] in Hq.
        exists (Some q), s'. rewrite Z.add_0_r. split_and!; try done; [|by exists q]. rewrite <- bind_assoc, (bind_run _ _ _ _ _ H1).
        destruct (position_node s' q g _ Hq) as (nq & Hnq & _ & Evq). rewrite (bind_run _ _ _ _ _ (get_run s' q nq Hnq)), Evq, Elnk. done. }
    assert (forall s1 q, later s s1 -> inv s1 (hold q held) -> position s1 q (g :: f :: up) ->
      (mp ← vnode_find_mount_point vp n; match mp with Some _ => mret mp | None => vnode_lookup_child ops c vp n end) s = Some (Some q, s1) ->
      namei_step ops c namei lc vp n s = (t ← read_target ops c q; match t with
        | None => set_cwd (cwd s1);; mret None
        | Some target => q ← namei target (lc + 1); set_cwd (cwd s1);; mret q end) (with_cwd s1 vp)) as Hrun.
    { intros s1 q Hl Hi1 Hq H1. unfold namei_step. rewrite decide_False by done. rewrite <- bind_assoc, (bind_run _ _ _ _ _ H1).
      destruct (position_node s1 q g _ Hq) as (nq & Hnq & _ & Evq). rewrite (bind_run _ _ _ _ _ (get_run s1 q nq Hnq)), Evq, Elnk.
      destruct (Z.leb_spec LINK_MAX lc); [lia|]. rewrite (bind_run _ _ _ _ _ (malloc_run s1 (v_oom _ _ Hi1))). done. }
    unfold namei_step in Hrun. rewrite decide_False in Hrun by done. destruct (target_of ops c d g) as [bt|e] eqn:Et.
    + destruct (rec (f :: up) (cstring bt)) as [o k] eqn:Er. intros Hun Hbb. pose proof (Hcost (f :: up) (cstring bt)) as Hk. rewrite Er in Hk. cbn in Hk.
      destruct Hent as (r & s1 & H1 & Hl & Hb' & q & -> & Hi1 & Hq); [lia|done|done|done|]. rewrite (Hrun s1 q) by done.
      assert (inv (with_cwd s1 vp) (hold q held)) as Hi2 by (by apply inv_cwd).
      pose proof (read_target_ok (with_cwd s1 vp) _ q g (f :: up) Hi2 Hq) as Hrt. rewrite Et in Hrt. rewrite (bind_run _ _ _ _ _ Hrt).
      destruct (Hrec (with_cwd s1 vp) (hold q held) (b + 1) (f :: up) (cstring bt)) as (r & s3 & Hr3 & Hl3 & Hb3 & Hf3);
        rewrite ?Er in *; cbn [fst snd] in *; [done|done|lia|by apply (position_later s s1)|done|lia|]. rewrite (bind_run _ _ _ _ _ Hr3).
      exists r, (with_cwd s3 (cwd s1)). split_and!; [done| |done|].
      * destruct Hl as [L1 L2 L3], Hl3 as [M1 M2 M3]. split; [by eapply extends_trans|cbn in *; congruence|done].
      * assert (forall x, 0 <= held x) as Hh by apply Hi.
        destruct o as [st'|e|]; [|destruct Hf3 as (-> & He & Hi3); split_and!; [done|done|]|done].
        -- destruct Hf3 as (q' & -> & Hi3 & Hp3). exists q'. split_and!; [done| |done]. apply inv_cwd, (inv_weaken s3 (hold q' (hold q held))); [done|].
           intros x. pose proof (hold_nonneg q held x (Hh x)). unfold hold in *. destruct (x =? q'); lia.
        -- apply inv_cwd, (inv_weaken s3 (hold q held)); [done|]. intros x. by apply hold_nonneg.
    + lazy iota beta. intros _ Hbb. destruct Hent as (r & s1 & H1 & Hl & Hb' & q & -> & Hi1 & Hq); [lia|done|done|done|].
      rewrite (Hrun s1 q) by done. assert (inv (with_cwd s1 vp) (hold q held)) as Hi2 by (by apply inv_cwd).
      pose proof (read_target_ok (with_cwd s1 vp) _ q g (f :: up) Hi2 Hq) as Hrt. rewrite Et in Hrt. rewrite (bind_run _ _ _ _ _ Hrt).
      exists None, (with_cwd (with_err (with_cwd s1 vp) e) (cwd s1)). rewrite Z.add_0_r. split_and!; [done| |done|split_and!; [done|done|]].
      * destruct Hl as [L1 L2 L3]. by split.
      * apply inv_cwd, inv_err, inv_cwd, (inv_weaken s1 (hold q held)); [done|]. intros x. apply hold_nonneg. apply Hi.
Qed.

Lemma walk_ok namei rec lc l : namei_ok namei (lc + 1) rec -> costs rec -> lc < SYMLOOP_MAX -> forall s held b vp st,
  inv s (hold vp held) -> (forall q, 0 <= held q) -> bounded s b -> 1 <= b -> position s vp st ->
  let '(o, k) := spec_walk ops c d mounted mroot rec (0 <=? lc) l st in o <> Unspecified -> b + k < 2 ^ 32 ->
  exists r s', namei_walk ops op_dealloc c namei lc l vp s = Some (r, s') /\ later s s' /\ bounded s' (b + k) /\ finds s s' held o r.
Proof.
  intros Hrec Hcost Hlc. induction l as [|n l IH]; intros s held b vp st Hi Hh Hb Hb1 Hpos; cbn [spec_walk namei_walk].
  { intros _ _. exists (Some vp), s. rewrite Z.add_0_r. split_and!; [done|apply later_refl|done|]. by exists vp. }
  destruct (decide (n = [] \/ n = DOT)) as [_|Hn]; [by apply IH|].
  pose proof (step_ok namei rec lc s (hold vp held) b vp st n Hrec Hcost Hlc Hi Hb Hb1 Hpos) as Hstep. pose proof (step_cost rec (0 <=? lc) st n Hcost) as Hk.
  destruct (spec_step _ _ _ _ _ _ _ st n) as [o k] eqn:Es. cbn in Hk. destruct o as [st'|e|]; [| |done].
  - pose proof (walk_cost rec (0 <=? lc) l Hcost st') as Hk'. destruct (spec_walk _ _ _ _ _ _ _ l st') as [o' k'] eqn:Ew. cbn in Hk'. intros Hun Hbb.
    destruct Hstep as (r & s1 & H1 & Hl & Hb' & q & -> & Hi1 & Hq); [tauto|tauto|done|lia|]. rewrite (bind_run _ _ _ _ _ H1).
    specialize (IH s1 held (b + 1 + k) q st'). rewrite Ew in IH. destruct IH as (r & s2 & H2 & Hl2 & Hb2 & Hf2); [|done|done|lia|done|done|lia|].
    + apply (inv_weaken s1 (hold q (hold vp held))); [done|]. intros x. pose proof (hold_nonneg vp held x (Hh x)). unfold hold in *. destruct (x =? q); lia.
    + exists r, s2. replace (b + (1 + k + k')) with (b + 1 + k + k') by lia. split_and!; [done|by apply (later_trans s s1)|done|]. done.
  - intros Hun Hbb. destruct Hstep as (r & s1 & H1 & Hl & Hb' & -> & He & Hi1); [tauto|tauto|done|lia|]. rewrite (bind_run _ _ _ _ _ H1).
    destruct st as [|f up]; [done|]. destruct (position_node s1 vp f up) as (nv & Hnv & _); [by apply (position_later s s1)|].
    destruct (unref_ok s1 held (b + 1 + k) vp nv) as (s2 & H2 & Hi2 & Hb2 & Hl2 & He2); [done|done|done|lia|done|].
    exists None, s2. rewrite (bind_run _ _ _ _ _ H2). replace (b + (1 + k)) with (b + 1 + k) by lia.
    split_and!; [done|by apply (later_trans s s1)|done|]. split_and!; [done|congruence|done].
Qed.

(** [vnode_namei] resolves paths as the specification does. *)
Lemma namei_resolves n : forall lc fuel, (n < fuel)%nat -> -1 <= lc -> lc = SYMLOOP_MAX - Z.of_nat n ->
  namei_ok (vnode_namei ops op_dealloc c fuel) lc (resolve ops c d mounted mroot rt n (0 <=? lc)).
Proof.
  induction n as [|n IH]; intros lc fuel Hf Hlo Hlc s held b st path Hi Hb Hb1 Hpos; (destruct fuel as [|fuel]; [lia|]); cbn [vnode_namei resolve];
    rewrite (bind_run _ _ _ _ _ (malloc_run s (v_oom _ _ Hi))); cbn [negb].
  { intros _ _. subst lc. exists None, (with_err s ELOOP). rewrite Z.add_0_r. split_and!; [done|apply later_err|done|].
    split_and!; [done|done|by apply inv_err]. }
  destruct (Z.leb_spec SYMLOOP_MAX lc); [lia|]. rewrite gets_run.
  set (rec := resolve ops c d mounted mroot rt n true). assert (costs rec) as Hcost by apply resolve_cost.
  assert (forall vp st' rest, position s vp st' ->
    let x := (let '(o, k) := spec_walk ops c d mounted mroot rec (0 <=? lc) (pieces rest) st' in (o, 1 + k)) in
    x.1 <> Unspecified -> b + x.2 < 2 ^ 32 ->
    exists r s', (REF_OBJECT vp;; namei_walk ops op_dealloc c (vnode_namei ops op_dealloc c fuel) lc (pieces rest) vp) s = Some (r, s') /\
      later s s' /\ bounded s' (b + x.2) /\ finds s s' held x.1 r) as Hgo.
  { intros vp st' rest Hp. pose proof (walk_cost rec (0 <=? lc) (pieces rest) Hcost st') as Hk.
    destruct (spec_walk _ _ _ _ _ _ _ _ _) as [o k] eqn:Ew. cbn in Hk. cbn [fst snd]. intros Hun Hbb.
    destruct st' as [|f up]; [done|]. destruct (position_node s vp f up Hp) as (nv & Hnv & _).
    destruct (ref_ok s held b vp nv Hi Hb ltac:(lia) Hnv) as (s1 & H1 & Hi1 & Hb1' & Hl1). rewrite (bind_run _ _ _ _ _ H1).
    assert (exists r s', namei_walk ops op_dealloc c (vnode_namei ops op_dealloc c fuel) lc (pieces rest) vp s1 = Some (r, s') /\
      later s1 s' /\ bounded s' (b + 1 + k) /\ finds s1 s' held o r) as (r & s2 & H2 & Hl2 & Hb2 & Hf2).
    { assert (namei_ok (vnode_namei ops op_dealloc c fuel) (lc + 1) rec) as Hrec.
      { pose proof (IH (lc + 1) fuel ltac:(lia) ltac:(lia) ltac:(lia)) as Hih. destruct (Z.leb_spec 0 (lc + 1)); [done|lia]. }
      pose proof (walk_ok _ rec lc (pieces rest) Hrec Hcost ltac:(lia) s1 held (b + 1) vp (f :: up)) as Hw. rewrite Ew in Hw.
      apply Hw; try done; [apply Hi|lia|by apply (position_later s s1)|lia]. }
    exists r, s2. replace (b + (1 + k)) with (b + 1 + k) by lia. split_and!; [done|by apply (later_trans s s1)|done|done]. }
  destruct path as [|x path]; [by apply (Hgo (cwd s) st [])|]. destruct (x =? 47); [|by apply (Hgo (cwd s) st (x :: path))]. apply (Hgo (root_vnode s) [rt] path).
  destruct (t_root _ _ _ _ _ _ _ _ _ _ (v_tree _ _ Hi)) as (nr & Hr & A & B & _). by exists nr.
Qed.

(** ** Directory and name *)

Lemma last_slash_app path dn n : last_slash path = Some (dn, n) -> path = dn ++ 47 :: n.
Proof.
  revert dn n. induction path as [|x path IH]; intros dn n; cbn [last_slash]; [done|]. destruct (last_slash path) as [[d' n']|].
  - intros [= <- <-]. cbn [app]. f_equal. by apply IH.
  - destruct (Z.eqb_spec x 47) as [->|]; [|done]. by intros [= <- <-].
Qed.

(** The directory that [vnode_dir_name] finds is that of the part before the last
    slash, and the name is the rest. *)
Lemma dir_name_ok fuel s held b st path : inv s held -> bounded s b -> 1 <= b -> position s (cwd s) st -> (33 <= fuel)%nat ->
  let '(o, k) := match last_slash path with
    | None => (Found st, 1)
    | Some ([], _) => (Found [rt], 1)
    | Some (dn, _) => resolve ops c d mounted mroot rt 32 true st dn
    end in
  let nm := match last_slash path with None => path | Some (_, nm) => nm end in
  o <> Unspecified -> b + k < 2 ^ 32 ->
  exists r s', vnode_dir_name ops op_dealloc c fuel path s = Some (r, s') /\ later s s' /\ bounded s' (b + k) /\
    finds s s' held o (fst <$> r) /\ forall p x, r = Some (p, x) -> x = nm.
Proof.
  intros Hi Hb Hb1 Hpos Hf. unfold vnode_dir_name. rewrite (bind_run _ _ _ _ _ (malloc_run s (v_oom _ _ Hi))). cbn [negb]. rewrite gets_run.
  assert (forall p st' nm, position s p st' -> b + 1 < 2 ^ 32 -> exists r s', (REF_OBJECT p;; mret (Some (p, nm))) s = Some (r, s') /\ later s s' /\
    bounded s' (b + 1) /\ finds s s' held (Found st') (fst <$> r) /\ forall q (x : name), r = Some (q, x) -> x = nm) as Hgo.
  { intros p st' nm Hp Hbb. destruct st' as [|f up]; [done|]. destruct (position_node s p f up Hp) as (np & Hnp & _).
    destruct (ref_ok s held b p np Hi Hb Hbb Hnp) as (s1 & H1 & Hi1 & Hb' & Hl1). exists (Some (p, nm)), s1. rewrite (bind_run _ _ _ _ _ H1).
    split_and!; try done; [|by intros q x [= _ <-]]. exists p. split_and!; [done|done|]. by apply (position_later s s1). }
  destruct (last_slash path) as [[[|x dn] nm]|] eqn:El; [intros Hun Hbb| |intros Hun Hbb].
  - apply (Hgo (root_vnode s) [rt]); [|done]. destruct (t_root _ _ _ _ _ _ _ _ _ _ (v_tree _ _ Hi)) as (nr & Hr & A & B & _). by exists nr.
  - pose proof (namei_resolves 32 0 fuel ltac:(lia) ltac:(lia) eq_refl s held b st (x :: dn) Hi Hb Hb1 Hpos) as H. change (0 <=? 0) with true in H.
    destruct (resolve _ _ _ _ _ _ 32 true st (x :: dn)) as [o k] eqn:Er. cbn [fst snd] in H. intros Hun Hbb.
    destruct (H Hun Hbb) as (r & s1 & H1 & Hl & Hb' & Hfi). rewrite (bind_run _ _ _ _ _ H1). destruct r as [p|].
    + exists (Some (p, nm)), s1. split_and!; try done. by intros q y [= _ <-].
    + exists None, s1. split_and!; done.
  - by apply (Hgo (cwd s) st path).
Qed.
End run.

(** C27: Path resolution. For every driver that keeps its promises, from a
    well-formed tree, [vnode_namei] returns (nested symbolic links are bounded, so
    34 levels suffice) and finds the file that the path means, or fails with the
    error of the first component that does not resolve, ELOOP for links nested
    too deeply. The working directory is as before, all vnodes are still there
    with their attributes and parents, the tree is well formed again, and the
    result carries a reference of its own. The cost bounds the references taken,
    which must fit their 32-bit counts. *)
Theorem path_resolution_correct {D : Type} (ops : option Z -> @vnode_ops D) op_dealloc c d mounted mroot rt
    (s : fs D) held b st path lc fuel :
  driver_ok ops d mroot -> inv ops d mounted mroot rt s held -> bounded s b -> 1 <= b -> position s (cwd s) st ->
  -1 <= lc <= SYMLOOP_MAX -> (34 <= fuel)%nat ->
  let '(o, cost) := resolve ops c d mounted mroot rt (Z.to_nat (SYMLOOP_MAX - lc)) (0 <=? lc) st path in
  o <> Unspecified -> b + cost < 2 ^ 32 ->
  exists r s', vnode_namei ops op_dealloc c fuel path lc s = Some (r, s') /\
    cwd s' = cwd s /\ root_vnode s' = root_vnode s /\ extends (skel s) (skel s') /\ bounded s' (b + cost) /\
    match o with
    | Found st' => exists q, r = Some q /\ position s' q st' /\ inv ops d mounted mroot rt s' (hold q held)
    | Failed e => r = None /\ err s' = e /\ inv ops d mounted mroot rt s' held
    | Unspecified => False
    end.
Proof.
  intros Hdrv Hi Hb Hb1 Hpos Hlc Hf. destruct (resolve _ _ _ _ _ _ _ _ st path) as [o k] eqn:Er. intros Hun Hbb.
  pose proof (namei_resolves ops op_dealloc c d mounted mroot rt (Z.to_nat (SYMLOOP_MAX - lc)) lc fuel ltac:(lia) ltac:(lia) ltac:(lia)
    s held b st path Hi Hb Hb1 Hpos) as H. rewrite Er in H. destruct (H Hun Hbb) as (r & s' & H1 & [L1 L2 L3] & Hb' & Hfi).
  exists r, s'. split_and!; try done. destruct o as [st'|e|]; [|done|done]. destruct Hfi as (q & -> & Hi' & Hq). by exists q.
Qed.

(** ** A small tree

    The root directory has a directory [a] with a file [f] and a link [l] to
    [a/f]; another file system is mounted on [dev]. *)

Definition demo_attr (ino mode : Z) : vnode := mk_vnode mode ino 1 0 0 0 (0, 0) (0, 0) (0, 0) 0 0 0 (Some (mk_mount 0 0)).
Definition demo_entry (m : option Z) (ino : Z) (n : name) : option vnode :=
  if decide (m = Some 0) then
    if decide (ino = 2 /\ n = [97]) then Some (demo_attr 3 0x41c0) else
    if decide (ino = 2 /\ n = [108]) then Some (demo_attr 4 0xa1ff) else
    if decide (ino = 3 /\ n = [102]) then Some (demo_attr 5 0x81a4) else None
  else None.
Definition demo_ops (m : option Z) : @vnode_ops unit :=
  mk_ops (Some (fun '(v, n) d => (match demo_entry m (v_ino v) n with Some w => Ok w | None => Err ENOENT end, d)))
    None None None None None None None None None None None None None
    (Some (fun '(v, len) d => (Ok (take (Z.to_nat len) [97; 47; 102]), d))) None None None.
Definition demo_mounted (m : option Z) (ino : Z) (n : name) : option Z :=
  if decide (m = Some 0 /\ ino = 2 /\ n = [100; 101; 118]) then Some 1 else None.
Definition demo_mroot (i : Z) : vnode := demo_attr (2 - i) 0x41ff.
Definition demo_fs : fs unit := mk_fs
  {[1 := mk_node (demo_mroot 0) (Some 0) (Some 1) ∅ 1; 2 := mk_node (demo_mroot 1) (Some 1) (Some 1) ∅ 1]}
  {[0 := mk_mnt None None 1 {[2 := 1]}; 1 := mk_mnt (Some 1) (Some [100; 101; 118]) 2 {[1 := 2]}]}
  [1; 0] 1 1 3 ENOENT tt [].
Definition demo_root : cred := mk_cred 0 0 0 0 0 0 [] 0.
Definition no_dealloc (m : option Z) (v : vnode) (d : unit) : unit := d.

Example demo_link : option_map fst (vnode_namei demo_ops no_dealloc demo_root 34 [108] 0 demo_fs) = Some (Some 5).
Proof. vm_compute. reflexivity. Qed.
Example demo_link_nofollow : option_map fst (vnode_namei demo_ops no_dealloc demo_root 34 [108] (-1) demo_fs) = Some (Some 3).
Proof. vm_compute. reflexivity. Qed.
Example demo_dev_up : option_map fst (vnode_namei demo_ops no_dealloc demo_root 34 [100; 101; 118; 47; 46; 46] 0 demo_fs) = Some (Some 1).
Proof. vm_compute. reflexivity. Qed.

Lemma demo_entry_cases m v n w : entry_of demo_ops tt m v n = Ok w -> m = Some 0 /\
  ((v_ino v = 2 /\ n = [97] /\ w = demo_attr 3 0x41c0) \/ (v_ino v = 2 /\ n = [108] /\ w = demo_attr 4 0xa1ff) \/ (v_ino v = 3 /\ n = [102] /\ w = demo_attr 5 0x81a4)).
Proof.
  unfold entry_of, call, demo_ops, demo_entry. cbn [op_lookup fst]. repeat case_decide; cbn [fst]; intros [= <-]; naive_solver.
Qed.

#[export] Instance demo_driver_ok : driver_ok demo_ops tt demo_mroot.
Proof.
  split.
  - intros m v n. unfold call, demo_ops. cbn [op_lookup]. done.
  - done.
  - intros m v n w H. destruct (demo_entry_cases m v n w H) as (_ & [(_ & _ & ->)|[(_ & _ & ->)|(_ & _ & ->)]]); done.
  - intros m v1 v2 n1 n2 w1 w2 H1 H2. destruct (demo_entry_cases _ _ _ _ H1) as (_ & [(_ & _ & ->)|[(_ & _ & ->)|(_ & _ & ->)]]),
      (demo_entry_cases _ _ _ _ H2) as (_ & [(_ & _ & ->)|[(_ & _ & ->)|(_ & _ & ->)]]); done.
  - intros m v1 v2 n1 n2 w _ _ H1 H2 Hd. destruct (demo_entry_cases _ _ _ _ H1) as (_ & [(A1 & A2 & A3)|[(A1 & A2 & A3)|(A1 & A2 & A3)]]),
      (demo_entry_cases _ _ _ _ H2) as (_ & [(B1 & B2 & B3)|[(B1 & B2 & B3)|(B1 & B2 & B3)]]); subst w; try done; by split; congruence.
  - intros i v n w _ H. destruct (demo_entry_cases _ _ _ _ H) as (E & [(_ & _ & ->)|[(_ & _ & ->)|(_ & _ & ->)]]); injection E as ->; done.
  - intros m v len b Hlen. unfold call, demo_ops. cbn [op_readlink]. intros [= <-]. unfold zlen. rewrite length_take. lia.
Qed.

Lemma demo_nodes p n : skel demo_fs !! p = Some n ->
  p = 1 /\ n = mk_node (demo_mroot 0) (Some 0) (Some 1) ∅ 0 \/ p = 2 /\ n = mk_node (demo_mroot 1) (Some 1) (Some 1) ∅ 0.
Proof.
  unfold skel. rewrite lookup_fmap. cbn [nodes demo_fs]. destruct (decide (p = 1)) as [->|H1]; [rewrite lookup_insert_eq; intros [= <-]; by left|].
  rewrite lookup_insert_ne by done. destruct (decide (p = 2)) as [->|H2]; [rewrite lookup_singleton_eq; intros [= <-]; by right|]. by rewrite lookup_singleton_ne.
Qed.

Lemma demo_tree_ok : tree demo_ops tt demo_mounted demo_mroot (Some 0, demo_mroot 0) demo_fs.
Proof.
  assert (forall p nm, find_mount (mounts demo_fs) (mount_table demo_fs) p nm = if decide (p = 1 /\ nm = [100; 101; 118]) then Some 1 else None) as Hfm.
  { intros p nm. cbn [find_mount mount_table demo_fs]. change (mounts demo_fs !! 1) with (Some (mk_mnt (Some 1) (Some [100; 101; 118]) 2 {[1 := 2]})).
    change (mounts demo_fs !! 0) with (Some (mk_mnt None None 1 {[2 := 1]})). cbn [mp_parent mp_root_name].
    destruct (decide (p = 1 /\ nm = [100; 101; 118])) as [[-> ->]|Hn]; [done|]. rewrite decide_False by naive_solver. rewrite decide_False by naive_solver. done. }
  split.
  - intros p n Hp. destruct (demo_nodes p n Hp) as [[-> _]|[-> _]]; done.
  - exists (mk_node (demo_mroot 0) (Some 0) (Some 1) ∅ 0). done.
  - done.
  - intros p n Hp. destruct (demo_nodes p n Hp) as [[-> ->]|[-> ->]]; do 2 eexists; (split; [reflexivity|]); reflexivity.
  - intros p n nm ino i mp Hp Hc. destruct (demo_nodes p n Hp) as [[-> ->]|[-> ->]]; done.
  - intros p n Hp. destruct (demo_nodes p n Hp) as [[-> ->]|[-> ->]]; done.
  - intros p q n n' Hp Hq. destruct (demo_nodes p n Hp) as [[-> ->]|[-> ->]], (demo_nodes q n' Hq) as [[-> ->]|[-> ->]]; done.
  - intros q n Hq _. left. destruct (demo_nodes q n Hq) as [[-> ->]|[-> ->]]; eexists; done.
  - intros p n nm Hp. rewrite Hfm. destruct (demo_nodes p n Hp) as [[-> ->]|[-> ->]].
    + unfold dirn, demo_mounted. cbn [n_mount vn]. change (S_ISDIR (v_mode (demo_mroot 0))) with true. cbv iota.
      destruct (decide (nm = [100; 101; 118])) as [->|Hn]; [done|]. rewrite !decide_False by naive_solver. done.
    + unfold demo_mounted. cbn [n_mount]. rewrite !decide_False by naive_solver. by destruct (dirn _).
  - intros p nm i. rewrite Hfm. case_decide as Hc; [|done]. destruct Hc as [-> ->]. intros [= <-]. split; [by eexists|]. do 2 eexists.
    split; [reflexivity|]. split; [reflexivity|]. done.
  - intros m ino nm i. unfold demo_mounted. case_decide as Hc; [|done]. destruct Hc as (-> & -> & ->). intros _.
    exists 1, (mk_node (demo_mroot 0) (Some 0) (Some 1) ∅ 0). done.
Qed.

Lemma demo_inv : inv demo_ops tt demo_mounted demo_mroot (Some 0, demo_mroot 0) demo_fs (fun _ => 0).
Proof.
  split; [apply demo_tree_ok| |done|done|done|done]. intros p n Hp. apply skel_Some in Hp as H. cbn [nodes demo_fs] in Hp.
  destruct (demo_nodes p _ H) as [[-> _]|[-> _]]; vm_compute in Hp; injection Hp as <-; done.
Qed.

Lemma path_resolution_correct_witness :
  inv demo_ops tt demo_mounted demo_mroot (Some 0, demo_mroot 0) demo_fs (fun _ => 0) /\
  exists q s', vnode_namei demo_ops no_dealloc demo_root 34 [108] 0 demo_fs = Some (Some q, s') /\
    position s' q [(Some 0, demo_attr 5 0x81a4); (Some 0, demo_attr 3 0x41c0); (Some 0, demo_mroot 0)].
Proof.
  split; [exact demo_inv|].
  destruct (path_resolution_correct demo_ops no_dealloc demo_root tt demo_mounted demo_mroot (Some 0, demo_mroot 0) demo_fs (fun _ => 0) 1
    [(Some 0, demo_mroot 0)] [108] 0 34 demo_driver_ok demo_inv) as (r & s' & H1 & _ & _ & _ & _ & q & -> & Hq & _).
  - intros p n Hp. apply skel_Some in Hp as H. cbn [nodes demo_fs] in Hp. destruct (demo_nodes p _ H) as [[-> _]|[-> _]]; vm_compute in Hp; injection Hp as <-; done.
  - lia.
  - eexists. split; [reflexivity|]. split; [reflexivity|]. split; reflexivity.
  - lia.
  - lia.
  - vm_compute. discriminate.
  - vm_compute. reflexivity.
  - exists q, s'. split; [exact H1|]. exact Hq.
Defined.

(** ** Defects *)

(** A user without permission to search [a] is refused, unless somebody has looked
    into [a] before. *)
Lemma cached_child_unchecked :
  let user := mk_cred 1000 1000 1000 100 100 100 [] 0 in
  vfs_can_read user (demo_attr 3 0x41c0) false = false /\
  option_map fst (vnode_namei demo_ops no_dealloc user 34 [97; 47; 102] 0 demo_fs) = Some None /\
  (r ← vnode_namei demo_ops no_dealloc demo_root 34 [97; 47; 102] 0 demo_fs;
   option_map fst (vnode_namei demo_ops no_dealloc user 34 [97; 47; 102] 0 r.2)) = Some (Some 4).
Proof. vm_compute. split; [reflexivity|split; reflexivity]. Qed.

(** The references to the directories on the way are never given back. *)
Lemma namei_leaks : (r ← vnode_namei demo_ops no_dealloc demo_root 34 [97; 47; 102] 0 demo_fs;
    r ← UNREF_OBJECT no_dealloc r.1 r.2;
    r' ← vnode_namei demo_ops no_dealloc demo_root 34 [97; 47; 102] 0 r.2;
    r' ← UNREF_OBJECT no_dealloc r'.1 r'.2;
    Some (option_map n_refs (nodes r.2 !! 3), option_map n_refs (nodes r'.2 !! 3))) = Some (Some 3, Some 4).
Proof. vm_compute. reflexivity. Qed.

(** The parent of a file is found by [..] although a file is no directory. *)
Lemma dotdot_of_file : option_map fst (vnode_namei demo_ops no_dealloc demo_root 34 [97; 47; 102; 47; 46; 46] 0 demo_fs) = Some (Some 3).
Proof. vm_compute. reflexivity. Qed.

(** When the map of children cannot grow, the new vnode has no parent, and [..]
    dereferences NULL. *)
Lemma no_parent_without_memory :
  vnode_namei demo_ops no_dealloc demo_root 34 [97; 47; 46; 46] 0 (with_oom demo_fs [true; true; true; true; false]) = None.
Proof. vm_compute. reflexivity. Qed.

(** Without memory for the map of children a new vnode is released with no vector
    of operations. *)
Lemma vnode_alloc_crashes s v m : oom s = [true; false] -> vnode_alloc (D := unit) v m s = None.
Proof. intros H. unfold vnode_alloc, malloc, mbind, M_bind. rewrite H. done. Qed.

(** Releasing a directory with known children takes inode numbers for addresses. *)
Lemma dealloc_children_wild {D : Type} (s : fs D) dealloc unref p n : nodes s !! p = Some n ->
  forallb (fun x => x.2 =? 0) (map_to_list (n_children n)) = false -> vfs_dealloc dealloc unref p s = None.
Proof. intros Hp Hc. unfold vfs_dealloc. rewrite (bind_run _ _ _ _ _ (get_run s p n Hp)), Hc. done. Qed.

End Namei.
