(* ===== verification/FsCalls.v ===== *)
(** * System calls on files (drivers/fs/syscall.c)

    Module [FsCalls]: the calls that take paths, over the tree of vnodes of
    [Namei], the descriptor tables of [FdTable] and the vnode operations of [Vfs].
    The calls on open descriptors alone are in [Vfs] and [FdTable]. *)

From stdpp Require Import gmap.
From S2P Require Import Prelude CBits HashMap Cred FdTable Vfs Namei.

Module FsCalls.
Import CBits Cred Vfs Namei.

Abbreviation O_WRONLY := 1.
Abbreviation O_RDWR := 2.
Abbreviation O_ACCMODE := 3.
Abbreviation O_CREAT := 8.
Abbreviation O_EXCL := 32.
Abbreviation O_NOFOLLOW := 1024.
Abbreviation O_DIRECTORY := 2048.
Abbreviation AT_FDCWD := (-2).
Abbreviation AT_SYMLINK_FOLLOW := 1.
Abbreviation AT_SYMLINK_NOFOLLOW := 2.
Abbreviation AT_EACCESS := 4.
Abbreviation AT_REMOVEDIR := 8.
Abbreviation VN_FLAG_SYNC_PROC := 2.

Section calls.
Context {D : Type} (ops : option Z -> @vnode_ops D) (op_dealloc : option Z -> vnode -> D -> D) (c : cred).

(** The tree with the current process's working directory, the descriptor tables,
    the index of the process in them and its file creation mask. *)
Record sys := mk_sys { tree : fs D; files : FdTable.fd_state; this : nat; umask : Z }.
Definition set_tree (s : sys) (t : fs D) : sys := mk_sys t (files s) (this s) (umask s).
Definition set_files (s : sys) (f : FdTable.fd_state) : sys := mk_sys (tree s) f (this s) (umask s).

Definition on_tree {A} (m : M (fs D) A) : M sys A := fun s =>
  match m (tree s) with Some (a, t) => Some (a, set_tree s t) | None => None end.

(** The fuel for path resolution. *)
Definition namei (path : name) (link_count : Z) : M (fs D) (option Z) := vnode_namei ops op_dealloc c 34 path link_count.
Definition dir_name (path : name) : M (fs D) (option (Z * name)) := vnode_dir_name ops op_dealloc c 34 path.
Definition UNREF (p : Z) : M (fs D) unit := UNREF_OBJECT op_dealloc (Some p).

(** The result -1 with the present [errno]. *)
Definition failed {A} : M (fs D) (res A) := s ← gets (fun s => s); mret (Err (err s)).
Definition fail {A} (e : errno) : M (fs D) (res A) := set_errno e;; mret (Err e).

(** An operation of [Vfs] on the vnode at [p]. *)
Definition vop {A} (p : Z) (f : @vnode_ops D -> vnode -> D -> res A * D) : M (fs D) (res A) :=
  n ← get_node p;
  s ← gets (fun s => s);
  let '(r, x) := f (ops (n_mount n)) (vn n) (drv s) in
  modify (fun s => with_drv s x);;
  match r with
  | Ok _ => mret r
  | Err e => fail e
  end.
Definition attributes (p : Z) : M (fs D) vnode := n ← get_node p; mret (vn n).
Definition set_attributes (p : Z) (v : vnode) : M (fs D) unit :=
  n ← get_node p; put_node p (mk_node v (n_mount n) (n_parent n) (n_children n) (n_refs n)).

(** ** Helpers *)

(** A path is resolved, something is done with the vnode, and it is released. *)
Definition with_path {A} (path : name) (link_count : Z) (body : Z -> M (fs D) (res A)) : M (fs D) (res A) :=
  vp ← namei path link_count;
  match vp with
  | None => failed
  | Some p => r ← body p; UNREF p;; mret r
  end.
Definition with_dir {A} (path : name) (body : Z -> name -> M (fs D) (res A)) : M (fs D) (res A) :=
  x ← dir_name path;
  match x with
  | None => failed
  | Some (dir, n) => r ← body dir n; UNREF dir;; mret r
  end.

(** [xaccess] on the vnode at [p]. *)
Definition access (p : Z) (mode : Z) (real : bool) : M (fs D) (res Z) :=
  v ← attributes p;
  r ← lift (xaccess c v mode real);
  match r with Ok _ => mret r | Err e => fail e end.

Definition getattr (st : stat) (p : Z) : M (fs D) (res stat) := vop p (fun o v d => vfs_getattr o c st v d).
Definition xstat (path : name) (st : stat) (follow : bool) : M (fs D) (res stat) :=
  with_path path (if follow then 0 else -1) (getattr st).

Definition xrename (old_dir : Z) (old_name : name) (new_dir : Z) (new_name : name) : M (fs D) (res Z) :=
  vp ← vfs_lookup ops c old_dir old_name;
  match vp with
  | None => failed
  | Some p =>
      n ← get_node p;
      o ← get_node old_dir;
      w ← get_node new_dir;
      if negb (bool_decide (n_mount n = n_mount o)) then set_errno EBUSY;; UNREF p;; mret (Err EBUSY) else
      if negb (bool_decide (n_mount o = n_mount w)) then set_errno EXDEV;; UNREF p;; mret (Err EXDEV) else
      UNREF p;;
      vop old_dir (fun o v d => vfs_rename o c v old_name (vn w) new_name d)
  end.

Definition xlink (vp dir : Z) (n : name) : M (fs D) (res Z) :=
  v ← get_node vp;
  d ← get_node dir;
  if negb (bool_decide (n_mount v = n_mount d)) then fail EXDEV else
  scratch ← vfs_lookup ops c dir n;
  match scratch with
  | Some p => UNREF p;; fail EEXIST
  | None =>
      s ← gets (fun s => s);
      if negb (bool_decide (err s = ENOENT)) then fail EEXIST else
      vop dir (fun o w d => vfs_link o c w (vn v) n d)
  end.

Definition chmod (p mode : Z) : M (fs D) (res Z) :=
  r ← vop p (fun o v d => vfs_chmod o c v mode d);
  match r with
  | Ok v => set_attributes p v;; mret (Ok 0)
  | Err e => mret (Err e)
  end.
Definition xchmod (path : name) (mode : Z) (follow : bool) : M (fs D) (res Z) :=
  with_path path (if follow then 0 else -1) (fun p => chmod p mode).

Definition chown (p uid gid : Z) : M (fs D) (res Z) :=
  n ← get_node p;
  s ← gets (fun s => s);
  let '(r, v, x) := vfs_chown (ops (n_mount n)) c (vn n) uid gid (drv s) in
  modify (fun s => with_drv s x);;
  set_attributes p v;;
  match r with Ok _ => mret r | Err e => fail e end.
Definition xchown (path : name) (uid gid : Z) (follow : bool) : M (fs D) (res Z) :=
  with_path path (if follow then 0 else -1) (fun p => chown p uid gid).

(** ** Paths relative to a descriptor

    What the calls ending in [at] have in common: the working directory is that
    of the descriptor while [body] runs. *)
Definition fd_vnode (fd : Z) : M sys (res Z) :=
  s ← gets (fun s => s);
  r ← lift (FdTable.file_fd (files s) (this s) fd);
  match r with
  | Err e => on_tree (set_errno e);; mret (Err e)
  | Ok k => f ← lift ((FdTable.system_fd_table (files s)).[k]); mret (Ok (FdTable.vnode f))
  end.

Definition at_dir {A} (dirfd : Z) (body : M sys (res A)) : M sys (res A) :=
  s ← gets (fun s => s);
  if dirfd =? AT_FDCWD then
    r ← body;
    on_tree (set_cwd (cwd (tree s)));;
    mret r
  else
    f ← fd_vnode dirfd;
    match f with
    | Err e => mret (Err e)
    | Ok v =>
        on_tree (REF_OBJECT v;; set_cwd v);;
        r ← body;
        on_tree (t ← gets (fun t => t); UNREF (cwd t));;
        on_tree (set_cwd (cwd (tree s)));;
        mret r
    end.

(** ** Files and attributes *)

Definition sys_access (path : name) (mode : Z) : M (fs D) (res Z) := with_path path 0 (fun p => access p mode true).
Definition sys_faccessat (dirfd : Z) (path : name) (mode flags : Z) : M sys (res Z) :=
  let real := negb (truthy (Z.land flags AT_EACCESS)) in
  let links := if truthy (Z.land flags AT_SYMLINK_NOFOLLOW) then -1 else 0 in
  at_dir dirfd (on_tree (with_path path links (fun p => access p mode real))).

Definition sys_stat (path : name) (st : stat) : M (fs D) (res stat) := xstat path st true.
Definition sys_lstat (path : name) (st : stat) : M (fs D) (res stat) := xstat path st false.
Definition sys_fstat (fd : Z) (st : stat) : M sys (res stat) :=
  f ← fd_vnode fd; match f with Err e => mret (Err e) | Ok v => on_tree (getattr st v) end.

Definition sys_readlink (path : name) (len : Z) : M (fs D) (res (list Z)) :=
  with_path path (-1) (fun p => vop p (fun o v d => vfs_readlink o c v len d)).
Definition sys_readlinkat (dirfd : Z) (path : name) (len : Z) : M sys (res (list Z)) :=
  at_dir dirfd (on_tree (sys_readlink path len)).

Definition truncate (p len : Z) : M (fs D) (res Z) := vop p (fun o v d => vfs_truncate o c v len d).
Definition sys_truncate (path : name) (len : Z) : M (fs D) (res Z) := with_path path 0 (fun p => truncate p len).
Definition sys_ftruncate (fd len : Z) : M sys (res Z) :=
  f ← fd_vnode fd; match f with Err e => mret (Err e) | Ok v => on_tree (truncate v len) end.
Definition sys_fsync (fd : Z) : M sys (res Z) :=
  f ← fd_vnode fd; match f with Err e => mret (Err e) | Ok v => on_tree (vop v (fun o v d => vfs_sync o c v d)) end.

Definition sys_chmod (path : name) (mode : Z) : M (fs D) (res Z) := xchmod path mode true.
Definition sys_fchmod (fd mode : Z) : M sys (res Z) :=
  f ← fd_vnode fd; match f with Err e => mret (Err e) | Ok v => on_tree (chmod v mode) end.
Definition sys_fchmodat (dirfd : Z) (path : name) (mode flags : Z) : M sys (res Z) :=
  at_dir dirfd (on_tree (xchmod path mode (negb (truthy (Z.land flags AT_SYMLINK_NOFOLLOW))))).

Definition sys_chown (path : name) (uid gid : Z) : M (fs D) (res Z) := xchown path uid gid true.
Definition sys_lchown (path : name) (uid gid : Z) : M (fs D) (res Z) := xchown path uid gid false.
Definition sys_fchown (fd uid gid : Z) : M sys (res Z) :=
  f ← fd_vnode fd; match f with Err e => mret (Err e) | Ok v => on_tree (chown v uid gid) end.
Definition sys_fchownat (dirfd : Z) (path : name) (uid gid flags : Z) : M sys (res Z) :=
  at_dir dirfd (on_tree (xchown path uid gid (negb (truthy (Z.land flags AT_SYMLINK_NOFOLLOW))))).

(** [now] is the present time; a NULL array of times is dereferenced. *)
Definition utime (now : Z) (p : Z) (times : timespec * timespec) : M (fs D) (res Z) :=
  n ← get_node p;
  s ← gets (fun s => s);
  x ← lift (vfs_utime (ops (n_mount n)) c now (vn n) (Some times.1) (Some times.2) (drv s));
  modify (fun s => with_drv s x.2);;
  match x.1 with Ok _ => mret x.1 | Err e => fail e end.
Definition sys_futimens (now fd : Z) (times : timespec * timespec) : M sys (res Z) :=
  f ← fd_vnode fd; match f with Err e => mret (Err e) | Ok v => on_tree (utime now v times) end.

(** [links = -!(flags & AT_SYMLINK_NOFOLLOW)]; [ret] is not initialised when the
    path does not resolve. *)
Definition sys_utimensat (now dirfd : Z) (path : name) (times : timespec * timespec) (flags garbage : Z) : M sys (res Z) :=
  let links := if truthy (Z.land flags AT_SYMLINK_NOFOLLOW) then 0 else -1 in
  at_dir dirfd (on_tree (
    vp ← namei path links;
    match vp with
    | None => mret (Ok garbage)
    | Some p => r ← utime now p times; UNREF p;; mret r
    end)).

(** ** Directories *)

(** [vfs_create] and [vfs_mkdir] with no result wanted. *)
Definition create (dir : Z) (n : name) (mode rdev : Z) : M (fs D) (res vnode) := vop dir (fun o v d => vfs_create o c v n mode rdev d).
Definition mkdir (dir : Z) (n : name) (mode : Z) : M (fs D) (res vnode) := vop dir (fun o v d => vfs_mkdir o c v n mode d).
Definition ret_zero {A} (r : res A) : res Z := match r with Ok _ => Ok 0 | Err e => Err e end.

Definition sys_mknod (path : name) (mode dev : Z) : M (fs D) (res Z) :=
  with_dir path (fun dir n =>
    scratch ← vfs_lookup ops c dir n;
    match scratch with
    | Some p => UNREF p;; fail EEXIST
    | None =>
        s ← gets (fun s => s);
        if negb (bool_decide (err s = ENOENT)) then fail EEXIST else
        r ← create dir n mode dev; mret (ret_zero r)
    end).
Definition sys_mknodat (dirfd : Z) (path : name) (mode dev : Z) : M sys (res Z) := at_dir dirfd (on_tree (sys_mknod path mode dev)).

Definition sys_mkdir (path : name) (mode : Z) : M (fs D) (res Z) :=
  with_dir path (fun dir n => r ← mkdir dir n mode; mret (ret_zero r)).
Definition sys_mkdirat (dirfd : Z) (path : name) (mode : Z) : M sys (res Z) := at_dir dirfd (on_tree (sys_mkdir path mode)).

Definition sys_unlink (path : name) : M (fs D) (res Z) :=
  with_dir path (fun dir n => vop dir (fun o v d => vfs_unlink o c v n d)).
Definition sys_rmdir (path : name) : M (fs D) (res Z) :=
  with_dir path (fun dir n =>
    v ← attributes dir;
    if negb (S_ISDIR (v_mode v)) then fail ENOTDIR else
    vop dir (fun o v d => vfs_unlink o c v n d)).
Definition sys_unlinkat (dirfd : Z) (path : name) (flags : Z) : M sys (res Z) :=
  at_dir dirfd (on_tree (if truthy (Z.land flags AT_REMOVEDIR) then sys_rmdir path else sys_unlink path)).

Definition sys_symlink (old_path new_path : name) : M (fs D) (res Z) :=
  with_dir new_path (fun dir n => vop dir (fun o v d => vfs_symlink o c v n old_path d)).
Definition sys_symlinkat (old_path : name) (new_dirfd : Z) (new_path : name) : M sys (res Z) :=
  at_dir new_dirfd (on_tree (sys_symlink old_path new_path)).

Definition sys_rename (old_path new_path : name) : M (fs D) (res Z) :=
  x ← dir_name old_path;
  match x with
  | None => failed
  | Some (old_dir, old_name) =>
      y ← dir_name new_path;
      match y with
      | None => s ← gets (fun s => s); UNREF old_dir;; mret (Err (err s))
      | Some (new_dir, new_name) =>
          r ← xrename old_dir old_name new_dir new_name;
          UNREF old_dir;;
          UNREF new_dir;;
          mret r
      end
  end.

Definition sys_link (old_path new_path : name) : M (fs D) (res Z) :=
  with_path old_path 0 (fun vp => with_dir new_path (fun dir n => xlink vp dir n)).

(** The first descriptor's directory becomes the working directory, with a
    reference; [false] when the descriptor is not open. *)
Definition enter_dir (dirfd : Z) : M sys (option errno * bool) :=
  if dirfd =? AT_FDCWD then mret (None, false) else
  f ← fd_vnode dirfd;
  match f with
  | Err e => mret (Some e, false)
  | Ok v => on_tree (REF_OBJECT v;; set_cwd v);; mret (None, true)
  end.
Definition drop_cwd : M sys unit := on_tree (t ← gets (fun t => t); UNREF (cwd t)).

(** The return for a second descriptor that is not open leaves the working
    directory, and what was taken so far, as they are. *)
Definition sys_renameat (old_dirfd : Z) (old_path : name) (new_dirfd : Z) (new_path : name) : M sys (res Z) :=
  s ← gets (fun s => s);
  let finish (unref : bool) (r : res Z) :=
    (if unref then drop_cwd else mret tt);;
    on_tree (set_cwd (cwd (tree s)));;
    mret r in
  '(e, unref) ← enter_dir old_dirfd;
  match e with
  | Some e => mret (Err e)
  | None =>
      x ← on_tree (dir_name old_path);
      match x with
      | None => t ← gets (fun s => s); finish unref (Err (err (tree t)))
      | Some (old_dir, old_name) =>
          (if unref : bool then drop_cwd else mret tt);;
          '(e, unref) ← enter_dir new_dirfd;
          match e with
          | Some e => mret (Err e)
          | None =>
              y ← on_tree (dir_name new_path);
              match y with
              | None => t ← gets (fun s => s); on_tree (UNREF old_dir);; finish unref (Err (err (tree t)))
              | Some (new_dir, new_name) =>
                  r ← on_tree (xrename old_dir old_name new_dir new_name);
                  on_tree (UNREF new_dir);;
                  on_tree (UNREF old_dir);;
                  finish unref r
              end
          end
      end
  end.

Definition sys_linkat (old_dirfd : Z) (old_path : name) (new_dirfd : Z) (new_path : name) (flags garbage : Z) : M sys (res Z) :=
  s ← gets (fun s => s);
  let links := if truthy (Z.land flags AT_SYMLINK_FOLLOW) then 0 else -1 in
  let finish (unref : bool) (r : res Z) :=
    (if unref then drop_cwd else mret tt);;
    on_tree (set_cwd (cwd (tree s)));;
    mret r in
  '(e, unref) ← enter_dir old_dirfd;
  match e with
  | Some e => mret (Err e)
  | None =>
      vp ← on_tree (namei old_path links);
      match vp with
      | None => finish unref (Ok garbage)
      | Some p =>
          (if unref : bool then drop_cwd else mret tt);;
          '(e, unref) ← enter_dir new_dirfd;
          match e with
          | Some e => mret (Err e)
          | None =>
              y ← on_tree (dir_name new_path);
              match y with
              | None => t ← gets (fun s => s); on_tree (UNREF p);; finish unref (Err (err (tree t)))
              | Some (dir, n) =>
                  r ← on_tree (xlink p dir n);
                  on_tree (UNREF dir);;
                  on_tree (UNREF p);;
                  finish unref r
              end
          end
      end
  end.

(** ** The working directory *)

Definition sys_chdir (path : name) : M (fs D) (res Z) :=
  vp ← namei path 0;
  match vp with
  | None => failed
  | Some p => s ← gets (fun s => s); UNREF (cwd s);; set_cwd p;; mret (Ok 0)
  end.
Definition sys_fchdir (fd : Z) : M sys (res Z) :=
  f ← fd_vnode fd;
  match f with
  | Err e => mret (Err e)
  | Ok v => on_tree (s ← gets (fun s => s); UNREF (cwd s));; on_tree (set_cwd v;; REF_OBJECT v);; mret (Ok 0)
  end.

Definition sys_umask (mode : Z) : M sys Z :=
  s ← gets (fun s => s);
  modify (fun s => mk_sys (tree s) (files s) (this s) (Z.land mode 0x1ff));;
  mret (umask s).

(** ** Opening files *)

(** An operation on the descriptor tables; the vnodes it gives up are released. *)
Definition on_files {A} (m : FdTable.fd_state -> option (A * FdTable.fd_state)) : M sys A := fun s =>
  match m (files s) with
  | None => None
  | Some (a, f) =>
      match (fix go (l : list Z) : M (fs D) unit :=
               match l with
               | [] => mret tt
               | v :: l => UNREF_OBJECT op_dealloc (if v =? 0 then None else Some v);; go l
               end) (drop (length (FdTable.unrefs (files s))) (FdTable.unrefs f)) (tree s) with
      | Some (_, t) => Some (a, mk_sys t f (this s) (umask s))
      | None => None
      end
  end.

Definition alloc_procfd : M sys (res Z) := fun s =>
  match FdTable.alloc_procfd (files s) (this s) (oom (tree s)) with
  | Some (r, f, o) => Some (r, set_tree (set_files s f) (with_oom (tree s) o))
  | None => None
  end.
Definition free_procfd (fd : Z) : M sys unit :=
  s ← gets (fun s => s);
  on_files (fun f => f' ← FdTable.free_procfd f (this s) fd; Some (tt, f')).
Definition free_fd (k : Z) : M sys unit := on_files (fun f => f' ← FdTable.free_fd f k; Some (tt, f')).

(** The vnode made for a file that did not exist; its mode is [mode]. *)
Definition create_at (path : name) (flags mode : Z) : M sys (option Z) :=
  s ← gets (fun s => s);
  x ← on_tree (dir_name path);
  match x with
  | None => mret None
  | Some (dir, n) =>
      v ← on_tree (attributes dir);
      m ← lift (v_mount v);
      if truthy (Z.land (m_flags m) MS_RDONLY) then on_tree (UNREF dir;; set_errno EROFS);; mret None else
      if decide (n = DOT \/ n = DOTDOT) then on_tree (UNREF dir;; set_errno ENOENT);; mret None else
      let mode := Z.land mode (Z.lnot (umask s)) in
      r ← on_tree (if truthy (Z.land flags O_DIRECTORY) then mkdir dir n mode else create dir n mode 0);
      vp ← (match r with
            | Err _ => mret None
            | Ok w => on_tree (nd ← get_node dir; vnode_alloc w (n_mount nd))
            end);
      on_tree (UNREF dir);;
      mret vp
  end.

Definition sys_open (path : name) (flags mode : Z) : M sys (res Z) :=
  sysfd ← on_files FdTable.alloc_fd;
  if sysfd =? -1 then on_tree (fail ENFILE) else
  r ← alloc_procfd;
  match r with
  | Err e => on_tree (set_errno e);; free_fd sysfd;; mret (Err e)
  | Ok fd =>
      let err1 := (free_procfd fd;; free_fd sysfd;; s ← gets (fun s => s); mret (Err (err (tree s)))) in
      vp ← on_tree (namei path (if truthy (Z.land flags O_NOFOLLOW) then -1 else 0));
      s ← gets (fun s => s);
      vp ← (match vp with
            | None =>
                if bool_decide (err (tree s) = ENOENT) && truthy (Z.land flags O_CREAT) then create_at path flags mode else mret None
            | Some p =>
                if truthy (Z.land flags O_CREAT) && truthy (Z.land flags O_EXCL)
                then on_tree (UNREF p;; set_errno EEXIST);; mret None else mret vp
            end);
      match vp with
      | None => err1
      | Some p =>
          v ← on_tree (attributes p);
          m ← lift (v_mount v);
          if truthy (Z.land (m_flags m) MS_RDONLY) &&
             ((Z.land flags O_ACCMODE =? O_WRONLY) || (Z.land flags O_ACCMODE =? O_RDWR))
          then on_tree (UNREF p;; set_errno EROFS);; err1 else
          on_files (fun f => f' ← FdTable.fill_fd f (this s) fd sysfd p flags; Some (tt, f'));;
          mret (Ok fd)
      end
  end.
Definition sys_openat (dirfd : Z) (path : name) (flags mode : Z) : M sys (res Z) := at_dir dirfd (sys_open path flags mode).

Definition sys_close (fd : Z) : M sys (res Z) :=
  s ← gets (fun s => s);
  r ← lift (FdTable.file_fd (files s) (this s) fd);
  match r with
  | Err _ => on_tree (fail EBADF)
  | Ok _ => free_procfd fd;; mret (Ok 0)
  end.

Definition sys_dup (fd : Z) : M sys (res Z) :=
  s ← gets (fun s => s);
  r ← lift (FdTable.file_fd (files s) (this s) fd);
  match r with
  | Err e => on_tree (fail e)
  | Ok k =>
      n ← alloc_procfd;
      match n with
      | Err e => mret (Err e)
      | Ok nfd =>
          s ← gets (fun s => s);
          t ← lift (FdTable.fds (files s) !! this s);
          l ← lift ((FdTable.table t).[nfd <- Some k]);
          f ← lift ((FdTable.system_fd_table (files s)).[k]);
          x ← lift ((FdTable.system_fd_table (files s)).[k <- FdTable.set_count f (u64 (FdTable.count f + 1))]);
          modify (fun s => set_files s (FdTable.upd_fds (FdTable.set_sys (files s) x) (this s) (FdTable.set_table t l)));;
          mret (Ok nfd)
      end
  end.
End calls.
Arguments sys : clear implicits.

(** ** Theorems *)

Section correct.
Context {D : Type} (ops : option Z -> @vnode_ops D) (op_dealloc : option Z -> vnode -> D -> D) (c : cred).
Context (d : D) (mounted : option Z -> Z -> name -> option Z) (mroot : Z -> vnode) (rt : file).
Context {Hdrv : driver_ok ops d mroot}.
Abbreviation invariant := (inv ops d mounted mroot rt).
Abbreviation meaning lc st path := (resolve ops c d mounted mroot rt (Z.to_nat (SYMLOOP_MAX - lc)) (0 <=? lc) st path).

Lemma with_err_same (s : fs D) : with_err s (err s) = s.
Proof. by destruct s. Qed.

Lemma namei_run s held b st path lc : invariant s held -> bounded s b -> 1 <= b -> position s (cwd s) st -> -1 <= lc <= SYMLOOP_MAX ->
  (meaning lc st path).1 <> Unspecified -> b + (meaning lc st path).2 < 2 ^ 32 ->
  exists r s', namei ops op_dealloc c path lc s = Some (r, s') /\ later s s' /\ bounded s' (b + (meaning lc st path).2) /\
    finds ops d mounted mroot rt s s' held (meaning lc st path).1 r.
Proof.
  intros Hi Hb Hb1 Hpos Hlc. apply (namei_resolves ops op_dealloc c d mounted mroot rt (Z.to_nat (SYMLOOP_MAX - lc)) lc 34); done || lia.
Qed.

(** Calls that look at the file of a path and change nothing but [errno]. *)
Lemma with_path_ok {A} s held b st path lc (body : Z -> M (fs D) (res A)) (R : file -> res A -> Prop) :
  invariant s held -> bounded s b -> 1 <= b -> position s (cwd s) st -> -1 <= lc <= SYMLOOP_MAX ->
  (meaning lc st path).1 <> Unspecified -> b + (meaning lc st path).2 < 2 ^ 32 ->
  (forall s1 q f up, position s1 q (f :: up) -> (meaning lc st path).1 = Found (f :: up) -> exists r e, body q s1 = Some (r, with_err s1 e) /\ R f r) ->
  exists r s', with_path ops op_dealloc c path lc body s = Some (r, s') /\ later s s' /\ bounded s' (b + (meaning lc st path).2) /\ invariant s' held /\
    match (meaning lc st path).1 with Found (f :: _) => R f r | Failed e => r = Err e | _ => False end.
Proof.
  intros Hi Hb Hb1 Hpos Hlc Hun Hbb Hbody. assert (forall q, 0 <= held q) as Hh by apply Hi.
  destruct (namei_run s held b st path lc) as (r & s1 & H1 & Hl1 & Hb' & Hf); [done..|]. unfold with_path. rewrite (bind_run _ _ _ _ _ H1).
  destruct (meaning lc st path) as [o k] eqn:Em. cbn [fst snd] in *. destruct o as [[|f up]|e|]; [| | |done].
  - destruct Hf as (q & _ & _ & Hq). done.
  - destruct Hf as (q & -> & Hi1 & Hq). destruct (Hbody s1 q f up Hq eq_refl) as (r & e & Hr & HR). rewrite (bind_run _ _ _ _ _ Hr).
    destruct (position_node s1 q f up Hq) as (n & Hn & _).
    destruct (unref_ok ops op_dealloc d mounted mroot rt (with_err s1 e) held (b + k) q n) as (s2 & H2 & Hi2 & Hb2 & Hl2 & _); [by apply inv_err|done|done|lia|done|].
    unfold UNREF. rewrite (bind_run _ _ _ _ _ H2). exists r, s2. split_and!; try done. eapply later_trans; [exact Hl1|]. eapply later_trans; [apply later_err|exact Hl2].
  - destruct Hf as (-> & He & Hi1). exists (Err e), s1. split_and!; try done. unfold failed. rewrite gets_run, He. done.
Qed.

Lemma access_run (s : fs D) p mode real f up : position s p (f :: up) -> v_mount f.2 <> None ->
  exists r e, access c p mode real s = Some (r, with_err s e) /\ xaccess c f.2 mode real = Some r.
Proof.
  intros Hp Hm. destruct (position_node s p f up Hp) as (n & Hn & _ & Ev). unfold access, attributes. rewrite bind_assoc, (bind_run _ _ _ _ _ (get_run s p n Hn)), ret_run, Ev.
  assert (exists r, xaccess c f.2 mode real = Some r) as [r Hr].
  { unfold xaccess. destruct (v_mount f.2) as [m|]; [|done]. cbn [mbind option_bind].
    destruct (mode =? F_OK); [by eexists|]. destruct (mode =? _); [|by eexists]. destruct (_ && negb (vfs_can_read c f.2 real)); [by eexists|].
    destruct (truthy (Z.land mode W_OK)); cbn [mbind option_bind]; repeat (destruct (_ || _) || destruct (_ && _)); by eexists. }
  rewrite Hr. rewrite (bind_run (lift (Some r)) _ s r s eq_refl). destruct r as [z|e].
  - exists (Ok z), (err s). by rewrite with_err_same.
  - exists (Err e), e. done.
Qed.

Lemma on_tree_run {A} (m : M (fs D) A) (s : sys D) a t : m (tree s) = Some (a, t) -> on_tree m s = Some (a, set_tree s t).
Proof. intros H. unfold on_tree. by rewrite H. Qed.

(** The directory that paths are relative to. *)
Definition base (s : sys D) (dirfd v : Z) : Prop :=
  if dirfd =? AT_FDCWD then v = cwd (tree s)
  else fd_vnode dirfd s = Some (Ok v, s).

(** A call relative to a descriptor runs with the descriptor's directory and puts
    the working directory and the references back. *)
Lemma at_dir_ok {A} (s : sys D) held b dirfd v st (body : M (fs D) (res A)) (k : Z) (P : res A -> Prop) :
  invariant (tree s) held -> bounded (tree s) b -> 1 <= b -> 0 <= k -> base s dirfd v -> position (tree s) v st -> b + 1 + k < 2 ^ 32 ->
  (forall t held' b', invariant t held' -> bounded t b' -> b <= b' <= b + 1 -> position t (cwd t) st -> exists r t', body t = Some (r, t') /\ later t t' /\
     bounded t' (b' + k) /\ invariant t' held' /\ P r) ->
  exists r s', at_dir op_dealloc dirfd (on_tree body) s = Some (r, s') /\ cwd (tree s') = cwd (tree s) /\ files s' = files s /\
    bounded (tree s') (b + 1 + k) /\ invariant (tree s') held /\ P r.
Proof.
  intros Hi Hb Hb1 Hk Hbase Hpos Hbb Hbody. unfold at_dir. rewrite gets_run. unfold base in Hbase. destruct (dirfd =? AT_FDCWD).
  - subst v. destruct (Hbody (tree s) held b Hi Hb ltac:(lia) Hpos) as (r & t' & H1 & Hl & Hb' & Hi' & HP).
    rewrite (bind_run _ _ _ _ _ (on_tree_run body s _ _ H1)). exists r. eexists. split; [reflexivity|]. cbn. split_and!; try done; [|by apply inv_cwd].
    intros p n Hp. specialize (Hb' p n Hp). lia.
  - rewrite (bind_run _ _ _ _ _ Hbase). destruct st as [|f up]; [done|]. destruct (position_node (tree s) v f up Hpos) as (n & Hn & _).
    assert (forall q, 0 <= held q) as Hh by apply Hi.
    destruct (ref_ok ops d mounted mroot rt (tree s) held b v n) as (t1 & H1 & Hi1 & Hb1' & Hl1); [done|done|lia|done|].
    assert (on_tree (REF_OBJECT v;; set_cwd v) s = Some (tt, set_tree s (with_cwd t1 v))) as Ha.
    { apply on_tree_run. by rewrite (bind_run _ _ _ _ _ H1). }
    rewrite (bind_run _ _ _ _ _ Ha).
    destruct (Hbody (with_cwd t1 v) (hold v held) (b + 1)) as (r & t2 & H2 & Hl2 & Hb2 & Hi2 & HP); [by apply inv_cwd|done|lia|by apply (position_later (tree s) t1)|].
    rewrite (bind_run _ _ _ _ _ (on_tree_run body (set_tree s (with_cwd t1 v)) _ _ H2)).
    destruct Hl2 as [E1 E2 E3]. cbn in E3. destruct (position_node t2 v f up) as (n2 & Hn2 & _).
    { unfold position. rewrite E2. eapply denotes_extends; [exact E1|]. by apply (position_later (tree s) t1). }
    destruct (unref_ok ops op_dealloc d mounted mroot rt t2 held (b + 1 + k) v n2) as (t3 & H3 & Hi3 & Hb3 & Hl3 & _); [done|done|done|lia|done|].
    assert (on_tree (t ← gets (fun t => t); UNREF op_dealloc (cwd t)) (set_tree (set_tree s (with_cwd t1 v)) t2) = Some (tt, set_tree s t3)) as Hu.
    { unfold on_tree. cbn [tree set_tree]. rewrite gets_run. unfold UNREF. rewrite E3, H3. done. }
    rewrite (bind_run _ _ _ _ _ Hu). exists r. eexists. split; [reflexivity|]. cbn. split_and!; try done. by apply inv_cwd.
Qed.
End correct.

(** C29: [faccessat] judges the file that the path means, relative to the directory
    of the descriptor or to the working directory, by its permissions for the real
    or effective IDs; a path that does not resolve gives its error. It returns,
    leaves the working directory and the descriptors as they were, and takes no
    reference away that somebody holds. *)
Theorem faccessat_correct {D : Type} (ops : option Z -> @vnode_ops D) op_dealloc c d mounted mroot rt (s : sys D) held b dirfd v st path mode flags :
  driver_ok ops d mroot -> inv ops d mounted mroot rt (tree s) held -> bounded (tree s) b -> 1 <= b -> base s dirfd v -> position (tree s) v st ->
  let nofollow := Z.testbit flags 1 in
  let '(o, cost) := resolve ops c d mounted mroot rt (if nofollow then 33 else 32) (negb nofollow) st path in
  o <> Unspecified -> b + 1 + cost < 2 ^ 32 -> (forall f up, o = Found (f :: up) -> v_mount f.2 <> None) ->
  exists r s', sys_faccessat ops op_dealloc c dirfd path mode flags s = Some (r, s') /\
    cwd (tree s') = cwd (tree s) /\ files s' = files s /\ inv ops d mounted mroot rt (tree s') held /\
    match o with
    | Found (f :: _) => xaccess c f.2 mode (negb (Z.testbit flags 2)) = Some r
    | Failed e => r = Err e
    | _ => False
    end.
Proof.
  intros Hdrv Hi Hb Hb1 Hbase Hpos nofollow. unfold sys_faccessat. rewrite (mode_bit flags 2 AT_EACCESS), (mode_bit flags 1 AT_SYMLINK_NOFOLLOW) by (reflexivity || lia). fold nofollow.
  set (lc := if nofollow then -1 else 0).
  assert (resolve ops c d mounted mroot rt (if nofollow then 33 else 32)%nat (negb nofollow) st path =
    resolve ops c d mounted mroot rt (Z.to_nat (SYMLOOP_MAX - lc)) (0 <=? lc) st path) as -> by (unfold lc; by destruct nofollow).
  pose proof (resolve_cost ops c d mounted mroot rt (Z.to_nat (SYMLOOP_MAX - lc)) (0 <=? lc) st path) as Hk.
  pose proof (fun t held' b' H1 H2 H3 H4 => with_path_ok ops op_dealloc c d mounted mroot rt t held' b' st path lc (fun p => access c p mode (negb (Z.testbit flags 2)))
    (fun f r => xaccess c f.2 mode (negb (Z.testbit flags 2)) = Some r) H1 H2 H3 H4 ltac:(unfold lc; destruct nofollow; lia)) as Hwp.
  destruct (resolve ops c d mounted mroot rt _ _ st path) as [o k]. cbn [fst snd] in *. intros Hun Hbb Hmt.
  destruct (at_dir_ok ops op_dealloc d mounted mroot rt s held b dirfd v st (with_path ops op_dealloc c path lc (fun p => access c p mode (negb (Z.testbit flags 2)))) k
    (fun r => match o with Found (f :: _) => xaccess c f.2 mode (negb (Z.testbit flags 2)) = Some r | Failed e => r = Err e | _ => False end))
    as (r & s' & H1 & H2 & H3 & _ & H5 & H6); try done.
  - intros t held' b' Hi' Hb' Hbb' Hp'. destruct (Hwp t held' b' Hi' Hb' ltac:(lia) Hp' Hun ltac:(lia)) as (r & t' & A1 & A2 & A3 & A4 & A5).
    + intros s1 q f up Hq Ho. apply (access_run c s1 q mode _ f up Hq). by apply (Hmt f up).
    + exists r, t'. done.
  - exists r, s'. done.
Qed.

(** [chdir] goes where the path leads. On success the working directory is
    the file that the path means, with a reference of its own, and the reference
    to the old one is given back; on failure nothing changes and the error is
    that of the path. *)
Theorem chdir_correct {D : Type} (ops : option Z -> @vnode_ops D) op_dealloc c d mounted mroot rt (s : fs D) held b st path :
  driver_ok ops d mroot -> inv ops d mounted mroot rt s (hold (cwd s) held) -> (forall q, 0 <= held q) -> bounded s b -> 1 <= b -> position s (cwd s) st ->
  let '(o, cost) := resolve ops c d mounted mroot rt 32 true st path in
  o <> Unspecified -> b + cost < 2 ^ 32 ->
  exists r s', sys_chdir ops op_dealloc c path s = Some (r, s') /\ inv ops d mounted mroot rt s' (hold (cwd s') held) /\
    match o with
    | Found st' => r = Ok 0 /\ position s' (cwd s') st'
    | Failed e => r = Err e /\ cwd s' = cwd s /\ position s' (cwd s') st
    | Unspecified => False
    end.
Proof.
  intros Hdrv Hi Hh Hb Hb1 Hpos. pose proof (namei_run ops op_dealloc c d mounted mroot rt s (hold (cwd s) held) b st path 0 Hi Hb Hb1 Hpos ltac:(lia)) as Hn.
  change (Z.to_nat (SYMLOOP_MAX - 0)) with 32%nat in Hn. change (0 <=? 0) with true in Hn.
  destruct (resolve ops c d mounted mroot rt 32 true st path) as [o k]. cbn [fst snd] in Hn. intros Hun Hbb.
  destruct (Hn Hun Hbb) as (r & s1 & H1 & Hl & Hb' & Hf). unfold sys_chdir. rewrite (bind_run _ _ _ _ _ H1). destruct o as [st'|e|]; [| |done].
  - destruct Hf as (q & -> & Hi1 & Hq). rewrite gets_run. pose proof Hl as [_ _ Ec]. rewrite Ec. destruct st as [|f up]; [done|].
    destruct (position_node s1 (cwd s) f up) as (n & Hn1 & _); [by apply (position_later s s1)|]. assert (forall x, 0 <= hold q held x) as Hhq.
    { intros x. pose proof (hold_nonneg q held x (Hh x)). lia. }
    destruct (unref_ok ops op_dealloc d mounted mroot rt s1 (hold q held) (b + k) (cwd s) n) as (s2 & H2 & Hi2 & Hb2 & Hl2 & _); [|done|done|lia|done|].
    { apply (inv_weaken _ _ _ _ _ s1 (hold q (hold (cwd s) held))); [done|]. intros x. pose proof (Hh x). unfold hold. destruct (x =? cwd s), (x =? q); lia. }
    unfold UNREF. rewrite (bind_run _ _ _ _ _ H2). exists (Ok 0), (with_cwd s2 q). split_and!; [done|by apply inv_cwd|done|].
    by apply (position_later s1 s2).
  - destruct Hf as (-> & He & Hi1). exists (Err e), s1. pose proof Hl as [_ _ Ec]. rewrite Ec. split_and!; [|done|done|done|by apply (position_later s s1)].
    unfold failed. rewrite gets_run, He. done.
Qed.

(** ** Opening *)

(** Entries of the system table that are not used have no vnode. *)
Definition clear (s : FdTable.fd_state) : Prop :=
  forall k f, (FdTable.system_fd_table s).[k] = Some f -> FdTable.count f = 0 -> FdTable.vnode f = 0.

Section files.
Import FdTable.
Implicit Types s : fd_state.

Lemma alloc_procfd_mem s p r s' o : FdTable.alloc_procfd s p [] = Some (r, s', o) -> o = [].
Proof.
  unfold FdTable.alloc_procfd. destruct (FdTable.spinlock_acquire s) as [s0|]; [|done]. orun. destruct (FdTable.fds s0 !! p) as [t|]; [|done]. orun.
  destruct (FdTable.scan_slots _ _ _ _) as [[[] i]|]; [| |done]; orun; [by intros [= _ _ <-]|]. destruct (_ <? _); [|by intros [= _ _ <-]].
  cbn [HashMap.malloc]. orun. cbn [negb]. destruct (FdTable.resize_table _ _ _) as [l|]; [|done]. orun. destruct (_ <=? _); by intros [= _ _ <-].
Qed.

Lemma alloc_fd_entry pend s k s' : fd_ok pend s -> alloc_fd s = Some (k, s') ->
  if k =? -1 then system_fd_table s' = system_fd_table s else
  exists f, (system_fd_table s).[k] = Some f /\ count f = 0 /\
    forall j, (system_fd_table s').[j] = if j =? k then Some (FdTable.set_count f 1) else (system_fd_table s).[j].
Proof.
  intros Hok. pose proof Hok as (Hl & Hlk & Hst & Hf & Hr). unfold alloc_fd, spinlock_acquire. rewrite Hlk. orun. simpl fd_table_start. simpl system_fd_table.
  destruct (scan_fd_spec (Z.to_nat (SYSTEM_FD_TABLE_SIZE - fd_table_start s)) (system_fd_table s)
    (fd_table_start s)) as (found & j & -> & Hj & _ & Hfin); [lia..|]. orun. destruct found.
  - destruct Hfin as [Hjl Hc]. destruct (zlookup_lt_Some (system_fd_table s) j) as [f Hfj]; [lia|].
    rewrite Hfj. orun. assert (count f = 0) as Hcf by (unfold cnt_in in Hc; by rewrite Hfj in Hc).
    rewrite Hcf, (wrap_small 64 (0 + 1)) by lia.
    destruct (zstore _ j _) as [sys|] eqn:Hs; [|rewrite zstore_lt in Hs; [done|lia]]. orun.
    assert (s32 j = j) as ->.
    { unfold swrap. rewrite Z.mod_small by lia. destruct (Z.ltb_spec j (2 ^ (32 - 1))); lia. }
    intros [= <- <-]. destruct (Z.eqb_spec j (-1)); [lia|]. exists f. split_and!; try done. intros i. simpl. by rewrite (zlookup_zstore _ _ _ _ i Hs).
  - intros [= <- <-]. done.
Qed.

(** A free entry or slot is looked for from the start of the search on; memory
    for a longer descriptor table can be had. *)
Definition entries_full s : Prop :=
  forall x, fd_table_start s <= x < SYSTEM_FD_TABLE_SIZE -> cnt s x <> 0.
Definition fds_full (t : fd_table) : Prop :=
  (forall x, curr t <= x < size t -> (table t).[x] <> Some None) /\ (size t = max_size t \/ size t = 0).

Lemma alloc_fd_full pend s k s' : fd_ok pend s -> alloc_fd s = Some (k, s') -> if k =? -1 then entries_full s else ~ entries_full s.
Proof.
  intros Hok. pose proof Hok as (Hl & Hlk & Hst & Hf & Hr). unfold alloc_fd, spinlock_acquire. rewrite Hlk. orun. simpl fd_table_start. simpl system_fd_table.
  destruct (scan_fd_spec (Z.to_nat (SYSTEM_FD_TABLE_SIZE - fd_table_start s)) (system_fd_table s)
    (fd_table_start s)) as (found & j & -> & Hj & Hset & Hfin); [lia..|]. orun. destruct found.
  - destruct Hfin as [Hjl Hc]. destruct (zlookup_lt_Some (system_fd_table s) j) as [f Hfj]; [lia|]. rewrite Hfj. orun.
    destruct (zstore _ j _) as [sys|] eqn:Hs; [|done]. orun. assert (s32 j = j) as ->.
    { unfold swrap. rewrite Z.mod_small by lia. destruct (Z.ltb_spec j (2 ^ (32 - 1))); lia. }
    intros [= <- _]. destruct (Z.eqb_spec j (-1)); [lia|]. intros Hfull. apply (Hfull j); [lia|exact Hc].
  - intros [= <- _]. subst j. exact Hset.
Qed.

Lemma alloc_procfd_full pend s p t r s' o : fd_ok pend s -> fds s !! p = Some t -> FdTable.alloc_procfd s p [] = Some (r, s', o) ->
  match r with Ok _ => ~ fds_full t | Err e => e = EMFILE /\ fds_full t end.
Proof.
  intros Hok Hp. pose proof Hok as (_ & Hlk & _). pose proof (fd_ok_table _ _ _ _ Hok Hp) as (Hl & Hc & Hm & _).
  unfold FdTable.alloc_procfd, spinlock_acquire. rewrite Hlk. orun. simpl fds. rewrite Hp. orun.
  destruct (scan_slots_spec (Z.to_nat (size t - curr t)) (table t) (curr t) (size t))
    as (found & j & -> & Hj & Hjn & Hset & Hfin); [lia..|]. orun. destruct found.
  - intros [= <- _ _]. intros [Hfull _]. destruct Hfin as [H1 H2]. apply (Hfull j); [lia|exact H2].
  - assert (forall x, curr t <= x < size t -> (table t).[x] <> Some None) as Hnone.
    { intros x Hx. destruct (Hset x ltac:(lia)) as [k Hk]. congruence. }
    assert (j = size t) as -> by lia. simpl. destruct (Z.ltb_spec (size t) (max_size t)).
    2: { intros [= <- _ _]. split; [done|]. split; [done|]. lia. }
    rewrite (wrap_small 64 (size t * 2)) by lia. destruct (FdTable.resize_table _ _ _) as [l|]; [|done]. orun. simpl.
    destruct (Z.ltb_spec (size t * 2) (max_size t)), (Z.leb_spec (size t * 2) (size t)), (Z.leb_spec (max_size t) (size t)); try lia;
      intros [= <- _ _]; try (intros [_ Hz]; lia); (split; [done|split; [done|lia]]).
Qed.

Lemma free_fd_entry s k f : fd_ok (bump none_pending k) s -> (system_fd_table s).[k] = Some f -> count f = 1 ->
  exists s', FdTable.free_fd s k = Some s' /\ fd_ok none_pending s' /\ unrefs s' = unrefs s ++ [vnode f] /\ fds s' = fds s /\
    forall j, (system_fd_table s').[j] = if j =? k then Some zero_fd else (system_fd_table s).[j].
Proof.
  intros Hok Hf Hc. destruct (free_fd_ok none_pending s k Hok ltac:(done)) as (s' & Hfree & Hok'). exists s'. split_and!; try done;
    unfold FdTable.free_fd, spinlock_acquire in Hfree; pose proof Hok as (_ & Hlk & _); rewrite Hlk in Hfree; orunin Hfree;
    unfold release_entry in Hfree; simpl system_fd_table in Hfree; rewrite Hf in Hfree; orunin Hfree; rewrite Hc in Hfree; simpl in Hfree;
    destruct (zstore (system_fd_table s) k zero_fd) as [x|] eqn:Es; orunin Hfree; try done; injection Hfree as <-;
    (destruct (u64 k <? fd_table_start s); simpl; [|]); try done; intros j; by rewrite (zlookup_zstore _ _ _ _ j Es).
Qed.

Lemma freed_count s s' k f : (system_fd_table s).[k] = Some f -> count f = 1 ->
  (forall j, (system_fd_table s').[j] = if j =? k then Some zero_fd else (system_fd_table s).[j]) ->
  forall j, cnt s' j = cnt s j - if j =? k then 1 else 0.
Proof. intros Hf Hc Hj j. unfold cnt, cnt_in. rewrite Hj. destruct (Z.eqb_spec j k) as [->|]; [rewrite Hf; cbn; lia|lia]. Qed.

Lemma free_procfd_none s p t fd : fds s !! p = Some t -> (table t).[fd] = Some None -> FdTable.free_procfd s p fd = Some s.
Proof. intros Hp Hs. unfold FdTable.free_procfd, free_altprocfd. rewrite Hp. orun. by rewrite Hs. Qed.

Lemma fill_fd_clear s p fd k vp fl s' e : FdTable.fill_fd s p fd k vp fl = Some s' -> clear s -> (system_fd_table s).[k] = Some e -> count e <> 0 ->
  clear s' /\ unrefs s' = unrefs s.
Proof.
  unfold FdTable.fill_fd. intros H Hc He Hn. rewrite He in H. orunin H. destruct (zstore _ k _) as [x|] eqn:Es; [|done]. orunin H.
  destruct (fds s !! p) as [t|]; [|done]. orunin H. destruct (zstore _ fd _) as [l|]; [|done]. injection H as <-. split; [|done].
  intros j f. simpl. rewrite (zlookup_zstore _ _ _ _ j Es). destruct (j =? k); [intros [= <-]; done|apply Hc].
Qed.

Lemma clear_store s s' k f : clear s -> FdTable.count f <> 0 \/ FdTable.vnode f = 0 ->
  (forall j, (system_fd_table s').[j] = if j =? k then Some f else (system_fd_table s).[j]) -> clear s'.
Proof.
  intros Hc Hf Hj j g. rewrite Hj. destruct (j =? k); [intros [= <-]; by destruct Hf|apply Hc].
Qed.
End files.

Section open.
Context {D : Type} (ops : option Z -> @vnode_ops D) (op_dealloc : option Z -> vnode -> D -> D) (c : cred).
Context (d : D) (mounted : option Z -> Z -> name -> option Z) (mroot : Z -> vnode) (rt : file).

Lemma on_files_run {A} m (s : sys D) (a : A) f : m (files s) = Some (a, f) -> FdTable.unrefs f = FdTable.unrefs (files s) ->
  on_files op_dealloc m s = Some (a, set_files s f).
Proof. intros Hm Hu. unfold on_files. rewrite Hm, Hu, drop_all. by destruct s. Qed.

Lemma on_files_null {A} m (s : sys D) (a : A) f : m (files s) = Some (a, f) -> FdTable.unrefs f = FdTable.unrefs (files s) ++ [0] ->
  on_files op_dealloc m s = Some (a, set_files s f).
Proof. intros Hm Hu. unfold on_files. rewrite Hm, Hu, drop_app_length. by destruct s. Qed.

(** What [open] makes of the file that a path means. *)
Definition writes (flags : Z) : bool := (Z.land flags O_ACCMODE =? O_WRONLY) || (Z.land flags O_ACCMODE =? O_RDWR).
Definition open_file (o : outcome) (flags : Z) : res (list file) :=
  match o with
  | Found st =>
      if Z.testbit flags 3 && Z.testbit flags 5 then Err EEXIST else
      match st with
      | f :: _ => match v_mount f.2 with
                  | Some m => if Z.testbit (m_flags m) 0 && writes flags then Err EROFS else Ok st
                  | None => Ok st
                  end
      | [] => Ok st
      end
  | Failed e => Err e
  | Unspecified => Err ENOENT
  end.

(** The end of a failed open: the reserved entry is given back. *)
Lemma open_error_ok (s : sys D) held k f t fd : inv ops d mounted mroot rt (tree s) held ->
  FdTable.fd_ok (FdTable.bump FdTable.none_pending k) (files s) -> clear (files s) -> (FdTable.system_fd_table (files s)).[k] = Some f -> FdTable.count f = 1 ->
  FdTable.vnode f = 0 -> FdTable.fds (files s) !! this s = Some t -> (FdTable.table t).[fd] = Some None ->
  exists s', (free_procfd op_dealloc fd;; free_fd op_dealloc k;; s ← gets (fun s => s); mret (Err (err (tree s)))) s = Some (Err (A := Z) (err (tree s)), s') /\
    FdTable.fd_ok FdTable.none_pending (files s') /\ clear (files s') /\ tree s' = tree s /\
    forall j, FdTable.cnt (files s') j = FdTable.cnt (files s) j - if j =? k then 1 else 0.
Proof.
  intros Hi Hok Hcl Hk Hc Hv Ht Hs. assert (free_procfd op_dealloc fd s = Some (tt, s)) as H1.
  { unfold free_procfd. rewrite gets_run. rewrite (on_files_run _ s tt (files s)); [by destruct s| |done].
    by rewrite (free_procfd_none _ _ _ _ Ht Hs). }
  destruct (free_fd_entry (files s) k f Hok Hk Hc) as (f' & Hf & Hok' & Hu & _ & Hj). rewrite Hv in Hu.
  assert (free_fd op_dealloc k s = Some (tt, set_files s f')) as H2 by (unfold free_fd; apply on_files_null; [by rewrite Hf|done]).
  rewrite (bind_run _ _ _ _ _ H1), (bind_run _ _ _ _ _ H2). eexists. split; [reflexivity|]. split_and!; [done| |done|].
  - apply (clear_store (files s) f' k FdTable.zero_fd); [done|by right|done].
  - by apply (freed_count (files s) f' k f).
Qed.
End open.

(** The beginning of an open: a system entry and a descriptor are reserved. *)
Lemma reserve_ok {D} op_dealloc (s : sys D) t : oom (tree s) = [] -> FdTable.fd_ok FdTable.none_pending (files s) -> clear (files s) ->
  FdTable.fds (files s) !! this s = Some t ->
  (exists f, on_files op_dealloc FdTable.alloc_fd s = Some (-1, set_files s f) /\ FdTable.fd_ok FdTable.none_pending f /\ clear f /\
     (forall j, FdTable.cnt f j = FdTable.cnt (files s) j) /\ entries_full (files s)) \/
  ~ entries_full (files s) /\ exists k f1 f2 r e, k <> -1 /\ on_files op_dealloc FdTable.alloc_fd s = Some (k, set_files s f1) /\
    alloc_procfd (set_files s f1) = Some (r, set_files s f2) /\
    0 <= k < FdTable.SYSTEM_FD_TABLE_SIZE /\ FdTable.fd_ok (FdTable.bump FdTable.none_pending k) f2 /\ clear f2 /\
    (FdTable.system_fd_table f2).[k] = Some e /\ FdTable.count e = 1 /\ FdTable.vnode e = 0 /\
    (forall j, FdTable.cnt f2 j = FdTable.cnt (files s) j + if j =? k then 1 else 0) /\
    exists t', FdTable.fds f2 !! this s = Some t' /\
    match r with
    | Ok fd => (FdTable.table t').[fd] = Some None /\ FdTable.file_fd (files s) (this s) fd = Some (Err EBADF) /\ ~ fds_full t
    | Err e => e = EMFILE /\ fds_full t
    end.
Proof.
  intros Ho Hok Hcl Ht. destruct (FdTable.alloc_fd_ok FdTable.none_pending (files s) Hok) as (k & f1 & Ha & Hfds & Hu & Hk).
  pose proof (alloc_fd_entry _ _ _ _ Hok Ha) as He. pose proof (alloc_fd_full _ _ _ _ Hok Ha) as Hfull. destruct Hk as [[-> Hok1]|(Hk & _ & _ & _ & Hok1)].
  - left. exists f1. change (-1 =? -1) with true in He. unfold clear, FdTable.cnt. rewrite He. split_and!; [by apply on_files_run|done|done|done|done].
  - right. destruct (Z.eqb_spec k (-1)); [lia|]. split; [done|]. destruct He as (e0 & He0 & Hc0 & Hj). pose proof (Hcl k e0 He0 Hc0) as Hv0. rewrite <- Hfds in Ht.
    destruct (FdTable.alloc_procfd_ok _ f1 (this s) t [] Hok1 Ht) as (r & f2 & o' & t' & Hp & Hok2 & Hsys & _ & Hu2 & Hfds2 & [nn Ht'] & Hr).
    pose proof (alloc_procfd_mem _ _ _ _ _ Hp) as ->. exists k, f1, f2, r, (FdTable.set_count e0 1). split_and!; try done; try lia.
    + by apply on_files_run.
    + unfold alloc_procfd. cbn [files this set_files tree]. rewrite Ho, Hp. f_equal. f_equal. destruct s as [[] ? ? ?]. cbn in *. by subst.
    + apply (clear_store (files s) f2 k (FdTable.set_count e0 1)); [done|by left|]. intros j. by rewrite Hsys, Hj.
    + rewrite Hsys, Hj, Z.eqb_refl. done.
    + intros j. unfold FdTable.cnt, FdTable.cnt_in. rewrite Hsys, Hj. destruct (Z.eqb_spec j k) as [->|]; [rewrite He0; cbn; lia|lia].
    + exists t'. rewrite Hfds2, list_lookup_insert_eq by (by eapply lookup_lt_Some). split; [done|]. pose proof (alloc_procfd_full _ _ _ _ _ _ _ Hok1 Ht Hp) as Hpf. destruct r as [fd|e]; [|done].
      destruct Hr as [Hr1 Hr2]. split; [done|]. split; [|done]. unfold FdTable.file_fd. rewrite <- Hfds, Ht. orun. pose proof (FdTable.fd_ok_table _ _ _ _ Hok1 Ht) as (Hl & Hcu & _).
      destruct (Z.ltb_spec fd 0); [done|]. destruct (Z.leb_spec (FdTable.size t) fd); [done|]. cbn [orb].
      destruct (zlookup_lt_Some (FdTable.table t) fd) as [slot Hslot]; [lia|]. rewrite Hslot. orun.
      apply (zlookup_app_old _ (replicate nn None)) in Hslot. rewrite <- Ht', Hr2 in Hslot. by injection Hslot as <-.
Qed.

(** What [open] answers, given what it makes of the file: a full system table and
    a full descriptor table come first. *)
Inductive open_result (f : FdTable.fd_state) (t : FdTable.fd_table) (r : res (list file)) : res (list file) -> Prop :=
| or_enfile : entries_full f -> open_result f t r (Err ENFILE)
| or_emfile : ~ entries_full f -> fds_full t -> open_result f t r (Err EMFILE)
| or_file : ~ entries_full f -> ~ fds_full t -> open_result f t r r.

(** C28: [open] of a file that exists, or without O_CREAT (creating a missing file
    is not covered), while memory can be had. The call returns ENFILE when no
    system entry is free from the start of the search on, else EMFILE when no
    descriptor is and the table has its largest size, else the error of the path,
    EEXIST for O_CREAT with O_EXCL and EROFS for writing on a read-only file system;
    with an error the system entry is given back. In all other cases it succeeds: the new
    descriptor, which was not open before, refers to a vnode of the file that
    the path means, and holds the reference to it. The descriptor tables stay consistent
    and the working directory is the same. *)
Theorem open_correct {D : Type} (ops : option Z -> @vnode_ops D) op_dealloc c d mounted mroot rt (s : sys D) held b t st path flags mode :
  driver_ok ops d mroot -> inv ops d mounted mroot rt (tree s) held -> bounded (tree s) b -> 1 <= b -> position (tree s) (cwd (tree s)) st ->
  FdTable.fd_ok FdTable.none_pending (files s) -> clear (files s) -> FdTable.fds (files s) !! this s = Some t ->
  let nofollow := Z.testbit flags 10 in
  let '(o, cost) := resolve ops c d mounted mroot rt (if nofollow then 33 else 32) (negb nofollow) st path in
  o <> Unspecified -> b + cost < 2 ^ 32 -> (o = Failed ENOENT -> Z.testbit flags 3 = false) -> (forall f up, o = Found (f :: up) -> v_mount f.2 <> None) ->
  exists r s', sys_open ops op_dealloc c path flags mode s = Some (r, s') /\
    FdTable.fd_ok FdTable.none_pending (files s') /\ clear (files s') /\ cwd (tree s') = cwd (tree s) /\
    match r with
    | Ok fd => exists k e st', open_result (files s) t (open_file o flags) (Ok st') /\ FdTable.file_fd (files s) (this s) fd = Some (Err EBADF) /\
        FdTable.file_fd (files s') (this s) fd = Some (Ok k) /\ (FdTable.system_fd_table (files s')).[k] = Some e /\
        position (tree s') (FdTable.vnode e) st' /\ inv ops d mounted mroot rt (tree s') (hold (FdTable.vnode e) held)
    | Err e => inv ops d mounted mroot rt (tree s') held /\ (forall j, FdTable.cnt (files s') j = FdTable.cnt (files s) j) /\
        open_result (files s) t (open_file o flags) (Err e)
    end.
Proof.
  intros Hdrv Hi Hb Hb1 Hpos Hfd Hcl Ht nofollow. set (lc := if nofollow then -1 else 0).
  assert (resolve ops c d mounted mroot rt (if nofollow then 33 else 32)%nat (negb nofollow) st path =
    resolve ops c d mounted mroot rt (Z.to_nat (SYMLOOP_MAX - lc)) (0 <=? lc) st path) as -> by (unfold lc; by destruct nofollow).
  pose proof (namei_run ops op_dealloc c d mounted mroot rt (tree s) held b st path lc Hi Hb Hb1 Hpos ltac:(unfold lc; destruct nofollow; lia)) as Hn.
  destruct (resolve ops c d mounted mroot rt _ _ st path) as [o k]. cbn [fst snd] in Hn. intros Hun Hbb Hcr Hmt.
  destruct (Hn Hun Hbb) as (r & t1 & H1 & Hl1 & Hb' & Hf). clear Hn.
  unfold sys_open. destruct (reserve_ok op_dealloc s t (v_oom _ _ _ _ _ _ _ Hi) Hfd Hcl Ht) as [(f & Ha & Hok1 & Hcl1 & Hcnt & Hfull)|(Hnf & j & f1 & f2 & rp & e & Hj & Ha & Hp & Hjr & Hok2 & Hcl2 & He & Hec & Hev & Hcnt & t' & Ht' & Hr)].
  { rewrite (bind_run _ _ _ _ _ Ha). exists (Err ENFILE). eexists. split; [reflexivity|]. cbn. split_and!; try done; [by apply inv_err|by apply or_enfile]. }
  rewrite (bind_run _ _ _ _ _ Ha). destruct (Z.eqb_spec j (-1)); [done|]. rewrite (bind_run _ _ _ _ _ Hp). destruct rp as [fd|ep].
  2:{ destruct (free_fd_entry f2 j e Hok2 He Hec) as (f3 & Hf3 & Hok3 & Hu3 & _ & Hj3). rewrite Hev in Hu3.
      exists (Err ep), (mk_sys (with_err (tree s) ep) f3 (this s) (umask s)). split_and!; try done.
      - rewrite (bind_run _ _ _ _ _ (on_tree_run (set_errno ep) (set_files s f2) _ _ eq_refl)).
        assert (free_fd op_dealloc j (set_tree (set_files s f2) (with_err (tree s) ep)) = Some (tt, mk_sys (with_err (tree s) ep) f3 (this s) (umask s))) as H3.
        { unfold free_fd. apply (on_files_null op_dealloc _ (set_tree (set_files s f2) (with_err (tree s) ep))); [cbn; by rewrite Hf3|done]. }
        by rewrite (bind_run _ _ _ _ _ H3).
      - apply (clear_store f2 f3 j FdTable.zero_fd); [done|by right|done].
      - by apply inv_err.
      - intros i. cbn [files]. rewrite (freed_count f2 f3 j e) by done. rewrite Hcnt. destruct (i =? j); lia.
      - destruct Hr as [-> Hr]. by apply or_emfile. }
  destruct Hr as (Hslot & Hwas & Hnp).
  assert (forall x, open_file o flags = x -> open_result (files s) t (open_file o flags) x) as Hres by (intros x <-; by apply or_file). rewrite (mode_bit flags 10 O_NOFOLLOW) by (reflexivity || lia). fold nofollow. fold lc. cbv zeta.
  rewrite (bind_run _ _ _ _ _ (on_tree_run (namei ops op_dealloc c path lc) (set_files s f2) _ _ H1)). rewrite gets_run. cbn [tree set_tree set_files].
  rewrite (mode_bit flags 3 O_CREAT), (mode_bit flags 5 O_EXCL) by (reflexivity || lia).
  set (err1 := (free_procfd op_dealloc fd;; free_fd op_dealloc j;; s ← gets (fun s => s); mret (Err (err (tree s))))).
  assert (forall tx ex, inv ops d mounted mroot rt tx held -> cwd tx = cwd (tree s) -> err tx = ex -> open_file o flags = Err ex -> exists r s',
    err1 (mk_sys tx f2 (this s) (umask s)) = Some (r, s') /\
    FdTable.fd_ok FdTable.none_pending (files s') /\ clear (files s') /\ cwd (tree s') = cwd (tree s) /\
    match r with
    | Ok fd => exists k e st', open_result (files s) t (open_file o flags) (Ok st') /\ FdTable.file_fd (files s) (this s) fd = Some (Err EBADF) /\
        FdTable.file_fd (files s') (this s) fd = Some (Ok k) /\ (FdTable.system_fd_table (files s')).[k] = Some e /\
        position (tree s') (FdTable.vnode e) st' /\ inv ops d mounted mroot rt (tree s') (hold (FdTable.vnode e) held)
    | Err e => inv ops d mounted mroot rt (tree s') held /\ (forall j, FdTable.cnt (files s') j = FdTable.cnt (files s) j) /\
        open_result (files s) t (open_file o flags) (Err e)
    end) as Herr1.
  { intros tx ex Hix Hcx Hex Hof. destruct (open_error_ok ops op_dealloc d mounted mroot rt (mk_sys tx f2 (this s) (umask s)) held j e t' fd)
      as (s' & Hs' & Hok' & Hcl' & Htr & Hcn); try done. exists (Err ex), s'. cbn [tree] in *. rewrite Hex in Hs'. rewrite Htr. split_and!; try done; [|by apply Hres]. intros i. rewrite Hcn. cbn [files]. rewrite Hcnt. destruct (i =? j); lia. }
  destruct Hl1 as [L1 L2 L3]. assert (forall q, 0 <= held q) as Hh by apply Hi. destruct o as [st'|ex|]; [| |done].
  2:{ destruct Hf as (-> & Hex & Hi1). destruct (bool_decide (err t1 = ENOENT) && Z.testbit flags 3) eqn:Eb.
      { apply andb_prop in Eb as [Eb1 Eb2]. apply bool_decide_eq_true in Eb1. rewrite Hcr in Eb2; [done|]. congruence. }
      rewrite ret_run. by apply (Herr1 t1 ex). }
  destruct Hf as (q & -> & Hi1 & Hq). destruct st' as [|f up]; [done|]. destruct (position_node t1 q f up Hq) as (nq & Hnq & _ & Evq).
  destruct (unref_ok ops op_dealloc d mounted mroot rt t1 held (b + k) q nq) as (t2 & H2 & Hi2 & _ & [M1 M2 M3] & _); [done|done|done|lia|done|].
  assert (forall ex, on_tree (UNREF op_dealloc q;; set_errno ex) (mk_sys t1 f2 (this s) (umask s)) = Some (tt, mk_sys (with_err t2 ex) f2 (this s) (umask s))) as Hun2.
  { intros ex. apply (on_tree_run _ (mk_sys t1 f2 (this s) (umask s))). unfold UNREF. cbn [tree]. by rewrite (bind_run _ _ _ _ _ H2). }
  change (set_tree (set_files s f2) t1) with (mk_sys t1 f2 (this s) (umask s)).
  cbn [open_file] in *. destruct (Z.testbit flags 3 && Z.testbit flags 5) eqn:Ece.
  { rewrite bind_assoc, (bind_run _ _ _ _ _ (Hun2 EEXIST)), ret_run. apply (Herr1 (with_err t2 EEXIST) EEXIST); [by apply inv_err|cbn; congruence|done|done]. }
  rewrite ret_run. assert (on_tree (attributes q) (mk_sys t1 f2 (this s) (umask s)) = Some (f.2, mk_sys t1 f2 (this s) (umask s))) as Hat.
  { apply (on_tree_run _ (mk_sys t1 f2 (this s) (umask s))). unfold attributes. cbn [tree]. rewrite (bind_run _ _ _ _ _ (get_run t1 q nq Hnq)). by rewrite Evq. }
  rewrite (bind_run _ _ _ _ _ Hat). destruct (v_mount f.2) as [m|] eqn:Em; [|by destruct (Hmt f up)].
  rewrite (bind_run (lift (Some m)) _ _ m _ eq_refl). rewrite (mode_bit (m_flags m) 0 MS_RDONLY) by (reflexivity || lia). fold (writes flags).
  destruct (Z.testbit (m_flags m) 0 && writes flags) eqn:Ero.
  { rewrite (bind_run _ _ _ _ _ (Hun2 EROFS)). apply (Herr1 (with_err t2 EROFS) EROFS); [by apply inv_err|cbn; congruence|done|done]. }
  destruct (FdTable.fill_fd_ok FdTable.none_pending f2 (this s) t' fd j q flags Hok2 ltac:(done) Hjr Ht' Hslot) as (f3 & e3 & l & Hf3 & Hok3 & Hfds3 & Hl3 & He3 & Hv3).
  destruct (fill_fd_clear f2 (this s) fd j q flags f3 e Hf3 Hcl2 He ltac:(lia)) as [Hcl3 Hu3].
  assert (on_files op_dealloc (fun f => f' ← FdTable.fill_fd f (this s) fd j q flags; Some (tt, f')) (mk_sys t1 f2 (this s) (umask s)) =
    Some (tt, mk_sys t1 f3 (this s) (umask s))) as Hfin.
  { apply (on_files_run op_dealloc _ (mk_sys t1 f2 (this s) (umask s))); [cbn; by rewrite Hf3|done]. }
  rewrite (bind_run _ _ _ _ _ Hfin). exists (Ok fd). eexists. split; [reflexivity|]. cbn [files tree]. split_and!; try done.
  exists j, e3, (f :: up). subst q. split_and!; try done; [by apply or_file|]. unfold FdTable.file_fd. rewrite Hfds3, list_lookup_insert_eq by (by eapply lookup_lt_Some). orun.
  pose proof (FdTable.fd_ok_table _ _ _ _ Hok2 Ht') as (Htl & _). pose proof (zlookup_Some_lt _ _ _ Hslot). cbn [FdTable.size FdTable.table FdTable.set_table].
  destruct (Z.ltb_spec fd 0); [lia|]. destruct (Z.leb_spec (FdTable.size t') fd); [lia|]. cbn [orb]. by rewrite Hl3.
Qed.

(** ** A process in the small tree

    Its descriptor 0 is the root directory, its working directory too. *)

Definition demo_files : FdTable.fd_state :=
  FdTable.set_sys (FdTable.demo_fds [Some 0; None] 1) (FdTable.mk_fd 1 0 0 0 1 :: replicate (Z.to_nat 65535) FdTable.zero_fd).
Definition demo_tree : fs unit := set_nodes demo_fs
  {[1 := mk_node (demo_mroot 0) (Some 0) (Some 1) ∅ 3; 2 := mk_node (demo_mroot 1) (Some 1) (Some 1) ∅ 1]}.
Definition demo_sys : sys unit := mk_sys demo_tree demo_files 0 0.
Abbreviation demo_held := (hold 1 (fun _ => 0)).

Lemma demo_entries k : (FdTable.system_fd_table demo_files).[k] =
  if k =? 0 then Some (FdTable.mk_fd 1 0 0 0 1) else (FdTable.system_fd_table (FdTable.demo_fds [Some 0; None] 1)).[k].
Proof.
  unfold demo_files, FdTable.set_sys, FdTable.demo_fds. cbn [FdTable.system_fd_table]. generalize (Z.to_nat 65535). intros n. unfold zlookup.
  destruct (Z.eqb_spec k 0) as [->|Hk]; [done|]. destruct (Z.ltb_spec k 0); [done|]. replace (Z.to_nat k) with (S (Z.to_nat (k - 1))) by lia. done.
Qed.

Lemma demo_files_ok : FdTable.fd_ok FdTable.none_pending demo_files.
Proof.
  apply (FdTable.fd_ok_sys _ _ _ demo_files FdTable.demo_one_ok); [reflexivity|reflexivity| |cbn; lia|].
  - unfold demo_files. cbn [FdTable.set_sys FdTable.system_fd_table]. rewrite zlen_cons, zlen_replicate. lia.
  - intros k. assert (FdTable.cnt demo_files k = FdTable.cnt (FdTable.demo_fds [Some 0; None] 1) k) as ->; rewrite FdTable.demo_cnt; [|destruct (k =? 0); lia].
    unfold FdTable.cnt, FdTable.cnt_in. rewrite demo_entries. destruct (Z.eqb_spec k 0) as [->|Hk]; [reflexivity|].
    pose proof (FdTable.demo_cnt [Some 0; None] 1 k) as H. unfold FdTable.cnt, FdTable.cnt_in in H. destruct (Z.eqb_spec k 0); [lia|exact H].
Qed.

Lemma demo_clear : clear demo_files.
Proof.
  intros k f. rewrite demo_entries. destruct (Z.eqb_spec k 0) as [->|Hk]; [by intros [= <-]|]. unfold FdTable.demo_fds. cbn [FdTable.system_fd_table].
  generalize (Z.to_nat 65535). intros n. unfold zlookup. destruct (Z.ltb_spec k 0); [done|]. replace (Z.to_nat k) with (S (Z.to_nat (k - 1))) by lia.
  simpl. intros Hr. by apply lookup_replicate in Hr as [-> _].
Qed.

Lemma demo_tree_nodes p n : nodes demo_tree !! p = Some n ->
  p = 1 /\ n = mk_node (demo_mroot 0) (Some 0) (Some 1) ∅ 3 \/ p = 2 /\ n = mk_node (demo_mroot 1) (Some 1) (Some 1) ∅ 1.
Proof.
  cbn [nodes demo_tree set_nodes]. destruct (decide (p = 1)) as [->|H1]; [rewrite lookup_insert_eq; intros [= <-]; by left|].
  rewrite lookup_insert_ne by done. destruct (decide (p = 2)) as [->|H2]; [rewrite lookup_singleton_eq; intros [= <-]; by right|]. by rewrite lookup_singleton_ne.
Qed.

Lemma demo_tree_inv held : (forall p, 0 <= held p) -> held 1 <= 2 -> (forall p, p <> 1 -> held p = 0) ->
  inv demo_ops tt demo_mounted demo_mroot (Some 0, demo_mroot 0) demo_tree held.
Proof.
  intros Hh H1 H2. split; [|  |done| |done|done].
  - unfold Namei.tree. assert (skel demo_tree = skel demo_fs) as ->; [|apply demo_tree_ok]. unfold skel. cbn [nodes demo_tree demo_fs set_nodes].
    by rewrite !fmap_insert, !map_fmap_singleton.
  - intros p n Hp. destruct (demo_tree_nodes p n Hp) as [[-> ->]|[-> ->]]; cbn; [lia|]. rewrite H2 by done. lia.
  - intros p Hp. apply H2. intros ->. done.
Qed.

Lemma demo_bounded : bounded demo_tree 3.
Proof. intros p n Hp. destruct (demo_tree_nodes p n Hp) as [[-> ->]|[-> ->]]; cbn; lia. Qed.

Lemma demo_at_root : position demo_tree 1 [(Some 0, demo_mroot 0)].
Proof. eexists. split; [reflexivity|]. split; [reflexivity|]. split; reflexivity. Qed.

Lemma demo_base : base demo_sys 0 1.
Proof.
  unfold base. change (0 =? AT_FDCWD) with false. cbv iota. unfold fd_vnode. rewrite gets_run.
  assert (FdTable.file_fd (files demo_sys) (this demo_sys) 0 = Some (Ok 0)) as -> by reflexivity.
  rewrite (bind_run (lift (Some _)) _ demo_sys _ demo_sys eq_refl). change (files demo_sys) with demo_files. rewrite demo_entries. reflexivity.
Qed.

(** Descriptor 0 and the path [l]. *)
Lemma faccessat_correct_witness :
  base demo_sys 0 1 /\ exists r s', sys_faccessat demo_ops no_dealloc demo_root 0 [108] R_OK 0 demo_sys = Some (r, s') /\
    xaccess demo_root (demo_attr 5 0x81a4) R_OK true = Some r /\ files s' = files demo_sys.
Proof.
  split; [exact demo_base|].
  destruct (faccessat_correct demo_ops no_dealloc demo_root tt demo_mounted demo_mroot (Some 0, demo_mroot 0) demo_sys (fun _ => 0) 3 0 1
    [(Some 0, demo_mroot 0)] [108] R_OK 0 demo_driver_ok) as (r & s' & H1 & _ & H3 & _ & H5).
  - apply demo_tree_inv; done.
  - exact demo_bounded.
  - lia.
  - exact demo_base.
  - exact demo_at_root.
  - vm_compute. discriminate.
  - vm_compute. reflexivity.
  - intros f up. vm_compute. intros [= <- <-]. discriminate.
  - exists r, s'. split; [exact H1|]. split; [|exact H3]. exact H5.
Defined.

Lemma chdir_correct_witness :
  exists s', sys_chdir demo_ops no_dealloc demo_root [97] demo_tree = Some (Ok 0, s') /\ position s' (cwd s') [(Some 0, demo_attr 3 0x41c0); (Some 0, demo_mroot 0)].
Proof.
  destruct (chdir_correct demo_ops no_dealloc demo_root tt demo_mounted demo_mroot (Some 0, demo_mroot 0) demo_tree (fun _ => 0) 3
    [(Some 0, demo_mroot 0)] [97] demo_driver_ok) as (r & s' & H1 & _ & H3 & H4).
  - apply demo_tree_inv; unfold hold; change (cwd demo_tree) with 1.
    + intros p. destruct (p =? 1); lia.
    + cbn. lia.
    + intros p Hp. destruct (Z.eqb_spec p 1); [done|lia].
  - done.
  - exact demo_bounded.
  - lia.
  - exact demo_at_root.
  - vm_compute. discriminate.
  - vm_compute. reflexivity.
  - subst r. exists s'. split; [exact H1|exact H4].
Defined.

Lemma open_correct_witness :
  exists r s', sys_open demo_ops no_dealloc demo_root [108] 0 0 demo_sys = Some (r, s') /\ FdTable.fd_ok FdTable.none_pending (files s').
Proof.
  destruct (open_correct demo_ops no_dealloc demo_root tt demo_mounted demo_mroot (Some 0, demo_mroot 0) demo_sys (fun _ => 0) 3
    (FdTable.mk_fd_table [Some 0; None] 0 2 4) [(Some 0, demo_mroot 0)] [108] 0 0 demo_driver_ok) as (r & s' & H1 & H2 & _).
  - apply demo_tree_inv; done.
  - exact demo_bounded.
  - lia.
  - exact demo_at_root.
  - exact demo_files_ok.
  - exact demo_clear.
  - reflexivity.
  - vm_compute. discriminate.
  - vm_compute. reflexivity.
  - vm_compute. discriminate.
  - intros f up. vm_compute. intros [= <- <-]. discriminate.
  - exists r, s'. split; [exact H1|exact H2].
Defined.

(** ** Defects *)

(** A second descriptor that is not open leaves the process in the directory of
    the first one, with the reference to it given back. *)
Lemma renameat_changes_cwd :
  option_map (fun x => (x.1, cwd (tree x.2))) (sys_renameat demo_ops no_dealloc demo_root 0 [97] 5 [98]
    (set_tree demo_sys (with_cwd demo_tree 2))) = Some (Err EBADF, 1).
Proof. vm_compute. reflexivity. Qed.

Lemma linkat_changes_cwd :
  option_map (fun x => (x.1, cwd (tree x.2))) (sys_linkat demo_ops no_dealloc demo_root 0 [97] 5 [98] 0 0
    (set_tree demo_sys (with_cwd demo_tree 2))) = Some (Err EBADF, 1).
Proof. vm_compute. reflexivity. Qed.

(** [utimensat] follows symbolic links exactly when AT_SYMLINK_NOFOLLOW is given,
    and returns what was on the stack when the path does not resolve. *)
Lemma utimensat_garbage :
  option_map fst (sys_utimensat demo_ops no_dealloc demo_root 0 AT_FDCWD [120] ((0, 0), (0, 0)) 0 77 demo_sys) = Some (Ok 77).
Proof. vm_compute. reflexivity. Qed.

End FsCalls.
