(* ===== verification/Signal.v ===== *)
(** * Signal sets and per-thread signal queues (kernel/signal.c)

    Module [Signal]: the [sigset_t] operations, the queue of signals of a
    thread ([send_signal_thread], [poll_signal]) and the loading of a handler
    ([poll_signal_handler]). The refinement theorem relates a thread to an
    abstract table of queues, one per signal. *)

From S2P Require Import Prelude CBits Hash HashMap.

Module Signal.
Import CBits HashMap.

Abbreviation NSIG := 64.
Abbreviation SIGRTMIN := 32.
Abbreviation SA_NODEFER := 32.

(** ** Signal sets

    A shift of an [unsigned long] by 64 or more, or by a negative count, is
    undefined. *)
Definition sig_bit (sig : Z) : option Z :=
  if (0 <=? NSIG - sig) && (NSIG - sig <? 64) then Some (Z.shiftl 1 (NSIG - sig)) else None.

Definition sigemptyset : Z := 0.
Definition sigfillset : Z := 0xffffffffffffffff.
Definition sigaddset (set sig : Z) : option Z := b ← sig_bit sig; Some (Z.lor set b).
Definition sigdelset (set sig : Z) : option Z := b ← sig_bit sig; Some (Z.land set (u64 (Z.lnot b))).
Definition sigismember (set sig : Z) : option bool :=
  b ← sig_bit sig; Some (truthy (Z.land set b)).

(** ** Threads *)

(** The members of the union in [siginfo_t] that the kernel fills in. *)
Inductive sigdata :=
| kill_data (si_pid si_uid : Z)
| child_data (si_pid si_uid si_status si_utime si_stime : Z).

Record siginfo_t := mk_siginfo {
  si_signo : Z; si_code : Z; si_errno : Z; si_data : sigdata
}.

Record rtsig_queue := mk_rtq { q_queue : list siginfo_t; q_len : Z }.

(** The fields of [struct thread] that belong to signals. *)
Record thread := mk_thread {
  running : bool;
  sig : Z;
  sigblocked : Z;
  sigpending : Z;
  sigready : Z;
  siginfo : list siginfo_t;
  rtqueue : list rtsig_queue;
  handler : Z;
  hflags : Z;
  hsig : Z;
  hmask : Z;
  slow_syscall : Z
}.

Definition set_sig (t : thread) (x : Z) : thread :=
  mk_thread (running t) x (sigblocked t) (sigpending t) (sigready t) (siginfo t) (rtqueue t)
    (handler t) (hflags t) (hsig t) (hmask t) (slow_syscall t).
Definition set_sigblocked (t : thread) (x : Z) : thread :=
  mk_thread (running t) (sig t) x (sigpending t) (sigready t) (siginfo t) (rtqueue t)
    (handler t) (hflags t) (hsig t) (hmask t) (slow_syscall t).
Definition set_sigpending (t : thread) (x : Z) : thread :=
  mk_thread (running t) (sig t) (sigblocked t) x (sigready t) (siginfo t) (rtqueue t)
    (handler t) (hflags t) (hsig t) (hmask t) (slow_syscall t).
Definition set_sigready (t : thread) (x : Z) : thread :=
  mk_thread (running t) (sig t) (sigblocked t) (sigpending t) x (siginfo t) (rtqueue t)
    (handler t) (hflags t) (hsig t) (hmask t) (slow_syscall t).
Definition set_siginfo (t : thread) (x : list siginfo_t) : thread :=
  mk_thread (running t) (sig t) (sigblocked t) (sigpending t) (sigready t) x (rtqueue t)
    (handler t) (hflags t) (hsig t) (hmask t) (slow_syscall t).
Definition set_rtqueue (t : thread) (x : list rtsig_queue) : thread :=
  mk_thread (running t) (sig t) (sigblocked t) (sigpending t) (sigready t) (siginfo t) x
    (handler t) (hflags t) (hsig t) (hmask t) (slow_syscall t).
Definition set_handler (t : thread) (h flags s mask : Z) : thread :=
  mk_thread (running t) (sig t) (sigblocked t) (sigpending t) (sigready t) (siginfo t) (rtqueue t)
    h flags s mask (slow_syscall t).
Definition set_slow_syscall (t : thread) (x : Z) : thread :=
  mk_thread (running t) (sig t) (sigblocked t) (sigpending t) (sigready t) (siginfo t) (rtqueue t)
    (handler t) (hflags t) (hsig t) (hmask t) x.

Section ops.
(** What uninitialised heap memory holds. *)
Context (junk : siginfo_t).

(** [realloc] to [n] elements. *)
Definition realloc_elems (l : list siginfo_t) (n : Z) : list siginfo_t :=
  take (Z.to_nat n) l ++ replicate (Z.to_nat n - length l) junk.

Definition send_signal_thread (t : thread) (s : Z) (info : siginfo_t) (o : mem) :
    option (thread * mem) :=
  ready ← sigismember (sigready t) s;
  if ready && (s <? SIGRTMIN) then Some (t, o) else
  blocked ← sigismember (sigblocked t) s;
  pending ← (if blocked : bool then sigaddset (sigpending t) s else Some (sigpending t));
  let t := set_sigpending t pending in
  rdy ← sigaddset (sigready t) s;
  let t := set_sigready t rdy in
  if s <? SIGRTMIN then
    si ← (siginfo t).[s - 1 <- info];
    let t := set_siginfo t si in
    Some (set_sig t (s32 (sig t + 1)), o)
  else
    q ← (rtqueue t).[s - SIGRTMIN];
    let len := u64 (q_len q + 1) in
    '(ok, o) ← malloc o;
    if negb (ok : bool) then
      rt ← (rtqueue t).[s - SIGRTMIN <- mk_rtq (q_queue q) len];
      Some (set_rtqueue t rt, o)
    else
      buf ← (realloc_elems (q_queue q) len).[len - 1 <- info];
      rt ← (rtqueue t).[s - SIGRTMIN <- mk_rtq buf len];
      let t := set_rtqueue t rt in
      Some (set_sig t (s32 (sig t + 1)), o).
End ops.

(** The body of the loop of [poll_signal] for the signal that is handled; the
    second component is what is copied to [SIGINFO_VMA]. *)
Definition take_signal (i : Z) (t : thread) : option (thread * siginfo_t) :=
  '(t, info) ← (if i <? SIGRTMIN then
      rdy ← sigdelset (sigready t) i;
      info ← (siginfo t).[i - 1];
      Some (set_sigready t rdy, info)
    else
      q ← (rtqueue t).[i - SIGRTMIN];
      let len := u64 (q_len q - 1) in
      rdy ← (if truthy len then Some (sigready t) else sigdelset (sigready t) i);
      info ← (q_queue q).[0];
      if zlen (q_queue q) <? len + 1 then None else
      let n := Z.to_nat len in
      let buf := take n (drop 1 (q_queue q)) ++ drop n (q_queue q) in
      rt ← (rtqueue t).[i - SIGRTMIN <- mk_rtq buf len];
      Some (set_rtqueue (set_sigready t rdy) rt, info));
  Some (set_sig t (s32 (sig t - 1)), info).

Fixpoint poll_signal_loop (n : nat) (i : Z) (t : thread) (info : siginfo_t) :
    option (Z * thread * siginfo_t) :=
  match n with
  | O => Some (0, t, info)
  | S n =>
      ready ← sigismember (sigready t) i;
      blocked ← (if ready : bool then sigismember (sigblocked t) i else Some true);
      if ready && negb blocked then '(t, info) ← take_signal i t; Some (i, t, info)
      else poll_signal_loop n (i + 1) t info
  end.

(** [info] is the content of [SIGINFO_VMA]. *)
Definition poll_signal_thread (t : thread) (info : siginfo_t) : option (Z * thread * siginfo_t) :=
  if negb (truthy (sig t)) then Some (0, t, info)
  else poll_signal_loop (Z.to_nat NSIG) 1 t info.

(** Returns the handler, its signal and the mask to restore. *)
Definition poll_signal_handler_thread (t : thread) : option (Z * Z * Z * thread) :=
  let addr := handler t in
  let hs := hsig t in
  let mask := sigblocked t in
  let t := set_sigblocked t (Z.lor (sigblocked t) (hmask t)) in
  blk ← (if truthy (Z.land (hflags t) SA_NODEFER) then Some (sigblocked t)
         else sigaddset (sigblocked t) (hsig t));
  let t := set_sigblocked t blk in
  rdy ← sigdelset (sigready t) (sig t);
  let t := set_sig (set_sigready t rdy) 0 in
  Some (addr, hs, mask, set_handler t 0 0 0 sigemptyset).

(** [sys_sigprocmask] on the mask of a thread; [set] is NULL or what it points
    to, and the first component is what [old_set] receives. *)
Definition sigprocmask_thread (how : Z) (set : option Z) (t : thread) : Z * res Z * thread :=
  let old := sigblocked t in
  match set with
  | None => (old, Ok 0, t)
  | Some set =>
      if how =? 0 then (old, Ok 0, set_sigblocked t (Z.lor (sigblocked t) set))
      else if how =? 1 then (old, Ok 0, set_sigblocked t (Z.land (sigblocked t) (u64 (Z.lnot set))))
      else if how =? 2 then (old, Ok 0, set_sigblocked t set)
      else (old, Err EINVAL, t)
  end.

(** ** Signal sets as sets *)

Definition mem_sig (set s : Z) : bool := Z.testbit set (NSIG - s).
Definition sig_range (s : Z) : Prop := 1 <= s <= NSIG.
Definition set_ok (set : Z) : Prop := 0 <= set < 2 ^ 64.

Lemma sig_bit_ok s : sig_range s -> sig_bit s = Some (Z.shiftl 1 (NSIG - s)).
Proof.
  unfold sig_range, sig_bit. intros.
  destruct (Z.leb_spec 0 (NSIG - s)), (Z.ltb_spec (NSIG - s) 64); try lia. done.
Qed.

Lemma sigismember_spec set s : sig_range s -> sigismember set s = Some (mem_sig set s).
Proof.
  intros Hs. unfold sigismember. rewrite sig_bit_ok by done. orun.
  rewrite land_shl1; [done|]. unfold sig_range in Hs. lia.
Qed.

Lemma sigaddset_spec set s :
  sig_range s -> set_ok set ->
  exists set', sigaddset set s = Some set' /\ set_ok set' /\
    forall j, sig_range j -> mem_sig set' j = (j =? s) || mem_sig set j.
Proof.
  intros Hs Hset. unfold sigaddset. rewrite sig_bit_ok by done. unfold sig_range in *. orun.
  eexists. split; [done|]. split.
  - apply lor_bound; auto; [lia|]. rewrite Z.shiftl_1_l.
    split; [apply Z.pow_nonneg; lia|apply Z.pow_lt_mono_r; lia].
  - intros j Hj. unfold mem_sig. rewrite Z.lor_spec, testbit_shl1, orb_comm by lia.
    f_equal. zcases; lia.
Qed.

Lemma sigdelset_spec set s :
  sig_range s -> set_ok set ->
  exists set', sigdelset set s = Some set' /\ set_ok set' /\
    forall j, sig_range j -> mem_sig set' j = negb (j =? s) && mem_sig set j.
Proof.
  intros Hs Hset. unfold sigdelset. rewrite sig_bit_ok by done. unfold sig_range in *. orun.
  eexists. split; [done|]. split; [apply land_bound_l; auto; lia|].
  intros j Hj. unfold mem_sig. autorewrite with cbits. rewrite testbit_1.
  destruct (Z.ltb_spec (NSIG - j) 64); [|lia]. rewrite andb_comm. f_equal. simpl. f_equal.
  zcases; lia.
Qed.

(** ** The queue of each signal

    A standard signal is queued at most once; a real-time signal as often as
    it was sent. *)
Definition queued (t : thread) (s : Z) : list siginfo_t :=
  if s <? SIGRTMIN then
    if mem_sig (sigready t) s then option_list ((siginfo t).[s - 1]) else []
  else
    match (rtqueue t).[s - SIGRTMIN] with
    | Some q => take (Z.to_nat (q_len q)) (q_queue q)
    | None => []
    end.

(** Signal 64 has no queue ([rtqueue] has 32 elements), so it stays out. *)
Abbreviation signals := (seqZ 1 63).

Definition total (Q : Z -> list siginfo_t) : Z :=
  Z.of_nat (sum_list_with (fun s => length (Q s)) signals).

(** The representation invariant of the signal state of a thread. *)
Record thread_shape (t : thread) : Prop := {
  tk_ready : set_ok (sigready t);
  tk_blocked : set_ok (sigblocked t);
  tk_pending : set_ok (sigpending t);
  tk_info : zlen (siginfo t) = SIGRTMIN;
  tk_rt : zlen (rtqueue t) = NSIG - SIGRTMIN;
  tk_queue : forall k q, (rtqueue t).[k] = Some q ->
    0 <= q_len q <= zlen (q_queue q) /\
    mem_sig (sigready t) (k + SIGRTMIN) = Z.ltb 0 (q_len q);
  tk_last : mem_sig (sigready t) NSIG = false
}.

(** [sig] counts the queued signals. *)
Definition thread_ok (t : thread) : Prop := thread_shape t /\ sig t = total (queued t).

Lemma signals_elem s : s ∈ signals <-> 1 <= s <= 63.
Proof. rewrite elem_of_seqZ. lia. Qed.

Lemma sum_update (Q Q' : Z -> list siginfo_t) s l :
  NoDup l -> s ∈ l -> (forall j, j ∈ l -> j <> s -> Q' j = Q j) ->
  (sum_list_with (fun s => length (Q' s)) l + length (Q s) =
   sum_list_with (fun s => length (Q s)) l + length (Q' s))%nat.
Proof.
  intros Hnd Hin Hother. induction Hnd as [|x l Hx Hnd IH]; [by apply elem_of_nil in Hin|].
  simpl. apply elem_of_cons in Hin as [->|Hin].
  - assert (sum_list_with (fun s => length (Q' s)) l = sum_list_with (fun s => length (Q s)) l) as ->.
    { clear IH Hnd. induction l as [|y l IHl]; [done|]. simpl. apply not_elem_of_cons in Hx as [Hne Hx].
      rewrite IHl, (Hother y) by set_solver. done. }
    lia.
  - rewrite (Hother x) by set_solver. assert (Hi : forall j, j ∈ l -> j <> s -> Q' j = Q j) by set_solver.
    specialize (IH Hin Hi). lia.
Qed.

Lemma total_update (Q Q' : Z -> list siginfo_t) s :
  1 <= s <= 63 -> (forall j, 1 <= j <= 63 -> j <> s -> Q' j = Q j) ->
  total Q' = total Q + zlen (Q' s) - zlen (Q s).
Proof.
  intros Hs Ho. unfold total, zlen.
  pose proof (sum_update Q Q' s signals (NoDup_seqZ 1 63) (proj2 (signals_elem s) Hs)) as Hu.
  enough (forall j, j ∈ signals -> j <> s -> Q' j = Q j) as Hx by (specialize (Hu Hx); lia).
  intros j Hj. by apply Ho, signals_elem.
Qed.

Lemma total_ext (Q Q' : Z -> list siginfo_t) :
  (forall j, 1 <= j <= 63 -> Q' j = Q j) -> total Q' = total Q.
Proof. intros HQ. rewrite (total_update Q Q' 1), (HQ 1) by auto with lia. lia. Qed.

Lemma total_ge Q s : 1 <= s <= 63 -> zlen (Q s) <= total Q.
Proof.
  intros Hs%signals_elem. unfold total, zlen. revert Hs. generalize signals as L. intros L Hs.
  induction L as [|x L IH]; [by apply elem_of_nil in Hs|].
  simpl. apply elem_of_cons in Hs as [->|Hs]; [lia|]. specialize (IH Hs). lia.
Qed.

(** A signal is ready exactly when its queue is not empty. *)
Lemma ready_queued t s :
  thread_shape t -> 1 <= s <= 63 -> mem_sig (sigready t) s = bool_decide (queued t s <> []).
Proof.
  intros Hok Hs. unfold queued. destruct (Z.ltb_spec s SIGRTMIN).
  - destruct (mem_sig (sigready t) s); [|done].
    destruct (zlookup_lt_Some (siginfo t) (s - 1)) as [x ->]; [rewrite (tk_info t Hok); lia|done].
  - destruct (zlookup_lt_Some (rtqueue t) (s - SIGRTMIN)) as [q Hq]; [rewrite (tk_rt t Hok); lia|].
    rewrite Hq. destruct (tk_queue t Hok _ _ Hq) as (Hl & Hr).
    replace (s - SIGRTMIN + SIGRTMIN) with s in Hr by lia. rewrite Hr. unfold zlen in Hl.
    destruct (Z.ltb_spec 0 (q_len q)) as [Hp|Hp].
    + symmetry. apply bool_decide_eq_true. intros He. apply (f_equal length) in He.
      rewrite length_take in He. simpl in He. lia.
    + replace (q_len q) with 0 by lia. by rewrite take_0.
Qed.

(** The effect on the table of queues of an update of one signal. *)
Definition update_queue (Q : Z -> list siginfo_t) (s : Z) (l : list siginfo_t) : Z -> list siginfo_t :=
  fun j => if j =? s then l else Q j.

Definition same_queues (Q Q' : Z -> list siginfo_t) : Prop :=
  forall j, 1 <= j <= 63 -> Q j = Q' j.

Lemma update_standard t s rdy si pend x :
  thread_shape t -> 1 <= s < SIGRTMIN -> set_ok rdy -> set_ok pend ->
  (siginfo t).[s - 1 <- x] = Some si ->
  (forall j, sig_range j -> j <> s -> mem_sig rdy j = mem_sig (sigready t) j) ->
  let t' := set_siginfo (set_sigready (set_sigpending t pend) rdy) si in
  thread_shape t' /\
  same_queues (queued t') (update_queue (queued t) s (if mem_sig rdy s then [x] else [])).
Proof.
  intros [] Hs Hr Hp Hsi Hm t'. unfold sig_range in Hm. split.
  - split; simpl; auto.
    + by rewrite (zstore_len _ _ _ _ Hsi).
    + intros k q Hq. destruct (tk_queue0 k q Hq) as [? <-]. split; [done|].
      apply zlookup_Some_lt in Hq. apply Hm; lia.
    + rewrite Hm; [done|lia..].
  - intros j Hj. unfold queued, update_queue. simpl. destruct (Z.ltb_spec j SIGRTMIN).
    + rewrite (zlookup_zstore _ _ _ _ _ Hsi). destruct (Z.eqb_spec j s) as [->|].
      * by rewrite Z.eqb_refl.
      * destruct (Z.eqb_spec (j - 1) (s - 1)); [lia|]. rewrite Hm by lia. done.
    + destruct (Z.eqb_spec j s); [lia|]. done.
Qed.

Lemma update_realtime t s rdy pend q' rt :
  thread_shape t -> SIGRTMIN <= s <= 63 -> set_ok rdy -> set_ok pend ->
  0 <= q_len q' <= zlen (q_queue q') -> (rtqueue t).[s - SIGRTMIN <- q'] = Some rt ->
  mem_sig rdy s = (0 <? q_len q') ->
  (forall j, sig_range j -> j <> s -> mem_sig rdy j = mem_sig (sigready t) j) ->
  let t' := set_rtqueue (set_sigready (set_sigpending t pend) rdy) rt in
  thread_shape t' /\
  same_queues (queued t') (update_queue (queued t) s (take (Z.to_nat (q_len q')) (q_queue q'))).
Proof.
  intros [] Hs Hr Hp Hl Hrt Hms Hm t'. unfold sig_range in Hm. split.
  - split; simpl; auto.
    + by rewrite (zstore_len _ _ _ _ Hrt).
    + intros k q Hq. pose proof Hq as Hlt%zlookup_Some_lt. rewrite (zstore_len _ _ _ _ Hrt) in Hlt.
      rewrite (zlookup_zstore _ _ _ _ _ Hrt) in Hq.
      destruct (Z.eqb_spec k (s - SIGRTMIN)) as [->|].
      * injection Hq as <-. split; [done|]. rewrite <- Hms. f_equal. lia.
      * destruct (tk_queue0 k q Hq) as [? <-]. split; [done|]. apply Hm; lia.
    + rewrite Hm; [done|lia..].
  - intros j Hj. unfold queued, update_queue. simpl. destruct (Z.ltb_spec j SIGRTMIN).
    + destruct (Z.eqb_spec j s); [lia|]. rewrite Hm by lia. done.
    + rewrite (zlookup_zstore _ _ _ _ _ Hrt). destruct (Z.eqb_spec j s) as [->|].
      * by rewrite Z.eqb_refl.
      * destruct (Z.eqb_spec (j - SIGRTMIN) (s - SIGRTMIN)); [lia|]. done.
Qed.

(** *** The abstract operations *)

(** A standard signal that is already queued is not queued again. *)
Definition send_spec (Q : Z -> list siginfo_t) (s : Z) (info : siginfo_t) : Z -> list siginfo_t :=
  if (s <? SIGRTMIN) && bool_decide (Q s <> []) then Q else update_queue Q s (Q s ++ [info]).

(** The least signal that is queued and not blocked is taken from its queue. *)
Fixpoint poll_spec (n : nat) (i : Z) (Q : Z -> list siginfo_t) (blocked : Z) :
    option (Z * siginfo_t * (Z -> list siginfo_t)) :=
  match n with
  | O => None
  | S n =>
      match Q i with
      | x :: l => if mem_sig blocked i then poll_spec n (i + 1) Q blocked
                  else Some (i, x, update_queue Q i l)
      | [] => poll_spec n (i + 1) Q blocked
      end
  end.

Lemma total_same Q Q' : same_queues Q Q' -> total Q = total Q'.
Proof. intros HQ. by apply total_ext. Qed.

Lemma total_set Q s l : 1 <= s <= 63 -> total (update_queue Q s l) = total Q + zlen l - zlen (Q s).
Proof.
  intros Hs. rewrite (total_update Q (update_queue Q s l) s); [|done|].
  - unfold update_queue. by rewrite Z.eqb_refl.
  - intros j _ Hj. unfold update_queue. by destruct (Z.eqb_spec j s).
Qed.

Lemma s32_small x : - 2 ^ 31 <= x < 2 ^ 31 -> s32 x = x.
Proof. intros Hx. unfold swrap. destruct (Z.ltb_spec (x mod 2 ^ 32) (2 ^ (32 - 1))); divlia. Qed.

(** Storing the count finishes an update. *)
Lemma finish_count t Q n :
  thread_shape t -> same_queues (queued t) Q -> n = total Q -> thread_ok (set_sig t n) /\ same_queues (queued (set_sig t n)) Q.
Proof.
  intros Hs HQ ->. split; [|done]. split; [by destruct Hs; split|].
  simpl. symmetry. apply total_same. intros j Hj. by apply HQ.
Qed.

Section send.
Context (junk : siginfo_t).

Lemma realloc_store l n x :
  0 <= n <= zlen l ->
  exists buf, (realloc_elems junk l (n + 1)).[n + 1 - 1 <- x] = Some buf /\
    zlen buf = n + 1 /\ take (Z.to_nat (n + 1)) buf = take (Z.to_nat n) l ++ [x].
Proof.
  intros Hn. unfold zlen in Hn. set (r := realloc_elems junk l (n + 1)).
  assert (Hlen : length r = Z.to_nat (n + 1)).
  { unfold r, realloc_elems. rewrite length_app, length_take, length_replicate. lia. }
  rewrite zstore_lt by (unfold zlen; lia). eexists. split; [done|].
  split; [unfold zlen; rewrite length_insert; lia|].
  rewrite take_ge by (rewrite length_insert; lia).
  replace (Z.to_nat (n + 1 - 1)) with (Z.to_nat n) by lia.
  rewrite insert_take_drop by lia.
  rewrite (drop_ge r) by lia. f_equal.
  unfold r, realloc_elems. rewrite take_app_le by (rewrite length_take; lia).
  rewrite take_take. f_equal. lia.
Qed.

Lemma send_signal_thread_spec t s info o :
  thread_ok t -> 1 <= s <= 63 -> all_succeed o -> sig t < 2 ^ 31 - 1 ->
  exists t' o', send_signal_thread junk t s info o = Some (t', o') /\ all_succeed o' /\
    thread_ok t' /\ sigblocked t' = sigblocked t /\
    same_queues (queued t') (send_spec (queued t) s info).
Proof.
  intros [Hsh Hsig] Hs Ho Hmax. assert (Hrs : sig_range s) by (unfold sig_range; lia).
  unfold send_signal_thread, send_spec.
  rewrite (sigismember_spec (sigready t)) by done. orun. rewrite (ready_queued t s Hsh Hs), andb_comm.
  destruct ((s <? SIGRTMIN) && bool_decide (queued t s <> [])) eqn:Hdup; [by exists t, o|].
  rewrite sigismember_spec by done. orun. pose proof Hsh as [Hr Hb Hp Hi Hrt Hq Hl].
  assert (exists pend, (if mem_sig (sigblocked t) s then sigaddset (sigpending t) s
    else Some (sigpending t)) = Some pend /\ set_ok pend) as (pend & -> & Hpend).
  { destruct (mem_sig (sigblocked t) s); [|by eexists].
    destruct (sigaddset_spec (sigpending t) s) as (? & ? & ? & _); eauto. }
  orun. cbn [sigready set_sigpending].
  destruct (sigaddset_spec (sigready t) s Hrs Hr) as (rdy & -> & Hrdy & Hmem). orun.
  assert (Hms : mem_sig rdy s = true) by (rewrite Hmem, Z.eqb_refl by done; done).
  assert (Hmo : forall j, sig_range j -> j <> s -> mem_sig rdy j = mem_sig (sigready t) j).
  { intros j Hj Hne. rewrite Hmem by done. by destruct (Z.eqb_spec j s). }
  pose proof (total_ge (queued t) s Hs) as Hge. pose proof (zlen_nonneg (queued t s)).
  assert (Hinc : s32 (sig t + 1) = sig t + 1) by (apply s32_small; lia).
  destruct (Z.ltb_spec s SIGRTMIN).
  - cbn [siginfo set_sigready set_sigpending].
    destruct (zstore (siginfo t) (s - 1) info) as [si|] eqn:Hsi; [|rewrite zstore_lt in Hsi by lia; done].
    orun. destruct (update_standard t s rdy si pend info) as [Hsh' HQ]; auto; [lia|].
    rewrite Hms in HQ. assert (queued t s = []) as Hnil.
    { simpl in Hdup. apply bool_decide_eq_false, dec_stable in Hdup. done. }
    eexists _, o. split; [simpl sig; rewrite Hinc; reflexivity|]. split; [done|].
    edestruct (finish_count _ _ (sig t + 1) Hsh' HQ) as [Hok' HQ'].
    + rewrite total_set, Hnil by done. unfold zlen. simpl. lia.
    + split; [exact Hok'|]. split; [done|]. by rewrite Hnil.
  - cbn [rtqueue set_sigready set_sigpending].
    destruct (zlookup_lt_Some (rtqueue t) (s - SIGRTMIN)) as [q Hqs]; [lia|]. rewrite Hqs. orun.
    destruct (Hq _ _ Hqs) as [Hql Hqr].
    assert (HQs : queued t s = take (Z.to_nat (q_len q)) (q_queue q)).
    { unfold queued. destruct (Z.ltb_spec s SIGRTMIN); [lia|]. by rewrite Hqs. }
    assert (zlen (queued t s) = q_len q).
    { rewrite HQs. unfold zlen in *. rewrite length_take. lia. }
    destruct (malloc_succeeds 0 o) as (o1 & -> & _ & Hm); [by apply Forall_take|]. orun. simpl negb.
    cbv iota. rewrite (wrap_small 64 (q_len q + 1)) by lia.
    destruct (realloc_store (q_queue q) (q_len q) info Hql) as (buf & -> & Hlb & Htb). orun.
    destruct (zstore (rtqueue t) (s - SIGRTMIN) (mk_rtq buf (q_len q + 1))) as [rt|] eqn:Hst;
      [|rewrite zstore_lt in Hst by lia; done].
    orun. destruct (update_realtime t s rdy pend (mk_rtq buf (q_len q + 1)) rt) as [Hsh' HQ];
      simpl; auto; [lia..|rewrite Hms; symmetry; apply Z.ltb_lt; lia|].
    simpl in HQ. rewrite Htb, <- HQs in HQ.
    eexists _, o1. split; [simpl sig; rewrite Hinc; reflexivity|]. split; [auto|].
    edestruct (finish_count _ _ (sig t + 1) Hsh' HQ) as [Hok' HQ'].
    + rewrite total_set by done. rewrite zlen_app, zlen_cons, zlen_nil. lia.
    + split; [exact Hok'|]. done.
Qed.
End send.

Lemma take_signal_spec t i x l :
  thread_ok t -> 1 <= i <= 63 -> queued t i = x :: l -> sig t < 2 ^ 31 ->
  exists t', take_signal i t = Some (t', x) /\ thread_ok t' /\ sigblocked t' = sigblocked t /\
    same_queues (queued t') (update_queue (queued t) i l).
Proof.
  intros [Hsh Hsig] Hi HQi Hmax. assert (Hri : sig_range i) by (unfold sig_range; lia).
  pose proof Hsh as [Hr Hb Hp Hin Hrt Hq Hl]. unfold take_signal.
  destruct (sigdelset_spec (sigready t) i Hri Hr) as (rdy & Hdel & Hrdy & Hmem).
  assert (Hmo : forall j, sig_range j -> j <> i -> mem_sig rdy j = mem_sig (sigready t) j).
  { intros j Hj Hne. rewrite Hmem by done. by destruct (Z.eqb_spec j i). }
  pose proof (total_ge (queued t) i Hi) as Hge. rewrite HQi, zlen_cons in Hge.
  pose proof (zlen_nonneg l).
  assert (Hdec : s32 (sig t - 1) = sig t - 1) by (apply s32_small; lia).
  assert (Htot : sig t - 1 = total (update_queue (queued t) i l)).
  { rewrite total_set, HQi, zlen_cons by done. lia. }
  pose proof HQi as HQ0. unfold queued in HQ0. destruct (Z.ltb_spec i SIGRTMIN).
  - rewrite Hdel. orun.
    destruct (mem_sig (sigready t) i) eqn:Hmi; [|done].
    destruct ((siginfo t).[i - 1]) as [y|] eqn:Hy; [|done]. simpl in HQ0. injection HQ0 as -> <-. orun.
    destruct (update_standard t i rdy (siginfo t) (sigpending t) x) as [Hsh' HQ]; auto; [lia|..].
    { rewrite zstore_lt by lia. f_equal. apply list_insert_id. unfold zlookup in Hy.
      destruct (Z.ltb_spec (i - 1) 0); [lia|done]. }
    rewrite Hmem, Z.eqb_refl in HQ by done. simpl in HQ.
    eexists. split; [simpl sig; rewrite Hdec; reflexivity|].
    by destruct (finish_count (set_sigready t rdy) _ (sig t - 1) Hsh' HQ Htot) as [? ?].
  - destruct ((rtqueue t).[i - SIGRTMIN]) as [q|] eqn:Hqi; [|done]. orun.
    destruct (Hq _ _ Hqi) as [Hql Hqr]. replace (i - SIGRTMIN + SIGRTMIN) with i in Hqr by lia.
    assert (Hlen : q_len q = 1 + zlen l).
    { apply (f_equal zlen) in HQ0. rewrite zlen_cons in HQ0. unfold zlen in *. rewrite length_take in HQ0. lia. }
    rewrite (wrap_small 64 (q_len q - 1)) by lia.
    destruct (q_queue q) as [|y b] eqn:Eb; [by rewrite take_nil in HQ0|].
    replace (Z.to_nat (q_len q)) with (S (Z.to_nat (zlen l))) in HQ0 by lia.
    injection HQ0 as -> Htl. rewrite zlen_cons in *.
    assert (exists r, (if truthy (q_len q - 1) then Some (sigready t) else sigdelset (sigready t) i) = Some r /\
      set_ok r /\ mem_sig r i = (0 <? q_len q - 1) /\
      forall j, sig_range j -> j <> i -> mem_sig r j = mem_sig (sigready t) j) as (r & -> & Hrok & Hri' & Hro).
    { unfold truthy. destruct (Z.eqb_spec (q_len q - 1) 0); simpl.
      - exists rdy. split_and!; auto. rewrite Hmem, Z.eqb_refl by done. symmetry. apply Z.ltb_ge. lia.
      - exists (sigready t). split_and!; auto. rewrite Hqr. zcases; lia. }
    orun. change (zlookup (x :: b) 0) with (Some x). orun.
    destruct (Z.ltb_spec (1 + zlen b) (q_len q - 1 + 1)); [lia|]. change (drop 1 (x :: b)) with (drop 0 b). rewrite drop_0.
    replace (q_len q - 1) with (zlen l) in * by lia.
    set (buf := take _ _ ++ _).
    assert (Hbuf : zlen buf = 1 + zlen b /\ take (Z.to_nat (zlen l)) buf = l).
    { unfold buf, zlen in *. split.
      - rewrite length_app, length_take, length_drop. simpl. lia.
      - rewrite take_app_length'; [done|]. rewrite length_take. lia. }
    destruct (zstore (rtqueue t) (i - SIGRTMIN) (mk_rtq buf (zlen l))) as [rt|] eqn:Hst;
      [|rewrite zstore_lt in Hst by (pose proof (zlookup_Some_lt _ _ _ Hqi); lia); done].
    orun. destruct (update_realtime t i r (sigpending t) (mk_rtq buf (zlen l)) rt) as [Hsh' HQ];
      simpl; auto; [lia..|].
    simpl in HQ. rewrite (proj2 Hbuf) in HQ.
    eexists. split; [simpl sig; rewrite Hdec; reflexivity|].
    by destruct (finish_count (set_rtqueue (set_sigready t r) rt) _ (sig t - 1) Hsh' HQ Htot) as [? ?].
Qed.

Lemma poll_loop_S n i t info :
  poll_signal_loop (S n) i t info =
  (ready ← sigismember (sigready t) i;
   blocked ← (if ready : bool then sigismember (sigblocked t) i else Some true);
   if ready && negb blocked then '(t, info) ← take_signal i t; Some (i, t, info)
   else poll_signal_loop n (i + 1) t info).
Proof. done. Qed.

Lemma poll_loop_spec n i t info :
  thread_ok t -> sig t < 2 ^ 31 -> 1 <= i -> i + Z.of_nat n = NSIG ->
  match poll_spec n i (queued t) (sigblocked t) with
  | Some (s, x, Q) =>
      1 <= s <= 63 /\
      exists t', poll_signal_loop (S n) i t info = Some (s, t', x) /\ thread_ok t' /\
        sigblocked t' = sigblocked t /\ same_queues (queued t') Q
  | None => poll_signal_loop (S n) i t info = Some (0, t, info)
  end.
Proof.
  intros Hok Hmax. revert i. induction n as [|n IH]; intros i Hi Hn; cbn [poll_spec];
    rewrite poll_loop_S, (sigismember_spec (sigready t)) by (unfold sig_range; lia); orun.
  - replace i with NSIG by lia. destruct Hok as [[? ? ? ? ? ? Hl] _]. by rewrite Hl.
  - rewrite ready_queued by (try apply Hok; lia). specialize (IH (i + 1)).
    destruct (queued t i) as [|x l] eqn:HQ; [apply IH; lia|].
    rewrite bool_decide_eq_true_2 by done. rewrite sigismember_spec by (unfold sig_range; lia). orun.
    destruct (mem_sig (sigblocked t) i); [apply IH; lia|]. cbn [negb andb].
    destruct (take_signal_spec t i x l) as (t' & -> & ? & ? & ?); auto; [lia|]. orun.
    split; [lia|]. eauto.
Qed.

Lemma poll_spec_least n i Q b :
  match poll_spec n i Q b with
  | Some (s, x, Q') =>
      exists l, i <= s < i + Z.of_nat n /\ Q s = x :: l /\ mem_sig b s = false /\
        Q' = update_queue Q s l /\ forall j, i <= j < s -> Q j = [] \/ mem_sig b j = true
  | None => forall j, i <= j < i + Z.of_nat n -> Q j = [] \/ mem_sig b j = true
  end.
Proof.
  revert i. induction n as [|n IH]; intros i; cbn [poll_spec]; [lia|].
  assert (Hskip : Q i = [] \/ mem_sig b i = true ->
    match poll_spec n (i + 1) Q b with
    | Some (s, x, Q') =>
        exists l, i <= s < i + Z.of_nat (S n) /\ Q s = x :: l /\ mem_sig b s = false /\
          Q' = update_queue Q s l /\ forall j, i <= j < s -> Q j = [] \/ mem_sig b j = true
    | None => forall j, i <= j < i + Z.of_nat (S n) -> Q j = [] \/ mem_sig b j = true
    end).
  { intros Hi. specialize (IH (i + 1)). destruct (poll_spec n (i + 1) Q b) as [[[s x] Q']|].
    - destruct IH as (l & Hs & ? & ? & ? & Hmin). exists l. split_and!; auto; try lia.
      intros j Hj. destruct (Z.eq_dec j i) as [->|]; [done|]. apply Hmin. lia.
    - intros j Hj. destruct (Z.eq_dec j i) as [->|]; [done|]. apply IH. lia. }
  destruct (Q i) as [|x l] eqn:HQ; [by apply Hskip; left|].
  destruct (mem_sig b i) eqn:Hb; [by apply Hskip; right|].
  exists l. split_and!; auto; try lia.
Qed.

Lemma poll_spec_empty Q b n i :
  (forall s, i <= s < i + Z.of_nat n -> Q s = []) -> poll_spec n i Q b = None.
Proof.
  revert i. induction n as [|n IH]; intros i HQ; [done|]. simpl.
  rewrite HQ by lia. apply IH. intros s Hs. apply HQ. lia.
Qed.

Lemma poll_thread_spec t info :
  thread_ok t -> sig t < 2 ^ 31 ->
  match poll_spec 63 1 (queued t) (sigblocked t) with
  | Some (s, x, Q) =>
      1 <= s <= 63 /\
      exists t', poll_signal_thread t info = Some (s, t', x) /\ thread_ok t' /\
        sigblocked t' = sigblocked t /\ same_queues (queued t') Q
  | None => poll_signal_thread t info = Some (0, t, info)
  end.
Proof.
  intros Hok Hmax. unfold poll_signal_thread, truthy.
  destruct (Z.eqb_spec (sig t) 0) as [E|]; [|by apply (poll_loop_spec 63)]. cbn [negb].
  rewrite poll_spec_empty; [done|].
  intros s Hs. pose proof (total_ge (queued t) s ltac:(lia)).
  destruct Hok as [_ Hsig]. destruct (queued t s) eqn:EQ; [done|].
  rewrite zlen_cons in *. pose proof (zlen_nonneg l). lia.
Qed.

(** Delivery order. On a well-formed thread [poll_signal] takes the least
    signal that is queued and not blocked, with the information that was sent
    first for it, and changes nothing else; it returns 0 and does nothing when
    every queued signal is blocked. *)
Theorem poll_signal_correct t info :
  thread_ok t -> sig t < 2 ^ 31 ->
  (exists s t' x l, poll_signal_thread t info = Some (s, t', x) /\ 1 <= s <= 63 /\
     queued t s = x :: l /\ mem_sig (sigblocked t) s = false /\
     (forall j, 1 <= j < s -> queued t j = [] \/ mem_sig (sigblocked t) j = true) /\
     thread_ok t' /\ sigblocked t' = sigblocked t /\ queued t' s = l /\
     forall j, 1 <= j <= 63 -> j <> s -> queued t' j = queued t j) \/
  (poll_signal_thread t info = Some (0, t, info) /\
   forall j, 1 <= j <= 63 -> queued t j = [] \/ mem_sig (sigblocked t) j = true).
Proof.
  intros Hok Hmax. pose proof (poll_thread_spec t info Hok Hmax) as Hp.
  pose proof (poll_spec_least 63 1 (queued t) (sigblocked t)) as Hl.
  destruct (poll_spec 63 1 _ _) as [[[s x] Q]|].
  - left. destruct Hp as (Hs & t' & -> & Hok' & Hb' & HQ). destruct Hl as (l & Hi & Hx & Hblk & -> & Hmin).
    exists s, t', x, l. split_and!; auto; try lia.
    + rewrite HQ by done. unfold update_queue. by rewrite Z.eqb_refl.
    + intros j Hj Hne. rewrite HQ by done. unfold update_queue. by destruct (Z.eqb_spec j s).
  - right. split; [done|]. intros j Hj. apply Hl. lia.
Qed.

(** ** Histories of a thread *)

Inductive sig_op :=
| SSend (s : Z) (info : siginfo_t)
| SPoll
| SMask (how : Z) (set : Z).

Definition op_ok (p : sig_op) : Prop :=
  match p with
  | SSend s _ => 1 <= s <= 63
  | SPoll => True
  | SMask _ set => set_ok set
  end.

(** The answers of the polls, with the content of [SIGINFO_VMA] after each. *)
Fixpoint run_ops (junk : siginfo_t) (ops : list sig_op) (t : thread) (info : siginfo_t) (o : mem) :
    option (list (Z * siginfo_t)) :=
  match ops with
  | [] => Some []
  | SSend s x :: ops => '(t, o) ← send_signal_thread junk t s x o; run_ops junk ops t info o
  | SPoll :: ops =>
      '(s, t, info) ← poll_signal_thread t info;
      l ← run_ops junk ops t info o;
      Some ((s, info) :: l)
  | SMask how set :: ops => run_ops junk ops (sigprocmask_thread how (Some set) t).2 info o
  end.

(** Blocking by set operations. *)
Definition mask_spec (how set blocked : Z) : Z :=
  if how =? 0 then Z.lor blocked set
  else if how =? 1 then Z.ldiff blocked set
  else if how =? 2 then set else blocked.

Fixpoint run_queues (ops : list sig_op) (Q : Z -> list siginfo_t) (blocked : Z) (info : siginfo_t) :
    list (Z * siginfo_t) :=
  match ops with
  | [] => []
  | SSend s x :: ops => run_queues ops (send_spec Q s x) blocked info
  | SPoll :: ops =>
      match poll_spec 63 1 Q blocked with
      | Some (s, x, Q) => (s, x) :: run_queues ops Q blocked x
      | None => (0, info) :: run_queues ops Q blocked info
      end
  | SMask how set :: ops => run_queues ops Q (mask_spec how set blocked) info
  end.

(** A thread from [calloc]: no signal is queued or blocked. *)
Definition thread0 (z : siginfo_t) : thread :=
  mk_thread true 0 0 0 0 (replicate 32 z) (replicate 32 (mk_rtq [] 0)) 0 0 0 0 0.

Lemma thread0_ok z : thread_ok (thread0 z).
Proof.
  split; [split|]; try done.
  - intros k q Hq. unfold zlookup in Hq. destruct (k <? 0); [done|].
    apply lookup_replicate in Hq as [-> _]. split; [done|]. apply Z.testbit_0_l.
Qed.

Lemma mask_thread_spec how set t :
  thread_ok t -> set_ok set ->
  let t' := (sigprocmask_thread how (Some set) t).2 in
  thread_ok t' /\ sigblocked t' = mask_spec how set (sigblocked t) /\ sig t' = sig t /\
  same_queues (queued t') (queued t).
Proof.
  intros [[Hr Hb Hp Hi Hrt Hq Hl] Hsig] Hset. unfold sigprocmask_thread, mask_spec.
  assert (Hand : Z.land (sigblocked t) (u64 (Z.lnot set)) = Z.ldiff (sigblocked t) set).
  { bitwise i Hi'. rewrite Z.ldiff_spec. destruct (Z.ltb_spec i 64); [done|].
    by rewrite (testbit_high 64 (sigblocked t)) by (done || lia). }
  assert (Hok : forall m, set_ok m -> thread_ok (set_sigblocked t m)) by (intros m Hm; by split; [split|]).
  pose proof (lor_bound 64 _ _ ltac:(lia) Hb Hset).
  pose proof (land_bound_l 64 _ (u64 (Z.lnot set)) ltac:(lia) Hb).
  destruct (how =? 0), (how =? 1), (how =? 2); simpl; split_and!; auto; by split.
Qed.

Lemma send_spec_same Q Q' s x :
  1 <= s <= 63 -> same_queues Q Q' -> same_queues (send_spec Q s x) (send_spec Q' s x).
Proof.
  intros Hs HQ j Hj. unfold send_spec, update_queue. rewrite (HQ s Hs).
  destruct (_ && _); [by apply HQ|]. destruct (j =? s); [done|by apply HQ].
Qed.

Lemma poll_spec_same n i Q Q' b :
  1 <= i -> i + Z.of_nat n <= 64 -> same_queues Q Q' ->
  match poll_spec n i Q b, poll_spec n i Q' b with
  | Some (s, x, R), Some (s', x', R') => s = s' /\ x = x' /\ same_queues R R'
  | None, None => True
  | _, _ => False
  end.
Proof.
  intros Hi Hn HQ. revert i Hi Hn. induction n as [|n IH]; intros i Hi Hn; [done|].
  cbn [poll_spec]. rewrite (HQ i) by lia. specialize (IH (i + 1)).
  destruct (Q' i); [apply IH; lia|]. destruct (mem_sig b i); [apply IH; lia|].
  split_and!; auto. intros j Hj. unfold update_queue. destruct (j =? i); [done|by apply HQ].
Qed.

Lemma same_queues_trans Q1 Q2 Q3 : same_queues Q1 Q2 -> same_queues Q2 Q3 -> same_queues Q1 Q3.
Proof. intros H1 H2 j Hj. by rewrite H1, H2. Qed.

Lemma send_total Q s x : 1 <= s <= 63 -> total (send_spec Q s x) <= total Q + 1.
Proof.
  intros Hs. unfold send_spec. destruct (_ && _); [lia|].
  rewrite total_set, zlen_app, zlen_cons, zlen_nil by done. lia.
Qed.

Lemma poll_total n i Q b : 
  1 <= i -> i + Z.of_nat n <= 64 ->
  match poll_spec n i Q b with Some (_, _, Q') => total Q' <= total Q | None => True end.
Proof.
  intros Hi Hn. pose proof (poll_spec_least n i Q b) as Hl.
  destruct (poll_spec n i Q b) as [[[s x] Q']|]; [|done].
  destruct Hl as (l & Hs & HQ & _ & -> & _). rewrite total_set, HQ, zlen_cons by lia. lia.
Qed.

Lemma run_ops_spec junk ops : forall t Q info o,
  thread_ok t -> same_queues (queued t) Q -> Forall op_ok ops -> all_succeed o ->
  sig t + zlen ops < 2 ^ 31 - 1 ->
  run_ops junk ops t info o = Some (run_queues ops Q (sigblocked t) info).
Proof.
  induction ops as [|p ops IH]; intros t Q info o Hok HQ Hops Ho Hlen; [done|].
  apply Forall_cons in Hops as [Hp Hops]. rewrite zlen_cons in Hlen. pose proof (zlen_nonneg ops).
  pose proof (proj2 Hok) as Hsig. destruct p as [s x| |how set]; cbn [run_ops run_queues].
  - destruct (send_signal_thread_spec junk t s x o) as (t' & o' & -> & Ho' & Hok' & <- & HQ'); auto; [lia|].
    orun. apply IH; auto.
    + eapply same_queues_trans; [exact HQ'|]. by apply send_spec_same.
    + rewrite (proj2 Hok'), (total_same _ _ HQ'). pose proof (send_total (queued t) s x Hp). lia.
  - pose proof (poll_thread_spec t info Hok ltac:(lia)) as Hpoll.
    pose proof (poll_spec_same 63 1 (queued t) Q (sigblocked t) ltac:(lia) ltac:(lia) HQ) as Hsame.
    pose proof (poll_total 63 1 (queued t) (sigblocked t) ltac:(lia) ltac:(lia)) as Htot.
    destruct (poll_spec 63 1 (queued t) _) as [[[s x] R]|], (poll_spec 63 1 Q _) as [[[s' x'] R']|]; try done.
    + destruct Hsame as (<- & <- & HR). destruct Hpoll as (_ & t' & -> & Hok' & <- & HQ'). orun.
      rewrite (IH t' R' x o); auto; [by eapply same_queues_trans|].
      rewrite (proj2 Hok'), (total_same _ _ HQ'). lia.
    + rewrite Hpoll. orun. rewrite (IH t Q info o); auto. lia.
  - destruct (mask_thread_spec how set t Hok Hp) as (Hok' & <- & Hs' & HQ').
    apply IH; auto; [by eapply same_queues_trans|]. lia.
Qed.

(** C22: refinement. Whatever sequence of fewer than 2^31 - 1 operations sends the
    signals 1 to 63, polls, and changes the mask on a new thread, the polls answer
    what one queue per signal answers: the least unblocked signal first, standard
    signals queued at most once, real-time signals as often as sent and in the
    order of sending, as long as the memory for the queues can be had.  Signal 64
    is excluded: it has no queue, lemma [last_signal_overruns]. *)
Theorem signal_history junk z ops info o :
  Forall op_ok ops -> all_succeed o -> zlen ops < 2 ^ 31 - 1 ->
  run_ops junk ops (thread0 z) info o = Some (run_queues ops (fun _ => []) 0 info).
Proof.
  intros Hops Ho Hlen. apply run_ops_spec; auto; [apply thread0_ok|].
  intros j Hj. unfold queued. cbn [thread0 sigready rtqueue siginfo].
  destruct (j <? SIGRTMIN); [unfold mem_sig; by rewrite Z.testbit_0_l|].
  destruct (zlookup _ _) eqn:E; [|done]. unfold zlookup in E. destruct (_ <? 0); [done|].
  by apply lookup_replicate in E as [-> _].
Qed.

(** ** Concrete runs *)

Definition info_of (n : Z) : siginfo_t := mk_siginfo n 0x100 0 (kill_data n 0).

Definition demo_ops : list sig_op :=
  [SSend 40 (info_of 1); SSend 10 (info_of 2); SSend 10 (info_of 3); SSend 40 (info_of 4);
   SMask 0 (Z.shiftl 1 54); SPoll; SPoll; SPoll; SMask 2 0; SPoll; SPoll].

Lemma demo_ops_ok : Forall op_ok demo_ops.
Proof. unfold demo_ops. repeat constructor; done. Qed.

Lemma signal_history_witness :
  run_ops (info_of 0) demo_ops (thread0 (info_of 0)) (info_of 0) [] =
  Some [(40, info_of 1); (40, info_of 4); (0, info_of 4); (10, info_of 2); (0, info_of 2)].
Proof.
  rewrite (signal_history (info_of 0) (info_of 0) demo_ops (info_of 0) [] demo_ops_ok).
  - vm_compute. reflexivity.
  - constructor.
  - reflexivity.
Defined.

Definition demo_thread : thread :=
  match send_signal_thread (info_of 0) (thread0 (info_of 0)) 33 (info_of 7) [] with
  | Some (t, _) => t
  | None => thread0 (info_of 0)
  end.

Lemma demo_thread_ok : thread_ok demo_thread.
Proof.
  destruct (send_signal_thread_spec (info_of 0) (thread0 (info_of 0)) 33 (info_of 7) [])
    as (t & o & E & _ & Hok & _); [apply thread0_ok|done|constructor|done|].
  unfold demo_thread. by rewrite E.
Qed.

Lemma poll_signal_correct_witness :
  (s ← fst <$> (fst <$> poll_signal_thread demo_thread (info_of 0)); Some s) = Some 33 /\
  ((exists s t' x l, poll_signal_thread demo_thread (info_of 0) = Some (s, t', x) /\ 1 <= s <= 63 /\
     queued demo_thread s = x :: l /\ mem_sig (sigblocked demo_thread) s = false /\
     (forall j, 1 <= j < s -> queued demo_thread j = [] \/ mem_sig (sigblocked demo_thread) j = true) /\
     thread_ok t' /\ sigblocked t' = sigblocked demo_thread /\ queued t' s = l /\
     forall j, 1 <= j <= 63 -> j <> s -> queued t' j = queued demo_thread j) \/
  (poll_signal_thread demo_thread (info_of 0) = Some (0, demo_thread, info_of 0) /\
   forall j, 1 <= j <= 63 -> queued demo_thread j = [] \/ mem_sig (sigblocked demo_thread) j = true)).
Proof.
  split; [vm_compute; reflexivity|].
  apply (poll_signal_correct demo_thread (info_of 0) demo_thread_ok). reflexivity.
Defined.

(** ** Defects *)

(** The highest signal number has no queue: sending it writes past [rtqueue]. *)
Lemma last_signal_overruns info :
  send_signal_thread info (thread0 info) NSIG info [] = None.
Proof. vm_compute. reflexivity. Qed.

(** After the only queued signal was polled, [sig] is 0 and starting its
    handler shifts by 64. *)
Lemma handler_start_shifts_64 :
  ('(s, t, _) ← poll_signal_thread demo_thread (info_of 0);
   Some (s, poll_signal_handler_thread (set_handler t 4096 0 s 0))) = Some (33, None).
Proof. vm_compute. reflexivity. Qed.

(** With three signals queued, starting the handler of the first resets [sig],
    and the two others are not delivered by any later poll. *)
Lemma handler_start_loses_signals :
  ('(t, _) ← send_signal_thread (info_of 0) demo_thread 1 (info_of 1) [];
   '(t, _) ← send_signal_thread (info_of 0) t 40 (info_of 2) [];
   '(s, t, info) ← poll_signal_thread t (info_of 0);
   '(_, _, _, t) ← poll_signal_handler_thread (set_handler t 4096 0 s 0);
   '(s', t, _) ← poll_signal_thread t info;
   Some (s, s', queued t 33, queued t 40)) = Some (1, 0, [info_of 7], [info_of 2]).
Proof. vm_compute. reflexivity. Qed.

(** A real-time signal that cannot be queued for lack of memory still counts
    in the length of its queue, and polling it reads past the block. *)
Lemma unqueued_realtime_overruns :
  ('(t, _) ← send_signal_thread (info_of 0) demo_thread 33 (info_of 1) [false];
   '(s, t, info) ← poll_signal_thread t (info_of 0);
   Some s) = None.
Proof. vm_compute. reflexivity. Qed.

(** [SIGKILL] can be blocked like any other signal. *)
Lemma sigkill_blocked :
  (let t := (sigprocmask_thread 0 (Some sigfillset) (thread0 (info_of 0))).2 in
   '(t, _) ← send_signal_thread (info_of 0) t 9 (info_of 1) [];
   '(s, _, _) ← poll_signal_thread t (info_of 0);
   Some s) = Some 0.
Proof. vm_compute. reflexivity. Qed.
End Signal.
