(* ===== verification/Wait.v ===== *)
(** * The queue of terminated children (kernel/wait.c, kernel/process.c)

    Module [Wait]: the array of [struct wait_state] of a process as the bytes
    of its heap block, its extension by [process_fill_wait], the search and
    removal of [do_wait], and the status macros of include/pml/wait.h. *)

From S2P Require Import Prelude CBits Hash HashMap.

Module Wait.
Import CBits Hash HashMap.

Abbreviation PROCESS_WAIT_RUNNING := 0.
Abbreviation PROCESS_WAIT_EXITED := 1.
Abbreviation PROCESS_WAIT_SIGNALED := 2.
Abbreviation PROCESS_WAIT_STOPPED := 4.

(** ** Status words *)

Definition WIFEXITED (x : Z) : bool := Z.land x 0xff =? 0.
Definition WIFSIGNALED (x : Z) : bool := (0 <? Z.land x 0x7f) && (Z.land x 0x7f <? 0x7f).
Definition WIFSTOPPED (x : Z) : bool := Z.land x 0xff =? 0x7f.
Definition WEXITSTATUS (x : Z) : Z := Z.land (Z.shiftr x 8) 0xff.
Definition WTERMSIG (x : Z) : Z := Z.land (Z.shiftr x 8) 0x7f.

(** ** Wait states

    The layout of [struct wait_state]: two [int]s, a [struct rusage] of 144
    bytes, two [int]s. *)
Record wait_state := mk_ws {
  w_pid : Z; w_pgid : Z; w_rusage : list Z; w_status : Z; w_code : Z
}.

Abbreviation ws_size := 160.
Abbreviation rusage_size := 144.

Definition enc_int (x : Z) : list Z := le_bytes 4 (u32 x).
Definition dec_int (l : list Z) : Z := s32 (le_val l).

Definition ws_encode (s : wait_state) : list Z :=
  enc_int (w_pid s) ++ enc_int (w_pgid s) ++ w_rusage s ++ enc_int (w_status s) ++ enc_int (w_code s).

Definition ws_decode (l : list Z) : wait_state :=
  mk_ws (dec_int (take 4 l)) (dec_int (take 4 (drop 4 l))) (take 144 (drop 8 l))
    (dec_int (take 4 (drop 152 l))) (dec_int (take 4 (drop 156 l))).

(** [n] bytes at offset [off] of a block. *)
Definition slice (block : list Z) (off n : Z) : option (list Z) :=
  if (0 <=? off) && (0 <=? n) && (off + n <=? zlen block)
  then Some (take (Z.to_nat n) (drop (Z.to_nat off) block)) else None.

(** [len] and the bytes of the block [states]. *)
Record wait_queue := mk_wq { wq_states : list Z; wq_len : Z }.

Definition ws_load (w : wait_queue) (i : Z) : option wait_state :=
  ws_decode <$> slice (wq_states w) (i * ws_size) ws_size.

(** The end of [process_fill_wait]: the new element of the parent's queue;
    [None] includes the panic when the block cannot grow. *)
Definition push_wait (junk : Z) (w : wait_queue) (s : wait_state) (o : mem) :
    option (wait_queue * mem) :=
  let len := u64 (wq_len w + 1) in
  '(ok, o) ← malloc o;
  if negb (ok : bool) then None else
  let size := Z.to_nat (ws_size * len) in
  let states := take size (wq_states w) ++ replicate (size - length (wq_states w)) (u8 junk) in
  states ← blit states (ws_size * (len - 1)) (ws_encode s);
  Some (mk_wq states len, o).

(** The condition of the loop of [do_wait]. *)
Definition wait_matches (pid pgid : Z) (s : wait_state) : bool :=
  negb ((0 <? pid) && negb (w_pid s =? pid)) &&
  negb (w_status s =? PROCESS_WAIT_RUNNING) &&
  negb ((pid =? 0) && negb (w_pgid s =? pgid)).

Definition wait_status (s : wait_state) : Z :=
  let status := Z.shiftl (Z.land (w_code s) 0xff) 8 in
  if w_status s =? PROCESS_WAIT_SIGNALED then Z.lor status 0x01
  else if w_status s =? PROCESS_WAIT_STOPPED then Z.lor status 0x7f
  else status.

(** Removing element [i]; the [memmove] is of [len - i] bytes. *)
Definition remove_wait (w : wait_queue) (i : Z) : option wait_queue :=
  let len := u64 (wq_len w - 1) in
  moved ← slice (wq_states w) ((i + 1) * ws_size) (len - i);
  states ← blit (wq_states w) (i * ws_size) moved;
  Some (mk_wq states len).

(** The returned process ID, what is stored to [status] and [rusage], and the
    queue. [n] is the number of elements left to look at. *)
Fixpoint do_wait_loop (n : nat) (i : Z) (w : wait_queue) (pid pgid : Z) :
    option (Z * option (Z * list Z) * wait_queue) :=
  match n with
  | O => Some (0, None, w)
  | S n =>
      s ← ws_load w i;
      if wait_matches pid pgid s then
        w ← remove_wait w i;
        Some (w_pid s, Some (wait_status s, w_rusage s), w)
      else do_wait_loop n (i + 1) w pid pgid
  end.

(** [pgid] is the process group of the caller. *)
Definition do_wait (w : wait_queue) (pid pgid : Z) : option (Z * option (Z * list Z) * wait_queue) :=
  do_wait_loop (Z.to_nat (wq_len w)) 0 w pid pgid.

(** ** Encoding *)

Definition int_ok (x : Z) : Prop := - 2 ^ 31 <= x < 2 ^ 31.

Definition ws_ok (s : wait_state) : Prop :=
  int_ok (w_pid s) /\ int_ok (w_pgid s) /\ length (w_rusage s) = 144%nat /\
  int_ok (w_status s) /\ int_ok (w_code s).

Lemma enc_int_len x : length (enc_int x) = 4%nat.
Proof. done. Qed.

Lemma le_val_bytes n x : 0 <= x < 256 ^ Z.of_nat n -> le_val (le_bytes n x) = x.
Proof.
  revert x. induction n as [|n IH]; intros x Hx; [simpl in *; lia|].
  cbn [le_bytes le_val]. rewrite Nat2Z.inj_succ, Z.pow_succ_r in Hx by lia.
  rewrite IH; rewrite Z.shiftr_div_pow2 by lia.
  - unfold wrap. change (2 ^ 8) with 256. divlia.
  - change (2 ^ 8) with 256. split; [divlia|]. apply Z.div_lt_upper_bound; lia.
Qed.

Lemma dec_enc_int x : int_ok x -> dec_int (enc_int x) = x.
Proof.
  intros Hx. unfold dec_int, enc_int, int_ok in *.
  rewrite le_val_bytes by (apply (wrap_range 32); lia). unfold swrap, wrap.
  rewrite Z.mod_mod by lia. destruct (Z.ltb_spec (x mod 2 ^ 32) (2 ^ (32 - 1))); divlia.
Qed.

Lemma ws_encode_len s : ws_ok s -> length (ws_encode s) = 160%nat.
Proof. intros (_ & _ & Hr & _). unfold ws_encode. rewrite !length_app, !enc_int_len, Hr. done. Qed.

Lemma ws_decode_encode s : ws_ok s -> ws_decode (ws_encode s) = s.
Proof.
  intros (Hp & Hg & Hr & Hs & Hc). unfold ws_decode, ws_encode.
  destruct s as [p g r st c]; cbn [w_pid w_pgid w_rusage w_status w_code] in *.
  f_equal.
  - by apply dec_enc_int.
  - by apply dec_enc_int.
  - change (drop 8 _) with (r ++ enc_int st ++ enc_int c). by rewrite take_app_length'.
  - change (drop 152 _) with (drop 144 (r ++ enc_int st ++ enc_int c)).
    rewrite drop_app_length' by done. by apply dec_enc_int.
  - change (drop 156 _) with (drop 148 (r ++ enc_int st ++ enc_int c)).
    rewrite drop_app_ge by lia. rewrite Hr. by apply dec_enc_int.
Qed.

(** ** The queue as a list

    The used part of the block holds the states one after the other. *)
Definition wait_ok (w : wait_queue) (l : list wait_state) : Prop :=
  Forall ws_ok l /\ wq_len w = zlen l /\ zlen l < 2 ^ 32 /\
  exists slack, wq_states w = concat (ws_encode <$> l) ++ slack.

Lemma concat_encode_len l : Forall ws_ok l -> zlen (concat (ws_encode <$> l)) = ws_size * zlen l.
Proof.
  induction 1 as [|s l Hs _ IH]; [done|]. rewrite fmap_cons, zlen_cons. cbn [concat].
  rewrite zlen_app, IH. unfold zlen at 1. rewrite ws_encode_len by done. lia.
Qed.

Lemma ws_load_spec w l i s :
  wait_ok w l -> l !! i = Some s -> ws_load w (Z.of_nat i) = Some s.
Proof.
  intros (Hok & _ & _ & slack & Hst) Hi. unfold ws_load, slice. rewrite Hst.
  rewrite <- (take_drop_middle l i s Hi) in Hok |- *.
  apply Forall_app in Hok as [Hok1 Hok2]. apply Forall_cons in Hok2 as [Hs Hok2].
  set (l1 := take i l) in *. set (l2 := drop (S i) l) in *.
  assert (length l1 = i) as Hl1.
  { unfold l1. rewrite length_take. apply lookup_lt_Some in Hi. lia. }
  rewrite fmap_app, fmap_cons, concat_app. cbn [concat]. rewrite <- !app_assoc.
  pose proof (concat_encode_len l1 Hok1) as Hc1. pose proof (ws_encode_len s Hs) as Hc.
  set (A := concat (ws_encode <$> l1)) in *. set (E := ws_encode s) in *.
  assert (zlen l1 = Z.of_nat i) by (unfold zlen; lia).
  assert (Hb : (0 <=? Z.of_nat i * ws_size) && (0 <=? ws_size) && (Z.of_nat i * ws_size + ws_size <=?
    zlen (A ++ E ++ concat (ws_encode <$> l2) ++ slack)) = true).
  { rewrite !zlen_app. pose proof (zlen_nonneg (concat (ws_encode <$> l2))). pose proof (zlen_nonneg slack).
    assert (zlen E = 160) by (unfold zlen; lia).
    rewrite !andb_true_iff, !Z.leb_le. lia. }
  rewrite Hb. cbn [fmap option_fmap option_map]. f_equal.
  rewrite drop_app_length' by (unfold zlen in *; lia).
  rewrite take_app_length' by lia. by apply ws_decode_encode.
Qed.

(** The list is determined by the queue. *)
Lemma wait_ok_inj w l1 l2 : wait_ok w l1 -> wait_ok w l2 -> l1 = l2.
Proof.
  intros H1 H2. assert (length l1 = length l2) as Hl.
  { destruct H1 as (_ & E1 & _), H2 as (_ & E2 & _). unfold zlen in *. lia. }
  apply list_eq. intros i. destruct (l1 !! i) as [s1|] eqn:E1.
  - destruct (lookup_lt_is_Some_2 l2 i) as [s2 E2]; [rewrite <- Hl; by eapply lookup_lt_Some|].
    rewrite E2. pose proof (ws_load_spec w l1 i s1 H1 E1). pose proof (ws_load_spec w l2 i s2 H2 E2). congruence.
  - symmetry. apply lookup_ge_None. rewrite <- Hl. by apply lookup_ge_None.
Qed.

(** A new state is added at the end. *)
Lemma push_wait_spec junk w l s o :
  wait_ok w l -> ws_ok s -> all_succeed o -> zlen l + 1 < 2 ^ 32 ->
  exists w' o', push_wait junk w s o = Some (w', o') /\ all_succeed o' /\ wait_ok w' (l ++ [s]).
Proof.
  intros (Hok & Hlen & Hl & slack & Hst) Hs Ho Hmax. unfold push_wait.
  destruct (malloc_succeeds 0 o) as (o1 & -> & _ & Hm); [by apply Forall_take|]. orun. cbn [negb].
  pose proof (zlen_nonneg l). rewrite Hlen, (wrap_small 64 (zlen l + 1)) by lia.
  set (size := Z.to_nat _). set (block := take size (wq_states w) ++ _).
  assert (Hbl : zlen block = ws_size * (zlen l + 1)).
  { unfold block, size, zlen. rewrite length_app, length_take, length_replicate. lia. }
  pose proof (concat_encode_len l Hok) as Hc.
  assert (zlen (ws_encode s) = 160) as Hes by (unfold zlen; rewrite ws_encode_len; done).
  destruct (blit_spec block (ws_size * (zlen l + 1 - 1)) (ws_encode s)) as (b' & -> & Hb' & Ht); [lia..|]. orun.
  eexists _, o1. split; [done|]. split; [auto|].
  split; [apply Forall_app; by split; [|constructor]|]. rewrite zlen_app, zlen_cons, zlen_nil.
  split; [done|]. split; [lia|]. exists []. cbn [wq_states].
  rewrite app_nil_r, fmap_app, concat_app. cbn [fmap list_fmap concat]. rewrite app_nil_r.
  rewrite take_ge in Ht by (unfold zlen in *; lia). rewrite Ht. f_equal.
  replace (zlen l + 1 - 1) with (zlen l) by lia.
  unfold block. rewrite Hst. unfold zlen in Hc |- *.
  rewrite take_app_le by (rewrite length_take, length_app; unfold size, zlen; lia).
  rewrite take_take, take_app_le by (unfold size, zlen; lia). apply take_ge. unfold size, zlen. lia.
Qed.

(** Removing the last state leaves the others. *)
Lemma remove_last_spec w l s :
  wait_ok w (l ++ [s]) -> exists w', remove_wait w (zlen l) = Some w' /\ wait_ok w' l.
Proof.
  intros (Hok & Hlen & Hl & slack & Hst). rewrite zlen_app, zlen_cons, zlen_nil in *.
  pose proof (concat_encode_len _ Hok) as Hc. rewrite zlen_app, zlen_cons, zlen_nil in Hc.
  pose proof (zlen_nonneg l). pose proof (zlen_nonneg slack).
  unfold remove_wait. rewrite Hlen, wrap_small by lia.
  replace (zlen l + (1 + 0) - 1 - zlen l) with 0 by lia. unfold slice.
  assert (zlen (wq_states w) = ws_size * (zlen l + 1) + zlen slack) as Hz by (rewrite Hst, zlen_app; lia).
  rewrite Hz.
  destruct (Z.leb_spec 0 ((zlen l + 1) * ws_size)); [|lia].
  destruct (Z.leb_spec ((zlen l + 1) * ws_size + 0) (ws_size * (zlen l + 1) + zlen slack)); [|lia].
  change (true && (0 <=? 0) && true) with true. change (Z.to_nat 0) with 0%nat. cbv iota.
  rewrite take_0. orun. unfold blit. rewrite Hz. change (zlen []) with 0.
  destruct (Z.leb_spec 0 (zlen l * ws_size)); [|lia].
  destruct (Z.leb_spec (zlen l * ws_size + 0) (ws_size * (zlen l + 1) + zlen slack)); [|lia].
  cbn [andb]. orun. rewrite Z.add_0_r, app_nil_l, take_drop.
  eexists. split; [done|]. apply Forall_app in Hok as [Hok _].
  split; [done|]. split; [simpl; lia|]. split; [lia|].
  exists (ws_encode s ++ slack). cbn [wq_states]. rewrite Hst, fmap_app, concat_app.
  cbn [fmap list_fmap concat]. by rewrite app_nil_r, <- app_assoc.
Qed.

(** The search stops at the first state that matches. *)
Lemma do_wait_loop_spec w l pid pgid n i :
  wait_ok w l -> (i + n = length l)%nat ->
  do_wait_loop n (Z.of_nat i) w pid pgid =
  match list_find (fun s => wait_matches pid pgid s = true) (drop i l) with
  | Some (k, s) => w ← remove_wait w (Z.of_nat (i + k)); Some (w_pid s, Some (wait_status s, w_rusage s), w)
  | None => Some (0, None, w)
  end.
Proof.
  intros Hok. revert i. induction n as [|n IH]; intros i Hn; cbn [do_wait_loop].
  - by rewrite drop_ge by lia.
  - destruct (lookup_lt_is_Some_2 l i) as [s Hs]; [lia|].
    rewrite (ws_load_spec w l i s Hok Hs). orun. rewrite (drop_S l s i Hs). cbn [list_find].
    destruct (wait_matches pid pgid s) eqn:E.
    + rewrite decide_True by done. by rewrite Nat.add_0_r.
    + rewrite decide_False by done. replace (Z.of_nat i + 1) with (Z.of_nat (S i)) by lia.
      rewrite IH by lia. destruct (list_find _ (drop (S i) l)) as [[k s']|]; [|done].
      cbn [fmap option_fmap option_map prod_map fst snd]. unfold prod_map. simpl.
      by replace (i + S k)%nat with (S (i + k)) by lia.
Qed.

Lemma blit_split (b : list Z) off (data : list Z) :
  0 <= off -> off + zlen data <= zlen b ->
  exists b', blit b off data = Some b' /\ zlen b' = zlen b /\
    take (Z.to_nat off) b' = take (Z.to_nat off) b /\
    take (length data) (drop (Z.to_nat off) b') = data /\
    drop (Z.to_nat off + length data) b' = drop (Z.to_nat off + length data) b.
Proof.
  intros Ho Hl. unfold blit. rewrite (proj2 (Z.leb_le _ _) Ho), (proj2 (Z.leb_le _ _) Hl). cbn [andb].
  eexists. split; [done|]. replace (Z.to_nat (off + zlen data)) with (Z.to_nat off + length data)%nat
    by (unfold zlen in *; lia).
  unfold zlen in *. assert (length (take (Z.to_nat off) b) = Z.to_nat off) as Ht by (rewrite length_take; lia).
  split_and!.
  - rewrite !length_app, length_drop, Ht. lia.
  - rewrite take_app_length' by done. done.
  - by rewrite drop_app_length', take_app_length' by done.
  - rewrite app_assoc, drop_app_length'; [done|]. rewrite length_app. lia.
Qed.

(** Taking state [k] of [n] keeps the states in front of it and copies the
    [n - 1 - k] bytes that follow it over its first bytes. *)
Definition removed (w w' : wait_queue) (n k : nat) : Prop :=
  let off := (160 * k)%nat in
  let cnt := (n - 1 - k)%nat in
  wq_len w' = Z.of_nat n - 1 /\
  take off (wq_states w') = take off (wq_states w) /\
  take cnt (drop off (wq_states w')) = take cnt (drop (off + 160) (wq_states w)) /\
  drop (off + cnt) (wq_states w') = drop (off + cnt) (wq_states w).

Lemma remove_wait_total w l k :
  wait_ok w l -> (k < length l)%nat ->
  exists w', remove_wait w (Z.of_nat k) = Some w' /\ removed w w' (length l) k /\
    zlen (wq_states w') = zlen (wq_states w).
Proof.
  intros (Hok & Hlen & Hl & slack & Hst) Hk. pose proof (concat_encode_len _ Hok) as Hc.
  unfold remove_wait, slice. pose proof (zlen_nonneg slack).
  assert (zlen (wq_states w) = ws_size * zlen l + zlen slack) as Hz by (rewrite Hst, zlen_app; lia).
  rewrite Hlen, wrap_small by (unfold zlen in *; lia). rewrite Hz.
  rewrite (proj2 (Z.leb_le 0 _)), (proj2 (Z.leb_le 0 (zlen l - 1 - _))), (proj2 (Z.leb_le (_ + _) _))
    by (unfold zlen in *; lia).
  cbn [andb]. orun. set (moved := take _ _).
  assert (length moved = (length l - 1 - k)%nat) as Hm.
  { unfold moved, zlen. rewrite length_take, length_drop. unfold zlen in *. lia. }
  destruct (blit_split (wq_states w) (Z.of_nat k * ws_size) moved) as (b' & -> & Hb & H1 & H2 & H3);
    [lia|unfold zlen in *; lia|]. orun. eexists. split; [done|]. split; [|cbn [wq_states]; lia].
  unfold removed. cbn [wq_states wq_len]. rewrite Hm in H2, H3.
  replace (Z.to_nat (Z.of_nat k * ws_size)) with (160 * k)%nat in * by lia.
  split_and!; auto. rewrite H2. unfold moved.
  replace (Z.to_nat (zlen l - 1 - Z.of_nat k)) with (length l - 1 - k)%nat by (unfold zlen; lia).
  by replace (Z.to_nat ((Z.of_nat k + 1) * ws_size)) with (160 * k + 160)%nat by lia.
Qed.

Lemma load_prefix w w' i k :
  zlen (wq_states w') = zlen (wq_states w) -> (i < k)%nat ->
  take (160 * k) (wq_states w') = take (160 * k) (wq_states w) ->
  ws_load w' (Z.of_nat i) = ws_load w (Z.of_nat i).
Proof.
  intros Hz Hi Ht. unfold ws_load, slice. rewrite Hz. destruct (_ && _); [|done].
  cbn [fmap option_fmap option_map]. do 2 f_equal.
  assert (forall b : list Z, take (Z.to_nat 160) (drop (Z.to_nat (Z.of_nat i * 160)) b) =
    take (Z.to_nat 160) (drop (Z.to_nat (Z.of_nat i * 160)) (take (160 * k) b))) as E.
  { intros b. rewrite skipn_firstn_comm, take_take. f_equal. lia. }
  by rewrite E, (E (wq_states w)), Ht.
Qed.

Lemma do_wait_find w l pid pgid :
  wait_ok w l ->
  do_wait w pid pgid =
  match list_find (fun s => wait_matches pid pgid s = true) l with
  | Some (k, s) => w ← remove_wait w (Z.of_nat k); Some (w_pid s, Some (wait_status s, w_rusage s), w)
  | None => Some (0, None, w)
  end.
Proof.
  intros Hok. unfold do_wait. pose proof Hok as (_ & -> & _).
  replace (Z.to_nat (zlen l)) with (length l) by (unfold zlen; lia).
  change 0 with (Z.of_nat 0) at 1.
  rewrite (do_wait_loop_spec w l pid pgid (length l) 0 Hok) by lia. by rewrite drop_0.
Qed.

(** [do_wait] never reads outside of the queue: it returns 0 and changes
    nothing when no terminated child fits the request, and otherwise reports
    the first one that does. When that one is the last of the queue the other
    states stay as they are. *)
Theorem do_wait_correct w l pid pgid :
  wait_ok w l ->
  (Forall (fun s => wait_matches pid pgid s = false) l /\ do_wait w pid pgid = Some (0, None, w)) \/
  exists k s w', l !! k = Some s /\ wait_matches pid pgid s = true /\
    Forall (fun s => wait_matches pid pgid s = false) (take k l) /\
    do_wait w pid pgid = Some (w_pid s, Some (wait_status s, w_rusage s), w') /\
    (length l = S k -> wait_ok w' (take k l)).
Proof.
  intros Hok. rewrite (do_wait_find w l pid pgid Hok).
  destruct (list_find _ l) as [[k s]|] eqn:E.
  - right. apply list_find_Some in E as (Hk & Hm & Hmin). exists k, s.
    destruct (remove_wait_total w l k Hok) as (w' & Hw' & _); [by eapply lookup_lt_Some|].
    exists w'. rewrite Hw'. split_and!; auto.
    + apply Forall_lookup_2. intros j x Hx. apply lookup_take_Some in Hx as [Hx Hj].
      apply not_true_is_false. by eapply Hmin.
    + intros Hlast. pose proof Hok as Hok2. rewrite <- (take_drop_middle l k s Hk) in Hok2.
      rewrite (drop_ge l) in Hok2 by lia. apply remove_last_spec in Hok2 as (w2 & Hr & Hw2).
      replace (zlen (take k l)) with (Z.of_nat k) in Hr; [by simplify_eq|].
      unfold zlen. rewrite length_take. lia.
  - left. split; [|done]. apply list_find_None in E. apply (Forall_impl _ _ _ E).
    intros x. apply not_true_is_false.
Qed.

Lemma shl8_low c m : 0 <= m < 256 -> Z.land (Z.lor (Z.shiftl (Z.land c 0xff) 8) m) 0xff = m.
Proof.
  intros Hm. change 0xff with (Z.ones 8). bitwise i Hi. rewrite !Z.testbit_ones by lia.
  zcases; try lia; simpl; rewrite ?andb_true_r, ?andb_false_r; auto;
    symmetry; (apply (testbit_high 8); [done|lia]).
Qed.

Lemma shl8_low7 c m :
  0 <= m < 256 -> Z.land (Z.lor (Z.shiftl (Z.land c 0xff) 8) m) 0x7f = Z.land m 0x7f.
Proof.
  intros Hm. rewrite <- (shl8_low c m Hm) at 2. rewrite <- (Z.land_assoc _ 0xff 0x7f). done.
Qed.

Lemma shl8_high c m :
  0 <= m < 256 -> Z.shiftr (Z.lor (Z.shiftl (Z.land c 0xff) 8) m) 8 = Z.land c 0xff.
Proof.
  intros Hm. bitwise i Hi. replace (i + 8 - 8) with i by lia.
  rewrite (testbit_high 8 m) by (done || lia). by rewrite orb_false_r.
Qed.

(** How the status word of a wait tells the end of a child. *)
Definition decodes (st : Z) (s : wait_state) : Prop :=
  (w_status s = PROCESS_WAIT_EXITED ->
     WIFEXITED st = true /\ WIFSIGNALED st = false /\ WEXITSTATUS st = w_code s mod 256) /\
  (w_status s = PROCESS_WAIT_SIGNALED -> 1 <= w_code s <= 64 ->
     WIFSIGNALED st = true /\ WIFEXITED st = false /\ WTERMSIG st = w_code s).

Lemma wait_status_decodes s : decodes (wait_status s) s.
Proof.
  unfold decodes, wait_status. split.
  - intros ->. simpl. rewrite <- (Z.lor_0_r (Z.shiftl _ 8)).
    unfold WIFEXITED, WIFSIGNALED, WEXITSTATUS. rewrite shl8_low, shl8_high, shl8_low7 by lia.
    rewrite <- (Z.land_assoc _ 255 255). change (Z.land 255 255) with (Z.ones 8).
    by rewrite Z.land_ones by lia.
  - intros -> Hc. simpl. unfold WIFEXITED, WIFSIGNALED, WTERMSIG. rewrite shl8_low, shl8_high by lia.
    split; [|split; [done|]].
    + by rewrite shl8_low7 by lia.
    + rewrite <- Z.land_assoc. change (Z.land 255 127) with (Z.ones 7).
      rewrite Z.land_ones by lia. apply Z.mod_small. lia.
Qed.

(** The ends of several children, one after the other. *)
Fixpoint push_all (junk : Z) (w : wait_queue) (l : list wait_state) (o : mem) : option (wait_queue * mem) :=
  match l with
  | [] => Some (w, o)
  | s :: l => '(w, o) ← push_wait junk w s o; push_all junk w l o
  end.

Lemma push_all_spec junk w l0 l o :
  wait_ok w l0 -> Forall ws_ok l -> all_succeed o -> zlen l0 + zlen l < 2 ^ 32 ->
  exists w' o', push_all junk w l o = Some (w', o') /\ wait_ok w' (l0 ++ l).
Proof.
  intros Hw Hl. revert w l0 o Hw. induction Hl as [|s l Hs Hl IH]; intros w l0 o Hw Ho Hmax.
  { exists w, o. by rewrite app_nil_r. }
  rewrite zlen_cons in Hmax. pose proof (zlen_nonneg l).
  destruct (push_wait_spec junk w l0 s o Hw Hs Ho) as (w1 & o1 & Hp & Ho1 & Hw1); [lia|].
  cbn [push_all]. rewrite Hp. orun.
  destruct (IH w1 (l0 ++ [s]) o1 Hw1 Ho1) as (w' & o' & -> & Hw'); [rewrite zlen_app, zlen_cons, zlen_nil; lia|].
  exists w', o'. split; [done|]. by rewrite <- app_assoc in Hw'.
Qed.

Lemma empty_ok : wait_ok (mk_wq [] 0) [].
Proof. split; [constructor|]. split; [done|]. split; [done|]. by exists []. Qed.

(** C25: the way from terminating children to their parent.  After any children
    have ended, in any order and each leaving its wait state, and while memory for
    the queue can be had, the next wait returns 0 and changes nothing when no
    state fits the request; otherwise it returns the process ID, the resource
    usage and a status word that decodes to the end of the first child that fits,
    keeps the states in front of it, and, when it was the last one, leaves exactly
    the others.  What is behind it does not move up as a whole: only as many
    bytes as there are states are copied ([removed], [second_wait_corrupt]), so
    nothing is claimed about a wait after that. *)
Theorem exit_wait_roundtrip junk l pid pgid o :
  Forall ws_ok l -> all_succeed o -> zlen l < 2 ^ 32 ->
  exists w o', push_all junk (mk_wq [] 0) l o = Some (w, o') /\
  match list_find (fun s => wait_matches pid pgid s = true) l with
  | None => do_wait w pid pgid = Some (0, None, w)
  | Some (k, s) => exists st w',
      do_wait w pid pgid = Some (w_pid s, Some (st, w_rusage s), w') /\ decodes st s /\
      (forall i x, (i < k)%nat -> l !! i = Some x -> ws_load w' (Z.of_nat i) = Some x) /\
      removed w w' (length l) k /\
      (length l = S k -> wait_ok w' (take k l))
  end.
Proof.
  intros Hl Ho Hmax.
  destruct (push_all_spec junk (mk_wq [] 0) [] l o empty_ok Hl Ho) as (w & o' & Hp & Hw); [done|].
  simpl app in Hw. exists w, o'. split; [done|]. rewrite (do_wait_find w l pid pgid Hw).
  destruct (list_find _ l) as [[k s]|] eqn:E; [|done].
  apply list_find_Some in E as (Hk & Hm & _).
  destruct (remove_wait_total w l k Hw) as (w' & Hr & Hrem & Hz); [by eapply lookup_lt_Some|].
  rewrite Hr. exists (wait_status s), w'. split_and!; auto using wait_status_decodes.
  - intros i x Hi Hx. rewrite (load_prefix w w' i k Hz Hi); [by eapply ws_load_spec|apply Hrem].
  - intros Hlast. rewrite <- (take_drop_middle l k s Hk), (drop_ge l) in Hw by lia.
    apply remove_last_spec in Hw as (w2 & Hr2 & Hw2).
    replace (zlen (take k l)) with (Z.of_nat k) in Hr2; [by simplify_eq|].
    unfold zlen. rewrite length_take. lia.
Qed.

(** ** Concrete runs *)

Definition demo_state (pid mode code : Z) : wait_state :=
  mk_ws pid 5 (replicate 144 0) mode code.
Definition demo_empty : wait_queue := mk_wq [] 0.

Lemma demo_empty_ok : wait_ok demo_empty [].
Proof. exact empty_ok. Qed.

Definition demo_wait : wait_queue := mk_wq (ws_encode (demo_state 12 PROCESS_WAIT_SIGNALED 9)) 1.

Lemma demo_wait_ok : wait_ok demo_wait [demo_state 12 PROCESS_WAIT_SIGNALED 9].
Proof.
  split; [constructor; [unfold ws_ok; split_and!; done|constructor]|].
  split; [done|]. split; [done|]. by exists [].
Qed.

Lemma exit_wait_roundtrip_witness :
  let l := [demo_state 12 PROCESS_WAIT_SIGNALED 9; demo_state 300 PROCESS_WAIT_EXITED 3;
            demo_state 513 PROCESS_WAIT_EXITED 4] in
  exists w o', push_all 0 demo_empty l [] = Some (w, o') /\
  exists st w', do_wait w 300 5 = Some (300, Some (st, replicate 144 0), w') /\
    decodes st (demo_state 300 PROCESS_WAIT_EXITED 3) /\
    (forall i x, (i < 1)%nat -> l !! i = Some x -> ws_load w' (Z.of_nat i) = Some x) /\
    removed w w' 3 1 /\ (3%nat = 2%nat -> wait_ok w' (take 1 l)).
Proof.
  apply (exit_wait_roundtrip 0 [demo_state 12 PROCESS_WAIT_SIGNALED 9;
    demo_state 300 PROCESS_WAIT_EXITED 3; demo_state 513 PROCESS_WAIT_EXITED 4] 300 5 []).
  - repeat (constructor; [unfold ws_ok; split_and!; done|]). constructor.
  - constructor.
  - reflexivity.
Defined.

Lemma do_wait_correct_witness :
  let l := [demo_state 12 PROCESS_WAIT_SIGNALED 9] in
  fst <$> (fst <$> do_wait demo_wait 0 5) = Some 12 /\
  ((Forall (fun s => wait_matches 0 5 s = false) l /\ do_wait demo_wait 0 5 = Some (0, None, demo_wait)) \/
  exists k s w', l !! k = Some s /\ wait_matches 0 5 s = true /\
    Forall (fun s => wait_matches 0 5 s = false) (take k l) /\
    do_wait demo_wait 0 5 = Some (w_pid s, Some (wait_status s, w_rusage s), w') /\
    (length l = S k -> wait_ok w' (take k l))).
Proof. split; [reflexivity|]. apply (do_wait_correct demo_wait _ 0 5 demo_wait_ok). Defined.

(** ** Defects *)

(** The [memmove] counts bytes where it should count states: after the first
    of two states is taken, the other one is returned with a process ID mixed
    from both (513 and 300 give 257). *)
Lemma second_wait_corrupt :
  ('(w, o) ← push_wait 0 demo_empty (demo_state 300 PROCESS_WAIT_EXITED 1) [];
   '(w, o) ← push_wait 0 w (demo_state 513 PROCESS_WAIT_EXITED 2) o;
   '(p1, _, w) ← do_wait w (-1) 5;
   '(p2, _, w) ← do_wait w (-1) 5;
   Some (p1, p2)) = Some (300, 257).
Proof. vm_compute. reflexivity. Qed.
End Wait.
