(* ===== verification/ProcCtl.v ===== *)
(** * Processes and their signals (kernel/signal.c, kernel/process.c,
      kernel/wait.c, arch/x86_64/exit.c)

    Module [ProcCtl]: the queue of processes, the choice of a receiving thread,
    the disposition of a signal, the signal system calls, and what a
    terminating process leaves to its parent. The process table is the one of
    [Pid], over any map of the class [KernelMap]; the threads are those of
    [Signal] and the wait queues those of [Wait]. *)

From S2P Require Import Prelude CBits Hash HashMap Pid Signal Wait.

Module ProcCtl.
Import CBits HashMap Signal Wait.

Abbreviation SIGHUP := 1.
Abbreviation SIGKILL := 9.
Abbreviation SIGCHLD := 17.
Abbreviation SIGSTOP := 19.
Abbreviation SIG_DFL := 0.
Abbreviation SIG_IGN := 1.
Abbreviation SA_SIGINFO := 4.
Abbreviation SI_USER := 0x100.
Abbreviation CLD_KILLED := 0x701.
Abbreviation WNOHANG := 1.

Record sigaction := mk_sigaction { sa_handler : Z; sa_sigaction : Z; sa_flags : Z; sa_mask : Z }.

Record process := mk_proc {
  pid : Z; ppid : Z; pgid : Z; uid : Z; euid : Z;
  threads : list thread;
  tfront : Z;
  children : list Z;
  waits : wait_queue;
  self_rusage : list Z;
  sighandlers : list sigaction
}.

Definition set_threads (p : process) (x : list thread) : process :=
  mk_proc (pid p) (ppid p) (pgid p) (uid p) (euid p) x (tfront p) (children p) (waits p)
    (self_rusage p) (sighandlers p).
Definition set_ppid (p : process) (x : Z) : process :=
  mk_proc (pid p) x (pgid p) (uid p) (euid p) (threads p) (tfront p) (children p) (waits p)
    (self_rusage p) (sighandlers p).
Definition set_children (p : process) (x : list Z) : process :=
  mk_proc (pid p) (ppid p) (pgid p) (uid p) (euid p) (threads p) (tfront p) x (waits p)
    (self_rusage p) (sighandlers p).
Definition set_waits (p : process) (x : wait_queue) : process :=
  mk_proc (pid p) (ppid p) (pgid p) (uid p) (euid p) (threads p) (tfront p) (children p) x
    (self_rusage p) (sighandlers p).
Definition set_sighandlers (p : process) (x : list sigaction) : process :=
  mk_proc (pid p) (ppid p) (pgid p) (uid p) (euid p) (threads p) (tfront p) (children p) (waits p)
    (self_rusage p) x.

Section ops.
Context {T : Type} `{KernelMap T} (junk : siginfo_t) (junk_byte : Z).

(** The process structures by address, the process queue, and the variables
    shared with the scheduler. *)
Record sys := mk_sys {
  procs : gmap Z process;
  queue : list Z;
  front : Z;
  pids : Pid.pid_state T;
  siginfo_vma : siginfo_t;
  exit_process : Z;
  exit_status : Z;
  oracle : mem
}.

Definition set_procs (s : sys) (x : gmap Z process) : sys :=
  mk_sys x (queue s) (front s) (pids s) (siginfo_vma s) (exit_process s) (exit_status s) (oracle s).
Definition set_queue (s : sys) (x : list Z) (f : Z) : sys :=
  mk_sys (procs s) x f (pids s) (siginfo_vma s) (exit_process s) (exit_status s) (oracle s).
Definition set_pids (s : sys) (x : Pid.pid_state T) : sys :=
  mk_sys (procs s) (queue s) (front s) x (siginfo_vma s) (exit_process s) (exit_status s) (oracle s).
Definition set_siginfo_vma (s : sys) (x : siginfo_t) : sys :=
  mk_sys (procs s) (queue s) (front s) (pids s) x (exit_process s) (exit_status s) (oracle s).
Definition set_exit (s : sys) (p st : Z) : sys :=
  mk_sys (procs s) (queue s) (front s) (pids s) (siginfo_vma s) p st (oracle s).
Definition set_oracle (s : sys) (x : mem) : sys :=
  mk_sys (procs s) (queue s) (front s) (pids s) (siginfo_vma s) (exit_process s) (exit_status s) x.

Definition get_proc (a : Z) : M sys process := fun s =>
  match procs s !! a with Some p => Some (p, s) | None => None end.
Definition put_proc (a : Z) (p : process) : M sys unit := modify (fun s => set_procs s (<[a := p]> (procs s))).
Definition this_process : M sys Z := fun s =>
  match (queue s).[front s] with Some a => Some (a, s) | None => None end.
Definition lookup_pid (i : Z) : M sys Z := fun s =>
  match Pid.lookup_pid (pids s) i with Some a => Some (a, s) | None => None end.
(** Runs allocating code on the allocator of the system. *)
Definition with_oracle {A} (f : mem -> option (A * mem)) : M sys A := fun s =>
  match f (oracle s) with Some (a, o) => Some (a, set_oracle s o) | None => None end.

(** [THIS_THREAD] *)
Definition this_thread : M sys thread :=
  a ← this_process; p ← get_proc a; lift ((threads p).[tfront p]).
Definition put_this_thread (t : thread) : M sys unit :=
  a ← this_process; p ← get_proc a;
  ts ← lift ((threads p).[tfront p <- t]);
  put_proc a (set_threads p ts).

(** ** Sending signals *)

(** A loop over the threads that stops at the first that fits. *)
Fixpoint find_thread (cond : thread -> option bool) (ts : list thread) : option (option nat) :=
  match ts with
  | [] => Some None
  | t :: ts =>
      b ← cond t;
      if b : bool then Some (Some O)
      else r ← find_thread cond ts; Some (option_map S r)
  end.

Definition runs_pending_blocked (s : Z) (t : thread) : option bool :=
  if negb (running t) then Some false else
  p ← sigismember (sigpending t) s;
  if p : bool then Some false else sigismember (sigblocked t) s.

Definition runs_not_pending (s : Z) (t : thread) : option bool :=
  if negb (running t) then Some false else
  p ← sigismember (sigpending t) s; Some (negb p).

Definition pick_thread (s : Z) (ts : list thread) : option nat :=
  k ← find_thread (runs_pending_blocked s) ts;
  match k with Some k => Some k | None =>
    k ← find_thread (runs_not_pending s) ts;
    match k with Some k => Some k | None =>
      k ← find_thread (fun t => Some (running t)) ts;
      Some (default O k)
    end
  end.

Definition send_signal (a s : Z) (info : siginfo_t) : M sys unit :=
  p ← get_proc a;
  k ← lift (pick_thread s (threads p));
  t ← lift (threads p !! k);
  t ← with_oracle (send_signal_thread junk t s info);
  put_proc a (set_threads p (<[k := t]> (threads p))).

(** The loop over [process_queue] of [sys_kill] and [sys_killpg]. *)
Fixpoint kill_each (sel : Z -> process -> bool) (kill : Z -> M sys (res Z)) (addrs : list Z) :
    M sys (res Z) :=
  match addrs with
  | [] => mret (Ok 0)
  | a :: addrs =>
      p ← get_proc a;
      if sel a p then
        r ← kill (pid p);
        match r with Err e => mret (Err e) | Ok _ => kill_each sel kill addrs end
      else kill_each sel kill addrs
  end.

Definition killpg_with (kill : Z -> M sys (res Z)) (pgrp : Z) : M sys (res Z) :=
  q ← gets queue;
  kill_each (fun _ p => (pgid p =? pgrp) && (1 <? pid p)) kill (drop 1 q).

(** [fuel] bounds the nesting of calls; the calls made by the loops are on
    process IDs and do not nest further. *)
Fixpoint sys_kill (fuel : nat) (i s : Z) : M sys (res Z) :=
  match fuel with
  | O => fault
  | S fuel =>
      if (s <? 0) || (NSIG <? s) then mret (Err EINVAL)
      else if s =? 0 then
        a ← lookup_pid i;
        mret (if a =? 0 then Err ESRCH else Ok 0)
      else if i =? -1 then
        this ← this_process;
        q ← gets queue;
        kill_each (fun a p => truthy (euid p) && negb (a =? this)) (fun i => sys_kill fuel i s) (drop 1 q)
      else if i =? 0 then
        this ← this_process; p ← get_proc this;
        killpg_with (fun i => sys_kill fuel i s) (pgid p)
      else if i <? 0 then killpg_with (fun i => sys_kill fuel i s) (s32 (- i))
      else
        a ← lookup_pid i;
        if a =? 0 then mret (Err ESRCH) else
        this ← this_process; me ← get_proc this;
        p ← get_proc a;
        if truthy (euid me) && negb (euid me =? euid p) then mret (Err EPERM) else
        _ ← send_signal a s (mk_siginfo s SI_USER 0 (kill_data (pid me) (uid me)));
        mret (Ok 0)
  end.

Definition sys_killpg (fuel : nat) (pgrp s : Z) : M sys (res Z) :=
  killpg_with (fun i => sys_kill fuel i s) pgrp.

(** ** Termination *)

Definition process_fill_wait (a mode status : Z) : M sys unit :=
  p ← get_proc a;
  parent ← lookup_pid (ppid p);
  if parent =? 0 then mret tt else
  pp ← get_proc parent;
  this ← this_process; me ← get_proc this;
  w ← with_oracle (push_wait junk_byte (waits pp)
        (mk_ws (pid p) (pgid pp) (self_rusage me) mode status));
  put_proc parent (set_waits pp w).

(** The state in which [process_kill] yields the processor for good. *)
Definition process_kill (mode status : Z) : M sys unit :=
  this ← this_process;
  _ ← process_fill_wait this mode status;
  f ← gets front;
  modify (fun s => set_exit s f (if mode =? PROCESS_WAIT_EXITED then status else Z.lor status 0x80)).

Definition sys_exit (status : Z) : M sys unit := process_kill PROCESS_WAIT_EXITED status.

(** [convert_time] of the [struct timeval] at an offset of a [struct rusage]. *)
Definition convert_time (ru : list Z) (off : Z) : option Z :=
  sec ← Hash.load_le 8 ru off;
  usec ← Hash.load_le 8 ru (off + 8);
  Some (s64 (s64 sec * 1000000 + s64 usec)).

(** ** Handling signals *)

Definition terminates_by_default (s : Z) : bool :=
  bool_decide (s ∈ [1; 2; 3; 4; 5; 6; 7; 8; 10; 11; 12; 13; 14; 15; 16; 24; 25; 26; 27; 29; 30; 31]).
Definition stops_by_default (s : Z) : bool := bool_decide (s ∈ [20; 21; 22]).

(** Whether the process was killed. *)
Definition handle_signal (s : Z) : M sys bool :=
  this ← this_process; me ← get_proc this;
  h ← lift ((sighandlers me).[s - 1]);
  let plain := negb (truthy (Z.land (sa_flags h) SA_SIGINFO)) in
  if negb (s =? SIGKILL) && plain && (sa_handler h =? SIG_IGN) then mret false else
  let exit := (s =? SIGKILL) || (terminates_by_default s && plain && (sa_handler h =? SIG_DFL)) in
  let stop := (s =? SIGSTOP) || (stops_by_default s && plain && (sa_handler h =? SIG_DFL)) in
  if exit then
    _ ← (if ppid me =? 0 then mret tt else
           pproc ← lookup_pid (ppid me);
           if pproc =? 0 then mret tt else
           utime ← lift (convert_time (self_rusage me) 0);
           stime ← lift (convert_time (self_rusage me) 16);
           send_signal pproc SIGCHLD
             (mk_siginfo SIGCHLD CLD_KILLED 0 (child_data (pid me) (uid me) s utime stime)));
    _ ← process_kill PROCESS_WAIT_SIGNALED s;
    mret true
  else if stop then mret false
  else
    t ← this_thread;
    _ ← put_this_thread (set_handler t (if plain then sa_handler h else sa_sigaction h)
          (s32 (sa_flags h)) s (sa_mask h));
    mret false.

Definition poll_signal : M sys Z :=
  t ← this_thread;
  info ← gets siginfo_vma;
  '(s, t, info) ← lift (poll_signal_thread t info);
  _ ← put_this_thread t;
  _ ← modify (fun st => set_siginfo_vma st info);
  mret s.

Definition signal_handler : M sys Z := t ← this_thread; mret (handler t).

(** Returns the handler and what is stored through [sig] and [mask]. *)
Definition poll_signal_handler : M sys (Z * Z * Z) :=
  t ← this_thread;
  '(addr, hs, mask, t) ← lift (poll_signal_handler_thread t);
  _ ← put_this_thread t;
  mret (addr, hs, mask).

Definition update_signal_mask (mask : Z) : M sys unit :=
  t ← this_thread; put_this_thread (set_sigblocked t mask).

Definition slow_syscall_end : M sys unit := t ← this_thread; put_this_thread (set_slow_syscall t 0).
Definition slow_syscall_begin : M sys unit := t ← this_thread; put_this_thread (set_slow_syscall t 1).

(** ** System calls on handlers and masks

    [act] is NULL or what it points to; the second component is what [old_act]
    receives. *)
Definition bad_action_signal (s : Z) : bool :=
  (s <=? 0) || (NSIG <? s) || (s =? SIGKILL) || (s =? SIGSTOP).

Definition sys_sigaction (s : Z) (act : option sigaction) : M sys (res Z * option sigaction) :=
  if bad_action_signal s then mret (Err EINVAL, None) else
  this ← this_process; me ← get_proc this;
  h ← lift ((sighandlers me).[s - 1]);
  match act with
  | None => mret (Ok 0, Some h)
  | Some act =>
      hs ← lift ((sighandlers me).[s - 1 <- act]);
      _ ← put_proc this (set_sighandlers me hs);
      mret (Ok 0, Some h)
  end.

Definition sys_signal (s handler : Z) : M sys (res Z) :=
  if bad_action_signal s then mret (Err EINVAL) else
  '(r, old) ← sys_sigaction s (Some (mk_sigaction handler 0 0 0));
  match r, old with
  | Ok _, Some old => mret (Ok (sa_handler old))
  | Err e, _ => mret (Err e)
  | _, None => fault
  end.

(** Also what [old_set] receives. *)
Definition sys_sigprocmask (how : Z) (set : option Z) : M sys (res Z * Z) :=
  t ← this_thread;
  let '(old, r, t) := sigprocmask_thread how set t in
  _ ← put_this_thread t;
  mret (r, old).

(** ** Waiting

    [sched] is what the other processes do at each [sched_yield]; [None] is a
    call that still waits when they are exhausted. *)
Fixpoint wait4_loop (sched : list (sys -> sys)) (i : Z) : M sys (option (Z * option (Z * list Z))) :=
  this ← this_process; me ← get_proc this;
  '(r, out, w) ← lift (do_wait (waits me) i (pgid me));
  _ ← put_proc this (set_waits me w);
  if truthy r then mret (Some (r, out)) else
  match sched with
  | [] => mret None
  | f :: sched => _ ← modify f; wait4_loop sched i
  end.

Definition sys_wait4 (sched : list (sys -> sys)) (i flags : Z) :
    M sys (option (res Z * option (Z * list Z))) :=
  let i := if i <? -1 then s32 (- i) else i in
  this ← this_process; me ← get_proc this;
  if zlen (children me) =? 0 then mret (Some (Err ECHILD, None)) else
  a ← (if 0 <? i then lookup_pid i else mret 1);
  if a =? 0 then mret (Some (Err ESRCH, None)) else
  if truthy (Z.land flags WNOHANG) then
    '(r, out, w) ← lift (do_wait (waits me) i (pgid me));
    _ ← put_proc this (set_waits me w);
    mret (Some (Ok r, out))
  else
    r ← wait4_loop sched i;
    mret (match r with Some (r, out) => Some (Ok r, out) | None => None end).

(** ** Freeing a process

    The part of [process_free] on the process table and the process tree; the
    threads go with the structure, and the descriptors are those of
    [FdTable.free_altprocfd]. *)

(** The first entry with the given ID is removed. *)
Fixpoint remove_child (c : Z) (l : list Z) : list Z :=
  match l with
  | [] => []
  | x :: l => if x =? c then l else x :: remove_child c l
  end.

Definition unmap_pid (i : Z) : M sys unit := fun s =>
  match Pid.unmap_pid (pids s) i with Some st => Some (tt, set_pids s st) | None => None end.

(** The loop that gives the children a new parent. *)
Fixpoint reparent (l : list Z) : M sys unit :=
  match l with
  | [] => mret tt
  | c :: l =>
      a ← lookup_pid c;
      _ ← (if a =? 0 then mret tt else p ← get_proc a; put_proc a (set_ppid p 1));
      reparent l
  end.

Definition process_free (a : Z) : M sys unit :=
  p ← get_proc a;
  _ ← unmap_pid (pid p);
  parent ← lookup_pid (ppid p);
  _ ← (if parent =? 0 then mret tt else
         pp ← get_proc parent;
         put_proc parent (set_children pp (remove_child (pid p) (children pp))));
  p ← get_proc a;
  _ ← (if zlen (children p) =? 0 then mret tt else
         init ← lookup_pid 1;
         if init =? 0 then mret tt else
         ip ← get_proc init;
         ok ← with_oracle malloc;
         if negb (ok : bool) then fault else
         _ ← put_proc init (set_children ip (children ip ++ children p));
         reparent (children p));
  modify (fun s => set_procs s (base.delete a (procs s))).

Definition process_exit (index : Z) : M sys unit :=
  q ← gets queue;
  a ← lift (q.[index]);
  _ ← process_free a;
  f ← gets front;
  let n := Z.to_nat index in
  modify (fun s => set_queue s (take n q ++ drop (S n) q) (if index <? f then f - 1 else f)).

(** ** Sleeping

    [clock] holds the successive readings of [hpet_nanotime]; [None] is a call
    that still sleeps when they are exhausted. The result is what [rem] holds,
    [rem0] if it was never written. *)
Fixpoint nanosleep_loop (clock : list Z) (now target : Z) (rem : Z * Z) : option (Z * Z) :=
  if now <? target then
    let left := s64 (target - now) in
    match clock with
    | [] => None
    | now :: clock => nanosleep_loop clock now target (Z.quot left 1000000000, Z.rem left 1000000000)
    end
  else Some rem.

Definition sys_nanosleep (clock : list Z) (tv_sec tv_nsec : Z) (rem0 : Z * Z) : M sys (option (Z * Z)) :=
  match clock with
  | [] => mret None
  | now :: clock =>
      let target := s64 (now + tv_sec * 1000000000 + tv_nsec) in
      _ ← slow_syscall_begin;
      match nanosleep_loop clock now target rem0 with
      | None => mret None
      | Some rem => _ ← slow_syscall_end; mret (Some rem)
      end
  end.
End ops.
Arguments sys T : clear implicits.

(** ** Invariants of the process structures *)

(** Every thread can take [n] more signals before its counter overflows. *)
Definition proc_ok (n : Z) (p : process) : Prop :=
  Forall (fun t => thread_ok t /\ sig t + n < 2 ^ 31 - 1) (threads p) /\
  0 <= tfront p < zlen (threads p).

Section kill.
Context {T : Type} `{KernelMap T} (junk : siginfo_t) (junk_byte : Z).
Implicit Types (s : sys T).

Record sys_ok (n : Z) s : Prop := {
  so_procs : map_Forall (fun _ => proc_ok n) (procs s);
  so_queue : Forall (fun a => is_Some (procs s !! a)) (queue s);
  so_front : 0 <= front s < zlen (queue s);
  so_pids : forall i, exists a, Pid.lookup_pid (pids s) i = Some a /\ (a = 0 \/ is_Some (procs s !! a));
  so_user : forall a p, a ∈ drop 1 (queue s) -> procs s !! a = Some p -> 0 < pid p;
  so_alloc : all_succeed (oracle s)
}.

Lemma this_process_run s n :
  sys_ok n s -> exists a p, this_process s = Some (a, s) /\ (queue s).[front s] = Some a /\
    get_proc a s = Some (p, s) /\ procs s !! a = Some p /\ proc_ok n p.
Proof.
  intros []. destruct (zlookup_lt_Some (queue s) (front s)) as [a Ha]; [done|].
  assert (is_Some (procs s !! a)) as [p Hp].
  { rewrite Forall_lookup in so_queue0. unfold zlookup in Ha. destruct (_ <? 0); [done|]. by eapply so_queue0. }
  exists a, p. unfold this_process, get_proc. rewrite Ha, Hp. split_and!; auto. by eapply so_procs0.
Qed.

Lemma find_thread_spec cond (ts : list thread) :
  Forall (fun t => is_Some (cond t)) ts ->
  exists k, find_thread cond ts = Some k /\ match k with Some k => (k < length ts)%nat | None => True end.
Proof.
  induction 1 as [|t ts [b Hb] _ IH]; [by exists None|]. simpl. rewrite Hb. orun.
  destruct b; [exists (Some O); split; [done|simpl; lia]|].
  destruct IH as (k & -> & Hk). orun. exists (option_map S k). split; [done|]. destruct k; simpl; [lia|done].
Qed.

Lemma pick_thread_spec sg ts :
  1 <= sg <= NSIG -> ts <> [] -> exists k, pick_thread sg ts = Some k /\ (k < length ts)%nat.
Proof.
  intros Hs Hne. assert (Hr : sig_range sg) by done. unfold pick_thread.
  destruct (find_thread_spec (runs_pending_blocked sg) ts) as (k1 & -> & H1).
  { apply Forall_forall. intros t _. unfold runs_pending_blocked. rewrite !sigismember_spec by done.
    orun. destruct (negb _); [eauto|]. destruct (mem_sig _ _); eauto. }
  orun. destruct k1 as [k1|]; [by exists k1|].
  destruct (find_thread_spec (runs_not_pending sg) ts) as (k2 & -> & H2).
  { apply Forall_forall. intros t _. unfold runs_not_pending. rewrite sigismember_spec by done.
    orun. destruct (negb _); eauto. }
  orun. destruct k2 as [k2|]; [by exists k2|].
  destruct (find_thread_spec (fun t => Some (running t)) ts) as (k3 & -> & H3).
  { apply Forall_forall. eauto. }
  orun. exists (default 0%nat k3). split; [done|]. destruct k3; simpl; [done|]. destruct ts; [done|simpl; lia].
Qed.

(** The signal is queued on one thread of the process. *)
Definition delivered (sg : Z) (info : siginfo_t) (p p' : process) : Prop :=
  exists k t t', threads p !! k = Some t /\ p' = set_threads p (<[k := t']> (threads p)) /\
    same_queues (queued t') (send_spec (queued t) sg info).

Lemma send_signal_spec n s a p sg info :
  sys_ok (n + 1) s -> 0 <= n -> procs s !! a = Some p -> 1 <= sg <= 63 ->
  exists p' o', send_signal junk a sg info s = Some (tt, set_oracle (set_procs s (<[a := p']> (procs s))) o') /\
    all_succeed o' /\ proc_ok n p' /\ delivered sg info p p'.
Proof.
  intros [Hpr _ _ _ _ Ho] Hn Hp Hs. pose proof (Hpr a p Hp) as [Hts Hf].
  destruct (pick_thread_spec sg (threads p)) as (k & Hk & Hlt); [lia|intros E; rewrite E in Hf; unfold zlen in Hf; simpl in Hf; lia|].
  destruct (lookup_lt_is_Some_2 _ _ Hlt) as [t Ht].
  pose proof Hts as Hts'. rewrite Forall_lookup in Hts'. destruct (Hts' k t Ht) as [Htok Hsig].
  destruct (send_signal_thread_spec junk t sg info (oracle s)) as (t' & o' & Hsend & Ho' & Hok' & _ & HQ); auto; [lia|].
  exists (set_threads p (<[k := t']> (threads p))), o'. split.
  - unfold send_signal, mbind, M_bind, get_proc, lift, with_oracle. rewrite Hp, Hk, Ht, Hsend. done.
  - split; [done|]. split.
    + split; [|simpl; unfold zlen; rewrite length_insert; apply Hf]. simpl. apply Forall_insert.
      * apply (Forall_impl _ _ _ Hts). intros x [? ?]. split; [done|lia].
      * split; [done|]. destruct Htok as [_ Et], Hok' as [_ Et']. rewrite Et', (total_same _ _ HQ).
        pose proof (send_total (queued t) sg info Hs). lia.
    + by exists k, t, t'.
Qed.

(** Only the signals of processes change, and none of a process of another
    user unless the sender is the superuser. *)
Record kill_frame (e : Z) s s' : Prop := {
  kf_same : queue s' = queue s /\ front s' = front s /\ pids s' = pids s /\
            exit_process s' = exit_process s /\ exit_status s' = exit_status s;
  kf_procs : forall a p, procs s !! a = Some p ->
    exists p', procs s' !! a = Some p' /\ p' = set_threads p (threads p') /\
      (e <> 0 -> euid p <> e -> p' = p)
}.

Lemma set_threads_id p : set_threads p (threads p) = p.
Proof. by destruct p. Qed.

Lemma kill_frame_refl e s : kill_frame e s s.
Proof. split; [done|]. intros a p Hp. exists p. by rewrite set_threads_id. Qed.

Lemma kill_frame_trans e s1 s2 s3 : kill_frame e s1 s2 -> kill_frame e s2 s3 -> kill_frame e s1 s3.
Proof.
  intros [(A1 & A2 & A3 & A4 & A5) F1] [(B1 & B2 & B3 & B4 & B5) F2]. split; [split_and!; congruence|].
  intros a p Hp. destruct (F1 a p Hp) as (p2 & Hp2 & E2 & K2). destruct (F2 a p2 Hp2) as (p3 & Hp3 & E3 & K3).
  exists p3. split; [done|]. split.
  - rewrite E3, E2. done.
  - intros He Hne. rewrite K3; auto. rewrite E2. done.
Qed.

Lemma sys_ok_weaken n m s : sys_ok n s -> m <= n -> sys_ok m s.
Proof.
  intros [Hp ? ? ? ? ?] Hm. split; auto. intros a p Hap. destruct (Hp a p Hap) as [Hts Hf].
  split; [|done]. apply (Forall_impl _ _ _ Hts). intros t [? ?]. split; [done|lia].
Qed.

Lemma sys_ok_update n s a p p' o :
  sys_ok (n + 1) s -> procs s !! a = Some p -> proc_ok n p' -> all_succeed o -> pid p' = pid p ->
  sys_ok n (set_oracle (set_procs s (<[a := p']> (procs s))) o).
Proof.
  intros Hok Hp Hp' Ho Hpid. apply (sys_ok_weaken _ n) in Hok; [|lia].
  destruct Hok as [Hpr Hq Hf Hl Hu _]. split; simpl; auto.
  - by apply map_Forall_insert_2.
  - apply (Forall_impl _ _ _ Hq). intros b. by rewrite lookup_insert_is_Some'; right.
  - intros i. destruct (Hl i) as (b & Hb & Hcase). exists b. split; [done|].
    destruct Hcase as [|?]; [by left|right]. by rewrite lookup_insert_is_Some'; right.
  - intros b q Hb Hq'. destruct (decide (a = b)) as [<-|].
    + rewrite lookup_insert_eq in Hq'. simplify_eq. rewrite Hpid. by eapply Hu.
    + rewrite lookup_insert_ne in Hq' by done. by eapply Hu.
Qed.

Lemma frame_update e s a p p' o :
  procs s !! a = Some p -> p' = set_threads p (threads p') -> (e <> 0 -> euid p = e) ->
  kill_frame e s (set_oracle (set_procs s (<[a := p']> (procs s))) o).
Proof.
  intros Hp E He. split; [done|]. intros b q Hq. simpl. destruct (decide (a = b)) as [<-|].
  - rewrite lookup_insert_eq. exists p'. simplify_eq. split_and!; auto. intros He0 Hne. by destruct (Hne (He He0)).
  - rewrite lookup_insert_ne by done. exists q. by rewrite set_threads_id.
Qed.

(** One process, named by its ID. *)
(** What [kill] of the process at address [a] (0: there is none) comes to: the
    signal is queued with the identity of the sender, or refused. *)
Definition kill_outcome (s s' : sys T) (me : process) (a sg : Z) (r : res Z) : Prop :=
  match r with
  | Err e => s' = s /\ (a = 0 /\ e = ESRCH \/
      a <> 0 /\ e = EPERM /\ euid me <> 0 /\ exists p, procs s !! a = Some p /\ euid p <> euid me)
  | Ok v => v = 0 /\ a <> 0 /\ exists p p' o, procs s !! a = Some p /\
      s' = set_oracle (set_procs s (<[a := p']> (procs s))) o /\
      (euid me <> 0 -> euid p = euid me) /\
      delivered sg (mk_siginfo sg SI_USER 0 (kill_data (pid me) (uid me))) p p'
  end.

Lemma kill_one n fuel s i sg this me :
  sys_ok (n + 1) s -> 0 <= n -> 0 < i -> 1 <= sg <= 63 ->
  (queue s).[front s] = Some this -> procs s !! this = Some me ->
  exists r s' a, sys_kill junk (S fuel) i sg s = Some (r, s') /\ sys_ok n s' /\
    kill_frame (euid me) s s' /\ Pid.lookup_pid (pids s) i = Some a /\
    kill_outcome s s' me a sg r.
Proof.
  intros Hok Hn Hi Hs Hthis Hme. unfold kill_outcome. cbn [sys_kill].
  destruct (Z.ltb_spec sg 0), (Z.ltb_spec NSIG sg), (Z.eqb_spec sg 0), (Z.eqb_spec i (-1)),
    (Z.eqb_spec i 0), (Z.ltb_spec i 0); try lia. cbn [orb].
  destruct (so_pids _ _ Hok i) as (a & Ha & Hcase). unfold mbind, M_bind, lookup_pid, this_process, get_proc.
  rewrite Ha. destruct (Z.eqb_spec a 0) as [->|Ha0].
  { exists (Err ESRCH), s, 0. split_and!; auto using kill_frame_refl. by apply (sys_ok_weaken (n + 1)); [|lia]. }
  destruct Hcase as [?|[p Hp]]; [done|]. rewrite Hthis, Hme, Hp.
  destruct (truthy (euid me) && negb (euid me =? euid p)) eqn:Hperm.
  { exists (Err EPERM), s, a. apply andb_true_iff in Hperm as [Ht Hne]. unfold truthy in Ht.
    apply negb_true_iff, Z.eqb_neq in Ht, Hne.
    split_and!; auto using kill_frame_refl; [by apply (sys_ok_weaken (n + 1)); [|lia]|].
    right. split_and!; auto. eauto. }
  set (info := mk_siginfo sg SI_USER 0 _).
  destruct (send_signal_spec n s a p sg info Hok Hn Hp Hs) as (p' & o' & -> & Ho' & Hp' & Hd).
  assert (He : euid me <> 0 -> euid p = euid me).
  { intros Hr. unfold truthy in Hperm. destruct (Z.eqb_spec (euid me) 0), (Z.eqb_spec (euid me) (euid p)); auto; done. }
  pose proof Hd as (k & t & t' & _ & E & _).
  eexists (Ok 0), _, a. split; [done|]. split; [eapply sys_ok_update; eauto; by rewrite E|].
  split; [|split; [done|]].
  - eapply frame_update; eauto. by rewrite E.
  - split; [done|]. split; [done|]. exists p, p', o'. auto.
Qed.

(** The state kept by the loops: the caller and what it may change. *)
Lemma frame_caller e s s' this me :
  kill_frame e s s' -> (queue s).[front s] = Some this -> procs s !! this = Some me ->
  (queue s').[front s'] = Some this /\ exists me', procs s' !! this = Some me' /\ euid me' = euid me.
Proof.
  intros [(-> & -> & _) F] Hthis Hme. split; [done|]. destruct (F _ _ Hme) as (me' & ? & E & _).
  exists me'. split; [done|]. by rewrite E.
Qed.

Lemma kill_each_spec sel fuel sg addrs : forall n s this me,
  sys_ok (n + zlen addrs) s -> 0 <= n -> 1 <= sg <= 63 ->
  (queue s).[front s] = Some this -> procs s !! this = Some me ->
  addrs ⊆ drop 1 (queue s) -> Forall (fun a => is_Some (procs s !! a)) addrs ->
  exists r s', kill_each sel (fun i => sys_kill junk (S fuel) i sg) addrs s = Some (r, s') /\
    sys_ok n s' /\ kill_frame (euid me) s s'.
Proof.
  induction addrs as [|a addrs IH]; intros n s this me Hok Hn Hs Hthis Hme Hsub Hall.
  { exists (Ok 0), s. rewrite zlen_nil, Z.add_0_r in Hok. auto using kill_frame_refl. }
  rewrite zlen_cons in Hok. apply Forall_cons in Hall as [[p Hp] Hall]. pose proof (zlen_nonneg addrs).
  assert (addrs ⊆ drop 1 (queue s)) as Hsub' by set_solver.
  cbn [kill_each]. unfold mbind, M_bind, get_proc. rewrite Hp.
  destruct (sel a p).
  - assert (0 < pid p) as Hpid by (eapply so_user; eauto; set_solver).
    destruct (kill_one (n + zlen addrs) fuel s (pid p) sg this me) as (r & s1 & b & -> & Hok1 & Hf1 & _); auto; [|lia|].
    { eapply sys_ok_weaken; [exact Hok|lia]. }
    destruct r as [v|e]; [|exists (Err e), s1; split_and!; auto; eapply sys_ok_weaken; [exact Hok1|lia]].
    destruct (frame_caller _ _ _ _ _ Hf1 Hthis Hme) as (Ht1 & me1 & Hme1 & He1).
    destruct (IH n s1 this me1) as (r & s2 & -> & Hok2 & Hf2); auto.
    + destruct Hf1 as [(-> & _) _]. done.
    + apply (Forall_impl _ _ _ Hall). intros c [q Hq]. destruct Hf1 as [_ F].
      destruct (F c q Hq) as (q' & ? & _). eauto.
    + exists r, s2. split; [done|]. split; [done|]. rewrite He1 in Hf2. by eapply kill_frame_trans.
  - apply (IH n s this me); auto. eapply sys_ok_weaken; [exact Hok|lia].
Qed.

Lemma sys_kill_S fuel i sg s :
  sys_kill junk (S fuel) i sg s =
  (if (sg <? 0) || (NSIG <? sg) then mret (Err EINVAL)
   else if sg =? 0 then a ← lookup_pid i; mret (if a =? 0 then Err ESRCH else Ok 0)
   else if i =? -1 then
     this ← this_process; q ← gets queue;
     kill_each (fun a p => truthy (euid p) && negb (a =? this)) (fun i => sys_kill junk fuel i sg) (drop 1 q)
   else if i =? 0 then
     this ← this_process; p ← get_proc this; killpg_with (fun i => sys_kill junk fuel i sg) (pgid p)
   else if i <? 0 then killpg_with (fun i => sys_kill junk fuel i sg) (s32 (- i))
   else
     a ← lookup_pid i;
     if a =? 0 then mret (Err ESRCH) else
     this ← this_process; me ← get_proc this; p ← get_proc a;
     if truthy (euid me) && negb (euid me =? euid p) then mret (Err EPERM) else
     _ ← send_signal junk a sg (mk_siginfo sg SI_USER 0 (kill_data (pid me) (uid me)));
     mret (Ok 0)) s.
Proof. done. Qed.


(** [kill] of one process reports ESRCH when no process has the ID, EPERM
    when an unprivileged caller and the process have different effective user
    IDs, and otherwise queues the signal, with the identity of the sender, on
    exactly one thread of the process. *)
Theorem sys_kill_process n s i sg this me :
  sys_ok (n + 1) s -> 0 <= n -> 0 < i -> 1 <= sg <= 63 ->
  (queue s).[front s] = Some this -> procs s !! this = Some me ->
  exists a, Pid.lookup_pid (pids s) i = Some a /\
    ((a = 0 /\ sys_kill junk 1 i sg s = Some (Err ESRCH, s)) \/
     exists p, a <> 0 /\ procs s !! a = Some p /\
       ((euid me <> 0 /\ euid p <> euid me /\ sys_kill junk 1 i sg s = Some (Err EPERM, s)) \/
        ((euid me <> 0 -> euid p = euid me) /\
         exists p' o, sys_kill junk 1 i sg s =
             Some (Ok 0, set_oracle (set_procs s (<[a := p']> (procs s))) o) /\
           delivered sg (mk_siginfo sg SI_USER 0 (kill_data (pid me) (uid me))) p p'))).
Proof.
  intros Hok Hn Hi Hs Hthis Hme.
  destruct (kill_one n 0 s i sg this me Hok Hn Hi Hs Hthis Hme) as (r & s' & a & Hk & _ & _ & Ha & Hr).
  exists a. split; [done|]. destruct r as [v|e].
  - destruct Hr as (-> & Ha0 & p & p' & o & Hp & -> & He & Hd). right. exists p. split; [done|]. split; [done|].
    right. split; [done|]. exists p', o. auto.
  - destruct Hr as [-> [[-> ->]|(Ha0 & -> & He & p & Hp & Hne)]]; [by left|].
    right. exists p. split; [done|]. split; [done|]. by left.
Qed.

(** ** What a terminating process leaves behind *)

(** The fields that end up in a wait state or a [siginfo_t] are in range. *)
Definition fields_ok (p : process) : Prop :=
  int_ok (pid p) /\ int_ok (pgid p) /\ length (self_rusage p) = 144%nat.

Definition parent_of s (me : process) (a : Z) (p : process) (l : list wait_state) : Prop :=
  Pid.lookup_pid (pids s) (ppid me) = Some a /\ a <> 0 /\ procs s !! a = Some p /\
  wait_ok (waits p) l /\ zlen l + 1 < 2 ^ 32.

Lemma process_kill_spec n s this me mode st :
  sys_ok n s -> (queue s).[front s] = Some this -> procs s !! this = Some me -> fields_ok me ->
  int_ok mode -> int_ok st ->
  (forall a, Pid.lookup_pid (pids s) (ppid me) = Some a -> a <> 0 ->
     exists p l, parent_of s me a p l /\ fields_ok p) ->
  exists s', process_kill junk_byte mode st s = Some (tt, s') /\
    exit_process s' = front s /\
    exit_status s' = (if mode =? PROCESS_WAIT_EXITED then st else Z.lor st 0x80) /\
    queue s' = queue s /\ front s' = front s /\ pids s' = pids s /\
    ((Pid.lookup_pid (pids s) (ppid me) = Some 0 /\ procs s' = procs s) \/
     exists a p l w, parent_of s me a p l /\ procs s' = <[a := set_waits p w]> (procs s) /\
       wait_ok w (l ++ [mk_ws (pid me) (pgid p) (self_rusage me) mode st])).
Proof.
  intros Hok Hthis Hme (Hf1 & Hf2 & Hf3) Hmode Hst Hpar.
  destruct (so_pids _ _ Hok (ppid me)) as (a & Ha & Hcase).
  unfold process_kill, process_fill_wait, mbind, M_bind, this_process, get_proc, lookup_pid.
  rewrite Hthis, Hme, Ha. destruct (Z.eqb_spec a 0) as [->|Ha0].
  { eexists. split; [reflexivity|]. split_and!; try done. by left. }
  destruct (Hpar a Ha Ha0) as (p & l & Hp & (_ & Hpg & _)). pose proof Hp as (_ & _ & Hpp & Hw & Hl).
  rewrite Hpp, Hthis, Hme. unfold with_oracle.
  destruct (push_wait_spec junk_byte (waits p) l (mk_ws (pid me) (pgid p) (self_rusage me) mode st) (oracle s))
    as (w & o & -> & _ & Hw'); auto; [by split_and!|apply Hok|].
  eexists. split; [reflexivity|]. split_and!; try done. right. exists a, p, l, w. auto.
Qed.

(** ** What POSIX asks of a signal

    The default actions are those of POSIX and signal(7), written down without
    regard to the table of [handle_signal]: of the standard signals SIGCHLD,
    SIGURG and SIGWINCH are ignored, SIGCONT continues, SIGSTOP, SIGTSTP, SIGTTIN
    and SIGTTOU stop, and every other one ends the process. *)
Inductive default_action := Term | Ign | Cont | Stop.

Definition default_action_of (sg : Z) : default_action :=
  if bool_decide (sg = SIGCHLD \/ sg = 23 \/ sg = 28) then Ign
  else if sg =? 18 then Cont
  else if (19 <=? sg) && (sg <=? 22) then Stop
  else Term.

Inductive effect := Nothing | Dies | Runs (f : Z).

(** The effect of a signal on a process with action [h] for it.  Only a standard
    signal with the default action [Term] is covered of those with [SIG_DFL]. *)
Inductive calls_for (sg : Z) (h : sigaction) : effect -> Prop :=
| cf_kill : sg = SIGKILL -> calls_for sg h Dies
| cf_ignored : sg <> SIGKILL -> sg <> SIGSTOP ->
    Z.land (sa_flags h) SA_SIGINFO = 0 -> sa_handler h = SIG_IGN -> calls_for sg h Nothing
| cf_caught : sg <> SIGKILL -> sg <> SIGSTOP ->
    Z.land (sa_flags h) SA_SIGINFO = 0 -> sa_handler h <> SIG_IGN -> sa_handler h <> SIG_DFL ->
    calls_for sg h (Runs (sa_handler h))
| cf_siginfo : sg <> SIGKILL -> sg <> SIGSTOP ->
    Z.land (sa_flags h) SA_SIGINFO <> 0 -> calls_for sg h (Runs (sa_sigaction h))
| cf_default : 1 <= sg < SIGRTMIN -> default_action_of sg = Term ->
    Z.land (sa_flags h) SA_SIGINFO = 0 -> sa_handler h = SIG_DFL -> calls_for sg h Dies.

Lemma default_terminates sg :
  1 <= sg < SIGRTMIN -> default_action_of sg = Term -> sg <> SIGKILL -> terminates_by_default sg = true.
Proof.
  intros Hs Hd Hk. unfold default_action_of in Hd. case_bool_decide; [done|].
  destruct (Z.eqb_spec sg 18), (Z.leb_spec 19 sg), (Z.leb_spec sg 22); try done;
    apply bool_decide_eq_true_2; rewrite !elem_of_cons; lia.
Qed.

Lemma convert_time_ok ru off : length ru = 144%nat -> 0 <= off <= 128 -> is_Some (convert_time ru off).
Proof.
  intros Hl Ho. unfold convert_time, Hash.load_le.
  assert (zlen ru = 144) as -> by (unfold zlen; lia).
  rewrite !(proj2 (Z.leb_le _ _)) by lia. cbn [andb]. orun. eauto.
Qed.

Lemma handle_signal_cases sg s this me h e :
  (queue s).[front s] = Some this -> procs s !! this = Some me -> (sighandlers me).[sg - 1] = Some h ->
  calls_for sg h e ->
  handle_signal junk junk_byte sg s =
  match e with
  | Nothing => Some (false, s)
  | Dies =>
      (_ ← (if ppid me =? 0 then mret tt else
           pproc ← lookup_pid (ppid me);
           if pproc =? 0 then mret tt else
           utime ← lift (convert_time (self_rusage me) 0);
           stime ← lift (convert_time (self_rusage me) 16);
           send_signal junk pproc SIGCHLD
             (mk_siginfo SIGCHLD CLD_KILLED 0 (child_data (pid me) (uid me) sg utime stime)));
       _ ← process_kill junk_byte PROCESS_WAIT_SIGNALED sg;
       mret true) s
  | Runs a =>
      (t ← this_thread;
       _ ← put_this_thread (set_handler t a (s32 (sa_flags h)) sg (sa_mask h));
       mret false) s
  end.
Proof.
  intros Hthis Hme Hh He. unfold handle_signal.
  erewrite bind_run by (unfold this_process; by rewrite Hthis).
  erewrite bind_run by (unfold get_proc; by rewrite Hme).
  erewrite bind_run by (unfold lift; by rewrite Hh).
  destruct He as [->|Hk Hst Hi E|Hk Hst Hi E1 E2|Hk Hst Hi|Hr Hd Hi E]; [done|..].
  1-3: rewrite (proj2 (Z.eqb_neq _ _) Hk), (proj2 (Z.eqb_neq _ _) Hst).
  - by rewrite Hi, E.
  - rewrite Hi, (proj2 (Z.eqb_neq _ _) E1), (proj2 (Z.eqb_neq _ _) E2). cbn [truthy negb andb orb Z.eqb].
    by rewrite !andb_false_r.
  - unfold truthy. rewrite (proj2 (Z.eqb_neq _ _) Hi). cbn [negb andb orb]. by rewrite !andb_false_r.
  - rewrite Hi, E. destruct (Z.eqb_spec sg SIGKILL) as [->|Hk]; [done|].
    by rewrite (default_terminates sg Hr Hd Hk).
Qed.

Lemma terminate_spec n s sg this me a p l :
  sys_ok (n + 1) s -> 0 <= n -> 1 <= sg <= 63 ->
  (queue s).[front s] = Some this -> procs s !! this = Some me -> fields_ok me ->
  ppid me <> 0 -> parent_of s me a p l -> fields_ok p ->
  exists s' utime stime p' w,
    (_ ← (if ppid me =? 0 then mret tt else
         pproc ← lookup_pid (ppid me);
         if pproc =? 0 then mret tt else
         utime ← lift (convert_time (self_rusage me) 0);
         stime ← lift (convert_time (self_rusage me) 16);
         send_signal junk pproc SIGCHLD
           (mk_siginfo SIGCHLD CLD_KILLED 0 (child_data (pid me) (uid me) sg utime stime)));
     _ ← process_kill junk_byte PROCESS_WAIT_SIGNALED sg;
     mret true) s = Some (true, s') /\
    exit_process s' = front s /\ exit_status s' = Z.lor sg 0x80 /\
    delivered SIGCHLD (mk_siginfo SIGCHLD CLD_KILLED 0 (child_data (pid me) (uid me) sg utime stime)) p p' /\
    procs s' = <[a := set_waits p' w]> (procs s) /\
    wait_ok w (l ++ [mk_ws (pid me) (pgid p) (self_rusage me) PROCESS_WAIT_SIGNALED sg]).
Proof.
  intros Hok Hn Hs Hthis Hme Hf Hpp Hpar Hfp. pose proof Hpar as (Ha & Ha0 & Hp & Hw & Hl).
  pose proof Hf as (Hpid & _ & Hru).
  destruct (convert_time_ok (self_rusage me) 0 Hru) as [ut Hut]; [lia|].
  destruct (convert_time_ok (self_rusage me) 16 Hru) as [stm Hst]; [lia|].
  set (info := mk_siginfo SIGCHLD CLD_KILLED 0 (child_data (pid me) (uid me) sg ut stm)).
  destruct (send_signal_spec n s a p SIGCHLD info Hok Hn Hp ltac:(lia)) as (p1 & o1 & Hsend & Ho1 & Hp1 & Hd).
  set (s1 := set_oracle (set_procs s (<[a := p1]> (procs s))) o1) in *.
  pose proof Hd as (k & t & t' & _ & E1 & _).
  assert (Hok1 : sys_ok n s1) by (eapply sys_ok_update; eauto; by rewrite E1).
  assert (exists me1, procs s1 !! this = Some me1 /\ me1 = set_threads me (threads me1)) as (me1 & Hme1 & Em).
  { simpl. destruct (decide (a = this)) as [->|].
    - rewrite lookup_insert_eq. exists p1. split; [done|]. replace me with p by congruence. by rewrite E1.
    - rewrite lookup_insert_ne by done. exists me. by rewrite set_threads_id. }
  assert (Hpar1 : parent_of s1 me1 a p1 l).
  { rewrite Em. split_and!; simpl; auto; [apply lookup_insert_eq|]. by rewrite E1. }
  destruct (process_kill_spec n s1 this me1 PROCESS_WAIT_SIGNALED sg Hok1 Hthis Hme1)
    as (s' & Hk & He1 & He2 & _ & _ & _ & Hcase).
  { by rewrite Em. }
  { done. }
  { unfold int_ok. lia. }
  { intros b Hb _. replace b with a by (rewrite Em in Hb; simpl in Hb; congruence).
    exists p1, l. split; [done|]. by rewrite E1. }
  exists s', ut, stm, p1.
  destruct Hcase as [[Hz _]|(b & q & l' & w & (Hb & _ & Hq & Hw0 & _) & Hprocs & Hw')].
  { destruct Hpar1 as (Hx & _). congruence. }
  destruct Hpar1 as (Hx & _ & Hy & Hz & _). assert (b = a) as -> by congruence. assert (q = p1) as -> by congruence.
  assert (l' = l) as -> by (eapply wait_ok_inj; eauto).
  exists w. split.
  { erewrite bind_run.
    2: { rewrite (proj2 (Z.eqb_neq _ _) Hpp). erewrite bind_run by (unfold lookup_pid; by rewrite Ha).
         rewrite (proj2 (Z.eqb_neq _ _) Ha0). erewrite bind_run by (unfold lift; by rewrite Hut).
         erewrite bind_run by (unfold lift; by rewrite Hst). exact Hsend. }
    by erewrite bind_run. }
  split; [done|]. split; [done|]. split; [done|]. split.
  - rewrite Hprocs. simpl. by rewrite insert_insert_eq.
  - rewrite Em, E1 in Hw'. done.
Qed.


(** The actions for SIGKILL and SIGSTOP and for numbers that are no signal
    cannot be changed; any other call returns the old action, installs the new
    one for that signal only, and a later query returns it. *)
Theorem sys_sigaction_correct n s sg act this me :
  sys_ok n s -> (queue s).[front s] = Some this -> procs s !! this = Some me ->
  zlen (sighandlers me) = NSIG ->
  (bad_action_signal sg = true /\ sys_sigaction sg (Some act) s = Some (Err EINVAL, None, s)) \/
  (1 <= sg <= NSIG /\ sg <> SIGKILL /\ sg <> SIGSTOP /\
   exists old hs s', (sighandlers me).[sg - 1] = Some old /\
     sys_sigaction sg (Some act) s = Some (Ok 0, Some old, s') /\
     s' = set_procs s (<[this := set_sighandlers me hs]> (procs s)) /\
     (forall i, hs.[i] = if i =? sg - 1 then Some act else (sighandlers me).[i]) /\
     sys_sigaction sg None s' = Some (Ok 0, Some act, s')).
Proof.
  intros Hok Hthis Hme Hlen. unfold sys_sigaction. destruct (bad_action_signal sg) eqn:Hb; [by left|right].
  unfold bad_action_signal in Hb. rewrite !orb_false_iff in Hb. destruct Hb as [[[H1 H2] H3] H4].
  apply Z.leb_gt in H1. apply Z.ltb_ge in H2. apply Z.eqb_neq in H3, H4.
  split_and!; auto; [lia|].
  destruct (zlookup_lt_Some (sighandlers me) (sg - 1)) as [old Hold]; [lia|].
  destruct (zstore (sighandlers me) (sg - 1) act) as [hs|] eqn:Hst; [|rewrite zstore_lt in Hst by lia; done].
  exists old, hs, (set_procs s (<[this := set_sighandlers me hs]> (procs s))).
  unfold mbind, M_bind, this_process, get_proc, lift. rewrite Hthis, Hme, Hold, Hst.
  split; [done|]. split; [done|]. split; [done|]. split; [by intros i; apply zlookup_zstore|].
  cbn [queue front set_procs]. rewrite Hthis. cbn [procs set_procs]. rewrite lookup_insert_eq.
  cbn [sighandlers set_sighandlers]. by rewrite (zlookup_zstore _ _ _ _ _ Hst), Z.eqb_refl.
Qed.
End kill.

(** ** Sleeping *)

Lemma nanosleep_loop_spec now clock target rem0 :
  0 <= now -> target < 2 ^ 63 -> Forall (fun t => 0 <= t) clock ->
  match nanosleep_loop clock now target rem0 with
  | Some (sec, nsec) =>
     (exists k t, (now :: clock) !! k = Some t /\ target <= t /\
       Forall (fun t => t < target) (take k (now :: clock))) /\
     ((sec, nsec) = rem0 \/ 0 <= sec /\ 0 <= nsec < 1000000000)
  | None => Forall (fun t => t < target) (now :: clock)
  end.
Proof.
  intros Hnow Htg Hcl. revert now rem0 Hnow. induction Hcl as [|c clock Hc Hcl IH]; intros now rem0 Hnow;
    cbn [nanosleep_loop]; destruct (Z.ltb_spec now target) as [Hlt|Hge].
  - by constructor.
  - destruct rem0. split; [|by left]. by exists 0%nat, now.
  - set (rem1 := (_, _)). specialize (IH c rem1 Hc).
    destruct (nanosleep_loop clock c target rem1) as [[sec nsec]|]; [|by constructor].
    destruct IH as [(k & t & Hk & Ht & Hall) Hrem]. split; [exists (S k), t; split_and!; auto; by constructor|].
    right. destruct Hrem as [E|]; [|done].
    injection E as -> ->. assert (s64 (target - now) = target - now) as ->.
    { unfold swrap. rewrite Z.mod_small by lia. destruct (Z.ltb_spec (target - now) (2 ^ (64 - 1))); lia. }
    rewrite Z.quot_div_nonneg, Z.rem_mod_nonneg by lia.
    split; [apply Z.div_pos; lia|apply Z.mod_pos_bound; lia].
  - destruct rem0. split; [|by left]. by exists 0%nat, now.
Qed.

Lemma this_thread_run {T} (s : sys T) this me t :
  (queue s).[front s] = Some this -> procs s !! this = Some me -> (threads me).[tfront me] = Some t ->
  this_thread s = Some (t, s).
Proof.
  intros Hthis Hme Ht. unfold this_thread, mbind, M_bind, this_process, get_proc, lift.
  by rewrite Hthis, Hme, Ht.
Qed.

Lemma put_this_thread_run {T} (s : sys T) this me t :
  (queue s).[front s] = Some this -> procs s !! this = Some me -> 0 <= tfront me < zlen (threads me) ->
  put_this_thread t s =
  Some (tt, set_procs s (<[this := set_threads me (<[Z.to_nat (tfront me) := t]> (threads me))]> (procs s))).
Proof.
  intros Hthis Hme Hf. unfold put_this_thread, mbind, M_bind, this_process, get_proc, lift.
  by rewrite Hthis, Hme, zstore_lt.
Qed.

(** A sleep ends with the first reading of the clock that reaches the
    requested time, never before; what it leaves in [rem] is a normalised time;
    it is still asleep only while every reading is too early, and the thread is
    in a slow system call exactly until it returns. *)
Theorem nanosleep_not_early {T} `{KernelMap T} n (s : sys T) this me now clock sec nsec rem0 :
  sys_ok n s -> (queue s).[front s] = Some this -> procs s !! this = Some me ->
  0 <= now -> Forall (fun t => 0 <= t) clock -> 0 <= sec -> 0 <= nsec ->
  let target := now + sec * 1000000000 + nsec in
  target < 2 ^ 63 ->
  exists r s' me' t, sys_nanosleep (now :: clock) sec nsec rem0 s = Some (r, s') /\
    procs s' !! this = Some me' /\ (threads me').[tfront me'] = Some t /\
    match r with
    | Some (rs, rn) =>
        (exists k t, (now :: clock) !! k = Some t /\ target <= t /\
          Forall (fun t => t < target) (take k (now :: clock))) /\
        ((rs, rn) = rem0 \/ 0 <= rs /\ 0 <= rn < 1000000000) /\ slow_syscall t = 0
    | None => Forall (fun t => t < target) (now :: clock) /\ slow_syscall t = 1
    end.
Proof.
  intros Hok Hthis Hme Hnow Hcl Hsec Hnsec target Htg.
  destruct (so_procs _ _ Hok this me Hme) as [_ Hfr]. destruct (zlookup_lt_Some _ _ Hfr) as [t Ht].
  assert (s64 (now + sec * 1000000000 + nsec) = target) as Etg.
  { unfold swrap. rewrite Z.mod_small by lia. fold target. destruct (Z.ltb_spec target (2 ^ (64 - 1))); lia. }
  unfold sys_nanosleep. cbv zeta. rewrite Etg.
  pose proof (nanosleep_loop_spec now clock target rem0 Hnow Htg Hcl) as Hl.
  unfold slow_syscall_begin, slow_syscall_end.
  rewrite bind_assoc. erewrite bind_run by (by eapply this_thread_run).
  erewrite bind_run by (by eapply put_this_thread_run).
  set (t1 := set_slow_syscall t 1). set (ts1 := <[Z.to_nat (tfront me) := t1]> (threads me)).
  set (s1 := set_procs s _).
  assert (Hme1 : procs s1 !! this = Some (set_threads me ts1)) by apply lookup_insert_eq.
  assert (Hfr1 : 0 <= tfront me < zlen ts1) by (unfold ts1, zlen; rewrite length_insert; done).
  assert (Ht1 : ts1.[tfront me] = Some t1) by (by apply zlookup_insert_same).
  destruct (nanosleep_loop clock now target rem0) as [[rs rn]|].
  - rewrite bind_assoc. erewrite bind_run by (by eapply (this_thread_run s1)).
    erewrite bind_run by (by eapply (put_this_thread_run s1)).
    eexists _, _, _, _. split; [reflexivity|]. split; [apply lookup_insert_eq|].
    split; [by apply zlookup_insert_same|]. destruct Hl. auto.
  - exists None, s1, (set_threads me ts1), t1. split; [reflexivity|]. auto.
Qed.

(** ** The process tree *)

Section tree.
Context {T : Type} `{KernelMap T}.
Context (P : Z -> Prop) (P_distinct : forall p q, P p -> P q -> Pid.pid_key p = Pid.pid_key q -> p = q).
Implicit Types (s : sys T) (pm : gmap Z Z).

(** The table finds every process it knows under its own ID. *)
Definition table_ok s pm : Prop :=
  Pid.table_rep P (pids s) pm /\
  forall i a, pm !! i = Some a -> a <> 0 /\ exists p, procs s !! a = Some p /\ pid p = i.

Lemma lookup_pid_run s pm i :
  Pid.table_rep P (pids s) pm -> P i -> lookup_pid i s = Some (default 0 (pm !! i), s).
Proof. intros Hr HP. unfold lookup_pid. by rewrite (Pid.table_lookup P _ _ _ Hr HP). Qed.

(** What a process becomes when its parent is gone. *)
Definition orphaned pm (l : list Z) (b : Z) (q : process) : process :=
  if bool_decide (b ∈ omap (fun c => pm !! c) l) then set_ppid q 1 else q.

Lemma set_procs_twice s x y : set_procs (set_procs s x) y = set_procs s y.
Proof. done. Qed.

Lemma reparent_spec pm l : forall s,
  Pid.table_rep P (pids s) pm -> Forall P l ->
  (forall c b, c ∈ l -> pm !! c = Some b -> b <> 0 /\ is_Some (procs s !! b)) ->
  exists m, reparent l s = Some (tt, set_procs s m) /\
    forall b, m !! b = orphaned pm l b <$> procs s !! b.
Proof.
  induction l as [|c l IH]; intros s Hrep HP Hin; cbn [reparent].
  { exists (procs s). split; [by destruct s|]. intros b. unfold orphaned. simpl. by destruct (procs s !! b). }
  apply Forall_cons in HP as [HPc HP]. erewrite bind_run by (by apply (lookup_pid_run s pm)).
  destruct (pm !! c) as [b|] eqn:Hc; simpl default.
  - destruct (Hin c b) as [Hb0 [q Hq]]; [left|done|]. rewrite (proj2 (Z.eqb_neq b 0) Hb0).
    erewrite bind_run.
    2: { erewrite bind_run by (unfold get_proc; by rewrite Hq). reflexivity. }
    set (s1 := set_procs s (<[b := set_ppid q 1]> (procs s))).
    destruct (IH s1) as (m & Hm & Hall); auto.
    { intros d e Hd He. destruct (Hin d e) as [? [x Hx]]; [by right|done|]. split; [done|].
      simpl. rewrite lookup_insert_is_Some'. by right; eexists. }
    exists m. split; [exact Hm|]. intros e. rewrite Hall. simpl. unfold orphaned. simpl. rewrite Hc.
    destruct (decide (b = e)) as [<-|Hne].
    + rewrite lookup_insert_eq, Hq. simpl. f_equal. rewrite (bool_decide_eq_true_2 (b ∈ b :: _)) by left.
      by case_bool_decide.
    + rewrite lookup_insert_ne by done. destruct (procs s !! e); [|done]. simpl. f_equal.
      case_bool_decide as A; case_bool_decide as B; auto; exfalso; set_solver.
  - erewrite bind_run by reflexivity. destruct (IH s) as (m & Hm & Hall); auto.
    { intros d e Hd He. apply (Hin d e); [by right|done]. }
    exists m. split; [exact Hm|]. intros e. rewrite Hall. unfold orphaned. simpl. by rewrite Hc.
Qed.

(** What the other processes become when [p] is freed: its parent [par] forgets
    it, init adopts its children, and the children get init as parent. *)
Definition forget_child (par : option Z) (c b : Z) (q : process) : process :=
  if bool_decide (par = Some b) then set_children q (remove_child c (children q)) else q.
Definition adopt (init : Z) (l : list Z) (b : Z) (q : process) : process :=
  if bool_decide (b = init) then set_children q (children q ++ l) else q.

Lemma forget_spec s pm c i :
  Pid.table_rep P (pids s) pm -> P i -> (forall b, pm !! i = Some b -> b <> 0 /\ is_Some (procs s !! b)) ->
  exists m, (parent ← lookup_pid i;
     if parent =? 0 then mret tt else
       pp ← get_proc parent;
       put_proc parent (set_children pp (remove_child c (children pp)))) s = Some (tt, set_procs s m) /\
    forall b, m !! b = forget_child (pm !! i) c b <$> procs s !! b.
Proof.
  intros Hrep HP Hin. erewrite bind_run by (by apply (lookup_pid_run s pm)). unfold forget_child.
  destruct (pm !! i) as [b|] eqn:Hi; cbn [default from_option id].
  - destruct (Hin b eq_refl) as [Hb [q Hq]]. rewrite (proj2 (Z.eqb_neq b 0) Hb).
    erewrite bind_run by (unfold get_proc; by rewrite Hq). eexists. split; [reflexivity|].
    intros e. destruct (decide (b = e)) as [<-|Hne].
    + rewrite lookup_insert_eq, Hq. simpl. by rewrite bool_decide_eq_true_2.
    + rewrite lookup_insert_ne by done. destruct (procs s !! e); [|done]. simpl.
      rewrite bool_decide_eq_false_2; [done|congruence].
  - exists (procs s). split; [by destruct s|]. intros e. by destruct (procs s !! e).
Qed.

Lemma adopt_spec s pm init l :
  Pid.table_rep P (pids s) pm -> Forall P (1 :: l) -> all_succeed (oracle s) ->
  pm !! 1 = Some init -> init <> 0 -> is_Some (procs s !! init) ->
  (forall c b, c ∈ l -> pm !! c = Some b -> b <> 0 /\ is_Some (procs s !! b)) ->
  exists m o, (if zlen l =? 0 then mret tt else
      ia ← lookup_pid 1;
      if ia =? 0 then mret tt else
      ip ← get_proc ia;
      ok ← with_oracle malloc;
      if negb (ok : bool) then fault else
      _ ← put_proc ia (set_children ip (children ip ++ l));
      reparent l) s = Some (tt, set_oracle (set_procs s m) o) /\
    forall b, m !! b = (fun q => orphaned pm l b (adopt init l b q)) <$> procs s !! b.
Proof.
  intros Hrep HP Ho Hinit Hi0 [ip Hip] Hin. apply Forall_cons in HP as [HP1 HP].
  destruct (Z.eqb_spec (zlen l) 0) as [Hz|Hz].
  - assert (l = []) as -> by (destruct l; [done|unfold zlen in Hz; simpl in Hz; lia]).
    exists (procs s), (oracle s). split; [by destruct s|]. intros b. destruct (procs s !! b) as [q|]; [|done].
    unfold orphaned, adopt. simpl. case_bool_decide; [|done]. rewrite app_nil_r. by destruct q.
  - erewrite bind_run by (by apply (lookup_pid_run s pm)). rewrite Hinit. cbn [default from_option id].
    rewrite (proj2 (Z.eqb_neq init 0) Hi0). erewrite bind_run by (unfold get_proc; by rewrite Hip).
    destruct (malloc_succeeds 0 (oracle s)) as (o & Hm & _); [by apply Forall_take|].
    erewrite bind_run by (unfold with_oracle; by rewrite Hm). cbn [negb].
    erewrite bind_run by reflexivity.
    set (s1 := set_procs (set_oracle s o) (<[init := set_children ip (children ip ++ l)]> (procs s))).
    destruct (reparent_spec pm l s1 Hrep HP) as (m & Hr & Hall).
    { intros c b Hc Hb. destruct (Hin c b Hc Hb) as [? ?]. split; [done|].
      simpl. rewrite lookup_insert_is_Some'. by right. }
    exists m, o. split; [exact Hr|]. intros b. rewrite Hall. simpl. unfold adopt.
    destruct (decide (init = b)) as [<-|].
    + rewrite lookup_insert_eq, Hip. simpl. by rewrite bool_decide_eq_true_2.
    + rewrite lookup_insert_ne by done. destruct (procs s !! b); [|done]. simpl.
      by rewrite bool_decide_eq_false_2.
Qed.

Lemma orphaned_delete pm l i b q : i ∉ l -> orphaned (base.delete i pm) l b q = orphaned pm l b q.
Proof.
  intros Hi. unfold orphaned.
  rewrite (bool_decide_ext (b ∈ omap (fun c => base.delete i pm !! c) l) (b ∈ omap (fun c => pm !! c) l)); [done|].
  rewrite !list_elem_of_omap.
  split; intros (c & Hc & Hb); exists c; (split; [done|]).
  - by apply lookup_delete_Some in Hb as [_ ?].
  - apply lookup_delete_Some. split; [|done]. intros ->. done.
Qed.

Lemma process_free_spec s pm a p init :
  table_ok s pm -> all_succeed (oracle s) -> procs s !! a = Some p ->
  pm !! pid p = Some a -> ppid p <> pid p -> pid p <> 1 -> pm !! 1 = Some init ->
  Forall P (pid p :: ppid p :: 1 :: children p) -> pid p ∉ children p -> a <> init ->
  (forall i, pm !! i = Some a -> i = pid p) ->
  exists s', process_free a s = Some (tt, s') /\
    Pid.table_rep P (pids s') (base.delete (pid p) pm) /\ procs s' !! a = None /\
    (forall b, b <> a -> procs s' !! b =
       (fun q => orphaned pm (children p) b (adopt init (children p) b
                   (forget_child (pm !! ppid p) (pid p) b q))) <$> procs s !! b) /\
    queue s' = queue s /\ front s' = front s.
Proof.
  intros [Hrep Htab] Ho Hp Hpa Hpp Hp1 Hinit HP Hself Hai Huniq.
  apply Forall_cons in HP as [HPp HP]. apply Forall_cons in HP as [HPpp HP].
  assert (Hin : forall (m : gmap Z process) i b, (forall e, is_Some (procs s !! e) -> is_Some (m !! e)) ->
    base.delete (pid p) pm !! i = Some b -> b <> 0 /\ is_Some (m !! b)).
  { intros m i b Hm [_ Hb]%lookup_delete_Some. destruct (Htab i b Hb) as (? & q & Hq & _).
    split; [done|]. apply Hm. by exists q. }
  destruct (Pid.table_unmap P P_distinct (pids s) pm (pid p) Hrep HPp) as (st & Hst & Hrep1).
  set (s1 := set_pids s st).
  destruct (forget_spec s1 (base.delete (pid p) pm) (pid p) (ppid p) Hrep1 HPpp) as (m1 & Hf & Hm1).
  { intros b. by apply Hin. }
  rewrite lookup_delete_ne in Hm1 by done. simpl in Hm1.
  assert (Hm1s : forall e, is_Some (procs s !! e) -> is_Some (m1 !! e)).
  { intros e [q Hq]. rewrite Hm1, Hq. by eexists. }
  set (s2 := set_procs s1 m1).
  destruct (adopt_spec s2 (base.delete (pid p) pm) init (children p) Hrep1 HP Ho) as (m2 & o2 & Hd & Hm2).
  { by rewrite lookup_delete_ne. }
  { by destruct (Htab 1 init Hinit). }
  { destruct (Htab 1 init Hinit) as (_ & q & Hq & _). apply Hm1s. by exists q. }
  { intros c b _. by apply Hin. }
  exists (set_procs (set_oracle (set_procs s2 m2) o2) (base.delete a m2)).
  assert (Hpa1 : m1 !! a = Some p).
  { rewrite Hm1, Hp. simpl. unfold forget_child. rewrite bool_decide_eq_false_2; [done|].
    intros E. by apply Hpp, Huniq. }
  split.
  { unfold process_free. erewrite bind_run by (unfold get_proc; by rewrite Hp).
    erewrite bind_run by (unfold unmap_pid; by rewrite Hst).
    rewrite <- bind_assoc. erewrite bind_run by exact Hf.
    erewrite bind_run by (unfold get_proc; simpl; by rewrite Hpa1). erewrite bind_run by exact Hd. done. }
  split; [done|]. split; [apply lookup_delete_eq|]. split; [|done].
  intros b Hb. simpl. rewrite lookup_delete_ne, Hm2 by done. simpl. rewrite Hm1.
  destruct (procs s !! b); [|done]. simpl. f_equal. by apply orphaned_delete.
Qed.

Lemma delete_index_front {A} (q : list A) index f x :
  0 <= index -> 0 <= f -> f <> index -> q.[f] = Some x ->
  (take (Z.to_nat index) q ++ drop (S (Z.to_nat index)) q).[if index <? f then f - 1 else f] = Some x.
Proof.
  intros Hi Hf Hne Hx. unfold zlookup in *. destruct (Z.ltb_spec f 0); [lia|].
  pose proof (lookup_lt_Some _ _ _ Hx) as Hlt. destruct (Z.ltb_spec index f).
  - destruct (Z.ltb_spec (f - 1) 0); [lia|]. rewrite lookup_app_r; rewrite length_take; [|lia].
    rewrite lookup_drop. rewrite <- Hx. f_equal. lia.
  - destruct (Z.ltb_spec f 0); [lia|]. rewrite lookup_app_l by (rewrite length_take; lia).
    rewrite lookup_take_lt by lia. done.
Qed.

(** C24: freeing a process that is not init takes it out of the process table,
    the process queue and its parent's list of children; its children become
    children of init, in the list of init and by their own parent ID; every
    other process is left alone, and the scheduler's position still names the
    process it named. *)
Theorem process_exit_correct s pm index a p init :
  table_ok s pm -> all_succeed (oracle s) -> (queue s).[index] = Some a -> procs s !! a = Some p ->
  pm !! pid p = Some a -> ppid p <> pid p -> pid p <> 1 -> pm !! 1 = Some init ->
  Forall P (pid p :: ppid p :: 1 :: children p) -> pid p ∉ children p -> a <> init ->
  (forall i, pm !! i = Some a -> i = pid p) ->
  exists s', process_exit index s = Some (tt, s') /\
    Pid.table_rep P (pids s') (base.delete (pid p) pm) /\
    procs s' !! a = None /\
    (forall b, b <> a -> procs s' !! b =
       (fun q => orphaned pm (children p) b (adopt init (children p) b
                   (forget_child (pm !! ppid p) (pid p) b q))) <$> procs s !! b) /\
    queue s' = take (Z.to_nat index) (queue s) ++ drop (S (Z.to_nat index)) (queue s) /\
    (forall f, 0 <= front s -> front s <> index -> (queue s).[front s] = Some f -> (queue s').[front s'] = Some f).
Proof.
  intros Htab Ho Hidx Hp Hpa Hpp Hp1 Hinit HP Hself Hai Huniq.
  destruct (process_free_spec s pm a p init) as (s1 & Hfree & Hrep & Hgone & Hall & Hq & Hf); auto.
  pose proof (zlookup_Some_lt _ _ _ Hidx) as Hlt.
  eexists. split.
  - unfold process_exit. rewrite gets_run. erewrite bind_run by (unfold lift; by rewrite Hidx).
    erewrite bind_run by exact Hfree. reflexivity.
  - split_and!; auto. intros f Hf0 Hne Hfx. cbn [queue front set_queue]. rewrite Hf.
    apply delete_index_front; auto. lia.
Qed.
End tree.

(** ** A concrete system

    The kernel process, init, and a running user process; the process table
    knows init. *)
Definition demo_proc (i pp u : Z) : process :=
  mk_proc i pp i u u [thread0 (info_of 0)] 0 [] demo_empty (replicate 144 0)
    (replicate 64 (mk_sigaction 0 0 0 0)).

Definition demo_pids : Pid.pid_state hashmap :=
  match Pid.map_pid_process Pid.boot_state 1 4096 [] with
  | Some (st, _) => st
  | None => Pid.boot_state
  end.

Definition demo_sys : sys hashmap :=
  mk_sys (<[100 := demo_proc 0 0 0]> (<[4096 := demo_proc 1 0 0]> (<[8192 := demo_proc 2 1 7]> ∅)))
    [100; 4096; 8192] 2 demo_pids (info_of 0) 0 0 [].

Lemma map_pid_rep {T} `{KernelMap T} (st : Pid.pid_state T) g i a o :
  km_rep (Pid.pid_hashmap st) g -> km_safe (Pid.pid_hashmap st) o -> all_succeed o ->
  exists st' o' k, Pid.map_pid_process st i a o = Some (st', o') /\
    km_rep (Pid.pid_hashmap st') (<[k := a]> g).
Proof.
  intros Hg Hs Ho. destruct (Pid.pid_key_ok i) as (k & E & R).
  destruct (km_insert_law _ g k a o Hg R Hs) as (r & h & o1 & Hi & C & A).
  rewrite A in * by done. destruct C as [[_ C]|[? _]]; [|done].
  exists (Pid.set_pid_hashmap st h), o1, k. unfold Pid.map_pid_process. rewrite E. orun. rewrite Hi. done.
Qed.

Lemma demo_pids_rep : exists g, km_rep (Pid.pid_hashmap demo_pids) g /\
  forall k v, g !! k = Some v -> v = 4096.
Proof.
  destruct (map_pid_rep Pid.boot_state ∅ 1 4096 []) as (st & o & k & E & Hrep).
  { split; [exact empty_hashmap_ok|reflexivity]. }
  { split; [reflexivity|intros E; vm_compute in E; discriminate]. }
  { constructor. }
  exists (<[k := 4096]> ∅). split.
  - unfold demo_pids. by rewrite E.
  - intros j v Hv. apply lookup_insert_Some in Hv as [[_ <-]|[_ Hv]]; [done|]. by rewrite lookup_empty in Hv.
Qed.

Lemma demo_proc_ok i pp u : proc_ok 1000 (demo_proc i pp u).
Proof. split; [constructor; [split; [apply thread0_ok|done]|constructor]|done]. Qed.

Lemma demo_sys_ok : sys_ok 1000 demo_sys.
Proof.
  split.
  - unfold demo_sys. cbn [procs]. repeat (apply map_Forall_insert_2; [apply demo_proc_ok|]). apply map_Forall_empty.
  - repeat constructor; by eexists.
  - done.
  - intros i. destruct demo_pids_rep as (g & Hg & Hv). destruct (Pid.pid_key_ok i) as (k & Hk & Hr).
    exists (default 0 (g !! k)). split.
    + unfold Pid.lookup_pid. cbn [pids demo_sys]. rewrite Hk. orun. by apply km_lookup_law.
    + destruct (g !! k) as [v|] eqn:E; [|by left]. right. rewrite (Hv k v E). by eexists.
  - intros a p Ha Hp. simpl in Ha. rewrite !elem_of_cons, elem_of_nil in Ha.
    destruct Ha as [->|[->|[]]]; vm_compute in Hp; injection Hp as <-; done.
  - constructor.
Qed.


Lemma sys_kill_process_witness :
  exists a, Pid.lookup_pid demo_pids 1 = Some a /\
    ((a = 0 /\ sys_kill (info_of 0) 1 1 15 demo_sys = Some (Err ESRCH, demo_sys)) \/
     exists p, a <> 0 /\ procs demo_sys !! a = Some p /\
       ((euid (demo_proc 2 1 7) <> 0 /\ euid p <> 7 /\ sys_kill (info_of 0) 1 1 15 demo_sys = Some (Err EPERM, demo_sys)) \/
        ((euid (demo_proc 2 1 7) <> 0 -> euid p = 7) /\
         exists p' o, sys_kill (info_of 0) 1 1 15 demo_sys =
             Some (Ok 0, set_oracle (set_procs demo_sys (<[a := p']> (procs demo_sys))) o) /\
           delivered 15 (mk_siginfo 15 SI_USER 0 (kill_data 2 7)) p p'))).
Proof.
  apply (sys_kill_process (info_of 0) 999 demo_sys 1 15 8192 (demo_proc 2 1 7)).
  - exact demo_sys_ok.
  - lia.
  - lia.
  - lia.
  - reflexivity.
  - reflexivity.
Defined.


Lemma sys_sigaction_correct_witness :
  let act := mk_sigaction 77 0 0 0 in let me := demo_proc 2 1 7 in
  (bad_action_signal 10 = true /\ sys_sigaction 10 (Some act) demo_sys = Some (Err EINVAL, None, demo_sys)) \/
  (1 <= 10 <= NSIG /\ 10 <> SIGKILL /\ 10 <> SIGSTOP /\
   exists old hs s', (sighandlers me).[10 - 1] = Some old /\
     sys_sigaction 10 (Some act) demo_sys = Some (Ok 0, Some old, s') /\
     s' = set_procs demo_sys (<[8192 := set_sighandlers me hs]> (procs demo_sys)) /\
     (forall i, hs.[i] = if i =? 10 - 1 then Some act else (sighandlers me).[i]) /\
     sys_sigaction 10 None s' = Some (Ok 0, Some act, s')).
Proof.
  apply (sys_sigaction_correct 1000 demo_sys 10 (mk_sigaction 77 0 0 0) 8192 (demo_proc 2 1 7) demo_sys_ok);
    reflexivity.
Defined.

Lemma nanosleep_not_early_witness :
  exists r s' me' t, sys_nanosleep [5; 500; 1010; 1020] 0 1000 (0, 0) demo_sys = Some (r, s') /\
    procs s' !! 8192 = Some me' /\ (threads me').[tfront me'] = Some t /\
    match r with
    | Some (rs, rn) =>
        (exists k t, [5; 500; 1010; 1020] !! k = Some t /\ 1005 <= t /\
          Forall (fun t => t < 1005) (take k [5; 500; 1010; 1020])) /\
        ((rs, rn) = (0, 0) \/ 0 <= rs /\ 0 <= rn < 1000000000) /\ slow_syscall t = 0
    | None => Forall (fun t => t < 1005) [5; 500; 1010; 1020] /\ slow_syscall t = 1
    end.
Proof.
  apply (nanosleep_not_early 1000 demo_sys 8192 (demo_proc 2 1 7) 5 [500; 1010; 1020] 0 1000 (0, 0)).
  - exact demo_sys_ok.
  - reflexivity.
  - reflexivity.
  - lia.
  - repeat constructor; lia.
  - lia.
  - lia.
  - reflexivity.
Defined.

(** The same system with the user process in the table and a child of its own. *)
Definition demo_known (i : Z) : Prop := i = 1 \/ i = 2 \/ i = 3.

Lemma demo_known_distinct p q :
  demo_known p -> demo_known q -> Pid.pid_key p = Pid.pid_key q -> p = q.
Proof. intros [-> | [-> | ->]] [-> | [-> | ->]] E; try reflexivity; vm_compute in E; discriminate. Qed.

Definition demo_pids2 : Pid.pid_state hashmap :=
  match Pid.map_pid_process demo_pids 2 8192 [] with
  | Some (st, _) => st
  | None => demo_pids
  end.

Definition demo_user : process := set_children (demo_proc 2 1 7) [3].

Definition demo_tree : sys hashmap :=
  mk_sys (<[4096 := set_children (demo_proc 1 0 0) [2]]> (<[8192 := demo_user]> ∅))
    [4096; 8192] 0 demo_pids2 (info_of 0) 0 0 [].

Definition demo_table : gmap Z Z := <[2 := 8192]> (<[1 := 4096]> ∅).

Lemma demo_pids2_rep : Pid.table_rep demo_known demo_pids2 demo_table.
Proof.
  destruct (Pid.table_map demo_known demo_known_distinct Pid.boot_state ∅ 1 4096 []) as (st & o & E & Hrep).
  { exists ∅. split; [split; [exact empty_hashmap_ok|reflexivity]|intros; reflexivity]. }
  { by left. }
  { split; [reflexivity|intros E; vm_compute in E; discriminate]. }
  { constructor. }
  assert (demo_pids = st) as Est by (unfold demo_pids; by rewrite E).
  destruct (Pid.table_map demo_known demo_known_distinct demo_pids (<[1 := 4096]> ∅) 2 8192 [])
    as (st2 & o2 & E2 & Hrep2).
  { by rewrite Est. }
  { by right; left. }
  { split; [vm_compute; reflexivity|intros X; vm_compute in X; discriminate]. }
  { constructor. }
  unfold demo_pids2. by rewrite E2.
Qed.

Lemma demo_table_ok : table_ok demo_known demo_tree demo_table.
Proof.
  split; [exact demo_pids2_rep|]. intros i a Hi. unfold demo_table in Hi.
  apply lookup_insert_Some in Hi as [[<- <-]|[_ Hi]]; [split; [done|by eexists]|].
  apply lookup_insert_Some in Hi as [[<- <-]|[_ Hi]]; [split; [done|by eexists]|].
  by rewrite lookup_empty in Hi.
Qed.

Lemma process_exit_correct_witness :
  exists s', process_exit 1 demo_tree = Some (tt, s') /\
    Pid.table_rep demo_known (pids s') (base.delete 2 demo_table) /\
    procs s' !! 8192 = None /\
    (forall b, b <> 8192 -> procs s' !! b =
       (fun q => orphaned demo_table [3] b (adopt 4096 [3] b
                   (forget_child (Some 4096) 2 b q))) <$> procs demo_tree !! b) /\
    queue s' = [4096] /\
    (forall f, 0 <= 0 -> 0 <> 1 -> (queue demo_tree).[0] = Some f -> (queue s').[front s'] = Some f).
Proof.
  apply (process_exit_correct demo_known demo_known_distinct demo_tree demo_table 1 8192 demo_user 4096).
  - exact demo_table_ok.
  - constructor.
  - reflexivity.
  - reflexivity.
  - reflexivity.
  - discriminate.
  - discriminate.
  - reflexivity.
  - change (Forall demo_known [2; 1; 1; 3]). unfold demo_known.
    repeat (apply Forall_cons_2; [auto|]). apply Forall_nil_2.
  - intros E. apply list_elem_of_singleton in E. discriminate.
  - discriminate.
  - intros i Hi. unfold demo_table in Hi.
    apply lookup_insert_Some in Hi as [[Hj _]|[_ Hi]]; [exact (eq_sym Hj)|].
    apply lookup_insert_Some in Hi as [[_ Hx]|[_ Hi]]; [discriminate|].
    rewrite lookup_empty in Hi. discriminate.
Defined.

(** ** Defects *)

(** Once its only child has been freed, a process can no longer collect the
    child's status: the wait reports that there are no children. *)
Lemma freed_child_not_waitable :
  (let parent := set_waits (demo_proc 1 0 0) demo_wait in
   let s := mk_sys (<[4096 := parent]> ∅) [4096] 0 demo_pids (info_of 0) 0 0 [] in
   '(r, _) ← sys_wait4 [] (-1) WNOHANG s;
   '(k, _, _) ← do_wait (waits parent) (-1) 1;
   Some (option_map fst r, k)) = Some (Some (Err ECHILD), 12).
Proof. vm_compute. reflexivity. Qed.

(** The wait state of a child records the process group of the parent, so a
    wait for the caller's own group also reaps children of other groups. *)
Lemma wait_state_has_parent_group :
  ('(_, s) ← sys_exit 0 3 demo_sys;
   p ← procs s !! 4096;
   '(k, _, _) ← do_wait (waits p) 0 (pgid p);
   Some (k, pgid (demo_proc 2 1 7) =? pgid p)) = Some (2, false).
Proof. vm_compute. reflexivity. Qed.

(** A signal that is ignored by default, and a real-time signal, which would end
    the process, load the null handler. *)
Lemma default_ignored_loads_null :
  (forall sg, sg = SIGCHLD \/ sg = 40 ->
   ('(killed, s) ← handle_signal (info_of 0) 0 sg demo_sys;
    p ← procs s !! 8192; t ← (threads p).[0];
    Some (killed, handler t, hsig t)) = Some (false, 0, sg)) /\
  default_action_of SIGCHLD = Ign /\ default_action_of 40 = Term.
Proof. split; [intros sg [->| ->]; vm_compute; reflexivity|split; reflexivity]. Qed.
End ProcCtl.
