(* ===== verification/Pipe.v ===== *)
(** * Pipes (drivers/fs/pipe.c)

    The pipe buffer and the two transfer routines, cut where they give up the
    processor ([sched_yield]) or release the lock, so that a reader and a writer
    can be interleaved. *)

From S2P Require Import Prelude.

Module Pipe.

Abbreviation PIPE_SIZE := 32768.

(** [struct pipe] *)
Record pipe := mk_pipe {
  buffer : list Z;
  start : Z;
  endp : Z;
  widowed : bool;
  lock : bool
}.

Definition set_window (p : pipe) (s e : Z) : pipe := mk_pipe (buffer p) s e (widowed p) (lock p).
Definition set_buffer (p : pipe) (b : list Z) : pipe := mk_pipe b (start p) (endp p) (widowed p) (lock p).
Definition set_lock (p : pipe) (l : bool) : pipe := mk_pipe (buffer p) (start p) (endp p) (widowed p) l.
Definition set_widowed (p : pipe) : pipe := mk_pipe (buffer p) (start p) (endp p) true (lock p).

Definition acquire (p : pipe) : option pipe := if lock p then None else Some (set_lock p true).
Definition release (p : pipe) : pipe := set_lock p false.

(** [memcpy] out of the buffer, [None] outside of it. *)
Definition copy_out (b : list Z) (off n : Z) : option (list Z) :=
  if (0 <=? off) && (0 <=? n) && (off + n <=? zlen b)
  then Some (take (Z.to_nat n) (drop (Z.to_nat off) b)) else None.

(** ** Reading *)

(** The test of the loop that waits for data. *)
Definition read_ready (p : pipe) : bool := negb (start p =? endp p).

(** From the acquisition of the lock to the return. *)
Definition read_locked (p : pipe) (len : Z) : option (list Z * pipe) :=
  p ← acquire p;
  let real_len := u64 (endp p - start p) in
  data ← copy_out (buffer p) (start p) (if real_len <? len then real_len else len);
  let p := if real_len <=? len then set_window p 0 0 else p in
  Some (data, release p).

(** ** Writing *)

(** From the acquisition of the lock to the return, or to its release when
    there is no room at the end; the flag says whether the data was written. *)
Definition write_try (p : pipe) (data : list Z) : option (bool * pipe) :=
  p ← acquire p;
  if u64 (PIPE_SIZE - endp p) <? zlen data then Some (false, release p) else
  b ← blit (buffer p) (endp p) data;
  Some (true, release (set_window (set_buffer p b) (start p) (u64 (endp p + zlen data)))).

(** The test of the loop that waits for room. *)
Definition write_ready (p : pipe) (data : list Z) : bool :=
  negb (u64 (PIPE_SIZE - endp p + start p) <? zlen data).

(** The second half: moves the contents to the front and appends. *)
Definition write_compact (p : pipe) (data : list Z) : option pipe :=
  p ← acquire p;
  moved ← copy_out (buffer p) (start p) (u64 (endp p - start p));
  b ← blit (buffer p) 0 moved;
  let p := set_window (set_buffer p b) 0 (u64 (endp p - start p)) in
  b ← blit (buffer p) (endp p) data;
  Some (release (set_window (set_buffer p b) (start p) (u64 (endp p + zlen data)))).

(** ** Whole calls of a process that runs alone; [Blocked] waits for ever *)

Inductive outcome (A : Type) := Done (r : res A) (p : pipe) | Blocked.
Arguments Done {A} r p.
Arguments Blocked {A}.

Definition pipe_read (p : pipe) (len : Z) : option (outcome (list Z)) :=
  if widowed p then Some (Done (Ok []) p) else
  if negb (read_ready p) then Some Blocked else
  '(data, p) ← read_locked p len;
  Some (Done (Ok data) p).

(** The error also sends [SIGPIPE] to the caller. *)
Definition pipe_write (p : pipe) (data : list Z) : option (outcome Z) :=
  if widowed p then Some (Done (Err EPIPE) p) else
  if PIPE_SIZE <? zlen data then Some (Done (Err ENOSPC) p) else
  '(done, p) ← write_try p data;
  if done : bool then Some (Done (Ok (zlen data)) p) else
  if negb (write_ready p data) then Some Blocked else
  p ← write_compact p data;
  Some (Done (Ok (zlen data)) p).

(** The first of the two ends to go leaves the pipe widowed, the second frees
    it and lets its address be used again. *)
Definition pipe_dealloc (p : pipe) (pipe_addr addr : Z) : option pipe * Z :=
  if widowed p then (None, if addr <? pipe_addr then addr else pipe_addr)
  else (Some (set_widowed p), pipe_addr).

(** ** The contents *)

Definition contents (p : pipe) : list Z := take (Z.to_nat (endp p - start p)) (drop (Z.to_nat (start p)) (buffer p)).

(** [start] is never advanced: the readable bytes are a prefix of the buffer. *)
Definition pipe_ok (p : pipe) : Prop :=
  zlen (buffer p) = PIPE_SIZE /\ start p = 0 /\ 0 <= endp p <= PIPE_SIZE /\ lock p = false.

Lemma contents_prefix p : pipe_ok p -> contents p = take (Z.to_nat (endp p)) (buffer p).
Proof. intros (_ & Hs & _). unfold contents. by rewrite Hs, Z.sub_0_r. Qed.

Lemma contents_len p : pipe_ok p -> zlen (contents p) = endp p.
Proof.
  intros Hok. rewrite contents_prefix by done. destruct Hok as (Hl & _ & He & _).
  unfold zlen in *. rewrite length_take. lia.
Qed.

Lemma copy_out_prefix b n : 0 <= n <= zlen b -> copy_out b 0 n = Some (take (Z.to_nat n) b).
Proof.
  intros Hn. unfold copy_out. destruct (Z.leb_spec 0 0), (Z.leb_spec 0 n), (Z.leb_spec (0 + n) (zlen b)); try lia.
  done.
Qed.

Lemma read_locked_spec p len :
  pipe_ok p -> 0 <= len ->
  exists p', read_locked p len = Some (take (Z.to_nat len) (contents p), p') /\ pipe_ok p' /\
    widowed p' = widowed p /\
    contents p' = if zlen (contents p) <=? len then [] else contents p.
Proof.
  intros Hok Hlen. pose proof (contents_len p Hok) as Hcl. pose proof (contents_prefix p Hok) as Hc.
  pose proof Hok as (Hl & Hs & He & Hk). unfold read_locked, acquire. rewrite Hk. orun. simpl.
  rewrite Hs, Z.sub_0_r, (wrap_small 64 (endp p)), Hcl by lia.
  destruct (Z.ltb_spec (endp p) len), (Z.leb_spec (endp p) len); try lia.
  - rewrite copy_out_prefix by lia. orun. eexists. split.
    + f_equal. f_equal. rewrite Hc. rewrite take_take. f_equal. lia.
    + unfold pipe_ok. split_and!; simpl; auto; lia.
  - rewrite copy_out_prefix by lia. orun. eexists. split.
    + f_equal. f_equal. rewrite Hc, take_take. f_equal. lia.
    + unfold pipe_ok. split_and!; simpl; auto; lia.
  - rewrite copy_out_prefix by lia. orun. eexists. split.
    + f_equal. f_equal. rewrite Hc, take_take. f_equal. lia.
    + unfold pipe_ok. split_and!; simpl; auto; lia.
Qed.

(** Bytes appended after the first [endp]. *)
Lemma append_ok p b data :
  pipe_ok p -> zlen b = PIPE_SIZE -> take (Z.to_nat (endp p)) b = contents p ->
  endp p + zlen data <= PIPE_SIZE ->
  exists b', blit b (endp p) data = Some b' /\
    pipe_ok (release (set_window (set_buffer p b') 0 (u64 (endp p + zlen data)))) /\
    contents (release (set_window (set_buffer p b') 0 (u64 (endp p + zlen data)))) = contents p ++ data.
Proof.
  intros Hok Hb Hpre Hroom. pose proof Hok as (Hl & Hs & He & Hk). pose proof (zlen_nonneg data).
  destruct (blit_spec b (endp p) data) as (b' & Hin & Hbl & Htk); [lia..|].
  rewrite wrap_small by lia. exists b'.
  assert (pipe_ok (release (set_window (set_buffer p b') 0 (endp p + zlen data)))) as Hok'
    by (unfold pipe_ok; split_and!; simpl; auto; lia).
  split_and!; auto. rewrite contents_prefix by done. simpl. by rewrite Htk, Hpre.
Qed.

Lemma write_try_spec p data :
  pipe_ok p ->
  exists done p', write_try p data = Some (done, p') /\ pipe_ok p' /\ widowed p' = widowed p /\
    if done : bool then contents p' = contents p ++ data
    else p' = p /\ PIPE_SIZE - endp p < zlen data.
Proof.
  intros Hok. pose proof Hok as (Hl & Hs & He & Hk). unfold write_try, acquire. rewrite Hk. orun. simpl.
  rewrite (wrap_small 64 (PIPE_SIZE - endp p)) by lia.
  destruct (Z.ltb_spec (PIPE_SIZE - endp p) (zlen data)) as [Hlt|Hge].
  - exists false, p. assert (release (set_lock p true) = p) as -> by (destruct p; simpl in *; by subst).
    auto.
  - destruct (append_ok p (buffer p) data Hok Hl) as (b' & Hin & Hok' & Hc'); [|lia|].
    { by rewrite contents_prefix. }
    rewrite Hin. orun. exists true. eexists. split; [reflexivity|]. rewrite Hs. auto.
Qed.

Lemma write_compact_spec p data :
  pipe_ok p -> endp p + zlen data <= PIPE_SIZE ->
  exists p', write_compact p data = Some p' /\ pipe_ok p' /\ widowed p' = widowed p /\
    contents p' = contents p ++ data.
Proof.
  intros Hok Hroom. pose proof Hok as (Hl & Hs & He & Hk). unfold write_compact, acquire. rewrite Hk. orun.
  simpl. rewrite Hs, Z.sub_0_r, (wrap_small 64 (endp p)), copy_out_prefix by lia. orun.
  destruct (blit_spec (buffer p) 0 (take (Z.to_nat (endp p)) (buffer p))) as (b & -> & Hbl & Htk);
    [lia|unfold zlen in *; rewrite length_take; lia|]. orun.
  assert (take (Z.to_nat (endp p)) b = contents p) as Hpre.
  { rewrite contents_prefix by done. rewrite <- Htk at 1. f_equal. unfold zlen in *. rewrite length_take. lia. }
  destruct (append_ok p b data Hok) as (b' & Hin & Hok' & Hc'); auto; [lia|].
  rewrite Hin. orun. eexists. split; [reflexivity|]. auto.
Qed.

(** ** A reader and a writer

    Where each of the two threads is in its call, and the bytes that completed
    reads returned and completed writes accepted. *)

Inductive reader := RIdle | RWait (len : Z) | RReady (len : Z).
Inductive writer := WIdle | WTry (data : list Z) | WWait (data : list Z) | WReady (data : list Z).

Record system := mk_system {
  sp : pipe; rd : reader; wr : writer; taken : list Z; given : list Z
}.

(** The reader asks for at least [PIPE_SIZE] bytes. *)
Inductive step : system -> system -> Prop :=
| s_read_call p w t g len :
    widowed p = false -> PIPE_SIZE <= len ->
    step (mk_system p RIdle w t g) (mk_system p (RWait len) w t g)
| s_read_eof p w t g :
    widowed p = true -> step (mk_system p RIdle w t g) (mk_system p RIdle w t g)
| s_read_data p w t g len :
    read_ready p = true ->
    step (mk_system p (RWait len) w t g) (mk_system p (RReady len) w t g)
| s_read_copy p w t g len data p' :
    read_locked p len = Some (data, p') ->
    step (mk_system p (RReady len) w t g) (mk_system p' RIdle w (t ++ data) g)
| s_write_call p r t g data :
    widowed p = false -> zlen data <= PIPE_SIZE ->
    step (mk_system p r WIdle t g) (mk_system p r (WTry data) t g)
| s_write_error p r t g (data : list Z) :
    widowed p = true \/ PIPE_SIZE < zlen data ->
    step (mk_system p r WIdle t g) (mk_system p r WIdle t g)
| s_write_fits p r t g data p' :
    write_try p data = Some (true, p') ->
    step (mk_system p r (WTry data) t g) (mk_system p' r WIdle t (g ++ data))
| s_write_full p r t g data p' :
    write_try p data = Some (false, p') ->
    step (mk_system p r (WTry data) t g) (mk_system p' r (WWait data) t g)
| s_write_room p r t g data :
    write_ready p data = true ->
    step (mk_system p r (WWait data) t g) (mk_system p r (WReady data) t g)
| s_write_copy p r t g data p' :
    write_compact p data = Some p' ->
    step (mk_system p r (WReady data) t g) (mk_system p' r WIdle t (g ++ data))
| s_close p r w t g : step (mk_system p r w t g) (mk_system (set_widowed p) r w t g).

Definition reader_ok (r : reader) : Prop :=
  match r with RIdle => True | RWait len | RReady len => PIPE_SIZE <= len end.

(** A writer past its wait still finds the room it waited for. *)
Definition writer_ok (p : pipe) (w : writer) : Prop :=
  match w with WReady data => endp p + zlen data <= PIPE_SIZE | _ => True end.

Definition system_ok (s : system) : Prop :=
  pipe_ok (sp s) /\ reader_ok (rd s) /\ writer_ok (sp s) (wr s) /\
  given s = taken s ++ contents (sp s).

Lemma full_read p len : pipe_ok p -> PIPE_SIZE <= len ->
  take (Z.to_nat len) (contents p) = contents p /\ (zlen (contents p) <=? len) = true.
Proof.
  intros Hok Hlen. pose proof (contents_len p Hok). pose proof Hok as (_ & _ & He & _).
  split; [|lia]. apply take_ge. unfold zlen in *. lia.
Qed.

Lemma system_ok_step s s' : step s s' -> system_ok s -> system_ok s'.
Proof.
  intros Hs (Hp & Hr & Hw & Hg). destruct Hs as [p w t g len Hwd Hlen|p w t g Hwd|p w t g len Hrdy
    |p w t g len data p' Hrd|p r t g data Hwd Hlen|p r t g data Hd|p r t g data p' Hwr|p r t g data p' Hwr
    |p r t g data Hrdy|p r t g data p' Hwr|p r w t g]; simpl in *; try by split_and!.
  - destruct (read_locked_spec p len Hp) as (p1 & Hrd' & Hok' & _ & Hc'); [lia|].
    destruct (full_read p len Hp Hr) as [Htk Hle]. rewrite Htk, Hle in *. simplify_eq.
    pose proof (contents_len _ Hok') as Hl1. rewrite Hc' in Hl1.
    split_and!; simpl; auto.
    + destruct w; simpl in *; auto. pose proof Hp as (_ & _ & He & _). change (zlen []) with 0 in Hl1. lia.
    + by rewrite Hc', app_nil_r.
  - destruct (write_try_spec p data Hp) as (done & p1 & Hwr' & Hok' & _ & Hres). simplify_eq.
    split_and!; simpl; auto. by rewrite Hres, app_assoc.
  - destruct (write_try_spec p data Hp) as (done & p1 & Hwr' & Hok' & _ & Hres). simplify_eq.
    destruct Hres as [-> _]. by split_and!.
  - split_and!; simpl; auto. unfold write_ready in Hrdy. pose proof Hp as (_ & Hs0 & He & _).
    rewrite Hs0, Z.add_0_r, wrap_small in Hrdy by lia. apply negb_true_iff, Z.ltb_ge in Hrdy. lia.
  - destruct (write_compact_spec p data Hp Hw) as (p1 & Hwr' & Hok' & _ & Hc'). simplify_eq.
    split_and!; simpl; auto. by rewrite Hc', app_assoc.
Qed.

(** Every step a thread is ready for succeeds: no access leaves the buffer and
    the lock is free. *)
Definition no_fault (s : system) : Prop :=
  (forall len, rd s = RReady len -> exists x, read_locked (sp s) len = Some x) /\
  (forall data, wr s = WTry data -> exists x, write_try (sp s) data = Some x) /\
  (forall data, wr s = WReady data -> exists x, write_compact (sp s) data = Some x).

(** C30: a pipe between one reader and one writer is a byte stream. However their
    steps interleave, the bytes accepted by completed writes are exactly the
    bytes returned by completed reads followed by those still in the buffer, in
    order, and no copy leaves the buffer, when reads ask for [PIPE_SIZE] bytes. *)
Theorem pipe_is_fifo p0 s :
  pipe_ok p0 -> endp p0 = 0 -> rtc step (mk_system p0 RIdle WIdle [] []) s ->
  given s = taken s ++ contents (sp s) /\ zlen (contents (sp s)) <= PIPE_SIZE /\ no_fault s.
Proof.
  intros Hp He Hrtc.
  assert (system_ok s) as (Hok & Hr & Hw & Hg).
  { refine (rtc_invariant _ _ system_ok_step _ _ Hrtc _). split_and!; simpl; auto.
    rewrite contents_prefix by done. by rewrite He. }
  pose proof (contents_len _ Hok) as Hcl. pose proof Hok as (_ & _ & Hend & _).
  unfold no_fault. split_and!; auto; [lia|..].
  - intros len E. rewrite E in Hr. simpl in Hr.
    destruct (read_locked_spec (sp s) len Hok) as (? & -> & _); [lia|eauto].
  - intros data E. destruct (write_try_spec (sp s) data Hok) as (? & ? & -> & _). eauto.
  - intros data E. rewrite E in Hw. destruct (write_compact_spec (sp s) data Hok Hw) as (? & -> & _). eauto.
Qed.

Definition empty_pipe : pipe := mk_pipe (replicate (Z.to_nat PIPE_SIZE) 0) 0 0 false false.

Lemma empty_pipe_ok : pipe_ok empty_pipe.
Proof. unfold pipe_ok, empty_pipe. cbn [buffer start endp lock]. rewrite zlen_replicate. lia. Qed.

Lemma pipe_is_fifo_witness :
  given (mk_system empty_pipe RIdle (WTry [1; 2]) [] []) =
    taken (mk_system empty_pipe RIdle (WTry [1; 2]) [] []) ++ contents empty_pipe.
Proof.
  refine (proj1 (pipe_is_fifo empty_pipe (mk_system empty_pipe RIdle (WTry [1; 2]) [] []) _ _ _)).
  - exact empty_pipe_ok.
  - reflexivity.
  - apply rtc_once. apply s_write_call; [reflexivity | vm_compute; discriminate].
Defined.

(** A lone call of [pipe_write] followed by a large enough [pipe_read]
    returns the data that was written; the calls report how much they moved. *)
Theorem pipe_roundtrip p data len :
  pipe_ok p -> endp p = 0 -> widowed p = false ->
  0 < zlen data <= PIPE_SIZE -> zlen data <= len ->
  exists p1 p2, pipe_write p data = Some (Done (Ok (zlen data)) p1) /\
    pipe_read p1 len = Some (Done (Ok data) p2) /\ contents p2 = [].
Proof.
  intros Hok He Hw Hd Hlen. unfold pipe_write. rewrite Hw.
  destruct (Z.ltb_spec PIPE_SIZE (zlen data)); [lia|].
  destruct (write_try_spec p data Hok) as (done & p1 & -> & Hok1 & Hw1 & Hres). orun.
  destruct done; [|lia]. exists p1.
  assert (contents p = []) as Hc0 by (rewrite contents_prefix by done; by rewrite He).
  rewrite Hc0 in Hres. simpl in Hres.
  pose proof (contents_len p1 Hok1) as Hcl. rewrite Hres in Hcl. pose proof Hok1 as (_ & Hs1 & _).
  destruct (read_locked_spec p1 len Hok1) as (p2 & Hrd & _ & _ & Hc2); [lia|].
  exists p2. split; [done|]. unfold pipe_read, read_ready. rewrite Hw1, Hw, Hs1, <- Hcl.
  destruct (Z.eqb_spec 0 (zlen data)); [lia|]. simpl. rewrite Hrd. orun. rewrite Hres in *.
  split; [|by rewrite (proj2 (Z.leb_le _ _) Hlen) in Hc2].
  rewrite take_ge; [done|]. unfold zlen in *. lia.
Qed.

Lemma pipe_roundtrip_witness :
  exists p1 p2, pipe_write empty_pipe [7; 8; 9] = Some (Done (Ok 3) p1) /\
    pipe_read p1 4 = Some (Done (Ok [7; 8; 9]) p2).
Proof.
  destruct (pipe_roundtrip empty_pipe [7; 8; 9] 4) as (p1 & p2 & H1 & H2 & _).
  - exact empty_pipe_ok.
  - reflexivity.
  - reflexivity.
  - vm_compute. split; [reflexivity | discriminate].
  - vm_compute. discriminate.
  - exists p1, p2. split; [exact H1 | exact H2].
Defined.

(** *** Defects the model exhibits *)

(** A read shorter than the contents does not advance [start]: the same bytes
    are returned again. *)
Lemma short_read_repeats :
  (x ← write_try empty_pipe [7; 8; 9];
   y ← read_locked x.2 2;
   z ← read_locked y.2 2;
   Some (y.1, z.1)) = Some ([7; 8], [7; 8]).
Proof. vm_compute. reflexivity. Qed.

(** A reader gets end of file as soon as the writer closes, with data left in
    the pipe. *)
Lemma closing_discards_data :
  (x ← write_try empty_pipe [7; 8; 9];
   y ← pipe_read (set_widowed x.2) 10;
   match y with Done r p => Some (contents p, r) | Blocked => None end) = Some ([7; 8; 9], Ok []).
Proof. vm_compute. reflexivity. Qed.

(** Two writers that both waited for the same room: the second copy runs past
    the end of the buffer. *)
Lemma two_writers_overrun (d1 d2 : list Z) :
  zlen d1 = PIPE_SIZE -> zlen d2 = PIPE_SIZE ->
  write_ready empty_pipe d1 = true /\ write_ready empty_pipe d2 = true /\
  exists p, write_compact empty_pipe d1 = Some p /\ write_compact p d2 = None.
Proof.
  intros H1 H2. unfold write_ready. rewrite H1, H2. split_and!; [reflexivity..|].
  destruct (write_compact_spec empty_pipe d1 empty_pipe_ok) as (p & Hp & Hok & _ & Hc).
  { change (endp empty_pipe) with 0. lia. }
  exists p. split; [done|]. pose proof (contents_len p Hok) as Hl.
  assert (contents empty_pipe = []) as E by (rewrite contents_prefix by exact empty_pipe_ok; apply take_0). rewrite Hc, E in Hl. simpl in Hl.
  pose proof Hok as (Hb & Hs & He & Hk). unfold write_compact, acquire. rewrite Hk. orun. simpl.
  rewrite Hs, Z.sub_0_r, (wrap_small 64 (endp p)), copy_out_prefix by lia. orun.
  destruct (blit_spec (buffer p) 0 (take (Z.to_nat (endp p)) (buffer p))) as (b & -> & Hbl & _);
    [lia|unfold zlen in *; rewrite length_take; lia|]. orun.
  unfold blit. destruct (Z.leb_spec (endp p + zlen d2) (zlen b)); [lia|]. by rewrite andb_false_r.
Qed.

End Pipe.
