(* ===== verification/Sha256.v ===== *)
(** * SHA-256 (util/sha256.c)

    The streaming hash: a context collects bytes in a 64-byte chunk and hashes
    each full chunk; the message schedule is kept in a window of 16 words that
    is rewritten in place. The theorems show that any split of the input into
    writes gives the hash of the padded message, computed with the 64-word
    schedule of the standard. *)

From S2P Require Import Prelude CBits.

Module Sha256.
Import CBits.

Abbreviation SHA256_CHUNK_SIZE := 64.

(** The round constants, four to a row. *)
Definition sha256_k_rows : list (list Z) :=
  [[0x428a2f98; 0x71374491; 0xb5c0fbcf; 0xe9b5dba5];
   [0x3956c25b; 0x59f111f1; 0x923f82a4; 0xab1c5ed5];
   [0xd807aa98; 0x12835b01; 0x243185be; 0x550c7dc3];
   [0x72be5d74; 0x80deb1fe; 0x9bdc06a7; 0xc19bf174];
   [0xe49b69c1; 0xefbe4786; 0x0fc19dc6; 0x240ca1cc];
   [0x2de92c6f; 0x4a7484aa; 0x5cb0a9dc; 0x76f988da];
   [0x983e5152; 0xa831c66d; 0xb00327c8; 0xbf597fc7];
   [0xc6e00bf3; 0xd5a79147; 0x06ca6351; 0x14292967];
   [0x27b70a85; 0x2e1b2138; 0x4d2c6dfc; 0x53380d13];
   [0x650a7354; 0x766a0abb; 0x81c2c92e; 0x92722c85];
   [0xa2bfe8a1; 0xa81a664b; 0xc24b8b70; 0xc76c51a3];
   [0xd192e819; 0xd6990624; 0xf40e3585; 0x106aa070];
   [0x19a4c116; 0x1e376c08; 0x2748774c; 0x34b0bcb5];
   [0x391c0cb3; 0x4ed8aa4a; 0x5b9cca4f; 0x682e6ff3];
   [0x748f82ee; 0x78a5636f; 0x84c87814; 0x8cc70208];
   [0x90befffa; 0xa4506ceb; 0xbef9a3f7; 0xc67178f2]].

Definition sha256_k : list Z := concat sha256_k_rows.

(** ** One round *)

Definition word := Z.

(** The working variables [ah[0..7]]. *)
Record vars := mk_vars { va : Z; vb : Z; vc : Z; vd : Z; ve : Z; vf : Z; vg : Z; vh : Z }.

Definition round (k w : Z) (v : vars) : vars :=
  let s1 := Z.lxor (Z.lxor (rorl (ve v) 6) (rorl (ve v) 11)) (rorl (ve v) 25) in
  let ch := Z.lxor (Z.land (ve v) (vf v)) (Z.land (u32 (Z.lnot (ve v))) (vg v)) in
  let t1 := u32 (vh v + s1 + ch + k + w) in
  let s0 := Z.lxor (Z.lxor (rorl (va v) 2) (rorl (va v) 13)) (rorl (va v) 22) in
  let maj := Z.lxor (Z.lxor (Z.land (va v) (vb v)) (Z.land (va v) (vc v))) (Z.land (vb v) (vc v)) in
  let t2 := u32 (s0 + maj) in
  mk_vars (u32 (t1 + t2)) (va v) (vb v) (vc v) (u32 (vd v + t1)) (ve v) (vf v) (vg v).

Definition sigma0 (x : Z) : Z := Z.lxor (Z.lxor (rorl x 7) (rorl x 18)) (Z.shiftr x 3).
Definition sigma1 (x : Z) : Z := Z.lxor (Z.lxor (rorl x 17) (rorl x 19)) (Z.shiftr x 10).

(** The word [w[j]] in round [i * 16 + j]: loaded from the chunk in the first
    sixteen rounds, updated in place afterwards. *)
Definition next_word (w ptr : list Z) (i j : Z) : option Z :=
  if i =? 0 then
    b0 ← ptr.[4 * j]; b1 ← ptr.[4 * j + 1]; b2 ← ptr.[4 * j + 2]; b3 ← ptr.[4 * j + 3];
    Some (Z.lor (Z.lor (Z.lor (u32 (Z.shiftl b0 24)) (Z.shiftl b1 16)) (Z.shiftl b2 8)) b3)
  else
    wj ← w.[j]; w1 ← w.[Z.land (j + 1) 0xf]; w9 ← w.[Z.land (j + 9) 0xf]; w14 ← w.[Z.land (j + 14) 0xf];
    Some (u32 (wj + (sigma0 w1 + w9 + sigma1 w14))).

(** The 64 rounds; [n] rounds are left, the current one is [r]. *)
Fixpoint rounds (n : nat) (r : Z) (ptr w : list Z) (v : vars) : option vars :=
  match n with
  | O => Some v
  | S n =>
      let i := r / 16 in
      let j := r mod 16 in
      x ← next_word w ptr i j;
      w ← w.[j <- x];
      k ← sha256_k.[Z.lor (Z.shiftl i 4) j];
      rounds n (r + 1) ptr w (round k x v)
  end.

(** [h[i] += ah[i]] *)
Definition add_vars (h v : vars) : vars :=
  mk_vars (u32 (va h + va v)) (u32 (vb h + vb v)) (u32 (vc h + vc v)) (u32 (vd h + vd v))
    (u32 (ve h + ve v)) (u32 (vf h + vf v)) (u32 (vg h + vg v)) (u32 (vh h + vh v)).

(** [junk] is what the uninitialised array [w] holds. *)
Definition sha256_consume_chunk (junk : list Z) (h : vars) (ptr : list Z) : option vars :=
  v ← rounds 64 0 ptr junk h;
  Some (add_vars h v).

(** ** The context

    [pos] is [ctx->ptr - ctx->chunk]. *)
Record sha256_ctx := mk_ctx { chunk : list Z; pos : Z; rem : Z; len : Z; h : vars }.

Definition sha256_h0 : vars :=
  mk_vars 0x6a09e667 0xbb67ae85 0x3c6ef372 0xa54ff53a 0x510e527f 0x9b05688c 0x1f83d9ab 0x5be0cd19.

(** [chunk] is what the context held before. *)
Definition sha256_init (chunk : list Z) : sha256_ctx :=
  mk_ctx chunk 0 SHA256_CHUNK_SIZE 0 sha256_h0.

Section stream.
Context (junk : list Z).

(** The loop of [sha256_write]; every iteration consumes at least one byte. *)
Fixpoint write_loop (fuel : nat) (ctx : sha256_ctx) (data : list Z) : option sha256_ctx :=
  if zlen data =? 0 then Some ctx else
  match fuel with
  | O => None
  | S fuel =>
      if (rem ctx =? SHA256_CHUNK_SIZE) && (SHA256_CHUNK_SIZE <=? zlen data) then
        h' ← sha256_consume_chunk junk (h ctx) (take 64 data);
        write_loop fuel (mk_ctx (chunk ctx) (pos ctx) (rem ctx) (len ctx) h') (drop 64 data)
      else
        let consumed := if zlen data <? rem ctx then zlen data else rem ctx in
        c ← blit (chunk ctx) (pos ctx) (take (Z.to_nat consumed) data);
        let rem' := rem ctx - consumed in
        let data := drop (Z.to_nat consumed) data in
        if rem' =? 0 then
          h' ← sha256_consume_chunk junk (h ctx) c;
          write_loop fuel (mk_ctx c 0 SHA256_CHUNK_SIZE (len ctx) h') data
        else write_loop fuel (mk_ctx c (pos ctx + consumed) rem' (len ctx) (h ctx)) data
  end.

Definition sha256_write (ctx : sha256_ctx) (data : list Z) : option sha256_ctx :=
  write_loop (length data) (mk_ctx (chunk ctx) (pos ctx) (rem ctx) (u64 (len ctx + zlen data)) (h ctx)) data.

(** The eight bytes stored at the end of the last chunk: [pos[7]] first, then
    [pos[6]] down to [pos[0]]. *)
Fixpoint len_bytes (n : nat) (x : Z) (acc : list Z) : list Z :=
  match n with O => acc | S n => len_bytes n (Z.shiftr x 8) (Z.land x 0xff :: acc) end.

Definition length_field (n : Z) : list Z :=
  len_bytes 7 (Z.shiftr n 5) [Z.land (u64 (Z.shiftl n 3)) 0xff].

(** The digest bytes of one word. *)
Definition word_bytes (x : Z) : list Z :=
  [Z.land (Z.shiftr x 24) 0xff; Z.land (Z.shiftr x 16) 0xff; Z.land (Z.shiftr x 8) 0xff; Z.land x 0xff].

Definition digest_of (v : vars) : list Z :=
  word_bytes (va v) ++ word_bytes (vb v) ++ word_bytes (vc v) ++ word_bytes (vd v) ++
  word_bytes (ve v) ++ word_bytes (vf v) ++ word_bytes (vg v) ++ word_bytes (vh v).

Definition sha256_close (ctx : sha256_ctx) : option (list Z) :=
  c ← blit (chunk ctx) (pos ctx) [0x80];
  let pos := pos ctx + 1 in
  let rem := rem ctx - 1 in
  '(c, pos, rem, h') ←
    (if rem <? 8 then
       c ← blit c pos (replicate (Z.to_nat rem) 0);
       h' ← sha256_consume_chunk junk (h ctx) c;
       Some (c, 0, SHA256_CHUNK_SIZE, h')
     else Some (c, pos, rem, h ctx));
  let rem := rem - 8 in
  c ← blit c pos (replicate (Z.to_nat rem) 0);
  let pos := pos + rem in
  c ← blit c pos (length_field (len ctx));
  h' ← sha256_consume_chunk junk h' c;
  Some (digest_of h').

Definition sha256_data (chunk data : list Z) : option (list Z) :=
  ctx ← sha256_write (sha256_init chunk) data;
  sha256_close ctx.
End stream.

(** ** The standard's definition *)

Definition be_word (ptr : list Z) (t : nat) : Z :=
  let b k := default 0 (ptr !! (4 * t + k)%nat) in
  b 0%nat * 2 ^ 24 + b 1%nat * 2 ^ 16 + b 2%nat * 2 ^ 8 + b 3%nat.

(** Word [t] of the schedule, given the words before it. *)
Definition word_at (ptr ws : list Z) (t : nat) : Z :=
  let w k := default 0 (ws !! k) in
  if (t <? 16)%nat then be_word ptr t
  else u32 (sigma1 (w (t - 2)%nat) + w (t - 7)%nat + sigma0 (w (t - 15)%nat) + w (t - 16)%nat).

Fixpoint schedule (ptr : list Z) (t : nat) : list Z :=
  match t with O => [] | S t => let ws := schedule ptr t in ws ++ [word_at ptr ws t] end.

Definition compress (v : vars) (blk : list Z) : vars :=
  add_vars v (foldl (fun v kw => round kw.1 kw.2 v) v (zip sha256_k (schedule blk 64))).

Fixpoint absorb (n : nat) (v : vars) (l : list Z) : vars :=
  match n with O => v | S n => absorb n (compress v (take 64 l)) (drop 64 l) end.

Fixpoint be_bytes (n : nat) (x : Z) : list Z :=
  match n with O => [] | S n => be_bytes n (x / 256) ++ [x mod 256] end.

Definition zeros_after (n : nat) : nat := Z.to_nat ((55 - Z.of_nat n) mod 64).

Definition sha256_pad (m : list Z) : list Z :=
  m ++ [0x80] ++ replicate (zeros_after (length m)) 0 ++ be_bytes 8 (8 * zlen m).

Definition sha256_spec (m : list Z) : list Z :=
  digest_of (absorb (length (sha256_pad m) / 64) sha256_h0 (sha256_pad m)).

(** ** The window of sixteen words is the schedule *)

Lemma schedule_len ptr t : length (schedule ptr t) = t.
Proof. induction t as [|t IH]; [done|]. simpl. rewrite length_app, IH. simpl. lia. Qed.

Lemma schedule_prefix ptr t n s :
  (s < t)%nat -> schedule ptr (n + t) !! s = schedule ptr t !! s.
Proof.
  intros Hs. induction n as [|n IH]; [done|]. simpl.
  rewrite lookup_app_l by (rewrite schedule_len; lia). done.
Qed.

Lemma schedule_lookup ptr n t :
  (t < n)%nat -> schedule ptr n !! t = Some (word_at ptr (schedule ptr t) t).
Proof.
  intros Ht. replace n with ((n - S t) + S t)%nat by lia. rewrite schedule_prefix by lia.
  simpl. rewrite lookup_app_r by (rewrite schedule_len; lia). by rewrite schedule_len, Nat.sub_diag.
Qed.

Lemma lor_byte_low b x k :
  0 <= k -> 0 <= x < 2 ^ 8 -> b mod 2 ^ (k + 8) = 0 -> Z.lor b (Z.shiftl x k) = b + x * 2 ^ k.
Proof.
  intros Hk Hx Hb. rewrite <- Z.shiftl_mul_pow2 by lia.
  apply Z.mod_divide in Hb as [q ->]; [|lia]. rewrite <- (Z.shiftl_mul_pow2 q) by lia.
  assert (Hd : Z.land (Z.shiftl q (k + 8)) (Z.shiftl x k) = 0).
  { bitwise i Hi. rewrite Z.testbit_0_l. destruct (Z.ltb_spec i (k + 8)).
    - rewrite (Z.testbit_neg_r q) by lia. done.
    - rewrite (testbit_high 8 x) by lia. by rewrite andb_false_r. }
  by rewrite (Z.add_nocarry_lxor _ _ Hd), Z.lxor_lor.
Qed.

Lemma word_load b0 b1 b2 b3 :
  0 <= b0 < 2 ^ 8 -> 0 <= b1 < 2 ^ 8 -> 0 <= b2 < 2 ^ 8 -> 0 <= b3 < 2 ^ 8 ->
  Z.lor (Z.lor (Z.lor (u32 (Z.shiftl b0 24)) (Z.shiftl b1 16)) (Z.shiftl b2 8)) b3 =
  b0 * 2 ^ 24 + b1 * 2 ^ 16 + b2 * 2 ^ 8 + b3.
Proof.
  intros H0 H1 H2 H3. rewrite (Z.shiftl_mul_pow2 b0) by lia. rewrite wrap_small by lia.
  rewrite (lor_byte_low _ b1); [|lia|done|apply Z.mod_divide; [lia|]; exists b0; lia].
  rewrite (lor_byte_low _ b2); [|lia|done|apply Z.mod_divide; [lia|]; exists (b0 * 2 ^ 8 + b1); lia].
  rewrite <- (Z.shiftl_0_r b3) at 1.
  rewrite (lor_byte_low _ b3); [lia|lia|done|].
  apply Z.mod_divide; [lia|]. exists (b0 * 2 ^ 16 + b1 * 2 ^ 8 + b2). lia.
Qed.

Lemma byte_lookup ptr (k : nat) :
  length ptr = 64%nat -> bytes_ok ptr -> (k < 64)%nat ->
  ptr.[Z.of_nat k] = Some (default 0 (ptr !! k)) /\ 0 <= default 0 (ptr !! k) < 2 ^ 8.
Proof.
  intros Hl Hb Hk. rewrite zlookup_nat. destruct (lookup_lt_is_Some_2 ptr k) as [x Hx]; [lia|].
  rewrite Hx. simpl. split; [done|]. unfold bytes_ok in Hb. rewrite Forall_lookup in Hb. apply (Hb k x Hx).
Qed.

(** [w] holds the last sixteen words before round [r]. *)
Definition window_ok (ptr w : list Z) (r : nat) : Prop :=
  length w = 16%nat /\
  forall t, (r <= t + 16)%nat -> (t < r)%nat ->
    w !! (t mod 16)%nat = Some (word_at ptr (schedule ptr t) t).

Lemma window_lookup ptr w (r t : nat) j :
  window_ok ptr w r -> (r <= t + 16)%nat -> (t < r)%nat -> j = Z.of_nat (t mod 16) ->
  w.[j] = Some (default 0 (schedule ptr r !! t)).
Proof.
  intros [_ Hw] Hlo Hhi ->. rewrite zlookup_nat, Hw by lia. by rewrite schedule_lookup by lia.
Qed.

Lemma next_word_ok ptr w (r : nat) :
  length ptr = 64%nat -> bytes_ok ptr -> (r < 64)%nat -> window_ok ptr w r ->
  next_word w ptr (Z.of_nat r / 16) (Z.of_nat r mod 16) = Some (word_at ptr (schedule ptr r) r).
Proof.
  intros Hl Hb Hr Hw. unfold next_word, word_at. destruct (Nat.ltb_spec r 16).
  - rewrite Z.div_small, Z.mod_small by lia. simpl (0 =? 0). cbv iota.
    assert (forall k : nat, (k < 4)%nat -> ptr.[4 * Z.of_nat r + Z.of_nat k] =
      Some (default 0 (ptr !! (4 * r + k)%nat)) /\ 0 <= default 0 (ptr !! (4 * r + k)%nat) < 2 ^ 8) as Hk.
    { intros k Hk. replace (4 * Z.of_nat r + Z.of_nat k) with (Z.of_nat (4 * r + k)) by lia.
      apply byte_lookup; auto. lia. }
    destruct (Hk 0%nat), (Hk 1%nat), (Hk 2%nat), (Hk 3%nat); try lia.
    change (Z.of_nat 0) with 0 in *. change (Z.of_nat 1) with 1 in *.
    change (Z.of_nat 2) with 2 in *. change (Z.of_nat 3) with 3 in *. rewrite Z.add_0_r in *.
    repeat match goal with H : ptr.[_] = _ |- _ => rewrite H; clear H; orun end.
    rewrite word_load by done. done.
  - destruct (Z.eqb_spec (Z.of_nat r / 16) 0); [divlia|].
    assert (forall d : nat, (d < 16)%nat ->
      Z.land (Z.of_nat r mod 16 + Z.of_nat d) 15 = Z.of_nat ((r - (16 - d)) mod 16)) as Hidx.
    { intros d Hd. change 15 with (Z.ones 4). rewrite Z.land_ones, Nat2Z.inj_mod by lia.
      change (2 ^ 4) with 16. change (Z.of_nat 16) with 16. divlia. }
    rewrite (window_lookup ptr w r (r - 16) (Z.of_nat r mod 16))
      by (auto; try lia; rewrite Nat2Z.inj_mod, Nat2Z.inj_sub by lia; change (Z.of_nat 16) with 16; divlia).
    orun.
    rewrite (window_lookup ptr w r (r - 15) (Z.land (Z.of_nat r mod 16 + 1) 15)) by (auto; try lia; apply (Hidx 1%nat); lia). orun.
    rewrite (window_lookup ptr w r (r - 7) (Z.land (Z.of_nat r mod 16 + 9) 15)) by (auto; try lia; apply (Hidx 9%nat); lia). orun.
    rewrite (window_lookup ptr w r (r - 2) (Z.land (Z.of_nat r mod 16 + 14) 15)) by (auto; try lia; apply (Hidx 14%nat); lia). orun.
    do 2 f_equal. lia.
Qed.

Lemma window_ok_step ptr w (r : nat) :
  window_ok ptr w r ->
  exists w', w.[Z.of_nat r mod 16 <- word_at ptr (schedule ptr r) r] = Some w' /\ window_ok ptr w' (S r).
Proof.
  intros [Hl Hw]. pose proof (Nat.mod_upper_bound r 16 ltac:(lia)).
  assert (Z.of_nat r mod 16 = Z.of_nat (r mod 16)) as E by (by rewrite Nat2Z.inj_mod).
  rewrite E, zstore_lt by (unfold zlen; lia). eexists. split; [done|]. rewrite Nat2Z.id.
  split; [by rewrite length_insert|]. intros t Hlo Hhi. destruct (decide (t = r)) as [->|Hne].
  - rewrite list_lookup_insert_eq by lia. done.
  - rewrite list_lookup_insert_ne; [apply Hw; lia|]. intros Hm.
    pose proof (Nat.div_mod_eq r 16). pose proof (Nat.div_mod_eq t 16). lia.
Qed.

Lemma sha256_k_len : length sha256_k = 64%nat.
Proof. reflexivity. Qed.

Lemma rounds_ok ptr W (n r : nat) w v :
  length ptr = 64%nat -> bytes_ok ptr ->
  (forall t, (t < 64)%nat -> W !! t = Some (word_at ptr (schedule ptr t) t)) ->
  (n + r = 64)%nat -> window_ok ptr w r ->
  rounds n (Z.of_nat r) ptr w v =
  Some (foldl (fun v kw => round kw.1 kw.2 v) v (zip (drop r sha256_k) (drop r W))).
Proof.
  intros Hl Hb HW. revert r w v. induction n as [|n IH]; intros r w v Hn Hw.
  - rewrite drop_ge by (rewrite sha256_k_len; lia). done.
  - cbn [rounds]. rewrite next_word_ok by (auto; lia). orun.
    destruct (window_ok_step ptr w r Hw) as (w' & -> & Hw'). orun.
    assert (Z.lor (Z.shiftl (Z.of_nat r / 16) 4) (Z.of_nat r mod 16) = Z.of_nat r) as ->.
    { rewrite Z.lor_comm, <- (Z.lxor_lor _ _), <- Z.add_nocarry_lxor.
      - rewrite Z.shiftl_mul_pow2 by lia. change (2 ^ 4) with 16. divlia.
      - bitwise i Hi. rewrite Z.testbit_0_l. destruct (Z.ltb_spec i 4).
        + rewrite (Z.testbit_neg_r _ (i - 4)) by lia. by rewrite andb_false_r.
        + rewrite (testbit_high 4) by (try lia; apply Z.mod_pos_bound; lia). done.
      - bitwise i Hi. rewrite Z.testbit_0_l. destruct (Z.ltb_spec i 4).
        + rewrite (Z.testbit_neg_r _ (i - 4)) by lia. by rewrite andb_false_r.
        + rewrite (testbit_high 4) by (try lia; apply Z.mod_pos_bound; lia). done. }
    destruct (lookup_lt_is_Some_2 sha256_k r) as [k Hk]; [rewrite sha256_k_len; lia|].
    rewrite zlookup_nat, Hk. orun.
    rewrite (drop_S sha256_k k r Hk), (drop_S W _ r (HW r ltac:(lia))).
    cbn [zip zip_with foldl fst snd]. replace (Z.of_nat r + 1) with (Z.of_nat (S r)) by lia.
    rewrite (IH (S r) w') by (lia || exact Hw'). reflexivity.
Qed.

Lemma consume_ok junk v ptr :
  length junk = 16%nat -> length ptr = 64%nat -> bytes_ok ptr ->
  sha256_consume_chunk junk v ptr = Some (compress v ptr).
Proof.
  intros Hj Hl Hb. unfold sha256_consume_chunk.
  assert (window_ok ptr junk 0) as Hw by (split; [done|lia]).
  unfold compress.
  assert (forall t, (t < 64)%nat -> schedule ptr 64 !! t = Some (word_at ptr (schedule ptr t) t)) as HW
    by (intros t; apply schedule_lookup).
  generalize dependent (schedule ptr 64). intros W HW.
  pose proof (rounds_ok ptr W 64 0 junk v Hl Hb HW eq_refl Hw) as Hr.
  change (Z.of_nat 0) with 0 in Hr. rewrite Hr. reflexivity.
Qed.

(** ** Absorbing blocks *)

#[local] Opaque compress.

Lemma absorb_app n v l l' : (64 * n <= length l)%nat -> absorb n v (l ++ l') = absorb n v l.
Proof.
  revert v l. induction n as [|n IH]; intros v l Hl; [done|]. cbn [absorb].
  rewrite take_app_le, drop_app_le by lia. apply IH. rewrite length_drop. lia.
Qed.

Lemma absorb_S n v l : absorb (S n) v l = compress (absorb n v l) (take 64 (drop (64 * n) l)).
Proof.
  revert v l. induction n as [|n IH]; intros v l; [done|].
  change (absorb (S (S n)) v l) with (absorb (S n) (compress v (take 64 l)) (drop 64 l)).
  rewrite IH. change (absorb (S n) v l) with (absorb n (compress v (take 64 l)) (drop 64 l)).
  rewrite drop_drop. by replace (64 + 64 * n)%nat with (64 * S n)%nat by lia.
Qed.

(** The context after the message [m]: whole blocks absorbed, the rest in the
    chunk. *)
Definition stream_ok (ctx : sha256_ctx) (m : list Z) : Prop :=
  length (chunk ctx) = 64%nat /\ pos ctx = zlen m mod 64 /\ rem ctx = 64 - pos ctx /\
  take (Z.to_nat (pos ctx)) (chunk ctx) = drop (64 * (length m / 64)) m /\
  h ctx = absorb (length m / 64) sha256_h0 m.

Section stream_proofs.
Context (junk : list Z) (Hjunk : length junk = 16%nat).
Implicit Types m d data : list Z.

(** The bytes of the partial block. *)
Lemma part_len m : length (drop (64 * (length m / 64)) m) = (length m mod 64)%nat.
Proof. rewrite length_drop. pose proof (Nat.div_mod_eq (length m) 64). lia. Qed.

Lemma zlen_mod m : zlen m mod 64 = Z.of_nat (length m mod 64).
Proof. unfold zlen. by rewrite Nat2Z.inj_mod. Qed.

(** A message that ends a block: the last block is absorbed. *)
Lemma absorb_block m d :
  bytes_ok (m ++ d) -> (length m mod 64 + length d = 64)%nat ->
  (length (m ++ d) / 64 = S (length m / 64))%nat /\ (length (m ++ d) mod 64 = 0)%nat /\
  sha256_consume_chunk junk (absorb (length m / 64) sha256_h0 m) (drop (64 * (length m / 64)) m ++ d) =
    Some (absorb (S (length m / 64)) sha256_h0 (m ++ d)).
Proof.
  intros Hb Hl. pose proof (Nat.div_mod_eq (length m) 64) as Hdm. rewrite length_app.
  assert (length m + length d = 64 * S (length m / 64) + 0)%nat as E by lia.
  split; [symmetry; apply (Nat.div_unique _ _ _ 0); lia|].
  split; [symmetry; apply (Nat.mod_unique _ _ (S (length m / 64)) 0); lia|].
  rewrite absorb_S, absorb_app by lia. rewrite drop_app_le by lia.
  rewrite take_ge by (rewrite length_app, part_len; lia).
  apply consume_ok; [done|rewrite length_app, part_len; lia|].
  apply Forall_app in Hb as [Hm Hd]. apply Forall_app. split; [by apply Forall_drop|done].
Qed.

(** A message extended within its block. *)
Lemma extend_part m d :
  (length m mod 64 + length d < 64)%nat ->
  (length (m ++ d) / 64 = length m / 64)%nat /\ (length (m ++ d) mod 64 = length m mod 64 + length d)%nat /\
  drop (64 * (length m / 64)) (m ++ d) = drop (64 * (length m / 64)) m ++ d /\
  absorb (length m / 64) sha256_h0 (m ++ d) = absorb (length m / 64) sha256_h0 m.
Proof.
  intros Hl. pose proof (Nat.div_mod_eq (length m) 64) as Hdm. rewrite length_app.
  split; [symmetry; apply (Nat.div_unique _ _ _ (length m mod 64 + length d)); lia|].
  split; [symmetry; apply (Nat.mod_unique _ _ (length m / 64)); lia|].
  split; [by rewrite drop_app_le by lia|]. apply absorb_app. lia.
Qed.

Lemma write_loop_ok fuel ctx m data :
  stream_ok ctx m -> bytes_ok (m ++ data) -> (length data <= fuel)%nat ->
  exists ctx', write_loop junk fuel ctx data = Some ctx' /\ stream_ok ctx' (m ++ data) /\ len ctx' = len ctx.
Proof.
  revert ctx m data. induction fuel as [|fuel IH]; intros ctx m data Hok Hb Hf.
  { destruct data; [|simpl in Hf; lia]. exists ctx. by rewrite app_nil_r. }
  pose proof Hok as (Hc & Hp & Hr & Htk & Hh). rewrite zlen_mod in Hp.
  pose proof (Nat.mod_upper_bound (length m) 64 ltac:(lia)) as Hmod.
  cbn [write_loop]. destruct (Z.eqb_spec (zlen data) 0) as [E|Hne].
  { destruct data; [|unfold zlen in E; simpl in E; lia]. exists ctx. by rewrite app_nil_r. }
  unfold zlen in Hne.
  (* the piece taken from the data, and what remains *)
  assert (Hrest : forall n : nat, m ++ data = (m ++ take n data) ++ drop n data)
    by (intros n; by rewrite <- app_assoc, take_drop).
  destruct ((rem ctx =? SHA256_CHUNK_SIZE) && (SHA256_CHUNK_SIZE <=? zlen data)) eqn:Ewhole.
  - apply andb_true_iff in Ewhole as [E1%Z.eqb_eq E2%Z.leb_le]. unfold zlen in E2.
    assert (Hm0 : (length m mod 64 = 0)%nat) by lia.
    rewrite (Hrest 64%nat) in Hb |- *. pose proof Hb as [Hb1 _]%Forall_app.
    destruct (absorb_block m (take 64 data) Hb1) as (Hq & Hm' & Hcons); [rewrite length_take; lia|].
    assert (drop (64 * (length m / 64)) m = []) as Hnil
      by (apply nil_length_inv; rewrite part_len; lia).
    rewrite Hnil in Hcons, Htk. rewrite app_nil_l in Hcons. rewrite Hh, Hcons. orun.
    destruct (IH (mk_ctx (chunk ctx) (pos ctx) (rem ctx) (len ctx)
      (absorb (S (length m / 64)) sha256_h0 (m ++ take 64 data))) (m ++ take 64 data) (drop 64 data))
      as (ctx' & Hrun & Hok' & Hlen); auto.
    + unfold stream_ok. rewrite zlen_mod, Hm', Hq. split_and!; cbn [chunk pos rem h len]; auto; [lia|].
      rewrite Htk. symmetry. apply drop_ge. pose proof (Nat.div_mod_eq (length (m ++ take 64 data)) 64) as Hx. rewrite Hq, Hm' in Hx. lia.
    + rewrite length_drop. lia.
    + eauto.
  - set (consumed := if zlen data <? rem ctx then zlen data else rem ctx).
    assert (1 <= consumed <= rem ctx /\ consumed <= zlen data) as Hcons
      by (unfold consumed, zlen; destruct (Z.ltb_spec (Z.of_nat (length data)) (rem ctx)); lia).
    set (n := Z.to_nat consumed). rewrite (Hrest n) in Hb |- *. pose proof Hb as [Hb1 _]%Forall_app.
    assert (Hln : length (take n data) = n) by (rewrite length_take; unfold n, zlen in *; lia).
    destruct (blit_spec (chunk ctx) (pos ctx) (take n data)) as (c & -> & Hcl & Hct); [lia|unfold zlen in *; lia|].
    orun. unfold zlen in Hcl, Hct. rewrite Hln, Htk in Hct.
    destruct (Z.eqb_spec (rem ctx - consumed) 0) as [Ez|Enz].
    + destruct (absorb_block m (take n data) Hb1) as (Hq & Hm' & Hcc); [lia|].
      rewrite take_ge in Hct by lia. rewrite Hct, Hh, Hcc. orun.
      destruct (IH (mk_ctx (drop (64 * (length m / 64)) m ++ take n data) 0 SHA256_CHUNK_SIZE (len ctx)
        (absorb (S (length m / 64)) sha256_h0 (m ++ take n data))) (m ++ take n data) (drop n data))
        as (ctx' & Hrun & Hok' & Hlen); auto.
      * unfold stream_ok. rewrite zlen_mod, Hm', Hq. split_and!; cbn [chunk pos rem h len]; auto.
        -- rewrite <- Hct. lia.
        -- symmetry. apply drop_ge. pose proof (Nat.div_mod_eq (length (m ++ take n data)) 64) as Hx. rewrite Hq, Hm' in Hx. lia.
      * rewrite length_drop. lia.
      * eauto.
    + destruct (extend_part m (take n data)) as (Hq & Hm' & Hd' & Ha'); [lia|].
      destruct (IH (mk_ctx c (pos ctx + consumed) (rem ctx - consumed) (len ctx) (h ctx))
        (m ++ take n data) (drop n data)) as (ctx' & Hrun & Hok' & Hlen); auto.
      * unfold stream_ok. rewrite zlen_mod, Hm', Hq, Ha', Hd'. split_and!; cbn [chunk pos rem h len]; auto; try lia.
        rewrite <- Hct. f_equal. lia.
      * rewrite length_drop. lia.
      * eauto.
Qed.

Lemma write_ok ctx m data :
  stream_ok ctx m -> bytes_ok (m ++ data) ->
  exists ctx', sha256_write junk ctx data = Some ctx' /\ stream_ok ctx' (m ++ data) /\
    len ctx' = u64 (len ctx + zlen data).
Proof.
  intros Hok Hb. unfold sha256_write.
  destruct (write_loop_ok (length data)
    (mk_ctx (chunk ctx) (pos ctx) (rem ctx) (u64 (len ctx + zlen data)) (h ctx)) m data)
    as (ctx' & -> & Hok' & Hlen); auto. eauto.
Qed.

(** ** Closing *)

Lemma len_bytes_be n x acc : len_bytes n x acc = be_bytes n x ++ acc.
Proof.
  revert x acc. induction n as [|n IH]; intros x acc; [done|]. cbn [len_bytes be_bytes].
  change 255 with (Z.ones 8). rewrite IH, <- app_assoc, Z.land_ones, Z.shiftr_div_pow2 by lia. done.
Qed.

Lemma length_field_be n : 0 <= n < 2 ^ 61 -> length_field n = be_bytes 8 (8 * n).
Proof.
  intros Hn. unfold length_field. rewrite len_bytes_be. change (be_bytes 8 (8 * n))
    with (be_bytes 7 (8 * n / 256) ++ [(8 * n) mod 256]).
  change 255 with (Z.ones 8). rewrite Z.land_ones, Z.shiftl_mul_pow2, Z.shiftr_div_pow2, wrap_small by lia.
  change (2 ^ 5) with 32. change (2 ^ 8) with 256. change (2 ^ 3) with 8.
  replace (8 * n / 256) with (n / 32) by divlia. by rewrite (Z.mul_comm n 8).
Qed.

Lemma be_bytes_ok n x : bytes_ok (be_bytes n x) /\ length (be_bytes n x) = n.
Proof.
  revert x. induction n as [|n IH]; intros x; [by split; [constructor|]|].
  destruct (IH (x / 256)) as [Hb Hl]. cbn [be_bytes]. split.
  - apply Forall_app. split; [done|]. repeat constructor; apply Z.mod_pos_bound; lia.
  - rewrite length_app, Hl. simpl. lia.
Qed.

(** Appending to a chunk whose first [off] bytes are known. *)
Lemma fill_ok c pre off d :
  length c = 64%nat -> take (Z.to_nat off) c = pre -> 0 <= off -> off + zlen d <= 64 ->
  exists c', blit c off d = Some c' /\ length c' = 64%nat /\
    take (Z.to_nat (off + zlen d)) c' = pre ++ d.
Proof.
  intros Hc Hp Ho Hd. destruct (blit_spec c off d) as (c' & Hb & Hl & Ht); [done|unfold zlen in *; lia|].
  exists c'. unfold zlen in *. split_and!; auto; [lia|]. by rewrite Ht, Hp.
Qed.

Lemma zeros_ok n : bytes_ok (replicate n 0).
Proof. apply bytes_ok_zeros. Qed.

Lemma sha256_close_ok ctx m :
  stream_ok ctx m -> bytes_ok m -> zlen m < 2 ^ 61 -> len ctx = zlen m ->
  sha256_close junk ctx = Some (sha256_spec m).
Proof.
  intros (Hc & Hp & Hr & Htk & Hh) Hb Hm Hlen. rewrite zlen_mod in Hp.
  pose proof (Nat.mod_upper_bound (length m) 64 ltac:(lia)) as Hmod.
  set (p := (length m mod 64)%nat) in *.
  pose proof (zlen_nonneg m). unfold sha256_close, sha256_spec, sha256_pad.
  rewrite Hlen, length_field_be by lia.
  destruct (be_bytes_ok 8 (8 * zlen m)) as [Hlb Hll]. set (lf := be_bytes 8 (8 * zlen m)) in *.
  set (part := drop (64 * (length m / 64)) m) in *.
  destruct (fill_ok (chunk ctx) part (pos ctx) [128]) as (c1 & -> & Hc1 & Ht1); auto; [lia|change (zlen [128]) with 1; lia|].
  orun. change (zlen [128]) with 1 in Ht1.
  assert (Hz : Z.of_nat (zeros_after (length m)) = if decide (p <= 55)%nat then 55 - Z.of_nat p else 119 - Z.of_nat p).
  { unfold zeros_after. pose proof (Nat.div_mod_eq (length m) 64) as Hdm. fold p in Hdm.
    pose proof (Z.mod_pos_bound (55 - Z.of_nat (length m)) 64 ltac:(lia)). rewrite Z2Nat.id by lia.
    symmetry. case_decide.
    - apply (Z.mod_unique _ _ (- Z.of_nat (length m / 64))); lia.
    - apply (Z.mod_unique _ _ (- Z.of_nat (length m / 64) - 1)); lia. }
  destruct (Z.ltb_spec (rem ctx - 1) 8) as [Hlt|Hge].
  - rewrite decide_False in Hz by lia.
    destruct (fill_ok c1 (part ++ [128]) (pos ctx + 1) (replicate (Z.to_nat (rem ctx - 1)) 0))
      as (c2 & -> & Hc2 & Ht2); auto; [lia|rewrite zlen_replicate; lia|].
    orun. rewrite zlen_replicate, take_ge in Ht2 by lia.
    set (d1 := [128] ++ replicate (Z.to_nat (rem ctx - 1)) 0).
    rewrite <- app_assoc in Ht2. fold d1 in Ht2.
    assert (bytes_ok (m ++ d1)) as Hb1.
    { apply Forall_app. split; [done|]. constructor; [lia|apply zeros_ok]. }
    destruct (absorb_block m d1 Hb1) as (Hq1 & Hm1 & Hcc);
      [fold p; unfold d1; rewrite length_app, length_replicate; simpl; lia|].
    fold part in Hcc. rewrite Ht2, Hh, Hcc. orun. change (SHA256_CHUNK_SIZE - 8) with 56.
    destruct (fill_ok (part ++ d1) [] 0 (replicate (Z.to_nat 56) 0)) as (c3 & -> & Hc3 & Ht3);
      [by rewrite <- Ht2|done|lia|rewrite zlen_replicate; lia|]. orun. rewrite zlen_replicate in Ht3.
    destruct (fill_ok c3 (replicate (Z.to_nat 56) 0) (0 + 56) lf) as (c4 & -> & Hc4 & Ht4);
      [done|exact Ht3|lia|unfold zlen; lia|]. orun.
    rewrite take_ge in Ht4 by (unfold zlen; lia).
    destruct (absorb_block (m ++ d1) (replicate (Z.to_nat 56) 0 ++ lf)) as (Hq2 & Hm2 & Hcc2).
    { apply Forall_app. split; [done|]. apply Forall_app. split; [apply zeros_ok|done]. }
    { rewrite Hm1, length_app, length_replicate. lia. }
    assert (drop (64 * (length (m ++ d1) / 64)) (m ++ d1) = []) as Hnil
      by (apply nil_length_inv; rewrite part_len; lia).
    rewrite Hnil, app_nil_l in Hcc2. rewrite Ht4, <- Hq1, Hcc2. orun.
    assert ((m ++ d1) ++ replicate (Z.to_nat 56) 0 ++ lf =
      m ++ [128] ++ replicate (zeros_after (length m)) 0 ++ lf) as Heq.
    { unfold d1. rewrite <- !app_assoc. do 2 f_equal. rewrite app_assoc, <- replicate_add. do 2 f_equal. lia. }
    rewrite <- Heq, Hq2. reflexivity.
  - rewrite decide_True in Hz by lia. orun.
    destruct (fill_ok c1 (part ++ [128]) (pos ctx + 1) (replicate (Z.to_nat (rem ctx - 1 - 8)) 0))
      as (c2 & -> & Hc2 & Ht2); auto; [lia|rewrite zlen_replicate; lia|].
    orun. rewrite zlen_replicate in Ht2.
    destruct (fill_ok c2 ((part ++ [128]) ++ replicate (Z.to_nat (rem ctx - 1 - 8)) 0)
      (pos ctx + 1 + (rem ctx - 1 - 8)) lf) as (c3 & -> & Hc3 & Ht3);
      [done|rewrite <- Ht2; f_equal; lia|lia|unfold zlen; lia|]. orun.
    rewrite take_ge in Ht3 by (unfold zlen; lia).
    replace (Z.to_nat (rem ctx - 1 - 8)) with (zeros_after (length m)) in Ht3 by lia.
    rewrite <- !app_assoc in Ht3.
    destruct (absorb_block m ([128] ++ replicate (zeros_after (length m)) 0 ++ lf)) as (Hq & Hm' & Hcc).
    { apply Forall_app. split; [done|]. constructor; [lia|]. apply Forall_app. split; [apply zeros_ok|done]. }
    { fold p. rewrite !length_app, length_replicate. simpl. lia. }
    fold part in Hcc. rewrite Ht3, Hh, Hcc. orun. rewrite Hq. reflexivity.
Qed.

(** A sequence of writes, then close. *)
Fixpoint writes (ctx : sha256_ctx) (ws : list (list Z)) : option sha256_ctx :=
  match ws with
  | [] => Some ctx
  | w :: ws => ctx ← sha256_write junk ctx w; writes ctx ws
  end.

Lemma writes_ok ws ctx m :
  stream_ok ctx m -> len ctx = zlen m -> bytes_ok (m ++ concat ws) -> zlen (m ++ concat ws) < 2 ^ 61 ->
  exists ctx', writes ctx ws = Some ctx' /\ stream_ok ctx' (m ++ concat ws) /\
    len ctx' = zlen (m ++ concat ws).
Proof.
  revert ctx m. induction ws as [|w ws IH]; intros ctx m Hok Hlen Hb Hl; cbn [writes concat] in *.
  - rewrite app_nil_r in *. eauto.
  - rewrite app_assoc in Hb, Hl |- *. pose proof Hb as [Hb1 _]%Forall_app.
    destruct (write_ok ctx m w Hok Hb1) as (ctx1 & -> & Hok1 & Hlen1). orun. apply IH; auto.
    rewrite Hlen1, Hlen, zlen_app. apply wrap_small. rewrite !zlen_app in Hl.
    pose proof (zlen_nonneg m). pose proof (zlen_nonneg w). pose proof (zlen_nonneg (concat ws)). lia.
Qed.

(** C32: the streaming interface computes SHA-256 of the concatenated input: for
    every way to cut a message into writes, closing the context returns the
    digest of the padded message computed with the standard's 64-word schedule,
    whatever the memory held before, and no access leaves the chunk. *)
Theorem sha256_streaming ws chunk0 :
  length chunk0 = 64%nat -> bytes_ok (concat ws) -> zlen (concat ws) < 2 ^ 61 ->
  (ctx ← writes (sha256_init chunk0) ws; sha256_close junk ctx) = Some (sha256_spec (concat ws)).
Proof.
  intros Hc Hb Hl. destruct (writes_ok ws (sha256_init chunk0) []) as (ctx & -> & Hok & Hlen); auto.
  - unfold stream_ok, sha256_init. split_and!; auto.
  - orun. by apply sha256_close_ok.
Qed.
End stream_proofs.

Lemma sha256_streaming_witness :
  (ctx ← writes (replicate 16 0) (sha256_init (replicate 64 7)) [[97]; []; [98; 99]];
   sha256_close (replicate 16 0) ctx) = Some (sha256_spec [97; 98; 99]).
Proof.
  refine (sha256_streaming (replicate 16 0) _ [[97]; []; [98; 99]] (replicate 64 7) _ _ _).
  - reflexivity.
  - reflexivity.
  - repeat constructor; lia.
  - vm_compute. reflexivity.
Defined.

(** The test vector of FIPS 180-2 for the message "abc". *)
Example sha256_abc :
  foldl (fun a b => a * 256 + b) 0 (sha256_spec [97; 98; 99]) =
  0xba7816bf8f01cfea414140de5dae2223b00361a396177a9cb410ff61f20015ad.
Proof. vm_compute. reflexivity. Qed.

End Sha256.
